(* ===== verification/_CoqProject ===== *)
-Q . S2P
Prelude.v
Bytes.v
Text.v
Constants.v
Crypto.v
Keccak.v
Network.v
Encoding.v
Rules.v
Subsidy.v
Transaction.v
Block.v
Pow.v
Address.v
Genesis.v
Signatures.v
Falcon.v
TxPolicy.v
Errors.v
Utxo.v
Validation.v
BlockValidation.v
Lmdb.v
BlockFiles.v
Chainstate.v
Db.v
DbChain.v
DbReturns.v
DbArchive.v
DbExample.v
Mempool.v
Node.v
Mining.v
Template.v
Miner.v
P2pConfig.v
Protocol.v
CompactBlock.v
WireCodec.v
Handshake.v
BanList.v
HeadersSync.v
Downloader.v
IpAddr.v
AddressManager.v
Connection.v
Relay.v
SideBranches.v
NodeQueries.v
NodeSync.v
NodeSyncBlocks.v
NodeSyncPeers.v
NodeSyncFacts.v
NodeSyncReturns.v
NodeSyncHistory.v
WordList.v
Mnemonic.v
Wallet.v
WalletSpend.v
DataFile.v
TextFacts.v
OperatorConfig.v
Rpc.v
WalletHistory.v
Service.v
ServiceHistory.v
