(* ===== verification/Prelude.v ===== *)
(** * Atho: a Rocq model of the Atho node and wallet

    A shallow embedding of the consensus, storage, pool, peer-to-peer and wallet code
    of the Atho testnet (Rust, src/crates/), with the theorems that make it correct.
    Pure functions are Rocq functions; [Result] and [Option] are [result] (below) and [option]; a
    method on [&mut self] takes the old state and returns the new one with its
    verdict, also on errors, so that what a failed call leaves behind is visible.
    Machine integers are [Z] with their wrapping, saturating or checked operation
    written out ([saturating_add], [checked_add], [wrapping_add] below); bytes are
    [list byte]; a [BTreeMap] or [HashMap] is a [gmap], iterated in key order by
    [sorted_entries] where the order is observable.

    ** The program's parts and the files that model them

    Core library (src/crates/atho-core):
    - [Constants], [Network], [Encoding], [Rules], [Subsidy]: constants.rs,
      network.rs, consensus/params.rs, encoding.rs, consensus/rules.rs,
      consensus/subsidy.rs. Network identifiers and parameters, the compact-size
      length prefix, the activation schedule, the reward curve and its sum.
    - [Transaction], [Block]: transaction.rs, block.rs. Data, the byte formats and
      their strict decoders, identifiers, sizes and Merkle roots.
    - [Pow]: consensus/pow.rs. Targets, the retarget rule, median time past, chain
      work and the order of competing branches.
    - [Address], [Genesis], [Signatures], [TxPolicy]: address.rs, genesis.rs,
      consensus/signatures.rs, consensus/tx_policy.rs. Addresses, the genesis
      states, the digests that are signed, fees and the per-transaction proof of
      work with its solvers.

    Cryptography: [Crypto] states what the hash crate and the Falcon crate promise
    as the classes [Sha3], [Sha3Laws] and [FalconBackend], and models the wrappers
    of atho-crypto/src/falcon.rs around them; [Falcon] models the key generation and
    signing of the same file with the seeded generator that feeds the signer
    ([FalconSigner], [FalconSignerLaws]); [Keccak] is the standard's SHA-3, with
    which the hard-coded genesis values are recomputed by the kernel.

    Storage (src/crates/atho-storage):
    - [Errors], [Utxo]: error.rs, utxo.rs. The coin set; [UtxoSet.apply_block] is
      all or nothing, with [disconnect_block] as its inverse.
    - [Validation], [BlockValidation]: validation.rs. Transactions one by one,
      then blocks against an overlay of the coin set.
    - [Chainstate]: chainstate.rs. Connecting and disconnecting blocks, pruning,
      branch selection with its incremental switch and rollback, restart from the
      archive. The database is the class [Database].
    - [BlockFiles]: block_files.rs. The append-only block files: records, appends
      that may fail or be cut short by a crash, reads, and the repair at start-up.
    - [Lmdb], [Db]: db.rs. The lmdb crate as the class [LmdbStore] of a store of
      tables with transactions, the write loop that enlarges a full map and tries
      again; and over it the tables of the chain, commits with their journal, loads,
      pruning, and the checks at start-up. bincode of the records is the class [DbSerde].
    - [DbChain]: the chain state over that database, from start-up to restart;
      [DbReturns]: the calls return; [DbArchive]: archived blocks load back;
      [DbExample]: the database run on a concrete store.

    Node (src/crates/atho-node):
    - [Mempool]: mempool.rs. Admission, revalidation, removal, selection for
      mining, the fingerprint; [consistent] is the pool's invariant.
    - [Node]: node.rs. The chain state and the pool together: blocks, relayed and
      submitted transactions, branches, snapshots.
    - [Mining], [Template]: mining.rs. The candidate block of a miner, and the
      proof that the validator accepts it.
    - [Miner]: miner.rs. The nonce search of several workers over shared atomics,
      as an interleaving of their steps.
    - [NodeQueries]: the reads of node.rs and chainstate.rs, the block locator, and the
      peer records. What the archive gives is the class [Archive], which the database
      of [Db] implements.
    - [SideBranches], [NodeSync], [NodeSyncBlocks], [NodeSyncPeers]: sync.rs, over the
      peer protocol below. The pool of blocks that do not extend the tip; the record
      that drives synchronization; which blocks are requested and what becomes of one that
      arrives; the messages, sessions and maintenance of a peer. Handlers are
      actions of the state monad [act] over that record, the node and the events they send.
    - [NodeSyncFacts]: what the handlers keep; [NodeSyncReturns]: the processing of
      buffered branches ends; [NodeSyncHistory]: histories of calls.

    Peer protocol (src/crates/atho-p2p):
    - [P2pConfig], [Protocol], [CompactBlock], [WireCodec]: config.rs, protocol.rs,
      codec.rs. Limits and their overrides, messages with the checks of their
      decoders, the reconstruction of announced blocks, frames. bincode is the
      class [Bincode] with the laws [BincodeLaws]; [Text] holds the string functions
      of the Rust library these and the address parsers use.
    - [Handshake], [BanList]: handshake.rs, banlist.rs. Sessions from the first
      message to readiness; offences, their decay and bans.
    - [HeadersSync], [Downloader], [Relay]: sync.rs, downloader.rs, relay.rs.
      Locators, header batches and the target; which block is asked of whom; the
      loop that drives the target and announces the node.
    - [IpAddr], [AddressManager], [Connection]: peer.rs, address_manager.rs,
      connection.rs. IP literals; the address book and what gossip may add to it;
      who may connect and which messages reach the node.

    Wallet (src/crates/atho-wallet):
    - [WordList], [Mnemonic]: the word list and mnemonic.rs. Recovery phrases of
      every length, their checksum and parser.
    - [Wallet]: hd.rs, keypool.rs, address_book.rs, snapshot.rs and the keys and
      addresses of wallet.rs. Seeds, domain-separated key derivation, the keypool, the
      address book and the scan that discovers used addresses.
    - [WalletSpend]: the rest of wallet.rs. Coin selection, the fee loop, change,
      signing, and the transaction that a payment becomes.
    - [DataFile]: datafile.rs. The file a wallet is kept in, its encryption, and how a
      save replaces it on a disk that may fail or crash.

    Operator (src/crates/atho-node/src/config.rs, service.rs, wallet_history.rs, src/crates/atho-rpc):
    - [TextFacts]: what trimming, splitting and the lines of a text do.
    - [OperatorConfig]: the rest of config.rs. The configuration, its file, the environment
      that overrides it, and the credentials of the RPC interface.
    - [Rpc]: requests, responses, commands and frames of the RPC interface, and from
      runtime.rs who is let in and what address it may bind to.
    - [WalletHistory]: wallet_history.rs. What blocks mean for the addresses of a wallet.
    - [Service]: the node and its synchronization behind the interface. Status, when it
      takes transactions and blocks, the commands that change something, the health of
      peers, one connection.
    - [ServiceHistory]: what requests can do to a node, over every history.

    The calls go upwards in this list: the node calls the pool and the chain
    state, which call the validation, which calls the transaction, block,
    proof-of-work and coin-set definitions; connections call the handshake, the
    bans and the addresses; the wallet calls the transaction, address, policy and
    signature definitions that the node validates with. A file requires exactly
    the files it calls.

    ** What the theorems show

    - Formats: every decoder accepts exactly the encoder's outputs and inverts it;
      identifiers determine what they identify up to a hash collision; a frame is
      accepted exactly when it is well-formed.
    - Coins: a validated block applies to the coin set without error
      ([BlockValidation.validated_block_applies]: the overlay the validator runs on
      refines the set it later updates); a failed application changes nothing; the
      value in existence is exactly the issuance at the height; disconnecting the
      last block restores the coins.
    - Authorization: an accepted transaction spends only coins whose owners signed.
    - Chain choice: branch selection never moves to a branch that is not preferred
      or past the reorganization limit, the preference is a strict order, targets
      stay in bounds and change by bounded steps.
    - The pool: its indexes are always those of its entries and no two entries
      spend the same coin; revalidation keeps exactly what still validates; miners
      get the valid entries in fee order; the node keeps the pool valid against
      its tip whatever it connects ([Node.pool_follows_tip]).
    - Mining: the candidate block passes the full validation; the workers' search
      finds a nonce under every fair schedule when there is one, and a mined
      header meets its target.
    - Peers: a message reaches the node only from a peer that completed a
      handshake for this network and is not banned ([Connection.connection_safety]);
      two honest nodes always become ready ([Relay.honest_peers_become_ready]);
      over any history gossip puts no more into the address book than its limits allow per
      IP address, subnet and source; bans last exactly as long as they
      should.
    - Synchronization: header batches are linked, carry their work and answer a
      locator, where there is one to compare with; the download scheduler refines a four-state machine per block, so no
      block it wants is lost; a compact block is rebuilt exactly. Whatever a node is sent,
      its synchronization state stays within its limits and its maps agree, and the node
      moves only by validated calls ([NodeSyncHistory.synchronization_safe]); a peer before
      its handshake changes nothing of the chain or the pool; a node out of sync relays no
      transactions; connecting what is buffered always ends
      ([NodeSyncReturns.processing_returns]).
    - Files: what was appended before a crash is read back after the repair, whatever
      part of the last record had reached the disk
      ([BlockFiles.archive_survives_crashes]).
    - The database: after any sequence of connected and disconnected blocks (those that can
      be undone), failed calls included, a restart finds the chain that was in memory
      ([DbChain.restart_restores]); a block committed for the first time loads back with its
      fees and transactions, also after pruning ([DbArchive.committed_block_loads]); commits
      return ([DbReturns.commit_returns]).
    - The wallet: recovery phrases are exactly the encodings of the entropies; receiving
      addresses are handed out in the order of their indexes and none twice; the
      payments it builds pass the validation of the node, contextual checks
      included ([WalletSpend.built_spend_is_valid]); a save that fails or crashes leaves
      a file that loads as before or as the wallet saved, except on Prunetest
      ([DataFile.save_survives_crashes]).
    - The operator: a saved configuration loads back when its values are such as a line of
      the file can hold ([OperatorConfig.saved_config_loads]); an interface that others can
      reach takes only requests with credentials, plain ones not the default, hashed ones
      whatever they hash ([Rpc.public_interface_guarded]); requests move a node only by the calls the network
      makes, by what its pool admits and by a reward address of its own network
      ([ServiceHistory.service_safe]), and out of sync they take no transaction and no block
      ([ServiceHistory.unsynced_service_takes_nothing]); every registered command has a
      handler. The history of a wallet adds up to its balance
      ([WalletHistory.history_adds_up]).
    - Behaviours that look unintended are theorems as well:
      [Utxo.disconnect_keeps_internally_spent], [Utxo.duplicate_output_replaces_entry],
      [Address.internal_hpk_never_decodes], [Address.decode_address_panics],
      [HeadersSync.tip_preference_cycles], [Downloader.front_block_starves],
      [Downloader.unsolicited_not_found_queues],
      [AddressManager.mapped_addresses_are_public],
      [Connection.full_book_keeps_failed_session],
      [BlockFiles.failed_append_drops_the_next],
      [DbExample.failed_journal_removal_diverges],
      [DbExample.reconnected_block_is_not_indexed], [Mnemonic.numbered_list_refused],
      [WalletSpend.fee_loop_windows], [NodeSyncHistory.unproven_header_unsyncs],
      [NodeSyncHistory.bad_body_settles_header],
      [DataFile.prunetest_wallet_cannot_load], [DataFile.network_is_not_authenticated],
      [OperatorConfig.hashed_credential_admits_empty_password],
      [OperatorConfig.saved_value_is_cut], [Rpc.hashed_defaults_are_public],
      [Rpc.public_rpc_takes_empty_password], [ServiceHistory.address_request_panics],
      [WalletHistory.gain_goes_unreported].

    ** Bounds and fuel

    Loops that the code bounds are structural. These searches carry fuel:
    the nonce search ([search_nonce]: 2^64 tries reach every nonce), the walk from
    the tip to genesis ([Chainstate.walk_back]: height plus one rounds suffice, by
    [canonical_blocks_walk]), the closure of the pool's relations
    ([Mempool.closure_fuel]: one round per edge) and the locator
    ([HeadersSync.locator_indexes]: one round per block suffices, by
    [block_locator_shape]), the seeded generator ([Falcon]: one round per byte), the
    scan of a block file ([BlockFiles]: one round per record) and the keypool's
    refill (one round per missing key), the database's write loop (42 rounds: the map
    doubles at most forty times) and the walk that rebuilds its height index (as many
    blocks as the tip is high), both by [DbReturns.commit_returns]. The wallet's fee loop has the four rounds
    the code gives it. Of the loops of the synchronization, evictions, the drop of old
    compact blocks and the processing of branches take the excess or the limit as their
    rounds, the walk over descendants one round per edge of the pool; the walk to known
    ancestors and the rehydration of parents, which the code does not bound, take the
    rounds of the class [Rounds]. Running out is a separate outcome ([None]), never a
    default answer. The nonce search of [Miner] has no fuel: its schedule is an
    argument.

    ** Not modelled

    Sockets, threads, the lmdb crate itself, the choice of data directories and the
    quarantine of files that do not load, the process environment,
    logging, the commands that only show something (what they give is the class [Views]) and the
    explorer, the node's threads that drive the sessions, the desktop application, the installer and the vendored Falcon implementation (src/Falcon
    512 rs), which [FalconBackend] stands for. Clocks and environment overrides are
    arguments; a call of the synchronization reads its clock once (class [Moment]). [cfg(test)] code is not modelled. *)
From Stdlib Require Export ZArith Lia Bool.
From stdpp Require Export base tactics decidable list option gmap sorting strings.
From stdpp Require Import options.

#[global] Open Scope Z_scope.
#[global] Set Default Proof Using "Type".

(** ** Results *)

(** Rust's [Result<T, E>]. *)
Inductive result (E A : Type) : Type :=
| Ok (a : A)
| Err (e : E).
Arguments Ok {E A} a.
Arguments Err {E A} e.

#[global] Instance result_ret E : MRet (result E) := fun A a => Ok a.
#[global] Instance result_bind E : MBind (result E) :=
  fun A B k r => match r with Ok a => k a | Err e => Err e end.
#[global] Instance result_fmap E : FMap (result E) :=
  fun A B f r => match r with Ok a => Ok (f a) | Err e => Err e end.

#[global] Instance result_eq_dec `{EqDecision E, EqDecision A} : EqDecision (result E A).
Proof. solve_decision. Defined.

(** [if c { return Err(e) }]. *)
Definition reject_if {E} (c : bool) (e : E) : result E unit :=
  if c then Err e else Ok tt.

(** [if c { return Err(e); }] in front of the rest of a body. *)
Notation "'reject' c 'with' e ; k" := (if c then Err e else k)
  (at level 10, c at level 100, e at level 0, k at level 200, format "'reject'  c  'with'  e ; '//' k").

(** [o.ok_or(e)?]. *)
Definition ok_or {E A} (o : option A) (e : E) : result E A :=
  match o with Some a => Ok a | None => Err e end.

(** [r.is_ok()]. *)
Definition is_ok {E A} (r : result E A) : bool :=
  match r with Ok _ => true | Err _ => false end.

(** [r.map_err(f)], and the [From] conversion that [?] applies to errors. *)
Definition map_err {E F A} (f : E -> F) (r : result E A) : result F A :=
  match r with Ok a => Ok a | Err e => Err (f e) end.

(** [for x in l { f(x)? }]. *)
Fixpoint try_for {E A} (f : A -> result E unit) (l : list A) : result E unit :=
  match l with
  | [] => Ok tt
  | x :: l => f x ≫= fun _ => try_for f l
  end.

(** [for x in l { out.push(f(x)?); }]. *)
Fixpoint try_map {E A B} (f : A -> result E B) (l : list A) : result E (list B) :=
  match l with
  | [] => Ok []
  | x :: l => y ← f x; ys ← try_map f l; Ok (y :: ys)
  end.

(** [for x in l { s = f(s, x)? }]: a fallible loop over a loop state. *)
Fixpoint try_fold {E A S} (f : S -> A -> result E S) (s : S) (l : list A) : result E S :=
  match l with
  | [] => Ok s
  | x :: l => f s x ≫= fun s => try_fold f s l
  end.

(** ** Machine integers

    A [w]-bit unsigned integer is a [Z] in [[0, 2^w)]; wrap-around, saturation
    and overflow checks are written out at the operations that use them. *)

Definition uint (w z : Z) : Prop := 0 <= z < 2 ^ w.
Abbreviation is_u8 := (uint 8).
Abbreviation is_u16 := (uint 16).
Abbreviation is_u32 := (uint 32).
Abbreviation is_u64 := (uint 64).

Definition U32_MAX : Z := 2 ^ 32 - 1.
Definition U64_MAX : Z := 2 ^ 64 - 1.
Definition USIZE_MAX : Z := 2 ^ 64 - 1.
Definition U128_MAX : Z := 2 ^ 128 - 1.
Definition I64_MAX : Z := 2 ^ 63 - 1.
Definition I64_MIN : Z := - 2 ^ 63.

Definition saturating_add (m a b : Z) : Z := Z.min m (a + b).
Definition saturating_mul (m a b : Z) : Z := Z.min m (a * b).
Definition saturating_sub (a b : Z) : Z := Z.max 0 (a - b).
Definition checked_add (m a b : Z) : option Z := if a + b <=? m then Some (a + b) else None.
Definition checked_sub (a b : Z) : option Z := if b <=? a then Some (a - b) else None.
Definition wrapping_add (w a b : Z) : Z := (a + b) mod 2 ^ w.
(** [Ord::clamp]. *)
Definition clamp (x lo hi : Z) : Z := if x <? lo then lo else if hi <? x then hi else x.

(** The length of a slice or vector, as a [usize]. *)
Definition zlen {A} (l : list A) : Z := Z.of_nat (length l).

(** [iter().sum()]. *)
Fixpoint zsum (l : list Z) : Z :=
  match l with
  | [] => 0
  | x :: l => x + zsum l
  end.

(** [slice.iter().position(p)]. *)
Fixpoint position {A} (p : A -> bool) (l : list A) : option nat :=
  match l with
  | [] => None
  | x :: l => if p x then Some 0%nat else S <$> position p l
  end.

(** [loop { if p(nonce) { return nonce; } nonce = nonce.wrapping_add(1); }] over [u64]
    nonces; [None] when [fuel] candidates were not enough. *)
Fixpoint search_nonce (fuel : nat) (p : Z -> bool) (nonce : Z) : option Z :=
  match fuel with
  | O => None
  | S fuel => if p nonce then Some nonce else search_nonce fuel p (wrapping_add 64 nonce 1)
  end.

(** [slice.windows(2)] as consecutive pairs. *)
Fixpoint windows2 {A} (l : list A) : list (A * A) :=
  match l with
  | x :: (y :: _) as t => (x, y) :: windows2 t
  | _ => []
  end.

(** [slice.iter().enumerate()]. *)
Definition enumerate {A} (l : list A) : list (Z * A) :=
  imap (fun i x => (Z.of_nat i, x)) l.

(** [set.insert(k)]: the set afterwards, or [None] when [k] was in it already
    (the call then returns [false]). *)
Definition insert_new {K} `{Countable K} (k : K) (seen : gset K) : option (gset K) :=
  if decide (k ∈ seen) then None else Some ({[k]} ∪ seen).

(** [iter.all(|k| seen.insert(k))], from a set of seen keys. *)
Fixpoint all_inserted {K} `{Countable K} (seen : gset K) (l : list K) : bool :=
  match l with
  | [] => true
  | k :: l => match insert_new k seen with Some seen => all_inserted seen l | None => false end
  end.

(** [BTreeMap] and [BTreeSet] iterate in key order: the entries of a [gmap]
    merge-sorted by key. *)
Definition sorted_entries {K V} `{Countable K} (le : relation K)
    `{!forall x y, Decision (le x y)} (m : gmap K V) : list (K * V) :=
  merge_sort (fun p q => le p.1 q.1) (map_to_list m).
Definition sorted_elements {K} `{Countable K} (le : relation K)
    `{!forall x y, Decision (le x y)} (s : gset K) : list K :=
  merge_sort le (elements s).

(** [Ord for Option]: [None] is least. *)
Definition option_compare {A} (cmp : A -> A -> comparison) (a b : option A) : comparison :=
  match a, b with
  | None, None => Eq
  | None, Some _ => Lt
  | Some _, None => Gt
  | Some a, Some b => cmp a b
  end.
(** [Ordering::then_with]. *)
Definition then_with (c d : comparison) : comparison := match c with Eq => d | _ => c end.

(** What [Ord] promises of [cmp]: a total preorder, here by its comparison
    function ([Eq] need not be equality). *)
Class Ordered {A} (cmp : A -> A -> comparison) : Prop := {
  cmp_antisym a b : cmp b a = CompOpp (cmp a b);
  cmp_eq_l a b c : cmp a b = Eq -> cmp a c = cmp b c;
  cmp_lt_trans a b c : cmp a b = Lt -> cmp b c = Lt -> cmp a c = Lt;
}.

(** ** Lemmas on results *)

Lemma bind_Ok {E A B} (m : result E A) (k : A -> result E B) b :
  (m ≫= k) = Ok b <-> exists a, m = Ok a /\ k a = Ok b.
Proof. destruct m; cbn; naive_solver. Qed.

Lemma bind_Err {E A B} (m : result E A) (k : A -> result E B) e :
  (m ≫= k) = Err e <-> m = Err e \/ exists a, m = Ok a /\ k a = Err e.
Proof. destruct m; cbn; naive_solver. Qed.

Lemma reject_if_Ok {E} (c : bool) (e : E) u : reject_if c e = Ok u <-> c = false.
Proof. destruct c, u; cbn; naive_solver. Qed.

Lemma ok_or_Ok {E A} (o : option A) (e : E) a : ok_or o e = Ok a <-> o = Some a.
Proof. destruct o; cbn; naive_solver. Qed.

Lemma map_err_Ok {E F A} (f : E -> F) (r : result E A) a : map_err f r = Ok a <-> r = Ok a.
Proof. destruct r; cbn; naive_solver. Qed.

Lemma try_for_Ok {E A} (f : A -> result E unit) l u :
  try_for f l = Ok u <-> Forall (fun x => f x = Ok tt) l.
Proof.
  destruct u. induction l as [|x l IH]; cbn; [by split|].
  rewrite Forall_cons, <- IH. destruct (f x) as [[]|]; cbn; naive_solver.
Qed.

Lemma try_map_Ok {E A B} (f : A -> result E B) l ys :
  try_map f l = Ok ys <-> Forall2 (fun x y => f x = Ok y) l ys.
Proof.
  revert ys. induction l as [|x l IH]; intros ys; cbn.
  - split; [by intros [= <-]|by intros ->%Forall2_nil_inv_l].
  - split.
    + intros (y & Hy & (ys' & Hys & [= <-])%bind_Ok)%bind_Ok. constructor; [done|by apply IH].
    + intros (y & ys' & Hy & Hys & ->)%Forall2_cons_inv_l. rewrite Hy. cbn. by rewrite (proj2 (IH ys') Hys).
Qed.

Lemma try_fold_app {E A S} (f : S -> A -> result E S) s l1 l2 :
  try_fold f s (l1 ++ l2) = (try_fold f s l1 ≫= fun s => try_fold f s l2).
Proof.
  revert s. induction l1 as [|x l1 IH]; intros s; cbn; [done|].
  destruct (f s x); cbn; [apply IH|done].
Qed.

(** Rule of induction for fallible loops that succeed. *)
Lemma try_fold_inv {E A S} (f : S -> A -> result E S) (P : list A -> S -> Prop) s l s' :
  try_fold f s l = Ok s' ->
  P [] s ->
  (forall done x todo s1 s2, l = done ++ x :: todo -> P done s1 -> f s1 x = Ok s2 ->
    P (done ++ [x]) s2) ->
  P l s'.
Proof.
  intros Hf H0 Hstep.
  enough (forall todo done s1, l = done ++ todo -> P done s1 ->
            try_fold f s1 todo = Ok s' -> P l s') as Hgen by by eapply (Hgen l []).
  induction todo as [|x todo IH]; intros done s1 Hl HP Hrun; cbn in Hrun.
  - rewrite app_nil_r in Hl. by simplify_eq.
  - apply bind_Ok in Hrun as (s2 & Hfx & Hrun).
    apply (IH (done ++ [x]) s2); [by rewrite <- app_assoc|by eapply Hstep|done].
Qed.

(** Reads every successful monadic hypothesis back into the facts that made it succeed. *)
Ltac inv_ok :=
  repeat match goal with
  | H : _ ≫= _ = Ok _ |- _ =>
      let a := fresh "a" in let H1 := fresh "Hok" in
      apply bind_Ok in H as (a & H1 & H); cbn beta in H
  | H : (if ?c then Err _ else _) = Ok _ |- _ =>
      let Hc := fresh "Hc" in destruct c eqn:Hc; [discriminate H|]
  | H : reject_if _ _ = Ok ?u |- _ => apply reject_if_Ok in H; try clear u
  | H : ok_or _ _ = Ok _ |- _ => apply ok_or_Ok in H
  | H : map_err _ _ = Ok _ |- _ => apply map_err_Ok in H
  | H : Ok _ = Ok _ |- _ => injection H as H; try subst
  | H : Err _ = Ok _ |- _ => discriminate H
  | H : mret _ = Ok _ |- _ => injection H as H; try subst
  | a : unit |- _ => destruct a
  end.

(** Turns boolean comparisons in the context and the goal into propositions. *)
Ltac bool_to_prop :=
  repeat match goal with
  | H : _ && _ = true |- _ => apply andb_true_iff in H as [? ?]
  | H : _ || _ = false |- _ => apply orb_false_iff in H as [? ?]
  | H : negb _ = true |- _ => apply negb_true_iff in H
  | H : negb _ = false |- _ => apply negb_false_iff in H
  | H : bool_decide _ = true |- _ => apply bool_decide_eq_true in H
  | H : bool_decide _ = false |- _ => apply bool_decide_eq_false in H
  | H : (_ <? _) = true |- _ => apply Z.ltb_lt in H
  | H : (_ <? _) = false |- _ => apply Z.ltb_ge in H
  | H : (_ <=? _) = true |- _ => apply Z.leb_le in H
  | H : (_ <=? _) = false |- _ => apply Z.leb_gt in H
  | H : (_ =? _) = true |- _ => apply Z.eqb_eq in H
  | H : (_ =? _) = false |- _ => apply Z.eqb_neq in H
  end.

(** ** Lemmas on integers and lists *)

Lemma checked_add_Some m a b c : checked_add m a b = Some c <-> c = a + b /\ a + b <= m.
Proof. unfold checked_add. destruct (Z.leb_spec (a + b) m); naive_solver lia. Qed.
Lemma checked_sub_Some a b c : checked_sub a b = Some c <-> c = a - b /\ b <= a.
Proof. unfold checked_sub. destruct (Z.leb_spec b a); naive_solver lia. Qed.

Lemma clamp_bounds x lo hi : lo <= hi -> lo <= clamp x lo hi <= hi.
Proof.
  unfold clamp. intros. destruct (Z.ltb_spec x lo), (Z.ltb_spec hi x); lia.
Qed.
Lemma clamp_mono x y lo hi : lo <= hi -> x <= y -> clamp x lo hi <= clamp y lo hi.
Proof.
  unfold clamp. intros.
  destruct (Z.ltb_spec x lo), (Z.ltb_spec y lo), (Z.ltb_spec hi x), (Z.ltb_spec hi y); lia.
Qed.
Lemma clamp_id x lo hi : lo <= x <= hi -> clamp x lo hi = x.
Proof.
  unfold clamp. intros. destruct (Z.ltb_spec x lo), (Z.ltb_spec hi x); lia.
Qed.

(** Induction by chunks of two. *)
Lemma list_ind2 {A} (P : list A -> Prop) :
  P [] -> (forall a, P [a]) -> (forall a b l, P l -> P (a :: b :: l)) -> forall l, P l.
Proof.
  intros H0 H1 H2 l. enough (P l /\ forall a, P (a :: l)) as [? _] by done.
  induction l as [|b l [IH1 IH2]]; split; auto.
Qed.

Lemma zlen_nil {A} : zlen (A:=A) [] = 0.
Proof. done. Qed.
Lemma zlen_cons {A} (x : A) l : zlen (x :: l) = 1 + zlen l.
Proof. unfold zlen. cbn. lia. Qed.
Lemma zlen_app {A} (l1 l2 : list A) : zlen (l1 ++ l2) = zlen l1 + zlen l2.
Proof. unfold zlen. rewrite length_app. lia. Qed.
Lemma zlen_fmap {A B} (f : A -> B) l : zlen (f <$> l) = zlen l.
Proof. unfold zlen. by rewrite length_fmap. Qed.
Lemma zlen_nonneg {A} (l : list A) : 0 <= zlen l.
Proof. unfold zlen. lia. Qed.

Lemma zsum_app l1 l2 : zsum (l1 ++ l2) = zsum l1 + zsum l2.
Proof. induction l1; cbn in *; lia. Qed.
Lemma zsum_nonneg l : Forall (fun z => 0 <= z) l -> 0 <= zsum l.
Proof. induction 1; cbn in *; lia. Qed.
#[global] Instance zsum_perm : Proper (Permutation ==> eq) zsum.
Proof. intros l1 l2 H. induction H; cbn in *; lia. Qed.

(** *** Nonce search *)

Lemma search_nonce_sound fuel p n r : search_nonce fuel p n = Some r -> p r = true.
Proof.
  revert n. induction fuel as [|fuel IH]; intros n H; [done|]. cbn in H.
  destruct (p n) eqn:E; [by simplify_eq|by eapply IH].
Qed.

Lemma search_nonce_u64 fuel p n r : is_u64 n -> search_nonce fuel p n = Some r -> is_u64 r.
Proof.
  revert n. induction fuel as [|fuel IH]; intros n Hn H; [done|]. cbn [search_nonce] in H.
  destruct (p n); [by simplify_eq|]. eapply IH; [|done]. unfold uint, wrapping_add.
  by apply Z.mod_pos_bound.
Qed.

(** The loop returns the first nonce that works, wrapping past the maximum. *)
Lemma search_nonce_finds fuel p n k :
  is_u64 n -> (k < fuel)%nat -> p ((n + Z.of_nat k) mod 2 ^ 64) = true ->
  (forall j, (j < k)%nat -> p ((n + Z.of_nat j) mod 2 ^ 64) = false) ->
  search_nonce fuel p n = Some ((n + Z.of_nat k) mod 2 ^ 64).
Proof.
  revert fuel n. induction k as [|k IH]; intros fuel n Hn Hf Hp Hj; destruct fuel as [|fuel]; try lia.
  - rewrite Z.add_0_r, Z.mod_small in * by apply Hn. cbn. by rewrite Hp.
  - cbn [search_nonce]. pose proof (Hj 0%nat ltac:(lia)) as H0.
    rewrite Z.add_0_r, Z.mod_small in H0 by apply Hn. rewrite H0.
    assert (forall j, (n + Z.of_nat (S j)) mod 2 ^ 64 = (wrapping_add 64 n 1 + Z.of_nat j) mod 2 ^ 64)
      as Hstep.
    { intros j. unfold wrapping_add. rewrite Z.add_mod_idemp_l by done. f_equal. lia. }
    rewrite Hstep in *. apply IH; [by apply Z.mod_pos_bound|lia|done|].
    intros j Hlt. rewrite <- Hstep. apply Hj. lia.
Qed.

(** *** Comparison functions *)

#[global] Instance Z_ordered : Ordered Z.compare.
Proof.
  split; [apply Z.compare_antisym|by intros a b c ->%Z.compare_eq_iff|].
  intros a b c. rewrite !Z.compare_lt_iff. lia.
Qed.

Section ordered.
Context {A : Type} (cmp : A -> A -> comparison) `{!Ordered cmp}.

Lemma cmp_refl a : cmp a a = Eq.
Proof using Type*. pose proof (cmp_antisym (cmp:=cmp) a a). by destruct (cmp a a). Qed.
Lemma cmp_gt_lt a b : cmp a b = Gt <-> cmp b a = Lt.
Proof using Type*. rewrite (cmp_antisym (cmp:=cmp) a b). by destruct (cmp a b). Qed.
Lemma cmp_eq_sym a b : cmp a b = Eq <-> cmp b a = Eq.
Proof using Type*. rewrite (cmp_antisym (cmp:=cmp) a b). by destruct (cmp a b). Qed.
Lemma cmp_eq_r a b c : cmp a b = Eq -> cmp c a = cmp c b.
Proof using Type*. intros E. rewrite (cmp_antisym (cmp:=cmp) a c), (cmp_antisym (cmp:=cmp) b c). by rewrite (cmp_eq_l (cmp:=cmp) a b c E). Qed.

#[global] Instance option_ordered : Ordered (option_compare cmp).
Proof using Type*.
  split.
  - intros [a|] [b|]; cbn; try done. apply cmp_antisym.
  - intros [a|] [b|] [c|]; cbn; try done. apply cmp_eq_l.
  - intros [a|] [b|] [c|]; cbn; try done. apply cmp_lt_trans.
Qed.
Lemma flip_ordered : Ordered (fun a b => cmp b a).
Proof using Type*.
  split.
  - intros a b. apply cmp_antisym.
  - intros a b c E. apply cmp_eq_r. by apply cmp_eq_sym.
  - intros a b c Hab Hbc. by eapply cmp_lt_trans.
Qed.
Lemma key_ordered {B} (f : B -> A) : Ordered (fun a b => cmp (f a) (f b)).
Proof using Type*.
  split; intros; [apply cmp_antisym|by apply cmp_eq_l|by eapply cmp_lt_trans].
Qed.
End ordered.

Lemma then_with_ordered {A} (cmp1 cmp2 : A -> A -> comparison)
    `{!Ordered cmp1, !Ordered cmp2} :
   Ordered (fun a b => then_with (cmp1 a b) (cmp2 a b)).
Proof.
  split.
  - intros a b. rewrite (cmp_antisym (cmp:=cmp1) a b), (cmp_antisym (cmp:=cmp2) a b).
    by destruct (cmp1 a b).
  - intros a b c. destruct (cmp1 a b) eqn:E; cbn; try done. intros E2.
    by rewrite (cmp_eq_l a b c E), (cmp_eq_l a b c E2).
  - intros a b c. destruct (cmp1 a b) eqn:E1, (cmp1 b c) eqn:E2; cbn; try done; intros H1 H2.
    + rewrite (cmp_eq_l a b c E1), E2. cbn. by eapply cmp_lt_trans.
    + by rewrite (cmp_eq_l a b c E1), E2.
    + by rewrite <- (cmp_eq_r cmp1 b c a E2), E1.
    + by rewrite (cmp_lt_trans a b c E1 E2).
Qed.

Create HintDb atho.
Create Rewrite HintDb zlen.
#[export] Hint Resolve zlen_nonneg Z.le_0_1 : atho.
#[export] Hint Rewrite @zlen_nil @zlen_cons @zlen_app @zlen_fmap : zlen.

Lemma zlen_concat_map {A B} (f : A -> list B) l :
  zlen (mjoin (f <$> l)) = zsum ((fun x => zlen (f x)) <$> l).
Proof.
  induction l as [|x l IH]; [done|]. rewrite !fmap_cons. cbn [zsum].
  rewrite <- IH. apply zlen_app.
Qed.

Section sorted.
Context {K : Type} `{Countable K} (le : relation K) `{!forall x y, Decision (le x y)}.

Lemma sorted_entries_perm {V} (m : gmap K V) : sorted_entries le m ≡ₚ map_to_list m.
Proof. apply merge_sort_Permutation. Qed.
Lemma elem_of_sorted_entries {V} (m : gmap K V) k v :
  (k, v) ∈ sorted_entries le m <-> m !! k = Some v.
Proof. rewrite sorted_entries_perm. apply elem_of_map_to_list. Qed.
Lemma sorted_elements_perm (s : gset K) : sorted_elements le s ≡ₚ elements s.
Proof. apply merge_sort_Permutation. Qed.
Lemma elem_of_sorted_elements (s : gset K) k : k ∈ sorted_elements le s <-> k ∈ s.
Proof. rewrite sorted_elements_perm. apply elem_of_elements. Qed.
End sorted.

(** Every key is new exactly when the keys are distinct and unseen. *)
Lemma all_inserted_true {K} `{Countable K} (seen : gset K) (l : list K) :
  all_inserted seen l = true <-> NoDup l /\ Forall (fun k => k ∉ seen) l.
Proof.
  revert seen. induction l as [|k l IH]; intros seen; cbn.
  { split; [|done]. intros _. split; constructor. }
  unfold insert_new. rewrite NoDup_cons, Forall_cons. case_decide as Hk.
  - split; [done|]. by intros (_ & ? & _).
  - rewrite IH, !Forall_forall. set_solver.
Qed.

(** *** [position] *)

Lemma position_Some {A} (p : A -> bool) l k :
  position p l = Some k -> exists x, l !! k = Some x /\ p x = true.
Proof.
  revert k. induction l as [|x l IH]; intros k H; [done|]. cbn in H. destruct (p x) eqn:E.
  - injection H as <-. by exists x.
  - destruct (position p l) as [j|]; [|done]. injection H as <-. by apply IH.
Qed.
Lemma position_None {A} (p : A -> bool) l : position p l = None <-> forall x, x ∈ l -> p x = false.
Proof.
  induction l as [|x l IH]; [split; [by intros _ ? ?%elem_of_nil|done]|]. cbn. split.
  - destruct (p x) eqn:E; [done|]. destruct (position p l); [done|].
    intros _ y [->|Hy]%elem_of_cons; [done|by apply IH].
  - intros H. rewrite (H x) by by left. rewrite (proj2 IH); [done|]. intros y Hy. apply H. by right.
Qed.

(** *** [enumerate] *)

Lemma enumerate_lookup {A} (l : list A) k : enumerate l !! k = (fun x => (Z.of_nat k, x)) <$> l !! k.
Proof. unfold enumerate. by rewrite list_lookup_imap. Qed.
Lemma enumerate_elem {A} (l : list A) i x :
  (i, x) ∈ enumerate l <-> exists k, i = Z.of_nat k /\ l !! k = Some x.
Proof.
  rewrite list_elem_of_lookup. split.
  - intros [k Hk]. rewrite enumerate_lookup in Hk. exists k.
    destruct (l !! k); [|done]. by injection Hk as <- <-.
  - intros (k & -> & Hk). exists k. by rewrite enumerate_lookup, Hk.
Qed.
Lemma enumerate_snd {A} (l : list A) : (enumerate l).*2 = l.
Proof.
  apply list_eq. intros k. rewrite list_lookup_fmap, enumerate_lookup. by destruct (l !! k).
Qed.

Lemma existsb_false {A} (f : A -> bool) l : existsb f l = false <-> Forall (fun x => f x = false) l.
Proof.
  induction l as [|x l IH]; cbn; [done|]. by rewrite orb_false_iff, Forall_cons, IH.
Qed.

(** A loop that looks only at the [core] of its elements. *)
Lemma fold_left_core {A B S} (core : A -> B) (f : S -> A -> S) l l' s :
  (forall s a a', core a = core a' -> f s a = f s a') -> core <$> l = core <$> l' ->
  fold_left f l s = fold_left f l' s.
Proof.
  intros Hf. revert l' s. induction l as [|a l IH]; intros [|a' l'] s Heq; try done.
  injection Heq as Ha Hl. cbn. rewrite (Hf _ _ _ Ha). by apply IH.
Qed.
Lemma zlen_core {A B} (core : A -> B) l l' : core <$> l = core <$> l' -> zlen l = zlen l'.
Proof. intros H. apply (f_equal length) in H. rewrite !length_fmap in H. unfold zlen. by rewrite H. Qed.

Lemma try_fold_ext {E A S} (f g : S -> A -> result E S) s l :
  (forall s a, f s a = g s a) -> try_fold f s l = try_fold g s l.
Proof.
  intros Hfg. revert s. induction l as [|a l IH]; intros s; [done|]. cbn. rewrite Hfg.
  destruct (g s a); cbn; [apply IH|done].
Qed.

Lemma pair_snd {A B} (p : A * B) y : p.2 = y -> p = (p.1, y).
Proof. by destruct p; cbn; intros ->. Qed.

Lemma map_to_list_filter {K V} `{Countable K} (P : K * V -> Prop) `{!forall kv, Decision (P kv)} (m : gmap K V) :
  map_to_list (filter P m) ≡ₚ filter P (map_to_list m).
Proof.
  apply NoDup_Permutation; [apply NoDup_map_to_list|apply NoDup_filter, NoDup_map_to_list|].
  intros [k v]. rewrite elem_of_map_to_list, list_elem_of_filter, elem_of_map_to_list, map_lookup_filter_Some. tauto.
Qed.

#[global] Instance zlen_perm {A} : Proper ((≡ₚ) ==> eq) (zlen (A:=A)).
Proof. intros l l' Hl. unfold zlen. by rewrite Hl. Qed.

Lemma StronglySorted_fmap_filter {A B} (R : relation B) (f : A -> B) (P : A -> Prop) `{!forall x, Decision (P x)} l :
  StronglySorted R (f <$> l) -> StronglySorted R (f <$> filter P l).
Proof.
  induction l as [|x l IH]; intros Hs; [done|]. rewrite fmap_cons in Hs. apply StronglySorted_inv in Hs as [Hs Hx].
  rewrite filter_cons. destruct (decide (P x)); [|by apply IH]. rewrite fmap_cons. constructor; [by apply IH|].
  rewrite Forall_forall in Hx. apply Forall_fmap, Forall_forall. intros y [_ Hy]%list_elem_of_filter.
  by apply Hx, list_elem_of_fmap_2.
Qed.

Lemma StronglySorted_impl {A} (R S : relation A) l :
  StronglySorted R l -> (forall a b, R a b -> S a b) -> StronglySorted S l.
Proof. induction 1 as [|a l Hs IH Ha]; intros Himp; constructor; [by apply IH|]. by eapply Forall_impl; [|apply Himp]. Qed.

Lemma list_bind_fmap_comm {A B C} (f : A -> list B) (g : B -> C) l :
  (l ≫= fun x => g <$> f x) = g <$> (l ≫= f).
Proof. induction l as [|x l IH]; cbn; [done|]. by rewrite fmap_app, <- IH. Qed.
