(* ===== verification/Bytes.v ===== *)
(** * Bytes

    Byte strings, fixed-width integer encodings ([to_le_bytes], [to_be_bytes]
    and their inverses), the lexicographic order of byte arrays and the
    offset-passing readers that the decoders under src/ are written with. *)
From Stdlib Require Import Strings.Byte Strings.String.
Export Corelib.Init.Byte (byte(..)).
From stdpp Require Import countable options.
From S2P Require Import Prelude.

Abbreviation byte := Init.Byte.byte.
(** [Vec<u8>], [&[u8]] and, with a length invariant, [[u8; N]]. *)
Abbreviation bytes := (list Init.Byte.byte).

#[global] Instance byte_eq_decision : EqDecision byte := byte_eq_dec.
#[global] Instance byte_inhabited : Inhabited byte := populate x00.

Definition byte_to_Z (b : byte) : Z := Z.of_N (Byte.to_N b).
Definition byte_of_Z (z : Z) : byte := default x00 (Byte.of_N (Z.to_N (z mod 256))).

#[global] Program Instance byte_countable : Countable byte :=
  inj_countable Byte.to_N Byte.of_N _.
Next Obligation. intros b. apply Byte.of_to_N. Qed.

(** [n.to_le_bytes()] for an [8 * k]-bit integer. *)
Fixpoint le_bytes (k : nat) (z : Z) : bytes :=
  match k with
  | O => []
  | S k => byte_of_Z z :: le_bytes k (z / 256)
  end.
Fixpoint le_decode (bs : bytes) : Z :=
  match bs with
  | [] => 0
  | b :: bs => byte_to_Z b + 256 * le_decode bs
  end.
(** [n.to_be_bytes()] and [BigUint::from_bytes_be]. *)
Definition be_bytes (k : nat) (z : Z) : bytes := reverse (le_bytes k z).
Fixpoint be_decode_acc (acc : Z) (bs : bytes) : Z :=
  match bs with
  | [] => acc
  | b :: bs => be_decode_acc (256 * acc + byte_to_Z b) bs
  end.
Definition be_decode (bs : bytes) : Z := be_decode_acc 0 bs.

Definition le_u16 := le_bytes 2.
Definition le_u32 := le_bytes 4.
Definition le_u64 := le_bytes 8.
Definition be_u32 := be_bytes 4.
Definition be_u64 := be_bytes 8.

(** [[0; n]]. *)
Definition zeros (n : nat) : bytes := replicate n x00.

(** [Ord for [u8]]: lexicographic comparison. *)
Fixpoint bytes_compare (a b : bytes) : comparison :=
  match a, b with
  | [], [] => Eq
  | [], _ :: _ => Lt
  | _ :: _, [] => Gt
  | x :: a, y :: b =>
      match byte_to_Z x ?= byte_to_Z y with Eq => bytes_compare a b | c => c end
  end.
Definition bytes_ltb (a b : bytes) : bool := match bytes_compare a b with Lt => true | _ => false end.
Definition bytes_leb (a b : bytes) : bool := match bytes_compare a b with Gt => false | _ => true end.
Definition bytes_le (a b : bytes) : Prop := bytes_leb a b = true.
#[global] Instance bytes_le_dec a b : Decision (bytes_le a b).
Proof. unfold bytes_le. apply _. Defined.

(** [str::as_bytes] of an ASCII literal. *)
Definition str_bytes (s : string) : bytes := String.list_byte_of_string s.
(** One hexadecimal digit, either case. *)
Definition hex_digit (b : byte) : option Z :=
  let z := byte_to_Z b in
  if (48 <=? z) && (z <=? 57) then Some (z - 48)
  else if (97 <=? z) && (z <=? 102) then Some (z - 87)
  else if (65 <=? z) && (z <=? 70) then Some (z - 55)
  else None.
(** [hex::decode]: pairs of digits, of either case; an odd length is an error. *)
Fixpoint hex_decode (bs : bytes) : option bytes :=
  match bs with
  | [] => Some []
  | [_] => None
  | h :: l :: bs =>
      h ← hex_digit h; l ← hex_digit l; bs ← hex_decode bs;
      Some (byte_of_Z (16 * h + l) :: bs)
  end.
(** [hex!("..")]. *)
Definition hex (s : string) : bytes := default [] (hex_decode (str_bytes s)).
(** [hex::encode]: lower case. *)
Definition hex_char (z : Z) : byte := byte_of_Z (if z <? 10 then 48 + z else 87 + z).
Definition hex_encode (bs : bytes) : bytes :=
  bs ≫= fun b => [hex_char (byte_to_Z b / 16); hex_char (byte_to_Z b mod 16)].

(** ** Readers

    A decoder under src/ reads [bytes.get(offset..offset + n)] and advances
    [offset]; since it never looks back, the model passes the unread suffix. *)
Definition reader (A : Type) : Type := bytes -> option (A * bytes).

#[global] Instance reader_ret : MRet reader := fun A a bs => Some (a, bs).
#[global] Instance reader_bind : MBind reader :=
  fun A B k m bs => match m bs with Some (a, bs) => k a bs | None => None end.
Definition fail {A} : reader A := fun _ => None.
(** [if c { return None; }]. *)
Definition none_if (c : bool) : reader unit := fun bs => if c then None else Some (tt, bs).
(** [o?] on a value already read. *)
Definition read_opt {A} (o : option A) : reader A :=
  fun bs => match o with Some a => Some (a, bs) | None => None end.
(** [bytes.len() - offset]. *)
Definition remaining : reader Z := fun bs => Some (zlen bs, bs).

Definition read_vec (n : nat) : reader bytes :=
  fun bs => if (length bs <? n)%nat then None else Some (take n bs, drop n bs).
Definition read_le (k : nat) : reader Z := bs ← read_vec k; mret (le_decode bs).
Definition read_u8 : reader byte :=
  fun bs => match bs with b :: bs => Some (b, bs) | [] => None end.
Definition read_u16 := read_le 2.
Definition read_u32 := read_le 4.
Definition read_u64 := read_le 8.

(** [for _ in 0..n { v.push(read()?) }]. *)
Fixpoint read_many {A} (n : nat) (r : reader A) : reader (list A) :=
  match n with
  | O => mret []
  | S n => x ← r; xs ← read_many n r; mret (x :: xs)
  end.

(** A whole-buffer parse: everything must be consumed. *)
Definition parse_all {A} (r : reader A) (bs : bytes) : option A :=
  match r bs with Some (a, []) => Some a | _ => None end.

(** ** Bytes and integers *)

Lemma byte_range b : 0 <= byte_to_Z b < 256.
Proof. unfold byte_to_Z. pose proof (Byte.to_N_bounded b). lia. Qed.

Lemma byte_of_to_Z b : byte_of_Z (byte_to_Z b) = b.
Proof.
  unfold byte_of_Z. rewrite Z.mod_small by apply byte_range.
  unfold byte_to_Z. by rewrite N2Z.id, Byte.of_to_N.
Qed.

Lemma byte_to_of_Z z : byte_to_Z (byte_of_Z z) = z mod 256.
Proof.
  unfold byte_of_Z, byte_to_Z. pose proof (Z.mod_pos_bound z 256 ltac:(lia)).
  destruct (Byte.of_N (Z.to_N (z mod 256))) as [b|] eqn:Hb; cbn [default from_option id].
  - apply Byte.to_of_N in Hb. lia.
  - apply Byte.of_N_None_iff in Hb. lia.
Qed.

#[global] Instance byte_to_Z_inj : Inj (=) (=) byte_to_Z.
Proof. intros a b H. by rewrite <- (byte_of_to_Z a), H, byte_of_to_Z. Qed.

Lemma le_bytes_length k z : length (le_bytes k z) = k.
Proof. revert z. induction k; intros; cbn; auto. Qed.

Lemma le_decode_range bs : 0 <= le_decode bs < 256 ^ zlen bs.
Proof.
  induction bs as [|b bs IH]; [by vm_compute|]. rewrite zlen_cons, Z.pow_add_r, Z.pow_1_r by auto with atho.
  cbn [le_decode]. pose proof (byte_range b). lia.
Qed.

Lemma pow256 k : 256 ^ Z.of_nat k = 2 ^ (8 * Z.of_nat k).
Proof. rewrite Z.pow_mul_r by lia. done. Qed.

Lemma le_decode_le_bytes k z : le_decode (le_bytes k z) = z mod 256 ^ Z.of_nat k.
Proof.
  revert z. induction k as [|k IH]; intros z; [by rewrite Z.mod_1_r|].
  cbn [le_bytes le_decode]. rewrite IH, byte_to_of_Z.
  replace (Z.of_nat (S k)) with (1 + Z.of_nat k) by lia.
  rewrite Z.pow_add_r, Z.pow_1_r by lia.
  rewrite Z.rem_mul_r by lia. done.
Qed.

Lemma le_bytes_le_decode bs : le_bytes (length bs) (le_decode bs) = bs.
Proof.
  induction bs as [|b bs IH]; cbn [le_decode length le_bytes]; [done|]. f_equal.
  - apply (inj byte_to_Z). rewrite byte_to_of_Z, Z.mul_comm, Z.mod_add by lia.
    apply Z.mod_small, byte_range.
  - rewrite (Z.mul_comm 256), Z.div_add by lia.
    by rewrite Z.div_small, Z.add_0_l by apply byte_range.
Qed.

Lemma le_decode_le_bytes_id k z :
  uint (8 * Z.of_nat k) z -> le_decode (le_bytes k z) = z.
Proof. intros Hz. rewrite le_decode_le_bytes, pow256. by apply Z.mod_small. Qed.

Lemma le_bytes_inj k x y :
  uint (8 * Z.of_nat k) x -> uint (8 * Z.of_nat k) y -> le_bytes k x = le_bytes k y -> x = y.
Proof. intros Hx Hy H. by rewrite <- (le_decode_le_bytes_id k x), H, le_decode_le_bytes_id. Qed.

Lemma zlen_le_bytes k z : zlen (le_bytes k z) = Z.of_nat k.
Proof. unfold zlen. by rewrite le_bytes_length. Qed.
Lemma be_bytes_length k z : length (be_bytes k z) = k.
Proof. unfold be_bytes. by rewrite length_reverse, le_bytes_length. Qed.
#[export] Hint Rewrite zlen_le_bytes : zlen.

Lemma be_decode_acc_spec acc bs :
  be_decode_acc acc bs = acc * 256 ^ zlen bs + be_decode_acc 0 bs.
Proof.
  revert acc. induction bs as [|b bs IH]; intros acc; cbn [be_decode_acc];
    [change (zlen _) with 0; lia|].
  rewrite IH, (IH (256 * 0 + _)), zlen_cons, Z.pow_add_r, Z.pow_1_r by auto with atho. lia.
Qed.
Lemma be_decode_cons b bs : be_decode (b :: bs) = byte_to_Z b * 256 ^ zlen bs + be_decode bs.
Proof. unfold be_decode. cbn [be_decode_acc]. by rewrite be_decode_acc_spec. Qed.
Lemma be_decode_range bs : 0 <= be_decode bs < 256 ^ zlen bs.
Proof.
  induction bs as [|b bs IH]; [by vm_compute|].
  rewrite be_decode_cons, zlen_cons, Z.pow_add_r, Z.pow_1_r by auto with atho.
  pose proof (byte_range b). nia.
Qed.
Lemma be_decode_app bs1 bs2 : be_decode (bs1 ++ bs2) = be_decode bs1 * 256 ^ zlen bs2 + be_decode bs2.
Proof.
  induction bs1 as [|b bs1 IH]; cbn [app]; [done|].
  rewrite !be_decode_cons, IH, zlen_app, Z.pow_add_r by auto with atho. lia.
Qed.
Lemma be_decode_reverse bs : be_decode (reverse bs) = le_decode bs.
Proof.
  induction bs as [|b bs IH]; [done|].
  rewrite reverse_cons, be_decode_app, IH, be_decode_cons.
  change (zlen [b]) with 1. change (zlen []) with 0. change (be_decode []) with 0.
  cbn [le_decode]. lia.
Qed.
Lemma be_decode_be_bytes k z : uint (8 * Z.of_nat k) z -> be_decode (be_bytes k z) = z.
Proof. intros. unfold be_bytes. by rewrite be_decode_reverse, le_decode_le_bytes_id. Qed.
Lemma be_decode_inj bs1 bs2 :
  length bs1 = length bs2 -> be_decode bs1 = be_decode bs2 -> bs1 = bs2.
Proof.
  intros Hl H. rewrite <- (reverse_involutive bs1), <- (reverse_involutive bs2) in H.
  rewrite !be_decode_reverse in H. apply (inj reverse).
  rewrite <- (le_bytes_le_decode (reverse bs1)), <- (le_bytes_le_decode (reverse bs2)).
  by rewrite !length_reverse, Hl, H.
Qed.

(** On arrays of one length the lexicographic order is the numeric order of
    the big-endian integers. *)
Lemma bytes_compare_be a b :
  length a = length b -> bytes_compare a b = (be_decode a ?= be_decode b).
Proof.
  revert b. induction a as [|x a IH]; intros [|y b] Hl; try done.
  injection Hl as Hl. cbn [bytes_compare]. rewrite !be_decode_cons.
  assert (zlen a = zlen b) as Hz by (unfold zlen; lia). rewrite Hz.
  pose proof (be_decode_range a) as Ha. pose proof (be_decode_range b) as Hb. rewrite Hz in Ha.
  destruct (Z.compare_spec (byte_to_Z x) (byte_to_Z y)) as [E|E|E].
  - rewrite (IH b Hl), E. symmetry. apply Z.add_compare_mono_l.
  - symmetry. apply Z.compare_lt_iff. nia.
  - symmetry. apply Z.compare_gt_iff. nia.
Qed.
Lemma bytes_ltb_be a b : length a = length b -> bytes_ltb a b = (be_decode a <? be_decode b).
Proof. intros. unfold bytes_ltb, Z.ltb. by rewrite bytes_compare_be. Qed.
Lemma bytes_leb_be a b : length a = length b -> bytes_leb a b = (be_decode a <=? be_decode b).
Proof. intros. unfold bytes_leb, Z.leb. by rewrite bytes_compare_be. Qed.

Lemma bytes_compare_refl a : bytes_compare a a = Eq.
Proof. induction a; cbn; [done|]. by rewrite Z.compare_refl. Qed.
Lemma bytes_compare_eq a b : bytes_compare a b = Eq -> a = b.
Proof.
  revert b. induction a as [|x a IH]; intros [|y b] H; cbn in H; try done.
  destruct (Z.compare_spec (byte_to_Z x) (byte_to_Z y)) as [E|E|E]; try done.
  f_equal; [by apply (inj byte_to_Z)|by apply IH].
Qed.
Lemma bytes_compare_antisym a b : bytes_compare b a = CompOpp (bytes_compare a b).
Proof.
  revert b. induction a as [|x a IH]; intros [|y b]; cbn; try done.
  rewrite Z.compare_antisym. destruct (byte_to_Z x ?= byte_to_Z y); cbn; auto.
Qed.
Lemma bytes_compare_lt_trans a b c :
  bytes_compare a b = Lt -> bytes_compare b c = Lt -> bytes_compare a c = Lt.
Proof.
  revert b c. induction a as [|x a IH]; intros [|y b] [|z c]; cbn; try done.
  destruct (Z.compare_spec (byte_to_Z x) (byte_to_Z y)) as [E1|E1|E1],
    (Z.compare_spec (byte_to_Z y) (byte_to_Z z)) as [E2|E2|E2],
    (Z.compare_spec (byte_to_Z x) (byte_to_Z z)) as [E3|E3|E3]; try done; try lia.
  apply IH.
Qed.
#[global] Instance bytes_ordered : Ordered bytes_compare.
Proof.
  split; [apply bytes_compare_antisym| |apply bytes_compare_lt_trans].
  by intros a b c ->%bytes_compare_eq.
Qed.
#[global] Instance bytes_le_total : Total bytes_le.
Proof.
  intros a b. unfold bytes_le, bytes_leb. rewrite (bytes_compare_antisym a b).
  destruct (bytes_compare a b); cbn; auto.
Qed.
#[global] Instance bytes_le_trans : Transitive bytes_le.
Proof.
  intros a b c. unfold bytes_le, bytes_leb.
  destruct (bytes_compare a b) eqn:E1, (bytes_compare b c) eqn:E2; try done; intros _ _;
    try (apply bytes_compare_eq in E1 as ->); try (apply bytes_compare_eq in E2 as ->).
  all: rewrite ?bytes_compare_refl, ?E1, ?E2; try done.
  by rewrite (bytes_compare_lt_trans a b c).
Qed.
#[global] Instance bytes_le_antisymm : AntiSymm (=) bytes_le.
Proof.
  intros a b. unfold bytes_le, bytes_leb. rewrite (bytes_compare_antisym a b).
  destruct (bytes_compare a b) eqn:E; cbn; try done. intros _ _. by apply bytes_compare_eq.
Qed.

(** ** Codecs

    [codec enc dec wf]: [dec] reads back exactly what [enc] writes for
    well-formed values ([codec_complete]) and accepts nothing else
    ([codec_sound]): the encoding is unique, so decoded data is not malleable. *)
Record codec {A} (enc : A -> bytes) (dec : reader A) (wf : A -> Prop) : Prop := {
  codec_complete a rest : wf a -> dec (enc a ++ rest) = Some (a, rest);
  codec_sound bs a rest : dec bs = Some (a, rest) -> bs = enc a ++ rest /\ wf a;
}.
Arguments codec_complete {A enc dec wf} _ a rest.
Arguments codec_sound {A enc dec wf} _ {bs a rest}.

Lemma reader_bind_run {A B} (m : reader A) (k : A -> reader B) bs :
  (m ≫= k) bs = match m bs with Some (a, bs) => k a bs | None => None end.
Proof. done. Qed.
Lemma reader_bind_Some {A B} (m : reader A) (k : A -> reader B) bs b rest :
  (m ≫= k) bs = Some (b, rest) <->
  exists a bs', m bs = Some (a, bs') /\ k a bs' = Some (b, rest).
Proof. rewrite reader_bind_run. destruct (m bs) as [[??]|]; naive_solver. Qed.
Lemma none_if_Some c bs u rest : none_if c bs = Some (u, rest) <-> c = false /\ rest = bs.
Proof. unfold none_if. destruct c, u; naive_solver. Qed.
Lemma reader_ret_Some {A} (a b : A) bs rest :
  (mret a : reader A) bs = Some (b, rest) <-> b = a /\ rest = bs.
Proof. cbv [mret reader_ret]. naive_solver. Qed.
Lemma remaining_Some bs n rest : remaining bs = Some (n, rest) <-> n = zlen bs /\ rest = bs.
Proof. unfold remaining. naive_solver. Qed.

Lemma read_opt_Some {A} (o : option A) a bs rest :
  read_opt o bs = Some (a, rest) <-> o = Some a /\ rest = bs.
Proof. unfold read_opt. destruct o; naive_solver. Qed.

Lemma codec_vec n : codec (fun bs => bs) (read_vec n) (fun bs => length bs = n).
Proof.
  unfold read_vec. split.
  - intros a rest <-. rewrite length_app.
    destruct (Nat.ltb_spec (length a + length rest) (length a)); [lia|].
    by rewrite take_app_length, drop_app_length.
  - intros bs a rest. destruct (Nat.ltb_spec (length bs) n); [done|].
    intros [= <- <-]. rewrite take_drop, length_take. split; [done|lia].
Qed.
Lemma codec_le k : codec (le_bytes k) (read_le k) (uint (8 * Z.of_nat k)).
Proof.
  unfold read_le. split.
  - intros a rest Ha. rewrite reader_bind_run.
    rewrite (codec_complete (codec_vec k)) by apply le_bytes_length.
    cbv [mret reader_ret]. by rewrite le_decode_le_bytes_id.
  - intros bs a rest (x & bs' & Hx & Hr)%reader_bind_Some.
    apply reader_ret_Some in Hr as [-> ->].
    apply (codec_sound (codec_vec k)) in Hx as [-> <-]. rewrite le_bytes_le_decode.
    split; [done|]. unfold uint. rewrite <- pow256. apply le_decode_range.
Qed.
Lemma codec_u16 : codec le_u16 read_u16 is_u16. Proof. apply (codec_le 2). Qed.
Lemma codec_u32 : codec le_u32 read_u32 is_u32. Proof. apply (codec_le 4). Qed.
Lemma codec_u64 : codec le_u64 read_u64 is_u64. Proof. apply (codec_le 8). Qed.
Lemma codec_u8 : codec (fun b => [b]) read_u8 (fun _ => True).
Proof. split; [done|]. intros [|b bs] a rest; cbn; naive_solver. Qed.

Section read_many.
Context {A : Type} {enc : A -> bytes} {dec : reader A} {wf : A -> Prop}.
Context (Hc : codec enc dec wf).

Lemma codec_many n :
  codec (fun l => mjoin (enc <$> l)) (read_many n dec) (fun l => length l = n /\ Forall wf l).
Proof using Hc.
  split.
  - intros l rest [<- Hl]. induction Hl as [|a l Ha Hl IH]; [done|].
    cbn [read_many length]. rewrite reader_bind_run, fmap_cons.
    change (mjoin (enc a :: (enc <$> l))) with (enc a ++ mjoin (enc <$> l)).
    rewrite <- app_assoc, (codec_complete Hc) by done.
    rewrite reader_bind_run. by rewrite IH.
  - induction n as [|n IH]; intros bs l rest.
    + intros [-> ->]%reader_ret_Some. done.
    + cbn [read_many]. intros (x & bs1 & Hx & H)%reader_bind_Some.
      apply reader_bind_Some in H as (xs & bs2 & Hxs & [-> ->]%reader_ret_Some).
      apply (codec_sound Hc) in Hx as [-> Hx].
      apply IH in Hxs as (-> & <- & Hxs). cbn. rewrite <- app_assoc. auto.
Qed.
End read_many.

Section parse_all.
Context {A : Type} {enc : A -> bytes} {dec : reader A} {wf : A -> Prop}.
Context (Hc : codec enc dec wf).

Lemma parse_all_complete a : wf a -> parse_all dec (enc a) = Some a.
Proof using Hc.
  intros. unfold parse_all. rewrite <- (app_nil_r (enc a)).
  by rewrite (codec_complete Hc).
Qed.
Lemma parse_all_sound bs a : parse_all dec bs = Some a -> bs = enc a /\ wf a.
Proof using Hc.
  unfold parse_all. destruct (dec bs) as [[a' [|]]|] eqn:E; try done. intros [= ->].
  apply (codec_sound Hc) in E. by rewrite app_nil_r in E.
Qed.
End parse_all.

(** Codecs are prefix-free, hence injective. *)
Lemma codec_prefix_free {A} {enc : A -> bytes} {dec wf} (Hc : codec enc dec wf) a b r1 r2 :
  wf a -> wf b -> enc a ++ r1 = enc b ++ r2 -> a = b /\ r1 = r2.
Proof.
  intros Ha Hb H. pose proof (codec_complete Hc a r1 Ha) as H1.
  rewrite H, (codec_complete Hc b r2 Hb) in H1. by injection H1.
Qed.

(** Runs a decoder forwards over the encoding it is given, and backwards from
    its success. *)
Ltac read_forward H := rewrite ?reader_bind_run, <- ?app_assoc, (codec_complete H).
Ltac inv_read :=
  repeat match goal with
  | H : (_ ≫= _) _ = Some (_, _) |- _ =>
      let a := fresh "a" in let bs := fresh "bs" in let H1 := fresh "Hrd" in
      apply reader_bind_Some in H as (a & bs & H1 & H)
  | H : none_if _ _ = Some (_, _) |- _ => apply none_if_Some in H as [H ->]
  | H : read_opt _ _ = Some (_, _) |- _ => apply read_opt_Some in H as [H ->]
  | H : mret _ _ = Some (_, _) |- _ => apply reader_ret_Some in H as [-> ->]
  | H : remaining _ = Some (_, _) |- _ => apply remaining_Some in H as [-> ->]
  | H : read_vec _ _ = Some (_, _) |- _ => apply (codec_sound (codec_vec _)) in H as [-> H]
  | H : read_u16 _ = Some (_, _) |- _ => apply (codec_sound codec_u16) in H as [-> H]
  | H : read_u32 _ = Some (_, _) |- _ => apply (codec_sound codec_u32) in H as [-> H]
  | H : read_u64 _ = Some (_, _) |- _ => apply (codec_sound codec_u64) in H as [-> H]
  | H : read_u8 _ = Some (_, _) |- _ => apply (codec_sound codec_u8) in H as [-> H]
  end.

Lemma is_u8_byte_to_Z b : is_u8 (byte_to_Z b).
Proof. apply byte_range. Qed.
#[export] Hint Resolve is_u8_byte_to_Z : atho.

(** ** Serializers

    What the serializers of the bincode crate promise: [serialize] may fail on values
    that are too large, [deserialize] on bytes that are no value. *)
Class Serde (A : Type) := {
  serialize_value : A -> option bytes;
  deserialize_value : bytes -> option A;
}.
(** What bincode documents: a serialized value deserializes to itself. *)
Class SerdeLaws (A : Type) `{Serde A} : Prop :=
  serde_round_trip (a : A) bs : serialize_value a = Some bs -> deserialize_value bs = Some a.
