(* ===== verification/Text.v ===== *)
(** * Text

    The string operations of the standard library the code uses, on the UTF-8
    bytes of a string: trimming, ASCII case, searching, splitting, parsing and
    printing numbers; and the process environment. *)
From stdpp Require Import options.
From S2P Require Import Prelude Bytes.

(** [std::env::var]: the value of a variable that is set to valid UTF-8. *)
Class ProcessEnv := env_var : string -> option bytes.

(** ** Trimming *)

(** The UTF-8 encodings of the characters [char::is_whitespace] accepts. *)
Definition whitespace : list bytes :=
  (hex <$> ["09"; "0a"; "0b"; "0c"; "0d"; "20"; "c285"; "c2a0"; "e19a80"; "e28080"; "e28081"; "e28082"; "e28083";
            "e28084"; "e28085"; "e28086"; "e28087"; "e28088"; "e28089"; "e2808a"; "e280a8"; "e280a9"; "e280af";
            "e2819f"; "e38080"])%string.
(** [strip_prefix] with the first encoding that fits. *)
Fixpoint strip_one (encodings : list bytes) (s : bytes) : option bytes :=
  match encodings with
  | [] => None
  | e :: encodings =>
      if bool_decide (take (length e) s = e) then Some (drop (length e) s) else strip_one encodings s
  end.
Fixpoint strip_all (fuel : nat) (encodings : list bytes) (s : bytes) : bytes :=
  match fuel, strip_one encodings s with
  | S fuel, Some s => strip_all fuel encodings s
  | _, _ => s
  end.
(** [str::trim]; UTF-8 sequences are found from the end as well, reversed. Every
    round strips at least a byte. *)
Definition trim (s : bytes) : bytes :=
  let s := strip_all (length s) whitespace s in
  reverse (strip_all (length s) (reverse <$> whitespace) (reverse s)).

(** [trim_end_matches(c)] for an ASCII character. *)
Definition trim_end_matches (c : byte) (s : bytes) : bytes :=
  reverse (strip_all (length s) [[c]] (reverse s)).

(** ** Case, prefixes and searching *)

(** [to_ascii_lowercase]. *)
Definition ascii_lower (b : byte) : byte :=
  let z := byte_to_Z b in if (65 <=? z) && (z <=? 90) then byte_of_Z (z + 32) else b.
Definition to_ascii_lowercase (s : bytes) : bytes := ascii_lower <$> s.

Definition starts_with (p s : bytes) : bool := bool_decide (take (length p) s = p).
Definition ends_with (p s : bytes) : bool := starts_with (reverse p) (reverse s).
(** [contains(char)]. *)
Definition contains_char (c : byte) (s : bytes) : bool := bool_decide (c ∈ s).

(** [split(c)]: at least one part, empty parts included. *)
Fixpoint split_on (c : byte) (s : bytes) : list bytes :=
  match s with
  | [] => [[]]
  | b :: s =>
      if bool_decide (b = c) then [] :: split_on c s
      else match split_on c s with
           | part :: parts => (b :: part) :: parts
           | [] => [[b]]
           end
  end.
(** [split_whitespace]: the parts between white space, none of them empty. The parts
    are found in one pass; [part] is what of the current one has been read. *)
Definition emit (part : bytes) (parts : list bytes) : list bytes := match part with [] => parts | _ => part :: parts end.
Fixpoint split_ws (fuel : nat) (s part : bytes) : list bytes :=
  match fuel, s with
  | S fuel, b :: s' =>
      match strip_one whitespace s with
      | Some rest => emit part (split_ws fuel rest [])
      | None => split_ws fuel s' (part ++ [b])
      end
  | _, _ => emit part []
  end.
Definition split_whitespace (s : bytes) : list bytes := split_ws (length s) s [].
(** [rsplit_once(c)]. *)
Definition rsplit_once (c : byte) (s : bytes) : option (bytes * bytes) :=
  match position (fun b => bool_decide (b = c)) (reverse s) with
  | None => None
  | Some k => let n := (length s - S k)%nat in Some (take n s, drop (S n) s)
  end.

(** [join]. *)
Fixpoint join (separator : bytes) (parts : list bytes) : bytes :=
  match parts with
  | [] => []
  | [part] => part
  | part :: parts => part ++ separator ++ join separator parts
  end.

(** ** Numbers *)

Definition decimal_digit (b : byte) : option Z :=
  let z := byte_to_Z b in if (48 <=? z) && (z <=? 57) then Some (z - 48) else None.
Fixpoint parse_digits (max acc : Z) (s : bytes) : option Z :=
  match s with
  | [] => Some acc
  | b :: s =>
      d ← decimal_digit b;
      if max <? 10 * acc + d then None else parse_digits max (10 * acc + d) s
  end.
(** [str::parse] for an unsigned integer up to [max]: digits after an optional plus. *)
Definition parse_uint (max : Z) (s : bytes) : option Z :=
  let s := match s with x2b :: s => s | _ => s end in
  match s with [] => None | _ => parse_digits max 0 s end.

(** [to_string] of an unsigned integer; 20 digits are enough for 64 bits. *)
Fixpoint decimal_loop (fuel : nat) (z : Z) (acc : bytes) : bytes :=
  match fuel with
  | O => acc
  | S fuel =>
      let acc := byte_of_Z (48 + z mod 10) :: acc in
      if z / 10 =? 0 then acc else decimal_loop fuel (z / 10) acc
  end.
Definition decimal (z : Z) : bytes := decimal_loop 20 z [].

(** [format!("{z:0w}")]. *)
Definition padded (w : nat) (s : bytes) : bytes := replicate (w - length s) x30 ++ s.

(** ** Printed numbers parse back *)

Lemma decimal_digit_of_Z d : 0 <= d < 10 -> decimal_digit (byte_of_Z (48 + d)) = Some d.
Proof.
  intros Hd. unfold decimal_digit. rewrite byte_to_of_Z, Z.mod_small by lia.
  rewrite (proj2 (Z.leb_le 48 (48 + d))), (proj2 (Z.leb_le (48 + d) 57)) by lia. cbn [andb]. f_equal. lia.
Qed.
Lemma decimal_loop_parse fuel : forall z acc max,
  0 <= z < 10 ^ Z.of_nat fuel -> (0 < fuel)%nat ->
  exists ds, decimal_loop fuel z acc = ds ++ acc /\ ds <> []
    /\ (forall d, d ∈ ds -> is_Some (decimal_digit d))
    /\ parse_digits max 0 (ds ++ acc) = if max <? z then None else parse_digits max z acc.
Proof.
  induction fuel as [|fuel IH]; intros z acc max Hz Hf; [lia|]. cbn [decimal_loop].
  pose proof (Z.mod_pos_bound z 10 ltac:(lia)) as Hm. pose proof (Z.div_mod z 10 ltac:(lia)) as Hdm.
  destruct (z / 10 =? 0) eqn:E.
  - apply Z.eqb_eq in E. exists [byte_of_Z (48 + z mod 10)]. split_and!; [done|done| |].
    + intros d ->%list_elem_of_singleton. rewrite decimal_digit_of_Z by lia. by eexists.
    + cbn [app parse_digits]. rewrite decimal_digit_of_Z by lia. cbn [mbind option_bind].
      replace (10 * 0 + z mod 10) with z by lia. done.
  - apply Z.eqb_neq in E. rewrite Nat2Z.inj_succ, Z.pow_succ_r in Hz by lia.
    assert (0 <= z / 10) as H0 by (apply Z.div_pos; lia).
    assert (z / 10 < 10 ^ Z.of_nat fuel) as H1 by (apply Z.div_lt_upper_bound; lia).
    assert (0 < fuel)%nat as Hf' by (destruct fuel; [cbn in H1; lia|lia]).
    destruct (IH (z / 10) (byte_of_Z (48 + z mod 10) :: acc) max (conj H0 H1) Hf') as (ds & -> & _ & Hds & Hp).
    exists (ds ++ [byte_of_Z (48 + z mod 10)]). rewrite <- app_assoc. cbn [app]. split_and!.
    + done.
    + by destruct ds.
    + intros d [Hd|Hd%list_elem_of_singleton]%elem_of_app; [by apply Hds|]. subst d. rewrite decimal_digit_of_Z by lia. by eexists.
    + rewrite Hp. cbn [parse_digits]. rewrite decimal_digit_of_Z by lia. cbn [mbind option_bind].
      replace (10 * (z / 10) + z mod 10) with z by lia.
      destruct (max <? z / 10) eqn:E1, (max <? z) eqn:E2; [done|lia|done|done].
Qed.

Lemma decimal_spec z :
  is_u64 z -> decimal z <> [] /\ (forall d, d ∈ decimal z -> is_Some (decimal_digit d))
  /\ forall max, z <= max -> parse_digits max 0 (decimal z) = Some z.
Proof.
  intros Hz. unfold uint in Hz. unfold decimal.
  assert (0 <= z < 10 ^ Z.of_nat 20) as Hz' by (change (10 ^ Z.of_nat 20) with 100000000000000000000; lia).
  destruct (decimal_loop_parse 20 z [] 0 Hz' ltac:(lia)) as (ds & E & Hne & Hd & _). rewrite E. rewrite app_nil_r in *.
  split_and!; [done|done|]. intros max Hmax.
  destruct (decimal_loop_parse 20 z [] max Hz' ltac:(lia)) as (ds' & E' & _ & _ & Hp).
  rewrite app_nil_r in *. rewrite <- E, E', Hp. by rewrite (proj2 (Z.ltb_ge max z)) by lia.
Qed.
Lemma parse_digits_zeros k max s : 0 <= max -> parse_digits max 0 (replicate k x30 ++ s) = parse_digits max 0 s.
Proof.
  intros Hm. induction k as [|k IH]; [done|]. cbn [replicate app parse_digits].
  change (decimal_digit x30) with (Some 0). cbn [mbind option_bind].
  rewrite (proj2 (Z.ltb_ge max (10 * 0 + 0))) by lia. exact IH.
Qed.
Lemma parse_digits_max max acc s z : acc <= max -> parse_digits max acc s = Some z -> z <= max.
Proof.
  revert acc. induction s as [|b s IH]; intros acc Ha; cbn [parse_digits]; [by intros [= <-]|].
  intros (d & _ & Hrun)%bind_Some. destruct (Z.ltb_spec max (10 * acc + d)); [done|]. by apply IH in Hrun.
Qed.
Lemma parse_uint_max max s z : 0 <= max -> parse_uint max s = Some z -> z <= max.
Proof. intros Hmax. unfold parse_uint. cbv zeta. destruct (match s with x2b :: s => s | _ => s end); [done|]. by apply parse_digits_max. Qed.
Lemma parse_uint_padded w max z : is_u64 z -> z <= max -> parse_uint max (padded w (decimal z)) = Some z.
Proof.
  intros Hz Hmax. destruct (decimal_spec z Hz) as (Hne & Hd & Hp). unfold parse_uint, padded.
  assert (parse_digits max 0 (replicate (w - length (decimal z)) x30 ++ decimal z) = Some z) as Hparse.
  { rewrite parse_digits_zeros by (unfold uint in Hz; lia). by apply Hp. }
  assert (forall d, d ∈ replicate (w - length (decimal z)) x30 ++ decimal z -> d <> x2b) as Hplus.
  { intros d [[-> _]%elem_of_replicate|Hin]%elem_of_app; [done|]. intros ->. by destruct (Hd _ Hin). }
  destruct (replicate (w - length (decimal z)) x30 ++ decimal z) as [|b s] eqn:E.
  { apply app_nil in E as [_ E]. done. }
  specialize (Hplus b ltac:(set_solver)). destruct b; try done.
Qed.
