(* ===== verification/Constants.v ===== *)
(** * Protocol constants

    crates/atho-core/src/constants.rs, constant by constant, and the parameter
    record of crates/atho-core/src/consensus/params.rs. *)
From stdpp Require Import options.
From S2P Require Import Prelude Bytes.

(* src: constants.rs:15-15 DECIMALS *)
Definition DECIMALS : Z := 8.
(* src: constants.rs:16-16 ATOMS_PER_ATHO *)
Definition ATOMS_PER_ATHO : Z := 100000000.
(* src: constants.rs:17-17 HALVING_INTERVAL_BLOCKS *)
Definition HALVING_INTERVAL_BLOCKS : Z := 1260000.
(* src: constants.rs:18-18 COINBASE_MATURITY_BLOCKS *)
Definition COINBASE_MATURITY_BLOCKS : Z := 100.
(* src: constants.rs:19-19 NORMAL_TX_VALID_AFTER_CONFIRMATIONS *)
Definition NORMAL_TX_VALID_AFTER_CONFIRMATIONS : Z := 1.
(* src: constants.rs:20-20 DEFAULT_WALLET_MIN_CONFIRMATIONS *)
Definition DEFAULT_WALLET_MIN_CONFIRMATIONS : Z := 3.
(* src: constants.rs:21-21 DEFAULT_SAFE_CONFIRMATIONS *)
Definition DEFAULT_SAFE_CONFIRMATIONS : Z := 6.
(* src: constants.rs:22-22 HIGH_VALUE_CONFIRMATIONS *)
Definition HIGH_VALUE_CONFIRMATIONS : Z := 20.
(* src: constants.rs:23-23 MIN_RELAY_FEE_RATE_ATOMS_PER_VBYTE *)
Definition MIN_RELAY_FEE_RATE_ATOMS_PER_VBYTE : Z := 1.
(* src: constants.rs:24-24 MIN_TX_FEE_PER_VBYTE_ATOMS *)
Definition MIN_TX_FEE_PER_VBYTE_ATOMS : Z := MIN_RELAY_FEE_RATE_ATOMS_PER_VBYTE.
(* src: constants.rs:25-25 MIN_TX_FEE_ATOMS *)
Definition MIN_TX_FEE_ATOMS : Z := MIN_TX_FEE_PER_VBYTE_ATOMS.
(* src: constants.rs:26-26 MIN_OUTPUT_AMOUNT_ATOMS *)
Definition MIN_OUTPUT_AMOUNT_ATOMS : Z := 100.
(* src: constants.rs:27-27 DUST_RELAY_VALUE_ATOMS *)
Definition DUST_RELAY_VALUE_ATOMS : Z := MIN_OUTPUT_AMOUNT_ATOMS.
(* src: constants.rs:28-28 MAX_STANDARD_INPUTS *)
Definition MAX_STANDARD_INPUTS : Z := 1024.
(* src: constants.rs:29-29 MAX_STANDARD_OUTPUTS *)
Definition MAX_STANDARD_OUTPUTS : Z := 64.
(* src: constants.rs:30-30 TX_POW_MIN_BITS *)
Definition TX_POW_MIN_BITS : Z := 16.
(* src: constants.rs:31-31 TX_POW_MAX_BITS *)
Definition TX_POW_MAX_BITS : Z := 28.
(* src: constants.rs:32-32 TX_POW_NONCE_BYTES *)
Definition TX_POW_NONCE_BYTES : Z := 8.
(* src: constants.rs:33-33 TX_POW_BITS_BYTES *)
Definition TX_POW_BITS_BYTES : Z := 1.
(* src: constants.rs:34-34 TX_POW_DOMAIN *)
Definition TX_POW_DOMAIN : bytes := Eval vm_compute in str_bytes "ATHO_TX_POW_V1".
(* src: constants.rs:35-35 TX_SIGN_DOMAIN *)
Definition TX_SIGN_DOMAIN : bytes := Eval vm_compute in str_bytes "ATHO_TX_SIGN_V1".
(* src: constants.rs:36-36 BLOCK_TIME_SECONDS *)
Definition BLOCK_TIME_SECONDS : Z := 100.
(* src: constants.rs:37-37 TARGET_BLOCK_TIME_SECONDS *)
Definition TARGET_BLOCK_TIME_SECONDS : Z := BLOCK_TIME_SECONDS.
(* src: constants.rs:38-38 BLOCKS_PER_YEAR *)
Definition BLOCKS_PER_YEAR : Z := 315360.
(* src: constants.rs:39-39 INITIAL_BLOCK_REWARD_ATOMS *)
Definition INITIAL_BLOCK_REWARD_ATOMS : Z := 50 * ATOMS_PER_ATHO.
(* src: constants.rs:40-40 TAIL_REWARD_ATOMS *)
Definition TAIL_REWARD_ATOMS : Z := 39062500.
(* src: constants.rs:41-41 GENESIS_COINBASE_ATOMS *)
Definition GENESIS_COINBASE_ATOMS : Z := INITIAL_BLOCK_REWARD_ATOMS.
(* src: constants.rs:42-42 POW_RETARGET_INTERVAL_BLOCKS *)
Definition POW_RETARGET_INTERVAL_BLOCKS : Z := 1.
(* src: constants.rs:43-43 POW_AVERAGING_WINDOW_BLOCKS *)
Definition POW_AVERAGING_WINDOW_BLOCKS : Z := 17.
(* src: constants.rs:44-44 POW_MEDIAN_WINDOW_BLOCKS *)
Definition POW_MEDIAN_WINDOW_BLOCKS : Z := 11.
(* src: constants.rs:45-45 POW_DAMPING_FACTOR *)
Definition POW_DAMPING_FACTOR : Z := 4.
(* src: constants.rs:46-46 POW_MAX_ADJUST_UP_PERCENT *)
Definition POW_MAX_ADJUST_UP_PERCENT : Z := 16.
(* src: constants.rs:47-47 POW_MAX_ADJUST_DOWN_PERCENT *)
Definition POW_MAX_ADJUST_DOWN_PERCENT : Z := 32.
(* src: constants.rs:48-48 SHA3_384_HASH_BITS *)
Definition SHA3_384_HASH_BITS : Z := 384.
(* src: constants.rs:49-49 SHA3_384_HASH_HEX_CHARS *)
Definition SHA3_384_HASH_HEX_CHARS : Z := 96.
(* src: constants.rs:50-50 WITNESS_SCALE_FACTOR *)
Definition WITNESS_SCALE_FACTOR : Z := 4.
(* src: constants.rs:52-52 FALCON_512_LOGN *)
Definition FALCON_512_LOGN : Z := 9.
(* src: constants.rs:53-53 FALCON_512_PUBLIC_KEY_BYTES *)
Definition FALCON_512_PUBLIC_KEY_BYTES : Z := 897.
(* src: constants.rs:54-54 FALCON_512_SECRET_KEY_BYTES *)
Definition FALCON_512_SECRET_KEY_BYTES : Z := 1281.
(* src: constants.rs:55-55 FALCON_512_SIGNATURE_BYTES *)
Definition FALCON_512_SIGNATURE_BYTES : Z := 666.
(* src: constants.rs:56-56 MIN_TRANSACTION_FULL_BYTES_WITH_ONE_INPUT_AND_ONE_OUTPUT *)
Definition MIN_TRANSACTION_FULL_BYTES_WITH_ONE_INPUT_AND_ONE_OUTPUT : Z := 88.
(* src: constants.rs:57-58 TX_WITNESS_FIXED_BYTES *)
Definition TX_WITNESS_FIXED_BYTES : Z := 4 + FALCON_512_SIGNATURE_BYTES + 4 + FALCON_512_PUBLIC_KEY_BYTES + 4.
(* src: constants.rs:68-68 MAX_TRANSACTION_RAW_BYTES *)
Definition MAX_TRANSACTION_RAW_BYTES : Z := 250000.
(* src: constants.rs:59-62 MAX_WITNESS_INPUT_REFS *)
Definition MAX_WITNESS_INPUT_REFS : Z := (MAX_TRANSACTION_RAW_BYTES - MIN_TRANSACTION_FULL_BYTES_WITH_ONE_INPUT_AND_ONE_OUTPUT - TX_WITNESS_FIXED_BYTES) / 18.
(* src: constants.rs:63-63 MAX_BLOCK_VBYTES *)
Definition MAX_BLOCK_VBYTES : Z := 3000000.
(* src: constants.rs:64-64 MAX_BLOCK_RAW_BYTES *)
Definition MAX_BLOCK_RAW_BYTES : Z := 12000000.
(* src: constants.rs:65-65 MAX_BLOCK_SIZE_BYTES *)
Definition MAX_BLOCK_SIZE_BYTES : Z := MAX_BLOCK_VBYTES.
(* src: constants.rs:66-66 MAX_BLOCK_WEIGHT *)
Definition MAX_BLOCK_WEIGHT : Z := MAX_BLOCK_VBYTES * WITNESS_SCALE_FACTOR.
(* src: constants.rs:67-67 MAX_BLOCK_SERIALIZED_BYTES *)
Definition MAX_BLOCK_SERIALIZED_BYTES : Z := MAX_BLOCK_RAW_BYTES.
(* src: constants.rs:69-69 MAX_TRANSACTION_VBYTES *)
Definition MAX_TRANSACTION_VBYTES : Z := 250000.
(* src: constants.rs:70-70 MAX_TRANSACTION_SIZE_BYTES *)
Definition MAX_TRANSACTION_SIZE_BYTES : Z := MAX_TRANSACTION_VBYTES.
(* src: constants.rs:71-71 ADDRESS_DIGEST_BYTES *)
Definition ADDRESS_DIGEST_BYTES : Z := 32.
(* src: constants.rs:72-72 ADDRESS_CHECKSUM_BYTES *)
Definition ADDRESS_CHECKSUM_BYTES : Z := 4.
(* src: constants.rs:73-73 ADDRESS_CHECKSUM_BASE56_CHARS *)
Definition ADDRESS_CHECKSUM_BASE56_CHARS : Z := 6.
(* src: constants.rs:74-74 STANDARD_TRANSACTION_ALLOCATION_BPS *)
Definition STANDARD_TRANSACTION_ALLOCATION_BPS : Z := 9500.
(* src: constants.rs:75-75 BLOCK_FILE_ROTATE_BYTES *)
Definition BLOCK_FILE_ROTATE_BYTES : Z := 128 * 1024 * 1024.
(* src: constants.rs:76-76 BLOCK_FILE_RECORD_OVERHEAD_BYTES *)
Definition BLOCK_FILE_RECORD_OVERHEAD_BYTES : Z := 8.
(* src: constants.rs:77-77 PRUNE_DEPTH_BLOCKS *)
Definition PRUNE_DEPTH_BLOCKS : Z := 100000.
(* src: constants.rs:78-78 MAX_REORG_DEPTH_BLOCKS *)
Definition MAX_REORG_DEPTH_BLOCKS : Z := PRUNE_DEPTH_BLOCKS.
(* src: constants.rs:79-79 FINALIZATION_DEPTH_BLOCKS *)
Definition FINALIZATION_DEPTH_BLOCKS : Z := MAX_REORG_DEPTH_BLOCKS.
(* src: constants.rs:80-80 WITNESS_SIGNATURE_REFERENCE_BYTES *)
Definition WITNESS_SIGNATURE_REFERENCE_BYTES : Z := 16.
(* src: constants.rs:81-81 INPUT_REFERENCE_BYTES *)
Definition INPUT_REFERENCE_BYTES : Z := WITNESS_SIGNATURE_REFERENCE_BYTES.
(* src: constants.rs:83-83 ADDRESS_ROLE_DOMAIN *)
Definition ADDRESS_ROLE_DOMAIN : bytes := Eval vm_compute in str_bytes "ATHO_ADDR_V1".
(* src: constants.rs:85-86 FOUNDERS_HASH_SHA3_384 *)
Definition FOUNDERS_HASH_SHA3_384 : bytes := Eval vm_compute in hex "3582d92eff98ba5e575ae721ced2b32bf7bea4628971d339dc189fde10716a40b91a67f8eb300894eaebb921754cdd86".
(* src: constants.rs:87-88 FOUNDERS_HASH_SHA3_512 *)
Definition FOUNDERS_HASH_SHA3_512 : bytes := Eval vm_compute in hex "c93086ce58c4a64ef15672b00836eca94d14ea3810a584360fb11e11f065d5949aa1307f9315bce31316c820e6f58f0dace98f48111e6538a3d7a231e58e51bf".
(* src: constants.rs:90-90 BASE56_ALPHABET *)
Definition BASE56_ALPHABET : bytes := Eval vm_compute in str_bytes "23456789ABCDEFGHJKMNPQRSTUVWXYZabcdefghjkmnpqrstuvwxyz".

(* src: params.rs:14-41 ConsensusParams *)
Record ConsensusParams := {
  decimals : Z;
  atoms_per_atho : Z;
  max_supply_atho : option Z;
  initial_block_reward_atoms : Z;
  halving_interval_blocks : Z;
  coinbase_maturity_blocks : Z;
  normal_tx_valid_after_confirmations : Z;
  default_wallet_min_confirmations : Z;
  default_safe_confirmations : Z;
  high_value_confirmations : Z;
  min_tx_fee_atoms : Z;
  block_time_seconds : Z;
}.

(* src: params.rs:43-57 CONSENSUS_PARAMS *)
Definition CONSENSUS_PARAMS : ConsensusParams := {|
  decimals := DECIMALS;
  atoms_per_atho := ATOMS_PER_ATHO;
  max_supply_atho := None;
  initial_block_reward_atoms := INITIAL_BLOCK_REWARD_ATOMS;
  halving_interval_blocks := HALVING_INTERVAL_BLOCKS;
  coinbase_maturity_blocks := COINBASE_MATURITY_BLOCKS;
  normal_tx_valid_after_confirmations := NORMAL_TX_VALID_AFTER_CONFIRMATIONS;
  default_wallet_min_confirmations := DEFAULT_WALLET_MIN_CONFIRMATIONS;
  default_safe_confirmations := DEFAULT_SAFE_CONFIRMATIONS;
  high_value_confirmations := HIGH_VALUE_CONFIRMATIONS;
  min_tx_fee_atoms := MIN_TX_FEE_ATOMS;
  block_time_seconds := BLOCK_TIME_SECONDS;
|}.
