(* ===== verification/Crypto.v ===== *)
(** * Cryptographic interfaces

    The hash functions of the [sha3] crate and the Falcon backend ([fn-dsa])
    are parameters of the development: classes that the components which hash
    and verify are stated against. [Sha3Laws] states the one documented fact
    used of the hashes, their digest sizes. On top of them, the modelled
    wrappers of crates/atho-core/src/crypto/hash.rs and
    crates/atho-crypto/src/falcon.rs. *)
From stdpp Require Import options.
From S2P Require Import Prelude Bytes Constants.

(** The two digests of the [sha3] crate that src/ uses. *)
Class Sha3 := {
  sha3_256 : bytes -> bytes;
  sha3_384 : bytes -> bytes;
}.

(** Digest sizes, as the crate documents them. *)
Class Sha3Laws (H : Sha3) : Prop := {
  sha3_256_length bs : length (sha3_256 bs) = 32%nat;
  sha3_384_length bs : length (sha3_384 bs) = 48%nat;
}.

(* src: hash.rs:25-35 sha3_384_chunks *)
Definition sha3_384_chunks `{Sha3} (chunks : list bytes) : bytes := sha3_384 (mjoin chunks).

(** The decoder and verifier of [fn_dsa::VerifyingKey512]: message, domain
    context and signature to a verdict. *)
Class FalconBackend := {
  verifying_key : Type;
  verifying_key_decode : bytes -> option verifying_key;
  verifying_key_verify : verifying_key -> bytes -> bytes -> bytes -> bool;
}.


(* src: crypto_error.rs:12-21 CryptoError *)
Inductive CryptoError :=
| BackendUnavailable
| InvalidKeyLength
| OperationFailed.

(* src: falcon.rs:190-193 public_key_len_ok *)
Definition public_key_len_ok (len : Z) : bool := len =? FALCON_512_PUBLIC_KEY_BYTES.
(* src: falcon.rs:195-198 secret_key_len_ok *)
Definition secret_key_len_ok (len : Z) : bool := len =? FALCON_512_SECRET_KEY_BYTES.
(* src: falcon.rs:200-203 signature_len_ok *)
Definition signature_len_ok (len : Z) : bool := len =? FALCON_512_SIGNATURE_BYTES.

(* src: falcon.rs:205-212 validate_key_lengths *)
Definition validate_key_lengths (public_key secret_key : bytes) : result CryptoError unit :=
  if negb (public_key_len_ok (zlen public_key)) || negb (secret_key_len_ok (zlen secret_key))
  then Err InvalidKeyLength
  else Ok tt.

(* src: falcon.rs:221-226 decode_verifying_key *)
Definition decode_verifying_key `{FalconBackend} (bs : bytes) : result CryptoError verifying_key :=
  _ ← reject_if (negb (public_key_len_ok (zlen bs))) InvalidKeyLength;
  ok_or (verifying_key_decode bs) OperationFailed.

(* src: falcon.rs:301-323 verify *)
Definition falcon_verify `{FalconBackend} (domain_label public_key message signature : bytes) :
    result CryptoError bool :=
  match decode_verifying_key public_key with
  | Ok key =>
      if negb (signature_len_ok (zlen signature)) then Ok false
      else Ok (verifying_key_verify key signature domain_label message)
  | Err InvalidKeyLength | Err OperationFailed => Ok false
  | Err err => Err err
  end.

(** A verdict is always reached: the backend-unavailable error of the
    signature of [verify] is never produced by it. *)
Lemma falcon_verify_total `{FalconBackend} dom pk msg sg :
  exists b, falcon_verify dom pk msg sg = Ok b.
Proof.
  unfold falcon_verify, decode_verifying_key, reject_if.
  destruct (negb (public_key_len_ok (zlen pk))); cbn; [eauto|].
  destruct (verifying_key_decode pk); cbn; [|eauto].
  destruct (negb (signature_len_ok (zlen sg))); eauto.
Qed.

(** ** Concrete instances for the witnesses

    A checksum behind zeros, so that proof of work is immediate, and a verifier
    that accepts. *)
Definition checksum (bs : bytes) : Z :=
  fold_left (fun h b => (h * 257 + byte_to_Z b + 1) mod 2305843009213693951) bs 0.
Definition checksum_sha3 : Sha3 :=
  {| sha3_256 := fun bs => zeros 24 ++ le_bytes 8 (checksum bs);
     sha3_384 := fun bs => zeros 40 ++ le_bytes 8 (checksum bs) |}.
Lemma checksum_sha3_laws : Sha3Laws checksum_sha3.
Proof. split; intros bs; cbn [checksum_sha3 Crypto.sha3_256 Crypto.sha3_384]; by rewrite length_app, le_bytes_length. Qed.

Definition accepting_falcon : FalconBackend :=
  {| verifying_key := bytes; verifying_key_decode := Some; verifying_key_verify := fun _ _ _ _ => true |}.
