(* ===== verification/Keccak.v ===== *)
(** * A concrete SHA-3

    An executable Keccak (FIPS 202) instance of the hash interface. No theorem
    depends on it; witnesses run the model with it, so that the constants of
    src/ (genesis hashes, addresses) can be recomputed by the kernel. *)
From stdpp Require Import options.
From S2P Require Import Prelude Bytes Crypto.

Module Keccak.

Definition mask : Z := 2 ^ 64 - 1.
Definition rotl (x n : Z) : Z :=
  if n =? 0 then x
  else Z.lor (Z.land (Z.shiftl x n) mask) (Z.shiftr x (64 - n)).

Definition rotations : list Z :=
  [0; 1; 62; 28; 27; 36; 44; 6; 55; 20; 3; 10; 43; 25; 39; 41; 45; 15; 21; 8; 18; 2; 61; 56; 14].

Definition round_constants : list Z :=
  [0x0000000000000001; 0x0000000000008082; 0x800000000000808A; 0x8000000080008000;
   0x000000000000808B; 0x0000000080000001; 0x8000000080008081; 0x8000000000008009;
   0x000000000000008A; 0x0000000000000088; 0x0000000080008009; 0x000000008000000A;
   0x000000008000808B; 0x800000000000008B; 0x8000000000008089; 0x8000000000008003;
   0x8000000000008002; 0x8000000000000080; 0x000000000000800A; 0x800000008000000A;
   0x8000000080008081; 0x8000000000008080; 0x0000000080000001; 0x8000000080008008].

(** The state is the list of the 25 lanes, lane (x, y) at index x + 5 y. *)
Definition lane (a : list Z) (x y : nat) : Z := nth (x `mod` 5 + 5 * (y `mod` 5))%nat a 0.
Definition build (f : nat -> nat -> Z) : list Z :=
  flat_map (fun y => map (fun x => f x y) [0; 1; 2; 3; 4]%nat) [0; 1; 2; 3; 4]%nat.

Definition theta (a : list Z) : list Z :=
  let c := map (fun x => fold_left Z.lxor (map (lane a x) [0; 1; 2; 3; 4]%nat) 0) [0; 1; 2; 3; 4]%nat in
  let d := map (fun x => Z.lxor (nth ((x + 4) `mod` 5) c 0) (rotl (nth ((x + 1) `mod` 5) c 0) 1))
               [0; 1; 2; 3; 4]%nat in
  build (fun x y => Z.lxor (lane a x y) (nth x d 0)).
Definition rho_pi (a : list Z) : list Z :=
  build (fun x y => rotl (lane a (x + 3 * y) x) (lane rotations (x + 3 * y) x)).
Definition chi (a : list Z) : list Z :=
  build (fun x y => Z.lxor (lane a x y) (Z.land (Z.lxor (lane a (x + 1) y) mask) (lane a (x + 2) y))).
Definition iota (rc : Z) (a : list Z) : list Z :=
  match a with [] => [] | l :: a => Z.lxor l rc :: a end.
Definition permute (a : list Z) : list Z :=
  fold_left (fun a rc => iota rc (chi (rho_pi (theta a)))) round_constants a.

Fixpoint chunks (fuel n : nat) (bs : bytes) : list bytes :=
  match fuel, bs with
  | O, _ | _, [] => []
  | S fuel, _ => take n bs :: chunks fuel n (drop n bs)
  end.

Definition absorb (rate : nat) (a : list Z) (block : bytes) : list Z :=
  let lanes := map le_decode (chunks rate 8 block) in
  permute (imap (fun i l => Z.lxor l (nth i lanes 0)) a).

Definition pad (rate : nat) (bs : bytes) : bytes :=
  let q := (rate - length bs `mod` rate)%nat in
  bs ++ (if (q =? 1)%nat then [byte_of_Z 0x86]
         else byte_of_Z 0x06 :: zeros (q - 2) ++ [byte_of_Z 0x80]).

(** One squeeze is enough: the digest is shorter than the rate. *)
Definition sha3 (rate out : nat) (bs : bytes) : bytes :=
  let padded := pad rate bs in
  let a := fold_left (absorb rate) (chunks (length padded) rate padded) (replicate 25 0) in
  take out (flat_map (le_bytes 8) (take 25 (a ++ replicate 25 0))).

Definition sha3_inst : Sha3 := {|
  Crypto.sha3_256 := sha3 136 32;
  Crypto.sha3_384 := sha3 104 48;
|}.

Lemma flat_map_le_bytes_length l : length (flat_map (le_bytes 8) l) = (8 * length l)%nat.
Proof.
  induction l as [|x l IH]; [done|]. cbn [flat_map length].
  rewrite length_app, IH, le_bytes_length. lia.
Qed.

Lemma sha3_length rate out bs : (out <= 200)%nat -> length (sha3 rate out bs) = out.
Proof.
  intros. unfold sha3. rewrite length_take, flat_map_le_bytes_length, length_take, length_app,
    length_replicate. lia.
Qed.

Lemma sha3_laws : Sha3Laws sha3_inst.
Proof. split; intros; apply sha3_length; lia. Qed.

End Keccak.
