(* ===== verification/Network.v ===== *)
(** * Networks

    crates/atho-core/src/network.rs: the four networks, the identifiers that
    keep them apart, and the proof that they do. *)
From stdpp Require Import options.
From S2P Require Import Prelude Bytes Constants.

(* src: network.rs:13-24 Network *)
Inductive Network := Mainnet | Testnet | Regnet | Prunetest.

#[global] Instance Network_eq_dec : EqDecision Network.
Proof. solve_decision. Defined.
#[global] Instance Network_inhabited : Inhabited Network := populate Mainnet.

Module Network.

Definition all : list Network := [Mainnet; Testnet; Regnet; Prunetest].

(* src: network.rs:27-36 Network::parse *)
Definition parse (value : string) : option Network :=
  if bool_decide (value ∈ ["mainnet"; "atho-mainnet"]) then Some Mainnet
  else if bool_decide (value ∈ ["testnet"; "atho-testnet"]) then Some Testnet
  else if bool_decide (value ∈ ["regnet"; "regtest"; "atho-regnet"]) then Some Regnet
  else if bool_decide (value ∈ ["prunetest"; "prune-test"; "prune_test"; "atho-prunetest"])
  then Some Prunetest
  else None.

(* src: network.rs:38-46 Network::consensus_id *)
Definition consensus_id (n : Network) : byte :=
  match n with Mainnet => x01 | Testnet => x02 | Regnet => x03 | Prunetest => x04 end.

(* src: network.rs:48-57 Network::from_consensus_id *)
Definition from_consensus_id (id : byte) : option Network :=
  match id with
  | x01 => Some Mainnet
  | x02 => Some Testnet
  | x03 => Some Regnet
  | x04 => Some Prunetest
  | _ => None
  end.

(* src: network.rs:59-67 Network::id *)
Definition id (n : Network) : string :=
  match n with
  | Mainnet => "atho-mainnet"
  | Testnet => "atho-testnet"
  | Regnet => "atho-regnet"
  | Prunetest => "atho-prunetest"
  end.

(* src: network.rs:69-77 Network::domain_tag *)
Definition domain_tag (n : Network) : string :=
  match n with
  | Mainnet => "mainnet"
  | Testnet => "testnet"
  | Regnet => "regnet"
  | Prunetest => "prunetest"
  end.

(* src: network.rs:79-82 Network::cli_arg *)
Definition cli_arg (n : Network) : string := domain_tag n.

(* src: network.rs:84-92 Network::p2p_port *)
Definition p2p_port (n : Network) : Z :=
  match n with Mainnet => 56000 | Testnet => 9100 | Regnet => 9200 | Prunetest => 9300 end.

(* src: network.rs:94-102 Network::rpc_port *)
Definition rpc_port (n : Network) : Z :=
  match n with Mainnet => 9010 | Testnet => 9110 | Regnet => 9210 | Prunetest => 9310 end.

(* src: network.rs:104-115 Network::p2p_magic *)
Definition p2p_magic (n : Network) : bytes :=
  match n with
  | Mainnet => [xa7; x54; x48; x01]
  | Testnet => [xa7; x54; x48; x02]
  | Regnet => [xa7; x54; x48; x03]
  | Prunetest => [xa7; x54; x48; x04]
  end.

(* src: network.rs:117-122 Network::from_p2p_magic *)
Definition from_p2p_magic (magic : bytes) : option Network :=
  List.find (fun n => bool_decide (p2p_magic n = magic)) all.

(* src: network.rs:124-132 Network::visible_prefix *)
Definition visible_prefix (n : Network) : byte :=
  match n with Mainnet => x41 | Testnet => x54 | Regnet => x52 | Prunetest => x50 end.

(* src: network.rs:134-141 Network::internal_hpk_prefix *)
Definition internal_hpk_prefix (n : Network) : string :=
  match n with Mainnet => "ATHO" | Testnet | Regnet => "ATHT" | Prunetest => "ATHP" end.

(* src: network.rs:143-151 Network::utxo_flag *)
Definition utxo_flag (n : Network) : string :=
  match n with
  | Mainnet => ""
  | Testnet => "TEST-UTXO"
  | Regnet => "REG-UTXO"
  | Prunetest => "PRUNE-UTXO"
  end.

(* src: network.rs:153-156 Network::operator_launch_allowed *)
Definition operator_launch_allowed (_ : Network) : result string unit := Ok tt.

(* src: network.rs:158-161 Network::operator_default *)
Definition operator_default : Network := Testnet.

(** [Network::from_consensus_id( *bytes.get(offset)?)?; offset += 1;] *)
Definition read_network : reader Network :=
  b ← read_u8;
  match from_consensus_id b with Some n => mret n | None => fail end.

(** ** Isolation *)

Lemma from_consensus_id_Some b n : from_consensus_id b = Some n <-> b = consensus_id n.
Proof. split; [destruct b; cbn; intros; simplify_eq; done|]. intros ->. by destruct n. Qed.

Lemma from_p2p_magic_Some m n : from_p2p_magic m = Some n <-> m = p2p_magic n.
Proof.
  unfold from_p2p_magic. split.
  - intros (_ & H)%List.find_some. by bool_to_prop.
  - intros ->. by destruct n.
Qed.

#[global] Instance consensus_id_inj : Inj (=) (=) consensus_id.
Proof. by intros [] [] ?. Qed.

(** The wire byte of a network is read back to that network and no other. *)
Lemma codec_network : codec (fun n => [consensus_id n]) read_network (fun _ => True).
Proof.
  unfold read_network. split.
  - intros n rest _. by destruct n.
  - intros bs n rest H. inv_read.
    destruct (from_consensus_id a) as [n'|] eqn:E; [|done].
    apply reader_ret_Some in H as [-> ->].
    apply from_consensus_id_Some in E as ->. done.
Qed.

End Network.

Lemma magic_length n : length (Network.p2p_magic n) = 4%nat.
Proof. by destruct n. Qed.

(* src: params.rs:59-69 consensus_params_for_network *)
Definition consensus_params_for_network (network : Network) : ConsensusParams :=
  match network with
  | Mainnet => CONSENSUS_PARAMS
  | Testnet => CONSENSUS_PARAMS
  | Regnet | Prunetest => CONSENSUS_PARAMS
  end.

Definition atoms_per_atho_for_network (_ : Network) : Z := ATOMS_PER_ATHO.
Definition decimals_for_network (_ : Network) : Z := DECIMALS.

(** The header's invariant: no two networks share a consensus id, a magic, a
    P2P or RPC port or a visible address prefix, each wire identifier decodes
    to its own network only, and the CLI selectors parse back. *)
Theorem network_isolation n m :
  (Network.consensus_id n = Network.consensus_id m \/
   Network.p2p_magic n = Network.p2p_magic m \/
   Network.p2p_port n = Network.p2p_port m \/
   Network.rpc_port n = Network.rpc_port m \/
   Network.visible_prefix n = Network.visible_prefix m \/
   Network.parse (Network.cli_arg n) = Some m \/
   Network.parse (Network.id n) = Some m \/
   Network.from_consensus_id (Network.consensus_id n) = Some m \/
   Network.from_p2p_magic (Network.p2p_magic n) = Some m) <-> n = m.
Proof.
  split.
  - destruct n, m; try done; vm_compute; intros; naive_solver.
  - intros ->. by left.
Qed.
