(* ===== verification/Encoding.v ===== *)
(** * Compact-size integers

    crates/atho-core/src/encoding.rs, with a reference decoder that only the
    theorems use: the source has none in this crate. *)
From stdpp Require Import options.
From S2P Require Import Prelude Bytes.

(* src: encoding.rs:9-17 compact_size_len *)
Definition compact_size_len (value : Z) : Z :=
  if value <=? 0xfc then 1
  else if value <=? 0xffff then 3
  else if value <=? 0xffffffff then 5
  else 9.

(* src: encoding.rs:19-37 write_compact_size *)
Definition write_compact_size (value : Z) : bytes :=
  if value <=? 0xfc then [byte_of_Z value]
  else if value <=? 0xffff then xfd :: le_u16 value
  else if value <=? 0xffffffff then xfe :: le_u32 value
  else xff :: le_u64 value.

(** The reader of the format the doc comment names (Bitcoin's), canonical
    encodings only. *)
Definition read_compact_size : reader Z :=
  tag ← read_u8;
  if byte_to_Z tag <? 0xfd then mret (byte_to_Z tag)
  else if byte_to_Z tag =? 0xfd then v ← read_u16; _ ← none_if (v <=? 0xfc); mret v
  else if byte_to_Z tag =? 0xfe then v ← read_u32; _ ← none_if (v <=? 0xffff); mret v
  else v ← read_u64; _ ← none_if (v <=? 0xffffffff); mret v.

Lemma write_compact_size_length v : zlen (write_compact_size v) = compact_size_len v.
Proof.
  unfold write_compact_size, compact_size_len.
  by destruct (v <=? 0xfc), (v <=? 0xffff), (v <=? 0xffffffff).
Qed.
#[export] Hint Rewrite write_compact_size_length : zlen.

Lemma compact_size_len_pos v : 1 <= compact_size_len v <= 9.
Proof.
  unfold compact_size_len. destruct (v <=? 0xfc), (v <=? 0xffff), (v <=? 0xffffffff); lia.
Qed.

(** [write_compact_size] is a canonical code for [usize] values: read back exactly
    and injective, so length prefixes cannot be confused. *)
Theorem compact_size_codec : codec write_compact_size read_compact_size is_u64.
Proof.
  split.
  - intros v rest Hv. unfold write_compact_size, read_compact_size. unfold uint in *.
    destruct (Z.leb_spec v 0xfc).
    { rewrite reader_bind_run. cbn [read_u8 app]. rewrite byte_to_of_Z, Z.mod_small by lia.
      by destruct (Z.ltb_spec v 0xfd); [|lia]. }
    destruct (Z.leb_spec v 0xffff); [|destruct (Z.leb_spec v 0xffffffff)].
    all: rewrite reader_bind_run; cbn [read_u8 app].
    + change (byte_to_Z xfd) with 0xfd. cbn [Z.ltb Z.compare Z.eqb Pos.eqb Pos.compare Pos.compare_cont].
      read_forward codec_u16; [|unfold uint; lia].
      rewrite reader_bind_run. unfold none_if. by destruct (Z.leb_spec v 0xfc); [lia|].
    + change (byte_to_Z xfe) with 0xfe. cbn [Z.ltb Z.compare Z.eqb Pos.eqb Pos.compare Pos.compare_cont].
      read_forward codec_u32; [|unfold uint; lia].
      rewrite reader_bind_run. unfold none_if. by destruct (Z.leb_spec v 0xffff); [lia|].
    + change (byte_to_Z xff) with 0xff. cbn [Z.ltb Z.compare Z.eqb Pos.eqb Pos.compare Pos.compare_cont].
      read_forward codec_u64; [|unfold uint; lia].
      rewrite reader_bind_run. unfold none_if. by destruct (Z.leb_spec v 0xffffffff); [lia|].
  - intros bs v rest H. unfold read_compact_size in H. unfold uint. inv_read.
    pose proof (byte_range a) as Hr. unfold write_compact_size.
    destruct (Z.ltb_spec (byte_to_Z a) 0xfd); inv_read.
    { destruct (Z.leb_spec (byte_to_Z a) 0xfc); [|lia]. rewrite byte_of_to_Z. split; [done|lia]. }
    destruct (Z.eqb_spec (byte_to_Z a) 0xfd) as [E|]; inv_read; bool_to_prop.
    { replace a with xfd by by apply (inj byte_to_Z). unfold uint in *.
      destruct (Z.leb_spec a0 0xfc), (Z.leb_spec a0 0xffff); try lia. by split; [|lia]. }
    destruct (Z.eqb_spec (byte_to_Z a) 0xfe) as [E|]; inv_read; bool_to_prop.
    { replace a with xfe by by apply (inj byte_to_Z). unfold uint in *.
      destruct (Z.leb_spec a0 0xfc), (Z.leb_spec a0 0xffff), (Z.leb_spec a0 0xffffffff); try lia.
      by split; [|lia]. }
    assert (byte_to_Z a = 0xff) as E by lia. replace a with xff by by apply (inj byte_to_Z).
    destruct (Z.leb_spec a0 0xfc), (Z.leb_spec a0 0xffff), (Z.leb_spec a0 0xffffffff);
      unfold uint in *; try lia. by split; [|lia].
Qed.
