(* ===== verification/Rules.v ===== *)
(** * Rule schedule

    crates/atho-core/src/consensus/rules.rs: which block and transaction
    versions are in force at a height. *)
From stdpp Require Import options.
From S2P Require Import Prelude.

(* src: rules.rs:9-22 ConsensusRules *)
Record ConsensusRules := {
  cr_protocol_version : Z;
  cr_ruleset_version : Z;
  cr_block_version : Z;
  cr_transaction_version : Z;
  cr_activation_height : Z;
}.

(* src: rules.rs:24-37 ScheduledActivation *)
Record ScheduledActivation := {
  sa_name : string;
  sa_ruleset_version : Z;
  sa_block_version : Z;
  sa_transaction_version : Z;
  sa_activation_height : option Z;
}.

(* src: rules.rs:39-39 PROTOCOL_VERSION *)
Definition PROTOCOL_VERSION : Z := 1.
(* src: rules.rs:40-40 STORAGE_SCHEMA_VERSION *)
Definition STORAGE_SCHEMA_VERSION : Z := 4.
(* src: rules.rs:42-42 RULESET_VERSION_V1 *)
Definition RULESET_VERSION_V1 : Z := 1.
(* src: rules.rs:43-43 BLOCK_VERSION_V1 *)
Definition BLOCK_VERSION_V1 : Z := 1.
(* src: rules.rs:44-44 TRANSACTION_VERSION_V1 *)
Definition TRANSACTION_VERSION_V1 : Z := 1.
(* src: rules.rs:45-45 RULESET_V1_ACTIVATION_HEIGHT *)
Definition RULESET_V1_ACTIVATION_HEIGHT : Z := 0.
(* src: rules.rs:47-47 RULESET_VERSION_V2_PLACEHOLDER *)
Definition RULESET_VERSION_V2_PLACEHOLDER : Z := 2.
(* src: rules.rs:48-48 BLOCK_VERSION_V2_PLACEHOLDER *)
Definition BLOCK_VERSION_V2_PLACEHOLDER : Z := 2.
(* src: rules.rs:49-49 TRANSACTION_VERSION_V2_PLACEHOLDER *)
Definition TRANSACTION_VERSION_V2_PLACEHOLDER : Z := 2.
(* src: rules.rs:50-50 RULESET_V2_ACTIVATION_HEIGHT *)
Definition RULESET_V2_ACTIVATION_HEIGHT : option Z := None.

(* src: rules.rs:52-58 ACTIVE_RULESET_V1 *)
Definition ACTIVE_RULESET_V1 : ConsensusRules := {|
  cr_protocol_version := PROTOCOL_VERSION;
  cr_ruleset_version := RULESET_VERSION_V1;
  cr_block_version := BLOCK_VERSION_V1;
  cr_transaction_version := TRANSACTION_VERSION_V1;
  cr_activation_height := RULESET_V1_ACTIVATION_HEIGHT;
|}.

(* src: rules.rs:61-67 SCHEDULED_ACTIVATIONS[0] *)
Definition ACTIVATION_V1 : ScheduledActivation := {|
  sa_name := "atho-ruleset-v1";
  sa_ruleset_version := RULESET_VERSION_V1;
  sa_block_version := BLOCK_VERSION_V1;
  sa_transaction_version := TRANSACTION_VERSION_V1;
  sa_activation_height := Some RULESET_V1_ACTIVATION_HEIGHT;
|}.

(* src: rules.rs:60-75 SCHEDULED_ACTIVATIONS *)
Definition SCHEDULED_ACTIVATIONS : list ScheduledActivation :=
  [ACTIVATION_V1;
   {| sa_name := "atho-ruleset-v2-placeholder";
      sa_ruleset_version := RULESET_VERSION_V2_PLACEHOLDER;
      sa_block_version := BLOCK_VERSION_V2_PLACEHOLDER;
      sa_transaction_version := TRANSACTION_VERSION_V2_PLACEHOLDER;
      sa_activation_height := RULESET_V2_ACTIVATION_HEIGHT |}].

(** [Iterator::max_by_key]: the last of the elements with the greatest key. *)
Definition max_by_key {A} (key : A -> Z) (l : list A) : option A :=
  fold_left (fun best x =>
    match best with
    | None => Some x
    | Some b => if key b <=? key x then Some x else Some b
    end) l None.

(** The [filter_map] of the lookup: entries live at [height], with their heights. *)
Definition active_at (height : Z) (a : ScheduledActivation) : option (ScheduledActivation * Z) :=
  match sa_activation_height a with
  | Some h => if h <=? height then Some (a, h) else None
  | None => None
  end.

(* src: rules.rs:82-116 rules_at_height_with_schedule *)
Definition rules_at_height_with_schedule (height : Z) (schedule : list ScheduledActivation) :
    ConsensusRules :=
  let activation := fst <$> max_by_key snd (omap (active_at height) schedule) in
  let activation := default (default ACTIVATION_V1 (head schedule)) activation in
  {| cr_protocol_version := PROTOCOL_VERSION;
     cr_ruleset_version := sa_ruleset_version activation;
     cr_block_version := sa_block_version activation;
     cr_transaction_version := sa_transaction_version activation;
     cr_activation_height := default RULESET_V1_ACTIVATION_HEIGHT (sa_activation_height activation) |}.

(* src: rules.rs:77-80 rules_at_height *)
Definition rules_at_height (height : Z) : ConsensusRules :=
  rules_at_height_with_schedule height SCHEDULED_ACTIVATIONS.

(* src: rules.rs:118-121 block_version_at_height *)
Definition block_version_at_height (height : Z) : Z := cr_block_version (rules_at_height height).
(* src: rules.rs:123-126 block_version_at_height_with_schedule *)
Definition block_version_at_height_with_schedule (height : Z) schedule : Z :=
  cr_block_version (rules_at_height_with_schedule height schedule).
(* src: rules.rs:128-131 transaction_version_at_height *)
Definition transaction_version_at_height (height : Z) : Z :=
  cr_transaction_version (rules_at_height height).
(* src: rules.rs:133-139 transaction_version_at_height_with_schedule *)
Definition transaction_version_at_height_with_schedule (height : Z) schedule : Z :=
  cr_transaction_version (rules_at_height_with_schedule height schedule).
(* src: rules.rs:141-144 ruleset_version_at_height *)
Definition ruleset_version_at_height (height : Z) : Z :=
  cr_ruleset_version (rules_at_height height).
(* src: rules.rs:146-149 is_supported_block_version *)
Definition is_supported_block_version (version height : Z) : bool :=
  block_version_at_height height =? version.
(* src: rules.rs:151-158 is_supported_block_version_with_schedule *)
Definition is_supported_block_version_with_schedule (version height : Z) schedule : bool :=
  block_version_at_height_with_schedule height schedule =? version.
(* src: rules.rs:160-163 is_supported_transaction_version *)
Definition is_supported_transaction_version (version height : Z) : bool :=
  transaction_version_at_height height =? version.
(* src: rules.rs:165-172 is_supported_transaction_version_with_schedule *)
Definition is_supported_transaction_version_with_schedule (version height : Z) schedule : bool :=
  transaction_version_at_height_with_schedule height schedule =? version.

(** ** The lookup picks the latest activation that has started *)

Lemma max_by_key_spec {A} (key : A -> Z) l :
  match max_by_key key l with
  | None => l = []
  | Some m => m ∈ l /\ Forall (fun x => key x <= key m) l
  end.
Proof.
  unfold max_by_key. induction l as [|x l IH] using rev_ind; [done|].
  rewrite fold_left_app. cbn [fold_left].
  destruct (fold_left _ l None) as [m|].
  - destruct IH as [Hm Hall]. destruct (Z.leb_spec (key m) (key x)).
    + split; [set_solver|]. apply Forall_app. split; [|by repeat constructor].
      eapply Forall_impl; [exact Hall|]. cbn. intros. lia.
    + split; [set_solver|]. apply Forall_app. split; [done|]. repeat constructor. lia.
  - subst. split; [set_solver|]. by repeat constructor.
Qed.

(** The doc comment of [rules_at_height_with_schedule]: the versions in force at a height
    are those of a scheduled activation that has started and is the latest to
    have; and when none has started, those of the first entry (or of the
    built-in v1 for an empty schedule). *)
Theorem rules_latest_activation_wins height schedule :
  (exists a h,
     a ∈ schedule /\ sa_activation_height a = Some h /\ h <= height /\
     (forall a' h', a' ∈ schedule -> sa_activation_height a' = Some h' -> h' <= height -> h' <= h) /\
     rules_at_height_with_schedule height schedule =
       {| cr_protocol_version := PROTOCOL_VERSION;
          cr_ruleset_version := sa_ruleset_version a;
          cr_block_version := sa_block_version a;
          cr_transaction_version := sa_transaction_version a;
          cr_activation_height := h |}) \/
  ((forall a h, a ∈ schedule -> sa_activation_height a = Some h -> height < h) /\
   cr_ruleset_version (rules_at_height_with_schedule height schedule) =
     sa_ruleset_version (default ACTIVATION_V1 (head schedule))).
Proof.
  unfold rules_at_height_with_schedule.
  pose proof (max_by_key_spec snd (omap (active_at height) schedule)) as Hs.
  assert (forall a h, (a, h) ∈ omap (active_at height) schedule <->
            a ∈ schedule /\ sa_activation_height a = Some h /\ h <= height) as Hin.
  { intros a h. rewrite list_elem_of_omap. unfold active_at. split.
    - intros (a' & Ha & Hb). destruct (sa_activation_height a') as [h'|] eqn:E; [|done].
      destruct (Z.leb_spec h' height); by simplify_eq.
    - intros (Ha & Hb & Hc). exists a. split; [done|]. rewrite Hb.
      destruct (Z.leb_spec h height); [done|lia]. }
  destruct (max_by_key snd _) as [[a h]|].
  - left. destruct Hs as [(Ha & Hh & Hle)%Hin Hall]. rewrite Forall_forall in Hall.
    exists a, h. repeat split; try done.
    + intros a' h' ???. by apply (Hall (a', h')), Hin.
    + cbn. by rewrite Hh.
  - right. split; [|done]. intros a h Ha Hh. apply Z.nle_gt. intros Hle.
    assert ((a, h) ∈ omap (active_at height) schedule) as Hel by by apply Hin.
    rewrite Hs in Hel. by apply not_elem_of_nil in Hel.
Qed.

(** The default schedule keeps version 1 at every height. *)
Lemma rules_at_height_v1 height :
  0 <= height -> rules_at_height height = ACTIVE_RULESET_V1.
Proof.
  intros. unfold rules_at_height, rules_at_height_with_schedule, SCHEDULED_ACTIVATIONS.
  cbn [omap list_omap active_at ACTIVATION_V1 sa_activation_height RULESET_V2_ACTIVATION_HEIGHT].
  unfold RULESET_V1_ACTIVATION_HEIGHT. destruct (Z.leb_spec 0 height); [done|lia].
Qed.
