(* ===== verification/Subsidy.v ===== *)
(** * Block subsidy

    crates/atho-core/src/consensus/subsidy.rs: the per-block reward, the loop
    that adds up issuance era by era, and the proof that the loop is the sum
    of the rewards. *)
From stdpp Require Import options.
From S2P Require Import Prelude Constants Network.

(* src: subsidy.rs:14-25 EmissionSchedule *)
Record EmissionSchedule := {
  es_initial_block_reward_atoms : Z;
  es_tail_reward_atoms : Z;
  es_halving_interval_blocks : Z;
  es_blocks_per_year : Z;
}.

(* src: subsidy.rs:27-33 EMISSION_SCHEDULE *)
Definition EMISSION_SCHEDULE : EmissionSchedule := {|
  es_initial_block_reward_atoms := INITIAL_BLOCK_REWARD_ATOMS;
  es_tail_reward_atoms := TAIL_REWARD_ATOMS;
  es_halving_interval_blocks := HALVING_INTERVAL_BLOCKS;
  es_blocks_per_year := BLOCKS_PER_YEAR;
|}.

(* src: subsidy.rs:35-35 TAIL_EMISSION_START_HEIGHT *)
Definition TAIL_EMISSION_START_HEIGHT : Z := es_halving_interval_blocks EMISSION_SCHEDULE * 7.
(* src: subsidy.rs:36-36 YEAR_20_HEIGHT *)
Definition YEAR_20_HEIGHT : Z := es_blocks_per_year EMISSION_SCHEDULE * 20.

(* src: subsidy.rs:38-52 get_block_reward_atoms *)
Definition get_block_reward_atoms (height : Z) : Z :=
  let halvings := height / HALVING_INTERVAL_BLOCKS in
  let reward := if 64 <=? halvings then 0 else Z.shiftr INITIAL_BLOCK_REWARD_ATOMS halvings in
  if reward <? TAIL_REWARD_ATOMS then TAIL_REWARD_ATOMS else reward.

(* src: subsidy.rs:54-57 block_subsidy_atoms *)
Definition block_subsidy_atoms (height : Z) : Z := get_block_reward_atoms height.
(* src: subsidy.rs:59-65 block_subsidy_atoms_for_network *)
Definition block_subsidy_atoms_for_network (_ : Network) (height : Z) : Z :=
  get_block_reward_atoms height.
(* src: subsidy.rs:67-70 genesis_coinbase_atoms_for_network *)
Definition genesis_coinbase_atoms_for_network (_ : Network) : Z := get_block_reward_atoms 0.

(** The [while remaining_blocks > 0] loop; [None] when [fuel] iterations were
    not enough. *)
(* src: subsidy.rs:82-93 cumulative_issued_before_height (loop) *)
Fixpoint issuance_loop (fuel : nat) (remaining_blocks issued reward : Z) : option Z :=
  if 0 <? remaining_blocks then
    match fuel with
    | O => None
    | S fuel =>
        let era_blocks := Z.min remaining_blocks HALVING_INTERVAL_BLOCKS in
        let effective_reward := Z.max reward TAIL_REWARD_ATOMS in
        let issued := saturating_add U128_MAX issued (era_blocks * effective_reward) in
        let remaining_blocks := remaining_blocks - era_blocks in
        let reward :=
          if TAIL_REWARD_ATOMS <? reward then Z.max (reward / 2) TAIL_REWARD_ATOMS
          else TAIL_REWARD_ATOMS in
        issuance_loop fuel remaining_blocks issued reward
    end
  else Some issued.

(** One iteration per started era. *)
Definition issuance_fuel (height : Z) : nat := S (Z.to_nat (height / HALVING_INTERVAL_BLOCKS)).

(* src: subsidy.rs:72-96 cumulative_issued_before_height *)
Definition cumulative_issued_before_height (height : Z) : option Z :=
  if height =? 0 then Some 0
  else issuance_loop (issuance_fuel height) height 0 INITIAL_BLOCK_REWARD_ATOMS.

(* src: subsidy.rs:98-101 cumulative_issued_through_height *)
Definition cumulative_issued_through_height (height : Z) : option Z :=
  cumulative_issued_before_height (saturating_add U64_MAX height 1).

(* src: subsidy.rs:103-106 cumulative_issued_before_height_for_network *)
Definition cumulative_issued_before_height_for_network (_ : Network) (height : Z) : option Z :=
  cumulative_issued_before_height height.
(* src: subsidy.rs:108-111 cumulative_issued_through_height_for_network *)
Definition cumulative_issued_through_height_for_network (_ : Network) (height : Z) : option Z :=
  cumulative_issued_through_height height.
(* src: subsidy.rs:113-118 max_supply_atoms_for_network *)
Definition max_supply_atoms_for_network (_ : Network) : option Z := None.

(** ** Specification: the sum of the rewards of the blocks below a height *)

Definition total_rewards_below (height : Z) : Z := zsum (get_block_reward_atoms <$> seqZ 0 height).

(** The reward of an era. *)
Definition era_reward (e : Z) : Z := get_block_reward_atoms (e * HALVING_INTERVAL_BLOCKS).

Lemma reward_era height : get_block_reward_atoms height = era_reward (height / HALVING_INTERVAL_BLOCKS).
Proof. unfold era_reward, get_block_reward_atoms. by rewrite Z.div_mul. Qed.

Lemma shiftr_tail e : 7 <= e -> Z.shiftr INITIAL_BLOCK_REWARD_ATOMS e <= TAIL_REWARD_ATOMS.
Proof.
  intros. rewrite Z.shiftr_div_pow2 by lia.
  replace e with (7 + (e - 7)) by lia. rewrite Z.pow_add_r, <- Z.div_div by lia.
  change (INITIAL_BLOCK_REWARD_ATOMS / 2 ^ 7) with TAIL_REWARD_ATOMS.
  apply Z.div_le_upper_bound; [lia|]. unfold TAIL_REWARD_ATOMS.
  pose proof (Z.pow_pos_nonneg 2 (e - 7)). nia.
Qed.

Lemma era_reward_tail e : 7 <= e -> era_reward e = TAIL_REWARD_ATOMS.
Proof.
  intros. unfold era_reward, get_block_reward_atoms. rewrite Z.div_mul by done.
  pose proof (shiftr_tail e). destruct (Z.leb_spec 64 e); [done|].
  destruct (Z.ltb_spec (Z.shiftr INITIAL_BLOCK_REWARD_ATOMS e) TAIL_REWARD_ATOMS); lia.
Qed.

Lemma small_era_cases (P : Z -> Prop) e :
  0 <= e -> P 0 -> P 1 -> P 2 -> P 3 -> P 4 -> P 5 -> P 6 -> (7 <= e -> P e) -> P e.
Proof.
  intros. destruct (Z.leb_spec 7 e); [auto|].
  assert (e = 0 \/ e = 1 \/ e = 2 \/ e = 3 \/ e = 4 \/ e = 5 \/ e = 6) as Hc by lia.
  by destruct Hc as [->|[->|[->|[->|[->|[->| ->]]]]]].
Qed.

(** The next era's reward is what the loop computes from the current one. *)
Lemma era_reward_next e :
  0 <= e ->
  era_reward (e + 1) =
    if TAIL_REWARD_ATOMS <? era_reward e then Z.max (era_reward e / 2) TAIL_REWARD_ATOMS
    else TAIL_REWARD_ATOMS.
Proof.
  intros He. pattern e. apply (small_era_cases _ e He); [by vm_compute..|].
  intros. rewrite !era_reward_tail by lia. done.
Qed.

Lemma era_reward_bounds e : 0 <= e -> TAIL_REWARD_ATOMS <= era_reward e <= INITIAL_BLOCK_REWARD_ATOMS.
Proof.
  intros He. pattern e. apply (small_era_cases _ e He); [by vm_compute..|].
  intros. by rewrite era_reward_tail.
Qed.

Lemma reward_bounds height :
  0 <= height -> TAIL_REWARD_ATOMS <= get_block_reward_atoms height <= INITIAL_BLOCK_REWARD_ATOMS.
Proof. intros. rewrite reward_era. apply era_reward_bounds. by apply Z.div_pos. Qed.

Lemma era_reward_antitone d e : 0 <= d <= e -> era_reward e <= era_reward d.
Proof.
  intros [Hd Hde]. revert Hd. pattern d, e.
  replace e with (d + Z.of_nat (Z.to_nat (e - d))) by lia. intros Hd.
  induction (Z.to_nat (e - d)) as [|n IH]; [by rewrite Z.add_0_r|].
  replace (d + Z.of_nat (S n)) with (d + Z.of_nat n + 1) by lia.
  rewrite era_reward_next by lia. pose proof (era_reward_bounds (d + Z.of_nat n) ltac:(lia)).
  destruct (Z.ltb_spec TAIL_REWARD_ATOMS (era_reward (d + Z.of_nat n))); [|lia].
  pose proof (Z.div_le_upper_bound (era_reward (d + Z.of_nat n)) 2 (era_reward (d + Z.of_nat n))).
  unfold TAIL_REWARD_ATOMS, INITIAL_BLOCK_REWARD_ATOMS, ATOMS_PER_ATHO in *. lia.
Qed.

Lemma total_rewards_split a n :
  0 <= a -> 0 <= n ->
  total_rewards_below (a + n) = total_rewards_below a + zsum (get_block_reward_atoms <$> seqZ a n).
Proof.
  intros. unfold total_rewards_below. rewrite seqZ_app, fmap_app, zsum_app by lia. done.
Qed.

(** Blocks of one era all pay its reward. *)
Lemma era_sum e n :
  0 <= e -> 0 <= n <= HALVING_INTERVAL_BLOCKS ->
  zsum (get_block_reward_atoms <$> seqZ (e * HALVING_INTERVAL_BLOCKS) n) = n * era_reward e.
Proof.
  intros He [Hn Hle]. replace n with (Z.of_nat (Z.to_nat n)) in * by lia.
  induction (Z.to_nat n) as [|k IH]; [done|].
  replace (Z.of_nat (S k)) with (Z.of_nat k + 1) in * by lia.
  rewrite seqZ_app, fmap_app, zsum_app, IH by lia.
  change (seqZ (e * HALVING_INTERVAL_BLOCKS + Z.of_nat k) 1)
    with [0 + (e * HALVING_INTERVAL_BLOCKS + Z.of_nat k)].
  cbn [fmap list_fmap zsum]. rewrite reward_era.
  replace ((0 + (e * HALVING_INTERVAL_BLOCKS + Z.of_nat k)) / HALVING_INTERVAL_BLOCKS) with e; [lia|].
  apply (Z.div_unique_pos _ _ _ (Z.of_nat k)); lia.
Qed.

Lemma total_rewards_bounds height :
  0 <= height ->
  height * TAIL_REWARD_ATOMS <= total_rewards_below height <= height * INITIAL_BLOCK_REWARD_ATOMS.
Proof.
  intros Hh. replace height with (Z.of_nat (Z.to_nat height)) by lia.
  induction (Z.to_nat height) as [|k IH]; [done|].
  replace (Z.of_nat (S k)) with (Z.of_nat k + 1) by lia.
  rewrite total_rewards_split by lia. change (seqZ (Z.of_nat k) 1) with [0 + Z.of_nat k].
  cbn [fmap list_fmap zsum]. pose proof (reward_bounds (0 + Z.of_nat k)). lia.
Qed.

Lemma total_rewards_succ height :
  0 <= height ->
  total_rewards_below (height + 1) = total_rewards_below height + get_block_reward_atoms height.
Proof.
  intros. rewrite total_rewards_split by lia. change (seqZ height 1) with [0 + height].
  cbn [fmap list_fmap zsum]. rewrite Z.add_0_l. lia.
Qed.

Lemma issuance_loop_spec fuel e remaining :
  0 <= e -> 0 <= remaining -> remaining / HALVING_INTERVAL_BLOCKS < Z.of_nat fuel ->
  total_rewards_below (e * HALVING_INTERVAL_BLOCKS + remaining) <= U128_MAX ->
  issuance_loop fuel remaining (total_rewards_below (e * HALVING_INTERVAL_BLOCKS)) (era_reward e) =
    Some (total_rewards_below (e * HALVING_INTERVAL_BLOCKS + remaining)).
Proof.
  revert e remaining. induction fuel as [|fuel IH]; intros e rem He Hrem Hfuel Hmax.
  { pose proof (Z.div_pos rem HALVING_INTERVAL_BLOCKS). unfold HALVING_INTERVAL_BLOCKS in *. lia. }
  cbn [issuance_loop]. destruct (Z.ltb_spec 0 rem); [|do 2 f_equal; lia].
  pose proof (era_reward_bounds e He).
  rewrite Z.max_l, <- era_reward_next by lia.
  assert (0 < HALVING_INTERVAL_BLOCKS) as HI by done.
  assert (0 <= e * HALVING_INTERVAL_BLOCKS) as HeI by nia.
  set (n := Z.min rem HALVING_INTERVAL_BLOCKS) in *.
  assert (0 <= n <= HALVING_INTERVAL_BLOCKS /\ n <= rem) as Hn by lia.
  rewrite <- (era_sum e n) by lia.
  assert (total_rewards_below (e * HALVING_INTERVAL_BLOCKS + n) <= U128_MAX) as Hmax'.
  { replace (e * HALVING_INTERVAL_BLOCKS + rem) with (e * HALVING_INTERVAL_BLOCKS + n + (rem - n))
      in Hmax by lia. rewrite total_rewards_split in Hmax by lia.
    enough (0 <= zsum (get_block_reward_atoms <$> seqZ (e * HALVING_INTERVAL_BLOCKS + n) (rem - n)))
      by lia.
    apply zsum_nonneg, Forall_fmap, Forall_forall. intros h Hh%elem_of_seqZ. cbn.
    pose proof (reward_bounds h). unfold TAIL_REWARD_ATOMS in *. lia. }
  unfold saturating_add. rewrite <- total_rewards_split, Z.min_r by lia.
  destruct (Z.le_gt_cases rem HALVING_INTERVAL_BLOCKS).
  - replace n with rem by lia. replace (rem - rem) with 0 by lia. by destruct fuel.
  - replace n with HALVING_INTERVAL_BLOCKS by lia.
    replace (e * HALVING_INTERVAL_BLOCKS + HALVING_INTERVAL_BLOCKS)
      with ((e + 1) * HALVING_INTERVAL_BLOCKS) by lia.
    rewrite IH; [do 2 f_equal; lia|lia|lia| |].
    + replace (rem - HALVING_INTERVAL_BLOCKS) with (rem + -1 * HALVING_INTERVAL_BLOCKS) by lia.
      rewrite Z.div_add by lia. lia.
    + by replace ((e + 1) * HALVING_INTERVAL_BLOCKS + (rem - HALVING_INTERVAL_BLOCKS))
        with (e * HALVING_INTERVAL_BLOCKS + rem) by lia.
Qed.

Lemma issued_is_total height :
  is_u64 height -> cumulative_issued_before_height height = Some (total_rewards_below height).
Proof.
  intros [H0 Hmax]. unfold cumulative_issued_before_height.
  destruct (Z.eqb_spec height 0) as [->|]; [done|].
  rewrite <- (Z.add_0_l height) at 3. apply (issuance_loop_spec _ 0); [done|done| |].
  - unfold issuance_fuel. pose proof (Z.div_pos height HALVING_INTERVAL_BLOCKS H0). 
    unfold HALVING_INTERVAL_BLOCKS in *. lia.
  - pose proof (total_rewards_bounds (0 * HALVING_INTERVAL_BLOCKS + height)).
    unfold U128_MAX, INITIAL_BLOCK_REWARD_ATOMS, ATOMS_PER_ATHO in *. lia.
Qed.

(** For every [u64] height, the era loop of [cumulative_issued_before_height]
    terminates within its fuel, never saturates its [u128] accumulator, and
    returns exactly the sum of [get_block_reward_atoms] over the blocks below
    that height. *)
Theorem issued_before_height_sums_rewards height (H : is_u64 height) :
  cumulative_issued_before_height height = Some (total_rewards_below height) /\
  total_rewards_below height < U128_MAX.
Proof.
  split; [by apply issued_is_total|].
  pose proof (total_rewards_bounds height ltac:(destruct H; lia)). destruct H.
  unfold U128_MAX, INITIAL_BLOCK_REWARD_ATOMS, ATOMS_PER_ATHO in *. lia.
Qed.

Lemma issued_before_height_sums_rewards_witness :
  cumulative_issued_before_height 8820000 = Some (total_rewards_below 8820000) /\
  total_rewards_below 8820000 < U128_MAX.
Proof. apply (issued_before_height_sums_rewards 8820000). unfold uint; lia. Defined.

(** The reward curve never increases with height, starts at the initial
    reward, halves at each interval until the seventh, and pays exactly the
    tail reward for ever after, so issuance has no finite cap. *)
Theorem reward_curve :
  (forall h h', 0 <= h <= h' -> get_block_reward_atoms h' <= get_block_reward_atoms h) /\
  (forall h, 0 <= h < HALVING_INTERVAL_BLOCKS -> get_block_reward_atoms h = INITIAL_BLOCK_REWARD_ATOMS) /\
  (forall h, 0 <= h -> h + HALVING_INTERVAL_BLOCKS < TAIL_EMISSION_START_HEIGHT ->
     2 * get_block_reward_atoms (h + HALVING_INTERVAL_BLOCKS) = get_block_reward_atoms h) /\
  (forall h, TAIL_EMISSION_START_HEIGHT <= h -> get_block_reward_atoms h = TAIL_REWARD_ATOMS).
Proof.
  assert (0 < HALVING_INTERVAL_BLOCKS) as HI by done. repeat split.
  - intros h h' ?. rewrite !(reward_era _). apply era_reward_antitone.
    split; [by apply Z.div_pos; lia|by apply Z.div_le_mono; lia].
  - intros h ?. rewrite reward_era, Z.div_small by done. done.
  - intros h ? Hlt. rewrite !(reward_era _).
    replace (h + HALVING_INTERVAL_BLOCKS) with (h + 1 * HALVING_INTERVAL_BLOCKS) by lia.
    rewrite Z.div_add by lia.
    assert (h / HALVING_INTERVAL_BLOCKS < 6) as Hlt6.
    { apply Z.div_lt_upper_bound; [done|]. unfold TAIL_EMISSION_START_HEIGHT in *. cbn in *. lia. }
    pose proof (Z.div_pos h HALVING_INTERVAL_BLOCKS ltac:(lia) ltac:(lia)).
    revert Hlt6. pattern (h / HALVING_INTERVAL_BLOCKS).
    by apply (small_era_cases _ (h / HALVING_INTERVAL_BLOCKS)); [lia| .. |lia].
  - intros h Hh. rewrite reward_era. apply era_reward_tail.
    apply Z.div_le_lower_bound; [done|]. unfold TAIL_EMISSION_START_HEIGHT in Hh. cbn in *. lia.
Qed.
