(* ===== verification/Transaction.v ===== *)
(** * Transactions and witnesses

    crates/atho-core/src/transaction.rs: the data, its four serializations
    (base, full, compact, witness commitment), the strict decoders and the
    identifiers hashed from them. *)
From stdpp Require Import options.
From S2P Require Import Prelude Bytes Constants Crypto Keccak Encoding.

(** ** Data *)

(* src: transaction.rs:25-33 WitnessInputRef *)
Record WitnessInputRef := {
  input_index : Z;
  sig_ref_short : bytes;
  witness_commit_ref : bytes;
}.

(* src: transaction.rs:35-41 WitnessSignerGroup *)
Record WitnessSignerGroup := {
  g_signature : bytes;
  g_pubkey : bytes;
  g_input_refs : list WitnessInputRef;
}.

(* src: transaction.rs:43-54 TxWitness *)
Record TxWitness := {
  w_signature : bytes;
  w_pubkey : bytes;
  w_input_refs : list WitnessInputRef;
  additional_signers : list WitnessSignerGroup;
}.

(* src: transaction.rs:370-377 TxInput *)
Record TxInput := {
  previous_txid : bytes;
  output_index : Z;
  unlocking_script : bytes;
}.

(* src: transaction.rs:379-384 TxOutput *)
Record TxOutput := {
  value_atoms : Z;
  locking_script : bytes;
}.

(* src: transaction.rs:386-399 Transaction *)
Record Transaction := {
  version : Z;
  inputs : list TxInput;
  outputs : list TxOutput;
  lock_time : Z;
  witness : bytes;
  tx_pow_nonce : Z;
  tx_pow_bits : Z;
}.

#[global] Instance WitnessInputRef_eq_dec : EqDecision WitnessInputRef.
Proof. solve_decision. Defined.
#[global] Instance WitnessSignerGroup_eq_dec : EqDecision WitnessSignerGroup.
Proof. solve_decision. Defined.
#[global] Instance TxWitness_eq_dec : EqDecision TxWitness.
Proof. solve_decision. Defined.
#[global] Instance TxInput_eq_dec : EqDecision TxInput.
Proof. solve_decision. Defined.
#[global] Instance TxOutput_eq_dec : EqDecision TxOutput.
Proof. solve_decision. Defined.
#[global] Instance Transaction_eq_dec : EqDecision Transaction.
Proof. solve_decision. Defined.

(* src: transaction.rs:19-19 WITNESS_INPUT_REF_BYTES *)
Definition WITNESS_INPUT_REF_BYTES : Z := 4 + 2 + 16.
(* src: transaction.rs:20-20 MIN_TRANSACTION_INPUT_BYTES *)
Definition MIN_TRANSACTION_INPUT_BYTES : Z := 48 + 4 + 4.
(* src: transaction.rs:21-21 MIN_TRANSACTION_OUTPUT_BYTES *)
Definition MIN_TRANSACTION_OUTPUT_BYTES : Z := 8 + 4.
(* src: transaction.rs:22-23 MIN_ADDITIONAL_SIGNER_BYTES *)
Definition MIN_ADDITIONAL_SIGNER_BYTES : Z :=
  4 + FALCON_512_SIGNATURE_BYTES + 4 + FALCON_512_PUBLIC_KEY_BYTES + 4.

(** A streaming [Digest]: the message absorbed so far. *)
Definition hasher : Type := bytes.
Definition hasher_new : hasher := [].
Definition update (h : hasher) (chunk : bytes) : hasher := h ++ chunk.

(** [(v.len() as u32).to_le_bytes()]: the cast keeps the low 32 bits. *)
Definition len_u32 {A} (l : list A) : bytes := le_u32 (zlen l).

(** ** Witness *)

Module TxWitness.

(* src: transaction.rs:105-111 TxWitness::is_empty *)
Definition is_empty (w : TxWitness) : bool :=
  bool_decide (w_signature w = []) && bool_decide (w_pubkey w = [])
  && bool_decide (w_input_refs w = []) && bool_decide (additional_signers w = []).

(* src: transaction.rs:113-119 TxWitness::signer_group_count *)
Definition signer_group_count (w : TxWitness) : Z :=
  if is_empty w then 0 else 1 + zlen (additional_signers w).

(* src: transaction.rs:121-128 TxWitness::total_input_refs *)
Definition total_input_refs (w : TxWitness) : Z :=
  zlen (w_input_refs w) + zsum ((fun g => zlen (g_input_refs g)) <$> additional_signers w).

(** The primary fields as a group. *)
Definition primary (w : TxWitness) : WitnessSignerGroup :=
  {| g_signature := w_signature w; g_pubkey := w_pubkey w; g_input_refs := w_input_refs w |}.

(** [for_each_signer_group] visits these groups in this order. *)
(* src: transaction.rs:130-140 TxWitness::for_each_signer_group *)
Definition signer_groups (w : TxWitness) : list WitnessSignerGroup :=
  if is_empty w then [] else primary w :: additional_signers w.

(* src: transaction.rs:142-154 TxWitness::for_each_input_ref_mut *)
Definition for_each_input_ref_mut (visitor : WitnessInputRef -> WitnessInputRef) (w : TxWitness) :
    TxWitness :=
  {| w_signature := w_signature w;
     w_pubkey := w_pubkey w;
     w_input_refs := visitor <$> w_input_refs w;
     additional_signers :=
       (fun g => {| g_signature := g_signature g; g_pubkey := g_pubkey g;
                    g_input_refs := visitor <$> g_input_refs g |}) <$> additional_signers w |}.

(** One input reference, with and without its block-specific commitment. *)
Definition ref_bytes (r : WitnessInputRef) : bytes :=
  le_u32 (input_index r) ++ sig_ref_short r ++ witness_commit_ref r.
Definition ref_commitment_bytes (r : WitnessInputRef) : bytes :=
  le_u32 (input_index r) ++ sig_ref_short r.

(** A signer group behind fixed-width length prefixes. *)
Definition group_bytes (ref : WitnessInputRef -> bytes) (g : WitnessSignerGroup) : bytes :=
  len_u32 (g_signature g) ++ g_signature g ++ len_u32 (g_pubkey g) ++ g_pubkey g
  ++ len_u32 (g_input_refs g) ++ mjoin (ref <$> g_input_refs g).

(* src: transaction.rs:57-79 TxWitness::write_commitment_bytes *)
Definition write_commitment_bytes (w : TxWitness) (out : bytes) : bytes :=
  out ++ group_bytes ref_commitment_bytes (primary w)
  ++ len_u32 (additional_signers w)
  ++ mjoin (group_bytes ref_commitment_bytes <$> additional_signers w).

(* src: transaction.rs:234-239 TxWitness::commitment_bytes *)
Definition commitment_bytes (w : TxWitness) : bytes := write_commitment_bytes w [].

(** The loop body of the two hashing loops over input references. *)
Definition update_ref (h : hasher) (r : WitnessInputRef) : hasher :=
  let h := update h (le_u32 (input_index r)) in
  update h (sig_ref_short r).

Definition update_group (h : hasher) (g : WitnessSignerGroup) : hasher :=
  let h := update h (len_u32 (g_signature g)) in
  let h := update h (g_signature g) in
  let h := update h (len_u32 (g_pubkey g)) in
  let h := update h (g_pubkey g) in
  let h := update h (len_u32 (g_input_refs g)) in
  fold_left update_ref (g_input_refs g) h.

(* src: transaction.rs:81-103 TxWitness::update_commitment_hasher *)
Definition update_commitment_hasher (w : TxWitness) (h : hasher) : hasher :=
  let h := update_group h (primary w) in
  let h := update h (len_u32 (additional_signers w)) in
  fold_left update_group (additional_signers w) h.

(* src: transaction.rs:156-183 TxWitness::canonical_bytes *)
Definition canonical_bytes (w : TxWitness) : bytes :=
  group_bytes ref_bytes (primary w)
  ++ len_u32 (additional_signers w)
  ++ mjoin (group_bytes ref_bytes <$> additional_signers w).

Definition compact_group_bytes (g : WitnessSignerGroup) : bytes :=
  write_compact_size (zlen (g_signature g)) ++ g_signature g
  ++ write_compact_size (zlen (g_pubkey g)) ++ g_pubkey g
  ++ write_compact_size (zlen (g_input_refs g)) ++ mjoin (ref_bytes <$> g_input_refs g).

(* src: transaction.rs:185-232 TxWitness::compact_bytes *)
Definition compact_bytes (w : TxWitness) : bytes :=
  compact_group_bytes (primary w)
  ++ write_compact_size (zlen (additional_signers w))
  ++ mjoin (compact_group_bytes <$> additional_signers w).

Definition compact_group_capacity (g : WitnessSignerGroup) : Z :=
  compact_size_len (zlen (g_signature g)) + zlen (g_signature g)
  + compact_size_len (zlen (g_pubkey g)) + zlen (g_pubkey g)
  + compact_size_len (zlen (g_input_refs g)) + zlen (g_input_refs g) * 22.

(** The capacity [compact_bytes] reserves up front. *)
(* src: transaction.rs:187-207 TxWitness::compact_bytes (capacity) *)
Definition compact_capacity (w : TxWitness) : Z :=
  compact_group_capacity (primary w)
  + compact_size_len (zlen (additional_signers w))
  + zsum (compact_group_capacity <$> additional_signers w).

(** *** The strict decoder *)

(** [read_u32], the length check, then [read_vec]. *)
Definition read_sized (expected : Z) : reader bytes :=
  len ← read_u32;
  _ ← none_if (negb (len =? expected));
  read_vec (Z.to_nat len).

(* src: transaction.rs:280-301 TxWitness::from_bytes (input reference loop) *)
Definition read_input_ref : reader WitnessInputRef :=
  index ← read_u32;
  short ← read_vec 2;
  commit ← read_vec 16;
  mret {| input_index := index; sig_ref_short := short; witness_commit_ref := commit |}.

(** The signer loop; [total] is the running [total_ref_count]. *)
(* src: transaction.rs:311-357 TxWitness::from_bytes (additional signer loop) *)
Fixpoint read_signers (n : nat) (total : Z) : reader (list WitnessSignerGroup) :=
  match n with
  | O => mret []
  | S n =>
      signature ← read_sized FALCON_512_SIGNATURE_BYTES;
      pubkey ← read_sized FALCON_512_PUBLIC_KEY_BYTES;
      count ← read_u32;
      let total := total + count in
      _ ← none_if (MAX_WITNESS_INPUT_REFS <? total);
      left ← remaining;
      _ ← none_if (left / WITNESS_INPUT_REF_BYTES <? count);
      refs ← read_many (Z.to_nat count) read_input_ref;
      rest ← read_signers n total;
      mret ({| g_signature := signature; g_pubkey := pubkey; g_input_refs := refs |} :: rest)
  end.

Definition read_witness : reader TxWitness :=
  signature ← read_sized FALCON_512_SIGNATURE_BYTES;
  pubkey ← read_sized FALCON_512_PUBLIC_KEY_BYTES;
  ref_count ← read_u32;
  _ ← none_if (MAX_WITNESS_INPUT_REFS <? ref_count);
  left ← remaining;
  _ ← none_if (left / WITNESS_INPUT_REF_BYTES <? ref_count);
  refs ← read_many (Z.to_nat ref_count) read_input_ref;
  groups ← read_u32;
  left ← remaining;
  _ ← none_if (left / Z.max MIN_ADDITIONAL_SIGNER_BYTES 1 <? groups);
  signers ← read_signers (Z.to_nat groups) ref_count;
  mret {| w_signature := signature; w_pubkey := pubkey; w_input_refs := refs;
          additional_signers := signers |}.

(* src: transaction.rs:241-367 TxWitness::from_bytes *)
Definition from_bytes (bs : bytes) : option TxWitness := parse_all read_witness bs.

(** The witnesses [from_bytes] accepts: Falcon-512 sizes everywhere and a
    bounded number of references. *)
Definition wf_ref (r : WitnessInputRef) : Prop :=
  is_u32 (input_index r) /\ length (sig_ref_short r) = 2%nat /\ length (witness_commit_ref r) = 16%nat.
Definition wf_group (g : WitnessSignerGroup) : Prop :=
  zlen (g_signature g) = FALCON_512_SIGNATURE_BYTES /\
  zlen (g_pubkey g) = FALCON_512_PUBLIC_KEY_BYTES /\
  Forall wf_ref (g_input_refs g).
Definition wf (w : TxWitness) : Prop :=
  wf_group (primary w) /\
  is_u32 (zlen (additional_signers w)) /\
  Forall wf_group (additional_signers w) /\
  total_input_refs w <= MAX_WITNESS_INPUT_REFS.

End TxWitness.

(** ** Transaction *)

Module Transaction.

(* src: transaction.rs:402-405 Transaction::is_coinbase *)
Definition is_coinbase (tx : Transaction) : bool := bool_decide (inputs tx = []).

(* src: transaction.rs:407-412 Transaction::checked_output_value_atoms *)
Definition checked_output_value_atoms (tx : Transaction) : option Z :=
  foldl (fun total output => total ← total; checked_add U64_MAX total (value_atoms output))
    (Some 0) (outputs tx).

Definition input_bytes (i : TxInput) : bytes :=
  previous_txid i ++ le_u32 (output_index i) ++ len_u32 (unlocking_script i) ++ unlocking_script i.
Definition output_bytes (o : TxOutput) : bytes :=
  le_u64 (value_atoms o) ++ len_u32 (locking_script o) ++ locking_script o.

(* src: transaction.rs:419-435 Transaction::write_base_bytes *)
Definition write_base_bytes (tx : Transaction) (out : bytes) : bytes :=
  out ++ le_u16 (version tx)
  ++ len_u32 (inputs tx) ++ mjoin (input_bytes <$> inputs tx)
  ++ len_u32 (outputs tx) ++ mjoin (output_bytes <$> outputs tx)
  ++ le_u32 (lock_time tx).

(* src: transaction.rs:609-614 Transaction::base_bytes *)
Definition base_bytes (tx : Transaction) : bytes := write_base_bytes tx [].

(* src: transaction.rs:414-417 Transaction::canonical_bytes *)
Definition canonical_bytes (tx : Transaction) : bytes := base_bytes tx.

Definition update_input (h : hasher) (i : TxInput) : hasher :=
  let h := update h (previous_txid i) in
  let h := update h (le_u32 (output_index i)) in
  let h := update h (len_u32 (unlocking_script i)) in
  update h (unlocking_script i).
Definition update_output (h : hasher) (o : TxOutput) : hasher :=
  let h := update h (le_u64 (value_atoms o)) in
  let h := update h (len_u32 (locking_script o)) in
  update h (locking_script o).

(* src: transaction.rs:437-453 Transaction::update_base_hasher *)
Definition update_base_hasher (tx : Transaction) (h : hasher) : hasher :=
  let h := update h (le_u16 (version tx)) in
  let h := update h (len_u32 (inputs tx)) in
  let h := fold_left update_input (inputs tx) h in
  let h := update h (len_u32 (outputs tx)) in
  let h := fold_left update_output (outputs tx) h in
  update h (le_u32 (lock_time tx)).

(* src: transaction.rs:455-469 Transaction::base_size_bytes *)
Definition base_size_bytes (tx : Transaction) : Z :=
  2 + 4 + zsum ((fun i => 48 + 4 + 4 + zlen (unlocking_script i)) <$> inputs tx)
  + 4 + zsum ((fun o => 8 + 4 + zlen (locking_script o)) <$> outputs tx)
  + 4.

(* src: transaction.rs:471-490 Transaction::full_size_bytes *)
Definition full_size_bytes (tx : Transaction) : Z :=
  2 + 2 + 4 + zsum ((fun i => 48 + 4 + 4 + zlen (unlocking_script i)) <$> inputs tx)
  + 4 + zsum ((fun o => 8 + 4 + zlen (locking_script o)) <$> outputs tx)
  + 4 + zlen (witness tx) + 4 + TX_POW_NONCE_BYTES + TX_POW_BITS_BYTES.

(* src: transaction.rs:492-512 Transaction::write_full_bytes_without_pow_fields *)
Definition write_full_bytes_without_pow_fields (tx : Transaction) (out : bytes) : bytes :=
  out ++ le_u16 (version tx) ++ [x00] ++ [x01]
  ++ len_u32 (inputs tx) ++ mjoin (input_bytes <$> inputs tx)
  ++ len_u32 (outputs tx) ++ mjoin (output_bytes <$> outputs tx)
  ++ len_u32 (witness tx) ++ witness tx
  ++ le_u32 (lock_time tx).

(* src: transaction.rs:514-535 Transaction::update_full_hasher *)
Definition update_full_hasher (tx : Transaction) (h : hasher) : hasher :=
  let h := update h (le_u16 (version tx)) in
  let h := update h [x00; x01] in
  let h := update h (len_u32 (inputs tx)) in
  let h := fold_left update_input (inputs tx) h in
  let h := update h (len_u32 (outputs tx)) in
  let h := fold_left update_output (outputs tx) h in
  let h := update h (len_u32 (witness tx)) in
  let h := update h (witness tx) in
  let h := update h (le_u32 (lock_time tx)) in
  let h := update h (le_u64 (tx_pow_nonce tx)) in
  update h [byte_of_Z (tx_pow_bits tx)].

(* src: transaction.rs:537-561 Transaction::compact_size_bytes *)
Definition compact_size_bytes (tx : Transaction) : Z :=
  2 + compact_size_len (zlen (inputs tx))
  + zsum ((fun i => 48 + 4 + compact_size_len (zlen (unlocking_script i))
                    + zlen (unlocking_script i)) <$> inputs tx)
  + compact_size_len (zlen (outputs tx))
  + zsum ((fun o => 8 + compact_size_len (zlen (locking_script o))
                    + zlen (locking_script o)) <$> outputs tx)
  + 4 + compact_size_len (zlen (witness tx)) + zlen (witness tx)
  + TX_POW_NONCE_BYTES + TX_POW_BITS_BYTES.

(* src: transaction.rs:572-582 Transaction::full_bytes_without_pow_fields *)
Definition full_bytes_without_pow_fields (tx : Transaction) : bytes :=
  write_full_bytes_without_pow_fields tx [].

(* src: transaction.rs:563-570 Transaction::full_bytes *)
Definition full_bytes (tx : Transaction) : bytes :=
  full_bytes_without_pow_fields tx ++ le_u64 (tx_pow_nonce tx) ++ [byte_of_Z (tx_pow_bits tx)].

(* src: transaction.rs:584-607 Transaction::compact_bytes *)
Definition compact_bytes (tx : Transaction) : bytes :=
  le_u16 (version tx)
  ++ write_compact_size (zlen (inputs tx))
  ++ mjoin ((fun i => previous_txid i ++ le_u32 (output_index i)
                      ++ write_compact_size (zlen (unlocking_script i)) ++ unlocking_script i)
            <$> inputs tx)
  ++ write_compact_size (zlen (outputs tx))
  ++ mjoin ((fun o => le_u64 (value_atoms o)
                      ++ write_compact_size (zlen (locking_script o)) ++ locking_script o)
            <$> outputs tx)
  ++ le_u32 (lock_time tx)
  ++ write_compact_size (zlen (witness tx)) ++ witness tx
  ++ le_u64 (tx_pow_nonce tx) ++ [byte_of_Z (tx_pow_bits tx)].

(* src: transaction.rs:616-619 Transaction::witness_bytes *)
Definition witness_bytes (tx : Transaction) : Z := zlen (witness tx).

(* src: transaction.rs:621-625 Transaction::weight_bytes *)
Definition weight_bytes (tx : Transaction) : Z :=
  let base := base_size_bytes tx in
  let total := full_size_bytes tx in
  saturating_add USIZE_MAX (saturating_mul USIZE_MAX base 3) total.

(* src: transaction.rs:627-629 Transaction::vsize_bytes *)
Definition vsize_bytes (tx : Transaction) : Z :=
  saturating_add USIZE_MAX (weight_bytes tx) 3 / 4.

(* src: transaction.rs:631-635 Transaction::feerate_atoms_per_vbyte *)
Definition feerate_atoms_per_vbyte (tx : Transaction) (fee_atoms : Z) : Z * Z :=
  let vsize := Z.max (vsize_bytes tx) 1 in
  (fee_atoms / vsize, vsize).

(* src: transaction.rs:707-712 Transaction::witness_payload *)
Definition witness_payload (tx : Transaction) : option TxWitness :=
  if bool_decide (witness tx = []) then None else TxWitness.from_bytes (witness tx).

Section hashes.
Context `{Sha3}.

(* src: transaction.rs:637-645 Transaction::txid *)
Definition txid (tx : Transaction) : bytes := sha3_384 (update_base_hasher tx hasher_new).

(* src: transaction.rs:647-651 Transaction::wtxid *)
Definition wtxid (tx : Transaction) : bytes := sha3_384 (update_full_hasher tx hasher_new).

(** The message of the witness commitment. *)
Definition witness_commitment_message (tx : Transaction) : bytes :=
  let bare := bool_decide (witness tx = []) && (tx_pow_nonce tx =? 0) && (tx_pow_bits tx =? 0) in
  let h := update_base_hasher tx hasher_new in
  let h :=
    if bare then h
    else if bool_decide (witness tx = []) then update h [x00]
    else match witness_payload tx with
         | Some w => TxWitness.update_commitment_hasher w (update h [x01])
         | None => update (update (update h [x02]) (len_u32 (witness tx))) (witness tx)
         end in
  if negb bare then update (update h (le_u64 (tx_pow_nonce tx))) [byte_of_Z (tx_pow_bits tx)] else h.

(* src: transaction.rs:653-675 Transaction::witness_commitment_hash *)
Definition witness_commitment_hash (tx : Transaction) : bytes :=
  sha3_384 (witness_commitment_message tx).

(* src: transaction.rs:677-687 Transaction::update_signing_hasher_for_input_indexes *)
Definition update_signing_hasher_for_input_indexes (tx : Transaction) (indexes : list Z) (h : hasher) :
    hasher :=
  let h := update_base_hasher tx h in
  let h := update h (len_u32 indexes) in
  fold_left (fun h i => update h (le_u32 i)) indexes h.

(* src: transaction.rs:689-698 Transaction::signing_digest *)
Definition signing_digest (tx : Transaction) : bytes :=
  let h := update_base_hasher tx hasher_new in
  let h := update h (len_u32 (inputs tx)) in
  sha3_384 (fold_left (fun h i => update h (le_u32 i)) (seqZ 0 (zlen (inputs tx))) h).

(* src: transaction.rs:700-705 Transaction::signing_digest_for_input_indexes *)
Definition signing_digest_for_input_indexes (tx : Transaction) (indexes : list Z) : bytes :=
  sha3_384 (update_signing_hasher_for_input_indexes tx indexes hasher_new).

End hashes.

(** *** The strict decoder *)

Definition read_script : reader bytes :=
  len ← read_u32;
  read_vec (Z.to_nat len).

(* src: transaction.rs:775-786 Transaction::from_full_bytes (input loop) *)
Definition read_input : reader TxInput :=
  txid ← read_vec 48;
  index ← read_u32;
  script ← read_script;
  mret {| previous_txid := txid; output_index := index; unlocking_script := script |}.

(* src: transaction.rs:792-801 Transaction::from_full_bytes (output loop) *)
Definition read_output : reader TxOutput :=
  value ← read_u64;
  script ← read_script;
  mret {| value_atoms := value; locking_script := script |}.

(** A counted list whose count is first checked against the bytes left. *)
Definition read_counted {A} (min_bytes : Z) (r : reader A) : reader (list A) :=
  count ← read_u32;
  left ← remaining;
  _ ← none_if (left / min_bytes <? count);
  read_many (Z.to_nat count) r.

Definition witness_acceptable (w : bytes) : bool :=
  bool_decide (w = []) || bool_decide (is_Some (TxWitness.from_bytes w)).

Definition read_transaction : reader Transaction :=
  version ← read_u16;
  marker ← read_vec 2;
  _ ← none_if (negb (bool_decide (marker = [x00; x01])));
  inputs ← read_counted MIN_TRANSACTION_INPUT_BYTES read_input;
  outputs ← read_counted MIN_TRANSACTION_OUTPUT_BYTES read_output;
  witness ← read_script;
  _ ← none_if (negb (witness_acceptable witness));
  lock_time ← read_u32;
  nonce ← read_u64;
  bits ← read_u8;
  mret {| version := version; inputs := inputs; outputs := outputs; lock_time := lock_time;
          witness := witness; tx_pow_nonce := nonce; tx_pow_bits := byte_to_Z bits |}.

(* src: transaction.rs:714-824 Transaction::from_full_bytes *)
Definition from_full_bytes (bs : bytes) : option Transaction := parse_all read_transaction bs.

(** The values Rust's types allow, with vectors short enough for their [u32]
    length prefixes. *)
Definition wf_input (i : TxInput) : Prop :=
  length (previous_txid i) = 48%nat /\ is_u32 (output_index i) /\ is_u32 (zlen (unlocking_script i)).
Definition wf_output (o : TxOutput) : Prop :=
  is_u64 (value_atoms o) /\ is_u32 (zlen (locking_script o)).
Definition wf_base (tx : Transaction) : Prop :=
  is_u16 (version tx) /\ is_u32 (zlen (inputs tx)) /\ Forall wf_input (inputs tx) /\
  is_u32 (zlen (outputs tx)) /\ Forall wf_output (outputs tx) /\ is_u32 (lock_time tx).
Definition wf (tx : Transaction) : Prop :=
  wf_base tx /\ is_u32 (zlen (witness tx)) /\ is_u64 (tx_pow_nonce tx) /\ is_u8 (tx_pow_bits tx).

End Transaction.

(** The input references a list of signer groups carries. *)
Definition refs_of (gs : list WitnessSignerGroup) : Z := zsum ((fun g => zlen (g_input_refs g)) <$> gs).

(** Two transactions that spend and pay the same. *)
Definition same_spend (tx1 tx2 : Transaction) : Prop :=
  version tx1 = version tx2 /\ inputs tx1 = inputs tx2 /\ outputs tx1 = outputs tx2 /\
  lock_time tx1 = lock_time tx2.

(** Two different messages with one digest. *)
Definition sha3_collision `{Sha3} (m1 m2 : bytes) : Prop := m1 <> m2 /\ sha3_384 m1 = sha3_384 m2.

(** A small transaction for the witnesses. *)
Definition sample_tx (w : bytes) (nonce : Z) : Transaction :=
  {| version := 1;
     inputs := [{| previous_txid := replicate 48 x07; output_index := 1; unlocking_script := [] |}];
     outputs := [{| value_atoms := 50; locking_script := [x01; x02] |}];
     lock_time := 9; witness := w; tx_pow_nonce := nonce; tx_pow_bits := 20 |}.

(** ** Length-prefixed codecs *)

Lemma zlen_len_u32 {A} (l : list A) : zlen (len_u32 l) = 4.
Proof. apply zlen_le_bytes. Qed.
#[export] Hint Rewrite @zlen_len_u32 : zlen.

Lemma zlen_join_ge {A} (enc : A -> bytes) (k : Z) l :
  Forall (fun a => k <= zlen (enc a)) l -> k * zlen l <= zlen (mjoin (enc <$> l)).
Proof.
  rewrite zlen_concat_map.
  induction 1 as [|a l Ha Hl IH]; [rewrite zlen_nil; cbn; lia|].
  rewrite zlen_cons. cbn [fmap list_fmap zsum]. cbn [fmap list_fmap] in IH. lia.
Qed.

Lemma to_nat_zlen {A} (l : list A) : Z.to_nat (zlen l) = length l.
Proof. unfold zlen. lia. Qed.
Lemma zlen_length {A} (l : list A) n : length l = Z.to_nat n -> 0 <= n -> zlen l = n.
Proof. unfold zlen. lia. Qed.
Lemma u32_length {A} (l : list A) n : is_u32 n -> length l = Z.to_nat n -> n = zlen l.
Proof. unfold uint, zlen. lia. Qed.

Lemma codec_script :
  codec (fun bs => len_u32 bs ++ bs) Transaction.read_script (fun bs => is_u32 (zlen bs)).
Proof.
  unfold Transaction.read_script, len_u32. split.
  - intros bs rest H. read_forward codec_u32; [|done].
    by rewrite (codec_complete (codec_vec _)) by by rewrite to_nat_zlen.
  - intros bs a rest H. inv_read. apply u32_length in H; [|done]. by subst.
Qed.

Lemma codec_sized n :
  is_u32 n -> codec (fun bs => len_u32 bs ++ bs) (TxWitness.read_sized n) (fun bs => zlen bs = n).
Proof.
  unfold TxWitness.read_sized, len_u32. intros Hn. split.
  - intros bs rest H. read_forward codec_u32; [|by rewrite H].
    rewrite reader_bind_run. unfold none_if. rewrite H, Z.eqb_refl. cbn [negb].
    apply (codec_complete (codec_vec _)). rewrite <- H. by rewrite to_nat_zlen.
  - intros bs a rest H. inv_read. bool_to_prop. subst.
    apply u32_length in H; [|done]. by subst.
Qed.

Lemma read_sized_run n bs rest :
  is_u32 n -> zlen bs = n -> TxWitness.read_sized n (len_u32 bs ++ bs ++ rest) = Some (bs, rest).
Proof. intros. rewrite app_assoc. by apply (codec_complete (codec_sized n ltac:(done))). Qed.
Lemma read_len_run {A} (l : list A) rest :
  is_u32 (zlen l) -> read_u32 (len_u32 l ++ rest) = Some (zlen l, rest).
Proof. apply (codec_complete codec_u32). Qed.

(** A guard [left / k < count] never rejects an honest encoding. *)
Lemma capacity_guard {A} (enc : A -> bytes) (k : Z) l rest :
  0 < k -> Forall (fun a => k <= zlen (enc a)) l ->
  (zlen (mjoin (enc <$> l) ++ rest) / k <? zlen l) = false.
Proof.
  intros Hk Hl. apply Z.ltb_ge, Z.div_le_lower_bound; [done|].
  pose proof (zlen_join_ge enc k l Hl). rewrite zlen_app. pose proof (zlen_nonneg rest). lia.
Qed.

Lemma codec_counted {A} {enc : A -> bytes} {dec : reader A} {wf : A -> Prop} (k : Z) :
  codec enc dec wf -> 0 < k -> (forall a, wf a -> k <= zlen (enc a)) ->
  codec (fun l => len_u32 l ++ mjoin (enc <$> l)) (Transaction.read_counted k dec)
        (fun l => is_u32 (zlen l) /\ Forall wf l).
Proof.
  intros Hc Hk Hmin. unfold Transaction.read_counted, len_u32. split.
  - intros l rest [Hl Hwf]. read_forward codec_u32; [|done].
    rewrite reader_bind_run. cbn [remaining]. rewrite reader_bind_run. unfold none_if.
    rewrite capacity_guard; [|done|by eapply Forall_impl].
    by rewrite (codec_complete (codec_many Hc _)) by by rewrite to_nat_zlen.
  - intros bs l rest H. inv_read.
    apply (codec_sound (codec_many Hc _)) in H as (-> & Hn & Hwf).
    apply u32_length in Hn; [|done]. subst. by rewrite <- app_assoc.
Qed.

(** ** The witness codec *)

Lemma codec_input_ref : codec TxWitness.ref_bytes TxWitness.read_input_ref TxWitness.wf_ref.
Proof.
  unfold TxWitness.ref_bytes, TxWitness.read_input_ref, TxWitness.wf_ref. split.
  - intros [i s c] rest (Hi & Hs & Hcm).
    cbn [input_index sig_ref_short witness_commit_ref] in *.
    read_forward codec_u32; [|done].
    read_forward (codec_vec 2); [|done]. by read_forward (codec_vec 16).
  - intros bs r rest H. inv_read. cbn. by rewrite <- !app_assoc.
Qed.

Lemma zlen_ref_bytes r : TxWitness.wf_ref r -> zlen (TxWitness.ref_bytes r) = 22.
Proof.
  intros (_ & Hs & Hc). unfold TxWitness.ref_bytes, le_u32. autorewrite with zlen.
  unfold zlen. lia.
Qed.

Lemma zlen_group_bytes_ge g :
  TxWitness.wf_group g ->
  MIN_ADDITIONAL_SIGNER_BYTES <= zlen (TxWitness.group_bytes TxWitness.ref_bytes g).
Proof.
  intros (Hs & Hp & _). unfold TxWitness.group_bytes, MIN_ADDITIONAL_SIGNER_BYTES.
  autorewrite with zlen. rewrite Hs, Hp.
  pose proof (zlen_nonneg (mjoin (TxWitness.ref_bytes <$> g_input_refs g))). lia.
Qed.

Lemma refs_capacity rs rest :
  Forall TxWitness.wf_ref rs ->
  (zlen (mjoin (TxWitness.ref_bytes <$> rs) ++ rest) / WITNESS_INPUT_REF_BYTES <? zlen rs) = false.
Proof.
  intros. apply capacity_guard; [done|]. eapply Forall_impl; [done|].
  intros r Hr. by rewrite zlen_ref_bytes.
Qed.

Lemma refs_of_nonneg gs : 0 <= refs_of gs.
Proof. apply zsum_nonneg, Forall_fmap, Forall_forall. intros; cbn. apply zlen_nonneg. Qed.

Lemma is_u32_refs n : 0 <= n <= MAX_WITNESS_INPUT_REFS -> is_u32 n.
Proof. unfold uint. change MAX_WITNESS_INPUT_REFS with 13796. lia. Qed.

Lemma u32_sizes : is_u32 FALCON_512_SIGNATURE_BYTES /\ is_u32 FALCON_512_PUBLIC_KEY_BYTES.
Proof. unfold uint, FALCON_512_SIGNATURE_BYTES, FALCON_512_PUBLIC_KEY_BYTES. lia. Qed.

Lemma codec_signers n total :
  0 <= total ->
  codec (fun gs => mjoin (TxWitness.group_bytes TxWitness.ref_bytes <$> gs))
    (TxWitness.read_signers n total)
    (fun gs => length gs = n /\ Forall TxWitness.wf_group gs /\
               (gs = [] \/ total + refs_of gs <= MAX_WITNESS_INPUT_REFS)).
Proof.
  revert total. induction n as [|n IH]; intros total Ht.
  { split; [by intros [] rest (? & ?)|]. intros bs gs rest H. cbn in H. inv_read.
    split; [done|]. split; [done|]. split; [done|by left]. }
  destruct u32_sizes as [Hsig Hpk]. split.
  - intros [|g gs] rest (Hlen & Hwf & Hmax); [done|]. injection Hlen as Hlen.
    apply Forall_cons in Hwf as [(Hs & Hp & Hr) Hwf]. destruct Hmax as [|Hmax]; [done|].
    unfold refs_of in Hmax. cbn [fmap list_fmap zsum] in Hmax. fold (refs_of gs) in Hmax.
    pose proof (refs_of_nonneg gs). pose proof (zlen_nonneg (g_input_refs g)).
    rewrite fmap_cons. change (mjoin (?x :: ?l)) with (x ++ mjoin l).
    cbn [TxWitness.read_signers]. unfold TxWitness.group_bytes at 1. rewrite <- !app_assoc.
    rewrite reader_bind_run, read_sized_run by done.
    rewrite reader_bind_run, read_sized_run by done.
    rewrite reader_bind_run, read_len_run by (apply is_u32_refs; lia).
    rewrite reader_bind_run. unfold none_if at 1.
    destruct (Z.ltb_spec MAX_WITNESS_INPUT_REFS (total + zlen (g_input_refs g))); [lia|].
    rewrite reader_bind_run. cbn [remaining]. rewrite reader_bind_run. unfold none_if.
    rewrite refs_capacity by done.
    rewrite reader_bind_run, (codec_complete (codec_many codec_input_ref _))
      by by rewrite to_nat_zlen.
    rewrite reader_bind_run, (codec_complete (IH (total + zlen (g_input_refs g)) ltac:(lia))); [by destruct g|].
    split; [done|]. split; [done|]. right. lia.
  - intros bs gs rest H. cbn [TxWitness.read_signers] in H.
    apply reader_bind_Some in H as (sg & b1 & [-> Hs]%(codec_sound (codec_sized _ Hsig)) & H).
    apply reader_bind_Some in H as (pk & b2 & [-> Hp]%(codec_sound (codec_sized _ Hpk)) & H).
    inv_read. bool_to_prop.
    rename a3 into rs, a4 into gs.
    match goal with H : read_many _ _ _ = _ |- _ =>
      apply (codec_sound (codec_many codec_input_ref _)) in H as (-> & Hn & Hr) end.
    assert (0 <= total + a) as Ht' by (unfold uint in *; lia).
    match goal with H : TxWitness.read_signers _ _ _ = _ |- _ =>
      apply (codec_sound (IH _ Ht')) in H as (-> & Hlen & Hwf & Hmax) end.
    apply u32_length in Hn as ->; [|done]. split.
    { rewrite fmap_cons. change (mjoin (?x :: ?l)) with (x ++ mjoin l).
      unfold TxWitness.group_bytes at 2. cbn [g_signature g_pubkey g_input_refs].
      by rewrite <- !app_assoc. }
    split; [cbn; by rewrite Hlen|]. split; [by constructor|]. right.
    unfold refs_of. cbn [fmap list_fmap zsum g_input_refs]. fold (refs_of gs).
    destruct Hmax as [->|]; [unfold refs_of; cbn|]; lia.
Qed.

Lemma codec_witness :
  codec TxWitness.canonical_bytes TxWitness.read_witness TxWitness.wf.
Proof.
  destruct u32_sizes as [Hsig Hpk]. split.
  - intros w rest ((Hs & Hp & Hr) & Hn & Hg & Hmax).
    cbn [TxWitness.primary g_signature g_pubkey g_input_refs] in *.
    unfold TxWitness.total_input_refs in Hmax. fold (refs_of (additional_signers w)) in Hmax.
    pose proof (refs_of_nonneg (additional_signers w)). pose proof (zlen_nonneg (w_input_refs w)).
    unfold TxWitness.read_witness, TxWitness.canonical_bytes, TxWitness.group_bytes at 1.
    cbn [TxWitness.primary g_signature g_pubkey g_input_refs]. rewrite <- !app_assoc.
    rewrite reader_bind_run, read_sized_run by done.
    rewrite reader_bind_run, read_sized_run by done.
    rewrite reader_bind_run, read_len_run by (apply is_u32_refs; lia).
    rewrite reader_bind_run. unfold none_if at 1.
    destruct (Z.ltb_spec MAX_WITNESS_INPUT_REFS (zlen (w_input_refs w))); [lia|].
    rewrite reader_bind_run. cbn [remaining]. rewrite reader_bind_run. unfold none_if at 1.
    rewrite refs_capacity by done.
    rewrite reader_bind_run, (codec_complete (codec_many codec_input_ref _))
      by by rewrite to_nat_zlen.
    rewrite reader_bind_run, read_len_run by done.
    rewrite reader_bind_run. cbn [remaining]. rewrite reader_bind_run. unfold none_if.
    rewrite capacity_guard; [|done|]; last first.
    { eapply Forall_impl; [done|]. intros g Hw. rewrite Z.max_l by done.
      by apply zlen_group_bytes_ge. }
    rewrite reader_bind_run, (codec_complete (codec_signers _ _ (zlen_nonneg _))); [by destruct w|].
    rewrite to_nat_zlen. split; [done|]. split; [done|]. right. lia.
  - intros bs w rest H. unfold TxWitness.read_witness in H.
    apply reader_bind_Some in H as (sg & b1 & [-> Hs]%(codec_sound (codec_sized _ Hsig)) & H).
    apply reader_bind_Some in H as (pk & b2 & [-> Hp]%(codec_sound (codec_sized _ Hpk)) & H).
    inv_read. bool_to_prop.
    match goal with H : read_many _ _ _ = _ |- _ =>
      apply (codec_sound (codec_many codec_input_ref _)) in H as (-> & Hn & Hr) end.
    assert (0 <= a) as Ht' by (unfold uint in *; lia).
    match goal with H : TxWitness.read_signers _ _ _ = _ |- _ =>
      apply (codec_sound (codec_signers _ _ Ht')) in H as (-> & Hlen & Hwf & Hmax) end.
    apply u32_length in Hn as ->; [|done]. apply u32_length in Hlen as ->; [|done].
    unfold TxWitness.canonical_bytes, TxWitness.group_bytes at 2, TxWitness.wf, TxWitness.wf_group,
      TxWitness.total_input_refs.
    cbn [TxWitness.primary g_signature g_pubkey g_input_refs w_signature w_pubkey w_input_refs
         additional_signers].
    split; [by rewrite <- !app_assoc|]. split; [done|]. split; [done|]. split; [done|].
    match goal with |- context [zsum (_ <$> ?gs)] => fold (refs_of gs) end.
    destruct Hmax as [->|]; [unfold refs_of; cbn|]; lia.
Qed.

(** ** The transaction codec *)

Lemma codec_input : codec Transaction.input_bytes Transaction.read_input Transaction.wf_input.
Proof.
  unfold Transaction.input_bytes, Transaction.read_input, Transaction.wf_input. split.
  - intros [t i s] rest (Ht & Hi & Hs). cbn [previous_txid output_index unlocking_script] in *.
    read_forward (codec_vec 48); [|done]. read_forward codec_u32; [|done].
    rewrite reader_bind_run, app_assoc. by rewrite (codec_complete codec_script).
  - intros bs i rest H. inv_read.
    match goal with H : Transaction.read_script _ = _ |- _ =>
      apply (codec_sound codec_script) in H as [-> ?] end.
    cbn [previous_txid output_index unlocking_script]. by rewrite <- !app_assoc.
Qed.

Lemma codec_output : codec Transaction.output_bytes Transaction.read_output Transaction.wf_output.
Proof.
  unfold Transaction.output_bytes, Transaction.read_output, Transaction.wf_output. split.
  - intros [v s] rest (Hv & Hs). cbn [value_atoms locking_script] in *.
    read_forward codec_u64; [|done].
    rewrite reader_bind_run, app_assoc. by rewrite (codec_complete codec_script).
  - intros bs o rest H. inv_read.
    match goal with H : Transaction.read_script _ = _ |- _ =>
      apply (codec_sound codec_script) in H as [-> ?] end.
    cbn [value_atoms locking_script]. by rewrite <- !app_assoc.
Qed.

Lemma zlen_input_bytes i :
  length (previous_txid i) = 48%nat ->
  zlen (Transaction.input_bytes i) = 48 + 4 + 4 + zlen (unlocking_script i).
Proof.
  intros H. unfold Transaction.input_bytes, le_u32. autorewrite with zlen.
  rewrite (zlen_length _ 48) by done. lia.
Qed.
Lemma zlen_output_bytes o : zlen (Transaction.output_bytes o) = 8 + 4 + zlen (locking_script o).
Proof. unfold Transaction.output_bytes, le_u64. autorewrite with zlen. lia. Qed.

Lemma codec_inputs :
  codec (fun l => len_u32 l ++ mjoin (Transaction.input_bytes <$> l))
    (Transaction.read_counted MIN_TRANSACTION_INPUT_BYTES Transaction.read_input)
    (fun l => is_u32 (zlen l) /\ Forall Transaction.wf_input l).
Proof.
  apply codec_counted; [apply codec_input|done|]. intros i (Hi & _).
  rewrite zlen_input_bytes by done. pose proof (zlen_nonneg (unlocking_script i)).
  unfold MIN_TRANSACTION_INPUT_BYTES. lia.
Qed.
Lemma codec_outputs :
  codec (fun l => len_u32 l ++ mjoin (Transaction.output_bytes <$> l))
    (Transaction.read_counted MIN_TRANSACTION_OUTPUT_BYTES Transaction.read_output)
    (fun l => is_u32 (zlen l) /\ Forall Transaction.wf_output l).
Proof.
  apply codec_counted; [apply codec_output|done|]. intros o _.
  rewrite zlen_output_bytes. pose proof (zlen_nonneg (locking_script o)).
  unfold MIN_TRANSACTION_OUTPUT_BYTES. lia.
Qed.

Lemma codec_transaction :
  codec Transaction.full_bytes Transaction.read_transaction
    (fun tx => Transaction.wf tx /\ Transaction.witness_acceptable (witness tx) = true).
Proof.
  unfold Transaction.full_bytes, Transaction.full_bytes_without_pow_fields,
    Transaction.write_full_bytes_without_pow_fields, Transaction.read_transaction. split.
  - intros tx rest (((Hv & Hni & Hi & Hno & Ho & Hlock) & Hw & Hnonce & Hbits) & Hacc).
    rewrite app_nil_l, <- !app_assoc, reader_bind_run, (codec_complete codec_u16) by done.
    rewrite (app_assoc [x00]), reader_bind_run, (codec_complete (codec_vec 2)) by done.
    rewrite reader_bind_run. unfold none_if at 1. cbn [app]. rewrite bool_decide_true by done.
    cbn [negb]. rewrite reader_bind_run, (app_assoc (len_u32 (inputs tx))), (codec_complete codec_inputs) by done.
    rewrite reader_bind_run, (app_assoc (len_u32 (outputs tx))), (codec_complete codec_outputs)
      by done.
    rewrite reader_bind_run, (app_assoc (len_u32 (witness tx))), (codec_complete codec_script)
      by done.
    rewrite reader_bind_run. unfold none_if at 1. rewrite Hacc. cbn [negb].
    read_forward codec_u32; [|done]. read_forward codec_u64; [|done].
    rewrite reader_bind_run. cbv [read_u8 mret reader_ret].
    rewrite byte_to_of_Z, Z.mod_small by done. by destruct tx.
  - intros bs tx rest H. inv_read. bool_to_prop.
    repeat match goal with
    | H : Transaction.read_script _ = _ |- _ => apply (codec_sound codec_script) in H as [-> ?]
    | H : Transaction.read_counted _ Transaction.read_input _ = _ |- _ =>
        apply (codec_sound codec_inputs) in H as [-> [??]]
    | H : Transaction.read_counted _ Transaction.read_output _ = _ |- _ =>
        apply (codec_sound codec_outputs) in H as [-> [??]]
    end.
    unfold Transaction.wf, Transaction.wf_base.
    cbn [version inputs outputs lock_time witness tx_pow_nonce tx_pow_bits].
    rewrite byte_of_to_Z. split; [|by eauto 10 with atho]. subst. by rewrite <- !app_assoc.
Qed.

(** ** Streaming hashers and size functions *)

(** A loop that feeds a digest one element at a time feeds it the
    concatenation of the elements' encodings. *)
Lemma fold_hasher {A} (step : hasher -> A -> hasher) (enc : A -> bytes) l h :
  (forall h a, step h a = h ++ enc a) -> fold_left step l h = h ++ mjoin (enc <$> l).
Proof.
  intros Hs. revert h. induction l as [|a l IH]; intros h; [by rewrite app_nil_r|].
  cbn [fold_left]. rewrite IH, Hs, fmap_cons. by rewrite <- app_assoc.
Qed.

Lemma update_ref_eq h r : TxWitness.update_ref h r = h ++ TxWitness.ref_commitment_bytes r.
Proof. unfold TxWitness.update_ref, update, TxWitness.ref_commitment_bytes. by rewrite app_assoc. Qed.
Lemma update_group_eq h g :
  TxWitness.update_group h g = h ++ TxWitness.group_bytes TxWitness.ref_commitment_bytes g.
Proof.
  unfold TxWitness.update_group, update, TxWitness.group_bytes.
  rewrite (fold_hasher _ TxWitness.ref_commitment_bytes) by apply update_ref_eq.
  by rewrite <- !app_assoc.
Qed.
Lemma update_commitment_hasher_eq w h :
  TxWitness.update_commitment_hasher w h = TxWitness.write_commitment_bytes w h.
Proof.
  unfold TxWitness.update_commitment_hasher, TxWitness.write_commitment_bytes, update.
  rewrite (fold_hasher _ (TxWitness.group_bytes TxWitness.ref_commitment_bytes))
    by apply update_group_eq.
  by rewrite update_group_eq, <- !app_assoc.
Qed.

Lemma update_inputs_eq l h :
  fold_left Transaction.update_input l h = h ++ mjoin (Transaction.input_bytes <$> l).
Proof.
  apply fold_hasher. intros. unfold Transaction.update_input, update, Transaction.input_bytes.
  by rewrite <- !app_assoc.
Qed.
Lemma update_outputs_eq l h :
  fold_left Transaction.update_output l h = h ++ mjoin (Transaction.output_bytes <$> l).
Proof.
  apply fold_hasher. intros. unfold Transaction.update_output, update, Transaction.output_bytes.
  by rewrite <- !app_assoc.
Qed.

Lemma update_base_hasher_eq tx h :
  Transaction.update_base_hasher tx h = h ++ Transaction.base_bytes tx.
Proof.
  unfold Transaction.update_base_hasher, update, Transaction.base_bytes,
    Transaction.write_base_bytes.
  by rewrite update_outputs_eq, update_inputs_eq, app_nil_l, <- !app_assoc.
Qed.
Lemma update_full_hasher_eq tx h :
  Transaction.update_full_hasher tx h = h ++ Transaction.full_bytes tx.
Proof.
  unfold Transaction.update_full_hasher, update, Transaction.full_bytes,
    Transaction.full_bytes_without_pow_fields, Transaction.write_full_bytes_without_pow_fields.
  rewrite update_outputs_eq, update_inputs_eq, app_nil_l, <- !app_assoc. done.
Qed.

Lemma zsum_ext {A} (f g : A -> Z) l : Forall (fun a => f a = g a) l -> zsum (f <$> l) = zsum (g <$> l).
Proof. induction 1 as [|a l H Hl IH]; [done|]. rewrite !fmap_cons. cbn [zsum]. lia. Qed.

Lemma zlen_inputs_bytes l :
  Forall Transaction.wf_input l ->
  zlen (mjoin (Transaction.input_bytes <$> l))
  = zsum ((fun i => 48 + 4 + 4 + zlen (unlocking_script i)) <$> l).
Proof.
  intros Hl. rewrite zlen_concat_map. apply zsum_ext. eapply Forall_impl; [done|].
  intros i (Hi & _). by apply zlen_input_bytes.
Qed.
Lemma zlen_outputs_bytes l :
  zlen (mjoin (Transaction.output_bytes <$> l))
  = zsum ((fun o => 8 + 4 + zlen (locking_script o)) <$> l).
Proof. rewrite zlen_concat_map. apply zsum_ext, Forall_forall. intros. apply zlen_output_bytes. Qed.

Lemma zlen_base_bytes tx :
  Transaction.wf_base tx -> zlen (Transaction.base_bytes tx) = Transaction.base_size_bytes tx.
Proof.
  intros (_ & _ & Hi & _). unfold Transaction.base_bytes, Transaction.write_base_bytes,
    Transaction.base_size_bytes, le_u16, le_u32.
  autorewrite with zlen. rewrite zlen_inputs_bytes, zlen_outputs_bytes by done. lia.
Qed.
Lemma zlen_full_bytes tx :
  Transaction.wf_base tx -> zlen (Transaction.full_bytes tx) = Transaction.full_size_bytes tx.
Proof.
  intros (_ & _ & Hi & _). unfold Transaction.full_bytes, Transaction.full_bytes_without_pow_fields,
    Transaction.write_full_bytes_without_pow_fields, Transaction.full_size_bytes, le_u16, le_u32,
    le_u64, TX_POW_NONCE_BYTES, TX_POW_BITS_BYTES.
  autorewrite with zlen. rewrite zlen_inputs_bytes, zlen_outputs_bytes by done. lia.
Qed.

(** ** What the identifiers commit to *)

Lemma base_bytes_same_spend tx1 tx2 :
  same_spend tx1 tx2 -> Transaction.base_bytes tx1 = Transaction.base_bytes tx2.
Proof.
  intros (Hv & Hi & Ho & Hl). unfold Transaction.base_bytes, Transaction.write_base_bytes.
  by rewrite Hv, Hi, Ho, Hl.
Qed.

Lemma base_bytes_inj tx1 tx2 r1 r2 :
  Transaction.wf_base tx1 -> Transaction.wf_base tx2 ->
  Transaction.base_bytes tx1 ++ r1 = Transaction.base_bytes tx2 ++ r2 ->
  same_spend tx1 tx2 /\ r1 = r2.
Proof.
  intros (Hv1 & Hni1 & Hi1 & Hno1 & Ho1 & Hl1) (Hv2 & Hni2 & Hi2 & Hno2 & Ho2 & Hl2) H.
  unfold Transaction.base_bytes, Transaction.write_base_bytes in H.
  rewrite !app_nil_l, <- !app_assoc in H.
  apply (codec_prefix_free codec_u16) in H as [Hv H]; [|done..].
  rewrite !(app_assoc (len_u32 (inputs _))) in H.
  apply (codec_prefix_free codec_inputs) in H as [Hi H]; [|done..].
  rewrite !(app_assoc (len_u32 (outputs _))) in H.
  apply (codec_prefix_free codec_outputs) in H as [Ho H]; [|done..].
  apply (codec_prefix_free codec_u32) in H as [Hl H]; [|done..]. done.
Qed.

Lemma txid_base `{Sha3} tx : Transaction.txid tx = sha3_384 (Transaction.base_bytes tx).
Proof. unfold Transaction.txid. by rewrite update_base_hasher_eq. Qed.

(** The strict witness decoder accepts exactly the canonical encodings of
    well-formed witnesses (Falcon-512 lengths everywhere, at most
    [MAX_WITNESS_INPUT_REFS] references, no trailing bytes): every accepted byte
    string has one reading and is the one serialization of it. *)
Theorem witness_decoder_exact bs w :
  TxWitness.from_bytes bs = Some w <-> bs = TxWitness.canonical_bytes w /\ TxWitness.wf w.
Proof.
  split.
  - apply (parse_all_sound codec_witness).
  - intros [-> Hw]. by apply (parse_all_complete codec_witness).
Qed.

(** C40: [Transaction::from_full_bytes] accepts exactly the full serializations of
    transactions whose fields fit their Rust types and whose witness blob is empty
    or itself decodable: full bytes are a non-malleable round trip. *)
Theorem transaction_decoder_exact bs tx :
  Transaction.from_full_bytes bs = Some tx <->
  bs = Transaction.full_bytes tx /\ Transaction.wf tx /\
  (witness tx = [] \/ exists w, witness tx = TxWitness.canonical_bytes w /\ TxWitness.wf w).
Proof.
  assert (Transaction.witness_acceptable (witness tx) = true <->
    (witness tx = [] \/ exists w, witness tx = TxWitness.canonical_bytes w /\ TxWitness.wf w)) as <-.
  { unfold Transaction.witness_acceptable. rewrite orb_true_iff, !bool_decide_eq_true. f_equiv.
    split; intros [w Hw]; exists w.
    - by apply (parse_all_sound codec_witness).
    - destruct Hw as [-> Hw]. by apply (parse_all_complete codec_witness). }
  split.
  - apply (parse_all_sound codec_transaction).
  - intros [-> Hw]. by apply (parse_all_complete codec_transaction).
Qed.

(** The streaming hashers absorb exactly the byte strings the serializers write, so
    the identifiers are digests of the serializations: the txid of the base bytes, the
    wtxid of the full bytes, and the witness commitment of its commitment bytes. *)
Theorem hashers_absorb_serializations `{Sha3} tx w h :
  Transaction.update_base_hasher tx h = Transaction.write_base_bytes tx h /\
  TxWitness.update_commitment_hasher w h = TxWitness.write_commitment_bytes w h /\
  Transaction.txid tx = sha3_384 (Transaction.canonical_bytes tx) /\
  Transaction.wtxid tx = sha3_384 (Transaction.full_bytes tx) /\
  Transaction.signing_digest tx
    = Transaction.signing_digest_for_input_indexes tx (seqZ 0 (zlen (inputs tx))).
Proof.
  split; [|split; [apply update_commitment_hasher_eq|split; [apply txid_base|split]]].
  - rewrite update_base_hasher_eq. unfold Transaction.base_bytes, Transaction.write_base_bytes.
    by rewrite app_nil_l.
  - unfold Transaction.wtxid. by rewrite update_full_hasher_eq.
  - unfold Transaction.signing_digest, Transaction.signing_digest_for_input_indexes,
      Transaction.update_signing_hasher_for_input_indexes.
    do 4 f_equal. unfold len_u32, zlen. rewrite length_seqZ. do 2 f_equal. lia.
Qed.

(** A txid identifies what the transaction spends and pays: equal txids mean equal
    version, inputs, outputs and lock time, or an explicit SHA3-384 collision; and what
    is not part of the spend (witness, proof of work) never changes the txid. *)
Theorem txid_identifies_spend `{Sha3} tx1 tx2 :
  Transaction.wf_base tx1 -> Transaction.wf_base tx2 ->
  (Transaction.txid tx1 = Transaction.txid tx2 <->
   same_spend tx1 tx2 \/
   sha3_collision (Transaction.base_bytes tx1) (Transaction.base_bytes tx2)).
Proof.
  intros H1 H2. rewrite !txid_base. split.
  - intros E. destruct (decide (Transaction.base_bytes tx1 = Transaction.base_bytes tx2)) as [Eb|];
      [left|by right].
    apply (base_bytes_inj _ _ [] []); [done..|]. by rewrite Eb.
  - intros [Hs|[_ E]]; [|done]. by rewrite (base_bytes_same_spend tx1 tx2).
Qed.

(** The size functions used for limits and fees are the lengths of the serializations
    they stand for, base, full and compact. *)
Theorem size_functions_exact tx :
  Transaction.wf_base tx ->
  Transaction.base_size_bytes tx = zlen (Transaction.base_bytes tx) /\
  Transaction.full_size_bytes tx = zlen (Transaction.full_bytes tx) /\
  Transaction.compact_size_bytes tx = zlen (Transaction.compact_bytes tx).
Proof.
  intros Hwf. rewrite zlen_base_bytes, zlen_full_bytes by done. split; [done|split; [done|]].
  destruct Hwf as (_ & _ & Hi & _).
  unfold Transaction.compact_size_bytes, Transaction.compact_bytes, le_u16, le_u32, le_u64,
    TX_POW_NONCE_BYTES, TX_POW_BITS_BYTES.
  autorewrite with zlen. rewrite !zlen_concat_map.
  assert (forall l, Forall Transaction.wf_input l ->
    zsum ((fun i => zlen (previous_txid i ++ le_bytes 4 (output_index i)
             ++ write_compact_size (zlen (unlocking_script i)) ++ unlocking_script i)) <$> l)
    = zsum ((fun i => 48 + 4 + compact_size_len (zlen (unlocking_script i))
                      + zlen (unlocking_script i)) <$> l)) as Hins.
  { intros l Hl. apply zsum_ext. eapply Forall_impl; [done|]. intros i (Hp & _).
    autorewrite with zlen. rewrite (zlen_length _ 48) by done. lia. }
  assert (forall l,
    zsum ((fun o => zlen (le_bytes 8 (value_atoms o)
             ++ write_compact_size (zlen (locking_script o)) ++ locking_script o)) <$> l)
    = zsum ((fun o => 8 + compact_size_len (zlen (locking_script o))
                      + zlen (locking_script o)) <$> l)) as Houts.
  { intros l. apply zsum_ext, Forall_forall. intros o _. autorewrite with zlen. lia. }
  rewrite Hins, Houts by done. lia.
Qed.

(** *** Witnesses *)

Lemma sample_tx_wf w nonce : Transaction.wf_base (sample_tx w nonce).
Proof.
  assert (is_u16 1 /\ is_u32 1 /\ is_u32 9 /\ is_u32 0 /\ is_u32 2 /\ is_u64 50) as (?&?&?&?&?&?)
    by (unfold uint; lia).
  split; [done|]. split; [done|]. split; [by repeat constructor|].
  split; [done|]. split; [by repeat constructor|done].
Qed.

Theorem txid_identifies_spend_witness :
  Transaction.wf_base (sample_tx [] 0) /\ Transaction.wf_base (sample_tx [x01] 7) /\
  Transaction.txid (H:=Keccak.sha3_inst) (sample_tx [] 0)
  = Transaction.txid (H:=Keccak.sha3_inst) (sample_tx [x01] 7).
Proof.
  split; [apply sample_tx_wf|]. split; [apply sample_tx_wf|].
  apply (txid_identifies_spend (H:=Keccak.sha3_inst)); [apply sample_tx_wf..|].
  left. by repeat split.
Defined.

Theorem size_functions_exact_witness :
  Transaction.wf_base (sample_tx [x01; x02; x03] 5) /\
  zlen (Transaction.full_bytes (sample_tx [x01; x02; x03] 5)) = 102.
Proof.
  split; [apply sample_tx_wf|].
  destruct (size_functions_exact (sample_tx [x01; x02; x03] 5)) as (_ & <- & _);
    [apply sample_tx_wf|]. by vm_compute.
Defined.
