(* ===== verification/Block.v ===== *)
(** * Blocks and block headers

    crates/atho-core/src/block.rs: the header layout that is hashed, the block
    container with its derived witness cache, the size metrics, the strict
    decoders and the Merkle commitments. *)
From stdpp Require Import options.
From S2P Require Import Prelude Bytes Constants Crypto Keccak Encoding Network Transaction.

(* src: block.rs:19-19 HEADER_CANONICAL_SIZE_WITHOUT_NONCE *)
Definition HEADER_CANONICAL_SIZE_WITHOUT_NONCE : Z := 2 + 1 + 8 + 48 + 48 + 48 + 48 + 64 + 8 + 48.
(* src: block.rs:20-20 HEADER_CANONICAL_SIZE *)
Definition HEADER_CANONICAL_SIZE : Z := HEADER_CANONICAL_SIZE_WITHOUT_NONCE + 8.

(** Fields that [Transaction] or a function also names carry the prefix [h_]. *)
(* src: block.rs:22-45 BlockHeader *)
Record BlockHeader := {
  h_version : Z;
  network_id : Network;
  height : Z;
  previous_block_hash : bytes;
  h_merkle_root : bytes;
  h_witness_root : bytes;
  founders_hash_sha3_384 : bytes;
  founders_hash_sha3_512 : bytes;
  timestamp : Z;
  difficulty_target_or_bits : bytes;
  nonce : Z;
}.

(* src: block.rs:47-60 Block *)
Record Block := {
  header : BlockHeader;
  transactions : list Transaction;
  witnesses : gmap bytes TxWitness;
  fees_total_atoms : Z;
  fees_miner_atoms : Z;
}.

(* src: block.rs:62-68 BlockSizeMetrics *)
Record BlockSizeMetrics := {
  m_base_size_bytes : Z;
  m_raw_size_bytes : Z;
  m_weight_bytes : Z;
  m_vsize_bytes : Z;
}.

#[global] Instance BlockHeader_eq_dec : EqDecision BlockHeader.
Proof. solve_decision. Defined.
#[global] Instance Block_eq_dec : EqDecision Block.
Proof. solve_decision. Defined.

Module BlockHeader.

(* src: block.rs:95-98 BlockHeader::canonical_size_bytes_without_nonce *)
Definition canonical_size_bytes_without_nonce (_ : BlockHeader) : Z := HEADER_CANONICAL_SIZE_WITHOUT_NONCE.
(* src: block.rs:100-103 BlockHeader::canonical_size_bytes *)
Definition canonical_size_bytes (_ : BlockHeader) : Z := HEADER_CANONICAL_SIZE.
(* src: block.rs:105-107 BlockHeader::consensus_founders_hash_sha3_384 *)
Definition consensus_founders_hash_sha3_384 : bytes := FOUNDERS_HASH_SHA3_384.
(* src: block.rs:109-111 BlockHeader::consensus_founders_hash_sha3_512 *)
Definition consensus_founders_hash_sha3_512 : bytes := FOUNDERS_HASH_SHA3_512.

(* src: block.rs:113-127 BlockHeader::canonical_bytes_without_nonce *)
Definition canonical_bytes_without_nonce (h : BlockHeader) : bytes :=
  le_u16 (h_version h) ++ [Network.consensus_id (network_id h)] ++ le_u64 (height h)
  ++ previous_block_hash h ++ h_merkle_root h ++ h_witness_root h
  ++ founders_hash_sha3_384 h ++ founders_hash_sha3_512 h
  ++ le_u64 (timestamp h) ++ difficulty_target_or_bits h.

(* src: block.rs:129-144 BlockHeader::canonical_bytes *)
Definition canonical_bytes (h : BlockHeader) : bytes :=
  le_u16 (h_version h) ++ [Network.consensus_id (network_id h)] ++ le_u64 (height h)
  ++ previous_block_hash h ++ h_merkle_root h ++ h_witness_root h
  ++ founders_hash_sha3_384 h ++ founders_hash_sha3_512 h
  ++ le_u64 (timestamp h) ++ difficulty_target_or_bits h ++ le_u64 (nonce h).

(** [bytes[offset..offset + chunk.len()].copy_from_slice(chunk)]: the slice
    and the chunk have one length, so the buffer keeps its own. *)
Definition copy_at (buf : bytes) (offset : nat) (chunk : bytes) : bytes :=
  take offset buf ++ chunk ++ drop (offset + length chunk) buf.

(** The fixed buffer [block_hash] fills field by field before hashing. *)
(* src: block.rs:151-174 BlockHeader::block_hash (buffer) *)
Definition hash_buffer (h : BlockHeader) : bytes :=
  let buf := zeros (Z.to_nat HEADER_CANONICAL_SIZE) in
  let offset := 0%nat in
  let buf := copy_at buf offset (le_u16 (h_version h)) in
  let offset := (offset + 2)%nat in
  let buf := copy_at buf offset [Network.consensus_id (network_id h)] in
  let offset := (offset + 1)%nat in
  let buf := copy_at buf offset (le_u64 (height h)) in
  let offset := (offset + 8)%nat in
  let buf := copy_at buf offset (previous_block_hash h) in
  let offset := (offset + 48)%nat in
  let buf := copy_at buf offset (h_merkle_root h) in
  let offset := (offset + 48)%nat in
  let buf := copy_at buf offset (h_witness_root h) in
  let offset := (offset + 48)%nat in
  let buf := copy_at buf offset (founders_hash_sha3_384 h) in
  let offset := (offset + 48)%nat in
  let buf := copy_at buf offset (founders_hash_sha3_512 h) in
  let offset := (offset + 64)%nat in
  let buf := copy_at buf offset (le_u64 (timestamp h)) in
  let offset := (offset + 8)%nat in
  let buf := copy_at buf offset (difficulty_target_or_bits h) in
  let offset := (offset + 48)%nat in
  copy_at buf offset (le_u64 (nonce h)).

(* src: block.rs:146-175 BlockHeader::block_hash *)
Definition block_hash `{Sha3} (h : BlockHeader) : bytes := sha3_384 (hash_buffer h).

Definition read_header : reader BlockHeader :=
  version ← read_u16;
  network ← Network.read_network;
  height ← read_u64;
  prev ← read_vec 48;
  merkle ← read_vec 48;
  wroot ← read_vec 48;
  f384 ← read_vec 48;
  f512 ← read_vec 64;
  time ← read_u64;
  target ← read_vec 48;
  nonce ← read_u64;
  mret {| h_version := version; network_id := network; height := height;
          previous_block_hash := prev; h_merkle_root := merkle; h_witness_root := wroot;
          founders_hash_sha3_384 := f384; founders_hash_sha3_512 := f512; timestamp := time;
          difficulty_target_or_bits := target; nonce := nonce |}.

(* src: block.rs:177-236 BlockHeader::from_canonical_bytes *)
Definition from_canonical_bytes (bs : bytes) : option BlockHeader := parse_all read_header bs.

(** The values of the fields' Rust types. *)
Definition wf (h : BlockHeader) : Prop :=
  is_u16 (h_version h) /\ is_u64 (height h) /\ length (previous_block_hash h) = 48%nat /\
  length (h_merkle_root h) = 48%nat /\ length (h_witness_root h) = 48%nat /\
  length (founders_hash_sha3_384 h) = 48%nat /\ length (founders_hash_sha3_512 h) = 64%nat /\
  is_u64 (timestamp h) /\ length (difficulty_target_or_bits h) = 48%nat /\ is_u64 (nonce h).

End BlockHeader.

(** ** The Merkle commitments *)

Module Merkle.
Section merkle.
Context `{Sha3}.

(** The 96-byte messages hashed for one layer: [layer.chunks(2)], the last
    hash of an odd layer paired with itself. *)
Fixpoint messages (layer : list bytes) : list bytes :=
  match layer with
  | [] => []
  | [a] => [a ++ a]
  | a :: b :: layer => (a ++ b) :: messages layer
  end.

(* src: block.rs:448-455 merkle_root (loop body) *)
Definition next_layer (layer : list bytes) : list bytes := sha3_384 <$> messages layer.

(** [while layer.len() > 1], then [layer[0]]. *)
(* src: block.rs:447-457 merkle_root (loop) *)
Fixpoint loop (fuel : nat) (layer : list bytes) : option bytes :=
  match layer with
  | [] => None
  | [root] => Some root
  | _ => match fuel with O => None | S fuel => loop fuel (next_layer layer) end
  end.

(** Every message hashed while a layer is reduced to its root. *)
Fixpoint tree_messages (fuel : nat) (layer : list bytes) : list bytes :=
  match layer, fuel with
  | _ :: _ :: _, S fuel => messages layer ++ tree_messages fuel (next_layer layer)
  | _, _ => []
  end.

(** One pass per layer; a layer of [n] hashes needs fewer than [n] passes. *)
Definition root (layer : list bytes) : bytes :=
  match layer with [] => zeros 48 | _ => default [] (loop (length layer) layer) end.

End merkle.
End Merkle.

Section hashes.
Context `{Sha3}.

(* src: block.rs:437-458 merkle_root *)
Definition merkle_root (txs : list Transaction) : bytes := Merkle.root (Transaction.txid <$> txs).
(* src: block.rs:460-481 witness_root *)
Definition witness_root (txs : list Transaction) : bytes :=
  Merkle.root (Transaction.witness_commitment_hash <$> txs).
End hashes.

Module Block.

(** [collect] into a [BTreeMap]: a later entry replaces an earlier one. *)
Definition collect {V} (l : list (bytes * V)) : gmap bytes V :=
  foldl (fun m kv => <[kv.1 := kv.2]> m) ∅ l.

(* src: block.rs:240-253 Block::new *)
Definition new `{Sha3} (h : BlockHeader) (txs : list Transaction) : Block :=
  {| header := h;
     transactions := txs;
     witnesses := collect (omap (fun tx => pair (Transaction.txid tx) <$> Transaction.witness_payload tx) txs);
     fees_total_atoms := 0;
     fees_miner_atoms := 0 |}.

(** One transaction behind its [u32] length prefix. *)
Definition prefixed (bs : bytes) : bytes := len_u32 bs ++ bs.

(* src: block.rs:255-266 Block::base_bytes *)
Definition base_bytes (b : Block) : bytes :=
  BlockHeader.canonical_bytes (header b) ++ len_u32 (transactions b)
  ++ mjoin ((fun tx => prefixed (Transaction.base_bytes tx)) <$> transactions b).
(* src: block.rs:268-279 Block::full_bytes *)
Definition full_bytes (b : Block) : bytes :=
  BlockHeader.canonical_bytes (header b) ++ len_u32 (transactions b)
  ++ mjoin ((fun tx => prefixed (Transaction.full_bytes tx)) <$> transactions b).
(* src: block.rs:281-292 Block::compact_bytes *)
Definition compact_bytes (b : Block) : bytes :=
  BlockHeader.canonical_bytes (header b) ++ write_compact_size (zlen (transactions b))
  ++ mjoin ((fun tx => let bs := Transaction.compact_bytes tx in
                       write_compact_size (zlen bs) ++ bs) <$> transactions b).
(* src: block.rs:294-297 Block::canonical_bytes *)
Definition canonical_bytes (b : Block) : bytes := full_bytes b.

(* src: block.rs:299-307 Block::base_size_bytes *)
Definition base_size_bytes (b : Block) : Z :=
  BlockHeader.canonical_size_bytes (header b) + 4
  + zsum ((fun tx => 4 + Transaction.base_size_bytes tx) <$> transactions b).
(* src: block.rs:309-317 Block::full_size_bytes *)
Definition full_size_bytes (b : Block) : Z :=
  BlockHeader.canonical_size_bytes (header b) + 4
  + zsum ((fun tx => 4 + Transaction.full_size_bytes tx) <$> transactions b).

(* src: block.rs:319-337 Block::size_metrics *)
Definition size_metrics (b : Block) : BlockSizeMetrics :=
  let header_and_count := BlockHeader.canonical_size_bytes (header b) + 4 in
  let '(base, raw) :=
    foldl (fun '(base, raw) tx =>
        (saturating_add USIZE_MAX base (4 + Transaction.base_size_bytes tx),
         saturating_add USIZE_MAX raw (4 + Transaction.full_size_bytes tx)))
      (header_and_count, header_and_count) (transactions b) in
  let weight := saturating_add USIZE_MAX (saturating_mul USIZE_MAX base 3) raw in
  {| m_base_size_bytes := base; m_raw_size_bytes := raw; m_weight_bytes := weight;
     m_vsize_bytes := saturating_add USIZE_MAX weight 3 / 4 |}.

(* src: block.rs:339-341 Block::size_bytes *)
Definition size_bytes (b : Block) : Z := full_size_bytes b.
(* src: block.rs:343-349 Block::witness_bytes *)
Definition witness_bytes (b : Block) : Z :=
  map_fold (fun _ w n => n + zlen (TxWitness.canonical_bytes w)) 0 (witnesses b).
(* src: block.rs:361-363 Block::weight_bytes *)
Definition weight_bytes (b : Block) : Z := m_weight_bytes (size_metrics b).
(* src: block.rs:365-367 Block::vsize_bytes *)
Definition vsize_bytes (b : Block) : Z := m_vsize_bytes (size_metrics b).

(* src: block.rs:369-378 Block::compact_size_bytes *)
Definition compact_size_bytes (b : Block) : Z :=
  foldl (fun total tx =>
      let tx_size := Transaction.compact_size_bytes tx in
      saturating_add USIZE_MAX (saturating_add USIZE_MAX total (compact_size_len tx_size)) tx_size)
    (BlockHeader.canonical_size_bytes (header b) + compact_size_len (zlen (transactions b)))
    (transactions b).

(* src: block.rs:351-354 Block::compute_witness_root *)
Definition compute_witness_root `{Sha3} (b : Block) : bytes := witness_root (transactions b).
(* src: block.rs:356-359 Block::compute_witness_commitment *)
Definition compute_witness_commitment `{Sha3} (b : Block) : bytes := compute_witness_root b.
(* src: block.rs:380-383 Block::merkle_root *)
Definition compute_merkle_root `{Sha3} (b : Block) : bytes := merkle_root (transactions b).

(* src: block.rs:424-429 Block::from_canonical_bytes (transaction loop) *)
Definition read_tx : reader Transaction :=
  len ← read_u32;
  tx_bytes ← read_vec (Z.to_nat len);
  read_opt (Transaction.from_full_bytes tx_bytes).

(** The transactions after the header, up to the end of the buffer. *)
Definition read_transactions : reader (list Transaction) :=
  tx_count ← read_u32;
  left ← remaining;
  _ ← none_if (left / 4 <? tx_count);
  read_many (Z.to_nat tx_count) read_tx.

(* src: block.rs:385-434 Block::from_canonical_bytes *)
Definition from_canonical_bytes `{Sha3} (bs : bytes) : option Block :=
  match read_vec (Z.to_nat HEADER_CANONICAL_SIZE) bs with
  | None => None
  | Some (header_bytes, rest) =>
      header ← BlockHeader.from_canonical_bytes header_bytes;
      txs ← parse_all read_transactions rest;
      Some (new header txs)
  end.

(** Blocks whose parts fit their Rust types and length prefixes. *)
Definition wf_tx (tx : Transaction) : Prop :=
  (Transaction.wf tx /\ Transaction.witness_acceptable (witness tx) = true) /\
  is_u32 (zlen (Transaction.full_bytes tx)).
Definition wf (b : Block) : Prop :=
  BlockHeader.wf (header b) /\ is_u32 (zlen (transactions b)) /\ Forall wf_tx (transactions b).

End Block.

(** ** Header codec *)

Lemma codec_header :
  codec BlockHeader.canonical_bytes BlockHeader.read_header BlockHeader.wf.
Proof.
  unfold BlockHeader.canonical_bytes, BlockHeader.read_header, BlockHeader.wf. split.
  - intros h rest (? & ? & ? & ? & ? & ? & ? & ? & ? & ?). rewrite <- !app_assoc.
    rewrite reader_bind_run, (codec_complete codec_u16) by done.
    rewrite reader_bind_run, (codec_complete Network.codec_network) by done.
    rewrite reader_bind_run, (codec_complete codec_u64) by done.
    do 4 (rewrite reader_bind_run, (codec_complete (codec_vec 48)) by done).
    rewrite reader_bind_run, (codec_complete (codec_vec 64)) by done.
    rewrite reader_bind_run, (codec_complete codec_u64) by done.
    rewrite reader_bind_run, (codec_complete (codec_vec 48)) by done.
    rewrite reader_bind_run, (codec_complete codec_u64) by done.
    by destruct h.
  - intros bs h rest H. inv_read.
    match goal with H : Network.read_network _ = _ |- _ =>
      apply (codec_sound Network.codec_network) in H as [-> _] end.
    cbn [h_version network_id height previous_block_hash h_merkle_root h_witness_root
      founders_hash_sha3_384 founders_hash_sha3_512 timestamp difficulty_target_or_bits nonce].
    split; [by rewrite <- !app_assoc|by eauto 12].
Qed.

Lemma header_length h :
  BlockHeader.wf h -> length (BlockHeader.canonical_bytes h) = Z.to_nat HEADER_CANONICAL_SIZE.
Proof.
  intros (_ & _ & H1 & H2 & H3 & H4 & H5 & _ & H6 & _). unfold BlockHeader.canonical_bytes.
  rewrite !length_app, H1, H2, H3, H4, H5, H6. done.
Qed.

Lemma copy_at_spec done rest chunk n :
  n = length done -> (length chunk <= length rest)%nat ->
  BlockHeader.copy_at (done ++ rest) n chunk = (done ++ chunk) ++ drop (length chunk) rest.
Proof.
  intros -> Hl. unfold BlockHeader.copy_at. rewrite take_app_length, <- app_assoc.
  rewrite drop_app_ge by lia. do 3 f_equal. lia.
Qed.

Lemma hash_buffer_canonical h :
  BlockHeader.wf h -> BlockHeader.hash_buffer h = BlockHeader.canonical_bytes h.
Proof.
  intros Hwf. pose proof (header_length h Hwf) as Hlen.
  destruct Hwf as (_ & _ & H1 & H2 & H3 & H4 & H5 & _ & H6 & _).
  unfold BlockHeader.hash_buffer.
  rewrite <- (app_nil_l (zeros _)).
  assert (length (zeros (Z.to_nat HEADER_CANONICAL_SIZE)) = 331%nat) as Hz by done.
  do 11 (rewrite copy_at_spec;
    [|rewrite ?length_app, ?H1, ?H2, ?H3, ?H4, ?H5, ?H6; reflexivity
     |rewrite ?length_drop, ?H1, ?H2, ?H3, ?H4, ?H5, ?H6, ?Hz; cbn; lia]).
  rewrite !drop_drop. rewrite (drop_ge (zeros _)), app_nil_r.
  - unfold BlockHeader.canonical_bytes. by rewrite app_nil_l, <- !app_assoc.
  - rewrite ?H1, ?H2, ?H3, ?H4, ?H5, ?H6, Hz. cbn. lia.
Qed.

(** ** Merkle trees *)

Section merkle_facts.
Context `{Hs : Sha3}.

Lemma messages_length layer :
  length (Merkle.messages layer) = (length layer - length layer / 2)%nat.
Proof.
  induction layer as [| a | a b layer IH] using list_ind2; [done|done|].
  cbn [Merkle.messages length]. rewrite IH.
  replace (S (S (length layer)))%nat with (length layer + 1 * 2)%nat by lia.
  rewrite Nat.div_add by lia. pose proof (Nat.Div0.div_le_upper_bound (length layer) 2 (length layer)).
  lia.
Qed.
Lemma next_layer_length layer :
  length (Merkle.next_layer layer) = (length layer - length layer / 2)%nat.
Proof. unfold Merkle.next_layer. by rewrite length_fmap, messages_length. Qed.

Lemma next_layer_shrinks (layer : list bytes) :
  (2 <= length layer)%nat -> (1 <= length (Merkle.next_layer layer) < length layer)%nat.
Proof.
  intros. rewrite next_layer_length.
  pose proof (Nat.div_le_lower_bound (length layer) 2 1).
  pose proof (Nat.div_lt (length layer) 2). lia.
Qed.

(** The fuel is enough: a non-empty layer always reaches a root. *)
Lemma merkle_loop_total fuel layer :
  layer <> [] -> (length layer <= S fuel)%nat -> exists r, Merkle.loop fuel layer = Some r.
Proof.
  revert layer. induction fuel as [|fuel IH]; intros [|a [|b layer]] Hne Hl; try done; eauto.
  - cbn in Hl. lia.
  - pose proof (next_layer_shrinks (a :: b :: layer)) as Hsh. cbn [length] in *.
    cbn [Merkle.loop]. apply IH; [|lia]. intros E. rewrite E in Hsh. cbn in Hsh. lia.
Qed.
(** More fuel does not change the root. *)
Lemma merkle_loop_mono fuel fuel' layer r :
  Merkle.loop fuel layer = Some r -> (fuel <= fuel')%nat -> Merkle.loop fuel' layer = Some r.
Proof.
  revert fuel' layer. induction fuel as [|fuel IH]; intros fuel' [|a [|b layer]] H Hle;
    try done; destruct fuel'; try done; try lia.
  cbn [Merkle.loop] in *. apply IH; [done|lia].
Qed.
Lemma root_loop fuel layer r :
  Merkle.loop fuel layer = Some r -> (fuel <= length layer)%nat -> Merkle.root layer = r.
Proof.
  intros H Hle. unfold Merkle.root. destruct layer as [|a l] eqn:E; [by destruct fuel|].
  rewrite <- E in *. by rewrite (merkle_loop_mono _ (length layer) _ _ H) by lia.
Qed.
Lemma loop_root layer : layer <> [] -> Merkle.loop (length layer) layer = Some (Merkle.root layer).
Proof.
  intros Hne. destruct (merkle_loop_total (length layer) layer) as [r Hr]; [done|lia|].
  by rewrite Hr, (root_loop _ _ _ Hr).
Qed.

(** The messages of a layer determine it among layers of one length. *)
Lemma messages_inj l1 l2 :
  length l1 = length l2 ->
  Forall (fun h => length h = 48%nat) l1 -> Forall (fun h => length h = 48%nat) l2 ->
  Merkle.messages l1 = Merkle.messages l2 -> l1 = l2.
Proof.
  revert l2. induction l1 as [| a | a b l1 IH] using list_ind2;
    intros [|a' [|b' l2]] Hl H1 H2 H; try done.
  - apply Forall_cons in H1 as [Ha _], H2 as [Ha' _]. injection H as H.
    by apply app_inj_1 in H as [-> _]; [|lia].
  - injection Hl as Hl.
    apply Forall_cons in H1 as [Ha [Hb H1]%Forall_cons], H2 as [Ha' [Hb' H2]%Forall_cons].
    injection H as Hab H. apply app_inj_1 in Hab as [-> ->]; [|lia]. by rewrite (IH l2).
Qed.

(** Equal digests come from equal messages, or two of them collide. *)
Lemma fmap_sha3_inj (m1 m2 : list bytes) :
  sha3_384 <$> m1 = sha3_384 <$> m2 ->
  m1 = m2 \/ exists x y, x ∈ m1 /\ y ∈ m2 /\ sha3_collision x y.
Proof.
  revert m2. induction m1 as [|x m1 IH]; intros [|y m2] H; try done; [by left|].
  rewrite !fmap_cons in H. injection H as Hx H.
  destruct (decide (x = y)) as [->|]; [|right; exists x, y; by split_and!; try left].
  destruct (IH m2 H) as [->|(x' & y' & ? & ? & ?)]; [by left|].
  right. exists x', y'. by split_and!; try (right; done).
Qed.

Lemma merkle_loop_binding `{Laws : !Sha3Laws Hs} fuel l1 l2 r :
  length l1 = length l2 ->
  Forall (fun h => length h = 48%nat) l1 -> Forall (fun h => length h = 48%nat) l2 ->
  Merkle.loop fuel l1 = Some r -> Merkle.loop fuel l2 = Some r ->
  l1 = l2 \/ exists x y, x ∈ Merkle.tree_messages fuel l1 /\ y ∈ Merkle.tree_messages fuel l2 /\
                         sha3_collision x y.
Proof.
  revert l1 l2. induction fuel as [|fuel IH]; intros l1 l2 Hl H1 H2 E1 E2.
  { destruct l1 as [|a [|a' l1]], l2 as [|b [|b' l2]]; try done. left. cbn in *. congruence. }
  destruct l1 as [|a [|a' l1]], l2 as [|b [|b' l2]]; try done.
  { left. cbn in *. congruence. }
  cbn [Merkle.loop] in E1, E2. cbn [Merkle.tree_messages].
  assert (forall l, Forall (fun h => length h = 48%nat) (Merkle.next_layer l)) as Hnext
    by (intros; apply Forall_fmap, Forall_forall; intros; apply sha3_384_length).
  set (l1' := a :: a' :: l1) in *. set (l2' := b :: b' :: l2) in *.
  assert (length (Merkle.next_layer l1') = length (Merkle.next_layer l2')) as Hlen
    by (rewrite (next_layer_length l1'), (next_layer_length l2'), Hl; reflexivity).
  destruct (IH _ _ Hlen (Hnext _) (Hnext _) E1 E2) as [E|(x & y & ? & ? & ?)].
  - apply fmap_sha3_inj in E as [E|(x & y & ? & ? & ?)].
    + left. by apply messages_inj.
    + right. exists x, y. rewrite !elem_of_app. eauto.
  - right. exists x, y. rewrite !elem_of_app. eauto.
Qed.

Lemma messages_odd_duplicate (l : list bytes) x :
  Nat.Odd (length (l ++ [x])) -> Merkle.messages (l ++ [x; x]) = Merkle.messages (l ++ [x]).
Proof.
  induction l as [| a | a b l IH] using list_ind2; intros Hodd.
  - done.
  - exfalso. cbn in Hodd. destruct Hodd as [k Hk]. lia.
  - cbn [app Merkle.messages]. rewrite IH; [done|].
    cbn [app length] in Hodd. destruct Hodd as [k Hk]. exists (k - 1)%nat. lia.
Qed.

Lemma root_layer_ne_nil (l : list bytes) : l <> [] -> exists a t, l = a :: t.
Proof. destruct l; naive_solver. Qed.

Lemma root_step layer :
  (2 <= length layer)%nat -> Merkle.root layer = Merkle.root (Merkle.next_layer layer).
Proof.
  intros Hl. pose proof (next_layer_shrinks layer Hl) as Hsh.
  destruct layer as [|a [|b layer]]; [cbn in Hl; lia..|].
  assert (Merkle.next_layer (a :: b :: layer) <> []) as Hne
    by (intros E; rewrite E in Hsh; cbn in Hsh; lia).
  pose proof (loop_root (a :: b :: layer) ltac:(done)) as H1.
  change (Merkle.loop (S (length layer)) (Merkle.next_layer (a :: b :: layer))
    = Some (Merkle.root (a :: b :: layer))) in H1.
  pose proof (loop_root _ Hne) as H2.
  rewrite (merkle_loop_mono _ (S (length layer)) _ _ H2) in H1 by (cbn [length] in *; lia).
  congruence.
Qed.
End merkle_facts.

Lemma root_binding `{Hs : Sha3, Laws : !Sha3Laws Hs} l1 l2 :
  length l1 = length l2 ->
  Forall (fun h => length h = 48%nat) l1 -> Forall (fun h => length h = 48%nat) l2 ->
  Merkle.root l1 = Merkle.root l2 ->
  l1 = l2 \/ exists x y, x ∈ Merkle.tree_messages (length l1) l1 /\
                         y ∈ Merkle.tree_messages (length l2) l2 /\ sha3_collision x y.
Proof.
  intros Hl H1 H2 E. destruct l1 as [|a l1], l2 as [|b l2]; try done; [by left|].
  rewrite <- Hl. apply (merkle_loop_binding _ _ _ (Merkle.root (a :: l1))); [done..| |].
  - by rewrite loop_root.
  - by rewrite E, Hl, loop_root.
Qed.

Lemma txids_length `{Hs : Sha3, Laws : !Sha3Laws Hs} txs :
  Forall (fun h => length h = 48%nat) (Transaction.txid <$> txs).
Proof. apply Forall_fmap, Forall_forall. intros. apply sha3_384_length. Qed.
Lemma commitments_length `{Hs : Sha3, Laws : !Sha3Laws Hs} txs :
  Forall (fun h => length h = 48%nat) (Transaction.witness_commitment_hash <$> txs).
Proof. apply Forall_fmap, Forall_forall. intros. apply sha3_384_length. Qed.

(** ** Block codec and sizes *)

Lemma codec_tx :
  codec (fun tx => Block.prefixed (Transaction.full_bytes tx)) Block.read_tx Block.wf_tx.
Proof.
  unfold Block.prefixed, Block.read_tx. split.
  - intros tx rest (Hwf & Hlen). rewrite <- app_assoc, reader_bind_run, read_len_run by done.
    rewrite reader_bind_run, (codec_complete (codec_vec _)) by by rewrite to_nat_zlen.
    unfold read_opt, Transaction.from_full_bytes.
    by rewrite (parse_all_complete codec_transaction).
  - intros bs tx rest H. inv_read.
    match goal with H : Transaction.from_full_bytes _ = _ |- _ =>
      apply (parse_all_sound codec_transaction) in H as [-> Hwf] end.
    match goal with H : length _ = Z.to_nat _ |- _ => apply u32_length in H as ->; [|done] end.
    by rewrite <- app_assoc.
Qed.

Lemma codec_transactions :
  codec (fun txs => len_u32 txs ++ mjoin ((fun tx => Block.prefixed (Transaction.full_bytes tx)) <$> txs))
    Block.read_transactions (fun txs => is_u32 (zlen txs) /\ Forall Block.wf_tx txs).
Proof.
  apply (codec_counted 4 codec_tx); [done|]. intros tx _. unfold Block.prefixed.
  autorewrite with zlen. pose proof (zlen_nonneg (Transaction.full_bytes tx)). lia.
Qed.

Lemma size_metrics_loop txs base raw :
  0 <= base -> 0 <= raw ->
  Forall (fun tx => 0 <= Transaction.base_size_bytes tx /\ 0 <= Transaction.full_size_bytes tx) txs ->
  foldl (fun '(base, raw) tx =>
      (saturating_add USIZE_MAX base (4 + Transaction.base_size_bytes tx),
       saturating_add USIZE_MAX raw (4 + Transaction.full_size_bytes tx)))
    (Z.min USIZE_MAX base, Z.min USIZE_MAX raw) txs
  = (Z.min USIZE_MAX (base + zsum ((fun tx => 4 + Transaction.base_size_bytes tx) <$> txs)),
     Z.min USIZE_MAX (raw + zsum ((fun tx => 4 + Transaction.full_size_bytes tx) <$> txs))).
Proof.
  revert base raw. induction txs as [|tx txs IH]; intros base raw Hb Hr H.
  { cbn. by rewrite !Z.add_0_r. }
  apply Forall_cons in H as [[Hx Hy] H]. rewrite !fmap_cons. cbn [foldl zsum].
  unfold saturating_add.
  replace (Z.min USIZE_MAX (Z.min USIZE_MAX base + (4 + Transaction.base_size_bytes tx)))
    with (Z.min USIZE_MAX (base + (4 + Transaction.base_size_bytes tx))) by lia.
  replace (Z.min USIZE_MAX (Z.min USIZE_MAX raw + (4 + Transaction.full_size_bytes tx)))
    with (Z.min USIZE_MAX (raw + (4 + Transaction.full_size_bytes tx))) by lia.
  unfold saturating_add in IH. rewrite IH by (done || lia). do 2 f_equal; lia.
Qed.

Lemma base_size_nonneg tx : 0 <= Transaction.base_size_bytes tx.
Proof.
  unfold Transaction.base_size_bytes.
  enough (0 <= zsum ((fun i => 48 + 4 + 4 + zlen (unlocking_script i)) <$> inputs tx) /\
          0 <= zsum ((fun o => 8 + 4 + zlen (locking_script o)) <$> outputs tx)) by lia.
  split; apply zsum_nonneg, Forall_fmap, Forall_forall; intros x _; cbn.
  - pose proof (zlen_nonneg (unlocking_script x)). lia.
  - pose proof (zlen_nonneg (locking_script x)). lia.
Qed.
Lemma full_size_base tx :
  Transaction.full_size_bytes tx = Transaction.base_size_bytes tx + 2 + 4 + zlen (witness tx) + 9.
Proof.
  unfold Transaction.full_size_bytes, Transaction.base_size_bytes, TX_POW_NONCE_BYTES,
    TX_POW_BITS_BYTES. lia.
Qed.
Lemma sizes_nonneg txs :
  Forall (fun tx => 0 <= Transaction.base_size_bytes tx /\ 0 <= Transaction.full_size_bytes tx) txs.
Proof.
  apply Forall_forall. intros tx _. pose proof (base_size_nonneg tx). rewrite full_size_base.
  pose proof (zlen_nonneg (witness tx)). lia.
Qed.

Lemma size_metrics_eq b :
  Block.base_size_bytes b <= USIZE_MAX -> Block.full_size_bytes b <= USIZE_MAX ->
  m_base_size_bytes (Block.size_metrics b) = Block.base_size_bytes b /\
  m_raw_size_bytes (Block.size_metrics b) = Block.full_size_bytes b.
Proof.
  intros Hb Hr. unfold Block.size_metrics.
  pose proof (size_metrics_loop (transactions b) (HEADER_CANONICAL_SIZE + 4)
    (HEADER_CANONICAL_SIZE + 4) ltac:(done) ltac:(done) (sizes_nonneg _)) as E.
  change (Z.min USIZE_MAX (HEADER_CANONICAL_SIZE + 4)) with (HEADER_CANONICAL_SIZE + 4) in E.
  unfold BlockHeader.canonical_size_bytes. rewrite E. cbn [m_base_size_bytes m_raw_size_bytes].
  unfold Block.base_size_bytes, Block.full_size_bytes, BlockHeader.canonical_size_bytes in *. lia.
Qed.

Lemma zlen_header h : BlockHeader.wf h -> zlen (BlockHeader.canonical_bytes h) = HEADER_CANONICAL_SIZE.
Proof. intros. unfold zlen. rewrite header_length by done. done. Qed.

Lemma size_metrics_weight b :
  m_weight_bytes (Block.size_metrics b)
  = saturating_add USIZE_MAX (saturating_mul USIZE_MAX (m_base_size_bytes (Block.size_metrics b)) 3)
      (m_raw_size_bytes (Block.size_metrics b)) /\
  m_vsize_bytes (Block.size_metrics b)
  = saturating_add USIZE_MAX (saturating_add USIZE_MAX
      (saturating_mul USIZE_MAX (m_base_size_bytes (Block.size_metrics b)) 3)
      (m_raw_size_bytes (Block.size_metrics b))) 3 / 4.
Proof. unfold Block.size_metrics. by destruct (foldl _ _ _). Qed.

(** ** Properties *)

(** [BlockHeader::from_canonical_bytes] accepts exactly the 331-byte canonical
    headers, and [block_hash], which fills a fixed buffer field by field, hashes exactly
    those bytes: headers with one hash are equal, or two explicit byte strings collide. *)
Theorem header_encoding_exact `{Hs : Sha3} :
  (forall bs h, BlockHeader.from_canonical_bytes bs = Some h <->
                bs = BlockHeader.canonical_bytes h /\ BlockHeader.wf h) /\
  (forall h, BlockHeader.wf h ->
     zlen (BlockHeader.canonical_bytes h) = HEADER_CANONICAL_SIZE /\
     BlockHeader.canonical_bytes h = BlockHeader.canonical_bytes_without_nonce h ++ le_u64 (nonce h) /\
     BlockHeader.block_hash h = sha3_384 (BlockHeader.canonical_bytes h)) /\
  (forall h1 h2, BlockHeader.wf h1 -> BlockHeader.wf h2 ->
     BlockHeader.block_hash h1 = BlockHeader.block_hash h2 ->
     h1 = h2 \/ sha3_collision (BlockHeader.canonical_bytes h1) (BlockHeader.canonical_bytes h2)).
Proof.
  split_and!.
  - intros bs h. split; [apply (parse_all_sound codec_header)|].
    intros [-> Hw]. by apply (parse_all_complete codec_header).
  - intros h Hw. split; [by apply zlen_header|]. split.
    + unfold BlockHeader.canonical_bytes, BlockHeader.canonical_bytes_without_nonce.
      by rewrite <- !app_assoc.
    + unfold BlockHeader.block_hash. by rewrite hash_buffer_canonical.
  - intros h1 h2 H1 H2 E. unfold BlockHeader.block_hash in E.
    rewrite !hash_buffer_canonical in E by done.
    destruct (decide (BlockHeader.canonical_bytes h1 = BlockHeader.canonical_bytes h2)) as [Eb|];
      [left|by right].
    rewrite <- (app_nil_r (BlockHeader.canonical_bytes h1)),
      <- (app_nil_r (BlockHeader.canonical_bytes h2)) in Eb.
    by apply (codec_prefix_free codec_header) in Eb as [-> _].
Qed.

Lemma block_decode_sound `{Hs : Sha3} bs b :
  Block.from_canonical_bytes bs = Some b ->
  bs = Block.canonical_bytes b /\ b = Block.new (header b) (transactions b) /\ Block.wf b.
Proof.
  unfold Block.from_canonical_bytes, Block.canonical_bytes, Block.full_bytes, Block.wf.
  destruct (read_vec _ _) as [[hb rest]|] eqn:E; [|done].
  apply (codec_sound (codec_vec _)) in E as [-> Hl].
  intros (h & Hh & (txs & Htxs & [= <-])%bind_Some)%bind_Some.
  apply (parse_all_sound codec_header) in Hh as [-> Hw].
  apply (parse_all_sound codec_transactions) in Htxs as [-> [Hn Ht]]. done.
Qed.
Lemma block_decode_complete `{Hs : Sha3} b :
  b = Block.new (header b) (transactions b) -> Block.wf b -> Block.from_canonical_bytes (Block.canonical_bytes b) = Some b.
Proof.
  unfold Block.from_canonical_bytes, Block.canonical_bytes, Block.full_bytes, Block.wf. intros Hb (Hw & Hn & Ht).
  rewrite (codec_complete (codec_vec _)) by by apply header_length.
  unfold BlockHeader.from_canonical_bytes.
  rewrite (parse_all_complete codec_header) by done.
  cbn [mbind option_bind]. rewrite (parse_all_complete codec_transactions) by done.
  cbn [mbind option_bind]. by rewrite <- Hb.
Qed.

(** [Block::from_canonical_bytes] accepts exactly the full serializations of blocks
    whose header and transactions fit their encodings, rebuilding the witness cache from
    the transactions ([Block::new]): block bytes are a non-malleable round trip. *)
Theorem block_decoder_exact `{Hs : Sha3} bs b :
  Block.from_canonical_bytes bs = Some b <->
  bs = Block.canonical_bytes b /\ b = Block.new (header b) (transactions b) /\ Block.wf b.
Proof. split; [apply block_decode_sound|]. intros (-> & Hb & Hw). by apply block_decode_complete. Qed.

(** C39: the Merkle root of a block body binds its transaction list: bodies of one length
    with one root have the same txids in the same order, or two of the 96-byte messages
    hashed in the two trees collide. The witness root binds the witness commitments the
    same way, and the tree loop always terminates with a root. *)
Theorem merkle_roots_bind `{Hs : Sha3, Laws : !Sha3Laws Hs} txs1 txs2 :
  length txs1 = length txs2 ->
  (forall txs : list Transaction, txs <> [] ->
     Merkle.loop (length txs) (Transaction.txid <$> txs) = Some (merkle_root txs)) /\
  (merkle_root txs1 = merkle_root txs2 ->
     Transaction.txid <$> txs1 = Transaction.txid <$> txs2 \/
     exists x y, x ∈ Merkle.tree_messages (length txs1) (Transaction.txid <$> txs1) /\
                 y ∈ Merkle.tree_messages (length txs2) (Transaction.txid <$> txs2) /\
                 sha3_collision x y) /\
  (witness_root txs1 = witness_root txs2 ->
     Transaction.witness_commitment_hash <$> txs1 = Transaction.witness_commitment_hash <$> txs2 \/
     exists x y, x ∈ Merkle.tree_messages (length txs1) (Transaction.witness_commitment_hash <$> txs1) /\
                 y ∈ Merkle.tree_messages (length txs2) (Transaction.witness_commitment_hash <$> txs2) /\
                 sha3_collision x y).
Proof.
  intros Hl. split_and!.
  - intros txs Hne. unfold merkle_root. rewrite <- (length_fmap Transaction.txid txs).
    apply loop_root. by destruct txs.
  - intros E. rewrite <- (length_fmap Transaction.txid txs1), <- (length_fmap Transaction.txid txs2).
    apply root_binding; [by rewrite !length_fmap|apply txids_length..|done].
  - intros E. rewrite <- (length_fmap Transaction.witness_commitment_hash txs1),
      <- (length_fmap Transaction.witness_commitment_hash txs2).
    apply root_binding; [by rewrite !length_fmap|apply commitments_length..|done].
Qed.

(** Because an odd layer pairs its last hash with itself, repeating the last
    transaction of an odd-length body keeps the Merkle root: the root alone does not
    bind the body's length. *)
Theorem merkle_root_odd_duplication `{Hs : Sha3} txs tx :
  txs <> [] -> Nat.Odd (length (txs ++ [tx])) ->
  merkle_root (txs ++ [tx; tx]) = merkle_root (txs ++ [tx]).
Proof.
  intros Hne Hodd. unfold merkle_root. rewrite !fmap_app. cbn [fmap list_fmap].
  assert (1 <= length txs)%nat by (destruct txs; cbn; [done|lia]).
  rewrite root_step, (root_step (_ ++ [_])) by (rewrite length_app, length_fmap; cbn; lia).
  unfold Merkle.next_layer. rewrite messages_odd_duplicate; [done|].
  rewrite length_app, length_fmap. by rewrite length_app in Hodd.
Qed.

Lemma zlen_mjoin_prefixed (f : Transaction -> bytes) (g : Transaction -> Z) txs :
  Forall (fun tx => zlen (f tx) = g tx) txs ->
  zlen (mjoin ((fun tx => Block.prefixed (f tx)) <$> txs)) = zsum ((fun tx => 4 + g tx) <$> txs).
Proof.
  intros H. rewrite zlen_concat_map. apply zsum_ext. eapply Forall_impl; [done|].
  intros tx Htx. cbv beta. unfold Block.prefixed. autorewrite with zlen. by rewrite Htx.
Qed.

Lemma block_sizes_nonneg b : 0 <= Block.base_size_bytes b <= Block.full_size_bytes b.
Proof.
  unfold Block.base_size_bytes, Block.full_size_bytes, BlockHeader.canonical_size_bytes.
  change HEADER_CANONICAL_SIZE with 331.
  induction (transactions b) as [|tx txs IH]; [cbn; lia|]. rewrite !fmap_cons. cbn [zsum].
  rewrite full_size_base. pose proof (base_size_nonneg tx). pose proof (zlen_nonneg (witness tx)).
  lia.
Qed.

(** The size metrics block limits are checked against are exact: the base and raw
    sizes are the lengths of the two serializations, the weight counts base bytes four
    times and witness-side bytes once, no saturation occurs below 2^61 bytes, and the
    virtual size lies between a quarter of the weight and the raw size. *)
Theorem block_size_metrics_exact b :
  Block.wf b -> Block.full_size_bytes b < 2 ^ 61 ->
  let m := Block.size_metrics b in
  m_base_size_bytes m = zlen (Block.base_bytes b) /\
  m_raw_size_bytes m = zlen (Block.full_bytes b) /\
  m_weight_bytes m = 3 * zlen (Block.base_bytes b) + zlen (Block.full_bytes b) /\
  m_weight_bytes m <= 4 * m_vsize_bytes m < m_weight_bytes m + 4 /\
  m_vsize_bytes m <= m_raw_size_bytes m.
Proof.
  intros (Hh & Hn & Ht) Hmax m.
  pose proof (block_sizes_nonneg b) as Hle.
  destruct (size_metrics_eq b) as [Hb Hr]; [unfold USIZE_MAX; lia..|]. fold m in Hb, Hr.
  assert (zlen (Block.base_bytes b) = Block.base_size_bytes b) as Eb.
  { unfold Block.base_bytes, Block.base_size_bytes. autorewrite with zlen.
    rewrite (zlen_mjoin_prefixed _ Transaction.base_size_bytes), zlen_header by
      (done || (eapply Forall_impl; [done|]; intros tx (((Hw & _) & _) & _);
                by apply zlen_base_bytes)).
    unfold BlockHeader.canonical_size_bytes. lia. }
  assert (zlen (Block.full_bytes b) = Block.full_size_bytes b) as Er.
  { unfold Block.full_bytes, Block.full_size_bytes. autorewrite with zlen.
    rewrite (zlen_mjoin_prefixed _ Transaction.full_size_bytes), zlen_header by
      (done || (eapply Forall_impl; [done|]; intros tx (((Hw & _) & _) & _);
                by apply zlen_full_bytes)).
    unfold BlockHeader.canonical_size_bytes. lia. }
  assert (m_weight_bytes m = 3 * m_base_size_bytes m + m_raw_size_bytes m /\
          m_vsize_bytes m = (m_weight_bytes m + 3) / 4) as [Hw Hv].
  { revert Hb Hr. unfold m, Block.size_metrics.
    destruct (foldl _ _ _) as [base raw]. cbn. intros -> ->.
    unfold saturating_add, saturating_mul, USIZE_MAX. rewrite !Z.min_r by lia.
    split; [lia|f_equal; lia]. }
  rewrite Hv, Hw, Hb, Hr, Eb, Er. Z.to_euclidean_division_equations. lia.
Qed.

(** *** Witnesses *)

Definition sample_header : BlockHeader :=
  {| h_version := 1; network_id := Regnet; height := 3; previous_block_hash := zeros 48;
     h_merkle_root := zeros 48; h_witness_root := zeros 48;
     founders_hash_sha3_384 := FOUNDERS_HASH_SHA3_384;
     founders_hash_sha3_512 := FOUNDERS_HASH_SHA3_512;
     timestamp := 1700000000; difficulty_target_or_bits := zeros 48; nonce := 7 |}.

Lemma sample_header_wf : BlockHeader.wf sample_header.
Proof. unfold BlockHeader.wf, uint. cbn [sample_header h_version height timestamp nonce]. by split_and!. Qed.

Definition sample_block : Block :=
  Block.new (H:=Keccak.sha3_inst) sample_header [sample_tx [] 0; sample_tx [] 5].

Lemma sample_block_wf : Block.wf sample_block.
Proof.
  split; [apply sample_header_wf|]. split; [by vm_compute|].
  assert (forall n, is_u64 n -> Block.wf_tx (sample_tx [] n)) as Hw.
  { intros n Hn. split; [split; [|done]|].
    - split; [apply sample_tx_wf|]. by split_and!.
    - rewrite zlen_full_bytes by apply sample_tx_wf. by vm_compute. }
  cbn [transactions sample_block Block.new]. by repeat constructor; apply Hw.
Qed.

Lemma header_encoding_exact_witness :
  BlockHeader.wf sample_header /\
  zlen (BlockHeader.canonical_bytes sample_header) = HEADER_CANONICAL_SIZE.
Proof.
  split; [apply sample_header_wf|].
  apply (proj1 (proj2 (header_encoding_exact (Hs:=Keccak.sha3_inst))) _ sample_header_wf).
Defined.

Lemma merkle_roots_bind_witness :
  Merkle.loop (H:=Keccak.sha3_inst) 3
    (Transaction.txid (H:=Keccak.sha3_inst) <$> [sample_tx [] 0; sample_tx [] 1; sample_tx [] 2])
  = Some (merkle_root (H:=Keccak.sha3_inst) [sample_tx [] 0; sample_tx [] 1; sample_tx [] 2]).
Proof.
  apply (proj1 (merkle_roots_bind (Hs:=Keccak.sha3_inst) (Laws:=Keccak.sha3_laws)
    [sample_tx [] 0] [sample_tx [] 0] eq_refl) [sample_tx [] 0; sample_tx [] 1; sample_tx [] 2]).
  done.
Defined.

Lemma merkle_root_odd_duplication_witness :
  let t := sample_tx [] in
  merkle_root (H:=Keccak.sha3_inst) [t 0; t 1; t 2; t 2]
  = merkle_root (H:=Keccak.sha3_inst) [t 0; t 1; t 2].
Proof.
  apply (merkle_root_odd_duplication (Hs:=Keccak.sha3_inst) [sample_tx [] 0; sample_tx [] 1]
    (sample_tx [] 2)); [done|by exists 1%nat].
Defined.

Lemma block_size_metrics_exact_witness :
  Block.wf sample_block /\ m_raw_size_bytes (Block.size_metrics sample_block) = 541.
Proof.
  split; [apply sample_block_wf|].
  destruct (block_size_metrics_exact sample_block) as (_ & _ & _); [apply sample_block_wf|done|].
  by vm_compute.
Defined.
