(* ===== verification/Pow.v ===== *)
(** * Proof of work and branch selection

    crates/atho-core/src/consensus/pow.rs: target bounds, the retarget rule
    with its damped and bounded timespan, median time past, chain work and the
    order on branches. [BigUint]s are non-negative [Z]s. *)
From stdpp Require Import options.
From S2P Require Import Prelude Bytes Constants Crypto Keccak Network Transaction Block.

(* src: pow.rs:25-35 ProofOfWork *)
Record ProofOfWork := {
  pow_target_block_time_seconds : Z;
  pow_retarget_interval_blocks : Z;
  pow_averaging_window_blocks : Z;
  pow_median_window_blocks : Z;
  pow_damping_factor : Z;
  pow_max_adjust_up_percent : Z;
  pow_max_adjust_down_percent : Z;
}.

(* src: pow.rs:37-44 DifficultyTargetProfile *)
Record DifficultyTargetProfile := {
  genesis_target : bytes;
  min_difficulty_target : bytes;
  max_difficulty_target : bytes;
  standard_transaction_allocation_bps : Z;
}.

(* src: pow.rs:46-54 POW_PROFILE *)
Definition POW_PROFILE : ProofOfWork := {|
  pow_target_block_time_seconds := TARGET_BLOCK_TIME_SECONDS;
  pow_retarget_interval_blocks := POW_RETARGET_INTERVAL_BLOCKS;
  pow_averaging_window_blocks := POW_AVERAGING_WINDOW_BLOCKS;
  pow_median_window_blocks := POW_MEDIAN_WINDOW_BLOCKS;
  pow_damping_factor := POW_DAMPING_FACTOR;
  pow_max_adjust_up_percent := POW_MAX_ADJUST_UP_PERCENT;
  pow_max_adjust_down_percent := POW_MAX_ADJUST_DOWN_PERCENT;
|}.

(* src: pow.rs:58-58 TESTNET_STALL_RESET_SECONDS *)
Definition TESTNET_STALL_RESET_SECONDS : Z := 600.

(* src: pow.rs:60-65 DIFFICULTY_PROFILE *)
Definition DIFFICULTY_PROFILE : DifficultyTargetProfile := Eval vm_compute in {|
  genesis_target := hex "0000FFFFFFFFFFFFFFFFFFFFFFFFFFFFFFFFFFFFFFFFFFFFFFFFFFFFFFFFFFFFFFFFFFFFFFFFFFFFFFFFFFFFFFFFFFFF";
  min_difficulty_target := hex "0000FFFFFFFFFFFFFFFFFFFFFFFFFFFFFFFFFFFFFFFFFFFFFFFFFFFFFFFFFFFFFFFFFFFFFFFFFFFFFFFFFFFFFFFFFFFF";
  max_difficulty_target := hex "000000000000000000000000000000000000000000000000000000000000000000000000000000000000000000000FFF";
  standard_transaction_allocation_bps := 9500;
|}.

(* src: pow.rs:67-67 MAINNET_INITIAL_TARGET *)
Definition MAINNET_INITIAL_TARGET : bytes := genesis_target DIFFICULTY_PROFILE.
(* src: pow.rs:68-68 TESTNET_INITIAL_TARGET *)
Definition TESTNET_INITIAL_TARGET : bytes := genesis_target DIFFICULTY_PROFILE.
(* src: pow.rs:69-69 REGNET_INITIAL_TARGET *)
Definition REGNET_INITIAL_TARGET : bytes := genesis_target DIFFICULTY_PROFILE.
(* src: pow.rs:70-70 PRUNETEST_INITIAL_TARGET *)
Definition PRUNETEST_INITIAL_TARGET : bytes := min_difficulty_target DIFFICULTY_PROFILE.

(* src: pow.rs:77-81 expected_timespan_seconds_for_window *)
Definition expected_timespan_seconds_for_window (window_blocks : Z) : Z :=
  saturating_mul U64_MAX (pow_target_block_time_seconds POW_PROFILE) (saturating_sub window_blocks 1).

(* src: pow.rs:72-75 expected_timespan_seconds *)
Definition expected_timespan_seconds : Z :=
  expected_timespan_seconds_for_window (pow_averaging_window_blocks POW_PROFILE).

(** Signed saturation at both ends. *)
Definition saturating_add_i64 (a b : Z) : Z := Z.max I64_MIN (Z.min I64_MAX (a + b)).

(* src: pow.rs:83-93 clamp_difficulty_delta *)
Definition clamp_difficulty_delta (current change limit : Z) : Z :=
  let next := saturating_add_i64 current change in
  if limit <? next then limit
  else if next <? - limit then - limit
  else next.

(* src: pow.rs:95-103 initial_target_for_network *)
Definition initial_target_for_network (network : Network) : bytes :=
  match network with
  | Mainnet => MAINNET_INITIAL_TARGET
  | Testnet => TESTNET_INITIAL_TARGET
  | Regnet => REGNET_INITIAL_TARGET
  | Prunetest => PRUNETEST_INITIAL_TARGET
  end.

(* src: pow.rs:105-112 target_for_height *)
Definition target_for_height (network : Network) (height : Z) : bytes :=
  if height =? 0 then genesis_target DIFFICULTY_PROFILE else initial_target_for_network network.

(* src: pow.rs:114-116 target_to_biguint *)
Definition target_to_biguint (target : bytes) : Z := be_decode target.

(** The low 384 bits, left-padded with zeros. *)
(* src: pow.rs:118-128 biguint_to_target *)
Definition biguint_to_target (value : Z) : bytes := be_bytes 48 value.

(* src: pow.rs:130-137 block_proof *)
Definition block_proof (target : bytes) : Z :=
  let target := target_to_biguint target in
  if target =? 0 then 0
  else
    let numerator := Z.shiftl 1 SHA3_384_HASH_BITS - 1 - target in
    numerator / (target + 1) + 1.

(* src: pow.rs:139-146 block_proof_work *)
Definition block_proof_work (target : bytes) : Z := block_proof target.

(* src: pow.rs:148-153 median_u64 *)
Definition median_u64 (values : list Z) : Z :=
  let sorted := merge_sort Z.le values in
  nth (length sorted / 2)%nat sorted 0.

Definition block_timestamp (b : Block) : Z := timestamp (header b).
Definition block_target (b : Block) : bytes := difficulty_target_or_bits (header b).

(** [blocks[start..=index]]. *)
Definition slice_through {A} (start index : nat) (l : list A) : list A :=
  take (S index - start) (drop start l).

(* src: pow.rs:166-174 median_time_past_blocks *)
Definition median_time_past_blocks (blocks : list Block) (index : nat) : Z :=
  let span := Z.to_nat (pow_median_window_blocks POW_PROFILE) in
  let start := (S index - span)%nat in
  median_u64 (block_timestamp <$> slice_through start index blocks).

(* src: pow.rs:176-188 bounded_actual_timespan *)
Definition bounded_actual_timespan (actual_timespan target_timespan : Z) : Z :=
  let target := target_timespan in
  let min_actual :=
    saturating_mul U64_MAX target (saturating_sub 100 (pow_max_adjust_down_percent POW_PROFILE)) / 100 in
  let max_actual :=
    saturating_mul U64_MAX target (saturating_add U64_MAX 100 (pow_max_adjust_up_percent POW_PROFILE))
    / 100 in
  let damped :=
    if target <=? actual_timespan
    then saturating_add U64_MAX target ((actual_timespan - target) / pow_damping_factor POW_PROFILE)
    else saturating_sub target ((target - actual_timespan) / pow_damping_factor POW_PROFILE) in
  clamp damped min_actual max_actual.

(* src: pow.rs:199-205 mean_target_blocks *)
Definition mean_target_blocks (blocks : list Block) : Z :=
  foldl (fun total b => total + target_to_biguint (block_target b)) 0 blocks / zlen blocks.

(* src: pow.rs:404-413 clamp_target *)
Definition clamp_target (target : bytes) : bytes :=
  if bytes_ltb target (max_difficulty_target DIFFICULTY_PROFILE)
  then max_difficulty_target DIFFICULTY_PROFILE
  else if bytes_ltb (min_difficulty_target DIFFICULTY_PROFILE) target
  then min_difficulty_target DIFFICULTY_PROFILE
  else target.

(** [match blocks { [first, rest @ ..] if first.height == 0 && !rest.is_empty() => rest, _ => blocks }]. *)
Definition without_genesis (blocks : list Block) : list Block :=
  match blocks with
  | first :: ((_ :: _) as rest) => if height (header first) =? 0 then rest else blocks
  | _ => blocks
  end.

(** [blocks[i]] for an index in range. *)
Definition timestamp_at (blocks : list Block) (i : nat) : Z :=
  default 0 (block_timestamp <$> blocks !! i).

(* src: pow.rs:254-265 next_target_from_blocks (actual timespan) *)
Definition actual_timespan_of (blocks : list Block) (window_len : nat) : Z :=
  let tip_index := (length blocks - 1)%nat in
  let old_index := (length blocks - window_len)%nat in
  if (window_len <? Z.to_nat (pow_averaging_window_blocks POW_PROFILE))%nat
  then saturating_sub (timestamp_at blocks tip_index) (timestamp_at blocks old_index)
  else saturating_sub (median_time_past_blocks blocks tip_index) (median_time_past_blocks blocks old_index).

(* src: pow.rs:242-272 next_target_from_blocks *)
Definition next_target_from_blocks (network : Network) (blocks : list Block) : bytes :=
  let blocks := without_genesis blocks in
  let averaging_window := Z.to_nat (pow_averaging_window_blocks POW_PROFILE) in
  let window_len := Nat.min (length blocks) averaging_window in
  if (window_len <? 2)%nat then initial_target_for_network network
  else
    let window := drop (length blocks - window_len) blocks in
    let actual_timespan := actual_timespan_of blocks window_len in
    let expected_timespan := expected_timespan_seconds_for_window (Z.of_nat window_len) in
    let bounded_timespan := bounded_actual_timespan actual_timespan expected_timespan in
    let average_target := mean_target_blocks window in
    let threshold := average_target * bounded_timespan / expected_timespan in
    clamp_target (biguint_to_target threshold).

(* src: pow.rs:288-305 target_for_next_block_with_timestamp *)
Definition target_for_next_block_with_timestamp (network : Network) (previous_blocks : list Block)
    (next_timestamp : Z) : bytes :=
  if bool_decide (network = Testnet)
     && match last previous_blocks with
        | Some previous_block =>
            TESTNET_STALL_RESET_SECONDS <? saturating_sub next_timestamp (block_timestamp previous_block)
        | None => false
        end
  then min_difficulty_target DIFFICULTY_PROFILE
  else next_target_from_blocks network previous_blocks.

(* src: pow.rs:274-286 target_for_next_block *)
Definition target_for_next_block (network : Network) (previous_blocks : list Block) : bytes :=
  let next_timestamp :=
    default 0 ((fun b => saturating_add U64_MAX (block_timestamp b)
                           (pow_target_block_time_seconds POW_PROFILE)) <$> last previous_blocks) in
  target_for_next_block_with_timestamp network previous_blocks next_timestamp.

(* src: pow.rs:307-314 accumulated_chain_work *)
Definition accumulated_chain_work (blocks : list Block) : Z :=
  foldl (fun total b => total + block_proof (block_target b)) 0 blocks.

(** [u64::try_from(big).unwrap_or(u64::MAX)]. *)
Definition to_u64_or_max (big : Z) : Z := if big <=? U64_MAX then big else U64_MAX.

(* src: pow.rs:316-326 difficulty_ratio_scaled *)
Definition difficulty_ratio_scaled (target : bytes) (scale : Z) : Z :=
  let target := target_to_biguint target in
  if target =? 0 then U64_MAX
  else
    let numerator := target_to_biguint (min_difficulty_target DIFFICULTY_PROFILE) * scale in
    to_u64_or_max (numerator / target).

(* src: pow.rs:328-348 estimated_hashes_per_second *)
Definition estimated_hashes_per_second (blocks : list Block) : Z :=
  if (length blocks <? 2)%nat then 0
  else
    let elapsed := saturating_sub (default 0 (block_timestamp <$> last blocks))
                     (default 0 (block_timestamp <$> head blocks)) in
    if elapsed =? 0 then 0
    else to_u64_or_max (accumulated_chain_work blocks / elapsed).

Section hashes.
Context `{Sha3}.

Definition tip_hash (blocks : list Block) : option bytes :=
  (fun b => BlockHeader.block_hash (header b)) <$> last blocks.
Definition tip_height (blocks : list Block) : option Z := (fun b => height (header b)) <$> last blocks.

(* src: pow.rs:350-368 compare_branch_work *)
Definition compare_branch_work (candidate current : list Block) : comparison :=
  then_with (accumulated_chain_work candidate ?= accumulated_chain_work current)
    (then_with (option_compare Z.compare (tip_height candidate) (tip_height current))
               (option_compare bytes_compare (tip_hash current) (tip_hash candidate))).

(* src: pow.rs:370-373 branch_is_preferred *)
Definition branch_is_preferred (candidate current : list Block) : bool :=
  match compare_branch_work candidate current with Gt => true | _ => false end.
End hashes.

(* src: pow.rs:375-384 median_time_past_from_blocks *)
Definition median_time_past_from_blocks (previous_blocks : list Block) : option Z :=
  if bool_decide (previous_blocks = []) then None
  else Some (median_time_past_blocks previous_blocks (length previous_blocks - 1)).

(* src: pow.rs:386-389 minimum_next_block_timestamp *)
Definition minimum_next_block_timestamp (previous_blocks : list Block) : option Z :=
  (fun t => saturating_add U64_MAX t 1) <$> median_time_past_from_blocks previous_blocks.

(* src: pow.rs:391-395 target_within_bounds *)
Definition target_within_bounds (target : bytes) : bool :=
  bytes_leb (max_difficulty_target DIFFICULTY_PROFILE) target
  && bytes_leb target (min_difficulty_target DIFFICULTY_PROFILE).

(* src: pow.rs:397-402 meets_target *)
Definition meets_target (hash target : bytes) : bool := bytes_leb hash target.

(** ** Targets *)

Abbreviation min_target := (be_decode (min_difficulty_target DIFFICULTY_PROFILE)).
Abbreviation max_target := (be_decode (max_difficulty_target DIFFICULTY_PROFILE)).

Lemma min_target_eq : min_target = 2 ^ 368 - 1.
Proof. by vm_compute. Qed.
Lemma max_target_eq : max_target = 4095.
Proof. by vm_compute. Qed.

Lemma target_within_bounds_spec t :
  length t = 48%nat ->
  target_within_bounds t = true <-> max_target <= be_decode t <= min_target.
Proof.
  intros Hl. unfold target_within_bounds. rewrite !bytes_leb_be by (rewrite Hl; done).
  rewrite andb_true_iff, !Z.leb_le. done.
Qed.

Lemma clamp_target_length t : length t = 48%nat -> length (clamp_target t) = 48%nat.
Proof.
  intros. unfold clamp_target. by repeat case_match.
Qed.

Lemma clamp_target_value t :
  length t = 48%nat -> be_decode (clamp_target t) = clamp (be_decode t) max_target min_target.
Proof.
  intros Hl. unfold clamp_target, clamp. rewrite !bytes_ltb_be by (rewrite Hl; done).
  by destruct (be_decode t <? max_target), (min_target <? be_decode t).
Qed.

Lemma clamp_target_bounds t :
  length t = 48%nat -> target_within_bounds (clamp_target t) = true.
Proof.
  intros. apply target_within_bounds_spec; [by apply clamp_target_length|].
  rewrite clamp_target_value by done. apply clamp_bounds. by vm_compute.
Qed.

Lemma biguint_to_target_length v : length (biguint_to_target v) = 48%nat.
Proof. apply be_bytes_length. Qed.

Lemma next_target_from_blocks_ok network blocks :
  let t := next_target_from_blocks network blocks in
  length t = 48%nat /\ target_within_bounds t = true.
Proof.
  cbn zeta. unfold next_target_from_blocks.
  destruct (_ <? 2)%nat; [by destruct network|].
  split; [apply clamp_target_length|apply clamp_target_bounds]; apply biguint_to_target_length.
Qed.

(** ** The bounded timespan *)

Lemma bounded_timespan_spec actual target :
  0 <= target -> target * 116 <= U64_MAX ->
  target * 68 / 100 <= bounded_actual_timespan actual target <= target * 116 / 100.
Proof.
  intros Ht Hmax. unfold bounded_actual_timespan, saturating_mul, saturating_add, saturating_sub.
  cbn [POW_PROFILE pow_max_adjust_down_percent pow_max_adjust_up_percent pow_damping_factor].
  change (Z.max 0 (100 - POW_MAX_ADJUST_DOWN_PERCENT)) with 68.
  change (Z.min U64_MAX (100 + POW_MAX_ADJUST_UP_PERCENT)) with 116.
  rewrite !(Z.min_r U64_MAX (_ * _)) by lia. apply clamp_bounds. Z.to_euclidean_division_equations. lia.
Qed.

Lemma bounded_timespan_fixed target :
  0 <= target -> target * 116 <= U64_MAX -> bounded_actual_timespan target target = target.
Proof.
  intros Ht Hmax. unfold bounded_actual_timespan, saturating_mul, saturating_add, saturating_sub.
  cbn [POW_PROFILE pow_max_adjust_down_percent pow_max_adjust_up_percent pow_damping_factor].
  change (Z.max 0 (100 - POW_MAX_ADJUST_DOWN_PERCENT)) with 68.
  change (Z.min U64_MAX (100 + POW_MAX_ADJUST_UP_PERCENT)) with 116.
  rewrite Z.leb_refl, Z.sub_diag. change (0 / POW_DAMPING_FACTOR) with 0.
  rewrite !Z.min_r by lia. rewrite Z.add_0_r, clamp_id; [done|].
  Z.to_euclidean_division_equations. lia.
Qed.

(** Slower blocks never shrink the timespan. *)
Lemma bounded_timespan_mono a b target :
  0 <= a <= b -> 0 <= target -> target * 116 <= U64_MAX ->
  bounded_actual_timespan a target <= bounded_actual_timespan b target.
Proof.
  intros Hab Ht Hmax. unfold bounded_actual_timespan, saturating_mul, saturating_add, saturating_sub.
  cbn [POW_PROFILE pow_max_adjust_down_percent pow_max_adjust_up_percent pow_damping_factor].
  change (Z.max 0 (100 - POW_MAX_ADJUST_DOWN_PERCENT)) with 68.
  change (Z.min U64_MAX (100 + POW_MAX_ADJUST_UP_PERCENT)) with 116.
  change POW_DAMPING_FACTOR with 4. rewrite !(Z.min_r U64_MAX (_ * _)) by lia.
  apply clamp_mono; [Z.to_euclidean_division_equations; lia|].
  destruct (Z.leb_spec target a), (Z.leb_spec target b); Z.to_euclidean_division_equations; lia.
Qed.

Lemma expected_timespan_eq n :
  (2 <= n <= 17)%nat -> expected_timespan_seconds_for_window (Z.of_nat n) = 100 * (Z.of_nat n - 1).
Proof.
  intros. unfold expected_timespan_seconds_for_window, saturating_mul, saturating_sub.
  change (pow_target_block_time_seconds POW_PROFILE) with 100. unfold U64_MAX. lia.
Qed.

(** ** Mean target *)

Lemma target_sum_bounds lo hi blocks acc :
  Forall (fun b => lo <= be_decode (block_target b) <= hi) blocks ->
  acc + lo * zlen blocks
    <= foldl (fun total b => total + target_to_biguint (block_target b)) acc blocks
    <= acc + hi * zlen blocks.
Proof.
  intros H. revert acc. induction H as [|b blocks Hb H IH]; intros acc.
  { cbn [foldl]. rewrite zlen_nil. lia. }
  cbn [foldl]. specialize (IH (acc + target_to_biguint (block_target b))).
  unfold target_to_biguint in *. rewrite zlen_cons. lia.
Qed.

Lemma mean_target_bounds lo hi blocks :
  blocks <> [] -> Forall (fun b => lo <= be_decode (block_target b) <= hi) blocks ->
  lo <= mean_target_blocks blocks <= hi.
Proof.
  intros Hne H. apply (target_sum_bounds lo hi _ 0) in H. unfold mean_target_blocks.
  assert (0 < zlen blocks) by (destruct blocks; [done|rewrite zlen_cons; pose proof (zlen_nonneg blocks); lia]).
  split; [apply Z.div_le_lower_bound; lia|]. apply Z.div_le_upper_bound; lia.
Qed.

Lemma biguint_to_target_value v : 0 <= v < 2 ^ 384 -> be_decode (biguint_to_target v) = v.
Proof. intros. by apply be_decode_be_bytes. Qed.

(** The retarget window of a branch: at most 17 blocks, genesis left out. *)
Definition retarget_window (blocks : list Block) : list Block :=
  let blocks := without_genesis blocks in
  drop (length blocks - Nat.min (length blocks) 17) blocks.

Lemma retarget_window_length blocks :
  length (retarget_window blocks) = Nat.min (length (without_genesis blocks)) 17.
Proof. unfold retarget_window. rewrite length_drop. lia. Qed.

(** The retarget rule in numbers, when nothing is truncated or clamped away. *)
Lemma next_target_value network blocks :
  let window := retarget_window blocks in
  let n := length window in
  (2 <= n)%nat ->
  Forall (fun b => max_target <= be_decode (block_target b) <= min_target) window ->
  let actual := actual_timespan_of (without_genesis blocks) n in
  let bounded := bounded_actual_timespan actual (100 * (Z.of_nat n - 1)) in
  be_decode (next_target_from_blocks network blocks)
    = clamp (mean_target_blocks window * bounded / (100 * (Z.of_nat n - 1))) max_target min_target.
Proof.
  cbn zeta. intros Hn Hw. rewrite retarget_window_length in *.
  unfold next_target_from_blocks.
  change (Z.to_nat (pow_averaging_window_blocks POW_PROFILE)) with 17%nat.
  fold (retarget_window blocks). set (n := Nat.min (length (without_genesis blocks)) 17) in *.
  destruct (Nat.ltb_spec n 2); [lia|].
  rewrite expected_timespan_eq by lia.
  set (e := 100 * (Z.of_nat n - 1)) in *. assert (0 < e <= 1600) as He by lia.
  rewrite clamp_target_value, biguint_to_target_value; [done| |apply biguint_to_target_length].
  pose proof (bounded_timespan_spec (actual_timespan_of (without_genesis blocks) n) e) as Hb.
  assert (retarget_window blocks <> []) as Hne.
  { intros E. pose proof (retarget_window_length blocks) as Hl. rewrite E in Hl. cbn in Hl. lia. }
  pose proof (mean_target_bounds _ _ _ Hne Hw) as Hm. rewrite max_target_eq, min_target_eq in Hm.
  set (b := bounded_actual_timespan _ e) in *. set (m := mean_target_blocks _) in *.
  assert (0 <= b <= 1856) as Hb' by (unfold U64_MAX in Hb; Z.to_euclidean_division_equations; lia).
  split; [apply Z.div_pos; lia|].
  apply Z.div_lt_upper_bound; [lia|]. nia.
Qed.

(** ** Chain work *)

(** The expected number of hashes below the target, rounded down. *)
Lemma block_proof_spec t :
  block_proof t = if be_decode t =? 0 then 0 else 2 ^ 384 / (be_decode t + 1).
Proof.
  unfold block_proof, target_to_biguint. destruct (Z.eqb_spec (be_decode t) 0); [done|].
  pose proof (be_decode_range t). rewrite Z.shiftl_1_l. change SHA3_384_HASH_BITS with 384.
  rewrite <- Z.div_add by lia. f_equal. lia.
Qed.

Lemma block_proof_pos t : length t = 48%nat -> be_decode t <> 0 -> 1 <= block_proof t.
Proof.
  intros Hl Hz. rewrite block_proof_spec. destruct (Z.eqb_spec (be_decode t) 0); [done|].
  pose proof (be_decode_range t) as Hr. unfold zlen in Hr. rewrite Hl in Hr.
  apply Z.div_le_lower_bound; [lia|]. change (2 ^ 384) with (256 ^ Z.of_nat 48). lia.
Qed.

Lemma block_proof_nonneg t : 0 <= block_proof t.
Proof.
  rewrite block_proof_spec. destruct (_ =? 0); [done|].
  pose proof (be_decode_range t). apply Z.div_pos; lia.
Qed.

Lemma block_proof_antitone t u :
  0 < be_decode t <= be_decode u -> block_proof u <= block_proof t.
Proof.
  intros [H0 Hle]. rewrite !block_proof_spec.
  destruct (Z.eqb_spec (be_decode t) 0), (Z.eqb_spec (be_decode u) 0); try lia.
  apply Z.div_le_compat_l; lia.
Qed.

Lemma chain_work_acc blocks acc :
  foldl (fun total b => total + block_proof (block_target b)) acc blocks
  = acc + accumulated_chain_work blocks.
Proof.
  unfold accumulated_chain_work. revert acc. induction blocks as [|b blocks IH]; intros acc; cbn [foldl].
  - lia.
  - rewrite IH, (IH (0 + _)). lia.
Qed.
Lemma chain_work_app b1 b2 :
  accumulated_chain_work (b1 ++ b2) = accumulated_chain_work b1 + accumulated_chain_work b2.
Proof. unfold accumulated_chain_work at 1. rewrite foldl_app. apply chain_work_acc. Qed.
Lemma chain_work_nonneg blocks : 0 <= accumulated_chain_work blocks.
Proof.
  induction blocks as [|b blocks IH]; [done|].
  change (b :: blocks) with ([b] ++ blocks). rewrite chain_work_app.
  pose proof (block_proof_nonneg (block_target b)).
  unfold accumulated_chain_work at 1. cbn [foldl]. lia.
Qed.

(** ** The order on branches *)

Section branches.
Context `{Hs : Sha3}.

#[global] Instance branch_ordered : Ordered compare_branch_work.
Proof.
  pose proof (key_ordered Z.compare accumulated_chain_work) as Hw.
  pose proof (key_ordered (option_compare Z.compare) tip_height) as Hh.
  pose proof (flip_ordered _ (Ordered0:=key_ordered (option_compare bytes_compare) tip_hash)) as Ht.
  exact (then_with_ordered _ _ (Ordered0:=Hw) (Ordered1:=then_with_ordered _ _ (Ordered0:=Hh) (Ordered1:=Ht))).
Qed.

Lemma branch_is_preferred_gt a b : branch_is_preferred a b = true <-> compare_branch_work a b = Gt.
Proof. unfold branch_is_preferred. by destruct (compare_branch_work a b). Qed.
End branches.

(** ** Median time past *)

Definition count_ge (m : Z) (l : list Z) : nat := length (filter (fun x => m <= x) l).

Lemma count_ge_cons m x l :
  count_ge m (x :: l) = ((if decide (m <= x)%Z then 1 else 0) + count_ge m l)%nat.
Proof. unfold count_ge. rewrite filter_cons. by destruct (decide (m <= x)). Qed.
Lemma count_ge_app m l1 l2 : count_ge m (l1 ++ l2) = (count_ge m l1 + count_ge m l2)%nat.
Proof. unfold count_ge. by rewrite filter_app, length_app. Qed.
Lemma count_ge_length m l : (count_ge m l <= length l)%nat.
Proof. apply length_filter. Qed.

(** In a sorted list, the [k]-th element is at least [m] exactly when at most
    [k] elements are below [m]. *)
Lemma sorted_nth_ge m l k :
  StronglySorted Z.le l -> (k < length l)%nat ->
  m <= nth k l 0 <-> (length l - k <= count_ge m l)%nat.
Proof.
  intros Hs. revert k. induction Hs as [|x l Hs IH Hx]; intros k Hk; cbn [length] in *; [lia|].
  rewrite count_ge_cons. destruct (decide (m <= x)) as [Hm|Hm].
  - assert (count_ge m l = length l) as ->.
    { clear IH Hk Hs. unfold count_ge. induction Hx as [|y l Hy Hx IH]; [done|].
      rewrite filter_cons, decide_True by lia. cbn [length]. by rewrite IH. }
    split; [lia|]. intros _. destruct k as [|k]; [done|]. cbn [nth].
    rewrite Forall_forall in Hx. specialize (Hx (nth k l 0)).
    assert (nth k l 0 ∈ l) by (apply list_elem_of_In, nth_In; lia). naive_solver lia.
  - destruct k as [|k]; cbn [nth].
    + split; [lia|]. pose proof (count_ge_length m l). lia.
    + rewrite IH by lia. lia.
Qed.

Lemma median_ge m l :
  l <> [] -> m <= median_u64 l <-> (length l - length l / 2 <= count_ge m l)%nat.
Proof.
  intros Hne. unfold median_u64.
  assert (merge_sort Z.le l ≡ₚ l) as Hp by apply merge_sort_Permutation.
  assert (length (merge_sort Z.le l) = length l) as Hl by by apply Permutation_length.
  rewrite (sorted_nth_ge m).
  - rewrite Hl. unfold count_ge. rewrite (Permutation_length (filter_Permutation _ _ _ Hp)). done.
  - apply (StronglySorted_merge_sort Z.le).
  - rewrite Hl. destruct l as [|x l]; [done|]. cbn [length].
    pose proof (Nat.div_lt (S (length l)) 2). lia.
Qed.

(** The timestamps the median past a branch's tip is taken over. *)
Definition mtp_window (blocks : list Block) : list Z :=
  drop (length blocks - 11) (block_timestamp <$> blocks).

Lemma median_time_past_window blocks :
  blocks <> [] ->
  median_time_past_from_blocks blocks = Some (median_u64 (mtp_window blocks)).
Proof.
  intros Hne. unfold median_time_past_from_blocks. rewrite bool_decide_false by done.
  unfold median_time_past_blocks, mtp_window, slice_through.
  change (Z.to_nat (pow_median_window_blocks POW_PROFILE)) with 11%nat.
  assert (0 < length blocks)%nat by (destruct blocks; [done|cbn; lia]).
  replace (S (length blocks - 1)) with (length blocks) by lia.
  rewrite take_ge by (rewrite length_drop; lia). by rewrite fmap_drop.
Qed.

Lemma mtp_window_length blocks : length (mtp_window blocks) = Nat.min (length blocks) 11.
Proof. unfold mtp_window. rewrite length_drop, length_fmap. lia. Qed.

(** Extending a branch by a block drops the oldest timestamp of a full window. *)
Lemma mtp_window_snoc blocks b :
  mtp_window (blocks ++ [b])
  = drop (if (11 <=? length blocks)%nat then 1 else 0) (mtp_window blocks) ++ [block_timestamp b].
Proof.
  unfold mtp_window. rewrite length_app, fmap_app, drop_app_le by (rewrite length_fmap; cbn; lia).
  cbn [length fmap list_fmap]. rewrite drop_drop. do 2 f_equal.
  destruct (Nat.leb_spec 11 (length blocks)); lia.
Qed.

Lemma count_ge_drop m k l : (count_ge m l <= k + count_ge m (drop k l))%nat.
Proof.
  rewrite <- (take_drop k l) at 1. rewrite count_ge_app.
  pose proof (count_ge_length m (take k l)). rewrite length_take in H. lia.
Qed.

(** ** Properties *)

(** Every target the chain asks for is in bounds. *)
Lemma next_target_ok network blocks ts :
  length (target_for_next_block_with_timestamp network blocks ts) = 48%nat /\
  target_within_bounds (target_for_next_block_with_timestamp network blocks ts) = true.
Proof.
  unfold target_for_next_block_with_timestamp. destruct (_ && _); [done|apply next_target_from_blocks_ok].
Qed.

(** Whatever the history, the network and the candidate timestamp (regular retarget,
    bootstrap, or the Testnet stall reset), the target required of the next block is a
    48-byte string within the difficulty bounds. *)
Theorem next_target_within_bounds network blocks ts :
  let t := target_for_next_block_with_timestamp network blocks ts in
  length t = 48%nat /\ target_within_bounds t = true /\
  (length (target_for_next_block network blocks) = 48%nat /\
   target_within_bounds (target_for_next_block network blocks) = true).
Proof. cbn zeta. destruct (next_target_ok network blocks ts). split; [done|]. split; [done|]. apply next_target_ok. Qed.

(** The retarget step is proportional control with hard limits: from a window of n
    in-bounds targets the next target is mean * bounded / expected, clamped to the bounds
    with no truncation; the bounded timespan stays within -32% and +16% of the expected
    one and grows with the actual one; and blocks on schedule keep a steady target. *)
Theorem retarget_step network blocks :
  let window := retarget_window blocks in
  let n := Z.of_nat (length window) in
  let expected := 100 * (n - 1) in
  let actual := actual_timespan_of (without_genesis blocks) (length window) in
  let bounded := bounded_actual_timespan actual expected in
  let next := be_decode (next_target_from_blocks network blocks) in
  2 <= n ->
  Forall (fun b => max_target <= be_decode (block_target b) <= min_target) window ->
  next = clamp (mean_target_blocks window * bounded / expected) max_target min_target /\
  68 * expected <= 100 * bounded <= 116 * expected /\
  (forall slower, 0 <= actual <= slower -> bounded <= bounded_actual_timespan slower expected) /\
  (forall t, actual = expected -> Forall (fun b => be_decode (block_target b) = t) window -> next = t).
Proof.
  cbn zeta. intros Hn Hw.
  pose proof (retarget_window_length blocks) as Hlen.
  rewrite next_target_value by (done || lia).
  set (n := length (retarget_window blocks)) in *. set (e := 100 * (Z.of_nat n - 1)) in *.
  assert (0 < e <= 1600) as He by lia.
  set (actual := actual_timespan_of _ n). split; [done|].
  assert (e * 116 <= U64_MAX) as Hmax by (unfold U64_MAX; lia).
  split; [|split].
  - pose proof (bounded_timespan_spec actual e ltac:(lia) Hmax) as Hb.
    subst e. Z.to_euclidean_division_equations. lia.
  - intros slower Hs. apply bounded_timespan_mono; lia.
  - intros t -> Ht. rewrite bounded_timespan_fixed by lia.
    assert (retarget_window blocks <> []) as Hne by (intros E; subst n; rewrite E in Hn; cbn in Hn; lia).
    pose proof (mean_target_bounds t t _ Hne) as Hm.
    rewrite Forall_forall in Ht. rewrite Forall_forall in Hm.
    assert (mean_target_blocks (retarget_window blocks) = t) as ->.
    { enough (t <= mean_target_blocks (retarget_window blocks) <= t) by lia. apply Hm.
      intros b Hb. rewrite (Ht b Hb). lia. }
    rewrite Z.div_mul by lia. apply clamp_id.
    destruct (retarget_window blocks) as [|b l]; [done|]. apply Forall_cons in Hw as [Hb _].
    by rewrite (Ht b) in Hb by by left.
Qed.

(** Chain work is the number of hashes a target demands on average: the proof of a
    non-zero target t is floor(2^384 / (t + 1)), so harder targets never weigh less, work
    adds up along a branch, and every block with an in-bounds target adds at least one
    unit. *)
Theorem chain_work_counts_hashes :
  (forall t, be_decode t <> 0 -> block_proof_work t = 2 ^ 384 / (be_decode t + 1)) /\
  (forall t u, 0 < be_decode t <= be_decode u -> block_proof_work u <= block_proof_work t) /\
  (forall b1 b2, accumulated_chain_work (b1 ++ b2)
                 = accumulated_chain_work b1 + accumulated_chain_work b2) /\
  (forall blocks b, length (block_target b) = 48%nat -> target_within_bounds (block_target b) = true ->
     accumulated_chain_work blocks < accumulated_chain_work (blocks ++ [b])).
Proof.
  split; [|split; [|split; [apply chain_work_app|]]].
  - intros t Ht. unfold block_proof_work. rewrite block_proof_spec.
    by destruct (Z.eqb_spec (be_decode t) 0).
  - apply block_proof_antitone.
  - intros blocks b Hl Hb. rewrite chain_work_app.
    apply target_within_bounds_spec in Hb; [|done]. rewrite max_target_eq in Hb.
    pose proof (block_proof_pos (block_target b) Hl ltac:(lia)).
    unfold accumulated_chain_work at 3. cbn [foldl]. lia.
Qed.

(** Branch preference (work, then tip height, then lower tip hash) is a strict order
    every node agrees on: irreflexive, asymmetric, transitive, undecided only between
    branches of equal work, height and tip hash; and extending a branch by a block with
    an in-bounds target always beats it, so the tip only moves forward. *)
Theorem branch_preference_strict_order `{Hs : Sha3} :
  (forall a, branch_is_preferred a a = false) /\
  (forall a b, branch_is_preferred a b = true -> branch_is_preferred b a = false) /\
  (forall a b c, branch_is_preferred a b = true -> branch_is_preferred b c = true ->
                 branch_is_preferred a c = true) /\
  (forall a b, branch_is_preferred a b = false -> branch_is_preferred b a = false ->
     accumulated_chain_work a = accumulated_chain_work b /\ tip_height a = tip_height b /\
     tip_hash a = tip_hash b) /\
  (forall a b, length (block_target b) = 48%nat -> target_within_bounds (block_target b) = true ->
     branch_is_preferred (a ++ [b]) a = true).
Proof.
  assert (forall a b, branch_is_preferred a b = false <-> compare_branch_work a b <> Gt) as Hfalse.
  { intros a b. rewrite <- branch_is_preferred_gt. by destruct (branch_is_preferred a b). }
  split_and!.
  - intros a. apply Hfalse. by rewrite (cmp_refl compare_branch_work).
  - intros a b H%branch_is_preferred_gt. apply Hfalse.
    rewrite (cmp_antisym (cmp:=compare_branch_work) a b), H. done.
  - intros a b c. rewrite !branch_is_preferred_gt, !(cmp_gt_lt compare_branch_work).
    intros Hab Hbc. by eapply cmp_lt_trans.
  - intros a b. rewrite !Hfalse. intros Hab Hba.
    assert (compare_branch_work a b = Eq) as E.
    { pose proof (cmp_antisym (cmp:=compare_branch_work) a b) as Hanti.
      destruct (compare_branch_work a b); [done| |done]. by rewrite Hanti in Hba. }
    unfold compare_branch_work, then_with in E.
    destruct (_ ?= _) eqn:E1 in E; [|done..].
    destruct (option_compare Z.compare _ _) eqn:E2 in E; [|done..].
    apply Z.compare_eq_iff in E1. split; [done|].
    destruct (tip_height a), (tip_height b), (tip_hash a), (tip_hash b); cbn in E, E2; try done.
    all: try apply Z.compare_eq_iff in E2 as ->; try apply bytes_compare_eq in E as ->; done.
  - intros a b Hl Hb. apply branch_is_preferred_gt. unfold compare_branch_work.
    apply target_within_bounds_spec in Hb; [|done]. rewrite max_target_eq in Hb.
    pose proof (block_proof_pos (block_target b) Hl ltac:(lia)).
    rewrite chain_work_app. unfold accumulated_chain_work at 2. cbn [foldl].
    assert ((accumulated_chain_work a + (0 + block_proof (block_target b)) ?= accumulated_chain_work a)
            = Gt) as -> by (apply Z.compare_gt_iff; lia). done.
Qed.

(** Median time past never goes back: if every block is stamped later than the median
    past of the branch before it (what [minimum_next_block_timestamp] demands), extending
    the branch never lowers the median time past. *)
Theorem median_time_past_monotone blocks b mtp :
  median_time_past_from_blocks blocks = Some mtp -> mtp < U64_MAX ->
  default 0 (minimum_next_block_timestamp blocks) <= block_timestamp b ->
  exists mtp', median_time_past_from_blocks (blocks ++ [b]) = Some mtp' /\ mtp <= mtp'.
Proof.
  intros Hm Hmax Hmin.
  assert (blocks <> []) as Hne by (intros ->; done).
  assert (mtp < block_timestamp b) as Hlt.
  { unfold minimum_next_block_timestamp, saturating_add in Hmin. rewrite Hm in Hmin. cbn in Hmin. lia. }
  rewrite median_time_past_window in Hm by done. injection Hm as Hm.
  assert (blocks ++ [b] <> []) as Hne' by by destruct blocks.
  rewrite median_time_past_window by done. eexists. split; [done|].
  pose proof (mtp_window_length blocks) as Hl. pose proof (mtp_window_length (blocks ++ [b])) as Hl'.
  rewrite length_app in Hl'. cbn [length] in Hl'.
  assert (0 < length blocks)%nat by (destruct blocks; [done|cbn; lia]).
  assert (forall w : list Z, (0 < length w)%nat -> w <> []) as Hnn by (by intros []; cbn; [lia|]).
  apply median_ge; [apply Hnn; lia|]. symmetry in Hm. apply Z.eq_le_incl in Hm.
  apply median_ge in Hm; [|apply Hnn; lia]. rewrite Hl in Hm. rewrite Hl'.
  rewrite mtp_window_snoc, count_ge_app, count_ge_cons.
  rewrite decide_True by lia. pose proof (count_ge_drop mtp
    (if (11 <=? length blocks)%nat then 1 else 0) (mtp_window blocks)) as Hd.
  destruct (Nat.leb_spec 11 (length blocks)).
  - rewrite !Nat.min_r in * by lia. change (11 / 2)%nat with 5%nat in *. lia.
  - rewrite !Nat.min_l in * by lia.
    pose proof (Nat.Div0.div_le_mono (length blocks) (length blocks + 1) 2). lia.
Qed.

(** *** Witnesses *)

Definition block_at (h time : Z) (target : bytes) : Block :=
  Block.new (H:=Keccak.sha3_inst)
    {| h_version := 1; network_id := Regnet; height := h; previous_block_hash := zeros 48;
       h_merkle_root := zeros 48; h_witness_root := zeros 48;
       founders_hash_sha3_384 := FOUNDERS_HASH_SHA3_384;
       founders_hash_sha3_512 := FOUNDERS_HASH_SHA3_512;
       timestamp := time; difficulty_target_or_bits := target; nonce := 0 |} [].

Definition sample_branch : list Block :=
  let t := biguint_to_target (2 ^ 300) in
  [block_at 0 1000 t; block_at 1 2000 t; block_at 2 2100 t; block_at 3 2200 t].

Lemma retarget_step_witness :
  be_decode (next_target_from_blocks Regnet sample_branch) = 2 ^ 300.
Proof.
  destruct (retarget_step Regnet sample_branch) as (_ & _ & _ & H).
  - by vm_compute.
  - apply (bool_decide_unpack _). by vm_compute.
  - apply H; [by vm_compute|]. apply (bool_decide_unpack _). by vm_compute.
Defined.

Lemma median_time_past_monotone_witness :
  exists mtp', median_time_past_from_blocks (sample_branch ++ [block_at 4 2101 []]) = Some mtp' /\
               2100 <= mtp'.
Proof. apply (median_time_past_monotone _ _ 2100); by vm_compute. Defined.
