(* ===== verification/Address.v ===== *)
(** * Addresses

    crates/atho-core/src/address.rs. A Rust [str] is its UTF-8 bytes; the
    alphabet and the prefixes are ASCII, so the character loops are byte loops.
    [decode_base56_address] slices its argument by byte offsets, which panics
    inside a multi-byte character: its model returns [None] there. *)
From stdpp Require Import options.
From S2P Require Import Prelude Bytes Constants Crypto Keccak Network.

(* src: core_error.rs:17-26 AddressError *)
Inductive AddressError :=
| InvalidAlphabet
| InvalidPrefix
| InvalidChecksum.

(** [BASE56_ALPHABET.len()]: 54. *)
Definition base : Z := zlen BASE56_ALPHABET.

(* src: address.rs:14-19 base56_value *)
Definition base56_value (c : byte) : option Z :=
  Z.of_nat <$> position (fun ch => bool_decide (ch = c)) BASE56_ALPHABET.

(** One pass over a little-endian digit vector: multiply by [mul], add the carry. *)
(* src: address.rs:30-34 base56_encode_bytes (digit loop) *)
Fixpoint scale_digits (base mul : Z) (digits : list Z) (carry : Z) : list Z * Z :=
  match digits with
  | [] => ([], carry)
  | digit :: digits =>
      let value := digit * mul + carry in
      let '(digits, carry) := scale_digits base mul digits (value / base) in
      (value mod base :: digits, carry)
  end.

(** [while carry > 0 { push(carry % base); carry /= base }]. *)
(* src: address.rs:35-38 base56_encode_bytes (carry loop) *)
Fixpoint push_carry (fuel : nat) (base carry : Z) : list Z :=
  match fuel with
  | O => []
  | S fuel => if 0 <? carry then carry mod base :: push_carry fuel base (carry / base) else []
  end.

(** The loops' body; two digits always hold the carry, see [scale_carry]. *)
Definition digits_step (base mul : Z) (digits : list Z) (carry : Z) : list Z :=
  let '(digits, carry) := scale_digits base mul digits carry in
  digits ++ push_carry 2 base carry.

Definition base56_char (digit : Z) : byte := nth (Z.to_nat digit) BASE56_ALPHABET x00.

(* src: address.rs:21-46 base56_encode_bytes *)
Definition base56_encode_bytes (data : bytes) : bytes :=
  if bool_decide (data = []) then [base56_char 0]
  else
    let digits := foldl (fun digits b => digits_step base 256 digits (byte_to_Z b)) [0] data in
    base56_char <$> reverse digits.

(* src: address.rs:48-60 base56_encode_fixed_bytes *)
Definition base56_encode_fixed_bytes (data : bytes) (width : nat) : bytes :=
  let encoded := base56_encode_bytes data in
  if (width <=? length encoded)%nat then encoded
  else replicate (width - length encoded) (base56_char 0) ++ encoded.

(** The decoded vector, least significant byte first. *)
(* src: address.rs:71-84 base56_decode_to_bytes (character loop) *)
Definition base56_digits_of (s : bytes) : result AddressError (list Z) :=
  try_fold (fun bs ch =>
      value ← ok_or (base56_value ch) InvalidAlphabet;
      Ok (digits_step 256 base bs value))
    [0] s.

(* src: address.rs:62-95 base56_decode_to_bytes *)
Definition base56_decode_to_bytes (s : bytes) (expected_len : nat) : result AddressError bytes :=
  _ ← reject_if (bool_decide (s = [])) InvalidAlphabet;
  le ← base56_digits_of s;
  let decoded := byte_of_Z <$> reverse le in
  if (expected_len <? length decoded)%nat then Err InvalidChecksum
  else if (length decoded <? expected_len)%nat
  then Ok (zeros (expected_len - length decoded) ++ decoded)
  else Ok decoded.

(** [strip_prefix]. *)
Fixpoint strip_prefix (prefix s : bytes) : option bytes :=
  match prefix, s with
  | [], _ => Some s
  | p :: prefix, c :: s => if decide (p = c) then strip_prefix prefix s else None
  | _ :: _, [] => None
  end.

(* src: address.rs:133-139 hashed_public_key_from_digest *)
Definition hashed_public_key_from_digest (network : Network) (digest : bytes) : bytes :=
  str_bytes (Network.internal_hpk_prefix network) ++ hex_encode digest.

(* src: address.rs:188-196 internal_hpk_bytes *)
Definition internal_hpk_bytes (network : Network) (internal_hpk : bytes) : option bytes :=
  let prefix := str_bytes (Network.internal_hpk_prefix network) in
  body ← strip_prefix prefix internal_hpk;
  if negb (zlen body =? SHA3_384_HASH_HEX_CHARS) then None else hex_decode body.

(* src: address.rs:173-181 payment_digest_from_locking_script *)
Definition payment_digest_from_locking_script (locking_script : bytes) : option bytes :=
  if zlen locking_script =? ADDRESS_DIGEST_BYTES then Some locking_script else None.

(* src: address.rs:183-186 is_canonical_payment_locking_script *)
Definition is_canonical_payment_locking_script (locking_script : bytes) : bool :=
  bool_decide (is_Some (payment_digest_from_locking_script locking_script)).

(* src: address.rs:203-206 is_base56_char *)
Definition is_base56_char (c : byte) : bool := bool_decide (c ∈ BASE56_ALPHABET).
(* src: address.rs:208-211 is_visible_prefix *)
Definition is_visible_prefix (c : byte) : bool := bool_decide (c ∈ [x41; x54; x52; x50]).

(** The [match prefix] of the decoder. *)
(* src: address.rs:250-256 decode_base56_address (prefix match) *)
Definition network_of_prefix (prefix : byte) : option Network :=
  match prefix with
  | x41 => Some Mainnet
  | x54 => Some Testnet
  | x52 => Some Regnet
  | x50 => Some Prunetest
  | _ => None
  end.

(** [str::is_char_boundary]. *)
Definition is_char_boundary (s : bytes) (i : nat) : bool :=
  match s !! i with
  | None => (i =? length s)%nat
  | Some b => (byte_to_Z b <? 0x80) || (0xc0 <=? byte_to_Z b)
  end.

(* src: address.rs:141-150 AddressParts *)
Record AddressParts := {
  ap_network : Network;
  ap_visible_prefix : byte;
  ap_base56_address : bytes;
  ap_hashed_public_key : bytes;
  ap_payment_digest : bytes;
  ap_checksum : bytes;
}.

Section hashes.
Context `{Sha3}.

(* src: address.rs:97-106 address_checksum *)
Definition address_checksum (prefix : byte) (body : bytes) : bytes :=
  take (Z.to_nat ADDRESS_CHECKSUM_BYTES) (sha3_256 (prefix :: body)).

(* src: address.rs:108-126 role_digest_from_pubkey *)
Definition role_digest_from_pubkey (network : Network) (public_key role : bytes) : bytes :=
  sha3_256 (role ++ [x00] ++ str_bytes (Network.domain_tag network) ++ [x00] ++ public_key).

(* src: address.rs:128-131 public_key_digest *)
Definition public_key_digest (network : Network) (public_key : bytes) : bytes :=
  role_digest_from_pubkey network public_key ADDRESS_ROLE_DOMAIN.

(* src: address.rs:213-224 encode_base56_address *)
Definition encode_base56_address (network : Network) (digest : bytes) : bytes :=
  let prefix := Network.visible_prefix network in
  let body := base56_encode_bytes digest in
  let checksum := address_checksum prefix body in
  let checksum_body := base56_encode_fixed_bytes checksum (Z.to_nat ADDRESS_CHECKSUM_BASE56_CHARS) in
  prefix :: body ++ checksum_body.

(* src: address.rs:152-171 address_parts_from_public_key *)
Definition address_parts_from_public_key (network : Network) (public_key : bytes) : AddressParts :=
  let payment_digest := public_key_digest network public_key in
  let visible_prefix := Network.visible_prefix network in
  let body := base56_encode_bytes payment_digest in
  let checksum := address_checksum visible_prefix body in
  let checksum_body := base56_encode_fixed_bytes checksum (Z.to_nat ADDRESS_CHECKSUM_BASE56_CHARS) in
  {| ap_network := network;
     ap_visible_prefix := visible_prefix;
     ap_base56_address := [visible_prefix] ++ body ++ checksum_body;
     ap_hashed_public_key := hashed_public_key_from_digest network payment_digest;
     ap_payment_digest := payment_digest;
     ap_checksum := checksum |}.

(* src: address.rs:198-201 address_from_public_key *)
Definition address_from_public_key (network : Network) (public_key : bytes) : bytes :=
  ap_base56_address (address_parts_from_public_key network public_key).

(** [None] is the panic of slicing inside a character. *)
(* src: address.rs:226-267 decode_base56_address *)
Definition decode_base56_address (address : bytes) : option (result AddressError (bytes * Network)) :=
  let checksum_chars := Z.to_nat ADDRESS_CHECKSUM_BASE56_CHARS in
  match address with
  | [] => Some (Err InvalidPrefix)
  | prefix :: tail =>
      if negb (is_visible_prefix prefix) then Some (Err InvalidPrefix)
      else if (length address <=? 1 + checksum_chars)%nat then Some (Err InvalidChecksum)
      else if negb (is_char_boundary address (length address - checksum_chars)) then None
      else
        let body := take (length tail - checksum_chars) tail in
        let checksum_body := drop (length address - checksum_chars) address in
        Some (
          network ← ok_or (network_of_prefix prefix) InvalidPrefix;
          let expected_checksum := address_checksum prefix body in
          let expected_checksum_body := base56_encode_fixed_bytes expected_checksum checksum_chars in
          _ ← reject_if (negb (bool_decide (checksum_body = expected_checksum_body))) InvalidChecksum;
          decoded ← base56_decode_to_bytes body (Z.to_nat ADDRESS_DIGEST_BYTES);
          Ok (decoded, network))
  end.
End hashes.

(** The value of a little-endian digit vector. *)
Fixpoint digits_value (base : Z) (digits : list Z) : Z :=
  match digits with
  | [] => 0
  | d :: digits => d + base * digits_value base digits
  end.

(** Digit vectors without superfluous leading digits. *)
Definition minimal_digits (base : Z) (digits : list Z) : Prop :=
  Forall (fun d => 0 <= d < base) digits /\
  (length digits = 1%nat \/
   exists n, length digits = S n /\ base ^ Z.of_nat n <= digits_value base digits).

(** ** Digit vectors *)

Section digits.
Context (base mul : Z) (Hbase : 54 <= base) (Hmul : 0 < mul < base * base).

Lemma digits_value_app l1 l2 :
  digits_value base (l1 ++ l2) = digits_value base l1 + base ^ Z.of_nat (length l1) * digits_value base l2.
Proof using.
  induction l1 as [|d l1 IH]; cbn [app digits_value length]; [lia|].
  rewrite IH, Nat2Z.inj_succ, Z.pow_succ_r by lia. lia.
Qed.

Lemma digits_value_bound l :
  Forall (fun d => 0 <= d < base) l -> 0 <= digits_value base l < base ^ Z.of_nat (length l).
Proof using Hbase.
  induction 1 as [|d l Hd Hl IH]; cbn [digits_value length]; [lia|].
  rewrite Nat2Z.inj_succ, Z.pow_succ_r by lia. nia.
Qed.

(** One pass multiplies and adds; the carry out never exceeds the multiplier. *)
Lemma scale_digits_spec digits carry ds c :
  Forall (fun d => 0 <= d < base) digits -> 0 <= carry < mul ->
  scale_digits base mul digits carry = (ds, c) ->
  length ds = length digits /\ Forall (fun d => 0 <= d < base) ds /\ 0 <= c < mul /\
  digits_value base ds + base ^ Z.of_nat (length digits) * c = mul * digits_value base digits + carry.
Proof using Hbase Hmul.
  intros H. revert carry ds c. induction H as [|d digits Hd H IH]; intros carry ds c Hc E.
  { cbn in E. simplify_eq. cbn. split_and!; try done; lia. }
  cbn [scale_digits] in E.
  assert (0 <= (d * mul + carry) / base < mul) as Hq.
  { split; [apply Z.div_pos; nia|]. apply Z.div_lt_upper_bound; nia. }
  destruct (scale_digits base mul digits _) as [ds' c'] eqn:E'. simplify_eq.
  destruct (IH _ _ _ Hq E') as (Hl & Hds & Hc' & Hv). cbn [length digits_value].
  rewrite Hl. split; [done|]. split.
  { constructor; [|done]. apply Z.mod_pos_bound. lia. }
  split; [done|]. rewrite Nat2Z.inj_succ, Z.pow_succ_r by lia.
  pose proof (Z.div_mod (d * mul + carry) base ltac:(lia)). nia.
Qed.

(** Two digits hold any carry below [base * base]. *)
Lemma push_carry_spec c :
  0 < c < base * base ->
  let p := push_carry 2 base c in
  p <> [] /\ Forall (fun d => 0 <= d < base) p /\ digits_value base p = c /\
  base ^ (Z.of_nat (length p) - 1) <= c.
Proof using Hbase.
  intros Hc. cbn [push_carry]. destruct (Z.ltb_spec 0 c); [|lia].
  assert (0 <= c mod base < base) as Hm by (apply Z.mod_pos_bound; lia).
  assert (0 <= c / base < base) as Hd
    by (split; [apply Z.div_pos; lia|apply Z.div_lt_upper_bound; lia]).
  pose proof (Z.div_mod c base ltac:(lia)) as Hdm.
  destruct (Z.ltb_spec 0 (c / base)).
  - rewrite (Z.mod_small (c / base)) by lia. cbn [length digits_value]. split; [done|].
    split; [by repeat constructor; lia|]. split; [lia|].
    change (Z.of_nat 2 - 1) with 1. rewrite Z.pow_1_r. nia.
  - cbn [length digits_value]. split; [done|].
    split; [by repeat constructor; lia|]. split; [lia|].
    change (Z.of_nat 1 - 1) with 0. rewrite Z.pow_0_r. lia.
Qed.

(** One step of either conversion: exact value, no leading zeros introduced. *)
Lemma digits_step_spec digits carry :
  minimal_digits base digits -> 0 <= carry < mul ->
  minimal_digits base (digits_step base mul digits carry) /\
  digits_value base (digits_step base mul digits carry) = mul * digits_value base digits + carry.
Proof using Hbase Hmul.
  intros [Hd Hmin] Hc. unfold digits_step.
  destruct (scale_digits base mul digits carry) as [ds c] eqn:E.
  destruct (scale_digits_spec _ _ _ _ Hd Hc E) as (Hl & Hds & Hcb & Hv).
  destruct (decide (c = 0)) as [->|Hnz].
  { cbn [push_carry Z.ltb Z.compare]. rewrite app_nil_r. rewrite Z.mul_0_r, Z.add_0_r in Hv.
    split; [|done]. split; [done|]. rewrite Hl. destruct Hmin as [?|(n & Hn & Hmin)]; [by left|].
    right. exists n. split; [done|]. nia. }
  destruct (push_carry_spec c ltac:(lia)) as (Hne & Hp & Hpv & Hpl).
  rewrite digits_value_app, Hpv, Hl. split; [|done]. split; [by apply Forall_app|]. right.
  exists (length digits + length (push_carry 2 base c) - 1)%nat.
  assert (0 < length (push_carry 2 base c))%nat by (destruct (push_carry 2 base c); [done|cbn; lia]).
  split; [rewrite length_app, Hl; lia|]. rewrite digits_value_app, Hpv, Hl.
  pose proof (digits_value_bound ds Hds) as Hb.
  replace (Z.of_nat (length digits + length (push_carry 2 base c) - 1))
    with (Z.of_nat (length digits) + (Z.of_nat (length (push_carry 2 base c)) - 1)) by lia.
  rewrite Z.pow_add_r by lia. pose proof (Z.pow_pos_nonneg base (Z.of_nat (length digits))). nia.
Qed.

Lemma minimal_zero : minimal_digits base [0].
Proof using Hbase. split; [repeat constructor; lia|by left]. Qed.

(** A minimal vector is no longer than its value needs. *)
Lemma minimal_length digits n :
  minimal_digits base digits -> (0 < n)%nat -> digits_value base digits < base ^ Z.of_nat n ->
  (length digits <= n)%nat.
Proof using Hbase.
  intros [_ [->|(m & -> & Hm)]] Hn Hv; [lia|].
  assert (Z.of_nat m < Z.of_nat n); [|lia].
  apply (Z.pow_lt_mono_r_iff base); lia.
Qed.
End digits.

Lemma base_eq : base = 54.
Proof. done. Qed.

(** ** The alphabet *)

Definition all_digits : list Z := seqZ 0 54.

Lemma base56_value_char d : 0 <= d < 54 -> base56_value (base56_char d) = Some d.
Proof.
  intros Hd. assert (Forall (fun d => base56_value (base56_char d) = Some d) all_digits) as H.
  { apply (bool_decide_unpack _). by vm_compute. }
  rewrite Forall_forall in H. apply H. by apply elem_of_seqZ.
Qed.

Lemma base56_value_range c d : base56_value c = Some d -> 0 <= d < 54.
Proof.
  unfold base56_value. intros (n & Hn & ->)%fmap_Some.
  assert (forall p (l : bytes) n, position p l = Some n -> (n < length l)%nat) as Hpos.
  { intros p l. induction l as [|x l IH]; intros m Hm; [done|]. cbn in *.
    destruct (p x); simplify_eq; [lia|]. apply fmap_Some in Hm as (k & Hk & ->).
    specialize (IH _ Hk). lia. }
  apply Hpos in Hn. change (length BASE56_ALPHABET) with 54%nat in Hn. lia.
Qed.

Lemma base56_char_ascii d : 0 <= d < 54 -> byte_to_Z (base56_char d) < 0x80.
Proof.
  intros Hd. assert (Forall (fun d => byte_to_Z (base56_char d) < 0x80) all_digits) as H.
  { apply (bool_decide_unpack _). by vm_compute. }
  rewrite Forall_forall in H. apply H. by apply elem_of_seqZ.
Qed.

(** ** Encoding and decoding in numbers *)

Definition encode_digits (data : bytes) : list Z :=
  foldl (fun digits b => digits_step base 256 digits (byte_to_Z b)) [0] data.

Lemma foldl_encode data digits :
  minimal_digits base digits ->
  let r := foldl (fun digits b => digits_step base 256 digits (byte_to_Z b)) digits data in
  minimal_digits base r /\
  digits_value base r = digits_value base digits * 256 ^ zlen data + be_decode data.
Proof.
  cbn zeta. revert digits. induction data as [|b data IH]; intros digits Hm.
  { cbn [foldl]. rewrite zlen_nil. split; [done|]. change (be_decode []) with 0. lia. }
  cbn [foldl]. pose proof (byte_range b).
  destruct (digits_step_spec base 256 ltac:(done) ltac:(done) _ (byte_to_Z b) Hm ltac:(lia)) as [Hm' Hv].
  destruct (IH _ Hm') as [Hm'' Hv']. split; [done|]. rewrite Hv', Hv, be_decode_cons, zlen_cons.
  rewrite Z.pow_add_r by (lia || apply zlen_nonneg). lia.
Qed.

Lemma encode_digits_spec data :
  minimal_digits base (encode_digits data) /\ digits_value base (encode_digits data) = be_decode data.
Proof.
  destruct (foldl_encode data [0] (minimal_zero base ltac:(done))) as [Hm Hv].
  split; [done|]. unfold encode_digits. rewrite Hv. cbn [digits_value]. lia.
Qed.

Lemma base56_encode_digits data :
  data <> [] -> base56_encode_bytes data = base56_char <$> reverse (encode_digits data).
Proof. intros. unfold base56_encode_bytes. by rewrite bool_decide_false. Qed.

(** Decoding a string of valid digits evaluates them most significant first. *)
Lemma base56_digits_of_spec digits acc :
  Forall (fun d => 0 <= d < 54) digits -> minimal_digits 256 acc ->
  exists r,
    try_fold (fun bs ch => value ← ok_or (base56_value ch) InvalidAlphabet;
                           Ok (digits_step 256 base bs value)) acc (base56_char <$> digits) = Ok r /\
    minimal_digits 256 r /\
    digits_value 256 r
      = digits_value 256 acc * base ^ zlen digits + digits_value base (reverse digits).
Proof.
  intros Hd. revert acc. induction Hd as [|d digits Hd Hds IH]; intros acc Hm.
  { eexists. split; [done|]. split; [done|]. rewrite zlen_nil. cbn. lia. }
  rewrite fmap_cons. cbn [try_fold]. rewrite base56_value_char by done. cbn [ok_or mbind result_bind].
  destruct (digits_step_spec 256 base ltac:(done) ltac:(done) acc d Hm ltac:(done)) as [Hm' Hv].
  destruct (IH _ Hm') as (r & Hr & Hmr & Hvr). exists r. split; [done|]. split; [done|].
  rewrite Hvr, Hv, reverse_cons, digits_value_app, zlen_cons, length_reverse by done.
  rewrite Z.pow_add_r by (lia || apply zlen_nonneg). cbn [digits_value]. unfold zlen. lia.
Qed.

Lemma map_byte_of_Z_decode l :
  Forall (fun d => 0 <= d < 256) l -> le_decode (byte_of_Z <$> l) = digits_value 256 l.
Proof.
  induction 1 as [|d l Hd Hl IH]; [done|]. rewrite fmap_cons. cbn [le_decode digits_value].
  rewrite IH, byte_to_of_Z, Z.mod_small by lia. done.
Qed.

(** Decoded bytes: the big-endian bytes of the string's value, when it fits. *)
Lemma base56_decode_digits digits n :
  digits <> [] -> (0 < n)%nat -> Forall (fun d => 0 <= d < 54) digits ->
  digits_value base digits < 256 ^ Z.of_nat n ->
  base56_decode_to_bytes (base56_char <$> reverse digits) n = Ok (be_bytes n (digits_value base digits)).
Proof.
  intros Hne Hn Hd Hv. unfold base56_decode_to_bytes.
  rewrite bool_decide_false by (intros E%(f_equal length);
    rewrite length_fmap, length_reverse in E; by destruct digits).
  cbn [reject_if mbind result_bind]. unfold base56_digits_of.
  destruct (base56_digits_of_spec (reverse digits) [0]) as (r & Hr & [Hrd Hrm] & Hrv);
    [by apply Forall_reverse|by apply minimal_zero|].
  rewrite reverse_involutive in Hrv. cbn [digits_value] in Hrv. rewrite Z.mul_0_l in Hrv.
  cbn [Z.mul Z.add] in Hrv. rewrite Hr. cbn [mbind result_bind].
  assert (length r <= n)%nat as Hlen.
  { apply (minimal_length 256 ltac:(done)); [by split|done|]. rewrite Hrv. done. }
  assert (forall x, length x = n -> be_decode x = digits_value base digits ->
            x = be_bytes n (digits_value base digits)) as Huniq.
  { intros x Hxl Hx. apply be_decode_inj; [by rewrite be_bytes_length|].
    rewrite Hx, be_decode_be_bytes; [done|]. unfold uint. rewrite <- pow256.
    split; [|done]. apply (digits_value_bound base); [done|].
    eapply Forall_impl; [done|]. intros d. rewrite base_eq. lia. }
  assert (be_decode (byte_of_Z <$> reverse r) = digits_value base digits) as Hdec.
  { rewrite fmap_reverse, be_decode_reverse, map_byte_of_Z_decode by done. done. }
  rewrite length_fmap, length_reverse.
  destruct (Nat.ltb_spec n (length r)); [lia|].
  destruct (Nat.ltb_spec (length r) n); f_equal; apply Huniq.
  - unfold zeros. rewrite length_app, length_replicate, length_fmap, length_reverse. lia.
  - rewrite be_decode_app, Hdec. enough (be_decode (zeros (n - length r)) = 0) as -> by lia.
    generalize (n - length r)%nat. intros k. induction k as [|k IH]; [done|].
    unfold zeros in *. cbn [replicate]. rewrite be_decode_cons, IH. by change (byte_to_Z x00) with 0.
  - rewrite length_fmap, length_reverse. lia.
  - done.
Qed.

(** ** Addresses *)

Lemma encode_digits_ne data : encode_digits data <> [].
Proof.
  destruct (encode_digits_spec data) as [[_ [Hl|(n & Hl & _)]] _]; intros E; rewrite E in Hl; done.
Qed.

Lemma encode_digits_range data : Forall (fun d => 0 <= d < 54) (encode_digits data).
Proof. exact (proj1 (proj1 (encode_digits_spec data))). Qed.

Lemma base56_decode_length s n d : base56_decode_to_bytes s n = Ok d -> length d = n.
Proof.
  unfold base56_decode_to_bytes. intros H. inv_ok.
  match type of H with context [byte_of_Z <$> ?l] => set (decoded := byte_of_Z <$> l) in * end.
  destruct (Nat.ltb_spec n (length decoded)); [done|].
  destruct (Nat.ltb_spec (length decoded) n); simplify_eq; [|lia].
  unfold zeros. rewrite length_app, length_replicate. lia.
Qed.

Lemma base56_round_trip data n :
  length data = n -> (0 < n)%nat -> base56_decode_to_bytes (base56_encode_bytes data) n = Ok data.
Proof.
  intros <- Hn. assert (data <> []) as Hne by (intros ->; cbn in Hn; lia).
  destruct (encode_digits_spec data) as [Hm Hv]. pose proof (be_decode_range data) as Hr.
  rewrite base56_encode_digits by done.
  rewrite base56_decode_digits; [|apply encode_digits_ne|done|apply encode_digits_range|rewrite Hv; apply Hr].
  f_equal. apply be_decode_inj; [apply be_bytes_length|].
  rewrite Hv. apply be_decode_be_bytes. unfold uint. by rewrite <- pow256.
Qed.

(** Four checksum bytes always print as six characters. *)
Lemma checksum_body_length cs :
  length cs = 4%nat -> length (base56_encode_fixed_bytes cs 6) = 6%nat.
Proof.
  intros Hl. assert (cs <> []) as Hne by (intros ->; done).
  destruct (encode_digits_spec cs) as [Hm Hv]. pose proof (be_decode_range cs) as Hr.
  assert (length (base56_encode_bytes cs) <= 6)%nat as Hlen.
  { rewrite base56_encode_digits, length_fmap, length_reverse by done.
    apply (minimal_length base ltac:(done)); [done|lia|]. rewrite Hv. unfold zlen in Hr.
    rewrite Hl in Hr. change (256 ^ Z.of_nat 4) with 4294967296 in Hr.
    change (base ^ Z.of_nat 6) with 24794911296. lia. }
  unfold base56_encode_fixed_bytes. destruct (Nat.leb_spec 6 (length (base56_encode_bytes cs))); [lia|].
  rewrite length_app, length_replicate. lia.
Qed.

Lemma base56_encode_ascii data : Forall (fun c => byte_to_Z c < 0x80) (base56_encode_bytes data).
Proof.
  unfold base56_encode_bytes. case_bool_decide.
  - repeat constructor.
  - apply Forall_fmap, Forall_reverse. eapply Forall_impl; [apply encode_digits_range|].
    intros d Hd. by apply base56_char_ascii.
Qed.
Lemma base56_fixed_ascii data n : Forall (fun c => byte_to_Z c < 0x80) (base56_encode_fixed_bytes data n).
Proof.
  unfold base56_encode_fixed_bytes. destruct (_ <=? _)%nat; [apply base56_encode_ascii|].
  apply Forall_app. split; [|apply base56_encode_ascii]. by apply Forall_replicate, base56_char_ascii.
Qed.

Lemma ascii_boundary s i :
  Forall (fun c => byte_to_Z c < 0x80) s -> (i <= length s)%nat -> is_char_boundary s i = true.
Proof.
  intros Hs Hi. unfold is_char_boundary. destruct (s !! i) as [b|] eqn:E.
  - rewrite Forall_forall in Hs. specialize (Hs b (list_elem_of_lookup_2 _ _ _ E)).
    destruct (Z.ltb_spec (byte_to_Z b) 0x80); [done|lia].
  - apply lookup_ge_None in E. apply Nat.eqb_eq. lia.
Qed.

Lemma visible_prefix_facts n :
  is_visible_prefix (Network.visible_prefix n) = true /\
  network_of_prefix (Network.visible_prefix n) = Some n /\ byte_to_Z (Network.visible_prefix n) < 0x80.
Proof. by destruct n. Qed.

Section addresses.
Context `{Hs : Sha3, Laws : !Sha3Laws Hs}.

Lemma address_checksum_length p body : length (address_checksum p body) = 4%nat.
Proof using Laws. unfold address_checksum. rewrite length_take, sha3_256_length. done. Qed.

(** A decoder run on a prefix, a body and six characters that pass the checks. *)
Lemma decode_address_run p body cs :
  is_visible_prefix p = true -> body <> [] -> length cs = 6%nat ->
  is_char_boundary (p :: body ++ cs) (S (length body)) = true ->
  decode_base56_address (p :: body ++ cs) =
    Some (network ← ok_or (network_of_prefix p) InvalidPrefix;
          _ ← reject_if (negb (bool_decide (cs = base56_encode_fixed_bytes (address_checksum p body) 6)))
                InvalidChecksum;
          decoded ← base56_decode_to_bytes body 32;
          Ok (decoded, network)).
Proof using.
  intros Hp Hne Hl Hb. unfold decode_base56_address. rewrite Hp. cbn [negb].
  change (Z.to_nat ADDRESS_CHECKSUM_BASE56_CHARS) with 6%nat.
  change (Z.to_nat ADDRESS_DIGEST_BYTES) with 32%nat.
  assert (0 < length body)%nat by (destruct body; [done|cbn; lia]).
  destruct (Nat.leb_spec (length (p :: body ++ cs)) (1 + 6)) as [Hlen|_].
  { cbn [length] in Hlen. rewrite length_app in Hlen. lia. }
  replace (length (p :: body ++ cs) - 6)%nat with (S (length body))
    by (cbn [length]; rewrite length_app; lia).
  rewrite Hb. cbn [negb]. replace (length (body ++ cs) - 6)%nat with (length body)
    by (rewrite length_app; lia).
  rewrite take_app_length. cbn [drop]. by rewrite drop_app_length.
Qed.

(** An address decodes to the digest and network it was made from, for every 32-byte
    payment digest and every network. *)
Theorem address_round_trip network digest :
  length digest = 32%nat ->
  decode_base56_address (encode_base56_address network digest) = Some (Ok (digest, network)).
Proof using Laws.
  intros Hl. unfold encode_base56_address.
  destruct (visible_prefix_facts network) as (Hp & Hn & Ha).
  change (Z.to_nat ADDRESS_CHECKSUM_BASE56_CHARS) with 6%nat.
  set (body := base56_encode_bytes digest).
  set (cs := base56_encode_fixed_bytes (address_checksum (Network.visible_prefix network) body) 6).
  assert (length cs = 6%nat) as Hcs by (apply checksum_body_length, address_checksum_length).
  rewrite decode_address_run; [|done| |done|].
  - rewrite Hn, bool_decide_true by done. cbn [ok_or negb reject_if mbind result_bind].
    unfold body. by rewrite base56_round_trip by done || lia.
  - intros E. pose proof (encode_digits_ne digest) as Hne. apply Hne. unfold body in E.
    rewrite base56_encode_digits in E by (intros ->; done). apply (f_equal length) in E.
    rewrite length_fmap, length_reverse in E. by destruct (encode_digits digest).
  - apply ascii_boundary; [|cbn [length]; rewrite length_app; lia].
    constructor; [done|]. apply Forall_app. split; [apply base56_encode_ascii|apply base56_fixed_ascii].
Qed.

(** A decoded address carries a whole digest. *)
Lemma decoded_digest_length `{Sha3} address digest network :
  decode_base56_address address = Some (Ok (digest, network)) -> zlen digest = ADDRESS_DIGEST_BYTES.
Proof.
  unfold decode_base56_address. destruct address as [|prefix tail]; [done|].
  destruct (negb _); [done|]. destruct (_ <=? _)%nat; [done|]. destruct (negb _); [done|].
  intros Hrun. injection Hrun as Hrun. inv_ok.
  match goal with Hd : base56_decode_to_bytes _ _ = Ok _ |- _ => apply base56_decode_length in Hd end.
  unfold zlen. by match goal with Hl : length digest = _ |- _ => rewrite Hl end.
Qed.

(** An accepted address has the prefix of the network it is decoded for, a checksum
    over its own prefix and body, and a 32-byte digest, so no address is accepted for two
    networks and a change of prefix alone is rejected unless the checksums agree. *)
Theorem decoded_address_checked address digest network :
  decode_base56_address address = Some (Ok (digest, network)) ->
  length digest = 32%nat /\
  exists body, let p := Network.visible_prefix network in
    address = p :: body ++ base56_encode_fixed_bytes (address_checksum p body) 6 /\
    base56_decode_to_bytes body 32 = Ok digest.
Proof using Laws.
  destruct address as [|p tail]; [done|]. intros H.
  assert (is_visible_prefix p = true) as Hp.
  { unfold decode_base56_address in H. by destruct (is_visible_prefix p). }
  assert (7 < length (p :: tail))%nat as Hlen.
  { unfold decode_base56_address in H. rewrite Hp in H. cbn [negb] in H.
    change (1 + Z.to_nat ADDRESS_CHECKSUM_BASE56_CHARS)%nat with 7%nat in H.
    by destruct (Nat.leb_spec (length (p :: tail)) 7). }
  cbn [length] in Hlen. set (k := (length tail - 6)%nat).
  assert (tail = take k tail ++ drop k tail) as Et by by rewrite take_drop.
  assert (is_char_boundary (p :: tail) (S k) = true) as Hb.
  { unfold decode_base56_address in H. rewrite Hp in H. cbn [negb] in H.
    change (Z.to_nat ADDRESS_CHECKSUM_BASE56_CHARS) with 6%nat in H.
    destruct (Nat.leb_spec (length (p :: tail)) (1 + 6)); [done|].
    replace (length (p :: tail) - 6)%nat with (S k) in H by (cbn [length]; lia).
    by destruct (is_char_boundary (p :: tail) (S k)). }
  assert (length (take k tail) = k) as Hk by (rewrite length_take; lia).
  rewrite Et in H, Hb. rewrite decode_address_run in H.
  - injection H as H. inv_ok. bool_to_prop.
    match goal with H : network_of_prefix p = Some ?n |- _ =>
      assert (p = Network.visible_prefix n) as Ep by (destruct p; try done; by injection H as <-) end.
    split; [|exists (take k tail); rewrite <- Ep; split; [congruence|done]].
    by eapply base56_decode_length.
  - done.
  - intros E. rewrite E in Hk. cbn in Hk. lia.
  - rewrite length_drop. lia.
  - by rewrite Hk.
Qed.
End addresses.

Lemma strip_prefix_app p s : strip_prefix p (p ++ s) = Some s.
Proof. induction p as [|c p IH]; [by destruct s|]. cbn. by rewrite decide_True. Qed.

Lemma hex_encode_length bs : length (hex_encode bs) = (2 * length bs)%nat.
Proof.
  unfold hex_encode. induction bs as [|b bs IH]; [done|].
  change (length ((b :: bs) ≫= (fun b => [hex_char (byte_to_Z b / 16); hex_char (byte_to_Z b mod 16)])))
    with (S (S (length (bs ≫= (fun b => [hex_char (byte_to_Z b / 16); hex_char (byte_to_Z b mod 16)]))))).
  rewrite IH. cbn [length]. lia.
Qed.

(** The internal hashed-public-key form never decodes: [hashed_public_key_from_digest]
    prints 64 hexadecimal digits and [internal_hpk_bytes] demands 96, so the decoder
    rejects every string the encoder produces. *)
Theorem internal_hpk_never_decodes network digest :
  length digest = 32%nat ->
  internal_hpk_bytes network (hashed_public_key_from_digest network digest) = None.
Proof.
  intros Hl. unfold internal_hpk_bytes, hashed_public_key_from_digest.
  rewrite strip_prefix_app. cbn [mbind option_bind]. unfold zlen.
  by rewrite hex_encode_length, Hl.
Qed.

(** Decoding panics on some non-ASCII input: a seven-byte tail that starts with the
    continuation byte of a two-byte character puts the checksum slice inside it. *)
Theorem decode_address_panics `{Hs : Sha3} (rest : bytes) :
  length rest = 5%nat -> decode_base56_address ([x41; xc3; xa9] ++ rest) = None.
Proof.
  intros Hl. by do 6 (destruct rest as [|? rest]; try done).
Qed.

(** *** Witnesses *)

Lemma address_round_trip_witness :
  decode_base56_address (H:=Keccak.sha3_inst)
    (encode_base56_address (H:=Keccak.sha3_inst) Testnet (replicate 32 x07))
  = Some (Ok (replicate 32 x07, Testnet)).
Proof.
  by apply (address_round_trip (Hs:=Keccak.sha3_inst) (Laws:=Keccak.sha3_laws)).
Defined.

Lemma decoded_address_checked_witness :
  exists body, let p := Network.visible_prefix Testnet in
    encode_base56_address (H:=Keccak.sha3_inst) Testnet (replicate 32 x07)
      = p :: body ++ base56_encode_fixed_bytes (address_checksum (H:=Keccak.sha3_inst) p body) 6 /\
    base56_decode_to_bytes body 32 = Ok (replicate 32 x07).
Proof.
  apply (decoded_address_checked (Hs:=Keccak.sha3_inst) (Laws:=Keccak.sha3_laws)). by vm_compute.
Defined.

Lemma internal_hpk_never_decodes_witness :
  internal_hpk_bytes Mainnet (hashed_public_key_from_digest Mainnet (zeros 32)) = None.
Proof. by apply (internal_hpk_never_decodes Mainnet (zeros 32)). Defined.

Lemma decode_address_panics_witness :
  decode_base56_address (H:=Keccak.sha3_inst) ([x41; xc3; xa9] ++ [x32; x33; x34; x35; x36]) = None.
Proof. by apply (decode_address_panics (Hs:=Keccak.sha3_inst)). Defined.
