(* ===== verification/Genesis.v ===== *)
(** * Genesis blocks

    crates/atho-core/src/genesis.rs: the hard-coded genesis profile of each
    network, the construction of the genesis state with its assertions (a
    failed [assert!] is [None]) and the profile regeneration loop. *)
From stdpp Require Import options.
From S2P Require Import Prelude Bytes Constants Crypto Keccak Network Rules Subsidy Transaction Block.
From S2P Require Import Pow Address.

(* src: genesis.rs:21-21 MAINNET_GENESIS_REWARD_ADDRESS *)
Definition MAINNET_GENESIS_REWARD_ADDRESS : bytes := Eval vm_compute in str_bytes "A62s8JWk8J7NmcvZkK9Sssf7nNZxVEQ7Yy7RFWSPkACNFwB3t7Ty".
(* src: genesis.rs:22-23 MAINNET_GENESIS_REWARD_SCRIPT *)
Definition MAINNET_GENESIS_REWARD_SCRIPT : bytes := Eval vm_compute in hex "9529a6358612b193cc100b4150f46235505a948caacf331b15a171993ad3124c".
(* src: genesis.rs:24-24 MAINNET_GENESIS_BLOCK_VERSION *)
Definition MAINNET_GENESIS_BLOCK_VERSION : Z := BLOCK_VERSION_V1.
(* src: genesis.rs:25-25 MAINNET_GENESIS_TX_VERSION *)
Definition MAINNET_GENESIS_TX_VERSION : Z := TRANSACTION_VERSION_V1.
(* src: genesis.rs:26-26 MAINNET_GENESIS_LOCK_TIME *)
Definition MAINNET_GENESIS_LOCK_TIME : Z := 0.
(* src: genesis.rs:27-27 MAINNET_GENESIS_TIMESTAMP *)
Definition MAINNET_GENESIS_TIMESTAMP : Z := 1773360488.
(* src: genesis.rs:28-28 MAINNET_GENESIS_TARGET *)
Definition MAINNET_GENESIS_TARGET : bytes := genesis_target DIFFICULTY_PROFILE.
(* src: genesis.rs:29-29 MAINNET_GENESIS_NONCE *)
Definition MAINNET_GENESIS_NONCE : Z := 9135.
(* src: genesis.rs:30-31 MAINNET_GENESIS_COINBASE_TXID *)
Definition MAINNET_GENESIS_COINBASE_TXID : bytes := Eval vm_compute in hex "93a63cf79ede4332f7f0ffb3428fff05b17e0b944dbd0b03e37f72c5efb52ef5bd15bfea9c816fdaefc7f1f8efde146d".
(* src: genesis.rs:32-33 MAINNET_GENESIS_BLOCK_HASH *)
Definition MAINNET_GENESIS_BLOCK_HASH : bytes := Eval vm_compute in hex "000071597c30a18003dc29fd927ec97b361a4fdb63a2bb2cd36e9e976f365f5a23273ed0570f400e3ea2531bb25fed26".
(* src: genesis.rs:35-35 TESTNET_GENESIS_REWARD_ADDRESS *)
Definition TESTNET_GENESIS_REWARD_ADDRESS : bytes := Eval vm_compute in str_bytes "TwTmNYk9t7UX8jZGNUpwC5WWxCdekJHa3ehgpJY8Xznec56mTYY".
(* src: genesis.rs:36-37 TESTNET_GENESIS_REWARD_SCRIPT *)
Definition TESTNET_GENESIS_REWARD_SCRIPT : bytes := Eval vm_compute in hex "22b5382e49b9a2dafb0d2c7b1c2afe643a3c14a23f7a90e4e5dce0162b754623".
(* src: genesis.rs:38-38 TESTNET_GENESIS_BLOCK_VERSION *)
Definition TESTNET_GENESIS_BLOCK_VERSION : Z := BLOCK_VERSION_V1.
(* src: genesis.rs:39-39 TESTNET_GENESIS_TX_VERSION *)
Definition TESTNET_GENESIS_TX_VERSION : Z := TRANSACTION_VERSION_V1.
(* src: genesis.rs:40-40 TESTNET_GENESIS_LOCK_TIME *)
Definition TESTNET_GENESIS_LOCK_TIME : Z := 0.
(* src: genesis.rs:41-41 TESTNET_GENESIS_TIMESTAMP *)
Definition TESTNET_GENESIS_TIMESTAMP : Z := 1773360489.
(* src: genesis.rs:42-42 TESTNET_GENESIS_TARGET *)
Definition TESTNET_GENESIS_TARGET : bytes := genesis_target DIFFICULTY_PROFILE.
(* src: genesis.rs:43-43 TESTNET_GENESIS_NONCE *)
Definition TESTNET_GENESIS_NONCE : Z := 124947.
(* src: genesis.rs:44-45 TESTNET_GENESIS_COINBASE_TXID *)
Definition TESTNET_GENESIS_COINBASE_TXID : bytes := Eval vm_compute in hex "a9891254d52b0e84048c4541c5281944588c780e608b2fac3f75d99e93d21db24d7dc3ddf73a22485793d6bbf5c7b14f".
(* src: genesis.rs:46-47 TESTNET_GENESIS_BLOCK_HASH *)
Definition TESTNET_GENESIS_BLOCK_HASH : bytes := Eval vm_compute in hex "00000e524958487f70cfe350a65093d40e70bd15e2611451995c59c0d5b126e1aea7f51c4b099ea2393e9cfff45f9eb9".
(* src: genesis.rs:49-49 REGNET_GENESIS_REWARD_ADDRESS *)
Definition REGNET_GENESIS_REWARD_ADDRESS : bytes := Eval vm_compute in str_bytes "RwTmNYk9t7UX8jZGNUpwC5WWxCdekJHa3ehgpJY8Xznec7JEMkX".
(* src: genesis.rs:50-50 REGNET_GENESIS_REWARD_SCRIPT *)
Definition REGNET_GENESIS_REWARD_SCRIPT : bytes := TESTNET_GENESIS_REWARD_SCRIPT.
(* src: genesis.rs:51-51 REGNET_GENESIS_BLOCK_VERSION *)
Definition REGNET_GENESIS_BLOCK_VERSION : Z := BLOCK_VERSION_V1.
(* src: genesis.rs:52-52 REGNET_GENESIS_TX_VERSION *)
Definition REGNET_GENESIS_TX_VERSION : Z := TRANSACTION_VERSION_V1.
(* src: genesis.rs:53-53 REGNET_GENESIS_LOCK_TIME *)
Definition REGNET_GENESIS_LOCK_TIME : Z := 0.
(* src: genesis.rs:54-54 REGNET_GENESIS_TIMESTAMP *)
Definition REGNET_GENESIS_TIMESTAMP : Z := TESTNET_GENESIS_TIMESTAMP.
(* src: genesis.rs:55-55 REGNET_GENESIS_TARGET *)
Definition REGNET_GENESIS_TARGET : bytes := genesis_target DIFFICULTY_PROFILE.
(* src: genesis.rs:56-56 REGNET_GENESIS_NONCE *)
Definition REGNET_GENESIS_NONCE : Z := 64646.
(* src: genesis.rs:57-57 REGNET_GENESIS_COINBASE_TXID *)
Definition REGNET_GENESIS_COINBASE_TXID : bytes := TESTNET_GENESIS_COINBASE_TXID.
(* src: genesis.rs:58-59 REGNET_GENESIS_BLOCK_HASH *)
Definition REGNET_GENESIS_BLOCK_HASH : bytes := Eval vm_compute in hex "00009210aef53e3df4d37945e7b8c8c862ed5c29fc36b0f60594115cad4603c42c1400825154b15f21518157e53566e8".
(* src: genesis.rs:61-62 PRUNETEST_GENESIS_REWARD_ADDRESS *)
Definition PRUNETEST_GENESIS_REWARD_ADDRESS : bytes := Eval vm_compute in str_bytes "PwTmNYk9t7UX8jZGNUpwC5WWxCdekJHa3ehgpJY8Xznec8BerQp".
(* src: genesis.rs:63-63 PRUNETEST_GENESIS_REWARD_SCRIPT *)
Definition PRUNETEST_GENESIS_REWARD_SCRIPT : bytes := TESTNET_GENESIS_REWARD_SCRIPT.
(* src: genesis.rs:64-64 PRUNETEST_GENESIS_BLOCK_VERSION *)
Definition PRUNETEST_GENESIS_BLOCK_VERSION : Z := BLOCK_VERSION_V1.
(* src: genesis.rs:65-65 PRUNETEST_GENESIS_TX_VERSION *)
Definition PRUNETEST_GENESIS_TX_VERSION : Z := TRANSACTION_VERSION_V1.
(* src: genesis.rs:66-66 PRUNETEST_GENESIS_LOCK_TIME *)
Definition PRUNETEST_GENESIS_LOCK_TIME : Z := 0.
(* src: genesis.rs:67-67 PRUNETEST_GENESIS_TIMESTAMP *)
Definition PRUNETEST_GENESIS_TIMESTAMP : Z := 1773360490.
(* src: genesis.rs:68-68 PRUNETEST_GENESIS_TARGET *)
Definition PRUNETEST_GENESIS_TARGET : bytes := PRUNETEST_INITIAL_TARGET.
(* src: genesis.rs:69-69 PRUNETEST_GENESIS_NONCE *)
Definition PRUNETEST_GENESIS_NONCE : Z := 22299.
(* src: genesis.rs:70-70 PRUNETEST_GENESIS_COINBASE_TXID *)
Definition PRUNETEST_GENESIS_COINBASE_TXID : bytes := TESTNET_GENESIS_COINBASE_TXID.
(* src: genesis.rs:71-72 PRUNETEST_GENESIS_BLOCK_HASH *)
Definition PRUNETEST_GENESIS_BLOCK_HASH : bytes := Eval vm_compute in hex "000076ce84de168b72cbcb309ade2a0b0e4db57a8db8ee8b3fb1d324349a27c45f1040de1ba5d37deba74d0af4d0f7c0".

(* src: genesis.rs:74-83 GenesisState *)
Record GenesisState := {
  gs_network : Network;
  gs_block : Block;
  gs_block_hash : bytes;
  gs_coinbase_txid : bytes;
  gs_reward_address : bytes;
  gs_utxo_flag : string;
}.

(* src: genesis.rs:85-103 GenesisProfile *)
Record GenesisProfile := {
  gp_network : Network;
  gp_reward_address : bytes;
  gp_reward_script : bytes;
  gp_founders_hash_sha3_384 : bytes;
  gp_founders_hash_sha3_512 : bytes;
  gp_block_version : Z;
  gp_tx_version : Z;
  gp_lock_time : Z;
  gp_timestamp : Z;
  gp_target : bytes;
  gp_coinbase_txid : bytes;
  gp_merkle_root : bytes;
  gp_witness_root : bytes;
  gp_nonce : Z;
  gp_block_hash : bytes;
}.

(* src: genesis.rs:334-347 GenesisParts *)
Record GenesisParts := {
  part_network : Network;
  part_reward_address : bytes;
  part_reward_script : bytes;
  part_block_version : Z;
  part_tx_version : Z;
  part_lock_time : Z;
  part_timestamp : Z;
  part_nonce : Z;
  part_target : bytes;
  part_expected_coinbase_txid : bytes;
  part_expected_block_hash : bytes;
  part_utxo_flag : string;
}.

(** [assert!]. *)
Definition assert_that (b : bool) : option unit := if b then Some tt else None.

(** The coinbase both constructions build. *)
Definition genesis_coinbase (network : Network) (tx_version lock_time : Z) (reward_script : bytes) :
    Transaction :=
  {| version := tx_version;
     inputs := [];
     outputs := [{| value_atoms := genesis_coinbase_atoms_for_network network;
                    locking_script := reward_script |}];
     lock_time := lock_time;
     witness := [];
     tx_pow_nonce := 0;
     tx_pow_bits := 0 |}.

Section hashes.
Context `{Sha3}.

Definition genesis_header (network : Network) (block_version : Z) (txs : list Transaction)
    (time : Z) (target : bytes) (nonce : Z) : BlockHeader :=
  {| h_version := block_version;
     network_id := network;
     height := 0;
     previous_block_hash := zeros 48;
     h_merkle_root := merkle_root txs;
     h_witness_root := witness_root txs;
     founders_hash_sha3_384 := BlockHeader.consensus_founders_hash_sha3_384;
     founders_hash_sha3_512 := BlockHeader.consensus_founders_hash_sha3_512;
     timestamp := time;
     difficulty_target_or_bits := target;
     nonce := nonce |}.

(* src: genesis.rs:349-428 genesis_state_from_parts *)
Definition genesis_state_from_parts (p : GenesisParts) : option GenesisState :=
  let coinbase :=
    genesis_coinbase (part_network p) (part_tx_version p) (part_lock_time p) (part_reward_script p) in
  let coinbase_txid := Transaction.txid coinbase in
  _ ← assert_that (bool_decide (coinbase_txid = part_expected_coinbase_txid p));
  _ ← assert_that (bool_decide (locking_script <$> head (outputs coinbase)
                                = Some (part_reward_script p)));
  let transactions := [coinbase] in
  let header :=
    genesis_header (part_network p) (part_block_version p) transactions (part_timestamp p)
      (part_target p) (part_nonce p) in
  let block := {| header := header; transactions := transactions; witnesses := ∅;
                  fees_total_atoms := 0; fees_miner_atoms := 0 |} in
  _ ← assert_that (version coinbase =? part_tx_version p);
  _ ← assert_that (lock_time coinbase =? part_lock_time p);
  _ ← assert_that (h_version header =? part_block_version p);
  _ ← assert_that (bool_decide (network_id header = part_network p));
  _ ← assert_that (height header =? 0);
  _ ← assert_that (bool_decide (h_merkle_root header = Block.compute_merkle_root block));
  _ ← assert_that (bool_decide (h_witness_root header = Block.compute_witness_root block));
  let block_hash := BlockHeader.block_hash header in
  _ ← assert_that (bool_decide (block_hash = part_expected_block_hash p));
  _ ← assert_that (meets_target block_hash (difficulty_target_or_bits header));
  Some {| gs_network := part_network p;
          gs_block := block;
          gs_block_hash := block_hash;
          gs_coinbase_txid := coinbase_txid;
          gs_reward_address := part_reward_address p;
          gs_utxo_flag := part_utxo_flag p |}.
End hashes.

(* src: genesis.rs:246-266 mainnet *)
Definition mainnet_parts : GenesisParts := {|
  part_network := Mainnet;
  part_reward_address := MAINNET_GENESIS_REWARD_ADDRESS;
  part_reward_script := MAINNET_GENESIS_REWARD_SCRIPT;
  part_block_version := MAINNET_GENESIS_BLOCK_VERSION;
  part_tx_version := MAINNET_GENESIS_TX_VERSION;
  part_lock_time := MAINNET_GENESIS_LOCK_TIME;
  part_timestamp := MAINNET_GENESIS_TIMESTAMP;
  part_nonce := MAINNET_GENESIS_NONCE;
  part_target := MAINNET_GENESIS_TARGET;
  part_expected_coinbase_txid := MAINNET_GENESIS_COINBASE_TXID;
  part_expected_block_hash := MAINNET_GENESIS_BLOCK_HASH;
  part_utxo_flag := Network.utxo_flag Mainnet;
|}.
(* src: genesis.rs:268-288 testnet *)
Definition testnet_parts : GenesisParts := {|
  part_network := Testnet;
  part_reward_address := TESTNET_GENESIS_REWARD_ADDRESS;
  part_reward_script := TESTNET_GENESIS_REWARD_SCRIPT;
  part_block_version := TESTNET_GENESIS_BLOCK_VERSION;
  part_tx_version := TESTNET_GENESIS_TX_VERSION;
  part_lock_time := TESTNET_GENESIS_LOCK_TIME;
  part_timestamp := TESTNET_GENESIS_TIMESTAMP;
  part_nonce := TESTNET_GENESIS_NONCE;
  part_target := TESTNET_GENESIS_TARGET;
  part_expected_coinbase_txid := TESTNET_GENESIS_COINBASE_TXID;
  part_expected_block_hash := TESTNET_GENESIS_BLOCK_HASH;
  part_utxo_flag := Network.utxo_flag Testnet;
|}.
(* src: genesis.rs:290-310 regnet *)
Definition regnet_parts : GenesisParts := {|
  part_network := Regnet;
  part_reward_address := REGNET_GENESIS_REWARD_ADDRESS;
  part_reward_script := REGNET_GENESIS_REWARD_SCRIPT;
  part_block_version := REGNET_GENESIS_BLOCK_VERSION;
  part_tx_version := REGNET_GENESIS_TX_VERSION;
  part_lock_time := REGNET_GENESIS_LOCK_TIME;
  part_timestamp := REGNET_GENESIS_TIMESTAMP;
  part_nonce := REGNET_GENESIS_NONCE;
  part_target := REGNET_GENESIS_TARGET;
  part_expected_coinbase_txid := REGNET_GENESIS_COINBASE_TXID;
  part_expected_block_hash := REGNET_GENESIS_BLOCK_HASH;
  part_utxo_flag := Network.utxo_flag Regnet;
|}.
(* src: genesis.rs:312-332 prunetest *)
Definition prunetest_parts : GenesisParts := {|
  part_network := Prunetest;
  part_reward_address := PRUNETEST_GENESIS_REWARD_ADDRESS;
  part_reward_script := PRUNETEST_GENESIS_REWARD_SCRIPT;
  part_block_version := PRUNETEST_GENESIS_BLOCK_VERSION;
  part_tx_version := PRUNETEST_GENESIS_TX_VERSION;
  part_lock_time := PRUNETEST_GENESIS_LOCK_TIME;
  part_timestamp := PRUNETEST_GENESIS_TIMESTAMP;
  part_nonce := PRUNETEST_GENESIS_NONCE;
  part_target := PRUNETEST_GENESIS_TARGET;
  part_expected_coinbase_txid := PRUNETEST_GENESIS_COINBASE_TXID;
  part_expected_block_hash := PRUNETEST_GENESIS_BLOCK_HASH;
  part_utxo_flag := Network.utxo_flag Prunetest;
|}.

(** The static profile [regenerate_genesis_profile] selects. *)
(* src: genesis.rs:150-188 regenerate_genesis_profile (profile match) *)
Definition genesis_parts (network : Network) : GenesisParts :=
  match network with
  | Mainnet => mainnet_parts
  | Testnet => testnet_parts
  | Regnet => regnet_parts
  | Prunetest => prunetest_parts
  end.

Section hashes.
Context `{Sha3}.

(* src: genesis.rs:105-113 genesis_state *)
Definition genesis_state (network : Network) : option GenesisState :=
  genesis_state_from_parts (genesis_parts network).

(** A failed assertion has stopped the program before these return. *)
(* src: genesis.rs:115-118 genesis_block *)
Definition genesis_block (network : Network) : option Block := gs_block <$> genesis_state network.
(* src: genesis.rs:120-123 genesis_hash *)
Definition genesis_hash (network : Network) : bytes :=
  default [] (gs_block_hash <$> genesis_state network).
(* src: genesis.rs:125-128 genesis_coinbase_txid *)
Definition genesis_coinbase_txid (network : Network) : bytes :=
  default [] (gs_coinbase_txid <$> genesis_state network).
(* src: genesis.rs:130-133 genesis_reward_address *)
Definition genesis_reward_address (network : Network) : bytes :=
  default [] (gs_reward_address <$> genesis_state network).
(* src: genesis.rs:135-138 genesis_utxo_flag *)
Definition genesis_utxo_flag (network : Network) : string :=
  default "" (gs_utxo_flag <$> genesis_state network).
(* src: genesis.rs:140-143 genesis_utxo_value *)
Definition genesis_utxo_value (network : Network) : Z := genesis_coinbase_atoms_for_network network.

(** The header with a candidate nonce. *)
Definition with_nonce (h : BlockHeader) (n : Z) : BlockHeader :=
  {| h_version := h_version h; network_id := network_id h; height := height h;
     previous_block_hash := previous_block_hash h; h_merkle_root := h_merkle_root h;
     h_witness_root := h_witness_root h; founders_hash_sha3_384 := founders_hash_sha3_384 h;
     founders_hash_sha3_512 := founders_hash_sha3_512 h; timestamp := timestamp h;
     difficulty_target_or_bits := difficulty_target_or_bits h; nonce := n |}.

(* src: genesis.rs:145-244 regenerate_genesis_profile *)
Definition regenerate_genesis_profile (fuel : nat) (network : Network) : option GenesisProfile :=
  let p := genesis_parts network in
  let coinbase := genesis_coinbase network (part_tx_version p) (part_lock_time p) (part_reward_script p) in
  let header := genesis_header network (part_block_version p) [coinbase] (part_timestamp p)
                  (part_target p) 0 in
  let solved n := meets_target (BlockHeader.block_hash (with_nonce header n)) (part_target p) in
  n ← search_nonce fuel solved 0;
  Some {| gp_network := network;
          gp_reward_address := part_reward_address p;
          gp_reward_script := part_reward_script p;
          gp_founders_hash_sha3_384 := founders_hash_sha3_384 header;
          gp_founders_hash_sha3_512 := founders_hash_sha3_512 header;
          gp_block_version := part_block_version p;
          gp_tx_version := part_tx_version p;
          gp_lock_time := part_lock_time p;
          gp_timestamp := part_timestamp p;
          gp_target := part_target p;
          gp_coinbase_txid := Transaction.txid coinbase;
          gp_merkle_root := merkle_root [coinbase];
          gp_witness_root := witness_root [coinbase];
          gp_nonce := n;
          gp_block_hash := BlockHeader.block_hash (with_nonce header n) |}.
End hashes.

(** The assertions of all four networks hold, so the accessors above return. *)
Class GenesisReady (H : Sha3) : Prop := genesis_ready network : is_Some (genesis_state network).

(** ** What the assertions establish *)

Lemma assert_that_Some b u : assert_that b = Some u <-> b = true.
Proof. unfold assert_that. destruct b, u; naive_solver. Qed.

Section ready.
Context `{Hs : Sha3}.

Lemma genesis_state_from_parts_Some p s :
  genesis_state_from_parts p = Some s ->
  gs_network s = part_network p /\
  gs_block_hash s = part_expected_block_hash p /\
  gs_block_hash s = BlockHeader.block_hash (header (gs_block s)) /\
  gs_coinbase_txid s = part_expected_coinbase_txid p /\
  meets_target (gs_block_hash s) (part_target p) = true /\
  header (gs_block s)
    = genesis_header (part_network p) (part_block_version p) (transactions (gs_block s))
        (part_timestamp p) (part_target p) (part_nonce p) /\
  transactions (gs_block s)
    = [genesis_coinbase (part_network p) (part_tx_version p) (part_lock_time p) (part_reward_script p)].
Proof using.
  unfold genesis_state_from_parts. intros H.
  repeat (let Ha := fresh "Ha" in apply bind_Some in H as ([] & Ha & H); apply assert_that_Some in Ha).
  bool_to_prop. simplify_eq. cbn [gs_network gs_block_hash gs_block gs_coinbase_txid]. by split_and!.
Qed.

Lemma genesis_hash_expected network :
  is_Some (genesis_state network) ->
  genesis_hash network = part_expected_block_hash (genesis_parts network).
Proof using.
  intros [s E]. unfold genesis_hash. rewrite E. cbn.
  by apply genesis_state_from_parts_Some in E as (_ & -> & _).
Qed.

Lemma genesis_hash_length `{Hr : !GenesisReady Hs} network : length (genesis_hash network) = 48%nat.
Proof using. rewrite genesis_hash_expected by apply genesis_ready. by destruct network. Qed.

Lemma genesis_hash_inj `{Hr : !GenesisReady Hs} n m : genesis_hash n = genesis_hash m -> n = m.
Proof using.
  rewrite !genesis_hash_expected by apply genesis_ready.
  destruct n, m; first [done|vm_compute; intros E; discriminate E].
Qed.
End ready.

Lemma keccak_genesis_ready : GenesisReady Keccak.sha3_inst.
Proof.
  unfold GenesisReady. intros network.
  destruct network; apply (bool_decide_unpack _); vm_compute; exact I.
Qed.

(** ** Properties *)

(** With the real SHA3-384 every assertion of the four genesis states holds: the
    hard-coded txids and block hashes are those of the assembled coinbase and header, the
    hash meets the genesis target, the target is within the difficulty bounds, the
    coinbase pays the initial reward to the script that the hard-coded reward address
    decodes to on its own network, and no two networks share a genesis hash. *)
Theorem genesis_states_verified network :
  exists s, genesis_state (H:=Keccak.sha3_inst) network = Some s /\
    gs_block_hash s = part_expected_block_hash (genesis_parts network) /\
    gs_coinbase_txid s = part_expected_coinbase_txid (genesis_parts network) /\
    meets_target (gs_block_hash s) (difficulty_target_or_bits (header (gs_block s))) = true /\
    target_within_bounds (difficulty_target_or_bits (header (gs_block s))) = true /\
    decode_base56_address (H:=Keccak.sha3_inst) (gs_reward_address s)
      = Some (Ok (part_reward_script (genesis_parts network), network)) /\
    outputs <$> transactions (gs_block s)
      = [[{| value_atoms := INITIAL_BLOCK_REWARD_ATOMS;
             locking_script := part_reward_script (genesis_parts network) |}]] /\
    (forall other, genesis_hash (H:=Keccak.sha3_inst) other = gs_block_hash s -> other = network).
Proof.
  destruct (keccak_genesis_ready network) as [s E]. exists s.
  pose proof (genesis_state_from_parts_Some (Hs:=Keccak.sha3_inst) _ _ E)
    as (Hn & Hbh & _ & Htx & Hmeets & Hh & Hts).
  split; [done|]. split; [done|]. split; [done|].
  rewrite Hh. cbn [genesis_header difficulty_target_or_bits]. split; [done|].
  split; [by destruct network|]. split.
  - assert (gs_reward_address s = part_reward_address (genesis_parts network)) as ->.
    { unfold genesis_state, genesis_state_from_parts in E.
      repeat (apply bind_Some in E as ([] & _ & E)). by simplify_eq. }
    destruct network; by vm_compute.
  - split; [rewrite Hts; by destruct network|]. intros other Ho.
    apply (genesis_hash_inj (Hs:=Keccak.sha3_inst) (Hr:=keccak_genesis_ready)).
    rewrite Ho. unfold genesis_hash. by rewrite E.
Qed.

(** Regenerating a genesis profile finds the first nonce whose header hash meets the
    network's target: it returns whenever some nonce below the fuel does, and the profile
    it returns is solved, hashed from the regenerated header. *)
Theorem regenerate_finds_first_nonce `{Hs : Sha3} network (k fuel : nat) :
  let p := genesis_parts network in
  let coinbase := genesis_coinbase network (part_tx_version p) (part_lock_time p) (part_reward_script p) in
  let header := genesis_header network (part_block_version p) [coinbase] (part_timestamp p) (part_target p) in
  let solves n := meets_target (BlockHeader.block_hash (header (Z.of_nat n))) (part_target p) in
  (k < fuel)%nat -> Z.of_nat k < 2 ^ 64 -> solves k = true -> (forall j, (j < k)%nat -> solves j = false) ->
  exists g, regenerate_genesis_profile fuel network = Some g /\
    gp_nonce g = Z.of_nat k /\
    gp_block_hash g = BlockHeader.block_hash (header (Z.of_nat k)) /\
    gp_coinbase_txid g = Transaction.txid coinbase.
Proof.
  cbn zeta. intros Hf Hk Hs1 Hj. unfold regenerate_genesis_profile.
  assert (forall j, (j <= k)%nat -> (0 + Z.of_nat j) mod 2 ^ 64 = Z.of_nat j) as Hmod
    by (intros; rewrite Z.mod_small; lia).
  rewrite (search_nonce_finds _ _ 0 k); [|done|done| |].
  - rewrite Hmod by lia. cbn [mbind option_bind]. eexists. by split_and!.
  - by rewrite Hmod by lia.
  - intros j Hlt. rewrite Hmod by lia. by apply Hj.
Qed.

(** *** Witness *)

(** A stand-in hash that only nonce 2 satisfies, so the search is short. *)
Definition toy_hash (bs : bytes) : bytes :=
  match drop 323 bs with
  | b :: _ => if decide (b = x02) then zeros 48 else replicate 48 xff
  | [] => replicate 48 xff
  end.
Definition toy_sha3 : Sha3 := {| sha3_256 := take 32; sha3_384 := toy_hash |}.

Lemma regenerate_finds_first_nonce_witness :
  exists g, regenerate_genesis_profile (H:=toy_sha3) 10 Mainnet = Some g /\ gp_nonce g = 2.
Proof.
  destruct (regenerate_finds_first_nonce (Hs:=toy_sha3) Mainnet 2 10) as (g & Hg & Hn & _).
  - lia.
  - lia.
  - by vm_compute.
  - intros j Hj. destruct j as [|[|j]]; [by vm_compute..|lia].
  - by exists g.
Defined.
