(* ===== verification/Signatures.v ===== *)
(** * Signature domains and prehashes

    crates/atho-core/src/consensus/signatures.rs: the message a wallet signs
    and a node verifies, separated by domain label, network and genesis. *)
From stdpp Require Import options.
From S2P Require Import Prelude Bytes Constants Crypto Keccak Network Transaction Block Genesis.

(* src: signatures.rs:15-16 ATHO_SIGNATURE_RULES_VERSION *)
Definition ATHO_SIGNATURE_RULES_VERSION : Z := 1.
(* src: signatures.rs:18-19 ATHO_TX_SIGN_V1 *)
Definition ATHO_TX_SIGN_V1 : bytes := Eval vm_compute in str_bytes "ATHO_TX_SIGN_V1".
(* src: signatures.rs:20-21 ATHO_BLOCK_SIG_V1 *)
Definition ATHO_BLOCK_SIG_V1 : bytes := Eval vm_compute in str_bytes "ATHO_BLOCK_SIG_V1".
(* src: signatures.rs:22-23 ATHO_WALLET_LOCAL_SIG_V1 *)
Definition ATHO_WALLET_LOCAL_SIG_V1 : bytes := Eval vm_compute in str_bytes "ATHO_WALLET_LOCAL_SIG_V1".
(* src: signatures.rs:24-25 ATHO_PACKAGE_SIG_V1 *)
Definition ATHO_PACKAGE_SIG_V1 : bytes := Eval vm_compute in str_bytes "ATHO_PACKAGE_SIG_V1".
(* src: signatures.rs:26-27 ATHO_TEST_DEV_SIG_V1 *)
Definition ATHO_TEST_DEV_SIG_V1 : bytes := Eval vm_compute in str_bytes "ATHO_TEST_DEV_SIG_V1".

(* src: signatures.rs:29-37 AthoSignatureDomain *)
Inductive AthoSignatureDomain :=
| DomainTransaction
| DomainBlock
| DomainWalletLocal
| DomainPackage
| DomainTestDev.

(* src: signatures.rs:40-49 AthoSignatureDomain::label *)
Definition label (d : AthoSignatureDomain) : bytes :=
  match d with
  | DomainTransaction => ATHO_TX_SIGN_V1
  | DomainBlock => ATHO_BLOCK_SIG_V1
  | DomainWalletLocal => ATHO_WALLET_LOCAL_SIG_V1
  | DomainPackage => ATHO_PACKAGE_SIG_V1
  | DomainTestDev => ATHO_TEST_DEV_SIG_V1
  end.

Section hashes.
Context `{Sha3}.

(** The 112 bytes hashed: domain label, network byte, genesis hash, inner digest. *)
Definition signing_preimage (network : Network) (digest : bytes) : bytes :=
  ATHO_TX_SIGN_V1 ++ [Network.consensus_id network] ++ genesis_hash network ++ digest.

(* src: signatures.rs:52-67 transaction_signing_digest *)
Definition transaction_signing_digest (network : Network) (tx : Transaction) : bytes :=
  sha3_384 (signing_preimage network (Transaction.signing_digest tx)).

(* src: signatures.rs:69-82 transaction_signing_digest_for_input_indexes *)
Definition transaction_signing_digest_for_input_indexes (network : Network) (tx : Transaction)
    (input_indexes : list Z) : bytes :=
  sha3_384 (signing_preimage network (Transaction.signing_digest_for_input_indexes tx input_indexes)).

(* src: signatures.rs:84-90 block_signing_digest *)
Definition block_signing_digest (b : Block) : bytes :=
  sha3_384 (BlockHeader.canonical_bytes (header b)).
End hashes.

(** The message behind [Transaction::signing_digest_for_input_indexes]. *)
Definition signing_message (tx : Transaction) (indexes : list Z) : bytes :=
  Transaction.base_bytes tx ++ len_u32 indexes ++ mjoin (le_u32 <$> indexes).

Lemma signing_message_eq tx indexes h :
  Transaction.update_signing_hasher_for_input_indexes tx indexes h = h ++ signing_message tx indexes.
Proof.
  unfold Transaction.update_signing_hasher_for_input_indexes, update, signing_message.
  rewrite (fold_hasher _ le_u32) by done. by rewrite update_base_hasher_eq, <- !app_assoc.
Qed.

Lemma signing_digest_same_spend `{Hs : Sha3} n tx1 tx2 l :
  same_spend tx1 tx2 ->
  transaction_signing_digest_for_input_indexes n tx1 l = transaction_signing_digest_for_input_indexes n tx2 l.
Proof.
  intros Hsame. unfold transaction_signing_digest_for_input_indexes,
    Transaction.signing_digest_for_input_indexes.
  rewrite !signing_message_eq. unfold signing_message. by rewrite (base_bytes_same_spend tx1 tx2).
Qed.

Lemma codec_indexes :
  codec (fun l => len_u32 l ++ mjoin (le_u32 <$> l)) (Transaction.read_counted 4 read_u32)
    (fun l => is_u32 (zlen l) /\ Forall is_u32 l).
Proof. apply (codec_counted 4 codec_u32); [done|]. intros a _. unfold le_u32. by rewrite zlen_le_bytes. Qed.

(** A signature digest commits to everything it is meant to: two equal digests were
    made for the same network, the same spend (version, inputs, outputs, lock time) and
    the same covered input indexes, unless one of the two hash layers collides on the
    explicit preimages; so a signature cannot be replayed on another network, another
    transaction or another set of inputs. *)
Theorem signing_digest_binds `{Hs : Sha3, Laws : !Sha3Laws Hs, Hr : !GenesisReady Hs} n1 n2 tx1 tx2 l1 l2 :
  Transaction.wf_base tx1 -> Transaction.wf_base tx2 ->
  is_u32 (zlen l1) -> is_u32 (zlen l2) -> Forall is_u32 l1 -> Forall is_u32 l2 ->
  transaction_signing_digest_for_input_indexes n1 tx1 l1
  = transaction_signing_digest_for_input_indexes n2 tx2 l2 ->
  (n1 = n2 /\ same_spend tx1 tx2 /\ l1 = l2) \/
  sha3_collision (signing_message tx1 l1) (signing_message tx2 l2) \/
  sha3_collision (signing_preimage n1 (sha3_384 (signing_message tx1 l1)))
                 (signing_preimage n2 (sha3_384 (signing_message tx2 l2))).
Proof.
  intros W1 W2 N1 N2 F1 F2 E.
  unfold transaction_signing_digest_for_input_indexes, Transaction.signing_digest_for_input_indexes in E.
  rewrite !signing_message_eq, !app_nil_l in E.
  set (m1 := signing_message tx1 l1) in *. set (m2 := signing_message tx2 l2) in *.
  destruct (decide (signing_preimage n1 (sha3_384 m1) = signing_preimage n2 (sha3_384 m2)))
    as [Ep|]; [|by right; right].
  unfold signing_preimage in Ep. apply app_inv_head in Ep.
  injection Ep as En Ep. apply Network.consensus_id_inj in En as ->.
  apply app_inv_head in Ep.
  destruct (decide (m1 = m2)) as [Em|]; [left|by right; left].
  subst m1 m2. apply base_bytes_inj in Em as [Hsame Em]; [|done..].
  split; [done|]. split; [done|].
  rewrite <- (app_nil_r (len_u32 l1 ++ _)), <- (app_nil_r (len_u32 l2 ++ _)) in Em.
  by apply (codec_prefix_free codec_indexes) in Em as [-> _].
Qed.

Lemma signing_digest_binds_witness :
  let tx := sample_tx [] 0 in
  (Mainnet = Mainnet /\ same_spend tx (sample_tx [x01] 3) /\ [0] = [0]) \/
  sha3_collision (H:=Keccak.sha3_inst) (signing_message tx [0]) (signing_message (sample_tx [x01] 3) [0]) \/
  sha3_collision (H:=Keccak.sha3_inst)
    (signing_preimage (H:=Keccak.sha3_inst) Mainnet (sha3_384 (Sha3:=Keccak.sha3_inst) (signing_message tx [0])))
    (signing_preimage (H:=Keccak.sha3_inst) Mainnet
       (sha3_384 (Sha3:=Keccak.sha3_inst) (signing_message (sample_tx [x01] 3) [0]))).
Proof.
  apply (signing_digest_binds (Hs:=Keccak.sha3_inst) (Laws:=Keccak.sha3_laws)
    (Hr:=keccak_genesis_ready) Mainnet Mainnet (sample_tx [] 0) (sample_tx [x01] 3) [0] [0]);
    [apply sample_tx_wf|apply sample_tx_wf|done|done| | |]; [by repeat constructor..|].
  apply (signing_digest_same_spend (Hs:=Keccak.sha3_inst)). by split_and!.
Defined.
