(* ===== verification/Falcon.v ===== *)
(** * Falcon keys and their seeded randomness

    crates/atho-crypto/src/falcon.rs: the deterministic byte generator key
    generation and signing draw from, and their wrappers. Key generation and
    signing themselves belong to the fn-dsa crate: the class [FalconSigner], with
    what its documentation promises in [FalconSignerLaws]. *)
From stdpp Require Import options.
From S2P Require Import Prelude Bytes Constants Crypto Keccak Signatures.

#[local] Set Default Proof Using "Type*".

(** ** The generator *)

(* src: falcon.rs:99-105 SeededRng *)
Record SeededRng := {
  rng_seed : bytes;
  rng_buffer : bytes;
  rng_offset : nat;
  rng_counter : Z;
}.

Section rng.
Context `{Hs : Sha3}.

(* src: falcon.rs:228-236 falcon_seed *)
Definition falcon_seed (seed : bytes) : bytes := if bool_decide (length seed = 48%nat) then seed else sha3_384 seed.
(* src: falcon.rs:108-115 SeededRng::new *)
Definition new_rng (seed : bytes) : SeededRng :=
  {| rng_seed := falcon_seed seed; rng_buffer := zeros 48; rng_offset := 48; rng_counter := 0 |}.
(* src: falcon.rs:238-240 init_rng *)
Definition init_rng (seed : bytes) : SeededRng := new_rng seed.
(* src: falcon.rs:117-124 SeededRng::refill *)
Definition refill (r : SeededRng) : SeededRng :=
  {| rng_seed := rng_seed r; rng_buffer := sha3_384 (rng_seed r ++ le_u64 (rng_counter r)); rng_offset := 0;
     rng_counter := wrapping_add 64 (rng_counter r) 1 |}.
(* src: falcon.rs:126-131 SeededRng::clear *)
Definition clear (r : SeededRng) : SeededRng :=
  {| rng_seed := zeros 48; rng_buffer := zeros 48; rng_offset := length (rng_buffer r); rng_counter := 0 |}.
Definition with_offset (r : SeededRng) (offset : nat) : SeededRng :=
  {| rng_seed := rng_seed r; rng_buffer := rng_buffer r; rng_offset := offset; rng_counter := rng_counter r |}.

(** The loop: [n] bytes are still to fill. Each round fills one at least. *)
(* src: falcon.rs:163-177 SeededRng::fill_bytes *)
Fixpoint fill_loop (fuel : nat) (r : SeededRng) (n : nat) (filled : bytes) : option (SeededRng * bytes) :=
  match n with
  | O => Some (r, filled)
  | _ =>
      match fuel with
      | O => None
      | S fuel =>
          let r := if (length (rng_buffer r) <=? rng_offset r)%nat then refill r else r in
          let available := (length (rng_buffer r) - rng_offset r)%nat in
          let count := Nat.min available n in
          fill_loop fuel (with_offset r (rng_offset r + count)) (n - count)
            (filled ++ take count (drop (rng_offset r) (rng_buffer r)))
      end
  end.
Definition fill_bytes (r : SeededRng) (n : nat) : option (SeededRng * bytes) := fill_loop n r n [].

(** [next_u32] and [next_u64]: [k] bytes, from the buffer when it has them. *)
Definition next_uint (k : nat) (r : SeededRng) : option (SeededRng * Z) :=
  if (length (rng_buffer r) - k <? rng_offset r)%nat
  then (fun rb => (rb.1, le_decode rb.2)) <$> fill_bytes r k
  else Some (with_offset r (rng_offset r + k), le_decode (take k (drop (rng_offset r) (rng_buffer r)))).
(* src: falcon.rs:137-148 SeededRng::next_u32 *)
Definition next_u32 (r : SeededRng) : option (SeededRng * Z) := next_uint 4 r.
(* src: falcon.rs:150-161 SeededRng::next_u64 *)
Definition next_u64 (r : SeededRng) : option (SeededRng * Z) := next_uint 8 r.
End rng.

(** ** Keys and signatures *)

(** [fn_dsa::KeyPairGenerator512], the decoder of [SigningKey512], and its signer:
    key, randomness, domain context and message to a signature. *)
Class FalconSigner := {
  signing_key : Type;
  signing_key_decode : bytes -> option signing_key;
  keygen : SeededRng -> bytes * bytes;
  signing_key_sign : signing_key -> SeededRng -> bytes -> bytes -> bytes;
}.

(** The sizes of the Falcon-512 profile; a generated key decodes, and what it
    signs verifies under the public key generated with it. *)
Class FalconSignerLaws (S : FalconSigner) (V : FalconBackend) : Prop := {
  keygen_sizes r : zlen (keygen r).1 = FALCON_512_SECRET_KEY_BYTES /\ zlen (keygen r).2 = FALCON_512_PUBLIC_KEY_BYTES;
  keygen_decodes r : is_Some (signing_key_decode (keygen r).1);
  sign_size sk r context message : zlen (signing_key_sign sk r context message) = FALCON_512_SIGNATURE_BYTES;
  sign_verifies r sk r' context message :
    signing_key_decode (keygen r).1 = Some sk ->
    exists vk, verifying_key_decode (keygen r).2 = Some vk
      /\ verifying_key_verify vk (signing_key_sign sk r' context message) context message = true;
}.

(* src: falcon.rs:77-82 FalconKeypair *)
Record FalconKeypair := { public_key : bytes; secret_key : bytes }.

Section keys.
Context `{Hs : Sha3, Hf : FalconBackend, Hk : FalconSigner}.

(* src: falcon.rs:214-219 decode_signing_key *)
Definition decode_signing_key (bs : bytes) : result CryptoError signing_key :=
  reject negb (secret_key_len_ok (zlen bs)) with InvalidKeyLength;
  ok_or (signing_key_decode bs) OperationFailed.
(* src: falcon.rs:39-42 FalconPublicKey::from_bytes *)
Definition public_key_from_bytes (bs : bytes) : result CryptoError bytes := _ ← decode_verifying_key bs; Ok bs.
(* src: falcon.rs:54-57 FalconSecretKey::from_bytes *)
Definition secret_key_from_bytes (bs : bytes) : result CryptoError bytes := _ ← decode_signing_key bs; Ok bs.
(* src: falcon.rs:69-74 FalconSignature::from_bytes *)
Definition signature_from_bytes (bs : bytes) : result CryptoError bytes :=
  reject negb (signature_len_ok (zlen bs)) with InvalidKeyLength; Ok bs.

(* src: falcon.rs:242-264 generate_from_seed *)
Definition generate_from_seed (seed : bytes) : result CryptoError FalconKeypair :=
  reject bool_decide (seed = []) with InvalidKeyLength;
  let '(secret, public) := keygen (init_rng seed) in
  Ok {| public_key := public; secret_key := secret |}.
(** [random] is what the system's generator gives, if it works. *)
(* src: falcon.rs:266-273 generate *)
Definition generate (random : option bytes) : result CryptoError FalconKeypair :=
  seed ← ok_or random BackendUnavailable; generate_from_seed seed.
(* src: falcon.rs:275-299 sign *)
Definition sign (random : option bytes) (domain : AthoSignatureDomain) (secret message : bytes) : result CryptoError bytes :=
  sk ← decode_signing_key secret;
  seed ← ok_or random BackendUnavailable;
  Ok (signing_key_sign sk (init_rng seed) (label domain) message).
End keys.

(** ** The generator is a stream *)

Section stream.
Context `{Hs : Sha3, Laws : !Sha3Laws Hs}.

(** Block [i] of the stream of a seed, and its bytes. *)
Definition block (seed : bytes) (i : nat) : bytes := sha3_384 (seed ++ le_u64 (Z.of_nat i mod 2 ^ 64)).
Definition stream (seed : bytes) (i : nat) : byte := nth (i mod 48) (block seed (i / 48)) x00.
Definition stream_bytes (seed : bytes) (from n : nat) : bytes := stream seed <$> seq from n.

(** The next byte the generator gives is byte [p] of the stream. *)
Definition rng_at (seed : bytes) (p : nat) (r : SeededRng) : Prop :=
  rng_seed r = seed /\ length (rng_buffer r) = 48%nat /\ exists c : nat,
    rng_counter r = Z.of_nat c mod 2 ^ 64 /\ (rng_offset r <= 48)%nat /\ (p + 48 = 48 * c + rng_offset r)%nat
    /\ ((rng_offset r < 48)%nat -> rng_buffer r = block seed (c - 1)).

Lemma new_rng_at seed : rng_at (falcon_seed seed) 0 (new_rng seed).
Proof.
  split; [done|]. split; [done|]. exists 0%nat. cbn. split_and!; [done|lia|lia|lia].
Qed.
Lemma refill_at seed p r : rng_at seed p r -> (48 <= rng_offset r)%nat -> rng_at seed p (refill r).
Proof.
  intros (Hseed & Hlen & c & Hc & Ho & Hp & _) Hfull. split; [done|]. split; [apply sha3_384_length|].
  exists (S c). cbn [refill rng_counter rng_offset rng_buffer]. split_and!; [|lia|lia|].
  - unfold wrapping_add. rewrite Hc, Zplus_mod_idemp_l. f_equal. lia.
  - intros _. unfold block. rewrite Hseed, Hc. do 4 f_equal. lia.
Qed.

Lemma stream_chunk seed c o k :
  (o + k <= 48)%nat -> stream_bytes seed (48 * c + o) k = take k (drop o (block seed c)).
Proof.
  intros Hk. unfold stream_bytes. apply list_eq. intros i. rewrite list_lookup_fmap.
  destruct (decide (i < k)%nat) as [Hi|Hi].
  - rewrite lookup_seq_lt by done. cbn [fmap option_fmap option_map]. rewrite lookup_take_lt, lookup_drop by done. unfold stream.
    replace (48 * c + o + i)%nat with (o + i + c * 48)%nat by lia.
    rewrite Nat.Div0.mod_add, Nat.div_add, Nat.mod_small, Nat.div_small by lia. cbn [Nat.add].
    destruct (lookup_lt_is_Some_2 (block seed c) (o + i)%nat) as [x Hx].
    { unfold block. rewrite sha3_384_length. lia. }
    rewrite Hx. f_equal. by apply nth_lookup_Some.
  - rewrite lookup_seq_ge, lookup_take_ge by lia. done.
Qed.
Lemma stream_bytes_app seed p m n : stream_bytes seed p (m + n) = stream_bytes seed p m ++ stream_bytes seed (p + m) n.
Proof. unfold stream_bytes. by rewrite seq_app, fmap_app. Qed.

(** What is left of the buffer is the stream's. *)
Lemma buffer_chunk seed p r k :
  rng_at seed p r -> (0 < k)%nat -> (rng_offset r + k <= 48)%nat ->
  take k (drop (rng_offset r) (rng_buffer r)) = stream_bytes seed p k /\ rng_at seed (p + k) (with_offset r (rng_offset r + k)).
Proof.
  intros (Hseed & Hlen & c & Hc & Ho & Hp & Hb) Hk0 Hk. rewrite Hb by lia.
  assert (p = 48 * (c - 1) + rng_offset r)%nat as -> by lia. split; [by rewrite stream_chunk|].
  split; [done|]. split; [done|]. exists c. cbn [with_offset rng_counter rng_offset rng_buffer].
  split_and!; [done|lia|lia|]. intros ?. apply Hb. lia.
Qed.

Lemma fill_loop_stream seed n : forall fuel p r filled,
  rng_at seed p r -> (n <= fuel)%nat ->
  exists r', fill_loop fuel r n filled = Some (r', filled ++ stream_bytes seed p n) /\ rng_at seed (p + n) r'.
Proof.
  induction n as [n IH] using lt_wf_ind. intros fuel p r filled Hr Hfuel.
  destruct n as [|n]; [exists r; rewrite Nat.add_0_r; destruct fuel; cbn; by rewrite app_nil_r|].
  destruct fuel as [|fuel]; [lia|]. cbn [fill_loop].
  set (r1 := if (_ <=? _)%nat then refill r else r).
  assert (rng_at seed p r1 /\ (rng_offset r1 < 48)%nat) as [Hr1 Ho].
  { subst r1. pose proof Hr as (_ & -> & c & _ & Ho & _). destruct (Nat.leb_spec 48 (rng_offset r)).
    - split; [by apply refill_at|cbn; lia].
    - by split. }
  clearbody r1. pose proof Hr1 as (_ & Hlen & _). rewrite Hlen.
  set (count := Nat.min (48 - rng_offset r1) (S n)). assert (0 < count <= S n)%nat as Hc by (subst count; lia).
  assert (rng_offset r1 + count <= 48)%nat as Hle by (subst count; lia). clearbody count.
  destruct (buffer_chunk seed p r1 count Hr1 ltac:(lia) Hle) as [-> Hr2].
  destruct (IH (S n - count)%nat ltac:(lia) fuel (p + count)%nat _ (filled ++ stream_bytes seed p count) Hr2 ltac:(lia))
    as (r' & -> & Hr'). exists r'. split.
  - do 2 f_equal. rewrite <- app_assoc. f_equal. rewrite <- stream_bytes_app. f_equal. lia.
  - by replace (p + S n)%nat with (p + count + (S n - count))%nat by lia.
Qed.
Lemma fill_bytes_stream seed p r n :
  rng_at seed p r -> exists r', fill_bytes r n = Some (r', stream_bytes seed p n) /\ rng_at seed (p + n) r'.
Proof. intros Hr. by apply (fill_loop_stream seed n n p r [] Hr). Qed.

Lemma next_uint_stream seed p r k :
  rng_at seed p r -> (0 < k <= 48)%nat ->
  exists r', next_uint k r = Some (r', le_decode (stream_bytes seed p k)) /\ rng_at seed (p + k) r'.
Proof.
  intros Hr Hk. unfold next_uint. pose proof Hr as (_ & Hlen & _). rewrite Hlen.
  destruct (Nat.ltb_spec (48 - k) (rng_offset r)) as [Ho|Ho].
  - destruct (fill_bytes_stream seed p r k Hr) as (r' & -> & Hr'). by exists r'.
  - destruct (buffer_chunk seed p r k Hr ltac:(lia) ltac:(lia)) as [-> Hr']. by eexists.
Qed.

(** The draws of a client of the generator, with what each gives. *)
Inductive draw := DrawU32 | DrawU64 | DrawBytes (n : nat).
Definition draw_size (d : draw) : nat := match d with DrawU32 => 4 | DrawU64 => 8 | DrawBytes n => n end.
Inductive drawn := GotUint (z : Z) | GotBytes (bs : bytes).
Definition take_draw (r : SeededRng) (d : draw) : option (SeededRng * drawn) :=
  match d with
  | DrawU32 => (fun x => (x.1, GotUint x.2)) <$> next_u32 r
  | DrawU64 => (fun x => (x.1, GotUint x.2)) <$> next_u64 r
  | DrawBytes n => (fun x => (x.1, GotBytes x.2)) <$> fill_bytes r n
  end.
Fixpoint take_draws (r : SeededRng) (ds : list draw) : option (list drawn) :=
  match ds with
  | [] => Some []
  | d :: ds => '(r, x) ← take_draw r d; xs ← take_draws r ds; Some (x :: xs)
  end.

(** The abstract generator: a position in the stream. *)
Definition ideal_draw (seed : bytes) (p : nat) (d : draw) : drawn :=
  match d with
  | DrawU32 | DrawU64 => GotUint (le_decode (stream_bytes seed p (draw_size d)))
  | DrawBytes n => GotBytes (stream_bytes seed p n)
  end.
Fixpoint ideal_draws (seed : bytes) (p : nat) (ds : list draw) : list drawn :=
  match ds with
  | [] => []
  | d :: ds => ideal_draw seed p d :: ideal_draws seed (p + draw_size d) ds
  end.

Lemma take_draw_stream seed p r d :
  rng_at seed p r -> exists r', take_draw r d = Some (r', ideal_draw seed p d) /\ rng_at seed (p + draw_size d) r'.
Proof.
  intros Hr. destruct d as [| |n]; cbn [take_draw ideal_draw draw_size].
  - destruct (next_uint_stream seed p r 4 Hr ltac:(lia)) as (r' & E & Hr'). exists r'. unfold next_u32. by rewrite E.
  - destruct (next_uint_stream seed p r 8 Hr ltac:(lia)) as (r' & E & Hr'). exists r'. unfold next_u64. by rewrite E.
  - destruct (fill_bytes_stream seed p r n Hr) as (r' & E & Hr'). exists r'. by rewrite E.
Qed.

(** The seeded generator is a stream of bytes: whatever integers and byte strings
    are drawn and in whatever order, they are the next bytes of the one sequence of
    digests of the seed and a counter, none skipped and none used twice, also where a
    draw crosses the end of the buffer. *)
Theorem seeded_rng_is_stream (seed : bytes) (ds : list draw) :
  take_draws (init_rng seed) ds = Some (ideal_draws (falcon_seed seed) 0 ds).
Proof.
  unfold init_rng. generalize (new_rng_at seed). generalize 0%nat (new_rng seed) (falcon_seed seed).
  induction ds as [|d ds IH]; intros p r s Hr; [done|]. cbn [take_draws ideal_draws].
  destruct (take_draw_stream s p r d Hr) as (r' & -> & Hr'). cbn [mbind option_bind]. by rewrite (IH _ _ _ Hr').
Qed.
End stream.

(** ** Keys of a seed *)

Section signing.
Context `{Hs : Sha3, Hf : FalconBackend, Hk : FalconSigner, Laws : !FalconSignerLaws Hk Hf}.

Lemma generated_key seed kp :
  generate_from_seed seed = Ok kp ->
  zlen (public_key kp) = FALCON_512_PUBLIC_KEY_BYTES
  /\ forall entropy domain message, exists sg, sign (Some entropy) domain (secret_key kp) message = Ok sg
     /\ zlen sg = FALCON_512_SIGNATURE_BYTES
     /\ falcon_verify (label domain) (public_key kp) message sg = Ok true.
Proof.
  unfold generate_from_seed. destruct (bool_decide _); [done|].
  pose proof (keygen_sizes (init_rng seed)) as [Hsk Hpk]. pose proof (keygen_decodes (init_rng seed)) as [sk Hd].
  pose proof (sign_verifies (init_rng seed) sk) as Hv.
  destruct (keygen (init_rng seed)) as [secret public]. cbn [fst snd] in *. intros [= <-]. cbn [public_key secret_key].
  split; [done|]. intros entropy domain message.
  exists (signing_key_sign sk (init_rng entropy) (label domain) message).
  unfold sign, decode_signing_key, secret_key_len_ok. rewrite Hsk, Z.eqb_refl, Hd. cbn [negb ok_or mbind result_bind].
  split; [done|]. split; [apply sign_size|].
  destruct (Hv (init_rng entropy) (label domain) message Hd) as (vk & Hvk & Hok).
  unfold falcon_verify, decode_verifying_key, public_key_len_ok, signature_len_ok.
  rewrite Hpk, Z.eqb_refl. cbn. rewrite Hvk. cbn. by rewrite sign_size, Z.eqb_refl, Hok.
Qed.
End signing.

(** A signer for the witnesses: the public key begins with the seed, and every
    signature is accepted. *)
Definition toy_signer : FalconSigner :=
  {| signing_key := bytes; signing_key_decode := Some;
     keygen := fun r => (zeros (Z.to_nat FALCON_512_SECRET_KEY_BYTES),
                         take (Z.to_nat FALCON_512_PUBLIC_KEY_BYTES) (rng_seed r ++ zeros (Z.to_nat FALCON_512_PUBLIC_KEY_BYTES)));
     signing_key_sign := fun _ _ _ _ => zeros (Z.to_nat FALCON_512_SIGNATURE_BYTES) |}.
Lemma toy_signer_laws : FalconSignerLaws toy_signer accepting_falcon.
Proof.
  split.
  - intros r. cbn [keygen toy_signer fst snd]. split; [vm_compute; reflexivity|]. unfold zlen, zeros.
    rewrite length_take, length_app, length_replicate, Nat.min_l by lia. vm_compute. reflexivity.
  - intros r. by eexists.
  - intros sk r c m. vm_compute. reflexivity.
  - intros r sk r' c m _. by eexists.
Qed.

Lemma seeded_rng_is_stream_witness :
  take_draws (Hs:=Keccak.sha3_inst) (init_rng (Hs:=Keccak.sha3_inst) [x01]) [DrawU32; DrawBytes 50; DrawU64]
  = Some (ideal_draws (Hs:=Keccak.sha3_inst) (falcon_seed (Hs:=Keccak.sha3_inst) [x01]) 0 [DrawU32; DrawBytes 50; DrawU64]).
Proof. apply (seeded_rng_is_stream (Hs:=Keccak.sha3_inst) (Laws:=Keccak.sha3_laws)). Defined.
