(* ===== verification/TxPolicy.v ===== *)
(** * Transaction policy

    crates/atho-core/src/consensus/tx_policy.rs: fee floor, required
    proof-of-work bits, the proof-of-work message and check, the single-thread
    solver, and the multi-thread solver as a step relation whose workers race
    on atomic flags. *)
From stdpp Require Import options.
From S2P Require Import Prelude Bytes Constants Crypto Keccak Network Transaction Block Genesis.

(* src: tx_policy.rs:22-22 TESTNET_TX_POW_BITS *)
Definition TESTNET_TX_POW_BITS : Z := 12.

(* src: tx_policy.rs:27-33 TxPowSolveConfig *)
Record TxPowSolveConfig := {
  auto_threads : bool;
  thread_percent : Z;
  max_threads : option Z;
  min_threads : Z;
}.

Module TxPowSolveConfig.
(* src: tx_policy.rs:36-43 TxPowSolveConfig::default *)
Definition default : TxPowSolveConfig :=
  {| auto_threads := true; thread_percent := 75; max_threads := None; min_threads := 1 |}.

(* src: tx_policy.rs:64-82 TxPowSolveConfig::resolved_thread_count_for_available *)
Definition resolved_thread_count_for_available (c : TxPowSolveConfig) (available_threads : Z) : Z :=
  let available_threads := Z.max available_threads 1 in
  let min_threads := Z.min (Z.max (min_threads c) 1) available_threads in
  let max_threads := Z.min (Z.max (from_option id available_threads (max_threads c)) 1) available_threads in
  let threads :=
    if auto_threads c then
      let percent := clamp (thread_percent c) 1 100 in
      saturating_mul USIZE_MAX available_threads percent / 100
    else max_threads in
  let threads := if threads =? 0 then 1 else threads in
  Z.max (Z.min (Z.max threads min_threads) max_threads) 1.
End TxPowSolveConfig.

(* src: tx_policy.rs:85-86 TxPowCancelled *)
Inductive TxPowCancelled := TxPowCancelled_.

(** What one signer group contributes to the proof-of-work message. *)
Definition update_pow_group (h : hasher) (g : WitnessSignerGroup) : hasher :=
  let h := update h (len_u32 (g_signature g)) in
  let h := update h (g_signature g) in
  let h := update h (len_u32 (g_pubkey g)) in
  let h := update h (g_pubkey g) in
  let h := update h (len_u32 (g_input_refs g)) in
  fold_left (fun h r => update (update h (le_u32 (input_index r))) (sig_ref_short r)) (g_input_refs g) h.

(* src: tx_policy.rs:88-116 update_tx_pow_message_hasher *)
Definition update_tx_pow_message_hasher (h : hasher) (tx : Transaction) : hasher :=
  let h := Transaction.update_base_hasher tx h in
  if bool_decide (witness tx = []) then update h (le_u32 0)
  else match Transaction.witness_payload tx with
       | None => update h (le_u32 0)
       | Some w =>
           let h := update h (le_u32 (TxWitness.signer_group_count w)) in
           fold_left update_pow_group (TxWitness.signer_groups w) h
       end.

(* src: tx_policy.rs:118-122 minimum_required_fee_atoms *)
Definition minimum_required_fee_atoms (_ : Network) (tx : Transaction) : Z :=
  let vbytes := Z.max (Transaction.vsize_bytes tx) 1 in
  Z.max MIN_TX_FEE_ATOMS (saturating_mul U64_MAX vbytes MIN_RELAY_FEE_RATE_ATOMS_PER_VBYTE).

(* src: tx_policy.rs:124-128 minimum_output_amount_atoms *)
Definition minimum_output_amount_atoms (_ : Network) (_ : Transaction) : Z := DUST_RELAY_VALUE_ATOMS.

(* src: tx_policy.rs:130-134 maximum_standard_outputs *)
Definition maximum_standard_outputs (_ : Network) (_ : Transaction) : Z := MAX_STANDARD_OUTPUTS.

(** [if c { bits += n; }]. *)
Definition bump (c : bool) (n bits : Z) : Z := if c then bits + n else bits.

(* src: tx_policy.rs:136-184 required_tx_pow_bits *)
Definition required_tx_pow_bits (network : Network) (tx : Transaction) (fee_atoms : Z) : Z :=
  if Transaction.is_coinbase tx then 0
  else if bool_decide (network = Testnet) then TESTNET_TX_POW_BITS
  else
    let tx_vbytes := Z.max (Transaction.vsize_bytes tx) 1 in
    let fee_rate := fee_atoms / tx_vbytes in
    let output_count := zlen (outputs tx) in
    let bits := TX_POW_MIN_BITS in
    let bits := bump (500 <? tx_vbytes) 1 bits in
    let bits := bump (1000 <? tx_vbytes) 1 bits in
    let bits := bump (2000 <? tx_vbytes) 1 bits in
    let bits := bump (2 <? output_count) 1 bits in
    let bits := bump (8 <? output_count) 1 bits in
    let bits := bump (32 <? output_count) 1 bits in
    let bits :=
      if 100 <=? fee_rate then bits - 1
      else if 10 <=? fee_rate then bits
      else if 1 <=? fee_rate then bits + 2
      else bits + 4 in
    let bits := bump ((32 <? output_count) && (fee_rate <=? 1)) 2 bits in
    clamp bits TX_POW_MIN_BITS TX_POW_MAX_BITS.

(** [for bit in (0..8).rev()]: the new count, and whether the function returned. *)
(* src: tx_policy.rs:202-207 leading_zero_bits (bit loop) *)
Fixpoint scan_bits (b : Z) (bits : list Z) (count : Z) : Z * bool :=
  match bits with
  | [] => (count, false)
  | bit :: bits =>
      if negb (Z.land b (Z.shiftl 1 bit) =? 0) then (count, true)
      else scan_bits b bits (saturating_add 255 count 1)
  end.

(* src: tx_policy.rs:197-209 leading_zero_bits (byte loop) *)
Fixpoint leading_zero_bits_from (count : Z) (bs : bytes) : Z :=
  match bs with
  | [] => count
  | b :: bs =>
      if byte_to_Z b =? 0 then leading_zero_bits_from (saturating_add 255 count 8) bs
      else match scan_bits (byte_to_Z b) [7; 6; 5; 4; 3; 2; 1; 0] count with
           | (count, true) => count
           | (count, false) => leading_zero_bits_from count bs
           end
  end.

(* src: tx_policy.rs:195-210 leading_zero_bits *)
Definition leading_zero_bits (bs : bytes) : Z := leading_zero_bits_from 0 bs.

(** [tx.tx_pow_bits = ...] and [tx.tx_pow_nonce = ...]. *)
Definition with_pow (tx : Transaction) (nonce bits : Z) : Transaction :=
  {| version := version tx; inputs := inputs tx; outputs := outputs tx; lock_time := lock_time tx;
     witness := witness tx; tx_pow_nonce := nonce; tx_pow_bits := bits |}.
Definition with_pow_nonce (tx : Transaction) (nonce : Z) : Transaction :=
  with_pow tx nonce (tx_pow_bits tx).

Section hashes.
Context `{Sha3}.

(** The bytes absorbed before [update_tx_pow_message_hasher]. *)
Definition pow_domain_prefix (network : Network) : hasher :=
  update (update (update hasher_new TX_POW_DOMAIN) [Network.consensus_id network]) (genesis_hash network).

(* src: tx_policy.rs:186-193 transaction_pow_preimage *)
Definition transaction_pow_preimage (network : Network) (tx : Transaction) : bytes :=
  sha3_256 (update_tx_pow_message_hasher (pow_domain_prefix network) tx).

(* src: tx_policy.rs:212-217 transaction_pow_hash *)
Definition transaction_pow_hash (preimage : bytes) (nonce : Z) : bytes :=
  sha3_256 (preimage ++ be_u64 nonce).

(** [leading_zero_bits(&transaction_pow_hash(preimage, nonce)) >= required_bits]. *)
Definition nonce_solves (preimage : bytes) (required_bits nonce : Z) : bool :=
  required_bits <=? leading_zero_bits (transaction_pow_hash preimage nonce).

(* src: tx_policy.rs:264-277 transaction_pow_is_valid_for_bits *)
Definition transaction_pow_is_valid_for_bits (network : Network) (tx : Transaction) (required_bits : Z) : bool :=
  if required_bits =? 0 then true
  else if negb (tx_pow_bits tx =? required_bits) then false
  else
    let preimage := transaction_pow_preimage network tx in
    required_bits <=? leading_zero_bits (transaction_pow_hash preimage (tx_pow_nonce tx)).

(* src: tx_policy.rs:259-262 transaction_pow_is_valid *)
Definition transaction_pow_is_valid (network : Network) (tx : Transaction) (fee_atoms : Z) : bool :=
  transaction_pow_is_valid_for_bits network tx (required_tx_pow_bits network tx fee_atoms).

(** The starting nonce, from the system's randomness when there is any. *)
(* src: tx_policy.rs:219-226 transaction_pow_nonce_start *)
Definition transaction_pow_nonce_start (random : option bytes) (preimage : bytes) : Z :=
  match random with
  | Some r => be_decode r
  | None => be_decode (take 8 preimage)
  end.

(** The loop; [stop i] is what the [i]-th load of [stop_requested] reads, and
    [None] means that the fuel ran out. *)
(* src: tx_policy.rs:323-342 solve_transaction_pow_single_thread *)
Fixpoint solve_transaction_pow_single_thread (fuel i : nat) (stop : nat -> bool) (tx : Transaction)
    (preimage : bytes) (required_bits nonce : Z) : option (Transaction * result TxPowCancelled Z) :=
  match fuel with
  | O => None
  | S fuel =>
      if stop i then Some (with_pow_nonce tx 0, Err TxPowCancelled_)
      else if required_bits <=? leading_zero_bits (transaction_pow_hash preimage nonce)
      then Some (with_pow_nonce tx nonce, Ok nonce)
      else solve_transaction_pow_single_thread fuel (S i) stop tx preimage required_bits
             (wrapping_add 64 nonce 1)
  end.
End hashes.

(** ** The multi-thread solver

    [worker_count] threads search interleaved residue classes of nonces and
    share atomic flags. Loads of the flags may be stale, so a worker may always
    go on searching, and may leave its loop whenever a flag is set; only the
    [compare_exchange] on [found] decides who stores the solution. *)
Module ParallelPow.

Inductive worker :=
| Searching (candidate : Z)
| Won (candidate : Z)
| Finished.

Record state := {
  found : bool;
  solved_nonce : Z;
  parallel_abort : bool;
  spawn_failed : bool;
  stop_requested : bool;
  workers : list worker;
}.

(** Worker [i] starts at [start_nonce.wrapping_add(i)]. *)
Definition spawned (start_nonce : Z) (indexes : list Z) : list worker :=
  (fun i => Searching (wrapping_add 64 start_nonce i)) <$> indexes.

(** [k] threads were spawned; when that is fewer than [worker_count - 1], a
    spawn failed and the calling thread does not search. *)
(* src: tx_policy.rs:362-405 solve_transaction_pow_with_worker_count_and_cancel (spawning) *)
Definition init (start_nonce worker_count k : Z) (stop : bool) : state :=
  let failed := k <? worker_count - 1 in
  {| found := false; solved_nonce := 0; parallel_abort := failed; spawn_failed := failed;
     stop_requested := stop;
     workers := spawned start_nonce (if failed then seqZ 1 k else seqZ 0 worker_count) |}.

Definition set_worker (s : state) (i : nat) (w : worker) : state :=
  {| found := found s; solved_nonce := solved_nonce s; parallel_abort := parallel_abort s;
     spawn_failed := spawn_failed s; stop_requested := stop_requested s;
     workers := <[i := w]> (workers s) |}.
Definition set_found (s : state) : state :=
  {| found := true; solved_nonce := solved_nonce s; parallel_abort := parallel_abort s;
     spawn_failed := spawn_failed s; stop_requested := stop_requested s; workers := workers s |}.
Definition set_solved (s : state) (n : Z) : state :=
  {| found := found s; solved_nonce := n; parallel_abort := parallel_abort s;
     spawn_failed := spawn_failed s; stop_requested := stop_requested s; workers := workers s |}.
Definition set_stop (s : state) : state :=
  {| found := found s; solved_nonce := solved_nonce s; parallel_abort := parallel_abort s;
     spawn_failed := spawn_failed s; stop_requested := true; workers := workers s |}.

Section steps.
Context (solves : Z -> bool) (worker_count : Z).

(** One atomic action of one worker, or of the canceller. *)
(* src: tx_policy.rs:379-424 solve_transaction_pow_with_worker_count_and_cancel (worker loops) *)
Inductive step (s : state) : state -> Prop :=
| step_leave i c :
    workers s !! i = Some (Searching c) ->
    found s || stop_requested s || parallel_abort s = true ->
    step s (set_worker s i Finished)
| step_win i c :
    workers s !! i = Some (Searching c) -> solves c = true -> found s = false ->
    step s (set_worker (set_found s) i (Won c))
| step_lose i c :
    workers s !! i = Some (Searching c) -> solves c = true -> found s = true ->
    step s (set_worker s i Finished)
| step_advance i c :
    workers s !! i = Some (Searching c) -> solves c = false ->
    step s (set_worker s i (Searching (wrapping_add 64 c worker_count)))
| step_store i c :
    workers s !! i = Some (Won c) ->
    step s (set_worker (set_solved s c) i Finished)
| step_cancel :
    step s (set_stop s).

Definition reachable (s0 s : state) : Prop := rtc step s0 s.

(** [thread::scope] returns when every thread has finished. *)
Definition joined (s : state) : Prop := Forall (fun w => w = Finished) (workers s).
End steps.
End ParallelPow.

Section solver.
Context `{Sha3}.

(** What the solver can return, with the transaction it leaves behind. The
    single-thread solver is the whole solver for one worker and the fallback
    for several. *)
(* src: tx_policy.rs:344-449 solve_transaction_pow_with_worker_count_and_cancel *)
Inductive worker_count_outcome (stop : nat -> bool) (tx : Transaction) (preimage : bytes)
    (required_bits start_nonce worker_count : Z) : Transaction -> result TxPowCancelled Z -> Prop :=
| outcome_single fuel tx' r :
    worker_count <= 1 ->
    solve_transaction_pow_single_thread fuel 0 stop tx preimage required_bits start_nonce = Some (tx', r) ->
    worker_count_outcome stop tx preimage required_bits start_nonce worker_count tx' r
| outcome_found k b s :
    1 < worker_count ->
    ParallelPow.reachable (nonce_solves preimage required_bits) worker_count
      (ParallelPow.init start_nonce worker_count k b) s ->
    ParallelPow.joined s -> ParallelPow.found s = true ->
    worker_count_outcome stop tx preimage required_bits start_nonce worker_count
      (with_pow_nonce tx (ParallelPow.solved_nonce s)) (Ok (ParallelPow.solved_nonce s))
| outcome_cancelled k b s :
    1 < worker_count ->
    ParallelPow.reachable (nonce_solves preimage required_bits) worker_count
      (ParallelPow.init start_nonce worker_count k b) s ->
    ParallelPow.joined s -> ParallelPow.found s = false ->
    ParallelPow.spawn_failed s = false -> ParallelPow.stop_requested s = true ->
    worker_count_outcome stop tx preimage required_bits start_nonce worker_count
      (with_pow_nonce tx 0) (Err TxPowCancelled_)
| outcome_fallback k b s fuel tx' r :
    1 < worker_count ->
    ParallelPow.reachable (nonce_solves preimage required_bits) worker_count
      (ParallelPow.init start_nonce worker_count k b) s ->
    ParallelPow.joined s -> ParallelPow.found s = false ->
    ParallelPow.spawn_failed s = true \/ ParallelPow.stop_requested s = false ->
    solve_transaction_pow_single_thread fuel 0 stop tx preimage required_bits start_nonce = Some (tx', r) ->
    worker_count_outcome stop tx preimage required_bits start_nonce worker_count tx' r.

(** [worker_count] is the resolved thread count and [random] what [getrandom] gave. *)
(* src: tx_policy.rs:297-321 solve_transaction_pow_with_config_and_cancel *)
Inductive solver_outcome (stop : nat -> bool) (random : option bytes) (worker_count : Z) (network : Network)
    (tx : Transaction) (fee_atoms : Z) : Transaction -> result TxPowCancelled Z -> Prop :=
| solver_not_required :
    required_tx_pow_bits network tx fee_atoms = 0 ->
    solver_outcome stop random worker_count network tx fee_atoms (with_pow tx 0 0) (Ok 0)
| solver_runs required_bits tx0 preimage tx' r :
    required_bits = required_tx_pow_bits network tx fee_atoms ->
    required_bits <> 0 ->
    tx0 = with_pow tx 0 required_bits ->
    preimage = transaction_pow_preimage network tx0 ->
    worker_count_outcome stop tx0 preimage required_bits (transaction_pow_nonce_start random preimage)
      worker_count tx' r ->
    solver_outcome stop random worker_count network tx fee_atoms tx' r.
End solver.

(** ** Thread count *)

Lemma saturating_percent a p :
  1 <= a -> 1 <= p <= 100 -> 0 <= saturating_mul USIZE_MAX a p / 100 <= a.
Proof.
  intros Ha Hp. assert (0 <= a * p <= a * 100) by nia.
  unfold saturating_mul, USIZE_MAX. split; [apply Z.div_pos; lia|].
  apply Z.div_le_upper_bound; lia.
Qed.

(** The solver always gets at least one thread and never more than the machine offers,
    whatever the environment configures, and an explicit cap is respected. *)
Theorem thread_count_bounds c available :
  let r := TxPowSolveConfig.resolved_thread_count_for_available c available in
  1 <= r <= Z.max available 1 /\
  (forall cap, max_threads c = Some cap -> r <= Z.max cap 1) /\
  (Z.max (min_threads c) 1 <= from_option id available (max_threads c) ->
   Z.min (Z.max (min_threads c) 1) (Z.max available 1) <= r).
Proof.
  cbn zeta. unfold TxPowSolveConfig.resolved_thread_count_for_available.
  pose proof (saturating_percent (Z.max available 1) (clamp (thread_percent c) 1 100) ltac:(lia)
    (clamp_bounds _ 1 100 ltac:(lia))) as Hs.
  destruct (max_threads c) as [cap|]; cbn [from_option id];
    destruct (auto_threads c); repeat case_match; bool_to_prop;
    split_and!; try intros ? [= <-]; try lia; done.
Qed.

(** ** Required bits *)

Lemma bump_mono c1 c2 n b1 b2 :
  0 <= n -> (c1 = true -> c2 = true) -> b1 <= b2 -> bump c1 n b1 <= bump c2 n b2.
Proof. unfold bump. intros ? Hc ?. destruct c1, c2; lia. Qed.

(** The proof-of-work difficulty of a transaction is 0 for coinbases, 12 bits on
    Testnet, and elsewhere always within [TX_POW_MIN_BITS, TX_POW_MAX_BITS]; paying more
    never raises it. *)
Theorem required_bits_spec network tx fee :
  (Transaction.is_coinbase tx = true -> required_tx_pow_bits network tx fee = 0) /\
  (Transaction.is_coinbase tx = false -> network = Testnet ->
     required_tx_pow_bits network tx fee = TESTNET_TX_POW_BITS) /\
  (Transaction.is_coinbase tx = false -> network <> Testnet ->
     TX_POW_MIN_BITS <= required_tx_pow_bits network tx fee <= TX_POW_MAX_BITS) /\
  (forall fee', fee <= fee' ->
     required_tx_pow_bits network tx fee' <= required_tx_pow_bits network tx fee).
Proof.
  unfold required_tx_pow_bits. split_and!.
  - by intros ->.
  - intros -> ->. by rewrite bool_decide_true.
  - intros -> Hn. rewrite bool_decide_false by done. by apply clamp_bounds.
  - intros fee' Hle. destruct (Transaction.is_coinbase tx); [lia|].
    destruct (bool_decide _); [lia|]. cbn zeta.
    set (v := Z.max _ 1). set (n := zlen _).
    assert (fee / v <= fee' / v) as Hr by (apply Z.div_le_mono; lia).
    clearbody n. generalize dependent (fee / v). generalize dependent (fee' / v). intros r' r Hr.
    match goal with |- context [bump (32 <? n) 1 ?b] => set (bits := bump (32 <? n) 1 b) end.
    clearbody bits. apply clamp_mono; [done|].
    apply bump_mono; [lia| |].
    + rewrite !andb_true_iff, !Z.leb_le. intros [? ?]. split; [done|lia].
    + destruct (Z.leb_spec 100 r), (Z.leb_spec 10 r), (Z.leb_spec 1 r),
        (Z.leb_spec 100 r'), (Z.leb_spec 10 r'), (Z.leb_spec 1 r'); lia.
Qed.

(** ** Leading zero bits *)

(** Leading zeros of a byte string, without the [u8] counter. *)
Fixpoint clz (bs : bytes) : Z :=
  match bs with
  | [] => 0
  | b :: bs => if byte_to_Z b =? 0 then 8 + clz bs else 7 - Z.log2 (byte_to_Z b)
  end.

Lemma scan_bits_nonzero b count :
  1 <= b < 256 -> 0 <= count <= 255 ->
  scan_bits b [7; 6; 5; 4; 3; 2; 1; 0] count = (Z.min 255 (count + (7 - Z.log2 b)), true).
Proof.
  intros Hb Hc.
  assert (Forall (fun b => forall count, scan_bits b [7; 6; 5; 4; 3; 2; 1; 0] count
    = (Nat.iter (Z.to_nat (7 - Z.log2 b)) (fun c => saturating_add 255 c 1) count, true)) (seqZ 1 255)) as H.
  { vm_compute seqZ. repeat (constructor; [intros; reflexivity|]). constructor. }
  rewrite Forall_forall in H. rewrite H by (apply elem_of_seqZ; lia). f_equal.
  assert (0 <= 7 - Z.log2 b) as Hk.
  { pose proof (Z.log2_lt_pow2 b 8 ltac:(lia)). lia. }
  rewrite <- (Z2Nat.id (7 - Z.log2 b)) at 2 by done.
  generalize (Z.to_nat (7 - Z.log2 b)). intros k. induction k as [|k IH]; [change (Nat.iter 0 _ count) with count|rewrite Nat.iter_succ].
  - rewrite Z.add_0_r. lia.
  - unfold saturating_add in *. rewrite IH. lia.
Qed.

Lemma clz_nonneg bs : 0 <= clz bs.
Proof.
  induction bs as [|b bs IH]; cbn [clz]; [done|].
  pose proof (byte_range b). destruct (Z.eqb_spec (byte_to_Z b) 0); [lia|].
  pose proof (proj1 (Z.log2_lt_pow2 (byte_to_Z b) 8 ltac:(lia)) ltac:(lia)). lia.
Qed.

Lemma leading_zero_bits_clz bs count :
  0 <= count <= 255 -> leading_zero_bits_from count bs = Z.min 255 (count + clz bs).
Proof.
  revert count. induction bs as [|b bs IH]; intros count Hc; cbn [leading_zero_bits_from clz].
  { lia. }
  pose proof (byte_range b). destruct (Z.eqb_spec (byte_to_Z b) 0).
  - unfold saturating_add in *. rewrite IH by lia.
    pose proof (clz_nonneg bs). lia.
  - rewrite scan_bits_nonzero by lia. done.
Qed.

(** The leading zeros measure the big-endian value. *)
Lemma clz_spec bs k :
  0 <= k <= 8 * zlen bs -> k <= clz bs <-> be_decode bs < 2 ^ (8 * zlen bs - k).
Proof.
  revert k. induction bs as [|b bs IH]; intros k Hk.
  { change (zlen (A:=byte) []) with 0 in *. cbn [clz]. change (be_decode []) with 0.
    assert (k = 0) as -> by lia. cbn. lia. }
  rewrite zlen_cons in *. cbn [clz]. rewrite be_decode_cons.
  pose proof (be_decode_range bs) as Hr. pose proof (byte_range b) as Hb.
  pose proof (zlen_nonneg bs) as Hn. rewrite Z.mul_comm in Hk.
  assert (256 ^ zlen bs = 2 ^ (8 * zlen bs)) as Hp by by rewrite Z.pow_mul_r.
  destruct (Z.eqb_spec (byte_to_Z b) 0) as [->|Hnz].
  - rewrite Z.mul_0_l, Z.add_0_l. destruct (Z.le_gt_cases k 8).
    + split; [|intros; enough (0 <= clz bs) by lia; apply IH; [lia|]; rewrite Z.sub_0_r; lia].
      intros _. eapply Z.lt_le_trans; [apply Hr|]. rewrite Hp. apply Z.pow_le_mono_r; lia.
    + replace (8 * (1 + zlen bs) - k) with (8 * zlen bs - (k - 8)) by lia.
      rewrite <- IH by lia. lia.
  - pose proof (Z.log2_spec (byte_to_Z b) ltac:(lia)) as [Hl1 Hl2].
    set (l := Z.log2 (byte_to_Z b)) in *. assert (0 <= l) as Hl0 by apply Z.log2_nonneg.
    rewrite Hp in *. split; intros Hx.
    + eapply Z.lt_le_trans with (2 ^ (8 * zlen bs) * 2 ^ (l + 1)); [nia|].
      rewrite <- Z.pow_add_r by lia. apply Z.pow_le_mono_r; lia.
    + destruct (Z.le_gt_cases k (7 - l)) as [|Hgt]; [done|exfalso].
      assert (2 ^ (8 * (1 + zlen bs) - k) <= 2 ^ (8 * zlen bs) * 2 ^ l); [|nia].
      rewrite <- Z.pow_add_r by lia. apply Z.pow_le_mono_r; lia.
Qed.

(** ** The parallel solver *)

Section parallel.
Context (solves : Z -> bool) (worker_count : Z).
Import ParallelPow.

(** Exactly one worker wins: while it has not stored its nonce it is the only
    [Won] worker; afterwards the stored nonce solves. *)
Definition pow_inv (s : state) : Prop :=
  (forall i j c d, workers s !! i = Some (Won c) -> workers s !! j = Some (Won d) -> i = j) /\
  (forall i c, workers s !! i = Some (Won c) -> solves c = true /\ is_u64 c /\ found s = true) /\
  (forall i c, workers s !! i = Some (Searching c) -> is_u64 c) /\
  (found s = true ->
     (exists i c, workers s !! i = Some (Won c)) \/ (solves (solved_nonce s) = true /\ is_u64 (solved_nonce s))).

Lemma wrapping_add_u64 a b : is_u64 (wrapping_add 64 a b).
Proof using. unfold uint, wrapping_add. by apply Z.mod_pos_bound. Qed.

Lemma pow_inv_init start k b : pow_inv (init start worker_count k b).
Proof using.
  assert (forall l i w, spawned start l !! i = Some w -> exists c, w = Searching c /\ is_u64 c) as Hs.
  { intros l i w. unfold spawned. rewrite list_lookup_fmap. intros (x & _ & ->)%fmap_Some.
    eexists. split; [done|apply wrapping_add_u64]. }
  unfold pow_inv, init. cbn [workers found solved_nonce]. split_and!.
  - intros i j c d Hi. by apply Hs in Hi as (? & ? & _).
  - intros i c Hi. by apply Hs in Hi as (? & ? & _).
  - intros i c Hi. apply Hs in Hi as (? & [= <-] & ?). done.
  - done.
Qed.

(** Replacing worker [i] of [s], read back. *)
Lemma set_worker_lookup s i w j w' :
  workers (set_worker s i w) !! j = Some w' ->
  (j = i /\ w' = w) \/ (j <> i /\ workers s !! j = Some w').
Proof using.
  cbn [set_worker workers]. intros H. destruct (decide (j = i)) as [->|Hne].
  - left. split; [done|]. pose proof (lookup_lt_Some _ _ _ H) as Hlt. rewrite length_insert in Hlt.
    rewrite list_lookup_insert_eq in H by done. by simplify_eq.
  - right. by rewrite list_lookup_insert_ne in H.
Qed.

(** A searching worker that moves on or leaves keeps the invariant. *)
Lemma pow_inv_quiet s i c w :
  pow_inv s -> workers s !! i = Some (Searching c) ->
  (w = Finished \/ exists d, w = Searching d /\ is_u64 d) -> pow_inv (set_worker s i w).
Proof using.
  intros (Huniq & Hwon & Hu & Hfound) Hi Hw. split_and!.
  - intros a b x y Ha Hb.
    apply set_worker_lookup in Ha as [[-> Ha]|[? Ha]]; [by destruct Hw as [->|(? & -> & _)]|].
    apply set_worker_lookup in Hb as [[-> Hb]|[? Hb]]; [by destruct Hw as [->|(? & -> & _)]|].
    by eapply Huniq.
  - intros a x Ha. apply set_worker_lookup in Ha as [[-> Ha]|[? Ha]]; [|by apply (Hwon a)].
    by destruct Hw as [->|(? & -> & _)].
  - intros a x Ha. apply set_worker_lookup in Ha as [[-> Ha]|[? Ha]]; [|by apply (Hu a)].
    destruct Hw as [->|(? & -> & ?)]; [done|]. by injection Ha as ->.
  - cbn [set_worker found solved_nonce workers]. intros Hf.
    destruct (Hfound Hf) as [(j & d & Hj)|?]; [left|by right].
    exists j, d. rewrite list_lookup_insert_ne; [done|]. intros ->. by rewrite Hi in Hj.
Qed.

Lemma pow_inv_win s i c :
  pow_inv s -> workers s !! i = Some (Searching c) -> solves c = true -> found s = false ->
  pow_inv (set_worker (set_found s) i (Won c)).
Proof using.
  intros (Huniq & Hwon & Hu & Hfound) Hi Hc Hf.
  assert (forall a x, workers (set_found s) !! a = Some (Won x) -> False) as Hno.
  { intros a x Ha. destruct (Hwon a x Ha) as (_ & _ & E). congruence. }
  split_and!.
  - intros a b x y Ha Hb.
    apply set_worker_lookup in Ha as [[-> Ha]|[? Ha]]; [|by apply Hno in Ha].
    by apply set_worker_lookup in Hb as [[-> Hb]|[? Hb]]; [|apply Hno in Hb].
  - intros a x Ha. apply set_worker_lookup in Ha as [[-> Ha]|[? Ha]]; [|by apply Hno in Ha].
    injection Ha as ->. split; [done|]. split; [by eapply Hu|done].
  - intros a x Ha. apply set_worker_lookup in Ha as [[-> Ha]|[? Ha]]; [done|by apply (Hu a)].
  - intros _. left. exists i, c. cbn [set_worker set_found workers].
    rewrite list_lookup_insert_eq; [done|by eapply lookup_lt_Some].
Qed.

Lemma pow_inv_store s i c :
  pow_inv s -> workers s !! i = Some (Won c) -> pow_inv (set_worker (set_solved s c) i Finished).
Proof using.
  intros (Huniq & Hwon & Hu & Hfound) Hi.
  destruct (Hwon i c Hi) as (Hs & Hc & Hf).
  assert (forall a x, a <> i -> workers s !! a = Some (Won x) -> False) as Hno.
  { intros a x Hne Ha. by apply Hne, (Huniq a i x c). }
  split_and!.
  - intros a b x y Ha Hb.
    apply set_worker_lookup in Ha as [[-> Ha]|[? Ha]]; [done|by apply Hno in Ha].
  - intros a x Ha. apply set_worker_lookup in Ha as [[-> Ha]|[? Ha]]; [done|by apply Hno in Ha].
  - intros a x Ha. apply set_worker_lookup in Ha as [[-> Ha]|[? Ha]]; [done|by apply (Hu a)].
  - intros _. by right.
Qed.

Lemma pow_inv_step s s' : step solves worker_count s s' -> pow_inv s -> pow_inv s'.
Proof using.
  intros [i c Hi Hf|i c Hi Hc Hf|i c Hi Hc Hf|i c Hi Hc|i c Hi|] Hinv.
  - eapply pow_inv_quiet; eauto.
  - by apply pow_inv_win.
  - eapply pow_inv_quiet; eauto.
  - eapply pow_inv_quiet; eauto using wrapping_add_u64.
  - by apply pow_inv_store.
  - done.
Qed.

Lemma pow_inv_reachable s0 s : reachable solves worker_count s0 s -> pow_inv s0 -> pow_inv s.
Proof using. induction 1; eauto using pow_inv_step. Qed.

(** Once all threads have joined, a set [found] flag means a stored solution. *)
Lemma joined_solution start k b s :
  reachable solves worker_count (init start worker_count k b) s ->
  joined s -> found s = true -> solves (solved_nonce s) = true /\ is_u64 (solved_nonce s).
Proof using.
  intros Hr Hj Hf. apply pow_inv_reachable in Hr as (_ & _ & _ & Hfound); [|apply pow_inv_init].
  destruct (Hfound Hf) as [(i & c & Hi)|?]; [exfalso|done].
  unfold joined in Hj. rewrite Forall_lookup in Hj. by apply Hj in Hi.
Qed.
End parallel.

(** ** Properties of the proof of work *)

Section pow.
Context `{Hs : Sha3}.

Lemma single_thread_sound fuel i stop tx preimage bits n tx' r :
  is_u64 n ->
  solve_transaction_pow_single_thread fuel i stop tx preimage bits n = Some (tx', r) ->
  match r with
  | Ok m => tx' = with_pow_nonce tx m /\ nonce_solves preimage bits m = true /\ is_u64 m
  | Err _ => tx' = with_pow_nonce tx 0 /\ exists j, stop j = true
  end.
Proof using.
  revert i n. induction fuel as [|fuel IH]; intros i n Hn H; [done|]. cbn in H.
  destruct (stop i) eqn:Hstop; simplify_eq; [by eauto|].
  destruct (_ <=? _) eqn:E; simplify_eq; [by split_and!|].
  eapply IH; [|done]. unfold uint, wrapping_add. by apply Z.mod_pos_bound.
Qed.

Lemma nonce_start_u64 random preimage :
  (forall r, random = Some r -> length r = 8%nat) -> (8 <= length preimage)%nat ->
  is_u64 (transaction_pow_nonce_start random preimage).
Proof using.
  intros Hr Hp. unfold transaction_pow_nonce_start, uint. change (2 ^ 64) with (256 ^ 8).
  destruct random as [r|].
  - specialize (Hr r eq_refl). pose proof (be_decode_range r) as H. unfold zlen in H. by rewrite Hr in H.
  - pose proof (be_decode_range (take 8 preimage)) as H. unfold zlen in H.
    by rewrite length_take, Nat.min_l in H.
Qed.

(** The message does not contain the fields the solver writes. *)
Lemma preimage_with_pow network tx n b :
  transaction_pow_preimage network (with_pow tx n b) = transaction_pow_preimage network tx.
Proof using. reflexivity. Qed.
Lemma required_bits_with_pow network tx n b fee :
  required_tx_pow_bits network (with_pow tx n b) fee = required_tx_pow_bits network tx fee.
Proof using. reflexivity. Qed.

Lemma solved_is_valid network tx fee m bits :
  bits = required_tx_pow_bits network tx fee -> bits <> 0 ->
  nonce_solves (transaction_pow_preimage network tx) bits m = true ->
  transaction_pow_is_valid network (with_pow tx m bits) fee = true.
Proof using.
  intros Hb Hnz Hsol. unfold transaction_pow_is_valid. rewrite required_bits_with_pow, <- Hb.
  unfold transaction_pow_is_valid_for_bits. rewrite preimage_with_pow.
  cbn [with_pow tx_pow_bits tx_pow_nonce]. rewrite Z.eqb_refl.
  destruct (Z.eqb_spec bits 0); [done|]. exact Hsol.
Qed.

(** By cases on how the solver ends. *)
Lemma solver_outcome_sound `{Laws : !Sha3Laws Hs} stop random worker_count network tx fee tx' r :
  (forall bs, random = Some bs -> length bs = 8%nat) ->
  solver_outcome stop random worker_count network tx fee tx' r ->
  same_spend tx' tx /\ witness tx' = witness tx /\
  match r with
  | Ok n => tx_pow_nonce tx' = n /\ transaction_pow_is_valid network tx' fee = true
  | Err _ => tx_pow_nonce tx' = 0
  end.
Proof using.
  intros Hrand [Hz|bits tx0 preimage tx1 r1 Hb Hnz Htx0 Hpre Hout].
  { split; [by repeat split|]. split; [done|]. split; [done|].
    unfold transaction_pow_is_valid. rewrite required_bits_with_pow, Hz. done. }
  assert (is_u64 (transaction_pow_nonce_start random preimage)) as Hu.
  { apply nonce_start_u64; [done|]. subst preimage. unfold transaction_pow_preimage.
    rewrite sha3_256_length. lia. }
  assert (forall m, nonce_solves preimage bits m = true ->
    transaction_pow_is_valid network (with_pow_nonce tx0 m) fee = true) as Hok.
  { intros m Hm. subst tx0 preimage. by apply solved_is_valid. }
  assert (forall m, same_spend (with_pow_nonce tx0 m) tx /\ witness (with_pow_nonce tx0 m) = witness tx
          /\ tx_pow_nonce (with_pow_nonce tx0 m) = m) as Hsame by (intros; subst tx0; by repeat split).
  assert (forall fuel tx1 r1,
    solve_transaction_pow_single_thread fuel 0 stop tx0 preimage bits
      (transaction_pow_nonce_start random preimage) = Some (tx1, r1) ->
    same_spend tx1 tx /\ witness tx1 = witness tx /\
    match r1 with
    | Ok n => tx_pow_nonce tx1 = n /\ transaction_pow_is_valid network tx1 fee = true
    | Err _ => tx_pow_nonce tx1 = 0
    end) as Hsingle.
  { intros fuel tx2 r2 E. apply single_thread_sound in E; [|done]. destruct r2 as [n|].
    - destruct E as (-> & E & _). destruct (Hsame n) as (? & ? & ?). auto.
    - destruct E as (-> & _). apply Hsame. }
  destruct Hout as [fuel tx1 r1 _ E|k b s _ Hr Hj Hf|k b s _ Hr Hj Hf|k b s fuel tx1 r1 _ Hr Hj Hf _ E].
  - by eapply Hsingle.
  - destruct (joined_solution _ _ _ _ _ _ Hr Hj Hf) as [Hsol _].
    destruct (Hsame (ParallelPow.solved_nonce s)) as (? & ? & ?). auto.
  - apply Hsame.
  - by eapply Hsingle.
Qed.

(** Whatever the scheduling of its worker threads, the random start and the point of
    cancellation, a solver run that returns [Ok] leaves a transaction that spends the
    same, with the same witness, and whose proof of work the validator accepts for that
    fee; a cancelled run reports it and leaves the nonce 0. *)
Theorem solver_outcome_valid `{Laws : !Sha3Laws Hs} stop random worker_count network tx fee tx' r :
  (forall bs, random = Some bs -> length bs = 8%nat) ->
  solver_outcome stop random worker_count network tx fee tx' r ->
  same_spend tx' tx /\ witness tx' = witness tx /\
  match r with
  | Ok n => tx_pow_nonce tx' = n /\ transaction_pow_is_valid network tx' fee = true
  | Err _ => tx_pow_nonce tx' = 0
  end.
Proof using. apply solver_outcome_sound. Qed.

(** The single-thread solver terminates: if any nonce within [k] steps of the start
    solves and nobody cancels, [k + 1] iterations return a solution. *)
Theorem single_thread_solver_terminates tx preimage bits start k :
  is_u64 start -> nonce_solves preimage bits ((start + Z.of_nat k) mod 2 ^ 64) = true ->
  exists m, nonce_solves preimage bits m = true /\
    forall fuel, (k < fuel)%nat ->
      solve_transaction_pow_single_thread fuel 0 (fun _ => false) tx preimage bits start
      = Some (with_pow_nonce tx m, Ok m).
Proof using.
  intros Hu Hk. revert start Hu Hk. induction k as [|k IH]; intros start Hu Hk.
  - rewrite Z.add_0_r, Z.mod_small in Hk by apply Hu. exists start. split; [done|].
    intros [|fuel] Hf; [lia|]. cbn. unfold nonce_solves in Hk. by rewrite Hk.
  - destruct (nonce_solves preimage bits start) eqn:E.
    { exists start. split; [done|]. intros [|fuel] Hf; [lia|]. cbn. unfold nonce_solves in E. by rewrite E. }
    destruct (IH (wrapping_add 64 start 1)) as (m & Hm & Hrun).
    + by apply Z.mod_pos_bound.
    + unfold wrapping_add. rewrite Z.add_mod_idemp_l by done.
      by replace (start + 1 + Z.of_nat k) with (start + Z.of_nat (S k)) by lia.
    + exists m. split; [done|]. intros [|fuel] Hf; [lia|]. cbn. unfold nonce_solves in E. rewrite E.
      rewrite <- (Hrun fuel) by lia. clear. generalize 0%nat (wrapping_add 64 start 1).
      induction fuel as [|fuel IH]; intros b n; cbn; [done|]. destruct (_ <=? _); [done|apply IH].
Qed.
End pow.

(** The proof-of-work test is numeric: a hash of 32 bytes has at least k leading zero
    bits, as the saturating [u8] counter reports them, exactly when its big-endian value
    is below 2^(256 - k), for every difficulty up to 255. *)
Theorem leading_zero_bits_numeric h k :
  length h = 32%nat -> 0 <= k <= 255 ->
  k <= leading_zero_bits h <-> be_decode h < 2 ^ (256 - k).
Proof.
  intros Hl Hk. unfold leading_zero_bits. rewrite leading_zero_bits_clz by lia.
  assert (zlen h = 32) as Hz by (unfold zlen; lia).
  pose proof (clz_spec h k ltac:(lia)) as H. rewrite Hz in H. change (8 * 32) with 256 in H.
  rewrite <- H. lia.
Qed.

(** *** Witnesses *)

Lemma leading_zero_bits_numeric_witness :
  let h := x00 :: x1f :: replicate 30 xff in
  12 <= 11 <-> be_decode h < 2 ^ (256 - 12).
Proof.
  cbv zeta. pose proof (leading_zero_bits_numeric (x00 :: x1f :: replicate 30 xff) 12 eq_refl ltac:(lia)) as H.
  by replace (leading_zero_bits (x00 :: x1f :: replicate 30 xff)) with 11 in H by (by vm_compute).
Defined.

(** A hash whose first byte clears once the last nonce byte is 5. *)
Definition toy_pow_sha3 : Sha3 :=
  {| sha3_256 := fun bs => match last bs with
                           | Some b => if decide (b = x05) then zeros 32 else replicate 32 xff
                           | None => replicate 32 xff
                           end;
     sha3_384 := fun _ => zeros 48 |}.
Lemma toy_pow_laws : Sha3Laws toy_pow_sha3.
Proof. split; intros bs; [|done]. cbn. destruct (last bs); [|done]. by case_decide. Qed.

Lemma single_thread_solver_terminates_witness :
  exists m, nonce_solves (H:=toy_pow_sha3) [] 12 m = true /\
    forall fuel, (3 < fuel)%nat ->
      solve_transaction_pow_single_thread (H:=toy_pow_sha3) fuel 0 (fun _ => false) (sample_tx [] 0) [] 12 2
      = Some (with_pow_nonce (sample_tx [] 0) m, Ok m).
Proof.
  apply (single_thread_solver_terminates (Hs:=toy_pow_sha3)); [done|by vm_compute].
Defined.

Lemma solver_outcome_valid_witness :
  transaction_pow_is_valid (H:=toy_pow_sha3) Testnet (with_pow (sample_tx [] 0) 5 12) 0 = true.
Proof.
  pose proof (solver_outcome_valid (Hs:=toy_pow_sha3) (Laws:=toy_pow_laws) (fun _ => false)
    (Some [x00; x00; x00; x00; x00; x00; x00; x03]) 1 Testnet (sample_tx [] 0) 0
    (with_pow (sample_tx [] 0) 5 12) (Ok 5)) as H.
  apply H; [by intros bs [= <-]|].
  apply (solver_runs (H:=toy_pow_sha3) _ _ _ _ _ _ 12 (with_pow (sample_tx [] 0) 0 12)
    (transaction_pow_preimage (H:=toy_pow_sha3) Testnet (sample_tx [] 0))); try done.
  apply (outcome_single (H:=toy_pow_sha3) _ _ _ _ _ _ 10); [done|]. by vm_compute.
Defined.
