(* ===== verification/Errors.v ===== *)
(** * Errors of the storage layer

    The error enums of crates/atho-storage/src/validation.rs and error.rs. Of a
    foreign [io::Error] and [lmdb::Error] only the kinds that the code tells apart
    are kept. *)
From stdpp Require Import options.
From S2P Require Import Prelude.

(* src: validation.rs:52-123 ValidationError *)
Inductive ValidationError :=
| NoInputs
| NoOutputs
| FeeBelowMinimum
| TransactionTooLarge
| InvalidTransactionVersion
| DuplicateInput
| ZeroValueOutput
| DustOutput
| TooManyOutputs
| LegacyLockFormatRejected
| InvalidWitness
| WrongTransactionPowBits
| InvalidTransactionPowNonce
| InvalidCoinbase
| CoinbaseRewardMismatch
| EmptyBlock
| BlockTooLarge
| BlockMerkleRootMismatch
| BlockWitnessRootMismatch
| BlockTargetOutOfBounds
| ProofOfWorkInvalid
| BlockParentHashMismatch
| DuplicateTransactionId
| MissingUtxo
| InputOwnershipMismatch
| InsufficientConfirmations
| WitnessInputReferenceMismatch
| FeeMismatch
| MempoolConflict
| InvalidBlockHeight
| InvalidBlockVersion
| InvalidBlockTimestamp
| BlockNetworkMismatch
| MultipleCoinbaseTransactions.

#[global] Instance ValidationError_eq_dec : EqDecision ValidationError.
Proof. solve_decision. Defined.

(** [io::ErrorKind] and [lmdb::Error]. *)
Inductive IoKind := FileNotFound | UnexpectedEof | OtherIo.
Inductive LmdbError := LmdbNotFound | LmdbMapFull | LmdbOther.
#[global] Instance IoKind_eq_dec : EqDecision IoKind.
Proof. solve_decision. Defined.
#[global] Instance LmdbError_eq_dec : EqDecision LmdbError.
Proof. solve_decision. Defined.

(** Constructors that [ValidationError] also has carry the suffix [Storage]. *)
(* src: storage_error.rs:15-64 StorageError *)
Inductive StorageError :=
| Validation (e : ValidationError)
| Io (kind : IoKind)
| Lmdb (err : LmdbError)
| PathUnavailable
| CorruptData
| PersistedGenesisMismatch
| PersistedTipMismatch
| IncompleteBlockHistory
| MissingUtxoStorage
| DuplicateUtxo
| CrossNetworkReplay
| LegacyStorageLayout
| SchemaVersionMismatch (expected found : Z)
| StorageMetadataMismatch (field : string)
| NoBlockToDisconnect
| EmptyBranch
| ForkPointUnavailable
| InvalidBranchSequence
| BranchNotPreferred
| ReorgTooDeep (depth max_depth fork_height current_height : Z)
| RollbackFailure.

#[global] Instance StorageError_eq_dec : EqDecision StorageError.
Proof. solve_decision. Defined.

(* src: storage_error.rs:67-82 StorageError::is_recoverable_local_state *)
Definition is_recoverable_local_state (e : StorageError) : bool :=
  match e with
  | CorruptData | PersistedGenesisMismatch | PersistedTipMismatch | IncompleteBlockHistory
  | LegacyStorageLayout | SchemaVersionMismatch _ _ | StorageMetadataMismatch _ => true
  | _ => false
  end.
