(* ===== verification/Utxo.v ===== *)
(** * The UTXO set

    crates/atho-storage/src/utxo.rs: entries, the in-memory set, block
    application with its undo journal and block disconnection. Operations
    return the set they leave behind, on errors too. *)
From stdpp Require Import options.
From S2P Require Import Prelude Bytes Constants Crypto Keccak Network Transaction Block Errors.

(* src: utxo.rs:13-17 UtxoKey *)
Record UtxoKey := {
  k_txid : bytes;
  k_output_index : Z;
}.

(* src: utxo.rs:19-29 UtxoEntry *)
Record UtxoEntry := {
  u_network : Network;
  u_txid : bytes;
  u_output_index : Z;
  u_value_atoms : Z;
  u_locking_script : bytes;
  created_height : Z;
  u_is_coinbase : bool;
}.

#[global] Instance UtxoKey_eq_dec : EqDecision UtxoKey.
Proof. solve_decision. Defined.
#[global] Instance UtxoEntry_eq_dec : EqDecision UtxoEntry.
Proof. solve_decision. Defined.
#[global] Program Instance UtxoKey_countable : Countable UtxoKey :=
  inj_countable' (fun k => (k_txid k, k_output_index k))
    (fun p => {| k_txid := p.1; k_output_index := p.2 |}) _.
Next Obligation. by intros []. Qed.

(** A [BTreeMap] from keys to entries. *)
(* src: utxo.rs:97-101 UtxoSet *)
Record UtxoSet := {
  us_network : Network;
  us_entries : gmap UtxoKey UtxoEntry;
}.

(* src: utxo.rs:196-200 BlockUndo *)
Record BlockUndo := {
  spent : list UtxoEntry;
  created : list UtxoEntry;
}.

Module UtxoEntry.

(* src: utxo.rs:32-50 UtxoEntry::new *)
Definition new (network : Network) (txid : bytes) (output_index value_atoms : Z) (locking_script : bytes)
    (created_height : Z) (is_coinbase : bool) : UtxoEntry :=
  {| u_network := network; u_txid := txid; u_output_index := output_index;
     u_value_atoms := value_atoms; u_locking_script := locking_script;
     created_height := created_height; u_is_coinbase := is_coinbase |}.

(* src: utxo.rs:52-69 UtxoEntry::coinbase *)
Definition coinbase (network : Network) (txid : bytes) (output_index value_atoms : Z)
    (locking_script : bytes) (created_height : Z) : UtxoEntry :=
  new network txid output_index value_atoms locking_script created_height true.

(* src: utxo.rs:71-77 UtxoEntry::confirmation_count *)
Definition confirmation_count (e : UtxoEntry) (spend_height : Z) : Z :=
  if spend_height <? created_height e then 0 else spend_height - created_height e + 1.

(* src: utxo.rs:79-86 UtxoEntry::required_confirmations *)
Definition required_confirmations (e : UtxoEntry) : Z :=
  let params := consensus_params_for_network (u_network e) in
  if u_is_coinbase e then coinbase_maturity_blocks params
  else normal_tx_valid_after_confirmations params.

(* src: utxo.rs:88-90 UtxoEntry::is_spendable_at *)
Definition is_spendable_at (e : UtxoEntry) (spend_height : Z) : bool :=
  required_confirmations e <=? confirmation_count e spend_height.

(* src: utxo.rs:92-94 UtxoEntry::is_coinbase_mature *)
Definition is_coinbase_mature (e : UtxoEntry) (spend_height : Z) : bool := is_spendable_at e spend_height.

(** The key an entry is stored under. *)
Definition key (e : UtxoEntry) : UtxoKey := {| k_txid := u_txid e; k_output_index := u_output_index e |}.

End UtxoEntry.

(** The key an input spends. *)
Definition input_key (i : TxInput) : UtxoKey :=
  {| k_txid := previous_txid i; k_output_index := output_index i |}.

Module UtxoSet.

Definition with_entries (s : UtxoSet) (m : gmap UtxoKey UtxoEntry) : UtxoSet :=
  {| us_network := us_network s; us_entries := m |}.

(* src: utxo.rs:104-109 UtxoSet::new *)
Definition new (network : Network) : UtxoSet := {| us_network := network; us_entries := ∅ |}.

(** [BTreeMap::insert] replaces an existing entry before the duplicate is noticed. *)
(* src: utxo.rs:111-123 UtxoSet::insert *)
Definition insert (s : UtxoSet) (e : UtxoEntry) : UtxoSet * result StorageError unit :=
  if negb (bool_decide (u_network e = us_network s)) then (s, Err CrossNetworkReplay)
  else
    let s' := with_entries s (<[UtxoEntry.key e := e]> (us_entries s)) in
    match us_entries s !! UtxoEntry.key e with
    | Some _ => (s', Err DuplicateUtxo)
    | None => (s', Ok tt)
    end.

(* src: utxo.rs:125-128 UtxoSet::get *)
Definition get (s : UtxoSet) (txid : bytes) (output_index : Z) : option UtxoEntry :=
  us_entries s !! {| k_txid := txid; k_output_index := output_index |}.

(* src: utxo.rs:130-133 UtxoSet::remove *)
Definition remove (s : UtxoSet) (txid : bytes) (output_index : Z) : UtxoSet * result StorageError UtxoEntry :=
  let key := {| k_txid := txid; k_output_index := output_index |} in
  match us_entries s !! key with
  | Some e => (with_entries s (delete key (us_entries s)), Ok e)
  | None => (s, Err MissingUtxoStorage)
  end.

(* src: utxo.rs:135-137 UtxoSet::len *)
Definition len (s : UtxoSet) : Z := Z.of_nat (size (us_entries s)).
(* src: utxo.rs:139-141 UtxoSet::is_empty *)
Definition is_empty (s : UtxoSet) : bool := bool_decide (us_entries s = ∅).
(** The derived order of [UtxoKey], in which the map iterates. *)
Definition key_compare (k1 k2 : UtxoKey) : comparison :=
  then_with (bytes_compare (k_txid k1) (k_txid k2)) (Z.compare (k_output_index k1) (k_output_index k2)).
Definition key_le (k1 k2 : UtxoKey) : Prop := key_compare k1 k2 <> Gt.
#[global] Instance key_le_dec k1 k2 : Decision (key_le k1 k2).
Proof. unfold key_le. apply _. Defined.

(* src: utxo.rs:147-149 UtxoSet::entries *)
Definition entries (s : UtxoSet) : list UtxoEntry := (sorted_entries key_le (us_entries s)).*2.

(* src: utxo.rs:143-145 UtxoSet::clear *)
Definition clear (s : UtxoSet) : UtxoSet := with_entries s ∅.

(** [let _ = self.insert(..)] and [let _ = self.remove(..)]. *)
Definition insert_all (s : UtxoSet) (es : list UtxoEntry) : UtxoSet :=
  fold_left (fun s e => (insert s e).1) es s.
Definition remove_all (s : UtxoSet) (es : list UtxoEntry) : UtxoSet :=
  fold_left (fun s e => (remove s (u_txid e) (u_output_index e)).1) es s.

(* src: utxo.rs:184-193 UtxoSet::disconnect_block *)
Definition disconnect_block (s : UtxoSet) (undo : BlockUndo) : UtxoSet :=
  let s := remove_all s (created undo) in
  insert_all s (spent undo).

(** [spent] is the vector of entries removed so far. *)
(* src: utxo.rs:212-226 spend_inputs *)
Fixpoint spend_inputs (s : UtxoSet) (spent : list UtxoEntry) (inputs : list TxInput) :
    UtxoSet * result StorageError (list UtxoEntry) :=
  match inputs with
  | [] => (s, Ok spent)
  | i :: inputs =>
      match remove s (previous_txid i) (output_index i) with
      | (s, Ok e) => spend_inputs s (spent ++ [e]) inputs
      | (s, Err err) => (insert_all s (reverse spent), Err err)
      end
  end.

Section hashes.
Context `{Sha3}.

(* src: utxo.rs:228-245 create_outputs *)
Definition create_outputs (tx : Transaction) (network : Network) (created_height : Z) : list UtxoEntry :=
  let txid := Transaction.txid tx in
  imap (fun i o =>
      UtxoEntry.new network txid (Z.of_nat i mod 2 ^ 32) (value_atoms o) (locking_script o) created_height
        (Transaction.is_coinbase tx))
    (outputs tx).

(** The inner loop of [apply_block]: insert a transaction's outputs, journalling
    each; a failure unwinds the journal. *)
(* src: utxo.rs:172-178 UtxoSet::apply_block (output loop) *)
Fixpoint insert_outputs (s : UtxoSet) (undo : BlockUndo) (es : list UtxoEntry) :
    UtxoSet * result StorageError BlockUndo :=
  match es with
  | [] => (s, Ok undo)
  | e :: es =>
      match insert s e with
      | (s, Err err) => (disconnect_block s undo, Err err)
      | (s, Ok _) => insert_outputs s {| spent := spent undo; created := created undo ++ [e] |} es
      end
  end.

(* src: utxo.rs:161-179 UtxoSet::apply_block (transaction loop) *)
Fixpoint apply_transactions (s : UtxoSet) (undo : BlockUndo) (height : Z) (txs : list Transaction) :
    UtxoSet * result StorageError BlockUndo :=
  match txs with
  | [] => (s, Ok undo)
  | tx :: txs =>
      match spend_inputs s [] (inputs tx) with
      | (s, Err err) => (disconnect_block s undo, Err err)
      | (s, Ok sp) =>
          let undo := {| spent := spent undo ++ sp; created := created undo |} in
          match insert_outputs s undo (create_outputs tx (us_network s) height) with
          | (s, Err err) => (s, Err err)
          | (s, Ok undo) => apply_transactions s undo height txs
          end
      end
  end.

(* src: utxo.rs:151-182 UtxoSet::apply_block *)
Definition apply_block (s : UtxoSet) (b : Block) : UtxoSet * result StorageError BlockUndo :=
  apply_transactions s {| spent := []; created := [] |} (height (header b)) (transactions b).
End hashes.

(** The invariant of the set: entries sit under their own key, on its network. *)
Definition wf (s : UtxoSet) : Prop :=
  map_Forall (fun k e => UtxoEntry.key e = k /\ u_network e = us_network s) (us_entries s).

(** The coins in existence. *)
Definition total_value (m : gmap UtxoKey UtxoEntry) : Z := map_fold (fun _ e n => u_value_atoms e + n) 0 m.

End UtxoSet.

(** ** Notions of the specification *)

Abbreviation keys_of := (fmap UtxoEntry.key).

(** The entries left after removing the keys [ks], and after adding [es]. *)
Definition without_keys (m : gmap UtxoKey UtxoEntry) (ks : list UtxoKey) : gmap UtxoKey UtxoEntry :=
  foldr delete m ks.
Definition with_new (m : gmap UtxoKey UtxoEntry) (es : list UtxoEntry) : gmap UtxoKey UtxoEntry :=
  foldl (fun m e => <[UtxoEntry.key e := e]> m) m es.

Definition values (es : list UtxoEntry) : Z := zsum (u_value_atoms <$> es).

(** [taken] are the entries of [m] at the inputs' keys, all different. *)
Definition spends (m : gmap UtxoKey UtxoEntry) (inputs : list TxInput) (taken : list UtxoEntry) : Prop :=
  Forall2 (fun i e => m !! input_key i = Some e) inputs taken /\ NoDup (input_key <$> inputs).

(** ** Lemmas on the set *)

Lemma lookup_without_keys m ks k :
  without_keys m ks !! k = if decide (k ∈ ks) then None else m !! k.
Proof.
  induction ks as [|k' ks IH]; cbn [without_keys foldr].
  - by rewrite decide_False by by apply not_elem_of_nil.
  - destruct (decide (k = k')) as [->|Hne].
    + by rewrite lookup_delete_eq, decide_True by by left.
    + rewrite lookup_delete_ne by done. fold (without_keys m ks). rewrite IH.
      repeat case_decide; try done; set_solver.
Qed.

Lemma with_new_lookup m es k :
  with_new m es !! k =
    match last (filter (fun e => UtxoEntry.key e = k) es) with Some e => Some e | None => m !! k end.
Proof.
  unfold with_new. revert m. induction es as [|e es IH] using rev_ind; intros m; [done|].
  rewrite foldl_app, filter_app. cbn [foldl].
  rewrite filter_cons, filter_nil. destruct (decide (UtxoEntry.key e = k)) as [Hk|Hk].
  - rewrite last_snoc, <- Hk. by rewrite lookup_insert_eq.
  - rewrite app_nil_r, lookup_insert_ne by done. apply IH.
Qed.

Lemma with_new_fresh m es k : k ∉ keys_of es -> with_new m es !! k = m !! k.
Proof.
  intros Hk. rewrite with_new_lookup.
  destruct (last _) as [e|] eqn:E; [exfalso|done]. apply Hk.
  apply last_Some_elem_of, list_elem_of_filter in E as [<- He]. by apply list_elem_of_fmap_2.
Qed.

Lemma with_new_in m es e :
  NoDup (keys_of es) -> e ∈ es -> with_new m es !! UtxoEntry.key e = Some e.
Proof.
  intros Hnd He. unfold with_new. revert m.
  induction es as [|e' es IH]; intros m; [by apply not_elem_of_nil in He|].
  rewrite fmap_cons in Hnd. apply NoDup_cons in Hnd as [Hn Hnd]. cbn [foldl].
  apply elem_of_cons in He as [->|He]; [|by apply IH].
  fold (with_new (<[UtxoEntry.key e' := e']> m) es).
  rewrite with_new_fresh by done. by rewrite lookup_insert_eq.
Qed.

(** *** The loops whose errors are ignored *)

Lemma insert_fst s e :
  us_network (UtxoSet.insert s e).1 = us_network s /\
  (u_network e = us_network s ->
   us_entries (UtxoSet.insert s e).1 = <[UtxoEntry.key e := e]> (us_entries s)).
Proof.
  unfold UtxoSet.insert. case_bool_decide; cbn [negb]; [|done].
  by destruct (us_entries s !! UtxoEntry.key e).
Qed.

Lemma insert_all_spec s es :
  Forall (fun e => u_network e = us_network s) es ->
  UtxoSet.insert_all s es = UtxoSet.with_entries s (with_new (us_entries s) es).
Proof.
  unfold UtxoSet.insert_all, with_new. revert s. induction es as [|e es IH]; intros s H; [by destruct s|].
  apply Forall_cons in H as [He H]. cbn [fold_left foldl].
  destruct (insert_fst s e) as [Hn Hi]. rewrite IH by by rewrite Hn.
  unfold UtxoSet.with_entries. by rewrite Hn, Hi.
Qed.

Lemma remove_fst s t i :
  (UtxoSet.remove s t i).1
  = UtxoSet.with_entries s (delete {| k_txid := t; k_output_index := i |} (us_entries s)).
Proof.
  unfold UtxoSet.remove. destruct (us_entries s !! _) eqn:E; [done|].
  cbn. rewrite delete_id by done. by destruct s.
Qed.

Lemma remove_all_spec s es :
  UtxoSet.remove_all s es = UtxoSet.with_entries s (without_keys (us_entries s) (keys_of es)).
Proof.
  unfold UtxoSet.remove_all. revert s. induction es as [|e es IH]; intros s; [by destruct s|].
  cbn [fold_left]. rewrite remove_fst, IH. unfold UtxoSet.with_entries. cbn [us_entries us_network].
  f_equal. rewrite fmap_cons. cbn [without_keys foldr]. fold (without_keys (us_entries s) (keys_of es)).
  apply map_eq. intros k. change {| k_txid := u_txid e; k_output_index := u_output_index e |}
    with (UtxoEntry.key e).
  rewrite lookup_without_keys. destruct (decide (k = UtxoEntry.key e)) as [->|Hne].
  - rewrite !lookup_delete_eq. by case_decide.
  - rewrite !lookup_delete_ne, lookup_without_keys by done. done.
Qed.

Lemma disconnect_spec s undo :
  Forall (fun e => u_network e = us_network s) (spent undo) ->
  UtxoSet.disconnect_block s undo
  = UtxoSet.with_entries s
      (with_new (without_keys (us_entries s) (keys_of (created undo))) (spent undo)).
Proof. intros H. unfold UtxoSet.disconnect_block. rewrite remove_all_spec. by rewrite insert_all_spec. Qed.

(** *** Value *)

Lemma total_value_insert m k e :
  m !! k = None -> UtxoSet.total_value (<[k := e]> m) = u_value_atoms e + UtxoSet.total_value m.
Proof.
  intros H. unfold UtxoSet.total_value.
  apply (map_fold_insert_L (fun _ e n => u_value_atoms e + n)); [|done]. intros; lia.
Qed.
Lemma total_value_delete m k e :
  m !! k = Some e -> UtxoSet.total_value (delete k m) = UtxoSet.total_value m - u_value_atoms e.
Proof.
  intros H. rewrite <- (insert_id _ _ _ H) at 2. rewrite <- insert_delete_eq.
  rewrite total_value_insert by apply lookup_delete_eq. lia.
Qed.

Lemma values_app es1 es2 : values (es1 ++ es2) = values es1 + values es2.
Proof. unfold values. by rewrite fmap_app, zsum_app. Qed.
Lemma values_cons e es : values (e :: es) = u_value_atoms e + values es.
Proof. done. Qed.

(** *** Spending inputs *)

Lemma spends_cons m i ins e es :
  spends m (i :: ins) (e :: es) <->
  m !! input_key i = Some e /\ spends (delete (input_key i) m) ins es.
Proof.
  unfold spends. rewrite fmap_cons, NoDup_cons, Forall2_cons. split.
  - intros [[He Hes] [Hn Hnd]]. split; [done|]. split; [|done].
    revert Hn. clear -Hes. induction Hes as [|i' e' ins es H Hes IH]; intros Hn; [constructor|].
    rewrite fmap_cons, not_elem_of_cons in Hn. destruct Hn as [Hne Hn].
    constructor; [by rewrite lookup_delete_ne|by apply IH].
  - intros [He [Hes Hnd]]. split_and!; try done.
    + eapply Forall2_impl; [done|]. intros i' e'. cbn. by intros [_ ?]%lookup_delete_Some.
    + intros (i' & Hi & Hin)%list_elem_of_fmap.
      apply list_elem_of_lookup in Hin as [j Hj].
      destruct (Forall2_lookup_l _ _ _ _ _ Hes Hj) as (e' & _ & Hl). cbn in Hl.
      by rewrite Hi, lookup_delete_eq in Hl.
Qed.

Lemma spends_elem m ins taken e :
  spends m ins taken -> e ∈ taken -> exists i, i ∈ ins /\ m !! input_key i = Some e.
Proof.
  intros [H _] He. apply list_elem_of_lookup in He as [j Hj].
  destruct (Forall2_lookup_r _ _ _ _ _ H Hj) as (i & Hi & Hl).
  exists i. split; [by eapply list_elem_of_lookup_2|done].
Qed.

Lemma without_keys_delete m k ks : without_keys (delete k m) ks = without_keys m (k :: ks).
Proof.
  apply map_eq. intros k'. rewrite !lookup_without_keys.
  destruct (decide (k' = k)) as [->|Hne].
  - rewrite lookup_delete_eq, (decide_True (P:=k ∈ k :: ks)) by by left. by case_decide.
  - rewrite lookup_delete_ne by done. repeat case_decide; try done; set_solver.
Qed.

Lemma total_value_spends m ins taken :
  spends m ins taken ->
  UtxoSet.total_value (without_keys m (input_key <$> ins)) = UtxoSet.total_value m - values taken.
Proof.
  revert m taken. induction ins as [|i ins IH]; intros m taken H.
  { destruct H as [H _]. apply Forall2_nil_inv_l in H as ->. cbn. lia. }
  destruct taken as [|e taken]; [by destruct H as [H%Forall2_cons_nil_inv _]|].
  apply spends_cons in H as [He H]. rewrite fmap_cons, <- without_keys_delete.
  rewrite (IH _ _ H), (total_value_delete _ _ _ He), values_cons. lia.
Qed.

Lemma spend_inputs_run s sp0 ins s' r :
  UtxoSet.spend_inputs s sp0 ins = (s', r) ->
  match r with
  | Ok sp => exists taken, sp = sp0 ++ taken /\ spends (us_entries s) ins taken /\
      s' = UtxoSet.with_entries s (without_keys (us_entries s) (input_key <$> ins))
  | Err err => err = MissingUtxoStorage /\ exists pre taken,
      spends (us_entries s) pre taken /\
      s' = UtxoSet.insert_all (UtxoSet.with_entries s (without_keys (us_entries s) (input_key <$> pre)))
             (reverse (sp0 ++ taken))
  end.
Proof.
  revert s sp0. induction ins as [|i ins IH]; intros s sp0 H; cbn in H.
  - injection H as <- <-. exists []. rewrite app_nil_r. split; [done|]. split; [|by destruct s].
    split; constructor.
  - unfold UtxoSet.remove in H. fold (input_key i) in H.
    destruct (us_entries s !! input_key i) as [e|] eqn:Ei.
    + apply IH in H. destruct r as [sp|err].
      * destruct H as (taken & -> & Hsp & ->). exists (e :: taken). split; [by rewrite <- app_assoc|].
        cbn [us_entries UtxoSet.with_entries] in *. split; [by apply spends_cons|].
        by rewrite fmap_cons, <- without_keys_delete.
      * destruct H as (-> & pre & taken & Hsp & ->). split; [done|]. exists (i :: pre), (e :: taken).
        cbn [us_entries UtxoSet.with_entries] in *. split; [by apply spends_cons|].
        rewrite fmap_cons, <- without_keys_delete, <- app_assoc. done.
    + injection H as <- <-. split; [done|]. exists [], []. rewrite app_nil_r.
      split; [split; constructor|]. by destruct s.
Qed.

(** Reinserting what was taken restores the map. *)
Lemma restore_keys m ks es :
  (forall e, e ∈ es -> m !! UtxoEntry.key e = Some e) -> (forall k, k ∈ ks -> k ∈ keys_of es) ->
  with_new (without_keys m ks) es = m.
Proof.
  intros He Hk. apply map_eq. intros k. rewrite with_new_lookup.
  destruct (last (filter (fun e => UtxoEntry.key e = k) es)) as [e|] eqn:E.
  - apply last_Some_elem_of, list_elem_of_filter in E as [<- E]. symmetry. by apply He.
  - rewrite lookup_without_keys. case_decide as Hin; [exfalso|done].
    apply Hk, list_elem_of_fmap in Hin as (e & -> & Hin).
    apply last_None in E.
    assert (e ∈ filter (fun e' => UtxoEntry.key e' = UtxoEntry.key e) es) as Hf
      by by apply list_elem_of_filter. rewrite E in Hf. by apply not_elem_of_nil in Hf.
Qed.

Lemma spends_keys m ins taken :
  map_Forall (fun k e => UtxoEntry.key e = k) m -> spends m ins taken ->
  keys_of taken = input_key <$> ins.
Proof.
  intros Hm [H _]. induction H as [|i e ins es He H IH]; [done|]. rewrite !fmap_cons, IH.
  f_equal. by apply (Hm _ _ He).
Qed.

Lemma wf_keys s : UtxoSet.wf s -> map_Forall (fun k e => UtxoEntry.key e = k) (us_entries s).
Proof. intros H. eapply map_Forall_impl; [done|]. by intros k e [? _]. Qed.

(** A failed spend leaves the set as it was. *)
Lemma spend_inputs_err s ins s' err :
  UtxoSet.wf s -> UtxoSet.spend_inputs s [] ins = (s', Err err) -> err = MissingUtxoStorage /\ s' = s.
Proof.
  intros Hwf H. apply spend_inputs_run in H as (-> & pre & taken & Hsp & ->). split; [done|].
  pose proof (spends_keys _ _ _ (wf_keys s Hwf) Hsp) as Hk. rewrite app_nil_l.
  rewrite insert_all_spec; [|].
  - destruct s as [n m]. unfold UtxoSet.with_entries. cbn [us_network us_entries] in *. f_equal.
    apply restore_keys.
    + intros e He. rewrite elem_of_reverse in He. destruct (spends_elem _ _ _ _ Hsp He) as (i & _ & Hi).
      destruct (Hwf _ _ Hi) as [Hke _]. by rewrite Hke.
    + intros k. rewrite fmap_reverse, elem_of_reverse, Hk. done.
  - apply Forall_reverse, Forall_forall. intros e He.
    destruct (spends_elem _ _ _ _ Hsp He) as (i & _ & Hi). by destruct (Hwf _ _ Hi).
Qed.

(** *** Inserting outputs *)

Lemma with_new_cons m e es : with_new m (e :: es) = with_new (<[UtxoEntry.key e := e]> m) es.
Proof. done. Qed.

(** The entries [es] go to places of [m] that are empty, all different. *)
Definition places (m : gmap UtxoKey UtxoEntry) (es : list UtxoEntry) : Prop :=
  Forall (fun e => m !! UtxoEntry.key e = None) es /\ NoDup (keys_of es).

Lemma places_cons m e es :
  places m (e :: es) <-> m !! UtxoEntry.key e = None /\ places (<[UtxoEntry.key e := e]> m) es.
Proof.
  unfold places. rewrite fmap_cons, NoDup_cons, Forall_cons. split.
  - intros [[He Hes] [Hn Hnd]]. split; [done|]. split; [|done].
    rewrite !Forall_forall in *. intros e' He'. rewrite lookup_insert_ne; [by apply Hes|].
    intros Heq. apply Hn. rewrite Heq. by apply list_elem_of_fmap_2.
  - intros [He [Hes Hnd]]. rewrite !Forall_forall in *. split_and!; try done.
    + intros e' He'. by destruct (proj1 (lookup_insert_None _ _ _ _) (Hes _ He')).
    + intros (e' & Hk & He')%list_elem_of_fmap. specialize (Hes _ He'). cbn in Hes.
      by rewrite <- Hk, lookup_insert_eq in Hes.
Qed.

Lemma total_value_places m es :
  places m es -> UtxoSet.total_value (with_new m es) = UtxoSet.total_value m + values es.
Proof.
  revert m. induction es as [|e es IH]; intros m H; [cbn; lia|].
  apply places_cons in H as [He H]. rewrite with_new_cons, IH by done.
  rewrite total_value_insert, values_cons by done. lia.
Qed.

Lemma insert_outputs_run s undo es s' r :
  Forall (fun e => u_network e = us_network s) es ->
  UtxoSet.insert_outputs s undo es = (s', r) ->
  match r with
  | Ok undo' => places (us_entries s) es /\ s' = UtxoSet.with_entries s (with_new (us_entries s) es) /\
      undo' = {| spent := spent undo; created := created undo ++ es |}
  | Err err => err = DuplicateUtxo /\ ~ places (us_entries s) es
  end.
Proof.
  revert s undo. induction es as [|e es IH]; intros s undo Hn H; cbn in H.
  - injection H as <- <-. split; [split; constructor|]. rewrite app_nil_r. by destruct s, undo.
  - apply Forall_cons in Hn as [Hne Hn]. unfold UtxoSet.insert in H.
    rewrite bool_decide_true in H by done. cbn [negb] in H.
    destruct (us_entries s !! UtxoEntry.key e) as [e'|] eqn:He.
    + injection H as _ <-. split; [done|]. intros [Hp _]%places_cons. congruence.
    + apply IH in H; [|done]. cbn [us_entries UtxoSet.with_entries spent created] in H.
      destruct r as [undo'|err].
      * destruct H as (Hp & -> & ->). split; [by apply places_cons|]. split; [done|].
        by rewrite <- app_assoc.
      * destruct H as [-> Hp]. split; [done|]. by intros [_ ?]%places_cons.
Qed.

Lemma insert_outputs_ok s undo es :
  Forall (fun e => u_network e = us_network s) es -> places (us_entries s) es ->
  UtxoSet.insert_outputs s undo es
  = (UtxoSet.with_entries s (with_new (us_entries s) es),
     Ok {| spent := spent undo; created := created undo ++ es |}).
Proof.
  intros Hn Hp. destruct (UtxoSet.insert_outputs s undo es) as [s' r] eqn:H.
  apply insert_outputs_run in H; [|done]. destruct r; [by destruct H as (_ & -> & ->)|].
  by destruct H.
Qed.

Lemma spend_inputs_ok s sp0 ins taken :
  spends (us_entries s) ins taken ->
  UtxoSet.spend_inputs s sp0 ins
  = (UtxoSet.with_entries s (without_keys (us_entries s) (input_key <$> ins)), Ok (sp0 ++ taken)).
Proof.
  revert s sp0 taken. induction ins as [|i ins IH]; intros s sp0 taken H.
  - destruct H as [H%Forall2_nil_inv_l _]. subst taken. rewrite app_nil_r. by destruct s.
  - destruct taken as [|e taken]; [by destruct H as [H%Forall2_cons_nil_inv _]|].
    apply spends_cons in H as [He H]. cbn [UtxoSet.spend_inputs]. unfold UtxoSet.remove.
    fold (input_key i). rewrite He, (IH _ _ taken) by done.
    cbn [us_entries UtxoSet.with_entries us_network].
    by rewrite fmap_cons, <- without_keys_delete, <- app_assoc.
Qed.

Lemma wf_without s ks : UtxoSet.wf s -> UtxoSet.wf (UtxoSet.with_entries s (without_keys (us_entries s) ks)).
Proof.
  intros H k e. cbn [us_entries us_network UtxoSet.with_entries]. rewrite lookup_without_keys.
  case_decide; [done|]. apply H.
Qed.
Lemma wf_with_new s es :
  UtxoSet.wf s -> Forall (fun e => u_network e = us_network s) es ->
  UtxoSet.wf (UtxoSet.with_entries s (with_new (us_entries s) es)).
Proof.
  intros H Hn k e. cbn [us_entries us_network UtxoSet.with_entries]. rewrite with_new_lookup.
  destruct (last _) as [e'|] eqn:E; [|apply H]. intros Heq. injection Heq as <-.
  apply last_Some_elem_of, list_elem_of_filter in E as [<- E]. split; [done|].
  rewrite Forall_forall in Hn. by apply Hn.
Qed.

Lemma without_with_new m es :
  (forall e, e ∈ es -> m !! UtxoEntry.key e = None) -> without_keys (with_new m es) (keys_of es) = m.
Proof.
  intros H. apply map_eq. intros k. rewrite lookup_without_keys. case_decide as Hk.
  - apply list_elem_of_fmap in Hk as (e & -> & He). symmetry. by apply H.
  - by apply with_new_fresh.
Qed.

(** ** Blocks *)

Section blocks.
Context `{Sha3}.

(** The outputs a transaction creates, each under its own key. *)
Lemma create_outputs_fields tx n h :
  Forall (fun e => u_network e = n /\ u_txid e = Transaction.txid tx /\ created_height e = h /\
            u_is_coinbase e = Transaction.is_coinbase tx)
    (UtxoSet.create_outputs tx n h).
Proof.
  apply Forall_forall. intros e He. unfold UtxoSet.create_outputs in He.
  by apply elem_of_lookup_imap_1 in He as (i & o & -> & _).
Qed.
Lemma create_outputs_network tx n h :
  Forall (fun e => u_network e = n) (UtxoSet.create_outputs tx n h).
Proof. eapply Forall_impl; [apply create_outputs_fields|]. by intros e (? & _). Qed.
Lemma create_outputs_txid tx n h e : e ∈ UtxoSet.create_outputs tx n h -> u_txid e = Transaction.txid tx.
Proof.
  pose proof (create_outputs_fields tx n h) as Hf. rewrite Forall_forall in Hf.
  intros He. by destruct (Hf e He) as (_ & ? & _).
Qed.

Lemma create_outputs_values tx n h :
  values (UtxoSet.create_outputs tx n h) = zsum (value_atoms <$> outputs tx).
Proof.
  unfold values, UtxoSet.create_outputs. rewrite fmap_imap. f_equal.
  apply list_eq. intros i. rewrite list_lookup_imap, list_lookup_fmap.
  by destruct (outputs tx !! i).
Qed.

Lemma create_outputs_lookup tx n h i :
  UtxoSet.create_outputs tx n h !! i =
    (fun o => UtxoEntry.new n (Transaction.txid tx) (Z.of_nat i mod 2 ^ 32) (value_atoms o)
                (locking_script o) h (Transaction.is_coinbase tx)) <$> (outputs tx !! i).
Proof. apply list_lookup_imap. Qed.

Lemma create_outputs_nodup tx n h :
  zlen (outputs tx) <= 2 ^ 32 -> NoDup (keys_of (UtxoSet.create_outputs tx n h)).
Proof.
  intros Hlen. apply NoDup_alt. intros i j k. rewrite !list_lookup_fmap, !create_outputs_lookup.
  destruct (outputs tx !! i) as [oi|] eqn:Ei, (outputs tx !! j) as [oj|] eqn:Ej; try done.
  apply lookup_lt_Some in Ei, Ej. cbn. intros Hi Hj. rewrite <- Hj in Hi. injection Hi as Hij.
  unfold zlen in Hlen. rewrite !Z.mod_small in Hij by lia. lia.
Qed.

(** One round of the transaction loop that succeeds. *)
Lemma apply_step s undo h tx txs taken :
  spends (us_entries s) (inputs tx) taken ->
  places (without_keys (us_entries s) (input_key <$> inputs tx)) (UtxoSet.create_outputs tx (us_network s) h) ->
  UtxoSet.apply_transactions s undo h (tx :: txs)
  = UtxoSet.apply_transactions
      (UtxoSet.with_entries s
         (with_new (without_keys (us_entries s) (input_key <$> inputs tx))
            (UtxoSet.create_outputs tx (us_network s) h)))
      {| spent := spent undo ++ taken;
         created := created undo ++ UtxoSet.create_outputs tx (us_network s) h |} h txs.
Proof.
  intros Hs Hp. cbn [UtxoSet.apply_transactions]. rewrite (spend_inputs_ok _ _ _ taken) by done.
  rewrite app_nil_l. cbn [us_network UtxoSet.with_entries].
  rewrite insert_outputs_ok; [done|apply create_outputs_network|done].
Qed.

(** The state of the loop: the current entries are those of the start without
    what was spent, and with what was created at places that were empty. *)
Definition journalled (m0 : gmap UtxoKey UtxoEntry) (s : UtxoSet) (undo : BlockUndo) : Prop :=
  us_entries s = with_new (without_keys m0 (keys_of (spent undo))) (created undo) /\
  (forall e, e ∈ spent undo -> m0 !! UtxoEntry.key e = Some e /\ u_network e = us_network s) /\
  (forall e, e ∈ created undo -> m0 !! UtxoEntry.key e = None).

(** Unwinding the journal restores the start. *)
Lemma journalled_disconnect m0 s undo :
  journalled m0 s undo -> UtxoSet.disconnect_block s undo = UtxoSet.with_entries s m0.
Proof.
  intros (Hs & Hsp & Hcr). rewrite disconnect_spec.
  - rewrite Hs, without_with_new.
    + unfold UtxoSet.with_entries. f_equal. apply restore_keys; [|done]. intros e He. by apply Hsp.
    + intros e He. rewrite lookup_without_keys. case_decide; [done|]. by apply Hcr.
  - apply Forall_forall. intros e He. by apply Hsp.
Qed.

(** No transaction of the block spends an output of a transaction of the block. *)
Definition no_internal_spend (txs : list Transaction) : Prop :=
  Forall (fun tx => Forall (fun i => previous_txid i ∉ Transaction.txid <$> txs) (inputs tx)) txs.

(** The three outcomes of a round. *)
Lemma apply_round s undo h tx txs s' r :
  UtxoSet.wf s -> UtxoSet.apply_transactions s undo h (tx :: txs) = (s', r) ->
  let es := UtxoSet.create_outputs tx (us_network s) h in
  let m := without_keys (us_entries s) (input_key <$> inputs tx) in
  (exists taken, spends (us_entries s) (inputs tx) taken /\ places m es /\
     UtxoSet.apply_transactions (UtxoSet.with_entries s (with_new m es))
       {| spent := spent undo ++ taken; created := created undo ++ es |} h txs = (s', r)) \/
  (r = Err MissingUtxoStorage /\ s' = UtxoSet.disconnect_block s undo) \/
  (r = Err DuplicateUtxo /\ ~ places m es).
Proof.
  intros Hwf Happ es m. cbn [UtxoSet.apply_transactions] in Happ.
  destruct (UtxoSet.spend_inputs s [] (inputs tx)) as [s1 [sp|err]] eqn:E1.
  - apply spend_inputs_run in E1 as (taken & -> & Hsp & ->). rewrite app_nil_l in Happ.
    cbn [us_network UtxoSet.with_entries] in Happ.
    destruct (UtxoSet.insert_outputs _ _ _) as [s2 [undo2|err]] eqn:E2;
      apply insert_outputs_run in E2; try apply create_outputs_network;
      cbn [us_entries us_network UtxoSet.with_entries spent created] in E2.
    + destruct E2 as (Hp & -> & ->). left. by exists taken.
    + destruct E2 as [-> Hp]. injection Happ as <- <-. right; right. done.
  - apply spend_inputs_err in E1 as [-> ->]; [|done]. injection Happ as <- <-. right; left. done.
Qed.

Lemma wf_round s tx h :
  UtxoSet.wf s ->
  UtxoSet.wf (UtxoSet.with_entries s (with_new (without_keys (us_entries s) (input_key <$> inputs tx))
                (UtxoSet.create_outputs tx (us_network s) h))).
Proof.
  intros Hwf. apply (wf_with_new (UtxoSet.with_entries s (without_keys (us_entries s) (input_key <$> inputs tx)))).
  - by apply wf_without.
  - apply create_outputs_network.
Qed.

(** What applying transactions does to the set. *)
Lemma apply_transactions_ok s undo h txs s' undo' :
  UtxoSet.wf s -> UtxoSet.apply_transactions s undo h txs = (s', Ok undo') ->
  UtxoSet.wf s' /\ us_network s' = us_network s /\
  exists sp, undo' = {| spent := spent undo ++ sp;
                       created := created undo ++ (txs ≫= fun tx => UtxoSet.create_outputs tx (us_network s) h) |} /\
    keys_of sp = input_key <$> (txs ≫= inputs) /\ Forall (fun e => u_network e = us_network s) sp /\
    UtxoSet.total_value (us_entries s')
    = UtxoSet.total_value (us_entries s) - values sp
      + zsum (value_atoms <$> (txs ≫= outputs)).
Proof.
  revert s undo. induction txs as [|tx txs IH]; intros s undo Hwf Happ.
  - injection Happ as <- <-. split_and!; [done..|]. exists []. rewrite !app_nil_r.
    split_and!; [by destruct undo|done|done|cbn; lia].
  - apply apply_round in Happ as [(taken & Hsp & Hp & Happ)|[[? _]|[? _]]]; [|done..|done].
    apply IH in Happ as (Hwf' & Hn & sp & -> & Hk & Hnet & Ht); [|by apply wf_round].
    cbn [us_network UtxoSet.with_entries spent created us_entries] in *. split_and!; [done..|].
    exists (taken ++ sp). rewrite !bind_cons, !app_assoc. split; [done|].
    pose proof (spends_keys _ _ _ (wf_keys s Hwf) Hsp) as Hkt.
    rewrite !fmap_app, Hk, Hkt, zsum_app, values_app. split; [done|]. split.
    { apply Forall_app. split; [|done]. apply Forall_forall. intros e He.
      destruct (spends_elem _ _ _ _ Hsp He) as (i & _ & Hi). by destruct (Hwf _ _ Hi). }
    rewrite Ht, total_value_places, (total_value_spends _ _ taken), create_outputs_values by done. lia.
Qed.

(** A round extends the journal when it spends nothing the block created:
    [ids] are the txids of the block. *)
Lemma journalled_round m0 (ids : list bytes) s undo h tx taken :
  let es := UtxoSet.create_outputs tx (us_network s) h in
  let m := without_keys (us_entries s) (input_key <$> inputs tx) in
  UtxoSet.wf s -> journalled m0 s undo ->
  (forall e, e ∈ created undo -> u_txid e ∈ ids) -> (forall e, e ∈ spent undo -> u_txid e ∉ ids) ->
  Transaction.txid tx ∈ ids -> Forall (fun i => previous_txid i ∉ ids) (inputs tx) ->
  spends (us_entries s) (inputs tx) taken -> places m es ->
  journalled m0 (UtxoSet.with_entries s (with_new m es))
    {| spent := spent undo ++ taken; created := created undo ++ es |}.
Proof.
  intros es m Hwf (Hs & Hsp & Hcr) Hic His Hid Hin Hsps [Hp _]. rewrite Forall_forall in Hin. rewrite Forall_forall in Hp.
  pose proof (spends_keys _ _ _ (wf_keys s Hwf) Hsps) as Hkt.
  assert (forall k, k ∈ input_key <$> inputs tx -> k_txid k ∉ ids) as Hik.
  { intros k (i & -> & Hi)%list_elem_of_fmap. by apply Hin. }
  assert (forall k, k_txid k ∉ ids -> k ∉ keys_of (created undo)) as Hfresh.
  { intros k Hk (e & -> & He)%list_elem_of_fmap. by apply Hk, Hic. }
  split_and!; cbn [us_entries us_network UtxoSet.with_entries spent created].
  - unfold with_new at 2. rewrite foldl_app. fold (with_new (without_keys m0 (keys_of (spent undo ++ taken))) (created undo)).
    unfold with_new at 1. f_equal. apply map_eq. intros k. unfold m. rewrite lookup_without_keys, Hs, fmap_app, Hkt.
    rewrite !with_new_lookup. destruct (last _) as [e|] eqn:El.
    + apply last_Some_elem_of, list_elem_of_filter in El as [<- He].
      rewrite decide_False; [done|]. intros Hx%Hik. by apply Hx, Hic.
    + rewrite !lookup_without_keys. repeat case_decide; try done; set_solver.
  - intros e [He|He]%elem_of_app; [by apply Hsp|].
    destruct (spends_elem _ _ _ _ Hsps He) as (i & Hi & Hl).
    destruct (Hwf _ _ Hl) as [Hk Hn]. split; [|done].
    rewrite Hk. rewrite Hs, with_new_fresh, lookup_without_keys in Hl; [by case_decide|].
    by apply Hfresh, Hin.
  - intros e [He|He]%elem_of_app; [by apply Hcr|].
    pose proof (create_outputs_txid _ _ _ _ He) as Ht.
    specialize (Hp e He). unfold m in Hp. rewrite lookup_without_keys in Hp.
    case_decide as Hk; [by destruct (Hik _ Hk); rewrite <- Ht in Hid|].
    rewrite Hs, with_new_lookup in Hp. destruct (last _); [done|].
    rewrite lookup_without_keys in Hp. case_decide as Hk2; [|done].
    apply list_elem_of_fmap in Hk2 as (e' & Heq & He'). destruct (His _ He').
    apply (f_equal k_txid) in Heq. cbn in Heq. congruence.
Qed.

(** The transaction loop keeps the journal, and a failure to find an input
    unwinds it. *)
Lemma apply_transactions_journal m0 (ids : list bytes) s undo h txs s' r :
  UtxoSet.wf s -> journalled m0 s undo ->
  (forall e, e ∈ created undo -> u_txid e ∈ ids) -> (forall e, e ∈ spent undo -> u_txid e ∉ ids) ->
  Forall (fun tx => Transaction.txid tx ∈ ids /\ Forall (fun i => previous_txid i ∉ ids) (inputs tx)) txs ->
  UtxoSet.apply_transactions s undo h txs = (s', r) ->
  match r with
  | Ok undo' => us_network s' = us_network s /\ journalled m0 s' undo'
  | Err err => (err = MissingUtxoStorage /\ s' = UtxoSet.with_entries s m0) \/ err = DuplicateUtxo
  end.
Proof.
  revert s undo. induction txs as [|tx txs IH]; intros s undo Hwf Hj Hcr Hsp Hids Happ.
  { by injection Happ as <- <-. }
  apply Forall_cons in Hids as [[Hid Hin] Hids].
  apply apply_round in Happ as [(taken & Hs & Hp & Happ)|[[-> ->]|[-> _]]]; [| |by right|done].
  - apply IH in Happ; [|by apply wf_round|by eapply journalled_round| | |done].
    + by destruct r.
    + cbn [created]. intros e [He|He]%elem_of_app; [by apply Hcr|]. by rewrite (create_outputs_txid _ _ _ _ He).
    + cbn [spent]. intros e [He|He]%elem_of_app; [by apply Hsp|].
      destruct (spends_elem _ _ _ _ Hs He) as (i & Hi & Hl). destruct (Hwf _ _ Hl) as [Hk _].
      rewrite Forall_forall in Hin. specialize (Hin _ Hi).
      apply (f_equal k_txid) in Hk. cbn in Hk. by rewrite Hk.
  - left. split; [done|]. by apply journalled_disconnect.
Qed.

(** The outcomes of applying a block to a well-formed set. *)
Lemma apply_block_outcomes (s : UtxoSet) (b : Block) (s' : UtxoSet) r :
  UtxoSet.wf s -> no_internal_spend (transactions b) -> UtxoSet.apply_block s b = (s', r) ->
  match r with
  | Ok undo => UtxoSet.wf s' /\ UtxoSet.disconnect_block s' undo = s
  | Err err => (err = MissingUtxoStorage /\ s' = s) \/ err = DuplicateUtxo
  end.
Proof.
  intros Hwf Hint Happ. unfold UtxoSet.apply_block in Happ.
  assert (UtxoSet.with_entries s (us_entries s) = s) as Hs by by destruct s.
  apply (apply_transactions_journal (us_entries s) (Transaction.txid <$> transactions b)) in Happ as Hj;
    [|done|split_and!; [done|intros ? []%not_elem_of_nil..]|intros ? []%not_elem_of_nil..|].
  2:{ unfold no_internal_spend in Hint. rewrite Forall_forall in Hint. apply Forall_forall.
      intros tx Htx. split; [by apply list_elem_of_fmap_2|by apply Hint]. }
  destruct r as [undo|err]; [|by rewrite Hs in Hj].
  destruct Hj as [Hn Hj]. split; [by destruct (apply_transactions_ok _ _ _ _ _ _ Hwf Happ)|].
  rewrite (journalled_disconnect _ _ _ Hj). destruct s, s'. cbn in *. by rewrite Hn.
Qed.

(** C4: applying a block to a well-formed set is atomic and reversible, provided
    the block spends none of its own outputs: when it succeeds the set stays
    well formed and disconnecting the returned journal gives the set back
    exactly; when an input is missing the set is exactly as before. The one
    other failure is an output whose place is taken. *)
Theorem apply_block_atomic (s : UtxoSet) (b : Block) (s' : UtxoSet) r :
  UtxoSet.wf s -> no_internal_spend (transactions b) -> UtxoSet.apply_block s b = (s', r) ->
  match r with
  | Ok undo => UtxoSet.wf s' /\ UtxoSet.disconnect_block s' undo = s
  | Err err => (err = MissingUtxoStorage /\ s' = s) \/ err = DuplicateUtxo
  end.
Proof. apply apply_block_outcomes. Qed.

(** A block that is applied spends exactly the outpoints its inputs name,
    creates exactly its outputs, and changes the coins in existence by the
    difference of their values. *)
Theorem apply_block_accounts_value (s : UtxoSet) (b : Block) (s' : UtxoSet) (undo : BlockUndo) :
  UtxoSet.wf s -> UtxoSet.apply_block s b = (s', Ok undo) ->
  UtxoSet.wf s' /\ us_network s' = us_network s /\
  keys_of (spent undo) = input_key <$> (transactions b ≫= inputs) /\
  created undo = (transactions b ≫= fun tx => UtxoSet.create_outputs tx (us_network s) (height (header b))) /\
  UtxoSet.total_value (us_entries s')
  = UtxoSet.total_value (us_entries s) - values (spent undo)
    + zsum (value_atoms <$> (transactions b ≫= outputs)).
Proof.
  intros Hwf Happ. apply apply_transactions_ok in Happ as (Hwf' & Hn & sp & -> & Hk & _ & Ht); done.
Qed.

(** C38: when a block spends an output that one of its own transactions created,
    disconnecting it leaves that output behind, although the set did not hold
    it before the block: the set before the block is not restored. *)
Theorem disconnect_keeps_internally_spent (s : UtxoSet) (b : Block) (s' : UtxoSet) (undo : BlockUndo)
    (e : UtxoEntry) :
  UtxoSet.wf s -> UtxoSet.apply_block s b = (s', Ok undo) ->
  e ∈ spent undo -> us_entries s !! UtxoEntry.key e = None ->
  (exists e', us_entries (UtxoSet.disconnect_block s' undo) !! UtxoEntry.key e = Some e') /\
  UtxoSet.disconnect_block s' undo <> s.
Proof.
  intros Hwf Happ He Hs. cut (exists e', us_entries (UtxoSet.disconnect_block s' undo) !! UtxoEntry.key e = Some e').
  { intros [e' He']. split; [by exists e'|]. intros Heq. rewrite Heq in He'. congruence. }
  clear Hs. apply apply_transactions_ok in Happ as (_ & Hn & sp & -> & _ & Hnet & _); [|done].
  cbn [spent] in *. rewrite disconnect_spec by by rewrite Hn.
  cbn [us_entries UtxoSet.with_entries spent]. rewrite app_nil_l in *. rewrite with_new_lookup.
  destruct (last _) as [e'|] eqn:El; [by exists e'|]. apply last_None in El.
  assert (e ∈ filter (fun e' => UtxoEntry.key e' = UtxoEntry.key e) sp) as Hf
    by by apply list_elem_of_filter.
  rewrite El in Hf. by apply not_elem_of_nil in Hf.
Qed.

(** A coinbase whose first output's place is taken makes the block fail
    with [DuplicateUtxo], and the entry that was there is lost: the new entry,
    with the failed block's height, stays in its place. *)
Theorem duplicate_output_replaces_entry (s : UtxoSet) (b : Block) (cb : Transaction) (o : TxOutput)
    (os : list TxOutput) (txs : list Transaction) (e : UtxoEntry) :
  let k := {| k_txid := Transaction.txid cb; k_output_index := 0 |} in
  transactions b = cb :: txs -> inputs cb = [] -> outputs cb = o :: os -> us_entries s !! k = Some e ->
  exists s' e', UtxoSet.apply_block s b = (s', Err DuplicateUtxo) /\
    us_entries s' !! k = Some e' /\ created_height e' = height (header b).
Proof.
  intros k Htx Hin Hout He. unfold UtxoSet.apply_block. rewrite Htx. cbn [UtxoSet.apply_transactions].
  rewrite Hin. cbn [UtxoSet.spend_inputs spent created]. unfold UtxoSet.create_outputs. rewrite Hout.
  cbn [imap UtxoSet.insert_outputs]. unfold UtxoSet.insert at 1.
  rewrite bool_decide_true by done. cbn [negb].
  change (UtxoEntry.key _) with k. rewrite He. eexists _, _. split; [done|].
  rewrite disconnect_spec by constructor. split; [apply lookup_insert_eq|done].
Qed.

End blocks.

(** ** Witnesses *)

(** A set holding the coin [sample_tx] spends, and a coinbase. *)
Definition sample_entry : UtxoEntry :=
  UtxoEntry.new Regnet (replicate 48 x07) 1 60 [x01; x02] 1 false.
Definition sample_set : UtxoSet := {| us_network := Regnet; us_entries := {[ UtxoEntry.key sample_entry := sample_entry ]} |}.
Definition sample_coinbase : Transaction :=
  {| version := 1; inputs := []; outputs := [{| value_atoms := 30; locking_script := [x05] |}];
     lock_time := 3; witness := []; tx_pow_nonce := 0; tx_pow_bits := 0 |}.
(** A block that spends that coin. *)
Definition spending_block : Block := Block.new (H:=Keccak.sha3_inst) sample_header [sample_coinbase; sample_tx [] 0].
(** A block that spends its own coinbase. *)
Definition internal_block : Block :=
  Block.new (H:=Keccak.sha3_inst) sample_header
    [sample_coinbase;
     {| version := 1;
        inputs := [{| previous_txid := Transaction.txid (H:=Keccak.sha3_inst) sample_coinbase; output_index := 0;
                      unlocking_script := [] |}];
        outputs := [{| value_atoms := 20; locking_script := [x01] |}];
        lock_time := 0; witness := []; tx_pow_nonce := 0; tx_pow_bits := 0 |}].
(** The entry [sample_coinbase] creates at a height. *)
Definition coinbase_entry (h : Z) : UtxoEntry :=
  UtxoEntry.new Regnet (Transaction.txid (H:=Keccak.sha3_inst) sample_coinbase) 0 30 [x05] h true.
Definition coinbase_set : UtxoSet :=
  {| us_network := Regnet; us_entries := {[ UtxoEntry.key (coinbase_entry 1) := coinbase_entry 1 ]} |}.

Lemma sample_set_wf : UtxoSet.wf sample_set.
Proof. by apply map_Forall_singleton. Qed.

Lemma spending_block_no_internal :
  no_internal_spend (H:=Keccak.sha3_inst) (transactions spending_block).
Proof. apply (bool_decide_unpack _). by vm_compute. Qed.

Lemma apply_block_atomic_witness :
  match UtxoSet.apply_block (H:=Keccak.sha3_inst) sample_set spending_block with
  | (s', Ok undo) => UtxoSet.disconnect_block s' undo = sample_set
  | _ => False
  end.
Proof.
  pose proof (apply_block_atomic (H:=Keccak.sha3_inst) sample_set spending_block _ _ sample_set_wf
    spending_block_no_internal (surjective_pairing _)) as Hat.
  assert (match (UtxoSet.apply_block (H:=Keccak.sha3_inst) sample_set spending_block).2 with
          | Ok _ => true | Err _ => false end = true) as Hok by by vm_compute.
  destruct (UtxoSet.apply_block _ _) as [s' [undo|err]]; [by destruct Hat|done].
Defined.

Lemma apply_block_accounts_value_witness :
  match UtxoSet.apply_block (H:=Keccak.sha3_inst) sample_set spending_block with
  | (s', Ok undo) => UtxoSet.total_value (us_entries s')
                     = UtxoSet.total_value (us_entries sample_set) - values (spent undo) + 80
  | _ => False
  end.
Proof.
  pose proof (fun s' undo => apply_block_accounts_value (H:=Keccak.sha3_inst) sample_set spending_block s' undo
    sample_set_wf) as Hat.
  assert (match (UtxoSet.apply_block (H:=Keccak.sha3_inst) sample_set spending_block).2 with
          | Ok _ => true | Err _ => false end = true) as Hok by by vm_compute.
  destruct (UtxoSet.apply_block _ _) as [s' [undo|err]]; [|done].
  by destruct (Hat s' undo eq_refl) as (_ & _ & _ & _ & ->).
Defined.

Lemma disconnect_keeps_internally_spent_witness :
  match UtxoSet.apply_block (H:=Keccak.sha3_inst) (UtxoSet.new Regnet) internal_block with
  | (s', Ok undo) => UtxoSet.disconnect_block s' undo <> UtxoSet.new Regnet
  | _ => False
  end.
Proof.
  assert (UtxoSet.wf (UtxoSet.new Regnet)) as Hwf by apply map_Forall_empty.
  pose proof (fun s' undo => disconnect_keeps_internally_spent (H:=Keccak.sha3_inst) (UtxoSet.new Regnet)
    internal_block s' undo (coinbase_entry 3) Hwf) as Hat.
  assert (match (UtxoSet.apply_block (H:=Keccak.sha3_inst) (UtxoSet.new Regnet) internal_block).2 with
          | Ok undo => bool_decide (coinbase_entry 3 ∈ spent undo) | Err _ => false end = true) as Hok
    by by vm_compute.
  destruct (UtxoSet.apply_block _ _) as [s' [undo|err]]; [|done].
  apply Hat; [done|by apply bool_decide_eq_true in Hok|done].
Defined.

Lemma duplicate_output_replaces_entry_witness :
  exists s' e', UtxoSet.apply_block (H:=Keccak.sha3_inst) coinbase_set spending_block = (s', Err DuplicateUtxo) /\
    us_entries s' !! UtxoEntry.key (coinbase_entry 1) = Some e' /\ created_height e' = 3.
Proof.
  apply (duplicate_output_replaces_entry (H:=Keccak.sha3_inst) coinbase_set spending_block sample_coinbase
    {| value_atoms := 30; locking_script := [x05] |} [] [sample_tx [] 0] (coinbase_entry 1));
    [done..|]. apply lookup_singleton_eq.
Defined.
