(* ===== verification/Validation.v ===== *)
(** * Transaction validation

    crates/atho-storage/src/validation.rs, the part that validates one
    transaction: the structural checks, the witness layout and its references,
    the signatures, and the checks against the coins it spends. A lookup closure
    is a function; the Falcon verifier is the class [FalconBackend]. *)
From stdpp Require Import options.
From S2P Require Import Prelude Bytes Constants Crypto Keccak Network Rules Transaction Block Address.
From S2P Require Import Genesis Signatures TxPolicy Errors Utxo.

(* src: validation.rs:131-136 PreparedSignerGroup *)
Record PreparedSignerGroup := {
  p_signature : bytes;
  p_pubkey : bytes;
  p_input_refs : list WitnessInputRef;
}.

(* src: validation.rs:125-129 PreparedTransactionValidation *)
Record PreparedTransactionValidation := {
  p_txid : bytes;
  signer_groups : list PreparedSignerGroup;
  signer_group_by_input : list Z;
}.

(* src: validation.rs:466-471 canonical_payment_lock *)
Definition canonical_payment_lock (locking_script : bytes) : result ValidationError bytes :=
  ok_or (payment_digest_from_locking_script locking_script) LegacyLockFormatRejected.

(* src: validation.rs:482-487 transaction_contains_dust_outputs *)
Definition transaction_contains_dust_outputs (tx : Transaction) : bool :=
  existsb (fun o => (0 <? value_atoms o) && (value_atoms o <? DUST_RELAY_VALUE_ATOMS)) (outputs tx).

(* src: validation.rs:489-509 validate_transaction_standard_policy *)
Definition validate_transaction_standard_policy (tx : Transaction) (network : Network) :
    result ValidationError unit :=
  reject MAX_STANDARD_INPUTS <? zlen (inputs tx) with TransactionTooLarge;
  let dust_floor := minimum_output_amount_atoms network tx in
  reject existsb (fun o => (0 <? value_atoms o) && (value_atoms o <? dust_floor)) (outputs tx)
    with DustOutput;
  Ok tt.

Section hashes.
Context `{Sha3}.

(* src: validation.rs:190-202 derive_sig_ref_short *)
Definition derive_sig_ref_short (txid signature : bytes) (input_index : Z) : bytes :=
  take 2 (sha3_256 (str_bytes "ATHO_SIG_REF_SHORT_V1" ++ txid ++ signature ++ be_u32 input_index)).

(* src: validation.rs:204-219 derive_witness_commit_ref *)
Definition derive_witness_commit_ref (txid block_witness_root : bytes) (input_index : Z) : bytes :=
  take 16 (sha3_256 (str_bytes "ATHO_WITNESS_COMMIT_REF_V1" ++ txid ++ be_u32 input_index ++ block_witness_root)).

(* src: validation.rs:221-235 finalize_witness_commit_refs *)
Definition finalize_witness_commit_refs (tx : Transaction) (block_witness_root : bytes) : Transaction :=
  match Transaction.witness_payload tx with
  | None => tx
  | Some w =>
      let txid := Transaction.txid tx in
      let w := TxWitness.for_each_input_ref_mut (fun r =>
        {| input_index := input_index r; sig_ref_short := sig_ref_short r;
           witness_commit_ref := derive_witness_commit_ref txid block_witness_root (input_index r) |}) w in
      {| version := version tx; inputs := inputs tx; outputs := outputs tx; lock_time := lock_time tx;
         witness := TxWitness.canonical_bytes w;
         tx_pow_nonce := tx_pow_nonce tx; tx_pow_bits := tx_pow_bits tx |}
  end.

(** [previous.is_some_and(|previous| index <= previous)]. *)
Definition not_after (index : Z) (previous : option Z) : bool :=
  match previous with Some p => index <=? p | None => false end.

(** One round of the loop over a group's input references; the state is
    [previous_input_index] and [signer_group_by_input]. *)
(* src: validation.rs:430-448 prepare_transaction_validation (input refs) *)
Definition prepare_input_ref (tx : Transaction) (txid signature : bytes) (group_index : Z)
    (st : option Z * list Z) (r : WitnessInputRef) : result ValidationError (option Z * list Z) :=
  let '(previous_input_index, by_input) := st in
  reject zlen (inputs tx) <=? input_index r with InvalidWitness;
  reject not_after (input_index r) previous_input_index with InvalidWitness;
  reject negb (nth (Z.to_nat (input_index r)) by_input USIZE_MAX =? USIZE_MAX)
    with WitnessInputReferenceMismatch;
  let expected_short := derive_sig_ref_short txid signature (input_index r) in
  reject negb (bool_decide (sig_ref_short r = expected_short)) with WitnessInputReferenceMismatch;
  Ok (Some (input_index r), <[Z.to_nat (input_index r) := group_index]> by_input).

(** One round of the loop over the signer groups; the state is
    [previous_first_input], [signer_group_by_input] and
    [prepared_signer_groups]. *)
(* src: validation.rs:412-455 prepare_transaction_validation (signer groups) *)
Definition prepare_signer_group (tx : Transaction) (txid : bytes)
    (st : option Z * list Z * list PreparedSignerGroup) (ig : Z * WitnessSignerGroup) :
    result ValidationError (option Z * list Z * list PreparedSignerGroup) :=
  let '(previous_first_input, by_input, groups) := st in
  let '(group_index, g) := ig in
  reject bool_decide (g_signature g = []) || bool_decide (g_pubkey g = [])
         || bool_decide (g_input_refs g = []) with InvalidWitness;
  first ← ok_or (head (g_input_refs g)) InvalidWitness;
  let first_input_index := input_index first in
  reject not_after first_input_index previous_first_input with InvalidWitness;
  st ← try_fold (prepare_input_ref tx txid (g_signature g) group_index) (None, by_input) (g_input_refs g);
  Ok (Some first_input_index, st.2,
      groups ++ [{| p_signature := g_signature g; p_pubkey := g_pubkey g; p_input_refs := g_input_refs g |}]).

(* src: validation.rs:308-328 witness_signer_group_refs *)
Definition witness_signer_group_refs (w : TxWitness) : list WitnessSignerGroup :=
  (if negb (TxWitness.is_empty w) then [TxWitness.primary w] else []) ++ additional_signers w.

(* src: validation.rs:347-464 prepare_transaction_validation *)
Definition prepare_transaction_validation (tx : Transaction) (fee_atoms : Z) (network : Network)
    (height : Z) (schedule : list ScheduledActivation) :
    result ValidationError PreparedTransactionValidation :=
  reject Transaction.is_coinbase tx with NoInputs;
  reject negb (is_supported_transaction_version_with_schedule (version tx) height schedule)
    with InvalidTransactionVersion;
  reject bool_decide (outputs tx = []) with NoOutputs;
  reject maximum_standard_outputs network tx <? zlen (outputs tx) with TooManyOutputs;
  let raw_size_bytes := Transaction.full_size_bytes tx in
  let vsize_bytes := Transaction.vsize_bytes tx in
  reject (MAX_TRANSACTION_RAW_BYTES <? raw_size_bytes) || (MAX_TRANSACTION_VBYTES <? vsize_bytes)
    with TransactionTooLarge;
  reject existsb (fun o => value_atoms o =? 0) (outputs tx) with ZeroValueOutput;
  reject negb (all_inserted ∅ (input_key <$> inputs tx)) with DuplicateInput;
  let minimum_fee := minimum_required_fee_atoms network tx in
  reject fee_atoms <? minimum_fee with FeeBelowMinimum;
  let dust_floor := minimum_output_amount_atoms network tx in
  reject existsb (fun o => value_atoms o <? dust_floor) (outputs tx) with DustOutput;
  _ ← try_for (fun o => _ ← canonical_payment_lock (locking_script o); Ok tt) (outputs tx);
  w ← ok_or (Transaction.witness_payload tx) InvalidWitness;
  reject TxWitness.signer_group_count w =? 0 with InvalidWitness;
  reject negb (TxWitness.total_input_refs w =? zlen (inputs tx)) with InvalidWitness;
  let txid := Transaction.txid tx in
  st ← try_fold (prepare_signer_group tx txid)
         (None, replicate (length (inputs tx)) USIZE_MAX, [])
         (enumerate (witness_signer_group_refs w));
  let '(_, by_input, groups) := st in
  reject bool_decide (USIZE_MAX ∈ by_input) with WitnessInputReferenceMismatch;
  Ok {| p_txid := txid; signer_groups := groups; signer_group_by_input := by_input |}.

End hashes.

Section falcon.
Context `{Sha3, FalconBackend}.

(* src: validation.rs:273-306 verify_signer_group *)
Definition verify_signer_group (tx : Transaction) (network : Network) (pubkey signature : bytes)
    (input_refs : list WitnessInputRef) : result ValidationError unit :=
  reject negb (zlen pubkey =? FALCON_512_PUBLIC_KEY_BYTES) with InvalidWitness;
  reject negb (zlen signature =? FALCON_512_SIGNATURE_BYTES) with InvalidWitness;
  let input_indexes := input_index <$> input_refs in
  let signing_digest :=
    if zlen input_indexes =? zlen (inputs tx) then transaction_signing_digest network tx
    else transaction_signing_digest_for_input_indexes network tx input_indexes in
  verified ← map_err (fun _ => InvalidWitness)
    (falcon_verify (label DomainTransaction) pubkey signing_digest signature);
  reject negb verified with InvalidWitness;
  Ok tt.

(* src: validation.rs:330-345 verify_witness_signer_groups *)
Definition verify_witness_signer_groups (tx : Transaction) (network : Network) (w : TxWitness) :
    result ValidationError unit :=
  try_for (fun g => verify_signer_group tx network (g_pubkey g) (g_signature g) (g_input_refs g))
    (witness_signer_group_refs w).

(* src: validation.rs:237-254 verify_transaction_signature *)
Definition verify_transaction_signature (tx : Transaction) (network : Network) :
    result ValidationError unit :=
  reject Transaction.is_coinbase tx with NoInputs;
  w ← ok_or (Transaction.witness_payload tx) InvalidWitness;
  _ ← verify_witness_signer_groups tx network w;
  Ok tt.

(* src: validation.rs:256-271 verify_transaction_signature_prepared *)
Definition verify_transaction_signature_prepared (tx : Transaction) (network : Network)
    (prepared : PreparedTransactionValidation) : result ValidationError unit :=
  try_for (fun g => verify_signer_group tx network (p_pubkey g) (p_signature g) (p_input_refs g))
    (signer_groups prepared).

(* src: validation.rs:527-537 validate_transaction_structure_for_height_with_schedule *)
Definition validate_transaction_structure_for_height_with_schedule (tx : Transaction) (fee_atoms : Z)
    (network : Network) (height : Z) (schedule : list ScheduledActivation) : result ValidationError unit :=
  _ ← prepare_transaction_validation tx fee_atoms network height schedule;
  Ok tt.

(** The proof of work a transaction owes for a fee. *)
Definition check_transaction_pow (tx : Transaction) (network : Network) (fee_atoms : Z) :
    result ValidationError unit :=
  let required_bits := required_tx_pow_bits network tx fee_atoms in
  reject negb (tx_pow_bits tx =? required_bits) with WrongTransactionPowBits;
  reject negb (transaction_pow_is_valid_for_bits network tx required_bits) with InvalidTransactionPowNonce;
  Ok tt.

(* src: validation.rs:539-557 validate_transaction_for_height_with_schedule *)
Definition validate_transaction_for_height_with_schedule (tx : Transaction) (fee_atoms : Z)
    (network : Network) (height : Z) (schedule : list ScheduledActivation) : result ValidationError unit :=
  prepared ← prepare_transaction_validation tx fee_atoms network height schedule;
  _ ← check_transaction_pow tx network fee_atoms;
  verify_transaction_signature_prepared tx network prepared.

(* src: validation.rs:511-525 validate_transaction_for_height *)
Definition validate_transaction_for_height (tx : Transaction) (fee_atoms : Z) (network : Network)
    (height : Z) : result ValidationError unit :=
  validate_transaction_for_height_with_schedule tx fee_atoms network height SCHEDULED_ACTIVATIONS.

(* src: validation.rs:473-480 validate_transaction *)
Definition validate_transaction (tx : Transaction) (fee_atoms : Z) (network : Network) :
    result ValidationError unit :=
  validate_transaction_for_height tx fee_atoms network 0.

Section context.
(** [FnMut(&[u8; 48], u32) -> Option<UtxoEntry>]. *)
Context (lookup : bytes -> Z -> option UtxoEntry).

(** The public key of the group that signs an input. The two indexing
    operations stay in bounds for what [prepare_transaction_validation]
    returns ([prepared_covers_inputs]). *)
Definition signer_pubkey (prepared : PreparedTransactionValidation) (index : Z) : bytes :=
  let group := nth (Z.to_nat index) (signer_group_by_input prepared) USIZE_MAX in
  default [] (p_pubkey <$> (signer_groups prepared !! Z.to_nat group)).

(** One round of the loop over the inputs; the state is [input_total]. *)
(* src: validation.rs:687-709 validate_transaction_with_context_common_and_schedule (inputs) *)
Definition validate_input (prepared : PreparedTransactionValidation) (network : Network) (spend_height : Z)
    (input_total : Z) (ii : Z * TxInput) : result ValidationError Z :=
  let '(index, i) := ii in
  utxo ← ok_or (lookup (previous_txid i) (output_index i)) MissingUtxo;
  expected_lock ← canonical_payment_lock (u_locking_script utxo);
  _ ← canonical_payment_lock (unlocking_script i);
  reject negb (bool_decide (u_locking_script utxo = unlocking_script i)) with InputOwnershipMismatch;
  reject negb (bool_decide (u_network utxo = network)) with InputOwnershipMismatch;
  reject negb (bool_decide (public_key_digest (u_network utxo) (signer_pubkey prepared index) = expected_lock))
    with InputOwnershipMismatch;
  reject negb (UtxoEntry.is_spendable_at utxo spend_height) with InsufficientConfirmations;
  ok_or (checked_add U64_MAX input_total (u_value_atoms utxo)) FeeMismatch.

(* src: validation.rs:674-721 validate_transaction_with_context_common_and_schedule *)
Definition validate_transaction_with_context_common_and_schedule (tx : Transaction)
    (prepared : PreparedTransactionValidation) (network : Network) (spend_height : Z) :
    result ValidationError Z :=
  input_total ← try_fold (validate_input prepared network spend_height) 0 (enumerate (inputs tx));
  output_total ← ok_or (Transaction.checked_output_value_atoms tx) FeeMismatch;
  ok_or (checked_sub input_total output_total) FeeMismatch.

(* src: validation.rs:608-639 validate_transaction_with_context_exact_fee_prepared_and_schedule *)
Definition validate_transaction_with_context_exact_fee_prepared_and_schedule (tx : Transaction)
    (prepared : PreparedTransactionValidation) (fee_atoms : Z) (network : Network) (spend_height : Z) :
    result ValidationError Z :=
  actual_fee ← validate_transaction_with_context_common_and_schedule tx prepared network spend_height;
  reject negb (actual_fee =? fee_atoms) with FeeMismatch;
  _ ← check_transaction_pow tx network actual_fee;
  Ok actual_fee.

(* src: validation.rs:641-672 validate_transaction_with_context_minimum_fee_prepared_and_schedule *)
Definition validate_transaction_with_context_minimum_fee_prepared_and_schedule (tx : Transaction)
    (prepared : PreparedTransactionValidation) (minimum_fee_atoms : Z) (network : Network)
    (spend_height : Z) : result ValidationError Z :=
  actual_fee ← validate_transaction_with_context_common_and_schedule tx prepared network spend_height;
  reject actual_fee <? minimum_fee_atoms with FeeBelowMinimum;
  _ ← check_transaction_pow tx network actual_fee;
  Ok actual_fee.

(* src: validation.rs:559-581 validate_transaction_with_context_structure_and_schedule *)
Definition validate_transaction_with_context_structure_and_schedule (tx : Transaction) (fee_atoms : Z)
    (network : Network) (spend_height : Z) (schedule : list ScheduledActivation) :
    result ValidationError Z :=
  prepared ← prepare_transaction_validation tx fee_atoms network spend_height schedule;
  validate_transaction_with_context_exact_fee_prepared_and_schedule tx prepared fee_atoms network spend_height.

(* src: validation.rs:583-606 validate_transaction_with_context_minimum_fee_and_schedule *)
Definition validate_transaction_with_context_minimum_fee_and_schedule (tx : Transaction)
    (minimum_fee_atoms : Z) (network : Network) (spend_height : Z) (schedule : list ScheduledActivation) :
    result ValidationError Z :=
  prepared ← prepare_transaction_validation tx minimum_fee_atoms network spend_height schedule;
  validate_transaction_with_context_minimum_fee_prepared_and_schedule tx prepared minimum_fee_atoms
    network spend_height.

(* src: validation.rs:759-783 validate_transaction_with_context_and_schedule *)
Definition validate_transaction_with_context_and_schedule (tx : Transaction) (fee_atoms : Z)
    (network : Network) (spend_height : Z) (schedule : list ScheduledActivation) :
    result ValidationError Z :=
  prepared ← prepare_transaction_validation tx fee_atoms network spend_height schedule;
  actual_fee ← validate_transaction_with_context_exact_fee_prepared_and_schedule tx prepared fee_atoms
    network spend_height;
  _ ← verify_transaction_signature_prepared tx network prepared;
  Ok actual_fee.

(* src: validation.rs:723-742 validate_transaction_with_context *)
Definition validate_transaction_with_context (tx : Transaction) (fee_atoms : Z) (network : Network)
    (spend_height : Z) : result ValidationError Z :=
  validate_transaction_with_context_and_schedule tx fee_atoms network spend_height SCHEDULED_ACTIVATIONS.

(* src: validation.rs:744-757 validate_transaction_with_context_for_mempool *)
Definition validate_transaction_with_context_for_mempool (tx : Transaction) (fee_atoms : Z)
    (network : Network) (spend_height : Z) : result ValidationError Z :=
  _ ← validate_transaction_standard_policy tx network;
  validate_transaction_with_context tx fee_atoms network spend_height.

End context.
End falcon.

(* src: validation.rs:816-835 validate_coinbase_transaction_shape_with_schedule *)
Definition validate_coinbase_transaction_shape_with_schedule (tx : Transaction) (height : Z)
    (schedule : list ScheduledActivation) : result ValidationError unit :=
  reject negb (Transaction.is_coinbase tx) with InvalidCoinbase;
  reject negb (is_supported_transaction_version_with_schedule (version tx) height schedule)
    with InvalidTransactionVersion;
  match outputs tx with
  | [o] =>
      _ ← canonical_payment_lock (locking_script o);
      reject negb (bool_decide (witness tx = [])) || negb (tx_pow_nonce tx =? 0)
             || negb (tx_pow_bits tx =? 0) with InvalidCoinbase;
      Ok tt
  | _ => Err InvalidCoinbase
  end.

(* src: validation.rs:799-814 validate_coinbase_transaction_with_schedule *)
Definition validate_coinbase_transaction_with_schedule (tx : Transaction) (expected_reward_atoms height : Z)
    (schedule : list ScheduledActivation) : result ValidationError unit :=
  _ ← validate_coinbase_transaction_shape_with_schedule tx height schedule;
  output_total ← ok_or (Transaction.checked_output_value_atoms tx) CoinbaseRewardMismatch;
  reject negb (output_total =? expected_reward_atoms) with CoinbaseRewardMismatch;
  Ok tt.

(* src: validation.rs:785-797 validate_coinbase_transaction *)
Definition validate_coinbase_transaction (tx : Transaction) (expected_reward_atoms height : Z) :
    result ValidationError unit :=
  validate_coinbase_transaction_with_schedule tx expected_reward_atoms height SCHEDULED_ACTIVATIONS.

(** ** The witness layout *)

(** [by_input] assigns to [n] inputs the groups the pairs [owners] say, and the
    sentinel to the others. *)
Definition assigned (n : nat) (by_input : list Z) (owners : list (nat * Z)) : Prop :=
  length by_input = n /\ NoDup owners.*1 /\ Forall (fun p => p.2 <> USIZE_MAX) owners /\
  (forall i g, g <> USIZE_MAX -> by_input !! i = Some g <-> (i, g) ∈ owners).

Lemma assigned_init n : assigned n (replicate n USIZE_MAX) [].
Proof.
  split_and!; [by rewrite length_replicate|constructor|constructor|]. intros i g Hg. split.
  - by intros [-> _]%lookup_replicate.
  - by intros []%not_elem_of_nil.
Qed.

Lemma assigned_step n by_input owners i g :
  assigned n by_input owners -> by_input !! i = Some USIZE_MAX -> g <> USIZE_MAX ->
  assigned n (<[i := g]> by_input) (owners ++ [(i, g)]).
Proof.
  intros (Hn & Hnd & Hne & Hl) Hi Hg.
  assert (i ∉ owners.*1) as Hfresh.
  { intros ([i' g'] & Heq & Hin)%list_elem_of_fmap. cbn in Heq. subst i'.
    rewrite Forall_forall in Hne. specialize (Hne _ Hin). cbn in Hne. apply Hl in Hin; [|done]. congruence. }
  split_and!.
  - by rewrite length_insert.
  - rewrite fmap_app. apply NoDup_app. split_and!; [done| |by apply NoDup_singleton].
    intros x Hx Hx2. apply list_elem_of_singleton in Hx2. cbn in Hx2. by subst.
  - apply Forall_app. split; [done|]. by constructor.
  - intros i' g' Hg'. rewrite elem_of_app, list_elem_of_singleton, <- Hl by done.
    destruct (decide (i = i')) as [<-|Hne'].
    + rewrite list_lookup_insert_eq by by eapply lookup_lt_Some. split.
      * intros [= <-]. by right.
      * intros [Hx|[= <-]]; [|done]. congruence.
    + rewrite list_lookup_insert_ne by done. split; [by left|]. intros [?|Heq]; [done|]. by injection Heq as -> ->.
Qed.

(** A group's references, as assignments to the group's number. *)
Definition group_owners (gi : Z) (rs : list WitnessInputRef) : list (nat * Z) :=
  (fun r => (Z.to_nat (input_index r), gi)) <$> rs.

Section prepare.
Context `{Sha3}.

(** What the loops ensure of the references of one group. *)
Definition refs_valid (tx : Transaction) (signature : bytes) (rs : list WitnessInputRef) : Prop :=
  StronglySorted Z.lt (input_index <$> rs) /\
  Forall (fun r => input_index r < zlen (inputs tx) /\
    sig_ref_short r = derive_sig_ref_short (Transaction.txid tx) signature (input_index r)) rs.

Lemma StronglySorted_snoc_last l x :
  StronglySorted Z.lt l -> (forall y, last l = Some y -> y < x) -> StronglySorted Z.lt (l ++ [x]).
Proof.
  induction l as [|a l IH]; intros Hs Hl; [repeat constructor|].
  apply StronglySorted_inv in Hs as [Hs Ha]. cbn. constructor.
  - apply IH; [done|]. intros y Hy. apply Hl. destruct l; [done|]. done.
  - apply Forall_app. split; [done|]. constructor; [|done].
    destruct (last l) as [y|] eqn:Ey.
    + transitivity y; [|apply Hl; by destruct l].
      rewrite Forall_forall in Ha. apply Ha. by apply last_Some_elem_of.
    + apply last_None in Ey. subst l. by apply Hl.
Qed.

Lemma input_refs_loop tx signature gi owners by0 rs prev by1 :
  gi <> USIZE_MAX -> Forall TxWitness.wf_ref rs -> assigned (length (inputs tx)) by0 owners ->
  try_fold (prepare_input_ref tx (Transaction.txid tx) signature gi) (None, by0) rs = Ok (prev, by1) ->
  assigned (length (inputs tx)) by1 (owners ++ group_owners gi rs) /\ refs_valid tx signature rs.
Proof.
  intros Hgi Hwf Ha Hrun.
  apply (try_fold_inv _ (fun done st => st.1 = last (input_index <$> done) /\
           assigned (length (inputs tx)) st.2 (owners ++ group_owners gi done) /\
           refs_valid tx signature done)) in Hrun as (_ & ? & ?); [done| |].
  - split_and!; [done|by rewrite app_nil_r|]. split; constructor.
  - intros done r todo [p1 b1] [p2 b2] -> (Hp & Hass & Hs & Hf) Hstep. cbn [fst snd] in *.
    cbn in Hstep. inv_ok. bool_to_prop.
    rewrite Forall_app, Forall_cons in Hwf. destruct Hwf as (_ & Hr & _).
    assert (0 <= input_index r) as Hpos by by destruct Hr as [[? _] _].
    cbn [fst snd].
    assert (b1 !! Z.to_nat (input_index r) = Some USIZE_MAX) as Hb.
    { destruct (b1 !! Z.to_nat (input_index r)) as [g|] eqn:E.
      - by rewrite (nth_lookup_Some _ _ _ _ E) in Hc1; subst.
      - apply lookup_ge_None in E. destruct Hass as [Hlen _]. unfold zlen in *. lia. }
    split_and!.
    + by rewrite fmap_snoc, last_snoc.
    + unfold group_owners. rewrite fmap_snoc, app_assoc. by apply assigned_step.
    + split.
      * rewrite fmap_snoc. apply StronglySorted_snoc_last; [done|]. intros y Hy.
        unfold not_after in Hc0. rewrite Hy in Hc0. bool_to_prop. lia.
      * apply Forall_app. split; [done|]. by repeat constructor.
Qed.

(** The group as [prepare_transaction_validation] keeps it. *)
Definition prepared_group (g : WitnessSignerGroup) : PreparedSignerGroup :=
  {| p_signature := g_signature g; p_pubkey := g_pubkey g; p_input_refs := g_input_refs g |}.

Definition owners_of (gs : list (Z * WitnessSignerGroup)) : list (nat * Z) :=
  gs ≫= fun ig => group_owners ig.1 (g_input_refs ig.2).

Lemma signer_groups_loop tx gs prev by_input groups :
  Forall TxWitness.wf_group gs -> zlen gs <= 2 ^ 32 ->
  try_fold (prepare_signer_group tx (Transaction.txid tx))
    (None, replicate (length (inputs tx)) USIZE_MAX, []) (enumerate gs) = Ok (prev, by_input, groups) ->
  groups = prepared_group <$> gs /\
  assigned (length (inputs tx)) by_input (owners_of (enumerate gs)) /\
  Forall (fun g => refs_valid tx (g_signature g) (g_input_refs g)) gs.
Proof.
  intros Hwf Hlen Hrun.
  apply (try_fold_inv _ (fun done st =>
      st.2 = prepared_group <$> done.*2 /\
      assigned (length (inputs tx)) st.1.2 (owners_of done) /\
      Forall (fun g => refs_valid tx (g_signature g) (g_input_refs g)) done.*2))
    in Hrun; cbn [fst snd] in *.
  - destruct Hrun as (-> & Ha & Hf). rewrite enumerate_snd in *. done.
  - split_and!; [done|apply assigned_init|constructor].
  - intros done [gi g] todo [[p1 b1] gs1] [[p2 b2] gs2] Hl (Hg & Ha & Hf) Hstep. cbn [fst snd] in *.
    assert ((gi, g) ∈ enumerate gs) as Hin by (rewrite Hl; set_solver).
    apply enumerate_elem in Hin as (k & -> & Hk).
    rewrite Forall_forall in Hwf. destruct (Hwf g) as (_ & _ & Hrefs); [by eapply list_elem_of_lookup_2|].
    apply lookup_lt_Some in Hk. cbn in Hstep. clear Hl. inv_ok. destruct a0 as [p3 b3]. cbn [snd].
    apply (input_refs_loop _ _ _ (owners_of done)) in Hok0 as [Ha2 Hv]; [|unfold USIZE_MAX, zlen in *; lia|done..].
    unfold owners_of. rewrite !fmap_snoc, bind_app, bind_singleton. split_and!; [done|done|].
    apply Forall_app. split; [done|]. by constructor.
Qed.

(** What a prepared transaction is: every group's references are in order and
    carry the right short signature reference, together they name every input
    exactly once, and the table sends each input to the group that names it. *)
Definition well_prepared (tx : Transaction) (p : PreparedTransactionValidation) : Prop :=
  p_txid p = Transaction.txid tx /\
  Forall (fun g => refs_valid tx (p_signature g) (p_input_refs g)) (signer_groups p) /\
  (signer_groups p ≫= fun g => input_index <$> p_input_refs g) ≡ₚ seqZ 0 (zlen (inputs tx)) /\
  forall i, 0 <= i < zlen (inputs tx) ->
    exists k g, signer_group_by_input p !! Z.to_nat i = Some (Z.of_nat k) /\
      signer_groups p !! k = Some g /\ i ∈ input_index <$> p_input_refs g.

Lemma assigned_well_prepared tx gs by_input :
  Forall TxWitness.wf_group gs ->
  assigned (length (inputs tx)) by_input (owners_of (enumerate gs)) -> USIZE_MAX ∉ by_input ->
  Forall (fun g => refs_valid tx (g_signature g) (g_input_refs g)) gs ->
  well_prepared tx {| p_txid := Transaction.txid tx; signer_groups := prepared_group <$> gs;
                      signer_group_by_input := by_input |}.
Proof.
  intros Hwf (Hlen & Hnd & Hne & Hl) Hall Hv.
  set (indexes := gs ≫= fun g => input_index <$> g_input_refs g).
  assert ((owners_of (enumerate gs)).*1 = Z.to_nat <$> indexes) as Howners.
  { unfold owners_of, indexes. rewrite <- (enumerate_snd gs) at 2. generalize (enumerate gs). intros l.
    induction l as [|[gi g] l IH]; [done|]. cbn [fmap list_fmap]. rewrite !bind_cons, !fmap_app, IH.
    f_equal. unfold group_owners. by rewrite <- !list_fmap_compose. }
  assert (forall i, i ∈ indexes -> 0 <= i < zlen (inputs tx)) as Hrange.
  { intros i (g & Hi & Hg)%list_elem_of_bind. apply list_elem_of_fmap in Hi as (r & -> & Hr).
    rewrite Forall_forall in Hwf, Hv. destruct (Hwf _ Hg) as (_ & _ & Hwr). destruct (Hv _ Hg) as [_ Hvr].
    rewrite Forall_forall in Hwr, Hvr. destruct (Hwr _ Hr) as [[? _] _]. by destruct (Hvr _ Hr). }
  assert (forall i, 0 <= i < zlen (inputs tx) -> exists k g,
      by_input !! Z.to_nat i = Some (Z.of_nat k) /\ gs !! k = Some g /\ i ∈ input_index <$> g_input_refs g) as Hcover.
  { intros i Hi. destruct (lookup_lt_is_Some_2 by_input (Z.to_nat i)) as [gi Hgi]; [unfold zlen in Hi; lia|].
    assert (gi <> USIZE_MAX) as Hgm by (intros ->; by eapply Hall, list_elem_of_lookup_2).
    pose proof Hgi as Ho. apply Hl in Ho; [|done].
    apply list_elem_of_bind in Ho as ([gi' g] & Ho & Hin). apply enumerate_elem in Hin as (k & -> & Hk).
    apply list_elem_of_fmap in Ho as (r & Heq & Hr). cbn [fst] in Heq. injection Heq as Hir ->.
    exists k, g. split_and!; [done..|]. apply list_elem_of_fmap. exists r. split; [|done].
    assert (0 <= input_index r); [|lia]. apply Hrange. apply list_elem_of_bind. exists g.
    split; [by apply list_elem_of_fmap_2|by eapply list_elem_of_lookup_2]. }
  split_and!; cbn [p_txid signer_groups signer_group_by_input].
  - done.
  - apply Forall_fmap. done.
  - rewrite list_fmap_bind. apply NoDup_Permutation.
    + apply (NoDup_fmap_1 Z.to_nat). change (NoDup (Z.to_nat <$> indexes)). by rewrite <- Howners.
    + apply NoDup_seqZ.
    + intros i. change (i ∈ indexes <-> i ∈ seqZ 0 (zlen (inputs tx))). rewrite elem_of_seqZ. split; [intros ?%Hrange; lia|].
      intros Hi. destruct (Hcover i) as (k & g & _ & Hk & Hin); [lia|].
      apply list_elem_of_bind. exists g. split; [done|by eapply list_elem_of_lookup_2].
  - intros i Hi. destruct (Hcover i Hi) as (k & g & Hb & Hk & Hin). exists k, (prepared_group g).
    by rewrite list_lookup_fmap, Hk.
Qed.

Lemma canonical_payment_lock_Ok s d :
  canonical_payment_lock s = Ok d <-> d = s /\ zlen s = ADDRESS_DIGEST_BYTES.
Proof.
  unfold canonical_payment_lock, payment_digest_from_locking_script.
  destruct (Z.eqb_spec (zlen s) ADDRESS_DIGEST_BYTES); cbn; naive_solver.
Qed.

Lemma witness_payload_decodes tx w :
  Transaction.witness_payload tx = Some w <->
  witness tx <> [] /\ TxWitness.wf w /\ witness tx = TxWitness.canonical_bytes w.
Proof.
  unfold Transaction.witness_payload. case_bool_decide as Hw; [naive_solver|].
  split.
  - intros [-> ?]%(parse_all_sound codec_witness). done.
  - intros (_ & ? & ->). by apply (parse_all_complete codec_witness).
Qed.

Lemma wf_signer_group_refs w :
  TxWitness.wf w ->
  Forall TxWitness.wf_group (witness_signer_group_refs w) /\ zlen (witness_signer_group_refs w) <= 2 ^ 32.
Proof.
  intros (Hp & [_ Hu] & Ha & _). unfold witness_signer_group_refs. split.
  - apply Forall_app. split; [|done]. destruct (negb _); by constructor.
  - rewrite zlen_app. assert (zlen (if negb (TxWitness.is_empty w) then [TxWitness.primary w] else []) <= 1)
      by by destruct (negb _).
    lia.
Qed.

(** Everything [prepare_transaction_validation] has checked. *)
Lemma prepare_checks tx fee network h schedule p :
  prepare_transaction_validation tx fee network h schedule = Ok p ->
  Transaction.is_coinbase tx = false /\ zlen (outputs tx) <= MAX_STANDARD_OUTPUTS /\
  NoDup (input_key <$> inputs tx) /\ minimum_required_fee_atoms network tx <= fee /\
  Forall (fun o => DUST_RELAY_VALUE_ATOMS <= value_atoms o /\ zlen (locking_script o) = ADDRESS_DIGEST_BYTES)
    (outputs tx) /\
  (exists w, Transaction.witness_payload tx = Some w /\
     signer_groups p = prepared_group <$> witness_signer_group_refs w) /\
  well_prepared tx p.
Proof.
  unfold prepare_transaction_validation. intros Hrun. inv_ok. bool_to_prop.
  destruct a1 as [[prev by_input] groups]. inv_ok. bool_to_prop.
  pose proof (proj1 (witness_payload_decodes _ _) Hok0) as (_ & Hw & _).
  apply signer_groups_loop in Hok1 as (-> & Ha & Hv); [|by apply wf_signer_group_refs..].
  split_and!; try done.
  - by apply all_inserted_true in Hc5 as [? _].
  - apply existsb_false in Hc7. apply try_for_Ok in Hok. rewrite Forall_forall in Hc7, Hok.
    apply Forall_forall. intros o Ho. specialize (Hc7 o Ho). specialize (Hok o Ho). cbn in Hc7, Hok.
    bool_to_prop. split; [done|]. inv_ok. by apply canonical_payment_lock_Ok in Hok1 as [_ ?].
  - by exists a0.
  - by apply assigned_well_prepared; [apply wf_signer_group_refs|..].
Qed.

End prepare.

(** ** Coins and signatures *)

Lemma checked_output_value_Some tx total :
  Transaction.checked_output_value_atoms tx = Some total ->
  total = zsum (value_atoms <$> outputs tx).
Proof.
  unfold Transaction.checked_output_value_atoms. generalize (outputs tx). intros l.
  enough (forall acc, foldl (fun total output => total ← total; checked_add U64_MAX total (value_atoms output))
            acc l = Some total -> exists a, acc = Some a /\ total = a + zsum (value_atoms <$> l)) as Hgen.
  { intros (a & [= <-] & ->)%Hgen. lia. }
  induction l as [|o l IH]; intros acc Hf; cbn in Hf.
  - exists total. split; [done|]. cbn. lia.
  - apply IH in Hf as (a & Ha & ->). apply bind_Some in Ha as (b & -> & Hb).
    apply checked_add_Some in Hb as [-> _]. exists b. split; [done|]. cbn. lia.
Qed.

Section spends.
Context `{Sha3, FalconBackend}.

(** The coin [e] is the one input [i], signed for by [pubkey], may spend. *)
Definition coin_spendable (lookup : bytes -> Z -> option UtxoEntry) (network : Network) (h : Z)
    (pubkey : bytes) (i : TxInput) (e : UtxoEntry) : Prop :=
  lookup (previous_txid i) (output_index i) = Some e /\
  u_locking_script e = unlocking_script i /\ zlen (u_locking_script e) = ADDRESS_DIGEST_BYTES /\
  u_network e = network /\ public_key_digest network pubkey = u_locking_script e /\
  UtxoEntry.is_spendable_at e h = true.

Lemma validate_input_Ok lookup p network h total i k total' :
  validate_input lookup p network h total (k, i) = Ok total' <->
  exists e, coin_spendable lookup network h (signer_pubkey p k) i e /\
    total' = total + u_value_atoms e /\ total + u_value_atoms e <= U64_MAX.
Proof.
  unfold validate_input, coin_spendable. split.
  - intros Hrun. inv_ok. bool_to_prop.
    repeat match goal with Hl : canonical_payment_lock _ = Ok _ |- _ => apply canonical_payment_lock_Ok in Hl as [? ?] end.
    match goal with Hs : checked_add _ _ _ = _ |- _ => apply checked_add_Some in Hs as [-> ?] end.
    subst. eexists. by split_and!.
  - intros (e & (-> & Hs & Hlen & Hn & Hpk & Hsp) & -> & Hmax).
    cbn [mbind result_bind ok_or].
    rewrite (proj2 (canonical_payment_lock_Ok (u_locking_script e) _)) by done. cbn [mbind result_bind].
    rewrite (proj2 (canonical_payment_lock_Ok (unlocking_script i) _)) by by rewrite <- Hs. cbn [mbind result_bind].
    rewrite !bool_decide_true by by rewrite ?Hn. rewrite Hsp. cbn [negb].
    apply ok_or_Ok. by apply checked_add_Some.
Qed.

(** What the contextual checks establish, with the coins they looked up. *)
Lemma context_common_Ok lookup tx p network h fee :
  validate_transaction_with_context_common_and_schedule lookup tx p network h = Ok fee ->
  exists coins, Forall2 (fun ki e => coin_spendable lookup network h (signer_pubkey p ki.1) ki.2 e)
      (enumerate (inputs tx)) coins /\
    values coins = zsum (value_atoms <$> outputs tx) + fee /\ 0 <= fee.
Proof.
  unfold validate_transaction_with_context_common_and_schedule. intros Hrun. inv_ok.
  apply checked_output_value_Some in Hok0 as ->. apply checked_sub_Some in Hrun as [-> Hle].
  apply (try_fold_inv _ (fun done total => exists coins,
      Forall2 (fun ki e => coin_spendable lookup network h (signer_pubkey p ki.1) ki.2 e) done coins /\
      total = values coins)) in Hok as (coins & Hc & Hv).
  - exists coins. split; [done|]. lia.
  - exists []. split; [constructor|done].
  - intros done [k i] todo s1 s2 _ (coins & Hc & ->) (e & He & -> & _)%validate_input_Ok.
    exists (coins ++ [e]). split.
    + apply Forall2_app; [done|]. apply Forall2_cons. by split; [|constructor].
    + rewrite values_app, values_cons. cbn. lia.
Qed.

Lemma check_pow_Ok tx network fee u :
  check_transaction_pow tx network fee = Ok u <->
  tx_pow_bits tx = required_tx_pow_bits network tx fee /\
  transaction_pow_is_valid_for_bits network tx (required_tx_pow_bits network tx fee) = true.
Proof.
  destruct u. unfold check_transaction_pow. split.
  - intros Hrun. inv_ok. by bool_to_prop.
  - intros [-> ->]. by rewrite Z.eqb_refl.
Qed.

(** The digest a signer of [refs] signs. *)
Definition signer_digest (network : Network) (tx : Transaction) (refs : list WitnessInputRef) : bytes :=
  let indexes := input_index <$> refs in
  if zlen indexes =? zlen (inputs tx) then transaction_signing_digest network tx
  else transaction_signing_digest_for_input_indexes network tx indexes.

Lemma verify_signer_group_Ok tx network pubkey signature refs u :
  verify_signer_group tx network pubkey signature refs = Ok u <->
  zlen pubkey = FALCON_512_PUBLIC_KEY_BYTES /\ zlen signature = FALCON_512_SIGNATURE_BYTES /\
  falcon_verify (label DomainTransaction) pubkey (signer_digest network tx refs) signature = Ok true.
Proof.
  destruct u. unfold verify_signer_group. fold (signer_digest network tx refs). split.
  - intros Hrun. inv_ok. bool_to_prop. by subst.
  - intros (-> & -> & ->). done.
Qed.

(** A transaction that [prepare_transaction_validation] accepts has a witness
    that covers it: the groups' input references are in order, carry the short
    reference derived from the txid, the group's signature and the input, and
    name every input exactly once, so that the table from inputs to groups the
    spend checks index has an entry in bounds for every input. *)
Theorem prepared_witness_covers_inputs tx fee network h schedule p :
  prepare_transaction_validation tx fee network h schedule = Ok p -> well_prepared tx p.
Proof. intros Hp. by apply prepare_checks in Hp as (_ & _ & _ & _ & _ & _ & ?). Qed.

(** C3: a transaction validated against the coin set spends only what its signers
    own: every input names an existing, mature coin of the network, all
    different; the coin's lock is the digest of a public key of the witness whose
    Falcon signature verifies over a digest that covers that input; the inputs
    are worth the outputs plus the returned fee, which is the declared one and at
    least the minimum; and the proof of work the fee demands is there. *)
Theorem validated_transaction_authorized lookup tx fee network h schedule actual :
  validate_transaction_with_context_and_schedule lookup tx fee network h schedule = Ok actual ->
  actual = fee /\ minimum_required_fee_atoms network tx <= fee /\ NoDup (input_key <$> inputs tx) /\
  transaction_pow_is_valid_for_bits network tx (required_tx_pow_bits network tx fee) = true /\
  exists w coins, Transaction.witness_payload tx = Some w /\ length coins = length (inputs tx) /\
    values coins = zsum (value_atoms <$> outputs tx) + fee /\
    forall k i e, inputs tx !! k = Some i -> coins !! k = Some e ->
      exists g, g ∈ witness_signer_group_refs w /\ Z.of_nat k ∈ input_index <$> g_input_refs g /\
        coin_spendable lookup network h (g_pubkey g) i e /\
        falcon_verify (label DomainTransaction) (g_pubkey g) (signer_digest network tx (g_input_refs g))
          (g_signature g) = Ok true.
Proof.
  unfold validate_transaction_with_context_and_schedule,
    validate_transaction_with_context_exact_fee_prepared_and_schedule. intros Hrun. inv_ok. bool_to_prop.
  apply prepare_checks in Hok as (_ & _ & Hnd & Hfee & _ & (w & Hw & Hgroups) & _ & _ & _ & Hidx).
  apply context_common_Ok in Hok2 as (coins & Hcoins & Hval & _). apply check_pow_Ok in Hok3 as [_ Hpow].
  subst actual. do 4 (split; [done|]). exists w, coins. split; [done|].
  split; [by rewrite <- (Forall2_length _ _ _ Hcoins); unfold enumerate; rewrite length_imap|].
  split; [done|]. intros k i e Hi He.
  destruct (Forall2_lookup_r _ _ _ _ _ Hcoins He) as ([k' i'] & Hki & Hs).
  rewrite enumerate_lookup, Hi in Hki. injection Hki as <- <-. cbn [fst snd] in Hs.
  destruct (Hidx (Z.of_nat k)) as (gi & g & Hb & Hg & Hin).
  { apply lookup_lt_Some in Hi. unfold zlen. lia. }
  pose proof Hg as Hg'. rewrite Hgroups, list_lookup_fmap in Hg'.
  destruct (witness_signer_group_refs w !! gi) as [wg|] eqn:Hwg; [|done]. injection Hg' as <-.
  exists wg. split; [by eapply list_elem_of_lookup_2|]. split; [done|]. split.
  - unfold signer_pubkey in Hs. by rewrite (nth_lookup_Some _ _ _ _ Hb), Nat2Z.id, Hg in Hs.
  - apply try_for_Ok in Hok1. rewrite Forall_forall in Hok1. specialize (Hok1 _ (list_elem_of_lookup_2 _ _ _ Hg)).
    by apply verify_signer_group_Ok in Hok1 as (_ & _ & ?).
Qed.

End spends.

(** ** Commitment references

    [finalize_witness_commit_refs] rewrites the block-specific part of a
    witness. Two witnesses with the same core differ at most there. *)

Definition ref_core (r : WitnessInputRef) : Z * bytes := (input_index r, sig_ref_short r).
Definition group_core (g : WitnessSignerGroup) : bytes * bytes * list (Z * bytes) :=
  (g_signature g, g_pubkey g, ref_core <$> g_input_refs g).
Definition same_core (w w' : TxWitness) : Prop :=
  group_core (TxWitness.primary w) = group_core (TxWitness.primary w') /\
  group_core <$> additional_signers w = group_core <$> additional_signers w'.

#[global] Instance same_core_equivalence : Equivalence same_core.
Proof.
  split; [by intros w|intros w w' [H1 H2]; by split|]. intros w1 w2 w3 [H1 H2] [H3 H4]. split; etransitivity; eassumption.
Qed.

Lemma group_core_eq g g' :
  group_core g = group_core g' ->
  g_signature g = g_signature g' /\ g_pubkey g = g_pubkey g' /\
  zlen (g_input_refs g) = zlen (g_input_refs g') /\ ref_core <$> g_input_refs g = ref_core <$> g_input_refs g'.
Proof. intros Hg. injection Hg as ? ? Hr. split_and!; [done..| |done]. by eapply zlen_core. Qed.

Lemma update_group_core h g g' :
  group_core g = group_core g' -> TxWitness.update_group h g = TxWitness.update_group h g'.
Proof.
  intros (Hs & Hp & Hl & Hr)%group_core_eq. unfold TxWitness.update_group, len_u32. rewrite Hs, Hp, Hl.
  apply (fold_left_core ref_core); [|done]. intros h' r r' Hc. injection Hc as Hi Hsh.
  unfold TxWitness.update_ref. by rewrite Hi, Hsh.
Qed.
Lemma update_pow_group_core h g g' :
  group_core g = group_core g' -> update_pow_group h g = update_pow_group h g'.
Proof.
  intros (Hs & Hp & Hl & Hr)%group_core_eq. unfold update_pow_group, len_u32. rewrite Hs, Hp, Hl.
  apply (fold_left_core ref_core); [|done]. intros h' r r' Hc. injection Hc as Hi Hsh. by rewrite Hi, Hsh.
Qed.

#[global] Instance update_commitment_hasher_proper :
  Proper (same_core ==> eq ==> eq) TxWitness.update_commitment_hasher.
Proof.
  intros w w' [Hp Ha] h _ <-. unfold TxWitness.update_commitment_hasher, len_u32.
  rewrite (update_group_core _ _ _ Hp), (zlen_core _ _ _ Ha).
  apply (fold_left_core group_core); [|done]. intros. by apply update_group_core.
Qed.
#[global] Instance is_empty_proper : Proper (same_core ==> eq) TxWitness.is_empty.
Proof.
  intros w w' [Hp Ha]. apply group_core_eq in Hp as (Hs & Hp & Hl & _). cbn in Hs, Hp, Hl.
  apply zlen_core in Ha. unfold TxWitness.is_empty, zlen in *. rewrite Hs, Hp. f_equal; [f_equal|].
  - destruct (w_input_refs w), (w_input_refs w'); try done; cbn in Hl; lia.
  - destruct (additional_signers w), (additional_signers w'); try done; cbn in Ha; lia.
Qed.
#[global] Instance signer_group_count_proper : Proper (same_core ==> eq) TxWitness.signer_group_count.
Proof.
  intros w w' Hw. unfold TxWitness.signer_group_count. rewrite Hw.
  by destruct Hw as [_ ->%zlen_core].
Qed.
Lemma fold_pow_groups_core w w' h :
  same_core w w' -> fold_left update_pow_group (TxWitness.signer_groups w) h
                    = fold_left update_pow_group (TxWitness.signer_groups w') h.
Proof.
  intros Hw. apply (fold_left_core group_core); [intros; by apply update_pow_group_core|].
  unfold TxWitness.signer_groups. rewrite Hw. destruct (TxWitness.is_empty w'); [done|].
  destruct Hw as [Hp Ha]. by rewrite !fmap_cons, Hp, Ha.
Qed.

Section finalize.
Context `{Sha3}.

(** The reference [finalize_witness_commit_refs] writes. *)
Definition committed_ref (txid root : bytes) (r : WitnessInputRef) : WitnessInputRef :=
  {| input_index := input_index r; sig_ref_short := sig_ref_short r;
     witness_commit_ref := derive_witness_commit_ref txid root (input_index r) |}.

Lemma same_core_visit txid root w :
  same_core (TxWitness.for_each_input_ref_mut (committed_ref txid root) w) w.
Proof.
  assert (forall l : list WitnessInputRef, ref_core <$> (committed_ref txid root <$> l) = ref_core <$> l) as Href.
  { intros l. rewrite <- list_fmap_compose. by apply list_fmap_ext. }
  split.
  - cbn. unfold group_core. cbn. by rewrite Href.
  - cbn. rewrite <- list_fmap_compose. apply list_fmap_ext. intros _ g _. unfold group_core. cbn. by rewrite Href.
Qed.

Lemma visit_wf `{Laws : !Sha3Laws H} txid root w :
  TxWitness.wf w -> TxWitness.wf (TxWitness.for_each_input_ref_mut (committed_ref txid root) w).
Proof.
  assert (forall l : list WitnessInputRef, Forall TxWitness.wf_ref l ->
            Forall TxWitness.wf_ref (committed_ref txid root <$> l)) as Href.
  { intros l Hl. apply Forall_fmap. eapply Forall_impl; [done|]. intros r (Hi & Hs & _). split_and!; [done..|].
    cbn. unfold derive_witness_commit_ref. rewrite length_take, sha3_256_length. done. }
  assert (forall g : WitnessSignerGroup, TxWitness.wf_group g ->
            TxWitness.wf_group {| g_signature := g_signature g; g_pubkey := g_pubkey g;
                                  g_input_refs := committed_ref txid root <$> g_input_refs g |}) as Hgroup.
  { intros g (Hs & Hp & Hr). split_and!; [done..|]. by apply Href. }
  intros (Hp & Hn & Ha & Ht). split; [exact (Hgroup (TxWitness.primary w) Hp)|].
  pose proof (same_core_visit txid root w) as [_ Hlen].
  split; [by rewrite (zlen_core _ _ _ Hlen)|].
  split; [apply Forall_fmap; eapply Forall_impl; [done|]; apply Hgroup|].
  etrans; [|apply Ht]. apply Z.eq_le_incl. unfold TxWitness.total_input_refs. cbn.
  rewrite zlen_fmap, <- list_fmap_compose. do 2 f_equal. apply list_fmap_ext. intros. cbn. apply zlen_fmap.
Qed.

(** The transaction [finalize_witness_commit_refs] returns for a decodable witness. *)
Lemma finalize_payload `{Laws : !Sha3Laws H} tx root w :
  Transaction.witness_payload tx = Some w ->
  let tx' := finalize_witness_commit_refs tx root in
  same_spend tx' tx /\ tx_pow_nonce tx' = tx_pow_nonce tx /\ tx_pow_bits tx' = tx_pow_bits tx /\
  witness tx' <> [] /\
  Transaction.witness_payload tx'
  = Some (TxWitness.for_each_input_ref_mut (committed_ref (Transaction.txid tx) root) w).
Proof.
  intros Hw tx'. assert (tx' = finalize_witness_commit_refs tx root) as Htx by done.
  unfold finalize_witness_commit_refs in Htx. rewrite Hw in Htx.
  apply witness_payload_decodes in Hw as (Hne & Hwf & _).
  apply (visit_wf (Transaction.txid tx) root) in Hwf.
  assert (witness tx' <> []) as Hne'.
  { rewrite Htx. cbn [witness]. unfold TxWitness.canonical_bytes, TxWitness.group_bytes.
    rewrite <- !app_assoc. intros Hnil. apply app_eq_nil in Hnil as [Hnil _].
    apply (f_equal zlen) in Hnil. by rewrite zlen_len_u32 in Hnil. }
  split; [by rewrite Htx|]. split; [by rewrite Htx|]. split; [by rewrite Htx|]. split; [done|].
  apply witness_payload_decodes. split_and!; [done..|]. by rewrite Htx.
Qed.

Lemma finalize_no_payload tx root :
  Transaction.witness_payload tx = None -> finalize_witness_commit_refs tx root = tx.
Proof. unfold finalize_witness_commit_refs. by intros ->. Qed.

(** The hashes of a transaction that do not see the commitment references. *)
Lemma finalize_hashes `{Laws : !Sha3Laws H} tx root :
  let tx' := finalize_witness_commit_refs tx root in
  Transaction.txid tx' = Transaction.txid tx /\
  Transaction.witness_commitment_hash tx' = Transaction.witness_commitment_hash tx /\
  forall network, transaction_pow_preimage network tx' = transaction_pow_preimage network tx.
Proof.
  intros tx'. destruct (Transaction.witness_payload tx) as [w|] eqn:Hw.
  2:{ unfold tx'. by rewrite finalize_no_payload. }
  destruct (finalize_payload tx root w Hw) as (Hs & Hn & Hb & Hne & Hw'). fold tx' in Hs, Hn, Hb, Hne, Hw'.
  pose proof (same_core_visit (Transaction.txid tx) root w) as Hcore.
  assert (witness tx <> []) as Hne0 by by apply witness_payload_decodes in Hw as [? _].
  assert (forall h, Transaction.update_base_hasher tx' h = Transaction.update_base_hasher tx h) as Hbase.
  { intros h. by rewrite !update_base_hasher_eq, (base_bytes_same_spend _ _ Hs). }
  split; [|split].
  - unfold Transaction.txid. by rewrite Hbase.
  - unfold Transaction.witness_commitment_hash, Transaction.witness_commitment_message.
    rewrite Hbase, Hw, Hw', Hn, Hb, Hcore. by rewrite !bool_decide_false by done.
  - intros network. unfold transaction_pow_preimage, update_tx_pow_message_hasher.
    rewrite Hbase, Hw, Hw', (fold_pow_groups_core _ _ _ Hcore), (signer_group_count_proper _ _ Hcore). by rewrite !bool_decide_false by done.
Qed.

Lemma finalize_pow_fields `{Laws : !Sha3Laws H} tx root :
  tx_pow_bits (finalize_witness_commit_refs tx root) = tx_pow_bits tx /\
  tx_pow_nonce (finalize_witness_commit_refs tx root) = tx_pow_nonce tx.
Proof.
  destruct (Transaction.witness_payload tx) as [w|] eqn:Hw.
  - by destruct (finalize_payload tx root w Hw) as (_ & -> & -> & _).
  - by rewrite finalize_no_payload.
Qed.

Lemma visited_refs txid root w :
  Forall (fun g => Forall (fun r => witness_commit_ref r = derive_witness_commit_ref txid root (input_index r))
            (g_input_refs g))
    (witness_signer_group_refs (TxWitness.for_each_input_ref_mut (committed_ref txid root) w)).
Proof.
  unfold witness_signer_group_refs. apply Forall_app. split.
  - destruct (negb _); [|constructor]. repeat constructor. cbn. by apply Forall_fmap, Forall_true.
  - cbn. apply Forall_fmap, Forall_true. intros g. cbn. by apply Forall_fmap, Forall_true.
Qed.

(** The roots of a body do not see the commitment references. *)
Lemma finalize_roots `{Laws : !Sha3Laws H} txs root :
  let finalized := (fun tx => finalize_witness_commit_refs tx root) <$> txs in
  witness_root finalized = witness_root txs /\ merkle_root finalized = merkle_root txs.
Proof.
  cbn zeta. unfold witness_root, merkle_root. rewrite <- !list_fmap_compose.
  split; f_equal; apply list_fmap_ext; intros _ tx _; cbn; by apply finalize_hashes.
Qed.

(** Rewriting the commitment references of a block's transactions against its
    witness root changes neither the root (so the two can be computed one after
    the other), nor the txids and the Merkle root, nor any transaction's proof of
    work; and afterwards every reference of a decodable witness is the one a
    validator derives from that root. *)
Theorem finalize_binds_witness_root `{Laws : !Sha3Laws H} (txs : list Transaction) (root : bytes) :
  let finalized := (fun tx => finalize_witness_commit_refs tx root) <$> txs in
  witness_root finalized = witness_root txs /\ merkle_root finalized = merkle_root txs /\
  (forall tx network bits, transaction_pow_is_valid_for_bits network (finalize_witness_commit_refs tx root) bits
                      = transaction_pow_is_valid_for_bits network tx bits) /\
  (forall tx w, tx ∈ finalized -> Transaction.witness_payload tx = Some w ->
     Forall (fun g => Forall (fun r =>
         witness_commit_ref r = derive_witness_commit_ref (Transaction.txid tx) root (input_index r))
       (g_input_refs g)) (witness_signer_group_refs w)).
Proof.
  intros finalized. destruct (finalize_roots txs root). split; [done|]. split; [done|]. split.
  - intros tx network bits. unfold transaction_pow_is_valid_for_bits.
    destruct (finalize_hashes tx root) as (_ & _ & ->). by destruct (finalize_pow_fields tx root) as [-> ->].
  - intros tx w (tx0 & -> & _)%list_elem_of_fmap Hw.
    destruct (finalize_hashes tx0 root) as (-> & _ & _).
    destruct (Transaction.witness_payload tx0) as [w0|] eqn:Hw0.
    2:{ rewrite finalize_no_payload in Hw by done. congruence. }
    destruct (finalize_payload tx0 root w0 Hw0) as (_ & _ & _ & _ & Heq).
    rewrite Heq in Hw. injection Hw as <-. apply visited_refs.
Qed.

End finalize.

(** ** Witnesses *)

Definition sample_pubkey : bytes := replicate (Z.to_nat FALCON_512_PUBLIC_KEY_BYTES) x01.
Definition sample_signature : bytes := replicate (Z.to_nat FALCON_512_SIGNATURE_BYTES) x02.
(** The lock of [sample_pubkey]. *)
Definition sample_lock : bytes := public_key_digest (H:=checksum_sha3) Regnet sample_pubkey.
(** A coin it locks. *)
Definition sample_coin : UtxoEntry :=
  UtxoEntry.new Regnet (replicate 48 x07) 1 2000000000 sample_lock 1 false.
(** Its spend, for a fee of 500000000 atoms, signed and with proof of work. *)
Definition unsigned_spend : Transaction :=
  {| version := 1;
     inputs := [{| previous_txid := replicate 48 x07; output_index := 1; unlocking_script := sample_lock |}];
     outputs := [{| value_atoms := 1500000000; locking_script := sample_lock |}];
     lock_time := 0; witness := []; tx_pow_nonce := 0; tx_pow_bits := TX_POW_MIN_BITS |}.
Definition sample_witness (root : bytes) : TxWitness :=
  let txid := Transaction.txid (H:=checksum_sha3) unsigned_spend in
  {| w_signature := sample_signature; w_pubkey := sample_pubkey;
     w_input_refs := [{| input_index := 0;
                         sig_ref_short := derive_sig_ref_short (H:=checksum_sha3) txid sample_signature 0;
                         witness_commit_ref := derive_witness_commit_ref (H:=checksum_sha3) txid root 0 |}];
     additional_signers := [] |}.
Definition sample_spend (root : bytes) : Transaction :=
  {| version := 1; inputs := inputs unsigned_spend; outputs := outputs unsigned_spend; lock_time := 0;
     witness := TxWitness.canonical_bytes (sample_witness root); tx_pow_nonce := 0;
     tx_pow_bits := TX_POW_MIN_BITS |}.
Definition sample_fee : Z := 500000000.
Definition sample_lookup (txid : bytes) (index : Z) : option UtxoEntry :=
  if bool_decide (txid = replicate 48 x07) && (index =? 1) then Some sample_coin else None.

Lemma prepared_witness_covers_inputs_witness :
  match prepare_transaction_validation (H:=checksum_sha3) (sample_spend (zeros 48)) sample_fee Regnet 5
          SCHEDULED_ACTIVATIONS with
  | Ok p => well_prepared (H:=checksum_sha3) (sample_spend (zeros 48)) p
  | Err _ => False
  end.
Proof.
  pose proof (prepared_witness_covers_inputs (H:=checksum_sha3) (sample_spend (zeros 48)) sample_fee Regnet 5
    SCHEDULED_ACTIVATIONS) as Hp.
  assert (is_ok (prepare_transaction_validation (H:=checksum_sha3) (sample_spend (zeros 48)) sample_fee Regnet 5
            SCHEDULED_ACTIVATIONS) = true) as Hok by by vm_compute.
  destruct (prepare_transaction_validation _ _ _ _ _) as [p|]; [by apply Hp|done].
Defined.

Lemma validated_transaction_authorized_witness :
  exists w coins, Transaction.witness_payload (sample_spend (zeros 48)) = Some w /\
    values coins = zsum (value_atoms <$> outputs (sample_spend (zeros 48))) + sample_fee.
Proof.
  destruct (validated_transaction_authorized (H:=checksum_sha3) (H0:=accepting_falcon) sample_lookup
    (sample_spend (zeros 48)) sample_fee Regnet 5 SCHEDULED_ACTIVATIONS sample_fee)
    as (_ & _ & _ & _ & w & coins & Hw & _ & Hv & _); [by vm_compute|].
  by exists w, coins.
Defined.

(** The witness of [sample_spend] finalized against another root. *)
Lemma finalize_binds_witness_root_witness :
  witness_root (H:=checksum_sha3)
    [finalize_witness_commit_refs (H:=checksum_sha3) (sample_spend (zeros 48)) (replicate 48 x09)]
  = witness_root (H:=checksum_sha3) [sample_spend (zeros 48)].
Proof.
  exact (proj1 (finalize_binds_witness_root (H:=checksum_sha3) (Laws:=checksum_sha3_laws)
    [sample_spend (zeros 48)] (replicate 48 x09))).
Defined.
