(* ===== verification/BlockValidation.v ===== *)
(** * Block validation

    crates/atho-storage/src/validation.rs, the part that validates a block: the
    header checks, the commitments, the uniqueness checks, the overlay over the
    coin set and the contextual validation. The wall clock is the argument
    [now]. *)
From stdpp Require Import options.
From S2P Require Import Prelude Bytes Constants Crypto Keccak Network Rules Subsidy Transaction Block.
From S2P Require Import Pow Address Genesis Signatures TxPolicy Errors Utxo Validation.

(* src: validation.rs:50-50 MAX_FUTURE_BLOCK_TIMESTAMP_DRIFT_SECS *)
Definition MAX_FUTURE_BLOCK_TIMESTAMP_DRIFT_SECS : Z := 2 * 60 * 60.

(* src: validation.rs:1028-1032 UtxoOverlay *)
Record UtxoOverlay := {
  ov_base : UtxoSet;
  ov_added : gmap UtxoKey UtxoEntry;
  ov_removed : gset UtxoKey;
}.

Module UtxoOverlay.

(* src: validation.rs:1035-1041 UtxoOverlay::new *)
Definition new (base : UtxoSet) : UtxoOverlay := {| ov_base := base; ov_added := ∅; ov_removed := ∅ |}.

(* src: validation.rs:1043-1052 UtxoOverlay::get *)
Definition get (o : UtxoOverlay) (txid : bytes) (output_index : Z) : option UtxoEntry :=
  let key := {| k_txid := txid; k_output_index := output_index |} in
  match ov_added o !! key with
  | Some e => Some e
  | None => if decide (key ∈ ov_removed o) then None else UtxoSet.get (ov_base o) txid output_index
  end.

(* src: validation.rs:1054-1069 UtxoOverlay::remove *)
Definition remove (o : UtxoOverlay) (txid : bytes) (output_index : Z) :
    UtxoOverlay * result ValidationError UtxoEntry :=
  let key := {| k_txid := txid; k_output_index := output_index |} in
  match ov_added o !! key with
  | Some e => ({| ov_base := ov_base o; ov_added := delete key (ov_added o); ov_removed := ov_removed o |}, Ok e)
  | None =>
      if decide (key ∈ ov_removed o) then (o, Err MissingUtxo)
      else match UtxoSet.get (ov_base o) txid output_index with
           | None => (o, Err MissingUtxo)
           | Some e =>
               ({| ov_base := ov_base o; ov_added := ov_added o; ov_removed := {[key]} ∪ ov_removed o |}, Ok e)
           end
  end.

(* src: validation.rs:1071-1084 UtxoOverlay::insert *)
Definition insert (o : UtxoOverlay) (e : UtxoEntry) : UtxoOverlay * result ValidationError unit :=
  let key := UtxoEntry.key e in
  if bool_decide (is_Some (ov_added o !! key))
     || (negb (bool_decide (key ∈ ov_removed o))
         && bool_decide (is_Some (UtxoSet.get (ov_base o) (u_txid e) (u_output_index e))))
  then (o, Err MempoolConflict)
  else ({| ov_base := ov_base o; ov_added := <[key := e]> (ov_added o); ov_removed := ov_removed o |}, Ok tt).

(** An operation's verdict followed by its state: [overlay.op(..)?]. *)
Definition lift {A} (r : UtxoOverlay * result ValidationError A) : result ValidationError UtxoOverlay :=
  match r with (o, Ok _) => Ok o | (_, Err e) => Err e end.

End UtxoOverlay.

(* src: validation.rs:837-846 validate_block_size_metrics *)
Definition validate_block_size_metrics (b : Block) : result ValidationError unit :=
  let m := Block.size_metrics b in
  reject (MAX_BLOCK_RAW_BYTES <? m_raw_size_bytes m) || (MAX_BLOCK_VBYTES <? m_vsize_bytes m)
         || (MAX_BLOCK_WEIGHT <? m_weight_bytes m) with BlockTooLarge;
  Ok tt.

(* src: validation.rs:848-870 validate_block_common_header_with_schedule *)
Definition validate_block_common_header_with_schedule (b : Block) (h : Z) (network : Network)
    (schedule : list ScheduledActivation) : result ValidationError unit :=
  reject bool_decide (transactions b = []) with EmptyBlock;
  reject negb (is_supported_block_version_with_schedule (h_version (header b)) h schedule)
    with InvalidBlockVersion;
  reject negb (bool_decide (network_id (header b) = network)) with BlockNetworkMismatch;
  reject negb (height (header b) =? h) with InvalidBlockHeight;
  reject timestamp (header b) =? 0 with InvalidBlockTimestamp;
  Ok tt.

(* src: validation.rs:872-885 validate_block_static_header_precheck_with_schedule *)
Definition validate_block_static_header_precheck_with_schedule (b : Block) (h : Z) (network : Network)
    (schedule : list ScheduledActivation) : result ValidationError unit :=
  _ ← validate_block_common_header_with_schedule b h network schedule;
  _ ← validate_block_size_metrics b;
  reject negb (target_within_bounds (difficulty_target_or_bits (header b))) with BlockTargetOutOfBounds;
  Ok tt.

Section hashes.
Context `{Sha3}.

(* src: validation.rs:887-896 validate_block_body_commitments *)
Definition validate_block_body_commitments (b : Block) : result ValidationError unit :=
  reject negb (bool_decide (Block.compute_merkle_root b = h_merkle_root (header b))) with BlockMerkleRootMismatch;
  let computed_witness_root := Block.compute_witness_root b in
  reject negb (bool_decide (computed_witness_root = h_witness_root (header b))) with BlockWitnessRootMismatch;
  Ok tt.

(* src: validation.rs:898-907 validate_block_header_shape_with_schedule *)
Definition validate_block_header_shape_with_schedule (b : Block) (h : Z) (network : Network)
    (schedule : list ScheduledActivation) : result ValidationError unit :=
  _ ← validate_block_static_header_precheck_with_schedule b h network schedule;
  validate_block_body_commitments b.

(* src: validation.rs:991-997 txids_are_unique *)
Definition txids_are_unique (txs : list Transaction) : bool :=
  all_inserted (∅ : gset bytes) (Transaction.txid <$> txs).

(* src: validation.rs:999-1009 block_inputs_are_unique *)
Definition block_inputs_are_unique (txs : list Transaction) : bool :=
  all_inserted (∅ : gset UtxoKey) (input_key <$> (txs ≫= inputs)).

(** The callers have rejected an empty block, so [transactions[0]] is in bounds. *)
(* src: validation.rs:909-934 collect_prepared_block_transactions_with_schedule *)
Definition collect_prepared_block_transactions_with_schedule (b : Block) (h : Z) (network : Network)
    (schedule : list ScheduledActivation) : result ValidationError (list PreparedTransactionValidation) :=
  match transactions b with
  | [] => Err EmptyBlock
  | coinbase :: txs =>
      _ ← validate_coinbase_transaction_shape_with_schedule coinbase h schedule;
      reject negb (txids_are_unique (transactions b)) with DuplicateTransactionId;
      reject negb (block_inputs_are_unique (transactions b)) with MempoolConflict;
      try_map (fun tx =>
        prepare_transaction_validation tx (minimum_required_fee_atoms network tx) network h schedule) txs
  end.

(* src: validation.rs:1219-1246 validate_contextual_header_precheck *)
Definition validate_contextual_header_precheck (now : Z) (b : Block) (expected_previous_hash : bytes)
    (expected_target : bytes) (previous_blocks : list Block) : result ValidationError unit :=
  reject negb (bool_decide (previous_block_hash (header b) = expected_previous_hash))
    with BlockParentHashMismatch;
  reject match minimum_next_block_timestamp previous_blocks with
         | Some minimum_timestamp => timestamp (header b) <? minimum_timestamp
         | None => false
         end with InvalidBlockTimestamp;
  let maximum_timestamp := saturating_add U64_MAX now MAX_FUTURE_BLOCK_TIMESTAMP_DRIFT_SECS in
  reject maximum_timestamp <? timestamp (header b) with InvalidBlockTimestamp;
  reject negb (bool_decide (difficulty_target_or_bits (header b) = expected_target))
    with BlockTargetOutOfBounds;
  reject negb (meets_target (BlockHeader.block_hash (header b)) expected_target) with ProofOfWorkInvalid;
  Ok tt.

End hashes.

(* src: validation.rs:1111-1119 BlockValidationContext *)
Record BlockValidationContext := {
  ctx_height : Z;
  ctx_network : Network;
  ctx_expected_previous_hash : bytes;
  ctx_expected_target : bytes;
  ctx_previous_blocks : list Block;
  ctx_utxos : UtxoSet;
}.

Section falcon.
Context `{Sha3, FalconBackend}.

(** The signatures are checked in parallel and the verdicts collected in order. *)
(* src: validation.rs:974-989 verify_transaction_signatures_parallel_prepared *)
Definition verify_transaction_signatures_parallel_prepared (network : Network) (txs : list Transaction)
    (prepared : list PreparedTransactionValidation) : result ValidationError unit :=
  try_for id (zip_with (fun tx p => verify_transaction_signature_prepared tx network p) txs prepared).

(* src: validation.rs:951-972 validate_block_impl_with_schedule *)
Definition validate_block_impl_with_schedule (b : Block) (h : Z) (network : Network) (skip_pow : bool)
    (schedule : list ScheduledActivation) : result ValidationError unit :=
  _ ← validate_block_header_shape_with_schedule b h network schedule;
  let target := difficulty_target_or_bits (header b) in
  reject negb skip_pow && negb (meets_target (BlockHeader.block_hash (header b)) target)
    with ProofOfWorkInvalid;
  prepared ← collect_prepared_block_transactions_with_schedule b h network schedule;
  verify_transaction_signatures_parallel_prepared network (tail (transactions b)) prepared.

(* src: validation.rs:936-949 validate_block_impl *)
Definition validate_block_impl (b : Block) (h : Z) (network : Network) (skip_pow : bool) :
    result ValidationError unit :=
  validate_block_impl_with_schedule b h network skip_pow SCHEDULED_ACTIVATIONS.

(* src: validation.rs:1011-1014 validate_block *)
Definition validate_block (b : Block) (h : Z) (network : Network) : result ValidationError unit :=
  validate_block_impl b h network false.

(* src: validation.rs:1016-1026 validate_block_without_pow *)
Definition validate_block_without_pow (b : Block) (h : Z) (network : Network) : result ValidationError unit :=
  validate_block_impl b h network true.

(** The loop over a transaction's inputs: the state is the overlay and
    [seen_inputs]. *)
(* src: validation.rs:1169-1174 validate_block_with_context_and_schedule (inputs) *)
Definition spend_overlay_input (st : UtxoOverlay * gset UtxoKey) (i : TxInput) :
    result ValidationError (UtxoOverlay * gset UtxoKey) :=
  let '(overlay, seen_inputs) := st in
  seen_inputs ← ok_or (insert_new (input_key i) seen_inputs) MempoolConflict;
  overlay ← UtxoOverlay.lift (UtxoOverlay.remove overlay (previous_txid i) (output_index i));
  Ok (overlay, seen_inputs).

(* src: validation.rs:1176-1184 validate_block_with_context_and_schedule (commit refs) *)
Definition check_witness_commit_refs (txid block_witness_root : bytes) (groups : list PreparedSignerGroup) :
    result ValidationError unit :=
  try_for (fun g => try_for (fun r =>
      let expected_commit := derive_witness_commit_ref txid block_witness_root (input_index r) in
      reject negb (bool_decide (witness_commit_ref r = expected_commit)) with WitnessInputReferenceMismatch;
      Ok tt)
    (p_input_refs g)) groups.

(* src: validation.rs:1189-1199 validate_block_with_context_and_schedule (outputs) *)
Definition insert_overlay_output (network : Network) (txid : bytes) (h : Z) (overlay : UtxoOverlay)
    (io : Z * TxOutput) : result ValidationError UtxoOverlay :=
  let '(output_index, o) := io in
  UtxoOverlay.lift (UtxoOverlay.insert overlay
    (UtxoEntry.new network txid (output_index mod 2 ^ 32) (value_atoms o) (locking_script o) h false)).

(** One round of the loop over the transactions; the state is the overlay,
    [seen_inputs] and [sum_fees]. *)
(* src: validation.rs:1153-1200 validate_block_with_context_and_schedule (transactions) *)
Definition validate_block_transaction (network : Network) (h : Z) (block_witness_root : bytes)
    (st : UtxoOverlay * gset UtxoKey * Z) (tp : Transaction * PreparedTransactionValidation) :
    result ValidationError (UtxoOverlay * gset UtxoKey * Z) :=
  let '(overlay, seen_inputs, sum_fees) := st in
  let '(tx, prepared) := tp in
  let txid := p_txid prepared in
  let fee_rate := minimum_required_fee_atoms network tx in
  fee ← validate_transaction_with_context_minimum_fee_prepared_and_schedule (UtxoOverlay.get overlay)
          tx prepared fee_rate network h;
  st ← try_fold spend_overlay_input (overlay, seen_inputs) (inputs tx);
  let '(overlay, seen_inputs) := st in
  _ ← check_witness_commit_refs txid block_witness_root (signer_groups prepared);
  sum_fees ← ok_or (checked_add U64_MAX sum_fees fee) FeeMismatch;
  overlay ← try_fold (insert_overlay_output network txid h) overlay (enumerate (outputs tx));
  Ok (overlay, seen_inputs, sum_fees).

(* src: validation.rs:1121-1217 validate_block_with_context_and_schedule *)
Definition validate_block_with_context_and_schedule (now : Z) (b : Block) (ctx : BlockValidationContext)
    (schedule : list ScheduledActivation) : result ValidationError unit :=
  let h := ctx_height ctx in
  let network := ctx_network ctx in
  _ ← validate_block_static_header_precheck_with_schedule b h network schedule;
  _ ← validate_contextual_header_precheck now b (ctx_expected_previous_hash ctx) (ctx_expected_target ctx)
        (ctx_previous_blocks ctx);
  _ ← validate_block_body_commitments b;
  prepared ← collect_prepared_block_transactions_with_schedule b h network schedule;
  match transactions b with
  | [] => Err EmptyBlock
  | coinbase :: txs =>
      let block_witness_root := h_witness_root (header b) in
      st ← try_fold (validate_block_transaction network h block_witness_root)
             (UtxoOverlay.new (ctx_utxos ctx), ∅, 0) (zip txs prepared);
      let '(_, _, sum_fees) := st in
      expected_coinbase_reward ←
        ok_or (checked_add U64_MAX (block_subsidy_atoms_for_network network h) sum_fees) CoinbaseRewardMismatch;
      _ ← validate_coinbase_transaction_with_schedule coinbase expected_coinbase_reward h schedule;
      verify_transaction_signatures_parallel_prepared network txs prepared
  end.

(* src: validation.rs:1087-1109 validate_block_with_context *)
Definition validate_block_with_context (now : Z) (b : Block) (h : Z) (network : Network)
    (expected_previous_hash expected_target : bytes) (previous_blocks : list Block) (utxos : UtxoSet) :
    result ValidationError unit :=
  validate_block_with_context_and_schedule now b
    {| ctx_height := h; ctx_network := network; ctx_expected_previous_hash := expected_previous_hash;
       ctx_expected_target := expected_target; ctx_previous_blocks := previous_blocks; ctx_utxos := utxos |}
    SCHEDULED_ACTIVATIONS.

End falcon.

(** ** The overlay

    The coins visible through an overlay, as a map. *)
Definition view (o : UtxoOverlay) : gmap UtxoKey UtxoEntry :=
  ov_added o ∪ filter (fun ke => ke.1 ∉ ov_removed o) (us_entries (ov_base o)).

(** An added entry never hides one of the base. *)
Definition overlay_inv (o : UtxoOverlay) : Prop :=
  forall k e, ov_added o !! k = Some e -> k ∈ ov_removed o \/ us_entries (ov_base o) !! k = None.

Lemma view_lookup o k :
  view o !! k = match ov_added o !! k with
                | Some e => Some e
                | None => if decide (k ∈ ov_removed o) then None else us_entries (ov_base o) !! k
                end.
Proof.
  unfold view. rewrite lookup_union. destruct (ov_added o !! k) as [e|] eqn:Ea.
  - by rewrite union_Some_l.
  - rewrite (left_id_L None (∪)). case_decide as Hk.
    + apply map_lookup_filter_None. right. intros e _ Hn. by apply Hn.
    + destruct (us_entries (ov_base o) !! k) as [e|] eqn:Eb.
      * by apply map_lookup_filter_Some.
      * apply map_lookup_filter_None. by left.
Qed.

Lemma view_get o t i : UtxoOverlay.get o t i = view o !! {| k_txid := t; k_output_index := i |}.
Proof. by rewrite view_lookup. Qed.

Lemma view_new s : overlay_inv (UtxoOverlay.new s) /\ view (UtxoOverlay.new s) = us_entries s.
Proof.
  split; [by intros k e; cbn; rewrite lookup_empty|].
  apply map_eq. intros k. rewrite view_lookup. cbn. rewrite lookup_empty.
  by rewrite decide_False by by apply not_elem_of_empty.
Qed.

Lemma view_remove o t i o' :
  let k := {| k_txid := t; k_output_index := i |} in
  overlay_inv o -> UtxoOverlay.lift (UtxoOverlay.remove o t i) = Ok o' ->
  overlay_inv o' /\ is_Some (view o !! k) /\ view o' = delete k (view o).
Proof.
  intros k Hinv. unfold UtxoOverlay.remove. fold k.
  destruct (ov_added o !! k) as [e|] eqn:Ea; [|destruct (decide (k ∈ ov_removed o)) as [Hr|Hr]; [done|]].
  - intros [= <-]. split_and!.
    + intros k' e'. cbn. intros [_ ?]%lookup_delete_Some. by eapply Hinv.
    + rewrite view_lookup, Ea. done.
    + apply map_eq. intros k'. rewrite view_lookup. cbn. destruct (decide (k' = k)) as [->|Hne].
      * rewrite !lookup_delete_eq. case_decide; [done|]. by destruct (Hinv _ _ Ea).
      * by rewrite !lookup_delete_ne, view_lookup by done.
  - unfold UtxoSet.get. fold k. destruct (us_entries (ov_base o) !! k) as [e|] eqn:Eb; [|done].
    intros [= <-]. split_and!.
    + intros k' e'. cbn. intros Hk'. destruct (Hinv _ _ Hk'); [left; set_solver|by right].
    + rewrite view_lookup, Ea, decide_False by done. rewrite Eb. done.
    + apply map_eq. intros k'. rewrite view_lookup. cbn. destruct (decide (k' = k)) as [->|Hne].
      * rewrite Ea, lookup_delete_eq. by rewrite decide_True by set_solver.
      * rewrite lookup_delete_ne, view_lookup by done. destruct (ov_added o !! k'); [done|].
        repeat case_decide; try done; set_solver.
Qed.

Lemma view_insert o e o' :
  overlay_inv o -> UtxoOverlay.lift (UtxoOverlay.insert o e) = Ok o' ->
  overlay_inv o' /\ view o !! UtxoEntry.key e = None /\ view o' = <[UtxoEntry.key e := e]> (view o).
Proof.
  intros Hinv. unfold UtxoOverlay.insert, UtxoSet.get. fold (UtxoEntry.key e).
  destruct (_ || _) eqn:Hc; [done|]. intros [= <-].
  apply orb_false_iff in Hc as [Ha Hb]. apply bool_decide_eq_false, eq_None_not_Some in Ha.
  assert (UtxoEntry.key e ∈ ov_removed o \/ us_entries (ov_base o) !! UtxoEntry.key e = None) as Hfree.
  { apply andb_false_iff in Hb as [Hb|Hb]; bool_to_prop; [by left|]. right. by apply eq_None_not_Some. }
  split_and!.
  - intros k' e'. cbn. destruct (decide (k' = UtxoEntry.key e)) as [->|Hne]; [done|].
    rewrite lookup_insert_ne by done. apply Hinv.
  - rewrite view_lookup, Ha. case_decide; [done|]. by destruct Hfree.
  - apply map_eq. intros k'. rewrite view_lookup. cbn. destruct (decide (k' = UtxoEntry.key e)) as [->|Hne].
    + by rewrite !lookup_insert_eq.
    + by rewrite !lookup_insert_ne, view_lookup by done.
Qed.

(** The two loops of a round refine removing and adding on the view. *)
Lemma view_spend o seen ins o' seen' :
  overlay_inv o -> try_fold spend_overlay_input (o, seen) ins = Ok (o', seen') ->
  overlay_inv o' /\ (exists taken, spends (view o) ins taken) /\
  view o' = without_keys (view o) (input_key <$> ins).
Proof.
  revert o seen. induction ins as [|i ins IH]; intros o seen Hinv Hrun; cbn in Hrun.
  - injection Hrun as <- <-. split_and!; [done| |done]. exists []. split; constructor.
  - inv_ok. match goal with Hl : UtxoOverlay.lift _ = Ok _ |- _ =>
      apply view_remove in Hl as (Hinv1 & [e He] & Hv); [|done] end.
    apply IH in Hrun as (Hinv2 & (taken & Hs) & Hv2); [|done]. split_and!; [done| |].
    + exists (e :: taken). apply spends_cons. split; [done|]. unfold input_key. by rewrite <- Hv.
    + rewrite Hv2, Hv, without_keys_delete. done.
Qed.

Lemma view_outputs {A} (mk : A -> UtxoEntry) o l o' :
  overlay_inv o -> try_fold (fun o a => UtxoOverlay.lift (UtxoOverlay.insert o (mk a))) o l = Ok o' ->
  overlay_inv o' /\ places (view o) (mk <$> l) /\ view o' = with_new (view o) (mk <$> l).
Proof.
  revert o. induction l as [|a l IH]; intros o Hinv Hrun; cbn in Hrun.
  - injection Hrun as <-. split_and!; [done| |done]. split; constructor.
  - inv_ok. apply view_insert in Hok as (Hinv1 & Hf & Hv); [|done].
    apply IH in Hrun as (Hinv2 & Hp & Hv2); [|done]. rewrite fmap_cons, with_new_cons. split_and!; [done| |].
    + apply places_cons. split; [done|]. by rewrite <- Hv.
    + by rewrite Hv2, Hv.
Qed.

Section simulation.
Context `{Sha3, FalconBackend}.

(** The coins the contextual checks saw are the ones the inputs spend. *)
Lemma spends_coins o network h p ins taken coins :
  spends (view o) ins taken ->
  Forall2 (fun ki e => coin_spendable (UtxoOverlay.get o) network h (signer_pubkey p ki.1) ki.2 e)
    (enumerate ins) coins ->
  taken = coins.
Proof.
  intros [Hs _] Hc. apply list_eq_same_length with (length coins); [done| |].
  - rewrite <- (Forall2_length _ _ _ Hs), <- (Forall2_length _ _ _ Hc). unfold enumerate. by rewrite length_imap.
  - intros k e e' _ He He'.
    destruct (Forall2_lookup_r _ _ _ _ _ Hs He) as (i & Hi & Hl).
    destruct (Forall2_lookup_r _ _ _ _ _ Hc He') as ([k' i'] & Hki & Hsp & _).
    rewrite enumerate_lookup, Hi in Hki. injection Hki as <- <-. cbn [snd] in Hsp.
    rewrite view_get in Hsp. unfold input_key in Hl. congruence.
Qed.

(** One round of the validation loop, on the view. *)
Lemma validate_round network h root o seen fees tx p fee0 schedule o' seen' fees' :
  overlay_inv o ->
  prepare_transaction_validation tx fee0 network h schedule = Ok p ->
  validate_block_transaction network h root (o, seen, fees) (tx, p) = Ok (o', seen', fees') ->
  let es := UtxoSet.create_outputs tx network h in
  let m := without_keys (view o) (input_key <$> inputs tx) in
  exists taken, overlay_inv o' /\ spends (view o) (inputs tx) taken /\ places m es /\
    view o' = with_new m es /\
    fees' = fees + (values taken - zsum (value_atoms <$> outputs tx)) /\ fees <= fees'.
Proof.
  intros Hinv Hprep Hrun es m. unfold validate_block_transaction in Hrun. inv_ok.
  destruct a0 as [o1 seen1]. inv_ok.
  apply prepare_checks in Hprep as (Hcb & _ & _ & _ & _ & _ & Hpt & _).
  apply view_spend in Hok0 as (Hinv1 & (taken & Hs) & Hv1); [|done].
  unfold validate_transaction_with_context_minimum_fee_prepared_and_schedule in Hok. inv_ok.
  match goal with Hc : validate_transaction_with_context_common_and_schedule _ _ _ _ _ = Ok _ |- _ =>
    apply context_common_Ok in Hc as (coins & Hcoins & Hval & Hpos) end.
  match goal with Hc : checked_add _ _ _ = Some _ |- _ => apply checked_add_Some in Hc as [-> _] end.
  assert (forall o io, insert_overlay_output network (p_txid p) h o io
            = UtxoOverlay.lift (UtxoOverlay.insert o
                (UtxoEntry.new network (Transaction.txid tx) (io.1 mod 2 ^ 32) (value_atoms io.2)
                   (locking_script io.2) h (Transaction.is_coinbase tx)))) as Heq.
  { intros ? []. by rewrite Hcb, <- Hpt. }
  rewrite (try_fold_ext _ _ _ _ Heq) in Hok3.
  apply view_outputs in Hok3 as (Hinv2 & Hp & Hv2); [|done].
  assert ((fun io => UtxoEntry.new network (Transaction.txid tx) (io.1 mod 2 ^ 32) (value_atoms io.2)
                       (locking_script io.2) h (Transaction.is_coinbase tx)) <$> enumerate (outputs tx) = es) as Hes.
  { unfold es, UtxoSet.create_outputs, enumerate. by rewrite fmap_imap. }
  rewrite Hes in Hp, Hv2. rewrite Hv1 in Hp, Hv2. exists taken.
  pose proof (spends_coins _ _ _ _ _ _ _ Hs Hcoins) as ->.
  split_and!; [done..|lia|lia].
Qed.

(** The set during [apply_block]: the view and the coinbase's entry [ec]. *)
Lemma coinbase_commutes (m : gmap UtxoKey UtxoEntry) kc ec ks es :
  kc ∉ ks -> kc ∉ keys_of es ->
  with_new (without_keys (<[kc := ec]> m) ks) es = <[kc := ec]> (with_new (without_keys m ks) es).
Proof.
  intros Hk He. apply map_eq. intros k. destruct (decide (k = kc)) as [->|Hne].
  - rewrite with_new_fresh, lookup_without_keys, decide_False, !lookup_insert_eq by done. done.
  - rewrite lookup_insert_ne, !with_new_lookup, !lookup_without_keys, lookup_insert_ne by done. done.
Qed.

Lemma spends_insert m kc ec ins taken :
  m !! kc = None -> spends m ins taken -> (kc ∉ input_key <$> ins) /\ spends (<[kc := ec]> m) ins taken.
Proof.
  intros Hkc [Hs Hnd]. assert (kc ∉ input_key <$> ins) as Hn.
  { intros (i & -> & Hi)%list_elem_of_fmap. apply list_elem_of_lookup in Hi as [k Hk].
    destruct (Forall2_lookup_l _ _ _ _ _ Hs Hk) as (e & _ & Hl). congruence. }
  split; [done|]. split; [|done]. eapply Forall2_impl; [done|]. intros i e Hl.
  rewrite lookup_insert_ne; [done|]. intros ->. congruence.
Qed.

(** A block that validates over a view applies to the set, and gives up exactly
    the fees. *)
Lemma apply_validated network h root kc ec schedule txs ps o seen fees o' seen' fees' s undo :
  try_fold (validate_block_transaction network h root) (o, seen, fees) (zip txs ps) = Ok (o', seen', fees') ->
  Forall2 (fun tx p => exists fee, prepare_transaction_validation tx fee network h schedule = Ok p) txs ps ->
  overlay_inv o -> us_network s = network -> us_entries s = <[kc := ec]> (view o) -> view o !! kc = None ->
  Forall (fun tx => Transaction.txid tx <> k_txid kc) txs ->
  fees <= fees' /\
  exists s' undo', UtxoSet.apply_transactions s undo h txs = (s', Ok undo') /\
    UtxoSet.total_value (us_entries s') = UtxoSet.total_value (us_entries s) - (fees' - fees).
Proof.
  intros Hrun Hprep. revert o seen fees s undo Hrun.
  induction Hprep as [|tx p txs ps [fee Hp] Hprep IH]; intros o seen fees s undo Hrun Hinv Hn Hs Hkc Hids.
  - cbn in Hrun. injection Hrun as -> -> ->. split; [lia|]. exists s, undo. split; [done|]. lia.
  - cbn [zip zip_with try_fold] in Hrun. apply bind_Ok in Hrun as ([[o1 seen1] fees1] & Hround & Hrun).
    apply Forall_cons in Hids as [Hid Hids].
    destruct (validate_round _ _ _ _ _ _ _ _ _ _ _ _ _ Hinv Hp Hround)
      as (taken & Hinv1 & Hsp & Hpl & Hv & Hf & Hle).
    destruct (spends_insert _ kc ec _ _ Hkc Hsp) as [Hnk Hsp'].
    set (es := UtxoSet.create_outputs tx network h) in *.
    assert (kc ∉ keys_of es) as Hne.
    { intros (e & Heq & He)%list_elem_of_fmap. apply create_outputs_txid in He. apply Hid.
      rewrite <- He, Heq. done. }
    assert (places (without_keys (us_entries s) (input_key <$> inputs tx)) es) as Hpl'.
    { destruct Hpl as [Hpf Hpn]. split; [|done]. rewrite Forall_forall in *. intros e He. specialize (Hpf e He).
      rewrite Hs, lookup_without_keys in *. case_decide; [done|].
      rewrite lookup_insert_ne; [done|]. intros ->. by apply Hne, list_elem_of_fmap_2. }
    rewrite <- Hs in Hsp'. pose proof (apply_step s undo h tx txs taken) as Hstep.
    rewrite Hn in Hstep. fold es in Hstep. rewrite Hstep by done. clear Hstep.
    destruct (IH _ _ _
      (UtxoSet.with_entries s (with_new (without_keys (us_entries s) (input_key <$> inputs tx)) es))
      {| spent := spent undo ++ taken; created := created undo ++ es |} Hrun Hinv1) as (Hle2 & s' & undo' & -> & Ht).
    + done.
    + cbn [us_entries UtxoSet.with_entries]. by rewrite Hs, Hv, coinbase_commutes.
    + rewrite Hv, with_new_fresh, lookup_without_keys, decide_False by done. done.
    + done.
    + split; [lia|]. exists s', undo'. split; [done|]. rewrite Ht. cbn [us_entries UtxoSet.with_entries].
      rewrite total_value_places, (total_value_spends _ _ taken) by done.
      unfold es. rewrite create_outputs_values. lia.
Qed.

Lemma collect_prepared_Ok b h network schedule ps :
  collect_prepared_block_transactions_with_schedule b h network schedule = Ok ps ->
  exists cb txs, transactions b = cb :: txs /\
    validate_coinbase_transaction_shape_with_schedule cb h schedule = Ok tt /\
    NoDup (Transaction.txid <$> transactions b) /\ NoDup (input_key <$> (transactions b ≫= inputs)) /\
    Forall2 (fun tx p => exists fee, prepare_transaction_validation tx fee network h schedule = Ok p) txs ps.
Proof.
  unfold collect_prepared_block_transactions_with_schedule, txids_are_unique, block_inputs_are_unique.
  destruct (transactions b) as [|cb txs] eqn:Htx; [done|]. intros Hrun. inv_ok. bool_to_prop.
  repeat match goal with Ha : all_inserted _ _ = true |- _ => apply all_inserted_true in Ha as [? _] end.
  exists cb, txs. split_and!; try done.
  apply try_map_Ok in Hrun. eapply Forall2_impl; [exact Hrun|].
  intros tx p Hp. exists (minimum_required_fee_atoms network tx). exact Hp.
Qed.

Lemma coinbase_shape_Ok cb h schedule u :
  validate_coinbase_transaction_shape_with_schedule cb h schedule = Ok u ->
  inputs cb = [] /\ exists o, outputs cb = [o].
Proof.
  unfold validate_coinbase_transaction_shape_with_schedule, Transaction.is_coinbase. intros Hrun.
  inv_ok. bool_to_prop. split; [done|]. destruct (outputs cb) as [|o [|]]; try done. by exists o.
Qed.

(** The parts of a successful contextual validation the coin set depends on. *)
Lemma validate_loop now b ctx schedule :
  validate_block_with_context_and_schedule now b ctx schedule = Ok tt ->
  exists cb txs ps o seen fees oc, transactions b = cb :: txs /\ height (header b) = ctx_height ctx /\
    inputs cb = [] /\ outputs cb = [oc] /\ NoDup (Transaction.txid <$> transactions b) /\
    Forall2 (fun tx p => exists fee,
      prepare_transaction_validation tx fee (ctx_network ctx) (ctx_height ctx) schedule = Ok p) txs ps /\
    try_fold (validate_block_transaction (ctx_network ctx) (ctx_height ctx) (h_witness_root (header b)))
      (UtxoOverlay.new (ctx_utxos ctx), ∅, 0) (zip txs ps) = Ok (o, seen, fees) /\
    value_atoms oc = block_subsidy_atoms_for_network (ctx_network ctx) (ctx_height ctx) + fees.
Proof.
  unfold validate_block_with_context_and_schedule, validate_block_static_header_precheck_with_schedule,
    validate_block_common_header_with_schedule. intros Hrun. inv_ok. bool_to_prop.
  match goal with Hc : collect_prepared_block_transactions_with_schedule _ _ _ _ = Ok ?ps |- _ =>
    rename ps into prepared; apply collect_prepared_Ok in Hc as (cb & txs & Htx & Hshape & Hids & Hins & Hprep) end.
  rewrite Htx in Hrun. inv_ok. match goal with st : (UtxoOverlay * gset UtxoKey * Z)%type |- _ =>
    destruct st as [[o seen] fees] end. inv_ok.
  apply coinbase_shape_Ok in Hshape as (Hcb & oc & Ho).
  match goal with Hc : validate_coinbase_transaction_with_schedule _ _ _ _ = Ok _ |- _ =>
    unfold validate_coinbase_transaction_with_schedule in Hc end. inv_ok. bool_to_prop.
  repeat match goal with Hc : Transaction.checked_output_value_atoms _ = Some _ |- _ =>
    apply checked_output_value_Some in Hc end.
  repeat match goal with Hc : checked_add _ _ _ = Some _ |- _ => apply checked_add_Some in Hc as [? _] end.
  exists cb, txs, prepared, o, seen, fees, oc. split_and!; try done.
  rewrite Ho in *. cbn in *. lia.
Qed.

(** C6: a block that passes contextual validation has the shape the rest of the
    node relies on: exactly one coinbase, in front, with one output; no two
    transactions with the same txid (so no Merkle-root duplication) and no two
    inputs spending the same output; a header on the given parent, height,
    network and target whose roots are those of the body, whose hash meets the
    target, and whose timestamp lies after the median and not too far ahead. *)
Theorem validated_block_shape now b ctx schedule :
  validate_block_with_context_and_schedule now b ctx schedule = Ok tt ->
  (exists cb txs, transactions b = cb :: txs /\ inputs cb = [] /\ length (outputs cb) = 1%nat /\
     Forall (fun tx => inputs tx <> []) txs) /\
  NoDup (Transaction.txid <$> transactions b) /\ NoDup (input_key <$> (transactions b ≫= inputs)) /\
  previous_block_hash (header b) = ctx_expected_previous_hash ctx /\ height (header b) = ctx_height ctx /\
  network_id (header b) = ctx_network ctx /\ difficulty_target_or_bits (header b) = ctx_expected_target ctx /\
  h_merkle_root (header b) = merkle_root (transactions b) /\
  h_witness_root (header b) = witness_root (transactions b) /\
  bytes_leb (BlockHeader.block_hash (header b)) (ctx_expected_target ctx) = true /\
  (forall mtp, median_time_past_from_blocks (ctx_previous_blocks ctx) = Some mtp ->
     mtp < U64_MAX -> mtp < timestamp (header b)) /\
  timestamp (header b) <= now + MAX_FUTURE_BLOCK_TIMESTAMP_DRIFT_SECS.
Proof.
  unfold validate_block_with_context_and_schedule, validate_block_static_header_precheck_with_schedule,
    validate_block_common_header_with_schedule, validate_contextual_header_precheck, validate_block_body_commitments.
  intros Hrun. inv_ok. bool_to_prop.
  match goal with Hc : collect_prepared_block_transactions_with_schedule _ _ _ _ = Ok _ |- _ =>
    apply collect_prepared_Ok in Hc as (cb & txs & Htx & Hshape & Hids & Hins & Hprep) end.
  apply coinbase_shape_Ok in Hshape as (Hcb & o & Ho).
  split; [|split_and!; try done].
  - exists cb, txs. split_and!; [done|done|by rewrite Ho|]. apply Forall_forall. intros tx Htin.
    apply list_elem_of_lookup in Htin as [k Hk].
    destruct (Forall2_lookup_l _ _ _ _ _ Hprep Hk) as (p & _ & fee & Hp).
    apply prepare_checks in Hp as (Hcoin & _). unfold Transaction.is_coinbase in Hcoin. by bool_to_prop.
  - intros mtp Hm Hmax. unfold minimum_next_block_timestamp in *.
    match goal with Hc : match _ with Some _ => _ | None => _ end = false |- _ => rename Hc into Hts end.
    rewrite Hm in Hts. cbn in Hts. bool_to_prop. unfold saturating_add in Hts. lia.
  - unfold saturating_add in *. lia.
Qed.

(** A valid block applies and issues the subsidy. *)
Lemma validated_applies now b ctx schedule :
  validate_block_with_context_and_schedule now b ctx schedule = Ok tt ->
  UtxoSet.wf (ctx_utxos ctx) -> us_network (ctx_utxos ctx) = ctx_network ctx ->
  (forall cb, head (transactions b) = Some cb ->
     us_entries (ctx_utxos ctx) !! {| k_txid := Transaction.txid cb; k_output_index := 0 |} = None) ->
  exists s' undo, UtxoSet.apply_block (ctx_utxos ctx) b = (s', Ok undo) /\ UtxoSet.wf s' /\
    UtxoSet.total_value (us_entries s')
    = UtxoSet.total_value (us_entries (ctx_utxos ctx))
      + block_subsidy_atoms_for_network (ctx_network ctx) (ctx_height ctx).
Proof.
  intros Hval Hwf Hnet Hfree. destruct (validate_loop _ _ _ _ Hval) as
    (cb & txs & ps & o & seen & fees & oc & Htx & Hh & Hin & Hout & Hnd & Hprep & Hloop & Hreward).
  set (kc := {| k_txid := Transaction.txid cb; k_output_index := 0 |}).
  set (h := ctx_height ctx) in *. set (s := ctx_utxos ctx) in *.
  specialize (Hfree cb). rewrite Htx in Hfree. specialize (Hfree eq_refl). fold kc in Hfree.
  destruct (view_new s) as [Hinv Hview]. rewrite Htx, fmap_cons, NoDup_cons in Hnd. destruct Hnd as [Hncb _].
  set (ec := UtxoEntry.new (us_network s) (Transaction.txid cb) 0 (value_atoms oc) (locking_script oc) h
               (Transaction.is_coinbase cb)).
  assert (UtxoSet.create_outputs cb (us_network s) h = [ec]) as Hes.
  { unfold UtxoSet.create_outputs. by rewrite Hout. }
  assert (places (us_entries s) [ec]) as Hpl.
  { split; [by repeat constructor|]. cbn. apply NoDup_singleton. }
  destruct (apply_validated _ _ _ kc ec _ _ _ _ _ _ _ _ _
    (UtxoSet.with_entries s (with_new (us_entries s) [ec])) {| spent := []; created := [ec] |} Hloop Hprep Hinv)
    as (_ & s' & undo & Happ & Ht).
  - done.
  - by rewrite Hview.
  - by rewrite Hview.
  - apply Forall_forall. intros tx Htin Heq. apply Hncb. cbn in Heq. rewrite <- Heq. by apply list_elem_of_fmap_2.
  - exists s', undo. assert (UtxoSet.apply_block s b = (s', Ok undo)) as Hb.
    { unfold UtxoSet.apply_block. rewrite Htx, Hh. fold h. rewrite (apply_step _ _ _ _ _ []).
      - rewrite Hin, Hes. exact Happ.
      - rewrite Hin. split; constructor.
      - by rewrite Hin, Hes. }
    split; [done|]. split; [by destruct (apply_transactions_ok _ _ _ _ _ _ Hwf Hb)|].
    rewrite Ht. cbn [us_entries UtxoSet.with_entries]. rewrite total_value_places by done.
    cbn. lia.
Qed.

(** C1: validation is enough for application: a block that validates against a
    well-formed coin set, and whose coinbase output has a free place, applies
    without error to a well-formed set in which the coins in existence have
    grown by exactly the block subsidy. Fees move coins to the miner, and
    nothing else creates or destroys any. *)
Theorem validated_block_applies now b ctx schedule :
  validate_block_with_context_and_schedule now b ctx schedule = Ok tt ->
  UtxoSet.wf (ctx_utxos ctx) -> us_network (ctx_utxos ctx) = ctx_network ctx ->
  (forall cb, head (transactions b) = Some cb ->
     us_entries (ctx_utxos ctx) !! {| k_txid := Transaction.txid cb; k_output_index := 0 |} = None) ->
  exists s' undo, UtxoSet.apply_block (ctx_utxos ctx) b = (s', Ok undo) /\ UtxoSet.wf s' /\
    UtxoSet.total_value (us_entries s')
    = UtxoSet.total_value (us_entries (ctx_utxos ctx))
      + block_subsidy_atoms_for_network (ctx_network ctx) (ctx_height ctx).
Proof. apply validated_applies. Qed.

End simulation.

(** ** Witnesses *)

(** A set holding [sample_coin], and a block at height 5 that spends it. *)
Definition funded_set : UtxoSet :=
  {| us_network := Regnet; us_entries := {[ UtxoEntry.key sample_coin := sample_coin ]} |}.
Definition reward_coinbase (h fees : Z) : Transaction :=
  {| version := 1; inputs := [];
     outputs := [{| value_atoms := block_subsidy_atoms_for_network Regnet h + fees; locking_script := sample_lock |}];
     lock_time := h; witness := []; tx_pow_nonce := 0; tx_pow_bits := 0 |}.
Definition sample_target : bytes := min_difficulty_target DIFFICULTY_PROFILE.
(** A block with the given transactions, mined under [checksum_sha3]. *)
Definition mined_block (h time : Z) (parent : bytes) (txs : list Transaction) : Block :=
  Block.new (H:=checksum_sha3)
    {| h_version := 1; network_id := Regnet; height := h; previous_block_hash := parent;
       h_merkle_root := merkle_root (H:=checksum_sha3) txs;
       h_witness_root := witness_root (H:=checksum_sha3) txs;
       founders_hash_sha3_384 := FOUNDERS_HASH_SHA3_384; founders_hash_sha3_512 := FOUNDERS_HASH_SHA3_512;
       timestamp := time; difficulty_target_or_bits := sample_target; nonce := 0 |} txs.
Definition valid_block : Block :=
  let root := witness_root (H:=checksum_sha3) [reward_coinbase 5 sample_fee; sample_spend (zeros 48)] in
  mined_block 5 1700000000 (zeros 48) [reward_coinbase 5 sample_fee; sample_spend root].
Definition valid_context : BlockValidationContext :=
  {| ctx_height := 5; ctx_network := Regnet; ctx_expected_previous_hash := zeros 48;
     ctx_expected_target := sample_target; ctx_previous_blocks := []; ctx_utxos := funded_set |}.

Lemma valid_block_validates :
  validate_block_with_context_and_schedule (H:=checksum_sha3) (H0:=accepting_falcon) 1700000000 valid_block
    valid_context SCHEDULED_ACTIVATIONS = Ok tt.
Proof. by vm_compute. Qed.
Lemma funded_set_wf : UtxoSet.wf funded_set.
Proof. by apply map_Forall_singleton. Qed.

Lemma validated_block_shape_witness :
  NoDup (Transaction.txid (H:=checksum_sha3) <$> transactions valid_block) /\ timestamp (header valid_block) <= 1700007200.
Proof.
  destruct (validated_block_shape (H:=checksum_sha3) (H0:=accepting_falcon) 1700000000 valid_block valid_context
    SCHEDULED_ACTIVATIONS) as (_ & Hnd & _ & _ & _ & _ & _ & _ & _ & _ & _ & Ht); [by vm_compute|].
  split; [done|]. exact Ht.
Defined.

Lemma validated_block_applies_witness :
  exists s' undo, UtxoSet.apply_block (H:=checksum_sha3) funded_set valid_block = (s', Ok undo) /\
    UtxoSet.wf s' /\
    UtxoSet.total_value (us_entries s')
    = UtxoSet.total_value (us_entries funded_set) + block_subsidy_atoms_for_network Regnet 5.
Proof.
  apply (validated_block_applies (H:=checksum_sha3) (H0:=accepting_falcon) 1700000000 valid_block valid_context
    SCHEDULED_ACTIVATIONS); [by vm_compute|apply funded_set_wf|done|].
  intros cb Hcb. assert (cb = reward_coinbase 5 sample_fee) as -> by by injection Hcb.
  apply (bool_decide_unpack _). by vm_compute.
Defined.
