(* ===== verification/Lmdb.v ===== *)
(** * The transactional key-value store

    What crates/atho-storage/src/db.rs uses of the lmdb crate, as the class
    [LmdbStore], and what LMDB documents about it, as [LmdbLaws]: a read sees what
    the committed transactions left; a write transaction collects its changes and
    either commits all of them or none; a transaction in which an operation failed
    cannot commit. Every call may fail. [transact] and [txm] are the shape of the
    code's transactions. [map_lmdb] is a store that never fails, for the witnesses. *)
From stdpp Require Import options.
From S2P Require Import Prelude Bytes Errors.

#[local] Set Default Proof Using "Type*".

(* src: db.rs:249-260 Dataset *)
Inductive Dataset :=
| Meta | Blocks | BlockHeights | BlockTransactions | Transactions | Utxos | Peers | Addresses | PeerHealth.
#[global] Instance Dataset_eq_dec : EqDecision Dataset.
Proof. solve_decision. Defined.
Definition dataset_index (d : Dataset) : nat :=
  match d with
  | Meta => 0 | Blocks => 1 | BlockHeights => 2 | BlockTransactions => 3 | Transactions => 4
  | Utxos => 5 | Peers => 6 | Addresses => 7 | PeerHealth => 8
  end.
#[global] Program Instance Dataset_countable : Countable Dataset :=
  inj_countable' dataset_index
    (nth_default Meta [Meta; Blocks; BlockHeights; BlockTransactions; Transactions; Utxos; Peers; Addresses; PeerHealth]) _.
Next Obligation. by intros []. Qed.

(** The contents of the nine tables. *)
Abbreviation tables := (gmap (Dataset * bytes) bytes).

Class LmdbStore := {
  environment : Type;
  rw_txn : Type;
  (** A read-only transaction with one [get], or one pass of a cursor. *)
  env_get : environment -> Dataset -> bytes -> result LmdbError bytes;
  env_iter : environment -> Dataset -> result LmdbError (list (bytes * bytes));
  begin_rw_txn : environment -> result LmdbError rw_txn;
  txn_get : rw_txn -> Dataset -> bytes -> result LmdbError bytes;
  txn_iter : rw_txn -> Dataset -> result LmdbError (list (bytes * bytes));
  txn_put : rw_txn -> Dataset -> bytes -> bytes -> rw_txn * result LmdbError unit;
  txn_del : rw_txn -> Dataset -> bytes -> rw_txn * result LmdbError unit;
  txn_commit : environment -> rw_txn -> environment * result LmdbError unit;
  (** Opens the same files again with another map size. *)
  env_resize : environment -> Z -> result LmdbError environment;
}.

(** [l] lists the table [ds] in the order of its keys. *)
Definition lists_table (T : tables) (ds : Dataset) (l : list (bytes * bytes)) : Prop :=
  (forall k v, (k, v) ∈ l <-> T !! (ds, k) = Some v) /\ StronglySorted (fun a b => bytes_ltb a b = true) l.*1.

Class LmdbLaws `{LmdbStore} := {
  (** What the committed transactions left. *)
  committed : environment -> tables;
  (** What a transaction would commit, unless it has failed. *)
  pending : rw_txn -> option tables;
  env_get_law e ds k : match env_get e ds k with
    | Ok v => committed e !! (ds, k) = Some v
    | Err LmdbNotFound => committed e !! (ds, k) = None
    | Err _ => True
    end;
  env_iter_law e ds l : env_iter e ds = Ok l -> lists_table (committed e) ds l;
  begin_law e t : begin_rw_txn e = Ok t -> pending t = Some (committed e);
  txn_get_law t ds k : match txn_get t ds k with
    | Ok v => exists T, pending t = Some T /\ T !! (ds, k) = Some v
    | Err LmdbNotFound => exists T, pending t = Some T /\ T !! (ds, k) = None
    | Err _ => True
    end;
  txn_iter_law t ds l : txn_iter t ds = Ok l -> exists T, pending t = Some T /\ lists_table T ds l;
  txn_put_law t ds k v : match txn_put t ds k v with
    | (t', Ok _) => pending t' = insert (ds, k) v <$> pending t
    | (t', Err _) => pending t' = None
    end;
  txn_del_law t ds k : match txn_del t ds k with
    | (t', Ok _) => pending t' = delete (ds, k) <$> pending t
    | (t', Err LmdbNotFound) => pending t' = pending t /\ exists T, pending t = Some T /\ T !! (ds, k) = None
    | (t', Err _) => pending t' = None
    end;
  txn_commit_law e t : match txn_commit e t with
    | (e', Ok _) => pending t = Some (committed e')
    | (e', Err _) => committed e' = committed e
    end;
  env_resize_law e size e' : env_resize e size = Ok e' -> committed e' = committed e;
}.

(** ** Transactions as the code writes them *)

Section txm.
Context `{Hl : LmdbStore}.

(** A computation inside a write transaction; [?] stops it. [None]: it is still
    running when its fuel ends. *)
Definition txm (A : Type) : Type := rw_txn -> option (rw_txn * result StorageError A).
#[global] Instance txm_ret : MRet txm := fun A a t => Some (t, Ok a).
#[global] Instance txm_bind : MBind txm := fun A B f m t =>
  match m t with
  | None => None
  | Some (t, Ok a) => f a t
  | Some (t, Err e) => Some (t, Err e)
  end.
Definition txm_of {A} (r : result StorageError A) : txm A := fun t => Some (t, r).

Definition never {A} : txm A := fun _ => None.

Definition map_lmdb_err {A} (r : result LmdbError A) : result StorageError A := map_err Lmdb r.
(** [Err(NotFound)] is no value. *)
Definition absent_is_none (r : result LmdbError bytes) : result StorageError (option bytes) :=
  match r with
  | Ok v => Ok (Some v)
  | Err LmdbNotFound => Ok None
  | Err e => Err (Lmdb e)
  end.
Definition get_in (ds : Dataset) (k : bytes) : txm (option bytes) := fun t =>
  Some (t, absent_is_none (txn_get t ds k)).
(** [if let Ok(v) = txn.get(..)]. *)
Definition peek_in (ds : Dataset) (k : bytes) : txm (option bytes) := fun t =>
  Some (t, Ok match txn_get t ds k with Ok v => Some v | Err _ => None end).
Definition iter_in (ds : Dataset) : txm (list (bytes * bytes)) := fun t => Some (t, map_lmdb_err (txn_iter t ds)).
Definition put_in (ds : Dataset) (k v : bytes) : txm unit := fun t =>
  let '(t, r) := txn_put t ds k v in Some (t, map_lmdb_err r).
(** [NotFound] is no error. *)
Definition del_in (ds : Dataset) (k : bytes) : txm unit := fun t =>
  Some match txn_del t ds k with
  | (t, Ok _) | (t, Err LmdbNotFound) => (t, Ok tt)
  | (t, Err e) => (t, Err (Lmdb e))
  end.
(** [let _ = txn.del(..)]. *)
Definition try_del_in (ds : Dataset) (k : bytes) : txm unit := fun t => Some ((txn_del t ds k).1, Ok tt).
(** [for x in l { f(x)?; }]. *)
Fixpoint for_in {A} (l : list A) (f : A -> txm unit) : txm unit :=
  match l with
  | [] => mret tt
  | x :: l => _ ← f x; for_in l f
  end.

(** [begin_rw_txn()?; ..; txn.commit()?]. A transaction that is not committed is dropped. *)
Definition transact {A} (body : txm A) (e : environment) : option (environment * result StorageError A) :=
  match begin_rw_txn e with
  | Err x => Some (e, Err (Lmdb x))
  | Ok t =>
      match body t with
      | None => None
      | Some (_, Err x) => Some (e, Err x)
      | Some (t, Ok a) =>
          Some match txn_commit e t with
          | (e, Err x) => (e, Err (Lmdb x))
          | (e, Ok _) => (e, Ok a)
          end
      end
  end.

(* src: db.rs:40-40 MAX_MAP_SIZE *)
Definition MAX_MAP_SIZE : Z := 2 ^ 40.
(** The environment with the size of its map. *)
(* src: db.rs:271-284 DatabaseState *)
Record DatabaseState := { env : environment; map_size : Z }.

Definition map_full {A} (r : result StorageError A) : bool :=
  match r with Err (Lmdb LmdbMapFull) => true | _ => false end.
(* src: db.rs:1205-1213 Database::reopen *)
Definition reopen (s : DatabaseState) (size : Z) : result LmdbError DatabaseState :=
  if size <=? map_size s then Ok s
  else e ← env_resize (env s) size; Ok {| env := e; map_size := size |}.
(** [None] if the loop is still running after [rounds] rounds. *)
(* src: db.rs:1183-1203 Database::write_with_retry *)
Fixpoint write_with_retry {A} (rounds : nat) (s : DatabaseState)
    (op : environment -> option (environment * result StorageError A)) :
    option (DatabaseState * result StorageError A) :=
  match rounds with
  | O => None
  | S rounds =>
      match op (env s) with
      | None => None
      | Some (e, r) =>
          let s := {| env := e; map_size := map_size s |} in
          if map_full r then
            let next := Z.min (saturating_mul USIZE_MAX (map_size s) 2) MAX_MAP_SIZE in
            if next =? map_size s then Some (s, r)
            else
              match reopen s next with
              | Err x => Some (s, Err (Lmdb x))
              | Ok s => write_with_retry rounds s op
              end
          else Some (s, r)
      end
  end.
(** Enough for every map size the code can have ([write_ends]). *)
Definition RETRY_ROUNDS : nat := 42.
Definition write {A} (s : DatabaseState) (body : txm A) : option (DatabaseState * result StorageError A) :=
  write_with_retry RETRY_ROUNDS s (transact body).
Lemma write_eq {A} (s : DatabaseState) (body : txm A) :
  write s body = write_with_retry RETRY_ROUNDS s (transact body).
Proof. reflexivity. Qed.
End txm.

(** ** What a transaction does *)

Section laws.
Context `{Hl : LmdbStore, Laws : !LmdbLaws}.

(** If [m] succeeds and the transaction is still good, then it was good before,
    and [m] took its tables as [S] says. *)
Definition yields {A} (m : txm A) (S : tables -> A -> tables -> Prop) : Prop :=
  forall t t' a T', m t = Some (t', Ok a) -> pending t' = Some T' -> exists T, pending t = Some T /\ S T a T'.

Lemma yields_weaken {A} (m : txm A) (S S' : tables -> A -> tables -> Prop) :
  yields m S -> (forall T a T', S T a T' -> S' T a T') -> yields m S'.
Proof. intros Hm HS t t' a T' Hrun Hp. destruct (Hm t t' a T' Hrun Hp) as (T & ? & ?). eauto. Qed.
Lemma yields_ret {A} (a : A) : yields (mret a) (fun T b T' => b = a /\ T' = T).
Proof. intros t t' b T' [= <- <-] Hp. eauto. Qed.
Lemma yields_of {A} (r : result StorageError A) : yields (txm_of r) (fun T a T' => r = Ok a /\ T' = T).
Proof. intros t t' a T' [= <- ->] Hp. eauto. Qed.
Lemma yields_bind {A B} (m : txm A) (f : A -> txm B) S S' :
  yields m S -> (forall a, yields (f a) (S' a)) ->
  yields (a ← m; f a) (fun T b T' => exists a T0, S T a T0 /\ S' a T0 b T').
Proof.
  intros Hm Hf t t' b T' Hrun Hp. unfold mbind, txm_bind in Hrun.
  destruct (m t) as [[t0 [a|e]]|] eqn:E; [|done..].
  destruct (Hf a _ _ _ _ Hrun Hp) as (T0 & Hp0 & HS'). destruct (Hm _ _ _ _ E Hp0) as (T & HpT & HS). eauto 10.
Qed.
Lemma yields_err {A} (e : StorageError) S : yields (A:=A) (txm_of (Err e)) S.
Proof. by intros t t' a T'. Qed.

Lemma yields_never {A} S : yields (A:=A) never S.
Proof. by intros t t' a T'. Qed.

Lemma yields_get ds k : yields (get_in ds k) (fun T o T' => o = T !! (ds, k) /\ T' = T).
Proof.
  intros t t' o T' Hrun Hp. unfold get_in, absent_is_none in Hrun. pose proof (txn_get_law t ds k) as Hlaw.
  destruct (txn_get t ds k) as [v|[]]; try (by injection Hrun); injection Hrun as -> <-;
    destruct Hlaw as (T & HT & HTk); rewrite Hp in HT; injection HT as <-; eauto.
Qed.
Lemma yields_peek ds k : yields (peek_in ds k) (fun T o T' => T' = T /\ forall v, o = Some v -> T !! (ds, k) = Some v).
Proof.
  intros t t' o T' [= -> <-] Hp. exists T'. split_and!; [done..|]. intros v.
  pose proof (txn_get_law t' ds k) as Hlaw. destruct (txn_get t' ds k); [|done]. intros [= ->].
  destruct Hlaw as (T & HT & HTk). rewrite Hp in HT. by injection HT as ->.
Qed.
Lemma yields_iter ds : yields (iter_in ds) (fun T l T' => lists_table T ds l /\ T' = T).
Proof.
  intros t t' l T' Hrun Hp. unfold iter_in, map_lmdb_err, map_err in Hrun.
  destruct (txn_iter t ds) as [l0|] eqn:E; [|done]. injection Hrun as -> ->.
  destruct (txn_iter_law _ _ _ E) as (T & HT & Hlist). eauto. rewrite Hp in HT. injection HT as ->. eauto.
Qed.
Lemma yields_put ds k v : yields (put_in ds k v) (fun T _ T' => T' = <[(ds, k) := v]> T).
Proof.
  intros t t' [] T' Hrun Hp. unfold put_in in Hrun. pose proof (txn_put_law t ds k v) as Hlaw.
  destruct (txn_put t ds k v) as [t1 [[]|]]; [|done]. injection Hrun as ->. rewrite Hp in Hlaw.
  destruct (pending t) as [T|]; [|done]. exists T. split; [done|]. by injection Hlaw.
Qed.
Lemma yields_del ds k : yields (del_in ds k) (fun T _ T' => T' = delete (ds, k) T).
Proof.
  intros t t' [] T' Hrun Hp. unfold del_in in Hrun. pose proof (txn_del_law t ds k) as Hlaw.
  destruct (txn_del t ds k) as [t1 [[]|[]]]; try done; injection Hrun as ->.
  - rewrite Hp in Hlaw. destruct (pending t) as [T|]; [|done]. exists T. split; [done|]. by injection Hlaw.
  - destruct Hlaw as (Hsame & T & HT & Habs). exists T'. rewrite <- Hsame. split; [done|].
    rewrite Hsame, HT in Hp. injection Hp as <-. by rewrite delete_id.
Qed.
Lemma yields_try_del ds k : yields (try_del_in ds k) (fun T _ T' => T' = delete (ds, k) T).
Proof.
  intros t t' [] T' Hrun Hp. unfold try_del_in in Hrun. injection Hrun as Hrun. subst t'.
  apply (yields_del ds k t (txn_del t ds k).1 tt T'); [|done].
  unfold del_in. pose proof (txn_del_law t ds k) as Hlaw.
  destruct (txn_del t ds k) as [t1 [[]|[]]]; try done; cbn in Hp; congruence.
Qed.
(** The tables before and after a loop with steps [R]. *)
Inductive chain {A} (R : A -> tables -> tables -> Prop) : list A -> tables -> tables -> Prop :=
| chain_nil T : chain R [] T T
| chain_cons x l T T0 T' : R x T T0 -> chain R l T0 T' -> chain R (x :: l) T T'.
Lemma yields_for {A} (l : list A) (f : A -> txm unit) (R : A -> tables -> tables -> Prop) :
  (forall x, yields (f x) (fun T _ T' => R x T T')) -> yields (for_in l f) (fun T _ T' => chain R l T T').
Proof.
  intros Hf. induction l as [|x l IH]; cbn [for_in].
  { eapply yields_weaken; [apply yields_ret|]. intros T b T' (-> & ->). constructor. }
  eapply yields_weaken; [eapply yields_bind; [apply Hf|intros u; apply IH]|].
  intros T b T' (u & T0 & HR & Hc). by econstructor.
Qed.

(** A committed transaction leaves what its body did; anything else leaves nothing. *)
Lemma transact_spec {A} (body : txm A) S e e' r :
  yields body S -> transact body e = Some (e', r) ->
  match r with
  | Ok a => S (committed e) a (committed e')
  | Err _ => committed e' = committed e
  end.
Proof.
  intros Hbody. unfold transact. destruct (begin_rw_txn e) as [t|x] eqn:Hb; [|by intros [= <- <-]].
  apply begin_law in Hb. destruct (body t) as [[t1 [a|x]]|] eqn:E; [|by intros [= <- <-]|done].
  pose proof (txn_commit_law e t1) as Hc. destruct (txn_commit e t1) as [e1 [[]|x]]; intros [= <- <-]; [|done].
  destruct (Hbody t t1 a _ E Hc) as (T & HT & HS). rewrite Hb in HT. by injection HT as ->.
Qed.

Lemma reopen_same s size s' : reopen s size = Ok s' -> committed (env s') = committed (env s).
Proof.
  unfold reopen. destruct (_ <=? _); [by intros [= <-]|]. intros (e & He & [= <-])%bind_Ok. by apply env_resize_law in He.
Qed.
(** The retries change the size of the map and nothing else. *)
Lemma retry_spec {A} (body : txm A) S : yields body S -> forall rounds s s' r,
  write_with_retry rounds s (transact body) = Some (s', r) ->
  match r with
  | Ok a => S (committed (env s)) a (committed (env s'))
  | Err _ => committed (env s') = committed (env s)
  end.
Proof.
  intros Hbody. induction rounds as [|rounds IH]; intros s s' r Hrun; [done|]. cbn [write_with_retry] in Hrun.
  destruct (transact body (env s)) as [[e r0]|] eqn:E; [|done]. pose proof (transact_spec _ _ _ _ _ Hbody E) as Hspec.
  destruct (map_full r0) eqn:Hfull; [|by injection Hrun as <- <-].
  destruct r0 as [a|x]; [done|].
  destruct (_ =? _); [by injection Hrun as <- <-|].
  destruct (reopen _ _) as [s1|y] eqn:Hz; [|by injection Hrun as <- <-].
  apply reopen_same in Hz. cbn [env] in Hz. specialize (IH _ _ _ Hrun). by rewrite Hz, Hspec in IH.
Qed.
Lemma write_spec {A} (body : txm A) S s s' r :
  yields body S -> write s body = Some (s', r) ->
  match r with
  | Ok a => S (committed (env s)) a (committed (env s'))
  | Err _ => committed (env s') = committed (env s)
  end.
Proof. intros Hbody Hrun. rewrite write_eq in Hrun. exact (retry_spec body S Hbody _ _ _ _ Hrun). Qed.

(** ** Writes end *)

(** [m] ends where the pending tables satisfy [P]. *)
Definition ends {A : Type} (P : tables -> Prop) (m : txm A) : Prop :=
  forall t, (forall T, pending t = Some T -> P T) -> is_Some (m t).
Lemma ends_bind {A B : Type} (P : tables -> Prop) (m : txm A) (f : A -> txm B) S :
  ends P m -> yields m S -> (forall a, ends (fun T' => exists T, P T /\ S T a T') (f a)) -> ends P (a ← m; f a).
Proof.
  intros Hm HS Hf t HP. destruct (Hm t HP) as [[t' [a|e]] E]; unfold mbind, txm_bind; rewrite E; [|by eexists].
  apply Hf. intros T' HT'. destruct (HS _ _ _ _ E HT') as (T & HT & ?). eauto.
Qed.
Lemma ends_for {A} (l : list A) (f : A -> txm unit) : (forall x t, is_Some (f x t)) -> forall t, is_Some (for_in l f t).
Proof.
  intros Hf. induction l as [|x l IH]; intros t; [by eexists|]. cbn [for_in]. unfold mbind, txm_bind.
  destruct (Hf x t) as [[t' [[]|e]] ->]; [apply IH|by eexists].
Qed.
Lemma ends_transact {A : Type} (P : tables -> Prop) (body : txm A) e : ends P body -> P (committed e) -> is_Some (transact body e).
Proof.
  intros Hb HP. unfold transact. destruct (begin_rw_txn e) as [t|x] eqn:E; [|by eexists]. apply begin_law in E.
  destruct (Hb t) as [[t' [a|x]] ->]; [|by eexists..]. intros T HT. rewrite E in HT. by injection HT as <-.
Qed.

(** [k] bounds the doublings that are left. *)
Lemma retry_ends {A : Type} (P : tables -> Prop) (body : txm A) S : ends P body -> yields body S -> forall k rounds s,
  (k < rounds)%nat -> P (committed (env s)) ->
  0 <= map_size s <= MAX_MAP_SIZE -> (map_size s = 0 \/ MAX_MAP_SIZE <= map_size s * 2 ^ Z.of_nat k) ->
  exists s' r, write_with_retry rounds s (transact body) = Some (s', r) /\ 0 <= map_size s' <= MAX_MAP_SIZE.
Proof.
  set (maximum := MAX_MAP_SIZE) in *. assert (maximum = 2 ^ 40) as Hm by reflexivity. intros Hbody HS.
  induction k as [|k IH]; intros rounds s Hr HP Hs Hk; (destruct rounds as [|rounds]; [lia|]);
    cbn [write_with_retry]; fold maximum; destruct (ends_transact P body (env s) Hbody HP) as [[e r] E];
    rewrite E; cbn [map_size]; (destruct (map_full r) eqn:Hfull; [|by eexists _, _]); set (next := Z.min _ _);
    (destruct (next =? map_size s) eqn:En; [by eexists _, _|]); apply Z.eqb_neq in En;
    assert (next = Z.min (map_size s * 2) maximum) as Hn
      by (unfold next, saturating_mul, USIZE_MAX in *; clear -Hs Hm; lia); clearbody next.
  - exfalso. cbn in Hk. lia.
  - unfold reopen at 1. cbn [map_size env]. rewrite (proj2 (Z.leb_gt _ _)) by lia.
    destruct (env_resize e next) as [e'|x] eqn:Hz; [|by eexists _, _]. cbn [mbind result_bind].
    apply IH; [lia| |cbn; lia|].
    + cbn [env]. rewrite (env_resize_law _ _ _ Hz). destruct r as [a|x]; [done|].
      by rewrite (transact_spec body S (env s) e (Err x) HS E).
    + cbn [map_size]. right. destruct Hk as [Hk|Hk]; [lia|].
      rewrite Nat2Z.inj_succ, Z.pow_succ_r in Hk by lia. subst next.
      pose proof (Z.pow_pos_nonneg 2 (Z.of_nat k)). nia.
Qed.
Lemma write_ends {A : Type} (P : tables -> Prop) (s : DatabaseState) (body : txm A) S :
  ends P body -> yields body S -> P (committed (env s)) -> 0 <= map_size s <= MAX_MAP_SIZE ->
  exists s' r, write s body = Some (s', r) /\ 0 <= map_size s' <= MAX_MAP_SIZE.
Proof.
  intros Hb HS HP Hs. rewrite write_eq. apply (retry_ends P body S Hb HS 40); [unfold RETRY_ROUNDS; lia|done..|].
  destruct (decide (map_size s = 0)) as [->|Hne]; [by left|right].
  assert (2 ^ Z.of_nat 40 = MAX_MAP_SIZE) as -> by reflexivity.
  assert (0 < MAX_MAP_SIZE) by reflexivity. generalize dependent MAX_MAP_SIZE. intros m Hs Hm. nia.
Qed.
End laws.

(** ** A store that never fails *)

Definition row_le (a b : bytes * bytes) : Prop := bytes_le a.1 b.1.
#[global] Instance row_le_dec a b : Decision (row_le a b) := bytes_le_dec a.1 b.1.
#[global] Instance row_le_total : Total row_le.
Proof. intros a b. apply bytes_le_total. Qed.
#[global] Instance row_le_trans : Transitive row_le.
Proof. intros a b c. apply bytes_le_trans. Qed.
Definition table_rows (T : tables) (ds : Dataset) : list (bytes * bytes) :=
  merge_sort row_le (omap (fun e => if decide (e.1.1 = ds) then Some (e.1.2, e.2) else None) (map_to_list T)).

Definition map_lmdb : LmdbStore :=
  {| environment := tables; rw_txn := tables;
     env_get := fun T ds k => ok_or (T !! (ds, k)) LmdbNotFound;
     env_iter := fun T ds => Ok (table_rows T ds);
     begin_rw_txn := fun T => Ok T;
     txn_get := fun T ds k => ok_or (T !! (ds, k)) LmdbNotFound;
     txn_iter := fun T ds => Ok (table_rows T ds);
     txn_put := fun T ds k v => (<[(ds, k) := v]> T, Ok tt);
     txn_del := fun T ds k =>
       match T !! (ds, k) with None => (T, Err LmdbNotFound) | Some _ => (delete (ds, k) T, Ok tt) end;
     txn_commit := fun _ T => (T, Ok tt);
     env_resize := fun T _ => Ok T |}.

Lemma elem_of_table_rows T ds k v : (k, v) ∈ table_rows T ds <-> T !! (ds, k) = Some v.
Proof.
  unfold table_rows. rewrite merge_sort_Permutation, list_elem_of_omap. split.
  - intros ([[ds' k'] v'] & Hin%elem_of_map_to_list & Hk). cbn in Hk. case_decide as Hd; [|done].
    injection Hk as -> ->. by subst.
  - intros Hin. exists ((ds, k), v). rewrite elem_of_map_to_list. split; [done|]. cbn. by rewrite decide_True.
Qed.
Lemma table_keys_NoDup T ds : NoDup (table_rows T ds).*1.
Proof.
  unfold table_rows. rewrite merge_sort_Permutation.
  assert (forall l : list (Dataset * bytes * bytes), NoDup l.*1 ->
    NoDup (omap (fun e => if decide (e.1.1 = ds) then Some (e.1.2, e.2) else None) l).*1) as H.
  { induction l as [|[[d k] v] l IH]; intros Hl; cbn; [constructor|]. apply NoDup_cons in Hl as [Hn Hl].
    case_decide as Hd; [|by apply IH]. cbn in *. subst d. apply NoDup_cons. split; [|by apply IH].
    intros ([k' v'] & -> & Hin)%list_elem_of_fmap. apply list_elem_of_omap in Hin as ([[d2 k2] v2] & Hin & Hk).
    cbn in Hk. case_decide as Hd; [|done]. cbn in Hd. injection Hk as -> ->. subst d2.
    apply Hn. apply list_elem_of_fmap. by exists ((ds, k'), v'). }
  apply H. apply NoDup_fst_map_to_list.
Qed.
Lemma table_rows_listed T ds : lists_table T ds (table_rows T ds).
Proof.
  split; [intros; apply elem_of_table_rows|]. pose proof (table_keys_NoDup T ds) as Hnd.
  assert (StronglySorted row_le (table_rows T ds)) as Hs by (apply StronglySorted_merge_sort; apply _).
  induction (table_rows T ds) as [|[k v] l IH]; cbn in *; [constructor|].
  apply NoDup_cons in Hnd as [Hn Hnd]. apply StronglySorted_inv in Hs as [Hs Hall]. constructor; [by apply IH|].
  apply Forall_forall. intros k' ([k2 v'] & -> & Hin)%list_elem_of_fmap. cbn.
  pose proof (proj1 (Forall_forall _ _) Hall _ Hin) as Hle. clear Hall. rename Hle into Hall. unfold row_le, bytes_le, bytes_leb in Hall. cbn in Hall. unfold bytes_ltb.
  destruct (bytes_compare k k2) eqn:E; try done. apply bytes_compare_eq in E as ->.
  destruct Hn. apply list_elem_of_fmap. by exists (k2, v').
Qed.
#[global] Instance map_lmdb_laws : LmdbLaws (H:=map_lmdb).
Proof.
  refine (@Build_LmdbLaws map_lmdb (fun T => T) (fun T => Some T) _ _ _ _ _ _ _ _ _); cbn.
  - intros T ds k. by destruct (T !! (ds, k)).
  - intros T ds l [= <-]. apply table_rows_listed.
  - by intros T t [= ->].
  - intros T ds k. destruct (T !! (ds, k)) eqn:E; by exists T.
  - intros T ds l [= <-]. exists T. split; [done|]. apply table_rows_listed.
  - done.
  - intros T ds k. destruct (T !! (ds, k)) eqn:E; [done|]. split; [done|]. by exists T.
  - done.
  - by intros T size T' [= ->].
Defined.

(** ** A serializer for some values *)

Section listed.
Context {A : Type} `{!EqDecision A} (values : list A).
(** A value as its position in the list. *)
Definition listed_serde : Serde A :=
  {| serialize_value := fun a => i ← position (fun b => bool_decide (b = a)) values;
       if (i <? 256)%nat then Some [byte_of_Z (Z.of_nat i)] else None;
     deserialize_value := fun bs => match bs with [b] => values !! Z.to_nat (byte_to_Z b) | _ => None end |}.
Lemma listed_laws : SerdeLaws (H:=listed_serde) A.
Proof using.
  intros a bs (i & Hi & Hbs)%bind_Some. destruct (Nat.ltb_spec i 256) as [Hlt|]; [|done]. injection Hbs as <-.
  cbn. rewrite byte_to_of_Z, Z.mod_small, Nat2Z.id by lia.
  apply position_Some in Hi as (b & Hb & Heq). by apply bool_decide_eq_true in Heq as <-.
Qed.
End listed.
Definition never_serde {A} : Serde A := {| serialize_value := fun _ => None; deserialize_value := fun _ => None |}.
Lemma never_laws {A} : SerdeLaws (H:=never_serde) A.
Proof. done. Qed.
