(* ===== verification/BlockFiles.v ===== *)
(** * The archive of raw blocks

    crates/atho-storage/src/block_files.rs: append-only files of records
    [magic, length, block bytes], and the repair of a torn tail at start-up. The
    archive directory is a map from file names to contents; an append may fail
    after any number of bytes, which leaves what was written. *)
From stdpp Require Import options.
From S2P Require Import Prelude Bytes Text Constants Crypto Keccak Network Transaction Block Errors.

#[local] Set Default Proof Using "Type*".

(* src: block_files.rs:29-35 BlockFileLocation *)
Record BlockFileLocation := { file_number : Z; record_offset : Z; payload_length : Z }.
(* src: block_files.rs:38-40 BlockFileLocation::payload_offset *)
Definition payload_offset (l : BlockFileLocation) : Z := record_offset l + BLOCK_FILE_RECORD_OVERHEAD_BYTES.
(* src: block_files.rs:42-44 BlockFileLocation::record_length *)
Definition record_length (l : BlockFileLocation) : Z := BLOCK_FILE_RECORD_OVERHEAD_BYTES + payload_length l.

(** The archive directory, if it exists. *)
Definition directory : Type := option (gmap bytes bytes).

(** The network and the directory of the store. *)
(* src: block_files.rs:47-52 BlockFileStore *)
Record BlockFileStore := { bf_network : Network; bf_root : directory }.

(* src: block_files.rs:293-296 parse_file_number *)
Definition parse_file_number (name : bytes) : option Z :=
  let prefix := str_bytes "blk" in
  let suffix := str_bytes ".dat" in
  if negb (starts_with prefix name) then None
  else
    let rest := drop (length prefix) name in
    if negb (ends_with suffix rest) then None
    else parse_uint U64_MAX (take (length rest - length suffix) rest).

(* src: block_files.rs:298-311 rotation_bytes *)
Definition rotation_bytes : Z := BLOCK_FILE_ROTATE_BYTES.

Module BlockFileStore.

(* src: block_files.rs:182-184 BlockFileStore::file_path *)
Definition file_path (number : Z) : bytes := str_bytes "blk" ++ padded 5 (decimal number) ++ str_bytes ".dat".

(** The numbers of the files in the directory; its order does not matter below. *)
Definition numbers (files : gmap bytes bytes) : list Z := omap (fun e => parse_file_number e.1) (map_to_list files).
Definition raise (highest : option Z) (number : Z) : option Z :=
  Some (match highest with Some h => Z.max h number | None => number end).
(* src: block_files.rs:186-201 BlockFileStore::highest_file_number *)
Definition highest_file_number (s : BlockFileStore) : option Z :=
  match bf_root s with
  | None => None
  | Some files => foldl raise None (numbers files)
  end.
(* src: block_files.rs:203-219 BlockFileStore::existing_file_numbers *)
Definition existing_file_numbers (s : BlockFileStore) : list Z :=
  match bf_root s with None => [] | Some files => merge_sort Z.le (numbers files) end.

Definition with_files (s : BlockFileStore) (files : gmap bytes bytes) : BlockFileStore :=
  {| bf_network := bf_network s; bf_root := Some files |}.

(** The bytes of one record. *)
Definition record_bytes (n : Network) (payload : bytes) : bytes :=
  Network.p2p_magic n ++ le_u32 (zlen payload) ++ payload.
(** The record at the end of the file; [fault] is the number of bytes after which
    the device fails, if it does. *)
(* src: block_files.rs:269-282 BlockFileStore::write_record *)
Definition write_record (s : BlockFileStore) (number : Z) (payload : bytes) (fault : option nat) :
    BlockFileStore * result StorageError unit :=
  let files := default ∅ (bf_root s) in
  let contents := default [] (files !! file_path number) in
  let record := record_bytes (bf_network s) payload in
  match fault with
  | None => (with_files s (<[file_path number := contents ++ record]> files), Ok tt)
  | Some k => (with_files s (<[file_path number := contents ++ take k record]> files), Err (Io OtherIo))
  end.

Definition file_size (s : BlockFileStore) (number : Z) : option Z :=
  files ← bf_root s; zlen <$> files !! file_path number.
(** [OpenOptions::create(true)]: the file exists afterwards. *)
Definition touch (s : BlockFileStore) (number : Z) : BlockFileStore :=
  let files := default ∅ (bf_root s) in
  with_files s (<[file_path number := default [] (files !! file_path number)]> files).

(* src: block_files.rs:73-139 BlockFileStore::append_block_with_minimum_file_number *)
Definition append_block_with_minimum_file_number (s : BlockFileStore) (b : Block) (minimum : option Z)
    (fault : option nat) : BlockFileStore * result StorageError BlockFileLocation :=
  let s := with_files s (default ∅ (bf_root s)) in
  let payload := Block.canonical_bytes b in
  if U32_MAX <? zlen payload then (s, Err CorruptData)
  else if (zlen payload =? 0) || (MAX_BLOCK_SERIALIZED_BYTES <? zlen payload) then (s, Err CorruptData)
  else
    let record_length := BLOCK_FILE_RECORD_OVERHEAD_BYTES + zlen payload in
    let minimum := default 0 minimum in
    let number := Z.max (default minimum (highest_file_number s)) minimum in
    let offset := default 0 (file_size s number) in
    let '(number, offset) :=
      if (0 <? offset) && (rotation_bytes <? saturating_add U64_MAX offset record_length)
      then (saturating_add U64_MAX number 1, 0) else (number, offset) in
    let s := touch s number in
    let offset := if offset =? default 0 (file_size s number) then offset else default 0 (file_size s number) in
    let '(number, offset) :=
      if (0 <? offset) && (rotation_bytes <? saturating_add U64_MAX offset record_length)
      then (saturating_add U64_MAX number 1, 0) else (number, offset) in
    let '(s, written) := write_record (touch s number) number payload fault in
    (s, match written with
        | Ok _ => Ok {| file_number := number; record_offset := offset; payload_length := zlen payload |}
        | Err e => Err e
        end).
(* src: block_files.rs:69-71 BlockFileStore::append_block *)
Definition append_block (s : BlockFileStore) (b : Block) (fault : option nat) :
    BlockFileStore * result StorageError BlockFileLocation :=
  append_block_with_minimum_file_number s b None fault.

Section read.
Context `{Hs : Sha3}.

(** [read_exact]: [k] bytes from [offset], or the end of the file. *)
Definition read_exact (contents : bytes) (offset : Z) (k : Z) : result StorageError bytes :=
  let chunk := take (Z.to_nat k) (drop (Z.to_nat offset) contents) in
  if zlen chunk =? k then Ok chunk else Err (Io UnexpectedEof).

(* src: block_files.rs:141-163 BlockFileStore::read_block *)
Definition read_block (s : BlockFileStore) (l : BlockFileLocation) : result StorageError Block :=
  contents ← ok_or (files ← bf_root s; files !! file_path (file_number l)) (Io FileNotFound);
  wrapper ← read_exact contents (record_offset l) 8;
  reject negb (bool_decide (take 4 wrapper = Network.p2p_magic (bf_network s))) with CrossNetworkReplay;
  let length := le_decode (drop 4 wrapper) in
  reject negb (length =? payload_length l) || (MAX_BLOCK_SERIALIZED_BYTES <? length) with CorruptData;
  payload ← read_exact contents (record_offset l + 8) length;
  block ← ok_or (Block.from_canonical_bytes payload) CorruptData;
  reject negb (bool_decide (network_id (header block) = bf_network s)) with CrossNetworkReplay;
  Ok block.

(* src: block_files.rs:165-172 BlockFileStore::delete_file *)
Definition delete_file (s : BlockFileStore) (number : Z) (fails : bool) : BlockFileStore * result StorageError unit :=
  if fails then (s, Err (Io OtherIo))
  else
    (match bf_root s with
     | None => s
     | Some files => with_files s (delete (file_path number) files)
     end, Ok tt).
(** How a reset fails: the removal of the directory leaves some of its files, or the
    directory is gone and cannot be made again. *)
Inductive ResetFault := RemovalFails (kept : gset bytes) | CreationFails.
(* src: block_files.rs:174-180 BlockFileStore::reset *)
Definition reset (s : BlockFileStore) (fault : option ResetFault) : BlockFileStore * result StorageError unit :=
  match fault, bf_root s with
  | None, _ => (with_files s ∅, Ok tt)
  | Some (RemovalFails kept), Some files => (with_files s (filter (fun kv => kv.1 ∈ kept) files), Err (Io OtherIo))
  | Some _, _ => ({| bf_network := bf_network s; bf_root := None |}, Err (Io OtherIo))
  end.

(** ** Repair *)

(** The record at the start of [bs], if it is whole: its length. *)
Definition whole_record (n : Network) (bs : bytes) : option Z :=
  if zlen bs <? BLOCK_FILE_RECORD_OVERHEAD_BYTES then None
  else
    let length := le_decode (take 4 (drop 4 bs)) in
    if negb (bool_decide (take 4 bs = Network.p2p_magic n)) || (length =? 0)
       || (MAX_BLOCK_SERIALIZED_BYTES <? length) || (zlen bs <? BLOCK_FILE_RECORD_OVERHEAD_BYTES + length)
    then None
    else
      match Block.from_canonical_bytes (take (Z.to_nat length) (drop 8 bs)) with
      | None => None
      | Some block =>
          if bool_decide (network_id (header block) = n) then Some (BLOCK_FILE_RECORD_OVERHEAD_BYTES + length) else None
      end.
(** The loop, on the rest of the file from [offset]; the length of the part it keeps. *)
(* src: block_files.rs:231-265 BlockFileStore::repair_last_file_tail (loop) *)
Fixpoint repair_loop (n : Network) (fuel : nat) (rest : bytes) (last_good : Z) : option Z :=
  match fuel with
  | O => None
  | S fuel =>
      match rest with
      | [] => Some last_good
      | _ =>
          match whole_record n rest with
          | None => Some last_good
          | Some length => repair_loop n fuel (drop (Z.to_nat length) rest) (last_good + length)
          end
      end
  end.
Definition repair_contents (n : Network) (contents : bytes) : option bytes :=
  (fun keep => take (Z.to_nat keep) contents) <$> repair_loop n (S (length contents)) contents 0.
(* src: block_files.rs:221-267 BlockFileStore::repair_last_file_tail *)
Definition repair_last_file_tail (s : BlockFileStore) : option (BlockFileStore * result StorageError unit) :=
  match highest_file_number s with
  | None => Some (s, Ok tt)
  | Some number =>
      match files ← bf_root s; (fun contents => (files, contents)) <$> files !! file_path number with
      | None => Some (s, Err (Io FileNotFound))
      | Some (files, contents) =>
          (fun contents => (with_files s (<[file_path number := contents]> files), Ok tt))
          <$> repair_contents (bf_network s) contents
      end
  end.

(** [open]; [None] only if the repair ran out of fuel. *)
(* src: block_files.rs:55-63 BlockFileStore::open *)
Definition open (n : Network) (root : directory) : option (BlockFileStore * result StorageError unit) :=
  repair_last_file_tail {| bf_network := n; bf_root := Some (default ∅ root) |}.
End read.
End BlockFileStore.

Import BlockFileStore.

(** ** File names *)

Lemma parse_file_path k : is_u64 k -> parse_file_number (file_path k) = Some k.
Proof.
  intros Hk. unfold parse_file_number, file_path. set (digits := padded 5 (decimal k)).
  change (starts_with (str_bytes "blk") (str_bytes "blk" ++ digits ++ str_bytes ".dat")) with true. cbn [negb].
  rewrite drop_app_length. unfold ends_with, starts_with. rewrite reverse_app.
  rewrite take_app_length, bool_decide_true by done. cbn [negb].
  rewrite length_app, Nat.add_sub, take_app_length. apply parse_uint_padded; [done|unfold uint, U64_MAX in *; lia].
Qed.
Lemma file_path_inj j k : is_u64 j -> is_u64 k -> file_path j = file_path k -> j = k.
Proof. intros Hj Hk E. apply (f_equal parse_file_number) in E. rewrite !parse_file_path in E by done. by injection E. Qed.

Lemma elem_of_numbers k files : k ∈ numbers files <-> exists name contents, files !! name = Some contents /\ parse_file_number name = Some k.
Proof.
  unfold numbers. rewrite list_elem_of_omap. split.
  - intros ([name contents] & Hin%elem_of_map_to_list & Hp). by exists name, contents.
  - intros (name & contents & Hin & Hp). exists (name, contents). by rewrite elem_of_map_to_list.
Qed.
Lemma highest_loop l : forall h, exists top, foldl raise (Some h) l = Some top /\ h <= top /\ (top = h \/ top ∈ l) /\ forall k, k ∈ l -> k <= top.
Proof.
  induction l as [|k l IH]; intros h; cbn [foldl].
  { exists h. split_and!; [done|lia|by left|]. intros k Hk. by apply elem_of_nil in Hk. }
  change (raise (Some h) k) with (Some (Z.max h k)). destruct (IH (Z.max h k)) as (top & -> & Hle & Hin & Hall). exists top. split_and!; [done|lia| |].
  - destruct Hin as [->|Hin]; [|right; by right]. destruct (Z.max_spec h k) as [[_ ->]|[_ ->]]; [right; by left|by left].
  - intros k' [->|Hk]%elem_of_cons; [lia|by apply Hall].
Qed.
Lemma highest_spec n files :
  match highest_file_number {| bf_network := n; bf_root := Some files |} with
  | None => numbers files = []
  | Some top => top ∈ numbers files /\ forall k, k ∈ numbers files -> k <= top
  end.
Proof.
  unfold highest_file_number. cbn [bf_root]. destruct (numbers files) as [|k l]; [done|]. cbn [foldl].
  change (raise None k) with (Some k). destruct (highest_loop l k) as (top & -> & Hle & Hin & Hall). split; [set_solver|].
  intros j [->|Hj]%elem_of_cons; [lia|by apply Hall].
Qed.

(** ** Records *)

Section records.
Context `{Hs : Sha3}.

(** A block of network [n] that fits a record and reads back from its bytes. *)
Record archivable (n : Network) (b : Block) : Prop := {
  ar_new : b = Block.new (header b) (transactions b);
  ar_wf : Block.wf b;
  ar_network : network_id (header b) = n;
  ar_size : zlen (Block.canonical_bytes b) <= MAX_BLOCK_SERIALIZED_BYTES;
}.
Definition record_of (n : Network) (b : Block) : bytes := record_bytes n (Block.canonical_bytes b).
Definition archive (n : Network) (bs : list Block) : bytes := mjoin (record_of n <$> bs).

Lemma canonical_nonempty b : Block.wf b -> 0 < zlen (Block.canonical_bytes b).
Proof.
  intros (Hh & _). unfold Block.canonical_bytes, Block.full_bytes. rewrite !zlen_app.
  pose proof (header_length (header b) Hh) as Hl. apply (f_equal Z.of_nat) in Hl.
  pose proof (zlen_nonneg (len_u32 (transactions b))).
  pose proof (zlen_nonneg (mjoin ((fun tx => Block.prefixed (Transaction.full_bytes tx)) <$> transactions b))).
  unfold zlen in *. rewrite Hl. assert (0 < HEADER_CANONICAL_SIZE) by done. lia.
Qed.

Lemma record_length_eq n payload : zlen (record_bytes n payload) = 8 + zlen payload.
Proof. unfold record_bytes, le_u32. rewrite !zlen_app. unfold zlen. rewrite magic_length, le_bytes_length. lia. Qed.

(** The parts of bytes that start with a record. *)
Lemma record_parts n payload rest :
  zlen payload <= U32_MAX ->
  let bs := record_bytes n payload ++ rest in
  take 4 bs = Network.p2p_magic n /\ le_decode (take 4 (drop 4 bs)) = zlen payload
  /\ drop 8 bs = payload ++ rest.
Proof.
  intros Hp bs. subst bs. unfold record_bytes. rewrite <- !app_assoc.
  pose proof (magic_length n) as Hm. pose proof (le_bytes_length 4 (zlen payload)) as Hl.
  assert (le_decode (le_u32 (zlen payload)) = zlen payload) as Hd.
  { apply le_decode_le_bytes_id. unfold uint, U32_MAX in *. pose proof (zlen_nonneg payload). lia. }
  fold le_u32 in Hl. revert Hm Hl Hd. generalize (Network.p2p_magic n) (le_u32 (zlen payload)). intros magic size Hm Hl Hd.
  destruct magic as [|m0 [|m1 [|m2 [|m3 []]]]]; try done. destruct size as [|s0 [|s1 [|s2 [|s3 []]]]]; done.
Qed.

Lemma archivable_decodes n b : archivable n b -> Block.from_canonical_bytes (Block.canonical_bytes b) = Some b.
Proof. intros [? ? _ _]. by apply block_decode_complete. Qed.
Lemma archivable_size n b : archivable n b -> 0 < zlen (Block.canonical_bytes b) <= U32_MAX.
Proof.
  intros [_ Hw _ Hs']. split; [by apply canonical_nonempty|].
  etrans; [exact Hs'|]. by vm_compute.
Qed.

Lemma whole_record_of n b rest :
  archivable n b -> whole_record n (record_of n b ++ rest) = Some (zlen (record_of n b)).
Proof.
  intros Hb. pose proof (archivable_size n b Hb) as Hsz. pose proof (ar_size _ _ Hb) as Hmax.
  unfold whole_record, record_of. destruct (record_parts n (Block.canonical_bytes b) rest ltac:(lia)) as (-> & -> & ->).
  rewrite zlen_app, record_length_eq. unfold BLOCK_FILE_RECORD_OVERHEAD_BYTES. pose proof (zlen_nonneg rest).
  rewrite (proj2 (Z.ltb_ge _ _)), bool_decide_true by (done || lia). cbn [negb orb].
  rewrite (proj2 (Z.eqb_neq _ _)), (proj2 (Z.ltb_ge _ _)), (proj2 (Z.ltb_ge _ _)) by lia. cbn [orb].
  unfold zlen at 1. rewrite Nat2Z.id, take_app_length, (archivable_decodes n) by done.
  by rewrite bool_decide_true by apply (ar_network _ _ Hb).
Qed.

Lemma whole_record_Some n bs l :
  whole_record n bs = Some l -> exists b rest, archivable n b /\ bs = record_of n b ++ rest /\ l = zlen (record_of n b).
Proof.
  unfold whole_record. destruct (zlen bs <? _) eqn:E0; [done|]. destruct (negb _ || _ || _ || _) eqn:E1; [done|].
  destruct (Block.from_canonical_bytes _) as [b|] eqn:Eb; [|done]. destruct (bool_decide (network_id (header b) = n)) eqn:En; [|done].
  intros El. apply (inj Some) in El. subst l. apply bool_decide_eq_true in En.
  apply orb_false_iff in E1 as [[[Hm%negb_false_iff%bool_decide_eq_true Hz]%orb_false_iff Hmax]%orb_false_iff Hlen].
  apply Z.eqb_neq in Hz. apply Z.ltb_ge in E0, Hmax, Hlen. unfold BLOCK_FILE_RECORD_OVERHEAD_BYTES in *.
  set (len := le_decode (take 4 (drop 4 bs))) in *.
  assert (0 <= len) as Hlen0 by (pose proof (le_decode_range (take 4 (drop 4 bs))); lia).
  apply block_decode_sound in Eb as (Epay & Hnew & Hwf).
  assert (zlen (take (Z.to_nat len) (drop 8 bs)) = len) as Hzl.
  { unfold zlen in *. rewrite length_take, length_drop. lia. }
  exists b, (drop (Z.to_nat len) (drop 8 bs)).
  assert (archivable n b) as Hb by (split; [done|done|done|]; rewrite <- Epay, Hzl; lia).
  split; [done|]. unfold record_of. rewrite record_length_eq, <- Epay, Hzl. split; [|done].
  unfold record_bytes. rewrite Hzl, <- !app_assoc, take_drop.
  assert (le_u32 len = take 4 (drop 4 bs)) as ->.
  { subst len. unfold le_u32. rewrite <- (le_bytes_le_decode (take 4 (drop 4 bs))) at 2. f_equal.
    unfold zlen in E0. rewrite length_take, length_drop. lia. }
  rewrite <- Hm. change 8%nat with (4 + 4)%nat. rewrite <- drop_drop, take_drop, take_drop. done.
Qed.

(** ** Repair keeps the whole records *)

Lemma record_of_length n b : 8 <= zlen (record_of n b).
Proof. unfold record_of. rewrite record_length_eq. pose proof (zlen_nonneg (Block.canonical_bytes b)). lia. Qed.
Lemma whole_record_nil n : whole_record n [] = None.
Proof. done. Qed.

Lemma archive_cons n b bs : archive n (b :: bs) = record_of n b ++ archive n bs.
Proof. done. Qed.
Lemma archive_app n bs bs' : archive n (bs ++ bs') = archive n bs ++ archive n bs'.
Proof. induction bs as [|b bs IH]; [done|]. cbn [app]. by rewrite !archive_cons, IH, app_assoc. Qed.
Lemma repair_loop_archive n bs tail : forall fuel last,
  Forall (archivable n) bs -> whole_record n tail = None -> (length (archive n bs ++ tail) < fuel)%nat ->
  repair_loop n fuel (archive n bs ++ tail) last = Some (last + zlen (archive n bs)).
Proof.
  induction bs as [|b bs IH]; intros fuel last Hbs Htail Hfuel; (destruct fuel as [|fuel]; [lia|]).
  - change (archive n []) with (@nil byte). cbn [app repair_loop]. rewrite Z.add_0_r. destruct tail; [done|]. by rewrite Htail.
  - apply Forall_cons in Hbs as [Hb Hbs]. rewrite archive_cons, <- app_assoc in *. pose proof (record_of_length n b) as Hl. rewrite zlen_app.
    cbn [repair_loop]. rewrite whole_record_of by done.
    destruct (record_of n b ++ _) as [|x l] eqn:E.
    { apply app_nil in E as [E _]. rewrite E in Hl. by cbn in Hl. }
    rewrite <- E. unfold zlen at 1. rewrite Nat2Z.id, drop_app_length, IH; [|done|done|].
    + f_equal. lia.
    + apply (f_equal length) in E. unfold zlen in Hl. rewrite !length_app in *. lia.
Qed.
Lemma repair_archive n bs tail :
  Forall (archivable n) bs -> whole_record n tail = None ->
  repair_contents n (archive n bs ++ tail) = Some (archive n bs).
Proof.
  intros Hbs Htail. unfold repair_contents. rewrite repair_loop_archive by (done || lia). cbn [fmap option_fmap option_map].
  rewrite Z.add_0_l. unfold zlen. by rewrite Nat2Z.id, take_app_length.
Qed.
(** Any bytes are records up to a point. *)
Lemma split_archive n contents :
  exists bs tail, contents = archive n bs ++ tail /\ Forall (archivable n) bs /\ whole_record n tail = None.
Proof.
  induction contents as [contents IH] using (induction_ltof1 _ (@length byte)). unfold ltof in IH.
  destruct (whole_record n contents) as [l|] eqn:E; [|by exists [], contents].
  apply whole_record_Some in E as (b & rest & Hb & -> & ->).
  destruct (IH rest) as (bs & tail & -> & Hbs & Htail).
  { rewrite length_app. pose proof (record_of_length n b) as Hl. unfold zlen in Hl. lia. }
  exists (b :: bs), tail. split_and!; [|by constructor|done].
  by rewrite archive_cons, <- app_assoc.
Qed.

(** A record of which only a part was written is not whole. *)
Lemma torn_record n b k : archivable n b -> (k < length (record_of n b))%nat -> whole_record n (take k (record_of n b)) = None.
Proof.
  intros Hb Hk. destruct (whole_record n (take k (record_of n b))) as [l|] eqn:E; [|done]. exfalso.
  apply whole_record_Some in E as (b' & rest & Hb' & E & _).
  pose proof (archivable_size n b Hb) as Hsz. pose proof (archivable_size n b' Hb') as Hsz'.
  assert (record_of n b = record_of n b' ++ (rest ++ drop k (record_of n b))) as Ef.
  { by rewrite app_assoc, <- E, take_drop. }
  destruct (record_parts n (Block.canonical_bytes b) [] ltac:(lia)) as (_ & H1 & _).
  destruct (record_parts n (Block.canonical_bytes b') (rest ++ drop k (record_of n b)) ltac:(lia)) as (_ & H2 & _).
  rewrite app_nil_r in H1. unfold record_of in Ef at 1. rewrite Ef in H1. unfold record_of in H1 at 1.
  rewrite H1 in H2. pose proof (record_length_eq n (Block.canonical_bytes b)) as L1.
  pose proof (record_length_eq n (Block.canonical_bytes b')) as L2. rewrite <- H2 in L2.
  apply (f_equal length) in E. rewrite length_take, length_app in E. unfold record_of in *. unfold zlen in *. lia.
Qed.

(** ** Reading *)

Lemma read_exact_ok pre chunk post :
  read_exact (pre ++ chunk ++ post) (zlen pre) (zlen chunk) = Ok chunk.
Proof.
  unfold read_exact. unfold zlen. rewrite !Nat2Z.id, drop_app_length, take_app_length. by rewrite Z.eqb_refl.
Qed.
Lemma read_exact_extend contents more offset k chunk :
  read_exact contents offset k = Ok chunk -> 0 <= k -> read_exact (contents ++ more) offset k = Ok chunk.
Proof.
  unfold read_exact. intros Hr Hk. destruct (_ =? k) eqn:E in Hr; [|done]. apply Z.eqb_eq in E. injection Hr as <-.
  assert (take (Z.to_nat k) (drop (Z.to_nat offset) (contents ++ more)) = take (Z.to_nat k) (drop (Z.to_nat offset) contents)) as ->.
  { unfold zlen in E. rewrite length_take, length_drop in E.
    destruct (decide (k = 0)) as [->|]; [done|].
    rewrite drop_app_le, take_app_le by (rewrite ?length_drop; lia). done. }
  by rewrite E, Z.eqb_refl.
Qed.

Lemma read_block_record s l files pre b post :
  bf_root s = Some files -> files !! file_path (file_number l) = Some (pre ++ record_of (bf_network s) b ++ post) ->
  record_offset l = zlen pre -> payload_length l = zlen (Block.canonical_bytes b) -> archivable (bf_network s) b ->
  read_block s l = Ok b.
Proof.
  intros Hroot Hfile Ho Hl Hb. unfold read_block. rewrite Hroot. cbn [mbind option_bind]. rewrite Hfile.
  cbn [ok_or mbind result_bind]. rewrite Ho, Hl.
  pose proof (archivable_size _ b Hb) as Hsz. pose proof (ar_size _ _ Hb) as Hmax.
  unfold record_of, record_bytes. rewrite <- !app_assoc.
  set (magic := Network.p2p_magic (bf_network s)). set (size := le_u32 (zlen (Block.canonical_bytes b))).
  assert (zlen (magic ++ size) = 8) as Hw by (subst magic size; by destruct (bf_network s)).
  rewrite (app_assoc magic size). rewrite <- Hw at 1. rewrite read_exact_ok. cbn [mbind result_bind].
  assert (length magic = 4%nat) as Hm by apply magic_length.
  rewrite <- Hm. rewrite take_app_length, drop_app_length, bool_decide_true by done. cbn [negb].
  assert (le_decode size = zlen (Block.canonical_bytes b)) as ->.
  { apply le_decode_le_bytes_id. unfold uint, U32_MAX in *. lia. }
  rewrite Z.eqb_refl, (proj2 (Z.ltb_ge _ _)) by lia. cbn [negb orb].
  rewrite <- Hw, <- zlen_app, (app_assoc pre), read_exact_ok. cbn [mbind result_bind].
  rewrite (archivable_decodes (bf_network s)) by done. cbn [ok_or mbind result_bind].
  by rewrite bool_decide_true by apply (ar_network _ _ Hb).
Qed.

(** A block stays readable when files grow. *)
Definition grown (files files' : gmap bytes bytes) : Prop :=
  forall name contents, files !! name = Some contents -> exists more, files' !! name = Some (contents ++ more).
Lemma read_block_grown s s' l files files' b :
  bf_root s = Some files -> bf_root s' = Some files' -> bf_network s' = bf_network s -> grown files files' ->
  read_block s l = Ok b -> read_block s' l = Ok b.
Proof.
  intros Hr Hr' Hn Hg. unfold read_block. rewrite Hr, Hr', Hn. cbn [mbind option_bind].
  destruct (files !! _) as [contents|] eqn:E; [|done]. destruct (Hg _ _ E) as (more & ->).
  cbn [ok_or mbind result_bind].
  destruct (read_exact contents (record_offset l) 8) as [w|e] eqn:Ew; [|done].
  rewrite (read_exact_extend _ _ _ _ _ Ew) by lia. cbn [mbind result_bind]. destruct (negb _); [done|].
  destruct (_ || _); [done|].
  destruct (read_exact contents (record_offset l + 8) _) as [p|e] eqn:Ep; [|done].
  rewrite (read_exact_extend _ _ _ _ _ Ep); [done|]. pose proof (le_decode_range (drop 4 w)). lia.
Qed.

(** ** Appending *)

(** Every file has its name from a number up to [top] and holds whole records. *)
Record sound (n : Network) (top : Z) (s : BlockFileStore) (files : gmap bytes bytes) : Prop := {
  so_network : bf_network s = n;
  so_root : bf_root s = Some files;
  so_files : forall name contents, files !! name = Some contents ->
    exists k bs, 0 <= k <= top /\ name = file_path k /\ contents = archive n bs /\ Forall (archivable n) bs;
}.

Lemma sound_numbers n top s files k :
  sound n top s files -> top <= U64_MAX -> k ∈ numbers files -> 0 <= k <= top /\ is_Some (files !! file_path k).
Proof.
  intros Hs' Htop (name & contents & Hin & Hp)%elem_of_numbers.
  destruct (so_files _ _ _ _ Hs' _ _ Hin) as (j & bs & Hj & -> & _ & _).
  rewrite parse_file_path in Hp by (unfold uint, U64_MAX in *; lia). injection Hp as <-. split; [done|by eexists].
Qed.
Lemma sound_absent n top s files k :
  sound n top s files -> top <= U64_MAX -> is_u64 k -> (forall j, j ∈ numbers files -> j < k) -> files !! file_path k = None.
Proof.
  intros Hs' Htop Hk Hlt. destruct (files !! file_path k) as [contents|] eqn:E; [|done]. exfalso.
  assert (k ∈ numbers files) as Hin.
  { apply elem_of_numbers. exists (file_path k), contents. by rewrite parse_file_path. }
  apply Hlt in Hin. lia.
Qed.

Definition written (n : Network) (b : Block) (fault : option nat) : bytes :=
  match fault with None => record_of n b | Some k => take k (record_of n b) end.
Lemma write_record_eq s files k payload fault n b contents :
  bf_root s = Some files -> bf_network s = n -> payload = Block.canonical_bytes b ->
  default [] (files !! file_path k) = contents ->
  write_record (touch s k) k payload fault
  = (with_files s (<[file_path k := contents ++ written n b fault]> files),
     match fault with None => Ok tt | Some _ => Err (Io OtherIo) end).
Proof.
  intros Hr <- -> <-. unfold write_record, touch. cbn [bf_root with_files bf_network]. rewrite Hr. cbn [from_option].
  unfold id. destruct fault; rewrite lookup_insert_eq; unfold with_files; cbn [from_option bf_network]; unfold id;
    by rewrite insert_insert_eq.
Qed.

Record appended (n : Network) (b : Block) (s : BlockFileStore) (files : gmap bytes bytes) (top k : Z) (bs : list Block)
    (fault : option nat) (out : BlockFileStore * result StorageError BlockFileLocation) : Prop := {
  ap_number : 0 <= k <= top + 1;
  ap_highest : forall j, j ∈ numbers files -> j <= k;
  ap_contents : default [] (files !! file_path k) = archive n bs;
  ap_blocks : Forall (archivable n) bs;
  ap_out : out = (with_files s (<[file_path k := archive n bs ++ written n b fault]> files),
    match fault with
    | None => Ok {| file_number := k; record_offset := zlen (archive n bs); payload_length := zlen (Block.canonical_bytes b) |}
    | Some _ => Err (Io OtherIo)
    end);
}.
Lemma append_spec n top s files b minimum fault :
  sound n top s files -> 0 <= top -> top < U64_MAX -> archivable n b -> 0 <= default 0 minimum <= top ->
  exists k bs, appended n b s files top k bs fault (append_block_with_minimum_file_number s b minimum fault).
Proof.
  intros Hs' Htop0 Htop Hb Hmin. pose proof (archivable_size n b Hb) as Hsz. pose proof (ar_size _ _ Hb) as Hmax.
  unfold append_block_with_minimum_file_number.
  assert (with_files s (default ∅ (bf_root s)) = s) as ->.
  { rewrite (so_root _ _ _ _ Hs'). cbn. destruct Hs' as [_ Hr _]. destruct s. unfold with_files. cbn in *. by rewrite Hr. }
  rewrite (proj2 (Z.ltb_ge U32_MAX _)) by lia. rewrite (proj2 (Z.eqb_neq (zlen _) 0)), (proj2 (Z.ltb_ge MAX_BLOCK_SERIALIZED_BYTES _)) by lia.
  cbn [orb]. generalize dependent (default 0 minimum). intros m Hmin.
  set (number := Z.max (default m (highest_file_number s)) m).
  pose proof (highest_spec n files) as Hhigh.
  assert ({| bf_network := n; bf_root := Some files |} = s) as Es.
  { destruct Hs' as [Hn Hr _], s. cbn in *. congruence. }
  rewrite Es in Hhigh.
  assert (0 <= number <= top /\ forall j, j ∈ numbers files -> j <= number) as [Hnum Htopj].
  { subst number. destruct (highest_file_number s) as [h|]; cbn [from_option] in *; unfold id in *.
    - destruct Hhigh as [Hin Hall]. destruct (sound_numbers n top s files h Hs' ltac:(lia) Hin) as [Hh _].
      split; [lia|]. intros j Hj. specialize (Hall j Hj). lia.
    - rewrite Hhigh. split; [lia|]. intros j Hj. by apply elem_of_nil in Hj. }
  clearbody number.
  set (rotate := (0 <? default 0 (file_size s number)) && (rotation_bytes <? _)).
  assert (forall k, file_size s k = zlen <$> files !! file_path k) as Hsize.
  { intros k. unfold file_size. by rewrite (so_root _ _ _ _ Hs'). }
  assert (forall k, file_size (touch s k) k = Some (zlen (default [] (files !! file_path k)))) as Htouch.
  { intros k. unfold touch, file_size. rewrite (so_root _ _ _ _ Hs'). cbn. by rewrite lookup_insert_eq. }
  destruct rotate eqn:Erot.
  - assert (files !! file_path (saturating_add U64_MAX number 1) = None) as Habs.
    { unfold saturating_add. rewrite Z.min_r by lia. apply (sound_absent n top s files); [done|lia|unfold uint, U64_MAX in *; lia|].
      intros j Hj. specialize (Htopj j Hj). lia. }
    cbn beta iota. rewrite Htouch, Habs. cbn [from_option]. unfold id. change (zlen (@nil byte)) with 0. rewrite Z.eqb_refl. cbn [andb Z.ltb Z.compare].
    exists (saturating_add U64_MAX number 1), [].
    assert (bf_root (touch s (saturating_add U64_MAX number 1)) = Some (<[file_path (saturating_add U64_MAX number 1) := []]> files)) as Hroot.
    { unfold touch. rewrite (so_root _ _ _ _ Hs'). cbn [bf_root with_files from_option]. unfold id. by rewrite Habs. }
    erewrite (write_record_eq _ _ _ _ _ n b []); [|exact Hroot|apply (so_network _ _ _ _ Hs')|done|by rewrite lookup_insert_eq].
    split; [unfold saturating_add; lia| |by rewrite Habs|done|].
    + intros j Hj. specialize (Htopj j Hj). unfold saturating_add. lia.
    + cbn [fst snd]. rewrite insert_insert_eq. by destruct fault.
  - cbn beta iota. rewrite Htouch, Hsize.
    assert (default 0 (zlen <$> files !! file_path number) = zlen (default [] (files !! file_path number))) as Hdef
      by (by destruct (files !! file_path number)).
    rewrite Hdef, Z.eqb_refl. subst rotate. rewrite Hsize, Hdef in Erot. rewrite Erot. cbn [fst snd].
    assert (exists bs, default [] (files !! file_path number) = archive n bs /\ Forall (archivable n) bs) as (bs & Hc & Hbs).
    { destruct (files !! file_path number) as [contents|] eqn:E; [|by exists []].
      destruct (so_files _ _ _ _ Hs' _ _ E) as (j & bs & _ & _ & -> & Hbs). by exists bs. }
    exists number, bs.
    assert (bf_root (touch s number) = Some (<[file_path number := archive n bs]> files)) as Hroot.
    { unfold touch. rewrite (so_root _ _ _ _ Hs'). cbn [bf_root with_files from_option]. change (id files) with files. by rewrite Hc. }
    erewrite (write_record_eq _ _ _ _ _ n b (archive n bs)); [|exact Hroot|apply (so_network _ _ _ _ Hs')|done|by rewrite lookup_insert_eq].
    split; [lia|done|done|done|]. rewrite insert_insert_eq, Hc. by destruct fault.
Qed.

(** ** Crashes *)

Lemma sound_insert n top s files k bs :
  sound n top s files -> 0 <= k <= top + 1 -> Forall (archivable n) bs ->
  sound n (top + 1) (with_files s (<[file_path k := archive n bs]> files)) (<[file_path k := archive n bs]> files).
Proof.
  intros [Hn Hr Hf] Hk Hbs. split; [done|done|]. intros name contents [[<- <-]|[_ Hin]]%lookup_insert_Some.
  - exists k, bs. split_and!; [lia|lia|done|done|done].
  - destruct (Hf _ _ Hin) as (j & bs' & Hj & -> & -> & Hbs'). exists j, bs'. split_and!; [lia|lia|done|done|done].
Qed.
Lemma grown_insert files k contents more :
  default [] (files !! file_path k) = contents -> grown files (<[file_path k := contents ++ more]> files).
Proof.
  intros Hc name old Hold. destruct (decide (name = file_path k)) as [->|Hne].
  - rewrite Hold in Hc. cbn in Hc. subst old. exists more. by rewrite lookup_insert_eq.
  - exists []. rewrite lookup_insert_ne by done. by rewrite app_nil_r.
Qed.

(** Opening the archive again keeps the record if all of it was written, and
    otherwise drops exactly the part that was. *)
Lemma reopen n top s files b fault k bs out :
  sound n top s files -> top < U64_MAX -> archivable n b -> appended n b s files top k bs fault out ->
  exists bs', (bs' = bs /\ is_Some fault \/ bs' = bs ++ [b])
    /\ open n (bf_root out.1) = Some (with_files s (<[file_path k := archive n bs']> files), Ok tt).
Proof.
  intros Hs' Htop Hb [Hk Hhigh Hc Hbs ->]. cbn [fst]. unfold open, repair_last_file_tail. cbn [bf_root with_files from_option].
  unfold id. set (files1 := <[file_path k := archive n bs ++ written n b fault]> files).
  assert (is_u64 k) as Hk64 by (unfold uint, U64_MAX in *; lia).
  assert (highest_file_number {| bf_network := n; bf_root := Some files1 |} = Some k) as ->.
  { pose proof (highest_spec n files1) as Hspec.
    assert (k ∈ numbers files1) as Hin.
    { apply elem_of_numbers. eexists (file_path k), _. split; [apply lookup_insert_eq|by apply parse_file_path]. }
    assert (forall j, j ∈ numbers files1 -> j <= k) as Hle.
    { intros j (name & contents & [[<- _]|[_ Hf]]%lookup_insert_Some & Hp)%elem_of_numbers.
      - rewrite parse_file_path in Hp by done. by injection Hp as <-.
      - apply Hhigh. apply elem_of_numbers. by exists name, contents. }
    destruct (highest_file_number _) as [h|].
    - destruct Hspec as [Hh Hall]. f_equal. specialize (Hall k Hin). specialize (Hle h Hh). lia.
    - rewrite Hspec in Hin. by apply elem_of_nil in Hin. }
  cbn [bf_root mbind option_bind]. subst files1. rewrite lookup_insert_eq. cbn [fmap option_fmap option_map bf_network].
  assert (exists bs' tail, (bs' = bs /\ is_Some fault \/ bs' = bs ++ [b]) /\ Forall (archivable n) bs' /\ whole_record n tail = None
    /\ archive n bs ++ written n b fault = archive n bs' ++ tail) as (bs' & tail & Hwhich & Hbs' & Htail & ->).
  { assert (Forall (archivable n) (bs ++ [b])) as Hall by (apply Forall_app; split; [done|by constructor]).
    assert (archive n bs ++ record_of n b = archive n (bs ++ [b]) ++ []) as Hrec.
    { rewrite app_nil_r, archive_app. f_equal. rewrite archive_cons. by rewrite app_nil_r. }
    destruct fault as [j|]; cbn [written]; [destruct (decide (j < length (record_of n b))%nat)|].
    - exists bs, (take j (record_of n b)). split_and!; [left; by split; [|eexists]|done|by apply torn_record|done].
    - exists (bs ++ [b]), []. rewrite take_ge by lia. split_and!; [by right|done|done|done].
    - exists (bs ++ [b]), []. split_and!; [by right|done|done|done]. }
  exists bs'. split; [done|]. rewrite repair_archive by done. cbn [fmap option_fmap option_map]. unfold with_files. cbn [bf_network].
  rewrite insert_insert_eq. by rewrite (so_network _ _ _ _ Hs').
Qed.

(** What happens to an archive: a block is appended, or the process dies while
    one is, after some bytes of it, and the archive is opened again. *)
Inductive event :=
| Appended (b : Block) (minimum : option Z)
| Crashed (b : Block) (minimum : option Z) (bytes_written : nat).
Definition event_block (e : event) : Block := match e with Appended b _ | Crashed b _ _ => b end.
Definition event_minimum (e : event) : Z := default 0 match e with Appended _ m | Crashed _ m _ => m end.
Definition logged : Type := list (BlockFileLocation * Block).
Definition step (n : Network) (st : BlockFileStore * logged) (e : event) : option (BlockFileStore * logged) :=
  let '(s, log) := st in
  match e with
  | Appended b minimum =>
      match append_block_with_minimum_file_number s b minimum None with
      | (s, Ok l) => Some (s, log ++ [(l, b)])
      | (_, Err _) => None
      end
  | Crashed b minimum k =>
      match open n (bf_root (append_block_with_minimum_file_number s b minimum (Some k)).1) with
      | Some (s, Ok _) => Some (s, log)
      | _ => None
      end
  end.
Definition run (n : Network) (st : BlockFileStore * logged) (evs : list event) : option (BlockFileStore * logged) :=
  foldl (fun st e => st ≫= fun st => step n st e) (Some st) evs.
Definition completed (evs : list event) : list Block :=
  omap (fun e => match e with Appended b _ => Some b | Crashed _ _ _ => None end) evs.

Definition readable (s : BlockFileStore) (log : logged) : Prop := forall l b, (l, b) ∈ log -> read_block s l = Ok b.

Lemma step_sound n top s files log e :
  sound n top s files -> 0 <= top -> top < U64_MAX -> readable s log ->
  archivable n (event_block e) -> 0 <= event_minimum e <= top ->
  exists s' files' log', step n (s, log) e = Some (s', log ++ log') /\ sound n (top + 1) s' files' /\ readable s' (log ++ log')
    /\ log'.*2 = completed [e].
Proof.
  intros Hs' Htop0 Htop Hlog Hb Hmin. destruct e as [b minimum|b minimum k]; cbn [event_block event_minimum step] in *.
  - destruct (append_spec n top s files b minimum None Hs' Htop0 Htop Hb Hmin) as (k & bs & [Hk Hh Hc Hbs ->]).
    cbn [written]. assert (archive n bs ++ record_of n b = archive n (bs ++ [b])) as Harch.
    { rewrite archive_app. f_equal. rewrite archive_cons. by rewrite app_nil_r. }
    set (l := {| file_number := k; record_offset := _; payload_length := _ |}).
    exists (with_files s (<[file_path k := archive n bs ++ record_of n b]> files)),
      (<[file_path k := archive n bs ++ record_of n b]> files), [(l, b)].
    split; [done|]. split; [|split; [|done]].
    + rewrite Harch. apply sound_insert; [done|done|]. apply Forall_app; split; [done|by constructor].
    + intros l' b' [Hin|Hin%list_elem_of_singleton]%elem_of_app.
      * eapply read_block_grown; [apply (so_root _ _ _ _ Hs')|done|done| |by apply Hlog]. by apply grown_insert.
      * injection Hin as -> ->.
        apply (read_block_record _ l (<[file_path k := archive n bs ++ record_of n b]> files) (archive n bs) b []);
          cbn [bf_network with_files]; rewrite ?(so_network _ _ _ _ Hs'); [done| |done|done|done].
        rewrite app_nil_r. apply lookup_insert_eq.
  - destruct (append_spec n top s files b minimum (Some k) Hs' Htop0 Htop Hb Hmin) as (num & bs & Happ).
    destruct (reopen _ _ _ _ _ _ _ _ _ Hs' Htop Hb Happ) as (bs' & Hwhich & ->). destruct Happ as [Hk Hh Hc Hbs _].
    eexists _, _, []. split; [by rewrite app_nil_r|]. rewrite app_nil_r. split; [|split; [|done]].
    + apply sound_insert; [done|done|]. destruct Hwhich as [[-> _] | ->]; [done|]. apply Forall_app; split; [done|by constructor].
    + intros l' b' Hin. eapply read_block_grown; [apply (so_root _ _ _ _ Hs')|done|done| |by apply Hlog].
      destruct Hwhich as [[-> _] | ->].
      * rewrite <- (app_nil_r (archive n bs)) at 1. by apply grown_insert.
      * rewrite archive_app. by apply grown_insert.
Qed.

Lemma open_sound n top s files : sound n top s files -> top <= U64_MAX -> open n (bf_root s) = Some (s, Ok tt).
Proof.
  intros Hs' Htop. pose proof Hs' as [Hn Hr Hf]. rewrite Hr. unfold open, repair_last_file_tail. cbn [from_option]. unfold id.
  assert ({| bf_network := n; bf_root := Some files |} = s) as Es by (destruct s; cbn in *; congruence). rewrite Es.
  pose proof (highest_spec n files) as Hspec. rewrite Es in Hspec.
  destruct (highest_file_number s) as [h|]; [|done]. destruct Hspec as [Hin _].
  destruct (sound_numbers n top s files h Hs' Htop Hin) as [_ [contents Hc]]. rewrite Hr. cbn [mbind option_bind].
  rewrite Hc. cbn [fmap option_fmap option_map]. destruct (Hf _ _ Hc) as (j & bs & _ & _ & -> & Hbs).
  rewrite <- (app_nil_r (archive n bs)) at 1. rewrite Hn, repair_archive by done. cbn [fmap option_fmap option_map].
  rewrite insert_id by done. unfold with_files. by rewrite Hn, Es.
Qed.

Lemma run_sound n evs : forall top s files log,
  Forall (fun e => archivable n (event_block e) /\ 0 <= event_minimum e <= top) evs -> 0 <= top -> top + zlen evs <= U64_MAX ->
  sound n top s files -> readable s log ->
  exists s' files' log', run n (s, log) evs = Some (s', log ++ log') /\ sound n (top + zlen evs) s' files'
    /\ readable s' (log ++ log') /\ log'.*2 = completed evs.
Proof.
  induction evs as [|e evs IH]; intros top s files log Hevs Htop0 Htop Hs' Hlog.
  { exists s, files, []. rewrite app_nil_r, zlen_nil, Z.add_0_r. by split_and!. }
  apply Forall_cons in Hevs as [[Hb Hm] Hevs]. rewrite zlen_cons in *. pose proof (zlen_nonneg evs).
  destruct (step_sound n top s files log e Hs' Htop0 ltac:(lia) Hlog Hb Hm) as (s1 & files1 & log1 & Hstep & Hs1 & Hlog1 & Hc1).
  destruct (IH (top + 1) s1 files1 (log ++ log1)) as (s2 & files2 & log2 & Hrun & Hs2 & Hlog2 & Hc2); [|lia|lia|done|done|].
  { eapply Forall_impl; [exact Hevs|]. cbn. intros e' [? ?]. split; [done|lia]. }
  exists s2, files2, (log1 ++ log2). rewrite app_assoc. split_and!.
  - unfold run in *. cbn [foldl]. cbn [mbind option_bind]. by rewrite Hstep.
  - by replace (top + (1 + zlen evs)) with (top + 1 + zlen evs) by lia.
  - done.
  - rewrite fmap_app, Hc1, Hc2. unfold completed. by rewrite <- omap_app.
Qed.


End records.

(** ** Samples *)

Definition stored_header (h : Z) : BlockHeader :=
  {| h_version := 1; network_id := Regnet; height := h; previous_block_hash := zeros 48; h_merkle_root := zeros 48;
     h_witness_root := zeros 48; founders_hash_sha3_384 := zeros 48; founders_hash_sha3_512 := zeros 64;
     timestamp := 1700000000; difficulty_target_or_bits := zeros 48; nonce := 7 |}.
Definition stored_block (h : Z) : Block := Block.new (H:=checksum_sha3) (stored_header h) [].
Definition sample_root (evs : list event) : directory :=
  match run (Hs:=checksum_sha3) Regnet ({| bf_network := Regnet; bf_root := Some ∅ |}, []) evs with
  | Some (s, _) => bf_root s
  | None => None
  end.
Definition sample_events : list event :=
  [Appended (stored_block 1) None; Crashed (stored_block 2) None 100; Appended (stored_block 2) (Some 3);
   Crashed (stored_block 3) None 5000].

Lemma stored_archivable h : is_u64 h -> archivable (Hs:=checksum_sha3) Regnet (stored_block h).
Proof.
  intros Hh. split; [done| |done|by vm_compute]. split; [|split; [by vm_compute|constructor]].
  split_and!; try done; by vm_compute.
Qed.

(** A block, an append that fails after a byte, and another append. *)
Definition torn_start : BlockFileStore := {| bf_network := Regnet; bf_root := sample_root [Appended (stored_block 1) None] |}.
Definition torn_append : BlockFileStore * result StorageError BlockFileLocation :=
  append_block torn_start (stored_block 2) (Some 1%nat).
Definition next_append : BlockFileStore * result StorageError BlockFileLocation :=
  append_block torn_append.1 (stored_block 3) None.
(** What reading the second block gives, now and after a restart. *)
Definition read_next (s : BlockFileStore) : result StorageError Block :=
  l ← next_append.2; read_block (Hs:=checksum_sha3) s l.
Definition read_after_restart : option (result StorageError Block) :=
  match open (Hs:=checksum_sha3) Regnet (bf_root next_append.1) with
  | Some (s, Ok _) => Some (read_next s)
  | _ => None
  end.

(** An append that fails and is not followed by a restart loses what comes after it:
    the next append reports success and its block can be read, but a restart cuts
    the file at the torn record, before that block. *)
Theorem failed_append_drops_the_next :
  torn_append.2 = Err (Io OtherIo) /\ read_next next_append.1 = Ok (stored_block 3) /\ read_after_restart = Some (Err (Io UnexpectedEof)).
Proof. split; [|split]; vm_compute; reflexivity. Qed.
