(* ===== verification/Chainstate.v ===== *)
(** * The chain state

    crates/atho-storage/src/chainstate.rs: the in-memory chain (blocks, coin set,
    undo stack), connecting and disconnecting blocks, branch selection with its
    incremental switch and rollback, pruning, snapshots and restart. The LMDB
    database is the interface [Database]; its calls may fail. A parsed
    environment override is the argument [env], the clock the argument [now]. *)
From stdpp Require Import options.
From S2P Require Import Prelude Bytes Constants Crypto Keccak Network Rules Subsidy Transaction Block.
From S2P Require Import Pow Address Genesis Signatures TxPolicy Errors Utxo Validation BlockValidation.

(* src: chainstate.rs:24-24 RECENT_BLOCK_RELOAD_LIMIT *)
Definition RECENT_BLOCK_RELOAD_LIMIT : nat := 27.

(* src: db.rs:70-77 ChainstateSnapshot *)
Record ChainstateSnapshot := {
  snap_height : Z;
  snap_tip_hash : bytes;
  snap_tip_header : option BlockHeader;
}.

(** What the chain state uses of the database. Writes return the database they
    leave behind, on errors too. *)
Class Database := {
  database : Type;
  BlockPruneReport : Type;
  commit_chainstate : database -> ChainstateSnapshot -> list UtxoEntry -> option (Z * Block) ->
    database * result StorageError unit;
  replace_chainstate : database -> ChainstateSnapshot -> list UtxoEntry -> list Block ->
    database * result StorageError unit;
  prune_archived_blocks : database -> Z -> Z -> database * result StorageError BlockPruneReport;
  load_block : database -> bytes -> result StorageError (option Block);
  (** The height and the main-chain flag of an archive record. *)
  load_block_record : database -> bytes -> result StorageError (option (Z * bool));
  load_block_hash_by_height : database -> Z -> result StorageError (option bytes);
  (** The height and the transaction of an archived transaction. *)
  load_transaction : database -> bytes -> result StorageError (option (Z * Transaction));
}.

(* src: chainstate.rs:26-31 ChainUndo *)
Record ChainUndo := {
  previous_tip : option BlockHeader;
  previous_tip_hash : bytes;
  block_undo : BlockUndo;
}.

(* src: chainstate.rs:33-50 IncrementalBranchSwitchJournal *)
Record IncrementalBranchSwitchJournal := {
  j_fork_height : Z;
  canonical_suffix : list Block;
  disconnected_count : nat;
  connected_count : nat;
}.

Module Journal.
(* src: chainstate.rs:53-60 IncrementalBranchSwitchJournal::new *)
Definition new (fork_height : Z) (canonical_suffix : list Block) : IncrementalBranchSwitchJournal :=
  {| j_fork_height := fork_height; canonical_suffix := canonical_suffix;
     disconnected_count := 0; connected_count := 0 |}.
(* src: chainstate.rs:62-64 IncrementalBranchSwitchJournal::note_disconnect *)
Definition note_disconnect (j : IncrementalBranchSwitchJournal) : IncrementalBranchSwitchJournal :=
  {| j_fork_height := j_fork_height j; canonical_suffix := canonical_suffix j;
     disconnected_count := S (disconnected_count j); connected_count := connected_count j |}.
(* src: chainstate.rs:66-68 IncrementalBranchSwitchJournal::note_connect *)
Definition note_connect (j : IncrementalBranchSwitchJournal) : IncrementalBranchSwitchJournal :=
  {| j_fork_height := j_fork_height j; canonical_suffix := canonical_suffix j;
     disconnected_count := disconnected_count j; connected_count := S (connected_count j) |}.
(* src: chainstate.rs:70-76 IncrementalBranchSwitchJournal::disconnected_suffix_to_restore *)
Definition disconnected_suffix_to_restore (j : IncrementalBranchSwitchJournal) : list Block :=
  let start := (length (canonical_suffix j) - disconnected_count j)%nat in
  drop start (canonical_suffix j).
End Journal.

(* src: chainstate.rs:79-85 PersistedChainstate *)
Record PersistedChainstate := {
  pc_height : Z;
  pc_tip_hash : bytes;
  pc_tip_header : option BlockHeader;
  pc_utxos : list UtxoEntry;
}.

(* src: chainstate.rs:87-92 ChainSnapshotBundle *)
Record ChainSnapshotBundle := {
  bundle_snapshot : ChainstateSnapshot;
  bundle_utxos : list UtxoEntry;
  bundle_blocks : list Block;
}.

(* src: chainstate.rs:94-99 ChainSelectionOutcome *)
Inductive ChainSelectionOutcome := Extended | Reorged | KeptCurrent.

(* src: chainstate.rs:101-105 ChainSelectionResult *)
Record ChainSelectionResult := {
  outcome : ChainSelectionOutcome;
  disconnected : list Block;
}.

(** [err.to_string()] of the last prune error is kept as the error itself. *)
(* src: chainstate.rs:117-130 Chainstate *)
Record Chainstate `{Database} := {
  cs_network : Network;
  cs_tip : option BlockHeader;
  cs_tip_hash : bytes;
  cs_height : Z;
  cs_blocks : list Block;
  block_index_by_hash : gmap bytes nat;
  cs_utxos : UtxoSet;
  undo_stack : list ChainUndo;
  storage : option database;
  last_prune_report : option BlockPruneReport;
  last_prune_error : option StorageError;
}.

(** The overrides ATHO_PRUNETEST_PRUNE_DEPTH and ATHO_PRUNETEST_MAX_REORG_DEPTH,
    when they parse. *)
Record Env := {
  prune_depth_override : option Z;
  max_reorg_depth_override : option Z;
}.

(* src: chainstate.rs:1452-1461 effective_prune_depth *)
Definition effective_prune_depth (env : Env) (network : Network) : Z :=
  match network, prune_depth_override env with
  | Prunetest, Some value => Z.max value 1
  | _, _ => PRUNE_DEPTH_BLOCKS
  end.

(* src: chainstate.rs:1463-1472 effective_max_reorg_depth *)
Definition effective_max_reorg_depth (env : Env) (network : Network) : Z :=
  match network, max_reorg_depth_override env with
  | Prunetest, Some value => value
  | _, _ => MAX_REORG_DEPTH_BLOCKS
  end.

(* src: chainstate.rs:1474-1486 reorg_depth_error *)
Definition reorg_depth_error (current_height fork_height max_reorg_depth : Z) : option StorageError :=
  let depth := saturating_sub current_height fork_height in
  if max_reorg_depth <? depth then Some (ReorgTooDeep depth max_reorg_depth fork_height current_height)
  else None.

Section hashes.
Context `{Sha3}.

(* src: chainstate.rs:1151-1157 build_block_index_by_hash *)
Definition build_block_index_by_hash (blocks : list Block) : gmap bytes nat :=
  foldl (fun m ib => <[BlockHeader.block_hash (header ib.2) := ib.1]> m) ∅ (imap pair blocks).

(* src: chainstate.rs:1257-1269 validate_branch_sequence *)
Definition validate_branch_sequence (branch : list Block) : result StorageError unit :=
  try_for (fun lr =>
      let '(l, r) := lr in
      reject negb (bool_decide (previous_block_hash (header r) = BlockHeader.block_hash (header l)))
             || negb (height (header r) =? saturating_add U64_MAX (height (header l)) 1)
        with InvalidBranchSequence;
      Ok tt)
    (windows2 branch).
End hashes.

Module Chainstate.
Section chainstate.
Context `{Hs : Sha3, Hf : FalconBackend, Hg : !GenesisReady Hs, Hd : Database}.

(** [genesis::genesis_state(network)], which does not panic ([GenesisReady]). *)
Definition genesis (network : Network) : GenesisState := is_Some_proj (genesis_ready network).

(** Field updates. *)
Definition with_utxos (c : Chainstate) (u : UtxoSet) : Chainstate :=
  {| cs_network := cs_network c; cs_tip := cs_tip c; cs_tip_hash := cs_tip_hash c; cs_height := cs_height c;
     cs_blocks := cs_blocks c; block_index_by_hash := block_index_by_hash c; cs_utxos := u;
     undo_stack := undo_stack c; storage := storage c;
     last_prune_report := last_prune_report c; last_prune_error := last_prune_error c |}.
Definition with_storage (c : Chainstate) (db : option database) : Chainstate :=
  {| cs_network := cs_network c; cs_tip := cs_tip c; cs_tip_hash := cs_tip_hash c; cs_height := cs_height c;
     cs_blocks := cs_blocks c; block_index_by_hash := block_index_by_hash c; cs_utxos := cs_utxos c;
     undo_stack := undo_stack c; storage := db;
     last_prune_report := last_prune_report c; last_prune_error := last_prune_error c |}.
Definition with_history (c : Chainstate) (blocks : list Block) (index : gmap bytes nat) (undo : list ChainUndo) :
    Chainstate :=
  {| cs_network := cs_network c; cs_tip := cs_tip c; cs_tip_hash := cs_tip_hash c; cs_height := cs_height c;
     cs_blocks := blocks; block_index_by_hash := index; cs_utxos := cs_utxos c;
     undo_stack := undo; storage := storage c;
     last_prune_report := last_prune_report c; last_prune_error := last_prune_error c |}.
Definition with_tip (c : Chainstate) (tip : option BlockHeader) (tip_hash : bytes) (height : Z) : Chainstate :=
  {| cs_network := cs_network c; cs_tip := tip; cs_tip_hash := tip_hash; cs_height := height;
     cs_blocks := cs_blocks c; block_index_by_hash := block_index_by_hash c; cs_utxos := cs_utxos c;
     undo_stack := undo_stack c; storage := storage c;
     last_prune_report := last_prune_report c; last_prune_error := last_prune_error c |}.
Definition with_prune (c : Chainstate) (report : option BlockPruneReport) (err : option StorageError) : Chainstate :=
  {| cs_network := cs_network c; cs_tip := cs_tip c; cs_tip_hash := cs_tip_hash c; cs_height := cs_height c;
     cs_blocks := cs_blocks c; block_index_by_hash := block_index_by_hash c; cs_utxos := cs_utxos c;
     undo_stack := undo_stack c; storage := storage c;
     last_prune_report := report; last_prune_error := err |}.

(** [if let Some(storage) = &self.storage { storage.op(..)?; }]. *)
Definition on_storage (c : Chainstate) (op : database -> database * result StorageError unit) :
    Chainstate * result StorageError unit :=
  match storage c with
  | None => (c, Ok tt)
  | Some db => let '(db, r) := op db in (with_storage c (Some db), r)
  end.

(** The genesis coinbase has one output: [expect] does not fire
    ([genesis_states_verified] computes it for every network). *)
(* src: chainstate.rs:141-177 Chainstate::fresh_with_storage *)
Definition fresh_with_storage (network : Network) (db : option database) : Chainstate :=
  let g := genesis network in
  let genesis_block := gs_block g in
  let locking_script :=
    default [] (tx ← head (transactions genesis_block); o ← head (outputs tx); Some (locking_script o)) in
  let '(utxos, _) := UtxoSet.insert (UtxoSet.new network)
    (UtxoEntry.coinbase network (gs_coinbase_txid g) 0 (genesis_utxo_value network) locking_script 0) in
  let blocks := [genesis_block] in
  {| cs_network := network; cs_tip := Some (header genesis_block); cs_tip_hash := gs_block_hash g;
     cs_height := 0; cs_blocks := blocks; block_index_by_hash := build_block_index_by_hash blocks;
     cs_utxos := utxos; undo_stack := []; storage := db;
     last_prune_report := None; last_prune_error := None |}.

(* src: chainstate.rs:137-139 Chainstate::fresh *)
Definition fresh (network : Network) : Chainstate := fresh_with_storage network None.
(* src: chainstate.rs:133-135 Chainstate::new *)
Definition new (network : Network) : Chainstate := fresh network.

(* src: chainstate.rs:232-236 Chainstate::connect_header *)
Definition connect_header (c : Chainstate) (h : BlockHeader) : Chainstate :=
  with_tip c (Some h) (BlockHeader.block_hash h) (height h).

(* src: chainstate.rs:244-246 Chainstate::next_difficulty_target_for_timestamp *)
Definition next_difficulty_target_for_timestamp (c : Chainstate) (next_timestamp : Z) : bytes :=
  target_for_next_block_with_timestamp (cs_network c) (cs_blocks c) next_timestamp.

(* src: chainstate.rs:238-242 Chainstate::next_difficulty_target *)
Definition next_difficulty_target (c : Chainstate) : bytes :=
  let next_timestamp := default (timestamp (header (gs_block (genesis (cs_network c)))))
                          (minimum_next_block_timestamp (cs_blocks c)) in
  next_difficulty_target_for_timestamp c next_timestamp.

(* src: chainstate.rs:917-931 Chainstate::prune_history_to_retain *)
Definition prune_history_to_retain (c : Chainstate) (retain : Z) : Chainstate :=
  if (zlen (cs_blocks c) <=? retain) || (retain =? 0) then c
  else
    let prune_count := Z.to_nat (saturating_sub (zlen (cs_blocks c)) retain) in
    if Nat.eqb prune_count 0 then c
    else
      let blocks := take 1 (cs_blocks c) ++ drop (1 + prune_count) (cs_blocks c) in
      let undo_prune_count := Nat.min prune_count (length (undo_stack c)) in
      with_history c blocks (build_block_index_by_hash blocks) (drop undo_prune_count (undo_stack c)).

(* src: chainstate.rs:897-915 Chainstate::prune_history *)
Definition prune_history (env : Env) (c : Chainstate) : Chainstate :=
  let prune_depth := effective_prune_depth env (cs_network c) in
  let retain := saturating_add U64_MAX prune_depth 1 in
  let c := prune_history_to_retain c retain in
  if cs_height c <? prune_depth then c
  else match storage c with
       | None => c
       | Some db =>
           let '(db, r) := prune_archived_blocks db (cs_height c) prune_depth in
           let c := with_storage c (Some db) in
           match r with
           | Ok report => with_prune c (Some report) None
           | Err e => with_prune c (last_prune_report c) (Some e)
           end
       end.

(** The block joins the chain: everything [connect_block] does once the coin set
    and the database are updated. *)
(* src: chainstate.rs:264-295 Chainstate::connect_block (commit) *)
Definition push_block (env : Env) (c : Chainstate) (b : Block) (undo : BlockUndo) : Chainstate :=
  let entry := {| previous_tip := cs_tip c; previous_tip_hash := cs_tip_hash c; block_undo := undo |} in
  let next_tip_hash := BlockHeader.block_hash (header b) in
  let index := <[next_tip_hash := length (cs_blocks c)]> (block_index_by_hash c) in
  let c := with_tip c (Some (header b)) next_tip_hash (height (header b)) in
  let c := with_history c (cs_blocks c ++ [b]) index (undo_stack c ++ [entry]) in
  prune_history env c.

(* src: chainstate.rs:248-297 Chainstate::connect_block *)
Definition connect_block (env : Env) (now : Z) (c : Chainstate) (b : Block) :
    Chainstate * result StorageError unit :=
  match validate_block_with_context now b (saturating_add U64_MAX (cs_height c) 1) (cs_network c)
          (cs_tip_hash c) (next_difficulty_target_for_timestamp c (timestamp (header b))) (cs_blocks c)
          (cs_utxos c) with
  | Err e => (c, Err (Validation e))
  | Ok _ =>
      match UtxoSet.apply_block (cs_utxos c) b with
      | (utxos, Err e) => (with_utxos c utxos, Err e)
      | (utxos, Ok undo) =>
          let c := with_utxos c utxos in
          let snapshot := {| snap_height := height (header b);
                             snap_tip_hash := BlockHeader.block_hash (header b);
                             snap_tip_header := Some (header b) |} in
          match on_storage c (fun db => commit_chainstate db snapshot [] (Some (height (header b), b))) with
          | (c, Err e) => (with_utxos c (UtxoSet.disconnect_block (cs_utxos c) undo), Err e)
          | (c, Ok _) => (push_block env c b undo, Ok tt)
          end
      end
  end.

(* src: chainstate.rs:937-953 Chainstate::persist_snapshot_for *)
Definition persist_snapshot_for (c : Chainstate) (height : Z) (tip_hash : bytes) (tip_header : option BlockHeader) :
    Chainstate * result StorageError unit :=
  on_storage c (fun db =>
    commit_chainstate db {| snap_height := height; snap_tip_hash := tip_hash; snap_tip_header := tip_header |}
      (UtxoSet.entries (cs_utxos c)) None).

(* src: chainstate.rs:933-935 Chainstate::save_persisted_chainstate *)
Definition save_persisted_chainstate (c : Chainstate) : Chainstate * result StorageError unit :=
  persist_snapshot_for c (cs_height c) (cs_tip_hash c) (cs_tip c).

(* src: chainstate.rs:840-883 Chainstate::disconnect_last_block *)
Definition disconnect_last_block (c : Chainstate) : Chainstate * result StorageError unit :=
  match last (undo_stack c), last (cs_blocks c) with
  | Some undo, Some removed_block =>
      let c := with_utxos c (UtxoSet.disconnect_block (cs_utxos c) (block_undo undo)) in
      let previous_height := default 0 (height <$> previous_tip undo) in
      match persist_snapshot_for c previous_height (previous_tip_hash undo) (previous_tip undo) with
      | (c, Err e) => (with_utxos c (UtxoSet.apply_block (cs_utxos c) removed_block).1, Err e)
      | (c, Ok _) =>
          let c := with_history c (removelast (cs_blocks c))
                     (delete (BlockHeader.block_hash (header removed_block)) (block_index_by_hash c))
                     (removelast (undo_stack c)) in
          (with_tip c (previous_tip undo) (previous_tip_hash undo) previous_height, Ok tt)
      end
  | _, _ => (c, Err NoBlockToDisconnect)
  end.

(** *** Looking up blocks *)

(* src: chainstate.rs:694-702 Chainstate::memory_block_index_for_height *)
Definition memory_block_index_for_height (c : Chainstate) (h : Z) : option nat :=
  first ← head (cs_blocks c);
  offset ← checked_sub h (height (header first));
  let index := Z.to_nat offset in
  b ← cs_blocks c !! index;
  if height (header b) =? h then Some index else None.

(* src: chainstate.rs:681-692 Chainstate::block_by_height *)
Definition block_by_height (c : Chainstate) (h : Z) : result StorageError (option Block) :=
  match memory_block_index_for_height c h with
  | Some index => Ok (cs_blocks c !! index)
  | None =>
      match storage c with
      | None => Ok None
      | Some db =>
          hash ← load_block_hash_by_height db h;
          match hash with None => Ok None | Some hash => load_block db hash end
      end
  end.

(* src: chainstate.rs:438-446 Chainstate::block_by_hash *)
Definition block_by_hash (c : Chainstate) (hash : bytes) : result StorageError (option Block) :=
  match block_index_by_hash c !! hash with
  | Some index => Ok (cs_blocks c !! index)
  | None => match storage c with None => Ok None | Some db => load_block db hash end
  end.

(* src: chainstate.rs:448-450 Chainstate::contains_block *)
Definition contains_block (c : Chainstate) (hash : bytes) : result StorageError bool :=
  b ← block_by_hash c hash; Ok (bool_decide (is_Some b)).

(* src: chainstate.rs:452-468 Chainstate::is_canonical_block *)
Definition is_canonical_block (c : Chainstate) (hash : bytes) : result StorageError bool :=
  if bool_decide (is_Some (block_index_by_hash c !! hash)) then Ok true
  else match storage c with
       | None => Ok false
       | Some db =>
           record ← load_block_record db hash;
           match record with
           | None => Ok false
           | Some (h, main_chain) =>
               if negb main_chain then Ok false
               else canonical ← load_block_hash_by_height db h; Ok (bool_decide (canonical = Some hash))
           end
       end.

(* src: chainstate.rs:989-997 Chainstate::known_block_height *)
Definition known_block_height (c : Chainstate) (hash : bytes) : option Z :=
  match block_index_by_hash c !! hash with
  | Some index => (fun b => height (header b)) <$> cs_blocks c !! index
  | None =>
      db ← storage c;
      match load_block_record db hash with Ok record => fst <$> record | Err _ => None end
  end.

(* src: chainstate.rs:999-1010 Chainstate::canonical_fork_height *)
Definition canonical_fork_height (c : Chainstate) (fork_hash : bytes) : result StorageError Z :=
  h ← ok_or (known_block_height c fork_hash) ForkPointUnavailable;
  canonical ← block_by_height c h;
  canonical_block ← ok_or canonical IncompleteBlockHistory;
  reject negb (bool_decide (BlockHeader.block_hash (header canonical_block) = fork_hash))
    with ForkPointUnavailable;
  Ok h.

(** The blocks at the heights [first] to [last]. *)
Definition blocks_at_heights (c : Chainstate) (first last : Z) : result StorageError (list Block) :=
  try_map (fun h => b ← block_by_height c h; ok_or b IncompleteBlockHistory)
    (seqZ first (last + 1 - first)).

(* src: chainstate.rs:1012-1029 Chainstate::canonical_branch_after *)
Definition canonical_branch_after (c : Chainstate) (fork_height : Z) : result StorageError (list Block) :=
  if cs_height c <=? fork_height then Ok []
  else blocks_at_heights c (saturating_add U64_MAX fork_height 1) (cs_height c).

(* src: chainstate.rs:1031-1040 Chainstate::canonical_prefix_through *)
Definition canonical_prefix_through (c : Chainstate) (h : Z) : result StorageError (list Block) :=
  blocks_at_heights c 0 h.

(** The loop walks down one height per round. *)
(* src: chainstate.rs:661-675 Chainstate::canonical_blocks (loop) *)
Fixpoint walk_back (fuel : nat) (db : database) (next_hash : bytes) (remaining_height : Z)
    (reversed : list Block) : option (result StorageError (list Block)) :=
  match fuel with
  | O => None
  | S fuel =>
      match (b ← load_block db next_hash; ok_or b IncompleteBlockHistory) with
      | Err e => Some (Err e)
      | Ok b =>
          if negb (bool_decide (BlockHeader.block_hash (header b) = next_hash))
             || negb (height (header b) =? remaining_height)
          then Some (Err IncompleteBlockHistory)
          else
            let reversed := reversed ++ [b] in
            if height (header b) =? 0 then Some (Ok (reverse reversed))
            else walk_back fuel db (previous_block_hash (header b)) (saturating_sub remaining_height 1) reversed
      end
  end.

(* src: chainstate.rs:652-679 Chainstate::canonical_blocks *)
Definition canonical_blocks (fuel : nat) (c : Chainstate) : option (result StorageError (list Block)) :=
  match storage c with
  | None => Some (Ok (cs_blocks c))
  | Some db => walk_back fuel db (cs_tip_hash c) (cs_height c) []
  end.

(** *** Branch selection *)

(** [for block in blocks.iter() { chain.connect_block(block)?; }]. *)
Fixpoint connect_all (env : Env) (now : Z) (c : Chainstate) (bs : list Block) :
    Chainstate * result StorageError unit :=
  match bs with
  | [] => (c, Ok tt)
  | b :: bs => match connect_block env now c b with
               | (c, Ok _) => connect_all env now c bs
               | (c, Err e) => (c, Err e)
               end
  end.

(** [for _ in 0..n { self.disconnect_last_block()?; }]. *)
Fixpoint disconnect_all (n : nat) (c : Chainstate) : Chainstate * result StorageError unit :=
  match n with
  | O => (c, Ok tt)
  | S n => match disconnect_last_block c with
           | (c, Ok _) => disconnect_all n c
           | (c, Err e) => (c, Err e)
           end
  end.

(* src: chainstate.rs:1159-1180 validate_replacement_chain *)
Definition validate_replacement_chain (env : Env) (now : Z) (network : Network) (blocks : list Block) :
    result StorageError Chainstate :=
  match blocks with
  | [] => Err IncompleteBlockHistory
  | genesis_block :: rest =>
      let genesis_block_hash := BlockHeader.block_hash (header genesis_block) in
      if negb (height (header genesis_block) =? 0)
         || negb (bool_decide (genesis_block_hash = genesis_hash network))
      then Err PersistedGenesisMismatch
      else
        let validated := fresh network in
        if negb (bool_decide (Some genesis_block_hash
                              = (fun b => BlockHeader.block_hash (header b)) <$> head (cs_blocks validated)))
        then Err PersistedGenesisMismatch
        else match connect_all env now validated rest with
             | (validated, Ok _) => Ok validated
             | (_, Err e) => Err e
             end
  end.

(** What [replace_with_validated_branch] takes over from the rebuilt chain. *)
Definition adopt (c validated : Chainstate) : Chainstate :=
  with_history
    (with_utxos (with_tip c (cs_tip validated) (cs_tip_hash validated) (cs_height validated)) (cs_utxos validated))
    (cs_blocks validated) (block_index_by_hash validated) (undo_stack validated).

(* src: chainstate.rs:1042-1075 Chainstate::replace_with_validated_branch *)
Definition replace_with_validated_branch (env : Env) (now : Z) (c : Chainstate) (fork_height : Z)
    (branch : list Block) : Chainstate * result StorageError unit :=
  match (prefix ← canonical_prefix_through c fork_height;
         let replacement_blocks := prefix ++ branch in
         validated ← validate_replacement_chain env now (cs_network c) replacement_blocks;
         Ok (replacement_blocks, validated)) with
  | Err e => (c, Err e)
  | Ok (replacement_blocks, validated) =>
      let snapshot := {| snap_height := cs_height validated; snap_tip_hash := cs_tip_hash validated;
                         snap_tip_header := cs_tip validated |} in
      match on_storage c (fun db =>
              replace_chainstate db snapshot (UtxoSet.entries (cs_utxos validated)) replacement_blocks) with
      | (c, Err e) => (c, Err e)
      | (c, Ok _) => (prune_history env (adopt c validated), Ok tt)
      end
  end.

(* src: chainstate.rs:970-987 Chainstate::rollback_incremental_branch_switch *)
Definition rollback_incremental_branch_switch (env : Env) (now : Z) (c : Chainstate)
    (j : IncrementalBranchSwitchJournal) : Chainstate * result StorageError unit :=
  match disconnect_all (connected_count j) c with
  | (c, Err e) => (c, Err e)
  | (c, Ok _) => connect_all env now c (Journal.disconnected_suffix_to_restore j)
  end.

(* src: chainstate.rs:955-968 Chainstate::restore_original_branch_from_journal *)
Definition restore_original_branch_from_journal (env : Env) (now : Z) (c : Chainstate)
    (j : IncrementalBranchSwitchJournal) : Chainstate * result StorageError unit :=
  match rollback_incremental_branch_switch env now c j with
  | (c, Ok _) => (c, Ok tt)
  | (c, Err _) =>
      replace_with_validated_branch env now c (j_fork_height j) (Journal.disconnected_suffix_to_restore j)
  end.

(* src: chainstate.rs:393-399 Chainstate::switch_branch_incrementally (disconnects) *)
Fixpoint switch_disconnect (n : nat) (c : Chainstate) (j : IncrementalBranchSwitchJournal) :
    Chainstate * IncrementalBranchSwitchJournal * result StorageError unit :=
  match n with
  | O => (c, j, Ok tt)
  | S n => match disconnect_last_block c with
           | (c, Err e) => (c, j, Err e)
           | (c, Ok _) => switch_disconnect n c (Journal.note_disconnect j)
           end
  end.

(* src: chainstate.rs:401-407 Chainstate::switch_branch_incrementally (connects) *)
Fixpoint switch_connect (env : Env) (now : Z) (c : Chainstate) (j : IncrementalBranchSwitchJournal)
    (branch : list Block) : Chainstate * IncrementalBranchSwitchJournal * result StorageError unit :=
  match branch with
  | [] => (c, j, Ok tt)
  | b :: branch => match connect_block env now c b with
                   | (c, Err e) => (c, j, Err e)
                   | (c, Ok _) => switch_connect env now c (Journal.note_connect j) branch
                   end
  end.

(* src: chainstate.rs:378-410 Chainstate::switch_branch_incrementally *)
Definition switch_branch_incrementally (env : Env) (now : Z) (c : Chainstate) (fork_height : Z)
    (disconnected branch : list Block) : Chainstate * result StorageError unit :=
  let abort c j e :=
    match restore_original_branch_from_journal env now c j with
    | (c, Err e) => (c, Err e)
    | (c, Ok _) => (c, Err e)
    end in
  match switch_disconnect (length disconnected) c (Journal.new fork_height disconnected) with
  | (c, j, Err e) => abort c j e
  | (c, j, Ok _) =>
      match switch_connect env now c j branch with
      | (c, j, Err e) => abort c j e
      | (c, _, Ok _) => (c, Ok tt)
      end
  end.

(* src: chainstate.rs:412-424 Chainstate::extend_with_validated_branch *)
Fixpoint extend_with_validated_branch (env : Env) (now : Z) (c : Chainstate) (connected : nat)
    (branch : list Block) : Chainstate * result StorageError unit :=
  match branch with
  | [] => (c, Ok tt)
  | b :: branch =>
      match connect_block env now c b with
      | (c, Err e) => match disconnect_all connected c with
                      | (c, Err e) => (c, Err e)
                      | (c, Ok _) => (c, Err e)
                      end
      | (c, Ok _) => extend_with_validated_branch env now c (S connected) branch
      end
  end.

(* src: chainstate.rs:306-376 Chainstate::select_branch_with_max_reorg_depth *)
Definition select_branch_with_max_reorg_depth (env : Env) (now : Z) (c : Chainstate) (branch : list Block)
    (max_reorg_depth : Z) : Chainstate * result StorageError ChainSelectionResult :=
  match branch with
  | [] => (c, Err EmptyBranch)
  | b0 :: _ =>
      let fork_hash := previous_block_hash (header b0) in
      match (_ ← validate_branch_sequence branch;
             fork_height ← canonical_fork_height c fork_hash;
             reject negb (height (header b0) =? saturating_add U64_MAX fork_height 1) with InvalidBranchSequence;
             disconnected ← canonical_branch_after c fork_height;
             reject negb (bool_decide (disconnected = []))
                    && bool_decide (is_Some (reorg_depth_error (cs_height c) fork_height max_reorg_depth))
               with (ReorgTooDeep (saturating_sub (cs_height c) fork_height) max_reorg_depth fork_height
                       (cs_height c));
             Ok (fork_height, disconnected)) with
      | Err e => (c, Err e)
      | Ok (fork_height, disconnected) =>
          if negb (bool_decide (disconnected = [])) && negb (branch_is_preferred branch disconnected)
          then (c, Ok {| outcome := KeptCurrent; disconnected := [] |})
          else
            let fork_index := position (fun b => bool_decide (BlockHeader.block_hash (header b) = fork_hash))
                                (cs_blocks c) in
            let can_switch_incrementally :=
              match fork_index with
              | Some index => Nat.eqb (length (drop (index + 1) (cs_blocks c))) (length disconnected)
                              && Nat.leb (length disconnected) (length (undo_stack c))
              | None => false
              end in
            if bool_decide (disconnected = []) then
              let '(c, r) := extend_with_validated_branch env now c 0 branch in
              (c, _ ← r; Ok {| outcome := Extended; disconnected := disconnected |})
            else
              let '(c, r) :=
                if negb can_switch_incrementally
                then replace_with_validated_branch env now c fork_height branch
                else switch_branch_incrementally env now c fork_height disconnected branch in
              (c, _ ← r; Ok {| outcome := Reorged; disconnected := disconnected |})
      end
  end.

(* src: chainstate.rs:299-304 Chainstate::select_branch *)
Definition select_branch (env : Env) (now : Z) (c : Chainstate) (branch : list Block) :
    Chainstate * result StorageError ChainSelectionResult :=
  select_branch_with_max_reorg_depth env now c branch (effective_max_reorg_depth env (cs_network c)).

(* src: chainstate.rs:789-791 Chainstate::prune_depth *)
Definition prune_depth (env : Env) (c : Chainstate) : Z := effective_prune_depth env (cs_network c).
(* src: chainstate.rs:793-795 Chainstate::max_reorg_depth *)
Definition max_reorg_depth (env : Env) (c : Chainstate) : Z := effective_max_reorg_depth env (cs_network c).
(* src: chainstate.rs:797-799 Chainstate::finalized_height *)
Definition finalized_height (env : Env) (c : Chainstate) : option Z :=
  checked_sub (cs_height c) (max_reorg_depth env c).

(** *** Restart and snapshots *)

(** The loop collects blocks towards genesis; [blocks] is newest first. *)
(* src: chainstate.rs:1430-1446 load_recent_blocks_from_storage (loop) *)
Fixpoint load_back (limit : nat) (db : database) (next_hash : bytes) (blocks : list Block) :
    result StorageError (list Block) :=
  match limit with
  | O => Ok blocks
  | S limit =>
      b ← load_block db next_hash;
      match b with
      | None => if bool_decide (blocks = []) then Ok [] else Err IncompleteBlockHistory
      | Some b =>
          let blocks := blocks ++ [b] in
          if height (header b) =? 0 then Ok blocks
          else load_back limit db (previous_block_hash (header b)) blocks
      end
  end.

(* src: chainstate.rs:1423-1450 load_recent_blocks_from_storage *)
Definition load_recent_blocks_from_storage (db : database) (tip_hash : bytes) (limit : nat) :
    result StorageError (list Block) :=
  blocks ← load_back limit db tip_hash []; Ok (reverse blocks).

(** The entry an input spent, from the archived transaction it names. *)
(* src: chainstate.rs:1221-1239 reconstruct_block_undo_from_storage (inputs) *)
Definition reconstruct_spent (network : Network) (db : database) (i : TxInput) : result StorageError UtxoEntry :=
  previous ← load_transaction db (previous_txid i);
  previous ← ok_or previous IncompleteBlockHistory;
  let '(previous_height, previous_tx) := previous in
  o ← ok_or (outputs previous_tx !! Z.to_nat (output_index i)) CorruptData;
  Ok (UtxoEntry.new network (previous_txid i) (output_index i) (value_atoms o) (locking_script o)
        previous_height (Transaction.is_coinbase previous_tx)).

(* src: chainstate.rs:1211-1255 reconstruct_block_undo_from_storage *)
Definition reconstruct_block_undo_from_storage (network : Network) (db : database) (b : Block) :
    result StorageError BlockUndo :=
  try_fold (fun undo tx =>
      sp ← try_map (reconstruct_spent network db) (inputs tx);
      Ok {| spent := spent undo ++ sp;
            created := created undo ++ UtxoSet.create_outputs tx network (height (header b)) |})
    {| spent := []; created := [] |} (transactions b).

(** [rollback_utxos] is only written: it does not reach the result. *)
(* src: chainstate.rs:1182-1209 rehydrate_undo_stack_from_storage *)
Definition rehydrate_undo_stack_from_storage (network : Network) (db : database) (blocks : list Block) :
    result StorageError (list ChainUndo) :=
  if (length blocks <=? 1)%nat then Ok []
  else
    _ ← validate_branch_sequence blocks;
    reversed ← try_map (fun pb =>
        let '(previous, b) := pb in
        undo ← reconstruct_block_undo_from_storage network db b;
        Ok {| previous_tip := Some (header previous);
              previous_tip_hash := BlockHeader.block_hash (header previous); block_undo := undo |})
      (reverse (windows2 blocks));
    Ok (reverse reversed).

(** [for entry in entries { utxos.insert(entry)?; }]. *)
Fixpoint insert_entries (s : UtxoSet) (es : list UtxoEntry) : result StorageError UtxoSet :=
  match es with
  | [] => Ok s
  | e :: es => match UtxoSet.insert s e with (s, Ok _) => insert_entries s es | (_, Err err) => Err err end
  end.

(* src: chainstate.rs:1079-1148 PersistedChainstate::try_into_chainstate *)
Definition try_into_chainstate (p : PersistedChainstate) (network : Network) (db : option database) :
    result StorageError Chainstate :=
  let g := genesis network in
  let genesis_block := gs_block g in
  utxos ← insert_entries (UtxoSet.new network) (pc_utxos p);
  reject (pc_height p =? 0) && negb (bool_decide (pc_tip_hash p = BlockHeader.block_hash (header genesis_block)))
    with PersistedGenesisMismatch;
  reject (pc_height p =? 0) && negb (bool_decide (is_Some (UtxoSet.get utxos (gs_coinbase_txid g) 0)))
    with PersistedGenesisMismatch;
  tip ← match pc_tip_header p with
        | Some h =>
            reject negb (height h =? pc_height p)
                   || negb (bool_decide (BlockHeader.block_hash h = pc_tip_hash p)) with PersistedTipMismatch;
            Ok (Some h)
        | None =>
            Ok (db ← db; match load_block db (pc_tip_hash p) with Ok b => header <$> b | Err _ => None end)
        end;
  blocks ← (if pc_height p =? 0 then Ok [genesis_block]
            else
              db ← ok_or db IncompleteBlockHistory;
              blocks ← load_recent_blocks_from_storage db (pc_tip_hash p) RECENT_BLOCK_RELOAD_LIMIT;
              last ← ok_or (last blocks) IncompleteBlockHistory;
              reject negb (height (header last) =? pc_height p)
                     || negb (bool_decide (BlockHeader.block_hash (header last) = pc_tip_hash p))
                with PersistedTipMismatch;
              Ok blocks);
  undo ← match db with
         | Some db => rehydrate_undo_stack_from_storage network db blocks
         | None => Ok []
         end;
  Ok {| cs_network := network; cs_tip := tip; cs_tip_hash := pc_tip_hash p; cs_height := pc_height p;
        cs_blocks := blocks; block_index_by_hash := build_block_index_by_hash blocks; cs_utxos := utxos;
        undo_stack := undo; storage := db; last_prune_report := None; last_prune_error := None |}.

(* src: chainstate.rs:573-612 Chainstate::import_snapshot_bundle *)
Definition import_snapshot_bundle (env : Env) (c : Chainstate) (bundle : ChainSnapshotBundle) :
    Chainstate * result StorageError unit :=
  let snapshot := bundle_snapshot bundle in
  match (last ← ok_or (last (bundle_blocks bundle)) IncompleteBlockHistory;
         reject negb (height (header last) =? snap_height snapshot)
                || negb (bool_decide (BlockHeader.block_hash (header last) = snap_tip_hash snapshot))
           with PersistedTipMismatch;
         first ← ok_or (head (bundle_blocks bundle)) IncompleteBlockHistory;
         reject negb (height (header first) =? 0)
                || negb (bool_decide (BlockHeader.block_hash (header first) = genesis_hash (cs_network c)))
           with PersistedGenesisMismatch;
         insert_entries (UtxoSet.new (cs_network c)) (bundle_utxos bundle)) with
  | Err e => (c, Err e)
  | Ok utxos =>
      match on_storage c (fun db => replace_chainstate db snapshot (bundle_utxos bundle) (bundle_blocks bundle)) with
      | (c, Err e) => (c, Err e)
      | (c, Ok _) =>
          let c := with_tip c (snap_tip_header snapshot) (snap_tip_hash snapshot) (snap_height snapshot) in
          let c := with_utxos c utxos in
          let c := with_history c (bundle_blocks bundle) (build_block_index_by_hash (bundle_blocks bundle)) [] in
          (prune_history env c, Ok tt)
      end
  end.

(* src: chainstate.rs:561-571 Chainstate::export_snapshot_bundle *)
Definition export_snapshot_bundle (fuel : nat) (c : Chainstate) :
    option (result StorageError ChainSnapshotBundle) :=
  blocks ← canonical_blocks fuel c;
  Some (blocks ← blocks;
        Ok {| bundle_snapshot := {| snap_height := cs_height c; snap_tip_hash := cs_tip_hash c;
                                    snap_tip_header := cs_tip c |};
              bundle_utxos := UtxoSet.entries (cs_utxos c);
              bundle_blocks := blocks |}).

(** The header loop without a database. *)
(* src: chainstate.rs:730-739 Chainstate::headers_after_locator (memory loop) *)
Fixpoint collect_headers (max_headers : nat) (stop_hash : bytes) (blocks : list Block) : list BlockHeader :=
  match max_headers, blocks with
  | S max_headers, b :: blocks =>
      if negb (bool_decide (stop_hash = zeros 48))
         && bool_decide (BlockHeader.block_hash (header b) = stop_hash)
      then [header b]
      else header b :: collect_headers max_headers stop_hash blocks
  | _, _ => []
  end.

(** [locator_hashes.iter().find_map(f)]. *)
Fixpoint find_map {A B} (f : A -> option B) (l : list A) : option B :=
  match l with
  | [] => None
  | x :: l => match f x with Some y => Some y | None => find_map f l end
  end.

(** Without a database; with one, headers come from archive records. *)
(* src: chainstate.rs:704-741 Chainstate::headers_after_locator (memory) *)
Definition headers_after_locator (c : Chainstate) (locator_hashes : list bytes) (stop_hash : bytes)
    (max_headers : nat) : list BlockHeader :=
  if Nat.eqb max_headers 0 then []
  else
    let found := find_map (fun hash =>
        S <$> position (fun b => bool_decide (BlockHeader.block_hash (header b) = hash)) (cs_blocks c))
      locator_hashes in
    match found with
    | Some start => collect_headers max_headers stop_hash (drop start (cs_blocks c))
    | None => if bool_decide (locator_hashes = []) then collect_headers max_headers stop_hash (cs_blocks c) else []
    end.

End chainstate.
End Chainstate.

(** ** Restarting from the recent blocks

    After a restart the chain state holds only the last
    [RECENT_BLOCK_RELOAD_LIMIT] blocks, after pruning genesis and a suffix. *)

Lemma slice_through_app {A} (pre l : list A) start i :
  (start <= S i)%nat ->
  slice_through (length pre + start) (length pre + i) (pre ++ l) = slice_through start i l.
Proof.
  intros Hi. unfold slice_through. rewrite drop_app_add by lia. f_equal. lia.
Qed.

Lemma median_app pre l i :
  (10 <= i)%nat -> median_time_past_blocks (pre ++ l) (length pre + i) = median_time_past_blocks l i.
Proof.
  intros Hi. unfold median_time_past_blocks.
  change (Z.to_nat (pow_median_window_blocks POW_PROFILE)) with 11%nat.
  replace (S (length pre + i) - 11)%nat with (length pre + (S i - 11))%nat by lia.
  by rewrite slice_through_app by lia.
Qed.

Lemma without_genesis_app pre l :
  Forall (fun b => height (header b) <> 0) l -> l <> [] ->
  exists pre', without_genesis (pre ++ l) = pre' ++ l.
Proof.
  intros Hl Hne. destruct l as [|b l]; [done|]. apply Forall_cons in Hl as [Hb _].
  destruct pre as [|p pre].
  - exists []. cbn. destruct l; [done|]. by rewrite (proj2 (Z.eqb_neq _ _) Hb).
  - cbn. destruct pre as [|p' pre]; cbn.
    + destruct (_ =? 0); [by exists []|by exists [p]].
    + destruct (_ =? 0); [by exists (p' :: pre)|by exists (p :: p' :: pre)].
Qed.

Lemma target_of_suffix pre l :
  (RECENT_BLOCK_RELOAD_LIMIT <= length l)%nat ->
  actual_timespan_of (pre ++ l) 17 = actual_timespan_of l 17 /\
  drop (length (pre ++ l) - 17) (pre ++ l) = drop (length l - 17) l.
Proof.
  unfold RECENT_BLOCK_RELOAD_LIMIT. intros Hl. rewrite length_app. split.
  - unfold actual_timespan_of. rewrite length_app.
    change (17 <? Z.to_nat (pow_averaging_window_blocks POW_PROFILE))%nat with false. cbn iota.
    replace (length pre + length l - 1)%nat with (length pre + (length l - 1))%nat by lia.
    replace (length pre + length l - 17)%nat with (length pre + (length l - 17))%nat by lia.
    by rewrite !median_app by lia.
  - replace (length pre + length l - 17)%nat with (length pre + (length l - 17))%nat by lia.
    by rewrite drop_app_add.
Qed.

(** The blocks a restarted or pruned node keeps are enough for consensus: the
    target of the next block and its earliest timestamp, computed from any chain
    that ends in at least [RECENT_BLOCK_RELOAD_LIMIT] non-genesis blocks, are
    those computed from these blocks alone. *)
Theorem recent_blocks_suffice network pre recent next_timestamp :
  (RECENT_BLOCK_RELOAD_LIMIT <= length recent)%nat ->
  Forall (fun b => height (header b) <> 0) recent ->
  target_for_next_block_with_timestamp network (pre ++ recent) next_timestamp
  = target_for_next_block_with_timestamp network recent next_timestamp /\
  minimum_next_block_timestamp (pre ++ recent) = minimum_next_block_timestamp recent.
Proof.
  intros Hlen Hh. assert (recent <> []) as Hne by (intros ->; cbn in Hlen; unfold RECENT_BLOCK_RELOAD_LIMIT in Hlen; lia).
  split.
  - unfold target_for_next_block_with_timestamp. rewrite last_app.
    destruct (last recent) as [b|] eqn:Elast; [|by apply last_None in Elast].
    destruct (_ && _); [done|]. unfold next_target_from_blocks.
    destruct (without_genesis_app pre recent Hh Hne) as [pre' ->].
    destruct (without_genesis_app [] recent Hh Hne) as [nil' Hnil]. rewrite app_nil_l in Hnil.
    assert (nil' = []) as ->.
    { apply (f_equal length) in Hnil. rewrite length_app in Hnil.
      assert (length (without_genesis recent) <= length recent)%nat
        by (destruct recent as [|? [|]]; cbn; [lia..|]; destruct (_ =? 0); cbn; lia).
      by apply nil_length_inv; lia. }
    rewrite Hnil, app_nil_l.
    destruct (target_of_suffix pre' recent Hlen) as [Hts Hdrop].
    change (Z.to_nat (pow_averaging_window_blocks POW_PROFILE)) with 17%nat.
    unfold RECENT_BLOCK_RELOAD_LIMIT in Hlen.
    replace (Nat.min (length (pre' ++ recent)) 17) with 17%nat by (rewrite length_app; lia).
    replace (Nat.min (length recent) 17) with 17%nat by lia.
    by rewrite Hts, Hdrop.
  - unfold minimum_next_block_timestamp, median_time_past_from_blocks.
    rewrite !bool_decide_false by (try done; by intros [_ ?]%app_eq_nil). rewrite length_app.
    unfold RECENT_BLOCK_RELOAD_LIMIT in Hlen.
    replace (length pre + length recent - 1)%nat with (length pre + (length recent - 1))%nat by lia.
    by rewrite median_app by lia.
Qed.

Lemma recent_blocks_suffice_witness :
  let recent := (fun i => block_at (i + 1) (1000 + 100 * i) (replicate 48 x01)) <$> seqZ 0 27 in
  minimum_next_block_timestamp (block_at 0 900 (replicate 48 x01) :: recent)
  = minimum_next_block_timestamp recent.
Proof.
  cbv zeta. refine (proj2 (recent_blocks_suffice Mainnet [block_at 0 900 (replicate 48 x01)] _ 0 _ _)).
  - by vm_compute.
  - apply (bool_decide_unpack _). by vm_compute.
Defined.

(** ** Connecting and disconnecting *)

Section chain.
Context `{Hs : Sha3, Hf : FalconBackend, Hg : !GenesisReady Hs, Hd : Database}.

(** A block whose application can be undone at [s]: it spends none of its own
    outputs and its coinbase output has a free place. *)
Definition undoable (s : UtxoSet) (b : Block) : Prop :=
  no_internal_spend (transactions b) /\
  (forall cb, head (transactions b) = Some cb ->
     us_entries s !! {| k_txid := Transaction.txid cb; k_output_index := 0 |} = None).

(** The coins in existence are those issued up to the height. *)
Definition supply_ok (s : UtxoSet) (h : Z) : Prop :=
  UtxoSet.wf s /\ UtxoSet.total_value (us_entries s) = total_rewards_below (h + 1).

(** The undo stack, newest first and paired with the blocks, unwinds the set
    through the sets of the lower heights. *)
Inductive unwinds : UtxoSet -> Z -> list (ChainUndo * Block) -> Prop :=
| unwinds_bottom s h : supply_ok s h -> 0 <= h -> unwinds s h []
| unwinds_undo s s0 h u b l :
    supply_ok s h -> UtxoSet.disconnect_block s (block_undo u) = s0 ->
    UtxoSet.apply_block s0 b = (s, Ok (block_undo u)) ->
    default 0 (height <$> previous_tip u) = h - 1 ->
    unwinds s0 (h - 1) l -> unwinds s h ((u, b) :: l).

(** The invariant of the chain state. *)
Definition chain_ok (c : Chainstate) : Prop :=
  exists pairs older, undo_stack c = reverse pairs.*1 /\ cs_blocks c = older ++ reverse pairs.*2 /\
    older <> [] /\ unwinds (cs_utxos c) (cs_height c) pairs /\ us_network (cs_utxos c) = cs_network c /\
    default 0 (height <$> cs_tip c) = cs_height c.

Lemma unwinds_supply s h l : unwinds s h l -> supply_ok s h.
Proof. by destruct 1. Qed.
Lemma unwinds_height s h l : unwinds s h l -> 0 <= h.
Proof. induction 1; lia. Qed.
Lemma unwinds_take s h l n : unwinds s h l -> unwinds s h (take n l).
Proof.
  intros Hu. revert n. induction Hu as [s h Hsup Hh|s s0 h u b l Hsup Hd1 Ha Hp Hu IH]; intros n.
  - rewrite take_nil. by constructor.
  - destruct n as [|n]; cbn.
    + constructor; [done|]. apply unwinds_height in Hu. lia.
    + econstructor; [done..|]. apply IH.
Qed.

Lemma total_rewards_next h : 0 <= h -> total_rewards_below (h + 1) = total_rewards_below h + get_block_reward_atoms h.
Proof.
  intros Hh. unfold total_rewards_below. rewrite seqZ_app, fmap_app, zsum_app by lia.
  change (seqZ (0 + h) 1) with [0 + (0 + h)]. rewrite !Z.add_0_l. cbn [fmap list_fmap zsum]. lia.
Qed.

Lemma on_storage_spec c op c' r :
  Chainstate.on_storage c op = (c', r) -> exists db, c' = Chainstate.with_storage c db.
Proof.
  unfold Chainstate.on_storage. destruct (storage c) as [db|] eqn:Hst.
  - destruct (op db) as [db' r']. intros [= <- <-]. by eexists.
  - intros [= <- <-]. exists None. destruct c; cbn in *; by subst.
Qed.

(** Pruning forgets old blocks and the oldest undo entries, nothing else. *)
Lemma prune_spec env c :
  exists n db report err, let m := Nat.min n (length (undo_stack c)) in
    (zlen (cs_blocks c) <= saturating_add U64_MAX (effective_prune_depth env (cs_network c)) 1 -> n = 0%nat) /\
    Chainstate.prune_history env c =
      Chainstate.with_prune (Chainstate.with_storage
        (if Nat.eqb n 0 then c
         else Chainstate.with_history c (take 1 (cs_blocks c) ++ drop (1 + n) (cs_blocks c))
                (build_block_index_by_hash (take 1 (cs_blocks c) ++ drop (1 + n) (cs_blocks c)))
                (drop m (undo_stack c))) db) report err.
Proof.
  unfold Chainstate.prune_history.
  set (retain := saturating_add _ _ _).
  assert (exists n, let m := Nat.min n (length (undo_stack c)) in
    (zlen (cs_blocks c) <= retain -> n = 0%nat) /\
    Chainstate.prune_history_to_retain c retain
    = (if Nat.eqb n 0 then c
       else Chainstate.with_history c (take 1 (cs_blocks c) ++ drop (1 + n) (cs_blocks c))
              (build_block_index_by_hash (take 1 (cs_blocks c) ++ drop (1 + n) (cs_blocks c)))
              (drop m (undo_stack c)))) as (n & Hn0 & Hn).
  { unfold Chainstate.prune_history_to_retain. destruct (_ || _) eqn:Hc; [by exists 0%nat|].
    apply orb_false_iff in Hc as [Hc _]. set (n := Z.to_nat _). exists n. split; [bool_to_prop; lia|].
    by destruct (Nat.eqb n 0). }
  exists n. cbv zeta in *. rewrite Hn. set (c1 := if Nat.eqb n 0 then c else _).
  destruct (_ <? _).
  - exists (storage c1), (last_prune_report c1), (last_prune_error c1). split; [done|]. by destruct c1.
  - destruct (storage c1) as [db|] eqn:Hst.
    + destruct (prune_archived_blocks _ _ _) as [db' [rep|e]]; by eexists _, _, _.
    + exists None, (last_prune_report c1), (last_prune_error c1). split; [done|].
      destruct c1; cbn in *; by subst.
Qed.

Lemma prune_chain_ok env c : chain_ok c -> chain_ok (Chainstate.prune_history env c).
Proof.
  intros (pairs & older & Hundo & Hblocks & Hne & Hu & Hn & Ht).
  destruct (prune_spec env c) as (n & db & rep & err & _ & ->). cbv zeta.
  destruct (Nat.eqb_spec n 0) as [->|Hn0]; [by exists pairs, older|].
  set (m := Nat.min n (length (undo_stack c))). set (k := (length pairs - m)%nat).
  exists (take k pairs).
  assert (length (undo_stack c) = length pairs) as Hlen by by rewrite Hundo, length_reverse, length_fmap.
  assert (drop m (undo_stack c) = reverse (take k pairs).*1) as Hdrop.
  { rewrite Hundo. rewrite <- (take_drop k pairs) at 1. rewrite fmap_app, reverse_app.
    rewrite drop_app_length'; [done|]. rewrite length_reverse, length_fmap, length_drop. unfold k, m. lia. }
  destruct older as [|o os]; [done|].
  exists (o :: drop n (os ++ reverse (drop k pairs).*2)). split_and!; [exact Hdrop| |done| |done|done].
  - cbn [cs_blocks Chainstate.with_history Chainstate.with_prune Chainstate.with_storage].
    rewrite Hblocks. change (o :: drop n (os ++ reverse pairs.*2)
      = o :: drop n (os ++ reverse (drop k pairs).*2) ++ reverse (take k pairs).*2). f_equal.
    assert (reverse pairs.*2 = reverse (drop k pairs).*2 ++ reverse (take k pairs).*2) as ->
      by by rewrite <- reverse_app, <- fmap_app, take_drop.
    destruct (Nat.eqb_spec k 0) as [Hk|Hk].
    { rewrite Hk, take_0. cbn. by rewrite !app_nil_r. }
    rewrite app_assoc, drop_app_le; [done|].
    rewrite length_app, length_reverse, length_fmap, length_drop. unfold k, m in *. lia.
  - by apply unwinds_take.
Qed.

(** The state [connect_block] reaches before pruning. *)
Lemma push_chain_ok env c b s undo db :
  chain_ok c -> supply_ok s (cs_height c + 1) -> UtxoSet.disconnect_block s undo = cs_utxos c ->
  UtxoSet.apply_block (cs_utxos c) b = (s, Ok undo) -> us_network s = cs_network c ->
  height (header b) = cs_height c + 1 ->
  chain_ok (Chainstate.push_block env (Chainstate.with_storage (Chainstate.with_utxos c s) db) b undo).
Proof.
  intros (pairs & older & Hundo & Hblocks & Hne & Hu & Hn & Ht) Hsup Hdis Happ Hns Hh.
  apply prune_chain_ok.
  exists (({| previous_tip := cs_tip c; previous_tip_hash := cs_tip_hash c; block_undo := undo |}, b) :: pairs), older.
  cbn [undo_stack cs_blocks cs_utxos cs_height cs_network cs_tip Chainstate.with_history Chainstate.with_tip
    Chainstate.with_utxos Chainstate.with_storage].
  rewrite !fmap_cons, !reverse_cons. split_and!; try done.
  - by rewrite Hundo.
  - by rewrite Hblocks, app_assoc.
  - rewrite Hh. eapply unwinds_undo; cbn [block_undo previous_tip]; [done..| |].
    + rewrite Ht. lia.
    + by replace (cs_height c + 1 - 1) with (cs_height c) by lia.
Qed.

(** Connecting preserves the invariant, and a failure changes nothing but the
    database. *)
Lemma connect_chain_ok env now c b c' r :
  chain_ok c -> undoable (cs_utxos c) b -> cs_height c < U64_MAX ->
  Chainstate.connect_block env now c b = (c', r) ->
  chain_ok c' /\ (forall e, r = Err e -> exists db, c' = Chainstate.with_storage c db).
Proof.
  intros Hok [Hint Hfree] Hmax Hrun.
  assert (c = Chainstate.with_storage c (storage c)) as Hc by by destruct c.
  pose proof Hok as (pairs & older & _ & _ & _ & Hu & Hn & _).
  destruct (unwinds_supply _ _ _ Hu) as [Hwf Htotal]. pose proof (unwinds_height _ _ _ Hu) as Hpos.
  unfold Chainstate.connect_block in Hrun.
  destruct (validate_block_with_context _ _ _ _ _ _ _ _) as [[]|e] eqn:Hval.
  2:{ injection Hrun as <- <-. split; [done|]. intros _ _. by exists (storage c). }
  unfold validate_block_with_context in Hval. pose proof (validate_loop _ _ _ _ Hval) as
    (cb & txs & _ & _ & _ & _ & oc & _ & Hh & _). cbn [ctx_height] in Hh.
  apply validated_applies in Hval as (s & undo & Happ & Hwf' & Htotal'); [|done..].
  cbn [ctx_utxos ctx_network ctx_height] in *.
  assert (saturating_add U64_MAX (cs_height c) 1 = cs_height c + 1) as Hsat by (unfold saturating_add; lia).
  rewrite Hsat in *. rewrite Happ in Hrun.
  pose proof (apply_block_outcomes _ _ _ _ Hwf Hint Happ) as [_ Hdis].
  assert (us_network s = cs_network c) as Hns.
  { destruct (apply_transactions_ok _ _ _ _ _ _ Hwf Happ) as (_ & -> & _). done. }
  assert (supply_ok s (cs_height c + 1)) as Hsup.
  { split; [done|]. rewrite Htotal', Htotal, (total_rewards_next (cs_height c + 1)) by lia. done. }
  destruct (Chainstate.on_storage _ _) as [c2 [u|e]] eqn:Hst; apply on_storage_spec in Hst as [db ->];
    injection Hrun as <- <-.
  - split; [by apply push_chain_ok|]. done.
  - rewrite Hdis. split; [|intros _ _; by exists db]. by destruct c.
Qed.

(** Disconnecting too. *)
Lemma disconnect_chain_ok c c' r :
  chain_ok c -> Chainstate.disconnect_last_block c = (c', r) ->
  chain_ok c' /\ (forall e, r = Err e -> exists db, c' = Chainstate.with_storage c db).
Proof.
  intros Hok Hrun. pose proof Hok as (pairs & older & Hundo & Hblocks & Hne & Hu & Hn & Ht).
  unfold Chainstate.disconnect_last_block in Hrun.
  destruct pairs as [|[u b] pairs].
  { rewrite Hundo in Hrun. cbn in Hrun. injection Hrun as <- <-. split; [done|].
    intros _ _. exists (storage c). by destruct c. }
  rewrite !fmap_cons, !reverse_cons in *. rewrite app_assoc in Hblocks.
  rewrite Hundo, Hblocks, !last_snoc in Hrun. cbn [fst snd] in Hrun.
  inversion Hu as [|? s0 ? ? ? ? Hsup Hdis Happ Hprev Hu']; subst.
  destruct (Chainstate.persist_snapshot_for _ _ _ _) as [c2 [x|e]] eqn:Hst;
    unfold Chainstate.persist_snapshot_for in Hst; apply on_storage_spec in Hst as [db ->];
    injection Hrun as <- <-.
  - split; [|done]. exists pairs, older.
    cbn [undo_stack cs_blocks cs_utxos cs_height cs_network cs_tip Chainstate.with_history Chainstate.with_tip
      Chainstate.with_utxos Chainstate.with_storage].
    rewrite Hundo, Hblocks, !removelast_last. split_and!; try done.
    + by rewrite Hprev.
    + pose proof (unwinds_supply _ _ _ Hu') as [Hwf0 _].
      destruct (apply_transactions_ok _ _ _ _ _ _ Hwf0 Happ) as (_ & Hnet & _). congruence.
  - cbn [cs_utxos Chainstate.with_utxos Chainstate.with_storage]. rewrite Happ. cbn [fst].
    assert (Chainstate.with_utxos (Chainstate.with_storage (Chainstate.with_utxos c
      (UtxoSet.disconnect_block (cs_utxos c) (block_undo u))) db) (cs_utxos c) = Chainstate.with_storage c db) as ->
      by by destruct c.
    split; [by destruct c|]. intros _ _. by exists db.
Qed.

(** The states a node moves through: attempts to connect a block that can be
    undone again, and to disconnect the last one. *)
Inductive step (env : Env) : Chainstate -> Chainstate -> Prop :=
| step_connect now c b c' r :
    undoable (cs_utxos c) b -> cs_height c < U64_MAX ->
    Chainstate.connect_block env now c b = (c', r) -> step env c c'
| step_disconnect c c' r : Chainstate.disconnect_last_block c = (c', r) -> step env c c'.

Lemma step_chain_ok env c c' : chain_ok c -> step env c c' -> chain_ok c'.
Proof.
  intros Hok Hstep. revert Hok. destruct Hstep as [now c b c' r Hun Hmax Hrun|c c' r Hrun]; intros Hok.
  - by destruct (connect_chain_ok _ _ _ _ _ _ Hok Hun Hmax Hrun).
  - by destruct (disconnect_chain_ok _ _ _ Hok Hrun).
Qed.

Lemma fresh_chain_ok network db : chain_ok (Chainstate.fresh_with_storage network db).
Proof.
  unfold Chainstate.fresh_with_storage, UtxoSet.insert.
  rewrite bool_decide_true by done. cbn [negb us_entries UtxoSet.new]. rewrite lookup_empty.
  assert (height (header (gs_block (Chainstate.genesis network))) = 0) as Hh.
  { unfold Chainstate.genesis. destruct (genesis_ready network) as [s Hs']. cbn.
    unfold is_Some_proj. destruct (genesis_state network) as [s2|] eqn:E; [|done].
    by apply genesis_state_from_parts_Some in E as (_ & _ & _ & _ & _ & -> & _). }
  exists [], [gs_block (Chainstate.genesis network)].
  cbn [undo_stack cs_blocks cs_utxos cs_height cs_network cs_tip us_network UtxoSet.new UtxoSet.with_entries].
  split_and!; try done. constructor; [|done]. split.
  - intros k e. cbn [us_entries UtxoSet.with_entries us_network UtxoSet.new].
    intros [[<- <-]|[_ ?]]%lookup_insert_Some; [done|]. by rewrite lookup_empty in *.
  - cbn [us_entries UtxoSet.with_entries UtxoSet.new]. rewrite total_value_insert by apply lookup_empty.
    unfold UtxoSet.total_value. rewrite map_fold_empty. by vm_compute.
Qed.

(** C2: monetary conservation over the life of a node: however blocks are
    connected and disconnected, and whatever the database answers, the coins in
    existence are exactly the rewards of the heights up to the current one, and
    every attempt that fails leaves the chain as it was. Connected blocks are
    those of [undoable]: the two exceptions are the subjects of
    [Utxo.disconnect_keeps_internally_spent] and
    [Utxo.duplicate_output_replaces_entry]. *)
Theorem supply_is_issuance env network db c :
  rtc (step env) (Chainstate.fresh_with_storage network db) c ->
  UtxoSet.wf (cs_utxos c) /\
  UtxoSet.total_value (us_entries (cs_utxos c)) = total_rewards_below (cs_height c + 1) /\
  (forall now b c' e, undoable (cs_utxos c) b -> cs_height c < U64_MAX ->
     Chainstate.connect_block env now c b = (c', Err e) -> exists db', c' = Chainstate.with_storage c db') /\
  (forall c' e, Chainstate.disconnect_last_block c = (c', Err e) -> exists db', c' = Chainstate.with_storage c db').
Proof.
  intros Hreach. assert (chain_ok c) as Hok.
  { revert Hreach. apply (rtc_ind_r (fun c => chain_ok c)); [apply fresh_chain_ok|].
    intros x y _ Hstep Hx. by eapply step_chain_ok. }
  pose proof Hok as (pairs & older & _ & _ & _ & Hu & _). destruct (unwinds_supply _ _ _ Hu) as [Hwf Ht].
  split_and!; [done..| |].
  - intros now b c' e Hun Hmax Hrun. destruct (connect_chain_ok _ _ _ _ _ _ Hok Hun Hmax Hrun) as [_ He]. by eapply He.
  - intros c' e Hrun. destruct (disconnect_chain_ok _ _ _ Hok Hrun) as [_ He]. by eapply He.
Qed.


(** *** Branch selection *)

(** The tip of the chain is the block [b]. *)
Definition tip_is (c : Chainstate) (b : Block) : Prop :=
  cs_tip c = Some (header b) /\ cs_tip_hash c = BlockHeader.block_hash (header b) /\
  cs_height c = height (header b).

Lemma prune_tip env c :
  cs_tip (Chainstate.prune_history env c) = cs_tip c /\
  cs_tip_hash (Chainstate.prune_history env c) = cs_tip_hash c /\
  cs_height (Chainstate.prune_history env c) = cs_height c.
Proof. destruct (prune_spec env c) as (n & db & rep & err & _ & ->). by destruct (Nat.eqb n 0). Qed.

Lemma push_tip env c b undo : tip_is (Chainstate.push_block env c b undo) b.
Proof.
  unfold Chainstate.push_block, tip_is. cbv zeta.
  match goal with |- context [Chainstate.prune_history env ?c0] =>
    destruct (prune_tip env c0) as (-> & -> & ->) end. done.
Qed.

Lemma connect_tip env now c b c' : Chainstate.connect_block env now c b = (c', Ok tt) -> tip_is c' b.
Proof.
  unfold Chainstate.connect_block.
  destruct (validate_block_with_context _ _ _ _ _ _ _ _); [|done].
  destruct (UtxoSet.apply_block _ _) as [s [undo|e]]; [|done].
  destruct (Chainstate.on_storage _ _) as [c2 [u|e]]; [|done]. intros [= <-].
  apply push_tip.
Qed.

Lemma connect_all_tip env now c bs b c' :
  Chainstate.connect_all env now c (bs ++ [b]) = (c', Ok tt) -> tip_is c' b.
Proof.
  revert c. induction bs as [|b0 bs IH]; intros c Hrun; cbn in Hrun.
  - destruct (Chainstate.connect_block env now c b) as [c1 [[]|e]] eqn:E; [|done].
    injection Hrun as <-. by eapply connect_tip.
  - destruct (Chainstate.connect_block env now c b0) as [c1 [[]|e]] eqn:E; [|done]. by eapply IH.
Qed.

Lemma extend_connect_all env now c n bs c' :
  Chainstate.extend_with_validated_branch env now c n bs = (c', Ok tt) ->
  Chainstate.connect_all env now c bs = (c', Ok tt).
Proof.
  revert c n. induction bs as [|b bs IH]; intros c n Hrun; cbn in *; [done|].
  destruct (Chainstate.connect_block env now c b) as [c1 [[]|e]]; [by eapply IH|].
  by destruct (Chainstate.disconnect_all n c1) as [c2 [[]|e2]].
Qed.

Lemma switch_connect_all env now c j bs c' j' :
  Chainstate.switch_connect env now c j bs = (c', j', Ok tt) ->
  Chainstate.connect_all env now c bs = (c', Ok tt).
Proof.
  revert c j. induction bs as [|b bs IH]; intros c j Hrun; cbn in *.
  - by injection Hrun as -> _.
  - destruct (Chainstate.connect_block env now c b) as [c1 [[]|e]]; [by eapply IH|done].
Qed.

Lemma switch_tip env now c fork disc bs b c' :
  Chainstate.switch_branch_incrementally env now c fork disc (bs ++ [b]) = (c', Ok tt) -> tip_is c' b.
Proof.
  unfold Chainstate.switch_branch_incrementally.
  destruct (Chainstate.switch_disconnect _ _ _) as [[c1 j1] [[]|e]].
  - destruct (Chainstate.switch_connect _ _ _ _ _) as [[c2 j2] [[]|e]] eqn:E.
    + intros [= <-]. apply switch_connect_all in E. by eapply connect_all_tip.
    + by destruct (Chainstate.restore_original_branch_from_journal _ _ _ _) as [c3 [[]|e3]].
  - by destruct (Chainstate.restore_original_branch_from_journal _ _ _ _) as [c3 [[]|e3]].
Qed.

Lemma blocks_at_heights_length c first last bs :
  Chainstate.blocks_at_heights c first last = Ok bs -> zlen bs = Z.max 0 (last + 1 - first).
Proof.
  unfold Chainstate.blocks_at_heights. intros H%try_map_Ok%Forall2_length. rewrite length_seqZ in H.
  unfold zlen. lia.
Qed.

Lemma replace_tip env now c fork bs b c' :
  0 <= fork ->
  Chainstate.replace_with_validated_branch env now c fork (bs ++ [b]) = (c', Ok tt) -> tip_is c' b.
Proof.
  intros Hfork. unfold Chainstate.replace_with_validated_branch.
  destruct (_ ≫= _) as [[blocks validated]|e] eqn:E; [|done]. inv_ok.
  destruct (Chainstate.on_storage _ _) as [c2 [[]|e]]; [|done]. intros [= <-].
  match goal with Hv : Chainstate.validate_replacement_chain _ _ _ (?p ++ _) = _ |- _ =>
    rename Hv into Hval; rename p into prefix end.
  match goal with Hp : Chainstate.canonical_prefix_through _ _ = _ |- _ =>
    apply blocks_at_heights_length in Hp as Hlen end.
  destruct prefix as [|g prefix]; [change (zlen (A:=Block) []) with 0 in Hlen; lia|]. cbn [app] in Hval.
  unfold Chainstate.validate_replacement_chain in Hval.
  destruct (_ || _); [done|]. destruct (negb _); [done|].
  rewrite app_assoc in Hval. destruct (Chainstate.connect_all _ _ _ _) as [v [[]|e]] eqn:Econ; [|done].
  injection Hval as ->. apply connect_all_tip in Econ as (Ht & Hth & Hh).
  unfold tip_is. match goal with |- context [Chainstate.prune_history env ?c0] =>
    destruct (prune_tip env c0) as (-> & -> & ->) end. by cbn.
Qed.

Lemma canonical_fork_known c hash h :
  Chainstate.canonical_fork_height c hash = Ok h -> Chainstate.known_block_height c hash = Some h.
Proof. unfold Chainstate.canonical_fork_height. intros Hrun. by inv_ok. Qed.

(** C5: a branch replaces blocks only when it must win: if [select_branch] changes
    the chain state at all, the branch is a connected sequence on a block of the
    current chain, the blocks after that fork point are no more than the reorg
    limit, and, if there are any, the branch beats them under the branch order.
    When it reports success, the last block of the branch is the new tip, and the
    blocks it reports as disconnected are exactly those after the fork point;
    when it reports that the current branch was kept, nothing has changed. *)
Theorem select_branch_prefers env now c branch b max_depth c' r :
  (forall hash h, Chainstate.known_block_height c hash = Some h -> 0 <= h) -> cs_height c <= U64_MAX ->
  Chainstate.select_branch_with_max_reorg_depth env now c (branch ++ [b]) max_depth = (c', r) ->
  (c' = c \/ exists b0 fork_height old,
     head (branch ++ [b]) = Some b0 /\ validate_branch_sequence (branch ++ [b]) = Ok tt /\
     Chainstate.canonical_fork_height c (previous_block_hash (header b0)) = Ok fork_height /\
     Chainstate.canonical_branch_after c fork_height = Ok old /\
     (old <> [] -> zlen old <= max_depth /\ compare_branch_work (branch ++ [b]) old = Gt) /\
     (forall res, r = Ok res -> disconnected res = old)) /\
  (forall res, r = Ok res -> (outcome res = KeptCurrent -> c' = c) /\ (outcome res <> KeptCurrent -> tip_is c' b)).
Proof.
  intros Htyped Hheight Hrun. unfold Chainstate.select_branch_with_max_reorg_depth in Hrun.
  destruct (branch ++ [b]) as [|b0 bs] eqn:Ebr; [by apply app_eq_nil in Ebr as [_ ?]|]. rewrite <- Ebr in *.
  destruct (validate_branch_sequence _ ≫= _) as [[fork_height old]|e] eqn:E.
  2:{ injection Hrun as <- <-. split; [by left|done]. }
  inv_ok. bool_to_prop.
  assert (0 <= fork_height) as Hfork by by eapply Htyped, canonical_fork_known.
  assert (old <> [] -> zlen old <= max_depth) as Hdepth.
  { intros Hne. rewrite bool_decide_false in Hc0 by done. cbn [negb andb] in Hc0. bool_to_prop.
    unfold reorg_depth_error, saturating_sub in Hc0.
    destruct (max_depth <? _) eqn:Hd2; [by destruct Hc0|]. bool_to_prop.
    unfold Chainstate.canonical_branch_after in Hok1. destruct (cs_height c <=? fork_height) eqn:Hle; [by simplify_eq|].
    bool_to_prop. apply blocks_at_heights_length in Hok1. unfold saturating_add in Hok1. lia. }
  destruct (negb (bool_decide (old = [])) && negb (branch_is_preferred (branch ++ [b]) old)) eqn:Hkeep.
  { injection Hrun as <- <-. split; [by left|]. by intros res [= <-]. }
  assert (old <> [] -> zlen old <= max_depth /\ compare_branch_work (branch ++ [b]) old = Gt) as Hpref.
  { intros Hne. split; [by apply Hdepth|]. rewrite bool_decide_false in Hkeep by done. cbn [negb andb] in Hkeep.
    apply negb_false_iff in Hkeep. by apply branch_is_preferred_gt. }
  match type of Hrun with (if _ then let '(_, _) := ?ext in _ else let '(_, _) := ?sw in _) = _ =>
    assert (exists k c1 r1, (k = Extended \/ k = Reorged) /\ c' = c1 /\
      r = (_ ← r1; Ok {| outcome := k; disconnected := old |}) /\ (r1 = Ok tt -> tip_is c1 b))
      as (k & c1 & r1 & Hk & -> & -> & Htip)
  end.
  { case_bool_decide.
    - destruct (Chainstate.extend_with_validated_branch _ _ _ _ _) as [c1 r1] eqn:Hext. injection Hrun as <- <-.
      exists Extended, c1, r1. split_and!; [by left|done..|]. intros ->.
      apply extend_connect_all in Hext. by eapply connect_all_tip.
    - match type of Hrun with (let '(_, _) := ?sw in _) = _ => destruct sw as [c1 r1] eqn:Hsw end.
      injection Hrun as <- <-. exists Reorged, c1, r1. split_and!; [by right|done..|]. intros ->.
      destruct (negb _) in Hsw; [by eapply replace_tip|by eapply switch_tip]. }
  split.
  - right. exists b0, fork_height, old. rewrite Ebr at 1. split_and!; try done. intros res Hres. by inv_ok.
  - intros res Hres. destruct r1 as [[]|e]; [|done]. cbn in Hres. injection Hres as <-. cbn [outcome].
    split; [by destruct Hk as [->| ->]|]. intros _. by apply Htip.
Qed.

(** *** Rebuilding the undo stack *)

(** The archive holds the transaction that created the entry. *)
Definition archived (db : database) (e : UtxoEntry) : Prop :=
  exists tx o, load_transaction db (u_txid e) = Ok (Some (created_height e, tx)) /\
    outputs tx !! Z.to_nat (u_output_index e) = Some o /\
    value_atoms o = u_value_atoms e /\ locking_script o = u_locking_script e /\
    Transaction.is_coinbase tx = u_is_coinbase e.

Lemma reconstruct_spent_archived n db i e :
  archived db e -> u_network e = n -> UtxoEntry.key e = input_key i ->
  Chainstate.reconstruct_spent n db i = Ok e.
Proof.
  intros (tx & o & Hl & Ho & Hv & Hs' & Hc) Hn Hk. injection Hk as Ht Hi.
  unfold Chainstate.reconstruct_spent. rewrite <- Ht, <- Hi, Hl. cbn. rewrite Ho. cbn.
  rewrite Hv, Hs', Hc. subst n. by destruct e.
Qed.

Lemma reconstruct_inputs n db ins es :
  Forall (fun e => archived db e /\ u_network e = n) es -> keys_of es = input_key <$> ins ->
  try_map (Chainstate.reconstruct_spent n db) ins = Ok es.
Proof.
  intros Hes Hk. apply try_map_Ok. revert ins Hk.
  induction es as [|e es IH]; intros [|i ins] Hk; try (done || by constructor).
  apply Forall_cons in Hes as [[Ha Hn] Hes]. injection Hk as Hk1 Hk2 Hk.
  constructor; [|by apply IH]. apply reconstruct_spent_archived; [done..|].
  unfold UtxoEntry.key, input_key. by rewrite Hk1, Hk2.
Qed.

(** The undo journals a restarted node rebuilds from its archive are the ones
    it had: for a block that was applied to a coin set, if the archive holds the
    transactions behind the coins it spent, reconstruction returns the journal
    of the application, so a reorganisation after the restart restores the
    same set. *)
Theorem reconstructed_undo_exact (db : database) s b s' undo :
  UtxoSet.wf s -> UtxoSet.apply_block s b = (s', Ok undo) -> Forall (archived db) (spent undo) ->
  Chainstate.reconstruct_block_undo_from_storage (us_network s) db b = Ok undo.
Proof.
  intros Hwf Happ Har. apply apply_transactions_ok in Happ as (_ & _ & sp & -> & Hk & Hn & _); [|done].
  cbn [spent created] in *. rewrite !app_nil_l in *.
  unfold Chainstate.reconstruct_block_undo_from_storage.
  assert (Forall (fun e => archived db e /\ u_network e = us_network s) sp) as Hes by by apply Forall_and.
  clear Har Hn. rewrite <- (app_nil_l sp), <- (app_nil_l (_ ≫= fun tx => UtxoSet.create_outputs tx _ _)).
  generalize (@nil UtxoEntry) at 1 3 as sp0. generalize (@nil UtxoEntry) as cr0.
  revert sp Hk Hes. induction (transactions b) as [|tx txs IH]; intros sp Hk Hes cr0 sp0.
  - apply fmap_nil_inv in Hk. subst sp. cbn. by rewrite !app_nil_r.
  - rewrite bind_cons, fmap_app in Hk. apply fmap_app_inv in Hk as (sp1 & sp2 & Hk1 & Hk2 & ->).
    apply Forall_app in Hes as [He1 He2]. cbn [try_fold].
    rewrite (reconstruct_inputs _ _ _ sp1) by done. cbn [mbind result_bind spent created].
    rewrite (IH sp2) by done. by rewrite bind_cons, !app_assoc.
Qed.

(** *** The walk to genesis *)

(** The blocks from the one with the given hash and height down to genesis. *)
Inductive descends : bytes -> Z -> list Block -> Prop :=
| descends_genesis b : height (header b) = 0 -> descends (BlockHeader.block_hash (header b)) 0 [b]
| descends_parent b l : height (header b) <> 0 ->
    descends (previous_block_hash (header b)) (height (header b) - 1) l ->
    descends (BlockHeader.block_hash (header b)) (height (header b)) (b :: l).

Lemma walk_back_descends (db : database) fuel hash h acc :
  0 <= h < Z.of_nat fuel ->
  exists r, Chainstate.walk_back fuel db hash h acc = Some r /\
    forall bs, r = Ok bs -> exists l, bs = reverse (acc ++ l) /\ descends hash h l.
Proof.
  revert hash h acc. induction fuel as [|fuel IH]; intros hash h acc Hh; [lia|]. cbn [Chainstate.walk_back].
  destruct (_ ≫= _) as [b|e]; [|by eexists].
  destruct (_ || _) eqn:Hc; [by eexists|]. bool_to_prop. subst hash h.
  destruct (Z.eqb_spec (height (header b)) 0) as [H0|H0].
  - eexists. split; [done|]. intros bs [= <-]. exists [b]. split; [done|].
    rewrite H0. by constructor.
  - unfold saturating_sub. rewrite Z.max_r by lia.
    destruct (IH (previous_block_hash (header b)) (height (header b) - 1) (acc ++ [b])) as (r & -> & Hr); [lia|].
    exists r. split; [done|]. intros bs Hbs. destruct (Hr bs Hbs) as (l & -> & Hl).
    exists (b :: l). by rewrite <- app_assoc; split; [|constructor].
Qed.

(** [canonical_blocks] terminates on any database, in one round per height,
    and the list it returns is a chain: from genesis at height 0 to the tip,
    each block naming its parent's hash, heights rising by one. *)
Theorem canonical_blocks_walk (c : Chainstate) (db : database) :
  storage c = Some db -> 0 <= cs_height c ->
  exists r, Chainstate.canonical_blocks (S (Z.to_nat (cs_height c))) c = Some r /\
    forall bs, r = Ok bs -> descends (cs_tip_hash c) (cs_height c) (reverse bs).
Proof.
  intros Hst Hh. unfold Chainstate.canonical_blocks. rewrite Hst.
  destruct (walk_back_descends db (S (Z.to_nat (cs_height c))) (cs_tip_hash c) (cs_height c) [])
    as (r & Hr & Hbs); [lia|].
  exists r. split; [done|]. intros bs Heq. destruct (Hbs bs Heq) as (l & -> & Hl).
  by rewrite app_nil_l, reverse_involutive.
Qed.

End chain.

(** ** Witnesses *)

(** A database that accepts everything and finds nothing. *)
Definition null_database : Database :=
  {| database := unit; BlockPruneReport := unit;
     commit_chainstate := fun db _ _ _ => (db, Ok tt);
     replace_chainstate := fun db _ _ _ => (db, Ok tt);
     prune_archived_blocks := fun db _ _ => (db, Ok tt);
     load_block := fun _ _ => Ok None;
     load_block_record := fun _ _ => Ok None;
     load_block_hash_by_height := fun _ _ => Ok None;
     load_transaction := fun _ _ => Ok None |}.
Definition no_env : Env := {| prune_depth_override := None; max_reorg_depth_override := None |}.
(** Regnet's first block: a coinbase, mined on the genesis block with SHA3-384. *)
Definition first_block : Block :=
  let txs := [reward_coinbase 1 0] in
  Block.new (H:=Keccak.sha3_inst)
    {| h_version := 1; network_id := Regnet; height := 1; previous_block_hash := REGNET_GENESIS_BLOCK_HASH;
       h_merkle_root := merkle_root (H:=Keccak.sha3_inst) txs;
       h_witness_root := witness_root (H:=Keccak.sha3_inst) txs;
       founders_hash_sha3_384 := FOUNDERS_HASH_SHA3_384; founders_hash_sha3_512 := FOUNDERS_HASH_SHA3_512;
       timestamp := 1773360589; difficulty_target_or_bits := sample_target; nonce := 153447 |} txs.
Definition regnet_fresh : Chainstate (H:=null_database) :=
  Chainstate.fresh_with_storage (Hs:=Keccak.sha3_inst) (Hg:=keccak_genesis_ready) (Hd:=null_database) Regnet (Some tt).
Definition regnet_connect : Chainstate (H:=null_database) * result StorageError unit :=
  Chainstate.connect_block (Hs:=Keccak.sha3_inst) (Hf:=accepting_falcon) (Hd:=null_database)
    no_env 1773360589 regnet_fresh first_block.

Lemma first_block_undoable : undoable (Hs:=Keccak.sha3_inst) (cs_utxos regnet_fresh) first_block.
Proof.
  split; [apply (bool_decide_unpack _); by vm_compute|].
  intros cb Hcb. assert (cb = reward_coinbase 1 0) as -> by by injection Hcb.
  by vm_compute.
Qed.

Lemma regnet_connects :
  Chainstate.connect_block (Hs:=Keccak.sha3_inst) (Hf:=accepting_falcon) (Hd:=null_database)
    no_env 1773360589 regnet_fresh first_block = (regnet_connect.1, Ok tt).
Proof. unfold regnet_connect. apply pair_snd. by vm_compute. Qed.

Definition regnet_disconnect : Chainstate (H:=null_database) * result StorageError unit :=
  Chainstate.disconnect_last_block (Hs:=Keccak.sha3_inst) (Hd:=null_database) regnet_connect.1.
Lemma regnet_disconnects :
  Chainstate.disconnect_last_block (Hs:=Keccak.sha3_inst) (Hd:=null_database) regnet_connect.1
  = (regnet_disconnect.1, Ok tt).
Proof. unfold regnet_disconnect. apply pair_snd. by vm_compute. Qed.

Lemma supply_is_issuance_witness :
  UtxoSet.total_value (us_entries (cs_utxos regnet_connect.1))
  = total_rewards_below (cs_height regnet_connect.1 + 1).
Proof.
  refine (proj1 (proj2 (supply_is_issuance (Hs:=Keccak.sha3_inst) (Hf:=accepting_falcon) (Hg:=keccak_genesis_ready)
    (Hd:=null_database) no_env Regnet (Some tt) regnet_connect.1 _))).
  apply rtc_once. refine (step_connect _ _ regnet_fresh _ _ _ first_block_undoable _ regnet_connects).
  apply Z.ltb_lt. by vm_compute.
Defined.


Lemma memory_heights `{Hs : Sha3, Hd : Database} c :
  storage c = None -> Forall (fun b => 0 <= height (header b)) (cs_blocks c) ->
  forall hash h, Chainstate.known_block_height c hash = Some h -> 0 <= h.
Proof.
  intros Hst Hall hash h Hk. unfold Chainstate.known_block_height in Hk.
  destruct (block_index_by_hash c !! hash) as [i|]; [|by rewrite Hst in Hk].
  destruct (cs_blocks c !! i) as [b|] eqn:Hb; [|done]. injection Hk as <-.
  rewrite Forall_forall in Hall. apply Hall. by eapply list_elem_of_lookup_2.
Qed.

Definition regnet_memory : Chainstate (H:=null_database) :=
  Chainstate.fresh (Hs:=Keccak.sha3_inst) (Hg:=keccak_genesis_ready) (Hd:=null_database) Regnet.
Definition regnet_selected : Chainstate (H:=null_database) * result StorageError ChainSelectionResult :=
  Chainstate.select_branch_with_max_reorg_depth (Hs:=Keccak.sha3_inst) (Hf:=accepting_falcon)
    (Hg:=keccak_genesis_ready) (Hd:=null_database) no_env 1773360589 regnet_memory ([] ++ [first_block]) 100.

Lemma select_branch_prefers_witness : tip_is (Hs:=Keccak.sha3_inst) regnet_selected.1 first_block.
Proof.
  refine (proj2 (proj2 (select_branch_prefers (Hs:=Keccak.sha3_inst) (Hf:=accepting_falcon)
    (Hg:=keccak_genesis_ready) (Hd:=null_database) no_env 1773360589 regnet_memory [] first_block 100
    regnet_selected.1 (Ok {| outcome := Extended; disconnected := [] |}) _ _ _) _ eq_refl) _).
  - apply (memory_heights (Hs:=Keccak.sha3_inst)); [done|]. repeat constructor. apply Z.leb_le. by vm_compute.
  - apply Z.leb_le. by vm_compute.
  - unfold regnet_selected. apply pair_snd. by vm_compute.
  - done.
Defined.

(** An archive that answers with the transaction behind [sample_entry]. *)
Definition archive_tx : Transaction :=
  {| version := 1; inputs := inputs (sample_tx [] 0);
     outputs := [{| value_atoms := 1; locking_script := [] |}; {| value_atoms := 60; locking_script := [x01; x02] |}];
     lock_time := 0; witness := []; tx_pow_nonce := 0; tx_pow_bits := 0 |}.
Definition archive_database : Database :=
  {| database := unit; BlockPruneReport := unit;
     commit_chainstate := fun db _ _ _ => (db, Ok tt);
     replace_chainstate := fun db _ _ _ => (db, Ok tt);
     prune_archived_blocks := fun db _ _ => (db, Ok tt);
     load_block := fun _ _ => Ok None;
     load_block_record := fun _ _ => Ok None;
     load_block_hash_by_height := fun _ _ => Ok None;
     load_transaction := fun _ _ => Ok (Some (1, archive_tx)) |}.

Lemma reconstructed_undo_exact_witness :
  match UtxoSet.apply_block (H:=Keccak.sha3_inst) sample_set spending_block with
  | (_, Ok undo) => Chainstate.reconstruct_block_undo_from_storage (Hs:=Keccak.sha3_inst)
                      (Hd:=archive_database) Regnet tt spending_block = Ok undo
  | _ => False
  end.
Proof.
  pose proof (fun s' undo => reconstructed_undo_exact (Hs:=Keccak.sha3_inst) (Hd:=archive_database) tt sample_set
    spending_block s' undo sample_set_wf) as Hr.
  assert (match (UtxoSet.apply_block (H:=Keccak.sha3_inst) sample_set spending_block).2 with
          | Ok undo => bool_decide (spent undo = [sample_entry]) | Err _ => false end = true) as Hok by by vm_compute.
  destruct (UtxoSet.apply_block _ _) as [s' [undo|err]]; [|done].
  apply (Hr s' undo eq_refl). apply bool_decide_eq_true in Hok. rewrite Hok. repeat constructor.
  by exists archive_tx, {| value_atoms := 60; locking_script := [x01; x02] |}.
Defined.

Lemma canonical_blocks_walk_witness :
  exists r, Chainstate.canonical_blocks (Hs:=Keccak.sha3_inst) 1 regnet_fresh = Some r.
Proof.
  destruct (canonical_blocks_walk (Hs:=Keccak.sha3_inst) regnet_fresh tt) as (r & Hr & _).
  - by vm_compute.
  - apply Z.leb_le. by vm_compute.
  - exists r. replace (S (Z.to_nat (cs_height regnet_fresh))) with 1%nat in Hr by by vm_compute. exact Hr.
Defined.
