(* ===== verification/Db.v ===== *)
(** * The database

    crates/atho-storage/src/db.rs: the tables behind the chain state in an LMDB
    environment ([Lmdb]) next to the raw blocks in files ([BlockFiles]), with the
    commit journal that marks an unfinished write. Each write is one transaction.
    The serializer of the records is the class [DbSerde]; the clock, what the disk
    does and the environment variables are arguments. Every write returns the
    database it leaves behind, on errors too; [None] means that it did not return. *)
From stdpp Require Import options.
From S2P Require Import Prelude Bytes Text Constants Crypto Keccak Network Rules Transaction Block.
From S2P Require Import Pow Genesis Errors Utxo Validation BlockValidation Lmdb BlockFiles Chainstate.

#[local] Set Default Proof Using "Type*".

(** ** Records *)

(* src: db.rs:79-112 BlockArchiveRecord *)
Record BlockArchiveRecord := {
  r_height : Z;
  r_block_hash : bytes;
  r_previous_block_hash : bytes;
  r_network : Network;
  r_version : Z;
  r_merkle_root : bytes;
  r_witness_root : bytes;
  r_timestamp : Z;
  r_target : bytes;
  r_nonce : Z;
  r_file_number : Z;
  r_record_offset : Z;
  r_payload_length : Z;
  raw_block_size : Z;
  r_weight_bytes : Z;
  r_vsize_bytes : Z;
  tx_count : Z;
  r_fees_total_atoms : Z;
  r_fees_miner_atoms : Z;
  r_chainwork : bytes;
  fully_validated : bool;
  main_chain : bool;
  pruned : bool;
  persisted_unix : Z;
}.
#[global] Instance BlockArchiveRecord_eq_dec : EqDecision BlockArchiveRecord.
Proof. solve_decision. Defined.
Module BlockArchiveRecord.
(* src: db.rs:115-130 BlockArchiveRecord::header *)
Definition header (r : BlockArchiveRecord) : BlockHeader :=
  {| h_version := r_version r; network_id := r_network r; height := r_height r;
     previous_block_hash := r_previous_block_hash r; h_merkle_root := r_merkle_root r;
     h_witness_root := r_witness_root r;
     founders_hash_sha3_384 := BlockHeader.consensus_founders_hash_sha3_384;
     founders_hash_sha3_512 := BlockHeader.consensus_founders_hash_sha3_512;
     timestamp := r_timestamp r; difficulty_target_or_bits := r_target r; nonce := r_nonce r |}.
(* src: db.rs:132-139 BlockArchiveRecord::file_location *)
Definition file_location (r : BlockArchiveRecord) : BlockFileLocation :=
  {| file_number := r_file_number r; record_offset := r_record_offset r; payload_length := r_payload_length r |}.
Definition with_main_chain (r : BlockArchiveRecord) (flag : bool) : BlockArchiveRecord :=
  {| r_height := r_height r; r_block_hash := r_block_hash r; r_previous_block_hash := r_previous_block_hash r;
     r_network := r_network r; r_version := r_version r; r_merkle_root := r_merkle_root r;
     r_witness_root := r_witness_root r; r_timestamp := r_timestamp r; r_target := r_target r;
     r_nonce := r_nonce r; r_file_number := r_file_number r; r_record_offset := r_record_offset r;
     r_payload_length := r_payload_length r; raw_block_size := raw_block_size r;
     r_weight_bytes := r_weight_bytes r; r_vsize_bytes := r_vsize_bytes r; tx_count := tx_count r;
     r_fees_total_atoms := r_fees_total_atoms r; r_fees_miner_atoms := r_fees_miner_atoms r;
     r_chainwork := r_chainwork r; fully_validated := fully_validated r; main_chain := flag;
     pruned := pruned r; persisted_unix := persisted_unix r |}.
Definition with_pruned (r : BlockArchiveRecord) : BlockArchiveRecord :=
  {| r_height := r_height r; r_block_hash := r_block_hash r; r_previous_block_hash := r_previous_block_hash r;
     r_network := r_network r; r_version := r_version r; r_merkle_root := r_merkle_root r;
     r_witness_root := r_witness_root r; r_timestamp := r_timestamp r; r_target := r_target r;
     r_nonce := r_nonce r; r_file_number := r_file_number r; r_record_offset := r_record_offset r;
     r_payload_length := r_payload_length r; raw_block_size := raw_block_size r;
     r_weight_bytes := r_weight_bytes r; r_vsize_bytes := r_vsize_bytes r; tx_count := tx_count r;
     r_fees_total_atoms := r_fees_total_atoms r; r_fees_miner_atoms := r_fees_miner_atoms r;
     r_chainwork := r_chainwork r; fully_validated := fully_validated r; main_chain := main_chain r;
     pruned := true; persisted_unix := persisted_unix r |}.
End BlockArchiveRecord.

(* src: db.rs:142-152 TransactionArchiveRecord *)
Record TransactionArchiveRecord := {
  t_height : Z; t_block_hash : bytes; t_tx_index : Z; t_txid : bytes; t_transaction : Transaction;
}.
(* src: db.rs:154-159 BlockTransactionsRecord *)
Record BlockTransactionsRecord := { o_height : Z; o_txids : list bytes }.
(* src: db.rs:161-170 BlockPruneReport *)
Record PruneReport := {
  tip_height : Z; report_depth : Z; eligible_height : option Z;
  pruned_files : list Z; pruned_blocks : Z; reclaimed_bytes : Z;
}.
(* src: db.rs:172-180 PeerRecord *)
Record PeerRecord := {
  pr_network : Network; pr_remote_addr : bytes; pr_first_seen_height : Z; pr_last_seen_height : Z; pr_last_seen_unix : Z;
}.
(* src: db.rs:182-190 AddressRecord *)
Record AddressRecord := {
  ar_network : Network; ar_address : bytes; ar_label : option bytes; ar_first_seen_height : Z; ar_last_seen_height : Z;
}.
(* src: db.rs:192-202 PeerHealthRecord *)
Record PeerHealthRecord := {
  ph_network : Network; ph_remote_addr : bytes; ph_quality_score : Z; ph_consecutive_failures : Z;
  ph_backoff_until_unix : Z; ph_last_failure_unix : option Z; ph_last_success_unix : option Z;
}.
(* src: db.rs:204-222 StorageMetadata *)
Record StorageMetadata := {
  storage_magic : bytes; network_magic : bytes; network_name : bytes; chain_id : bytes;
  m_genesis_hash : bytes; genesis_block_id : bytes; database_schema_version : Z;
  software_storage_version : Z; created_at_unix : Z; last_opened_unix : Z;
}.
(* src: db.rs:224-231 StorageRuntimeState *)
Record StorageRuntimeState := {
  last_clean_shutdown : bool; last_runtime_started_unix : Z; last_shutdown_unix : Z; last_recovery_check_unix : Z;
}.
#[global] Instance ChainstateSnapshot_eq_dec : EqDecision ChainstateSnapshot.
Proof. solve_decision. Defined.
#[global] Instance TransactionArchiveRecord_eq_dec : EqDecision TransactionArchiveRecord.
Proof. solve_decision. Defined.
#[global] Instance BlockTransactionsRecord_eq_dec : EqDecision BlockTransactionsRecord.
Proof. solve_decision. Defined.
#[global] Instance StorageMetadata_eq_dec : EqDecision StorageMetadata.
Proof. solve_decision. Defined.
#[global] Instance StorageRuntimeState_eq_dec : EqDecision StorageRuntimeState.
Proof. solve_decision. Defined.

(** A serializer for every record. *)
Class DbSerde := {
  ds_snapshot :: Serde ChainstateSnapshot;
  ds_block :: Serde BlockArchiveRecord;
  ds_transaction :: Serde TransactionArchiveRecord;
  ds_order :: Serde BlockTransactionsRecord;
  ds_utxo :: Serde UtxoEntry;
  ds_metadata :: Serde StorageMetadata;
  ds_runtime :: Serde StorageRuntimeState;
  ds_peer :: Serde PeerRecord;
  ds_address :: Serde AddressRecord;
  ds_health :: Serde PeerHealthRecord;
}.
Class DbSerdeLaws `{DbSerde} : Prop := {
  dl_snapshot :: SerdeLaws ChainstateSnapshot;
  dl_block :: SerdeLaws BlockArchiveRecord;
  dl_transaction :: SerdeLaws TransactionArchiveRecord;
  dl_order :: SerdeLaws BlockTransactionsRecord;
  dl_utxo :: SerdeLaws UtxoEntry;
  dl_metadata :: SerdeLaws StorageMetadata;
  dl_runtime :: SerdeLaws StorageRuntimeState;
  dl_peer :: SerdeLaws PeerRecord;
  dl_address :: SerdeLaws AddressRecord;
  dl_health :: SerdeLaws PeerHealthRecord;
}.

(** ** Keys and values *)

(* src: db.rs:60-60 SNAPSHOT_KEY *)
Definition SNAPSHOT_KEY : bytes := str_bytes "chainstate".
(* src: db.rs:61-61 SCHEMA_VERSION_KEY *)
Definition SCHEMA_VERSION_KEY : bytes := str_bytes "schema_version".
(* src: db.rs:62-62 STORAGE_METADATA_KEY *)
Definition STORAGE_METADATA_KEY : bytes := str_bytes "storage_metadata".
(* src: db.rs:63-63 STORAGE_RUNTIME_STATE_KEY *)
Definition STORAGE_RUNTIME_STATE_KEY : bytes := str_bytes "storage_runtime_state".
(* src: db.rs:64-64 STORAGE_MAGIC *)
Definition STORAGE_MAGIC : bytes := str_bytes "ATHO".
(* src: db.rs:65-65 SOFTWARE_STORAGE_VERSION *)
Definition SOFTWARE_STORAGE_VERSION : Z := 1.
(* src: db.rs:39-39 INITIAL_MAP_SIZE *)
Definition INITIAL_MAP_SIZE : Z := 2 ^ 30.

(* src: db.rs:1665-1667 height_key *)
Definition height_key (h : Z) : bytes := be_u64 h.
(* src: db.rs:1669-1674 utxo_key *)
Definition utxo_key (txid : bytes) (output_index : Z) : bytes := txid ++ be_u32 output_index.

(** [BigUint::to_bytes_be]: no leading zero byte, and one byte for zero. *)
Definition biguint_bytes (z : Z) : bytes := be_bytes (S (Z.to_nat (Z.log2 z / 8))) z.

Definition serialize_record {A} `{Serde A} (a : A) : result StorageError bytes := ok_or (serialize_value a) CorruptData.
(* src: db.rs:1622-1627 deserialize_record *)
Definition deserialize_record {A} `{Serde A} (bs : bytes) : result StorageError A :=
  ok_or (deserialize_value bs) CorruptData.
(** A stored value, if there is one. *)
Definition decode_stored {A} `{Serde A} (o : option bytes) : result StorageError (option A) :=
  match o with None => Ok None | Some bs => Some <$> deserialize_record bs end.

(** [<[u8; 48]>::try_from]. *)
Definition hash_of_bytes (bs : bytes) : result StorageError bytes :=
  if Nat.eqb (length bs) 48 then Ok bs else Err CorruptData.

(* src: db.rs:1629-1634 configured_prune_target_bytes *)
Definition configured_prune_target_bytes `{ProcessEnv} : option Z :=
  raw ← env_var "ATHO_PRUNE_TARGET_BYTES"; value ← parse_uint U64_MAX (trim raw);
  if 0 <? value then Some value else None.
(* src: db.rs:1636-1642 configured_db_cache_bytes *)
Definition configured_db_cache_bytes `{ProcessEnv} : Z :=
  match raw ← env_var "ATHO_DB_CACHE_BYTES"; parse_uint USIZE_MAX (trim raw) with
  | Some value => clamp value (64 * 1024 * 1024) MAX_MAP_SIZE
  | None => INITIAL_MAP_SIZE
  end.

(** ** Inside a transaction *)

Section transactions.
Context `{Hs : Sha3, Hl : LmdbStore, Hd : DbSerde}.

(* src: db.rs:1610-1620 load_block_record_from_txn *)
Definition load_block_record_from_txn (block_hash : bytes) : txm (option BlockArchiveRecord) :=
  o ← get_in Blocks block_hash; txm_of (decode_stored o).

(* src: db.rs:1422-1447 write_block_archive (record) *)
Definition archive_record (network : Network) (h : Z) (b : Block) (location : BlockFileLocation) (work now : Z) :
    BlockArchiveRecord :=
  let hd := header b in
  {| r_height := h; r_block_hash := BlockHeader.block_hash hd; r_previous_block_hash := previous_block_hash hd;
     r_network := network; r_version := h_version hd; r_merkle_root := h_merkle_root hd;
     r_witness_root := h_witness_root hd; r_timestamp := timestamp hd; r_target := difficulty_target_or_bits hd;
     r_nonce := nonce hd; r_file_number := file_number location; r_record_offset := record_offset location;
     r_payload_length := payload_length location; raw_block_size := Block.full_size_bytes b mod 2 ^ 32;
     r_weight_bytes := Block.weight_bytes b mod 2 ^ 32; r_vsize_bytes := Block.vsize_bytes b mod 2 ^ 32;
     tx_count := zlen (transactions b) mod 2 ^ 32; r_fees_total_atoms := fees_total_atoms b;
     r_fees_miner_atoms := fees_miner_atoms b; r_chainwork := biguint_bytes work; fully_validated := true;
     main_chain := true; pruned := false; persisted_unix := now |}.

Definition put_transaction (h : Z) (block_hash : bytes) (itx : Z * Transaction) : txm unit :=
  let '(i, tx) := itx in
  let txid := Transaction.txid tx in
  value ← txm_of (serialize_record {| t_height := h; t_block_hash := block_hash; t_tx_index := i mod 2 ^ 32;
                                      t_txid := txid; t_transaction := tx |});
  put_in Transactions txid value.

(* src: db.rs:1393-1484 write_block_archive *)
Definition write_block_archive (now : Z) (network : Network) (h : Z) (b : Block) (location : BlockFileLocation) :
    txm unit :=
  let block_hash := BlockHeader.block_hash (header b) in
  existing ← peek_in Blocks block_hash;
  match existing with
  | Some bs =>
      existing ← txm_of (deserialize_record bs);
      txm_of (if (r_height existing =? h) && bool_decide (r_block_hash existing = block_hash)
              then Ok tt else Err CorruptData)
  | None =>
      let work := block_proof_work (difficulty_target_or_bits (header b)) in
      work ← (if h =? 0 then mret work
              else previous ← load_block_record_from_txn (previous_block_hash (header b));
                   previous ← txm_of (ok_or previous IncompleteBlockHistory);
                   mret (be_decode (r_chainwork previous) + work));
      value ← txm_of (serialize_record (archive_record network h b location work now));
      _ ← put_in Blocks block_hash value;
      _ ← put_in BlockHeights (height_key h) block_hash;
      _ ← for_in (enumerate (transactions b)) (put_transaction h block_hash);
      order ← txm_of (serialize_record {| o_height := h; o_txids := Transaction.txid <$> transactions b |});
      put_in BlockTransactions block_hash order
  end.

Definition put_new_utxo (entry : UtxoEntry) : txm unit :=
  let key := utxo_key (u_txid entry) (u_output_index entry) in
  existing ← get_in Utxos key;
  match existing with
  | Some _ => txm_of (Err DuplicateUtxo)
  | None => value ← txm_of (serialize_record entry); put_in Utxos key value
  end.
(* src: db.rs:1486-1533 apply_utxo_delta *)
Definition apply_utxo_delta (network : Network) (b : Block) : txm unit :=
  for_in (transactions b) (fun tx =>
    _ ← for_in (inputs tx) (fun i => del_in Utxos (utxo_key (previous_txid i) (output_index i)));
    for_in (UtxoSet.create_outputs tx network (height (header b))) put_new_utxo).

(* src: db.rs:1644-1653 clear_db *)
Definition clear_db (ds : Dataset) : txm unit :=
  rows ← iter_in ds; for_in rows (fun row => try_del_in ds row.1).

(* src: db.rs:1579-1590 current_main_chain_hashes *)
Definition current_main_chain_hashes : txm (gset bytes) :=
  rows ← iter_in BlockHeights;
  hashes ← txm_of (try_map (fun row => hash_of_bytes row.2) rows);
  mret (list_to_set hashes).

(* src: db.rs:1592-1608 update_main_chain_flag *)
Definition update_main_chain_flag (block_hash : bytes) (flag : bool) : txm unit :=
  record ← load_block_record_from_txn block_hash;
  record ← txm_of (ok_or record IncompleteBlockHistory);
  if Bool.eqb (main_chain record) flag then mret tt
  else
    value ← txm_of (serialize_record (BlockArchiveRecord.with_main_chain record flag));
    put_in Blocks block_hash value.

(** The walk from [record] down; [None] if it has not reached height 0 after
    [rounds] more blocks. *)
(* src: db.rs:1549-1569 rebuild_height_index (loop) *)
Fixpoint index_loop (rounds : nat) (record : BlockArchiveRecord) (seen : gset bytes) : txm (gset bytes) :=
  _ ← put_in BlockHeights (height_key (r_height record)) (r_block_hash record);
  let seen := {[r_block_hash record]} ∪ seen in
  _ ← (if main_chain record then mret tt else update_main_chain_flag (r_block_hash record) true);
  if r_height record =? 0 then mret seen
  else
    match rounds with
    | O => never
    | S rounds =>
        record ← load_block_record_from_txn (r_previous_block_hash record);
        record ← txm_of (ok_or record IncompleteBlockHistory);
        index_loop rounds record seen
    end.
(** The walk passes as many blocks below the tip as the tip is high
    ([DbReturns.commit_returns]). *)
(* src: db.rs:1535-1577 rebuild_height_index *)
Definition rebuild_height_index (tip_hash : bytes) : txm unit :=
  old_main_chain ← current_main_chain_hashes;
  _ ← clear_db BlockHeights;
  if bool_decide (tip_hash = zeros 48) then
    for_in (sorted_elements bytes_le old_main_chain) (fun hash => update_main_chain_flag hash false)
  else
    record ← load_block_record_from_txn tip_hash;
    record ← txm_of (ok_or record IncompleteBlockHistory);
    new_main_chain ← index_loop (Z.to_nat (r_height record)) record ∅;
    for_in (filter (fun hash => hash ∉ new_main_chain) (sorted_elements bytes_le old_main_chain))
      (fun hash => update_main_chain_flag hash false).
End transactions.

(** ** The handle *)

(** What the disk does during a call: the begin of the journal fails, before
    or after the file is in place; each append writes only so many bytes; the removal of
    the journal fails; the reset of the archive fails; deleting a file of the archive fails. *)
Record DiskFaults := {
  journal_begin_fails : option bool;
  append_fails : list (option nat);
  journal_removal_fails : bool;
  reset_fails : option BlockFileStore.ResetFault;
  delete_fails : list bool;
}.
Definition no_faults : DiskFaults :=
  {| journal_begin_fails := None; append_fails := []; journal_removal_fails := false; reset_fails := None; delete_fails := [] |}.

(** The handle with what it has on disk; of the journal only that it is there. *)
(* src: db.rs:262-269 Database *)
Record Db `{LmdbStore} := {
  db_network : Network;
  block_store : BlockFileStore;
  db_state : DatabaseState;
  commit_journal : bool;
}.

Module Db.
Section db.
Context `{Hs : Sha3, Hl : LmdbStore, Hd : DbSerde, Henv : ProcessEnv}.

Definition with_store (db : Db) (s : BlockFileStore) : Db :=
  {| db_network := db_network db; block_store := s; db_state := db_state db; commit_journal := commit_journal db |}.
Definition with_state (db : Db) (s : DatabaseState) : Db :=
  {| db_network := db_network db; block_store := block_store db; db_state := s; commit_journal := commit_journal db |}.
Definition with_journal (db : Db) (there : bool) : Db :=
  {| db_network := db_network db; block_store := block_store db; db_state := db_state db; commit_journal := there |}.

(* src: db.rs:1153-1161 Database::get *)
Definition get (db : Db) (ds : Dataset) (k : bytes) : result StorageError (option bytes) :=
  absent_is_none (env_get (env (db_state db)) ds k).
(* src: db.rs:1163-1172 Database::entries *)
Definition entries (db : Db) (ds : Dataset) : result StorageError (list (bytes * bytes)) :=
  map_lmdb_err (env_iter (env (db_state db)) ds).
Definition run_write {A} (db : Db) (body : txm A) : option (Db * result StorageError A) :=
  '(s, r) ← write (db_state db) body; Some (with_state db s, r).
(* src: db.rs:1174-1181 Database::put *)
Definition put (db : Db) (ds : Dataset) (k v : bytes) : option (Db * result StorageError unit) :=
  run_write db (put_in ds k v).
Definition put_value {A} `{Serde A} (db : Db) (ds : Dataset) (k : bytes) (a : A) : option (Db * result StorageError unit) :=
  match serialize_record a with
  | Err e => Some (db, Err e)
  | Ok v => put db ds k v
  end.
Definition load {A} `{Serde A} (db : Db) (ds : Dataset) (k : bytes) : result StorageError (option A) :=
  o ← get db ds k; decode_stored o.
Definition list_values (A : Type) `{Serde A} (db : Db) (ds : Dataset) : result StorageError (list A) :=
  rows ← entries db ds; try_map (fun row => deserialize_record row.2) rows.

(* src: db.rs:330-339 Database::load_chainstate_snapshot *)
Definition load_chainstate_snapshot (db : Db) : result StorageError (option ChainstateSnapshot) :=
  load db Meta SNAPSHOT_KEY.
(* src: db.rs:341-346 Database::load_storage_metadata *)
Definition load_storage_metadata (db : Db) : result StorageError (option StorageMetadata) :=
  load db Meta STORAGE_METADATA_KEY.
(* src: db.rs:348-353 Database::load_runtime_state *)
Definition load_runtime_state (db : Db) : result StorageError (option StorageRuntimeState) :=
  load db Meta STORAGE_RUNTIME_STATE_KEY.
(* src: db.rs:377-386 Database::load_block_record *)
Definition load_block_record (db : Db) (block_hash : bytes) : result StorageError (option BlockArchiveRecord) :=
  load db Blocks block_hash.
(* src: db.rs:388-398 Database::load_block_hash_by_height *)
Definition load_block_hash_by_height (db : Db) (h : Z) : result StorageError (option bytes) :=
  o ← get db BlockHeights (height_key h);
  match o with None => Ok None | Some bs => Some <$> hash_of_bytes bs end.
(* src: db.rs:400-409 Database::load_block_record_by_height *)
Definition load_block_record_by_height (db : Db) (h : Z) : result StorageError (option BlockArchiveRecord) :=
  hash ← load_block_hash_by_height db h;
  match hash with None => Ok None | Some hash => load_block_record db hash end.
(* src: db.rs:458-467 Database::load_transaction *)
Definition load_transaction (db : Db) (txid : bytes) : result StorageError (option TransactionArchiveRecord) :=
  load db Transactions txid.
(* src: db.rs:469-496 Database::load_block_transactions *)
Definition load_block_transactions (db : Db) (block_hash : bytes) :
    result StorageError (list TransactionArchiveRecord) :=
  order ← load (A:=BlockTransactionsRecord) db BlockTransactions block_hash;
  match order with
  | None => Ok []
  | Some order =>
      try_map (fun it =>
          txid ← hash_of_bytes it.2;
          tx ← load_transaction db txid;
          tx ← ok_or tx IncompleteBlockHistory;
          reject negb (t_tx_index tx =? it.1 mod 2 ^ 32) || negb (bool_decide (t_block_hash tx = block_hash))
                 || negb (t_height tx =? o_height order) with CorruptData;
          Ok tx)
        (enumerate (o_txids order))
  end.
(* src: db.rs:498-503 Database::can_rebuild_from_index_after_raw_read_error *)
Definition can_rebuild_from_index_after_raw_read_error (kind : IoKind) : bool :=
  match kind with FileNotFound | UnexpectedEof => true | OtherIo => false end.
Definition with_fees (b : Block) (r : BlockArchiveRecord) : Block :=
  {| header := header b; transactions := transactions b; witnesses := witnesses b;
     fees_total_atoms := r_fees_total_atoms r; fees_miner_atoms := r_fees_miner_atoms r |}.
(** The raw block, [Ok None] where the code falls through to the index. *)
(* src: db.rs:420-440 Database::load_block (raw) *)
Definition load_raw_block (db : Db) (r : BlockArchiveRecord) : result StorageError (option Block) :=
  if pruned r then Ok None
  else
    match BlockFileStore.read_block (block_store db) (BlockArchiveRecord.file_location r) with
    | Ok b =>
        if negb (bool_decide (BlockHeader.block_hash (header b) = r_block_hash r)) || negb (height (header b) =? r_height r)
        then Ok None else Ok (Some (with_fees b r))
    | Err (Io kind) => if can_rebuild_from_index_after_raw_read_error kind then Ok None else Err (Io kind)
    | Err CorruptData | Err CrossNetworkReplay => Ok None
    | Err e => Err e
    end.
(* src: db.rs:411-456 Database::load_block *)
Definition load_block (db : Db) (block_hash : bytes) : result StorageError (option Block) :=
  record ← load_block_record db block_hash;
  match record with
  | None => Ok None
  | Some record =>
      raw ← load_raw_block db record;
      match raw with
      | Some b => Ok (Some b)
      | None =>
          txs ← load_block_transactions db (r_block_hash record);
          reject negb (zlen txs =? tx_count record) with IncompleteBlockHistory;
          Ok (Some (with_fees (Block.new (BlockArchiveRecord.header record) (t_transaction <$> txs)) record))
      end
  end.
Definition record_compare (l r : BlockArchiveRecord) : comparison :=
  then_with (Z.compare (r_height l) (r_height r)) (bytes_compare (r_block_hash l) (r_block_hash r)).
Definition record_le (l r : BlockArchiveRecord) : Prop := record_compare l r <> Gt.
#[global] Instance record_le_dec l r : Decision (record_le l r).
Proof. unfold record_le. apply _. Defined.
(* src: db.rs:505-517 Database::list_block_records *)
Definition list_block_records (db : Db) : result StorageError (list BlockArchiveRecord) :=
  records ← list_values BlockArchiveRecord db Blocks; Ok (merge_sort record_le records).
(* src: db.rs:322-328 Database::has_pruned_blocks *)
Definition has_pruned_blocks (db : Db) : result StorageError bool :=
  records ← list_block_records db; Ok (existsb pruned records).
(* src: db.rs:519-528 Database::load_utxos *)
Definition load_utxos (db : Db) : result StorageError (list UtxoEntry) := list_values UtxoEntry db Utxos.

(** *** Writing *)

(* src: db.rs:1356-1381 CommitJournalGuard::begin *)
Definition begin_journal (faults : DiskFaults) (db : Db) : Db * result StorageError unit :=
  match journal_begin_fails faults with
  | None => (with_journal db true, Ok tt)
  | Some in_place => (with_journal db (commit_journal db || in_place), Err (Io OtherIo))
  end.
(* src: db.rs:1383-1390 CommitJournalGuard::finish *)
Definition finish_journal (faults : DiskFaults) (db : Db) : Db * result StorageError unit :=
  if journal_removal_fails faults then (db, Err (Io OtherIo)) else (with_journal db false, Ok tt).

(* src: db.rs:1263-1274 Database::archive_append_file_hint *)
Definition archive_append_file_hint (db : Db) : result StorageError (option Z) :=
  match BlockFileStore.highest_file_number (block_store db) with
  | Some _ => Ok None
  | None =>
      records ← list_block_records db;
      Ok ((fun n => saturating_add U64_MAX n 1) <$> foldl BlockFileStore.raise None (r_file_number <$> records))
  end.
(** The raw block goes to the archive unless its record is there: where it went. *)
(* src: db.rs:722-739 Database::commit_chainstate (archive) *)
Definition archive_append (faults : DiskFaults) (db : Db) (b : Block) :
    Db * result StorageError (option BlockFileLocation) :=
  if negb (bool_decide (network_id (header b) = db_network db)) then (db, Err CrossNetworkReplay)
  else
    match (record ← load_block_record db (BlockHeader.block_hash (header b));
           match record with
           | Some _ => Ok None
           | None => hint ← archive_append_file_hint db; Ok (Some hint)
           end) with
    | Err e => (db, Err e)
    | Ok None => (db, Ok None)
    | Ok (Some hint) =>
        let '(s, r) := BlockFileStore.append_block_with_minimum_file_number (block_store db) b hint
                         (default None (head (append_fails faults))) in
        (with_store db s, Some <$> r)
    end.
Definition archive_appended (faults : DiskFaults) (db : Db) (appended : option (Z * Block)) :
    Db * result StorageError (option BlockFileLocation) :=
  match appended with
  | None => (db, Ok None)
  | Some (_, b) => archive_append faults db b
  end.
(* src: db.rs:539-557 Database::append_block *)
Definition append_block (now : Z) (faults : DiskFaults) (db : Db) (h : Z) (b : Block) :
    option (Db * result StorageError unit) :=
  match archive_append faults db b with
  | (db, Err e) => Some (db, Err e)
  | (db, Ok None) => Some (db, Ok tt)
  | (db, Ok (Some location)) => run_write db (write_block_archive now (db_network db) h b location)
  end.

Definition serialize_utxo (e : UtxoEntry) : result StorageError (bytes * bytes) :=
  value ← serialize_record e; Ok (utxo_key (u_txid e) (u_output_index e), value).
(* src: db.rs:741-776 Database::commit_chainstate (transaction) *)
Definition commit_body (now : Z) (network : Network) (snapshot : ChainstateSnapshot) (snapshot_value : bytes)
    (utxos : option (list (bytes * bytes))) (appended : option (Z * Block)) (location : option BlockFileLocation) :
    txm unit :=
  _ ← match appended, location with
      | Some (h, b), Some location => write_block_archive now network h b location
      | _, _ => mret tt
      end;
  _ ← put_in Meta SNAPSHOT_KEY snapshot_value;
  match appended, utxos with
  | Some (_, b), _ => apply_utxo_delta network b
  | None, Some utxos =>
      _ ← clear_db Utxos;
      _ ← for_in utxos (fun kv => put_in Utxos kv.1 kv.2);
      rebuild_height_index (snap_tip_hash snapshot)
  | None, None => mret tt
  end.
(* src: db.rs:689-779 Database::commit_chainstate *)
Definition commit_chainstate (now : Z) (faults : DiskFaults) (db : Db) (snapshot : ChainstateSnapshot)
    (utxos : list UtxoEntry) (appended : option (Z * Block)) : option (Db * result StorageError unit) :=
  match begin_journal faults db with
  | (db, Err e) => Some (db, Err e)
  | (db, Ok _) =>
      match (value ← serialize_record snapshot;
             utxos ← match appended with
                     | None => Some <$> try_map serialize_utxo utxos
                     | Some _ => Ok None
                     end;
             Ok (value, utxos)) with
      | Err e => Some (db, Err e)
      | Ok (value, utxos) =>
          match archive_appended faults db appended with
          | (db, Err e) => Some (db, Err e)
          | (db, Ok location) =>
              '(db, r) ← run_write db (commit_body now (db_network db) snapshot value utxos appended location);
              Some match r with
                   | Err e => (db, Err e)
                   | Ok _ => finish_journal faults db
                   end
          end
      end
  end.
(* src: db.rs:530-537 Database::save_chainstate_snapshot *)
Definition save_chainstate_snapshot (now : Z) (faults : DiskFaults) (db : Db) (snapshot : ChainstateSnapshot)
    (utxos : list UtxoEntry) : option (Db * result StorageError unit) :=
  commit_chainstate now faults db snapshot utxos None.

(** The raw archive of a block list, one append per block. *)
(* src: db.rs:804-810 Database::replace_chainstate (archive) *)
Fixpoint archive_all (faults : list (option nat)) (network : Network) (s : BlockFileStore) (bs : list Block) :
    BlockFileStore * result StorageError (list (Z * BlockFileLocation)) :=
  match bs with
  | [] => (s, Ok [])
  | b :: bs =>
      if negb (bool_decide (network_id (header b) = network)) then (s, Err CrossNetworkReplay)
      else
        match BlockFileStore.append_block s b (default None (head faults)) with
        | (s, Err e) => (s, Err e)
        | (s, Ok location) =>
            let '(s, r) := archive_all (tail faults) network s bs in
            (s, archived ← r; Ok ((height (header b), location) :: archived))
        end
  end.
(* src: db.rs:812-844 Database::replace_chainstate (transaction) *)
Definition replace_body (now : Z) (network : Network) (snapshot_value : bytes) (utxos : list (bytes * bytes))
    (archived : list (Z * BlockFileLocation * Block)) : txm unit :=
  _ ← for_in [Blocks; BlockHeights; BlockTransactions; Transactions; Utxos] clear_db;
  _ ← for_in archived (fun a => let '(h, location, b) := a in write_block_archive now network h b location);
  _ ← put_in Meta SNAPSHOT_KEY snapshot_value;
  for_in utxos (fun kv => put_in Utxos kv.1 kv.2).
(* src: db.rs:781-847 Database::replace_chainstate *)
Definition replace_chainstate (now : Z) (faults : DiskFaults) (db : Db) (snapshot : ChainstateSnapshot)
    (utxos : list UtxoEntry) (blocks : list Block) : option (Db * result StorageError unit) :=
  match begin_journal faults db with
  | (db, Err e) => Some (db, Err e)
  | (db, Ok _) =>
      match (value ← serialize_record snapshot; utxos ← try_map serialize_utxo utxos; Ok (value, utxos)) with
      | Err e => Some (db, Err e)
      | Ok (value, utxos) =>
          match BlockFileStore.reset (block_store db) (reset_fails faults) with
          | (s, Err e) => Some (with_store db s, Err e)
          | (s, Ok _) =>
              let '(s, archived) := archive_all (append_fails faults) (db_network db) s blocks in
              let db := with_store db s in
              match archived with
              | Err e => Some (db, Err e)
              | Ok archived =>
                  '(db, r) ← run_write db (replace_body now (db_network db) value utxos (zip archived blocks));
                  Some match r with
                       | Err e => (db, Err e)
                       | Ok _ => finish_journal faults db
                       end
              end
          end
      end
  end.

(** *** Pruning *)

Definition raw_length (r : BlockArchiveRecord) : Z := record_length (BlockArchiveRecord.file_location r).
Definition total_length (rs : list BlockArchiveRecord) : Z := zsum (raw_length <$> rs).
Definition unpruned (rs : list BlockArchiveRecord) : list BlockArchiveRecord :=
  filter (fun r => pruned r = false) rs.
Definition max_height (rs : list BlockArchiveRecord) : Z := foldr Z.max 0 (r_height <$> rs).
Abbreviation files_of := (gmap Z (list BlockArchiveRecord)).
Definition group_by_file (rs : list BlockArchiveRecord) : files_of :=
  foldl (fun m r => <[r_file_number r := default [] (m !! r_file_number r) ++ [r]]> m) ∅ rs.
Definition file_entries (m : files_of) : list (Z * list BlockArchiveRecord) := sorted_entries Z.le m.

(** The files that lie below the cutoff, with what is not pruned yet. *)
(* src: db.rs:584-605 Database::prune_archived_blocks (by height) *)
Definition below_cutoff (cutoff : Z) (files : files_of) : files_of :=
  foldl (fun prune_files '(number, rs) =>
      if cutoff <? max_height rs then prune_files
      else if bool_decide (unpruned rs = []) then prune_files
      else <[number := unpruned rs]> prune_files)
    ∅ (file_entries files).
(** The loop over the files until the archive is small enough. *)
(* src: db.rs:615-644 Database::prune_archived_blocks (by size) *)
Fixpoint prune_to_size (tip max_bytes unpruned_bytes : Z) (files : list (Z * list BlockArchiveRecord))
    (prune_files : files_of) : files_of :=
  match files with
  | [] => prune_files
  | (number, rs) :: files =>
      if unpruned_bytes <=? max_bytes then prune_files
      else if bool_decide (is_Some (prune_files !! number)) || (tip <=? max_height rs) || bool_decide (unpruned rs = [])
      then prune_to_size tip max_bytes unpruned_bytes files prune_files
      else prune_to_size tip max_bytes (saturating_sub unpruned_bytes (total_length (unpruned rs))) files
             (<[number := unpruned rs]> prune_files)
  end.
(** The files to prune. *)
(* src: db.rs:579-645 Database::prune_archived_blocks (choice) *)
Definition choose_files (tip cutoff : Z) (rs : list BlockArchiveRecord) : files_of :=
  let files := group_by_file rs in
  let prune_files := below_cutoff cutoff files in
  match configured_prune_target_bytes with
  | None => prune_files
  | Some max_bytes =>
      let unpruned_bytes := total_length (unpruned (mjoin (file_entries files).*2)) in
      prune_to_size tip max_bytes unpruned_bytes (file_entries files) prune_files
  end.
Definition mark_pruned (r : BlockArchiveRecord) : txm unit :=
  if pruned r then mret tt
  else value ← txm_of (serialize_record (BlockArchiveRecord.with_pruned r)); put_in Blocks (r_block_hash r) value.
(** The files deleted, up to the first that cannot be. *)
(* src: db.rs:682-685 Database::prune_archived_blocks (files) *)
Fixpoint delete_files (fails : list bool) (s : BlockFileStore) (numbers : list Z) : BlockFileStore * result StorageError unit :=
  match numbers with
  | [] => (s, Ok tt)
  | number :: numbers =>
      match BlockFileStore.delete_file s number (default false (head fails)) with
      | (s, Err e) => (s, Err e)
      | (s, Ok _) => delete_files (tail fails) s numbers
      end
  end.
(* src: db.rs:559-687 Database::prune_archived_blocks *)
Definition prune_archived_blocks (faults : DiskFaults) (db : Db) (tip depth : Z) : option (Db * result StorageError PruneReport) :=
  let eligible := checked_sub tip depth in
  let report files blocks bytes :=
    {| tip_height := tip; report_depth := depth; eligible_height := eligible; pruned_files := files;
       pruned_blocks := blocks; reclaimed_bytes := bytes |} in
  match eligible with
  | None => Some (db, Ok (report [] 0 0))
  | Some cutoff =>
      match list_block_records db with
      | Err e => Some (db, Err e)
      | Ok records =>
          let entries := file_entries (choose_files tip cutoff records) in
          let doomed := mjoin entries.*2 in
          if bool_decide (entries = []) then Some (db, Ok (report [] 0 0))
          else
            '(db, r) ← run_write db (for_in doomed mark_pruned);
            Some match r with
                 | Err e => (db, Err e)
                 | Ok _ =>
                     let '(s, deleted) := delete_files (delete_fails faults) (block_store db) entries.*1 in
                     (with_store db s, _ ← deleted; Ok (report entries.*1 (zlen doomed) (total_length doomed)))
                 end
      end
  end.

(** *** Peers and addresses *)

(* src: db.rs:849-853 Database::upsert_peer *)
Definition upsert_peer (db : Db) (r : PeerRecord) := put_value db Peers (pr_remote_addr r) r.
(* src: db.rs:855-860 Database::load_peer *)
Definition load_peer (db : Db) (remote_addr : bytes) : result StorageError (option PeerRecord) := load db Peers remote_addr.
(* src: db.rs:862-868 Database::list_peers *)
Definition list_peers (db : Db) := list_values PeerRecord db Peers.
(* src: db.rs:870-874 Database::upsert_address *)
Definition upsert_address (db : Db) (r : AddressRecord) := put_value db Addresses (ar_address r) r.
(* src: db.rs:876-882 Database::list_addresses *)
Definition list_addresses (db : Db) := list_values AddressRecord db Addresses.
(* src: db.rs:884-888 Database::upsert_peer_health *)
Definition upsert_peer_health (db : Db) (r : PeerHealthRecord) := put_value db PeerHealth (ph_remote_addr r) r.
(* src: db.rs:890-898 Database::load_peer_health *)
Definition load_peer_health (db : Db) (remote_addr : bytes) : result StorageError (option PeerHealthRecord) :=
  load db PeerHealth remote_addr.
(* src: db.rs:900-906 Database::list_peer_health *)
Definition list_peer_health (db : Db) := list_values PeerHealthRecord db PeerHealth.

(** *** Runtime state *)

Definition default_runtime_state : StorageRuntimeState :=
  {| last_clean_shutdown := true; last_runtime_started_unix := 0; last_shutdown_unix := 0; last_recovery_check_unix := 0 |}.
(* src: db.rs:1137-1151 Database::update_runtime_state *)
Definition update_runtime_state (db : Db) (update : StorageRuntimeState -> StorageRuntimeState) :
    option (Db * result StorageError unit) :=
  match load_runtime_state db with
  | Err e => Some (db, Err e)
  | Ok state => put_value db Meta STORAGE_RUNTIME_STATE_KEY (update (default default_runtime_state state))
  end.
(* src: db.rs:908-915 Database::mark_runtime_started *)
Definition mark_runtime_started (now : Z) (db : Db) : option (Db * result StorageError unit) :=
  update_runtime_state db (fun s =>
    {| last_clean_shutdown := false; last_runtime_started_unix := now;
       last_shutdown_unix := last_shutdown_unix s; last_recovery_check_unix := last_recovery_check_unix s |}).
(* src: db.rs:917-924 Database::mark_clean_shutdown *)
Definition mark_clean_shutdown (now : Z) (db : Db) : option (Db * result StorageError unit) :=
  update_runtime_state db (fun s =>
    {| last_clean_shutdown := true; last_runtime_started_unix := last_runtime_started_unix s;
       last_shutdown_unix := now; last_recovery_check_unix := last_recovery_check_unix s |}).
(* src: db.rs:952-965 Database::ensure_runtime_state *)
Definition ensure_runtime_state (db : Db) : option (Db * result StorageError unit) :=
  match load_runtime_state db with
  | Err e => Some (db, Err e)
  | Ok (Some _) => Some (db, Ok tt)
  | Ok None => put_value db Meta STORAGE_RUNTIME_STATE_KEY default_runtime_state
  end.
(* src: db.rs:926-950 Database::ensure_schema_version *)
Definition ensure_schema_version (db : Db) : option (Db * result StorageError unit) :=
  match get db Meta SCHEMA_VERSION_KEY with
  | Err e => Some (db, Err e)
  | Ok None => put db Meta SCHEMA_VERSION_KEY (le_u32 STORAGE_SCHEMA_VERSION)
  | Ok (Some bs) =>
      Some (db,
        reject negb (Nat.eqb (length bs) 4) with CorruptData;
        reject negb (le_decode bs =? STORAGE_SCHEMA_VERSION)
          with (SchemaVersionMismatch STORAGE_SCHEMA_VERSION (le_decode bs));
        Ok tt)
  end.

(* src: db.rs:1277-1291 expected_storage_metadata *)
Definition expected_storage_metadata (network : Network) (now : Z) : StorageMetadata :=
  let hash := genesis_hash network in
  {| storage_magic := STORAGE_MAGIC; network_magic := Network.p2p_magic network;
     network_name := str_bytes (Network.id network); chain_id := hash; m_genesis_hash := hash; genesis_block_id := hash;
     database_schema_version := STORAGE_SCHEMA_VERSION; software_storage_version := SOFTWARE_STORAGE_VERSION;
     created_at_unix := now; last_opened_unix := now |}.
(** The first field in which the stored metadata differs. *)
(* src: db.rs:971-1008 Database::ensure_storage_metadata (comparison) *)
Definition check_metadata (existing expected : StorageMetadata) : result StorageError unit :=
  reject negb (bool_decide (storage_magic existing = storage_magic expected)) with (StorageMetadataMismatch "storage_magic");
  reject negb (bool_decide (network_magic existing = network_magic expected)) with (StorageMetadataMismatch "network_magic");
  reject negb (bool_decide (network_name existing = network_name expected)) with (StorageMetadataMismatch "network_name");
  reject negb (bool_decide (chain_id existing = chain_id expected)) with (StorageMetadataMismatch "chain_id");
  reject negb (bool_decide (m_genesis_hash existing = m_genesis_hash expected)) with PersistedGenesisMismatch;
  reject negb (bool_decide (genesis_block_id existing = genesis_block_id expected))
    with (StorageMetadataMismatch "genesis_block_id");
  reject negb (database_schema_version existing =? database_schema_version expected)
    with (SchemaVersionMismatch (database_schema_version expected) (database_schema_version existing));
  reject negb (software_storage_version existing =? software_storage_version expected)
    with (StorageMetadataMismatch "software_storage_version");
  Ok tt.
Definition reopened (m : StorageMetadata) (now : Z) : StorageMetadata :=
  {| storage_magic := storage_magic m; network_magic := network_magic m; network_name := network_name m;
     chain_id := chain_id m; m_genesis_hash := m_genesis_hash m; genesis_block_id := genesis_block_id m;
     database_schema_version := database_schema_version m; software_storage_version := software_storage_version m;
     created_at_unix := created_at_unix m; last_opened_unix := now |}.
(* src: db.rs:967-1019 Database::ensure_storage_metadata *)
Definition ensure_storage_metadata (now : Z) (db : Db) : option (Db * result StorageError unit) :=
  let expected := expected_storage_metadata (db_network db) now in
  match (existing ← load_storage_metadata db;
         match existing with
         | None => Ok expected
         | Some existing => _ ← check_metadata existing expected; Ok (reopened existing now)
         end) with
  | Err e => Some (db, Err e)
  | Ok metadata => put_value db Meta STORAGE_METADATA_KEY metadata
  end.
End db.
End Db.

(** ** What the chain state uses *)

(** A handle with the clock and what the disk will do in the next calls. *)
Record Disk `{LmdbStore} := { disk : Db; clock : Z; faults : list DiskFaults }.

Section interface.
Context `{Hs : Sha3, Hl : LmdbStore, Hd : DbSerde, Henv : ProcessEnv}.

(** [None] does not arise on archives whose heights decrease ([DbReturns.commit_returns]):
    the interface has no value for a call that does not return. *)
Definition on_disk {A} (d : Disk) (op : Z -> DiskFaults -> Db -> option (Db * result StorageError A)) :
    Disk * result StorageError A :=
  match op (clock d) (default no_faults (head (faults d))) (disk d) with
  | Some (db, r) => ({| disk := db; clock := clock d; faults := tail (faults d) |}, r)
  | None => ({| disk := disk d; clock := clock d; faults := tail (faults d) |}, Err (Lmdb LmdbOther))
  end.
Definition record_summary (o : option BlockArchiveRecord) : option (Z * bool) :=
  (fun r => (r_height r, main_chain r)) <$> o.
Definition transaction_summary (o : option TransactionArchiveRecord) : option (Z * Transaction) :=
  (fun r => (t_height r, t_transaction r)) <$> o.
#[global] Instance lmdb_database : Database :=
  {| database := Disk; BlockPruneReport := PruneReport;
     commit_chainstate := fun d snapshot utxos appended =>
       on_disk d (fun now fault db => Db.commit_chainstate now fault db snapshot utxos appended);
     replace_chainstate := fun d snapshot utxos blocks =>
       on_disk d (fun now fault db => Db.replace_chainstate now fault db snapshot utxos blocks);
     prune_archived_blocks := fun d tip depth => on_disk d (fun _ fault db => Db.prune_archived_blocks fault db tip depth);
     load_block := fun d hash => Db.load_block (disk d) hash;
     load_block_record := fun d hash =>
       record ← Db.load_block_record (disk d) hash;
       Ok (record_summary record);
     load_block_hash_by_height := fun d h => Db.load_block_hash_by_height (disk d) h;
     load_transaction := fun d txid =>
       record ← Db.load_transaction (disk d) txid;
       Ok (transaction_summary record) |}.
End interface.

(** ** Opening *)

Module Startup.
Section startup.
Context `{Hs : Sha3, Hf : FalconBackend, Hg : !GenesisReady Hs, Hl : LmdbStore, Hd : DbSerde, Henv : ProcessEnv}.

Definition utxo_compare (l r : UtxoEntry) : comparison :=
  then_with (bytes_compare (u_txid l) (u_txid r))
  (then_with (Z.compare (u_output_index l) (u_output_index r))
  (then_with (Z.compare (u_value_atoms l) (u_value_atoms r))
  (then_with (Z.compare (created_height l) (created_height r))
  (then_with (Z.compare (Z.b2z (u_is_coinbase l)) (Z.b2z (u_is_coinbase r)))
  (then_with (bytes_compare (u_locking_script l) (u_locking_script r))
     (bytes_compare (str_bytes (Network.id (u_network l))) (str_bytes (Network.id (u_network r))))))))).
Definition utxo_le (l r : UtxoEntry) : Prop := utxo_compare l r <> Gt.
#[global] Instance utxo_le_dec l r : Decision (utxo_le l r).
Proof. unfold utxo_le. apply _. Defined.
(* src: db.rs:1676-1687 sort_utxos_for_consistency_check *)
Definition sort_utxos_for_consistency_check (l : list UtxoEntry) : list UtxoEntry := merge_sort utxo_le l.

(** One round of the replay. *)
(* src: db.rs:1075-1105 Database::verify_persisted_chainstate_consistency (replay loop) *)
Definition replay_record (env : Env) (now : Z) (db : Db) (replay : Chainstate) (ir : Z * BlockArchiveRecord) :
    result StorageError Chainstate :=
  let '(expected_height, record) := ir in
  reject negb (r_height record =? expected_height) with IncompleteBlockHistory;
  indexed ← Db.load_block_hash_by_height db expected_height;
  indexed ← ok_or indexed IncompleteBlockHistory;
  reject negb (bool_decide (indexed = r_block_hash record)) with PersistedTipMismatch;
  b ← Db.load_block db (r_block_hash record);
  b ← ok_or b IncompleteBlockHistory;
  reject negb (bool_decide (BlockHeader.block_hash (header b) = r_block_hash record))
         || negb (height (header b) =? expected_height) with CorruptData;
  if expected_height =? 0 then
    let genesis_block := gs_block (Chainstate.genesis (db_network db)) in
    reject negb (bool_decide (header b = header genesis_block))
           || negb (bool_decide (transactions b = transactions genesis_block)) with PersistedGenesisMismatch;
    Ok replay
  else
    match Chainstate.connect_block env now replay b with
    | (replay, Ok _) => Ok replay
    | (_, Err _) => Err CorruptData
    end.
(* src: db.rs:1046-1135 Database::verify_persisted_chainstate_consistency *)
Definition verify_persisted_chainstate_consistency (env : Env) (now : Z) (db : Db) : result StorageError unit :=
  snapshot ← Db.load_chainstate_snapshot db;
  records ← Db.list_block_records db;
  let main_chain_records := filter (fun r => main_chain r = true) records in
  match snapshot, last main_chain_records with
  | None, None => Ok tt
  | Some snapshot, Some record =>
      reject negb (snap_height snapshot =? r_height record)
             || negb (bool_decide (snap_tip_hash snapshot = r_block_hash record)) with PersistedTipMismatch;
      reject negb (zlen main_chain_records =? snap_height snapshot + 1) with IncompleteBlockHistory;
      reject match snap_tip_header snapshot with
             | None => false
             | Some h => negb (bool_decide (BlockHeader.block_hash h = snap_tip_hash snapshot))
                         || negb (height h =? snap_height snapshot)
             end with PersistedTipMismatch;
      replay ← try_fold (replay_record env now db) (Chainstate.fresh (db_network db)) (enumerate main_chain_records);
      reject negb (cs_height replay =? snap_height snapshot)
             || negb (bool_decide (cs_tip_hash replay = snap_tip_hash snapshot)) with PersistedTipMismatch;
      reject match snap_tip_header snapshot with
             | None => false
             | Some h => negb (bool_decide (cs_tip replay = Some h))
             end with PersistedTipMismatch;
      persisted ← Db.load_utxos db;
      reject existsb (fun e => negb (bool_decide (u_network e = db_network db))) persisted with CrossNetworkReplay;
      reject negb (bool_decide (sort_utxos_for_consistency_check persisted
                                = sort_utxos_for_consistency_check (UtxoSet.entries (cs_utxos replay)))) with CorruptData;
      Ok tt
  | _, _ => Err IncompleteBlockHistory
  end.
(* src: db.rs:1021-1044 Database::run_startup_consistency_checks *)
Definition run_startup_consistency_checks (env : Env) (now : Z) (db : Db) : option (Db * result StorageError unit) :=
  match Db.load_runtime_state db with
  | Err e => Some (db, Err e)
  | Ok state =>
      if last_clean_shutdown (default Db.default_runtime_state state) && negb (commit_journal db) then Some (db, Ok tt)
      else
        match verify_persisted_chainstate_consistency env now db with
        | Err e => Some (db, Err e)
        | Ok _ =>
            Db.update_runtime_state (Db.with_journal db false) (fun s =>
              {| last_clean_shutdown := true; last_runtime_started_unix := last_runtime_started_unix s;
                 last_shutdown_unix := last_shutdown_unix s; last_recovery_check_unix := now |})
        end
  end.
(** [step()?;]. *)
Definition and_then (r : option (Db * result StorageError unit)) (f : Db -> option (Db * result StorageError unit)) :
    option (Db * result StorageError unit) :=
  '(db, r) ← r; match r with Err e => Some (db, Err e) | Ok _ => f db end.
(** On a root directory with its block files, its journal and its environment; [None]
    for a handle that is not made. *)
(* src: db.rs:287-310 Database::open *)
Definition open (env : Env) (now : Z) (network : Network) (legacy_layout : bool) (root : directory) (journal : bool)
    (opened : result LmdbError environment) : option (option Db * result StorageError unit) :=
  if legacy_layout then Some (None, Err LegacyStorageLayout)
  else
    '(store, r) ← BlockFileStore.open network root;
    match r with
    | Err e => Some (None, Err e)
    | Ok _ =>
        match opened with
        | Err e => Some (None, Err (Lmdb e))
        | Ok e =>
            let db := {| db_network := network; block_store := store;
                         db_state := {| Lmdb.env := e; map_size := configured_db_cache_bytes |};
                         commit_journal := journal |} in
            '(db, r) ← and_then (and_then (and_then (Db.ensure_storage_metadata now db)
                         Db.ensure_schema_version) Db.ensure_runtime_state) (run_startup_consistency_checks env now);
            Some (Some db, r)
        end
    end.

(** The paths of the pre-LMDB exports. *)
(* src: chainstate.rs:1400-1421 load_persisted_chainstate *)
Definition load_persisted_chainstate (legacy_state : bool) (db : Db) : result StorageError (option PersistedChainstate) :=
  snapshot ← Db.load_chainstate_snapshot db;
  match snapshot with
  | Some snapshot =>
      utxos ← Db.load_utxos db;
      Ok (Some {| pc_height := snap_height snapshot; pc_tip_hash := snap_tip_hash snapshot;
                  pc_tip_header := snap_tip_header snapshot; pc_utxos := utxos |})
  | None => if legacy_state then Err LegacyStorageLayout else Ok None
  end.
(** The first start writes genesis. *)
(* src: chainstate.rs:217-229 Chainstate::try_load_or_new (fresh) *)
Definition start_fresh (network : Network) (d : Disk) : Chainstate * result StorageError unit :=
  let c := Chainstate.fresh_with_storage network (Some d) in
  match head (cs_blocks c) with
  | None => (c, Ok tt)
  | Some genesis_block =>
      Chainstate.on_storage c (fun d =>
        commit_chainstate d {| snap_height := 0; snap_tip_hash := cs_tip_hash c; snap_tip_header := cs_tip c |}
          (UtxoSet.entries (cs_utxos c)) (Some (0, genesis_block)))
  end.
(** On the handle that [open] returned. *)
(* src: chainstate.rs:209-230 Chainstate::try_load_or_new *)
Definition try_load_or_new (network : Network) (legacy_state : bool) (d : Disk) : result StorageError Chainstate :=
  persisted ← load_persisted_chainstate legacy_state (disk d);
  match persisted with
  | Some persisted =>
      c ← Chainstate.try_into_chainstate persisted network (Some d);
      let '(c, r) := Chainstate.save_persisted_chainstate c in
      _ ← r; Ok c
  | None => let '(c, r) := start_fresh network d in _ ← r; Ok c
  end.
End startup.
End Startup.
