(* ===== verification/DbChain.v ===== *)
(** * The database under the chain state

    What the writes of [Db] do to the tables, and that the database follows the
    chain state of [Chainstate] through it: the coins, the snapshot and the archive
    on disk are those in memory after every call, whether it succeeds or fails. *)
From stdpp Require Import options.
From S2P Require Import Prelude Bytes Text Constants Crypto Keccak Network Rules Transaction Block.
From S2P Require Import Pow Genesis Errors Utxo Validation BlockValidation Lmdb BlockFiles Chainstate Db.

#[local] Set Default Proof Using "Type*".

(** ** Frames *)

Create HintDb touches.

Section frames.
Context `{Hl : LmdbStore, Laws : !LmdbLaws}.

(** Only the tables of [D] differ. *)
Definition off (D : list Dataset) (T T' : tables) : Prop := forall ds k, ds ∉ D -> T' !! (ds, k) = T !! (ds, k).
#[global] Instance off_preorder D : PreOrder (off D).
Proof. split; [by intros T ds k|]. intros T1 T2 T3 H12 H23 ds k Hds. by rewrite H23, H12. Qed.
Definition touches {A} (D : list Dataset) (m : txm A) : Prop := yields m (fun T _ T' => off D T T').

Lemma yields_and {A} (m : txm A) S S' : yields m S -> yields m S' -> yields m (fun T a T' => S T a T' /\ S' T a T').
Proof.
  intros H1 H2 t t' a T' Hrun Hp. destruct (H1 _ _ _ _ Hrun Hp) as (T & HT & HS).
  destruct (H2 _ _ _ _ Hrun Hp) as (T2 & HT2 & HS2). rewrite HT in HT2. injection HT2 as <-. eauto.
Qed.
Lemma touches_ret {A} D (a : A) : touches D (mret a).
Proof. eapply yields_weaken; [apply yields_ret|]. by intros T b T' (_ & ->). Qed.
Lemma touches_of {A} D (r : result StorageError A) : touches D (txm_of r).
Proof. eapply yields_weaken; [apply yields_of|]. by intros T b T' (_ & ->). Qed.
Lemma touches_bind {A B} D (m : txm A) (f : A -> txm B) :
  touches D m -> (forall a, touches D (f a)) -> touches D (a ← m; f a).
Proof.
  intros Hm Hf. eapply yields_weaken; [eapply yields_bind; [apply Hm|intros a; apply Hf]|]. intros T b T' (a & T0 & H1 & H2).
  by transitivity T0.
Qed.
Lemma touches_for {A} D (l : list A) (f : A -> txm unit) : (forall x, touches D (f x)) -> touches D (for_in l f).
Proof.
  intros Hf. induction l as [|x l IH]; [apply touches_ret|]. apply touches_bind; [apply Hf|]. intros u. apply IH.
Qed.
Lemma touches_get D ds k : touches D (get_in ds k).
Proof. eapply yields_weaken; [apply yields_get|]. by intros T b T' (_ & ->). Qed.
Lemma touches_peek D ds k : touches D (peek_in ds k).
Proof. eapply yields_weaken; [apply yields_peek|]. by intros T b T' (-> & _). Qed.
Lemma touches_iter D ds : touches D (iter_in ds).
Proof. eapply yields_weaken; [apply yields_iter|]. by intros T b T' (_ & ->). Qed.
Lemma touches_put D ds k v : ds ∈ D -> touches D (put_in ds k v).
Proof.
  intros Hin. eapply yields_weaken; [apply yields_put|]. intros T b T' -> ds' k' Hds.
  apply lookup_insert_ne. congruence.
Qed.
Lemma touches_del D ds k : ds ∈ D -> touches D (del_in ds k).
Proof.
  intros Hin. eapply yields_weaken; [apply yields_del|]. intros T b T' -> ds' k' Hds.
  apply lookup_delete_ne. congruence.
Qed.
Lemma touches_try_del D ds k : ds ∈ D -> touches D (try_del_in ds k).
Proof.
  intros Hin. eapply yields_weaken; [apply yields_try_del|]. intros T b T' -> ds' k' Hds.
  apply lookup_delete_ne. congruence.
Qed.
Lemma touches_never {A} D : touches (A:=A) D never.
Proof. apply yields_never. Qed.
End frames.

#[export] Hint Resolve touches_ret touches_of touches_bind touches_for touches_get touches_peek touches_iter
  touches_put touches_del touches_try_del touches_never : touches.
(** Goes through a transaction's code. *)
Ltac touch :=
  repeat first
    [ progress intros | case_match | apply touches_ret | apply touches_of | apply touches_get | apply touches_peek
    | apply touches_iter | apply touches_never | assumption
    | apply touches_put; set_solver | apply touches_del; set_solver | apply touches_try_del; set_solver
    | apply touches_bind | apply touches_for | progress eauto with touches ].

Section frames2.
Context `{Hs : Sha3, Hl : LmdbStore, Laws : !LmdbLaws, Hd : DbSerde}.

Abbreviation archive_tables := [Blocks; BlockHeights; BlockTransactions; Transactions].

Lemma load_record_touches D h : touches D (load_block_record_from_txn h).
Proof. unfold load_block_record_from_txn. touch. Qed.
Lemma write_archive_touches now n h b l : touches archive_tables (write_block_archive now n h b l).
Proof. unfold write_block_archive, put_transaction. pose proof load_record_touches. touch. Qed.
Lemma delta_touches n b : touches [Utxos] (apply_utxo_delta n b).
Proof. unfold apply_utxo_delta, put_new_utxo. touch. Qed.
Lemma clear_touches ds : touches [ds] (clear_db ds).
Proof. unfold clear_db. touch. Qed.
Lemma flag_touches h flag : touches [Blocks; BlockHeights] (update_main_chain_flag h flag).
Proof. unfold update_main_chain_flag. pose proof load_record_touches. touch. Qed.
Lemma index_loop_touches rounds : forall r seen, touches [Blocks; BlockHeights] (index_loop rounds r seen).
Proof.
  pose proof load_record_touches. pose proof flag_touches.
  induction rounds as [|rounds IH]; intros r seen; cbn [index_loop]; touch.
Qed.
Lemma touches_mono {A} D D' (m : txm A) : D ⊆ D' -> touches D m -> touches D' m.
Proof. intros HD Hm. eapply yields_weaken; [apply Hm|]. intros T a T' Hoff ds k Hds. apply Hoff. set_solver. Qed.
Lemma current_touches D : touches D current_main_chain_hashes.
Proof. unfold current_main_chain_hashes. touch. Qed.
Lemma rebuild_touches h : touches [Blocks; BlockHeights] (rebuild_height_index h).
Proof.
  pose proof load_record_touches. pose proof current_touches. pose proof flag_touches. pose proof index_loop_touches.
  assert (touches [Blocks; BlockHeights] (clear_db BlockHeights)) by (eapply touches_mono, clear_touches; set_solver).
  unfold rebuild_height_index. touch.
Qed.
Lemma mark_touches r : touches [Blocks] (Db.mark_pruned r).
Proof. unfold Db.mark_pruned. touch. Qed.

(** ** Clearing and filling a table *)

Lemma clear_spec ds : yields (clear_db ds) (fun T _ T' => off [ds] T T' /\ forall k, T' !! (ds, k) = None).
Proof.
  apply yields_and; [apply clear_touches|]. unfold clear_db.
  eapply yields_weaken; [eapply yields_bind; [apply yields_iter|intros rows]|].
  { apply (yields_for rows (fun row => try_del_in ds row.1) (fun row T T' => T' = delete (ds, row.1) T)).
    intros row. apply yields_try_del. }
  intros T u T' (rows & T0 & [[Hrows _] ->] & Hchain) k. 
  assert (forall k', T' !! (ds, k') = if bool_decide (k' ∈ rows.*1) then None else T !! (ds, k')) as H.
  { clear Hrows. induction Hchain as [T|row rows T T0 T' -> Hchain IH]; intros k'.
    - by rewrite bool_decide_false by by apply not_elem_of_nil.
    - rewrite IH. rewrite fmap_cons. destruct (decide (k' = row.1)) as [->|Hne].
      + rewrite lookup_delete_eq, (bool_decide_true (_ ∈ row.1 :: _)) by by left. by case_bool_decide.
      + rewrite lookup_delete_ne by congruence. do 2 case_bool_decide; set_solver. }
  rewrite H. case_bool_decide as Hin; [done|]. destruct (T !! (ds, k)) as [v|] eqn:E; [|done].
  apply Hrows in E. destruct Hin. apply list_elem_of_fmap. by exists (k, v).
Qed.

Definition puts (ds : Dataset) (kvs : list (bytes * bytes)) (T : tables) : tables :=
  foldl (fun T kv => <[(ds, kv.1) := kv.2]> T) T kvs.
Lemma puts_spec ds kvs : yields (for_in kvs (fun kv => put_in ds kv.1 kv.2)) (fun T _ T' => T' = puts ds kvs T).
Proof.
  eapply yields_weaken.
  - apply (yields_for kvs _ (fun kv T T' => T' = <[(ds, kv.1) := kv.2]> T)). intros kv. apply yields_put.
  - intros T u T' Hchain. induction Hchain as [|kv kvs T T0 T' -> _ IH]; [done|]. by rewrite IH.
Qed.
End frames2.

(** ** The coins on disk *)

Definition key_bytes (k : UtxoKey) : bytes := utxo_key (k_txid k) (k_output_index k).
(** What the type of a key guarantees. *)
Definition key_ok (k : UtxoKey) : Prop := length (k_txid k) = 48%nat /\ is_u32 (k_output_index k).
Definition keys_ok (m : gmap UtxoKey UtxoEntry) : Prop := map_Forall (fun k _ => key_ok k) m.

Lemma key_bytes_inj k k' : key_ok k -> key_ok k' -> key_bytes k = key_bytes k' -> k = k'.
Proof.
  intros [Hl Hi] [Hl' Hi'] E. destruct k as [t i], k' as [t' i']. unfold key_bytes, utxo_key in E. cbn [k_txid k_output_index] in *.
  apply app_inj_1 in E as [-> E]; [|congruence]. f_equal.
  apply (f_equal be_decode) in E. unfold be_u32 in E. by rewrite !(be_decode_be_bytes 4) in E by done.
Qed.

Section coins.
Context `{Hs : Sha3, Sl : !Sha3Laws Hs, Hl : LmdbStore, Laws : !LmdbLaws, Hd : DbSerde}.

(** The table of coins holds exactly the entries of [m]. *)
Definition holds_utxos (T : tables) (m : gmap UtxoKey UtxoEntry) : Prop :=
  (forall k e, m !! k = Some e -> exists v, serialize_value e = Some v /\ T !! (Utxos, key_bytes k) = Some v) /\
  (forall kb v, T !! (Utxos, kb) = Some v -> exists k e, m !! k = Some e /\ kb = key_bytes k).

Lemma holds_off D T T' m : Utxos ∉ D -> off D T T' -> holds_utxos T m -> holds_utxos T' m.
Proof.
  intros HD Hoff [H1 H2]. split.
  - intros k e Hk. destruct (H1 k e Hk) as (v & ? & ?). exists v. by rewrite Hoff.
  - intros kb v Hv. rewrite Hoff in Hv by done. by eapply H2.
Qed.
Lemma holds_delete T m k :
  keys_ok m -> key_ok k -> holds_utxos T m -> holds_utxos (delete (Utxos, key_bytes k) T) (delete k m).
Proof.
  intros Hm Hk [H1 H2]. split.
  - intros k' e [Hne Hk']%lookup_delete_Some. destruct (H1 k' e Hk') as (v & ? & ?). exists v. split; [done|].
    rewrite lookup_delete_ne; [done|]. intros [= E]. apply key_bytes_inj in E; [done..|]. by eapply Hm.
  - intros kb v [Hne Hv]%lookup_delete_Some. destruct (H2 kb v Hv) as (k' & e & He & ->). exists k', e.
    split; [|done]. rewrite lookup_delete_ne; [done|]. by intros ->.
Qed.
Lemma holds_insert T m e v :
  keys_ok m -> key_ok (UtxoEntry.key e) -> serialize_value e = Some v -> holds_utxos T m ->
  holds_utxos (<[(Utxos, key_bytes (UtxoEntry.key e)) := v]> T) (<[UtxoEntry.key e := e]> m).
Proof.
  intros Hm Hk Hv [H1 H2]. split.
  - intros k' e' [[Hk' He]|[Hne Hk']]%lookup_insert_Some; [subst; exists v; by rewrite lookup_insert_eq|].
    destruct (H1 k' e' Hk') as (v' & ? & ?). exists v'. split; [done|].
    rewrite lookup_insert_ne; [done|]. intros [= E]. apply key_bytes_inj in E; [done..|]. by eapply Hm.
  - intros kb v' [[E Ev]|[Hne Hv']]%lookup_insert_Some.
    + injection E as <-. exists (UtxoEntry.key e), e. by rewrite lookup_insert_eq.
    + destruct (H2 kb v' Hv') as (k' & e' & He & ->). exists k', e'. split; [|done].
      rewrite lookup_insert_ne; [done|]. by intros <-.
Qed.
Lemma keys_ok_delete m k : keys_ok m -> keys_ok (delete k m).
Proof. intros Hm k' e [_ Hk]%lookup_delete_Some. by eapply Hm. Qed.
Lemma keys_ok_insert m e : keys_ok m -> key_ok (UtxoEntry.key e) -> keys_ok (<[UtxoEntry.key e := e]> m).
Proof. intros Hm Hk k' e' [[<- <-]|[_ ?]]%lookup_insert_Some; [done|]. by eapply Hm. Qed.

(** The entries a block creates have keys of the right size. *)
Lemma create_outputs_keys tx n h : Forall (fun e => key_ok (UtxoEntry.key e)) (UtxoSet.create_outputs tx n h).
Proof.
  apply Forall_forall. intros e He. apply list_elem_of_lookup in He as [i Hi]. rewrite create_outputs_lookup in Hi.
  apply fmap_Some in Hi as (o & _ & ->). split; cbn; [apply sha3_384_length|]. apply Z.mod_pos_bound. lia.
Qed.
Lemma keys_ok_without m ks : keys_ok m -> keys_ok (without_keys m ks).
Proof. intros Hm k e. rewrite lookup_without_keys. case_decide; [done|]. apply Hm. Qed.
Lemma keys_ok_with_new m es : keys_ok m -> Forall (fun e => key_ok (UtxoEntry.key e)) es -> keys_ok (with_new m es).
Proof.
  revert m. induction es as [|e es IH]; intros m Hm Hes; [done|]. apply Forall_cons in Hes as [He Hes].
  rewrite with_new_cons. apply IH; [|done]. by apply keys_ok_insert.
Qed.

(** *** Applying a block *)

Lemma deletes_hold ins T T' m :
  chain (fun i T T' => T' = delete (Utxos, utxo_key (previous_txid i) (output_index i)) T) ins T T' ->
  keys_ok m -> Forall (fun i => key_ok (input_key i)) ins -> holds_utxos T m ->
  holds_utxos T' (without_keys m (input_key <$> ins)).
Proof.
  intros Hchain. revert m. induction Hchain as [T|i ins T T0 T' -> _ IH]; intros m Hm Hins HT; [done|].
  apply Forall_cons in Hins as [Hi Hins]. rewrite fmap_cons, <- without_keys_delete. apply IH; [by apply keys_ok_delete|done|].
  by apply (holds_delete T m (input_key i)).
Qed.
Lemma put_new_spec e : yields (put_new_utxo e) (fun T _ T' =>
  exists v, serialize_value e = Some v /\ T' = <[(Utxos, key_bytes (UtxoEntry.key e)) := v]> T).
Proof.
  unfold put_new_utxo. eapply yields_weaken; [eapply yields_bind; [apply yields_get|intros o]|].
  { instantiate (1 := fun o T _ T' => exists v, serialize_value e = Some v /\
      T' = <[(Utxos, key_bytes (UtxoEntry.key e)) := v]> T).
    cbn beta. destruct o as [x|]; [by intros t t' a T'|].
    eapply yields_weaken; [eapply yields_bind; [apply yields_of|intros v; apply yields_put]|].
    intros T u T' (v & T0 & [Hv ->] & ->). exists v. split; [|done].
    unfold serialize_record, ok_or in Hv. destruct (serialize_value e); [by injection Hv as ->|done]. }
  by intros T u T' (o & T0 & [_ ->] & Hv).
Qed.
Lemma puts_hold es T T' m :
  chain (fun e T T' => exists v, serialize_value e = Some v /\
    T' = <[(Utxos, key_bytes (UtxoEntry.key e)) := v]> T) es T T' ->
  keys_ok m -> Forall (fun e => key_ok (UtxoEntry.key e)) es -> holds_utxos T m -> holds_utxos T' (with_new m es).
Proof.
  intros Hchain. revert m. induction Hchain as [T|e es T T0 T' (v & Hv & ->) _ IH]; intros m Hm Hes HT; [done|].
  apply Forall_cons in Hes as [He Hes]. rewrite with_new_cons. apply IH; [by apply keys_ok_insert|done|].
  by apply holds_insert.
Qed.

(** The tables before and after one transaction. *)
Definition tx_delta (n : Network) (h : Z) (tx : Transaction) (T T' : tables) : Prop :=
  exists T0, chain (fun i T T' => T' = delete (Utxos, utxo_key (previous_txid i) (output_index i)) T) (inputs tx) T T0 /\
    chain (fun e T T' => exists v, serialize_value e = Some v /\
      T' = <[(Utxos, key_bytes (UtxoEntry.key e)) := v]> T) (UtxoSet.create_outputs tx n h) T0 T'.
Lemma delta_spec n b : yields (apply_utxo_delta n b) (fun T _ T' =>
  chain (tx_delta n (height (header b))) (transactions b) T T').
Proof.
  apply yields_for. intros tx. eapply yields_weaken.
  - eapply yields_bind; [apply yields_for; intros i; apply yields_del|intros u; apply yields_for; intros e; apply put_new_spec].
  - intros T u T' (u0 & T0 & H1 & H2). by exists T0.
Qed.
(** The table follows the coin set through a block. *)
Lemma delta_holds s undo h txs s' undo' T T' :
  UtxoSet.wf s -> keys_ok (us_entries s) -> holds_utxos T (us_entries s) ->
  UtxoSet.apply_transactions s undo h txs = (s', Ok undo') -> chain (tx_delta (us_network s) h) txs T T' ->
  holds_utxos T' (us_entries s') /\ keys_ok (us_entries s').
Proof.
  revert s undo T. induction txs as [|tx txs IH]; intros s undo T Hwf Hk HT Happ Hchain.
  { injection Happ as <- <-. inversion Hchain; subst. done. }
  inversion Hchain as [|? ? ? T1 ? (T0 & Hdel & Hput) Hrest]; subst.
  apply apply_round in Happ as [(taken & Hsp & Hp & Happ)|[[? _]|[? _]]]; [|done..|done].
  apply (IH _ _ T1) in Happ; [done|by apply wf_round| | |done]; cbn [us_entries UtxoSet.with_entries us_network] in *.
  - apply keys_ok_with_new; [by apply keys_ok_without|apply create_outputs_keys].
  - eapply puts_hold; [done|by apply keys_ok_without|apply create_outputs_keys|].
    eapply deletes_hold; [done..| |done]. destruct Hsp as [Hsp _].
    apply Forall_forall. intros i Hi. apply list_elem_of_lookup in Hi as [j Hj].
    destruct (Forall2_lookup_l _ _ _ _ _ Hsp Hj) as (e & _ & He). by eapply Hk.
Qed.

(** *** Writing a whole coin set *)

Lemma entries_keys s : UtxoSet.wf s -> keys_of (UtxoSet.entries s) = (sorted_entries UtxoSet.key_le (us_entries s)).*1.
Proof.
  intros Hwf. unfold UtxoSet.entries. rewrite <- list_fmap_compose. apply list_fmap_ext. intros i [k e] Hi. cbn.
  apply list_elem_of_lookup_2, elem_of_sorted_entries in Hi. by destruct (Hwf _ _ Hi).
Qed.
Lemma elem_of_entries s e : UtxoSet.wf s -> e ∈ UtxoSet.entries s <-> us_entries s !! UtxoEntry.key e = Some e.
Proof.
  intros Hwf. unfold UtxoSet.entries. rewrite list_elem_of_fmap. split.
  - intros ([k e'] & -> & Hin%elem_of_sorted_entries). cbn. by destruct (Hwf _ _ Hin) as [-> _].
  - intros He. exists (UtxoEntry.key e, e). by rewrite elem_of_sorted_entries.
Qed.
Lemma entries_NoDup s : UtxoSet.wf s -> NoDup (keys_of (UtxoSet.entries s)).
Proof.
  intros Hwf. rewrite entries_keys by done. unfold sorted_entries. rewrite merge_sort_Permutation.
  apply NoDup_fst_map_to_list.
Qed.
Lemma entries_rebuild s : UtxoSet.wf s -> with_new ∅ (UtxoSet.entries s) = us_entries s.
Proof.
  intros Hwf. pose proof (entries_NoDup s Hwf) as Hnd.
  apply map_eq. intros k. destruct (us_entries s !! k) as [e|] eqn:E.
  - destruct (Hwf _ _ E) as [<- _]. by apply with_new_in, elem_of_entries.
  - rewrite with_new_fresh; [by rewrite lookup_empty|]. intros (e & -> & He)%list_elem_of_fmap.
    apply elem_of_entries in He; [congruence|done].
Qed.
Lemma serialized_puts es kvs T : try_map Db.serialize_utxo es = Ok kvs ->
  chain (fun e T T' => exists v, serialize_value e = Some v /\ T' = <[(Utxos, key_bytes (UtxoEntry.key e)) := v]> T)
    es T (puts Utxos kvs T).
Proof.
  revert kvs T. induction es as [|e es IH]; intros kvs T H; cbn [try_map] in H; [injection H as <-; constructor|].
  apply bind_Ok in H as (kv & Hkv & (kvs' & Hkvs & [= <-])%bind_Ok).
  apply bind_Ok in Hkv as (v & Hv & [= <-]). unfold serialize_record, ok_or in Hv.
  apply chain_cons with (T0 := <[(Utxos, key_bytes (UtxoEntry.key e)) := v]> T); [|exact (IH kvs' _ Hkvs)]. exists v. by destruct (serialize_value e); [injection Hv as ->|].
Qed.
Lemma image_holds s kvs T :
  UtxoSet.wf s -> keys_ok (us_entries s) -> (forall k, T !! (Utxos, k) = None) ->
  try_map Db.serialize_utxo (UtxoSet.entries s) = Ok kvs -> holds_utxos (puts Utxos kvs T) (us_entries s).
Proof.
  intros Hwf Hk HT Hkvs. rewrite <- (entries_rebuild s Hwf). eapply puts_hold.
  - by apply serialized_puts.
  - intros k e. by rewrite lookup_empty.
  - apply Forall_forall. intros e He%elem_of_entries; [|done]. by eapply Hk.
  - split; [intros k e; by rewrite lookup_empty|]. intros kb v. by rewrite HT.
Qed.
Lemma puts_off ds kvs T : off [ds] T (puts ds kvs T).
Proof.
  revert T. induction kvs as [|kv kvs IH]; intros T; [done|]. etransitivity; [|apply IH].
  intros ds' k Hds. apply lookup_insert_ne. intros [= <- _]. apply Hds. by left.
Qed.
End coins.

(** ** The writes of the handle *)

Definition stored_tables `{Hl : LmdbStore, Laws : !LmdbLaws} (db : Db) : tables := committed (env (db_state db)).

Section writes.
Context `{Hs : Sha3, Sl : !Sha3Laws Hs, Hl : LmdbStore, Laws : !LmdbLaws, Hd : DbSerde, Henv : ProcessEnv}.

Lemma serialize_record_Ok {A} `{Serde A} (a : A) v : serialize_record a = Ok v <-> serialize_value a = Some v.
Proof. unfold serialize_record, ok_or. destruct (serialize_value a); split; intros E; congruence. Qed.

Lemma run_write_spec {A} (db : Db) (body : txm A) S db' r :
  yields body S -> Db.run_write db body = Some (db', r) ->
  db_network db' = db_network db /\ block_store db' = block_store db /\ commit_journal db' = commit_journal db /\
  match r with
  | Ok a => S (stored_tables db) a (stored_tables db')
  | Err _ => stored_tables db' = stored_tables db
  end.
Proof.
  intros Hbody Hrun. apply bind_Some in Hrun as ([s r'] & Hw & [= <- <-]). split_and!; [done..|].
  by apply (write_spec body S) in Hw.
Qed.

(** The effect of a commit on the tables. *)
Definition commit_effect (n : Network) (snapshot : ChainstateSnapshot) (utxos : list UtxoEntry)
    (appended : option (Z * Block)) (T T' : tables) : Prop :=
  exists v, serialize_value snapshot = Some v /\ T' !! (Meta, SNAPSHOT_KEY) = Some v /\
  match appended with
  | Some (_, b) => exists T1, off [Meta; Blocks; BlockHeights; BlockTransactions; Transactions] T T1 /\
      chain (tx_delta n (height (header b))) (transactions b) T1 T'
  | None => exists T1 kvs, try_map Db.serialize_utxo utxos = Ok kvs /\
      (forall k, T1 !! (Utxos, k) = None) /\ off [Blocks; BlockHeights] (puts Utxos kvs T1) T'
  end.
Lemma commit_body_effect now n snapshot v utxos appended kvs location :
  serialize_value snapshot = Some v ->
  match appended with None => exists l, kvs = Some l /\ try_map Db.serialize_utxo utxos = Ok l | Some _ => True end ->
  yields (Db.commit_body now n snapshot v kvs appended location) (fun T _ T' => commit_effect n snapshot utxos appended T T').
Proof.
  intros Hv Hkvs. unfold Db.commit_body, commit_effect. destruct appended as [[h b]|].
  - eapply yields_weaken; [eapply yields_bind|].
    + instantiate (1 := fun T _ T' => off [Blocks; BlockHeights; BlockTransactions; Transactions] T T').
      destruct location; [apply write_archive_touches|apply touches_ret].
    + intros u. eapply yields_bind; [apply yields_put|intros u'].
      apply yields_and; [apply delta_spec|apply delta_touches].
    + intros T u T' (u0 & T0 & Hoff & u1 & T1 & -> & Hchain & Hoff2). exists v. split; [done|]. split.
      { rewrite Hoff2 by set_solver. by rewrite lookup_insert_eq. }
      exists (<[(Meta, SNAPSHOT_KEY) := v]> T0). split; [|done].
      intros ds k Hds. rewrite lookup_insert_ne by set_solver. apply Hoff. set_solver.
  - destruct Hkvs as (l & -> & Hl'). eapply yields_weaken; [eapply yields_bind|].
    + instantiate (1 := fun T _ T' => T' = T). eapply yields_weaken; [destruct location; apply yields_ret|].
      by intros T u T' (_ & ->).
    + intros u. eapply yields_bind; [apply yields_put|intros u0].
      eapply yields_bind; [apply clear_spec|intros u1]. eapply yields_bind; [apply puts_spec|intros u2].
      apply rebuild_touches.
    + intros T u T' (_ & T0 & -> & _ & T1 & -> & _ & T2 & [Hoff Hnone] & _ & T3 & -> & Hoff3).
      exists v. split; [done|]. split.
      * rewrite Hoff3 by set_solver. rewrite puts_off by set_solver. rewrite Hoff by set_solver. by rewrite lookup_insert_eq.
      * by exists T2, l.
Qed.

Lemma archive_append_keeps faults db b db' r :
  Db.archive_append faults db b = (db', r) -> db_network db' = db_network db /\ db_state db' = db_state db.
Proof.
  unfold Db.archive_append. destruct (negb _); [by intros [= <- <-]|].
  match goal with |- context [match ?x with Ok _ => _ | Err _ => _ end] => destruct x as [[hint|]|e] end; [|by intros [= <- <-]..].
  destruct (BlockFileStore.append_block_with_minimum_file_number _ _ _ _) as [s r0]. by intros [= <- <-].
Qed.
Lemma archive_appended_keeps faults db appended db' r :
  Db.archive_appended faults db appended = (db', r) -> db_network db' = db_network db /\ db_state db' = db_state db.
Proof. destruct appended as [[h b]|]; [apply archive_append_keeps|by intros [= <- <-]]. Qed.
Lemma begin_journal_keeps faults db db' r :
  Db.begin_journal faults db = (db', r) ->
  db_network db' = db_network db /\ db_state db' = db_state db /\ block_store db' = block_store db.
Proof. unfold Db.begin_journal. destruct (journal_begin_fails faults); by intros [= <- <-]. Qed.

(** A commit that fails leaves the tables as they were, unless the journal could not
    be removed after it. *)
Lemma commit_outcome now faults db snapshot utxos appended db' r :
  Db.commit_chainstate now faults db snapshot utxos appended = Some (db', r) ->
  journal_removal_fails faults = false ->
  db_network db' = db_network db /\
  match r with
  | Err _ => stored_tables db' = stored_tables db
  | Ok _ => commit_effect (db_network db) snapshot utxos appended (stored_tables db) (stored_tables db')
  end.
Proof.
  intros Hrun Hj. unfold Db.commit_chainstate in Hrun.
  destruct (Db.begin_journal faults db) as [db1 [[]|e]] eqn:Hb; apply begin_journal_keeps in Hb as (Hn1 & Hs1 & _);
    [|by injection Hrun as <- <-; unfold stored_tables; rewrite Hs1].
  destruct (mbind _ _) as [[v kvs]|e] eqn:Hv; [|by injection Hrun as <- <-; unfold stored_tables; rewrite Hs1].
  apply bind_Ok in Hv as (v' & Hv & (kvs' & Hkvs & [= <- <-])%bind_Ok). apply serialize_record_Ok in Hv.
  destruct (Db.archive_appended faults db1 appended) as [db2 [location|e]] eqn:Ha; apply archive_appended_keeps in Ha as [Hn2 Hs2];
    (assert (stored_tables db2 = stored_tables db) as Ht2 by (unfold stored_tables; congruence)).
  2:{ injection Hrun as <- <-. split; [congruence|done]. }
  rewrite Hn1 in Hn2.
  apply bind_Some in Hrun as ([db3 r3] & Hw & [= Hfin]).
  apply (run_write_spec _ _ (fun T _ T' => commit_effect (db_network db2) snapshot utxos appended T T')) in Hw
    as (Hn3 & _ & _ & Hspec).
  2:{ apply commit_body_effect; [done|]. destruct appended as [[h b]|]; [done|].
      apply bind_Ok in Hkvs as (l & Hl' & [= <-]). by exists l. }
  rewrite Hn2, Ht2 in Hspec. destruct r3 as [u|e].
  - unfold Db.finish_journal in Hfin. rewrite Hj in Hfin. injection Hfin as <- <-. split; [cbn; congruence|]. exact Hspec.
  - injection Hfin as <- <-. split; [congruence|]. exact Hspec.
Qed.

(** Pruning leaves the coins and the snapshot. *)
Lemma db_prune_outcome faults db tip depth db' r :
  Db.prune_archived_blocks faults db tip depth = Some (db', r) ->
  db_network db' = db_network db /\ off [Blocks] (stored_tables db) (stored_tables db').
Proof.
  unfold Db.prune_archived_blocks. destruct (checked_sub tip depth) as [cutoff|]; [|by intros [= <- <-]].
  destruct (Db.list_block_records db) as [records|e]; [|by intros [= <- <-]].
  case_bool_decide as Hentries; [by intros [= <- <-]|].
  intros ([db1 r1] & Hw & [= Hfin])%bind_Some.
  apply (run_write_spec _ _ (fun T _ T' => off [Blocks] T T')) in Hw as (Hn & _ & _ & Hspec).
  2:{ apply touches_for. apply mark_touches. }
  destruct r1; [destruct (Db.delete_files _ _ _) as [s deleted]|]; injection Hfin as <- <-; (split; [done|]); [exact Hspec|].
  by rewrite Hspec.
Qed.

(** ** The chain state on disk *)

(** The database that [c] leaves is the one it would be restored from. *)
Record on_disk_ok (d : Disk) (c : Chainstate) : Prop := {
  disk_network : db_network (disk d) = cs_network c;
  disk_snapshot : exists v, serialize_value {| snap_height := cs_height c; snap_tip_hash := cs_tip_hash c;
                                               snap_tip_header := cs_tip c |} = Some v /\
                    stored_tables (disk d) !! (Meta, SNAPSHOT_KEY) = Some v;
  disk_coins : holds_utxos (stored_tables (disk d)) (us_entries (cs_utxos c));
}.
(** The journal can be removed in all the calls to come. *)
Definition removable (d : Disk) : Prop := Forall (fun f => journal_removal_fails f = false) (faults d).
Definition persisted (c : Chainstate) : Prop :=
  keys_ok (us_entries (cs_utxos c)) /\
  Forall (fun u => Forall (fun e => key_ok (UtxoEntry.key e)) (spent (block_undo u))) (undo_stack c) /\
  forall d, storage c = Some d -> removable d /\ on_disk_ok d c.

Lemma removable_head d : removable d -> journal_removal_fails (default no_faults (head (faults d))) = false.
Proof. unfold removable. destruct (faults d) as [|f l]; [done|]. by intros [? _]%Forall_cons. Qed.
Lemma removable_tail d : removable d -> Forall (fun f => journal_removal_fails f = false) (tail (faults d)).
Proof. unfold removable. destruct (faults d) as [|f l]; [done|]. by intros [_ ?]%Forall_cons. Qed.

(** A commit through the interface. *)
Lemma commit_on_disk d snapshot utxos appended d' r :
  removable d -> commit_chainstate d snapshot utxos appended = (d', r) ->
  removable d' /\ db_network (disk d') = db_network (disk d) /\
  match r with
  | Err _ => stored_tables (disk d') = stored_tables (disk d)
  | Ok _ => commit_effect (db_network (disk d)) snapshot utxos appended (stored_tables (disk d)) (stored_tables (disk d'))
  end.
Proof.
  intros Hr Hrun. cbn [commit_chainstate lmdb_database] in Hrun. unfold on_disk in Hrun.
  destruct (Db.commit_chainstate _ _ _ _ _ _) as [[db r0]|] eqn:E; injection Hrun as <- <-.
  - apply commit_outcome in E as [Hn Hspec]; [|by apply removable_head]. split; [by apply removable_tail|]. done.
  - split; [by apply removable_tail|]. done.
Qed.
End writes.

Section follows.
Context `{Hs : Sha3, Sl : !Sha3Laws Hs, Hf : FalconBackend, Hg : !GenesisReady Hs}.
Context `{Hl : LmdbStore, Laws : !LmdbLaws, Hd : DbSerde, Henv : ProcessEnv}.

Lemma applied_keys s undo h txs s' undo' :
  UtxoSet.wf s -> keys_ok (us_entries s) -> Forall (fun e => key_ok (UtxoEntry.key e)) (spent undo) ->
  UtxoSet.apply_transactions s undo h txs = (s', Ok undo') ->
  keys_ok (us_entries s') /\ Forall (fun e => key_ok (UtxoEntry.key e)) (spent undo').
Proof.
  revert s undo. induction txs as [|tx txs IH]; intros s undo Hwf Hk Hun Happ; [by injection Happ as <- <-|].
  apply apply_round in Happ as [(taken & Hsp & Hp & Happ)|[[? _]|[? _]]]; [|done..|done].
  apply IH in Happ; [done|by apply wf_round| |]; cbn [us_entries UtxoSet.with_entries spent].
  - apply keys_ok_with_new; [by apply keys_ok_without|apply create_outputs_keys].
  - apply Forall_app. split; [done|]. apply Forall_forall. intros e He.
    destruct (spends_elem _ _ _ _ Hsp He) as (i & _ & Hi). destruct (Hwf _ _ Hi) as [-> _]. by eapply Hk.
Qed.

Lemma strictly_sorted_NoDup (l : list bytes) : StronglySorted (fun a b => bytes_ltb a b = true) l -> NoDup l.
Proof using.
  induction 1 as [|k l Hsorted IH Hk]; constructor; [|done]. intros Hin. pose proof (proj1 (Forall_forall _ _) Hk _ Hin) as H.
  unfold bytes_ltb in H. by rewrite bytes_compare_refl in H.
Qed.
Lemma Forall_removelast {A} (P : A -> Prop) l : Forall P l -> Forall P (removelast l).
Proof using.
  induction l as [|x [|y l] IH]; intros H; [done|constructor|]. apply Forall_cons in H as [Hx H].
  constructor; [done|]. by apply IH.
Qed.
(** What matters of the chain state to [persisted]. *)
Lemma persisted_same c c' :
  cs_network c' = cs_network c -> cs_tip c' = cs_tip c -> cs_tip_hash c' = cs_tip_hash c -> cs_height c' = cs_height c ->
  cs_utxos c' = cs_utxos c -> (exists n, undo_stack c' = drop n (undo_stack c)) ->
  (forall d', storage c' = Some d' -> exists d, storage c = Some d /\ (removable d -> removable d') /\
     db_network (disk d') = db_network (disk d) /\ off [Blocks] (stored_tables (disk d)) (stored_tables (disk d'))) ->
  persisted c -> persisted c'.
Proof.
  intros Hn Ht Hh Hht Hu [n Hundo] Hst (Hk & Hsp & Hdisk). split_and!; [by rewrite Hu| |].
  - rewrite Hundo. apply Forall_drop. done.
  - intros d' Hd'. destruct (Hst d' Hd') as (d & Hd0 & Hrem & Hnet & Hoff).
    destruct (Hdisk d Hd0) as [Hr [H1 (v & Hv & Hsnap) H3]]. split; [by apply Hrem|]. split.
    + congruence.
    + rewrite Ht, Hh, Hht. exists v. split; [done|]. rewrite Hoff; [done|]. by intros [?|[]%elem_of_nil]%elem_of_cons.
    + rewrite Hu. eapply holds_off; [|exact Hoff|done]. by intros [?|[]%elem_of_nil]%elem_of_cons.
Qed.
Lemma prune_persisted env c : persisted c -> persisted (Chainstate.prune_history env c).
Proof.
  intros Hp. unfold Chainstate.prune_history. set (retain := saturating_add _ _ _).
  assert (persisted (Chainstate.prune_history_to_retain c retain)) as Hp1.
  { unfold Chainstate.prune_history_to_retain. destruct (_ || _); [done|]. set (n := Z.to_nat _).
    destruct (Nat.eqb n 0); [done|]. eapply persisted_same; [..|exact Hp]; try done; [by eexists|].
    intros d Hd0. exists d. by split_and!. }
  destruct (_ <? _); [done|].
  destruct (storage (Chainstate.prune_history_to_retain c retain)) as [d|] eqn:Hst; [|done].
  destruct (prune_archived_blocks d _ _) as [d' r] eqn:E. cbn [prune_archived_blocks lmdb_database] in E. unfold on_disk in E.
  assert ((removable d -> removable d') /\ db_network (disk d') = db_network (disk d) /\
    off [Blocks] (stored_tables (disk d)) (stored_tables (disk d'))) as Hd'.
  { destruct (Db.prune_archived_blocks _ _ _ _) as [[db r0]|] eqn:Hprune; injection E as <- <-.
    - apply db_prune_outcome in Hprune as [Hn Hoff]. split; [apply removable_tail|done].
    - split; [apply removable_tail|done]. }
  destruct r; (eapply persisted_same; [..|exact Hp1]; try done; [by exists 0%nat|]); cbn; intros d0 [= <-]; by exists d.
Qed.

(** Connecting: the snapshot and the coins of the new tip reach the disk with the
    block, or nothing does. *)
Lemma connect_persisted env now c b c' r :
  chain_ok c -> undoable (cs_utxos c) b -> cs_height c < U64_MAX -> persisted c ->
  Chainstate.connect_block env now c b = (c', r) -> persisted c'.
Proof.
  intros Hok Hun Hmax Hp Hrun. pose proof Hok as (pairs & older & _ & _ & _ & Hu & Hn & _).
  destruct (unwinds_supply _ _ _ Hu) as [Hwf Htotal].
  pose proof (connect_chain_ok _ _ _ _ _ _ Hok Hun Hmax Hrun) as [_ Herr].
  pose proof Hp as (Hk & Hsp & Hdisk). unfold Chainstate.connect_block in Hrun.
  destruct (validate_block_with_context _ _ _ _ _ _ _ _) as [[]|e]; [|by injection Hrun as <- <-].
  destruct (UtxoSet.apply_block (cs_utxos c) b) as [s [undo|e]] eqn:Happ.
  2:{ injection Hrun as <- <-. destruct (Herr e eq_refl) as [db Hc].
      assert (Chainstate.with_utxos c s = c) as ->; [|done]. apply (f_equal cs_utxos) in Hc. cbn in Hc.
      rewrite Hc. by destruct c. }
  destruct (applied_keys _ {| spent := []; created := [] |} _ _ _ _ Hwf Hk ltac:(constructor) Happ) as [Hk' Hsp'].
  destruct (storage c) as [d|] eqn:Hsd.
  - unfold Chainstate.on_storage in Hrun. cbn [storage Chainstate.with_utxos] in Hrun. rewrite Hsd in Hrun.
    destruct (commit_chainstate d _ _ _) as [d' r'] eqn:Hcommit.
    destruct (Hdisk d eq_refl) as [Hr [Hnet Hsnap Hcoins]].
    apply commit_on_disk in Hcommit as (Hr' & Hnet' & Hspec); [|done]. destruct r' as [u|e]; injection Hrun as <- <-.
    + apply prune_persisted. destruct Hspec as (v & Hv & Hsnap' & T1 & Hoff & Hchain).
      eapply holds_off in Hcoins; [|..|exact Hoff]; [|apply (bool_decide_unpack _); reflexivity].
      rewrite Hnet, <- Hn in Hchain.
      destruct (delta_holds _ _ _ _ _ _ _ _ Hwf Hk Hcoins Happ Hchain) as [Hcoins' _].
      split_and!; [done|by apply Forall_app; split; [|apply Forall_singleton]|].
      intros d0 [= <-]. split; [done|]. split; [cbn; congruence| |done]. by exists v.
    + destruct (Herr e eq_refl) as [db Hc].
      eapply (persisted_same c); [by rewrite Hc..|rewrite Hc; by exists 0%nat| |done].
      cbn. intros d0 [= <-]. exists d. split_and!; [done..|]. by rewrite Hspec.
  - unfold Chainstate.on_storage in Hrun. cbn [storage Chainstate.with_utxos] in Hrun. rewrite Hsd in Hrun.
    injection Hrun as <- <-. apply prune_persisted.
    split_and!; [done|by apply Forall_app; split; [|apply Forall_singleton]|]. cbn. intros d Hd0. congruence.
Qed.

(** Disconnecting too. *)
Lemma disconnect_persisted c c' r :
  chain_ok c -> persisted c -> Chainstate.disconnect_last_block c = (c', r) -> persisted c'.
Proof.
  intros Hok Hp Hrun. pose proof (disconnect_chain_ok _ _ _ Hok Hrun) as [Hok' Herr].
  pose proof Hok as (pairs & older & Hundo & Hblocks & Hne & Hu & Hn & Ht). pose proof Hp as (Hk & Hsp & Hdisk).
  unfold Chainstate.disconnect_last_block in Hrun.
  destruct (last (undo_stack c)) as [u|] eqn:Hlu; [|by injection Hrun as <- <-].
  destruct (last (cs_blocks c)) as [b|]; [|by injection Hrun as <- <-].
  set (s0 := UtxoSet.disconnect_block (cs_utxos c) (block_undo u)) in *.
  assert (keys_ok (us_entries s0) /\ UtxoSet.wf s0) as [Hk0 Hwf0].
  { destruct pairs as [|[u' b'] pairs]; [by rewrite Hundo in Hlu|].
    rewrite Hundo, fmap_cons, reverse_cons, last_snoc in Hlu. cbn in Hlu. injection Hlu as ->.
    inversion Hu as [|? s1 ? ? ? ? Hsup Hdis Happ Hprev Hu']; subst. fold s0 in Hu'.
    destruct (unwinds_supply _ _ _ Hu') as [Hwf0 _]. split; [|done].
    unfold s0. rewrite disconnect_spec.
    - apply keys_ok_with_new; [by apply keys_ok_without|]. rewrite Forall_forall in Hsp. apply Hsp.
      rewrite Hundo, fmap_cons, reverse_cons. apply elem_of_app. right. by left.
    - destruct (apply_transactions_ok _ _ _ _ _ _ Hwf0 Happ) as (_ & -> & sp & -> & _ & Hnet & _). done. }
  unfold Chainstate.persist_snapshot_for, Chainstate.on_storage in Hrun. cbn [storage Chainstate.with_utxos] in Hrun.
  destruct (storage c) as [d|] eqn:Hsd.
  - destruct (commit_chainstate d _ _ _) as [d' r'] eqn:Hcommit.
    destruct (Hdisk d eq_refl) as [Hr [Hnet Hsnap Hcoins]].
    apply commit_on_disk in Hcommit as (Hr' & Hnet' & Hspec); [|done]. destruct r' as [x|e]; injection Hrun as <- <-.
    + destruct Hspec as (v & Hv & Hsnap' & T1 & kvs & Hkvs & Hnone & Hoff).
      cbn [cs_utxos Chainstate.with_utxos] in Hkvs.
      split_and!; [done|by apply Forall_removelast|].
      cbn. intros d0 [= <-]. split; [done|]. split; [cbn; congruence|by exists v|].
      eapply holds_off; [|exact Hoff|by apply image_holds]. apply (bool_decide_unpack _); reflexivity.
    + destruct (Herr e eq_refl) as [db Hc].
      eapply (persisted_same c); [by rewrite Hc..|rewrite Hc; by exists 0%nat| |done].
      cbn. intros d0 [= <-]. exists d. split_and!; [done..|]. by rewrite Hspec.
  - injection Hrun as <- <-. split_and!; [done|by apply Forall_removelast|]. cbn. intros d Hd0. congruence.
Qed.

Lemma step_persisted env c c' : chain_ok c -> persisted c -> step env c c' -> persisted c'.
Proof.
  intros Hok Hp Hstep. revert Hok Hp. destruct Hstep as [now c b c' r Hun Hmax Hrun|c c' r Hrun]; intros Hok Hp.
  - by eapply connect_persisted.
  - by eapply disconnect_persisted.
Qed.
(** Saving a chain puts it on disk. *)
Lemma save_persisted c c' d :
  UtxoSet.wf (cs_utxos c) -> keys_ok (us_entries (cs_utxos c)) -> undo_stack c = [] -> storage c = Some d ->
  removable d -> db_network (disk d) = cs_network c ->
  Chainstate.save_persisted_chainstate c = (c', Ok tt) -> persisted c' /\ (chain_ok c -> chain_ok c').
Proof.
  intros Hwf Hk Hundo Hst Hr Hnet. unfold Chainstate.save_persisted_chainstate, Chainstate.persist_snapshot_for, Chainstate.on_storage.
  rewrite Hst. destruct (commit_chainstate d _ _ _) as [d' r] eqn:Hcommit.
  intros Heq. assert (c' = Chainstate.with_storage c (Some d') /\ r = Ok tt) as [-> ->] by (split; congruence).
  apply commit_on_disk in Hcommit as (Hr' & Hnet' & v & Hv & Hsnap & T1 & kvs & Hkvs & Hnone & Hoff); [|done].
  split; [|done]. split_and!; [done|cbn; by rewrite Hundo|]. cbn. intros d0 [= <-].
  split; [done|]. split; [cbn; congruence|by exists v|].
  eapply holds_off; [|exact Hoff|by apply image_holds]. apply (bool_decide_unpack _); reflexivity.
Qed.

(** What a restart reads from the disk. *)
Lemma read_back `{Dl : !DbSerdeLaws} d c : on_disk_ok d c -> UtxoSet.wf (cs_utxos c) ->
  (forall o, Db.load_chainstate_snapshot (disk d) = Ok o ->
     o = Some {| snap_height := cs_height c; snap_tip_hash := cs_tip_hash c; snap_tip_header := cs_tip c |}) /\
  (forall l, Db.load_utxos (disk d) = Ok l -> l ≡ₚ UtxoSet.entries (cs_utxos c)).
Proof.
  intros [Hnet (v & Hv & Hsnap) [Hc1 Hc2]] Hwf. split.
  - intros o Ho. unfold Db.load_chainstate_snapshot, Db.load, Db.get in Ho.
    apply bind_Ok in Ho as (bs & Hbs & Ho). unfold absent_is_none in Hbs.
    pose proof (env_get_law (env (db_state (disk d))) Meta SNAPSHOT_KEY) as Hlaw. unfold stored_tables in Hsnap.
    destruct (env_get _ _ _) as [bs'|[]]; try done; [|congruence]. injection Hbs as <-.
    rewrite Hsnap in Hlaw. injection Hlaw as <-. cbn [decode_stored] in Ho. unfold deserialize_record in Ho.
    rewrite (serde_round_trip _ _ Hv) in Ho. by injection Ho as <-.
  - intros l Hl'. unfold Db.load_utxos, Db.list_values in Hl'. apply bind_Ok in Hl' as (rows & Hrows & Hmap).
    unfold Db.entries, map_lmdb_err in Hrows. destruct (env_iter _ _) as [rows'|] eqn:E; [|done].
    injection Hrows as ->. apply env_iter_law in E as [Hin Hsorted]. fold (stored_tables (disk d)) in Hin.
    assert (Forall2 (fun row e => deserialize_value row.2 = Some e) rows l) as Hdec.
    { clear -Hmap. revert l Hmap. induction rows as [|row rows IH]; intros l H; cbn in H; [injection H as <-; constructor|].
      apply bind_Ok in H as (e & He & (es & Hes & [= <-])%bind_Ok). constructor; [|by apply IH].
      unfold deserialize_record, ok_or in He. destruct (deserialize_value row.2); [by injection He as ->|done]. }
    assert (forall i row e, rows !! i = Some row -> l !! i = Some e ->
      row.1 = key_bytes (UtxoEntry.key e) /\ us_entries (cs_utxos c) !! UtxoEntry.key e = Some e) as Hrow.
    { intros i [kb v0] e Hi He. pose proof (Forall2_lookup_lr _ _ _ _ _ _ Hdec Hi He) as Hv0. cbn in Hv0.
      apply list_elem_of_lookup_2, Hin in Hi. destruct (Hc2 _ _ Hi) as (k & e' & He' & ->).
      destruct (Hc1 _ _ He') as (v1 & Hv1 & HT). rewrite HT in Hi. injection Hi as ->.
      rewrite (serde_round_trip _ _ Hv1) in Hv0. injection Hv0 as ->. by destruct (Hwf _ _ He') as [-> _]. }
    pose proof (Forall2_length _ _ _ Hdec) as Hlen. apply NoDup_Permutation.
    + apply NoDup_alt. intros i j e Hi Hj.
      assert (NoDup rows.*1) as Hnd by by apply strictly_sorted_NoDup.
      destruct (lookup_lt_is_Some_2 rows i) as [ri Hri]; [apply lookup_lt_Some in Hi; lia|].
      destruct (lookup_lt_is_Some_2 rows j) as [rj Hrj]; [apply lookup_lt_Some in Hj; lia|].
      destruct (Hrow _ _ _ Hri Hi) as [Hki _]. destruct (Hrow _ _ _ Hrj Hj) as [Hkj _].
      apply (NoDup_lookup _ i j (key_bytes (UtxoEntry.key e)) Hnd); rewrite list_lookup_fmap.
      * by rewrite Hri, <- Hki.
      * by rewrite Hrj, <- Hkj.
    + apply (NoDup_fmap_1 UtxoEntry.key). by apply entries_NoDup.
    + intros e. rewrite elem_of_entries by done. split.
      * intros (i & Hi)%list_elem_of_lookup.
        destruct (lookup_lt_is_Some_2 rows i) as [ri Hri]; [apply lookup_lt_Some in Hi; lia|].
        by destruct (Hrow _ _ _ Hri Hi).
      * intros He. destruct (Hc1 _ _ He) as (v1 & Hv1 & HT). apply Hin in HT. apply list_elem_of_lookup in HT as [i Hi].
        destruct (Forall2_lookup_l _ _ _ _ _ Hdec Hi) as (e' & He' & Hv'). cbn in Hv'.
        rewrite (serde_round_trip _ _ Hv1) in Hv'. injection Hv' as ->. by eapply list_elem_of_lookup_2.
Qed.

(** *** The first start *)

Lemma genesis_block_shape network : let g := Chainstate.genesis network in
  exists script cb, transactions (gs_block g) = [cb] /\ inputs cb = [] /\
    outputs cb = [{| value_atoms := genesis_utxo_value network; locking_script := script |}] /\
    Transaction.txid cb = gs_coinbase_txid g /\ height (header (gs_block g)) = 0.
Proof.
  intros g. unfold g, Chainstate.genesis. destruct (genesis_ready network) as [s E]. cbn. unfold is_Some_proj.
  destruct (genesis_state network) as [s2|] eqn:E2; [|done]. injection E as ->.
  assert (part_network (genesis_parts network) = network) as Hn by by destruct network.
  unfold genesis_state in E2. pose proof (genesis_state_from_parts_Some _ _ E2) as (_ & _ & _ & Htx & _ & Hh & Htxs).
  rewrite Hn in Htxs. exists (part_reward_script (genesis_parts network)), (genesis_coinbase network
    (part_tx_version (genesis_parts network)) (part_lock_time (genesis_parts network)) (part_reward_script (genesis_parts network))).
  split_and!; [done..| |by rewrite Hh]. rewrite Htx.
  unfold genesis_state_from_parts in E2. apply bind_Some in E2 as ([] & Ha & _). apply assert_that_Some, bool_decide_eq_true in Ha.
  by rewrite Hn in Ha.
Qed.
(** The coins of a fresh chain are those of applying genesis to nothing. *)
Lemma genesis_applies network db : exists undo,
  UtxoSet.apply_block (UtxoSet.new network) (gs_block (Chainstate.genesis network))
  = (cs_utxos (Chainstate.fresh_with_storage network db), Ok undo).
Proof.
  destruct (genesis_block_shape network) as (script & cb & Htxs & Hin & Hout & Htxid & Hh).
  unfold Chainstate.fresh_with_storage. rewrite Htxs. cbn [head mbind option_bind]. rewrite Hout. cbn [head mbind option_bind default].
  unfold UtxoSet.apply_block. rewrite Htxs, Hh. cbn [UtxoSet.apply_transactions]. rewrite Hin. cbn [UtxoSet.spend_inputs].
  unfold UtxoSet.create_outputs. rewrite Hout. cbn [imap]. rewrite Htxid.
  assert (Transaction.is_coinbase cb = true) as -> by (unfold Transaction.is_coinbase; rewrite Hin; done).
  cbn [UtxoSet.insert_outputs]. change (Z.of_nat 0 mod 2 ^ 32) with 0. 
  unfold UtxoSet.insert. cbn [u_network UtxoEntry.new UtxoEntry.coinbase us_network UtxoSet.new value_atoms].
  rewrite bool_decide_true by done. cbn [negb us_entries UtxoSet.new]. rewrite lookup_empty. by eexists.
Qed.
Lemma start_persisted network d c0 :
  removable d -> db_network (disk d) = network -> (forall k, stored_tables (disk d) !! (Utxos, k) = None) ->
  Startup.start_fresh network d = (c0, Ok tt) -> chain_ok c0 /\ persisted c0 /\ is_Some (storage c0) /\ cs_network c0 = network.
Proof.
  intros Hr Hnet Hempty Hrun. destruct (genesis_applies network (Some d)) as [undo Happ].
  pose proof (fresh_chain_ok (Hd:=lmdb_database) network) as Hok.
  set (c := Chainstate.fresh_with_storage (Hd:=lmdb_database) network (Some d)) in *.
  assert (head (cs_blocks c) = Some (gs_block (Chainstate.genesis network)) /\ storage c = Some d /\ cs_network c = network
    /\ undo_stack c = [] /\ cs_height c = 0 /\ (forall d', chain_ok (Chainstate.with_storage c (Some d')))) as
    (Hhead & Hst & Hcn & Hundo & Hheight & Hok').
  { unfold c, Chainstate.fresh_with_storage in *. destruct (UtxoSet.insert _ _). split_and!; try done.
    intros d'. apply (Hok (Some d')). }
  unfold Startup.start_fresh in Hrun. fold c in Hrun. rewrite Hhead in Hrun. unfold Chainstate.on_storage in Hrun. rewrite Hst in Hrun.
  destruct (@commit_chainstate lmdb_database d _ _ _) as [d' r] eqn:Hcommit.
  assert (c0 = Chainstate.with_storage c (Some d') /\ r = Ok tt) as [-> ->] by (split; congruence).
  split; [apply Hok'|]. split; [|done].
  apply commit_on_disk in Hcommit as (Hr' & Hnet' & v & Hv & Hsnap & T1 & Hoff & Hchain); [|done].
  rewrite Hnet in Hchain. unfold UtxoSet.apply_block in Happ.
  assert (holds_utxos (stored_tables (disk d)) (us_entries (UtxoSet.new network))) as Hholds.
  { split; [intros k e; cbn; by rewrite lookup_empty|]. intros kb w. by rewrite Hempty. }
  eapply holds_off in Hholds; [|..|exact Hoff]; [|apply (bool_decide_unpack _); reflexivity].
  destruct (delta_holds (UtxoSet.new network) _ _ _ _ _ _ _ ltac:(done) ltac:(done) Hholds Happ Hchain) as [Hcoins Hk].
  split_and!; [done|cbn; rewrite Hundo; constructor|]. cbn. intros d0 [= <-]. split; [done|].
  split; [change (db_network (disk d') = cs_network c); congruence| |done].
  exists v. split; [|done]. change (serialize_value {| snap_height := cs_height c; snap_tip_hash := cs_tip_hash c;
    snap_tip_header := cs_tip c |} = Some v). by rewrite Hheight.
Qed.

Lemma step_storage env c c' : step env c c' -> is_Some (storage c) -> is_Some (storage c') /\ cs_network c' = cs_network c.
Proof.
  assert (forall c op c' r, Chainstate.on_storage c op = (c', r) -> is_Some (storage c) ->
    is_Some (storage c') /\ cs_network c' = cs_network c) as Hon.
  { intros c0 op c0' r Hrun [d Hd0]. unfold Chainstate.on_storage in Hrun. rewrite Hd0 in Hrun.
    destruct (op d) as [d' r']. injection Hrun as <- <-. by eexists. }
  assert (forall env c, is_Some (storage c) -> is_Some (storage (Chainstate.prune_history env c)) /\
    cs_network (Chainstate.prune_history env c) = cs_network c) as Hprune.
  { intros env0 c0 [d Hd0]. unfold Chainstate.prune_history. set (retain := saturating_add _ _ _).
    assert (storage (Chainstate.prune_history_to_retain c0 retain) = storage c0 /\
      cs_network (Chainstate.prune_history_to_retain c0 retain) = cs_network c0) as [Hs1 Hn1].
    { unfold Chainstate.prune_history_to_retain. destruct (_ || _); [done|]. by destruct (Nat.eqb _ 0). }
    destruct (_ <? _); [rewrite Hs1, Hn1; by eauto|]. rewrite Hs1, Hd0.
    destruct (prune_archived_blocks d _ _) as [d' [rep|e]]; (split; [by eexists|done]). }
  destruct 1 as [now c b c' r _ _ Hrun|c c' r Hrun]; intros Hst.
  - unfold Chainstate.connect_block in Hrun. destruct (validate_block_with_context _ _ _ _ _ _ _ _); [|by injection Hrun as <- _].
    destruct (UtxoSet.apply_block _ _) as [s [undo|e]]; [|by injection Hrun as <- _].
    destruct (Chainstate.on_storage _ _) as [c1 [u|e]] eqn:E; apply Hon in E as [Hst1 Hn1]; try done; injection Hrun as <- _; [|done].
    destruct (Hprune env (Chainstate.with_history (Chainstate.with_tip c1 (Some (header b)) (BlockHeader.block_hash (header b)) (height (header b)))
      (cs_blocks c1 ++ [b]) (<[BlockHeader.block_hash (header b) := length (cs_blocks c1)]> (block_index_by_hash c1))
      (undo_stack c1 ++ [{| previous_tip := cs_tip c1; previous_tip_hash := cs_tip_hash c1; block_undo := undo |}])) Hst1) as [? Hn2].
    split; [done|]. etransitivity; [exact Hn2|]. exact Hn1.
  - unfold Chainstate.disconnect_last_block in Hrun.
    destruct (last (undo_stack c)) as [u|]; [|by injection Hrun as <- _].
    destruct (last (cs_blocks c)) as [b|]; [|by injection Hrun as <- _].
    destruct (Chainstate.persist_snapshot_for _ _ _ _) as [c1 [x|e]] eqn:E; apply Hon in E as [Hst1 Hn1]; try done; injection Hrun as <- _; done.
Qed.

Lemma run_persisted env c0 c :
  chain_ok c0 -> persisted c0 -> is_Some (storage c0) -> rtc (step env) c0 c ->
  chain_ok c /\ persisted c /\ is_Some (storage c) /\ cs_network c = cs_network c0.
Proof.
  intros Hok Hp Hst Hrtc. revert Hok Hp Hst. induction Hrtc as [c|c0 c1 c Hstep _ IH]; intros Hok Hp Hst; [done|].
  destruct (step_storage _ _ _ Hstep Hst) as [Hst1 Hn1].
  destruct IH as (? & ? & ? & Hn); [by eapply step_chain_ok|by eapply step_persisted|done|]. split_and!; [done..|congruence].
Qed.

(** Inserting a permutation of a set's entries gives its map. *)
Lemma insert_entries_perm n l s u :
  UtxoSet.wf s -> l ≡ₚ UtxoSet.entries s -> Forall (fun e => u_network e = n) l ->
  Chainstate.insert_entries (UtxoSet.new n) l = Ok u -> us_entries u = us_entries s /\ us_network u = n.
Proof using.
  intros Hwf Hperm Hn Hins.
  assert (forall u0, us_network u0 = n -> Chainstate.insert_entries u0 l = Ok u ->
    us_entries u = with_new (us_entries u0) l /\ us_network u = n) as H.
  { clear Hperm Hins. induction l as [|e l IH]; intros u0 Hu0 H; cbn in H; [by injection H as <-|].
    apply Forall_cons in Hn as [He Hn]. unfold UtxoSet.insert in H. rewrite Hu0, He, bool_decide_true in H by done. cbn [negb] in H.
    destruct (us_entries u0 !! UtxoEntry.key e); [done|]. apply IH in H; [|done..]. exact H. }
  apply H in Hins as [-> ->]; [|done]. split; [|done]. cbn [us_entries UtxoSet.new].
  assert (NoDup (keys_of l)) as Hnd by (rewrite Hperm; by apply entries_NoDup).
  apply map_eq. intros k. destruct (us_entries s !! k) as [e|] eqn:E.
  - destruct (Hwf _ _ E) as [<- _]. apply with_new_in; [done|]. rewrite Hperm. by apply elem_of_entries.
  - rewrite with_new_fresh; [by rewrite lookup_empty|]. intros (e & -> & He)%list_elem_of_fmap.
    rewrite Hperm in He. apply elem_of_entries in He; [congruence|done].
Qed.
Lemma loaded `{Dl : !DbSerdeLaws} d c legacy o :
  on_disk_ok d c -> UtxoSet.wf (cs_utxos c) -> Startup.load_persisted_chainstate legacy (disk d) = Ok o ->
  exists p, o = Some p /\ pc_height p = cs_height c /\ pc_tip_hash p = cs_tip_hash c /\ pc_tip_header p = cs_tip c /\
    pc_utxos p ≡ₚ UtxoSet.entries (cs_utxos c).
Proof.
  intros Hd0 Hwf Hload. destruct (read_back d c Hd0 Hwf) as [Hsnap Hcoins].
  unfold Startup.load_persisted_chainstate in Hload. apply bind_Ok in Hload as (s & Hs0 & Hload).
  apply Hsnap in Hs0 as ->. cbn in Hload. apply bind_Ok in Hload as (l & Hl' & [= <-]). apply Hcoins in Hl'.
  by eexists.
Qed.
Lemma restored p n db c c' :
  UtxoSet.wf (cs_utxos c) -> us_network (cs_utxos c) = n -> pc_height p = cs_height c -> pc_tip_hash p = cs_tip_hash c ->
  pc_tip_header p = cs_tip c -> pc_utxos p ≡ₚ UtxoSet.entries (cs_utxos c) ->
  Chainstate.try_into_chainstate p n db = Ok c' ->
  cs_height c' = cs_height c /\ cs_tip_hash c' = cs_tip_hash c /\ cs_utxos c' = cs_utxos c /\
  (forall h, cs_tip c = Some h -> cs_tip c' = Some h).
Proof.
  intros Hwf Hn Hh Ht Htip Hperm Hrun. unfold Chainstate.try_into_chainstate in Hrun.
  apply bind_Ok in Hrun as (u & Hu & Hrun).
  assert (us_entries u = us_entries (cs_utxos c) /\ us_network u = n) as [Hue Hun].
  { eapply insert_entries_perm; [done..| |exact Hu]. apply Forall_forall. intros e He. rewrite Hperm in He.
    apply elem_of_entries in He; [|done]. destruct (Hwf _ _ He) as [_ ->]. done. }
  destruct (_ && _); [done|]. destruct (_ && _); [done|].
  apply bind_Ok in Hrun as (tip & Htip' & Hrun). apply bind_Ok in Hrun as (blocks & _ & Hrun).
  apply bind_Ok in Hrun as (undo & _ & [= <-]). cbn. split_and!; [done..| |].
  - destruct u, (cs_utxos c). cbn in *. congruence.
  - intros h Hc. rewrite Htip, Hc in Htip'. by destruct (_ || _); [|injection Htip' as <-].
Qed.

(** C8: what a node finds on its disk after a restart is the chain it had. The node starts
    on a database without coins; then blocks are connected below height 2^64 - 1 and the
    tip is disconnected, in any order, and whichever of these attempts fail (in
    validation, in the store, or in the block files), the snapshot and the coins that the
    database gives back are those of the chain in memory, and the chain state made of
    them has its height, tip and coins. Every block tried spends none of its own outputs
    and finds the place of its coinbase output free ([Chainstate.undoable]); the two
    exceptions are [Utxo.disconnect_keeps_internally_spent] and
    [Utxo.duplicate_output_replaces_entry]. Reads may fail; the removal of the commit
    journal may not ([failed_journal_removal_diverges]). *)
Theorem restart_restores `{Dl : !DbSerdeLaws} env (n : Network) (d : Disk) c0 c :
  removable d -> db_network (disk d) = n -> (forall k, stored_tables (disk d) !! (Utxos, k) = None) ->
  Startup.start_fresh n d = (c0, Ok tt) -> rtc (step env) c0 c ->
  exists d', storage c = Some d' /\
  forall legacy o, Startup.load_persisted_chainstate legacy (disk d') = Ok o ->
  exists p, o = Some p /\ pc_height p = cs_height c /\ pc_tip_hash p = cs_tip_hash c /\ pc_tip_header p = cs_tip c /\
    pc_utxos p ≡ₚ UtxoSet.entries (cs_utxos c) /\
    forall c', Chainstate.try_into_chainstate p n (Some d') = Ok c' ->
      cs_height c' = cs_height c /\ cs_tip_hash c' = cs_tip_hash c /\ cs_utxos c' = cs_utxos c /\
      (forall h, cs_tip c = Some h -> cs_tip c' = Some h).
Proof.
  intros Hr Hnet Hempty Hstart Hsteps.
  destruct (start_persisted n d c0 Hr Hnet Hempty Hstart) as (Hok0 & Hp0 & Hst0 & Hn0).
  destruct (run_persisted _ _ _ Hok0 Hp0 Hst0 Hsteps) as (Hok & (_ & _ & Hdisk) & [d' Hst] & Hn).
  pose proof Hok as (pairs & older & _ & _ & _ & Hu & Hnu & _). destruct (unwinds_supply _ _ _ Hu) as [Hwf _].
  exists d'. split; [done|]. intros legacy o Hload. destruct (Hdisk d' Hst) as [_ Hd'].
  destruct (loaded _ _ _ _ Hd' Hwf Hload) as (p & -> & Hh & Ht & Htip & Hperm). exists p. split_and!; [done..|].
  intros c' Hc'. eapply restored; [done| |done..|exact Hc']. congruence.
Qed.
End follows.
