(* ===== verification/DbReturns.v ===== *)
(** * The writes of the database return

    LMDB may refuse a write for want of space any number of times, and the walk of
    the height index follows the records of the archive wherever they lead. Both
    end: the first by the bound on the map's size ([Lmdb.write_ends]), the second on
    every archive whose heights decrease towards genesis, which commits preserve. *)
From stdpp Require Import options.
From S2P Require Import Prelude Bytes Text Constants Crypto Keccak Network Rules Transaction Block.
From S2P Require Import Pow Genesis Errors Utxo Validation BlockValidation Lmdb BlockFiles Chainstate Db DbChain.

#[local] Set Default Proof Using "Type*".

(** ** Transactions without unbounded loops *)

Create HintDb totals.
Create HintDb keeps.

Section totals.
Context `{Hl : LmdbStore}.

Definition total {A} (m : txm A) : Prop := forall t, is_Some (m t).
Lemma total_ret {A} (a : A) : total (mret a).
Proof. intros t. by eexists. Qed.
Lemma total_of {A} (r : result StorageError A) : total (txm_of r).
Proof. intros t. by eexists. Qed.
Lemma total_bind {A B} (m : txm A) (f : A -> txm B) : total m -> (forall a, total (f a)) -> total (a ← m; f a).
Proof.
  intros Hm Hf t. unfold mbind, txm_bind. destruct (Hm t) as [[t' [a|e]] ->]; [apply Hf|by eexists].
Qed.
Lemma total_for {A} (l : list A) (f : A -> txm unit) : (forall x, total (f x)) -> total (for_in l f).
Proof. intros Hf. induction l as [|x l IH]; [apply total_ret|]. by apply total_bind. Qed.
Lemma total_get ds k : total (get_in ds k).
Proof. intros t. by eexists. Qed.
Lemma total_peek ds k : total (peek_in ds k).
Proof. intros t. by eexists. Qed.
Lemma total_iter ds : total (iter_in ds).
Proof. intros t. by eexists. Qed.
Lemma total_put ds k v : total (put_in ds k v).
Proof. intros t. unfold put_in. destruct (txn_put t ds k v). by eexists. Qed.
Lemma total_del ds k : total (del_in ds k).
Proof. intros t. by eexists. Qed.
Lemma total_try_del ds k : total (try_del_in ds k).
Proof. intros t. by eexists. Qed.
Lemma total_ends `{Laws : !LmdbLaws} {A : Type} (P : tables -> Prop) (m : txm A) : total m -> ends P m.
Proof. by intros Hm t _. Qed.
End totals.

#[export] Hint Resolve total_ret total_of total_get total_peek total_iter total_put total_del total_try_del : totals.
(** Goes through a transaction's code. *)
Ltac totally :=
  repeat first
    [ progress intros | case_match | assumption | progress auto with totals | apply total_bind | apply total_for ].

Section bodies.
Context `{Hs : Sha3, Hl : LmdbStore, Hd : DbSerde}.

Lemma load_record_total k : total (load_block_record_from_txn k).
Proof. unfold load_block_record_from_txn. totally. Qed.
Lemma flag_total k flag : total (update_main_chain_flag k flag).
Proof. pose proof load_record_total. unfold update_main_chain_flag. totally. Qed.
Lemma archive_total now n h b l : total (write_block_archive now n h b l).
Proof. pose proof load_record_total. unfold write_block_archive, put_transaction. totally. Qed.
Lemma delta_total n b : total (apply_utxo_delta n b).
Proof. unfold apply_utxo_delta, put_new_utxo. totally. Qed.
Lemma clear_total ds : total (clear_db ds).
Proof. unfold clear_db. totally. Qed.
Lemma current_total : total current_main_chain_hashes.
Proof. unfold current_main_chain_hashes. totally. Qed.
Lemma mark_total r : total (Db.mark_pruned r).
Proof. unfold Db.mark_pruned. totally. Qed.
Lemma replace_total now n v utxos archived : total (Db.replace_body now n v utxos archived).
Proof. pose proof clear_total. pose proof archive_total. unfold Db.replace_body. totally. Qed.
End bodies.

(** ** Archives whose heights decrease *)

Section decreasing.
Context `{Hs : Sha3, Hl : LmdbStore, Laws : !LmdbLaws, Hd : DbSerde, Dl : !DbSerdeLaws}.

Definition stored_record (T : tables) (k : bytes) : option BlockArchiveRecord := T !! (Blocks, k) ≫= deserialize_value.
(** What the walk uses of a record. *)
Definition link (r : BlockArchiveRecord) : Z * bytes * bytes := (r_height r, r_block_hash r, r_previous_block_hash r).
Definition links (T : tables) (k : bytes) : option (Z * bytes * bytes) := link <$> stored_record T k.
(** Every record lies under its hash; above height 0 it has a parent lower down. *)
Definition decreasing (T : tables) : Prop := forall k h hash prev,
  links T k = Some (h, hash, prev) -> 0 <= h /\ hash = k /\
  (h <> 0 -> exists h' hash' prev', links T prev = Some (h', hash', prev') /\ h' < h).
Definition keeps_links (T T' : tables) : Prop := forall k, links T' k = links T k.
#[global] Instance keeps_links_preorder : PreOrder keeps_links.
Proof using. split; [by intros T k|]. intros T1 T2 T3 H12 H23 k. by rewrite H23, H12. Qed.

Lemma decreasing_keeps T T' : keeps_links T T' -> decreasing T -> decreasing T'.
Proof using.
  intros Hk HT k h hash prev Hlink. rewrite Hk in Hlink. destruct (HT _ _ _ _ Hlink) as (Hh & He & Hp).
  split_and!; [done..|]. intros Hne. destruct (Hp Hne) as (h' & hash' & prev' & Hl' & Hlt). exists h', hash', prev'. by rewrite Hk.
Qed.
Lemma keeps_off D T T' : Blocks ∉ D -> off D T T' -> keeps_links T T'.
Proof using. intros HD Hoff k. unfold links, stored_record. by rewrite Hoff. Qed.
Lemma serialize_record_inv {A} `{SerdeLaws A} (a : A) v : serialize_record a = Ok v -> deserialize_value v = Some a.
Proof using. intros Hv. apply serialize_record_Ok in Hv. by apply serde_round_trip. Qed.
Lemma keeps_put T k r v :
  links T k = Some (link r) -> serialize_record r = Ok v -> keeps_links T (<[(Blocks, k) := v]> T).
Proof.
  intros Hr Hv k'. unfold links, stored_record. destruct (decide (k' = k)) as [->|Hne].
  - rewrite lookup_insert_eq. cbn. rewrite (serialize_record_inv _ _ Hv). cbn. exact (eq_sym Hr).
  - by rewrite lookup_insert_ne by congruence.
Qed.

Lemma load_record_yields k :
  yields (load_block_record_from_txn k) (fun T o T' => o = stored_record T k /\ T' = T).
Proof.
  unfold load_block_record_from_txn. eapply yields_weaken; [eapply yields_bind; [apply yields_get|intros o; apply yields_of]|].
  intros T o T' (bs & T0 & [-> ->] & Ho & ->). split; [|done]. unfold stored_record.
  destruct (T !! (Blocks, k)) as [v|]; cbn in Ho |- *; [|congruence].
  unfold deserialize_record, ok_or in Ho. destruct (deserialize_value v); cbn in Ho; congruence.
Qed.
Lemma flag_keeps k flag : yields (update_main_chain_flag k flag) (fun T _ T' => keeps_links T T').
Proof.
  unfold update_main_chain_flag. eapply yields_weaken.
  - eapply yields_bind; [apply load_record_yields|intros o]. eapply yields_bind; [apply yields_of|intros r].
    instantiate (1 := fun r T u T' => links T k = Some (link r) -> keeps_links T T'). cbn beta. destruct (Bool.eqb _ _).
    + eapply yields_weaken; [apply yields_ret|]. by intros T u T' [_ ->].
    + eapply yields_weaken; [eapply yields_bind; [apply yields_of|intros v; apply yields_put]|].
      intros T u T' (v & T0 & [Hv ->] & ->) Hr. by eapply (keeps_put _ _ (BlockArchiveRecord.with_main_chain r flag)).
  - intros T u T' (o & T0 & [-> ->] & r & T1 & [Ho ->] & Hk). apply Hk. unfold links.
    destruct (stored_record T k); cbn in Ho |- *; congruence.
Qed.
Lemma keeps_for {A} (l : list A) (f : A -> txm unit) :
  (forall x, yields (f x) (fun T _ T' => keeps_links T T')) -> yields (for_in l f) (fun T _ T' => keeps_links T T').
Proof.
  intros Hf. eapply yields_weaken; [apply (yields_for l f (fun _ => keeps_links) Hf)|].
  intros T u T' Hchain. induction Hchain as [|x l T T0 T' H _ IH]; [done|by transitivity T0].
Qed.
Lemma keeps_touches {A} D (m : txm A) : Blocks ∉ D -> touches D m -> yields m (fun T _ T' => keeps_links T T').
Proof. intros HD Hm. eapply yields_weaken; [apply Hm|]. intros T a T'. by apply keeps_off. Qed.
(** A sequence of writes none of which changes a link. *)
Lemma keeps_bind {A B} (m : txm A) (f : A -> txm B) :
  yields m (fun T _ T' => keeps_links T T') -> (forall a, yields (f a) (fun T _ T' => keeps_links T T')) ->
  yields (a ← m; f a) (fun T _ T' => keeps_links T T').
Proof.
  intros Hm Hf. eapply yields_weaken; [eapply yields_bind; [apply Hm|intros a; apply Hf]|].
  intros T b T' (a & T0 & H1 & H2). by transitivity T0.
Qed.
Lemma keeps_never {A} : yields (A:=A) never (fun T _ T' => keeps_links T T').
Proof. apply yields_never. Qed.
Lemma keeps_of {A} (r : result StorageError A) : yields (txm_of r) (fun T _ T' => keeps_links T T').
Proof. eapply yields_weaken; [apply yields_of|]. by intros T b T' (_ & ->). Qed.
Lemma keeps_ret {A} (a : A) : yields (mret a) (fun T _ T' => keeps_links T T').
Proof. apply (keeps_of (Ok a)). Qed.
Lemma keeps_load k : yields (load_block_record_from_txn k) (fun T _ T' => keeps_links T T').
Proof. eapply yields_weaken; [apply load_record_yields|]. by intros T b T' (_ & ->). Qed.
Lemma keeps_height h v : yields (put_in BlockHeights h v) (fun T _ T' => keeps_links T T').
Proof. apply (keeps_touches [BlockHeights]); [|touch]. apply (bool_decide_unpack _); reflexivity. Qed.
End decreasing.

#[export] Hint Resolve keeps_ret keeps_of keeps_never keeps_load keeps_height flag_keeps : keeps.
Ltac keep :=
  repeat first
    [ progress intros | case_match | assumption | progress auto with keeps | apply keeps_bind | apply keeps_for ].

Section walk.
Context `{Hs : Sha3, Hl : LmdbStore, Laws : !LmdbLaws, Hd : DbSerde, Dl : !DbSerdeLaws}.

Lemma index_loop_keeps rounds : forall r seen, yields (index_loop rounds r seen) (fun T _ T' => keeps_links T T').
Proof. induction rounds as [|rounds IH]; intros r seen; cbn [index_loop]; keep. Qed.
Lemma ends_weaken {A : Type} (P P' : tables -> Prop) (m : txm A) : (forall T, P' T -> P T) -> ends P m -> ends P' m.
Proof. intros HP Hm t Ht. apply Hm. intros T HT. apply HP. by apply Ht. Qed.
(** A step that keeps the links, before one that ends where [P] holds. *)
Lemma ends_step {A B : Type} (P : tables -> Prop) (m : txm A) (f : A -> txm B) :
  (forall T T', keeps_links T T' -> P T -> P T') -> total m -> yields m (fun T _ T' => keeps_links T T') ->
  (forall a, ends P (f a)) -> ends P (a ← m; f a).
Proof.
  intros HP Hm Hk Hf. eapply ends_bind; [by apply total_ends|exact Hk|]. intros a.
  eapply ends_weaken; [|apply Hf]. intros T (T0 & HT0 & Hkeep). by eapply HP.
Qed.
Lemma ends_of {A B : Type} (P : tables -> Prop) (r : result StorageError A) (f : A -> txm B) :
  (forall a, r = Ok a -> ends P (f a)) -> ends P (a ← txm_of r; f a).
Proof.
  intros Hf t Ht. unfold mbind, txm_bind, txm_of. destruct r as [a|e]; [|by eexists]. by apply (Hf a).
Qed.
(** [m] ends in a transaction that has not failed, where [P] holds. *)
Definition ends_live {A : Type} (P : tables -> Prop) (m : txm A) : Prop :=
  forall t T, pending t = Some T -> P T -> is_Some (m t).
(** [m] succeeds only without failing the transaction. *)
Definition live {A} (m : txm A) : Prop :=
  forall t T t' a, pending t = Some T -> m t = Some (t', Ok a) -> is_Some (pending t').
Lemma live_of {A} (r : result StorageError A) : live (txm_of r).
Proof. intros t T t' a HT [= <- _]. by eexists. Qed.
Lemma live_bind {A B} (m : txm A) (f : A -> txm B) : live m -> (forall a, live (f a)) -> live (a ← m; f a).
Proof.
  intros Hm Hf t T t' b HT Hrun. unfold mbind, txm_bind in Hrun. destruct (m t) as [[t1 [a|e]]|] eqn:E; [|done..].
  destruct (Hm _ _ _ _ HT E) as [T1 HT1]. by eapply Hf.
Qed.
Lemma live_get ds k : live (get_in ds k).
Proof. intros t T t' a HT [= <- _]. by eexists. Qed.
Lemma live_put ds k v : live (put_in ds k v).
Proof.
  intros t T t' a HT Hrun. unfold put_in in Hrun. pose proof (txn_put_law t ds k v) as Hlaw.
  destruct (txn_put t ds k v) as [t1 [[]|e]]; [|done]. injection Hrun as <-. rewrite Hlaw, HT. by eexists.
Qed.
Lemma live_load k : live (load_block_record_from_txn k).
Proof. apply live_bind; [apply live_get|]. intros o. apply live_of. Qed.
Lemma live_flag k flag : live (update_main_chain_flag k flag).
Proof.
  apply live_bind; [apply live_load|intros o]. apply live_bind; [apply live_of|intros r].
  destruct (Bool.eqb _ _); [apply (live_of (Ok tt))|]. apply live_bind; [apply live_of|intros v; apply live_put].
Qed.
Lemma ends_live_step {A B : Type} (P : tables -> Prop) (m : txm A) (f : A -> txm B) :
  (forall T T', keeps_links T T' -> P T -> P T') -> total m -> live m -> yields m (fun T _ T' => keeps_links T T') ->
  (forall a, ends_live P (f a)) -> ends_live P (a ← m; f a).
Proof.
  intros HP Hm Hlive Hk Hf t T HT HPT. unfold mbind, txm_bind. destruct (Hm t) as [[t' [a|e]] E]; rewrite E; [|by eexists].
  destruct (Hlive _ _ _ _ HT E) as [T' HT']. apply (Hf a t' T' HT').
  destruct (Hk _ _ _ _ E HT') as (T0 & HT0 & Hkeep). rewrite HT in HT0. injection HT0 as <-. by eapply HP.
Qed.
(** Loading a record to go on with it: the load fails in a failed transaction. *)
Lemma ends_load {B : Type} (P : tables -> Prop) k (f : BlockArchiveRecord -> txm B) :
  (forall r, ends_live (fun T => P T /\ stored_record T k = Some r) (f r)) ->
  ends P (record ← load_block_record_from_txn k; record ← txm_of (ok_or record IncompleteBlockHistory); f record).
Proof.
  intros Hf t Ht. unfold load_block_record_from_txn, mbind, txm_bind, get_in, txm_of.
  pose proof (txn_get_law t Blocks k) as Hlaw. destruct (txn_get t Blocks k) as [v|[]]; cbn [absent_is_none decode_stored];
    [|by eexists..]. destruct Hlaw as (T & HT & Hv).
  unfold deserialize_record. destruct (deserialize_value v) as [r|] eqn:Hr; cbn; [|by eexists].
  apply (Hf r t T HT). split; [by apply Ht|]. unfold stored_record. by rewrite Hv.
Qed.

Lemma linked_closed r T T' : keeps_links T T' ->
  decreasing T /\ links T (r_block_hash r) = Some (link r) -> decreasing T' /\ links T' (r_block_hash r) = Some (link r).
Proof. intros Hk [HT Hr]. split; [by eapply decreasing_keeps|by rewrite Hk]. Qed.
(** The walk has at most as many records below a record as the record is high. *)
Lemma index_loop_ends rounds : forall r seen, (Z.to_nat (r_height r) <= rounds)%nat ->
  ends_live (fun T => decreasing T /\ links T (r_block_hash r) = Some (link r)) (index_loop rounds r seen).
Proof.
  pose proof flag_total as Hflag.
  induction rounds as [|rounds IH]; intros r seen Hr; cbn [index_loop];
    (apply ends_live_step; [apply linked_closed|apply total_put|apply live_put|keep|intros u]);
    (apply ends_live_step; [apply linked_closed|totally|destruct (main_chain r); [apply (live_of (Ok tt))|apply live_flag]|keep|intros u']);
    destruct (Z.eqb_spec (r_height r) 0) as [H0|H0]; try (intros t T _ _; apply total_ret);
    intros t T HT [Hdec Hlink]; destruct (Hdec _ _ _ _ Hlink) as (Hpos & _ & Hparent); [lia|].
  apply (ends_load (fun T => decreasing T /\ links T (r_block_hash r) = Some (link r))).
  - intros r' t' T' HT' [[Hdec' Hlink'] Hr']. destruct (Hdec' _ _ _ _ Hlink') as (_ & _ & Hp').
    destruct (Hp' H0) as (h' & hash' & prev' & Hl' & Hlt). unfold links in Hl'. rewrite Hr' in Hl'. injection Hl' as <- <- <-.
    assert (links T' (r_previous_block_hash r) = Some (link r')) as Hlr by (unfold links; by rewrite Hr').
    destruct (Hdec' _ _ _ _ Hlr) as (_ & He & _).
    eapply (IH r' _ ltac:(lia) t' T' HT'). split; [done|]. by rewrite He.
  - intros T' HT'. rewrite HT in HT'. injection HT' as <-. done.
Qed.
Lemma rebuild_ends tip : ends decreasing (rebuild_height_index tip).
Proof.
  pose proof flag_total as Hflag. pose proof current_total as Hcur. pose proof (clear_total BlockHeights) as Hclear.
  unfold rebuild_height_index. apply ends_step; [apply decreasing_keeps|done| |intros old].
  { apply (keeps_touches []); [set_solver|apply current_touches]. }
  apply ends_step; [apply decreasing_keeps|done| |intros u].
  { apply (keeps_touches [BlockHeights]); [set_solver|apply clear_touches]. }
  case_bool_decide; [apply total_ends; totally|]. apply ends_load. intros r t T HT [Hdec Hr].
  assert (links T tip = Some (link r)) as Hlr by (unfold links; by rewrite Hr).
  destruct (Hdec _ _ _ _ Hlr) as (_ & He & _). unfold mbind, txm_bind.
  destruct (index_loop_ends (Z.to_nat (r_height r)) r ∅ ltac:(done) t T HT) as [[t' [seen|e]] ->]; [by rewrite He| |by eexists].
  assert (total (for_in (filter (fun hash => hash ∉ seen) (sorted_elements bytes_le old))
    (fun hash => update_main_chain_flag hash false))) as Htotal by totally. apply Htotal.
Qed.
Lemma rebuild_keeps tip : yields (rebuild_height_index tip) (fun T _ T' => keeps_links T T').
Proof.
  pose proof index_loop_keeps. unfold rebuild_height_index. apply keeps_bind.
  { apply (keeps_touches []); [set_solver|apply current_touches]. }
  intros old. apply keeps_bind; [|keep]. apply (keeps_touches [BlockHeights]); [set_solver|apply clear_touches].
Qed.
(** *** Commits *)

Definition block_key (b : Block) : bytes := BlockHeader.block_hash (header b).
(** What [write_block_archive] adds, if the block is new. *)
Lemma archive_links now n h b l : yields (write_block_archive now n h b l) (fun T _ T' =>
  T !! (Blocks, block_key b) = None ->
  (h <> 0 -> is_Some (links T (previous_block_hash (header b)))) /\
  forall k, links T' k = if decide (k = block_key b) then Some (h, block_key b, previous_block_hash (header b)) else links T k).
Proof.
  unfold write_block_archive. fold (block_key b). eapply yields_weaken.
  - eapply yields_bind; [apply yields_peek|intros o].
    instantiate (1 := fun o T u T' => o = None ->
      (h <> 0 -> is_Some (links T (previous_block_hash (header b)))) /\
      forall k, links T' k = if decide (k = block_key b) then Some (h, block_key b, previous_block_hash (header b)) else links T k).
    cbn beta. destruct o as [bs|].
    { eapply yields_weaken; [eapply yields_bind; [apply yields_of|intros r; apply yields_of]|]. done. }
    eapply yields_weaken.
    { eapply yields_bind.
      { instantiate (1 := fun T _ T' => T' = T /\ (h <> 0 -> is_Some (links T (previous_block_hash (header b))))).
        destruct (Z.eqb_spec h 0) as [->|Hne]; [eapply yields_weaken; [apply yields_ret|]; by intros T w T' [_ ->]|].
        eapply yields_weaken.
        { eapply yields_bind; [apply load_record_yields|intros o]. eapply yields_bind; [apply yields_of|intros r; apply yields_ret]. }
        intros T w T' (o & T0 & [-> ->] & r & T1 & [Ho ->] & _ & ->). split; [done|]. intros _. unfold links.
        destruct (stored_record T _); [by eexists|done]. }
      intros work. eapply yields_bind; [apply yields_of|intros v]. eapply yields_bind; [apply yields_put|intros u].
      instantiate (1 := fun u T _ T' => keeps_links T T').
      apply keeps_bind; [keep|intros u1]. apply keeps_bind; [|intros u2; apply keeps_bind; [keep|intros o]].
      - apply keeps_for. intros [i tx]. apply keeps_bind; [keep|intros v1].
        apply (keeps_touches [Transactions]); [apply (bool_decide_unpack _); reflexivity|touch].
      - apply (keeps_touches [BlockTransactions]); [apply (bool_decide_unpack _); reflexivity|touch]. }
    intros T u T' (work & T0 & [-> Hp] & v & T1 & [Hv ->] & u1 & T2 & -> & Hk) _. split; [done|]. intros k. rewrite Hk.
    unfold links, stored_record. case_decide as Hkey; [|by rewrite lookup_insert_ne by congruence].
    subst k. rewrite lookup_insert_eq. cbn. by rewrite (serialize_record_inv _ _ Hv).
  - intros T u T' (o & T0 & [-> Ho] & HS) Hnone. apply HS. destruct o as [v|]; [|done]. specialize (Ho v eq_refl). congruence.
Qed.
(** A new block goes above its parent. *)
Definition above_parent (T : tables) (h : Z) (b : Block) : Prop :=
  0 <= h /\ (h <> 0 -> forall h' hash prev, links T (previous_block_hash (header b)) = Some (h', hash, prev) -> h' < h).
Lemma decreasing_add T T' h b :
  decreasing T -> T !! (Blocks, block_key b) = None -> above_parent T h b ->
  (h <> 0 -> is_Some (links T (previous_block_hash (header b)))) ->
  (forall k, links T' k = if decide (k = block_key b) then Some (h, block_key b, previous_block_hash (header b)) else links T k) ->
  decreasing T'.
Proof.
  intros Hdec Hnew [Hh Hup] Hparent Hlinks.
  assert (links T (block_key b) = None) as Hnone by (unfold links, stored_record; by rewrite Hnew).
  assert (forall k x, links T k = Some x -> links T' k = Some x) as Hold.
  { intros k x Hx. rewrite Hlinks. case_decide as Hkey; [subst k; congruence|done]. }
  intros k h1 hash prev Hk. rewrite Hlinks in Hk. case_decide as Hkey.
  - injection Hk as <- <- <-. split_and!; [done..|]. intros Hne. destruct (Hparent Hne) as [[[h' hash'] prev'] Hp].
    exists h', hash', prev'. split; [by apply Hold|by eapply Hup].
  - destruct (Hdec _ _ _ _ Hk) as (? & ? & Hp). split_and!; [done..|]. intros Hne.
    destruct (Hp Hne) as (h' & hash' & prev' & Hl' & ?). exists h', hash', prev'. split; [by apply Hold|done].
Qed.
Definition fresh_above (T : tables) (appended : option (Z * Block)) (location : option BlockFileLocation) : Prop :=
  match appended, location with
  | Some (h, b), Some _ => T !! (Blocks, block_key b) = None /\ above_parent T h b
  | _, _ => True
  end.
Lemma commit_archive_keeps now n appended location :
  yields (match appended, location with
          | Some (h, b), Some location => write_block_archive now n h b location
          | _, _ => mret tt
          end) (fun T _ T' => decreasing T -> fresh_above T appended location -> decreasing T').
Proof.
  destruct appended as [[h b]|]; [destruct location as [l|]|].
  - eapply yields_weaken; [apply archive_links|]. intros T u T' HT Hdec [Hnew Hup]. destruct (HT Hnew) as [Hp Hlinks].
    by eapply decreasing_add.
  - eapply yields_weaken; [apply yields_ret|]. by intros T u T' [_ ->].
  - eapply yields_weaken; [apply yields_ret|]. by intros T u T' [_ ->].
Qed.
Lemma commit_rest_keeps snapshot v utxos (appended : option (Z * Block)) n :
  yields (_ ← put_in Meta SNAPSHOT_KEY v;
          match appended, utxos with
          | Some (_, b), _ => apply_utxo_delta n b
          | None, Some utxos =>
              _ ← clear_db Utxos;
              _ ← for_in utxos (fun kv => put_in Utxos kv.1 kv.2);
              rebuild_height_index (snap_tip_hash snapshot)
          | None, None => mret tt
          end) (fun T _ T' => keeps_links T T').
Proof.
  apply keeps_bind; [apply (keeps_touches [Meta]); [apply (bool_decide_unpack _); reflexivity|touch]|intros u].
  destruct appended as [[h b]|]; [apply (keeps_touches [Utxos]); [apply (bool_decide_unpack _); reflexivity|apply delta_touches]|].
  destruct utxos as [kvs|]; [|keep]. apply keeps_bind; [|intros u1; apply keeps_bind; [|intros u2; apply rebuild_keeps]].
  - apply (keeps_touches [Utxos]); [apply (bool_decide_unpack _); reflexivity|apply clear_touches].
  - apply (keeps_touches [Utxos]); [apply (bool_decide_unpack _); reflexivity|touch].
Qed.
Lemma commit_body_ends now n snapshot v utxos appended location :
  ends (fun T => decreasing T /\ fresh_above T appended location) (Db.commit_body now n snapshot v utxos appended location).
Proof.
  unfold Db.commit_body. eapply ends_bind; [|apply commit_archive_keeps|].
  { apply total_ends. pose proof archive_total. destruct appended as [[h b]|]; [destruct location|]; auto with totals. }
  intros u. eapply (ends_weaken decreasing); [intros T (T0 & [Hdec Hfresh] & Hk); by apply Hk|].
  apply ends_step; [apply decreasing_keeps|totally| |intros u1].
  { apply (keeps_touches [Meta]); [apply (bool_decide_unpack _); reflexivity|touch]. }
  destruct appended as [[h b]|]; [apply total_ends, delta_total|]. destruct utxos as [kvs|]; [|apply total_ends; totally].
  apply ends_step; [apply decreasing_keeps|apply clear_total| |intros u2].
  { apply (keeps_touches [Utxos]); [apply (bool_decide_unpack _); reflexivity|apply clear_touches]. }
  apply ends_step; [apply decreasing_keeps|totally| |intros u3; apply rebuild_ends].
  apply (keeps_touches [Utxos]); [apply (bool_decide_unpack _); reflexivity|touch].
Qed.
End walk.

Section returns.
Context `{Hs : Sha3, Sl : !Sha3Laws Hs, Hl : LmdbStore, Laws : !LmdbLaws, Hd : DbSerde, Dl : !DbSerdeLaws, Henv : ProcessEnv}.

Definition size_ok (db : Db) : Prop := 0 <= map_size (db_state db) <= MAX_MAP_SIZE.
Lemma run_write_returns {A : Type} (P : tables -> Prop) (body : txm A) (R : tables -> tables -> Prop) db :
  ends P body -> yields body (fun T _ T' => R T T') -> P (stored_tables db) -> size_ok db ->
  exists db' r, Db.run_write db body = Some (db', r) /\ size_ok db' /\
    match r with Ok _ => R (stored_tables db) (stored_tables db') | Err _ => stored_tables db' = stored_tables db end.
Proof.
  intros Hb HR HP Hsize. destruct (write_ends P (db_state db) body _ Hb HR HP Hsize) as (s & r & Hw & Hs').
  assert (Db.run_write db body = Some (Db.with_state db s, r)) as E by (unfold Db.run_write; by rewrite Hw).
  exists (Db.with_state db s), r. split; [done|]. split; [done|].
  by apply (run_write_spec _ _ _ _ _ HR) in E as (_ & _ & _ & Hspec).
Qed.
Lemma total_write_returns {A : Type} (body : txm A) D db : total body -> touches D body -> size_ok db ->
  exists db' r, Db.run_write db body = Some (db', r) /\ size_ok db'.
Proof.
  intros Hb HD Hsize. destruct (run_write_returns (fun _ => True) body (off D) db) as (db' & r & ? & ? & _); eauto.
  by apply total_ends.
Qed.
Lemma put_returns db ds k v : size_ok db -> exists db' r, Db.put db ds k v = Some (db', r) /\ size_ok db'.
Proof. apply (total_write_returns _ [ds]); [apply total_put|apply touches_put; by left]. Qed.
Lemma prune_returns faults db tip depth : size_ok db ->
  exists db' r, Db.prune_archived_blocks faults db tip depth = Some (db', r) /\ size_ok db'.
Proof.
  intros Hsize. unfold Db.prune_archived_blocks. destruct (checked_sub tip depth) as [cutoff|]; [|by eexists _, _].
  destruct (Db.list_block_records db) as [records|e]; [|by eexists _, _]. case_bool_decide; [by eexists _, _|].
  set (doomed := mjoin _). destruct (total_write_returns (for_in doomed Db.mark_pruned) [Blocks] db) as (db1 & [u|e] & -> & Hs1);
    [apply total_for; intros r; apply mark_total|apply touches_for, mark_touches|done| |by eexists _, _].
  cbn [mbind option_bind]. destruct (Db.delete_files _ _ _) as [s deleted]. by eexists _, _.
Qed.
Lemma begin_size faults db db' r : Db.begin_journal faults db = (db', r) -> size_ok db -> size_ok db'.
Proof. intros (_ & Hs' & _)%begin_journal_keeps. unfold size_ok. by rewrite Hs'. Qed.

(** Only a block without a record is appended. *)
Lemma appended_fresh faults db appended db' l :
  Db.archive_appended faults db appended = (db', Ok l) ->
  (forall h b, appended = Some (h, b) -> above_parent (stored_tables db) h b) ->
  fresh_above (stored_tables db) appended l.
Proof.
  intros Hrun Hup. destruct appended as [[h b]|]; [|done]. cbn [Db.archive_appended] in Hrun. destruct l as [l|]; [|done].
  split; [|by apply Hup]. unfold Db.archive_append in Hrun. destruct (negb _); [done|].
  destruct (Db.load_block_record db _) as [[record|]|e] eqn:Hload; cbn [mbind result_bind] in Hrun;
    [injection Hrun as _ Hl'; discriminate Hl'| |discriminate Hrun].
  clear Hrun. unfold Db.load_block_record, Db.load, Db.get in Hload.
  pose proof (env_get_law (env (db_state db)) Blocks (block_key b)) as Hlaw. unfold block_key in Hlaw |- *.
  destruct (env_get _ _ _) as [v|[]]; cbn in Hload; try discriminate Hload; [|done].
  destruct (deserialize_record v) as [r|e]; discriminate Hload.
Qed.

(** C10: committing a block or a snapshot returns, whatever the store, the disk and the
    serializer do, on every archive in which heights decrease from a block to its parent,
    as those of the chain do; and it leaves such an archive. A full map is doubled at
    most forty times, and the walk that rebuilds the height index ends at genesis. *)
Theorem commit_returns now faults db snapshot utxos appended :
  decreasing (stored_tables db) -> size_ok db ->
  (forall h b, appended = Some (h, b) -> above_parent (stored_tables db) h b) ->
  exists db' r, Db.commit_chainstate now faults db snapshot utxos appended = Some (db', r) /\
    decreasing (stored_tables db') /\ size_ok db'.
Proof.
  intros Hdec Hsize Hup. unfold Db.commit_chainstate.
  destruct (Db.begin_journal faults db) as [db1 r1] eqn:Hb. pose proof (begin_size _ _ _ _ Hb Hsize) as Hs1.
  apply begin_journal_keeps in Hb as (_ & Hst1 & _).
  assert (stored_tables db1 = stored_tables db) as Ht1 by (unfold stored_tables; by rewrite Hst1). rewrite <- Ht1 in Hdec, Hup.
  destruct r1 as [[]|e]; [|by eexists _, _].
  destruct (mbind _ _) as [[v kvs]|e]; [|by eexists _, _].
  destruct (Db.archive_appended faults db1 appended) as [db2 [l|e]] eqn:Ha; pose proof (archive_appended_keeps _ _ _ _ _ Ha) as [_ Hst2];
    (assert (stored_tables db2 = stored_tables db1) as Ht2 by (unfold stored_tables; by rewrite Hst2));
    (assert (size_ok db2) as Hs2 by (unfold size_ok; by rewrite Hst2)); [|eexists _, _; by rewrite Ht2].
  pose proof (appended_fresh _ _ _ _ _ Ha Hup) as Hfresh. rewrite <- Ht2 in Hdec, Hfresh.
  destruct (run_write_returns (fun T => decreasing T /\ fresh_above T appended l)
    (Db.commit_body now (db_network db2) snapshot v kvs appended l)
    (fun T T' => decreasing T -> fresh_above T appended l -> decreasing T') db2) as (db3 & r3 & -> & Hs3 & Hspec); [|..|done|done|].
  - apply commit_body_ends.
  - unfold Db.commit_body. eapply yields_weaken; [eapply yields_bind; [apply commit_archive_keeps|intros u; apply commit_rest_keeps]|].
    intros T u T' (u1 & T0 & H1 & Hk) HT Hf. eapply decreasing_keeps; [exact Hk|]. by apply H1.
  - cbn. assert (decreasing (stored_tables db3)) as Hdec3 by (destruct r3; [by apply Hspec|by rewrite Hspec]).
    destruct r3 as [u|e]; [|by eexists _, _]. unfold Db.finish_journal. destruct (journal_removal_fails faults); by eexists _, _.
Qed.
End returns.
