(* ===== verification/DbArchive.v ===== *)
(** * Archived blocks load back

    What a commit writes into the archive's tables and files, and that the block is
    read from them again, also after its file was pruned and it has to be rebuilt
    from the transactions in the index. *)
From stdpp Require Import options.
From S2P Require Import Prelude Bytes Text Constants Crypto Keccak Network Rules Transaction Block.
From S2P Require Import Pow Genesis Errors Utxo Validation BlockValidation Lmdb BlockFiles Chainstate Db DbChain DbReturns.

#[local] Set Default Proof Using "Type*".

Section archive.
Context `{Hs : Sha3, Sl : !Sha3Laws Hs, Hl : LmdbStore, Laws : !LmdbLaws, Hd : DbSerde, Dl : !DbSerdeLaws}.

(** The record of the [i]-th transaction of a block. *)
Definition tx_record (h : Z) (b : Block) (i : nat) (tx : Transaction) : TransactionArchiveRecord :=
  {| t_height := h; t_block_hash := block_key b; t_tx_index := Z.of_nat i mod 2 ^ 32; t_txid := Transaction.txid tx;
     t_transaction := tx |}.
Definition order_record (h : Z) (b : Block) : BlockTransactionsRecord :=
  {| o_height := h; o_txids := Transaction.txid <$> transactions b |}.
(** The value stored under a key is [a]. *)
Definition holds {A} `{Serde A} (T : tables) (ds : Dataset) (k : bytes) (a : A) : Prop :=
  exists v, T !! (ds, k) = Some v /\ deserialize_value v = Some a.
(** The archive has the block at height [h], with its raw bytes at [l]. *)
Record archived (n : Network) (h : Z) (b : Block) (l : BlockFileLocation) (T : tables) : Prop := {
  av_record : exists work now flag gone, holds T Blocks (block_key b)
    (let r := BlockArchiveRecord.with_main_chain (archive_record n h b l work now) flag in
     if gone : bool then BlockArchiveRecord.with_pruned r else r);
  av_height : T !! (BlockHeights, height_key h) = Some (block_key b);
  av_order : holds T BlockTransactions (block_key b) (order_record h b);
  av_transactions : forall i tx, transactions b !! i = Some tx -> holds T Transactions (Transaction.txid tx) (tx_record h b i tx);
}.

Lemma holds_put {A} `{SerdeLaws A} T ds k (a : A) v :
  serialize_record a = Ok v -> holds (<[(ds, k) := v]> T) ds k a.
Proof using. intros Hv. exists v. split; [apply lookup_insert_eq|by apply serialize_record_inv]. Qed.
Lemma records_off {A} `{Serde A} D T T' ds k (a : A) : ds ∉ D -> off D T T' -> holds T ds k a -> holds T' ds k a.
Proof using. intros HD Hoff (v & Hv & Ha). exists v. by rewrite Hoff. Qed.

(** The loop over the transactions. *)
Lemma put_transactions h b txs : forall start, NoDup (Transaction.txid <$> txs) ->
  yields (for_in (imap (fun i tx => (Z.of_nat (start + i), tx)) txs) (put_transaction h (block_key b))) (fun T _ T' =>
    off [Transactions] T T' /\
    (forall i tx, txs !! i = Some tx -> holds T' Transactions (Transaction.txid tx) (tx_record h b (start + i) tx)) /\
    (forall k, k ∉ Transaction.txid <$> txs -> T' !! (Transactions, k) = T !! (Transactions, k))).
Proof.
  induction txs as [|tx txs IH]; intros start Hnd; cbn [imap for_in].
  { eapply yields_weaken; [apply yields_ret|]. intros T u T' [_ ->]. split_and!; [done| |done].
    intros i tx. by rewrite lookup_nil. }
  rewrite fmap_cons in Hnd. apply NoDup_cons in Hnd as [Hni Hnd]. specialize (IH (S start) Hnd).
  assert (imap (fun i tx0 => (Z.of_nat (start + S i), tx0)) txs = imap (fun i tx0 => (Z.of_nat (S start + i), tx0)) txs) as Hshift.
  { apply imap_ext. intros i x _. cbn. f_equal. f_equal. lia. }
  unfold compose. rewrite Hshift. eapply yields_weaken.
  { eapply yields_bind; [|intros u; apply IH]. unfold put_transaction.
    eapply yields_bind; [apply yields_of|intros v; apply yields_put]. }
  intros T u T' (u1 & T0 & (v & T1 & [Hv ->] & ->) & Hoff & Htxs & Hrest).
  assert (holds (<[(Transactions, Transaction.txid tx) := v]> T) Transactions (Transaction.txid tx) (tx_record h b (start + 0) tx)) as Hhead.
  { by apply holds_put. }
  split_and!.
  - intros ds k Hds. rewrite Hoff by done. apply lookup_insert_ne. intros [= <- _]. apply Hds. by left.
  - intros [|i] x Hi; cbn in Hi.
    + injection Hi as <-. destruct Hhead as (w & Hw & Ha). exists w. split; [|done]. by rewrite Hrest.
    + rewrite Nat.add_succ_r. by apply (Htxs i x).
  - intros k Hk. rewrite fmap_cons in Hk. rewrite Hrest by set_solver. apply lookup_insert_ne. set_solver.
Qed.

Lemma work_same h b : yields (
  let work := block_proof_work (difficulty_target_or_bits (header b)) in
  if h =? 0 then mret work
  else previous ← load_block_record_from_txn (previous_block_hash (header b));
       previous ← txm_of (ok_or previous IncompleteBlockHistory);
       mret (be_decode (r_chainwork previous) + work)) (fun T _ T' => T' = T).
Proof.
  cbv zeta. destruct (h =? 0); [eapply yields_weaken; [apply yields_ret|]; by intros T w T' [_ ->]|].
  eapply yields_weaken.
  { eapply yields_bind; [apply load_record_yields|intros o]. eapply yields_bind; [apply yields_of|intros r; apply yields_ret]. }
  by intros T w T' (o & T0 & [_ ->] & r & T1 & [_ ->] & _ & ->).
Qed.
Lemma archive_writes now n h b l : NoDup (Transaction.txid <$> transactions b) ->
  yields (write_block_archive now n h b l) (fun T _ T' => T !! (Blocks, block_key b) = None -> archived n h b l T').
Proof.
  intros Hnd. unfold write_block_archive. fold (block_key b).
  eapply yields_weaken; [eapply yields_bind; [apply yields_peek|intros o]|].
  - instantiate (1 := fun o T u T' => o = None -> archived n h b l T'). cbn beta. destruct o as [bs|].
    { eapply yields_weaken; [eapply yields_bind; [apply yields_of|intros r; apply yields_of]|]. done. }
    pose proof (put_transactions h b (transactions b) 0 Hnd) as Hfor.
    eapply yields_weaken.
    { eapply yields_bind; [apply work_same|intros work]. eapply yields_bind; [apply yields_of|intros v].
      eapply yields_bind; [apply yields_put|intros u1]. eapply yields_bind; [apply yields_put|intros u2].
      eapply yields_bind; [apply Hfor|intros u3]. eapply yields_bind; [apply yields_of|intros o]. apply yields_put. }
    intros T u T' (work & T0 & -> & v & T1 & [Hv ->] & u1 & T2 & -> & u2 & T3 & -> & u3 & T4 & (Hoff & Htxs & _) & o & T5 & [Ho ->] & ->) _.
    split.
    + exists work, now, true, false. exists v. split; [|by apply serialize_record_inv].
      rewrite lookup_insert_ne by done. rewrite Hoff by by intros [?|[]%elem_of_nil]%elem_of_cons.
      rewrite lookup_insert_ne by done. apply lookup_insert_eq.
    + rewrite lookup_insert_ne by done. rewrite Hoff by by intros [?|[]%elem_of_nil]%elem_of_cons. apply lookup_insert_eq.
    + by apply holds_put.
    + intros i tx Hi. destruct (Htxs i tx Hi) as (w & Hw & Ha). exists w. split; [|done]. by rewrite lookup_insert_ne.
  - intros T u T' (o & T0 & [-> Ho] & HS) Hnone. apply HS. destruct o as [v|]; [|done]. specialize (Ho v eq_refl). congruence.
Qed.
Lemma archived_off D n h b l T T' :
  Blocks ∉ D -> BlockHeights ∉ D -> BlockTransactions ∉ D -> Transactions ∉ D -> off D T T' ->
  archived n h b l T -> archived n h b l T'.
Proof.
  intros H1 H2 H3 H4 Hoff [(work & now & flag & gone & Hr) Hh Ho Ht]. split.
  - exists work, now, flag, gone. by eapply records_off.
  - by rewrite Hoff.
  - by eapply records_off.
  - intros i tx Hi. eapply records_off; [exact H4|done|by apply Ht].
Qed.
(** *** Pruning *)

(** The record of [r], pruned or not, is stored. *)
Definition markable (T : tables) (r : BlockArchiveRecord) : Prop := exists s,
  stored_record T (r_block_hash r) = Some s /\ BlockArchiveRecord.with_pruned s = BlockArchiveRecord.with_pruned r.
Lemma mark_archived n h b l r : yields (Db.mark_pruned r) (fun T _ T' => markable T r ->
  (archived n h b l T -> archived n h b l T') /\ (forall r', markable T r' -> markable T' r')).
Proof.
  unfold Db.mark_pruned. destruct (pruned r); [eapply yields_weaken; [apply yields_ret|]; by intros T u T' [_ ->]|].
  eapply yields_weaken; [eapply yields_bind; [apply yields_of|intros v; apply yields_put]|].
  intros T u T' (v & T0 & [Hv ->] & ->) (s & Hr & He). apply serialize_record_inv in Hv. split.
  - intros [(work & now & flag & gone & Hrec) Hh Ho Ht].
    split; [|by rewrite lookup_insert_ne|by destruct Ho as (w & Hw & ?); exists w; rewrite lookup_insert_ne|
             by intros i tx Hi; destruct (Ht i tx Hi) as (w & Hw & ?); exists w; rewrite lookup_insert_ne].
    destruct (decide (r_block_hash r = block_key b)) as [Hk|Hne].
    + exists work, now, flag, true. rewrite Hk in Hr |- *. exists v. split; [apply lookup_insert_eq|].
      rewrite Hv. f_equal. destruct Hrec as (w & Hw & Ha). unfold stored_record in Hr. rewrite Hw in Hr. cbn in Hr.
      rewrite Ha in Hr. injection Hr as <-. rewrite <- He. by destruct gone.
    + exists work, now, flag, gone. destruct Hrec as (w & Hw & Ha). exists w. split; [|done].
      rewrite lookup_insert_ne; [done|congruence].
  - intros r' (s' & Hr' & He'). unfold markable, stored_record. destruct (decide (r_block_hash r' = r_block_hash r)) as [Hk|Hne].
    + rewrite Hk, lookup_insert_eq. cbn. rewrite Hv. eexists. split; [done|]. rewrite Hk, Hr in Hr'. injection Hr' as <-.
      rewrite <- He', He. done.
    + exists s'. rewrite lookup_insert_ne by congruence. done.
Qed.
Lemma marks_archived n h b l rs : yields (for_in rs Db.mark_pruned) (fun T _ T' =>
  Forall (markable T) rs -> archived n h b l T -> archived n h b l T').
Proof.
  eapply yields_weaken.
  - apply (yields_for rs _ (fun r T T' => markable T r ->
      (archived n h b l T -> archived n h b l T') /\ (forall r', markable T r' -> markable T' r'))).
    intros r. apply mark_archived.
  - intros T u T' Hchain. induction Hchain as [|r rs T T0 T' H _ IH]; [done|].
    intros [Hr Hrs]%Forall_cons Har. destruct (H Hr) as [H1 H2]. apply IH; [|by apply H1].
    eapply Forall_impl; [exact Hrs|]. exact H2.
Qed.

End archive.

(** The files that are chosen hold records of the archive. *)
Definition drawn (rs : list BlockArchiveRecord) (m : gmap Z (list BlockArchiveRecord)) : Prop :=
  map_Forall (fun _ l => l ⊆ rs) m.
Lemma drawn_insert rs m k l : drawn rs m -> l ⊆ rs -> drawn rs (<[k := l]> m).
Proof. intros Hm Hl'. by apply map_Forall_insert_2. Qed.
Lemma drawn_group rs : drawn rs (Db.group_by_file rs).
Proof.
  unfold Db.group_by_file. assert (forall l m, l ⊆ rs -> drawn rs m -> drawn rs
    (foldl (fun m r => <[r_file_number r := default [] (m !! r_file_number r) ++ [r]]> m) m l)) as H.
  { induction l as [|r l IH]; intros m Hsub Hm; [done|]. apply IH; [set_solver|]. apply drawn_insert; [done|].
    destruct (m !! r_file_number r) as [l0|] eqn:E; cbn; [pose proof (Hm _ _ E); cbn in *|]; set_solver. }
  apply H; [done|]. apply map_Forall_empty.
Qed.
Lemma unpruned_subset l : Db.unpruned l ⊆ l.
Proof. intros r Hr. unfold Db.unpruned in Hr. by apply list_elem_of_filter in Hr as [_ ?]. Qed.
Lemma drawn_entries rs m k l : drawn rs m -> (k, l) ∈ Db.file_entries m -> l ⊆ rs.
Proof. intros Hm Hin. apply elem_of_sorted_entries in Hin. exact (Hm _ _ Hin). Qed.
Lemma drawn_below rs cutoff m : drawn rs m -> drawn rs (Db.below_cutoff cutoff m).
Proof.
  intros Hm. unfold Db.below_cutoff.
  assert (forall es p, (forall k l, (k, l) ∈ es -> l ⊆ rs) -> drawn rs p -> drawn rs (foldl (fun prune_files '(number, rs0) =>
      if cutoff <? Db.max_height rs0 then prune_files
      else if bool_decide (Db.unpruned rs0 = []) then prune_files
      else <[number := Db.unpruned rs0]> prune_files) p es)) as H.
  { induction es as [|[k l] es IH]; intros p Hes Hp; [done|]. cbn [foldl].
    apply IH; [intros k' l' Hin; by apply (Hes k' l'), list_elem_of_further|].
    destruct (_ <? _); [done|]. case_bool_decide; [done|]. apply drawn_insert; [done|].
    intros r Hr%unpruned_subset. apply (Hes k l); [by left|done]. }
  apply H; [|apply map_Forall_empty]. intros k l Hin. by eapply drawn_entries.
Qed.
Lemma drawn_size rs tip max_bytes : forall es bs p, (forall k l, (k, l) ∈ es -> l ⊆ rs) -> drawn rs p ->
  drawn rs (Db.prune_to_size tip max_bytes bs es p).
Proof.
  induction es as [|[k l] es IH]; intros bs p Hes Hp; [done|]. cbn [Db.prune_to_size].
  assert (forall k' l', (k', l') ∈ es -> l' ⊆ rs) as Hes' by (intros k' l' Hin; by apply (Hes k' l'), list_elem_of_further).
  destruct (_ <=? _); [done|]. destruct (_ || _); [by apply IH|]. apply IH; [done|]. apply drawn_insert; [done|].
  intros r Hr%unpruned_subset. apply (Hes k l); [by left|done].
Qed.
Lemma drawn_chosen `{Henv : ProcessEnv} tip cutoff rs : drawn rs (Db.choose_files tip cutoff rs).
Proof.
  unfold Db.choose_files. pose proof (drawn_group rs) as Hg. pose proof (drawn_below rs cutoff _ Hg) as Hb.
  destruct configured_prune_target_bytes; [|done]. apply drawn_size; [|done]. intros k l Hin. exact (drawn_entries rs _ k l Hg Hin).
Qed.

(** ** Reading back *)

Section reading.
Context `{Hs : Sha3, Sl : !Sha3Laws Hs, Hl : LmdbStore, Laws : !LmdbLaws, Hd : DbSerde, Dl : !DbSerdeLaws, Henv : ProcessEnv}.

(** The block as the archive gives it back: its body with the fees of the record. *)
Definition as_loaded (b : Block) : Block :=
  let b0 := Block.new (header b) (transactions b) in
  {| header := header b0; transactions := transactions b0; witnesses := witnesses b0;
     fees_total_atoms := fees_total_atoms b; fees_miner_atoms := fees_miner_atoms b |}.
(** A header that the archive's record stands for, and a body that the index can list. *)
Record indexable (n : Network) (h : Z) (b : Block) : Prop := {
  ix_height : height (header b) = h;
  ix_network : network_id (header b) = n;
  ix_founders : founders_hash_sha3_384 (header b) = BlockHeader.consensus_founders_hash_sha3_384 /\
                founders_hash_sha3_512 (header b) = BlockHeader.consensus_founders_hash_sha3_512;
  ix_count : zlen (transactions b) < 2 ^ 32;
  ix_txids : NoDup (Transaction.txid <$> transactions b);
}.
(** The raw bytes are there, or their file is gone. *)
Definition readable_or_gone (s : BlockFileStore) (l : BlockFileLocation) (b : Block) : Prop :=
  BlockFileStore.read_block s l = Ok b \/ BlockFileStore.read_block s l = Err (Io FileNotFound).

Lemma delete_readable s k fails l b : readable_or_gone s l b -> readable_or_gone (BlockFileStore.delete_file s k fails).1 l b.
Proof using.
  unfold readable_or_gone, BlockFileStore.delete_file. destruct fails; [done|]. cbn [fst]. destruct (bf_root s) as [files|] eqn:Hr; [|done].
  intros Hor. unfold BlockFileStore.read_block in *. rewrite Hr in Hor. cbn [bf_root BlockFileStore.with_files mbind option_bind bf_network] in *.
  destruct (decide (BlockFileStore.file_path k = BlockFileStore.file_path (file_number l))) as [->|Hne].
  - right. by rewrite lookup_delete_eq.
  - by rewrite lookup_delete_ne.
Qed.
Lemma delete_all_readable ks : forall fails s l b, readable_or_gone s l b -> readable_or_gone (Db.delete_files fails s ks).1 l b.
Proof using.
  induction ks as [|k ks IH]; intros fails s l b Hor; [done|]. cbn [Db.delete_files].
  apply (delete_readable s k (default false (head fails))) in Hor. destruct (BlockFileStore.delete_file _ _ _) as [s' [u|e]]; [by apply IH|done].
Qed.

Lemma load_holds {A} `{Serde A} db ds k (a : A) o : holds (stored_tables db) ds k a -> Db.load db ds k = Ok o -> o = Some a.
Proof using Laws.
  intros (v & Hv & Ha) Hload. unfold Db.load, Db.get in Hload. pose proof (env_get_law (env (db_state db)) ds k) as Hlaw.
  unfold stored_tables in Hv. destruct (env_get _ _ _) as [w|[]]; cbn in Hload; try discriminate Hload; [|congruence].
  rewrite Hv in Hlaw. injection Hlaw as ->. unfold deserialize_record in Hload. rewrite Ha in Hload. by injection Hload as <-.
Qed.
Lemma load_height db h hash o : stored_tables db !! (BlockHeights, height_key h) = Some hash -> length hash = 48%nat ->
  Db.load_block_hash_by_height db h = Ok o -> o = Some hash.
Proof using Laws.
  intros Hv Hlen Hload. unfold Db.load_block_hash_by_height, Db.get in Hload.
  pose proof (env_get_law (env (db_state db)) BlockHeights (height_key h)) as Hlaw.
  unfold stored_tables in Hv. destruct (env_get _ _ _) as [w|[]]; cbn in Hload; try discriminate Hload; [|congruence].
  rewrite Hv in Hlaw. injection Hlaw as ->. unfold hash_of_bytes in Hload. rewrite Hlen in Hload. by injection Hload as <-.
Qed.

(** The transactions come back in their order. *)
Lemma load_transactions db n h b l txs :
  archived n h b l (stored_tables db) -> zlen (transactions b) < 2 ^ 32 ->
  Db.load_block_transactions db (block_key b) = Ok txs -> t_transaction <$> txs = transactions b.
Proof.
  intros Har Hcount Hload. unfold Db.load_block_transactions in Hload. apply bind_Ok in Hload as (o & Ho & Hload).
  apply (load_holds _ _ _ _ _ (av_order _ _ _ _ _ Har)) in Ho. subst o. cbn [o_txids o_height order_record] in Hload.
  assert (forall rest start txs, (forall i tx, rest !! i = Some tx -> transactions b !! (start + i)%nat = Some tx) ->
    try_map (fun it => txid ← hash_of_bytes it.2;
          tx ← Db.load_transaction db txid;
          tx ← ok_or tx IncompleteBlockHistory;
          reject negb (t_tx_index tx =? it.1 mod 2 ^ 32) || negb (bool_decide (t_block_hash tx = block_key b))
                 || negb (t_height tx =? h) with CorruptData;
          Ok tx) (imap (fun i x => (Z.of_nat (start + i), x)) (Transaction.txid <$> rest)) = Ok txs ->
    t_transaction <$> txs = rest) as H; [|by apply (H (transactions b) 0%nat)].
  induction rest as [|tx rest IH]; intros start out Hrest Hrun; cbn [fmap list_fmap imap try_map] in Hrun; [by injection Hrun as <-|].
  apply bind_Ok in Hrun as (r & Hr & (rs & Hrs & [= <-])%bind_Ok).
  apply bind_Ok in Hr as (txid & Htxid & Hr). cbn [snd] in Htxid. unfold hash_of_bytes in Htxid.
  destruct (Nat.eqb _ _); [|done]. injection Htxid as <-.
  apply bind_Ok in Hr as (o & Ho & Hr). specialize (Hrest 0%nat tx eq_refl) as H0. rewrite Nat.add_0_r in H0.
  apply (load_holds _ _ _ _ _ (av_transactions _ _ _ _ _ Har _ _ H0)) in Ho. subst o. cbn [ok_or mbind result_bind] in Hr.
  destruct (_ || _); [done|]. injection Hr as <-. rewrite fmap_cons. cbn [t_transaction tx_record]. f_equal.
  apply (IH (S start) rs).
  - intros i x Hi. rewrite Nat.add_succ_l, <- Nat.add_succ_r. by apply Hrest.
  - rewrite <- Hrs. f_equal. apply imap_ext. intros i x _. cbn. by rewrite Nat.add_succ_r.
Qed.
(** The record gives the header, the index the body, the file both. *)
Lemma load_archived db n h b l o :
  archived n h b l (stored_tables db) -> indexable n h b ->
  readable_or_gone (block_store db) l (Block.new (header b) (transactions b)) ->
  Db.load_block db (block_key b) = Ok o -> o = Some (as_loaded b).
Proof.
  intros Har [Hh Hn [Hf1 Hf2] Hcount Hnd] Hread Hload. unfold Db.load_block in Hload. apply bind_Ok in Hload as (o' & Ho & Hload).
  destruct (av_record _ _ _ _ _ Har) as (work & now & flag & gone & Hrec).
  unfold Db.load_block_record in Ho. apply (load_holds _ _ _ _ _ Hrec) in Ho. subst o'. clear Hrec.
  set (r := if gone then _ else _) in Hload.
  assert (r_block_hash r = block_key b /\ tx_count r = zlen (transactions b) mod 2 ^ 32 /\ BlockArchiveRecord.file_location r = l
    /\ r_fees_total_atoms r = fees_total_atoms b /\ r_fees_miner_atoms r = fees_miner_atoms b
    /\ r_height r = h /\ BlockArchiveRecord.header r = header b) as (Hkey & Hcnt & Hloc & Hft & Hfm & Hrh & Hhead).
  { split_and!; try by destruct gone.
    - by destruct gone, l.
    - unfold r, archive_record. clear -Hh Hn Hf1 Hf2. destruct gone, (header b); cbn in *; by subst. }
  clearbody r. apply bind_Ok in Hload as (raw & Hraw & Hload).
  assert (raw = None \/ raw = Some (as_loaded b)) as [-> | ->].
  { unfold Db.load_raw_block in Hraw. destruct (pruned r); [left; by injection Hraw|]. rewrite Hloc in Hraw.
    destruct Hread as [E|E]; rewrite E in Hraw; [|left; by injection Hraw].
    destruct (_ || _); [left; by injection Hraw|right]. injection Hraw as <-. unfold Db.with_fees, as_loaded. by rewrite Hft, Hfm. }
  - rewrite Hkey in Hload. apply bind_Ok in Hload as (txs & Htxs & Hload). apply (load_transactions _ _ _ _ _ _ Har Hcount) in Htxs.
    destruct (negb _); [done|]. injection Hload as <-. rewrite Htxs, Hhead. unfold Db.with_fees, as_loaded. by rewrite Hft, Hfm.
  - by injection Hload as <-.
Qed.

(** Every record lies under its hash. *)
Definition keyed (T : tables) : Prop := forall k h hash prev, links T k = Some (h, hash, prev) -> hash = k.
(** The file numbers leave room, those of the records included. *)
Definition room (db : Db) (top : Z) : Prop :=
  0 <= top < U64_MAX /\ forall hint, Db.archive_append_file_hint db = Ok hint -> 0 <= default 0 hint <= top.
Lemma append_reads faults db b db1 l top files :
  sound (db_network db) top (block_store db) files -> room db top ->
  archivable (db_network db) (Block.new (header b) (transactions b)) ->
  stored_tables db !! (Blocks, block_key b) = None ->
  Db.archive_append faults db b = (db1, Ok l) ->
  exists l', l = Some l' /\ readable_or_gone (block_store db1) l' (Block.new (header b) (transactions b)).
Proof.
  intros Hsound [[Htop0 Htop] Hhint] Hb Hnew Hrun. unfold Db.archive_append in Hrun.
  pose proof (BlockFiles.ar_network _ _ Hb) as Hnet. cbn in Hnet. rewrite Hnet, bool_decide_true in Hrun by done. cbn [negb] in Hrun.
  destruct (Db.load_block_record db _) as [o|e] eqn:Hload; cbn [mbind result_bind] in Hrun; [|done].
  assert (o = None) as ->.
  { unfold Db.load_block_record, Db.load, Db.get in Hload. pose proof (env_get_law (env (db_state db)) Blocks (block_key b)) as Hlaw.
    unfold block_key in Hlaw at 1. unfold stored_tables in Hnew.
    destruct (env_get _ _ _) as [w|[]]; cbn in Hload; try discriminate Hload; [congruence|by injection Hload]. }
  destruct (Db.archive_append_file_hint db) as [hint|e]; cbn [mbind result_bind] in Hrun; [|done]. specialize (Hhint hint eq_refl).
  set (b0 := Block.new (header b) (transactions b)) in *.
  change (BlockFileStore.append_block_with_minimum_file_number (block_store db) b hint)
    with (BlockFileStore.append_block_with_minimum_file_number (block_store db) b0 hint) in Hrun.
  destruct (append_spec _ top _ files b0 hint (default None (head (append_fails faults))) Hsound Htop0 Htop Hb Hhint) as (k & bs & Happ).
  rewrite (ap_out _ _ _ _ _ _ _ _ _ Happ) in Hrun. pose proof (ap_blocks _ _ _ _ _ _ _ _ _ Happ) as Hbs.
  destruct (default None _) as [fault|]; cbn in Hrun; [done|]. apply pair_equal_spec in Hrun as [<- Hrun]. apply (f_equal (fun r => match r with Ok a => a | Err _ => l end)) in Hrun. cbn beta iota in Hrun. rewrite <- Hrun. eexists. split; [reflexivity|]. left.
  eapply (read_block_record _ _ _ (archive _ bs) _ []).
  - done.
  - cbn. rewrite lookup_insert_eq, app_nil_r. by rewrite (so_network _ _ _ _ Hsound).
  - done.
  - done.
  - cbn. by rewrite (so_network _ _ _ _ Hsound).
Qed.
Lemma prune_archived n h b l faults db tip depth db2 r b0 :
  keyed (stored_tables db) -> archived n h b l (stored_tables db) -> readable_or_gone (block_store db) l b0 ->
  Db.prune_archived_blocks faults db tip depth = Some (db2, r) ->
  archived n h b l (stored_tables db2) /\ readable_or_gone (block_store db2) l b0.
Proof.
  intros Hkeyed Har Hread. unfold Db.prune_archived_blocks. destruct (checked_sub tip depth) as [cutoff|]; [|by intros [= <- <-]].
  destruct (Db.list_block_records db) as [records|e] eqn:Hlist; [|by intros [= <- <-]].
  case_bool_decide as Hentries; [by intros [= <- <-]|].
  set (entries := Db.file_entries _). set (doomed := mjoin entries.*2). intros ([db1 r1] & Hw & [= Hfin])%bind_Some.
  assert (Forall (markable (stored_tables db)) doomed) as Hmark.
  { apply Forall_forall. intros x Hx. apply list_elem_of_join in Hx as (l0 & Hx & Hin). apply list_elem_of_fmap in Hin as ([k l1] & -> & Hin).
    apply (drawn_entries records _ _ _ (drawn_chosen tip cutoff records) Hin) in Hx. cbn in Hx.
    unfold Db.list_block_records in Hlist. apply bind_Ok in Hlist as (rs & Hrs & [= <-]).
    rewrite merge_sort_Permutation in Hx. unfold Db.list_values in Hrs. apply bind_Ok in Hrs as (rows & Hrows & Hmap).
    apply list_elem_of_lookup in Hx as [i Hi].
    assert (Forall2 (fun row a => deserialize_record row.2 = Ok a) rows rs) as Hall by by apply try_map_Ok.
    destruct (Forall2_lookup_r _ _ _ _ _ Hall Hi) as ([kb v] & Hrow & Hv). cbn in Hv.
    unfold Db.entries, map_lmdb_err, map_err in Hrows. destruct (env_iter _ _) as [rows'|] eqn:Hit; [|done]. injection Hrows as ->.
    apply env_iter_law in Hit as [Hit _]. apply list_elem_of_lookup_2, Hit in Hrow.
    unfold deserialize_record, ok_or in Hv. destruct (deserialize_value v) as [x'|] eqn:Hde; [|done]. injection Hv as ->.
    assert (stored_record (stored_tables db) kb = Some x) as Hst by (unfold stored_record, stored_tables; by rewrite Hrow).
    exists x. split; [|done]. assert (r_block_hash x = kb) as ->; [|done].
    eapply (Hkeyed kb (r_height x) _ (r_previous_block_hash x)). unfold links. by rewrite Hst. }
  apply (run_write_spec _ _ (fun T _ T' => Forall (markable T) doomed -> archived n h b l T -> archived n h b l T')) in Hw
    as (_ & Hst & _ & Hspec); [|apply marks_archived].
  destruct r1 as [u|e].
  - pose proof (delete_all_readable entries.*1 (delete_fails faults) _ _ _ Hread) as Hread'. rewrite <- Hst in Hread'.
    destruct (Db.delete_files _ _ _) as [s deleted]. injection Hfin as <- <-. split; [exact (Hspec Hmark Har)|exact Hread'].
  - injection Hfin as <- <-. rewrite Hst, Hspec. split; [exact Har|exact Hread].
Qed.

Lemma commit_archives now n snapshot v kvs h b l :
  NoDup (Transaction.txid <$> transactions b) ->
  yields (Db.commit_body now n snapshot v kvs (Some (h, b)) (Some l)) (fun T _ T' =>
    T !! (Blocks, block_key b) = None -> keyed T -> archived n h b l T' /\ keyed T').
Proof.
  intros Hnd. unfold Db.commit_body. eapply yields_weaken.
  - eapply yields_bind; [apply yields_and; [by apply archive_writes|apply archive_links]|intros u].
    eapply yields_bind; [apply yields_put|intros u1; apply delta_touches].
  - intros T u T' (u0 & T0 & [Har Hlinks] & u1 & T1 & -> & Hoff) Hnew Hkeyed. destruct (Hlinks Hnew) as [_ Hlk]. split.
    + apply (archived_off [Utxos] _ _ _ _ (<[(Meta, SNAPSHOT_KEY) := v]> T0)); [by apply (bool_decide_unpack _)..|done|].
      apply (archived_off [Meta] _ _ _ _ T0); [by apply (bool_decide_unpack _)..| |by apply Har].
      intros ds k Hds. apply lookup_insert_ne. intros [= <- _]. apply Hds. by left.
    + intros k h0 hash prev Hk. rewrite (keeps_off [Utxos] (<[(Meta, SNAPSHOT_KEY) := v]> T0) T') in Hk;
        [|by apply (bool_decide_unpack _)|done].
      assert (links (<[(Meta, SNAPSHOT_KEY) := v]> T0) k = links T0 k) as He by (unfold links, stored_record; by rewrite lookup_insert_ne).
      rewrite He, Hlk in Hk. case_decide as Hkey; [by injection Hk as <- <- <-|by eapply Hkeyed].
Qed.
Lemma hint_same db db' : db_state db = db_state db' -> block_store db = block_store db' ->
  Db.archive_append_file_hint db = Db.archive_append_file_hint db'.
Proof using.
  intros Hst Hbs. unfold Db.archive_append_file_hint, Db.list_block_records, Db.list_values, Db.entries. by rewrite Hst, Hbs.
Qed.

(** C9: a block that is committed for the first time loads back from the archive with its
    header, transactions, witnesses and fees, its height leads to it, and each of its
    transactions is found by its identifier, as far as these reads do not fail; and all of
    this still holds after the archive was pruned to any depth or size, even where a file
    could not be deleted, when the raw file may be gone and the block is rebuilt from the
    index. First time: the index has no record of the block. With one, nothing is
    written, and its height need not lead to it ([reconnected_block_is_not_indexed]).
    Before the commit the files hold whole records ([sound]), the records are under their
    hashes ([keyed]) and file numbers are left ([room]); the block belongs to the network
    and fits in a record ([archivable]), its header has the height it is committed at and
    the founders' hashes, and its transactions are fewer than 2^32 with distinct
    identifiers ([indexable]). *)
Theorem committed_block_loads now faults db snapshot utxos h b top files db' prune_faults tip depth db2 r :
  sound (db_network db) top (block_store db) files -> room db top -> keyed (stored_tables db) ->
  archivable (db_network db) (Block.new (header b) (transactions b)) -> indexable (db_network db) h b ->
  stored_tables db !! (Blocks, block_key b) = None ->
  Db.commit_chainstate now faults db snapshot utxos (Some (h, b)) = Some (db', Ok tt) ->
  Db.prune_archived_blocks prune_faults db' tip depth = Some (db2, r) ->
  (forall o, Db.load_block db2 (block_key b) = Ok o -> o = Some (as_loaded b)) /\
  (forall o, Db.load_block_hash_by_height db2 h = Ok o -> o = Some (block_key b)) /\
  (forall i tx o, transactions b !! i = Some tx -> Db.load_transaction db2 (Transaction.txid tx) = Ok o ->
     o = Some (tx_record h b i tx)).
Proof.
  intros Hsound Hroom Hkeyed Hb Hix Hnew Hrun Hprune. unfold Db.commit_chainstate in Hrun.
  destruct (Db.begin_journal faults db) as [db1 [[]|e]] eqn:Hj; [|done]. apply begin_journal_keeps in Hj as (Hn1 & Hst1 & Hbs1).
  assert (stored_tables db1 = stored_tables db) as Ht1 by (unfold stored_tables; by rewrite Hst1).
  destruct (mbind _ _) as [[v kvs]|e]; [|done].
  destruct (Db.archive_appended faults db1 (Some (h, b))) as [db2' [l|e]] eqn:Ha; [|done].
  apply archive_appended_keeps in Ha as Hkeeps. destruct Hkeeps as [Hn2 Hst2]. cbn [Db.archive_appended] in Ha.
  assert (stored_tables db2' = stored_tables db) as Ht2 by (rewrite <- Ht1; unfold stored_tables; by rewrite Hst2).
  destruct (append_reads faults db1 b db2' l top files) as (l' & -> & Hread); [..|exact Ha|].
  1-4: rewrite ?Hn1, ?Hbs1, ?Ht1; try done. { destruct Hroom as [? Hhint]. split; [done|]. by rewrite (hint_same db1 db). }
  apply bind_Some in Hrun as ([db3 r3] & Hw & [= Hfin]).
  apply (run_write_spec _ _ (fun T _ T' => T !! (Blocks, block_key b) = None -> keyed T ->
    archived (db_network db2') h b l' T' /\ keyed T')) in Hw as (_ & Hst3 & _ & Hspec); [|by apply commit_archives, (ix_txids _ _ _ Hix)].
  destruct r3 as [u|e]; [|done]. rewrite Ht2 in Hspec. destruct (Hspec Hnew Hkeyed) as [Har Hkeyed3].
  assert (stored_tables db' = stored_tables db3 /\ block_store db' = block_store db2') as [Ht' Hbs'].
  { unfold Db.finish_journal in Hfin. destruct (journal_removal_fails faults); [done|]. by injection Hfin as <-. }
  destruct (prune_archived (db_network db2') h b l' prune_faults db' tip depth db2 r (Block.new (header b) (transactions b))) as [Har2 Hread2];
    [by rewrite Ht'..|by rewrite Hbs'|exact Hprune|].
  rewrite Hn2, Hn1 in Har2. split_and!.
  - intros o Ho. by eapply load_archived.
  - intros o Ho. eapply load_height; [exact (av_height _ _ _ _ _ Har2)|apply sha3_384_length|exact Ho].
  - intros i tx o Htx Ho. eapply load_holds; [exact (av_transactions _ _ _ _ _ Har2 _ _ Htx)|exact Ho].
Qed.
End reading.

(** ** Samples *)

#[local] Existing Instances checksum_sha3 checksum_sha3_laws map_lmdb.
#[local] Instance no_vars : ProcessEnv := fun _ => None.
Definition toy_block : Block := Block.new
  {| h_version := 1; network_id := Regnet; height := 0; previous_block_hash := zeros 48; h_merkle_root := zeros 48;
     h_witness_root := zeros 48; founders_hash_sha3_384 := BlockHeader.consensus_founders_hash_sha3_384;
     founders_hash_sha3_512 := BlockHeader.consensus_founders_hash_sha3_512;
     timestamp := 1700000000; difficulty_target_or_bits := zeros 48; nonce := 7 |} [reward_coinbase 0 0].
Definition toy_snapshot : ChainstateSnapshot := {| snap_height := 0; snap_tip_hash := zeros 48; snap_tip_header := None |}.
Definition toy_records : list BlockArchiveRecord := Eval vm_compute in
  [archive_record Regnet 0 toy_block
     {| file_number := 0; record_offset := 0; payload_length := zlen (Block.canonical_bytes toy_block) |}
     (block_proof_work (zeros 48)) 0].
Definition toy_transactions : list TransactionArchiveRecord := Eval vm_compute in
  imap (tx_record 0 toy_block) (transactions toy_block).
#[local] Instance toy_serde : DbSerde :=
  {| ds_snapshot := listed_serde [toy_snapshot]; ds_block := listed_serde toy_records;
     ds_transaction := listed_serde toy_transactions; ds_order := listed_serde [order_record 0 toy_block];
     ds_utxo := listed_serde (UtxoSet.create_outputs (reward_coinbase 0 0) Regnet 0);
     ds_metadata := never_serde; ds_runtime := never_serde;
     ds_peer := never_serde; ds_address := never_serde; ds_health := never_serde |}.
#[local] Instance toy_serde_laws : DbSerdeLaws.
Proof. split; (apply listed_laws || apply never_laws). Qed.
Definition toy_db : Db :=
  {| db_network := Regnet; block_store := {| bf_network := Regnet; bf_root := Some ∅ |};
     db_state := {| Lmdb.env := ∅; map_size := INITIAL_MAP_SIZE |}; commit_journal := false |}.
Definition toy_commit : option (Db * result StorageError unit) :=
  Db.commit_chainstate 0 no_faults toy_db toy_snapshot [] (Some (0, toy_block)).
Definition toy_committed : Db := default toy_db (fst <$> toy_commit).
Lemma some_pair {A B} (o : option (A * B)) a b : snd <$> o = Some b -> o = Some (default a (fst <$> o), b).
Proof. destruct o as [[x y]|]; cbn; congruence. Qed.
Lemma toy_commits : toy_commit = Some (toy_committed, Ok tt).
Proof. apply some_pair. vm_compute. reflexivity. Qed.
Lemma toy_links k x : links ∅ k = Some x -> False.
Proof. unfold links, stored_record. by rewrite lookup_empty. Qed.

Lemma commit_returns_witness : exists db' r,
  Db.commit_chainstate 0 no_faults toy_db toy_snapshot [] (Some (0, toy_block)) = Some (db', r) /\
  decreasing (stored_tables db').
Proof.
  destruct (commit_returns 0 no_faults toy_db toy_snapshot [] (Some (0, toy_block))) as (db' & r & Hrun & Hdec & _).
  - intros k h hash prev Hk. destruct (toy_links _ _ Hk).
  - split; apply Z.leb_le; reflexivity.
  - intros h b Hhb. assert (h = 0) as -> by congruence. split; [apply Z.leb_le; reflexivity|]. intros Hne. destruct (Hne eq_refl).
  - exists db', r. split; [exact Hrun|exact Hdec].
Defined.

Lemma toy_archivable : archivable Regnet (Block.new (header toy_block) (transactions toy_block)).
Proof.
  split; [reflexivity| |reflexivity|apply Z.leb_le; by vm_compute]. split; [|split; [by vm_compute|constructor; [|constructor]]].
  - split_and!; try done; by vm_compute.
  - split; [split; [|reflexivity]|by vm_compute]. split; [|repeat (split; [by vm_compute|]); by vm_compute].
    split; [by vm_compute|]. split; [by vm_compute|]. split; [constructor|]. split; [by vm_compute|]. split; [|by vm_compute].
    constructor; [|constructor]. split; by vm_compute.
Qed.
Lemma toy_hint hint : Db.archive_append_file_hint toy_db = Ok hint -> hint = None.
Proof. intros H. assert (Db.archive_append_file_hint toy_db = Ok None) as E by (vm_compute; reflexivity). rewrite E in H. congruence. Qed.
Lemma committed_block_loads_witness : exists db2 r,
  Db.prune_archived_blocks no_faults toy_committed 5000 100 = Some (db2, r) /\
  forall o, Db.load_block db2 (block_key toy_block) = Ok o -> o = Some (as_loaded toy_block).
Proof.
  destruct (Db.prune_archived_blocks no_faults toy_committed 5000 100) as [[db2 r]|] eqn:Hprune.
  2:{ exfalso. assert (bool_decide (is_Some (Db.prune_archived_blocks no_faults toy_committed 5000 100)) = true) as H by (vm_compute; reflexivity).
      rewrite Hprune in H. discriminate H. }
  exists db2, r. split; [reflexivity|].
  refine (proj1 (committed_block_loads 0 no_faults toy_db toy_snapshot [] 0 toy_block 0 ∅ toy_committed no_faults 5000 100 db2 r
    _ _ _ toy_archivable _ _ toy_commits Hprune)).
  - split; [reflexivity..|]. intros name contents Hn. rewrite lookup_empty in Hn. discriminate Hn.
  - split; [split; [apply Z.leb_le|apply Z.ltb_lt]; reflexivity|]. intros hint Hh.
    assert (hint = None) as -> by (exact (toy_hint hint Hh)). split; apply Z.leb_le; reflexivity.
  - intros k h hash prev Hk. destruct (toy_links _ _ Hk).
  - split; [reflexivity|reflexivity|split; reflexivity|apply Z.ltb_lt; reflexivity|apply NoDup_singleton].
  - vm_compute. reflexivity.
Defined.
