(* ===== verification/DbExample.v ===== *)
(** * The database on concrete chains

    Regnet's genesis and first block on a store that never fails, with a serializer
    that lists the records which occur: the witnesses of [DbChain], and two sequences
    of calls that leave the disk different from the chain in memory. *)
From stdpp Require Import options.
From S2P Require Import Prelude Bytes Text Constants Crypto Keccak Network Rules Transaction Block.
From S2P Require Import Pow Genesis Errors Utxo Validation BlockValidation Lmdb BlockFiles Chainstate Db DbChain DbArchive.

#[local] Existing Instances Keccak.sha3_inst Keccak.sha3_laws.
#[local] Existing Instance accepting_falcon.
#[local] Existing Instance keccak_genesis_ready.
#[local] Existing Instance map_lmdb.
#[local] Existing Instance no_vars.

(** ** The records of the first blocks *)

Definition zero_block : Block := Eval vm_compute in gs_block (Chainstate.genesis Regnet).
Definition one_block : Block := Eval vm_compute in first_block.
Definition example_blocks : list Block := [zero_block; one_block].
Definition example_snapshots : list ChainstateSnapshot := Eval vm_compute in
  (fun b => {| snap_height := height (header b); snap_tip_hash := BlockHeader.block_hash (header b);
               snap_tip_header := Some (header b) |}) <$> example_blocks.
Definition example_records : list BlockArchiveRecord := Eval vm_compute in
  let location0 := {| file_number := 0; record_offset := 0; payload_length := zlen (Block.canonical_bytes zero_block) |} in
  let location1 := {| file_number := 0; record_offset := record_length location0;
                      payload_length := zlen (Block.canonical_bytes one_block) |} in
  let work := block_proof_work (difficulty_target_or_bits (header zero_block)) in
  let one := archive_record Regnet 1 one_block location1
               (work + block_proof_work (difficulty_target_or_bits (header one_block))) 0 in
  [archive_record Regnet 0 zero_block location0 work 0; one; BlockArchiveRecord.with_main_chain one false].
Definition example_transactions : list TransactionArchiveRecord := Eval vm_compute in
  b ← example_blocks;
  imap (fun i tx => {| t_height := height (header b); t_block_hash := BlockHeader.block_hash (header b);
                       t_tx_index := Z.of_nat i; t_txid := Transaction.txid tx; t_transaction := tx |}) (transactions b).
Definition example_orders : list BlockTransactionsRecord := Eval vm_compute in
  (fun b => {| o_height := height (header b); o_txids := Transaction.txid <$> transactions b |}) <$> example_blocks.
Definition example_utxos : list UtxoEntry := Eval vm_compute in
  b ← example_blocks; tx ← transactions b; UtxoSet.create_outputs tx Regnet (height (header b)).
#[local] Instance example_serde : DbSerde :=
  {| ds_snapshot := listed_serde example_snapshots; ds_block := listed_serde example_records;
     ds_transaction := listed_serde example_transactions; ds_order := listed_serde example_orders;
     ds_utxo := listed_serde example_utxos; ds_metadata := never_serde;
     ds_runtime := listed_serde [Db.default_runtime_state];
     ds_peer := never_serde; ds_address := never_serde; ds_health := never_serde |}.
#[local] Instance example_serde_laws : DbSerdeLaws.
Proof. split; (apply listed_laws || apply never_laws). Qed.

(** ** The chain and its disk *)

(** An empty directory and environment; the removals of the journal that fail. *)
Definition example_disk (removals : list bool) : Disk :=
  {| disk := {| db_network := Regnet; block_store := {| bf_network := Regnet; bf_root := Some ∅ |};
                db_state := {| Lmdb.env := ∅; map_size := INITIAL_MAP_SIZE |}; commit_journal := false |};
     clock := 0;
     faults := (fun fails => {| journal_begin_fails := None; append_fails := []; journal_removal_fails := fails;
                                 reset_fails := None; delete_fails := [] |}) <$> removals |}.
Definition started (removals : list bool) : Chainstate * result StorageError unit :=
  Startup.start_fresh Regnet (example_disk removals).
Definition connected (c : Chainstate) : Chainstate * result StorageError unit :=
  Chainstate.connect_block no_env 1773360589 c one_block.

(** One evaluation for all the premises of the witness. *)
Lemma example_runs :
  let s := started [] in
  let m := us_entries (cs_utxos s.1) in
  let cb := default (reward_coinbase 1 0) (head (transactions one_block)) in
  (s.2, m !! {| k_txid := Transaction.txid cb; k_output_index := 0 |}, cs_height s.1, (connected s.1).2)
  = (Ok tt, None, 0, Ok tt).
Proof. vm_compute. reflexivity. Qed.
Lemma quad_inj {A B C D} (a a' : A) (b b' : B) (c c' : C) (d d' : D) :
  (a, b, c, d) = (a', b', c', d') -> a = a' /\ b = b' /\ c = c' /\ d = d'.
Proof. intros H. by injection H. Qed.
Lemma example_starts : started [] = ((started []).1, Ok tt).
Proof. exact (pair_snd _ _ (proj1 (quad_inj _ _ _ _ _ _ _ _ example_runs))). Qed.
Lemma example_connects : connected (started []).1 = ((connected (started []).1).1, Ok tt).
Proof. exact (pair_snd _ _ (proj2 (proj2 (proj2 (quad_inj _ _ _ _ _ _ _ _ example_runs))))). Qed.
Lemma example_undoable : undoable (cs_utxos (started []).1) one_block.
Proof.
  split; [apply (bool_decide_unpack _); by vm_compute|].
  intros cb Hcb. destruct (quad_inj _ _ _ _ _ _ _ _ example_runs) as (_ & H & _). rewrite Hcb in H. exact H.
Qed.
Lemma example_height : cs_height (started []).1 < U64_MAX.
Proof. destruct (quad_inj _ _ _ _ _ _ _ _ example_runs) as (_ & _ & -> & _). done. Qed.

Lemma restart_restores_witness : exists d', storage (connected (started []).1).1 = Some d' /\
  forall o, Startup.load_persisted_chainstate false (disk d') = Ok o ->
  exists p, o = Some p /\ pc_height p = cs_height (connected (started []).1).1.
Proof.
  destruct (restart_restores no_env Regnet (example_disk []) (started []).1 (connected (started []).1).1)
    as (d' & Hd & Hload).
  - constructor.
  - done.
  - intros k. by vm_compute.
  - exact example_starts.
  - apply rtc_once. refine (step_connect _ 1773360589 _ one_block _ _ _ _ example_connects).
    + exact example_undoable.
    + exact example_height.
  - exists d'. split; [exact Hd|]. intros o Ho. destruct (Hload false o Ho) as (p & -> & Hh & _). exists p. split; [reflexivity|exact Hh].
Defined.

(** ** Where the disk and the chain part *)

(** The database under a chain state. *)
Definition under (c : Chainstate) : Db := disk (default (example_disk []) (storage c)).
Definition stored_height (c : Chainstate) : option Z :=
  match Db.load_chainstate_snapshot (under c) with
  | Ok (Some s) => Some (snap_height s)
  | _ => None
  end.
Definition stored_flag (c : Chainstate) (block_hash : bytes) : option bool :=
  match Db.load_block_record (under c) block_hash with
  | Ok (Some r) => Some (main_chain r)
  | _ => None
  end.

(** The transaction of [Database::commit_chainstate] is committed before the journal is
    removed; if the removal fails, the caller gets an error and takes the block off its
    coins again, and the disk stays one block ahead of the chain in memory. *)
Example failed_journal_removal_diverges :
  let c := connected (started [false; true]).1 in
  (c.2, cs_height c.1, stored_height c.1) = (Err (Io OtherIo), 0, Some 1).
Proof. vm_compute. reflexivity. Qed.

Definition startup_check (c : Chainstate) : result StorageError unit :=
  Startup.verify_persisted_chainstate_consistency no_env 1773360589 (under c).
(** A block that is disconnected and connected again has its record in the archive, so
    [Database::commit_chainstate] neither indexes its height nor marks it as part of the
    main chain: the chain in memory has height 1, and the database knows no block there.
    The start-up check accepts the database before, and refuses it then. *)
Example reconnected_block_is_not_indexed :
  let before := (connected (started []).1).1 in
  let c := connected (Chainstate.disconnect_last_block before).1 in
  (c.2, cs_height c.1, stored_height c.1, Db.load_block_hash_by_height (under c.1) 1,
   stored_flag c.1 (BlockHeader.block_hash (header one_block)), startup_check before, startup_check c.1)
  = (Ok tt, 1, Some 1, Ok None, Some false, Ok tt, Err PersistedTipMismatch).
Proof. vm_compute. reflexivity. Qed.
