(* ===== verification/Mempool.v ===== *)
(** * The mempool

    crates/atho-node/src/mempool.rs: entries with their cached sizes, the pool
    with its indexes (mining order, parent and child relations, spent inputs,
    totals), admission, removal, revalidation and the fingerprint. The UTXO
    lookup closure is a function, the clock an argument; log lines are not
    modelled. *)
From stdpp Require Import options.
From S2P Require Import Prelude Bytes Constants Crypto Keccak Network Rules Transaction Block Address.
From S2P Require Import Genesis Signatures TxPolicy Errors Utxo Validation BlockValidation.

(* src: node_config.rs:28-28 DEFAULT_MAX_MEMPOOL_TRANSACTIONS *)
Definition DEFAULT_MAX_MEMPOOL_TRANSACTIONS : Z := 50000.
(* src: node_config.rs:29-29 DEFAULT_MAX_MEMPOOL_VBYTES *)
Definition DEFAULT_MAX_MEMPOOL_VBYTES : Z := 64 * 1024 * 1024.

(* src: mempool.rs:25-36 MempoolEntry *)
Record MempoolEntry := {
  transaction : Transaction;
  fee_atoms : Z;
  received_at_unix : Z;
  e_txid : bytes;
  e_wtxid : bytes;
  base_size_bytes : Z;
  raw_size_bytes : Z;
  vsize_bytes : Z;
}.

(** [Reverse] fields are compared in the opposite direction. *)
(* src: mempool.rs:109-114 MiningOrderKey *)
Record MiningOrderKey := {
  mk_feerate : Z;
  mk_fee : Z;
  mk_txid : bytes;
}.
#[global] Instance MiningOrderKey_eq_dec : EqDecision MiningOrderKey.
Proof. solve_decision. Defined.
#[global] Program Instance MiningOrderKey_countable : Countable MiningOrderKey :=
  inj_countable' (fun k => (mk_feerate k, mk_fee k, mk_txid k))
    (fun p => {| mk_feerate := p.1.1; mk_fee := p.1.2; mk_txid := p.2 |}) _.
Next Obligation. by intros []. Qed.

(* src: mempool.rs:140-144 MempoolLimits *)
Record MempoolLimits := {
  max_transactions : Z;
  max_vbytes : Z;
}.

(* src: mempool.rs:126-138 Mempool *)
Record Mempool := {
  entries : gmap bytes MempoolEntry;
  mining_order : gset MiningOrderKey;
  parents_by_txid : gmap bytes (gset bytes);
  children_by_txid : gmap bytes (gset bytes);
  spent_inputs : gset UtxoKey;
  total_fee_atoms : Z;
  total_raw_bytes : Z;
  total_vbytes : Z;
  limits : MempoolLimits;
  fingerprint_cache : option (Network * bytes);
}.

Module MiningOrderKey.
(** The derived order: higher fee rates first, then higher fees, then txids. *)
Definition compare (a b : MiningOrderKey) : comparison :=
  then_with (Z.compare (mk_feerate b) (mk_feerate a))
    (then_with (Z.compare (mk_fee b) (mk_fee a)) (bytes_compare (mk_txid a) (mk_txid b))).
Definition le (a b : MiningOrderKey) : Prop := compare a b <> Gt.
#[global] Instance le_dec a b : Decision (le a b).
Proof. unfold le. apply _. Defined.
#[global] Instance key_ordered : Ordered compare.
Proof.
  pose proof (flip_ordered _ (Ordered0:=Prelude.key_ordered Z.compare mk_feerate)) as Hrate.
  pose proof (flip_ordered _ (Ordered0:=Prelude.key_ordered Z.compare mk_fee)) as Hfee.
  pose proof (Prelude.key_ordered bytes_compare mk_txid) as Hid.
  exact (then_with_ordered _ _ (Ordered0:=Hrate) (Ordered1:=then_with_ordered _ _ (Ordered0:=Hfee) (Ordered1:=Hid))).
Qed.
#[global] Instance le_total : Total le.
Proof. intros a b. unfold le. rewrite (cmp_antisym (cmp:=compare) a b). destruct (compare a b); cbn; auto. Qed.
#[global] Instance le_trans : Transitive le.
Proof.
  intros a b c. unfold le. intros Hab Hbc Hac.
  destruct (compare a b) eqn:E; [|clear Hab|done].
  - apply Hbc. by rewrite <- (cmp_eq_l (cmp:=compare) a b c E).
  - apply Hbc. apply (cmp_gt_lt compare) in Hac. apply (cmp_gt_lt compare). by eapply (cmp_lt_trans (cmp:=compare)).
Qed.
End MiningOrderKey.

Module MempoolLimits.
(* src: mempool.rs:147-152 MempoolLimits::default *)
Definition default : MempoolLimits :=
  {| max_transactions := DEFAULT_MAX_MEMPOOL_TRANSACTIONS; max_vbytes := DEFAULT_MAX_MEMPOOL_VBYTES |}.
(* src: mempool.rs:667-672 MempoolLimits::normalized *)
Definition normalized (l : MempoolLimits) : MempoolLimits :=
  {| max_transactions := Z.max (max_transactions l) 1; max_vbytes := Z.max (max_vbytes l) 1 |}.
End MempoolLimits.

Module MempoolEntry.
(* src: mempool.rs:39-56 MempoolEntry::new *)
Definition new `{Sha3} (now : Z) (tx : Transaction) (fee : Z) : MempoolEntry :=
  {| transaction := tx; fee_atoms := fee; received_at_unix := now;
     e_txid := Transaction.txid tx; e_wtxid := Transaction.wtxid tx;
     base_size_bytes := Transaction.base_size_bytes tx; raw_size_bytes := Transaction.full_size_bytes tx;
     vsize_bytes := Z.max (Transaction.vsize_bytes tx) 1 |}.
(* src: mempool.rs:89-92 MempoolEntry::feerate_atoms_per_vbyte *)
Definition feerate_atoms_per_vbyte (e : MempoolEntry) : Z := fee_atoms e / vsize_bytes e.
(* src: mempool.rs:117-123 MiningOrderKey::from *)
Definition order_key (e : MempoolEntry) : MiningOrderKey :=
  {| mk_feerate := feerate_atoms_per_vbyte e; mk_fee := fee_atoms e; mk_txid := e_txid e |}.
End MempoolEntry.

Module Mempool.

(** [..Self::default()] with the given limits. *)
Definition empty (l : MempoolLimits) : Mempool :=
  {| entries := ∅; mining_order := ∅; parents_by_txid := ∅; children_by_txid := ∅; spent_inputs := ∅;
     total_fee_atoms := 0; total_raw_bytes := 0; total_vbytes := 0; limits := l; fingerprint_cache := None |}.
(* src: mempool.rs:156-158 Mempool::new *)
Definition new : Mempool := empty MempoolLimits.default.
(* src: mempool.rs:160-165 Mempool::with_limits *)
Definition with_limits (l : MempoolLimits) : Mempool := empty (MempoolLimits.normalized l).

(** Field updates. *)
Definition with_entries (m : Mempool) (es : gmap bytes MempoolEntry) : Mempool :=
  {| entries := es; mining_order := mining_order m; parents_by_txid := parents_by_txid m;
     children_by_txid := children_by_txid m; spent_inputs := spent_inputs m;
     total_fee_atoms := total_fee_atoms m; total_raw_bytes := total_raw_bytes m; total_vbytes := total_vbytes m;
     limits := limits m; fingerprint_cache := fingerprint_cache m |}.
Definition with_spent (m : Mempool) (s : gset UtxoKey) : Mempool :=
  {| entries := entries m; mining_order := mining_order m; parents_by_txid := parents_by_txid m;
     children_by_txid := children_by_txid m; spent_inputs := s;
     total_fee_atoms := total_fee_atoms m; total_raw_bytes := total_raw_bytes m; total_vbytes := total_vbytes m;
     limits := limits m; fingerprint_cache := fingerprint_cache m |}.
Definition with_relations (m : Mempool) (parents children : gmap bytes (gset bytes)) : Mempool :=
  {| entries := entries m; mining_order := mining_order m; parents_by_txid := parents;
     children_by_txid := children; spent_inputs := spent_inputs m;
     total_fee_atoms := total_fee_atoms m; total_raw_bytes := total_raw_bytes m; total_vbytes := total_vbytes m;
     limits := limits m; fingerprint_cache := fingerprint_cache m |}.
Definition with_order (m : Mempool) (order : gset MiningOrderKey) (fee raw vbytes : Z) : Mempool :=
  {| entries := entries m; mining_order := order; parents_by_txid := parents_by_txid m;
     children_by_txid := children_by_txid m; spent_inputs := spent_inputs m;
     total_fee_atoms := fee; total_raw_bytes := raw; total_vbytes := vbytes;
     limits := limits m; fingerprint_cache := fingerprint_cache m |}.
Definition with_cache (m : Mempool) (cache : option (Network * bytes)) : Mempool :=
  {| entries := entries m; mining_order := mining_order m; parents_by_txid := parents_by_txid m;
     children_by_txid := children_by_txid m; spent_inputs := spent_inputs m;
     total_fee_atoms := total_fee_atoms m; total_raw_bytes := total_raw_bytes m; total_vbytes := total_vbytes m;
     limits := limits m; fingerprint_cache := cache |}.

(* src: mempool.rs:444-446 Mempool::len *)
Definition len (m : Mempool) : Z := Z.of_nat (size (entries m)).
(* src: mempool.rs:175-178 Mempool::would_exceed_limits *)
Definition would_exceed_limits (m : Mempool) (e : MempoolEntry) : bool :=
  (max_transactions (limits m) <=? len m)
  || (max_vbytes (limits m) <? saturating_add USIZE_MAX (total_vbytes m) (vsize_bytes e)).
(* src: mempool.rs:180-184 Mempool::input_keys *)
Definition input_keys (tx : Transaction) : list UtxoKey := input_key <$> inputs tx.

(** The loop of [reserve_inputs]; [inserted] are the keys added so far. *)
Fixpoint reserve_loop (m : Mempool) (inserted keys : list UtxoKey) : Mempool * result ValidationError unit :=
  match keys with
  | [] => (m, Ok tt)
  | k :: keys =>
      match insert_new k (spent_inputs m) with
      | None => (with_spent m (spent_inputs m ∖ list_to_set (reverse inserted)), Err MempoolConflict)
      | Some spent => reserve_loop (with_spent m spent) (inserted ++ [k]) keys
      end
  end.
(* src: mempool.rs:186-199 Mempool::reserve_inputs *)
Definition reserve_inputs (m : Mempool) (tx : Transaction) : Mempool * result ValidationError unit :=
  reserve_loop m [] (input_keys tx).
(* src: mempool.rs:201-205 Mempool::release_inputs *)
Definition release_inputs (m : Mempool) (tx : Transaction) : Mempool :=
  with_spent m (spent_inputs m ∖ list_to_set (input_keys tx)).
(* src: mempool.rs:207-209 Mempool::invalidate_fingerprint *)
Definition invalidate_fingerprint (m : Mempool) : Mempool := with_cache m None.
(* src: mempool.rs:211-219 Mempool::reset_derived_state *)
Definition reset_derived_state (m : Mempool) : Mempool :=
  with_spent (with_relations (with_order m ∅ 0 0 0) ∅ ∅) ∅.

(** [children_by_txid.entry(parent).or_default().insert(txid)]. *)
Definition add_relation (rel : gmap bytes (gset bytes)) (parent txid : bytes) : gmap bytes (gset bytes) :=
  <[parent := {[txid]} ∪ default ∅ (rel !! parent)]> rel.
(** [set.remove(&txid)], dropping the set when it becomes empty. *)
Definition remove_relation (rel : gmap bytes (gset bytes)) (k txid : bytes) : gmap bytes (gset bytes) :=
  match rel !! k with
  | Some s => if decide (s ∖ {[txid]} = ∅) then delete k rel else <[k := s ∖ {[txid]}]> rel
  | None => rel
  end.

(* src: mempool.rs:257-271 Mempool::link_relations *)
Definition link_relations (m : Mempool) (txid : bytes) (tx : Transaction) : Mempool :=
  let linked := filter (fun i => is_Some (entries m !! previous_txid i)) (inputs tx) in
  let parents : gset bytes := list_to_set (previous_txid <$> linked) in
  let children := foldl (fun rel i => add_relation rel (previous_txid i) txid) (children_by_txid m) linked in
  with_relations m (if decide (parents = ∅) then parents_by_txid m else <[txid := parents]> (parents_by_txid m))
    children.

(* src: mempool.rs:273-302 Mempool::unlink_relations *)
Definition unlink_relations (m : Mempool) (txid : bytes) : Mempool :=
  let parents := default ∅ (parents_by_txid m !! txid) in
  let children_rel :=
    foldl (fun rel parent => remove_relation rel parent txid) (children_by_txid m) (sorted_elements bytes_le parents) in
  let parents_rel := delete txid (parents_by_txid m) in
  let children := default ∅ (children_rel !! txid) in
  let parents_rel :=
    foldl (fun rel child => remove_relation rel child txid) parents_rel (sorted_elements bytes_le children) in
  with_relations m parents_rel (delete txid children_rel).

(** The totals and the mining order with one entry more. *)
Definition count_entry (m : Mempool) (e : MempoolEntry) : Mempool :=
  with_order m ({[MempoolEntry.order_key e]} ∪ mining_order m)
    (saturating_add U64_MAX (total_fee_atoms m) (fee_atoms e))
    (saturating_add USIZE_MAX (total_raw_bytes m) (raw_size_bytes e))
    (saturating_add USIZE_MAX (total_vbytes m) (vsize_bytes e)).

(* src: mempool.rs:304-311 Mempool::insert_entry *)
Definition insert_entry (m : Mempool) (txid : bytes) (e : MempoolEntry) : Mempool :=
  let m := count_entry m e in
  let m := link_relations m txid (transaction e) in
  with_entries m (<[txid := e]> (entries m)).

(* src: mempool.rs:313-321 Mempool::remove_entry *)
Definition remove_entry (m : Mempool) (txid : bytes) : Mempool * option MempoolEntry :=
  match entries m !! txid with
  | None => (m, None)
  | Some e =>
      let m := with_entries m (delete txid (entries m)) in
      let m := unlink_relations m (e_txid e) in
      (with_order m (mining_order m ∖ {[MempoolEntry.order_key e]})
         (saturating_sub (total_fee_atoms m) (fee_atoms e))
         (saturating_sub (total_raw_bytes m) (raw_size_bytes e))
         (saturating_sub (total_vbytes m) (vsize_bytes e)), Some e)
  end.

(** The entries in txid order, as the map iterates. *)
Definition sorted (m : gmap bytes MempoolEntry) : list (bytes * MempoolEntry) := sorted_entries bytes_le m.

(* src: mempool.rs:221-255 Mempool::rebuild_derived_state_from_entries *)
Definition rebuild_derived_state_from_entries (m : Mempool) : Mempool :=
  let m := reset_derived_state m in
  let m := foldl (fun m te =>
      let m := count_entry m te.2 in
      with_spent m (list_to_set (input_keys (transaction te.2)) ∪ spent_inputs m))
    m (sorted (entries m)) in
  foldl (fun m te => link_relations m te.1 (transaction te.2)) m (sorted (entries m)).

(* src: mempool.rs:323-327 Mempool::ordered_entries_iter *)
Definition ordered_entries_iter (m : Mempool) : list MempoolEntry :=
  omap (fun k => entries m !! mk_txid k) (sorted_elements MiningOrderKey.le (mining_order m)).

Section validating.
Context `{Sha3, FalconBackend}.
Context (lookup : bytes -> Z -> option UtxoEntry) (network : Network) (spend_height : Z).

(** The call all validating operations make. *)
Definition check_entry (e : MempoolEntry) : result ValidationError Z :=
  validate_transaction_with_context_for_mempool lookup (transaction e) (fee_atoms e) network spend_height.

(* src: mempool.rs:329-350 Mempool::validate_entry *)
Definition validate_entry (m : Mempool) (e : MempoolEntry) : result ValidationError Z :=
  fee ← check_entry e;
  reject existsb (fun k => bool_decide (k ∈ spent_inputs m)) (input_keys (transaction e)) with MempoolConflict;
  Ok fee.

(* src: mempool.rs:352-381 Mempool::admit *)
Definition admit_entry (m : Mempool) (e : MempoolEntry) : Mempool * result ValidationError bytes :=
  let txid := e_txid e in
  if bool_decide (is_Some (entries m !! txid)) then (m, Err MempoolConflict) else
  if would_exceed_limits m e then (m, Err MempoolConflict) else
  match validate_entry m e with
  | Err err => (m, Err err)
  | Ok _ =>
      match reserve_inputs m (transaction e) with
      | (m, Err err) => (m, Err err)
      | (m, Ok _) => (invalidate_fingerprint (insert_entry m txid e), Ok txid)
      end
  end.

(** The loop of [admit_many]; the entries admitted before an error stay. *)
Fixpoint admit_loop (m : Mempool) (txids : list bytes) (es : list MempoolEntry) :
    Mempool * result ValidationError (list bytes) :=
  match es with
  | [] => (m, Ok txids)
  | e :: es =>
      match admit_entry m e with
      | (m, Err err) => (m, Err err)
      | (m, Ok txid) => admit_loop m (txids ++ [txid]) es
      end
  end.
(* src: mempool.rs:383-399 Mempool::admit_many *)
Definition admit_many (m : Mempool) (es : list MempoolEntry) : Mempool * result ValidationError (list bytes) :=
  admit_loop m [] es.

(** One round of the loop of [revalidate]. *)
Definition keep_entry (m : Mempool) (te : bytes * MempoolEntry) : Mempool :=
  match validate_entry m te.2 with
  | Err _ => m
  | Ok _ =>
      match reserve_inputs m (transaction te.2) with
      | (m, Err _) => m
      | (m, Ok _) => with_entries m (<[te.1 := te.2]> (entries m))
      end
  end.
(* src: mempool.rs:401-432 Mempool::revalidate *)
Definition revalidate (m : Mempool) : Mempool :=
  let current := entries m in
  let m := reset_derived_state (with_entries m ∅) in
  let m := foldl keep_entry m (sorted current) in
  invalidate_fingerprint (rebuild_derived_state_from_entries m).

(* src: mempool.rs:490-513 Mempool::validated_entries *)
Definition validated_entries (m : Mempool) : result ValidationError (list MempoolEntry * Z) :=
  try_fold (fun '(es, fees) e =>
      fee ← check_entry e;
      Ok (es ++ [e], saturating_add U64_MAX fees fee))
    ([], 0) (ordered_entries_iter m).
(* src: mempool.rs:471-488 Mempool::valid_transactions *)
Definition valid_transactions (m : Mempool) : result ValidationError (list Transaction * Z) :=
  match validated_entries m with
  | Ok (es, fees) => Ok (transaction <$> es, fees)
  | Err e => Err e
  end.
(* src: mempool.rs:515-545 Mempool::validated_entries_for_mining *)
Definition validated_entries_for_mining (m : Mempool) : list MempoolEntry * Z * Z :=
  foldl (fun '(es, fees, skipped) e =>
      match check_entry e with
      | Ok fee => (es ++ [e], saturating_add U64_MAX fees fee, skipped)
      | Err _ => (es, fees, saturating_add USIZE_MAX skipped 1)
      end)
    ([], 0, 0) (ordered_entries_iter m).
End validating.

(* src: mempool.rs:434-436 Mempool::contains *)
Definition contains (m : Mempool) (txid : bytes) : bool := bool_decide (is_Some (entries m !! txid)).
(* src: mempool.rs:459-461 Mempool::entry *)
Definition entry (m : Mempool) (txid : bytes) : option MempoolEntry := entries m !! txid.
(* src: mempool.rs:438-442 Mempool::transaction *)
Definition transaction_of (m : Mempool) (txid : bytes) : option Transaction := transaction <$> entries m !! txid.
(* src: mempool.rs:452-457 Mempool::transactions *)
Definition transactions_of (m : Mempool) : list Transaction := (fun te => transaction te.2) <$> sorted (entries m).
(* src: mempool.rs:467-469 Mempool::txids *)
Definition txids (m : Mempool) : list bytes := (sorted (entries m)).*1.
(* src: mempool.rs:605-607 Mempool::spent_inputs_snapshot *)
Definition spent_inputs_snapshot (m : Mempool) : list UtxoKey :=
  sorted_elements UtxoSet.key_le (spent_inputs m).

(** The loop of [dependency_txids] and [descendant_txids] over the relation
    [rel]: [stack] is a [Vec] with its top at the end. *)
Fixpoint closure_loop (fuel : nat) (rel : gmap bytes (gset bytes)) (visited : gset bytes) (stack : list bytes) :
    option (gset bytes) :=
  match fuel with
  | O => None
  | S fuel =>
      match reverse stack with
      | [] => Some visited
      | txid :: rest =>
          let stack := reverse rest in
          match insert_new txid visited with
          | None => closure_loop fuel rel visited stack
          | Some visited =>
              closure_loop fuel rel visited (stack ++ sorted_elements bytes_le (default ∅ (rel !! txid)))
          end
      end
  end.
(** Enough rounds: one push for the start and one per edge of the relation. *)
Definition closure_fuel (rel : gmap bytes (gset bytes)) (start : gset bytes) : nat :=
  S (size start + map_fold (fun _ s n => size s + n)%nat 0%nat rel).
Definition closure (rel : gmap bytes (gset bytes)) (target : bytes) : option (list bytes) :=
  let start := default ∅ (rel !! target) in
  sorted_elements bytes_le <$> closure_loop (closure_fuel rel start) rel ∅ (sorted_elements bytes_le start).
(* src: mempool.rs:563-582 Mempool::dependency_txids *)
Definition dependency_txids (m : Mempool) (target : bytes) : option (list bytes) :=
  if contains m target then closure (parents_by_txid m) target else None.
(* src: mempool.rs:584-603 Mempool::descendant_txids *)
Definition descendant_txids (m : Mempool) (target : bytes) : option (list bytes) :=
  if contains m target then closure (children_by_txid m) target else None.

Section hashing.
Context `{Sha3}.
(** The preimage of the fingerprint. *)
Definition fingerprint_preimage (m : Mempool) (network : Network) : bytes :=
  str_bytes (Network.id network) ++ be_u64 (len m) ++ be_u64 (total_fee_atoms m) ++ concat (txids m)
  ++ flat_map (fun k => k_txid k ++ be_u32 (k_output_index k)) (spent_inputs_snapshot m).
(* src: mempool.rs:609-639 Mempool::fingerprint *)
Definition fingerprint (m : Mempool) (network : Network) : Mempool * bytes :=
  let computed :=
    let h := sha3_256 (fingerprint_preimage m network) in (with_cache m (Some (network, h)), h) in
  match fingerprint_cache m with
  | Some (n, h) => if bool_decide (n = network) then (m, h) else computed
  | None => computed
  end.

(** One round of [remove_block_transactions]. *)
Definition remove_transaction (s : Mempool * bool) (tx : Transaction) : Mempool * bool :=
  match remove_entry s.1 (Transaction.txid tx) with
  | (m, None) => (m, s.2)
  | (m, Some e) => (release_inputs m (transaction e), true)
  end.
(* src: mempool.rs:641-653 Mempool::remove_block_transactions *)
Definition remove_block_transactions (m : Mempool) (b : Block) : Mempool :=
  let '(m, removed_any) := foldl remove_transaction (m, false) (transactions b) in
  if removed_any then invalidate_fingerprint m else m.
End hashing.

End Mempool.

(** The order a miner wants: by descending fee rate, then descending fee, then txid. *)
Definition mined_before (a b : MiningOrderKey) : Prop :=
  mk_feerate b < mk_feerate a \/
  (mk_feerate a = mk_feerate b /\
   (mk_fee b < mk_fee a \/ (mk_fee a = mk_fee b /\ bytes_le (mk_txid a) (mk_txid b)))).

Lemma order_le_mined_before a b : MiningOrderKey.le a b -> mined_before a b.
Proof.
  unfold MiningOrderKey.le, MiningOrderKey.compare, mined_before, bytes_le, bytes_leb. intros Hle.
  destruct (Z.compare_spec (mk_feerate b) (mk_feerate a)); cbn in Hle; [right|by left|done]. split; [done|].
  destruct (Z.compare_spec (mk_fee b) (mk_fee a)); cbn in Hle; [right|by left|done]. split; [done|].
  by destruct (bytes_compare _ _).
Qed.

(** ** Relations *)

(** The set a relation stores for a key. *)
Definition rel_get (rel : gmap bytes (gset bytes)) (k : bytes) : gset bytes := default ∅ (rel !! k).

Lemma rel_get_insert rel k s c : rel_get (<[k := s]> rel) c = if decide (k = c) then s else rel_get rel c.
Proof. unfold rel_get. rewrite lookup_insert. by destruct (decide (k = c)). Qed.
Lemma rel_get_delete rel k c : rel_get (delete k rel) c = if decide (k = c) then ∅ else rel_get rel c.
Proof. unfold rel_get. rewrite lookup_delete. by destruct (decide (k = c)). Qed.

Lemma add_relation_get rel p x k t :
  t ∈ rel_get (Mempool.add_relation rel p x) k <-> (t = x /\ k = p) \/ t ∈ rel_get rel k.
Proof.
  unfold Mempool.add_relation. rewrite rel_get_insert. fold (rel_get rel p).
  destruct (decide (p = k)) as [->|]; set_solver.
Qed.
Lemma remove_relation_get rel p x k t :
  t ∈ rel_get (Mempool.remove_relation rel p x) k <-> t ∈ rel_get rel k /\ ~ (t = x /\ k = p).
Proof.
  unfold Mempool.remove_relation. destruct (rel !! p) as [s|] eqn:Hs.
  2:{ split; [|by intros []]. intros Ht. split; [done|]. intros [-> ->]. unfold rel_get in Ht. rewrite Hs in Ht. set_solver. }
  assert (rel_get rel p = s) as Hp by (unfold rel_get; by rewrite Hs).
  destruct (decide (s ∖ {[x]} = ∅)) as [He|].
  - rewrite rel_get_delete. destruct (decide (p = k)) as [->|]; [|set_solver].
    rewrite Hp. split; [set_solver|]. intros [Ht Hn]. exfalso. assert (t ∈ s ∖ {[x]}) by set_solver. set_solver.
  - rewrite rel_get_insert. destruct (decide (p = k)) as [->|]; set_solver.
Qed.
Lemma add_relations_get {A} (f : A -> bytes) rel l x k t :
  t ∈ rel_get (foldl (fun rel i => Mempool.add_relation rel (f i) x) rel l) k
  <-> (t = x /\ k ∈ f <$> l) \/ t ∈ rel_get rel k.
Proof.
  revert rel. induction l as [|i l IH]; intros rel; cbn; [set_solver|].
  rewrite IH, add_relation_get. change (fmap f (i :: l)) with (f i :: (f <$> l)). rewrite elem_of_cons. tauto.
Qed.
Lemma remove_relations_get rel l x k t :
  t ∈ rel_get (foldl (fun rel p => Mempool.remove_relation rel p x) rel l) k
  <-> t ∈ rel_get rel k /\ ~ (t = x /\ k ∈ l).
Proof.
  revert rel. induction l as [|p l IH]; intros rel; cbn; [set_solver|].
  rewrite IH, remove_relation_get, elem_of_cons. tauto.
Qed.

(** The ids among the inputs of [tx] that the map has. *)
Definition pooled_parent (es : gmap bytes MempoolEntry) (tx : Transaction) (p : bytes) : Prop :=
  p ∈ previous_txid <$> inputs tx /\ is_Some (es !! p).
(** The two relations are inverse. *)
Definition inverse_relations (m : Mempool) : Prop :=
  forall p c, p ∈ rel_get (parents_by_txid m) c <-> c ∈ rel_get (children_by_txid m) p.

Lemma linked_ids m tx p :
  p ∈ previous_txid <$> filter (fun i => is_Some (entries m !! previous_txid i)) (inputs tx)
  <-> pooled_parent (entries m) tx p.
Proof.
  unfold pooled_parent. rewrite !list_elem_of_fmap. setoid_rewrite list_elem_of_filter. naive_solver.
Qed.

Lemma link_relations_get m txid tx :
  rel_get (parents_by_txid m) txid = ∅ ->
  let m' := Mempool.link_relations m txid tx in
  (forall p c, p ∈ rel_get (parents_by_txid m') c <->
     (c = txid /\ pooled_parent (entries m) tx p) \/ p ∈ rel_get (parents_by_txid m) c) /\
  (forall p c, c ∈ rel_get (children_by_txid m') p <->
     (c = txid /\ pooled_parent (entries m) tx p) \/ c ∈ rel_get (children_by_txid m) p).
Proof.
  intros Hnew m'. split; intros p c.
  - unfold m', Mempool.link_relations. cbn [parents_by_txid Mempool.with_relations].
    set (ps := list_to_set _). assert (p ∈ ps <-> pooled_parent (entries m) tx p) as Hps.
    { unfold ps. rewrite elem_of_list_to_set. apply linked_ids. }
    destruct (decide (ps = ∅)) as [He|].
    + split; [by right|]. intros [[-> Hp]|]; [|done]. apply Hps in Hp. set_solver.
    + rewrite rel_get_insert. destruct (decide (txid = c)) as [->|]; [|set_solver].
      rewrite Hps. rewrite Hnew. set_solver.
  - unfold m', Mempool.link_relations. cbn [children_by_txid Mempool.with_relations].
    rewrite add_relations_get, linked_ids. done.
Qed.
Lemma unlink_relations_get m x :
  inverse_relations m ->
  let m' := Mempool.unlink_relations m x in
  (forall p c, p ∈ rel_get (parents_by_txid m') c <-> p ∈ rel_get (parents_by_txid m) c /\ c <> x /\ p <> x) /\
  (forall p c, c ∈ rel_get (children_by_txid m') p <-> c ∈ rel_get (children_by_txid m) p /\ c <> x /\ p <> x).
Proof.
  intros Hinv m'. unfold inverse_relations in Hinv. unfold m', Mempool.unlink_relations. cbn [parents_by_txid children_by_txid Mempool.with_relations].
  set (ch := foldl _ (children_by_txid m) _).
  assert (forall p c, c ∈ rel_get ch p <-> c ∈ rel_get (children_by_txid m) p /\ c <> x) as Hch.
  { intros p c. unfold ch. rewrite remove_relations_get, elem_of_sorted_elements.
    fold (rel_get (parents_by_txid m) x). rewrite Hinv. naive_solver. }
  split; intros p c.
  - rewrite remove_relations_get, elem_of_sorted_elements, rel_get_delete. fold (rel_get ch x). rewrite Hch.
    destruct (decide (x = c)) as [->|]; [set_solver|]. rewrite <- Hinv. naive_solver.
  - rewrite rel_get_delete. destruct (decide (x = p)) as [->|]; [set_solver|]. rewrite Hch. naive_solver.
Qed.

(** ** The pool's invariant *)

Section pool.
Context `{Sha3}.

(** The pooled entries, in no particular order. *)
Definition listed (m : Mempool) : list MempoolEntry := (map_to_list (entries m)).*2.
Definition keys_used (es : list MempoolEntry) : list UtxoKey := es ≫= (fun e => Mempool.input_keys (transaction e)).
Definition total (f : MempoolEntry -> Z) (es : list MempoolEntry) : Z := zsum (f <$> es).

(** The entry is what [MempoolEntry::new] builds. *)
Definition built (e : MempoolEntry) : Prop :=
  e = MempoolEntry.new (received_at_unix e) (transaction e) (fee_atoms e) /\ 0 <= fee_atoms e.

(** The indexes and totals are those of [es]. *)
Record derived (es : list MempoolEntry) (m : Mempool) : Prop := {
  d_order : mining_order m = list_to_set (MempoolEntry.order_key <$> es);
  d_spent : spent_inputs m = list_to_set (keys_used es);
  d_fee : total_fee_atoms m = total fee_atoms es;
  d_raw : total_raw_bytes m = total raw_size_bytes es;
  d_vbytes : total_vbytes m = total vsize_bytes es;
}.

(** No total overflows its width. *)
Definition fits (es : list MempoolEntry) : Prop :=
  total fee_atoms es <= U64_MAX /\ total raw_size_bytes es <= USIZE_MAX /\ total vsize_bytes es <= USIZE_MAX.

Record consistent (m : Mempool) : Prop := {
  c_own : forall t e, entries m !! t = Some e -> e_txid e = t /\ built e;
  c_disjoint : NoDup (keys_used (listed m));
  c_derived : derived (listed m) m;
  c_fits : fits (listed m);
  c_bounds : Mempool.len m <= max_transactions (limits m) /\ total_vbytes m <= max_vbytes (limits m);
  c_inverse : inverse_relations m;
  c_parents : forall p c, p ∈ rel_get (parents_by_txid m) c ->
    exists e, entries m !! c = Some e /\ pooled_parent (entries m) (transaction e) p;
  c_cache : forall n h, fingerprint_cache m = Some (n, h) -> h = sha3_256 (Mempool.fingerprint_preimage m n);
}.

#[global] Instance keys_used_perm : Proper ((≡ₚ) ==> (≡ₚ)) keys_used.
Proof. intros l l' Hl. unfold keys_used. by rewrite Hl. Qed.
#[global] Instance total_perm f : Proper ((≡ₚ) ==> eq) (total f).
Proof.
  intros l l' Hl. unfold total.
  induction Hl as [|x l l' _ IH|x y l|l1 l2 l3 _ IH1 _ IH2]; cbn; [done|by rewrite IH|lia|by rewrite IH1].
Qed.
#[global] Instance derived_perm : Proper ((≡ₚ) ==> eq ==> iff) derived.
Proof.
  intros l l' Hl m _ <-.
  assert (forall l l', l ≡ₚ l' -> derived l m -> derived l' m) as Himp.
  { clear. intros l l' Hl [Ho Hs Hf Hr Hv]. rewrite Hl in Ho, Hs, Hf, Hr, Hv. done. }
  by split; apply Himp.
Qed.
#[global] Instance fits_perm : Proper ((≡ₚ) ==> iff) fits.
Proof. intros l l' Hl. unfold fits. by rewrite Hl. Qed.

Lemma elem_of_listed m e : e ∈ listed m <-> exists t, entries m !! t = Some e.
Proof.
  unfold listed. rewrite list_elem_of_fmap. setoid_rewrite elem_of_map_to_list'. split.
  - intros ([t e'] & -> & ?). by exists t.
  - intros [t Ht]. by exists (t, e).
Qed.
Lemma listed_insert m t e es :
  entries m !! t = None -> es = <[t := e]> (entries m) -> (map_to_list es).*2 ≡ₚ e :: listed m.
Proof. intros Hn ->. unfold listed. by rewrite map_to_list_insert. Qed.
Lemma listed_delete m t e es :
  entries m !! t = Some e -> es = delete t (entries m) -> listed m ≡ₚ e :: (map_to_list es).*2.
Proof. intros Hs ->. unfold listed. by rewrite <- (map_to_list_delete (entries m) t e). Qed.
Lemma listed_sorted m : (Mempool.sorted (entries m)).*2 ≡ₚ listed m.
Proof. unfold listed, Mempool.sorted. by rewrite sorted_entries_perm. Qed.

Lemma tx_sizes_nonneg tx : 0 <= Transaction.base_size_bytes tx /\ 0 <= Transaction.full_size_bytes tx.
Proof.
  unfold Transaction.base_size_bytes, Transaction.full_size_bytes, TX_POW_NONCE_BYTES, TX_POW_BITS_BYTES.
  assert (0 <= zsum ((fun i => 48 + 4 + 4 + zlen (unlocking_script i)) <$> inputs tx)).
  { apply zsum_nonneg, Forall_fmap, Forall_true. intros i. cbn. pose proof (zlen_nonneg (unlocking_script i)). lia. }
  assert (0 <= zsum ((fun o => 8 + 4 + zlen (locking_script o)) <$> outputs tx)).
  { apply zsum_nonneg, Forall_fmap, Forall_true. intros o. cbn. pose proof (zlen_nonneg (locking_script o)). lia. }
  pose proof (zlen_nonneg (witness tx)). lia.
Qed.
Lemma built_sizes e : built e -> 0 <= fee_atoms e /\ 0 <= raw_size_bytes e /\ 1 <= vsize_bytes e.
Proof.
  intros [He Hf]. split; [done|]. rewrite He. cbn. pose proof (tx_sizes_nonneg (transaction e)). lia.
Qed.

Lemma total_cons f e es : total f (e :: es) = f e + total f es.
Proof. done. Qed.
Lemma total_app f l l' : total f (l ++ l') = total f l + total f l'.
Proof. unfold total. by rewrite fmap_app, zsum_app. Qed.
Lemma total_nonneg f es : Forall (fun e => 0 <= f e) es -> 0 <= total f es.
Proof. intros. by apply zsum_nonneg, Forall_fmap. Qed.
Lemma keys_used_cons e es : keys_used (e :: es) = Mempool.input_keys (transaction e) ++ keys_used es.
Proof. done. Qed.
Lemma keys_used_app l l' : keys_used (l ++ l') = keys_used l ++ keys_used l'.
Proof. apply bind_app. Qed.
Lemma elem_of_keys_used k es : k ∈ keys_used es <-> exists e, e ∈ es /\ k ∈ Mempool.input_keys (transaction e).
Proof. unfold keys_used. rewrite list_elem_of_bind. naive_solver. Qed.
(** Fewer entries fit as well. *)
Lemma fits_app l l' : Forall built l -> fits (l ++ l') -> fits l'.
Proof.
  intros Hl. unfold fits. rewrite !total_app.
  assert (forall f, (forall e, built e -> 0 <= f e) -> 0 <= total f l) as Hnn.
  { intros f Hf. apply total_nonneg. eapply Forall_impl; [done|apply Hf]. }
  pose proof (Hnn fee_atoms ltac:(intros e ?%built_sizes; lia)).
  pose proof (Hnn raw_size_bytes ltac:(intros e ?%built_sizes; lia)).
  pose proof (Hnn vsize_bytes ltac:(intros e ?%built_sizes; lia)). lia.
Qed.

(** Counting an entry, with its inputs reserved. *)
Definition counted (m : Mempool) (e : MempoolEntry) : Mempool :=
  Mempool.with_spent (Mempool.count_entry m e)
    (list_to_set (Mempool.input_keys (transaction e)) ∪ spent_inputs m).

Lemma derived_counted es m e : derived es m -> fits (e :: es) -> derived (e :: es) (counted m e).
Proof.
  intros [Ho Hs Hf Hr Hv] (Hff & Hfr & Hfv). rewrite total_cons in Hff, Hfr, Hfv.
  split; cbn [counted Mempool.count_entry Mempool.with_order Mempool.with_spent mining_order spent_inputs
    total_fee_atoms total_raw_bytes total_vbytes]; rewrite ?total_cons.
  - by rewrite Ho.
  - by rewrite Hs, keys_used_cons, list_to_set_app_L.
  - rewrite Hf. unfold saturating_add. lia.
  - rewrite Hr. unfold saturating_add. lia.
  - rewrite Hv. unfold saturating_add. lia.
Qed.
Lemma derived_counted_all l es m :
  Forall built l -> derived es m -> fits (l ++ es) -> derived (l ++ es) (foldl counted m l).
Proof.
  revert es m. induction l as [|e l IH]; intros es m Hl Hd Hf; [done|]. apply Forall_cons in Hl as [He Hl].
  assert ((e :: l) ++ es ≡ₚ l ++ e :: es) as Hp by by rewrite <- Permutation_middle.
  rewrite Hp in Hf |- *. cbn [foldl]. apply IH; [done| |done]. apply derived_counted; [done|].
  by apply fits_app in Hf.
Qed.

(** Removing one: what [remove_entry] and [release_inputs] do to the indexes. *)
Definition uncounted (m : Mempool) (e : MempoolEntry) : Mempool :=
  Mempool.release_inputs (Mempool.with_order m (mining_order m ∖ {[MempoolEntry.order_key e]})
    (saturating_sub (total_fee_atoms m) (fee_atoms e)) (saturating_sub (total_raw_bytes m) (raw_size_bytes e))
    (saturating_sub (total_vbytes m) (vsize_bytes e))) (transaction e).
Lemma derived_uncounted es m e :
  Forall built es -> derived (e :: es) m -> (e_txid e ∉ e_txid <$> es) -> NoDup (keys_used (e :: es)) ->
  derived es (uncounted m e).
Proof.
  intros Hes [Ho Hs Hf Hr Hv] Hn Hnd. rewrite total_cons in Hf, Hr, Hv. rewrite keys_used_cons in Hnd, Hs.
  assert (forall f, (forall e, built e -> 0 <= f e) -> 0 <= total f es) as Hnn.
  { intros f Hnn. apply total_nonneg. eapply Forall_impl; [done|apply Hnn]. }
  split; cbn [uncounted Mempool.release_inputs Mempool.with_order Mempool.with_spent mining_order spent_inputs
    total_fee_atoms total_raw_bytes total_vbytes].
  - rewrite Ho. rewrite fmap_cons, list_to_set_cons.
    assert (MempoolEntry.order_key e ∉ MempoolEntry.order_key <$> es) as Hk; [|set_solver].
    intros (e' & Hk & Hin)%list_elem_of_fmap. apply Hn. apply (f_equal mk_txid) in Hk. cbn in Hk. rewrite Hk.
    by apply list_elem_of_fmap_2.
  - rewrite Hs, list_to_set_app_L. apply NoDup_app in Hnd as (_ & Hd & _).
    rewrite difference_union_distr_l_L, difference_diag_L, union_empty_l_L, difference_disjoint_L; [done|].
    intros k. rewrite !elem_of_list_to_set. intros ? Hk. by apply (Hd k).
  - rewrite Hf. pose proof (Hnn fee_atoms ltac:(intros ? ?%built_sizes; lia)). unfold saturating_sub. lia.
  - rewrite Hr. pose proof (Hnn raw_size_bytes ltac:(intros ? ?%built_sizes; lia)). unfold saturating_sub. lia.
  - rewrite Hv. pose proof (Hnn vsize_bytes ltac:(intros ? ?%built_sizes; lia)). unfold saturating_sub. lia.
Qed.

Lemma reserve_loop_Ok m ins keys :
  NoDup keys -> (forall k, k ∈ keys -> k ∉ spent_inputs m) ->
  Mempool.reserve_loop m ins keys = (Mempool.with_spent m (list_to_set keys ∪ spent_inputs m), Ok tt).
Proof.
  revert m ins. induction keys as [|k keys IH]; intros m ins Hnd Hfree; cbn [Mempool.reserve_loop].
  - f_equal. cbn. rewrite union_empty_l_L. by destruct m.
  - apply NoDup_cons in Hnd as [Hk Hnd]. unfold insert_new. rewrite decide_False by (apply Hfree; left).
    rewrite IH; [|done|].
    + f_equal. unfold Mempool.with_spent. cbn. f_equal. rewrite (assoc_L (∪)). f_equal. apply (comm_L (∪)).
    + intros k' Hk'. cbn. rewrite not_elem_of_union, elem_of_singleton. split; [by intros ->|]. apply Hfree. by right.
Qed.

(** Linking the entry [counted] has counted, before it enters the map. *)
Lemma insert_entry_eq m e :
  NoDup (Mempool.input_keys (transaction e)) ->
  (forall k, k ∈ Mempool.input_keys (transaction e) -> k ∉ spent_inputs m) ->
  (let (m, r) := Mempool.reserve_inputs m (transaction e) in
   (Mempool.invalidate_fingerprint (Mempool.insert_entry m (e_txid e) e), r))
  = (Mempool.with_entries (Mempool.link_relations (Mempool.invalidate_fingerprint (counted m e)) (e_txid e)
       (transaction e)) (<[e_txid e := e]> (entries m)), Ok tt).
Proof. intros Hnd Hfree. unfold Mempool.reserve_inputs. by rewrite reserve_loop_Ok. Qed.

Lemma pooled_parent_insert es tx p t e :
  pooled_parent es tx p -> pooled_parent (<[t := e]> es) tx p.
Proof. intros [Hp Hs]. split; [done|]. rewrite lookup_insert. by destruct (decide _). Qed.

(** The pool with one more entry. *)
Definition extended (m : Mempool) (e : MempoolEntry) : Mempool :=
  Mempool.with_entries (Mempool.link_relations (Mempool.invalidate_fingerprint (counted m e)) (e_txid e)
    (transaction e)) (<[e_txid e := e]> (entries m)).

Lemma no_parents m t : consistent m -> entries m !! t = None -> rel_get (parents_by_txid m) t = ∅.
Proof.
  intros C Ht. apply set_eq. intros p. split; [|set_solver].
  intros (e & He & _)%(c_parents m C). congruence.
Qed.

Lemma extended_consistent m e :
  consistent m -> built e -> fits (e :: listed m) -> entries m !! e_txid e = None ->
  NoDup (Mempool.input_keys (transaction e)) ->
  (forall k, k ∈ Mempool.input_keys (transaction e) -> k ∉ spent_inputs m) ->
  Mempool.would_exceed_limits m e = false ->
  consistent (extended m e).
Proof.
  intros C He Hfit Hnew Hnd Hfree Hlim. pose proof C as [Hown Hdis Hder _ Hb Hinv Hpar Hcache].
  assert (listed (extended m e) ≡ₚ e :: listed m) as Hlist by by apply (listed_insert m (e_txid e)).
  destruct (link_relations_get (Mempool.invalidate_fingerprint (counted m e)) (e_txid e) (transaction e))
    as [Hp Hc]; [exact (no_parents m _ C Hnew)|]. cbn [entries Mempool.invalidate_fingerprint counted Mempool.with_spent
    Mempool.count_entry Mempool.with_order Mempool.with_cache parents_by_txid children_by_txid] in Hp, Hc.
  pose proof (derived_counted _ _ _ Hder Hfit) as Hder'.
  split.
  - cbn. intros t e'. rewrite lookup_insert. destruct (decide (e_txid e = t)) as [<-|]; [|apply Hown].
    by intros [= <-].
  - rewrite Hlist, keys_used_cons. apply NoDup_app. split; [done|]. split; [|done].
    intros k Hk Hk'. apply (Hfree k Hk). rewrite (d_spent _ _ Hder). by apply elem_of_list_to_set.
  - rewrite Hlist. destruct Hder'. by split.
  - by rewrite Hlist.
  - unfold Mempool.would_exceed_limits in Hlim. apply orb_false_iff in Hlim as [Hl Hv]. bool_to_prop.
    destruct Hder' as [_ _ _ _ Hvb]. destruct Hfit as (_ & _ & Hfv). rewrite total_cons in Hfv, Hvb.
    pose proof (d_vbytes _ _ Hder) as Hvm. split.
    + unfold Mempool.len in *. cbn. rewrite map_size_insert_None by done. lia.
    + change (total_vbytes (extended m e)) with (total_vbytes (counted m e)). rewrite Hvb.
      unfold saturating_add in Hv. cbn. lia.
  - intros p c. unfold inverse_relations in Hinv. cbn. rewrite Hp, Hc, Hinv. done.
  - intros p c. cbn [extended Mempool.with_entries entries parents_by_txid]. intros [[-> Hpp]|Hold]%Hp.
    + exists e. rewrite lookup_insert_eq. split; [done|]. by apply pooled_parent_insert.
    + apply Hpar in Hold as (e' & He' & Hpp). exists e'. rewrite lookup_insert_ne by congruence.
      split; [done|]. by apply pooled_parent_insert.
  - done.
Qed.


(** ** Removal *)

(** What one hit of [remove_block_transactions] does. *)
Lemma removed_eq m t e :
  entries m !! t = Some e ->
  Mempool.remove_entry m t
  = (Mempool.with_order (Mempool.unlink_relations (Mempool.with_entries m (delete t (entries m))) (e_txid e))
       (mining_order m ∖ {[MempoolEntry.order_key e]})
       (saturating_sub (total_fee_atoms m) (fee_atoms e)) (saturating_sub (total_raw_bytes m) (raw_size_bytes e))
       (saturating_sub (total_vbytes m) (vsize_bytes e)), Some e).
Proof. unfold Mempool.remove_entry. by intros ->. Qed.

Lemma consistent_invalidate m : consistent m -> consistent (Mempool.invalidate_fingerprint m).
Proof. intros [? ? [] ? ? ? ? ?]. split; [done..|done]. Qed.

Lemma removed_consistent m t e :
  consistent (Mempool.invalidate_fingerprint m) -> entries m !! t = Some e ->
  consistent (Mempool.invalidate_fingerprint (Mempool.release_inputs (Mempool.remove_entry m t).1 (transaction e))).
Proof.
  intros [Hown Hdis Hder Hfit Hb Hinv Hpar _] He. rewrite (removed_eq _ _ _ He).
  set (m' := Mempool.invalidate_fingerprint _). change (listed _) with (listed m) in Hdis, Hder, Hfit.
  assert (listed m ≡ₚ e :: listed m') as Hlist by by apply (listed_delete m t).
  destruct (Hown t e He) as [<- Hbe].
  assert (forall e', e' ∈ listed m' -> entries m !! e_txid e' = Some e' /\ e_txid e' <> e_txid e /\ built e') as Hrest.
  { intros e' (t' & Ht')%elem_of_listed. cbn in Ht'. apply lookup_delete_Some in Ht' as [Hne Ht'].
    destruct (Hown _ _ Ht') as [<- ?]. by split_and!. }
  rewrite Hlist in Hdis, Hder, Hfit.
  destruct (unlink_relations_get (Mempool.with_entries m (delete (e_txid e) (entries m))) (e_txid e) Hinv) as [Hp Hc].
  assert (derived (listed m') (uncounted m e)) as Hder'.
  { apply derived_uncounted; [|by destruct Hder|..|done].
    - apply Forall_forall. intros e' He'. by apply Hrest.
    - intros (e' & Hid & (_ & Hne & _)%Hrest)%list_elem_of_fmap. done. }
  split.
  - cbn. intros t e' [_ Ht]%lookup_delete_Some. by apply Hown.
  - rewrite keys_used_cons in Hdis. by apply NoDup_app in Hdis as (_ & _ & ?).
  - destruct Hder'. by split.
  - apply (fits_app [e]); [by constructor|done].
  - cbn [limits m' total_vbytes] in *. destruct Hb as [Hl Hv]. destruct (built_sizes e Hbe) as (_ & _ & Hs). split.
    + etrans; [|exact Hl]. unfold Mempool.len. cbn. rewrite map_size_delete, He. lia.
    + etrans; [|exact Hv]. cbn. unfold saturating_sub.
      assert (0 <= total_vbytes m); [|lia]. change (total_vbytes m) with (total_vbytes (Mempool.invalidate_fingerprint m)). rewrite (d_vbytes _ _ Hder). apply total_nonneg, Forall_forall.
      intros e' He'%elem_of_cons. assert (built e') as ?%built_sizes; [|lia]. destruct He' as [->|?%Hrest]; [done|tauto].
  - intros p c. cbn. rewrite Hp, Hc. unfold inverse_relations in Hinv. cbn in Hinv |- *. by rewrite Hinv.
  - intros p c. cbn. intros (Hin & Hce & Hpe)%Hp. apply Hpar in Hin as (e' & He' & Hin & Hs). exists e'. cbn in He', Hs.
    rewrite lookup_delete_ne by done. split; [done|]. split; [done|]. by rewrite lookup_delete_ne.
  - done.
Qed.

Lemma remove_entry_None m t : entries m !! t = None -> Mempool.remove_entry m t = (m, None).
Proof. unfold Mempool.remove_entry. by intros ->. Qed.

(** ** Rebuilding *)

Lemma link_all_get l m :
  (forall te, te ∈ l -> rel_get (parents_by_txid m) te.1 = ∅) -> NoDup l.*1 ->
  let m' := foldl (fun m te => Mempool.link_relations m te.1 (transaction te.2)) m l in
  m' = Mempool.with_relations m (parents_by_txid m') (children_by_txid m') /\
  (forall p c, p ∈ rel_get (parents_by_txid m') c <->
     (exists e, (c, e) ∈ l /\ pooled_parent (entries m) (transaction e) p) \/ p ∈ rel_get (parents_by_txid m) c) /\
  (forall p c, c ∈ rel_get (children_by_txid m') p <->
     (exists e, (c, e) ∈ l /\ pooled_parent (entries m) (transaction e) p) \/ c ∈ rel_get (children_by_txid m) p).
Proof.
  revert m. induction l as [|[t e] l IH]; intros m Hnew Hnd; cbn [foldl].
  - split; [by destruct m|]. split; intros p c; split; try (by right); intros [(e & He & _)|]; try done;
      by apply not_elem_of_nil in He.
  - rewrite fmap_cons in Hnd. apply NoDup_cons in Hnd as [Ht Hnd]. cbn [fst] in Ht.
    destruct (link_relations_get m t (transaction e)) as [Hp Hc]; [apply (Hnew (t, e)); left|].
    destruct (IH (Mempool.link_relations m t (transaction e))) as (Heq & Hp' & Hc'); [|done|].
    { intros te Hte. apply set_eq. intros p. split; [|set_solver]. intros [[Hid _]|Hold]%Hp.
      - exfalso. apply Ht. rewrite <- Hid. by apply (list_elem_of_fmap_2 fst).
      - rewrite (Hnew te) in Hold by by right. set_solver. }
    cbn [fst snd]. split; [by rewrite Heq at 1|].
    split; intros p c; [rewrite Hp', Hp|rewrite Hc', Hc]; setoid_rewrite elem_of_cons;
      change (entries (Mempool.link_relations m t (transaction e))) with (entries m); naive_solver.
Qed.

Lemma counted_all_frame l m :
  let m' := foldl counted m l in
  entries m' = entries m /\ limits m' = limits m /\ parents_by_txid m' = parents_by_txid m /\
  children_by_txid m' = children_by_txid m.
Proof. revert m. induction l as [|e l IH]; intros m; cbn; [done|]. destruct (IH (counted m e)) as (-> & -> & -> & ->). done. Qed.

Lemma NoDup_sorted es : NoDup (Mempool.sorted es).*1.
Proof. unfold Mempool.sorted. rewrite sorted_entries_perm. apply NoDup_fst_map_to_list. Qed.

(** Rebuilding gives the invariant whatever the derived state was, and records
    exactly the parents that are pooled. *)
Lemma rebuild_consistent m :
  (forall t e, entries m !! t = Some e -> e_txid e = t /\ built e) ->
  NoDup (keys_used (listed m)) -> fits (listed m) ->
  Mempool.len m <= max_transactions (limits m) -> total vsize_bytes (listed m) <= max_vbytes (limits m) ->
  let m' := Mempool.invalidate_fingerprint (Mempool.rebuild_derived_state_from_entries m) in
  consistent m' /\ entries m' = entries m /\ limits m' = limits m /\
  (forall p c, p ∈ rel_get (parents_by_txid m') c
     <-> exists e, entries m !! c = Some e /\ pooled_parent (entries m) (transaction e) p).
Proof.
  intros Hown Hdis Hfit Hlen Hvb m'. set (l := Mempool.sorted (entries m)).
  set (m1 := foldl counted (Mempool.reset_derived_state m) l.*2).
  destruct (counted_all_frame l.*2 (Mempool.reset_derived_state m)) as (He1 & Hl1 & Hp1 & Hc1). fold m1 in He1, Hl1, Hp1, Hc1.
  assert (m' = Mempool.invalidate_fingerprint
    (foldl (fun m te => Mempool.link_relations m te.1 (transaction te.2)) m1 l)) as Hm'.
  { transitivity (Mempool.invalidate_fingerprint
      (foldl (fun m te => Mempool.link_relations m te.1 (transaction te.2)) m1 (Mempool.sorted (entries m1)))).
    - unfold m', m1. by rewrite foldl_fmap.
    - by rewrite He1. }
  assert (forall t e, (t, e) ∈ l <-> entries m !! t = Some e) as Hl by (intros; apply elem_of_sorted_entries).
  destruct (link_all_get l m1) as (Heq & Hp & Hc); [by rewrite Hp1|apply NoDup_sorted|].
  rewrite Heq in Hm'. rewrite He1, Hp1 in Hp. rewrite He1, Hc1 in Hc. clear Heq.
  set (m2 := foldl _ m1 l) in *.
  assert (derived (listed m) m1) as Hder.
  { assert (listed m ≡ₚ l.*2 ++ []) as Hlist by by rewrite app_nil_r, <- listed_sorted.
    rewrite Hlist in Hfit |- *. apply derived_counted_all; [|by split|done].
    apply Forall_forall. intros e ([t e'] & -> & Hte%Hl)%list_elem_of_fmap. by apply (Hown t). }
  assert (forall p c, p ∈ rel_get (parents_by_txid m') c
     <-> exists e, entries m !! c = Some e /\ pooled_parent (entries m) (transaction e) p) as Hpar.
  { intros p c. rewrite Hm'. cbn. rewrite Hp. setoid_rewrite Hl. cbn. set_solver. }
  assert (entries m' = entries m) as He by by rewrite Hm'.
  assert (limits m' = limits m) as Hlim by by rewrite Hm'.
  assert (listed m' = listed m) as Hlisted by (unfold listed; by rewrite He).
  split; [|done]. split; rewrite ?Hlisted; try done.
  - by rewrite He.
  - rewrite Hm'. destruct Hder. by split.
  - rewrite Hlim. unfold Mempool.len. rewrite He. split; [done|].
    etrans; [|exact Hvb]. rewrite Hm'. cbn. by rewrite (d_vbytes _ _ Hder).
  - intros p c. rewrite Hm'. cbn. rewrite Hp, Hc. set_solver.
  - intros p c Hin%Hpar. rewrite He. done.
Qed.
End pool.

(** ** Admission, revalidation and removal *)

Section operations.
Context `{Sha3, FalconBackend}.
Context (lookup : bytes -> Z -> option UtxoEntry) (network : Network) (spend_height : Z).

Lemma check_entry_Ok e fee :
  Mempool.check_entry lookup network spend_height e = Ok fee ->
  fee = fee_atoms e /\ NoDup (Mempool.input_keys (transaction e)).
Proof using.
  unfold Mempool.check_entry, validate_transaction_with_context_for_mempool, validate_transaction_with_context,
    validate_transaction_with_context_and_schedule, validate_transaction_with_context_exact_fee_prepared_and_schedule.
  intros Hrun. inv_ok. bool_to_prop.
  match goal with Hp : prepare_transaction_validation _ _ _ _ _ = Ok _ |- _ =>
    apply prepare_checks in Hp as (_ & _ & ? & _) end. by split.
Qed.

Lemma validate_entry_Ok m e fee :
  Mempool.validate_entry lookup network spend_height m e = Ok fee <->
  Mempool.check_entry lookup network spend_height e = Ok fee /\
  forall k, k ∈ Mempool.input_keys (transaction e) -> k ∉ spent_inputs m.
Proof using.
  unfold Mempool.validate_entry. split.
  - intros Hrun. inv_ok. split; [done|]. apply existsb_false in Hc. rewrite Forall_forall in Hc.
    intros k Hk. specialize (Hc k Hk). by apply bool_decide_eq_false in Hc.
  - intros [-> Hfree]. cbn [mbind result_bind].
    rewrite (proj2 (existsb_false _ _)); [done|]. apply Forall_forall. intros k Hk. by apply bool_decide_false, Hfree.
Qed.

(** What admission asks of an entry. *)
Definition admissible (m : Mempool) (e : MempoolEntry) : Prop :=
  entries m !! e_txid e = None /\ Mempool.would_exceed_limits m e = false /\
  Mempool.check_entry lookup network spend_height e = Ok (fee_atoms e) /\
  (forall k, k ∈ Mempool.input_keys (transaction e) -> k ∉ spent_inputs m).

Lemma admit_outcome m e :
  match Mempool.admit_entry lookup network spend_height m e with
  | (m', Ok t) => admissible m e /\ t = e_txid e /\ m' = extended m e
  | (m', Err _) => m' = m /\ ~ admissible m e
  end.
Proof using.
  unfold Mempool.admit_entry, admissible. destruct (bool_decide_reflect (is_Some (entries m !! e_txid e))) as [[x Hx]|Hnew].
  { split; [done|]. intros (? & _). congruence. }
  apply eq_None_not_Some in Hnew. destruct (Mempool.would_exceed_limits m e) eqn:Hlim.
  { split; [done|]. intros (_ & ? & _). congruence. }
  destruct (Mempool.validate_entry lookup network spend_height m e) as [fee|err] eqn:Hval.
  - apply validate_entry_Ok in Hval as [Hcheck Hfree]. pose proof (check_entry_Ok _ _ Hcheck) as [-> Hnd].
    pose proof (insert_entry_eq m e Hnd Hfree) as Hins.
    destruct (Mempool.reserve_inputs m (transaction e)) as [m1 [[]|]]; [|done].
    apply (f_equal fst) in Hins. cbn [fst] in Hins. rewrite Hins. by split_and!.
  - split; [done|]. intros (_ & _ & Hcheck & Hfree).
    rewrite (proj2 (validate_entry_Ok m e (fee_atoms e))) in Hval; done.
Qed.

(** C23: admission into the pool. An entry gets in exactly when it is new, fits the
    limits, validates against the coin set and spends no coin another pooled
    transaction spends; it is then stored under its own txid and every index
    stays exact: the mining order, the spent inputs and the totals are those of
    the entries, no two entries spend the same coin, parents and children are
    inverse, the limits hold, the cached fingerprint is current. A rejected entry
    leaves the pool as it was. *)
Theorem admission_keeps_pool_consistent m e :
  consistent m -> built e -> fits (e :: listed m) ->
  match Mempool.admit_entry lookup network spend_height m e with
  | (m', Ok t) => admissible m e /\ consistent m' /\ t = Transaction.txid (transaction e) /\
                  entries m' = <[t := e]> (entries m) /\ limits m' = limits m
  | (m', Err _) => m' = m /\ ~ admissible m e
  end.
Proof using.
  intros C He Hfit. pose proof (admit_outcome m e) as Hout.
  destruct (Mempool.admit_entry lookup network spend_height m e) as [m' [t|err]]; [|done].
  destruct Hout as (Hadm & -> & ->). pose proof Hadm as (Hnew & Hlim & Hcheck & Hfree).
  split; [done|]. split; [|split; [|done]].
  - apply check_entry_Ok in Hcheck as [_ Hnd]. by apply extended_consistent.
  - destruct He as [He _]. rewrite He. done.
Qed.


(** The entry still validates. *)
Definition still_valid (e : MempoolEntry) : bool := is_ok (Mempool.check_entry lookup network spend_height e).

Lemma keep_entry_eq m te :
  (forall k, k ∈ Mempool.input_keys (transaction te.2) -> k ∉ spent_inputs m) ->
  Mempool.keep_entry lookup network spend_height m te
  = if still_valid te.2
    then Mempool.with_entries (Mempool.with_spent m
           (list_to_set (Mempool.input_keys (transaction te.2)) ∪ spent_inputs m)) (<[te.1 := te.2]> (entries m))
    else m.
Proof using.
  intros Hfree. unfold Mempool.keep_entry, still_valid.
  destruct (Mempool.check_entry lookup network spend_height te.2) as [fee|err] eqn:Hcheck; cbn [is_ok].
  - rewrite (proj2 (validate_entry_Ok m te.2 fee)) by done. apply check_entry_Ok in Hcheck as [_ Hnd].
    unfold Mempool.reserve_inputs. by rewrite reserve_loop_Ok.
  - unfold Mempool.validate_entry. by rewrite Hcheck.
Qed.

Lemma keep_all l m :
  NoDup l.*1 -> NoDup (keys_used l.*2) -> (forall k, k ∈ keys_used l.*2 -> k ∉ spent_inputs m) ->
  (forall te, te ∈ l -> entries m !! te.1 = None) ->
  let m' := foldl (Mempool.keep_entry lookup network spend_height) m l in
  limits m' = limits m /\
  (forall t e, entries m' !! t = Some e <-> ((t, e) ∈ l /\ still_valid e = true) \/ entries m !! t = Some e).
Proof using.
  revert m. induction l as [|te l IH]; intros m Hnd Hks Hfree Hnew; cbn [foldl].
  { split; [done|]. intros t e. split; [by right|]. intros [[Hin _]|]; [by apply not_elem_of_nil in Hin|done]. }
  rewrite fmap_cons in Hnd. apply NoDup_cons in Hnd as [Ht Hnd].
  rewrite fmap_cons, keys_used_cons in Hks, Hfree. apply NoDup_app in Hks as (_ & Hdis & Hks).
  rewrite keep_entry_eq by (intros; apply Hfree, elem_of_app; by left).
  assert (forall te', te' ∈ l -> te'.1 <> te.1) as Hne.
  { intros te' Hin Heq. apply Ht. rewrite <- Heq. by apply (list_elem_of_fmap_2 fst). }
  destruct (still_valid te.2) eqn:Hv.
  - edestruct (IH (Mempool.with_entries (Mempool.with_spent m
           (list_to_set (Mempool.input_keys (transaction te.2)) ∪ spent_inputs m)) (<[te.1 := te.2]> (entries m))))
      as [Hl He]; [done|done|..].
    { intros k Hk. cbn. rewrite not_elem_of_union, elem_of_list_to_set. split; [by intros ?%Hdis|].
      apply Hfree, elem_of_app. by right. }
    { intros te' Hin. cbn. rewrite lookup_insert_ne by (symmetry; by apply Hne). apply Hnew. by right. }
    split; [done|]. intros t e. rewrite He, elem_of_cons. cbn [Mempool.with_entries Mempool.with_spent entries].
    destruct te as [t0 e0]. cbn [fst snd] in *. rewrite lookup_insert.
    pose proof (Hnew (t0, e0) ltac:(left)) as Hn. cbn in Hn.
    destruct (decide (t0 = t)) as [<-|]; [|naive_solver]. split; [|naive_solver].
    intros [[Hin%Hne _]|[= <-]]; [done|]. left. auto.
  - destruct (IH m Hnd Hks) as [Hl He]; [intros; apply Hfree, elem_of_app; by right|intros; apply Hnew; by right|].
    split; [done|]. intros t e. rewrite He, elem_of_cons. naive_solver congruence.
Qed.

Lemma revalidate_spec m :
  consistent m ->
  let m' := Mempool.revalidate lookup network spend_height m in
  consistent m' /\ entries m' = filter (fun te => still_valid te.2 = true) (entries m) /\ limits m' = limits m /\
  (forall p c, p ∈ rel_get (parents_by_txid m') c
     <-> exists e, entries m' !! c = Some e /\ pooled_parent (entries m') (transaction e) p).
Proof using.
  intros [Hown Hdis Hder Hfit Hb _ _ _] m'. unfold m', Mempool.revalidate.
  set (l := Mempool.sorted (entries m)). set (m0 := Mempool.reset_derived_state (Mempool.with_entries m ∅)).
  assert (forall t e, (t, e) ∈ l <-> entries m !! t = Some e) as Hl by (intros; apply elem_of_sorted_entries).
  destruct (keep_all l m0) as [Hlim Hkept]; [apply NoDup_sorted|unfold l; by rewrite listed_sorted|cbn; set_solver|done|].
  set (m1 := foldl _ m0 l) in *.
  assert (entries m1 = filter (fun te => still_valid te.2 = true) (entries m)) as He.
  { apply map_eq. intros t. apply option_eq. intros e. rewrite Hkept, Hl, map_lookup_filter_Some. set_solver. }
  set (dropped := (filter (fun te => ~ still_valid te.2 = true) (map_to_list (entries m))).*2).
  assert (listed m ≡ₚ dropped ++ listed m1) as Hsplit.
  { unfold listed, dropped. rewrite He, map_to_list_filter, <- fmap_app, (Permutation_app_comm (filter _ _)).
    by rewrite filter_app_complement. }
  assert (Forall built dropped) as Hdropped.
  { apply Forall_forall. intros e ([t e'] & -> & [_ Hin]%list_elem_of_filter)%list_elem_of_fmap.
    apply elem_of_map_to_list in Hin. by apply (Hown t). }
  rewrite Hsplit in Hdis, Hfit, Hder. rewrite keys_used_app in Hdis. destruct Hb as [Hlen Hvb].
  rewrite (d_vbytes _ _ Hder), total_app in Hvb.
  assert (0 <= total vsize_bytes dropped) as Hnn.
  { apply total_nonneg. eapply Forall_impl; [done|]. intros e ?%built_sizes. lia. }
  destruct (rebuild_consistent m1) as (C & Hes & Hls & Hps).
  - intros t e Ht. rewrite He in Ht. apply map_lookup_filter_Some in Ht as [Ht _]. by apply Hown.
  - by apply NoDup_app in Hdis as (_ & _ & ?).
  - by apply fits_app in Hfit.
  - rewrite Hlim. etrans; [|exact Hlen]. unfold Mempool.len. rewrite He.
    apply inj_le, map_subseteq_size, map_filter_subseteq.
  - rewrite Hlim. cbn. lia.
  - split; [done|]. rewrite Hes, Hls, He, Hlim. split; [done|]. split; [done|]. rewrite <- He. exact Hps.
Qed.

(** Revalidation after a change of the chain keeps exactly the entries that
    still validate against the new coin set and height, and leaves a consistent
    pool in which the parents of an entry are exactly the pooled transactions it
    spends from. *)
Theorem revalidation_keeps_valid_entries m :
  consistent m ->
  let m' := Mempool.revalidate lookup network spend_height m in
  consistent m' /\ entries m' = filter (fun te => still_valid te.2 = true) (entries m) /\ limits m' = limits m /\
  (forall p c, p ∈ rel_get (parents_by_txid m') c
     <-> exists e, entries m' !! c = Some e /\ pooled_parent (entries m') (transaction e) p).
Proof using. apply revalidate_spec. Qed.


Lemma mining_loop l es fees skipped :
  let '(es', fees', skipped') := foldl (fun '(es, fees, skipped) e =>
      match Mempool.check_entry lookup network spend_height e with
      | Ok fee => (es ++ [e], saturating_add U64_MAX fees fee, skipped)
      | Err _ => (es, fees, saturating_add USIZE_MAX skipped 1)
      end) (es, fees, skipped) l in
  Forall built l -> es' = es ++ filter (fun e => still_valid e = true) l /\
  (fees + total fee_atoms l <= U64_MAX -> fees' = fees + total fee_atoms (filter (fun e => still_valid e = true) l)) /\
  (skipped + zlen l <= USIZE_MAX -> skipped' = skipped + (zlen l - zlen (filter (fun e => still_valid e = true) l))).
Proof using.
  revert es fees skipped. induction l as [|e l IH]; intros es fees skipped; cbn [foldl].
  { intros. cbn [filter]. rewrite filter_nil, app_nil_r. unfold total, zlen. cbn. split; [done|]. lia. }
  rewrite filter_cons. change (still_valid e) with (is_ok (Mempool.check_entry lookup network spend_height e)).
  destruct (Mempool.check_entry lookup network spend_height e) as [fee|err] eqn:Hcheck; cbn [is_ok decide].
  - specialize (IH (es ++ [e]) (saturating_add U64_MAX fees fee) skipped).
    destruct (foldl _ _ l) as [[es' fees'] skipped']. intros [He Hl]%Forall_cons.
    destruct (IH Hl) as (-> & Hf & Hs). rewrite decide_True by done.
    apply check_entry_Ok in Hcheck as [-> _]. pose proof (built_sizes e He) as Hsz.
    assert (0 <= total fee_atoms l) by (apply total_nonneg; eapply Forall_impl; [done|intros ? ?%built_sizes; lia]).
    rewrite !total_cons, !zlen_cons. split; [by rewrite <- app_assoc|]. unfold saturating_add in *. split; intros ?.
    + rewrite Hf; lia.
    + rewrite Hs; lia.
  - specialize (IH es fees (saturating_add USIZE_MAX skipped 1)).
    destruct (foldl _ _ l) as [[es' fees'] skipped']. intros [He Hl]%Forall_cons.
    destruct (IH Hl) as (-> & Hf & Hs). rewrite decide_False by done.
    pose proof (built_sizes e He) as Hsz.
    rewrite !total_cons, !zlen_cons. split; [done|]. unfold saturating_add in *. split; intros ?.
    + apply Hf. lia.
    + rewrite Hs; pose proof (zlen_nonneg l); lia.
Qed.

(** The iteration in mining order visits every pooled entry once. *)
Lemma ordered_entries m :
  consistent m ->
  MempoolEntry.order_key <$> Mempool.ordered_entries_iter m = sorted_elements MiningOrderKey.le (mining_order m) /\
  Mempool.ordered_entries_iter m ≡ₚ listed m.
Proof using.
  intros C. unfold Mempool.ordered_entries_iter. set (ks := sorted_elements MiningOrderKey.le (mining_order m)).
  assert (forall k, k ∈ ks <-> exists e, e ∈ listed m /\ k = MempoolEntry.order_key e) as Hks.
  { intros k. unfold ks. rewrite elem_of_sorted_elements, (d_order _ _ (c_derived m C)), elem_of_list_to_set,
      list_elem_of_fmap. naive_solver. }
  assert (forall e, e ∈ listed m -> entries m !! mk_txid (MempoolEntry.order_key e) = Some e) as Hget.
  { intros e (t & Ht)%elem_of_listed. cbn. by destruct (c_own m C t e Ht) as [-> _]. }
  assert (NoDup ks) as Hnd by (unfold ks; rewrite sorted_elements_perm; apply NoDup_elements).
  assert (MempoolEntry.order_key <$> omap (fun k => entries m !! mk_txid k) ks = ks) as Heq.
  { assert (forall k, k ∈ ks -> exists e, entries m !! mk_txid k = Some e /\ MempoolEntry.order_key e = k) as Hk.
    { intros k (e & He & ->)%Hks. exists e. by rewrite Hget. }
    clear Hks Hnd. induction ks as [|k ks' IH]; [done|]. destruct (Hk k) as (e & He & Hek); [left|].
    cbn. rewrite He. cbn. rewrite Hek. f_equal. apply IH. intros. apply Hk. by right. }
  split; [done|]. apply NoDup_Permutation.
  - rewrite <- Heq in Hnd. by apply NoDup_fmap_1 in Hnd.
  - assert (e_txid <$> listed m = (map_to_list (entries m)).*1) as Hids.
    { unfold listed. rewrite <- list_fmap_compose. apply list_fmap_ext. intros _ [t e] Hin%list_elem_of_lookup_2.
      apply elem_of_map_to_list in Hin. cbn. by apply (c_own m C). }
    apply (NoDup_fmap_1 e_txid). rewrite Hids. apply NoDup_fst_map_to_list.
  - intros e. rewrite list_elem_of_omap. split.
    + intros (k & _ & Hk). apply elem_of_listed. by exists (mk_txid k).
    + intros He. exists (MempoolEntry.order_key e). split; [apply Hks; by exists e|by apply Hget].
Qed.

Lemma listed_built m : consistent m -> Forall built (listed m).
Proof using. intros C. apply Forall_forall. intros e (t & Ht)%elem_of_listed. by apply (c_own m C t). Qed.

(** C24: what the miner is handed: the pooled entries that still validate, each
    once, by descending fee rate, then descending fee, then txid, with their exact
    total fee and the number of entries left out. *)
Theorem mining_selection_sorted_and_complete m es fees skipped :
  consistent m ->
  Mempool.validated_entries_for_mining lookup network spend_height m = (es, fees, skipped) ->
  es ≡ₚ filter (fun e => still_valid e = true) (listed m) /\
  StronglySorted mined_before (MempoolEntry.order_key <$> es) /\
  fees = total fee_atoms es /\ skipped = Mempool.len m - zlen es.
Proof using.
  intros C Hrun. destruct (ordered_entries m C) as [Hkeys Hperm].
  pose proof (mining_loop (Mempool.ordered_entries_iter m) [] 0 0) as Hloop.
  unfold Mempool.validated_entries_for_mining in Hrun. rewrite Hrun in Hloop.
  pose proof (listed_built m C) as Hbuilt. destruct Hloop as (-> & Hfees & Hskip); [by rewrite Hperm|].
  rewrite app_nil_l. rewrite Hperm in Hfees, Hskip.
  destruct (c_fits m C) as (Hff & _ & Hfv).
  assert (zlen (listed m) <= total vsize_bytes (listed m)) as Hcount.
  { clear -Hbuilt. induction Hbuilt as [|e l He _ IH]; [done|]. rewrite zlen_cons, total_cons.
    apply built_sizes in He. lia. }
  assert (zlen (listed m) = Mempool.len m) as Hlen.
  { unfold zlen, listed, Mempool.len. by rewrite length_fmap, length_map_to_list. }
  split; [by rewrite Hperm|]. split; [|split].
  - apply (StronglySorted_impl MiningOrderKey.le); [|apply order_le_mined_before].
    apply (StronglySorted_fmap_filter _ MempoolEntry.order_key). rewrite Hkeys. apply StronglySorted_merge_sort; apply _.
  - rewrite Hfees by (cbn; lia). by rewrite Hperm.
  - rewrite Hskip by (unfold USIZE_MAX in *; lia). rewrite Hperm, Hlen. lia.
Qed.

Lemma remove_block_spec m (b : Block) :
  consistent m ->
  let m' := Mempool.remove_block_transactions m b in
  consistent m' /\ limits m' = limits m /\
  entries m' = filter (fun te => te.1 ∉ Transaction.txid <$> transactions b) (entries m).
Proof using.
  intros C m'. unfold m', Mempool.remove_block_transactions.
  assert (forall txs m0 flag, consistent (Mempool.invalidate_fingerprint m0) -> (flag = false -> consistent m0) ->
    let s := foldl Mempool.remove_transaction (m0, flag) txs in
    consistent (Mempool.invalidate_fingerprint s.1) /\ (s.2 = false -> consistent s.1) /\ limits s.1 = limits m0 /\
    entries s.1 = filter (fun te => te.1 ∉ Transaction.txid <$> txs) (entries m0)) as Hloop.
  { clear. induction txs as [|tx txs IH]; intros m0 flag Cinv Cf; cbn [foldl]; cbn zeta.
    - cbn [fst snd]. do 3 (split; [done|]). symmetry. apply map_filter_id. intros. apply not_elem_of_nil.
    - destruct (entries m0 !! Transaction.txid tx) as [e|] eqn:He.
      + assert (Mempool.remove_transaction (m0, flag) tx
          = (Mempool.release_inputs (Mempool.remove_entry m0 (Transaction.txid tx)).1 (transaction e), true)) as ->.
        { unfold Mempool.remove_transaction. cbn [fst snd]. by rewrite (removed_eq _ _ _ He). }
        pose proof (removed_consistent _ _ _ Cinv He) as C'.
        rewrite (removed_eq _ _ _ He) in C' |- *. cbn [fst] in C'.
        destruct (IH _ true C') as (H1 & H2 & H3 & H4); [done|]. split; [exact H1|]. split; [exact H2|]. split; [exact H3|]. etrans; [exact H4|]. cbn [entries].
        apply map_eq. intros t. apply option_eq. intros e'. rewrite !map_lookup_filter_Some, fmap_cons, elem_of_cons.
        cbn [entries fst Mempool.release_inputs Mempool.with_spent Mempool.with_order Mempool.unlink_relations
          Mempool.with_relations Mempool.with_entries]. rewrite lookup_delete_Some. naive_solver.
      + assert (Mempool.remove_transaction (m0, flag) tx = (m0, flag)) as ->.
        { unfold Mempool.remove_transaction. cbn [fst snd]. by rewrite remove_entry_None. }
        destruct (IH m0 flag Cinv Cf) as (H1 & H2 & H3 & H4).
        split; [exact H1|]. split; [exact H2|]. split; [exact H3|]. etrans; [exact H4|]. apply map_eq. intros t. apply option_eq. intros e'.
        rewrite !map_lookup_filter_Some, fmap_cons, elem_of_cons. cbn [fst]. naive_solver congruence. }
  destruct (Hloop (transactions b) m false) as (H1 & H2 & H3 & H4); [by apply consistent_invalidate|done|].
  destruct (foldl _ (m, false) _) as [m1 []]; cbn in *; split_and!; auto.
Qed.

(** A block entering the chain takes exactly its transactions out of the pool
    and leaves it consistent: the coins they spent are free again, and the
    transactions that stay keep their place. *)
Theorem mined_transactions_leave_pool m (b : Block) :
  consistent m ->
  let m' := Mempool.remove_block_transactions m b in
  consistent m' /\ limits m' = limits m /\
  entries m' = filter (fun te => te.1 ∉ Transaction.txid <$> transactions b) (entries m).
Proof using. apply remove_block_spec. Qed.

(** The fingerprint of a consistent pool is always the hash of the network, the
    entry count, the total fee, the txids and the spent coins, whether it is
    computed or taken from the cache, and taking it leaves the pool consistent
    and its contents alone. *)
Theorem fingerprint_is_current m n :
  consistent m ->
  let '(m', h) := Mempool.fingerprint m n in
  h = sha3_256 (Mempool.fingerprint_preimage m n) /\ consistent m' /\ entries m' = entries m /\
  (forall n', (Mempool.fingerprint m' n').2 = (Mempool.fingerprint m n').2).
Proof using.
  intros C. set (m1 := Mempool.with_cache m (Some (n, sha3_256 (Mempool.fingerprint_preimage m n)))).
  assert (consistent m1) as C1.
  { destruct C as [? ? [] ? ? ? ? ?]. split; try done. intros n' h' [= <- <-]. done. }
  assert (forall m n', consistent m -> (Mempool.fingerprint m n').2 = sha3_256 (Mempool.fingerprint_preimage m n'))
    as Hcur.
  { clear. intros m n' C. unfold Mempool.fingerprint. destruct (fingerprint_cache m) as [[n h]|] eqn:Hc; [|done].
    destruct (bool_decide_reflect (n = n')) as [<-|]; [|done]. by apply (c_cache m C). }
  assert ((Mempool.fingerprint m n).1 = m \/ (Mempool.fingerprint m n).1 = m1) as Hm.
  { unfold Mempool.fingerprint. destruct (fingerprint_cache m) as [[n0 h0]|]; [|by right].
    destruct (bool_decide (n0 = n)); auto. }
  pose proof (Hcur m n C) as Hh. destruct (Mempool.fingerprint m n) as [m' h]. cbn [fst snd] in *. split; [done|].
  destruct Hm as [->| ->]; do 2 (split; [done|]); intros n'; by rewrite !Hcur.
Qed.

End operations.

(** ** Witnesses *)

Lemma empty_consistent `{Sha3} l :
  0 <= max_transactions l -> 0 <= max_vbytes l -> consistent (Mempool.empty l).
Proof.
  intros Ht Hv. split; cbn; try done. constructor.
Qed.

Definition sample_entry : MempoolEntry := MempoolEntry.new (H:=checksum_sha3) 0 (sample_spend (zeros 48)) sample_fee.
(** The default pool after admitting it. *)
Definition sample_pool : Mempool :=
  (Mempool.admit_entry (H:=checksum_sha3) (H0:=accepting_falcon) sample_lookup Regnet 5 Mempool.new sample_entry).1.

Lemma sample_entry_built : built (H:=checksum_sha3) sample_entry /\ fits (sample_entry :: listed Mempool.new).
Proof. split; [split; [reflexivity|done]|split_and!]; apply Z.leb_le; by vm_compute. Qed.
Lemma new_consistent : consistent (H:=checksum_sha3) Mempool.new.
Proof. apply empty_consistent; by apply Z.leb_le. Qed.
Lemma sample_admitted :
  (Mempool.admit_entry (H:=checksum_sha3) (H0:=accepting_falcon) sample_lookup Regnet 5 Mempool.new sample_entry).2
  = Ok (e_txid sample_entry).
Proof. by vm_compute. Qed.
Lemma sample_pool_consistent : consistent (H:=checksum_sha3) sample_pool.
Proof.
  pose proof (admit_outcome (H:=checksum_sha3) (H0:=accepting_falcon) sample_lookup Regnet 5 Mempool.new sample_entry) as Hout.
  unfold sample_pool. pose proof sample_admitted as Hok.
  destruct (Mempool.admit_entry _ _ _ _ _) as [m' r]. cbn [fst snd] in *. subst r. destruct Hout as (Hadm & _ & ->).
  destruct Hadm as (Hnew & Hlim & Hcheck & Hfree). destruct sample_entry_built as [Hb Hf].
  apply check_entry_Ok in Hcheck as [_ Hnd].
  exact (extended_consistent _ _ new_consistent Hb Hf Hnew Hnd Hfree Hlim).
Qed.

Lemma admission_keeps_pool_consistent_witness :
  entries sample_pool = <[Transaction.txid (H:=checksum_sha3) (transaction sample_entry) := sample_entry]> ∅.
Proof.
  pose proof (admission_keeps_pool_consistent (H:=checksum_sha3) (H0:=accepting_falcon) sample_lookup Regnet 5
    Mempool.new sample_entry) as Hadmit.
  unfold sample_pool. pose proof sample_admitted as Hok.
  destruct (Mempool.admit_entry _ _ _ _ _) as [m' r]. cbn [fst snd] in *. subst r. destruct sample_entry_built as [Hb Hf].
  destruct (Hadmit new_consistent Hb Hf) as (_ & _ & Ht & He & _). rewrite He, Ht. reflexivity.
Defined.

(** One block later the spend still validates. *)
Lemma revalidation_keeps_valid_entries_witness :
  consistent (H:=checksum_sha3)
    (Mempool.revalidate (H:=checksum_sha3) (H0:=accepting_falcon) sample_lookup Regnet 6 sample_pool).
Proof.
  exact (proj1 (revalidation_keeps_valid_entries (H:=checksum_sha3) (H0:=accepting_falcon) sample_lookup Regnet 6
    sample_pool sample_pool_consistent)).
Defined.

Lemma mining_selection_sorted_and_complete_witness :
  match Mempool.validated_entries_for_mining (H:=checksum_sha3) (H0:=accepting_falcon) sample_lookup Regnet 5 sample_pool with
  | (es, fees, skipped) => fees = total fee_atoms es /\ skipped = Mempool.len sample_pool - zlen es
  end.
Proof.
  pose proof (mining_selection_sorted_and_complete (H:=checksum_sha3) (H0:=accepting_falcon) sample_lookup Regnet 5
    sample_pool) as Hsel.
  destruct (Mempool.validated_entries_for_mining _ _ _ _) as [[es fees] skipped].
  exact (proj2 (proj2 (Hsel es fees skipped sample_pool_consistent eq_refl))).
Defined.

Lemma mined_transactions_leave_pool_witness :
  consistent (H:=checksum_sha3) (Mempool.remove_block_transactions (H:=checksum_sha3) sample_pool valid_block).
Proof.
  exact (proj1 (mined_transactions_leave_pool (H:=checksum_sha3) sample_pool valid_block sample_pool_consistent)).
Defined.

Lemma fingerprint_is_current_witness :
  let '(m', h) := Mempool.fingerprint (H:=checksum_sha3) sample_pool Regnet in
  h = sha3_256 (Sha3:=checksum_sha3) (Mempool.fingerprint_preimage sample_pool Regnet).
Proof.
  pose proof (fingerprint_is_current (H:=checksum_sha3) sample_pool Regnet sample_pool_consistent) as Hf.
  destruct (Mempool.fingerprint sample_pool Regnet) as [m' h]. exact (proj1 Hf).
Defined.
