(* ===== verification/Node.v ===== *)
(** * The node

    crates/atho-node/src/node.rs: the chain state and the memory pool side by
    side, and the operations that keep them in step: connecting a block, admitting
    a transaction, considering a branch. Log lines, peer records and the start-up
    from a configured snapshot file are not modelled; the clock is an argument. *)
From stdpp Require Import options.
From S2P Require Import Prelude Bytes Constants Crypto Keccak Network Rules Transaction Block Pow.
From S2P Require Import Address Genesis Signatures TxPolicy Errors Utxo Validation BlockValidation.
From S2P Require Import Chainstate Mempool.

(** The configuration the modelled operations read. *)
(* src: node_config.rs:36-47 NodeConfig *)
Record NodeConfig := {
  cfg_network : Network;
  cfg_mining_reward_address : bytes;
  cfg_mempool : MempoolLimits;
}.

(** The variants that wrap runtime and peer errors do not occur here. *)
(* src: node_error.rs:14-28 NodeError *)
Inductive NodeError :=
| NodeValidation (e : ValidationError)
| NodeStorage (e : StorageError)
| MiningRewardAddressRequired (message : bytes).

(* src: node.rs:44-51 Node *)
Record Node `{Database} := {
  config : NodeConfig;
  chainstate : Chainstate;
  mempool : Mempool;
}.

(** The lookup closure over a chain state. *)
(* src: chainstate.rs:434-436 Chainstate::utxo_entry *)
Definition utxo_entry `{Database} (c : Chainstate) (txid : bytes) (output_index : Z) : option UtxoEntry :=
  UtxoSet.get (cs_utxos c) txid output_index.

(** The loop of [transaction_fee_from_lookup]; [None] is its [?]. *)
Fixpoint input_total (lookup : bytes -> Z -> option UtxoEntry) (total : Z) (ins : list TxInput) : option Z :=
  match ins with
  | [] => Some total
  | i :: ins =>
      utxo ← lookup (previous_txid i) (output_index i);
      total ← checked_add U64_MAX total (u_value_atoms utxo);
      input_total lookup total ins
  end.
(* src: node.rs:732-748 transaction_fee_from_lookup *)
Definition transaction_fee_from_lookup (lookup : bytes -> Z -> option UtxoEntry) (tx : Transaction) : option Z :=
  if Transaction.is_coinbase tx then None
  else
    total ← input_total lookup 0 (inputs tx);
    output_total ← Transaction.checked_output_value_atoms tx;
    checked_sub total output_total.

(* src: node.rs:750-757 fixed_hash48_from_be_bytes *)
Definition fixed_hash48_from_be_bytes (bs : bytes) : bytes :=
  let copy_len := Nat.min (length bs) 48 in
  replicate (48 - copy_len) x00 ++ drop (length bs - copy_len) bs.

Module Node.
Section node.
Context `{Hs : Sha3, Hf : FalconBackend, Hg : !GenesisReady Hs, Hd : Database}.

Definition with_chainstate (n : Node) (c : Chainstate) : Node :=
  {| config := config n; chainstate := c; mempool := mempool n |}.
Definition with_mempool (n : Node) (m : Mempool) : Node :=
  {| config := config n; chainstate := chainstate n; mempool := m |}.

(* src: node.rs:54-59 Node::mempool_for_config *)
Definition mempool_for_config (cfg : NodeConfig) : Mempool := Mempool.with_limits (cfg_mempool cfg).
(* src: node.rs:61-75 Node::new *)
Definition new (cfg : NodeConfig) : Node :=
  {| config := cfg; chainstate := Chainstate.new (cfg_network cfg); mempool := mempool_for_config cfg |}.
(* src: node.rs:77-79 Node::network *)
Definition network (n : Node) : Network := cfg_network (config n).
(* src: node.rs:91-93 Node::height *)
Definition height (n : Node) : Z := cs_height (chainstate n).
(* src: node.rs:95-97 Node::tip_hash *)
Definition tip_hash (n : Node) : bytes := cs_tip_hash (chainstate n).
(* src: node.rs:123-125 Node::blocks *)
Definition blocks (n : Node) : list Block := cs_blocks (chainstate n).
(* src: node.rs:393-399 Node::difficulty_target_for_next_block_at *)
Definition difficulty_target_for_next_block_at (n : Node) (timestamp : Z) : bytes :=
  target_for_next_block_with_timestamp (network n) (blocks n) timestamp.

(* src: node.rs:217-240 Node::branch_is_preferred_over_current *)
Definition branch_is_preferred_over_current (n : Node) (branch : list Block) : bool :=
  match
    (first ← head branch;
     fork_height ← Chainstate.known_block_height (chainstate n) (previous_block_hash (header first));
     fork_block ← match Chainstate.block_by_height (chainstate n) fork_height with Ok b => b | Err _ => None end;
     if bool_decide (BlockHeader.block_hash (header fork_block) = previous_block_hash (header first))
     then Some fork_height else None) with
  | None => false
  | Some fork_height =>
      match try_map (fun h => match Chainstate.block_by_height (chainstate n) h with
                              | Ok (Some b) => Ok b
                              | _ => Err tt
                              end)
              (seqZ (saturating_add U64_MAX fork_height 1)
                 (height n + 1 - saturating_add U64_MAX fork_height 1)) with
      | Ok current_branch => branch_is_preferred branch current_branch
      | Err _ => false
      end
  end.

(* src: node.rs:719-729 Node::revalidate_mempool_if_needed *)
Definition revalidate_mempool_if_needed (n : Node) : Node :=
  if Mempool.len (mempool n) =? 0 then n
  else with_mempool n (Mempool.revalidate (utxo_entry (chainstate n)) (network n) (height n) (mempool n)).

(* src: node.rs:552-585 Node::connect_block *)
Definition connect_block (env : Env) (now : Z) (n : Node) (b : Block) : Node * result NodeError unit :=
  match Chainstate.connect_block env now (chainstate n) b with
  | (c, Err (Validation e)) => (with_chainstate n c, Err (NodeValidation e))
  | (c, Err e) => (with_chainstate n c, Err (NodeStorage e))
  | (c, Ok _) =>
      let n := with_chainstate n c in
      let n := with_mempool n (Mempool.remove_block_transactions (mempool n) b) in
      (revalidate_mempool_if_needed n, Ok tt)
  end.
(* src: node.rs:627-629 Node::submit_block *)
Definition submit_block (env : Env) (now : Z) (n : Node) (b : Block) : Node * result NodeError unit :=
  connect_block env now n b.

(* src: node.rs:587-596 Node::admit_transaction *)
Definition admit_transaction (n : Node) (e : MempoolEntry) : Node * result NodeError bytes :=
  match Mempool.admit_entry (utxo_entry (chainstate n)) (network n) (height n) (mempool n) e with
  | (m, Ok txid) => (with_mempool n m, Ok txid)
  | (m, Err err) => (with_mempool n m, Err (NodeValidation err))
  end.
(* src: node.rs:691-702 Node::submit_transaction *)
Definition submit_transaction (n : Node) (e : MempoolEntry) : Node * result NodeError bytes := admit_transaction n e.
(* src: node.rs:598-611 Node::accept_relayed_transaction *)
Definition accept_relayed_transaction (now : Z) (n : Node) (tx : Transaction) : Node * result NodeError bytes :=
  if Transaction.is_coinbase tx then (n, Err (NodeValidation InvalidCoinbase))
  else match transaction_fee_from_lookup (utxo_entry (chainstate n)) tx with
       | None => (n, Err (NodeValidation MissingUtxo))
       | Some fee_atoms => submit_transaction n (MempoolEntry.new now tx fee_atoms)
       end.

(** One transaction of a disconnected block going back to the pool. *)
(* src: node.rs:667-685 Node::consider_branch (readmission) *)
Definition readmit (now : Z) (n : Node) (tx : Transaction) : Node :=
  match transaction_fee_from_lookup (utxo_entry (chainstate n)) tx with
  | None => n
  | Some fee_atoms => (admit_transaction n (MempoolEntry.new now tx fee_atoms)).1
  end.
(* src: node.rs:631-689 Node::consider_branch *)
Definition consider_branch (env : Env) (now : Z) (n : Node) (branch : list Block) :
    Node * result NodeError ChainSelectionResult :=
  match Chainstate.select_branch env now (chainstate n) branch with
  | (c, Err e) => (with_chainstate n c, Err (NodeStorage e))
  | (c, Ok selection) =>
      let n := with_chainstate n c in
      match outcome selection with
      | KeptCurrent => (n, Ok selection)
      | Extended | Reorged =>
          let n := with_mempool n (foldl Mempool.remove_block_transactions (mempool n) branch) in
          let n := match outcome selection with
                   | Reorged => foldl (readmit now) n (disconnected selection ≫= fun b => drop 1 (transactions b))
                   | _ => n
                   end in
          (revalidate_mempool_if_needed n, Ok selection)
      end
  end.

(* src: node.rs:187-193 Node::import_snapshot_bundle *)
Definition import_snapshot_bundle (env : Env) (n : Node) (bundle : ChainSnapshotBundle) :
    Node * result NodeError unit :=
  match Chainstate.import_snapshot_bundle env (chainstate n) bundle with
  | (c, Err e) => (with_chainstate n c, Err (NodeStorage e))
  | (c, Ok _) => (revalidate_mempool_if_needed (with_chainstate n c), Ok tt)
  end.

End node.
End Node.

(** ** The coins behind a pool *)

(** The set's values are u64 values, and twice their sum is still one. *)
Definition coins_bounded (s : UtxoSet) : Prop :=
  map_Forall (fun _ e => 0 <= u_value_atoms e) (us_entries s) /\ 2 * UtxoSet.total_value (us_entries s) <= U64_MAX.

Section coins.
Context `{Hs : Sha3, Hf : FalconBackend}.

Lemma total_value_nonneg m : map_Forall (fun _ e => 0 <= u_value_atoms e) m -> 0 <= UtxoSet.total_value m.
Proof.
  intros Hm. unfold UtxoSet.total_value. revert Hm. apply (map_fold_weak_ind (fun n m =>
    map_Forall (fun _ e => 0 <= u_value_atoms e) m -> 0 <= n)); [done|].
  intros k e m0 n Hk IH Hm. apply map_Forall_insert in Hm as [He Hm]; [|done]. specialize (IH Hm). lia.
Qed.
Lemma without_keys_values m ks :
  map_Forall (fun _ e => 0 <= u_value_atoms e) m -> map_Forall (fun _ e => 0 <= u_value_atoms e) (without_keys m ks).
Proof.
  intros Hm k e. rewrite lookup_without_keys. case_decide; [done|]. apply Hm.
Qed.

(** The coins behind a validated entry pay its fee. *)
Lemma check_entry_coins s n h e fee :
  Mempool.check_entry (UtxoSet.get s) n h e = Ok fee ->
  exists coins, Forall2 (fun i c => us_entries s !! input_key i = Some c) (inputs (transaction e)) coins /\
    0 <= fee_atoms e <= values coins.
Proof.
  intros Hcheck. pose proof (check_entry_Ok _ _ _ _ _ Hcheck) as [-> _].
  unfold Mempool.check_entry, validate_transaction_with_context_for_mempool, validate_transaction_with_context,
    validate_transaction_with_context_and_schedule, validate_transaction_with_context_exact_fee_prepared_and_schedule
    in Hcheck.
  inv_ok. bool_to_prop.
  match goal with Hcom : validate_transaction_with_context_common_and_schedule _ _ _ _ _ = Ok _ |- _ =>
    apply context_common_Ok in Hcom as (coins & Hcoins & Hval & Hpos) end.
  match goal with Hp : prepare_transaction_validation _ _ _ _ _ = Ok _ |- _ =>
    apply prepare_checks in Hp as (_ & _ & _ & _ & Houts & _) end.
  exists coins. split.
  - apply Forall2_same_length_lookup. split.
    { rewrite <- (Forall2_length _ _ _ Hcoins). unfold enumerate. by rewrite length_imap. }
    intros k i c Hi Hk. destruct (Forall2_lookup_r _ _ _ _ _ Hcoins Hk) as ([k' i'] & Hki & Hsp & _).
    rewrite enumerate_lookup, Hi in Hki. injection Hki as <- <-. exact Hsp.
  - assert (0 <= zsum (value_atoms <$> outputs (transaction e))); [|lia].
    apply zsum_nonneg, Forall_fmap. eapply Forall_impl; [exact Houts|]. intros o [Ho _]. cbn.
    assert (0 <= DUST_RELAY_VALUE_ATOMS) by by apply Z.leb_le. lia.
Qed.

(** The fees of entries that spend different coins are among the coins in existence. *)
Lemma validated_fees_bounded s n h es :
  map_Forall (fun _ e => 0 <= u_value_atoms e) (us_entries s) -> NoDup (keys_used es) ->
  Forall (fun e => still_valid (UtxoSet.get s) n h e = true) es ->
  total fee_atoms es <= UtxoSet.total_value (us_entries s).
Proof.
  intros Hpos Hnd Hvalid.
  assert (exists coins, Forall2 (fun i c => us_entries s !! input_key i = Some c)
      (es ≫= (fun e => inputs (transaction e))) coins /\ total fee_atoms es <= values coins) as (coins & Hc & Hle).
  { clear Hnd. induction Hvalid as [|e es He _ IH]; [exists []; split; [constructor|done]|].
    destruct IH as (coins & Hc & Hle). unfold still_valid in He.
    destruct (Mempool.check_entry _ _ _ e) as [fee|] eqn:Hcheck; [|done].
    apply check_entry_coins in Hcheck as (coins' & Hc' & Hfee). exists (coins' ++ coins). split.
    - by apply Forall2_app.
    - rewrite total_cons, values_app. lia. }
  assert (spends (us_entries s) (es ≫= (fun e => inputs (transaction e))) coins) as Hsp.
  { split; [done|]. unfold keys_used, Mempool.input_keys in Hnd. by rewrite list_bind_fmap_comm in Hnd. }
  apply total_value_spends in Hsp.
  pose proof (total_value_nonneg _ (without_keys_values _ (input_key <$> (es ≫= (fun e => inputs (transaction e)))) Hpos)).
  lia.
Qed.
End coins.

(** ** The pool follows the tip *)

Section pool.
Context `{Hs : Sha3, Hf : FalconBackend}.

(** The limits leave the totals room. *)
Definition limits_bounded (l : MempoolLimits) : Prop := max_vbytes l <= 2 ^ 60.

Lemma built_raw e : built e -> vsize_bytes e <= 2 ^ 60 -> raw_size_bytes e <= 4 * vsize_bytes e.
Proof.
  intros [He _]. rewrite He. cbn [vsize_bytes raw_size_bytes MempoolEntry.new].
  pose proof (tx_sizes_nonneg (transaction e)) as [Hb Hr].
  unfold Transaction.vsize_bytes, Transaction.weight_bytes, saturating_add, saturating_mul, USIZE_MAX. intros Hv.
  assert (Z.min (2 ^ 64 - 1) (Transaction.base_size_bytes (transaction e) * 3) +
            Transaction.full_size_bytes (transaction e) + 3 <= 2 ^ 64 - 1); [|Z.to_euclidean_division_equations; lia].
  destruct (Z.le_gt_cases (Z.min (2 ^ 64 - 1) (Transaction.base_size_bytes (transaction e) * 3) +
            Transaction.full_size_bytes (transaction e) + 3) (2 ^ 64 - 1)); [done|exfalso].
  assert (2 ^ 60 < (2 ^ 64 - 4) / 4) by done.
  assert ((2 ^ 64 - 4) / 4 <= Z.min (2 ^ 64 - 1) (Z.min (2 ^ 64 - 1) (Z.min (2 ^ 64 - 1)
    (Transaction.base_size_bytes (transaction e) * 3) + Transaction.full_size_bytes (transaction e)) + 3) / 4); [|lia].
  apply Z.div_le_mono; lia.
Qed.

Lemma fits_bounded es :
  Forall built es -> total vsize_bytes es <= 2 ^ 60 -> total fee_atoms es <= U64_MAX -> fits es.
Proof.
  intros Hb Hv Hfee. unfold fits. split; [done|]. assert (total raw_size_bytes es <= 4 * total vsize_bytes es).
  { clear Hfee. induction Hb as [|e es He Hes IH]; [done|]. rewrite !total_cons in *.
    assert (0 <= total vsize_bytes es) by (apply total_nonneg; eapply Forall_impl; [done|]; intros ? ?%built_sizes; lia).
    pose proof (built_sizes e He). pose proof (built_raw e He). lia. }
  unfold USIZE_MAX. lia.
Qed.

(** Admission, without asking for the fit of the whole pool. *)
Lemma admit_bounded lookup network h m e :
  consistent m -> built e -> limits_bounded (limits m) ->
  (admissible lookup network h m e -> total fee_atoms (e :: listed m) <= U64_MAX) ->
  let m' := (Mempool.admit_entry lookup network h m e).1 in
  consistent m' /\ limits m' = limits m /\
  (m' = m \/ (admissible lookup network h m e /\ entries m' = <[e_txid e := e]> (entries m) /\
              listed m' ≡ₚ e :: listed m)).
Proof.
  intros C He Hl Hfee m'. pose proof (admit_outcome lookup network h m e) as Hout. unfold m'.
  destruct (Mempool.admit_entry lookup network h m e) as [m1 [t|err]]; cbn [fst].
  2:{ destruct Hout as [-> _]. auto. }
  destruct Hout as (Hadm & _ & ->). specialize (Hfee Hadm). pose proof Hadm as (Hnew & Hlim & Hcheck & Hfree).
  apply check_entry_Ok in Hcheck as [_ Hnd].
  assert (listed (extended m e) ≡ₚ e :: listed m) as Hlist by by apply (listed_insert m (e_txid e)).
  split; [|split; [done|right; done]]. apply extended_consistent; try done.
  apply fits_bounded; [constructor; [done|by apply listed_built]| |done].
  unfold Mempool.would_exceed_limits in Hlim. apply orb_false_iff in Hlim as [_ Hv]. bool_to_prop.
  rewrite (d_vbytes _ _ (c_derived m C)) in Hv. rewrite total_cons. unfold saturating_add, USIZE_MAX in Hv.
  unfold limits_bounded in Hl. lia.
Qed.

Lemma admissible_valid lookup network h m e :
  admissible lookup network h m e -> still_valid lookup network h e = true.
Proof. intros (_ & _ & Hcheck & _). unfold still_valid. by rewrite Hcheck. Qed.

(** The keys of an admissible entry are not in use. *)
Lemma admissible_keys lookup network h m e :
  consistent m -> admissible lookup network h m e -> NoDup (keys_used (e :: listed m)).
Proof.
  intros C (_ & _ & Hcheck & Hfree). rewrite keys_used_cons. apply NoDup_app.
  split; [by apply check_entry_Ok in Hcheck as [_ ?]|]. split; [|apply (c_disjoint _ C)].
  intros k Hk Hin. apply (Hfree k Hk). rewrite (d_spent _ _ (c_derived _ C)). by apply elem_of_list_to_set.
Qed.

(** Every pooled transaction validates on top of the chain state. *)
Definition pool_current `{Hd : Database} (n : Node) : Prop :=
  consistent (mempool n) /\
  forall t e, entries (mempool n) !! t = Some e ->
    still_valid (utxo_entry (chainstate n)) (Node.network n) (Node.height n) e = true.

Lemma pool_current_valid `{Hd : Database} n :
  pool_current n ->
  Forall (fun e => still_valid (utxo_entry (chainstate n)) (Node.network n) (Node.height n) e = true)
    (listed (mempool n)).
Proof. intros [_ Hval]. apply Forall_forall. intros e (t & Ht)%elem_of_listed. by eapply Hval. Qed.
End pool.

Section steps.
Context `{Hs : Sha3, Hf : FalconBackend, Hg : !GenesisReady Hs, Hd : Database}.

Lemma revalidate_if_needed_spec n :
  consistent (mempool n) ->
  let n' := Node.revalidate_mempool_if_needed n in
  pool_current n' /\ config n' = config n /\ chainstate n' = chainstate n /\ limits (mempool n') = limits (mempool n) /\
  entries (mempool n') = filter
    (fun te => still_valid (utxo_entry (chainstate n)) (Node.network n) (Node.height n) te.2 = true)
    (entries (mempool n)).
Proof.
  intros C. unfold Node.revalidate_mempool_if_needed. destruct (Z.eqb_spec (Mempool.len (mempool n)) 0) as [Hlen|].
  - assert (entries (mempool n) = ∅) as Hem by (unfold Mempool.len in Hlen; apply map_size_empty_inv; lia).
    cbv zeta. rewrite Hem, map_filter_empty. split; [|done]. split; [done|]. intros t e. by rewrite Hem, lookup_empty.
  - pose proof (revalidate_spec (utxo_entry (chainstate n)) (Node.network n) (Node.height n) _ C) as (C' & He & Hl & _).
    split; [|done]. split; [done|]. intros t e. cbn [mempool Node.with_mempool]. rewrite He.
    by intros [_ ?]%map_lookup_filter_Some.
Qed.

(** Handing an entry to the pool. *)
Lemma admit_transaction_spec n e :
  pool_current n -> coins_bounded (cs_utxos (chainstate n)) -> built e -> limits_bounded (limits (mempool n)) ->
  let n' := (Node.admit_transaction n e).1 in
  pool_current n' /\ config n' = config n /\ chainstate n' = chainstate n /\ limits (mempool n') = limits (mempool n).
Proof.
  intros Hcur [Hpos Hbound] He Hl. pose proof (pool_current_valid n Hcur) as Hall. destruct Hcur as [C Hval].
  destruct (admit_bounded (utxo_entry (chainstate n)) (Node.network n) (Node.height n) (mempool n) e)
    as (C' & Hlim & Hcase); [done..| |].
  { intros Hadm. transitivity (UtxoSet.total_value (us_entries (cs_utxos (chainstate n)))).
    2:{ pose proof (total_value_nonneg _ Hpos). lia. }
    apply (validated_fees_bounded _ (Node.network n) (Node.height n)); [done|by eapply admissible_keys|].
    constructor; [|done]. by eapply (admissible_valid (utxo_entry (chainstate n))). }
  unfold Node.admit_transaction. destruct (Mempool.admit_entry _ _ _ _ _) as [m [t|err]]; cbn [fst] in *;
    (split; [|done]); (split; [done|]); intros t' e'; cbn [mempool Node.with_mempool];
    (destruct Hcase as [->|(Hadm & -> & _)]; [by apply Hval|]);
    (intros [[<- <-]|[_ ?]]%lookup_insert_Some; [by eapply admissible_valid|by eapply Hval]).
Qed.

Lemma fee_from_lookup_nonneg lookup tx fee : transaction_fee_from_lookup lookup tx = Some fee -> 0 <= fee.
Proof.
  unfold transaction_fee_from_lookup. destruct (Transaction.is_coinbase tx); [done|].
  intros (total & _ & (out & _ & Hsub)%bind_Some)%bind_Some. apply checked_sub_Some in Hsub. lia.
Qed.
Lemma new_built now tx fee : 0 <= fee -> built (MempoolEntry.new now tx fee).
Proof. done. Qed.

(** Removing the blocks of a branch. *)
Lemma remove_blocks_spec m bs :
  consistent m ->
  let m' := foldl Mempool.remove_block_transactions m bs in
  consistent m' /\ limits m' = limits m /\ entries m' ⊆ entries m.
Proof.
  revert m. induction bs as [|b bs IH]; intros m C; cbn [foldl]; [done|].
  pose proof (remove_block_spec m b C) as (C1 & Hl1 & He1). destruct (IH _ C1) as (C2 & Hl2 & He2).
  split; [exact C2|]. split; [by rewrite Hl2|]. etrans; [exact He2|]. rewrite He1. apply map_filter_subseteq.
Qed.

Lemma listed_submseteq m m' : entries m' ⊆ entries m -> listed m' ⊆+ listed m.
Proof. intros Hsub. unfold listed. by apply fmap_submseteq, map_to_list_submseteq. Qed.

(** The readmission loop: besides what was left of the old pool, only entries
    that validate on the new chain come in. *)
Lemma readmit_all now n m0 txs news :
  total fee_atoms (listed m0) <= U64_MAX / 2 -> coins_bounded (cs_utxos (chainstate n)) ->
  limits_bounded (limits (mempool n)) -> consistent (mempool n) -> listed (mempool n) ≡ₚ news ++ listed m0 ->
  Forall (fun e => still_valid (utxo_entry (chainstate n)) (Node.network n) (Node.height n) e = true) news ->
  let n' := foldl (Node.readmit now) n txs in
  consistent (mempool n') /\ config n' = config n /\ chainstate n' = chainstate n /\
  limits (mempool n') = limits (mempool n).
Proof.
  intros Hold Hcoins. revert n news Hcoins.
  induction txs as [|tx txs IH]; intros n news Hcoins Hlim C Hlist Hnews; cbn [foldl]; [done|].
  destruct (transaction_fee_from_lookup (utxo_entry (chainstate n)) tx) as [fee|] eqn:Hfee.
  2:{ assert (Node.readmit now n tx = n) as -> by (unfold Node.readmit; by rewrite Hfee). by eapply IH. }
  set (e := MempoolEntry.new now tx fee). pose proof (new_built now tx _ (fee_from_lookup_nonneg _ _ _ Hfee)) as He.
  fold e in He.
  set (m1 := (Mempool.admit_entry (utxo_entry (chainstate n)) (Node.network n) (Node.height n) (mempool n) e).1).
  assert (Node.readmit now n tx = Node.with_mempool n m1) as ->.
  { unfold Node.readmit, Node.admit_transaction, m1. rewrite Hfee. fold e.
    by destruct (Mempool.admit_entry _ _ _ _ _) as [m [t|err]]. }
  destruct (admit_bounded (utxo_entry (chainstate n)) (Node.network n) (Node.height n) (mempool n) e)
    as (C' & Hlim' & Hcase); [done..| |].
  { intros Hadm. rewrite Hlist, app_comm_cons, total_app.
    destruct Hcoins as [Hpos Hbound].
    assert (total fee_atoms (e :: news) <= UtxoSet.total_value (us_entries (cs_utxos (chainstate n)))).
    2:{ assert (2 * (U64_MAX / 2) <= U64_MAX) by by apply Z.leb_le.
        assert (U64_MAX - 1 <= 2 * (U64_MAX / 2)) by by apply Z.leb_le. lia. }
    apply (validated_fees_bounded _ (Node.network n) (Node.height n)); [done| |].
    - apply (admissible_keys _ _ _ _ _ C) in Hadm. rewrite Hlist, app_comm_cons, keys_used_app in Hadm.
      by apply NoDup_app in Hadm as [? _].
    - constructor; [|done]. by eapply (admissible_valid (utxo_entry (chainstate n))). }
  fold m1 in C', Hlim', Hcase. assert (exists news', listed m1 ≡ₚ news' ++ listed m0 /\
    Forall (fun e => still_valid (utxo_entry (chainstate n)) (Node.network n) (Node.height n) e = true) news')
    as (news' & Hlist' & Hnews').
  { destruct Hcase as [Hm|(Hadm & _ & Hm)]; [exists news; by rewrite Hm|]. exists (e :: news).
    split; [by rewrite Hm, Hlist|]. constructor; [|done]. by eapply admissible_valid. }
  rewrite <- Hlim' in Hlim |- *. exact (IH (Node.with_mempool n m1) news' Hcoins Hlim C' Hlist' Hnews').
Qed.

Lemma kept_unchanged env now c branch c' sel :
  Chainstate.select_branch env now c branch = (c', Ok sel) -> outcome sel = KeptCurrent -> c' = c.
Proof.
  unfold Chainstate.select_branch, Chainstate.select_branch_with_max_reorg_depth.
  destruct branch as [|b0 bs]; [done|]. destruct (_ ≫= _) as [[fork old]|e]; [|done].
  destruct (_ && _); [by intros [= <- <-]|]. case_bool_decide.
  - destruct (Chainstate.extend_with_validated_branch _ _ _ _ _) as [c1 [[]|e]]; by intros [= <- <-].
  - destruct (if negb _ then _ else _) as [c1 [[]|e]]; by intros [= <- <-].
Qed.

(** What a running node does: hand an entry to the pool, take a relayed
    transaction, connect a block (a failing attempt on a block that could be
    undone included), move to a branch. Coin values stay in their range. *)
Inductive node_step (env : Env) : Node -> Node -> Prop :=
| step_submit n e : built e -> node_step env n (Node.submit_transaction n e).1
| step_relay now n tx : node_step env n (Node.accept_relayed_transaction now n tx).1
| step_block now n b n' :
    Node.connect_block env now n b = (n', Ok tt) -> coins_bounded (cs_utxos (chainstate n')) -> node_step env n n'
| step_bad_block now n b n' e :
    Node.connect_block env now n b = (n', Err e) ->
    chain_ok (chainstate n) -> undoable (cs_utxos (chainstate n)) b -> Node.height n < U64_MAX -> node_step env n n'
| step_branch now n branch n' sel :
    Node.consider_branch env now n branch = (n', Ok sel) -> coins_bounded (cs_utxos (chainstate n')) ->
    node_step env n n'.

(** The invariant, with what its preservation needs. *)
Definition node_ok (n : Node) : Prop :=
  pool_current n /\ coins_bounded (cs_utxos (chainstate n)) /\ limits_bounded (limits (mempool n)).

Lemma pool_current_storage n db :
  pool_current n -> pool_current (Node.with_chainstate n (Chainstate.with_storage (chainstate n) db)).
Proof. done. Qed.

Lemma connect_keeps_current env now n b n' :
  pool_current n -> Node.connect_block env now n b = (n', Ok tt) ->
  pool_current n' /\ limits (mempool n') = limits (mempool n) /\
  entries (mempool n') = filter (fun te => (te.1 ∉ (Transaction.txid <$> transactions b)) /\
    still_valid (utxo_entry (chainstate n')) (Node.network n') (Node.height n') te.2 = true) (entries (mempool n)).
Proof.
  intros [C _] Hrun. unfold Node.connect_block in Hrun.
  destruct (Chainstate.connect_block _ _ _ _) as [c [[]|e]]; [|by destruct e]. injection Hrun as <-.
  pose proof (remove_block_spec (mempool n) b C) as (C1 & Hl1 & He1).
  destruct (revalidate_if_needed_spec (Node.with_mempool (Node.with_chainstate n c)
    (Mempool.remove_block_transactions (mempool n) b)) C1) as (Hcur & Hcfg & Hchain & Hl2 & He2).
  split; [exact Hcur|]. split; [by rewrite Hl2|]. rewrite He2. unfold Node.network, Node.height.
  rewrite Hcfg, Hchain. cbn [mempool chainstate config Node.with_mempool Node.with_chainstate].
  rewrite He1, map_filter_filter. apply map_filter_ext. intros t e _. tauto.
Qed.

Lemma branch_keeps_current env now n branch n' sel :
  pool_current n -> coins_bounded (cs_utxos (chainstate n)) -> limits_bounded (limits (mempool n)) ->
  Node.consider_branch env now n branch = (n', Ok sel) -> coins_bounded (cs_utxos (chainstate n')) ->
  pool_current n' /\ limits (mempool n') = limits (mempool n).
Proof.
  intros Hcur Hcoins Hlim Hrun Hcoins'. unfold Node.consider_branch in Hrun.
  destruct (Chainstate.select_branch env now (chainstate n) branch) as [c [s|e]] eqn:Hsel; [|done].
  set (n1 := Node.with_mempool (Node.with_chainstate n c)
    (foldl Mempool.remove_block_transactions (mempool n) branch)) in *.
  destruct (remove_blocks_spec (mempool n) branch (proj1 Hcur)) as (C1 & Hl1 & Hsub).
  assert (total fee_atoms (listed (mempool n1)) <= U64_MAX / 2) as Hold.
  { pose proof (pool_current_valid n Hcur) as Hall. destruct Hcur as [C _]. destruct Hcoins as [Hpos Hbound].
    pose proof (validated_fees_bounded _ _ _ _ Hpos (c_disjoint _ C) Hall) as Hfees.
    apply listed_submseteq in Hsub as (rest & Hrest)%submseteq_Permutation.
    assert (0 <= total fee_atoms rest).
    { apply total_nonneg, Forall_forall. intros e He. pose proof (listed_built _ C) as Hb. rewrite Hrest, Forall_app in Hb.
      destruct Hb as [_ Hb]. rewrite Forall_forall in Hb. by apply built_sizes, Hb. }
    rewrite Hrest, total_app in Hfees. cbn [mempool n1 Node.with_mempool]. apply Z.div_le_lower_bound; lia. }
  assert (outcome s <> KeptCurrent -> n' = Node.revalidate_mempool_if_needed
    match outcome s with
    | Reorged => foldl (Node.readmit now) n1 (disconnected s ≫= fun b => drop 1 (transactions b))
    | _ => n1 end /\ sel = s) as Hmove by (intros; destruct (outcome s); [..|done]; by injection Hrun as <- <-).
  destruct (outcome s) eqn:Hout.
  - destruct (Hmove ltac:(done)) as [-> _]. destruct (revalidate_if_needed_spec n1 C1) as (? & _ & _ & -> & _). by split.
  - destruct (Hmove ltac:(done)) as [-> _].
    set (n2 := foldl _ n1 _) in *.
    assert (chainstate (Node.revalidate_mempool_if_needed n2) = chainstate n2) as Hc
      by (unfold Node.revalidate_mempool_if_needed; by destruct (_ =? _)).
    assert (forall txs, chainstate (foldl (Node.readmit now) n1 txs) = c) as Hch.
    { intros txs. enough (forall m, chainstate m = c -> chainstate (foldl (Node.readmit now) m txs) = c) as Hg'
        by by apply Hg'.
      induction txs as [|tx txs IH]; intros m Hm; [done|]. cbn [foldl]. apply IH. unfold Node.readmit, Node.admit_transaction.
      destruct (transaction_fee_from_lookup _ tx); [|done]. by destruct (Mempool.admit_entry _ _ _ _ _) as [? [?|?]]. }
    rewrite Hc in Hcoins'. unfold n2 in Hcoins'. rewrite Hch in Hcoins'.
    destruct (readmit_all now n1 (mempool n1) (disconnected s ≫= fun b => drop 1 (transactions b)) [])
      as (C2 & _ & _ & Hl2); [done|done|by cbn; rewrite Hl1|done|done|constructor|].
    destruct (revalidate_if_needed_spec n2 C2) as (? & _ & _ & -> & _). split; [done|]. unfold n2. by rewrite Hl2.
  - injection Hrun as <- <-. rewrite (kept_unchanged _ _ _ _ _ _ Hsel Hout). split; [|done]. by destruct n.
Qed.

(** C11: A running node's pool follows its chain: transactions are submitted and relayed,
    blocks connect or fail to, and branches win, in any order (a submitted entry is as
    [MempoolEntry::new] builds it, with a fee that is not negative); then every pooled
    transaction validates against the coin set and height of the current tip, no two
    spend the same coin, all indexes and totals are exact and the limits hold. A block
    that fails is met below height 2^64 - 1 on a chain that unwinds ([chain_ok]), spends
    none of its own outputs and finds the place of its coinbase output free ([undoable]):
    otherwise the failed attempt may leave another coin set, as when a duplicate coinbase
    replaces a coin ([Utxo.duplicate_output_replaces_entry]). At the start and after each
    block or branch taken, twice the total of the coins is below 2^64
    ([coins_bounded]); the limits of the pool are not negative, the one on bytes at most
    2^60 ([limits_bounded]). *)
Theorem pool_follows_tip env cfg n :
  0 <= max_vbytes (cfg_mempool cfg) -> 0 <= max_transactions (cfg_mempool cfg) ->
  limits_bounded (cfg_mempool cfg) -> coins_bounded (cs_utxos (chainstate (Node.new cfg))) ->
  rtc (node_step env) (Node.new cfg) n ->
  consistent (mempool n) /\
  (forall t e, entries (mempool n) !! t = Some e -> t = Transaction.txid (transaction e) /\
     validate_transaction_with_context_for_mempool (utxo_entry (chainstate n)) (transaction e) (fee_atoms e)
       (Node.network n) (Node.height n) = Ok (fee_atoms e)) /\
  total_fee_atoms (mempool n) <= UtxoSet.total_value (us_entries (cs_utxos (chainstate n))).
Proof.
  intros Hv Ht Hl Hcoins Hreach. enough (node_ok n) as (Hcur & [Hpos _] & _).
  { pose proof (pool_current_valid n Hcur) as Hall. destruct Hcur as [C Hval]. split; [done|]. split.
    - intros t e He. destruct (c_own _ C t e He) as [<- [Hbuilt _]]. split; [by rewrite Hbuilt|].
      specialize (Hval _ _ He). unfold still_valid, Mempool.check_entry in Hval.
      destruct (validate_transaction_with_context_for_mempool _ _ _ _ _) as [fee|err] eqn:Hrun; [|done].
      by destruct (check_entry_Ok _ _ _ _ _ Hrun) as [-> _].
    - rewrite (d_fee _ _ (c_derived _ C)). by apply (validated_fees_bounded _ _ _ _ Hpos (c_disjoint _ C) Hall). }
  revert Hreach. apply (rtc_ind_r (fun n => node_ok n)).
  { split; [|split; [exact Hcoins|unfold limits_bounded in *; cbn; lia]].
    split; [|by intros t e; cbn; rewrite lookup_empty].
    apply empty_consistent; cbn [max_transactions max_vbytes MempoolLimits.normalized]; lia. }
  intros n1 n2 _ Hstep (Hcur & Hc & Hlim). destruct Hstep as [n1 e He|now n1 tx|now n1 b n2 Hrun Hc'|now n1 b n2 e Hrun Hok Hun Hmax|now n1 br n2 sel Hrun Hc'].
  - destruct (admit_transaction_spec n1 e Hcur Hc He Hlim) as (H1 & _ & H2 & H3).
    unfold Node.submit_transaction. split; [done|]. by rewrite H2, H3.
  - unfold Node.accept_relayed_transaction. destruct (Transaction.is_coinbase tx); [done|].
    destruct (transaction_fee_from_lookup _ tx) as [fee|] eqn:Hfee; [|done].
    destruct (admit_transaction_spec n1 (MempoolEntry.new now tx fee) Hcur Hc) as (H1 & _ & H2 & H3);
      [by eapply new_built, fee_from_lookup_nonneg|done|].
    unfold Node.submit_transaction. split; [done|]. by rewrite H2, H3.
  - destruct (connect_keeps_current _ _ _ _ _ Hcur Hrun) as (H1 & H2 & _). split; [done|]. by rewrite H2.
  - unfold Node.connect_block in Hrun. destruct (Chainstate.connect_block env now (chainstate n1) b) as [c r] eqn:Hcon.
    destruct (connect_chain_ok _ _ _ _ _ _ Hok Hun Hmax Hcon) as [_ Herr]. destruct r as [[]|err]; [done|].
    destruct (Herr err eq_refl) as [db ->].
    assert (n2 = Node.with_chainstate n1 (Chainstate.with_storage (chainstate n1) db)) as ->
      by (destruct err; by injection Hrun as <- _). done.
  - destruct (branch_keeps_current _ _ _ _ _ _ Hcur Hc Hlim Hrun Hc') as [H1 H2]. split; [done|]. by rewrite H2.
Qed.

End steps.

(** ** Witnesses *)

Definition regnet_config : NodeConfig :=
  {| cfg_network := Regnet; cfg_mining_reward_address := []; cfg_mempool := MempoolLimits.default |}.
(** A Regnet node, before and after its first block. *)
Definition regnet_node : Node (H:=null_database) :=
  Node.new (Hs:=Keccak.sha3_inst) (Hg:=keccak_genesis_ready) (Hd:=null_database) regnet_config.
Definition regnet_node_connect : Node (H:=null_database) * result NodeError unit :=
  Node.connect_block (Hs:=Keccak.sha3_inst) (Hf:=accepting_falcon) (Hd:=null_database)
    no_env 1773360589 regnet_node first_block.
Lemma regnet_node_connects :
  Node.connect_block (Hs:=Keccak.sha3_inst) (Hf:=accepting_falcon) (Hd:=null_database)
    no_env 1773360589 regnet_node first_block = (regnet_node_connect.1, Ok tt).
Proof. unfold regnet_node_connect. apply pair_snd. by vm_compute. Qed.

Lemma coins_bounded_dec s :
  bool_decide (map_Forall (fun _ e => 0 <= u_value_atoms e) (us_entries s)) &&
  (2 * UtxoSet.total_value (us_entries s) <=? U64_MAX) = true -> coins_bounded s.
Proof. intros [Hpos Hb]%andb_true_iff. split; [by apply bool_decide_eq_true in Hpos|by apply Z.leb_le]. Qed.

Lemma pool_follows_tip_witness :
  consistent (H:=Keccak.sha3_inst) (mempool regnet_node_connect.1).
Proof.
  refine (proj1 (pool_follows_tip (Hs:=Keccak.sha3_inst) (Hf:=accepting_falcon) (Hg:=keccak_genesis_ready)
    (Hd:=null_database) no_env regnet_config regnet_node_connect.1 _ _ _ _ _)).
  - by apply Z.leb_le.
  - by apply Z.leb_le.
  - by apply Z.leb_le.
  - apply coins_bounded_dec. by vm_compute.
  - apply rtc_once. refine (step_block _ _ regnet_node _ _ regnet_node_connects _).
    apply coins_bounded_dec. by vm_compute.
Defined.
