(* ===== verification/Mining.v ===== *)
(** * Block templates and the nonce search

    crates/atho-node/src/mining.rs: the candidate block a node assembles from its
    pool and tip; crates/atho-node/src/miner.rs: the workers that search a nonce
    for it, as a step relation over their shared atomics. The clock is an argument;
    [None] is the panic of [decode_base56_address]. The progress monitor thread
    and the attempt counters only feed log lines and are not modelled. *)
From stdpp Require Import options.
From S2P Require Import Prelude Bytes Text Constants Crypto Keccak Network Rules Subsidy Transaction Block Pow.
From S2P Require Import Address Genesis Signatures TxPolicy Errors Utxo Validation BlockValidation.
From S2P Require Import Chainstate Mempool Node.

(** ** The reward address *)

Section template.
Context `{Hs : Sha3, Hf : FalconBackend, Hg : !GenesisReady Hs, Hd : Database}.

(* src: mining.rs:196-218 configured_reward_target *)
Definition configured_reward_target (n : Node) : option (result NodeError (bytes * bytes)) :=
  let configured := trim (cfg_mining_reward_address (config n)) in
  if bool_decide (configured = []) then
    Some (Err (MiningRewardAddressRequired
      (str_bytes "configure ATHO_MINING_REWARD_ADDRESS or atho.conf miningrewardaddress for "
       ++ str_bytes (Network.id (Node.network n)))))
  else
    match decode_base56_address configured with
    | None => None
    | Some (Err _) =>
        Some (Err (MiningRewardAddressRequired
          (str_bytes "configured miningrewardaddress is not a valid Atho address for "
           ++ str_bytes (Network.id (Node.network n)))))
    | Some (Ok (payment_digest, decoded_network)) =>
        if bool_decide (decoded_network = Node.network n) then Some (Ok (configured, payment_digest))
        else Some (Err (MiningRewardAddressRequired
          (str_bytes "configured miningrewardaddress targets " ++ str_bytes (Network.id decoded_network)
           ++ str_bytes " but node is on " ++ str_bytes (Network.id (Node.network n)))))
    end.

(* src: mining.rs:183-187 candidate_block_timestamp *)
Definition candidate_block_timestamp (now : Z) (previous_blocks : list Block) : Z :=
  match minimum_next_block_timestamp previous_blocks with
  | Some minimum => Z.max now minimum
  | None => now
  end.

(** ** Selecting transactions *)

(** The loop over an entry's inputs: the block's spent set, the keys inserted so
    far, and whether one was there already. *)
(* src: mining.rs:86-95 build_candidate_block (inputs) *)
Fixpoint insert_inputs (spent : gset UtxoKey) (inserted : list UtxoKey) (ins : list TxInput) :
    gset UtxoKey * list UtxoKey * bool :=
  match ins with
  | [] => (spent, inserted, false)
  | i :: ins =>
      match insert_new (input_key i) spent with
      | None => (spent, inserted, true)
      | Some spent => insert_inputs spent (inserted ++ [input_key i]) ins
      end
  end.

(** The variables of the selection loop. *)
Record Selection := {
  block_base_bytes : Z;
  block_full_bytes : Z;
  selected_transactions : list Transaction;
  selected_fee_atoms : Z;
  block_spent_set : gset UtxoKey;
}.

(* src: mining.rs:80-129 build_candidate_block (selection) *)
Definition select_entry (s : Selection) (e : MempoolEntry) : result NodeError Selection :=
  let tx := transaction e in
  let '(spent, inserted_inputs, conflicted) := insert_inputs (block_spent_set s) [] (inputs tx) in
  let skip :=
    {| block_base_bytes := block_base_bytes s; block_full_bytes := block_full_bytes s;
       selected_transactions := selected_transactions s; selected_fee_atoms := selected_fee_atoms s;
       block_spent_set := spent ∖ list_to_set inserted_inputs |} in
  if conflicted then Ok skip
  else
    let next_base_bytes := block_base_bytes s + 4 + base_size_bytes e in
    let next_full_bytes := block_full_bytes s + 4 + raw_size_bytes e in
    let next_weight :=
      saturating_add USIZE_MAX (saturating_mul USIZE_MAX next_base_bytes 3) next_full_bytes in
    let next_vbytes := saturating_add USIZE_MAX next_weight 3 / 4 in
    if (MAX_BLOCK_RAW_BYTES <? next_full_bytes) || (MAX_BLOCK_VBYTES <? next_vbytes)
       || (MAX_BLOCK_WEIGHT <? next_weight)
    then Ok skip
    else
      fee ← ok_or (checked_add U64_MAX (selected_fee_atoms s) (fee_atoms e)) (NodeValidation FeeMismatch);
      Ok {| block_base_bytes := next_base_bytes; block_full_bytes := next_full_bytes;
            selected_transactions := selected_transactions s ++ [tx]; selected_fee_atoms := fee;
            block_spent_set := spent |}.

(** A coinbase of the template. *)
Definition template_coinbase (height value : Z) (script : bytes) : Transaction :=
  {| version := cr_transaction_version (rules_at_height height); inputs := [];
     outputs := [{| value_atoms := value; locking_script := script |}];
     lock_time := if height <? 2 ^ 32 then height else 2 ^ 32 - 1;
     witness := []; tx_pow_nonce := 0; tx_pow_bits := 0 |}.

(** The header over the given roots. *)
Definition template_header (n : Node) (height timestamp : Z) (merkle witness_root : bytes) : BlockHeader :=
  {| h_version := cr_block_version (rules_at_height height); network_id := Node.network n; height := height;
     previous_block_hash := Node.tip_hash n; h_merkle_root := merkle; h_witness_root := witness_root;
     founders_hash_sha3_384 := FOUNDERS_HASH_SHA3_384; founders_hash_sha3_512 := FOUNDERS_HASH_SHA3_512;
     timestamp := timestamp;
     difficulty_target_or_bits := Node.difficulty_target_for_next_block_at n timestamp; nonce := 0 |}.

(* src: mining.rs:23-181 build_candidate_block *)
Definition build_candidate_block (now : Z) (n : Node) : option (result NodeError Block) :=
  let height := saturating_add U64_MAX (Node.height n) 1 in
  let '(validated_entries, _, _) :=
    Mempool.validated_entries_for_mining (utxo_entry (chainstate n)) (Node.network n) height (mempool n) in
  let subsidy_atoms := block_subsidy_atoms_for_network (Node.network n) height in
  target ← configured_reward_target n;
  Some (
    target ← target;
    let reward_script := target.2 in
    let timestamp := candidate_block_timestamp now (Node.blocks n) in
    let header_size_bytes := BlockHeader.canonical_size_bytes (template_header n height timestamp (zeros 48) (zeros 48)) in
    let coinbase := template_coinbase height subsidy_atoms reward_script in
    selection ← try_fold select_entry
      {| block_base_bytes := header_size_bytes + 4 + 4 + Transaction.base_size_bytes coinbase;
         block_full_bytes := header_size_bytes + 4 + 4 + Transaction.full_size_bytes coinbase;
         selected_transactions := []; selected_fee_atoms := 0; block_spent_set := ∅ |} validated_entries;
    value ← ok_or (checked_add U64_MAX subsidy_atoms (selected_fee_atoms selection))
      (NodeValidation CoinbaseRewardMismatch);
    let transactions := template_coinbase height value reward_script :: selected_transactions selection in
    let root := witness_root transactions in
    let transactions := (fun tx => finalize_witness_commit_refs tx root) <$> transactions in
    let b := Block.new (template_header n height timestamp (merkle_root transactions) root) transactions in
    Ok {| header := header b; transactions := Block.transactions b; witnesses := witnesses b;
          fees_total_atoms := selected_fee_atoms selection; fees_miner_atoms := selected_fee_atoms selection |}).
End template.
