(* ===== verification/Template.v ===== *)
(** * A node's own block templates validate

    The composition of the pool, the template builder and the validator: writing
    the commitment references into a transaction keeps it valid, the selected
    transactions go through the validator's overlay one after the other, and the
    candidate block built from a consistent pool passes the contextual validation
    a peer would apply. *)
From stdpp Require Import options.
From S2P Require Import Prelude Bytes Constants Crypto Keccak Network Rules Subsidy Transaction Block Pow.
From S2P Require Import Address Genesis Signatures TxPolicy Errors Utxo Validation BlockValidation.
From S2P Require Import Chainstate Mempool Node Mining.

(** ** Transactions with their commitment references written *)

(** A group and a prepared transaction after [finalize_witness_commit_refs]. *)
Definition commit_group `{Sha3} (txid root : bytes) (g : WitnessSignerGroup) : WitnessSignerGroup :=
  {| g_signature := g_signature g; g_pubkey := g_pubkey g;
     g_input_refs := committed_ref txid root <$> g_input_refs g |}.
Definition commit_prepared `{Sha3} (root : bytes) (p : PreparedTransactionValidation) :
    PreparedTransactionValidation :=
  {| p_txid := p_txid p;
     signer_groups := (fun g => {| p_signature := p_signature g; p_pubkey := p_pubkey g;
                         p_input_refs := committed_ref (p_txid p) root <$> p_input_refs g |}) <$> signer_groups p;
     signer_group_by_input := signer_group_by_input p |}.

Section finalized.
#[local] Set Default Proof Using "Type*".
Context `{Hs : Sha3, Laws : !Sha3Laws Hs}.

Lemma zlen_wf_group g :
  TxWitness.wf_group g ->
  zlen (TxWitness.group_bytes TxWitness.ref_bytes g)
  = 12 + FALCON_512_SIGNATURE_BYTES + FALCON_512_PUBLIC_KEY_BYTES + 22 * zlen (g_input_refs g).
Proof.
  intros (Hsig & Hpk & Hrefs). unfold TxWitness.group_bytes.
  autorewrite with zlen. rewrite Hsig, Hpk, zlen_concat_map.
  assert (zsum ((fun r => zlen (TxWitness.ref_bytes r)) <$> g_input_refs g) = 22 * zlen (g_input_refs g)) as ->;
    [|lia].
  clear Hsig Hpk. induction Hrefs as [|r rs Hr _ IH]; [done|].
  rewrite fmap_cons. cbn [zsum]. rewrite IH, (zlen_ref_bytes _ Hr), zlen_cons. lia.
Qed.

Lemma zlen_visit txid root w :
  TxWitness.wf w ->
  zlen (TxWitness.canonical_bytes (TxWitness.for_each_input_ref_mut (committed_ref txid root) w))
  = zlen (TxWitness.canonical_bytes w).
Proof.
  intros Hw. pose proof (visit_wf txid root w Hw) as (Hp' & _ & Ha' & _). destruct Hw as (Hp & _ & Ha & _).
  unfold TxWitness.canonical_bytes. autorewrite with zlen.
  rewrite !zlen_wf_group by done. rewrite !zlen_concat_map. cbn [TxWitness.primary g_input_refs w_input_refs].
  cbn [TxWitness.for_each_input_ref_mut TxWitness.primary g_input_refs w_input_refs additional_signers] in *.
  rewrite zlen_fmap. do 2 f_equal. rewrite <- list_fmap_compose. apply zsum_ext.
  rewrite Forall_fmap in Ha'. eapply Forall_impl; [apply Forall_and; split; [exact Ha|exact Ha']|].
  intros g [Hg Hg']. unfold compose. rewrite !zlen_wf_group by done. cbn [g_input_refs]. by rewrite zlen_fmap.
Qed.

(** Everything the validator reads of a transaction besides the references. *)
Lemma finalized_same tx root :
  let tx' := finalize_witness_commit_refs tx root in
  same_spend tx' tx /\ zlen (witness tx') = zlen (witness tx) /\
  Transaction.base_size_bytes tx' = Transaction.base_size_bytes tx /\
  Transaction.full_size_bytes tx' = Transaction.full_size_bytes tx.
Proof.
  intros tx'. assert (same_spend tx' tx /\ zlen (witness tx') = zlen (witness tx)) as [Hsame Hlen].
  { unfold tx'. destruct (Transaction.witness_payload tx) as [w|] eqn:Hw.
    2:{ by rewrite finalize_no_payload. }
    split; [apply (finalize_payload _ _ _ Hw)|].
    unfold finalize_witness_commit_refs. rewrite Hw. cbn [witness].
    apply witness_payload_decodes in Hw as (_ & Hwf & ->). by apply zlen_visit. }
  pose proof Hsame as (_ & Hi & Ho & _). split; [done|]. split; [done|]. split.
  - unfold Transaction.base_size_bytes. by rewrite Hi, Ho.
  - unfold Transaction.full_size_bytes. by rewrite Hi, Ho, Hlen.
Qed.

Lemma finalized_vsize tx root :
  Transaction.vsize_bytes (finalize_witness_commit_refs tx root) = Transaction.vsize_bytes tx.
Proof.
  destruct (finalized_same tx root) as (_ & _ & Hb & Hf).
  unfold Transaction.vsize_bytes, Transaction.weight_bytes. by rewrite Hb, Hf.
Qed.

Lemma finalized_minimum_fee n tx root :
  minimum_required_fee_atoms n (finalize_witness_commit_refs tx root) = minimum_required_fee_atoms n tx.
Proof. unfold minimum_required_fee_atoms. by rewrite finalized_vsize. Qed.

Lemma finalized_check_pow n tx root fee :
  check_transaction_pow (finalize_witness_commit_refs tx root) n fee = check_transaction_pow tx n fee.
Proof.
  destruct (finalized_same tx root) as ((_ & Hi & Ho & _) & _).
  unfold check_transaction_pow.
  assert (required_tx_pow_bits n (finalize_witness_commit_refs tx root) fee = required_tx_pow_bits n tx fee) as ->.
  { unfold required_tx_pow_bits, Transaction.is_coinbase. by rewrite finalized_vsize, Hi, Ho. }
  unfold transaction_pow_is_valid_for_bits.
  destruct (finalize_hashes tx root) as (_ & _ & ->). by destruct (finalize_pow_fields tx root) as [-> ->].
Qed.

(** The loops of the preparation do not look at the commitment references. *)
Lemma prepare_refs_committed tx tx' txid sig gi root rs st :
  inputs tx' = inputs tx ->
  try_fold (prepare_input_ref tx' txid sig gi) st (committed_ref txid root <$> rs)
  = try_fold (prepare_input_ref tx txid sig gi) st rs.
Proof.
  intros Hin. revert st. induction rs as [|r rs IH]; [done|]. intros st. rewrite fmap_cons. cbn [try_fold].
  assert (prepare_input_ref tx' txid sig gi st (committed_ref txid root r) = prepare_input_ref tx txid sig gi st r)
    as -> by (unfold prepare_input_ref; by rewrite Hin).
  destruct (prepare_input_ref tx txid sig gi st r) as [st'|e]; [|done]. apply IH.
Qed.

(** The state of the group loop with the references committed. *)
Definition committed_state (txid root : bytes) (st : option Z * list Z * list PreparedSignerGroup) :
    option Z * list Z * list PreparedSignerGroup :=
  (st.1.1, st.1.2, (fun g => {| p_signature := p_signature g; p_pubkey := p_pubkey g;
                       p_input_refs := committed_ref txid root <$> p_input_refs g |}) <$> st.2).

Lemma prepare_group_committed tx tx' txid root st k g :
  inputs tx' = inputs tx ->
  prepare_signer_group tx' txid (committed_state txid root st) (k, commit_group txid root g)
  = committed_state txid root <$> prepare_signer_group tx txid st (k, g).
Proof.
  intros Hin. destruct st as [[prev by_input] groups]. unfold prepare_signer_group. cbn [committed_state fst snd].
  cbn [commit_group g_signature g_pubkey g_input_refs].
  assert (bool_decide (committed_ref txid root <$> g_input_refs g = []) = bool_decide (g_input_refs g = [])) as ->
    by (by destruct (g_input_refs g)).
  destruct (_ || _ || _); [done|].
  assert (head (committed_ref txid root <$> g_input_refs g) = committed_ref txid root <$> head (g_input_refs g))
    as -> by (by destruct (g_input_refs g)).
  destruct (head (g_input_refs g)) as [first|]; [|done]. cbn [fmap option_fmap option_map ok_or].
  cbn [mbind result_bind]. cbn [committed_ref input_index].
  destruct (not_after _ _); [done|]. rewrite (prepare_refs_committed tx tx') by done.
  destruct (try_fold _ _ _) as [st'|e]; [|done].
  apply (f_equal Ok). unfold committed_state. cbn [fst snd]. by rewrite fmap_app.
Qed.

Lemma prepare_groups_committed tx tx' txid root igs st :
  inputs tx' = inputs tx ->
  try_fold (prepare_signer_group tx' txid) (committed_state txid root st)
    ((fun ig => (ig.1, commit_group txid root ig.2)) <$> igs)
  = committed_state txid root <$> try_fold (prepare_signer_group tx txid) st igs.
Proof.
  intros Hin. revert st. induction igs as [|[k g] igs IH]; [done|]. intros st.
  rewrite fmap_cons. cbn [try_fold fst snd]. rewrite (prepare_group_committed tx tx') by done.
  destruct (prepare_signer_group tx txid st (k, g)) as [st'|e]; [|done]. apply IH.
Qed.

Lemma enumerate_fmap {A B} (f : A -> B) l : enumerate (f <$> l) = (fun ia => (ia.1, f ia.2)) <$> enumerate l.
Proof. unfold enumerate. rewrite imap_fmap, fmap_imap. done. Qed.

Lemma signer_refs_committed txid root w :
  witness_signer_group_refs (TxWitness.for_each_input_ref_mut (committed_ref txid root) w)
  = commit_group txid root <$> witness_signer_group_refs w.
Proof.
  unfold witness_signer_group_refs. rewrite (is_empty_proper _ _ (same_core_visit txid root w)), fmap_app.
  by destruct (negb _).
Qed.

(** Preparation succeeds on the finalized transaction when it did before, with
    the same groups up to their commitment references. *)
Lemma prepare_finalized tx root fee n h schedule p :
  prepare_transaction_validation tx fee n h schedule = Ok p ->
  prepare_transaction_validation (finalize_witness_commit_refs tx root) fee n h schedule
  = Ok (commit_prepared root p).
Proof.
  intros Hp. destruct (finalized_same tx root) as ((Hv & Hi & Ho & Hl) & _ & _ & Hfull).
  destruct (finalize_hashes tx root) as (Htxid & _).
  unfold prepare_transaction_validation in Hp |- *.
  rewrite Hv, Ho, Hfull, finalized_vsize, finalized_minimum_fee, Hi, Htxid.
  unfold Transaction.is_coinbase, maximum_standard_outputs, minimum_output_amount_atoms in *. rewrite Hi.
  repeat match type of Hp with (if ?c then _ else _) = _ => destruct c; [discriminate Hp|] end.
  destruct (try_for _ _) as [[]|]; [|discriminate Hp]. cbn [mbind result_bind] in Hp |- *.
  destruct (Transaction.witness_payload tx) as [w|] eqn:Hw; [|discriminate Hp].
  destruct (finalize_payload tx root w Hw) as (_ & _ & _ & _ & ->). cbn [ok_or mbind result_bind] in Hp |- *.
  rewrite (signer_group_count_proper _ _ (same_core_visit (Transaction.txid tx) root w)).
  assert (TxWitness.total_input_refs
            (TxWitness.for_each_input_ref_mut (committed_ref (Transaction.txid tx) root) w)
          = TxWitness.total_input_refs w) as ->.
  { unfold TxWitness.total_input_refs. cbn. rewrite zlen_fmap, <- list_fmap_compose. do 2 f_equal.
    apply list_fmap_ext. intros. cbn. apply zlen_fmap. }
  repeat match type of Hp with (if ?c then _ else _) = _ => destruct c; [discriminate Hp|] end.
  rewrite signer_refs_committed, enumerate_fmap.
  change (None, replicate (length (inputs tx)) USIZE_MAX, []) with
    (committed_state (Transaction.txid tx) root (None, replicate (length (inputs tx)) USIZE_MAX, [])).
  rewrite (prepare_groups_committed tx) by done.
  destruct (try_fold _ _ _) as [[[prev by_input] groups]|e]; [|discriminate Hp].
  cbn in Hp |- *. destruct (bool_decide _); [discriminate Hp|]. by injection Hp as <-.
Qed.

Lemma signer_pubkey_committed root p k : signer_pubkey (commit_prepared root p) k = signer_pubkey p k.
Proof.
  unfold signer_pubkey. cbn [commit_prepared signer_groups signer_group_by_input].
  rewrite list_lookup_fmap. by destruct (signer_groups p !! _).
Qed.

(** The contextual checks read the coins of the inputs, the public keys and the
    spend, so they agree on the finalized transaction and on lookups that agree on
    the inputs. *)
Lemma context_committed lookup lookup' tx root p n h :
  (forall i, i ∈ inputs tx -> lookup' (previous_txid i) (output_index i) = lookup (previous_txid i) (output_index i)) ->
  validate_transaction_with_context_common_and_schedule lookup' (finalize_witness_commit_refs tx root)
    (commit_prepared root p) n h
  = validate_transaction_with_context_common_and_schedule lookup tx p n h.
Proof.
  intros Hl. destruct (finalized_same tx root) as ((_ & Hi & Ho & _) & _).
  unfold validate_transaction_with_context_common_and_schedule, Transaction.checked_output_value_atoms.
  rewrite Hi, Ho. f_equal.
  assert (forall ki, ki ∈ enumerate (inputs tx) -> ki.2 ∈ inputs tx) as Hin.
  { intros [k i] (j & _ & Hj)%enumerate_elem. by apply list_elem_of_lookup_2 in Hj. }
  generalize 0. induction (enumerate (inputs tx)) as [|[k i] l IH]; intros total; [done|]. cbn [try_fold].
  assert (validate_input lookup' (commit_prepared root p) n h total (k, i) = validate_input lookup p n h total (k, i))
    as ->.
  { unfold validate_input. rewrite signer_pubkey_committed, Hl; [done|]. apply (Hin (k, i)). by left. }
  destruct (validate_input _ _ _ _ _ _); [|done]. apply IH. intros ki Hki. apply Hin. by right.
Qed.

Lemma signing_digest_finalized n tx root :
  transaction_signing_digest n (finalize_witness_commit_refs tx root) = transaction_signing_digest n tx /\
  forall l, transaction_signing_digest_for_input_indexes n (finalize_witness_commit_refs tx root) l
            = transaction_signing_digest_for_input_indexes n tx l.
Proof.
  destruct (finalized_same tx root) as (Hsame & _). split; [|intros; by apply signing_digest_same_spend].
  unfold transaction_signing_digest, Transaction.signing_digest.
  rewrite !update_base_hasher_eq, (base_bytes_same_spend _ _ Hsame). by destruct Hsame as (_ & -> & _).
Qed.

(** The signatures verify as before. *)
Lemma signatures_finalized `{Hf : FalconBackend} tx root p n :
  verify_transaction_signature_prepared (finalize_witness_commit_refs tx root) n (commit_prepared root p)
  = verify_transaction_signature_prepared tx n p.
Proof.
  destruct (finalized_same tx root) as ((_ & Hi & _) & _). destruct (signing_digest_finalized n tx root) as [Hd Hdl].
  assert (forall txid pk sig refs,
    verify_signer_group (finalize_witness_commit_refs tx root) n pk sig (committed_ref txid root <$> refs)
    = verify_signer_group tx n pk sig refs) as Hgroup.
  { intros txid pk sig refs.
    assert (input_index <$> (committed_ref txid root <$> refs) = input_index <$> refs) as Hidx
      by (rewrite <- list_fmap_compose; by apply list_fmap_ext).
    unfold verify_signer_group. cbv zeta. by rewrite Hidx, Hi, Hd, Hdl. }
  unfold verify_transaction_signature_prepared. cbn [commit_prepared signer_groups].
  induction (signer_groups p) as [|g gs IH]; [done|]. rewrite fmap_cons. cbn [try_for].
  cbn [p_pubkey p_signature p_input_refs]. rewrite Hgroup.
  destruct (verify_signer_group _ _ _ _ _); [|done]. apply IH.
Qed.

(** The references a validator checks are the ones just written. *)
Lemma commit_refs_committed root p :
  check_witness_commit_refs (p_txid (commit_prepared root p)) root (signer_groups (commit_prepared root p)) = Ok tt.
Proof.
  apply try_for_Ok. cbn [commit_prepared signer_groups]. apply Forall_fmap, Forall_forall. intros g _. cbn.
  apply try_for_Ok, Forall_fmap, Forall_forall. intros r _. cbn. by rewrite bool_decide_true.
Qed.

(** The fee only has to reach the minimum. *)
Lemma prepare_any_fee tx fee fee' n h schedule p :
  prepare_transaction_validation tx fee n h schedule = Ok p -> minimum_required_fee_atoms n tx <= fee' ->
  prepare_transaction_validation tx fee' n h schedule = Ok p.
Proof.
  intros Hp Hfee. unfold prepare_transaction_validation in Hp |- *.
  repeat match type of Hp with (if ?c then _ else _) = _ => destruct c eqn:?; [discriminate Hp|] end.
  destruct (Z.ltb_spec fee' (minimum_required_fee_atoms n tx)); [lia|]. exact Hp.
Qed.

End finalized.

(** ** Running the overlay forward *)

Lemma overlay_remove_ok o t i :
  is_Some (view o !! {| k_txid := t; k_output_index := i |}) ->
  exists o', UtxoOverlay.lift (UtxoOverlay.remove o t i) = Ok o'.
Proof.
  rewrite view_lookup. unfold UtxoOverlay.remove, UtxoSet.get. intros [e He].
  destruct (ov_added o !! _); [by eexists|]. case_decide; [done|]. rewrite He. by eexists.
Qed.

Lemma overlay_insert_ok o e :
  view o !! UtxoEntry.key e = None -> exists o', UtxoOverlay.lift (UtxoOverlay.insert o e) = Ok o'.
Proof.
  rewrite view_lookup. unfold UtxoOverlay.insert, UtxoSet.get. fold (UtxoEntry.key e). intros He.
  destruct (ov_added o !! UtxoEntry.key e); [done|]. cbn.
  case_decide; [rewrite bool_decide_true by done|rewrite He, andb_false_r]; by eexists.
Qed.

Lemma overlay_spend_ok o seen ins taken :
  overlay_inv o -> spends (view o) ins taken -> (forall k, k ∈ input_key <$> ins -> k ∉ seen) ->
  exists o', try_fold spend_overlay_input (o, seen) ins = Ok (o', list_to_set (input_key <$> ins) ∪ seen).
Proof.
  revert o seen taken. induction ins as [|i ins IH]; intros o seen taken Hinv Hsp Hnew.
  - exists o. cbn. do 2 f_equal. set_solver.
  - destruct taken as [|e taken]; [by destruct Hsp as [Hsp _]; inversion Hsp|].
    pose proof Hsp as [_ Hnd]. apply spends_cons in Hsp as [He Hsp].
    rewrite fmap_cons in Hnd, Hnew. apply NoDup_cons in Hnd as [Hni _].
    destruct (overlay_remove_ok o (previous_txid i) (output_index i)) as [o1 Ho1]; [by eexists|].
    pose proof (view_remove _ _ _ _ Hinv Ho1) as (Hinv1 & _ & Hv1).
    destruct (IH o1 ({[input_key i]} ∪ seen) taken) as [o' Ho'].
    + done.
    + rewrite Hv1. exact Hsp.
    + intros k Hk [->%elem_of_singleton|Hs]%elem_of_union; [done|]. apply (Hnew k); [by right|done].
    + exists o'. cbn [try_fold spend_overlay_input]. unfold insert_new. rewrite decide_False by (apply Hnew; by left).
      cbn [ok_or mbind result_bind]. rewrite Ho1. cbn [mbind result_bind]. rewrite Ho'. do 2 f_equal.
      rewrite fmap_cons. cbn [list_to_set]. set_solver.
Qed.

Lemma overlay_outputs_ok {A} (mk : A -> UtxoEntry) o l :
  overlay_inv o -> places (view o) (mk <$> l) ->
  exists o', try_fold (fun o a => UtxoOverlay.lift (UtxoOverlay.insert o (mk a))) o l = Ok o'.
Proof.
  revert o. induction l as [|a l IH]; intros o Hinv Hp; [by eexists|].
  rewrite fmap_cons in Hp. apply places_cons in Hp as [Hf Hp].
  destruct (overlay_insert_ok o (mk a) Hf) as [o1 Ho1]. cbn [try_fold]. rewrite Ho1. cbn [mbind result_bind].
  apply view_insert in Ho1 as (Hinv1 & _ & Hv1); [|done]. apply IH; [done|]. by rewrite Hv1.
Qed.

Section loop.
Context `{Hs : Sha3, Laws : !Sha3Laws Hs, Hf : FalconBackend}.
#[local] Set Default Proof Using "Type*".

(** What the pool's check has established of an entry, with its preparation. *)
Record ready (s : UtxoSet) (n : Network) (h : Z) (e : MempoolEntry) (p : PreparedTransactionValidation) : Prop := {
  r_prepared : prepare_transaction_validation (transaction e) (fee_atoms e) n h SCHEDULED_ACTIVATIONS = Ok p;
  r_context : validate_transaction_with_context_common_and_schedule (UtxoSet.get s) (transaction e) p n h
              = Ok (fee_atoms e);
  r_fee : minimum_required_fee_atoms n (transaction e) <= fee_atoms e;
  r_pow : check_transaction_pow (transaction e) n (fee_atoms e) = Ok tt;
  r_signed : verify_transaction_signature_prepared (transaction e) n p = Ok tt;
  r_coins : exists coins, spends (us_entries s) (inputs (transaction e)) coins;
}.

Lemma check_entry_ready s n h e fee :
  Mempool.check_entry (UtxoSet.get s) n h e = Ok fee -> exists p, ready s n h e p.
Proof.
  intros Hcheck. pose proof (check_entry_Ok _ _ _ _ _ Hcheck) as [_ Hnd].
  destruct (check_entry_coins _ _ _ _ _ Hcheck) as (coins & Hcoins & _).
  unfold Mempool.check_entry, validate_transaction_with_context_for_mempool, validate_transaction_with_context,
    validate_transaction_with_context_and_schedule, validate_transaction_with_context_exact_fee_prepared_and_schedule
    in Hcheck.
  inv_ok. bool_to_prop. subst.
  match goal with Hp : prepare_transaction_validation _ _ _ _ _ = Ok ?p |- _ =>
    exists p; pose proof (prepare_checks _ _ _ _ _ _ Hp) as (_ & _ & _ & ? & _) end.
  split; try done. by exists coins.
Qed.

(** One round of the validator, forward. *)
Lemma round_forward n h root o seen fees s e p :
  ready s n h e p -> overlay_inv o -> fees + fee_atoms e <= U64_MAX ->
  (forall k, k ∈ Mempool.input_keys (transaction e) -> view o !! k = us_entries s !! k /\ k ∉ seen) ->
  (forall k, k_txid k = Transaction.txid (transaction e) -> view o !! k = None) ->
  exists o',
    validate_block_transaction n h root (o, seen, fees)
      (finalize_witness_commit_refs (transaction e) root, commit_prepared root p)
    = Ok (o', list_to_set (Mempool.input_keys (transaction e)) ∪ seen, fees + fee_atoms e) /\
    overlay_inv o' /\
    view o' = with_new (without_keys (view o) (Mempool.input_keys (transaction e)))
                (UtxoSet.create_outputs (transaction e) n h).
Proof.
  intros [Hprep Hctx Hfee Hpow _ (coins & Hcoins & Hnd)] Hinv Hmax Hview Hfresh. set (tx := transaction e) in *.
  destruct (finalized_same tx root) as ((_ & Hi & Ho & _) & _).
  apply prepare_checks in Hprep as (Hcb & Houts & _ & _ & _ & _ & Htxid & _).
  assert (spends (view o) (inputs tx) coins) as Hspends.
  { split; [|done]. apply Forall2_same_length_lookup. split; [by eapply Forall2_length|].
    intros k i c Hk Hc. rewrite (proj1 (Hview (input_key i) ltac:(by eapply list_elem_of_fmap_2, list_elem_of_lookup_2))).
    exact (Forall2_lookup_lr _ _ _ _ _ _ Hcoins Hk Hc). }
  destruct (overlay_spend_ok o seen (inputs tx) coins Hinv Hspends) as [o1 Ho1]; [intros k Hk; by apply Hview|].
  pose proof (view_spend _ _ _ _ _ Hinv Ho1) as (Hinv1 & _ & Hv1).
  set (mk := fun io : Z * TxOutput => UtxoEntry.new n (Transaction.txid tx) (io.1 mod 2 ^ 32) (value_atoms io.2)
                        (locking_script io.2) h (Transaction.is_coinbase tx)).
  assert (mk <$> enumerate (outputs tx) = UtxoSet.create_outputs tx n h) as Hes
    by (unfold UtxoSet.create_outputs, enumerate; by rewrite fmap_imap).
  assert (places (view o1) (mk <$> enumerate (outputs tx))) as Hplaces.
  { rewrite Hes, Hv1. split; [|apply create_outputs_nodup; unfold MAX_STANDARD_OUTPUTS in Houts; lia].
    apply Forall_forall. intros e' He'%create_outputs_txid. rewrite lookup_without_keys.
    case_decide; [done|]. by apply Hfresh. }
  destruct (overlay_outputs_ok mk o1 _ Hinv1 Hplaces) as [o2 Ho2].
  pose proof (view_outputs _ _ _ _ Hinv1 Ho2) as (Hinv2 & _ & Hv2). exists o2.
  split; [|split; [done|by rewrite Hv2, Hes, Hv1]].
  unfold validate_block_transaction, validate_transaction_with_context_minimum_fee_prepared_and_schedule.
  rewrite (context_committed (UtxoSet.get s)).
  2:{ intros i Hin. rewrite view_get. exact (proj1 (Hview (input_key i) (list_elem_of_fmap_2 input_key _ _ Hin))). }
  rewrite Hctx. cbn [mbind result_bind]. rewrite finalized_minimum_fee, finalized_check_pow.
  destruct (Z.ltb_spec (fee_atoms e) (minimum_required_fee_atoms n tx)); [lia|].
  fold tx. rewrite Hpow. cbn [mbind result_bind]. rewrite Hi, Ho1. cbn [mbind result_bind].
  rewrite commit_refs_committed. cbn [mbind result_bind].
  unfold checked_add. destruct (Z.leb_spec (fees + fee_atoms e) U64_MAX); [|lia]. cbn [ok_or mbind result_bind].
  rewrite Ho. rewrite (try_fold_ext _ (fun o a => UtxoOverlay.lift (UtxoOverlay.insert o (mk a)))).
  { rewrite Ho2. done. }
  intros o' [k out]. unfold mk. rewrite Hcb. cbn [fst snd]. rewrite <- Htxid. done.
Qed.

(** The validator's loop over the entries of a template. *)
Lemma overlay_loop n h root s es ps o seen fees :
  Forall2 (ready s n h) es ps -> overlay_inv o ->
  NoDup (keys_used es) -> NoDup ((fun e => Transaction.txid (transaction e)) <$> es) ->
  Forall (fun e => 0 <= fee_atoms e) es -> fees + total fee_atoms es <= U64_MAX ->
  (forall k, k ∈ keys_used es -> view o !! k = us_entries s !! k /\ k ∉ seen) ->
  (forall e k, e ∈ es -> k_txid k = Transaction.txid (transaction e) -> view o !! k = None) ->
  exists o' seen',
    try_fold (validate_block_transaction n h root) (o, seen, fees)
      (zip ((fun e => finalize_witness_commit_refs (transaction e) root) <$> es) (commit_prepared root <$> ps))
    = Ok (o', seen', fees + total fee_atoms es).
Proof.
  intros Hready. revert o seen fees. induction Hready as [|e p es ps Hr Hready IH];
    intros o seen fees Hinv Hnd Hids Hpos Hmax Hview Hfresh.
  { exists o, seen. cbn. do 2 f_equal. lia. }
  rewrite keys_used_cons in Hnd, Hview. rewrite fmap_cons in Hids. rewrite total_cons in Hmax |- *.
  apply Forall_cons in Hpos as [He Hpos]. pose proof (total_nonneg fee_atoms es Hpos) as Htot.
  apply NoDup_app in Hnd as (Hnde & Hdis & Hnd). apply NoDup_cons in Hids as [Hid Hids].
  destruct (round_forward n h root o seen fees s e p) as (o1 & Hrun & Hinv1 & Hv1); [done|done|lia| | |].
  { intros k Hk. apply Hview, elem_of_app. by left. }
  { intros k Hk. apply (Hfresh e); [by left|done]. }
  rewrite !fmap_cons. cbn [zip zip_with try_fold]. rewrite Hrun. cbn [mbind result_bind].
  rewrite (Z.add_assoc fees). apply IH; [done..|lia| |].
  - intros k Hk. destruct (Hview k ltac:(by apply elem_of_app; right)) as [Hvk Hnew]. split.
    + rewrite Hv1, with_new_fresh, lookup_without_keys, decide_False; [done| |].
      * intros Hin. by apply (Hdis k).
      * intros (e' & -> & He')%list_elem_of_fmap. apply create_outputs_txid in He'.
        assert (us_entries s !! UtxoEntry.key e' = None) as Hnone
          by (rewrite <- Hvk; by apply (Hfresh e); [left|]).
        apply elem_of_keys_used in Hk as (e2 & He2 & Hk).
        apply list_elem_of_lookup in He2 as [j Hj].
        destruct (Forall2_lookup_l _ _ _ _ _ Hready Hj) as (p2 & _ & Hr2).
        destruct (r_coins _ _ _ _ _ Hr2) as (coins & Hcoins & _).
        apply list_elem_of_fmap in Hk as (i & Hk & Hi). apply list_elem_of_lookup in Hi as [m Hm].
        destruct (Forall2_lookup_l _ _ _ _ _ Hcoins Hm) as (c & _ & Hc). congruence.
    + intros [Hin%elem_of_list_to_set|Hin]%elem_of_union; [by apply (Hdis k)|done].
  - intros e' k He' Hk. rewrite Hv1, with_new_fresh, lookup_without_keys.
    + case_decide; [done|]. apply (Hfresh e'); [by right|done].
    + intros (e2 & -> & He2)%list_elem_of_fmap. apply create_outputs_txid in He2.
      apply Hid, list_elem_of_fmap. exists e'. split; [|done]. cbn in Hk. congruence.
Qed.
End loop.

(** ** The selection *)

Lemma insert_inputs_spec spent done ins :
  let '(spent', inserted, conflicted) := insert_inputs spent done ins in
  (conflicted = false -> inserted = done ++ (input_key <$> ins) /\ spent' = list_to_set (input_key <$> ins) ∪ spent /\
     NoDup (input_key <$> ins) /\ (forall k, k ∈ input_key <$> ins -> k ∉ spent)) /\
  (forall before : gset UtxoKey, spent = list_to_set done ∪ before -> (forall k, k ∈ done -> k ∉ before) ->
     spent' ∖ list_to_set inserted = before).
Proof.
  revert spent done. induction ins as [|i ins IH]; intros spent done.
  { cbn. split; [|set_solver]. intros _. rewrite app_nil_r. split; [done|]. split; [set_solver|]. split; [constructor|].
    intros k Hk. by apply not_elem_of_nil in Hk. }
  cbn [insert_inputs]. unfold insert_new. destruct (decide (input_key i ∈ spent)) as [Hin|Hni].
  { split; [done|set_solver]. }
  specialize (IH ({[input_key i]} ∪ spent) (done ++ [input_key i])).
  destruct (insert_inputs _ _ ins) as [[spent' inserted] conflicted]. destruct IH as [IH1 IH2]. split.
  - intros Hc. destruct (IH1 Hc) as (-> & -> & Hnd & Hnew). rewrite fmap_cons, <- app_assoc. split; [done|].
    split; [cbn [list_to_set]; set_solver|]. split.
    + apply NoDup_cons. split; [|done]. intros Hk. apply (Hnew _ Hk). set_solver.
    + intros k [->|Hk]%elem_of_cons; [done|]. specialize (Hnew k Hk). set_solver.
  - intros before Hb Hd. apply IH2; [rewrite Hb, list_to_set_app_L; cbn [list_to_set]; set_solver|].
    intros k [Hk| ->%list_elem_of_singleton]%elem_of_app; [by apply Hd|set_solver].
Qed.

(** The limits the builder checks before it takes a transaction. *)
Definition within_limits (base full : Z) : Prop :=
  full <= MAX_BLOCK_RAW_BYTES /\
  saturating_add USIZE_MAX (saturating_mul USIZE_MAX base 3) full <= MAX_BLOCK_WEIGHT /\
  saturating_add USIZE_MAX (saturating_add USIZE_MAX (saturating_mul USIZE_MAX base 3) full) 3 / 4
    <= MAX_BLOCK_VBYTES.

(** What the loop has selected out of the entries [es]. *)
Record selected (base0 full0 : Z) (es : list MempoolEntry) (s : Selection) (chosen : list MempoolEntry) : Prop := {
  s_sublist : chosen `sublist_of` es;
  s_transactions : selected_transactions s = transaction <$> chosen;
  s_base : block_base_bytes s = base0 + zsum ((fun e => 4 + base_size_bytes e) <$> chosen);
  s_full : block_full_bytes s = full0 + zsum ((fun e => 4 + raw_size_bytes e) <$> chosen);
  s_limits : within_limits (block_base_bytes s) (block_full_bytes s);
  s_fees : selected_fee_atoms s = total fee_atoms chosen /\ total fee_atoms chosen <= U64_MAX;
  s_spent : block_spent_set s = list_to_set (keys_used chosen);
  s_disjoint : NoDup (keys_used chosen);
}.

Lemma select_entry_spec base0 full0 es s chosen e s' :
  selected base0 full0 es s chosen -> select_entry s e = Ok s' ->
  exists chosen', selected base0 full0 (es ++ [e]) s' chosen'.
Proof.
  intros [Hsub Htx Hbase Hfull Hlim [Hfee Hmax] Hsp Hnd]. unfold select_entry.
  pose proof (insert_inputs_spec (block_spent_set s) [] (inputs (transaction e))) as Hins.
  destruct (insert_inputs _ _ _) as [[spent inserted] conflicted]. destruct Hins as [Htaken Hback].
  assert (exists chosen', selected base0 full0 (es ++ [e])
    {| block_base_bytes := block_base_bytes s; block_full_bytes := block_full_bytes s;
       selected_transactions := selected_transactions s; selected_fee_atoms := selected_fee_atoms s;
       block_spent_set := spent ∖ list_to_set inserted |} chosen') as Hskip.
  { exists chosen. split; cbn; try done; [by apply sublist_inserts_r|].
    rewrite (Hback (block_spent_set s)); [done|set_solver|intros k Hk; by apply not_elem_of_nil in Hk]. }
  destruct conflicted; [by intros [= <-]|].
  destruct (_ || _ || _) eqn:Hover; [by intros [= <-]|]. intros Hrun. clear Hskip Hback.
  bool_to_prop. inv_ok. apply checked_add_Some in Hok as [-> Hle].
  destruct (Htaken eq_refl) as (_ & Hspent & Hndi & Hnew).
  exists (chosen ++ [e]). split; cbn.
  - by apply sublist_app.
  - by rewrite Htx, fmap_app.
  - rewrite Hbase, fmap_app, zsum_app. cbn. lia.
  - rewrite Hfull, fmap_app, zsum_app. cbn. lia.
  - done.
  - rewrite total_app. unfold total in *. cbn. lia.
  - rewrite Hspent, Hsp, keys_used_app, list_to_set_app_L. unfold keys_used at 3. cbn. rewrite app_nil_r. set_solver.
  - rewrite keys_used_app. apply NoDup_app. unfold keys_used at 3. cbn. rewrite app_nil_r.
    split; [done|]. split; [|done]. intros k Hk Hke. apply (Hnew k Hke). rewrite Hsp. by apply elem_of_list_to_set.
Qed.

Lemma selection_spec base0 full0 es s s' :
  block_base_bytes s = base0 -> block_full_bytes s = full0 -> selected_transactions s = [] ->
  selected_fee_atoms s = 0 -> block_spent_set s = ∅ -> within_limits base0 full0 ->
  try_fold select_entry s es = Ok s' -> exists chosen, selected base0 full0 es s' chosen.
Proof.
  intros Hb Hf Ht Hfee Hsp Hlim Hrun.
  apply (try_fold_inv _ (fun done s => exists chosen, selected base0 full0 done s chosen)) in Hrun; [done| |].
  - exists []. split; try done.
    + rewrite Hb. cbn. lia.
    + rewrite Hf. cbn. lia.
    + by rewrite Hb, Hf.
    + constructor.
  - intros done e todo s1 s2 _ (chosen & Hc) He. by eapply select_entry_spec.
Qed.

(** ** The candidate block *)

Section candidate.
Context `{Hs : Sha3, Laws : !Sha3Laws Hs, Hf : FalconBackend, Hd : Database}.
#[local] Set Default Proof Using "Type*".

Lemma reward_target_script n address script :
  configured_reward_target n = Some (Ok (address, script)) -> zlen script = ADDRESS_DIGEST_BYTES.
Proof.
  unfold configured_reward_target. destruct (bool_decide _); [done|].
  destruct (decode_base56_address _) as [[[digest network]|]|] eqn:Hdec; [|done..].
  destruct (bool_decide _); [|done]. intros [= _ <-]. by eapply decoded_digest_length.
Qed.

(** The sizes the builder starts from are those of the header, the count and the coinbase. *)
Definition initial_sizes (cb : Transaction) : Z * Z :=
  (HEADER_CANONICAL_SIZE + 4 + 4 + Transaction.base_size_bytes cb,
   HEADER_CANONICAL_SIZE + 4 + 4 + Transaction.full_size_bytes cb).

Lemma coinbase_sizes h value script :
  zlen script = ADDRESS_DIGEST_BYTES ->
  initial_sizes (template_coinbase h value script) = initial_sizes (template_coinbase 0 0 (zeros 32)).
Proof.
  intros Hl. unfold initial_sizes, Transaction.base_size_bytes, Transaction.full_size_bytes. cbn. by rewrite Hl.
Qed.

(** What a candidate block is made of. *)
Record candidate (now : Z) (n : Node) (b : Block) (h : Z) (cb : Transaction) (chosen : list MempoolEntry) : Prop := {
  cd_coinbase : exists script, zlen script = ADDRESS_DIGEST_BYTES /\
    cb = template_coinbase h (block_subsidy_atoms_for_network (Node.network n) h + total fee_atoms chosen) script;
  cd_value : block_subsidy_atoms_for_network (Node.network n) h + total fee_atoms chosen <= U64_MAX;
  cd_transactions : transactions b
    = cb :: ((fun e => finalize_witness_commit_refs (transaction e) (h_witness_root (header b))) <$> chosen);
  cd_header : header b = template_header n h (candidate_block_timestamp now (Node.blocks n))
    (merkle_root (transactions b)) (witness_root (transactions b));
  cd_ready : exists ps, Forall2 (ready (cs_utxos (chainstate n)) (Node.network n) h) chosen ps;
  cd_chosen : chosen `sublist_of` Mempool.ordered_entries_iter (mempool n);
  cd_disjoint : NoDup (keys_used chosen);
  cd_limits : within_limits
    ((initial_sizes cb).1 + zsum ((fun e => 4 + base_size_bytes e) <$> chosen))
    ((initial_sizes cb).2 + zsum ((fun e => 4 + raw_size_bytes e) <$> chosen));
}.

Lemma ready_all s n h es :
  Forall (fun e => still_valid (UtxoSet.get s) n h e = true) es -> exists ps, Forall2 (ready s n h) es ps.
Proof.
  induction 1 as [|e es He _ (ps & IH)]; [by exists []|].
  unfold still_valid in He. destruct (Mempool.check_entry _ _ _ e) as [fee|] eqn:Hcheck; [|done].
  destruct (check_entry_ready _ _ _ _ _ Hcheck) as [p Hp]. exists (p :: ps). by constructor.
Qed.

Lemma built_candidate now n b :
  consistent (mempool n) -> build_candidate_block now n = Some (Ok b) ->
  exists cb chosen, candidate now n b (saturating_add U64_MAX (Node.height n) 1) cb chosen.
Proof.
  intros Hc Hbuild. unfold build_candidate_block in Hbuild. set (h := saturating_add U64_MAX (Node.height n) 1) in *.
  pose proof (mining_loop (utxo_entry (chainstate n)) (Node.network n) h
    (Mempool.ordered_entries_iter (mempool n)) [] 0 0) as Hloop.
  change (foldl _ ([], 0, 0) (Mempool.ordered_entries_iter (mempool n))) with
    (Mempool.validated_entries_for_mining (utxo_entry (chainstate n)) (Node.network n) h (mempool n)) in Hloop.
  destruct (Mempool.validated_entries_for_mining _ _ _ _) as [[es fees] skipped].
  destruct (ordered_entries _ Hc) as [_ Hperm]. pose proof (listed_built _ Hc) as Hbuilt. rewrite <- Hperm in Hbuilt.
  apply Hloop in Hbuilt as (-> & _). clear Hloop. rewrite app_nil_l in Hbuild.
  destruct (configured_reward_target n) as [[[address script]|]|] eqn:Htarget; [|done..].
  apply reward_target_script in Htarget. cbn [mbind option_bind result_bind] in Hbuild. injection Hbuild as Hbuild.
  cbn [snd] in Hbuild. inv_ok. apply checked_add_Some in Hok0 as [-> Hmax].
  pose proof (coinbase_sizes h (block_subsidy_atoms_for_network (Node.network n) h) script Htarget) as Hsizes.
  eapply selection_spec in Hok as [chosen Hsel]; [|done..|].
  2:{ unfold initial_sizes in Hsizes. injection Hsizes as E1 E2.
      change (BlockHeader.canonical_size_bytes _) with HEADER_CANONICAL_SIZE. rewrite E1, E2.
      split_and!; apply Z.leb_le; by vm_compute. }
  destruct Hsel as [Hsub Htx Hbase Hfull Hlim [Hfee Hfmax] Hsp Hnd].
  rewrite Hfee, Htx in *. set (cb := template_coinbase h _ script).
  exists cb, chosen.
  destruct (finalize_roots (cb :: (transaction <$> chosen)) (witness_root (cb :: (transaction <$> chosen)))) as [Hwit _].
  set (root := witness_root (cb :: (transaction <$> chosen))) in *.
  split; cbn [header transactions Block.new h_witness_root template_header]; try done.
  - by exists script.
  - f_equal. exact (eq_sym (list_fmap_compose transaction (fun tx => finalize_witness_commit_refs tx root) chosen)).
  - unfold template_header. f_equal. symmetry. exact Hwit.
  - apply ready_all, Forall_forall. intros e He. apply (elem_of_sublist _ _ _ He), list_elem_of_filter in Hsub as [Hsub _].
    exact Hsub.
  - etrans; [exact Hsub|]. apply sublist_filter.
  - rewrite Hbase, Hfull in Hlim. cbn [block_base_bytes block_full_bytes] in Hlim.
    injection Hsizes as E1 E2. unfold cb. rewrite (coinbase_sizes h _ script Htarget). unfold initial_sizes. cbn [fst snd].
    rewrite <- E1, <- E2. exact Hlim.
Qed.

Lemma listed_ids m : consistent m -> NoDup ((fun e => Transaction.txid (transaction e)) <$> listed m).
Proof.
  intros Hc. assert ((fun e => Transaction.txid (transaction e)) <$> listed m = (map_to_list (entries m)).*1) as ->;
    [|apply NoDup_fst_map_to_list].
  unfold listed. rewrite <- list_fmap_compose. apply list_fmap_ext. intros k [t e] Hk.
  apply list_elem_of_lookup_2, elem_of_map_to_list, (c_own _ Hc) in Hk as [<- [-> _]]. done.
Qed.

Lemma built_tx_sizes e :
  built e -> base_size_bytes e = Transaction.base_size_bytes (transaction e) /\
             raw_size_bytes e = Transaction.full_size_bytes (transaction e).
Proof. intros [He _]. split; by rewrite He at 1. Qed.

(** Entries of a consistent pool carry the sizes of their transactions. *)
Lemma chosen_built now n b h cb chosen :
  consistent (mempool n) -> candidate now n b h cb chosen ->
  Forall built chosen /\ NoDup ((fun e => Transaction.txid (transaction e)) <$> chosen).
Proof.
  intros Hc Hcd. pose proof (cd_chosen _ _ _ _ _ _ Hcd) as Hsub.
  destruct (ordered_entries _ Hc) as [_ Hperm]. pose proof (listed_built _ Hc) as Hbuilt. rewrite <- Hperm in Hbuilt.
  assert (Forall built chosen) as Hchosen.
  { apply Forall_forall. intros e He. rewrite Forall_forall in Hbuilt. by eapply Hbuilt, elem_of_sublist. }
  split; [done|].
  apply sublist_submseteq, submseteq_Permutation in Hsub as [rest Hrest].
  pose proof (listed_ids _ Hc) as Hnd. rewrite <- Hperm, Hrest, fmap_app in Hnd. by apply NoDup_app in Hnd as [? _].
Qed.

Lemma candidate_sizes now n b h cb chosen :
  consistent (mempool n) -> candidate now n b h cb chosen -> validate_block_size_metrics b = Ok tt.
Proof.
  intros Hc Hcd. destruct (chosen_built _ _ _ _ _ _ Hc Hcd) as [Hbuilt _].
  destruct (cd_limits _ _ _ _ _ _ Hcd) as (Hraw & Hweight & Hvbytes).
  assert (Block.base_size_bytes b = (initial_sizes cb).1 + zsum ((fun e => 4 + base_size_bytes e) <$> chosen) /\
          Block.full_size_bytes b = (initial_sizes cb).2 + zsum ((fun e => 4 + raw_size_bytes e) <$> chosen))
    as [Hbase Hfull].
  { unfold Block.base_size_bytes, Block.full_size_bytes. rewrite (cd_transactions _ _ _ _ _ _ Hcd), !fmap_cons.
    rewrite <- !list_fmap_compose. unfold initial_sizes, BlockHeader.canonical_size_bytes. cbn [fst snd zsum].
    set (f := _ ∘ _). set (g := _ ∘ _).
    rewrite (zsum_ext f (fun e => 4 + base_size_bytes e)), (zsum_ext g (fun e => 4 + raw_size_bytes e)); [lia| |];
      (eapply Forall_impl; [exact Hbuilt|]); intros e [Eb0 Er0]%built_tx_sizes; unfold f, g, compose;
      destruct (finalized_same (transaction e) (h_witness_root (header b))) as (_ & _ & Eb & Ef);
      by rewrite ?Eb, ?Ef, ?Eb0, ?Er0. }
  rewrite <- Hbase, <- Hfull in *. pose proof (block_sizes_nonneg b) as Hnonneg.
  assert (MAX_BLOCK_RAW_BYTES <= USIZE_MAX) by by apply Z.leb_le.
  destruct (size_metrics_eq b) as [Eb Ef]; [lia|lia|]. destruct (size_metrics_weight b) as [Ew Ev].
  unfold validate_block_size_metrics. rewrite Ev, Ew, Eb, Ef.
  destruct (Z.ltb_spec MAX_BLOCK_RAW_BYTES (Block.full_size_bytes b)); [lia|].
  destruct (Z.ltb_spec MAX_BLOCK_VBYTES (saturating_add USIZE_MAX (saturating_add USIZE_MAX
    (saturating_mul USIZE_MAX (Block.base_size_bytes b) 3) (Block.full_size_bytes b)) 3 / 4)); [lia|].
  destruct (Z.ltb_spec MAX_BLOCK_WEIGHT (saturating_add USIZE_MAX
    (saturating_mul USIZE_MAX (Block.base_size_bytes b) 3) (Block.full_size_bytes b))); [lia|done].
Qed.

Lemma finalized_keys root es :
  input_key <$> (((fun e => finalize_witness_commit_refs (transaction e) root) <$> es) ≫= inputs) = keys_used es.
Proof.
  induction es as [|e es IH]; [done|]. rewrite fmap_cons, bind_cons, fmap_app, IH, keys_used_cons.
  f_equal. by destruct (finalized_same (transaction e) root) as ((_ & -> & _) & _).
Qed.

Lemma candidate_prepared now n b h cb chosen ps :
  consistent (mempool n) -> candidate now n b h cb chosen -> 0 <= h ->
  Forall2 (ready (cs_utxos (chainstate n)) (Node.network n) h) chosen ps ->
  (Transaction.txid cb ∉ Transaction.txid <$> tail (transactions b)) ->
  collect_prepared_block_transactions_with_schedule b h (Node.network n) SCHEDULED_ACTIVATIONS
  = Ok (commit_prepared (h_witness_root (header b)) <$> ps) /\
  validate_coinbase_transaction_with_schedule cb
    (block_subsidy_atoms_for_network (Node.network n) h + total fee_atoms chosen) h SCHEDULED_ACTIVATIONS = Ok tt.
Proof.
  intros Hc Hcd Hh Hready Hcbid. destruct (chosen_built _ _ _ _ _ _ Hc Hcd) as [Hbuilt Hids].
  destruct (cd_coinbase _ _ _ _ _ _ Hcd) as (script & Hscript & Hcb).
  assert (validate_coinbase_transaction_shape_with_schedule cb h SCHEDULED_ACTIVATIONS = Ok tt) as Hshape.
  { unfold validate_coinbase_transaction_shape_with_schedule, is_supported_transaction_version_with_schedule,
      transaction_version_at_height_with_schedule, Transaction.is_coinbase.
    rewrite Hcb. unfold template_coinbase. cbn [inputs outputs version witness tx_pow_nonce tx_pow_bits locking_script].
    change (rules_at_height_with_schedule h SCHEDULED_ACTIVATIONS) with (rules_at_height h). rewrite Z.eqb_refl.
    rewrite (proj2 (canonical_payment_lock_Ok script script)) by done. done. }
  split.
  - unfold collect_prepared_block_transactions_with_schedule, txids_are_unique, block_inputs_are_unique.
    pose proof (cd_transactions _ _ _ _ _ _ Hcd) as Htxs. rewrite Htxs in Hcbid |- *. cbn [tail] in Hcbid.
    rewrite Hshape. cbn [mbind result_bind].
    assert (Transaction.txid <$> ((fun e => finalize_witness_commit_refs (transaction e) (h_witness_root (header b))) <$> chosen)
            = (fun e => Transaction.txid (transaction e)) <$> chosen) as Htxids.
    { rewrite <- list_fmap_compose. apply list_fmap_ext. intros _ e _. cbn. by apply finalize_hashes. }
    rewrite (proj2 (all_inserted_true _ _)).
    2:{ split; [|apply Forall_forall; set_solver]. rewrite fmap_cons. apply NoDup_cons. split; [done|]. by rewrite Htxids. }
    rewrite (proj2 (all_inserted_true _ _)).
    2:{ split; [|apply Forall_forall; set_solver]. rewrite bind_cons, Hcb. cbn [inputs template_coinbase app].
        rewrite finalized_keys. by apply (cd_disjoint _ _ _ _ _ _ Hcd). }
    cbn [negb]. apply try_map_Ok. apply Forall2_fmap. eapply Forall2_impl; [exact Hready|].
    intros e p Hr. apply prepare_finalized. rewrite finalized_minimum_fee.
    eapply prepare_any_fee; [by apply (r_prepared _ _ _ _ _ Hr)|done].
  - unfold validate_coinbase_transaction_with_schedule. rewrite Hshape. cbn [mbind result_bind].
    pose proof (cd_value _ _ _ _ _ _ Hcd) as Hmax. rewrite Hcb.
    unfold Transaction.checked_output_value_atoms, template_coinbase, checked_add. cbn [outputs foldl].
    cbn [mbind option_bind value_atoms]. rewrite Z.add_0_l, (proj2 (Z.leb_le _ _)) by done.
    cbn [ok_or mbind result_bind]. by rewrite Z.eqb_refl.
Qed.

(** The mined block. *)
Definition mined (b : Block) (nonce : Z) : Block :=
  {| header := with_nonce (header b) nonce; transactions := transactions b; witnesses := witnesses b;
     fees_total_atoms := fees_total_atoms b; fees_miner_atoms := fees_miner_atoms b |}.

Lemma candidate_static now n b h cb chosen nonce :
  consistent (mempool n) -> candidate now n b h cb chosen -> 0 < timestamp (header b) ->
  validate_block_static_header_precheck_with_schedule (mined b nonce) h (Node.network n) SCHEDULED_ACTIVATIONS = Ok tt.
Proof.
  intros Hc Hcd Htime. unfold validate_block_static_header_precheck_with_schedule,
    validate_block_common_header_with_schedule, is_supported_block_version_with_schedule.
  change (validate_block_size_metrics (mined b nonce)) with (validate_block_size_metrics b).
  rewrite (candidate_sizes _ _ _ _ _ _ Hc Hcd).
  unfold mined, with_nonce. cbn [header transactions h_version network_id height timestamp difficulty_target_or_bits].
  rewrite (cd_transactions _ _ _ _ _ _ Hcd). rewrite (cd_header _ _ _ _ _ _ Hcd) in Htime |- *.
  unfold template_header in Htime |- *.
  cbn [header transactions h_version network_id height timestamp difficulty_target_or_bits] in Htime |- *.
  change (block_version_at_height_with_schedule h SCHEDULED_ACTIVATIONS) with (cr_block_version (rules_at_height h)).
  rewrite !Z.eqb_refl, bool_decide_false, bool_decide_true by done. cbn [negb mbind result_bind].
  destruct (Z.eqb_spec (candidate_block_timestamp now (Node.blocks n)) 0); [lia|]. cbn [mbind result_bind].
  unfold Node.difficulty_target_for_next_block_at. by rewrite (proj2 (next_target_ok _ _ _)).
Qed.

Lemma candidate_contextual now n b h cb chosen now' nonce :
  candidate now n b h cb chosen ->
  timestamp (header b) <= saturating_add U64_MAX now' MAX_FUTURE_BLOCK_TIMESTAMP_DRIFT_SECS ->
  meets_target (BlockHeader.block_hash (with_nonce (header b) nonce)) (difficulty_target_or_bits (header b)) = true ->
  validate_contextual_header_precheck now' (mined b nonce) (Node.tip_hash n)
    (Node.difficulty_target_for_next_block_at n (timestamp (header b))) (Node.blocks n) = Ok tt.
Proof.
  intros Hcd Htime Hpow. unfold validate_contextual_header_precheck.
  change (header (mined b nonce)) with (with_nonce (header b) nonce).
  assert (difficulty_target_or_bits (header b)
          = Node.difficulty_target_for_next_block_at n (timestamp (header b))) as Ht
    by (rewrite (cd_header _ _ _ _ _ _ Hcd); done).
  rewrite <- Ht, Hpow.
  change (previous_block_hash (with_nonce (header b) nonce)) with (previous_block_hash (header b)).
  change (timestamp (with_nonce (header b) nonce)) with (timestamp (header b)).
  change (difficulty_target_or_bits (with_nonce (header b) nonce)) with (difficulty_target_or_bits (header b)).
  rewrite !bool_decide_true by (rewrite ?(cd_header _ _ _ _ _ _ Hcd); done). cbn [negb].
  destruct (Z.ltb_spec (saturating_add U64_MAX now' MAX_FUTURE_BLOCK_TIMESTAMP_DRIFT_SECS) (timestamp (header b)));
    [lia|].
  assert (timestamp (header b) = candidate_block_timestamp now (Node.blocks n)) as ->
    by (rewrite (cd_header _ _ _ _ _ _ Hcd); done).
  unfold candidate_block_timestamp. destruct (minimum_next_block_timestamp _) as [minimum|]; [|done].
  destruct (Z.ltb_spec (Z.max now minimum) minimum); [lia|done].
Qed.

Lemma signatures_ready s n h root es ps :
  Forall2 (ready s n h) es ps ->
  verify_transaction_signatures_parallel_prepared n ((fun e => finalize_witness_commit_refs (transaction e) root) <$> es)
    (commit_prepared root <$> ps) = Ok tt.
Proof.
  intros Hready. unfold verify_transaction_signatures_parallel_prepared.
  induction Hready as [|e p es ps Hr _ IH]; [done|]. rewrite !fmap_cons. cbn [zip_with try_for id].
  by rewrite signatures_finalized, (r_signed _ _ _ _ _ Hr).
Qed.

(** C12: a block built from the node's own pool and tip, mined with any nonce that
    meets its target, passes the contextual validation of every node at the same
    tip: the pool hands out transactions that validate and do not conflict, the
    builder stays within the size limits and pays itself exactly the subsidy and
    the fees, and writing the commitment references keeps signatures, proofs of
    work and fees as they were. Besides the proof of work it only takes that no
    transaction id of the block is in use and that the checking node's clock is not
    more than two hours behind. *)
Theorem candidate_validates (now now' : Z) (n : Node) (b : Block) (nonce : Z) :
  build_candidate_block now n = Some (Ok b) ->
  consistent (mempool n) -> 0 <= Node.height n ->
  (forall tx i, tx ∈ tail (transactions b) -> UtxoSet.get (cs_utxos (chainstate n)) (Transaction.txid tx) i = None) ->
  (forall cb, head (transactions b) = Some cb ->
     Transaction.txid cb ∉ Transaction.txid <$> tail (transactions b)) ->
  0 < timestamp (header b) <= saturating_add U64_MAX now' MAX_FUTURE_BLOCK_TIMESTAMP_DRIFT_SECS ->
  meets_target (BlockHeader.block_hash (with_nonce (header b) nonce)) (difficulty_target_or_bits (header b)) = true ->
  validate_block_with_context now' (mined b nonce)
    (saturating_add U64_MAX (Node.height n) 1) (Node.network n) (Node.tip_hash n)
    (Node.difficulty_target_for_next_block_at n (timestamp (header b))) (Node.blocks n) (cs_utxos (chainstate n))
  = Ok tt.
Proof.
  intros Hbuild Hc Hheight Hfresh Hcbid Htime Hpow.
  destruct (built_candidate _ _ _ Hc Hbuild) as (cb & chosen & Hcd).
  set (h := saturating_add U64_MAX (Node.height n) 1) in *.
  assert (0 <= h) as Hh by (unfold h, saturating_add, U64_MAX in *; lia).
  destruct (chosen_built _ _ _ _ _ _ Hc Hcd) as [Hbuilt Hids].
  destruct (cd_ready _ _ _ _ _ _ Hcd) as [ps Hready].
  pose proof (cd_transactions _ _ _ _ _ _ Hcd) as Htxs. pose proof (cd_header _ _ _ _ _ _ Hcd) as Hheader.
  destruct (candidate_prepared _ _ _ _ _ _ _ Hc Hcd Hh Hready) as [Hprep Hcoinbase].
  { apply Hcbid. by rewrite Htxs. }
  unfold validate_block_with_context, validate_block_with_context_and_schedule.
  cbn [ctx_height ctx_network ctx_expected_previous_hash ctx_expected_target ctx_previous_blocks ctx_utxos].
  rewrite (candidate_static _ _ _ _ _ _ nonce Hc Hcd), (candidate_contextual _ _ _ _ _ _ now' nonce Hcd) by lia || done.
  cbn [mbind result_bind].
  assert (validate_block_body_commitments (mined b nonce) = Ok tt) as ->.
  { unfold validate_block_body_commitments, Block.compute_merkle_root, Block.compute_witness_root.
    change (transactions (mined b nonce)) with (transactions b).
    change (h_merkle_root (header (mined b nonce))) with (h_merkle_root (header b)).
    change (h_witness_root (header (mined b nonce))) with (h_witness_root (header b)).
    by rewrite !bool_decide_true by by rewrite Hheader. }
  cbn [mbind result_bind].
  change (collect_prepared_block_transactions_with_schedule (mined b nonce)) with
    (collect_prepared_block_transactions_with_schedule b). rewrite Hprep. cbn [mbind result_bind].
  change (transactions (mined b nonce)) with (transactions b).
  change (h_witness_root (header (mined b nonce))) with (h_witness_root (header b)).
  rewrite Htxs.
  pose proof (view_new (cs_utxos (chainstate n))) as [Hinv Hview].
  destruct (overlay_loop (Node.network n) h (h_witness_root (header b)) (cs_utxos (chainstate n)) chosen ps
    (UtxoOverlay.new (cs_utxos (chainstate n))) ∅ 0) as (o' & seen' & ->); try done.
  { by apply (cd_disjoint _ _ _ _ _ _ Hcd). }
  { eapply Forall_impl; [exact Hbuilt|]. by intros e []. }
  { pose proof (cd_value _ _ _ _ _ _ Hcd). pose proof (reward_bounds h Hh).
    unfold block_subsidy_atoms_for_network, TAIL_REWARD_ATOMS in *. lia. }
  { intros k _. rewrite Hview. split; [done|set_solver]. }
  { intros e [t i] He Hk. rewrite Hview. cbn in Hk. subst t.
    rewrite <- (proj1 (finalize_hashes (transaction e) (h_witness_root (header b)))). apply Hfresh. rewrite Htxs.
    by apply (list_elem_of_fmap_2 (fun e => finalize_witness_commit_refs (transaction e) _)). }
  cbn [mbind result_bind]. rewrite Z.add_0_l. unfold checked_add. rewrite (proj2 (Z.leb_le _ _)) by apply (cd_value _ _ _ _ _ _ Hcd).
  cbn [ok_or mbind result_bind]. rewrite Hcoinbase. cbn [mbind result_bind].
  by eapply signatures_ready.
Qed.
End candidate.

(** ** Witness *)

(** A Regnet node at height 4 with the coin set [funded_set], [sample_entry] in its
    pool and a reward address; and its template. *)
Definition funded_node : Node (H:=null_database) :=
  {| config := {| cfg_network := Regnet;
                  cfg_mining_reward_address := encode_base56_address (H:=checksum_sha3) Regnet sample_lock;
                  cfg_mempool := MempoolLimits.default |};
     chainstate := {| cs_network := Regnet; cs_tip := None; cs_tip_hash := zeros 48; cs_height := 4; cs_blocks := [];
                      block_index_by_hash := ∅; cs_utxos := funded_set; undo_stack := []; storage := None;
                      last_prune_report := None; last_prune_error := None |};
     mempool := sample_pool |}.
Definition funded_template : option (result NodeError Block) :=
  build_candidate_block (Hs:=checksum_sha3) (Hf:=accepting_falcon) (Hd:=null_database) 1700000000 funded_node.
Definition funded_block : Block := match funded_template with Some (Ok b) => b | _ => sample_block end.
Lemma funded_builds : funded_template = Some (Ok funded_block).
Proof. by vm_compute. Qed.
Lemma funded_ids_fresh tx i :
  tx ∈ tail (transactions funded_block) -> UtxoSet.get funded_set (Transaction.txid (H:=checksum_sha3) tx) i = None.
Proof.
  intros Htx.
  assert (Forall (fun tx => bool_decide (Transaction.txid (H:=checksum_sha3) tx = replicate 48 x07) = false)
            (tail (transactions funded_block))) as Hne
    by (apply existsb_false; by vm_compute).
  rewrite Forall_forall in Hne. specialize (Hne tx Htx). bool_to_prop.
  unfold UtxoSet.get, funded_set. cbn [us_entries]. apply lookup_singleton_ne. by intros [= Hid _].
Qed.
Lemma funded_coinbase_id cb :
  head (transactions funded_block) = Some cb ->
  Transaction.txid (H:=checksum_sha3) cb ∉ Transaction.txid (H:=checksum_sha3) <$> tail (transactions funded_block).
Proof.
  assert (match head (transactions funded_block) with
          | Some cb => bool_decide (Transaction.txid (H:=checksum_sha3) cb
              ∈ Transaction.txid (H:=checksum_sha3) <$> tail (transactions funded_block))
          | None => false
          end = false) as Hid by by vm_compute.
  destruct (head _); [|done]. intros [= <-]. by apply bool_decide_eq_false in Hid.
Qed.

Lemma candidate_validates_witness :
  validate_block_with_context (H:=checksum_sha3) (H0:=accepting_falcon) 1700000000 (mined funded_block 0) 5 Regnet
    (zeros 48) (Node.difficulty_target_for_next_block_at (Hd:=null_database) funded_node (timestamp (header funded_block)))
    [] funded_set = Ok tt.
Proof.
  refine (candidate_validates (Hs:=checksum_sha3) (Laws:=checksum_sha3_laws) (Hf:=accepting_falcon) (Hd:=null_database) 1700000000 1700000000
    funded_node funded_block 0 funded_builds sample_pool_consistent _ funded_ids_fresh funded_coinbase_id _ _).
  - by apply Z.leb_le.
  - split; [apply Z.ltb_lt|apply Z.leb_le]; by vm_compute.
  - by vm_compute.
Defined.
