(* ===== verification/Miner.v ===== *)
(** * The nonce search

    crates/atho-node/src/miner.rs: the workers that search a nonce for a block
    header, as an executable interleaving of their atomic accesses. A schedule
    says which worker acts next and whether a relaxed load of a flag sees the
    latest value or an older one (a flag only ever goes from false to true). The
    thread pool is rayon's: a parameter says whether it could be built. Attempt
    counters, the best nonce and the progress thread only feed log lines. *)
From stdpp Require Import options.
From S2P Require Import Prelude Bytes Constants Crypto Keccak Network Rules Subsidy Transaction Block Pow Genesis.
From S2P Require Import Address Signatures TxPolicy Errors Utxo Validation BlockValidation.

(* src: miner.rs:15-16 MiningInterrupted *)
Inductive MiningInterrupted := MiningInterrupted_.

(* src: miner.rs:18-21 Miner *)
Record Miner := { cores : Z }.

(** Where a worker stands: before [found.load], before [stop.load], before the
    hash, before [compare_exchange], before [nonce.store], or out of its loop. *)
Inductive worker_pc := LoadFound | LoadStop | Hash | Exchange | Store | Finished.
Record worker := { pc : worker_pc; candidate : Z }.
(** The shared atomics and the workers. *)
Record search := {
  found : bool;
  stop_requested : bool;
  found_nonce : Z;
  workers : list worker;
}.

(** One entry of a schedule: worker [i] acts ([fresh]: its load sees the latest
    value), or the caller sets the stop flag. *)
Inductive action := Act (i : nat) (fresh : bool) | RequestStop.
#[global] Instance action_eq_dec : EqDecision action.
Proof. solve_decision. Defined.

Module Search.

Definition set_worker (s : search) (i : nat) (w : worker) : search :=
  {| found := found s; stop_requested := stop_requested s; found_nonce := found_nonce s;
     workers := <[i := w]> (workers s) |}.
Definition goto (w : worker) (p : worker_pc) : worker := {| pc := p; candidate := candidate w |}.

Section steps.
Context (meets : Z -> bool) (worker_count : Z).

(** The next access of one worker. *)
(* src: miner.rs:100-131 Miner::mine_nonce (worker loop) *)
Definition worker_step (s : search) (i : nat) (fresh : bool) (w : worker) : search :=
  match pc w with
  | LoadFound => set_worker s i (goto w (if found s && fresh then Finished else LoadStop))
  | LoadStop => set_worker s i (goto w (if stop_requested s && fresh then Finished else Hash))
  | Hash =>
      set_worker s i
        (if meets (candidate w) then goto w Exchange
         else {| pc := LoadFound; candidate := wrapping_add 64 (candidate w) worker_count |})
  | Exchange =>
      if found s then set_worker s i (goto w Finished)
      else set_worker {| found := true; stop_requested := stop_requested s; found_nonce := found_nonce s;
                         workers := workers s |} i (goto w Store)
  | Store =>
      set_worker {| found := found s; stop_requested := stop_requested s; found_nonce := candidate w;
                    workers := workers s |} i (goto w Finished)
  | Finished => s
  end.

Definition step (s : search) (a : action) : search :=
  match a with
  | Act i fresh => match workers s !! i with Some w => worker_step s i fresh w | None => s end
  | RequestStop => {| found := found s; stop_requested := true; found_nonce := found_nonce s; workers := workers s |}
  end.

(** Worker [i] starts at the candidate [i]. *)
Definition start (stop : bool) : search :=
  {| found := false; stop_requested := stop; found_nonce := 0;
     workers := (fun i => {| pc := LoadFound; candidate := i |}) <$> seqZ 0 worker_count |}.
Definition run (schedule : list action) (s : search) : search := foldl step s schedule.
(** [pool.install] returns when every worker is out of its loop. *)
Definition joined (s : search) : bool := forallb (fun w => match pc w with Finished => true | _ => false end) (workers s).
End steps.

Section miner.
Context `{Sha3}.

(** The test of one candidate: the nonce is appended to the fixed prefix. *)
Definition candidate_meets (h : BlockHeader) (candidate : Z) : bool :=
  meets_target (sha3_384 (BlockHeader.canonical_bytes_without_nonce h ++ le_u64 candidate))
    (difficulty_target_or_bits h).
Definition worker_count (cores : Z) : Z := Z.max cores 1.

(** The whole search: the stop flag may be set from the start; [None] while the
    schedule leaves a worker running. *)
(* src: miner.rs:28-140 Miner::mine_nonce *)
Definition mine_nonce (pool_built : bool) (schedule : list action) (stop : bool) (h : BlockHeader) (cores : Z) :
    option (result MiningInterrupted BlockHeader) :=
  if negb pool_built then Some (Err MiningInterrupted_)
  else
    let count := worker_count cores in
    let s := run (candidate_meets h) count schedule (start count stop) in
    if joined s then
      if stop_requested s && negb (found s) then Some (Err MiningInterrupted_)
      else Some (Ok (with_nonce h (found_nonce s)))
    else None.

(* src: miner.rs:148-174 Miner::solve_block_with_cancel *)
Definition solve_block_with_cancel (m : Miner) (pool_built : bool) (schedule : list action) (stop : bool) (b : Block) :
    option (result MiningInterrupted Block) :=
  header ← mine_nonce pool_built schedule stop (header b) (cores m);
  Some (header ← header;
        Ok {| header := header; transactions := transactions b; witnesses := witnesses b;
              fees_total_atoms := fees_total_atoms b; fees_miner_atoms := fees_miner_atoms b |}).
End miner.
End Search.

(** ** Invariants of the search *)

Section search.
Context (meets : Z -> bool) (worker_count : Z) (Hcount : 0 < worker_count <= 2 ^ 32).

(** The candidates are nonces; whoever is past the test has a nonce that passes;
    exactly when the flag is up, a passing nonce is stored or about to be. *)
Record search_inv (s : search) : Prop := {
  i_candidates : Forall (fun w => is_u64 (candidate w)) (workers s);
  i_passed : Forall (fun w => pc w = Exchange \/ pc w = Store -> meets (candidate w) = true) (workers s);
  i_store : forall i w, workers s !! i = Some w -> pc w = Store -> found s = true;
  i_found : found s = true ->
    (is_u64 (found_nonce s) /\ meets (found_nonce s) = true) \/ exists i w, workers s !! i = Some w /\ pc w = Store;
  i_finished : forall i w, workers s !! i = Some w -> pc w = Finished -> found s = true \/ stop_requested s = true;
}.

Lemma start_inv stop : search_inv (Search.start worker_count stop).
Proof using Hcount.
  split; cbn.
  - apply Forall_fmap, Forall_forall. intros i Hi%elem_of_seqZ. cbn. split; lia.
  - apply Forall_fmap, Forall_forall. intros i _. cbn. by intros [|].
  - intros i w (k & -> & _)%list_lookup_fmap_Some. done.
  - done.
  - intros i w (k & -> & _)%list_lookup_fmap_Some. done.
Qed.

(** A worker after an insertion: the inserted one or an old one. *)
Ltac worker_cases :=
  repeat match goal with
  | Hl : <[_ := _]> _ !! _ = Some _ |- _ => apply list_lookup_insert_Some in Hl as [(-> & <- & _)|[_ Hl]]
  end.

(** Replacing worker [i] by one that is not storing. *)
Lemma set_worker_inv s i w w' :
  search_inv s -> workers s !! i = Some w -> pc w <> Store -> is_u64 (candidate w') -> pc w' <> Store ->
  (pc w' = Exchange -> meets (candidate w') = true) ->
  (pc w' = Finished -> found s = true \/ stop_requested s = true) ->
  search_inv (Search.set_worker s i w').
Proof using.
  clear Hcount.
  intros [Hcand Hpass Hstore Hfound Hfin] Hw Hpc Hu Hpc' Hex Hend. split; cbn.
  - by apply Forall_insert.
  - apply Forall_insert; [done|]. intros [?|?]; [by apply Hex|done].
  - intros j x Hx Hxs. worker_cases; [done|exact (Hstore _ _ Hx Hxs)].
  - intros Hf. destruct (Hfound Hf) as [|(j & x & Hx & Hxs)]; [by left|right]. exists j, x. split; [|done].
    rewrite list_lookup_insert_ne; [done|]. intros <-. congruence.
  - intros j x Hx Hxf. worker_cases; [by apply Hend|exact (Hfin _ _ Hx Hxf)].
Qed.

Lemma step_inv s a : search_inv s -> search_inv (Search.step meets worker_count s a).
Proof using Hcount.
  intros Hinv. destruct a as [i fresh|]; cbn.
  2:{ destruct Hinv as [? ? ? ? Hfin]. split; cbn; try done. intros. by right. }
  destruct (workers s !! i) as [w|] eqn:Hw; [|done]. pose proof Hinv as [Hcand Hpass Hstore Hfound Hfin].
  rewrite Forall_forall in Hcand, Hpass. pose proof (list_elem_of_lookup_2 _ _ _ Hw) as Hin.
  pose proof (Hcand w Hin) as Hu. unfold Search.worker_step. destruct (pc w) eqn:Hpc.
  - apply (set_worker_inv s i w); try done; cbn; try congruence; destruct (found s), fresh; cbn; by auto.
  - apply (set_worker_inv s i w); try done; cbn; try congruence; destruct (stop_requested s), fresh; cbn; by auto.
  - destruct (meets (candidate w)) eqn:Hm; apply (set_worker_inv s i w); try done; try (cbn; congruence).
    cbn. unfold wrapping_add. apply Z.mod_pos_bound. done.
  - assert (meets (candidate w) = true) as Hm by (apply Hpass; [done|by left]).
    destruct (found s) eqn:Hf.
    + apply (set_worker_inv s i w); try done; cbn; auto; congruence.
    + split; cbn.
      * apply Forall_insert; [by apply Forall_forall|done].
      * apply Forall_insert; [by apply Forall_forall|done].
      * done.
      * intros _. right. exists i, (Search.goto w Store). split; [|done].
        apply list_lookup_insert_eq. by eapply lookup_lt_Some.
      * by left.
  - assert (meets (candidate w) = true) as Hm by (apply Hpass; [done|by right]).
    assert (found s = true) as Hf by by eapply Hstore. split; cbn.
    + apply Forall_insert; [by apply Forall_forall|done].
    + apply Forall_insert; [by apply Forall_forall|done].
    + intros j x Hx Hxs. done.
    + intros _. by left.
    + by left.
  - done.
Qed.

Lemma run_inv schedule s : search_inv s -> search_inv (Search.run meets worker_count schedule s).
Proof using Hcount.
  unfold Search.run. revert s. induction schedule as [|a schedule IH]; intros s Hs; [done|].
  apply IH. by apply step_inv.
Qed.

(** The caller's flag is only raised by the caller. *)
Lemma run_stop schedule s :
  stop_requested (Search.run meets worker_count schedule s) = stop_requested s || bool_decide (RequestStop ∈ schedule).
Proof using.
  clear Hcount.
  unfold Search.run. revert s. induction schedule as [|a schedule IH]; intros s.
  { by rewrite orb_false_r. }
  cbn [foldl]. rewrite IH. destruct a as [i fresh|]; cbn.
  - assert (stop_requested (match workers s !! i with
                            | Some w => Search.worker_step meets worker_count s i fresh w
                            | None => s end) = stop_requested s) as ->.
    { destruct (workers s !! i) as [w|]; [|done]. unfold Search.worker_step.
      destruct (pc w); try done. by destruct (found s). }
    f_equal. apply bool_decide_ext. set_solver.
  - symmetry. apply orb_true_iff. right. apply bool_decide_eq_true. by left.
Qed.

(** ** Progress *)

(** How often worker [i] acts. *)
Fixpoint turns (i : nat) (schedule : list action) : nat :=
  match schedule with
  | [] => 0
  | Act j _ :: schedule => if decide (i = j) then S (turns i schedule) else turns i schedule
  | RequestStop :: schedule => turns i schedule
  end.

Definition settled (s : search) : Prop := found s = true \/ stop_requested s = true.

Lemma step_settled s a : settled s -> settled (Search.step meets worker_count s a).
Proof using.
  clear Hcount.
  intros Hs. unfold settled. destruct a as [i fresh|]; cbn; [|by right].
  destruct (workers s !! i) as [w|]; [|done]. unfold Search.worker_step.
  destruct (pc w); try exact Hs. destruct (found s) eqn:Hf; by left.
Qed.
Lemma run_settled schedule s : settled s -> settled (Search.run meets worker_count schedule s).
Proof using.
  clear Hcount.
  unfold Search.run. revert s. induction schedule as [|a schedule IH]; [done|]. intros s Hs. by apply IH, step_settled.
Qed.

(** A step leaves the other workers alone. *)
Lemma step_other s i fresh j :
  i <> j -> workers (Search.step meets worker_count s (Act i fresh)) !! j = workers s !! j.
Proof using.
  clear Hcount.
  intros Hij. cbn. destruct (workers s !! i) as [w|]; [|done]. unfold Search.worker_step.
  destruct (pc w); try done; cbn; try (by rewrite list_lookup_insert_ne).
  destruct (found s); cbn; by rewrite list_lookup_insert_ne.
Qed.

(** How many turns the worker that will come to the candidate [v] still needs, at most. *)
Definition remaining_turns (v : Z) (w : worker) : Z :=
  3 * ((v - candidate w) / worker_count)
  + match pc w with LoadFound => 4 | LoadStop => 3 | Hash => 2 | Exchange => 1 | _ => 0 end.
(** It is on its way to [v]. *)
Definition heading (v : Z) (w : worker) : Prop :=
  0 <= candidate w <= v /\ (v - candidate w) mod worker_count = 0.

Lemma owner_step v s i fresh w :
  search_inv s -> is_u64 v -> meets v = true -> workers s !! i = Some w -> heading v w ->
  let s' := Search.step meets worker_count s (Act i fresh) in
  settled s' \/ exists w', workers s' !! i = Some w' /\ heading v w' /\ remaining_turns v w' < remaining_turns v w.
Proof using Hcount.
  intros Hinv Hv Hmeets Hw [Hc Hmod]. cbn. rewrite Hw.
  assert (i < length (workers s))%nat as Hi by by eapply lookup_lt_Some.
  unfold Search.worker_step, remaining_turns. destruct (pc w) eqn:Hpc.
  - destruct (found s && fresh) eqn:Hf.
    + left. left. cbn. by apply andb_true_iff in Hf as [].
    + right. eexists. cbn. rewrite list_lookup_insert_eq by done. split; [done|]. split; [done|]. cbn. lia.
  - destruct (stop_requested s && fresh) eqn:Hf.
    + left. right. cbn. by apply andb_true_iff in Hf as [].
    + right. eexists. cbn. rewrite list_lookup_insert_eq by done. split; [done|]. split; [done|]. cbn. lia.
  - right. eexists. cbn. rewrite list_lookup_insert_eq by done. split; [done|].
    destruct (meets (candidate w)) eqn:Hm; [split; [done|cbn; lia]|].
    assert (candidate w <> v) by congruence.
    assert (worker_count <= v - candidate w) as Hle.
    { apply Z.mod_divide in Hmod as [q Hq]; [|lia]. destruct Hc as [_ Hc]. clear - Hcount Hq Hc H.
      destruct (Z.le_gt_cases q 0); nia. }
    unfold wrapping_add, heading. cbn. rewrite Z.mod_small by (destruct Hv; lia).
    replace (v - (candidate w + worker_count)) with (v - candidate w + -1 * worker_count) by lia.
    rewrite Z.mod_add, Z.div_add by lia. lia.
  - left. left. by destruct (found s) eqn:Hf.
  - left. left. exact (i_store _ Hinv i w Hw Hpc).
  - left. by apply (i_finished _ Hinv i w).
Qed.

Lemma owner_settles v i schedule s w :
  search_inv s -> is_u64 v -> meets v = true -> workers s !! i = Some w -> heading v w ->
  remaining_turns v w <= Z.of_nat (turns i schedule) -> settled (Search.run meets worker_count schedule s).
Proof using Hcount.
  intros Hinv Hv Hmeets. unfold Search.run. revert s w Hinv.
  induction schedule as [|a schedule IH]; intros s w Hinv Hw Hh Hturns; cbn [foldl].
  - cbn in Hturns. destruct Hh as [Hc Hmod].
    assert (0 <= (v - candidate w) / worker_count) by (apply Z.div_pos; lia). unfold remaining_turns in Hturns.
    destruct (pc w) eqn:Hpc; try lia; [left; exact (i_store _ Hinv i w Hw Hpc)|by apply (i_finished _ Hinv i w)].
  - pose proof (step_inv s a Hinv) as Hinv'. destruct a as [j fresh|]; cbn [turns] in Hturns.
    + destruct (decide (i = j)) as [<-|Hne].
      * destruct (owner_step v s i fresh w) as [Hs|(w' & Hw' & Hh' & Hlt)]; try done.
        { by apply run_settled. }
        eapply IH; [done..|lia].
      * eapply IH; [done| |done|done]. by rewrite step_other.
    + apply run_settled. by right.
Qed.

(** Once a nonce is found, a worker needs at most three turns with fresh loads to leave. *)
Definition leaving_turns (w : worker) : nat :=
  match pc w with LoadFound | Exchange | Store => 1 | LoadStop => 3 | Hash => 2 | Finished => 0 end.

Lemma found_step s a : found s = true -> found (Search.step meets worker_count s a) = true.
Proof using.
  clear Hcount.
  intros Hf. destruct a as [i fresh|]; cbn; [|done]. destruct (workers s !! i) as [w|]; [|done].
  unfold Search.worker_step. destruct (pc w); try done. cbn. by rewrite Hf.
Qed.

Lemma run_found schedule s : found s = true -> found (Search.run meets worker_count schedule s) = true.
Proof using.
  clear Hcount. unfold Search.run. revert s. induction schedule as [|a schedule IH]; [done|]. intros s Hs.
  by apply IH, found_step.
Qed.

Lemma leave_step s i w :
  found s = true -> workers s !! i = Some w ->
  exists w', workers (Search.step meets worker_count s (Act i true)) !! i = Some w' /\
    (leaving_turns w' <= leaving_turns w - 1)%nat.
Proof using.
  clear Hcount.
  intros Hf Hw. assert (i < length (workers s))%nat as Hi by by eapply lookup_lt_Some.
  cbn. rewrite Hw. unfold Search.worker_step, leaving_turns. rewrite Hf.
  destruct (pc w) eqn:Hpc; cbn; try rewrite list_lookup_insert_eq by done;
    try (eexists; split; [done|cbn; by auto]).
  - destruct (stop_requested s && true); eexists; (split; [done|cbn; lia]).
  - destruct (meets (candidate w)); eexists; (split; [done|cbn; lia]).
  - exists w. split; [done|]. rewrite Hpc. lia.
Qed.

Definition fresh_only (schedule : list action) : Prop :=
  Forall (fun a => match a with Act _ fresh => fresh = true | RequestStop => False end) schedule.

Lemma all_leave i schedule s w :
  fresh_only schedule -> found s = true -> workers s !! i = Some w ->
  (leaving_turns w <= turns i schedule)%nat ->
  exists w', workers (Search.run meets worker_count schedule s) !! i = Some w' /\ pc w' = Finished.
Proof using.
  clear Hcount.
  intros Hfresh. unfold Search.run. revert s w. induction Hfresh as [|a schedule Ha _ IH]; intros s w Hf Hw Hturns.
  - exists w. split; [done|]. cbn in Hturns. unfold leaving_turns in Hturns. destruct (pc w); (done || lia).
  - destruct a as [j fresh|]; [|done]. subst fresh. cbn [foldl turns] in *. destruct (decide (i = j)) as [<-|Hne].
    + destruct (leave_step s i w Hf Hw) as (w' & Hw' & Hle). eapply IH; [by apply found_step|done|lia].
    + eapply IH; [by apply found_step| |done]. by rewrite step_other.
Qed.

Lemma run_workers schedule s :
  length (workers (Search.run meets worker_count schedule s)) = length (workers s).
Proof using.
  clear Hcount.
  unfold Search.run. revert s. induction schedule as [|a schedule IH]; intros s; [done|]. cbn [foldl]. rewrite IH.
  destruct a as [i fresh|]; cbn; [|done]. destruct (workers s !! i) as [w|]; [|done].
  unfold Search.worker_step. destruct (pc w); try done; cbn; try (by rewrite length_insert).
  destruct (found s); cbn; by rewrite length_insert.
Qed.

Lemma joined_true s :
  Search.joined s = true <-> Forall (fun w => pc w = Finished) (workers s).
Proof using.
  clear meets worker_count Hcount. unfold Search.joined. induction (workers s) as [|w ws IH]; [done|]. cbn [forallb].
  rewrite andb_true_iff, IH, Forall_cons. destruct (pc w); naive_solver.
Qed.

(** When everybody is out, a nonce that passes is stored or the caller has stopped the search. *)
Lemma joined_result s :
  search_inv s -> workers s <> [] -> Search.joined s = true ->
  (found s = true -> is_u64 (found_nonce s) /\ meets (found_nonce s) = true) /\ settled s.
Proof using.
  clear Hcount. intros Hinv Hne Hj%joined_true. rewrite Forall_lookup in Hj. split.
  - intros Hf. destruct (i_found _ Hinv Hf) as [|(i & w & Hw & Hpc)]; [done|]. apply Hj in Hw. congruence.
  - destruct (workers s) as [|w ws] eqn:Hws; [done|]. apply (i_finished _ Hinv 0%nat w); [by rewrite Hws|by apply (Hj 0%nat)].
Qed.
End search.

(** ** The mined header *)

Section miner.
Context `{Hs : Sha3}.

Lemma with_nonce_wf h v : BlockHeader.wf h -> is_u64 v -> BlockHeader.wf (with_nonce h v).
Proof. unfold BlockHeader.wf. cbn. intros Hw Hv. destruct_and!. split_and!; done. Qed.

(** Testing a candidate is testing the header that carries it. *)
Lemma candidate_meets_header h v :
  BlockHeader.wf h -> is_u64 v ->
  Search.candidate_meets h v
  = meets_target (BlockHeader.block_hash (with_nonce h v)) (difficulty_target_or_bits (with_nonce h v)).
Proof.
  intros Hw Hv. unfold Search.candidate_meets, BlockHeader.block_hash.
  rewrite hash_buffer_canonical by by apply with_nonce_wf.
  unfold BlockHeader.canonical_bytes, BlockHeader.canonical_bytes_without_nonce. cbn. by rewrite <- !app_assoc.
Qed.

Lemma worker_count_bounds c : 0 <= c < 2 ^ 32 -> 0 < Search.worker_count c <= 2 ^ 32.
Proof. unfold Search.worker_count. lia. Qed.

Lemma start_workers_ne count stop : 0 < count -> workers (Search.start count stop) <> [].
Proof.
  intros Hc Hnil. apply (f_equal length) in Hnil. cbn in Hnil. rewrite length_fmap, length_seqZ in Hnil. cbn in Hnil. lia.
Qed.

(** Whatever the workers' interleaving and however stale their reads of the flags,
    a search that returns a header returns the given one with a 64-bit nonce whose
    block hash meets the target; and it gives up only when the caller stopped it or
    the thread pool could not be built, never because a worker left early. *)
Theorem mined_header_meets_target pool_built schedule stop h c r :
  BlockHeader.wf h -> 0 <= c < 2 ^ 32 ->
  Search.mine_nonce pool_built schedule stop h c = Some r ->
  match r with
  | Ok h' => (exists v, is_u64 v /\ h' = with_nonce h v) /\
             meets_target (BlockHeader.block_hash h') (difficulty_target_or_bits h') = true
  | Err _ => pool_built = false \/ stop = true \/ RequestStop ∈ schedule
  end.
Proof.
  intros Hwf Hc. unfold Search.mine_nonce. destruct pool_built; cbn [negb]; [|intros [= <-]; by left].
  pose proof (worker_count_bounds c Hc) as Hcount. set (count := Search.worker_count c) in *.
  set (meets := Search.candidate_meets h). set (s := Search.run meets count schedule (Search.start count stop)).
  assert (search_inv meets s) as Hinv by (apply run_inv; [done|]; by apply start_inv).
  assert (workers s <> []) as Hne.
  { intros Hnil. apply (start_workers_ne count stop); [lia|]. apply nil_length_inv.
    rewrite <- (run_workers meets count schedule). fold s. by rewrite Hnil. }
  destruct (Search.joined s) eqn:Hj; [|done]. destruct (joined_result _ _ Hinv Hne Hj) as [Hok Hset].
  destruct (found s) eqn:Hf; cbn [negb].
  - rewrite andb_false_r. intros [= <-]. destruct (Hok eq_refl) as [Hu Hm]. split; [by exists (found_nonce s)|].
    by rewrite <- candidate_meets_header.
  - destruct Hset as [?|Hst]; [congruence|]. rewrite Hst. intros [= <-]. right.
    unfold s in Hst. rewrite run_stop in Hst. apply orb_true_iff in Hst as [Hst|Hst]; [by left|right].
    by apply bool_decide_eq_true in Hst.
Qed.

(** C25: the search ends. If some nonce [v] passes, then under every schedule in which
    the worker [v mod count] acts often enough to come to [v] - three turns per
    candidate it tries - and then every worker acts three more times with current
    reads of the flags, every worker is out, and the result is a header that meets
    the target: in particular the 64-bit wrap-around and the losing
    compare-and-exchange never lose the solution. *)
Theorem search_finds_a_nonce h c v (before after : list action) :
  BlockHeader.wf h -> 0 <= c < 2 ^ 32 -> is_u64 v -> Search.candidate_meets h v = true ->
  let count := Search.worker_count c in
  RequestStop ∉ before -> fresh_only after ->
  3 * (v / count) + 4 <= Z.of_nat (turns (Z.to_nat (v mod count)) before) ->
  (forall i, (i < Z.to_nat count)%nat -> (3 <= turns i after)%nat) ->
  exists h', Search.mine_nonce true (before ++ after) false h c = Some (Ok h') /\
    meets_target (BlockHeader.block_hash h') (difficulty_target_or_bits h') = true.
Proof.
  intros Hwf Hc Hv Hmeets count Hns Hfresh Hturns Hafter.
  pose proof (worker_count_bounds c Hc) as Hcount. fold count in Hcount.
  set (meets := Search.candidate_meets h) in *. set (s0 := Search.start count false).
  assert (search_inv meets s0) as Hinv0 by by apply start_inv.
  pose proof (Z.mod_pos_bound v count) as Hmod. 
  assert (v - v mod count = v / count * count) as Hclass by (rewrite Z.mod_eq by lia; lia).
  assert (workers s0 !! Z.to_nat (v mod count) = Some {| pc := LoadFound; candidate := v mod count |}) as Hw.
  { cbn. rewrite list_lookup_fmap, lookup_seqZ_lt by lia. cbn. do 2 f_equal. lia. }
  set (s1 := Search.run meets count before s0).
  assert (found s1 = true) as Hf1.
  { destruct (owner_settles meets count Hcount v _ before s0 _ Hinv0 Hv Hmeets Hw) as [Hf|Hst]; [| |done|].
    - split; cbn; [destruct Hv; pose proof (Z.mod_le v count); lia|]. rewrite Hclass. apply Z.mod_mul. lia.
    - unfold remaining_turns. cbn. rewrite Hclass, Z.div_mul by lia. lia.
    - unfold s1 in *. rewrite run_stop in Hst. cbn in Hst. by apply bool_decide_eq_true in Hst. }
  set (s2 := Search.run meets count after s1).
  assert (Search.run meets count (before ++ after) s0 = s2) as Hrun by (unfold Search.run; by rewrite foldl_app).
  assert (search_inv meets s2) as Hinv2 by by apply run_inv, run_inv.
  assert (length (workers s1) = Z.to_nat count) as Hlen
    by (unfold s1; rewrite run_workers; cbn; by rewrite length_fmap, length_seqZ).
  assert (Search.joined s2 = true) as Hj.
  { apply joined_true, Forall_lookup. intros i w Hi.
    assert (i < length (workers s1))%nat as Hlt
      by (rewrite <- (run_workers meets count after); by eapply lookup_lt_Some).
    destruct (lookup_lt_is_Some_2 _ _ Hlt) as [w1 Hw1].
    destruct (all_leave meets count i after s1 w1 Hfresh Hf1 Hw1) as (w2 & Hw2 & Hpc).
    { etrans; [|apply Hafter; lia]. unfold leaving_turns. destruct (pc w1); lia. }
    unfold s2 in Hi. congruence. }
  assert (found s2 = true) as Hf2 by by apply run_found.
  destruct (joined_result meets s2 Hinv2) as [Hok _]; [|done|].
  { intros Hnil. apply (f_equal length) in Hnil. unfold s2 in Hnil. rewrite run_workers in Hnil. cbn in Hnil. lia. }
  destruct (Hok Hf2) as [Hu Hm]. exists (with_nonce h (found_nonce s2)). split.
  - unfold Search.mine_nonce. cbn [negb]. fold count meets s0. rewrite Hrun, Hj, Hf2. cbn [negb].
    by rewrite andb_false_r.
  - by rewrite <- candidate_meets_header.
Qed.
End miner.

(** ** Witnesses *)

(** Two workers on the header of [valid_block]: the first finds the nonce 0, while
    the second keeps reading an old flag, loses nothing and leaves. *)
Definition racing : list action := [Act 0 true; Act 1 true; Act 0 true; Act 1 false; Act 0 true; Act 0 true].
Definition leaving : list action := [Act 1 true; Act 0 true; Act 1 true; Act 0 true; Act 1 true; Act 0 true].
Lemma valid_header_wf : BlockHeader.wf (header valid_block).
Proof. unfold BlockHeader.wf. split_and!; try (by vm_compute); split; try apply Z.leb_le; try apply Z.ltb_lt; by vm_compute. Qed.

Lemma mined_header_meets_target_witness :
  match Search.mine_nonce (H:=checksum_sha3) true (racing ++ leaving) false (header valid_block) 2 with
  | Some (Ok h') => meets_target (BlockHeader.block_hash (H:=checksum_sha3) h') (difficulty_target_or_bits h') = true
  | _ => False
  end.
Proof.
  pose proof (fun r => mined_header_meets_target (Hs:=checksum_sha3) true (racing ++ leaving) false
    (header valid_block) 2 r valid_header_wf ltac:(done)) as Hm.
  assert (match Search.mine_nonce (H:=checksum_sha3) true (racing ++ leaving) false (header valid_block) 2 with
          | Some (Ok _) => true | _ => false end = true) as Hok by by vm_compute.
  destruct (Search.mine_nonce true _ false (header valid_block) 2) as [[h'|]|]; [|discriminate Hok..].
  exact (proj2 (Hm (Ok h') eq_refl)).
Defined.

Lemma search_finds_a_nonce_witness :
  exists h', Search.mine_nonce (H:=checksum_sha3) true (racing ++ leaving) false (header valid_block) 2 = Some (Ok h') /\
    meets_target (BlockHeader.block_hash (H:=checksum_sha3) h') (difficulty_target_or_bits h') = true.
Proof.
  refine (search_finds_a_nonce (Hs:=checksum_sha3) (header valid_block) 2 0 racing leaving valid_header_wf _ _ _ _ _ _ _).
  - done.
  - done.
  - by vm_compute.
  - intros Hin. repeat (apply elem_of_cons in Hin as [Hin|Hin]; [discriminate Hin|]). by apply not_elem_of_nil in Hin.
  - repeat constructor.
  - done.
  - intros [|[|i]] Hi; [apply Nat.leb_le; by vm_compute..|]. change (S (S i) < 2)%nat in Hi. lia.
Defined.
