(* ===== verification/P2pConfig.v ===== *)
(** * Peer-to-peer configuration

    crates/atho-p2p/src/config.rs: the limits, the parameters of each network,
    the overrides read from environment variables and the bootstrap peers. The
    process environment is the class [ProcessEnv]. *)
From stdpp Require Import options.
From S2P Require Import Prelude Bytes Text Constants Network Rules.

(* src: p2p_config.rs:9-9 MIN_SUPPORTED_PROTOCOL_VERSION *)
Definition MIN_SUPPORTED_PROTOCOL_VERSION : Z := 1.
(* src: p2p_config.rs:11-11 MAINNET_DNS_SEEDS *)
Definition MAINNET_DNS_SEEDS : list bytes := str_bytes <$> ["mainnet-node1.atho.io"; "mainnet-node2.atho.io"]%string.
(* src: p2p_config.rs:12-12 TESTNET_DNS_SEEDS *)
Definition TESTNET_DNS_SEEDS : list bytes := str_bytes <$> ["testnet-node1.atho.io"; "testnet-node2.atho.io"]%string.
(* src: p2p_config.rs:13-13 REGNET_DNS_SEEDS *)
Definition REGNET_DNS_SEEDS : list bytes := [].
(* src: p2p_config.rs:14-14 PRUNETEST_DNS_SEEDS *)
Definition PRUNETEST_DNS_SEEDS : list bytes := [].
(* src: p2p_config.rs:16-17 MAINNET_BOOTSTRAP_PEERS *)
Definition MAINNET_BOOTSTRAP_PEERS : list bytes :=
  str_bytes <$> ["mainnet-node1.atho.io:56000"; "mainnet-node2.atho.io:56000"]%string.
(* src: p2p_config.rs:18-18 TESTNET_BOOTSTRAP_PEERS *)
Definition TESTNET_BOOTSTRAP_PEERS : list bytes := str_bytes <$> ["162.222.206.163:9100"; "74.208.219.116:9100"]%string.
(* src: p2p_config.rs:19-19 REGNET_BOOTSTRAP_PEERS *)
Definition REGNET_BOOTSTRAP_PEERS : list bytes := [].
(* src: p2p_config.rs:20-20 PRUNETEST_BOOTSTRAP_PEERS *)
Definition PRUNETEST_BOOTSTRAP_PEERS : list bytes := [].

(* src: p2p_config.rs:22-63 P2pLimits *)
Record P2pLimits := {
  max_message_size : Z;
  max_addr_per_message : Z;
  max_inv_per_message : Z;
  max_headers_per_message : Z;
  max_blocks_in_flight : Z;
  max_requests_per_peer : Z;
  block_request_timeout_ms : Z;
  headers_request_timeout_ms : Z;
  block_download_lookahead : Z;
  max_fast_download_ahead : Z;
  block_request_batch_limit : Z;
  max_untrusted_block_cache : Z;
  max_untrusted_block_cache_bytes : Z;
  max_pending_validation_blocks : Z;
  enable_fast_body_download : bool;
  enable_background_validation : bool;
  enable_checkpoint_anchored_sync : bool;
  require_full_validation_before_mining : bool;
  sync_maintenance_interval_ms : Z;
  handshake_timeout_ms : Z;
  read_timeout_ms : Z;
  write_timeout_ms : Z;
  max_inbound_peers : Z;
  max_outbound_peers : Z;
  target_block_relay_peers : Z;
  target_sync_peers : Z;
  target_tx_relay_peers : Z;
  target_addr_relay_peers : Z;
  max_peers_per_ip : Z;
  max_peers_per_subnet : Z;
  max_known_peers : Z;
  max_addr_per_source : Z;
  max_addr_messages_per_window : Z;
  addr_rate_limit_window_secs : Z;
  getaddr_response_cooldown_secs : Z;
  max_peer_address_age_secs : Z;
  max_user_agent_bytes : Z;
  ban_score_threshold : Z;
  peer_decay_interval_secs : Z;
}.

(* src: p2p_config.rs:65-74 NetworkParams *)
Record NetworkParams := {
  np_network : Network;
  magic : bytes;
  default_port : Z;
  protocol_version : Z;
  min_supported_protocol_version : Z;
  dns_seeds : list bytes;
  limits : P2pLimits;
}.

(* src: p2p_config.rs:76-116 DEFAULT_LIMITS *)
Definition DEFAULT_LIMITS : P2pLimits := {|
  max_message_size := MAX_BLOCK_RAW_BYTES + 1024;
  max_addr_per_message := 1000;
  max_inv_per_message := 50000;
  max_headers_per_message := 2000;
  max_blocks_in_flight := 1024;
  max_requests_per_peer := 256;
  block_request_timeout_ms := 8000;
  headers_request_timeout_ms := 20000;
  block_download_lookahead := 160;
  max_fast_download_ahead := 4096;
  block_request_batch_limit := 128;
  max_untrusted_block_cache := 4096;
  max_untrusted_block_cache_bytes := 256 * 1024 * 1024;
  max_pending_validation_blocks := 4096;
  enable_fast_body_download := true;
  enable_background_validation := true;
  enable_checkpoint_anchored_sync := true;
  require_full_validation_before_mining := true;
  sync_maintenance_interval_ms := 50;
  handshake_timeout_ms := 5000;
  read_timeout_ms := 10000;
  write_timeout_ms := 10000;
  max_inbound_peers := 32;
  max_outbound_peers := 8;
  target_block_relay_peers := 4;
  target_sync_peers := 3;
  target_tx_relay_peers := 4;
  target_addr_relay_peers := 2;
  max_peers_per_ip := 8;
  max_peers_per_subnet := 16;
  max_known_peers := 4096;
  max_addr_per_source := 128;
  max_addr_messages_per_window := 4;
  addr_rate_limit_window_secs := 60;
  getaddr_response_cooldown_secs := 60;
  max_peer_address_age_secs := 30 * 24 * 60 * 60;
  max_user_agent_bytes := 256;
  ban_score_threshold := 100;
  peer_decay_interval_secs := 60;
|}.

(** [limits] with the fields the environment can override. *)
Definition with_overrides (l : P2pLimits) (outbound inbound : Z) (fast background checkpoint : bool) : P2pLimits := {|
  max_message_size := max_message_size l; max_addr_per_message := max_addr_per_message l;
  max_inv_per_message := max_inv_per_message l; max_headers_per_message := max_headers_per_message l;
  max_blocks_in_flight := max_blocks_in_flight l; max_requests_per_peer := max_requests_per_peer l;
  block_request_timeout_ms := block_request_timeout_ms l; headers_request_timeout_ms := headers_request_timeout_ms l;
  block_download_lookahead := block_download_lookahead l; max_fast_download_ahead := max_fast_download_ahead l;
  block_request_batch_limit := block_request_batch_limit l; max_untrusted_block_cache := max_untrusted_block_cache l;
  max_untrusted_block_cache_bytes := max_untrusted_block_cache_bytes l;
  max_pending_validation_blocks := max_pending_validation_blocks l;
  enable_fast_body_download := fast; enable_background_validation := background;
  enable_checkpoint_anchored_sync := checkpoint;
  require_full_validation_before_mining := require_full_validation_before_mining l;
  sync_maintenance_interval_ms := sync_maintenance_interval_ms l; handshake_timeout_ms := handshake_timeout_ms l;
  read_timeout_ms := read_timeout_ms l; write_timeout_ms := write_timeout_ms l;
  max_inbound_peers := inbound; max_outbound_peers := outbound;
  target_block_relay_peers := target_block_relay_peers l; target_sync_peers := target_sync_peers l;
  target_tx_relay_peers := target_tx_relay_peers l; target_addr_relay_peers := target_addr_relay_peers l;
  max_peers_per_ip := max_peers_per_ip l; max_peers_per_subnet := max_peers_per_subnet l;
  max_known_peers := max_known_peers l; max_addr_per_source := max_addr_per_source l;
  max_addr_messages_per_window := max_addr_messages_per_window l;
  addr_rate_limit_window_secs := addr_rate_limit_window_secs l;
  getaddr_response_cooldown_secs := getaddr_response_cooldown_secs l;
  max_peer_address_age_secs := max_peer_address_age_secs l; max_user_agent_bytes := max_user_agent_bytes l;
  ban_score_threshold := ban_score_threshold l; peer_decay_interval_secs := peer_decay_interval_secs l;
|}.

(* src: p2p_config.rs:186-192 parse_bool *)
Definition parse_bool (value : bytes) : option bool :=
  let v := to_ascii_lowercase (trim value) in
  if bool_decide (v ∈ str_bytes <$> ["1"; "true"; "yes"; "on"]%string) then Some true
  else if bool_decide (v ∈ str_bytes <$> ["0"; "false"; "no"; "off"]%string) then Some false
  else None.

Section config.
Context `{ProcessEnv}.

(** A boolean variable, or the current value. *)
Definition env_bool (name : string) (current : bool) : bool := default current (env_var name ≫= parse_bool).

(* src: p2p_config.rs:160-184 runtime_limits *)
Definition runtime_limits (l : P2pLimits) : P2pLimits :=
  let '(outbound, inbound) :=
    match raw ← env_var "ATHO_MAX_PEER_CONNECTIONS"; parse_uint USIZE_MAX (trim raw) with
    | Some total =>
        let total := clamp total 8 512 in
        let outbound := clamp (total / 5) 2 128 in
        (outbound, Z.max (saturating_sub total outbound) 4)
    | None => (max_outbound_peers l, max_inbound_peers l)
    end in
  with_overrides l outbound inbound
    (env_bool "ATHO_SYNC_FAST_BODY_DOWNLOAD" (enable_fast_body_download l))
    (env_bool "ATHO_SYNC_BACKGROUND_VALIDATION" (enable_background_validation l))
    (env_bool "ATHO_SYNC_CHECKPOINT_ANCHORED" (enable_checkpoint_anchored_sync l)).

(* src: p2p_config.rs:118-158 network_params *)
Definition network_params (n : Network) : NetworkParams :=
  let limits := runtime_limits DEFAULT_LIMITS in
  let seeds :=
    match n with
    | Mainnet => MAINNET_DNS_SEEDS
    | Testnet => TESTNET_DNS_SEEDS
    | Regnet => REGNET_DNS_SEEDS
    | Prunetest => PRUNETEST_DNS_SEEDS
    end in
  {| np_network := n; magic := Network.p2p_magic n; default_port := Network.p2p_port n;
     protocol_version := PROTOCOL_VERSION; min_supported_protocol_version := MIN_SUPPORTED_PROTOCOL_VERSION;
     dns_seeds := seeds; limits := limits |}.
(** [network_params(n).limits]. *)
Definition network_limits (n : Network) : P2pLimits := limits (network_params n).

(* src: p2p_config.rs:194-196 network_from_magic *)
Definition network_from_magic (magic : bytes) : option Network := Network.from_p2p_magic magic.

(* src: p2p_config.rs:198-215 configured_peer_addresses_from_env *)
Definition configured_peer_addresses_from_env : list bytes :=
  match env_var "ATHO_P2P_PEERS" with
  | Some value => filter (fun s => s <> []) (trim <$> split_on x2c value)
  | None => []
  end.

(* src: p2p_config.rs:217-228 default_bootstrap_peers *)
Definition default_bootstrap_peers (n : Network) : list bytes :=
  match n with
  | Mainnet => MAINNET_BOOTSTRAP_PEERS
  | Testnet => TESTNET_BOOTSTRAP_PEERS
  | Regnet => REGNET_BOOTSTRAP_PEERS
  | Prunetest => PRUNETEST_BOOTSTRAP_PEERS
  end.

(* src: p2p_config.rs:230-237 dns_seed_targets *)
Definition dns_seed_targets (n : Network) : list bytes :=
  (fun host => host ++ [x3a] ++ decimal (Network.p2p_port n)) <$> dns_seeds (network_params n).

(* src: p2p_config.rs:239-257 configured_bootstrap_peers *)
Definition configured_bootstrap_peers (n : Network) : list bytes :=
  match configured_peer_addresses_from_env with
  | [] => dns_seed_targets n ++ default_bootstrap_peers n
  | explicit => explicit
  end.
End config.
