(* ===== verification/Protocol.v ===== *)
(** * Peer-to-peer messages

    crates/atho-p2p/src/protocol.rs: the messages, the commands that name them on
    the wire, payload encoding and decoding with their limits, version checks and
    compact blocks. Payloads are serialized by bincode, a third-party crate: the
    class [Bincode] has its serializer for each payload type. *)
From stdpp Require Import options.
From S2P Require Import Prelude Bytes Text Constants Crypto Keccak Network Rules Transaction Block Genesis P2pConfig.

(* src: protocol.rs:26-26 NODE_NETWORK *)
Definition NODE_NETWORK : Z := Z.shiftl 1 0.
(* src: protocol.rs:27-27 NODE_WITNESS *)
Definition NODE_WITNESS : Z := Z.shiftl 1 3.
(* src: protocol.rs:28-28 LOCAL_NODE_SERVICES *)
Definition LOCAL_NODE_SERVICES : Z := Z.lor NODE_NETWORK NODE_WITNESS.
(* src: protocol.rs:31-31 MIN_SERIALIZED_TRANSACTION_BYTES *)
Definition MIN_SERIALIZED_TRANSACTION_BYTES : Z := 29.

(** ** Messages *)

(** A 48-byte hash. *)
Abbreviation Hash48 := bytes.
Definition Hash48_ZERO : Hash48 := zeros 48.

(* src: protocol.rs:56-75 MessageCommand *)
Inductive MessageCommand :=
| CmdVersion | CmdVerack | CmdPing | CmdPong | CmdGetAddr | CmdAddr | CmdInv | CmdGetData | CmdNotFound
| CmdGetHeaders | CmdHeaders | CmdBlock | CmdTx | CmdMemPool | CmdCompactBlock | CmdGetBlockTxn | CmdBlockTxn.

(* src: protocol.rs:77-81 InventoryKind *)
Inductive InventoryKind := InvTransaction | InvBlock.

(* src: protocol.rs:83-87 InventoryVector *)
Record InventoryVector := { iv_kind : InventoryKind; iv_hash : Hash48 }.

(* src: protocol.rs:89-95 PeerAddress *)
Record PeerAddress := {
  host : bytes;
  port : Z;
  services : Z;
  last_seen_unix : Z;
}.

(* src: protocol.rs:97-111 VersionMessage *)
Record VersionMessage := {
  v_protocol_version : Z;
  v_min_protocol_version : Z;
  v_services : Z;
  v_timestamp_unix : Z;
  v_network : Network;
  v_user_agent : bytes;
  v_best_height : Z;
  v_ruleset_version : Z;
  v_relay : bool;
  v_genesis_hash : Hash48;
  v_tip_hash : Hash48;
  v_chainwork : Hash48;
}.

(* src: protocol.rs:113-117 GetHeadersMessage *)
Record GetHeadersMessage := { gh_locator_hashes : list Hash48; gh_stop_hash : Hash48 }.

(* src: protocol.rs:119-123 PrefilledTransaction *)
Record PrefilledTransaction := { pf_index : Z; pf_transaction : Transaction }.

(* src: protocol.rs:125-133 CompactBlockMessage *)
Record CompactBlockMessage := {
  cb_header : BlockHeader;
  cb_tx_count : Z;
  cb_short_ids : list Z;
  cb_prefilled_transactions : list PrefilledTransaction;
  cb_fees_total_atoms : Z;
  cb_fees_miner_atoms : Z;
}.

(* src: protocol.rs:135-139 GetBlockTxnMessage *)
Record GetBlockTxnMessage := { gbt_block_hash : Hash48; gbt_indexes : list Z }.

(* src: protocol.rs:141-146 BlockTxnMessage *)
Record BlockTxnMessage := { bt_block_hash : Hash48; bt_indexes : list Z; bt_transactions : list Transaction }.

(* src: protocol.rs:148-167 MessagePayload *)
Inductive MessagePayload :=
| Version (message : VersionMessage)
| Verack
| Ping (nonce : Z)
| Pong (nonce : Z)
| GetAddr
| Addr (addresses : list PeerAddress)
| Inv (inventory : list InventoryVector)
| GetData (inventory : list InventoryVector)
| NotFound (inventory : list InventoryVector)
| GetHeaders (message : GetHeadersMessage)
| Headers (headers : list BlockHeader)
| BlockPayload (block : Block)
| Tx (transaction : Transaction)
| MemPool
| CompactBlock (message : CompactBlockMessage)
| GetBlockTxn (message : GetBlockTxnMessage)
| BlockTxn (message : BlockTxnMessage).

(* src: protocol.rs:169-173 NetworkMessage *)
Record NetworkMessage := { nm_network : Network; payload : MessagePayload }.

(* src: protocol.rs:175-211 ProtocolError *)
Inductive ProtocolError :=
| UnsupportedNetwork
| UnknownMessageCommand
| PayloadTooLarge
| MalformedPayload
| UnexpectedPayload
| UnsupportedProtocolVersion
| UserAgentTooLong
| GenesisMismatch
| RulesetMismatch
| TooManyPeerAddresses
| TooManyInventoryEntries
| TooManyHeaders
| InvalidHeadersSequence
| PeerBookFull
| HandshakeIncomplete
| TooManyLocatorHashes
| InvalidCompactBlock.

#[global] Instance InventoryKind_eq_dec : EqDecision InventoryKind.
Proof. solve_decision. Defined.
#[global] Instance PeerAddress_eq_dec : EqDecision PeerAddress.
Proof. solve_decision. Defined.
#[global] Instance ProtocolError_eq_dec : EqDecision ProtocolError.
Proof. solve_decision. Defined.
#[global] Instance MessageCommand_eq_dec : EqDecision MessageCommand.
Proof. solve_decision. Defined.

(** ** Commands *)

Module MessageCommand.

Definition all : list MessageCommand :=
  [CmdVersion; CmdVerack; CmdPing; CmdPong; CmdGetAddr; CmdAddr; CmdInv; CmdGetData; CmdNotFound;
   CmdGetHeaders; CmdHeaders; CmdBlock; CmdTx; CmdMemPool; CmdCompactBlock; CmdGetBlockTxn; CmdBlockTxn].

(* src: protocol.rs:242-262 MessageCommand::as_str *)
Definition as_str (c : MessageCommand) : bytes :=
  str_bytes (match c with
  | CmdVersion => "version"
  | CmdVerack => "verack"
  | CmdPing => "ping"
  | CmdPong => "pong"
  | CmdGetAddr => "getaddr"
  | CmdAddr => "addr"
  | CmdInv => "inv"
  | CmdGetData => "getdata"
  | CmdNotFound => "notfound"
  | CmdGetHeaders => "getheaders"
  | CmdHeaders => "headers"
  | CmdBlock => "block"
  | CmdTx => "tx"
  | CmdMemPool => "mempool"
  | CmdCompactBlock => "cmpctblock"
  | CmdGetBlockTxn => "getblocktxn"
  | CmdBlockTxn => "blocktxn"
  end)%string.

(** The name before the first zero byte; bytes that are no UTF-8 are no name
    either, so the two errors coincide. The arms of the match are the names of
    [as_str]. *)
(* src: protocol.rs:264-288 MessageCommand::from_bytes *)
Definition from_bytes (raw : bytes) : result ProtocolError MessageCommand :=
  let fin := default (length raw) (position (fun b => bool_decide (b = x00)) raw) in
  ok_or (List.find (fun c => bool_decide (as_str c = take fin raw)) all) UnknownMessageCommand.

(** [copy_from_slice] into 12 zero bytes; every name is shorter. *)
(* src: protocol.rs:290-295 MessageCommand::as_padded_bytes *)
Definition as_padded_bytes (c : MessageCommand) : bytes := as_str c ++ zeros (12 - length (as_str c)).
End MessageCommand.

Module MessagePayload.
(* src: protocol.rs:299-319 MessagePayload::command *)
Definition command (p : MessagePayload) : MessageCommand :=
  match p with
  | Version _ => CmdVersion
  | Verack => CmdVerack
  | Ping _ => CmdPing
  | Pong _ => CmdPong
  | GetAddr => CmdGetAddr
  | Addr _ => CmdAddr
  | Inv _ => CmdInv
  | GetData _ => CmdGetData
  | NotFound _ => CmdNotFound
  | GetHeaders _ => CmdGetHeaders
  | Headers _ => CmdHeaders
  | BlockPayload _ => CmdBlock
  | Tx _ => CmdTx
  | MemPool => CmdMemPool
  | CompactBlock _ => CmdCompactBlock
  | GetBlockTxn _ => CmdGetBlockTxn
  | BlockTxn _ => CmdBlockTxn
  end.
End MessagePayload.

(** ** Payloads *)

(** [bincode::DefaultOptions]: [serialize] with its size error, and
    [deserialize] with the payload's length as limit and trailing bytes
    rejected ([Serde]). *)
(** A serializer for every payload type. *)
Class Bincode := {
  bc_version :: Serde VersionMessage;
  bc_nonce :: Serde Z;
  bc_addresses :: Serde (list PeerAddress);
  bc_inventory :: Serde (list InventoryVector);
  bc_get_headers :: Serde GetHeadersMessage;
  bc_headers :: Serde (list BlockHeader);
  bc_block :: Serde Block;
  bc_transaction :: Serde Transaction;
  bc_compact_block :: Serde CompactBlockMessage;
  bc_get_block_txn :: Serde GetBlockTxnMessage;
  bc_block_txn :: Serde BlockTxnMessage;
}.
Class BincodeLaws `{Bincode} : Prop := {
  bl_version :: SerdeLaws VersionMessage;
  bl_nonce :: SerdeLaws Z;
  bl_addresses :: SerdeLaws (list PeerAddress);
  bl_inventory :: SerdeLaws (list InventoryVector);
  bl_get_headers :: SerdeLaws GetHeadersMessage;
  bl_headers :: SerdeLaws (list BlockHeader);
  bl_block :: SerdeLaws Block;
  bl_transaction :: SerdeLaws Transaction;
  bl_compact_block :: SerdeLaws CompactBlockMessage;
  bl_get_block_txn :: SerdeLaws GetBlockTxnMessage;
  bl_block_txn :: SerdeLaws BlockTxnMessage;
}.

(* src: protocol.rs:630-632 max_block_transaction_count *)
Definition max_block_transaction_count : Z := MAX_BLOCK_SIZE_BYTES / MIN_SERIALIZED_TRANSACTION_BYTES.

(* src: protocol.rs:634-647 validate_compact_block_message *)
Definition validate_compact_block_message (m : CompactBlockMessage) : result ProtocolError unit :=
  reject (cb_tx_count m =? 0) || (max_block_transaction_count <? cb_tx_count m) with InvalidCompactBlock;
  reject (cb_tx_count m <? zlen (cb_prefilled_transactions m)) || (cb_tx_count m <? zlen (cb_short_ids m))
    with InvalidCompactBlock;
  reject negb (zlen (cb_prefilled_transactions m) + zlen (cb_short_ids m) =? cb_tx_count m)
    with InvalidCompactBlock;
  Ok tt.

(* src: protocol.rs:649-654 validate_getblocktxn_message *)
Definition validate_getblocktxn_message (m : GetBlockTxnMessage) : result ProtocolError unit :=
  reject max_block_transaction_count <? zlen (gbt_indexes m) with InvalidCompactBlock;
  Ok tt.

(* src: protocol.rs:656-663 validate_blocktxn_message *)
Definition validate_blocktxn_message (m : BlockTxnMessage) : result ProtocolError unit :=
  reject negb (zlen (bt_indexes m) =? zlen (bt_transactions m))
         || (max_block_transaction_count <? zlen (bt_indexes m)) with InvalidCompactBlock;
  Ok tt.

(* src: protocol.rs:604-610 expect_empty *)
Definition expect_empty (p : bytes) : result ProtocolError unit :=
  if bool_decide (p = []) then Ok tt else Err UnexpectedPayload.

(* src: protocol.rs:612-616 serialize *)
Definition serialize {A} `{Serde A} (a : A) : result ProtocolError bytes := ok_or (serialize_value a) MalformedPayload.
(* src: protocol.rs:618-624 deserialize *)
Definition deserialize {A} `{Serde A} (p : bytes) : result ProtocolError A := ok_or (deserialize_value p) MalformedPayload.

Module NetworkMessage.
Section codec.
Context `{ProcessEnv, Bincode}.

(* src: protocol.rs:323-325 NetworkMessage::new *)
Definition new (n : Network) (p : MessagePayload) : NetworkMessage := {| nm_network := n; payload := p |}.
(* src: protocol.rs:327-329 NetworkMessage::command *)
Definition command (m : NetworkMessage) : MessageCommand := MessagePayload.command (payload m).

(* src: protocol.rs:331-379 NetworkMessage::encode_payload *)
Definition encode_payload (m : NetworkMessage) : result ProtocolError bytes :=
  let l := network_limits (nm_network m) in
  match payload m with
  | Version message => serialize message
  | Verack | GetAddr | MemPool => Ok []
  | Ping nonce | Pong nonce => serialize nonce
  | Addr addresses =>
      reject max_addr_per_message l <? zlen addresses with TooManyPeerAddresses;
      serialize addresses
  | Inv inventory | GetData inventory | NotFound inventory =>
      reject max_inv_per_message l <? zlen inventory with TooManyInventoryEntries;
      serialize inventory
  | GetHeaders message =>
      reject 32 <? zlen (gh_locator_hashes message) with TooManyLocatorHashes;
      serialize message
  | Headers headers =>
      reject max_headers_per_message l <? zlen headers with TooManyHeaders;
      serialize headers
  | BlockPayload block => serialize block
  | Tx transaction => serialize transaction
  | CompactBlock message =>
      _ ← validate_compact_block_message message;
      serialize message
  | GetBlockTxn message =>
      _ ← validate_getblocktxn_message message;
      serialize message
  | BlockTxn message =>
      _ ← validate_blocktxn_message message;
      serialize message
  end.

(** The inventory of the three commands that carry one. *)
Definition decode_inventory (n : Network) (p : bytes) : result ProtocolError (list InventoryVector) :=
  inventory ← deserialize p;
  reject max_inv_per_message (network_limits n) <? zlen (A:=InventoryVector) inventory with TooManyInventoryEntries;
  Ok inventory.

(* src: protocol.rs:381-467 NetworkMessage::decode *)
Definition decode (n : Network) (c : MessageCommand) (p : bytes) : result ProtocolError NetworkMessage :=
  p ← match c with
      | CmdVersion => Version <$> deserialize p
      | CmdVerack => _ ← expect_empty p; Ok Verack
      | CmdPing => Ping <$> deserialize p
      | CmdPong => Pong <$> deserialize p
      | CmdGetAddr => _ ← expect_empty p; Ok GetAddr
      | CmdAddr =>
          addresses ← deserialize p;
          reject max_addr_per_message (network_limits n) <? zlen (A:=PeerAddress) addresses with TooManyPeerAddresses;
          Ok (Addr addresses)
      | CmdInv => Inv <$> decode_inventory n p
      | CmdGetData => GetData <$> decode_inventory n p
      | CmdNotFound => NotFound <$> decode_inventory n p
      | CmdGetHeaders =>
          message ← deserialize p;
          reject 32 <? zlen (gh_locator_hashes message) with TooManyLocatorHashes;
          Ok (GetHeaders message)
      | CmdHeaders =>
          headers ← deserialize p;
          reject max_headers_per_message (network_limits n) <? zlen (A:=BlockHeader) headers with TooManyHeaders;
          Ok (Headers headers)
      | CmdBlock => BlockPayload <$> deserialize p
      | CmdTx => Tx <$> deserialize p
      | CmdMemPool => _ ← expect_empty p; Ok MemPool
      | CmdCompactBlock =>
          message ← deserialize p;
          _ ← validate_compact_block_message message;
          Ok (CompactBlock message)
      | CmdGetBlockTxn =>
          message ← deserialize p;
          _ ← validate_getblocktxn_message message;
          Ok (GetBlockTxn message)
      | CmdBlockTxn =>
          message ← deserialize p;
          _ ← validate_blocktxn_message message;
          Ok (BlockTxn message)
      end;
  Ok (new n p).
End codec.
End NetworkMessage.

(** ** Versions *)

(* src: protocol.rs:576-602 validate_version_message *)
Definition validate_version_message `{ProcessEnv, Sha3} (m : VersionMessage) (expected_network : Network) :
    result ProtocolError unit :=
  reject negb (bool_decide (v_network m = expected_network)) with UnsupportedNetwork;
  let params := network_params expected_network in
  reject (v_protocol_version m <? MIN_SUPPORTED_PROTOCOL_VERSION)
         || (v_protocol_version m <? min_supported_protocol_version params) with UnsupportedProtocolVersion;
  reject protocol_version params <? v_min_protocol_version m with UnsupportedProtocolVersion;
  reject max_user_agent_bytes (limits params) <? zlen (v_user_agent m) with UserAgentTooLong;
  reject negb (bool_decide (v_genesis_hash m = genesis_hash expected_network)) with GenesisMismatch;
  reject negb (v_ruleset_version m =? ruleset_version_at_height (v_best_height m)) with RulesetMismatch;
  Ok tt.
