(* ===== verification/CompactBlock.v ===== *)
(** * Compact blocks

    crates/atho-p2p/src/protocol.rs, the part that announces a block by short
    transaction ids and rebuilds it from the pool. The lookup closure is a
    function. *)
From stdpp Require Import options.
From S2P Require Import Prelude Bytes Text Constants Crypto Keccak Network Rules Transaction Block Genesis P2pConfig.
From S2P Require Import Protocol.

(* src: protocol.rs:470-477 CompactBlockReconstruction *)
Inductive CompactBlockReconstruction :=
| Complete (block : Block)
| Missing (block_hash : Hash48) (indexes : list Z).

Section compact.
Context `{Hs : Sha3}.

(* src: protocol.rs:479-486 compact_short_id *)
Definition compact_short_id (transaction_identity : Hash48) : Z :=
  le_decode (take 8 (sha3_256 (str_bytes "ATHO_COMPACT_SHORTID_V1" ++ transaction_identity))).

(* src: protocol.rs:488-513 compact_block_from_block *)
Definition compact_block_from_block (b : Block) : CompactBlockMessage :=
  {| cb_header := header b;
     cb_tx_count := zlen (transactions b);
     cb_short_ids :=
       (fun itx => compact_short_id (Transaction.witness_commitment_hash itx.2))
       <$> filter (fun itx => itx.1 <> 0) (enumerate (transactions b));
     cb_prefilled_transactions :=
       match head (transactions b) with
       | Some tx => [{| pf_index := 0; pf_transaction := tx |}]
       | None => []
       end;
     cb_fees_total_atoms := fees_total_atoms b;
     cb_fees_miner_atoms := fees_miner_atoms b |}.

(** One prefilled transaction. *)
Definition prefill (slots : list (option Transaction)) (p : PrefilledTransaction) :
    result ProtocolError (list (option Transaction)) :=
  match slots !! Z.to_nat (pf_index p) with
  | None | Some (Some _) => Err InvalidCompactBlock
  | Some None => Ok (<[Z.to_nat (pf_index p) := Some (pf_transaction p)]> slots)
  end.

(** The positions that are still empty. *)
Definition empty_slots (slots : list (option Transaction)) : list nat :=
  omap (fun islot => match islot.2 with None => Some (Z.to_nat islot.1) | Some _ => None end) (enumerate slots).

Section reconstruct.
Context (lookup_short_id : Z -> option Transaction) (overrides : gmap Z Transaction).

(** The transaction for a position: sent on request, or found in the pool. *)
Definition candidate_tx (index : nat) (short_id : Z) : option Transaction :=
  match overrides !! Z.of_nat index with
  | Some tx => Some tx
  | None => lookup_short_id short_id
  end.

(** One round of the loop; the state is [slots] and [missing]. *)
Definition fill_slot (st : list (option Transaction) * list Z) (p : nat * Z) : list (option Transaction) * list Z :=
  let '(slots, missing) := st in
  let '(index, short_id) := p in
  match candidate_tx index short_id with
  | Some tx => (<[index := Some tx]> slots, missing)
  | None => (slots, missing ++ [Z.of_nat index])
  end.

(* src: protocol.rs:515-574 reconstruct_compact_block *)
Definition reconstruct_compact_block (m : CompactBlockMessage) : result ProtocolError CompactBlockReconstruction :=
  _ ← validate_compact_block_message m;
  slots ← try_fold prefill (replicate (Z.to_nat (cb_tx_count m)) None) (cb_prefilled_transactions m);
  let non_prefilled_indexes := empty_slots slots in
  reject negb (zlen non_prefilled_indexes =? zlen (cb_short_ids m)) with InvalidCompactBlock;
  let '(slots, missing) := foldl fill_slot (slots, []) (zip non_prefilled_indexes (cb_short_ids m)) in
  if bool_decide (missing = []) then
    transactions ← ok_or (mapM id slots) InvalidCompactBlock;
    Ok (Complete
      {| header := cb_header m; transactions := transactions; witnesses := ∅;
         fees_total_atoms := cb_fees_total_atoms m; fees_miner_atoms := cb_fees_miner_atoms m |})
  else Ok (Missing (BlockHeader.block_hash (cb_header m)) missing).
End reconstruct.
End compact.

(** ** The slots *)

Lemma empty_slots_app slots x :
  empty_slots (slots ++ [x]) = empty_slots slots ++ (match x with Some _ => [] | None => [length slots] end).
Proof.
  unfold empty_slots, enumerate. rewrite imap_app, omap_app. f_equal.
  destruct x; cbn; [done|]. by rewrite Nat.add_0_r, Nat2Z.id.
Qed.
Lemma empty_slots_replicate slots n :
  empty_slots (slots ++ replicate n None) = empty_slots slots ++ seq (length slots) n.
Proof.
  induction n as [|n IH]; [by rewrite !app_nil_r|].
  rewrite replicate_S_end, app_assoc, empty_slots_app, IH, length_app, length_replicate.
  by rewrite seq_S, app_assoc.
Qed.
Lemma elem_of_empty_slots slots i : i ∈ empty_slots slots <-> slots !! i = Some None.
Proof.
  unfold empty_slots. rewrite list_elem_of_omap. split.
  - intros ([k x] & (j & -> & Hj)%enumerate_elem & Hx). destruct x; [done|]. injection Hx as <-.
    cbn. by rewrite Nat2Z.id.
  - intros Hi. exists (Z.of_nat i, None). split; [apply enumerate_elem; eauto|]. cbn. by rewrite Nat2Z.id.
Qed.
Lemma empty_slots_sorted slots : StronglySorted lt (empty_slots slots).
Proof.
  induction slots as [|x slots IH] using rev_ind; [constructor|].
  rewrite empty_slots_app. destruct x; [by rewrite app_nil_r|].
  apply StronglySorted_app_2; [|done|repeat constructor].
  intros i j Hi ->%list_elem_of_singleton. apply elem_of_empty_slots in Hi. by apply lookup_lt_Some in Hi.
Qed.
Lemma empty_slots_NoDup slots : NoDup (empty_slots slots).
Proof.
  pose proof (empty_slots_sorted slots) as Hs. induction Hs as [|i l Hs IH Hall]; constructor; [|done].
  intros Hin. rewrite Forall_forall in Hall. apply Hall in Hin. lia.
Qed.

Section loops.
Context (lookup_short_id : Z -> option Transaction) (overrides : gmap Z Transaction).
Notation candidate_tx := (candidate_tx lookup_short_id overrides).
Notation fill_slot := (fill_slot lookup_short_id overrides).

(** The positions nothing is known for. *)
Definition unknown (ps : list (nat * Z)) : list Z :=
  Z.of_nat ∘ fst <$> filter (fun p => candidate_tx p.1 p.2 = None) ps.

Lemma fill_slots ps slots missing :
  NoDup ps.*1 ->
  exists slots', foldl fill_slot (slots, missing) ps = (slots', missing ++ unknown ps)
    /\ length slots' = length slots
    /\ (forall i, i ∉ ps.*1 -> slots' !! i = slots !! i)
    /\ (forall i id tx, (i, id) ∈ ps -> i < length slots -> candidate_tx i id = Some tx -> slots' !! i = Some (Some tx))%nat.
Proof.
  revert slots missing. induction ps as [|[i id] ps IH]; intros slots missing Hnd.
  { exists slots. cbn. rewrite app_nil_r. split_and!; try done. by intros ??? ?%elem_of_nil. }
  cbn [fmap list_fmap fst] in Hnd. apply NoDup_cons in Hnd as [Hi Hnd]. cbn [foldl].
  unfold unknown. rewrite filter_cons. cbn [fst snd]. unfold fill_slot at 2.
  destruct (candidate_tx i id) as [tx|] eqn:Ec.
  - rewrite decide_False by done.
    destruct (IH (<[i := Some tx]> slots) missing Hnd) as (slots' & -> & Hlen & Hout & Hin).
    rewrite length_insert in *. exists slots'. split_and!; [done|done| |].
    + intros j [Hne Hj]%not_elem_of_cons. rewrite Hout by done. by rewrite list_lookup_insert_ne.
    + intros j idj txj [[= -> ->]|Hj]%elem_of_cons Hlt Hc; [|by apply (Hin j idj)].
      rewrite Hout by done. rewrite list_lookup_insert_eq by done. congruence.
  - rewrite decide_True by done.
    destruct (IH slots (missing ++ [Z.of_nat i]) Hnd) as (slots' & -> & Hlen & Hout & Hin).
    exists slots'. split_and!; [cbn; by rewrite <- app_assoc|done| |].
    + intros j [Hne Hj]%not_elem_of_cons. by apply Hout.
    + intros j idj txj [[= -> ->]|Hj]%elem_of_cons Hlt Hc; [congruence|by apply (Hin j idj)].
Qed.

Lemma unknown_nil ps :
  unknown ps = [] -> forall i id, (i, id) ∈ ps -> is_Some (candidate_tx i id).
Proof.
  intros Hu%fmap_nil_inv i id Hin. destruct (candidate_tx i id) eqn:E; [by eexists|].
  exfalso. apply (elem_of_nil (i, id)). rewrite <- Hu. by apply list_elem_of_filter.
Qed.
End loops.

Definition prefilled_indexes (m : CompactBlockMessage) : list nat :=
  Z.to_nat ∘ pf_index <$> cb_prefilled_transactions m.

Lemma prefill_slots ps slots slots' :
  try_fold prefill slots ps = Ok slots' ->
  length slots' = length slots
  /\ (forall i tx, slots !! i = Some (Some tx) -> slots' !! i = Some (Some tx))
  /\ (forall p, p ∈ ps -> slots' !! Z.to_nat (pf_index p) = Some (Some (pf_transaction p)))
  /\ (forall i, slots' !! i = Some None <-> slots !! i = Some None /\ i ∉ Z.to_nat ∘ pf_index <$> ps).
Proof.
  revert slots. induction ps as [|p ps IH]; intros slots Hrun.
  { injection Hrun as <-. split; [done|]. split; [done|]. split; [by intros ? ?%elem_of_nil|].
    intros i. split; [|by intros [? _]]. intros ?. split; [done|]. apply not_elem_of_nil. }
  apply bind_Ok in Hrun as (slots1 & Hp & Hrun). unfold prefill in Hp.
  destruct (slots !! Z.to_nat (pf_index p)) as [[tx|]|] eqn:Ep; [done| |done]. injection Hp as <-.
  apply IH in Hrun as (Hlen & Hkeep & Hin & Hnone). rewrite length_insert in Hlen.
  apply lookup_lt_Some in Ep as Hlt.
  assert (forall i tx, slots !! i = Some (Some tx) -> Z.to_nat (pf_index p) <> i) as Hne by congruence.
  split_and!; [done| | |].
  - intros i tx Hi. apply Hkeep. rewrite list_lookup_insert_ne; eauto.
  - intros q [->|Hq]%elem_of_cons; [|by apply Hin]. apply Hkeep. by rewrite list_lookup_insert_eq.
  - intros i. rewrite Hnone. rewrite fmap_cons, not_elem_of_cons. cbn [compose].
    destruct (decide (i = Z.to_nat (pf_index p))) as [->|Hi].
    + rewrite list_lookup_insert_eq by done. split; [by intros [? _]|by intros [_ [? _]]].
    + rewrite list_lookup_insert_ne by done. tauto.
Qed.

(** ** A received announcement *)

Section received.
Context `{Hs : Sha3} (lookup_short_id : Z -> option Transaction) (overrides : gmap Z Transaction).

Lemma mapM_id_Some {A} (l : list (option A)) k : mapM id l = Some k <-> l = Some <$> k.
Proof.
  revert k. induction l as [|o l IH]; intros k.
  { cbn. split; [by intros [= <-]|by intros ->%symmetry%fmap_nil_inv]. }
  cbn. split.
  - intros (a & Ha & (k' & Hk' & [= <-])%bind_Some)%bind_Some. cbn in Ha. subst o. cbn. f_equal. by apply IH.
  - intros H. destruct k as [|a k]; [done|]. injection H as -> Hl. cbn. by rewrite (proj2 (IH k) Hl).
Qed.

(** What a completed reconstruction of any received announcement consists of: as many transactions as
    announced, the prefilled ones in their places, and in the other places, in
    order, what the peer sent or the pool has for the short ids. *)
Theorem reconstructed_parts (m : CompactBlockMessage) (b : Block) :
  reconstruct_compact_block lookup_short_id overrides m = Ok (Complete b) ->
  header b = cb_header m /\ zlen (transactions b) = cb_tx_count m
  /\ fees_total_atoms b = cb_fees_total_atoms m /\ fees_miner_atoms b = cb_fees_miner_atoms m
  /\ (forall p, p ∈ cb_prefilled_transactions m ->
       transactions b !! Z.to_nat (pf_index p) = Some (pf_transaction p))
  /\ exists positions,
       length positions = length (cb_short_ids m) /\ StronglySorted lt positions
       /\ (forall i, i ∈ positions <-> i < length (transactions b) /\ i ∉ prefilled_indexes m)%nat
       /\ forall i id, (i, id) ∈ zip positions (cb_short_ids m) ->
            exists tx, candidate_tx lookup_short_id overrides i id = Some tx /\ transactions b !! i = Some tx.
Proof.
  unfold reconstruct_compact_block. intros Hrun. apply bind_Ok in Hrun as ([] & Hvalid & Hrun).
  apply bind_Ok in Hrun as (slots & Hpre & Hrun). cbn beta in Hrun.
  apply prefill_slots in Hpre as (Hlen & _ & Hpre & Hnone). rewrite length_replicate in Hlen.
  destruct (negb _) eqn:Hcount in Hrun; [done|]. apply negb_false_iff, Z.eqb_eq in Hcount. unfold zlen in Hcount.
  assert (length (empty_slots slots) = length (cb_short_ids m)) as Hids by lia.
  destruct (fill_slots lookup_short_id overrides (zip (empty_slots slots) (cb_short_ids m)) slots [])
    as (slots' & Hfill & Hlen' & Hout & Hin); [rewrite fst_zip by lia; apply empty_slots_NoDup|].
  rewrite Hfill in Hrun. cbn [app] in Hrun. destruct (bool_decide _) eqn:Hu in Hrun; [apply bool_decide_eq_true in Hu|done].
  apply bind_Ok in Hrun as (txs & Htxs%ok_or_Ok%mapM_id_Some & [= <-]). cbn [header transactions fees_total_atoms fees_miner_atoms].
  assert (length txs = length slots') as Hl by (rewrite Htxs; by rewrite length_fmap).
  assert (forall i tx, slots' !! i = Some (Some tx) -> txs !! i = Some tx) as Hget.
  { intros i tx Hi. rewrite Htxs, list_lookup_fmap in Hi. destruct (txs !! i); naive_solver. }
  assert (forall i, slots !! i = Some None <-> i < length txs /\ i ∉ prefilled_indexes m)%nat as Hempty.
  { intros i. rewrite Hnone, Hl, Hlen', Hlen, lookup_replicate. unfold prefilled_indexes. tauto. }
  rewrite fst_zip in Hout by lia.
  assert (0 <= cb_tx_count m) as H0.
  { unfold validate_compact_block_message in Hvalid. destruct (_ || _); [done|].
    destruct (_ || _) eqn:E; [done|]. bool_to_prop. unfold zlen in *. lia. }
  split_and!; [done|unfold zlen; lia|done|done| |].
  - intros p Hp. apply Hget. rewrite Hout; [by apply Hpre|].
    rewrite elem_of_empty_slots. by rewrite (Hpre p Hp).
  - exists (empty_slots slots). split_and!; [done|apply empty_slots_sorted| |].
    + intros i. by rewrite elem_of_empty_slots.
    + intros i id Hi. destruct (unknown_nil _ _ _ Hu _ _ Hi) as [tx Htx]. exists tx. split; [done|].
      apply Hget, (Hin i id tx); [done| |done].
      apply list_elem_of_fmap_2 with (f:=fst) in Hi. rewrite fst_zip in Hi by lia.
      apply elem_of_empty_slots, lookup_lt_Some in Hi. done.
Qed.
End received.

(** ** An honest announcement *)

Section honest.
Context `{Hs : Sha3}.

(** The pool answers the short ids of the block's transactions, after the
    coinbase, with these transactions. *)
Definition pool_agrees (b : Block) (lookup_short_id : Z -> option Transaction) : Prop :=
  forall i tx tx', (1 <= i)%nat -> transactions b !! i = Some tx ->
  lookup_short_id (compact_short_id (Transaction.witness_commitment_hash tx)) = Some tx' -> tx' = tx.
(** What was sent for a position is the transaction there. *)
Definition sent_agrees (b : Block) (overrides : gmap Z Transaction) : Prop :=
  forall i tx tx', (1 <= i)%nat -> transactions b !! i = Some tx -> overrides !! Z.of_nat i = Some tx' -> tx' = tx.

(** The positions after the coinbase that neither knows. *)
Definition positions_without (b : Block) (lookup_short_id : Z -> option Transaction)
    (overrides : gmap Z Transaction) : list Z :=
  fst <$> filter (fun itx => itx.1 <> 0 /\ overrides !! itx.1 = None
                             /\ lookup_short_id (compact_short_id (Transaction.witness_commitment_hash itx.2)) = None)
    (enumerate (transactions b)).

(** The block as it is rebuilt: witness bundles travel inside the transactions. *)
Definition rebuilt (b : Block) : Block :=
  {| header := header b; transactions := transactions b; witnesses := ∅;
     fees_total_atoms := fees_total_atoms b; fees_miner_atoms := fees_miner_atoms b |}.

Lemma enumerate_tail {A} (x : A) l :
  filter (fun ia => ia.1 <> 0) (enumerate (x :: l)) = imap (fun i a => (Z.of_nat (S i), a)) l.
Proof.
  unfold enumerate. cbn [imap]. rewrite filter_cons, decide_False by (cbn; tauto).
  change (imap _ l) with (imap (fun i a => (Z.of_nat (S i), a)) l) at 1.
  assert (Forall (fun ia => ia.1 <> 0) (imap (fun i a => (Z.of_nat (S i), a)) l)) as Hall.
  { rewrite Forall_lookup. intros i [k a] Hi. rewrite list_lookup_imap in Hi.
    destruct (l !! i); [|done]. injection Hi as <- _. cbn. lia. }
  induction Hall as [|ia l' Hia Hl IH]; [done|].
  rewrite filter_cons. destruct (decide _) as [|Hn]; [by rewrite IH|by destruct Hn].
Qed.

Lemma announced_pairs tx0 rest b :
  transactions b = tx0 :: rest ->
  zip (seq 1 (length rest)) (cb_short_ids (compact_block_from_block b))
  = (fun itx => (Z.to_nat itx.1, compact_short_id (Transaction.witness_commitment_hash itx.2)))
      <$> filter (fun itx => itx.1 <> 0) (enumerate (transactions b)).
Proof.
  intros Htxs. cbn [cb_short_ids compact_block_from_block]. rewrite Htxs, enumerate_tail.
  apply list_eq. intros k. rewrite lookup_zip_with, !list_lookup_fmap, !list_lookup_imap.
  destruct (rest !! k) as [tx|] eqn:E; cbn.
  - apply lookup_lt_Some in E. rewrite lookup_seq_lt by done. cbn. f_equal. f_equal. lia.
  - by destruct (seq 1 _ !! k).
Qed.

Section rebuild.
Context (b : Block) (lookup_short_id : Z -> option Transaction) (overrides : gmap Z Transaction).
Notation pairs := (filter (fun itx => itx.1 <> 0) (enumerate (transactions b))).
Notation slot_of := (fun itx => (Z.to_nat itx.1, compact_short_id (Transaction.witness_commitment_hash itx.2))).

Lemma unknown_positions :
  unknown lookup_short_id overrides (slot_of <$> pairs) = positions_without b lookup_short_id overrides.
Proof.
  assert (Forall (fun itx => 0 <= itx.1) (enumerate (transactions b))) as Hpos.
  { rewrite Forall_forall. intros [k tx] (j & -> & _)%enumerate_elem. cbn. lia. }
  unfold positions_without. induction Hpos as [|[k tx] l Hk Hl IH]; [done|]. rewrite !filter_cons. cbn [fst snd].
  destruct (decide (k <> 0)) as [Hk0|Hk0]; [|rewrite decide_False by tauto; apply IH].
  rewrite fmap_cons. unfold unknown in *. rewrite filter_cons. cbn [fst snd].
  assert (candidate_tx lookup_short_id overrides (Z.to_nat k)
            (compact_short_id (Transaction.witness_commitment_hash tx)) = None
    <-> k <> 0 /\ overrides !! k = None
        /\ lookup_short_id (compact_short_id (Transaction.witness_commitment_hash tx)) = None) as Hiff.
  { unfold candidate_tx. cbn in Hk. rewrite (Z2Nat.id k) by done. destruct (overrides !! k); naive_solver. }
  destruct (decide (candidate_tx _ _ _ _ = None)) as [Hd|Hd], (decide (k <> 0 /\ _)) as [Hd'|Hd']; [|tauto..|apply IH].
  rewrite !fmap_cons. f_equal; [cbn in *; lia|apply IH].
Qed.

Lemma pairs_lookup i tx :
  (Z.of_nat i, tx) ∈ pairs <-> (1 <= i)%nat /\ transactions b !! i = Some tx.
Proof.
  rewrite list_elem_of_filter, enumerate_elem. cbn. split.
  - intros [Hi (k & Hk%Nat2Z.inj & Htx)]. subst k. split; [lia|done].
  - intros [Hi Htx]. split; [lia|by eauto].
Qed.
Lemma pairs_indexes tx0 rest :
  transactions b = tx0 :: rest -> (slot_of <$> pairs).*1 = seq 1 (length rest).
Proof.
  intros Htxs. rewrite <- (announced_pairs tx0 rest b Htxs). apply fst_zip. rewrite length_seq.
  cbn [cb_short_ids compact_block_from_block]. rewrite Htxs, enumerate_tail, length_fmap, length_imap. done.
Qed.

Lemma announced_lengths tx0 rest :
  transactions b = tx0 :: rest ->
  zlen (transactions b) <= max_block_transaction_count ->
  validate_compact_block_message (compact_block_from_block b) = Ok tt
  /\ zlen (cb_short_ids (compact_block_from_block b)) = zlen rest.
Proof.
  intros Htxs Hmax.
  assert (zlen (cb_short_ids (compact_block_from_block b)) = zlen rest) as Hids.
  { unfold zlen. cbn [cb_short_ids compact_block_from_block].
    rewrite Htxs, enumerate_tail, length_fmap, length_imap. done. }
  split; [|done]. unfold validate_compact_block_message. rewrite Hids.
  cbn [cb_tx_count cb_prefilled_transactions compact_block_from_block]. rewrite Htxs in *.
  assert (0 <= zlen rest) by (unfold zlen; lia).
  assert (zlen (tx0 :: rest) = 1 + zlen rest) as Hlen by (unfold zlen; cbn; lia). rewrite Hlen in *. cbn [head].
  change (zlen [{| pf_index := 0; pf_transaction := tx0 |}]) with 1.
  rewrite (proj2 (Z.eqb_neq _ _)) by lia. rewrite (proj2 (Z.ltb_ge max_block_transaction_count _)) by lia. cbn [orb].
  rewrite (proj2 (Z.ltb_ge _ 1)) by lia. rewrite (proj2 (Z.ltb_ge _ (zlen rest))) by lia. cbn [orb].
  by rewrite Z.eqb_refl.
Qed.

(** The loop on an honest announcement: the slots of the known transactions are filled. *)
Lemma honest_reconstruction :
  1 <= zlen (transactions b) <= max_block_transaction_count ->
  pool_agrees b lookup_short_id -> sent_agrees b overrides ->
  let missing := positions_without b lookup_short_id overrides in
  reconstruct_compact_block lookup_short_id overrides (compact_block_from_block b)
  = Ok (if bool_decide (missing = []) then Complete (rebuilt b)
        else Missing (BlockHeader.block_hash (header b)) missing).
Proof.
  intros [Hne Hmax] Hpool Hsent missing.
  destruct (transactions b) as [|tx0 rest] eqn:Htxs; [by destruct Hne|]. rewrite <- Htxs in Hmax.
  destruct (announced_lengths tx0 rest Htxs Hmax) as [Hvalid Hids].
  unfold reconstruct_compact_block. rewrite Hvalid. cbn [mbind result_bind].
  assert (try_fold prefill (replicate (Z.to_nat (cb_tx_count (compact_block_from_block b))) None)
            (cb_prefilled_transactions (compact_block_from_block b))
          = Ok ([Some tx0] ++ replicate (length rest) None)) as Hpre.
  { cbn [cb_tx_count cb_prefilled_transactions compact_block_from_block]. rewrite Htxs.
    replace (Z.to_nat (zlen (tx0 :: rest))) with (S (length rest)) by (unfold zlen; cbn; lia). done. }
  rewrite Hpre. cbn [mbind result_bind]. rewrite empty_slots_replicate.
  change (empty_slots [Some tx0] ++ seq (length [Some tx0]) (length rest)) with (seq 1 (length rest)).
  rewrite Hids. unfold zlen at 1 2. rewrite length_seq, Z.eqb_refl. cbn [negb].
  rewrite (announced_pairs tx0 rest b Htxs).
  destruct (fill_slots lookup_short_id overrides (slot_of <$> pairs) ([Some tx0] ++ replicate (length rest) None) [])
    as (slots & Hfill & Hlen & Hout & Hin); [rewrite (pairs_indexes tx0 rest Htxs); apply NoDup_seq|].
  rewrite Hfill, unknown_positions. cbn [app]. fold missing.
  case_bool_decide as Hm; [|done].
  assert (slots = Some <$> transactions b) as ->; [|by rewrite (proj2 (mapM_id_Some _ _) eq_refl)].
  apply list_eq. intros [|i].
  { rewrite Hout, Htxs; [done|]. rewrite (pairs_indexes tx0 rest Htxs), elem_of_seq. lia. }
  rewrite list_lookup_fmap. destruct (transactions b !! S i) as [tx|] eqn:Ei.
  2: { apply lookup_ge_None in Ei. rewrite (proj2 (lookup_ge_None _ _)); [done|].
       rewrite Hlen, length_app, length_replicate. rewrite Htxs in Ei. cbn in *. lia. }
  assert ((S i, compact_short_id (Transaction.witness_commitment_hash tx)) ∈ (slot_of <$> pairs)) as Hslot.
  { apply list_elem_of_fmap. exists (Z.of_nat (S i), tx). cbn [fst snd]. rewrite Nat2Z.id. split; [done|].
    apply pairs_lookup. split; [lia|done]. }
  destruct (unknown_nil lookup_short_id overrides (slot_of <$> pairs)) with (i := S i)
    (id := compact_short_id (Transaction.witness_commitment_hash tx)) as [tx' Htx']; [by rewrite unknown_positions|done|].
  rewrite (Hin _ _ tx' Hslot); [cbn; do 2 f_equal| |exact Htx'].
  - unfold candidate_tx in Htx'. destruct (overrides !! Z.of_nat (S i)) as [o|] eqn:Eo.
    + injection Htx' as <-. apply (Hsent (S i) tx o); [lia|done|done].
    + apply (Hpool (S i) tx tx'); [lia|done|done].
  - apply lookup_lt_Some in Ei. rewrite length_app, length_replicate. rewrite Htxs in Ei. cbn in *. lia.
Qed.
End rebuild.

Lemma elem_of_positions_without b lookup_short_id overrides i :
  i ∈ positions_without b lookup_short_id overrides <->
  i <> 0 /\ overrides !! i = None
  /\ exists tx, (i, tx) ∈ enumerate (transactions b)
     /\ lookup_short_id (compact_short_id (Transaction.witness_commitment_hash tx)) = None.
Proof.
  unfold positions_without. rewrite list_elem_of_fmap. split.
  - intros ([j tx] & -> & Hin). apply list_elem_of_filter in Hin as [(? & ? & ?) ?]. by eauto 6.
  - intros (? & ? & tx & ? & ?). exists (i, tx). split; [done|]. by apply list_elem_of_filter.
Qed.

(** C26: A block announced by its short ids is rebuilt exactly, or the answer
    names exactly the positions for which neither the pool nor an earlier answer
    has the transaction; once these are sent, the block is complete. This for
    every pool and every answer that hold no other transaction in the place of
    one of the block. *)
Theorem compact_block_reconstructs (b : Block) (lookup_short_id : Z -> option Transaction)
    (overrides : gmap Z Transaction) :
  1 <= zlen (transactions b) <= max_block_transaction_count ->
  pool_agrees b lookup_short_id -> sent_agrees b overrides ->
  let missing := positions_without b lookup_short_id overrides in
  reconstruct_compact_block lookup_short_id overrides (compact_block_from_block b)
    = Ok (if bool_decide (missing = []) then Complete (rebuilt b)
          else Missing (BlockHeader.block_hash (header b)) missing)
  /\ forall answered, sent_agrees b answered -> overrides ⊆ answered ->
       (forall i, i ∈ missing -> is_Some (answered !! i)) ->
       reconstruct_compact_block lookup_short_id answered (compact_block_from_block b) = Ok (Complete (rebuilt b)).
Proof.
  intros Hn Hpool Hsent missing. split; [by apply honest_reconstruction|].
  intros answered Hansw Hsub Hall. rewrite honest_reconstruction by done.
  destruct (positions_without b lookup_short_id answered) as [|i l] eqn:E; [done|]. exfalso.
  assert (i ∈ i :: l) as Hi by by left.
  rewrite <- E in Hi. apply elem_of_positions_without in Hi as (Hi0 & Hnone & Htx).
  destruct (Hall i) as [tx Hsome]; [|congruence].
  apply elem_of_positions_without. split; [done|]. split; [by eapply lookup_weaken_None|done].
Qed.
End honest.

(** ** Witnesses *)

Definition announced_block : Block :=
  Block.new (H:=Keccak.sha3_inst) sample_header [sample_tx [] 0; sample_tx [] 5; sample_tx [] 6].
(** A pool with the second transaction only. *)
Definition announced_pool (id : Z) : option Transaction :=
  if id =? compact_short_id (Hs:=Keccak.sha3_inst) (Transaction.witness_commitment_hash (H:=Keccak.sha3_inst) (sample_tx [] 5))
  then Some (sample_tx [] 5) else None.

Lemma announced_pool_agrees : pool_agrees (Hs:=Keccak.sha3_inst) announced_block announced_pool.
Proof.
  intros i tx tx' Hi Htx Hp. destruct i as [|[|[|i]]]; [lia| | |done].
  - injection Htx as <-. unfold announced_pool in Hp. rewrite Z.eqb_refl in Hp. by injection Hp.
  - injection Htx as <-. assert (announced_pool (compact_short_id (Hs:=Keccak.sha3_inst)
      (Transaction.witness_commitment_hash (H:=Keccak.sha3_inst) (sample_tx [] 6))) = None) as E by by vm_compute.
    rewrite E in Hp. discriminate Hp.
Qed.

Lemma compact_block_reconstructs_witness :
  positions_without (Hs:=Keccak.sha3_inst) announced_block announced_pool ∅ = [2]
  /\ reconstruct_compact_block (Hs:=Keccak.sha3_inst) announced_pool {[2 := sample_tx [] 6]}
       (compact_block_from_block (Hs:=Keccak.sha3_inst) announced_block) = Ok (Complete announced_block).
Proof.
  split; [by vm_compute|].
  apply (compact_block_reconstructs (Hs:=Keccak.sha3_inst) announced_block announced_pool ∅).
  - by vm_compute.
  - apply announced_pool_agrees.
  - intros i tx tx' _ _ H. rewrite lookup_empty in H. discriminate H.
  - intros i tx tx' Hi Htx H. apply lookup_singleton_Some in H as [H2 <-].
    assert (i = 2)%nat as -> by lia. injection Htx as <-. done.
  - apply map_empty_subseteq.
  - assert (positions_without (Hs:=Keccak.sha3_inst) announced_block announced_pool ∅ = [2]) as -> by by vm_compute.
    intros i ->%list_elem_of_singleton. rewrite lookup_singleton_eq. by eexists.
Defined.

Lemma reconstructed_parts_witness :
  transactions announced_block !! 2%nat = Some (sample_tx [] 6)
  /\ zlen (transactions announced_block) = 3.
Proof.
  assert (reconstruct_compact_block (Hs:=Keccak.sha3_inst) announced_pool {[2 := sample_tx [] 6]}
       (compact_block_from_block (Hs:=Keccak.sha3_inst) announced_block) = Ok (Complete announced_block)) as H
    by by vm_compute.
  split; [by vm_compute|].
  apply (proj1 (proj2 (reconstructed_parts (Hs:=Keccak.sha3_inst) _ _ _ _ H))).
Defined.
