(* ===== verification/WireCodec.v ===== *)
(** * Wire frames

    crates/atho-p2p/src/codec.rs: network magic, command, length and checksum
    around a payload. A frame decodes to the message it was built from, and every
    frame that decodes has the magic of a network, its own length and the checksum
    of its payload. *)
From stdpp Require Import options.
From S2P Require Import Prelude Bytes Text Constants Crypto Network Rules Transaction Block P2pConfig.
From S2P Require Import Keccak Protocol.

#[local] Set Default Proof Using "Type*".

(* src: codec.rs:14-14 FRAME_HEADER_BYTES *)
Definition FRAME_HEADER_BYTES : Z := 24.

(* src: codec.rs:16-30 CodecError *)
Inductive CodecError :=
| MessageTooShort
| InvalidMagic
| ChecksumMismatch
| FramePayloadTooLarge
| TrailingBytes
| ProtocolFault (e : ProtocolError).

(* src: codec.rs:101-104 payload_checksum *)
Definition payload_checksum `{Sha3} (payload : bytes) : bytes := take 4 (sha3_256 payload).

Module WireCodec.
Section codec.
Context `{Henv : ProcessEnv, Hs : Sha3, Hb : Bincode}.

(* src: codec.rs:56-71 WireCodec::encode *)
Definition encode (m : NetworkMessage) : result CodecError bytes :=
  let params := network_params (nm_network m) in
  payload ← map_err ProtocolFault (NetworkMessage.encode_payload m);
  payload_len ← ok_or (if zlen payload <=? U32_MAX then Some (zlen payload) else None) FramePayloadTooLarge;
  reject max_message_size (limits params) <? payload_len with FramePayloadTooLarge;
  Ok (magic params
      ++ MessageCommand.as_padded_bytes (NetworkMessage.command m)
      ++ le_bytes 4 payload_len
      ++ payload_checksum payload
      ++ payload).

(* src: codec.rs:73-98 WireCodec::decode *)
Definition decode (bs : bytes) : result CodecError NetworkMessage :=
  reject zlen bs <? FRAME_HEADER_BYTES with MessageTooShort;
  network ← ok_or (network_from_magic (take 4 bs)) InvalidMagic;
  command ← map_err ProtocolFault (MessageCommand.from_bytes (take 12 (drop 4 bs)));
  let payload_len := le_decode (take 4 (drop 16 bs)) in
  reject max_message_size (network_limits network) <? payload_len with FramePayloadTooLarge;
  let frame_len := FRAME_HEADER_BYTES + payload_len in
  reject zlen bs <? frame_len with MessageTooShort;
  reject negb (zlen bs =? frame_len) with TrailingBytes;
  let expected_checksum := take 4 (drop 20 bs) in
  let payload := drop 24 bs in
  reject negb (bool_decide (payload_checksum payload = expected_checksum)) with ChecksumMismatch;
  map_err ProtocolFault (NetworkMessage.decode network command payload).
End codec.
End WireCodec.

(** ** Commands *)

Lemma command_names_fit c :
  (length (MessageCommand.as_str c) < 12)%nat /\ x00 ∉ MessageCommand.as_str c.
Proof. split; [destruct c; vm_compute; lia|]. destruct c; apply (bool_decide_unpack _); by vm_compute. Qed.
Lemma padded_length c : length (MessageCommand.as_padded_bytes c) = 12%nat.
Proof. by destruct c. Qed.
(** Every command is read back from its padded name, and nothing else is read as it. *)
Lemma command_round_trip c : MessageCommand.from_bytes (MessageCommand.as_padded_bytes c) = Ok c.
Proof. by destruct c; vm_compute. Qed.
Lemma from_bytes_Ok raw c :
  MessageCommand.from_bytes raw = Ok c ->
  MessageCommand.as_str c = take (default (length raw) (position (fun b => bool_decide (b = x00)) raw)) raw.
Proof.
  unfold MessageCommand.from_bytes. intros H%ok_or_Ok%List.find_some.
  destruct H as [_ H]. by apply bool_decide_eq_true in H.
Qed.

(** ** Payloads *)

Section payloads.
Context `{Henv : ProcessEnv, Hb : Bincode, Hl : !BincodeLaws}.

Lemma serialize_Ok {A} `{Serde A, !SerdeLaws A} (a : A) bs : serialize a = Ok bs -> deserialize bs = Ok a.
Proof. unfold serialize, deserialize. intros Hser%ok_or_Ok. by rewrite (serde_round_trip a bs Hser). Qed.

Lemma payload_round_trip m bs :
  NetworkMessage.encode_payload m = Ok bs ->
  NetworkMessage.decode (nm_network m) (NetworkMessage.command m) bs = Ok m.
Proof.
  destruct m as [n p]. unfold NetworkMessage.encode_payload, NetworkMessage.decode, NetworkMessage.command.
  cbn [nm_network payload]. intros Hrun.
  destruct p; cbn [MessagePayload.command] in *; inv_ok;
    try match goal with Hc : (_ <? _) = false |- _ => rename Hc into Hlimit end;
    try match goal with Hv : _ = Ok tt |- _ => rename Hv into Hvalid end;
    unfold NetworkMessage.decode_inventory;
    try match goal with Hser : serialize _ = Ok _ |- _ => apply serialize_Ok in Hser; rewrite Hser end;
    cbn [mbind result_bind fmap result_fmap];
    try (rewrite Hlimit; cbn [mbind result_bind fmap result_fmap]);
    try (rewrite Hvalid; cbn [mbind result_bind fmap result_fmap]);
    done.
Qed.
End payloads.

(** ** Frames *)

Section frames.
Context `{Henv : ProcessEnv, Hs : Sha3, Hb : Bincode}.

Lemma checksum_length `{!Sha3Laws Hs} p : length (payload_checksum p) = 4%nat.
Proof. unfold payload_checksum. rewrite length_take, sha3_256_length. done. Qed.


Definition frame (n : Network) (name checksum payload : bytes) : bytes :=
  Network.p2p_magic n ++ name ++ le_bytes 4 (zlen payload) ++ checksum ++ payload.

Lemma frame_parts n name checksum payload :
  length name = 12%nat -> length checksum = 4%nat ->
  take 4 (frame n name checksum payload) = Network.p2p_magic n
  /\ take 12 (drop 4 (frame n name checksum payload)) = name
  /\ take 4 (drop 16 (frame n name checksum payload)) = le_bytes 4 (zlen payload)
  /\ take 4 (drop 20 (frame n name checksum payload)) = checksum
  /\ drop 24 (frame n name checksum payload) = payload.
Proof.
  intros Hname Hck.
  assert (drop 16 (frame n name checksum payload) = le_bytes 4 (zlen payload) ++ checksum ++ payload) as H16.
  { unfold frame. rewrite app_assoc. apply drop_app_length'. by rewrite length_app, magic_length, Hname. }
  assert (drop 20 (frame n name checksum payload) = checksum ++ payload) as H20.
  { replace 20%nat with (16 + 4)%nat by done. rewrite <- drop_drop, H16. apply drop_app_length'. by rewrite le_bytes_length. }
  assert (drop 24 (frame n name checksum payload) = payload) as ->.
  { replace 24%nat with (20 + 4)%nat by done. rewrite <- drop_drop, H20. by apply drop_app_length'. }
  rewrite H16, H20. unfold frame. rewrite (take_app_length' (Network.p2p_magic n)) by by rewrite magic_length.
  rewrite (drop_app_length' (Network.p2p_magic n)) by by rewrite magic_length.
  rewrite (take_app_length' name) by done.
  rewrite (take_app_length' (le_bytes 4 _)) by by rewrite le_bytes_length.
  by rewrite (take_app_length' checksum) by done.
Qed.
(** The largest payload fits the length field. *)
Lemma message_limit n : max_message_size (network_limits n) <= U32_MAX.
Proof. unfold network_limits, network_params, runtime_limits. cbn [limits]. by case_match. Qed.

(** The decoder reads the parts of a frame where they are. *)
Lemma decode_frame n name checksum payload :
  length name = 12%nat -> length checksum = 4%nat -> zlen payload <= U32_MAX ->
  WireCodec.decode (frame n name checksum payload) =
    (command ← map_err ProtocolFault (MessageCommand.from_bytes name);
     reject max_message_size (network_limits n) <? zlen payload with FramePayloadTooLarge;
     reject negb (bool_decide (payload_checksum payload = checksum)) with ChecksumMismatch;
     map_err ProtocolFault (NetworkMessage.decode n command payload)).
Proof.
  intros Hname Hck Hmax. unfold WireCodec.decode.
  assert (zlen (frame n name checksum payload) = FRAME_HEADER_BYTES + zlen payload) as Hlen.
  { unfold frame, zlen, FRAME_HEADER_BYTES. rewrite !length_app, magic_length, le_bytes_length, Hname, Hck. lia. }
  assert (0 <= zlen payload) by (unfold zlen; lia).
  rewrite Hlen. rewrite (proj2 (Z.ltb_ge _ FRAME_HEADER_BYTES)) by lia.
  destruct (frame_parts n name checksum payload Hname Hck) as (-> & -> & -> & -> & ->).
  rewrite le_decode_le_bytes_id by (unfold uint, U32_MAX in *; lia).
  unfold network_from_magic. rewrite (proj2 (Network.from_p2p_magic_Some _ n) eq_refl). cbn [ok_or mbind result_bind].
  rewrite Z.ltb_irrefl, Z.eqb_refl. done.
Qed.

(** Every frame that decodes is framed: the decoder's acceptance, turned around. *)
Lemma decode_shape bs m :
  WireCodec.decode bs = Ok m ->
  exists name payload,
    length name = 12%nat
    /\ bs = frame (nm_network m) name (payload_checksum payload) payload
    /\ zlen payload <= max_message_size (network_limits (nm_network m))
    /\ MessageCommand.from_bytes name = Ok (NetworkMessage.command m)
    /\ NetworkMessage.decode (nm_network m) (NetworkMessage.command m) payload = Ok m.
Proof.
  unfold WireCodec.decode. intros Hrun.
  destruct (zlen bs <? FRAME_HEADER_BYTES) eqn:H24; [done|]. apply Z.ltb_ge in H24.
  apply bind_Ok in Hrun as (n & Hn%ok_or_Ok & Hrun). apply bind_Ok in Hrun as (c & Hc%map_err_Ok & Hrun).
  cbn beta zeta in Hrun.
  destruct (max_message_size _ <? _) eqn:Hmax in Hrun; [done|]. apply Z.ltb_ge in Hmax.
  destruct (zlen bs <? _) eqn:Hlen in Hrun; [done|]. destruct (zlen bs =? _) eqn:Heq in Hrun; [|done].
  apply Z.eqb_eq in Heq. cbn [negb] in Hrun.
  destruct (bool_decide _) eqn:Hck in Hrun; [apply bool_decide_eq_true in Hck|done].
  cbn [negb] in Hrun. apply map_err_Ok in Hrun. apply Network.from_p2p_magic_Some in Hn.
  assert (nm_network m = n /\ NetworkMessage.command m = c) as [<- <-].
  { revert Hrun. unfold NetworkMessage.decode, NetworkMessage.command. clear. intros Hrun.
    destruct c; cbn [mbind result_bind] in Hrun; inv_ok;
      repeat match goal with H : _ <$> ?r = Ok _ |- _ => destruct r; [injection H as <-|discriminate H] end; done. }
  exists (take 12 (drop 4 bs)), (drop 24 bs).
  assert (length bs = 24 + length (drop 24 bs))%nat as Hl.
  { rewrite length_drop. unfold zlen, FRAME_HEADER_BYTES in *. lia. }
  assert (le_decode (take 4 (drop 16 bs)) = zlen (drop 24 bs)) as Hpl.
  { unfold zlen in *. unfold FRAME_HEADER_BYTES in *. lia. }
  split; [rewrite length_take, length_drop; lia|]. split; [|by rewrite <- Hpl].
  unfold frame. rewrite Hck, <- Hn, <- Hpl.
  assert (length (take 4 (drop 16 bs)) = 4%nat) as H4 by (rewrite length_take, length_drop; lia).
  pose proof (le_bytes_le_decode (take 4 (drop 16 bs))) as Hle. rewrite H4 in Hle. rewrite Hle.
  assert (forall k j (l : bytes), take k (drop j l) ++ drop (j + k)%nat l = drop j l) as Hcut.
  { intros k j l. rewrite <- drop_drop. apply take_drop. }
  pose proof (Hcut 4 20 bs)%nat as E1. pose proof (Hcut 4 16 bs)%nat as E2. pose proof (Hcut 12 4 bs)%nat as E3.
  cbn [Nat.add] in E1, E2, E3. by rewrite E1, E2, E3, take_drop.
Qed.
End frames.

(** ** The claims *)

Section claims.
Context `{Henv : ProcessEnv, Hs : Sha3, Hsl : !Sha3Laws Hs, Hb : Bincode}.

Lemma encode_frame m bs :
  WireCodec.encode m = Ok bs ->
  exists payload, NetworkMessage.encode_payload m = Ok payload /\ zlen payload <= U32_MAX
    /\ zlen payload <= max_message_size (network_limits (nm_network m))
    /\ bs = frame (nm_network m) (MessageCommand.as_padded_bytes (NetworkMessage.command m))
              (payload_checksum payload) payload.
Proof.
  unfold WireCodec.encode. intros Hrun. apply bind_Ok in Hrun as (payload & Hp%map_err_Ok & Hrun).
  apply bind_Ok in Hrun as (n & Hn%ok_or_Ok & Hrun). cbn beta zeta in Hrun.
  destruct (zlen payload <=? U32_MAX) eqn:Hmax; [|done]. injection Hn as <-. apply Z.leb_le in Hmax.
  destruct (_ <? _) eqn:Hlim in Hrun; [done|]. apply Z.ltb_ge in Hlim. injection Hrun as <-.
  exists payload. split_and!; [done|done|done|done].
Qed.

(** A message that was framed for the wire decodes to itself. *)
Theorem frame_round_trip `{Hl : !BincodeLaws} (m : NetworkMessage) (bs : bytes) :
  WireCodec.encode m = Ok bs -> WireCodec.decode bs = Ok m.
Proof.
  intros (payload & Hp & Hmax & Hlim & ->)%encode_frame.
  rewrite decode_frame; [|apply padded_length|apply checksum_length|done].
  rewrite command_round_trip. cbn [map_err mbind result_bind].
  rewrite (proj2 (Z.ltb_ge _ _) Hlim), bool_decide_true by done. cbn [negb].
  by rewrite (payload_round_trip m payload Hp).
Qed.

(** C27: The decoder accepts exactly well-formed frames: the magic of a network, a
    command name, the exact length within the network's limit, the checksum of the
    payload, and a payload the network's limits accept. Any other input is an
    error. *)
Theorem accepted_frames (bs : bytes) (m : NetworkMessage) :
  WireCodec.decode bs = Ok m <->
  exists name payload,
    length name = 12%nat
    /\ bs = frame (nm_network m) name (payload_checksum payload) payload
    /\ zlen payload <= max_message_size (network_limits (nm_network m))
    /\ MessageCommand.from_bytes name = Ok (NetworkMessage.command m)
    /\ NetworkMessage.decode (nm_network m) (NetworkMessage.command m) payload = Ok m.
Proof.
  split; [apply decode_shape|].
  intros (name & payload & Hname & -> & Hmax & Hc & Hp).
  rewrite decode_frame; [|done|apply checksum_length|pose proof (message_limit (nm_network m)); lia].
  rewrite Hc. cbn [map_err mbind result_bind].
  rewrite (proj2 (Z.ltb_ge _ _) Hmax), bool_decide_true by done. cbn [negb]. by rewrite Hp.
Qed.

(** A frame cut short, or followed by more bytes. *)
Lemma decode_cut n name checksum payload k :
  length name = 12%nat -> length checksum = 4%nat -> zlen payload <= max_message_size (network_limits n) ->
  is_ok (MessageCommand.from_bytes name) = true ->
  (k < length (frame n name checksum payload))%nat ->
  WireCodec.decode (take k (frame n name checksum payload)) = Err MessageTooShort.
Proof.
  intros Hname Hck Hmax Hc Hk. unfold WireCodec.decode.
  destruct (zlen _ <? FRAME_HEADER_BYTES) eqn:H24; [done|]. apply Z.ltb_ge in H24.
  assert (24 <= k)%nat as Hk24. { unfold zlen, FRAME_HEADER_BYTES in H24. rewrite length_take in H24. lia. }
  assert (forall a j, (a + j <= k)%nat ->
    take a (drop j (take k (frame n name checksum payload))) = take a (drop j (frame n name checksum payload))) as Hcut.
  { intros a j Hj. rewrite skipn_firstn_comm, take_take. f_equal. lia. }
  pose proof (Hcut 4 0)%nat as E0. rewrite !drop_0 in E0. rewrite E0, !Hcut by lia.
  destruct (frame_parts n name checksum payload Hname Hck) as (-> & -> & -> & _).
  unfold network_from_magic. rewrite (proj2 (Network.from_p2p_magic_Some _ n) eq_refl). cbn [ok_or mbind result_bind].
  destruct (MessageCommand.from_bytes name); [|done]. cbn [map_err mbind result_bind].
  assert (0 <= zlen payload) by (unfold zlen; lia).
  rewrite le_decode_le_bytes_id by (pose proof (message_limit n); unfold uint, U32_MAX in *; lia).
  rewrite (proj2 (Z.ltb_ge _ _) Hmax). rewrite (proj2 (Z.ltb_lt _ _)); [done|].
  unfold frame, zlen, FRAME_HEADER_BYTES in *. rewrite !length_app, magic_length, le_bytes_length, Hname, Hck in *.
  rewrite length_take, !length_app, magic_length, le_bytes_length, Hname, Hck. lia.
Qed.
Lemma decode_extended n name checksum payload extra :
  length name = 12%nat -> length checksum = 4%nat -> zlen payload <= max_message_size (network_limits n) ->
  is_ok (MessageCommand.from_bytes name) = true -> extra <> [] ->
  WireCodec.decode (frame n name checksum payload ++ extra) = Err TrailingBytes.
Proof.
  intros Hname Hck Hmax Hc Hextra. unfold WireCodec.decode.
  assert (zlen (frame n name checksum payload) = FRAME_HEADER_BYTES + zlen payload) as Hlen.
  { unfold frame, zlen, FRAME_HEADER_BYTES. rewrite !length_app, magic_length, le_bytes_length, Hname, Hck. lia. }
  assert (0 < zlen extra) by (destruct extra; [done|unfold zlen; cbn; lia]).
  assert (0 <= zlen payload) by (unfold zlen; lia).
  assert (zlen (frame n name checksum payload ++ extra) = FRAME_HEADER_BYTES + zlen payload + zlen extra) as ->.
  { rewrite <- Hlen. unfold zlen. rewrite length_app. lia. }
  rewrite (proj2 (Z.ltb_ge _ FRAME_HEADER_BYTES)) by lia.
  assert (forall a j, (a + j <= 24)%nat ->
    take a (drop j (frame n name checksum payload ++ extra)) = take a (drop j (frame n name checksum payload))) as Hcut.
  { intros a j Hj. unfold zlen, FRAME_HEADER_BYTES in Hlen.
    rewrite drop_app_le by lia. rewrite take_app_le; [done|]. rewrite length_drop. lia. }
  pose proof (Hcut 4 0)%nat as E0. rewrite !drop_0 in E0. rewrite E0, !Hcut by lia.
  destruct (frame_parts n name checksum payload Hname Hck) as (-> & -> & -> & _).
  unfold network_from_magic. rewrite (proj2 (Network.from_p2p_magic_Some _ n) eq_refl). cbn [ok_or mbind result_bind].
  destruct (MessageCommand.from_bytes name); [|done]. cbn [map_err mbind result_bind].
  rewrite le_decode_le_bytes_id by (pose proof (message_limit n); unfold uint, U32_MAX in *; lia).
  rewrite (proj2 (Z.ltb_ge _ _) Hmax). rewrite (proj2 (Z.ltb_ge _ _)) by lia.
  rewrite (proj2 (Z.eqb_neq _ _)) by lia. done.
Qed.

(** A damaged frame is never taken for a message: a truncated frame is too
    short, one with bytes after it is rejected for these, and one whose payload or
    checksum changed is rejected unless the checksums agree. *)
Theorem damaged_frames_rejected (m : NetworkMessage) (bs : bytes) :
  WireCodec.encode m = Ok bs ->
  (forall k, (k < length bs)%nat -> WireCodec.decode (take k bs) = Err MessageTooShort)
  /\ (forall extra, extra <> [] -> WireCodec.decode (bs ++ extra) = Err TrailingBytes)
  /\ forall payload' checksum',
       zlen payload' = zlen bs - FRAME_HEADER_BYTES -> length checksum' = 4%nat ->
       payload_checksum payload' <> checksum' ->
       WireCodec.decode (take 20 bs ++ checksum' ++ payload') = Err ChecksumMismatch.
Proof.
  intros (payload & Hp & Hu32 & Hmax & ->)%encode_frame.
  pose proof (padded_length (NetworkMessage.command m)) as Hname.
  pose proof (checksum_length payload) as Hck.
  assert (is_ok (MessageCommand.from_bytes (MessageCommand.as_padded_bytes (NetworkMessage.command m))) = true) as Hc
    by by rewrite command_round_trip.
  split; [intros k; by apply decode_cut|]. split; [intros extra; by apply decode_extended|].
  intros payload' checksum' Hlen Hck' Hne.
  assert (zlen payload' = zlen payload) as Hsame.
  { rewrite Hlen. unfold frame, zlen, FRAME_HEADER_BYTES.
    rewrite !length_app, magic_length, le_bytes_length, Hname, Hck. lia. }
  assert (take 20 (frame (nm_network m) (MessageCommand.as_padded_bytes (NetworkMessage.command m))
            (payload_checksum payload) payload) ++ checksum' ++ payload'
          = frame (nm_network m) (MessageCommand.as_padded_bytes (NetworkMessage.command m)) checksum' payload') as ->.
  { unfold frame. rewrite Hsame, !(app_assoc _ _ (checksum' ++ payload')), !(app_assoc _ _ (payload_checksum payload ++ payload)).
    f_equal. rewrite !app_assoc, <- !app_assoc. rewrite !(app_assoc (Network.p2p_magic _)).
    rewrite (app_assoc _ (le_bytes 4 _)). apply take_app_length'.
    rewrite !length_app, magic_length, le_bytes_length, Hname. done. }
  rewrite decode_frame by (done || lia). rewrite command_round_trip. cbn [map_err mbind result_bind].
  rewrite Hsame, (proj2 (Z.ltb_ge _ _) Hmax), bool_decide_false by done. done.
Qed.
End claims.

(** ** Witnesses *)

(** A serializer for the nonces of [Ping] and [Pong]; other payloads fail. *)
Definition no_serde A : Serde A := {| serialize_value := fun _ => None; deserialize_value := fun _ => None |}.
Definition nonce_serde : Serde Z :=
  {| serialize_value := fun z => if (0 <=? z) && (z <=? U64_MAX) then Some (le_bytes 8 z) else None;
     deserialize_value := fun bs => if bool_decide (length bs = 8%nat) then Some (le_decode bs) else None |}.
Definition nonce_bincode : Bincode :=
  {| bc_version := no_serde _; bc_nonce := nonce_serde; bc_addresses := no_serde _; bc_inventory := no_serde _;
     bc_get_headers := no_serde _; bc_headers := no_serde _; bc_block := no_serde _; bc_transaction := no_serde _;
     bc_compact_block := no_serde _; bc_get_block_txn := no_serde _; bc_block_txn := no_serde _ |}.
Lemma nonce_bincode_laws : @BincodeLaws nonce_bincode.
Proof.
  split; intros a bs H; try discriminate H.
  cbn -[le_bytes le_decode U64_MAX Z.leb] in *.
  destruct (_ && _) eqn:Ha; [|discriminate H]. apply (inj Some) in H. subst bs.
  apply andb_true_iff in Ha as [H0 Hmax]. apply Z.leb_le in H0, Hmax.
  rewrite bool_decide_true by apply le_bytes_length.
  by rewrite le_decode_le_bytes_id by (unfold uint, U64_MAX in *; lia).
Qed.
(** An environment without overrides. *)
Definition no_env : ProcessEnv := fun _ => None.

Definition ping : NetworkMessage := NetworkMessage.new Testnet (Ping 42).
Definition ping_frame : bytes := hex "a754480270696e670000000000000000080000008406f5022a00000000000000".
Lemma ping_encodes :
  WireCodec.encode (Henv:=no_env) (Hs:=Keccak.sha3_inst) (Hb:=nonce_bincode) ping = Ok ping_frame.
Proof. by vm_compute. Qed.

Lemma frame_round_trip_witness :
  WireCodec.decode (Henv:=no_env) (Hs:=Keccak.sha3_inst) (Hb:=nonce_bincode) ping_frame = Ok ping.
Proof.
  apply (frame_round_trip (Hsl:=Keccak.sha3_laws) (Hl:=nonce_bincode_laws)). apply ping_encodes.
Defined.

Lemma accepted_frames_witness :
  exists name payload, length name = 12%nat
    /\ ping_frame = frame Testnet name (payload_checksum (H:=Keccak.sha3_inst) payload) payload.
Proof.
  assert (WireCodec.decode (Henv:=no_env) (Hs:=Keccak.sha3_inst) (Hb:=nonce_bincode) ping_frame = Ok ping) as H by by vm_compute.
  apply (accepted_frames (Hsl:=Keccak.sha3_laws)) in H as (name & payload & Hn & Hf & _).
  exists name, payload. split; [exact Hn|exact Hf].
Defined.

Lemma damaged_frames_rejected_witness :
  WireCodec.decode (Henv:=no_env) (Hs:=Keccak.sha3_inst) (Hb:=nonce_bincode) (take 31 ping_frame) = Err MessageTooShort
  /\ WireCodec.decode (Henv:=no_env) (Hs:=Keccak.sha3_inst) (Hb:=nonce_bincode) (ping_frame ++ [x00]) = Err TrailingBytes.
Proof.
  destruct (damaged_frames_rejected (Hsl:=Keccak.sha3_laws) ping ping_frame ping_encodes) as (H1 & H2 & _).
  split; [apply H1; apply Nat.ltb_lt; by vm_compute|apply H2; discriminate].
Defined.
