(* ===== verification/Handshake.v ===== *)
(** * Peer handshake

    crates/atho-p2p/src/handshake.rs: the version and verack exchange. A call
    returns the new state with its verdict. The history of a connection is a list
    of events; [handshake_exchange] says which histories end ready and what was
    sent on the way. *)
From stdpp Require Import options.
From S2P Require Import Prelude Bytes Text Constants Crypto Keccak Network Rules Transaction Block Genesis P2pConfig.
From S2P Require Import Protocol.

#[local] Set Default Proof Using "Type*".

(* src: handshake.rs:14-19 HandshakeDirection *)
Inductive HandshakeDirection := Inbound | Outbound.

(* src: handshake.rs:21-26 HandshakeAction *)
Inductive HandshakeAction :=
| Send (message : NetworkMessage)
| Ready (best_height : Z).

(* src: handshake.rs:28-38 HandshakeState *)
Record HandshakeState := {
  hs_network : Network;
  hs_direction : HandshakeDirection;
  local_version_sent : bool;
  local_verack_sent : bool;
  remote_version : option VersionMessage;
  remote_verack_seen : bool;
  ready : bool;
}.

Module HandshakeState.
Section handshake.
Context `{Henv : ProcessEnv, Hs : Sha3}.

(* src: handshake.rs:41-52 HandshakeState::inbound *)
Definition inbound (n : Network) : HandshakeState :=
  {| hs_network := n; hs_direction := Inbound; local_version_sent := false; local_verack_sent := false;
     remote_version := None; remote_verack_seen := false; ready := false |}.

(* src: handshake.rs:54-74 HandshakeState::outbound *)
Definition outbound (n : Network) (local_version : NetworkMessage) :
    result ProtocolError (HandshakeState * list HandshakeAction) :=
  match payload local_version with
  | Version _ =>
      Ok ({| hs_network := n; hs_direction := Outbound; local_version_sent := true; local_verack_sent := false;
             remote_version := None; remote_verack_seen := false; ready := false |}, [Send local_version])
  | _ => Err UnexpectedPayload
  end.

(** The version with another tip, whose work is unknown. *)
Definition with_tip (v : VersionMessage) (height : Z) (tip_hash : Hash48) : VersionMessage :=
  {| v_protocol_version := v_protocol_version v; v_min_protocol_version := v_min_protocol_version v;
     v_services := v_services v; v_timestamp_unix := v_timestamp_unix v; v_network := v_network v;
     v_user_agent := v_user_agent v; v_best_height := height; v_ruleset_version := v_ruleset_version v;
     v_relay := v_relay v; v_genesis_hash := v_genesis_hash v; v_tip_hash := tip_hash; v_chainwork := Hash48_ZERO |}.
Definition with_version (st : HandshakeState) (v : option VersionMessage) : HandshakeState :=
  {| hs_network := hs_network st; hs_direction := hs_direction st; local_version_sent := local_version_sent st;
     local_verack_sent := local_verack_sent st; remote_version := v;
     remote_verack_seen := remote_verack_seen st; ready := ready st |}.

(* src: handshake.rs:81-90 HandshakeState::note_remote_tip *)
Definition note_remote_tip (st : HandshakeState) (height : Z) (tip_hash : Hash48) : HandshakeState :=
  with_version st ((fun v => if v_best_height v <=? height then with_tip v height tip_hash else v) <$> remote_version st).

(* src: handshake.rs:92-100 HandshakeState::replace_remote_tip *)
Definition replace_remote_tip (st : HandshakeState) (height : Z) (tip_hash : Hash48) : HandshakeState :=
  with_version st ((fun v => with_tip v height tip_hash) <$> remote_version st).

(* src: handshake.rs:102-105 HandshakeState::is_ready *)
Definition is_ready (st : HandshakeState) : bool := ready st.

(** The end of [receive]: the state becomes ready once both sides have agreed. *)
Definition settle (st : HandshakeState) (actions : list HandshakeAction) : HandshakeState * list HandshakeAction :=
  match remote_version st with
  | Some v =>
      if negb (ready st) && local_verack_sent st && remote_verack_seen st
      then ({| hs_network := hs_network st; hs_direction := hs_direction st;
               local_version_sent := local_version_sent st; local_verack_sent := local_verack_sent st;
               remote_version := remote_version st; remote_verack_seen := remote_verack_seen st; ready := true |},
            actions ++ [Ready (v_best_height v)])
      else (st, actions)
  | None => (st, actions)
  end.

(* src: handshake.rs:107-164 HandshakeState::receive *)
Definition receive (st : HandshakeState) (message local_version : NetworkMessage) :
    HandshakeState * result ProtocolError (list HandshakeAction) :=
  if negb (bool_decide (nm_network message = hs_network st))
     || negb (bool_decide (nm_network local_version = hs_network st)) then (st, Err UnsupportedNetwork)
  else
    match payload message with
    | Version version =>
        match remote_version st with
        | Some _ => (st, Err UnexpectedPayload)
        | None =>
            match validate_version_message version (hs_network st) with
            | Err e => (st, Err e)
            | Ok _ =>
                let actions :=
                  (if local_version_sent st then [] else [Send local_version])
                  ++ (if local_verack_sent st then [] else [Send (NetworkMessage.new (hs_network st) Verack)]) in
                let '(st, actions) := settle
                  {| hs_network := hs_network st; hs_direction := hs_direction st; local_version_sent := true;
                     local_verack_sent := true; remote_version := Some version;
                     remote_verack_seen := remote_verack_seen st; ready := ready st |} actions in
                (st, Ok actions)
            end
        end
    | Verack =>
        match remote_version st with
        | None => (st, Err HandshakeIncomplete)
        | Some _ =>
            let '(st, actions) := settle
              {| hs_network := hs_network st; hs_direction := hs_direction st;
                 local_version_sent := local_version_sent st; local_verack_sent := local_verack_sent st;
                 remote_version := remote_version st; remote_verack_seen := true; ready := ready st |} [] in
            (st, Ok actions)
        end
    | _ => (st, Err HandshakeIncomplete)
    end.

(** ** Histories *)

(** What happens to a handshake: a message arrives, or the remembered tip changes. *)
Inductive event :=
| Receive (message : NetworkMessage)
| NoteTip (height : Z) (tip_hash : Hash48)
| ReplaceTip (height : Z) (tip_hash : Hash48).

Definition step (local_version : NetworkMessage) (st : HandshakeState) (ev : event) :
    HandshakeState * list HandshakeAction :=
  match ev with
  | Receive message =>
      let '(st, verdict) := receive st message local_version in
      (st, match verdict with Ok actions => actions | Err _ => [] end)
  | NoteTip height tip_hash => (note_remote_tip st height tip_hash, [])
  | ReplaceTip height tip_hash => (replace_remote_tip st height tip_hash, [])
  end.

(** The state after a history, and all actions it requested. *)
Fixpoint run (local_version : NetworkMessage) (st : HandshakeState) (evs : list event) :
    HandshakeState * list HandshakeAction :=
  match evs with
  | [] => (st, [])
  | ev :: evs =>
      let '(st, actions) := step local_version st ev in
      let '(st, later) := run local_version st evs in
      (st, actions ++ later)
  end.
End handshake.
End HandshakeState.

Import HandshakeState.

Section exchange.
Context `{Henv : ProcessEnv, Hs : Sha3}.
Context (n : Network) (local_version : NetworkMessage) (Hlocal : nm_network local_version = n).

(** A valid version of the network arrives. *)
Definition is_version (ev : event) : Prop :=
  exists v, ev = Receive (NetworkMessage.new n (Version v)) /\ validate_version_message v n = Ok tt.
Definition is_verack (ev : event) : Prop := ev = Receive (NetworkMessage.new n Verack).

(** The history has a valid version, and a verack after it. *)
Definition greeted (evs : list event) : Prop := exists ev, ev ∈ evs /\ is_version ev.
Definition agreed (evs : list event) : Prop :=
  exists before ev between after verack,
    evs = before ++ ev :: between ++ verack :: after /\ is_version ev /\ is_verack verack.

Definition is_send (a : HandshakeAction) : bool := match a with Send _ => true | Ready _ => false end.
Definition version_message : HandshakeAction := Send local_version.
Definition verack_message : HandshakeAction := Send (NetworkMessage.new n Verack).

Definition has_version (st : HandshakeState) : bool := match remote_version st with Some _ => true | None => false end.
(** What has been sent in a state. *)
Definition sent (st : HandshakeState) : list HandshakeAction :=
  match hs_direction st with
  | Inbound => if has_version st then [version_message; verack_message] else []
  | Outbound => version_message :: if has_version st then [verack_message] else []
  end.

(** The state's flags follow from two of them. *)
Record state_ok (st : HandshakeState) : Prop := {
  ok_network : hs_network st = n;
  ok_version_sent : local_version_sent st = match hs_direction st with Outbound => true | Inbound => has_version st end;
  ok_verack_sent : local_verack_sent st = has_version st;
  ok_ready : ready st = remote_verack_seen st;
  ok_seen : remote_verack_seen st = true -> has_version st = true;
  ok_remote : forall v, remote_version st = Some v -> v_network v = n /\ v_genesis_hash v = genesis_hash n
    /\ MIN_SUPPORTED_PROTOCOL_VERSION <= v_protocol_version v /\ v_min_protocol_version v <= PROTOCOL_VERSION;
}.

Lemma validate_version_Ok v :
  validate_version_message v n = Ok tt ->
  v_network v = n /\ v_genesis_hash v = genesis_hash n
  /\ MIN_SUPPORTED_PROTOCOL_VERSION <= v_protocol_version v /\ v_min_protocol_version v <= PROTOCOL_VERSION.
Proof.
  unfold validate_version_message. intros Hv. inv_ok. cbn [protocol_version network_params] in *.
  repeat match goal with
  | H : negb (bool_decide _) = false |- _ => apply negb_false_iff, bool_decide_eq_true in H
  end.
  bool_to_prop. split_and!; [done|done|lia|lia].
Qed.

Definition sends (actions : list HandshakeAction) : list HandshakeAction := filter (fun a => is_send a = true) actions.
Definition readies (actions : list HandshakeAction) : list HandshakeAction := filter (fun a => is_send a = false) actions.

(** What one event does to a state. *)
Record progress (ev : event) (st st' : HandshakeState) (actions : list HandshakeAction) : Prop := {
  pr_ok : state_ok st';
  pr_direction : hs_direction st' = hs_direction st;
  pr_sent : sent st' = sent st ++ sends actions;
  pr_version : has_version st' = true <-> has_version st = true \/ is_version ev;
  pr_ready : ready st' = true <-> ready st = true \/ has_version st = true /\ is_verack ev;
  pr_readies : readies actions = match remote_version st with
    | Some v => if ready st' && negb (ready st) then [Ready (v_best_height v)] else []
    | None => []
    end;
}.

Lemma idle ev st : state_ok st -> ~ is_version ev \/ has_version st = true -> ~ is_verack ev \/ has_version st = false ->
  progress ev st st [].
Proof.
  intros Hok Hv Ha. split; [done|done|by rewrite app_nil_r| | |].
  - tauto.
  - destruct Ha as [Ha|Ha]; [tauto|]. rewrite Ha. intuition discriminate.
  - destruct (remote_version st); [|done]. by destruct (ready st).
Qed.

Ltac state_cases Ev := split;
  cbn [hs_network hs_direction local_version_sent local_verack_sent remote_version remote_verack_seen ready];
  unfold has_version in *; cbn [remote_version]; try rewrite Ev in *.

(** The first valid version. *)
Lemma version_progress st v :
  state_ok st -> remote_version st = None -> validate_version_message v n = Ok tt ->
  let '(st', verdict) := receive st (NetworkMessage.new n (Version v)) local_version in
  exists actions, verdict = Ok actions /\ progress (Receive (NetworkMessage.new n (Version v))) st st' actions.
Proof.
  intros [Hnet Hvs Has Hr Hseen Hrem] Ev Hv. unfold receive. cbn [nm_network payload NetworkMessage.new].
  rewrite Hnet, Hlocal, !bool_decide_true by done. cbn [negb orb]. rewrite Ev, Hv.
  assert (has_version st = false) as Hnv by (unfold has_version; by rewrite Ev).
  assert (remote_verack_seen st = false) as Hns.
  { destruct (remote_verack_seen st); [|done]. rewrite Hseen in Hnv by done. done. }
  unfold settle. cbn [remote_version ready local_verack_sent remote_verack_seen]. rewrite Hns, andb_false_r.
  eexists. split; [done|]. rewrite Has, Hvs, Hnv. split; cbn [hs_direction ready remote_version].
  - state_cases Ev; [done|by destruct (hs_direction st)|done|congruence|done|].
    intros v' [= <-]. by apply validate_version_Ok.
  - done.
  - unfold sent, has_version. cbn [hs_direction remote_version]. rewrite Ev. by destruct (hs_direction st).
  - cbn. split; [|done]. intros _. right. by exists v.
  - split; [tauto|]. intros [?|[? _]]; congruence.
  - rewrite Ev. by destruct (hs_direction st).
Qed.

(** A verack after the version. *)
Lemma verack_progress st v :
  state_ok st -> remote_version st = Some v ->
  let '(st', verdict) := receive st (NetworkMessage.new n Verack) local_version in
  exists actions, verdict = Ok actions /\ progress (Receive (NetworkMessage.new n Verack)) st st' actions.
Proof.
  intros [Hnet Hvs Has Hr Hseen Hrem] Ev. unfold receive. cbn [nm_network payload NetworkMessage.new].
  rewrite Hnet, Hlocal, !bool_decide_true by done. cbn [negb orb]. rewrite Ev.
  assert (has_version st = true) as Hhv by (unfold has_version; by rewrite Ev).
  unfold settle. cbn [remote_version ready local_verack_sent remote_verack_seen]. rewrite Has, Hhv, !andb_true_r.
  destruct (ready st) eqn:Er; cbn [negb]; (eexists; split; [done|]); split; cbn [hs_direction ready remote_version].
  all: try done.
  all: try (by state_cases Ev).
  all: try (unfold sent, has_version; cbn [hs_direction remote_version]; rewrite Ev; by rewrite app_nil_r).
  all: try (unfold has_version; cbn [remote_version]; rewrite Ev; by split; [left|]).
  all: try (by rewrite Ev, Er).
  all: try (by split; [left|]).
  split; [|done]. intros _. by right.
Qed.

Lemma receive_progress st message st' verdict :
  state_ok st -> receive st message local_version = (st', verdict) ->
  progress (Receive message) st st' (match verdict with Ok actions => actions | Err _ => [] end).
Proof.
  intros Hok. destruct message as [mn mp].
  destruct (decide (mn = n)) as [->|Hn].
  2: { unfold receive. cbn [nm_network payload]. rewrite (ok_network _ Hok), (bool_decide_false (mn = n)) by done.
       intros [= <- <-]. apply idle; [done| |]; left; [by intros (v & [= Hmn _] & _)|by intros [= Hmn _]]. }
  assert (forall p, (forall v, p <> Version v) -> ~ is_version (Receive {| nm_network := n; payload := p |})) as Hno.
  { intros p Hp (v & [= Hpv] & _). by destruct (Hp v). }
  assert (forall p, p <> Verack -> ~ is_verack (Receive {| nm_network := n; payload := p |})) as Hna.
  { intros p Hp [= Hpv]. done. }
  assert (forall v, remote_version st = Some v -> has_version st = true) as Hhas.
  { intros v Ev. unfold has_version. by rewrite Ev. }
  destruct (remote_version st) as [v0|] eqn:Ev, mp as [v| | | | | | | | | | | | | | | |].
  all: try (unfold receive; cbn [nm_network payload]; rewrite (ok_network _ Hok), Hlocal, !bool_decide_true by done;
            cbn [negb orb]; rewrite ?Ev; intros [= <- <-]; apply idle;
            [done|(by (left; apply Hno)) || (right; exact (Hhas _ eq_refl))
            |(by (left; apply Hna)) || (right; unfold has_version; by rewrite Ev)]).
  - intros Hrun. pose proof (verack_progress st v0 Hok Ev) as Hp. unfold NetworkMessage.new in Hp.
    rewrite Hrun in Hp. by destruct Hp as (actions & -> & Hp).
  - destruct (validate_version_message v n) as [[]|e] eqn:Evalid.
    + intros Hrun. pose proof (version_progress st v Hok Ev Evalid) as Hp. unfold NetworkMessage.new in Hp.
      rewrite Hrun in Hp. by destruct Hp as (actions & -> & Hp).
    + unfold receive. cbn [nm_network payload]. rewrite (ok_network _ Hok), Hlocal, !bool_decide_true by done.
      cbn [negb orb]. rewrite Ev, Evalid. intros [= <- <-]. apply idle; [done| |left; by apply Hna].
      left. intros (v' & [= <-] & Hv'). congruence.
Qed.

Lemma retip_progress ev st (f : VersionMessage -> VersionMessage) :
  state_ok st -> (forall message, ev <> Receive message) ->
  (forall v, f v = v \/ exists height tip_hash, f v = with_tip v height tip_hash) ->
  progress ev st (with_version st (f <$> remote_version st)) [].
Proof.
  intros [Hnet Hvs Has Hr Hseen Hrem] Hev Hf.
  assert (has_version (with_version st (f <$> remote_version st)) = has_version st) as Hhv.
  { unfold has_version. cbn [remote_version with_version]. by destruct (remote_version st). }
  assert (~ is_version ev) by (intros (v & -> & _); by eapply Hev).
  assert (~ is_verack ev) by (intros ->; by eapply Hev).
  split.
  - split; rewrite ?Hhv; cbn [hs_network hs_direction local_version_sent local_verack_sent remote_version
                             remote_verack_seen ready with_version]; try done.
    intros v (v0 & Hv0 & ->)%fmap_Some. specialize (Hrem v0 Hv0).
    destruct (Hf v0) as [->|(? & ? & ->)]; exact Hrem.
  - done.
  - unfold sent. rewrite Hhv. cbn [hs_direction with_version]. by rewrite app_nil_r.
  - rewrite Hhv. tauto.
  - cbn [ready with_version]. tauto.
  - cbn [ready with_version]. destruct (remote_version st); [|done]. by destruct (ready st).
Qed.

Lemma step_progress st ev :
  state_ok st -> let '(st', actions) := step local_version st ev in progress ev st st' actions.
Proof.
  intros Hok. destruct ev as [message|height tip_hash|height tip_hash]; cbn [step].
  - destruct (receive st message local_version) as [st' verdict] eqn:E.
    exact (receive_progress st message st' verdict Hok E).
  - apply retip_progress; [done|done|]. intros v. destruct (_ <=? _); eauto.
  - apply retip_progress; [done|done|]. eauto.
Qed.

(** The history has a verack. *)
Definition acknowledged (evs : list event) : Prop := exists ev, ev ∈ evs /\ is_verack ev.

Lemma version_not_verack ev : is_version ev -> is_verack ev -> False.
Proof. intros (v & -> & _) [= ]. Qed.
Lemma greeted_cons ev evs : greeted (ev :: evs) <-> is_version ev \/ greeted evs.
Proof. unfold greeted. setoid_rewrite elem_of_cons. naive_solver. Qed.
Lemma acknowledged_cons ev evs : acknowledged (ev :: evs) <-> is_verack ev \/ acknowledged evs.
Proof. unfold acknowledged. setoid_rewrite elem_of_cons. naive_solver. Qed.
Lemma agreed_cons ev evs : agreed (ev :: evs) <-> is_version ev /\ acknowledged evs \/ agreed evs.
Proof.
  unfold agreed, acknowledged. split.
  - intros ([|b before] & ev' & between & after & verack & Heq & Hv & Ha).
    + injection Heq as <- ->. left. split; [done|]. exists verack. split; [set_solver|done].
    + injection Heq as <- ->. right. by exists before, ev', between, after, verack.
  - intros [[Hv (verack & Hin & Ha)]|(before & ev' & between & after & verack & -> & Hv & Ha)].
    + apply list_elem_of_split in Hin as (between & after & ->). by exists [], ev, between, after, verack.
    + by exists (ev :: before), ev', between, after, verack.
Qed.

Record outcome (evs : list event) (st st' : HandshakeState) (actions : list HandshakeAction) : Prop := {
  out_ok : state_ok st';
  out_direction : hs_direction st' = hs_direction st;
  out_sent : sent st' = sent st ++ sends actions;
  out_version : has_version st' = true <-> has_version st = true \/ greeted evs;
  out_ready : ready st' = true <-> ready st = true \/ has_version st = true /\ acknowledged evs \/ agreed evs;
  out_readies : length (readies actions) = if ready st' && negb (ready st) then 1%nat else 0%nat;
}.

Lemma run_outcome evs st :
  state_ok st -> let '(st', actions) := run local_version st evs in outcome evs st st' actions.
Proof.
  revert st. induction evs as [|ev evs IH]; intros st Hok; cbn [run].
  { split; [done|done|by rewrite app_nil_r| | |by destruct (ready st)].
    - unfold greeted. set_solver.
    - split; [by left|]. intros [?|[[_ (ev & Hin & _)]|(before & ev & between & after & verack & Heq & _)]]; [done| |].
      + by apply elem_of_nil in Hin.
      + by destruct before. }
  pose proof (step_progress st ev Hok) as Hp. destruct (step local_version st ev) as [st1 actions] eqn:E.
  specialize (IH st1 (pr_ok _ _ _ _ Hp)). destruct (run local_version st1 evs) as [st' later].
  destruct Hp as [Hok1 Hd Hsent Hversion Hready Hreadies], IH as [Hok' Hd' Hsent' Hversion' Hready' Hreadies'].
  split; [done|congruence| | | |].
  - rewrite Hsent', Hsent, <- app_assoc. unfold sends. by rewrite filter_app.
  - rewrite greeted_cons. tauto.
  - rewrite agreed_cons, acknowledged_cons. pose proof (version_not_verack ev).
    pose proof (ok_ready _ Hok) as Hr. pose proof (ok_seen _ Hok) as Hseen. tauto.
  - unfold readies in *. rewrite filter_app, length_app, Hreadies', Hreadies. clear E Hsent Hsent'.
    destruct (ready st) eqn:Er; cbn [negb]; rewrite ?andb_false_r, ?andb_true_r.
    + rewrite (proj2 Hready) by by left. rewrite andb_false_r. by destruct (remote_version st).
    + destruct (ready st1) eqn:Er1; cbn [negb]; rewrite ?andb_false_r, ?andb_true_r.
      * assert (ready st' = true) as -> by (apply Hready'; by left).
        destruct Hready as [Hready _]. destruct (Hready eq_refl) as [?|[Hhv _]]; [done|].
        unfold has_version in Hhv. by destruct (remote_version st).
      * by destruct (remote_version st), (ready st').
Qed.

(** The two ways a handshake opens, with what is sent first. *)
Definition opening (d : HandshakeDirection) : result ProtocolError (HandshakeState * list HandshakeAction) :=
  match d with Inbound => Ok (inbound n, []) | Outbound => outbound n local_version end.

(** A handshake is ready exactly when a valid version of this network arrived
    and a verack after it, whatever else arrived in between; readiness is announced
    exactly once. Our version and then our verack are sent once when a valid version
    arrived, and otherwise nothing but the version of a side that opens; a ready
    peer's remembered version is of this network and its genesis, with compatible
    protocol versions. *)
Theorem handshake_exchange (d : HandshakeDirection) st0 first evs :
  opening d = Ok (st0, first) ->
  let '(st, later) := run local_version st0 evs in
  (is_ready st = true <-> agreed evs)
  /\ length (readies (first ++ later)) = (if is_ready st then 1 else 0)%nat
  /\ (greeted evs -> sends (first ++ later) = [version_message; verack_message])
  /\ (~ greeted evs -> sends (first ++ later) = match d with Inbound => [] | Outbound => [version_message] end)
  /\ (is_ready st = true -> exists v, remote_version st = Some v /\ v_network v = n
        /\ v_genesis_hash v = genesis_hash n /\ MIN_SUPPORTED_PROTOCOL_VERSION <= v_protocol_version v
        /\ v_min_protocol_version v <= PROTOCOL_VERSION).
Proof.
  intros Hopen.
  assert (state_ok st0 /\ hs_direction st0 = d /\ has_version st0 = false /\ ready st0 = false
          /\ sends first = sent st0 /\ readies first = []) as (Hok & Hd & Hhv & Hr & Hfirst & Hnone).
  { destruct d; cbn [opening] in Hopen; [|unfold outbound in Hopen; destruct (payload local_version); try discriminate Hopen];
      injection Hopen as <- <-; by split_and!. }
  pose proof (run_outcome evs st0 Hok) as Hrun. destruct (run local_version st0 evs) as [st later].
  destruct Hrun as [Hok' Hd' Hsent Hversion Hready Hreadies]. unfold is_ready.
  assert (sends (first ++ later) = sent st) as ->.
  { unfold sends in *. by rewrite filter_app, Hfirst, Hsent. }
  rewrite Hhv, Hr in *. cbn [negb] in Hreadies. rewrite andb_true_r in Hreadies.
  split_and!.
  - rewrite Hready. intuition discriminate.
  - unfold readies in *. by rewrite filter_app, Hnone.
  - intros Hg. unfold sent. rewrite (proj2 Hversion) by by right. rewrite Hd', Hd. by destruct d.
  - intros Hg. unfold sent. rewrite Hd', Hd. destruct (has_version st) eqn:E; [|by destruct d].
    destruct Hversion as [[?|?] _]; done.
  - intros Hrdy. rewrite (ok_ready _ Hok') in Hrdy. apply (ok_seen _ Hok') in Hrdy.
    unfold has_version in Hrdy. destruct (remote_version st) as [v|] eqn:Ev; [|done].
    exists v. split; [done|]. by apply (ok_remote _ Hok').
Qed.
End exchange.

(** ** Witness *)

Definition sample_version : NetworkMessage :=
  NetworkMessage.new Testnet (Version
    {| v_protocol_version := PROTOCOL_VERSION; v_min_protocol_version := MIN_SUPPORTED_PROTOCOL_VERSION;
       v_services := LOCAL_NODE_SERVICES; v_timestamp_unix := 1700000000; v_network := Testnet;
       v_user_agent := str_bytes "/Atho:0.1.0/"; v_best_height := 0; v_ruleset_version := ruleset_version_at_height 0;
       v_relay := true; v_genesis_hash := genesis_hash (H:=checksum_sha3) Testnet; v_tip_hash := Hash48_ZERO;
       v_chainwork := Hash48_ZERO |}).
Definition sample_history : list event :=
  [Receive (NetworkMessage.new Testnet Verack); Receive sample_version; Receive sample_version;
   Receive (NetworkMessage.new Testnet Verack)].

Lemma handshake_exchange_witness :
  opening Testnet sample_version Inbound = Ok (inbound Testnet, [])
  /\ is_ready (run (Henv:=fun _ => None) (Hs:=checksum_sha3) sample_version (inbound Testnet) sample_history).1 = true.
Proof.
  split; [reflexivity|].
  pose proof (handshake_exchange (Henv:=fun _ => None) (Hs:=checksum_sha3) Testnet sample_version eq_refl Inbound
    (inbound Testnet) [] sample_history eq_refl) as H.
  destruct (run (Henv:=fun _ => None) (Hs:=checksum_sha3) sample_version (inbound Testnet) sample_history) as [st later].
  apply (proj1 H). unfold agreed.
  exists [Receive (NetworkMessage.new Testnet Verack)], (Receive sample_version), [Receive sample_version], [],
    (Receive (NetworkMessage.new Testnet Verack)).
  split; [reflexivity|]. split; [|reflexivity]. eexists. split; [reflexivity|]. vm_compute. reflexivity.
Defined.
