(* ===== verification/BanList.v ===== *)
(** * Bans

    crates/atho-p2p/src/banlist.rs: misbehaviour points of peers, their decay and
    the bans they lead to. Clocks are arguments. [bans_exact]
    says that, while the clock does not run backwards, a peer is banned for ten
    decay intervals from the last offence that reached the threshold, and at no
    other time. *)
From stdpp Require Import options.
From S2P Require Import Prelude Bytes Text Constants Network Rules P2pConfig.

#[local] Set Default Proof Using "Type*".

(* src: banlist.rs:10-15 BanState *)
Record BanState := {
  score : Z;
  banned_until_unix : option Z;
  last_updated_unix : Z;
}.

(* src: banlist.rs:17-21 BanList *)
Record BanList := {
  bl_network : Network;
  entries : gmap bytes BanState;
}.

Module BanList.
Section bans.
Context `{Henv : ProcessEnv}.

(* src: banlist.rs:24-29 BanList::new *)
Definition new (n : Network) : BanList := {| bl_network := n; entries := ∅ |}.

(** [entry.banned_until_unix] is set and lies ahead. *)
Definition active (now_unix : Z) (e : BanState) : bool :=
  match banned_until_unix e with Some until => now_unix <? until | None => false end.

(* src: banlist.rs:31-36 BanList::is_banned *)
Definition is_banned (bl : BanList) (peer : bytes) (now_unix : Z) : bool :=
  match entries bl !! peer with Some e => active now_unix e | None => false end.

(* src: banlist.rs:38-40 BanList::score *)
Definition score_of (bl : BanList) (peer : bytes) : Z :=
  match entries bl !! peer with Some e => score e | None => 0 end.

(* src: banlist.rs:42-51 BanList::banned_count *)
Definition banned_count (bl : BanList) (now_unix : Z) : Z :=
  Z.of_nat (size (filter (fun pe => active now_unix pe.2 = true) (entries bl))).

Definition decay_interval (bl : BanList) : Z := Z.max (peer_decay_interval_secs (network_limits (bl_network bl))) 1.
Definition threshold (bl : BanList) : Z := ban_score_threshold (network_limits (bl_network bl)).

(** The score after [intervals] intervals without offence; the count is cast to u32. *)
Definition decayed (score intervals : Z) : Z :=
  if 0 <? intervals then saturating_sub score (intervals mod 2 ^ 32) else score.
Definition elapsed_intervals (bl : BanList) (e : BanState) (now_unix : Z) : Z :=
  saturating_sub now_unix (last_updated_unix e) / decay_interval bl.

(* src: banlist.rs:58-83 BanList::record_at *)
Definition record_at (bl : BanList) (peer : bytes) (points now_unix : Z) : BanList * bool :=
  let e := default {| score := 0; banned_until_unix := None; last_updated_unix := now_unix |} (entries bl !! peer) in
  let score := saturating_add U32_MAX (decayed (score e) (elapsed_intervals bl e now_unix)) points in
  let reached := threshold bl <=? score in
  let e := {| score := score;
              banned_until_unix := if reached then Some (saturating_add U64_MAX now_unix (decay_interval bl * 10))
                                   else banned_until_unix e;
              last_updated_unix := now_unix |} in
  ({| bl_network := bl_network bl; entries := <[peer := e]> (entries bl) |}, reached).

(** The closure of [retain]: the entry that stays, if it does. *)
Definition decay_entry (bl : BanList) (now_unix : Z) (e : BanState) : option BanState :=
  let intervals := elapsed_intervals bl e now_unix in
  let e := {| score := decayed (score e) intervals; banned_until_unix := banned_until_unix e;
              last_updated_unix := if 0 <? intervals then now_unix else last_updated_unix e |} in
  match banned_until_unix e with
  | Some until =>
      if (until <=? now_unix) && (score e =? 0) then None
      else if until <=? now_unix
      then Some {| score := score e; banned_until_unix := None; last_updated_unix := last_updated_unix e |}
      else Some e
  | None => Some e
  end.

(* src: banlist.rs:85-107 BanList::decay *)
Definition decay (bl : BanList) (now_unix : Z) : BanList :=
  {| bl_network := bl_network bl; entries := omap (decay_entry bl now_unix) (entries bl) |}.

(** ** Histories *)

Inductive op :=
| Record_ (peer : bytes) (points now_unix : Z)
| Decay (now_unix : Z).
Definition op_time (o : op) : Z := match o with Record_ _ _ t | Decay t => t end.
Definition apply (bl : BanList) (o : op) : BanList :=
  match o with
  | Record_ peer points now_unix => (record_at bl peer points now_unix).1
  | Decay now_unix => decay bl now_unix
  end.
Definition run (bl : BanList) (ops : list op) : BanList := foldl apply bl ops.

(** The times of a history do not run backwards and stay below the clock's end. *)
Fixpoint monotone (from : Z) (ops : list op) : Prop :=
  match ops with
  | [] => True
  | o :: ops => from <= op_time o < U64_MAX - 1000 /\ monotone (op_time o) ops
  end.
End bans.
End BanList.

Import BanList.

Section bans.
Context `{Henv : ProcessEnv}.

Lemma limit_values n : ban_score_threshold (network_limits n) = 100 /\ peer_decay_interval_secs (network_limits n) = 60.
Proof. unfold network_limits, network_params, runtime_limits. cbn [limits]. by case_match. Qed.
Lemma threshold_value bl : threshold bl = 100.
Proof. apply limit_values. Qed.
Lemma decay_interval_value bl : decay_interval bl = 60.
Proof. unfold decay_interval. by rewrite (proj2 (limit_values _)). Qed.

(** The specification: the time of the last offence of [peer] that reached the
    threshold, and the points recorded for [peer] in all. *)
Fixpoint last_ban (peer : bytes) (bl : BanList) (ops : list op) (last : option Z) : option Z :=
  match ops with
  | [] => last
  | o :: ops =>
      last_ban peer (apply bl o) ops
        (match o with
         | Record_ p points now_unix => if bool_decide (p = peer) && (record_at bl p points now_unix).2 then Some now_unix else last
         | Decay _ => last
         end)
  end.
Fixpoint points_of (peer : bytes) (ops : list op) : Z :=
  match ops with
  | [] => 0
  | Record_ p points _ :: ops => (if bool_decide (p = peer) then points else 0) + points_of peer ops
  | Decay _ :: ops => points_of peer ops
  end.
Definition fair_op (o : op) : Prop := match o with Record_ _ points _ => 0 <= points | Decay _ => True end.
Definition banned_spec (last : option Z) (t : Z) : bool :=
  match last with Some s => t <? s + 600 | None => false end.

(** ** One operation *)

Lemma record_banned bl peer points now p t :
  0 <= now < U64_MAX - 1000 ->
  is_banned (record_at bl peer points now).1 p t =
    if bool_decide (peer = p) && (record_at bl peer points now).2 then t <? now + 600 else is_banned bl p t.
Proof.
  intros Hnow. unfold record_at. rewrite decay_interval_value. unfold is_banned. cbn [fst snd entries].
  case_bool_decide as Hp; cbn [andb].
  - subst p. rewrite lookup_insert_eq. unfold active. cbn [banned_until_unix].
    destruct (threshold bl <=? _); [|by destruct (entries bl !! peer)].
    unfold saturating_add. by replace (Z.min U64_MAX (now + 60 * 10)) with (now + 600) by lia.
  - by rewrite lookup_insert_ne.
Qed.

Lemma decay_banned bl now p t : now <= t -> is_banned (decay bl now) p t = is_banned bl p t.
Proof.
  intros Ht. unfold is_banned, decay. cbn [entries]. rewrite lookup_omap.
  destruct (entries bl !! p) as [e|]; [|done]. cbn. unfold decay_entry, active.
  cbn [banned_until_unix score last_updated_unix]. destruct (banned_until_unix e) as [until|]; [|done].
  destruct (until <=? now) eqn:Hu; cbn [andb].
  - apply Z.leb_le in Hu. rewrite (proj2 (Z.ltb_ge t until)) by lia. by destruct (_ =? 0).
  - done.
Qed.

Lemma decayed_bounds s k : 0 <= s -> 0 <= decayed s k <= s.
Proof.
  intros Hs. unfold decayed, saturating_sub. destruct (0 <? k); [|lia].
  pose proof (Z.mod_pos_bound k (2 ^ 32)). lia.
Qed.

(** Scores are what is left of the points recorded. *)
Definition scores_within (bl : BanList) (total : bytes -> Z) : Prop :=
  forall p e, entries bl !! p = Some e -> 0 <= score e <= total p.

Lemma record_scores bl total peer points now :
  0 <= points -> (forall p, 0 <= total p) -> scores_within bl total ->
  scores_within (record_at bl peer points now).1 (fun p => total p + if bool_decide (peer = p) then points else 0)
  /\ ((record_at bl peer points now).2 = true -> 100 <= total peer + points).
Proof.
  intros Hp Htot Hs. unfold record_at. rewrite threshold_value. cbn [fst snd].
  set (e := default _ (entries bl !! peer)).
  assert (0 <= score e <= total peer) as He.
  { subst e. destruct (entries bl !! peer) as [e|] eqn:E; cbn; [exact (Hs peer e E)|]. split; [done|apply Htot]. }
  pose proof (decayed_bounds (score e) (elapsed_intervals bl e now) (proj1 He)) as Hd.
  unfold saturating_add. split.
  - intros p e'. cbn [entries]. case_bool_decide as Hpp.
    + subst p. rewrite lookup_insert_eq. intros [= <-]. cbn [score]. unfold U32_MAX. lia.
    + rewrite lookup_insert_ne by done. intros He'. pose proof (Hs p e' He'). lia.
  - intros Hr%Z.leb_le. lia.
Qed.
Lemma decay_scores bl total now : scores_within bl total -> scores_within (decay bl now) total.
Proof.
  intros Hs p e. unfold decay. cbn [entries]. rewrite lookup_omap. intros (e0 & He0 & He)%bind_Some.
  pose proof (Hs p e0 He0) as H0. pose proof (decayed_bounds (score e0) (elapsed_intervals bl e0 now) (proj1 H0)) as Hd.
  unfold decay_entry in He. cbn [banned_until_unix score last_updated_unix] in He.
  destruct (banned_until_unix e0); repeat case_match; simplify_eq; cbn [score]; lia.
Qed.

(** ** Histories *)

Lemma run_bans ops : forall bl last peer from,
  0 <= from -> monotone from ops ->
  (forall t, from <= t -> is_banned bl peer t = banned_spec last t) ->
  forall t, (forall o, o ∈ ops -> op_time o <= t) -> from <= t ->
  is_banned (run bl ops) peer t = banned_spec (last_ban peer bl ops last) t.
Proof.
  induction ops as [|o ops IH]; intros bl last peer from Hfrom Hmono Hinv t Hall Ht; [by apply Hinv|].
  cbn [monotone] in Hmono. destruct Hmono as [[Hle Hmax] Hmono]. cbn [run foldl last_ban].
  apply (IH _ _ peer (op_time o)); [lia|done| | |].
  - intros t' Ht'. destruct o as [p points now|now]; cbn [apply op_time] in *.
    + rewrite record_banned by lia. destruct (bool_decide (p = peer) && _); [done|]. apply Hinv. lia.
    + rewrite decay_banned by done. apply Hinv. lia.
  - intros o' Ho'. apply Hall. by right.
  - apply Hall. by left.
Qed.

Lemma run_scores ops peer : forall bl last total,
  Forall fair_op ops -> (forall p, 0 <= total p) -> scores_within bl total ->
  total peer + points_of peer ops < 100 -> last = None -> last_ban peer bl ops last = None.
Proof.
  induction ops as [|o ops IH]; intros bl last total Hfair Htot Hs Hlt ->; [done|].
  apply Forall_cons in Hfair as [Ho Hfair].
  assert (0 <= points_of peer ops) as Hpos.
  { clear - Hfair. induction Hfair as [|o ops Ho _ IH]; [done|]. destruct o; cbn in *; [|done]. case_bool_decide; lia. }
  cbn [last_ban points_of] in *. destruct o as [p points now|now]; cbn [apply fair_op] in *.
  - destruct (record_scores bl total p points now Ho Htot Hs) as [Hs' Hreach].
    refine (IH _ _ _ Hfair _ Hs' _ _).
    + intros q. cbn beta; pose proof (Htot q). destruct (bool_decide (p = q)); lia.
    + cbn beta. destruct (bool_decide (p = peer)); lia.
    + case_bool_decide as Hp; [|done]. subst p. cbn [andb].
      destruct (record_at bl peer points now).2; [|done]. specialize (Hreach eq_refl). lia.
  - exact (IH _ _ total Hfair Htot (decay_scores _ _ _ Hs) Hlt eq_refl).
Qed.

(** While the clock does not run backwards, a peer is banned at a time exactly
    when the last of its offences that reached the threshold is less than ten
    minutes old, whatever else is recorded or decayed; and a peer with less than a
    hundred points in all is never banned. *)
Theorem bans_exact (n : Network) (ops : list op) (peer : bytes) (t : Z) :
  monotone 0 ops -> 0 <= t -> (forall o, o ∈ ops -> op_time o <= t) ->
  is_banned (run (new n) ops) peer t = banned_spec (last_ban peer (new n) ops None) t
  /\ (Forall fair_op ops -> points_of peer ops < 100 -> is_banned (run (new n) ops) peer t = false).
Proof.
  intros Hmono Ht Hall.
  assert (is_banned (run (new n) ops) peer t = banned_spec (last_ban peer (new n) ops None) t) as Heq.
  { by apply (run_bans ops (new n) None peer 0). }
  split; [done|]. intros Hfair Hlt. rewrite Heq.
  rewrite (run_scores ops peer (new n) None (fun _ => 0)); [done|done|done| |done|done].
  intros p e He. cbn [entries new] in He. by rewrite lookup_empty in He.
Qed.
End bans.

Definition sample_ops : list op :=
  [Record_ (str_bytes "a") 40 100; Record_ (str_bytes "b") 99 110; Record_ (str_bytes "a") 60 120; Decay 500].
Lemma bans_exact_witness :
  is_banned (run (Henv:=fun _ => None) (new Testnet) sample_ops) (str_bytes "a") 700 = true
  /\ is_banned (run (Henv:=fun _ => None) (new Testnet) sample_ops) (str_bytes "b") 700 = false.
Proof.
  assert (monotone 0 sample_ops) as Hm.
  { cbn [monotone sample_ops op_time]. unfold U64_MAX. lia. }
  assert (forall o, o ∈ sample_ops -> op_time o <= 700) as Hall.
  { apply Forall_forall. repeat constructor; discriminate. }
  split.
  - destruct (bans_exact (Henv:=fun _ => None) Testnet sample_ops (str_bytes "a") 700 Hm) as [H _]; [lia|exact Hall|].
    rewrite H. vm_compute. reflexivity.
  - apply (bans_exact (Henv:=fun _ => None) Testnet sample_ops (str_bytes "b") 700 Hm); [lia|exact Hall| |].
    + repeat constructor; discriminate.
    + vm_compute. reflexivity.
Defined.
