(* ===== verification/HeadersSync.v ===== *)
(** * Headers-first synchronization

    crates/atho-p2p/src/sync.rs: the target a node synchronizes to, the locators
    it asks with, and the header batches it accepts in answer. *)
From stdpp Require Import options.
From S2P Require Import Prelude Bytes Text Constants Crypto Keccak Network Rules Transaction Block Pow Genesis P2pConfig.
From S2P Require Import Protocol.

#[local] Set Default Proof Using "Type*".

(* src: p2p_sync.rs:13-13 MAX_OUTSTANDING_HEADER_LOCATORS_PER_PEER *)
Definition MAX_OUTSTANDING_HEADER_LOCATORS_PER_PEER : nat := 16.

(* src: p2p_sync.rs:15-25 SyncState *)
Record SyncState := {
  best_height : Z;
  headers_synced : bool;
  best_tip : option Hash48;
  best_chainwork : option Hash48;
  inflight_headers_peer : option bytes;
  locator_hashes : list Hash48;
  requested_locator_hashes : list Hash48;
  requested_locator_hashes_by_peer : gmap bytes (list (list Hash48));
}.

(* src: p2p_sync.rs:335-340 ChainTipCandidate *)
Record ChainTipCandidate := { ct_height : Z; ct_tip : option Hash48; ct_chainwork : option Hash48 }.

(* src: p2p_sync.rs:342-344 known_chainwork *)
Definition known_chainwork (chainwork : option Hash48) : option Hash48 :=
  match chainwork with
  | Some work => if bool_decide (work = Hash48_ZERO) then None else Some work
  | None => None
  end.

(* src: p2p_sync.rs:346-355 compare_tip_candidates *)
Definition compare_tip_candidates (candidate current : ChainTipCandidate) : comparison :=
  match ct_chainwork candidate, ct_chainwork current with
  | Some candidate_work, Some current_work =>
      if bool_decide (candidate_work = current_work) then ct_height candidate ?= ct_height current
      else bytes_compare candidate_work current_work
  | _, _ => ct_height candidate ?= ct_height current
  end.

(* src: p2p_sync.rs:357-368 chainwork_hash *)
Definition chainwork_hash (blocks : list Block) : Hash48 := be_bytes 48 (accumulated_chain_work blocks).

(** [locator_hashes.retain(..); insert(0, hash); truncate(32)]. *)
Definition promote (hash : Hash48) (locator : list Hash48) : list Hash48 :=
  take 32 (hash :: filter (fun h => h <> hash) locator).

Section locator.
Context `{Hs : Sha3}.

Definition hash_at (blocks : list Block) (index : Z) : Hash48 :=
  match blocks !! Z.to_nat index with Some b => BlockHeader.block_hash (header b) | None => [] end.

(** The loop; [count] is [hashes.len()]. *)
Fixpoint locator_indexes (fuel : nat) (index step count : Z) : option (list Z) :=
  match fuel with
  | O => None
  | S fuel =>
      if index =? 0 then Some [index]
      else
        let count := count + 1 in
        let step := if 10 <=? count then Z.min USIZE_MAX (step * 2) else step in
        let next := saturating_sub index step in
        if next =? 0 then Some [index; 0] else cons index <$> locator_indexes fuel next step count
  end.

(** Every round moves the index, so that one round per block is enough. *)
(* src: p2p_sync.rs:308-333 block_locator *)
Definition block_locator (blocks : list Block) : option (list Hash48) :=
  match blocks with
  | [] => Some []
  | _ => (fun indexes : list Z => hash_at blocks <$> indexes) <$> locator_indexes (length blocks) (zlen blocks - 1) 1 0
  end.
End locator.

Module SyncState.

(* src: p2p_sync.rs:15-25 SyncState (Default) *)
Definition initial : SyncState :=
  {| best_height := 0; headers_synced := false; best_tip := None; best_chainwork := None;
     inflight_headers_peer := None; locator_hashes := []; requested_locator_hashes := [];
     requested_locator_hashes_by_peer := ∅ |}.

(** The current target. *)
Definition target (s : SyncState) : ChainTipCandidate :=
  {| ct_height := best_height s; ct_tip := best_tip s; ct_chainwork := best_chainwork s |}.

(* src: p2p_sync.rs:301-305 SyncState::clear_requested_header_locators *)
Definition clear_requested_header_locators (s : SyncState) : SyncState :=
  {| best_height := best_height s; headers_synced := headers_synced s; best_tip := best_tip s;
     best_chainwork := best_chainwork s; inflight_headers_peer := None; locator_hashes := locator_hashes s;
     requested_locator_hashes := []; requested_locator_hashes_by_peer := ∅ |}.

(** [s] with another target. *)
Definition with_target (s : SyncState) (t : ChainTipCandidate) (synced : bool) : SyncState :=
  {| best_height := ct_height t; headers_synced := synced; best_tip := ct_tip t; best_chainwork := ct_chainwork t;
     inflight_headers_peer := inflight_headers_peer s; locator_hashes := locator_hashes s;
     requested_locator_hashes := requested_locator_hashes s;
     requested_locator_hashes_by_peer := requested_locator_hashes_by_peer s |}.
Definition with_locator (s : SyncState) (locator : list Hash48) : SyncState :=
  {| best_height := best_height s; headers_synced := headers_synced s; best_tip := best_tip s;
     best_chainwork := best_chainwork s; inflight_headers_peer := inflight_headers_peer s; locator_hashes := locator;
     requested_locator_hashes := requested_locator_hashes s;
     requested_locator_hashes_by_peer := requested_locator_hashes_by_peer s |}.
Definition with_synced (s : SyncState) (synced : bool) : SyncState := with_target s (target s) synced.
Definition with_requests (s : SyncState) (inflight : option bytes) (requested : list Hash48)
    (by_peer : gmap bytes (list (list Hash48))) : SyncState :=
  {| best_height := best_height s; headers_synced := headers_synced s; best_tip := best_tip s;
     best_chainwork := best_chainwork s; inflight_headers_peer := inflight; locator_hashes := locator_hashes s;
     requested_locator_hashes := requested; requested_locator_hashes_by_peer := by_peer |}.

(* src: p2p_sync.rs:51-72 SyncState::prime_with_locator_and_chainwork *)
Definition prime_with_locator_and_chainwork (s : SyncState) (height : Z) (tip chainwork : option Hash48)
    (locator : list Hash48) : SyncState :=
  with_synced (clear_requested_header_locators
    (with_locator (with_target s {| ct_height := height; ct_tip := tip; ct_chainwork := known_chainwork chainwork |}
                     (headers_synced s)) locator)) true.

(* src: p2p_sync.rs:42-49 SyncState::prime_with_locator *)
Definition prime_with_locator (s : SyncState) (height : Z) (tip : option Hash48) (locator : list Hash48) : SyncState :=
  prime_with_locator_and_chainwork s height tip None locator.

(* src: p2p_sync.rs:74-102 SyncState::request_headers *)
Definition request_headers (s : SyncState) (peer : bytes) (stop_hash : Hash48) : SyncState * GetHeadersMessage :=
  let peer_locators := default [] (requested_locator_hashes_by_peer s !! peer) ++ [locator_hashes s] in
  let peer_locators := drop (length peer_locators - MAX_OUTSTANDING_HEADER_LOCATORS_PER_PEER) peer_locators in
  (with_requests s (Some peer) (locator_hashes s) (<[peer := peer_locators]> (requested_locator_hashes_by_peer s)),
   {| gh_locator_hashes := locator_hashes s; gh_stop_hash := stop_hash |}).

(* src: p2p_sync.rs:228-253 SyncState::observe_tip *)
Definition observe_tip (s : SyncState) (height : Z) (tip chainwork : option Hash48) : SyncState * bool :=
  let observed := {| ct_height := height; ct_tip := tip; ct_chainwork := known_chainwork chainwork |} in
  match compare_tip_candidates observed (target s) with
  | Gt => (with_target s observed false, true)
  | _ => (s, false)
  end.

(* src: p2p_sync.rs:255-280 SyncState::note_local_tip *)
Definition note_local_tip (s : SyncState) (height : Z) (tip chainwork : option Hash48) : SyncState :=
  let local := {| ct_height := height; ct_tip := tip; ct_chainwork := known_chainwork chainwork |} in
  match compare_tip_candidates local (target s) with
  | Lt => with_synced s false
  | _ =>
      clear_requested_header_locators
        (with_target s {| ct_height := height; ct_tip := tip;
                          ct_chainwork := match ct_chainwork local with Some w => Some w | None => best_chainwork s end |} true)
  end.

(* src: p2p_sync.rs:282-299 SyncState::local_tip_satisfies_target *)
Definition local_tip_satisfies_target (s : SyncState) (height : Z) (tip chainwork : option Hash48) : bool :=
  match compare_tip_candidates {| ct_height := height; ct_tip := tip; ct_chainwork := known_chainwork chainwork |} (target s) with
  | Lt => false
  | _ => true
  end.

(* src: p2p_sync.rs:130-157 SyncState::take_requested_locator_for_headers *)
Definition take_requested_locator_for_headers (s : SyncState) (peer : bytes) (headers : list BlockHeader) :
    SyncState * option (list Hash48) :=
  match requested_locator_hashes_by_peer s !! peer with
  | None => (s, None)
  | Some locators =>
      let by_peer := delete peer (requested_locator_hashes_by_peer s) in
      let '(locator, locators, matched) :=
        match headers with
        | first :: _ =>
            match position (fun locator => bool_decide (previous_block_hash first ∈ locator)) locators with
            | Some index => (default [] (locators !! index), delete index locators, true)
            | None => (default [] (head locators), locators, false)
            end
        | [] =>
            match locators with
            | [] => ([], [], false)
            | locator :: locators => (locator, locators, true)
            end
        end in
      (with_requests s (inflight_headers_peer s) (requested_locator_hashes s)
         (if negb (bool_decide (locators = [])) || negb matched then <[peer := locators]> by_peer else by_peer),
       Some locator)
  end.

Section headers.
Context `{Henv : ProcessEnv, Hs : Sha3}.

(* src: p2p_sync.rs:28-40 SyncState::prime *)
Definition prime (s : SyncState) (blocks : list Block) : option SyncState :=
  let height := match last blocks with Some b => height (header b) | None => 0 end in
  let tip := (fun b => BlockHeader.block_hash (header b)) <$> last blocks in
  prime_with_locator_and_chainwork s height tip (Some (chainwork_hash blocks)) <$> block_locator blocks.

(** The checks of one header, and of two in a row. *)
Definition header_work_ok (network : Network) (h : BlockHeader) : bool :=
  bool_decide (network_id h = network) && target_within_bounds (difficulty_target_or_bits h)
  && meets_target (BlockHeader.block_hash h) (difficulty_target_or_bits h).
Definition follows (l r : BlockHeader) : bool :=
  bool_decide (previous_block_hash r = BlockHeader.block_hash l)
  && (height r =? saturating_add U64_MAX (height l) 1).
Fixpoint linked (headers : list BlockHeader) : bool :=
  match headers with
  | l :: (r :: _) as rest => follows l r && linked rest
  | _ => true
  end.

(** What an accepted batch does to the target. *)
Definition advance (network : Network) (s : SyncState) (headers : list BlockHeader) : SyncState :=
  match last headers with
  | None => with_synced s true
  | Some l =>
      let reaches_prior_target := best_height s <=? height l in
      let should_advance_locator := reaches_prior_target || negb (headers_synced s) in
      let s' := with_target s
        {| ct_height := Z.max (best_height s) (height l);
           ct_tip := if should_advance_locator then Some (BlockHeader.block_hash l) else best_tip s;
           ct_chainwork := best_chainwork s |}
        (if reaches_prior_target then zlen headers <? max_headers_per_message (network_limits network)
         else headers_synced s) in
      if should_advance_locator then with_locator s' (promote (BlockHeader.block_hash l) (locator_hashes s)) else s'
  end.

(* src: p2p_sync.rs:159-226 SyncState::accept_headers_with_locator *)
Definition accept_headers_with_locator (s : SyncState) (network : Network) (headers : list BlockHeader)
    (requested : list Hash48) : SyncState * result ProtocolError unit :=
  if max_headers_per_message (network_limits network) <? zlen headers then (s, Err TooManyHeaders)
  else if match headers with
          | first :: _ => negb (bool_decide (requested = [])) && negb (bool_decide (previous_block_hash first ∈ requested))
          | [] => false
          end then (s, Err InvalidHeadersSequence)
  else if negb (forallb (header_work_ok network) headers) then (s, Err InvalidHeadersSequence)
  else if negb (linked headers) then (s, Err InvalidHeadersSequence)
  else (advance network s headers, Ok tt).

(* src: p2p_sync.rs:104-112 SyncState::accept_headers *)
Definition accept_headers (s : SyncState) (network : Network) (headers : list BlockHeader) :
    SyncState * result ProtocolError unit :=
  match accept_headers_with_locator s network headers (requested_locator_hashes s) with
  | (s, Ok _) => (clear_requested_header_locators s, Ok tt)
  | failed => failed
  end.

(* src: p2p_sync.rs:114-128 SyncState::accept_headers_from_peer *)
Definition accept_headers_from_peer (s : SyncState) (peer : bytes) (network : Network) (headers : list BlockHeader) :
    SyncState * result ProtocolError unit :=
  let '(s, taken) := take_requested_locator_for_headers s peer headers in
  let requested := default (requested_locator_hashes s) taken in
  match accept_headers_with_locator s network headers requested with
  | (s, Ok _) =>
      let inflight := if bool_decide (inflight_headers_peer s = Some peer) then None else inflight_headers_peer s in
      (with_requests s inflight (requested_locator_hashes s) (requested_locator_hashes_by_peer s), Ok tt)
  | failed => failed
  end.
End headers.
End SyncState.

Import SyncState.

(** ** Locators *)

(** The distance between the locator's entries [count] and [count + 1], and the
    reach of [n] steps. *)
Definition stride (count : Z) : Z := 2 ^ Z.max 0 (count - 8).
Fixpoint reach (n : nat) (count : Z) : Z :=
  match n with
  | O => 0
  | S n => stride count + reach n (count + 1)
  end.

Lemma stride_pos count : 1 <= stride count.
Proof. unfold stride. pose proof (Z.pow_pos_nonneg 2 (Z.max 0 (count - 8))). lia. Qed.
Lemma stride_next count : stride count <= stride (count + 1) <= 2 * stride count.
Proof.
  unfold stride. replace (2 * 2 ^ Z.max 0 (count - 8)) with (2 ^ (1 + Z.max 0 (count - 8)))
    by (rewrite Z.pow_add_r; lia).
  split; apply Z.pow_le_mono_r; lia.
Qed.
Lemma reach_nonneg n count : 0 <= reach n count.
Proof. revert count. induction n as [|n IH]; intros count; cbn; [done|]. pose proof (stride_pos count). pose proof (IH (count + 1)). lia. Qed.

(** What a locator looks like from an index on. *)
Record locator_spec (count index : Z) (indexes : list Z) : Prop := {
  ls_head : head indexes = Some index;
  ls_last : last indexes = Some 0;
  ls_gaps : forall k i j, indexes !! k = Some i -> indexes !! S k = Some j ->
    j = Z.max 0 (i - stride (count + Z.of_nat k)) /\ j < i;
  ls_length : forall n, (length indexes <= S n)%nat <-> index <= reach n count;
}.

Lemma gaps_cons count index next rest :
  0 < index -> next = Z.max 0 (index - stride count) -> head rest = Some next ->
  (forall k i j, rest !! k = Some i -> rest !! S k = Some j ->
     j = Z.max 0 (i - stride (count + 1 + Z.of_nat k)) /\ j < i) ->
  forall k i j, (index :: rest) !! k = Some i -> (index :: rest) !! S k = Some j ->
     j = Z.max 0 (i - stride (count + Z.of_nat k)) /\ j < i.
Proof.
  intros Hi Hn Hh Hrest [|k] i j H1 H2.
  - injection H1 as <-. destruct rest as [|r rest]; [done|]. injection Hh as ->. injection H2 as <-.
    pose proof (stride_pos count). rewrite Z.add_0_r. lia.
  - replace (count + Z.of_nat (S k)) with (count + 1 + Z.of_nat k) by lia. by apply Hrest.
Qed.

Lemma locator_indexes_spec fuel : forall index count,
  0 <= index < Z.of_nat fuel -> 0 <= count -> index + stride count <= 2 ^ 63 ->
  exists indexes, locator_indexes fuel index (2 ^ Z.max 0 (count - 9)) count = Some indexes
    /\ locator_spec count index indexes.
Proof.
  induction fuel as [|fuel IH]; intros index count Hindex Hcount Hfit; [lia|]. cbn [locator_indexes].
  pose proof (stride_pos count) as Hpos. pose proof (stride_next count) as Hnext.
  destruct (index =? 0) eqn:E0.
  { apply Z.eqb_eq in E0 as ->. exists [0]. split; [done|]. split; [done|done| |].
    - by intros [|k] i j _ H.
    - intros n. pose proof (reach_nonneg n count). cbn. split; lia. }
  apply Z.eqb_neq in E0. cbn zeta.
  assert ((if 10 <=? count + 1 then Z.min USIZE_MAX (2 ^ Z.max 0 (count - 9) * 2) else 2 ^ Z.max 0 (count - 9))
          = stride count) as ->.
  { unfold stride in *. destruct (10 <=? count + 1) eqn:E; [apply Z.leb_le in E|apply Z.leb_gt in E].
    - replace (Z.max 0 (count - 8)) with (1 + Z.max 0 (count - 9)) in * by lia. rewrite Z.pow_add_r in * by lia.
      unfold USIZE_MAX. lia.
    - by replace (Z.max 0 (count - 9)) with (Z.max 0 (count - 8)) by lia. }
  unfold saturating_sub. destruct (Z.max 0 (index - stride count) =? 0) eqn:En.
  { apply Z.eqb_eq in En. exists [index; 0]. split; [done|]. split; [done|done| |].
    - apply (gaps_cons count index 0); [lia|lia|done|]. by intros [|k] i j _ H.
    - intros [|n]; cbn [length reach]; [lia|]. pose proof (reach_nonneg n (count + 1)). lia. }
  apply Z.eqb_neq in En. fold (stride (count + 1)).
  destruct (IH (Z.max 0 (index - stride count)) (count + 1)) as (rest & Hrun & Hspec); [lia|lia|lia|].
  replace (count + 1 - 9) with (count - 8) in Hrun by lia. fold (stride count) in Hrun.
  rewrite Hrun. cbn [fmap option_fmap option_map]. exists (index :: rest). split; [done|].
  destruct Hspec as [Hh Hl Hg Hlen]. split; [done| | |].
  - rewrite last_cons, Hl. done.
  - by apply (gaps_cons count index (Z.max 0 (index - stride count))); [lia|..].
  - intros [|n]; cbn [length reach].
    + destruct rest; [done|]. cbn. lia.
    + rewrite <- Nat.succ_le_mono, Hlen. pose proof (reach_nonneg n (count + 1)). lia.
Qed.

Section locator_claim.
Context `{Henv : ProcessEnv, Hs : Sha3, Hb : Bincode}.

(** A chain's locator is found in at most one round per block. It names the
    tip, then the nine blocks before it, then blocks at doubling distances, and
    always ends with genesis; it fits a request of 32 hashes exactly while the
    chain has at most 8,388,616 blocks. *)
Theorem block_locator_shape (blocks : list Block) :
  0 < zlen blocks < 2 ^ 63 ->
  exists indexes, block_locator blocks = Some (hash_at blocks <$> indexes)
    /\ head indexes = Some (zlen blocks - 1) /\ last indexes = Some 0
    /\ (forall k i j, indexes !! k = Some i -> indexes !! S k = Some j ->
          j = Z.max 0 (i - 2 ^ Z.max 0 (Z.of_nat k - 8)) /\ j < i)
    /\ (zlen indexes <= 32 <-> zlen blocks <= 8388616).
Proof.
  intros Hlen.
  destruct (locator_indexes_spec (length blocks) (zlen blocks - 1) 0) as (indexes & Hrun & [Hh Hl Hg Hn]).
  { unfold zlen in *. lia. }
  { done. }
  { change (stride 0) with 1. lia. }
  exists indexes. split_and!; [|done|done|exact Hg|].
  - unfold block_locator. destruct blocks; [by destruct Hlen|].
    change (2 ^ Z.max 0 (0 - 9)) with 1 in Hrun. by rewrite Hrun.
  - specialize (Hn 31%nat). replace (reach 31 0) with 8388615 in Hn by by vm_compute. unfold zlen in *. lia.
Qed.
End locator_claim.

Lemma block_locator_shape_witness :
  0 < zlen (replicate 12 sample_block) < 2 ^ 63
  /\ exists indexes, block_locator (Hs:=checksum_sha3) (replicate 12 sample_block) = Some (hash_at (Hs:=checksum_sha3) (replicate 12 sample_block) <$> indexes).
Proof.
  assert (0 < zlen (replicate 12 sample_block) < 2 ^ 63) as H by (vm_compute; split; reflexivity).
  split; [exact H|]. destruct (block_locator_shape (Hs:=checksum_sha3) (replicate 12 sample_block) H) as (indexes & Hl & _).
  exists indexes. exact Hl.
Defined.

(** ** Header batches *)

Section batches.
Context `{Henv : ProcessEnv, Hs : Sha3}.

(** The locators that are outstanding for a peer answer to this first header: one
    of them names its parent, or there is nothing to compare with. *)
Definition attaches (s : SyncState) (peer : bytes) (headers : list BlockHeader) : Prop :=
  match headers with
  | [] => True
  | first :: _ =>
      match requested_locator_hashes_by_peer s !! peer with
      | Some locators =>
          (exists locator, locator ∈ locators /\ previous_block_hash first ∈ locator) \/ default [] (head locators) = []
      | None => requested_locator_hashes s = [] \/ previous_block_hash first ∈ requested_locator_hashes s
      end
  end.

(** Every header carries the work it claims, on this network. *)
Definition worked (n : Network) (h : BlockHeader) : Prop :=
  network_id h = n /\ target_within_bounds (difficulty_target_or_bits h) = true
  /\ meets_target (BlockHeader.block_hash h) (difficulty_target_or_bits h) = true.
Definition chained (headers : list BlockHeader) : Prop :=
  forall k l r, headers !! k = Some l -> headers !! S k = Some r ->
  previous_block_hash r = BlockHeader.block_hash l /\ height r = Z.min U64_MAX (height l + 1).

Lemma header_work_ok_spec n h : header_work_ok n h = true <-> worked n h.
Proof. unfold header_work_ok, worked. rewrite !andb_true_iff, bool_decide_eq_true. tauto. Qed.

Lemma linked_spec headers : linked headers = true <-> chained headers.
Proof.
  induction headers as [|l rest IH]; [done|]. destruct rest as [|r rest].
  { split; [|done]. by intros _ [|k] ? ? _ H. }
  change (linked (l :: r :: rest)) with (follows l r && linked (r :: rest)).
  rewrite andb_true_iff, IH. unfold follows. rewrite andb_true_iff, bool_decide_eq_true, Z.eqb_eq. split.
  - intros [Hf Hrest] [|k] l' r' H1 H2; [|by apply (Hrest k)].
    injection H1 as <-. injection H2 as <-. exact Hf.
  - intros Hc. split; [exact (Hc 0%nat l r eq_refl eq_refl)|]. intros k. apply (Hc (S k)).
Qed.

Lemma accept_with_locator_Ok s n headers requested :
  (accept_headers_with_locator s n headers requested).2 = Ok tt <->
  zlen headers <= max_headers_per_message (network_limits n)
  /\ match headers with first :: _ => requested = [] \/ previous_block_hash first ∈ requested | [] => True end
  /\ Forall (worked n) headers /\ chained headers.
Proof.
  unfold accept_headers_with_locator. rewrite <- linked_spec.
  assert (forallb (header_work_ok n) headers = true <-> Forall (worked n) headers) as <-.
  { rewrite List.forallb_forall, Forall_forall. setoid_rewrite <- header_work_ok_spec.
    by setoid_rewrite list_elem_of_In. }
  destruct (_ <? _) eqn:Hmax; [apply Z.ltb_lt in Hmax|apply Z.ltb_ge in Hmax].
  { cbn [snd]. split; [done|]. lia. }
  assert (match headers with
          | first :: _ => negb (bool_decide (requested = [])) && negb (bool_decide (previous_block_hash first ∈ requested))
          | [] => false
          end = false <->
          match headers with first :: _ => requested = [] \/ previous_block_hash first ∈ requested | [] => True end) as Hatt.
  { destruct headers as [|first ?]; [done|].
    rewrite andb_false_iff, !negb_false_iff, !bool_decide_eq_true. done. }
  destruct (match headers with [] => false | _ => _ end) eqn:E.
  { cbn [snd]. split; [done|]. intros (_ & Ha & _). by apply Hatt in Ha. }
  destruct (forallb _ headers); cbn [negb snd]; [|by split; [|intros (_ & _ & ? & _)]].
  destruct (linked headers); cbn [negb snd]; [|by split; [|intros (_ & _ & _ & ?)]].
  split; [|done]. intros _. split_and!; [done|by apply Hatt|done|done].
Qed.

Lemma accept_with_locator_state s n headers requested :
  (accept_headers_with_locator s n headers requested).1 =
    if is_ok (accept_headers_with_locator s n headers requested).2 then advance n s headers else s.
Proof. unfold accept_headers_with_locator. by repeat case_match. Qed.

(** The locator taken for a batch answers exactly to the batches that attach. *)
Lemma taken_locator s peer headers s1 taken :
  take_requested_locator_for_headers s peer headers = (s1, taken) ->
  let requested := default (requested_locator_hashes s1) taken in
  (match headers with first :: _ => requested = [] \/ previous_block_hash first ∈ requested | [] => True end
   <-> attaches s peer headers)
  /\ target s1 = target s /\ headers_synced s1 = headers_synced s /\ locator_hashes s1 = locator_hashes s
  /\ requested_locator_hashes s1 = requested_locator_hashes s.
Proof.
  unfold take_requested_locator_for_headers, attaches.
  destruct (requested_locator_hashes_by_peer s !! peer) as [locators|]; [|intros [= <- <-]; by destruct headers].
  destruct headers as [|first rest].
  { destruct locators; intros [= <- <-]; by cbn. }
  destruct (position _ locators) as [index|] eqn:Ep; cbn zeta; intros [= <- <-].
  - split; [|done]. apply position_Some in Ep as (locator & Hi & Hin). apply bool_decide_eq_true in Hin.
    cbn. rewrite Hi. cbn. split; [|by right]. intros _. left. exists locator. split; [|done].
    by eapply list_elem_of_lookup_2.
  - split; [|done]. cbn. assert (forall locator, locator ∈ locators -> previous_block_hash first ∉ locator) as Hno.
    { intros locator Hl Hin. rewrite position_None in Ep. specialize (Ep locator Hl). by apply bool_decide_eq_false in Ep. }
    split.
    + intros [Hnil|Hin]; [by right|]. destruct locators as [|l ?]; [by right|]. left. exists l. split; [by left|done].
    + intros [(l & Hl & Hin)|Hnil]; [by destruct (Hno l Hl)|by left].
Qed.
End batches.

Section batch_claims.
Context `{Henv : ProcessEnv, Hs : Sha3}.

End batch_claims.

Definition sample_headers_at (h time : Z) (parent : bytes) : BlockHeader :=
  {| h_version := 1; network_id := Testnet; height := h; previous_block_hash := parent;
     h_merkle_root := zeros 48; h_witness_root := zeros 48;
     founders_hash_sha3_384 := FOUNDERS_HASH_SHA3_384; founders_hash_sha3_512 := FOUNDERS_HASH_SHA3_512;
     timestamp := time; difficulty_target_or_bits := initial_target_for_network Testnet; nonce := 7 |}.
Definition sample_batch : list BlockHeader :=
  let first := sample_headers_at 4 100 (zeros 48) in
  [first; sample_headers_at 5 200 (BlockHeader.block_hash (H:=checksum_sha3) first)].
(** Synced to height 3, with a request to peer "a" under way. *)
Definition sample_sync : SyncState :=
  (request_headers (prime_with_locator initial 3 (Some (zeros 48)) [zeros 48]) (str_bytes "a") (zeros 48)).1.


(** ** Competing tips *)

Notation better a b := (compare_tip_candidates a b = Gt).

Lemma work_gt_trans w1 w2 w3 : bytes_compare w1 w2 = Gt -> bytes_compare w2 w3 = Gt -> bytes_compare w1 w3 = Gt.
Proof.
  rewrite (bytes_compare_antisym w2 w1), (bytes_compare_antisym w3 w2), (bytes_compare_antisym w3 w1).
  rewrite !CompOpp_iff. cbn. intros H12 H23. by apply (bytes_compare_lt_trans _ w2).
Qed.
Lemma better_known a b wa wb :
  ct_chainwork a = Some wa -> ct_chainwork b = Some wb ->
  better a b <-> bytes_compare wa wb = Gt \/ wa = wb /\ ct_height b < ct_height a.
Proof.
  intros Ha Hb. unfold compare_tip_candidates. rewrite Ha, Hb. case_bool_decide as E.
  - subst wb. rewrite bytes_compare_refl, Z.compare_gt_iff. intuition discriminate.
  - tauto.
Qed.
Lemma better_unknown a b :
  ct_chainwork a = None \/ ct_chainwork b = None -> better a b <-> ct_height b < ct_height a.
Proof.
  intros H. unfold compare_tip_candidates. rewrite <- Z.compare_gt_iff.
  destruct H as [->| ->]; [done|]. by destruct (ct_chainwork a).
Qed.

(** A taller tip wins when its work or the target's is unknown. *)
Lemma observe_taller s h tip work :
  known_chainwork work = None \/ best_chainwork s = None -> best_height s < h ->
  observe_tip s h tip work =
    (with_target s {| ct_height := h; ct_tip := tip; ct_chainwork := known_chainwork work |} false, true).
Proof. intros Hw Hh. unfold observe_tip. cbn zeta.
  by rewrite (proj2 (better_unknown {| ct_height := h; ct_tip := tip; ct_chainwork := known_chainwork work |} (target s) Hw) Hh).
Qed.

(** Among tips whose work is known, or among tips whose work is unknown, the
    preference is a strict order; but a tip of unknown work between the heights of
    two others closes a cycle, so that observing three tips in turn moves the
    target to one with less known work than it started with. *)
Theorem tip_preference_cycles :
  (forall a b c : ChainTipCandidate,
     (forall t, t ∈ [a; b; c] -> is_Some (ct_chainwork t)) \/ (forall t, t ∈ [a; b; c] -> ct_chainwork t = None) ->
     ~ better a a /\ (better a b -> ~ better b a) /\ (better a b -> better b c -> better a c))
  /\ forall (s : SyncState) w w' tip1 tip2,
       best_chainwork s = Some w -> bytes_compare w w' = Gt -> w' <> Hash48_ZERO ->
       exists s1 s2,
         observe_tip s (best_height s + 1) tip1 None = (s1, true)
         /\ observe_tip s1 (best_height s + 2) tip2 (Some w') = (s2, true)
         /\ best_chainwork s2 = Some w'.
Proof.
  split.
  - intros a b c [Hk|Hu].
    + destruct (Hk a) as [wa Ha]; [set_solver|]. destruct (Hk b) as [wb Hb]; [set_solver|].
      destruct (Hk c) as [wc Hc]; [set_solver|].
      rewrite (better_known a a wa wa), (better_known a b wa wb), (better_known b a wb wa), (better_known b c wb wc),
        (better_known a c wa wc) by done.
      rewrite bytes_compare_refl, (bytes_compare_antisym wa wb).
      split_and!.
      * intros [?|[_ ?]]; [done|lia].
      * intros [H1|[E1 H1]] [H2|[E2 H2]]; subst; rewrite ?bytes_compare_refl in *; try done; try lia.
        by rewrite H1 in H2.
      * intros [H1|[-> H1]] [H2|[-> H2]]; [left; by apply (work_gt_trans _ wb)|by left|by left|right; split; [done|lia]].
    + rewrite !better_unknown by (left; apply Hu; set_solver). lia.
  - intros s w w' tip1 tip2 Hw Hgt Hw'. eexists _, _. split; [|split].
    + apply observe_taller; [by left|lia].
    + apply observe_taller; [by right|cbn; lia].
    + cbn. by rewrite bool_decide_false.
Qed.

Lemma tip_preference_cycles_witness :
  exists s1 s2,
    observe_tip (prime_with_locator_and_chainwork initial 10 None (Some (be_bytes 48 9)) []) 11 None None = (s1, true)
    /\ observe_tip s1 12 None (Some (be_bytes 48 1)) = (s2, true) /\ best_chainwork s2 = Some (be_bytes 48 1).
Proof.
  apply (proj2 tip_preference_cycles (prime_with_locator_and_chainwork initial 10 None (Some (be_bytes 48 9)) [])
           (be_bytes 48 9) (be_bytes 48 1) None None).
  - vm_compute. reflexivity.
  - vm_compute. reflexivity.
  - vm_compute. discriminate.
Defined.
