(* ===== verification/Downloader.v ===== *)
(** * Block downloads

    crates/atho-p2p/src/downloader.rs: which blocks are wanted, which peer was
    asked for which, and how requests are spread over peers. [Instant::now()] is an
    argument. The maps of the code are kept as they are, with their redundancy;
    [consistent] says how they agree, and [scheduler_refines_block_states] that
    every operation moves each block through one small state machine. *)
From stdpp Require Import options.
From S2P Require Import Prelude Bytes Text Constants Network P2pConfig Crypto Rules Transaction Block.
From S2P Require Import Protocol.

#[local] Set Default Proof Using "Type*".

(* src: downloader.rs:9-9 PEER_TIMEOUT_PENALTY *)
Definition PEER_TIMEOUT_PENALTY : Z := 12.
(* src: downloader.rs:10-10 PEER_NOT_FOUND_PENALTY *)
Definition PEER_NOT_FOUND_PENALTY : Z := 6.
(* src: downloader.rs:11-11 PEER_DISCONNECT_PENALTY *)
Definition PEER_DISCONNECT_PENALTY : Z := 18.
(* src: downloader.rs:12-12 PEER_SUCCESS_DECAY *)
Definition PEER_SUCCESS_DECAY : Z := 4.
(* src: downloader.rs:13-13 PEER_PENALTY_CAP *)
Definition PEER_PENALTY_CAP : Z := 100.

(* src: downloader.rs:15-19 DownloadAssignment *)
Record DownloadAssignment := { da_peer : bytes; da_inventory : list InventoryVector }.
(* src: downloader.rs:21-25 StaleDownload *)
Record StaleDownload := { sd_peer : bytes; sd_hash : Hash48 }.
(* src: downloader.rs:27-34 DownloadStats *)
Record DownloadStats := {
  st_ready_peers : Z;
  st_pending_blocks : Z;
  st_inflight_blocks : Z;
  st_completed_blocks : Z;
  st_penalized_peers : Z;
}.

(* src: downloader.rs:36-47 BlockDownloadScheduler *)
Record BlockDownloadScheduler := {
  ready_peers : gset bytes;
  pending : list Hash48;
  inflight_by_peer : gmap bytes (list Hash48);
  inflight_owner : gmap Hash48 bytes;
  inflight_started : gmap Hash48 Z;
  peer_hints : gmap Hash48 (gset bytes);
  failed_peers : gmap Hash48 (gset bytes);
  completed : gset Hash48;
  peer_penalties : gmap bytes Z;
}.

Module Scheduler.

(* src: downloader.rs:36-47 BlockDownloadScheduler (Default) *)
Definition initial : BlockDownloadScheduler :=
  {| ready_peers := ∅; pending := []; inflight_by_peer := ∅; inflight_owner := ∅; inflight_started := ∅;
     peer_hints := ∅; failed_peers := ∅; completed := ∅; peer_penalties := ∅ |}.

(** Field updates. *)
Definition with_ready (s : BlockDownloadScheduler) (ready : gset bytes) (by_peer : gmap bytes (list Hash48)) :=
  {| ready_peers := ready; pending := pending s; inflight_by_peer := by_peer; inflight_owner := inflight_owner s;
     inflight_started := inflight_started s; peer_hints := peer_hints s; failed_peers := failed_peers s;
     completed := completed s; peer_penalties := peer_penalties s |}.
Definition with_pending (s : BlockDownloadScheduler) (l : list Hash48) :=
  {| ready_peers := ready_peers s; pending := l; inflight_by_peer := inflight_by_peer s;
     inflight_owner := inflight_owner s; inflight_started := inflight_started s; peer_hints := peer_hints s;
     failed_peers := failed_peers s; completed := completed s; peer_penalties := peer_penalties s |}.
Definition with_inflight (s : BlockDownloadScheduler) (by_peer : gmap bytes (list Hash48))
    (owner : gmap Hash48 bytes) (started : gmap Hash48 Z) :=
  {| ready_peers := ready_peers s; pending := pending s; inflight_by_peer := by_peer; inflight_owner := owner;
     inflight_started := started; peer_hints := peer_hints s; failed_peers := failed_peers s;
     completed := completed s; peer_penalties := peer_penalties s |}.
Definition with_reports (s : BlockDownloadScheduler) (hints failed : gmap Hash48 (gset bytes)) (penalties : gmap bytes Z) :=
  {| ready_peers := ready_peers s; pending := pending s; inflight_by_peer := inflight_by_peer s;
     inflight_owner := inflight_owner s; inflight_started := inflight_started s; peer_hints := hints;
     failed_peers := failed; completed := completed s; peer_penalties := penalties |}.
Definition with_completed (s : BlockDownloadScheduler) (done : gset Hash48) :=
  {| ready_peers := ready_peers s; pending := pending s; inflight_by_peer := inflight_by_peer s;
     inflight_owner := inflight_owner s; inflight_started := inflight_started s; peer_hints := peer_hints s;
     failed_peers := failed_peers s; completed := done; peer_penalties := peer_penalties s |}.

(** [retain(|candidate| *candidate != hash)]. *)
Definition without (h : Hash48) (l : list Hash48) : list Hash48 := filter (fun c => c <> h) l.

(** ** Hints, failures and penalties *)

(** [hints.entry(hash).or_default().insert(peer)]. *)
Definition add_to (m : gmap Hash48 (gset bytes)) (h : Hash48) (peer : bytes) : gmap Hash48 (gset bytes) :=
  <[h := default ∅ (m !! h) ∪ {[peer]}]> m.

Definition add_hint (s : BlockDownloadScheduler) (h : Hash48) (peer : bytes) : BlockDownloadScheduler :=
  with_reports s (add_to (peer_hints s) h peer) (failed_peers s) (peer_penalties s).
Definition add_failure (s : BlockDownloadScheduler) (h : Hash48) (peer : bytes) : BlockDownloadScheduler :=
  with_reports s (peer_hints s) (add_to (failed_peers s) h peer) (peer_penalties s).

(* src: downloader.rs:725-729 BlockDownloadScheduler::remove_empty_hints *)
Definition remove_empty_hints (s : BlockDownloadScheduler) (h : Hash48) : BlockDownloadScheduler :=
  match peer_hints s !! h with
  | Some hints => if bool_decide (hints = ∅) then with_reports s (delete h (peer_hints s)) (failed_peers s) (peer_penalties s) else s
  | None => s
  end.
(** [if let Some(hints) = peer_hints.get_mut(&hash) { hints.remove(peer); }], then the above. *)
Definition drop_hint (s : BlockDownloadScheduler) (h : Hash48) (peer : bytes) : BlockDownloadScheduler :=
  remove_empty_hints
    (with_reports s (alter (fun hints => hints ∖ {[peer]}) h (peer_hints s)) (failed_peers s) (peer_penalties s)) h.

(* src: downloader.rs:706-708 BlockDownloadScheduler::peer_penalty *)
Definition peer_penalty (s : BlockDownloadScheduler) (peer : bytes) : Z := default 0 (peer_penalties s !! peer).
(* src: downloader.rs:710-713 BlockDownloadScheduler::penalize_peer *)
Definition penalize_peer (s : BlockDownloadScheduler) (peer : bytes) (points : Z) : BlockDownloadScheduler :=
  with_reports s (peer_hints s) (failed_peers s)
    (<[peer := Z.min (saturating_add U32_MAX (peer_penalty s peer) points) PEER_PENALTY_CAP]> (peer_penalties s)).
(* src: downloader.rs:715-723 BlockDownloadScheduler::decay_peer_penalty *)
Definition decay_peer_penalty (s : BlockDownloadScheduler) (peer : bytes) (points : Z) : BlockDownloadScheduler :=
  match peer_penalties s !! peer with
  | None => s
  | Some entry =>
      let entry := saturating_sub entry points in
      with_reports s (peer_hints s) (failed_peers s)
        (if entry =? 0 then delete peer (peer_penalties s) else <[peer := entry]> (peer_penalties s))
  end.

(** ** Queueing *)

Definition tracked (s : BlockDownloadScheduler) (h : Hash48) : bool :=
  bool_decide (h ∈ completed s) || bool_decide (is_Some (inflight_owner s !! h)) || bool_decide (h ∈ pending s).

(** [if !completed.contains(&hash) && !pending.contains(&hash) { pending.push_front(hash); }]. *)
Definition requeue (s : BlockDownloadScheduler) (h : Hash48) : BlockDownloadScheduler :=
  if bool_decide (h ∈ completed s) || bool_decide (h ∈ pending s) then s else with_pending s (h :: pending s).

(** [inflight_owner] and [inflight_started] forget the hash, and the peer's queue too. *)
Definition release (s : BlockDownloadScheduler) (h : Hash48) (peer : bytes) : BlockDownloadScheduler :=
  with_inflight s (alter (without h) peer (inflight_by_peer s)) (delete h (inflight_owner s)) (delete h (inflight_started s)).

(* src: downloader.rs:50-54 BlockDownloadScheduler::note_peer_ready *)
Definition note_peer_ready (s : BlockDownloadScheduler) (peer : bytes) : BlockDownloadScheduler :=
  with_ready s (ready_peers s ∪ {[peer]})
    (<[peer := default [] (inflight_by_peer s !! peer)]> (inflight_by_peer s)).

(** One block of a peer that left. *)
Definition orphan (peer : bytes) (s : BlockDownloadScheduler) (h : Hash48) : BlockDownloadScheduler :=
  let s := with_inflight s (inflight_by_peer s) (delete h (inflight_owner s)) (delete h (inflight_started s)) in
  let s := if bool_decide (h ∈ pending s) || bool_decide (h ∈ completed s) then s else with_pending s (pending s ++ [h]) in
  add_failure (drop_hint s h peer) h peer.

(* src: downloader.rs:56-78 BlockDownloadScheduler::note_peer_disconnected *)
Definition note_peer_disconnected (s : BlockDownloadScheduler) (peer : bytes) : BlockDownloadScheduler :=
  let by_peer := inflight_by_peer s in
  let s := with_ready s (ready_peers s ∖ {[peer]}) (delete peer by_peer) in
  match by_peer !! peer with
  | None => s
  | Some inflight =>
      let s := if bool_decide (inflight = []) then s else penalize_peer s peer PEER_DISCONNECT_PENALTY in
      foldl (orphan peer) s inflight
  end.

Definition note_header (peer : bytes) (s : BlockDownloadScheduler) (h : Hash48) : BlockDownloadScheduler :=
  let s := add_hint s h peer in
  if tracked s h then s else with_pending s (pending s ++ [h]).
(* src: downloader.rs:80-97 BlockDownloadScheduler::note_headers *)
Definition note_headers (s : BlockDownloadScheduler) (peer : bytes) (hashes : list Hash48) : BlockDownloadScheduler :=
  foldl (note_header peer) s hashes.

(* src: downloader.rs:99-104 BlockDownloadScheduler::note_inventory *)
Definition note_inventory (s : BlockDownloadScheduler) (peer : bytes) (h : Hash48) : BlockDownloadScheduler := add_hint s h peer.

Definition add_hint_opt (s : BlockDownloadScheduler) (h : Hash48) (peer : option bytes) : BlockDownloadScheduler :=
  match peer with Some peer => add_hint s h peer | None => s end.

(* src: downloader.rs:106-122 BlockDownloadScheduler::queue_priority_block *)
Definition queue_priority_block (s : BlockDownloadScheduler) (peer : option bytes) (h : Hash48) :
    BlockDownloadScheduler * bool :=
  let s := add_hint_opt s h peer in
  if tracked s h then (s, false) else (with_pending s (h :: pending s), true).

(** The rest of [reassign_priority_block], once the block is not in flight. *)
Definition prioritize (s : BlockDownloadScheduler) (peer : option bytes) (h : Hash48) : BlockDownloadScheduler :=
  let s := match position (fun c => bool_decide (c = h)) (pending s) with
           | Some index => with_pending s (delete index (pending s))
           | None => s
           end in
  let s := add_hint_opt s h peer in
  with_pending s (h :: pending s).
(* src: downloader.rs:124-150 BlockDownloadScheduler::reassign_priority_block *)
Definition reassign_priority_block (s : BlockDownloadScheduler) (peer : option bytes) (h : Hash48) :
    BlockDownloadScheduler * bool :=
  if bool_decide (h ∈ completed s) then (s, false)
  else
    match inflight_owner s !! h with
    | Some owner =>
        if bool_decide (peer = Some owner) then (s, false) else (prioritize (release s h owner) peer h, true)
    | None => (prioritize s peer h, true)
    end.

(** ** Completion *)

(* src: downloader.rs:216-227 BlockDownloadScheduler::note_hash_completed *)
Definition note_hash_completed (s : BlockDownloadScheduler) (h : Hash48) : BlockDownloadScheduler :=
  let s := with_completed s (completed s ∪ {[h]}) in
  let s := with_reports s (peer_hints s) (delete h (failed_peers s)) (peer_penalties s) in
  let s := with_pending s (without h (pending s)) in
  let s := match inflight_owner s !! h with
           | Some owner =>
               let s := with_inflight s (inflight_by_peer s) (delete h (inflight_owner s)) (inflight_started s) in
               let s := decay_peer_penalty s owner PEER_SUCCESS_DECAY in
               with_inflight s (alter (without h) owner (inflight_by_peer s)) (inflight_owner s) (inflight_started s)
           | None => s
           end in
  with_inflight s (inflight_by_peer s) (inflight_owner s) (delete h (inflight_started s)).
(* src: downloader.rs:152-155 BlockDownloadScheduler::note_block_received *)
Definition note_block_received (s : BlockDownloadScheduler) (h : Hash48) : BlockDownloadScheduler := note_hash_completed s h.

(* src: downloader.rs:157-159 BlockDownloadScheduler::is_completed *)
Definition is_completed (s : BlockDownloadScheduler) (h : Hash48) : bool := bool_decide (h ∈ completed s).

(* src: downloader.rs:229-248 BlockDownloadScheduler::forget_hash *)
Definition forget_hash (s : BlockDownloadScheduler) (h : Hash48) : BlockDownloadScheduler * bool :=
  let removed :=
    bool_decide (h ∈ completed s) || bool_decide (h ∈ pending s)
    || bool_decide (is_Some (inflight_owner s !! h)) || bool_decide (is_Some (inflight_started s !! h))
    || bool_decide (map_Exists (fun _ inflight => h ∈ inflight) (inflight_by_peer s))
    || bool_decide (is_Some (peer_hints s !! h)) || bool_decide (is_Some (failed_peers s !! h)) in
  let s := with_completed s (completed s ∖ {[h]}) in
  let s := with_pending s (without h (pending s)) in
  let s := with_inflight s (without h <$> inflight_by_peer s) (delete h (inflight_owner s)) (delete h (inflight_started s)) in
  (with_reports s (delete h (peer_hints s)) (delete h (failed_peers s)) (peer_penalties s), removed).

(* src: downloader.rs:161-172 BlockDownloadScheduler::forget_blocks *)
Definition forget_blocks (s : BlockDownloadScheduler) (hashes : list Hash48) : BlockDownloadScheduler * Z :=
  foldl (fun st h => let '(s, removed) := st in
                     let '(s, hit) := forget_hash s h in
                     (s, if (hit : bool) then saturating_add USIZE_MAX removed 1 else removed)) (s, 0) hashes.

(* src: downloader.rs:174-176 BlockDownloadScheduler::forget_completed *)
Definition forget_completed (s : BlockDownloadScheduler) (h : Hash48) : BlockDownloadScheduler * bool :=
  (with_completed s (completed s ∖ {[h]}), bool_decide (h ∈ completed s)).

(* src: downloader.rs:190-208 BlockDownloadScheduler::prune_completed_where *)
Definition prune_completed_where (s : BlockDownloadScheduler) (done : Hash48 -> bool) : BlockDownloadScheduler * Z :=
  let candidates := sorted_elements bytes_le (list_to_set (pending s) ∪ dom (inflight_owner s) : gset Hash48) in
  foldl (fun st h => let '(s, pruned) := st in
                     if done h then (note_hash_completed s h, saturating_add USIZE_MAX pruned 1) else (s, pruned))
    (s, 0) candidates.

(** [sort_by_key], for the order of the keys. *)
(* src: downloader.rs:210-214 BlockDownloadScheduler::sort_pending_by_key *)
Definition sort_pending_by_key {K} (le : relation K) `{Hle : !forall x y, Decision (le x y)}
    (s : BlockDownloadScheduler) (key : Hash48 -> K) : BlockDownloadScheduler :=
  with_pending s (merge_sort (fun a b => le (key a) (key b)) (H:=fun a b => Hle (key a) (key b)) (pending s)).

(** ** Clocks *)

Definition restart (now : Z) (inflight : list Hash48) (started : gmap Hash48 Z) : gmap Hash48 Z :=
  foldl (fun m h => alter (fun _ => now) h m) started inflight.
(* src: downloader.rs:178-188 BlockDownloadScheduler::note_peer_delivery_progress *)
Definition note_peer_delivery_progress (s : BlockDownloadScheduler) (peer : bytes) (now : Z) : BlockDownloadScheduler :=
  match inflight_by_peer s !! peer with
  | None => s
  | Some inflight => with_inflight s (inflight_by_peer s) (inflight_owner s) (restart now inflight (inflight_started s))
  end.

(** A block that is taken back from its peer. *)
Definition give_back (s : BlockDownloadScheduler) (h : Hash48) (peer : bytes) : BlockDownloadScheduler :=
  add_failure (drop_hint (release s h peer) h peer) h peer.

Definition not_found_one (peer : bytes) (st : BlockDownloadScheduler * bool) (h : Hash48) : BlockDownloadScheduler * bool :=
  let '(s, penalize) := st in
  match inflight_owner s !! h with
  | Some owner => if bool_decide (owner = peer) then (requeue (give_back s h peer) h, true) else (s, penalize)
  | None => (requeue (give_back s h peer) h, true)
  end.
(* src: downloader.rs:273-302 BlockDownloadScheduler::note_not_found *)
Definition note_not_found (s : BlockDownloadScheduler) (peer : bytes) (hashes : list Hash48) : BlockDownloadScheduler :=
  let '(s, penalize) := foldl (not_found_one peer) (s, false) hashes in
  if penalize then penalize_peer s peer PEER_NOT_FOUND_PENALTY else s.

Definition is_stale (s : BlockDownloadScheduler) (timeout now : Z) (h : Hash48) : bool :=
  match inflight_started s !! h with Some started => timeout <=? now - started | None => false end.

Definition stale_one (st : BlockDownloadScheduler * list StaleDownload) (h : Hash48) :
    BlockDownloadScheduler * list StaleDownload :=
  let '(s, requeued) := st in
  match inflight_owner s !! h with
  | Some owner =>
      (requeue (penalize_peer (give_back s h owner) owner PEER_TIMEOUT_PENALTY) h,
       requeued ++ [{| sd_peer := owner; sd_hash := h |}])
  | None => (requeue (with_inflight s (inflight_by_peer s) (inflight_owner s) (delete h (inflight_started s))) h, requeued)
  end.
(* src: downloader.rs:598-630 BlockDownloadScheduler::requeue_stale_inflight_details *)
Definition requeue_stale_inflight_details (s : BlockDownloadScheduler) (timeout now : Z) :
    BlockDownloadScheduler * list StaleDownload :=
  let stale := filter (fun h => is_stale s timeout now h = true) (sorted_entries bytes_le (inflight_started s)).*1 in
  foldl stale_one (s, []) stale.
(* src: downloader.rs:594-596 BlockDownloadScheduler::requeue_stale_inflight *)
Definition requeue_stale_inflight (s : BlockDownloadScheduler) (timeout now : Z) : BlockDownloadScheduler * Z :=
  let '(s, requeued) := requeue_stale_inflight_details s timeout now in (s, zlen requeued).

Definition stale_for_peer (peer : bytes) (st : BlockDownloadScheduler * list StaleDownload) (h : Hash48) :
    BlockDownloadScheduler * list StaleDownload :=
  let '(s, requeued) := st in
  (requeue (penalize_peer (give_back s h peer) peer PEER_TIMEOUT_PENALTY) h,
   requeued ++ [{| sd_peer := peer; sd_hash := h |}]).
(* src: downloader.rs:632-675 BlockDownloadScheduler::requeue_stale_inflight_for_peer *)
Definition requeue_stale_inflight_for_peer (s : BlockDownloadScheduler) (peer : bytes) (timeout now : Z) :
    BlockDownloadScheduler * list StaleDownload :=
  match inflight_by_peer s !! peer with
  | None => (s, [])
  | Some inflight => foldl (stale_for_peer peer) (s, []) (filter (fun h => is_stale s timeout now h = true) inflight)
  end.

(** ** Assignment *)

(** A peer that could take a block, with the key it is chosen by. *)
Record candidate := { c_penalty : Z; c_inflight : Z; c_rotation : Z; c_peer : bytes }.
Definition candidate_compare (a b : candidate) : comparison :=
  match c_penalty a ?= c_penalty b with
  | Eq => match c_inflight a ?= c_inflight b with
          | Eq => c_rotation a ?= c_rotation b
          | c => c
          end
  | c => c
  end.
(** [min_by_key]: the first of the least. *)
Fixpoint min_candidate (best : candidate) (l : list candidate) : candidate :=
  match l with
  | [] => best
  | c :: l => min_candidate (match candidate_compare c best with Lt => c | _ => best end) l
  end.

Definition inflight_of (s : BlockDownloadScheduler) (peer : bytes) : list Hash48 := default [] (inflight_by_peer s !! peer).
(* src: downloader.rs:685-690 BlockDownloadScheduler::peer_inflight_len *)
Definition peer_inflight_len (s : BlockDownloadScheduler) (peer : bytes) : Z := zlen (inflight_of s peer).
(** [inflight_by_peer.values().map(VecDeque::len).sum()]. *)
Definition queued_total (s : BlockDownloadScheduler) : Z :=
  zsum ((fun pq => zlen pq.2) <$> map_to_list (inflight_by_peer s)).

Section select.
Context (s : BlockDownloadScheduler) (peers : list bytes) (start_index max_per_peer max_per_batch : Z)
  (staged : gmap bytes (list InventoryVector)).

(* src: downloader.rs:419-454 BlockDownloadScheduler::select_peer_from_candidates *)
Definition select_peer_from_candidates (allowed : bytes -> bool) : option bytes :=
  let candidates := omap (fun ip : Z * bytes =>
    let '(index, peer) := ip in
    if negb (allowed peer) then None
    else if match staged !! peer with Some inventory => max_per_batch <=? zlen inventory | None => false end then None
    else if peer_inflight_len s peer <? max_per_peer
    then Some {| c_penalty := peer_penalty s peer; c_inflight := peer_inflight_len s peer;
                 c_rotation := (index + zlen peers - start_index mod zlen peers) mod zlen peers; c_peer := peer |}
    else None) (enumerate peers) in
  match candidates with
  | [] => None
  | c :: rest => Some (c_peer (min_candidate c rest))
  end.

Definition hinted (h : Hash48) (peer : bytes) : bool :=
  match peer_hints s !! h with
  | Some hints => bool_decide (hints = ∅) || bool_decide (peer ∈ hints)
  | None => true
  end.
Definition failed (h : Hash48) (peer : bytes) : bool :=
  match failed_peers s !! h with Some peers => bool_decide (peer ∈ peers) | None => false end.

(* src: downloader.rs:381-417 BlockDownloadScheduler::select_peer_for_hash_limited *)
Definition select_peer_for_hash_limited (h : Hash48) : option bytes :=
  if bool_decide (peers = []) then None
  else match select_peer_from_candidates (fun peer => hinted h peer && negb (failed h peer)) with
       | Some peer => Some peer
       | None => select_peer_from_candidates (hinted h)
       end.
End select.

(** A block goes out to a peer. *)
Definition assign (s : BlockDownloadScheduler) (h : Hash48) (peer : bytes) (now : Z) : BlockDownloadScheduler :=
  with_inflight s (<[peer := inflight_of s peer ++ [h]]> (inflight_by_peer s))
    (<[h := peer]> (inflight_owner s)) (<[h := now]> (inflight_started s)).
Definition block_vector (h : Hash48) : InventoryVector := {| iv_kind := InvBlock; iv_hash := h |}.

(** The loop of [assignments_limited]; [queue] is what is left of [pending]. *)
Fixpoint assign_loop (peers : list bytes) (max_blocks max_per_peer max_per_batch now : Z) (queue : list Hash48)
    (s : BlockDownloadScheduler) (staged : gmap bytes (list InventoryVector)) (cursor total : Z) :
    BlockDownloadScheduler * gmap bytes (list InventoryVector) :=
  match queue with
  | [] => (with_pending s [], staged)
  | h :: rest =>
      if negb (total <? max_blocks) then (with_pending s queue, staged)
      else
        match select_peer_for_hash_limited s peers cursor max_per_peer max_per_batch staged h with
        | None => (with_pending s queue, staged)
        | Some peer =>
            let at_peer := default cursor (Z.of_nat <$> position (fun c => bool_decide (c = peer)) peers) in
            assign_loop peers max_blocks max_per_peer max_per_batch now rest (assign s h peer now)
              (<[peer := default [] (staged !! peer) ++ [block_vector h]]> staged)
              (saturating_add USIZE_MAX at_peer 1) (saturating_add USIZE_MAX total 1)
        end
  end.

(* src: downloader.rs:316-379 BlockDownloadScheduler::assignments_limited *)
Definition assignments_limited (s : BlockDownloadScheduler) (max_blocks max_per_peer max_per_batch now : Z) :
    BlockDownloadScheduler * list DownloadAssignment :=
  if bool_decide (ready_peers s = ∅) || bool_decide (pending s = []) || (max_blocks =? 0) then (s, [])
  else if max_blocks <=? queued_total s then (s, [])
  else
    let '(s, staged) := assign_loop (sorted_elements bytes_le (ready_peers s)) max_blocks max_per_peer max_per_batch now
                          (pending s) s ∅ 0 (queued_total s) in
    (s, (fun pi => {| da_peer := pi.1; da_inventory := pi.2 |}) <$> sorted_entries bytes_le staged).
(* src: downloader.rs:304-314 BlockDownloadScheduler::assignments *)
Definition assignments (s : BlockDownloadScheduler) (max_blocks max_per_peer now : Z) :
    BlockDownloadScheduler * list DownloadAssignment := assignments_limited s max_blocks max_per_peer max_per_peer now.

(** The scan of [assignment_for_peer_filtered_limited]; the result has the skipped
    blocks back in front. *)
Fixpoint scan_loop (peer : bytes) (max_blocks capacity now : Z) (allowed_hash : Hash48 -> bool) (queue : list Hash48)
    (s : BlockDownloadScheduler) (inventory : list InventoryVector) (skipped : list Hash48) (total : Z) :
    BlockDownloadScheduler * list InventoryVector :=
  match queue with
  | [] => (with_pending s skipped, inventory)
  | h :: rest =>
      if (max_blocks <=? total) || (capacity <=? zlen inventory) then (with_pending s (skipped ++ queue), inventory)
      else
        let all_ready_peers_failed :=
          match failed_peers s !! h with
          | Some peers => negb (bool_decide (ready_peers s = ∅)) && bool_decide (ready_peers s ⊆ peers)
          | None => false
          end in
        if negb (allowed_hash h) || negb (hinted s h peer) || (failed s h peer && negb all_ready_peers_failed)
        then scan_loop peer max_blocks capacity now allowed_hash rest s inventory (skipped ++ [h]) total
        else scan_loop peer max_blocks capacity now allowed_hash rest (assign s h peer now)
               (inventory ++ [block_vector h]) skipped (saturating_add USIZE_MAX total 1)
  end.

(* src: downloader.rs:503-592 BlockDownloadScheduler::assignment_for_peer_filtered_limited *)
Definition assignment_for_peer_filtered_limited (s : BlockDownloadScheduler) (peer : bytes)
    (max_blocks max_per_peer max_per_batch now : Z) (allowed_hash : Hash48 -> bool) :
    BlockDownloadScheduler * option DownloadAssignment :=
  if negb (bool_decide (peer ∈ ready_peers s)) || bool_decide (pending s = []) || (max_blocks =? 0)
     || (max_per_peer =? 0) || (max_per_batch =? 0) then (s, None)
  else if max_blocks <=? queued_total s then (s, None)
  else
    let peer_capacity := Z.min (saturating_sub max_per_peer (peer_inflight_len s peer)) max_per_batch in
    if peer_capacity =? 0 then (s, None)
    else
      let '(s, inventory) := scan_loop peer max_blocks peer_capacity now allowed_hash (pending s) s [] [] (queued_total s) in
      (s, if bool_decide (inventory = []) then None else Some {| da_peer := peer; da_inventory := inventory |}).
(* src: downloader.rs:470-484 BlockDownloadScheduler::assignment_for_peer_limited *)
Definition assignment_for_peer_limited (s : BlockDownloadScheduler) (peer : bytes) (max_blocks max_per_peer max_per_batch now : Z) :=
  assignment_for_peer_filtered_limited s peer max_blocks max_per_peer max_per_batch now (fun _ => true).
(* src: downloader.rs:456-468 BlockDownloadScheduler::assignment_for_peer *)
Definition assignment_for_peer (s : BlockDownloadScheduler) (peer : bytes) (max_blocks max_per_peer now : Z) :=
  assignment_for_peer_limited s peer max_blocks max_per_peer max_per_peer now.
(* src: downloader.rs:486-501 BlockDownloadScheduler::assignment_for_peer_matching_limited *)
Definition assignment_for_peer_matching_limited (s : BlockDownloadScheduler) (peer : bytes)
    (max_blocks max_per_peer max_per_batch now : Z) (allowed_hashes : gset Hash48) :=
  assignment_for_peer_filtered_limited s peer max_blocks max_per_peer max_per_batch now
    (fun h => bool_decide (h ∈ allowed_hashes)).

(* src: downloader.rs:677-679 BlockDownloadScheduler::is_idle *)
Definition is_idle (s : BlockDownloadScheduler) : bool := bool_decide (pending s = []) && bool_decide (inflight_owner s = ∅).
(* src: downloader.rs:681-683 BlockDownloadScheduler::total_inflight_len *)
Definition total_inflight_len (s : BlockDownloadScheduler) : Z := Z.of_nat (size (inflight_owner s)).
(* src: downloader.rs:250-252 BlockDownloadScheduler::is_inflight *)
Definition is_inflight (s : BlockDownloadScheduler) (h : Hash48) : bool := bool_decide (is_Some (inflight_owner s !! h)).
(* src: downloader.rs:254-258 BlockDownloadScheduler::inflight_peer *)
Definition inflight_peer (s : BlockDownloadScheduler) (h : Hash48) : option bytes := inflight_owner s !! h.
(* src: downloader.rs:692-704 BlockDownloadScheduler::stats *)
Definition stats (s : BlockDownloadScheduler) : DownloadStats :=
  {| st_ready_peers := Z.of_nat (size (ready_peers s)); st_pending_blocks := zlen (pending s);
     st_inflight_blocks := Z.of_nat (size (inflight_owner s)); st_completed_blocks := Z.of_nat (size (completed s));
     st_penalized_peers := Z.of_nat (size (filter (fun kv => 0 < kv.2) (peer_penalties s))) |}.
End Scheduler.

Import Scheduler.

(** ** The states of a block *)

Inductive Status := Unknown | Pending | InFlight (peer : bytes) | Done.
#[global] Instance Status_eq_dec : EqDecision Status.
Proof. solve_decision. Defined.

Definition status (s : BlockDownloadScheduler) (h : Hash48) : Status :=
  if decide (h ∈ completed s) then Done
  else match inflight_owner s !! h with
       | Some peer => InFlight peer
       | None => if decide (h ∈ pending s) then Pending else Unknown
       end.

(** How the maps agree: every block is in at most one place, the owners are those
    whose queues have the block, and exactly the blocks in flight have a clock. *)
Record agree (pend : list Hash48) (queue : bytes -> list Hash48) (owner : gmap Hash48 bytes)
    (started : gmap Hash48 Z) (done : gset Hash48) : Prop := {
  ag_pending : NoDup pend;
  ag_owner : forall h p, owner !! h = Some p <-> h ∈ queue p;
  ag_queue : forall p, NoDup (queue p);
  ag_started : forall h, is_Some (started !! h) <-> is_Some (owner !! h);
  ag_free : forall h, h ∈ pend -> owner !! h = None /\ h ∉ done;
  ag_done : forall h, h ∈ done -> owner !! h = None;
}.

Definition consistent (s : BlockDownloadScheduler) : Prop :=
  agree (pending s) (inflight_of s) (inflight_owner s) (inflight_started s) (completed s)
  /\ dom (inflight_by_peer s) = ready_peers s.

(** *** Moving one block *)

Lemma elem_of_without h c l : c ∈ without h l <-> c <> h /\ c ∈ l.
Proof. unfold without. by rewrite list_elem_of_filter. Qed.
Lemma without_cons h c l : without h (c :: l) = if decide (c = h) then without h l else c :: without h l.
Proof. unfold without. rewrite filter_cons. by destruct (decide (c = h)), (decide (c <> h)). Qed.
Lemma without_id h l : h ∉ l -> without h l = l.
Proof.
  induction l as [|c l IH]; intros Hn; [done|]. apply not_elem_of_cons in Hn as [Hc Hn].
  rewrite without_cons, decide_False by congruence. f_equal. by apply IH.
Qed.

Section moves.
Context (pend : list Hash48) (queue : bytes -> list Hash48) (owner : gmap Hash48 bytes)
  (started : gmap Hash48 Z) (done : gset Hash48) (Hag : agree pend queue owner started done).

Lemma agree_queue queue' : (forall p, queue' p = queue p) -> agree pend queue' owner started done.
Proof. intros Hq. destruct Hag. split; try done; intros; rewrite Hq; auto. Qed.

Lemma agree_perm pend' : pend' ≡ₚ pend -> agree pend' queue owner started done.
Proof. intros Hp. destruct Hag. split; try done; [by rewrite Hp|]. intros h. rewrite Hp. auto. Qed.

Lemma agree_release h peer :
  (forall p, owner !! h = Some p -> p = peer) ->
  agree pend (fun p => if decide (p = peer) then without h (queue p) else queue p) (delete h owner) (delete h started) done.
Proof.
  intros Hown. destruct Hag as [Hp Ho Hq Hs Hf Hd]. split.
  - done.
  - intros h' p. destruct (decide (h' = h)) as [->|Hne].
    + rewrite lookup_delete_eq. split; [done|]. destruct (decide (p = peer)) as [->|Hpp].
      * by intros [? _]%elem_of_without.
      * intros Hin%Ho. by apply Hown in Hin.
    + rewrite lookup_delete_ne by done. rewrite Ho. destruct (decide (p = peer)); [|done].
      rewrite elem_of_without. tauto.
  - intros p. destruct (decide (p = peer)); [by apply NoDup_filter|done].
  - intros h'. destruct (decide (h' = h)) as [->|Hne]; [by rewrite !lookup_delete_eq|].
    rewrite !lookup_delete_ne by done. apply Hs.
  - intros h' Hin. destruct (Hf h' Hin) as [Hn Hd']. split; [|done].
    rewrite lookup_delete_None. by right.
  - intros h' Hin. rewrite lookup_delete_None. right. by apply Hd.
Qed.

Lemma agree_push h : h ∉ pend -> owner !! h = None -> h ∉ done -> agree (h :: pend) queue owner started done.
Proof.
  intros Hn Ho Hd. destruct Hag. split; try done; [by constructor|].
  intros h' [->|Hin]%elem_of_cons; [done|auto].
Qed.

Lemma agree_assign h peer now :
  h ∉ pend -> owner !! h = None -> h ∉ done ->
  agree pend (fun p => if decide (p = peer) then queue p ++ [h] else queue p) (<[h := peer]> owner) (<[h := now]> started) done.
Proof.
  intros Hn Hnone Hnd. destruct Hag as [Hp Ho Hq Hs Hf Hd].
  assert (forall p, h ∉ queue p) as Hnq by (intros p Hin%Ho; congruence).
  split.
  - done.
  - intros h' p. destruct (decide (h' = h)) as [->|Hne].
    + rewrite lookup_insert_eq. destruct (decide (p = peer)) as [->|Hpp].
      * split; [|done]. intros _. rewrite elem_of_app. right. by left.
      * split; [by intros [= ->]|]. intros Hin. by destruct (Hnq p).
    + rewrite lookup_insert_ne by done. rewrite Ho. destruct (decide (p = peer)); [|done].
      rewrite elem_of_app, list_elem_of_singleton. tauto.
  - intros p. destruct (decide (p = peer)); [|done]. apply NoDup_app. split_and!; [done| |apply NoDup_singleton].
    intros c Hc ->%list_elem_of_singleton. by destruct (Hnq p).
  - intros h'. destruct (decide (h' = h)) as [->|Hne]; [rewrite !lookup_insert_eq; split; by eexists|].
    rewrite !lookup_insert_ne by done. apply Hs.
  - intros h' Hin. rewrite lookup_insert_ne by congruence. auto.
  - intros h' Hin. rewrite lookup_insert_ne by congruence. auto.
Qed.

Lemma agree_unpend h : agree (without h pend) queue owner started done.
Proof.
  destruct Hag. split; try done; [by apply NoDup_filter|]. intros h' [_ Hin]%elem_of_without. auto.
Qed.
Lemma agree_finish h : h ∉ pend -> owner !! h = None -> agree pend queue owner started (done ∪ {[h]}).
Proof.
  intros Hn Ho. destruct Hag as [Hp Hown Hq Hs Hf Hd]. split; try done.
  - intros h' Hin. destruct (Hf h' Hin). split; [done|]. set_solver.
  - intros h' [Hin| ->%elem_of_singleton]%elem_of_union; auto.
Qed.
Lemma agree_unfinish h : agree pend queue owner started (done ∖ {[h]}).
Proof.
  destruct Hag as [Hp Hown Hq Hs Hf Hd]. split; try done.
  - intros h' Hin. destruct (Hf h' Hin). split; [done|]. set_solver.
  - intros h' [Hin _]%elem_of_difference. auto.
Qed.
Lemma agree_clock started' : (forall h, is_Some (started' !! h) <-> is_Some (started !! h)) -> agree pend queue owner started' done.
Proof. intros Hst. destruct Hag as [Hp Hown Hq Hs Hf Hd]. split; try done. intros h. by rewrite Hst. Qed.
End moves.

(** *** Reports *)

(** Only hints, failures and penalties differ. *)
Definition reports_only (s s' : BlockDownloadScheduler) : Prop :=
  exists hints failed penalties, s' = with_reports s hints failed penalties.

Lemma reports_refl s : reports_only s s.
Proof. destruct s. by eexists _, _, _. Qed.
Lemma reports_trans s1 s2 s3 : reports_only s1 s2 -> reports_only s2 s3 -> reports_only s1 s3.
Proof. intros (? & ? & ? & ->) (? & ? & ? & ->). by eexists _, _, _. Qed.
Lemma with_reports_only s hints failed penalties : reports_only s (with_reports s hints failed penalties).
Proof. by eexists _, _, _. Qed.
Ltac solve_reports := repeat case_match; first [apply reports_refl|by eexists _, _, _].
Lemma drop_hint_reports s h peer : reports_only s (drop_hint s h peer).
Proof. unfold drop_hint, remove_empty_hints. solve_reports. Qed.
Lemma penalize_reports s peer points : reports_only s (penalize_peer s peer points).
Proof. solve_reports. Qed.
Lemma decay_penalty_reports s peer points : reports_only s (decay_peer_penalty s peer points).
Proof. unfold decay_peer_penalty. destruct (_ !! peer); solve_reports. Qed.
Lemma add_hint_opt_reports s h peer : reports_only s (add_hint_opt s h peer).
Proof. destruct peer; solve_reports. Qed.
Lemma add_failure_reports s h peer : reports_only s (add_failure (drop_hint s h peer) h peer).
Proof. eapply reports_trans; [apply drop_hint_reports|solve_reports]. Qed.

(** *** Outcomes *)

(** [s'] is consistent, keeps the ready peers, and gives each block the status [f] says. *)
Record outcome (s s' : BlockDownloadScheduler) (f : Hash48 -> Status -> Status) : Prop := {
  oc_consistent : consistent s';
  oc_ready : ready_peers s' = ready_peers s;
  oc_status : forall h, status s' h = f h (status s h);
}.

Lemma outcome_keeps s s' : consistent s -> reports_only s s' -> outcome s s' (fun _ a => a).
Proof. intros Hc (? & ? & ? & ->). split; [exact Hc|done|done]. Qed.
Lemma outcome_reports s s1 s2 f : outcome s s1 f -> reports_only s1 s2 -> outcome s s2 f.
Proof. intros [Hc Hr Hs] (? & ? & ? & ->). split; [exact Hc|exact Hr|exact Hs]. Qed.
Lemma outcome_after s s1 s2 f g k :
  outcome s s1 f -> (consistent s1 -> outcome s1 s2 g) -> (forall h, g h (f h (status s h)) = k h (status s h)) ->
  outcome s s2 k.
Proof.
  intros [Hc Hr Hs] Hg Hk. destruct (Hg Hc) as [Hc' Hr' Hs']. split; [done|congruence|].
  intros h. by rewrite Hs', Hs.
Qed.
Lemma outcome_trans s s1 s2 f g :
  outcome s s1 f -> (consistent s1 -> outcome s1 s2 g) -> outcome s s2 (fun h a => g h (f h a)).
Proof. intros Hf Hg. by eapply outcome_after. Qed.
Lemma outcome_same s s' f g : outcome s s' f -> (forall h, f h (status s h) = g h (status s h)) -> outcome s s' g.
Proof. intros [Hc Hr Hs] Hfg. split; [done|done|]. intros h. by rewrite Hs. Qed.

Definition set_status (h : Hash48) (x : Status) : Hash48 -> Status -> Status := fun h' a => if decide (h' = h) then x else a.

Lemma status_done s h : consistent s -> h ∈ completed s <-> status s h = Done.
Proof.
  intros _. unfold status. destruct (decide _); [done|]. split; [done|]. repeat case_match; done.
Qed.
Lemma status_inflight s h peer : consistent s -> inflight_owner s !! h = Some peer <-> status s h = InFlight peer.
Proof.
  intros [Hag _]. unfold status. destruct (decide (h ∈ completed s)) as [Hd|Hd].
  - rewrite (ag_done _ _ _ _ _ Hag h Hd). done.
  - destruct (inflight_owner s !! h); [split; congruence|]. split; [done|]. by case_match.
Qed.
Lemma status_pending s h : consistent s -> h ∈ pending s <-> status s h = Pending.
Proof.
  intros [Hag _]. unfold status. split.
  - intros Hp. destruct (ag_free _ _ _ _ _ Hag h Hp) as [-> Hd]. by rewrite decide_False, decide_True.
  - repeat case_match; done.
Qed.
Lemma status_unknown s h :
  status s h = Unknown <-> (h ∉ completed s) /\ inflight_owner s !! h = None /\ h ∉ pending s.
Proof.
  unfold status. destruct (decide _); [naive_solver|]. destruct (inflight_owner s !! h); [naive_solver|].
  destruct (decide _); naive_solver.
Qed.

(** ** The moves of the code *)

Lemma dom_alter_queue {A} (f : A -> A) (m : gmap bytes A) p : dom (alter f p m) = dom m.
Proof. apply dom_alter_L. Qed.

Lemma inflight_of_alter s f p q :
  f [] = [] ->
  default [] (alter f p (inflight_by_peer s) !! q) = if decide (q = p) then f (inflight_of s q) else inflight_of s q.
Proof.
  intros Hf. unfold inflight_of. destruct (decide (q = p)) as [->|Hne].
  - rewrite lookup_alter_eq. by destruct (inflight_by_peer s !! p).
  - by rewrite lookup_alter_ne.
Qed.

(** Taken back from its peer, a block is nowhere. *)
Lemma release_outcome s h peer :
  consistent s -> inflight_owner s !! h = Some peer -> outcome s (release s h peer) (set_status h Unknown).
Proof.
  intros Hc Hown. pose proof Hc as [Hag Hdom]. split.
  - split; [|cbn; by rewrite dom_alter_queue]. cbn.
    refine (agree_queue _ _ _ _ _ (agree_release _ _ _ _ _ Hag h peer _) _ _); [congruence|].
    intros p. unfold inflight_of at 1. cbn. by apply inflight_of_alter.
  - done.
  - intros h'. unfold set_status. destruct (decide (h' = h)) as [->|Hne].
    + apply status_unknown. cbn. rewrite lookup_delete_eq.
      destruct (decide (h ∈ completed s)) as [Hd|Hd]; [rewrite (ag_done _ _ _ _ _ Hag h Hd) in Hown; done|].
      split_and!; [done|done|]. intros Hp. destruct (ag_free _ _ _ _ _ Hag h Hp). congruence.
    + unfold status. cbn. by rewrite lookup_delete_ne.
Qed.
(** A block that is not in flight stays where it is. *)
Lemma release_none s h peer :
  consistent s -> inflight_owner s !! h = None -> outcome s (release s h peer) (fun _ a => a).
Proof.
  intros Hc Hnone. pose proof Hc as [Hag Hdom]. split.
  - split; [|cbn; by rewrite dom_alter_queue]. cbn.
    refine (agree_queue _ _ _ _ _ (agree_release _ _ _ _ _ Hag h peer _) _ _); [congruence|].
    intros p. unfold inflight_of at 1. cbn. by apply inflight_of_alter.
  - done.
  - intros h'. unfold status. cbn. by rewrite (delete_id (inflight_owner s)).
Qed.

Lemma push_outcome s h pend' :
  consistent s -> status s h = Unknown -> pend' ≡ₚ h :: pending s ->
  outcome s (with_pending s pend') (set_status h Pending).
Proof.
  intros Hc Hun Hp. pose proof Hc as [Hag Hdom]. pose proof (proj1 (status_unknown s h) Hun) as (Hd & Ho & Hn). split.
  - split; [|done]. cbn. refine (agree_perm _ _ _ _ _ (agree_push _ _ _ _ _ Hag h Hn Ho Hd) _ Hp).
  - done.
  - intros h'. unfold set_status, status. cbn. destruct (decide (h' = h)) as [->|Hne].
    + rewrite decide_False by done. rewrite Ho. rewrite decide_True; [done|]. rewrite Hp. by left.
    + destruct (decide (h' ∈ completed s)); [done|]. destruct (inflight_owner s !! h'); [done|].
      apply decide_ext. rewrite Hp, elem_of_cons. tauto.
Qed.

Lemma requeue_outcome s h :
  consistent s -> inflight_owner s !! h = None ->
  outcome s (requeue s h) (fun h' a => if decide (h' = h) then match a with Unknown => Pending | a => a end else a).
Proof.
  intros Hc Ho. unfold requeue. destruct (bool_decide (h ∈ completed s) || bool_decide (h ∈ pending s)) eqn:E.
  - refine (outcome_same _ _ _ _ (outcome_keeps s s Hc (reports_refl s)) _). intros h'.
    destruct (decide (h' = h)) as [->|]; [|done].
    destruct (status s h) eqn:Es; [|done..]. apply status_unknown in Es as (? & ? & ?).
    apply orb_true_iff in E as [E|E]; apply bool_decide_eq_true in E; done.
  - apply orb_false_iff in E as [Hd%bool_decide_eq_false Hp%bool_decide_eq_false].
    assert (status s h = Unknown) as Hun by by apply status_unknown.
    refine (outcome_same _ _ _ _ (push_outcome s h _ Hc Hun _) _); [done|].
    intros h'. unfold set_status. destruct (decide (h' = h)) as [->|]; [|done]. by rewrite Hun.
Qed.

(** *** Loops *)

(** A loop whose rounds have outcomes: [f h] is what the round for [h] does. *)
Lemma fold_outcome (step : BlockDownloadScheduler -> Hash48 -> BlockDownloadScheduler)
    (f : Hash48 -> Hash48 -> Status -> Status) hashes :
  (forall s h, consistent s -> outcome s (step s h) (f h)) ->
  forall s, consistent s ->
  outcome s (foldl step s hashes) (fun h' a => foldl (fun a h => f h h' a) a hashes).
Proof.
  intros Hstep. induction hashes as [|h hashes IH]; intros s Hc; [apply outcome_keeps; [done|apply reports_refl]|].
  cbn [foldl]. eapply outcome_after; [by apply Hstep|intros Hc1; by apply IH|done].
Qed.
Lemma foldl_absent (f : Hash48 -> Hash48 -> Status -> Status) hashes h' a :
  (forall h b, h' <> h -> f h h' b = b) -> h' ∉ hashes -> foldl (fun a h => f h h' a) a hashes = a.
Proof.
  intros Hf. revert a. induction hashes as [|h hashes IH]; intros a Hn; [done|].
  apply not_elem_of_cons in Hn as [Hne Hn]. cbn. by rewrite Hf, IH.
Qed.
(** When a round changes only its own block, and repeating it changes nothing. *)
Lemma foldl_present (f : Hash48 -> Hash48 -> Status -> Status) hashes h' a :
  (forall h b, h' <> h -> f h h' b = b) -> (forall b, f h' h' (f h' h' b) = f h' h' b) ->
  foldl (fun a h => f h h' a) a hashes = if decide (h' ∈ hashes) then f h' h' a else a.
Proof.
  intros Hf Hidem. destruct (decide (h' ∈ hashes)) as [Hin|Hn]; [|by apply foldl_absent].
  revert a Hin. induction hashes as [|h hashes IH]; intros a Hin; [by apply elem_of_nil in Hin|]. cbn.
  destruct (decide (h' = h)) as [->|Hne].
  - destruct (decide (h ∈ hashes)) as [Hin'|Hn']; [by rewrite (IH _ Hin'), Hidem|by apply foldl_absent].
  - rewrite (Hf h a Hne). apply IH. by apply elem_of_cons in Hin as [?|?].
Qed.

(** *** Announcements *)

Definition enlist (a : Status) : Status := match a with Unknown => Pending | a => a end.
Definition on (h : Hash48) (f : Status -> Status) : Hash48 -> Status -> Status := fun h' a => if decide (h' = h) then f a else a.

Lemma tracked_status s h : consistent s -> tracked s h = bool_decide (status s h <> Unknown).
Proof.
  intros Hc. unfold tracked. rewrite <- !bool_decide_or. apply bool_decide_ext.
  split; [|].
  - intros [[Hd|[p Ho]]|Hp] [? [? ?]]%status_unknown; [done|congruence|done].
  - intros Hne. destruct (status s h) eqn:E; [done|right; by apply status_pending| |].
    + left. right. exists peer. by apply status_inflight.
    + left. left. by apply status_done.
Qed.

Lemma enlist_outcome s s1 h pend' :
  consistent s -> reports_only s s1 -> pend' ≡ₚ h :: pending s1 ->
  outcome s (if tracked s1 h then s1 else with_pending s1 pend') (on h enlist).
Proof.
  intros Hc Hrep Hp. destruct (outcome_keeps s s1 Hc Hrep) as [Hc1 Hr1 Hs1].
  rewrite tracked_status by done. case_bool_decide as Hst.
  - split; [done|done|]. intros h'. rewrite Hs1. unfold on. destruct (decide (h' = h)) as [->|]; [|done].
    rewrite Hs1 in Hst. by destruct (status s h).
  - assert (status s1 h = Unknown) as Hun by (destruct (decide (status s1 h = Unknown)); tauto).
    destruct (push_outcome s1 h pend' Hc1 Hun Hp) as [Hc2 Hr2 Hs2]. split; [done|congruence|].
    intros h'. rewrite Hs2, Hs1. unfold on, set_status. destruct (decide (h' = h)) as [->|]; [|done].
    rewrite Hs1 in Hun. by rewrite Hun.
Qed.

Lemma note_headers_outcome s peer hashes :
  consistent s -> outcome s (note_headers s peer hashes) (fun h a => if decide (h ∈ hashes) then enlist a else a).
Proof.
  intros Hc. unfold note_headers. eapply outcome_same; [apply (fold_outcome _ (fun h => on h enlist)); [|done]|].
  - intros s1 h Hc1. unfold note_header. apply enlist_outcome; [done|solve_reports|].
    cbn. by rewrite (comm (++)).
  - intros h'. cbn beta. rewrite (foldl_present (fun h => on h enlist)).
    + unfold on. by rewrite (decide_True (P:=h' = h')) by done.
    + intros h b Hne. unfold on. by rewrite decide_False.
    + intros b. unfold on. rewrite !decide_True by done. by destruct b.
Qed.

Lemma queue_priority_outcome s peer h :
  consistent s -> outcome s (queue_priority_block s peer h).1 (on h enlist).
Proof.
  intros Hc. unfold queue_priority_block.
  pose proof (enlist_outcome s (add_hint_opt s h peer) h _ Hc (add_hint_opt_reports s h peer) (reflexivity _)) as Ho.
  by destruct (tracked (add_hint_opt s h peer) h).
Qed.

(** *** Priorities *)

Lemma unpend_outcome s h :
  consistent s -> inflight_owner s !! h = None ->
  outcome s (with_pending s (without h (pending s))) (on h (fun a => match a with Pending => Unknown | a => a end)).
Proof.
  intros Hc Ho. pose proof Hc as [Hag Hdom]. split; [split; [by apply agree_unpend|done]|done|].
  intros h'. unfold on, status. cbn. destruct (decide (h' = h)) as [->|Hne].
  - rewrite Ho. rewrite (decide_False (P:=h ∈ without h _)) by (rewrite elem_of_without; tauto).
    by repeat case_match.
  - destruct (decide (h' ∈ completed s)); [done|]. destruct (inflight_owner s !! h'); [done|].
    apply decide_ext. rewrite elem_of_without. tauto.
Qed.

Lemma delete_position h l :
  NoDup l ->
  match position (fun c => bool_decide (c = h)) l with Some index => delete index l | None => l end = without h l.
Proof.
  induction 1 as [|c l Hc Hl IH]; [done|]. rewrite without_cons. cbn [position].
  destruct (decide (c = h)) as [->|Hne].
  - rewrite bool_decide_true by done. cbn. symmetry. by apply without_id.
  - rewrite bool_decide_false by done. rewrite <- IH. by destruct (position _ l).
Qed.

Lemma prioritize_outcome s peer h :
  consistent s -> inflight_owner s !! h = None -> h ∉ completed s ->
  outcome s (prioritize s peer h) (set_status h Pending).
Proof.
  intros Hc Ho Hd. pose proof Hc as [Hag Hdom].
  assert (match position (fun c => bool_decide (c = h)) (pending s) with
          | Some index => with_pending s (delete index (pending s)) | None => s end
          = with_pending s (without h (pending s))) as E.
  { rewrite <- (delete_position h (pending s)) by apply (ag_pending _ _ _ _ _ Hag). destruct s. by case_match. }
  unfold prioritize. rewrite E.
  eapply outcome_after; [by apply unpend_outcome| |].
  - intros Hc1. eapply outcome_trans; [apply outcome_keeps; [exact Hc1|apply add_hint_opt_reports]|].
    intros Hc2. apply push_outcome; [exact Hc2| |reflexivity]. apply status_unknown.
    destruct (add_hint_opt_reports (with_pending s (without h (pending s))) h peer) as (? & ? & ? & ->). cbn.
    split_and!; [done|done|]. rewrite elem_of_without. tauto.
  - intros h'. unfold set_status, on. by destruct (decide (h' = h)).
Qed.

Definition reassigned (peer : option bytes) (a : Status) : Status :=
  match a with
  | Done => Done
  | InFlight owner => if decide (peer = Some owner) then a else Pending
  | _ => Pending
  end.
Lemma reassign_outcome s peer h :
  consistent s -> outcome s (reassign_priority_block s peer h).1 (on h (reassigned peer)).
Proof.
  intros Hc. unfold reassign_priority_block. case_bool_decide as Hd.
  { eapply outcome_same; [apply outcome_keeps; [exact Hc|apply reports_refl]|]. intros h'. unfold on.
    destruct (decide (h' = h)) as [->|]; [|done]. by rewrite (proj1 (status_done s h Hc) Hd). }
  destruct (inflight_owner s !! h) as [owner|] eqn:Ho; [case_bool_decide as Hp|]; cbn [fst].
  - eapply outcome_same; [apply outcome_keeps; [exact Hc|apply reports_refl]|]. intros h'. unfold on.
    destruct (decide (h' = h)) as [->|]; [|done]. rewrite (proj1 (status_inflight s h owner Hc) Ho).
    cbn. by rewrite decide_True.
  - eapply outcome_after; [by apply release_outcome| |].
    + intros Hc1. apply prioritize_outcome; [done|cbn; by rewrite lookup_delete_eq|done].
    + intros h'. unfold set_status, on. destruct (decide (h' = h)) as [->|]; [|done].
      rewrite (proj1 (status_inflight s h owner Hc) Ho). cbn. by rewrite decide_False.
  - eapply outcome_same; [by apply prioritize_outcome|]. intros h'. unfold set_status, on.
    destruct (decide (h' = h)) as [->|]; [|done].
    destruct (status s h) eqn:E; [done|done| |].
    + apply status_inflight in E; [congruence|done].
    + by apply status_done in E.
Qed.

(** *** Completion *)

Lemma finish_outcome s h :
  consistent s -> status s h = Unknown ->
  outcome s (with_completed s (completed s ∪ {[h]})) (set_status h Done).
Proof.
  intros Hc (Hd & Ho & Hn)%status_unknown. pose proof Hc as [Hag Hdom].
  split; [split; [by apply agree_finish|done]|done|].
  intros h'. unfold set_status, status. cbn. destruct (decide (h' = h)) as [->|Hne].
  - rewrite decide_True; [done|set_solver].
  - destruct (decide (h' ∈ completed s ∪ {[h]})), (decide (h' ∈ completed s)); [done|exfalso; set_solver..|done].
Qed.

(** Taken out of flight, wherever it is. *)
Lemma landed_outcome s h :
  consistent s ->
  let s1 := match inflight_owner s !! h with Some owner => release s h owner | None => s end in
  outcome s s1 (on h (fun a => match a with InFlight _ => Unknown | a => a end)) /\ inflight_owner s1 !! h = None.
Proof.
  intros Hc. destruct (inflight_owner s !! h) as [owner|] eqn:Ho; cbn zeta.
  - split; [|cbn; by rewrite lookup_delete_eq]. eapply outcome_same; [by apply release_outcome|].
    intros h'. unfold set_status, on. destruct (decide (h' = h)) as [->|]; [|done].
    by rewrite (proj1 (status_inflight s h owner Hc) Ho).
  - split; [|done]. eapply outcome_same; [apply outcome_keeps; [exact Hc|apply reports_refl]|].
    intros h'. unfold on. destruct (decide (h' = h)) as [->|]; [|done].
    destruct (status s h) eqn:E; [done..| |done]. apply status_inflight in E; [congruence|done].
Qed.

(** The completion of the code, as moves: taken back, out of the queue, done. *)
Lemma note_completed_queues s h :
  consistent s ->
  reports_only
    (let s := match inflight_owner s !! h with Some owner => release s h owner | None => s end in
     let s := with_pending s (without h (pending s)) in
     with_completed s (completed s ∪ {[h]}))
    (note_hash_completed s h).
Proof.
  intros [Hag _]. unfold note_hash_completed. cbn.
  destruct (inflight_owner s !! h) as [owner|] eqn:Ho.
  - match goal with |- context [decay_peer_penalty ?x ?o ?k] =>
      destruct (decay_penalty_reports x o k) as (? & ? & ? & E); rewrite E end.
    by eexists _, _, _.
  - assert (inflight_started s !! h = None) as Hs.
    { apply eq_None_not_Some. intros [? Hs]%(ag_started _ _ _ _ _ Hag). congruence. }
    exists (peer_hints s), (delete h (failed_peers s)), (peer_penalties s).
    unfold with_inflight, with_reports, with_completed, with_pending. cbn. by rewrite (delete_id (inflight_started s)).
Qed.

Lemma note_completed_outcome s h : consistent s -> outcome s (note_hash_completed s h) (set_status h Done).
Proof.
  intros Hc. eapply outcome_reports; [|by apply note_completed_queues]. cbn zeta.
  set (s1 := match inflight_owner s !! h with Some owner => release s h owner | None => s end).
  destruct (landed_outcome s h Hc) as [H1 Hn]. cbn zeta in H1, Hn. fold s1 in H1, Hn.
  assert (completed s1 = completed s) as Hcs by (subst s1; by case_match).
  destruct (decide (h ∈ completed s)) as [Hd|Hd].
  - pose proof (proj1 (status_done s h Hc) Hd) as Hst.
    eapply outcome_after; [exact H1| |].
    + intros Hc1. eapply outcome_trans; [by apply unpend_outcome|].
      intros Hc2. cbn. rewrite Hcs. replace (completed s ∪ {[h]}) with (completed s) by set_solver.
      rewrite <- Hcs. apply (outcome_keeps _ _ Hc2). unfold with_completed. destruct s1. by eexists _, _, _.
    + intros h'. unfold set_status, on. destruct (decide (h' = h)) as [->|]; [|done]. by rewrite Hst.
  - eapply outcome_after; [exact H1| |].
    + intros Hc1. eapply outcome_trans; [by apply unpend_outcome|].
      intros Hc2. apply finish_outcome; [done|]. apply status_unknown. cbn. rewrite Hcs.
      split_and!; [done|done|]. rewrite elem_of_without. tauto.
    + intros h'. unfold set_status, on. by destruct (decide (h' = h)).
Qed.

Lemma unfinish_outcome s h :
  consistent s -> outcome s (with_completed s (completed s ∖ {[h]})) (on h (fun a => match a with Done => Unknown | a => a end)).
Proof.
  intros Hc. pose proof Hc as [Hag Hdom]. split; [split; [by apply agree_unfinish|done]|done|].
  intros h'. unfold on, status. cbn. destruct (decide (h' = h)) as [->|Hne].
  - rewrite decide_False by set_solver. destruct (decide (h ∈ completed s)) as [Hd|Hd].
    + rewrite (ag_done _ _ _ _ _ Hag h Hd). rewrite decide_False; [done|].
      intros Hp. by destruct (ag_free _ _ _ _ _ Hag h Hp).
    + by repeat case_match.
  - destruct (decide (h' ∈ completed s ∖ {[h]})), (decide (h' ∈ completed s)); [done|exfalso; set_solver..|done].
Qed.

(** Forgetting, as moves. *)
Lemma forget_hash_queues s h :
  consistent s ->
  reports_only
    (let s := match inflight_owner s !! h with Some owner => release s h owner | None => s end in
     let s := with_pending s (without h (pending s)) in
     with_completed s (completed s ∖ {[h]}))
    (forget_hash s h).1.
Proof.
  intros [Hag _]. unfold forget_hash. cbn [fst]. exists (delete h (peer_hints s)), (delete h (failed_peers s)), (peer_penalties s).
  destruct (inflight_owner s !! h) as [owner|] eqn:Ho.
  - unfold with_reports, with_completed, with_pending, with_inflight, release. cbn. f_equal.
    apply map_eq. intros p. rewrite lookup_fmap. destruct (decide (p = owner)) as [->|Hne].
    + by rewrite lookup_alter_eq.
    + rewrite lookup_alter_ne by done. destruct (inflight_by_peer s !! p) as [q|] eqn:Eq; [|done]. cbn. f_equal.
      apply without_id. intros Hin. assert (inflight_owner s !! h = Some p) as Hp; [|congruence].
      apply (ag_owner _ _ _ _ _ Hag). unfold inflight_of. by rewrite Eq.
  - assert (inflight_started s !! h = None) as Hs.
    { apply eq_None_not_Some. intros [? Hs]%(ag_started _ _ _ _ _ Hag). congruence. }
    unfold with_reports, with_completed, with_pending, with_inflight. cbn.
    rewrite !delete_id by done. f_equal.
    apply map_eq. intros p. rewrite lookup_fmap. destruct (inflight_by_peer s !! p) as [q|] eqn:Eq; [|done]. cbn. f_equal.
    apply without_id. intros Hin. assert (inflight_owner s !! h = Some p) as Hp; [|congruence].
    apply (ag_owner _ _ _ _ _ Hag). unfold inflight_of. by rewrite Eq.
Qed.

Lemma forget_outcome s h : consistent s -> outcome s (forget_hash s h).1 (set_status h Unknown).
Proof.
  intros Hc. eapply outcome_reports; [|by apply forget_hash_queues]. destruct (landed_outcome s h Hc) as [H1 Hn].
  cbn zeta in *. set (s1 := match inflight_owner s !! h with Some owner => release s h owner | None => s end) in *.
  assert (completed s1 = completed s) as Hcs by (subst s1; by case_match).
  eapply outcome_after; [exact H1| |].
  - intros Hc1. eapply outcome_trans; [by apply unpend_outcome|]. intros Hc2. by apply unfinish_outcome.
  - intros h'. unfold set_status, on. destruct (decide (h' = h)) as [->|]; [|done]. by destruct (status s h).
Qed.

Lemma forget_blocks_fold s hashes removed :
  (foldl (fun st h => let '(s, removed) := st in
                      let '(s, hit) := forget_hash s h in
                      (s, if (hit : bool) then saturating_add USIZE_MAX removed 1 else removed)) (s, removed) hashes).1
  = foldl (fun s h => (forget_hash s h).1) s hashes.
Proof.
  revert s removed. induction hashes as [|h hashes IH]; intros s removed; [done|]. cbn [foldl].
  destruct (forget_hash s h) as [s1 hit]. apply IH.
Qed.
Lemma forget_blocks_outcome s hashes :
  consistent s -> outcome s (forget_blocks s hashes).1 (fun h a => if decide (h ∈ hashes) then Unknown else a).
Proof.
  intros Hc. unfold forget_blocks. rewrite forget_blocks_fold.
  eapply outcome_same; [apply (fold_outcome _ (fun h => set_status h Unknown)); [|done]|].
  - intros s1 h Hc1. by apply forget_outcome.
  - intros h'. cbn beta. rewrite (foldl_present (fun h => set_status h Unknown)).
    + unfold set_status. by rewrite (decide_True (P:=h' = h')) by done.
    + intros h b Hne. unfold set_status. by rewrite decide_False.
    + intros b. unfold set_status. by rewrite !decide_True.
Qed.

Definition active (a : Status) : bool := match a with Pending | InFlight _ => true | _ => false end.

Lemma prune_fold s (done : Hash48 -> bool) hashes pruned :
  (foldl (fun st h => let '(s, pruned) := st in
                      if done h then (note_hash_completed s h, saturating_add USIZE_MAX pruned 1) else (s, pruned))
     (s, pruned) hashes).1
  = foldl (fun s h => if done h then note_hash_completed s h else s) s hashes.
Proof.
  revert s pruned. induction hashes as [|h hashes IH]; intros s pruned; [reflexivity|]. cbn [foldl].
  destruct (done h); apply IH.
Qed.
Lemma prune_outcome s (done : Hash48 -> bool) :
  consistent s ->
  outcome s (prune_completed_where s done).1 (fun h a => if active a && done h then Done else a).
Proof.
  intros Hc. unfold prune_completed_where. rewrite prune_fold. set (hashes := sorted_elements _ _).
  eapply outcome_same; [apply (fold_outcome _ (fun h => on h (fun a => if done h then Done else a))); [|exact Hc]|].
  - intros s1 h Hc1. destruct (done h).
    + eapply outcome_same; [by apply note_completed_outcome|]. intros h'. unfold set_status, on. by destruct (decide _).
    + eapply outcome_same; [apply outcome_keeps; [exact Hc1|apply reports_refl]|]. intros h'. unfold on. by destruct (decide _).
  - intros h'. cbn beta. rewrite (foldl_present (fun h => on h (fun a => if done h then Done else a))).
    + assert (h' ∈ hashes <-> active (status s h') = true) as Hin.
      { subst hashes. unfold sorted_elements. rewrite merge_sort_Permutation, elem_of_elements, elem_of_union, elem_of_list_to_set, elem_of_dom.
        split.
        - intros [Hp|[p Hp]]; [by rewrite (proj1 (status_pending s h' Hc) Hp)|by rewrite (proj1 (status_inflight s h' p Hc) Hp)].
        - destruct (status s h') eqn:E; [done| | |done]; intros _.
          + left. by apply status_pending.
          + right. exists peer. by apply status_inflight. }
      unfold on. rewrite (decide_True (P:=h' = h')) by reflexivity.
      destruct (decide (h' ∈ hashes)) as [Hi|Hi]; [by rewrite (proj1 Hin Hi)|].
      destruct (active (status s h')); [|done]. by destruct Hi; apply Hin.
    + intros h b Hne. unfold on. by rewrite decide_False.
    + intros b. unfold on. rewrite !decide_True by reflexivity. by destruct (done h').
Qed.

Lemma sort_outcome {K} (le : relation K) `{Hle : !forall x y, Decision (le x y)} s key :
  consistent s -> outcome s (sort_pending_by_key le s key) (fun _ a => a).
Proof.
  intros Hc. pose proof Hc as [Hag Hdom].
  assert (merge_sort (fun a b => le (key a) (key b)) (H:=fun a b => Hle (key a) (key b)) (pending s) ≡ₚ pending s) as Hp
    by apply merge_sort_Permutation.
  split; [split; [by apply (agree_perm _ _ _ _ _ Hag)|done]|done|].
  intros h. unfold status. cbn. destruct (decide (h ∈ completed s)); [done|]. destruct (inflight_owner s !! h); [done|].
  apply decide_ext. by rewrite Hp.
Qed.

(** *** Clocks *)

Lemma restart_dom now inflight started h : is_Some (restart now inflight started !! h) <-> is_Some (started !! h).
Proof.
  revert started. induction inflight as [|c inflight IH]; intros started; [done|]. unfold restart. cbn [foldl].
  fold (restart now inflight (alter (fun _ => now) c started)). rewrite IH. apply lookup_alter_is_Some.
Qed.
Lemma progress_outcome s peer now :
  consistent s -> outcome s (note_peer_delivery_progress s peer now) (fun _ a => a).
Proof.
  intros Hc. unfold note_peer_delivery_progress. destruct (inflight_by_peer s !! peer) as [inflight|].
  - pose proof Hc as [Hag Hdom]. split; [split; [|done]|done|done].
    apply (agree_clock _ _ _ _ _ Hag). intros h. apply restart_dom.
  - apply outcome_keeps; [done|apply reports_refl].
Qed.

(** *** Blocks given back *)

Lemma give_back_outcome s h peer :
  consistent s -> (forall p, inflight_owner s !! h = Some p -> p = peer) ->
  outcome s (requeue (give_back s h peer) h)
    (on h (fun a => match a with Unknown | InFlight _ => Pending | a => a end)).
Proof.
  intros Hc Hown. unfold give_back.
  assert (outcome s (add_failure (drop_hint (release s h peer) h peer) h peer)
            (on h (fun a => match a with InFlight _ => Unknown | a => a end))) as H1.
  { eapply outcome_reports; [|apply add_failure_reports]. destruct (inflight_owner s !! h) as [p|] eqn:Ho.
    - rewrite (Hown p eq_refl) in Ho. eapply outcome_same; [by apply release_outcome|]. intros h'. unfold set_status, on.
      destruct (decide (h' = h)) as [->|]; [|done]. by rewrite (proj1 (status_inflight s h peer Hc) Ho).
    - eapply outcome_same; [by apply release_none|]. intros h'. unfold on.
      destruct (decide (h' = h)) as [->|]; [|done].
      destruct (status s h) eqn:E; [done..| |done]. apply status_inflight in E; [congruence|done]. }
  eapply outcome_after; [exact H1| |].
  - intros Hc1. apply requeue_outcome; [done|].
    destruct (add_failure_reports (release s h peer) h peer) as (? & ? & ? & ->). cbn. apply lookup_delete_eq.
  - intros h'. unfold on. destruct (decide (h' = h)) as [->|]; [|done]. by destruct (status s h).
Qed.

Definition lost_by (peer : bytes) (a : Status) : Status :=
  match a with Unknown => Pending | InFlight p => if decide (p = peer) then Pending else a | a => a end.

Lemma not_found_fold peer s penalize hashes :
  (foldl (not_found_one peer) (s, penalize) hashes).1
  = foldl (fun s h => (not_found_one peer (s, false) h).1) s hashes.
Proof.
  revert s penalize. induction hashes as [|h hashes IH]; intros s penalize; [done|]. cbn [foldl].
  destruct (not_found_one peer (s, penalize) h) as [s1 p1] eqn:E. rewrite IH. f_equal.
  unfold not_found_one in *. repeat case_match; by simplify_eq.
Qed.
Lemma not_found_outcome s peer hashes :
  consistent s -> outcome s (note_not_found s peer hashes) (fun h a => if decide (h ∈ hashes) then lost_by peer a else a).
Proof.
  intros Hc. unfold note_not_found.
  destruct (foldl (not_found_one peer) (s, false) hashes) as [s1 penalize] eqn:E.
  assert (s1 = foldl (fun s h => (not_found_one peer (s, false) h).1) s hashes) as ->.
  { by rewrite <- not_found_fold with (penalize := false), E. }
  apply (outcome_reports _ (foldl (fun s h => (not_found_one peer (s, false) h).1) s hashes));
    [|destruct penalize; [apply penalize_reports|apply reports_refl]].
  eapply outcome_same; [apply (fold_outcome _ (fun h => on h (lost_by peer))); [|exact Hc]|].
  - intros s1 h Hc1. unfold not_found_one. destruct (inflight_owner s1 !! h) as [owner|] eqn:Ho.
    + pose proof (proj1 (status_inflight s1 h owner Hc1) Ho) as Hst. case_bool_decide as Hp; cbn [fst].
      * subst owner. eapply outcome_same; [apply give_back_outcome; [done|congruence]|].
        intros h'. unfold on. destruct (decide (h' = h)) as [->|]; [|done]. rewrite Hst. cbn. by rewrite decide_True.
      * eapply outcome_same; [apply outcome_keeps; [exact Hc1|apply reports_refl]|].
        intros h'. unfold on. destruct (decide (h' = h)) as [->|]; [|done]. rewrite Hst. cbn. by rewrite decide_False.
    + eapply outcome_same; [apply give_back_outcome; [done|congruence]|].
      intros h'. unfold on. destruct (decide (h' = h)) as [->|]; [|done].
      destruct (status s1 h) eqn:Es; [done..| |done]. apply status_inflight in Es; [congruence|done].
  - intros h'. cbn beta. rewrite (foldl_present (fun h => on h (lost_by peer))).
    + unfold on. by rewrite (decide_True (P:=h' = h')) by reflexivity.
    + intros h b Hne. unfold on. by rewrite decide_False.
    + intros b. unfold on. rewrite !decide_True by reflexivity. unfold lost_by. by repeat (case_match; simplify_eq).
Qed.

(** A list of different blocks in flight is given back one by one. *)
Definition recall (a : Status) : Status := match a with InFlight _ => Pending | a => a end.

Lemma recall_fold {L} (P : bytes -> Prop) (step : BlockDownloadScheduler * L -> Hash48 -> BlockDownloadScheduler * L) hashes :
  (forall s l h p, consistent s -> P p -> inflight_owner s !! h = Some p ->
     outcome s (step (s, l) h).1 (on h recall)) ->
  forall s l, consistent s -> NoDup hashes -> (forall h, h ∈ hashes -> exists p, inflight_owner s !! h = Some p /\ P p) ->
  outcome s (foldl step (s, l) hashes).1 (fun h a => if decide (h ∈ hashes) then recall a else a).
Proof.
  intros Hstep. induction hashes as [|h hashes IH]; intros s l Hc Hnd Hall.
  { eapply outcome_same; [apply outcome_keeps; [exact Hc|apply reports_refl]|]. intros h'.
    by rewrite decide_False by apply not_elem_of_nil. }
  apply NoDup_cons in Hnd as [Hh Hnd]. destruct (Hall h) as (p & Hp & HP); [by left|]. cbn [foldl].
  pose proof (Hstep s l h p Hc HP Hp) as H1. destruct (step (s, l) h) as [s1 l1]. cbn [fst] in H1.
  eapply outcome_after; [exact H1| |].
  - intros Hc1. apply IH; [done|done|]. intros h' Hin. destruct (Hall h') as (p' & Hp' & HP'); [by right|].
    exists p'. split; [|done]. apply (status_inflight s1 h' p' Hc1). rewrite (oc_status _ _ _ H1). unfold on.
    rewrite decide_False by (intros ->; done). by apply status_inflight.
  - intros h'. unfold on. destruct (decide (h' = h)) as [->|Hne].
    + rewrite decide_False by done. rewrite decide_True by by left. done.
    + assert (h' ∈ h :: hashes <-> h' ∈ hashes) as Hiff by (rewrite elem_of_cons; tauto).
      by destruct (decide (h' ∈ h :: hashes)), (decide (h' ∈ hashes)); try tauto.
Qed.

Lemma returned_outcome s h p s1 :
  consistent s -> inflight_owner s !! h = Some p -> reports_only (give_back s h p) s1 ->
  outcome s (requeue s1 h) (on h recall).
Proof.
  intros Hc Ho Hrep. pose proof (give_back_outcome s h p Hc) as H1.
  assert (outcome s (requeue (give_back s h p) h) (on h recall)) as H2.
  { eapply outcome_same; [apply H1; congruence|]. intros h'. unfold on. destruct (decide (h' = h)) as [->|]; [|done].
    by rewrite (proj1 (status_inflight s h p Hc) Ho). }
  eapply outcome_reports; [exact H2|]. destruct Hrep as (a & b & c & ->). unfold requeue. cbn. by case_match; eexists _, _, _.
Qed.

Definition recall_stale (s : BlockDownloadScheduler) (timeout now : Z) (h : Hash48) (a : Status) : Status :=
  if is_stale s timeout now h then recall a else a.
Lemma stale_outcome s timeout now :
  consistent s -> outcome s (requeue_stale_inflight_details s timeout now).1 (recall_stale s timeout now).
Proof.
  intros Hc. pose proof Hc as [Hag Hdom]. unfold requeue_stale_inflight_details. set (stale := filter _ _).
  assert (forall h, h ∈ stale <-> is_stale s timeout now h = true) as Hin.
  { intros h. subst stale. rewrite list_elem_of_filter. split; [tauto|]. intros Hst. split; [done|].
    unfold is_stale in Hst. destruct (inflight_started s !! h) as [t|] eqn:Et; [|done].
    apply list_elem_of_fmap. exists (h, t). split; [done|]. by apply elem_of_sorted_entries. }
  eapply outcome_same; [apply (recall_fold (fun _ => True)); [|exact Hc| |]|].
  - intros s1 l h p Hc1 _ Ho. unfold stale_one. rewrite Ho. cbn [fst].
    apply (returned_outcome s1 h p); [done|done|apply penalize_reports].
  - subst stale. apply NoDup_filter. unfold sorted_entries. rewrite merge_sort_Permutation. apply NoDup_fst_map_to_list.
  - intros h Hh%Hin. assert (is_Some (inflight_owner s !! h)) as [p Hp]; [|by exists p].
    apply (ag_started _ _ _ _ _ Hag). unfold is_stale in Hh. by destruct (inflight_started s !! h).
  - intros h. cbn beta. unfold recall_stale. specialize (Hin h).
    destruct (decide (h ∈ stale)), (is_stale s timeout now h); tauto || naive_solver.
Qed.

Lemma stale_for_peer_outcome s peer timeout now :
  consistent s ->
  outcome s (requeue_stale_inflight_for_peer s peer timeout now).1
    (fun h a => if decide (a = InFlight peer) then recall_stale s timeout now h a else a).
Proof.
  intros Hc. pose proof Hc as [Hag Hdom]. unfold requeue_stale_inflight_for_peer.
  destruct (inflight_by_peer s !! peer) as [inflight|] eqn:Eq.
  - assert (inflight_of s peer = inflight) as Hq by (unfold inflight_of; by rewrite Eq).
    assert (forall h, h ∈ inflight <-> status s h = InFlight peer) as Hmem.
    { intros h. rewrite <- status_inflight by done. rewrite <- Hq. symmetry. apply (ag_owner _ _ _ _ _ Hag). }
    set (stale := filter _ _).
    eapply outcome_same; [apply (recall_fold (fun p => p = peer)); [|exact Hc| |]|].
    + intros s1 l h p Hc1 -> Ho. cbn [fst stale_for_peer].
      apply (returned_outcome s1 h peer); [done|done|apply penalize_reports].
    + subst stale. apply NoDup_filter. rewrite <- Hq. apply (ag_queue _ _ _ _ _ Hag).
    + intros h [_ Hh]%list_elem_of_filter. exists peer. split; [|done]. apply status_inflight; [done|]. by apply Hmem.
    + intros h. cbn beta. unfold recall_stale. specialize (Hmem h).
      assert (h ∈ stale <-> is_stale s timeout now h = true /\ h ∈ inflight) as Hst by (subst stale; by rewrite list_elem_of_filter).
      destruct (decide (h ∈ stale)), (decide (status s h = InFlight peer)), (is_stale s timeout now h); tauto || naive_solver.
  - eapply outcome_same; [apply outcome_keeps; [exact Hc|apply reports_refl]|]. intros h. cbn beta.
    destruct (decide (status s h = InFlight peer)) as [Hst|]; [|done].
    apply status_inflight, (ag_owner _ _ _ _ _ Hag) in Hst; [|done].
    unfold inflight_of in Hst. rewrite Eq in Hst. by apply elem_of_nil in Hst.
Qed.

(** *** Peers *)

Lemma ready_consistent s peer : consistent s -> consistent (note_peer_ready s peer) /\ forall h, status (note_peer_ready s peer) h = status s h.
Proof.
  intros Hc. pose proof Hc as [Hag Hdom]. split; [|done]. split.
  - cbn. refine (agree_queue _ _ _ _ _ Hag _ _). intros p. unfold inflight_of. cbn.
    destruct (decide (p = peer)) as [->|Hne]; [by rewrite lookup_insert_eq|by rewrite lookup_insert_ne].
  - cbn. rewrite dom_insert_L, Hdom. set_solver.
Qed.

(** The invariant while a peer's blocks are handed on: [rest] is what is left. *)
Definition leaving (peer : bytes) (s : BlockDownloadScheduler) (rest : list Hash48) : Prop :=
  agree (pending s) (fun p => if decide (p = peer) then rest else inflight_of s p)
    (inflight_owner s) (inflight_started s) (completed s)
  /\ dom (inflight_by_peer s) = ready_peers s /\ inflight_by_peer s !! peer = None.

Lemma orphan_step peer s h rest :
  leaving peer s (h :: rest) ->
  leaving peer (orphan peer s h) rest /\ ready_peers (orphan peer s h) = ready_peers s
  /\ status s h = InFlight peer
  /\ forall h', status (orphan peer s h) h' = set_status h Pending h' (status s h').
Proof.
  intros (Hag & Hdom & Hnone).
  assert (inflight_owner s !! h = Some peer) as Ho.
  { apply (ag_owner _ _ _ _ _ Hag). rewrite decide_True by done. by left. }
  assert (h ∉ pending s) as Hp. { intros Hp. destruct (ag_free _ _ _ _ _ Hag h Hp). congruence. }
  assert (h ∉ completed s) as Hd. { intros Hd. pose proof (ag_done _ _ _ _ _ Hag h Hd). congruence. }
  assert (h ∉ rest) as Hrest.
  { pose proof (ag_queue _ _ _ _ _ Hag peer) as Hq. cbn beta in Hq. rewrite decide_True in Hq by done. by apply NoDup_cons in Hq as [? _]. }
  unfold orphan. rewrite !bool_decide_false by done. cbn [orb].
  match goal with |- context [add_failure (drop_hint ?x h peer) h peer] =>
    destruct (add_failure_reports x h peer) as (a & b & c & ->) end.
  split_and!.
  - split_and!; [|done|done]. cbn.
    assert (agree (h :: pending s) (fun p => if decide (p = peer) then rest else inflight_of s p)
              (delete h (inflight_owner s)) (delete h (inflight_started s)) (completed s)) as H1.
    { apply agree_push; [|done|apply lookup_delete_eq|done].
      refine (agree_queue _ _ _ _ _ (agree_release _ _ _ _ _ Hag h peer _) _ _); [congruence|].
      intros p. destruct (decide (p = peer)); [|done]. rewrite without_cons, decide_True by done. symmetry. by apply without_id. }
    refine (agree_queue _ _ _ _ _ (agree_perm _ _ _ _ _ H1 (pending s ++ [h]) _) _ _); [by rewrite (comm (++))|done].
  - done.
  - unfold status. by rewrite decide_False, Ho.
  - intros h'. unfold set_status, status. cbn. destruct (decide (h' = h)) as [->|Hne].
    + rewrite decide_False by done. rewrite lookup_delete_eq, decide_True; [done|]. rewrite elem_of_app. right. by left.
    + rewrite lookup_delete_ne by done. destruct (decide (h' ∈ completed s)); [done|].
      destruct (inflight_owner s !! h'); [done|]. apply decide_ext. rewrite elem_of_app, list_elem_of_singleton. tauto.
Qed.

Lemma orphans peer rest : forall s,
  leaving peer s rest ->
  consistent (foldl (orphan peer) s rest) /\ ready_peers (foldl (orphan peer) s rest) = ready_peers s
  /\ forall h, status (foldl (orphan peer) s rest) h = if decide (h ∈ rest) then Pending else status s h.
Proof.
  induction rest as [|h rest IH]; intros s Hl.
  - destruct Hl as (Hag & Hdom & Hnone). split_and!; [|done|intros h; by rewrite decide_False by apply not_elem_of_nil].
    split; [|done]. refine (agree_queue _ _ _ _ _ Hag _ _). intros p. cbn.
    destruct (decide (p = peer)) as [->|]; [|done]. unfold inflight_of. by rewrite Hnone.
  - destruct (orphan_step peer s h rest Hl) as (Hl' & Hr & _ & Hst). cbn [foldl].
    destruct (IH _ Hl') as (Hc & Hr' & Hst'). split_and!; [done|congruence|]. intros h'. rewrite Hst', Hst. unfold set_status.
    assert (h' ∈ h :: rest <-> h' = h \/ h' ∈ rest) as Hiff by apply elem_of_cons.
    destruct (decide (h' ∈ rest)), (decide (h' ∈ h :: rest)), (decide (h' = h)); tauto.
Qed.

Lemma disconnect_consistent s peer :
  consistent s ->
  consistent (note_peer_disconnected s peer)
  /\ ready_peers (note_peer_disconnected s peer) = ready_peers s ∖ {[peer]}
  /\ forall h, status (note_peer_disconnected s peer) h = if decide (status s h = InFlight peer) then Pending else status s h.
Proof.
  intros Hc. pose proof Hc as [Hag Hdom]. unfold note_peer_disconnected.
  assert (forall h, h ∈ inflight_of s peer <-> status s h = InFlight peer) as Hmem.
  { intros h. rewrite <- status_inflight by done. symmetry. apply (ag_owner _ _ _ _ _ Hag). }
  set (s1 := with_ready s (ready_peers s ∖ {[peer]}) (delete peer (inflight_by_peer s))).
  assert (leaving peer s1 (inflight_of s peer)) as Hl.
  { split_and!; [|cbn; by rewrite dom_delete_L, Hdom|apply lookup_delete_eq].
    refine (agree_queue _ _ _ _ _ Hag _ _). intros p. cbn. destruct (decide (p = peer)) as [->|Hne]; [done|].
    unfold inflight_of. cbn. by rewrite lookup_delete_ne. }
  assert (forall s2, reports_only s1 s2 -> leaving peer s2 (inflight_of s peer) /\ ready_peers s2 = ready_peers s ∖ {[peer]}
            /\ forall h, status s2 h = status s h) as Hrep.
  { by intros s2 (? & ? & ? & ->). }
  destruct (inflight_by_peer s !! peer) as [inflight|] eqn:Eq.
  - assert (inflight_of s peer = inflight) as Hq by (unfold inflight_of; by rewrite Eq).
    set (s2 := if bool_decide (inflight = []) then s1 else penalize_peer s1 peer PEER_DISCONNECT_PENALTY).
    destruct (Hrep s2) as (Hl2 & Hr2 & Hst2); [subst s2; case_match; [apply reports_refl|apply penalize_reports]|].
    rewrite Hq in Hl2. destruct (orphans peer inflight s2 Hl2) as (Hc' & Hr' & Hst'). split_and!; [done|congruence|].
    intros h. rewrite Hst', Hst2. specialize (Hmem h). rewrite Hq in Hmem.
    destruct (decide (h ∈ inflight)), (decide (status s h = InFlight peer)); tauto.
  - assert (inflight_of s peer = []) as Hq by (unfold inflight_of; by rewrite Eq).
    rewrite Hq in Hl. destruct (orphans peer [] s1 Hl) as (Hc' & Hr' & Hst'). split_and!; [done|done|].
    intros h. specialize (Hmem h). rewrite Hq in Hmem.
    destruct (decide (status s h = InFlight peer)) as [E|]; [|done]. by apply Hmem, elem_of_nil in E.
Qed.

(** *** Assignment *)

Lemma assign_outcome s h rest peer now :
  consistent (with_pending s (h :: rest)) -> peer ∈ ready_peers s ->
  outcome (with_pending s (h :: rest)) (with_pending (assign s h peer now) rest) (set_status h (InFlight peer)).
Proof.
  intros Hc Hpeer. pose proof Hc as [Hag Hdom]. cbn in Hag, Hdom.
  pose proof (ag_pending _ _ _ _ _ Hag) as Hnd. apply NoDup_cons in Hnd as [Hh Hnd].
  destruct (ag_free _ _ _ _ _ Hag h) as [Ho Hd]; [by left|].
  assert (agree rest (inflight_of s) (inflight_owner s) (inflight_started s) (completed s)) as Hrest.
  { pose proof (agree_unpend _ _ _ _ _ Hag h) as H. by rewrite without_cons, decide_True, without_id in H. }
  split.
  - split.
    + cbn. refine (agree_queue _ _ _ _ _ (agree_assign _ _ _ _ _ Hrest h peer now Hh Ho Hd) _ _).
      intros p. unfold inflight_of at 1. cbn. destruct (decide (p = peer)) as [->|Hne].
      * by rewrite lookup_insert_eq.
      * by rewrite lookup_insert_ne.
    + cbn. rewrite dom_insert_L, Hdom. set_solver.
  - done.
  - intros h'. unfold set_status, status. cbn. destruct (decide (h' = h)) as [->|Hne].
    + by rewrite decide_False, lookup_insert_eq.
    + rewrite lookup_insert_ne by done. destruct (decide (h' ∈ completed s)); [done|].
      destruct (inflight_owner s !! h'); [done|]. apply decide_ext. rewrite elem_of_cons. tauto.
Qed.

Lemma candidate_compare_refl c : candidate_compare c c = Eq.
Proof. unfold candidate_compare. by rewrite !Z.compare_refl. Qed.
Lemma min_candidate_in best l : min_candidate best l ∈ best :: l.
Proof.
  revert best. induction l as [|c l IH]; intros best; [by left|]. cbn.
  specialize (IH (match candidate_compare c best with Lt => c | _ => best end)).
  rewrite !elem_of_cons in *. destruct (candidate_compare c best); tauto.
Qed.

Section selection.
Context (s : BlockDownloadScheduler) (peers : list bytes) (start_index max_per_peer max_per_batch : Z)
  (staged : gmap bytes (list InventoryVector)).

Definition has_room (peer : bytes) : Prop :=
  peer_inflight_len s peer < max_per_peer /\ zlen (default [] (staged !! peer)) < max_per_batch.

Lemma select_candidates_Some allowed peer :
  0 < max_per_batch ->
  select_peer_from_candidates s peers start_index max_per_peer max_per_batch staged allowed = Some peer ->
  peer ∈ peers /\ allowed peer = true /\ has_room peer.
Proof.
  intros Hb. unfold select_peer_from_candidates. set (candidates := omap _ _).
  assert (forall c, c ∈ candidates -> c_peer c ∈ peers /\ allowed (c_peer c) = true /\ has_room (c_peer c)) as Hall.
  { intros c ([i p] & (k & -> & Hk)%enumerate_elem & Hc)%list_elem_of_omap.
    destruct (allowed p) eqn:Ea; [|done]. cbn [negb] in Hc.
    destruct (match staged !! p with Some inventory => max_per_batch <=? zlen inventory | None => false end) eqn:Es; [done|].
    destruct (peer_inflight_len s p <? max_per_peer) eqn:Ei; [|done]. injection Hc as <-. cbn [c_peer].
    split_and!; [by eapply list_elem_of_lookup_2|done|]. unfold has_room. apply Z.ltb_lt in Ei.
    split; [done|]. destruct (staged !! p); cbn; [apply Z.leb_gt in Es; done|done]. }
  destruct candidates as [|c rest]; [done|]. intros [= <-]. apply Hall, min_candidate_in.
Qed.

Lemma select_candidates_None allowed :
  select_peer_from_candidates s peers start_index max_per_peer max_per_batch staged allowed = None ->
  forall peer, peer ∈ peers -> allowed peer = true -> has_room peer -> False.
Proof.
  unfold select_peer_from_candidates. set (candidates := omap _ _). intros Hnone peer (k & Hk)%list_elem_of_lookup Ha [Hi Hs].
  destruct candidates as [|c rest] eqn:E; [|done].
  assert (exists c, c ∈ candidates) as [c Hc].
  { eexists. subst candidates. apply list_elem_of_omap. exists (Z.of_nat k, peer). split.
    - apply enumerate_elem. eauto.
    - cbn beta iota. rewrite Ha. cbn [negb].
      replace (match staged !! peer with Some inventory => max_per_batch <=? zlen inventory | None => false end) with false.
      + by rewrite (proj2 (Z.ltb_lt _ _) Hi).
      + destruct (staged !! peer); [|done]. symmetry. by apply Z.leb_gt. }
  rewrite E in Hc. by apply elem_of_nil in Hc.
Qed.

Lemma select_peer_Some h peer :
  0 < max_per_batch ->
  select_peer_for_hash_limited s peers start_index max_per_peer max_per_batch staged h = Some peer ->
  peer ∈ peers /\ hinted s h peer = true /\ has_room peer.
Proof.
  intros Hb. unfold select_peer_for_hash_limited. case_bool_decide; [done|].
  destruct (select_peer_from_candidates _ _ _ _ _ _ (fun _ => _)) as [p|] eqn:E.
  - intros [= <-]. apply select_candidates_Some in E as (? & Ha & ?); [|done]. apply andb_true_iff in Ha as [? _]. done.
  - intros Hsel. by apply select_candidates_Some in Hsel.
Qed.
Lemma select_peer_None h peer :
  select_peer_for_hash_limited s peers start_index max_per_peer max_per_batch staged h = None ->
  peer ∈ peers -> hinted s h peer = true -> has_room peer -> False.
Proof.
  unfold select_peer_for_hash_limited. case_bool_decide as Hp.
  { intros _ Hin. subst peers. by apply elem_of_nil in Hin. }
  destruct (select_peer_from_candidates _ _ _ _ _ _ (fun _ => _)) as [p|] eqn:E; [done|].
  intros Hnone. by apply (select_candidates_None (hinted s h)).
Qed.
End selection.

Lemma queued_total_alter m p (q q' : list Hash48) :
  m !! p = Some q ->
  zsum ((fun pq : bytes * list Hash48 => zlen pq.2) <$> map_to_list (<[p := q']> m))
  = zsum ((fun pq : bytes * list Hash48 => zlen pq.2) <$> map_to_list m) - zlen q + zlen q'.
Proof.
  intros Hm. rewrite <- (map_to_list_delete m p q Hm), <- insert_delete_eq.
  rewrite map_to_list_insert by apply lookup_delete_eq. rewrite !fmap_cons. cbn [zsum snd]. lia.
Qed.
Lemma queued_total_assign s h peer now :
  is_Some (inflight_by_peer s !! peer) -> queued_total (assign s h peer now) = queued_total s + 1.
Proof.
  intros [q Hq]. unfold queued_total. cbn. rewrite (queued_total_alter _ _ q) by done.
  unfold inflight_of. rewrite Hq. cbn. unfold zlen. rewrite length_app. cbn. lia.
Qed.
Lemma inflight_of_assign s h peer now p :
  inflight_of (assign s h peer now) p = if decide (p = peer) then inflight_of s p ++ [h] else inflight_of s p.
Proof.
  unfold inflight_of at 1. cbn. destruct (decide (p = peer)) as [->|]; [by rewrite lookup_insert_eq|by rewrite lookup_insert_ne].
Qed.

(** The blocks of [sent] that went to a peer, in order. *)
Definition sent_to (p : bytes) (sent : list (Hash48 * bytes)) : list Hash48 := (filter (fun hp => hp.2 = p) sent).*1.
Lemma sent_to_cons p h peer sent :
  sent_to p ((h, peer) :: sent) = if decide (peer = p) then h :: sent_to p sent else sent_to p sent.
Proof. unfold sent_to. rewrite filter_cons. cbn. by destruct (decide (peer = p)). Qed.

(** What a round of requests did: [sent] are the blocks that went out, in queue order. *)
Record requested (peers : list bytes) (max_blocks max_per_peer max_per_batch : Z) (queue : list Hash48)
    (s s' : BlockDownloadScheduler) (staged staged' : gmap bytes (list InventoryVector))
    (sent : list (Hash48 * bytes)) : Prop := {
  rq_consistent : consistent s';
  rq_ready : ready_peers s' = ready_peers s;
  rq_hints : peer_hints s' = peer_hints s;
  rq_queue : queue = sent.*1 ++ pending s';
  rq_sent : forall h p, (h, p) ∈ sent -> p ∈ peers /\ hinted s h p = true /\ status s' h = InFlight p;
  rq_others : forall h, h ∉ sent.*1 -> status s' h = status (with_pending s queue) h;
  rq_staged : forall p, staged' !! p = match sent_to p sent with
                | [] => staged !! p
                | out => Some (default [] (staged !! p) ++ (block_vector <$> out))
                end;
  rq_inflight : forall p, inflight_of s' p = inflight_of s p ++ sent_to p sent;
  rq_total : queued_total s' = queued_total s + zlen sent /\ queued_total s' <= Z.max max_blocks (queued_total s);
  rq_peer : forall p, peer_inflight_len s' p <= Z.max max_per_peer (peer_inflight_len s p);
  rq_batch : forall p, zlen (default [] (staged' !! p)) <= Z.max max_per_batch (zlen (default [] (staged !! p)));
  rq_stop : forall h rest, pending s' = h :: rest -> queued_total s' < max_blocks ->
    forall p, p ∈ peers -> hinted s h p = true -> ~ has_room s' max_per_peer max_per_batch staged' p;
}.

Lemma assign_loop_spec peers max_blocks max_per_peer max_per_batch now queue :
  0 < max_per_batch -> max_blocks <= USIZE_MAX ->
  forall s staged cursor s' staged',
  (forall p, p ∈ peers -> p ∈ ready_peers s) ->
  consistent (with_pending s queue) ->
  assign_loop peers max_blocks max_per_peer max_per_batch now queue s staged cursor (queued_total s) = (s', staged') ->
  exists sent, requested peers max_blocks max_per_peer max_per_batch queue s s' staged staged' sent.
Proof.
  intros Hb Hmax. induction queue as [|h queue IH]; intros s staged cursor s' staged' Hpeers Hc Hrun; cbn [assign_loop] in Hrun.
  { injection Hrun as <- <-. exists []. split; try done; cbn.
    - by intros ? ? ?%elem_of_nil.
    - intros p. by rewrite app_nil_r.
    - unfold queued_total, zlen. cbn. lia.
    - intros p. unfold peer_inflight_len, inflight_of. cbn. lia.
    - intros p. lia. }
  assert (forall s1, s1 = with_pending s (h :: queue) ->
    (queued_total s1 < max_blocks -> forall p, p ∈ peers -> hinted s h p = true -> ~ has_room s1 max_per_peer max_per_batch staged p) ->
    requested peers max_blocks max_per_peer max_per_batch (h :: queue) s s1 staged staged []) as Hstop.
  { intros s1 -> Hst. split; try done; cbn.
    - by intros ? ? ?%elem_of_nil.
    - intros p. by rewrite app_nil_r.
    - unfold queued_total, zlen. cbn. lia.
    - intros p. unfold peer_inflight_len, inflight_of. cbn. lia.
    - intros p. lia.
    - intros h' rest [= <- <-]. apply Hst. }
  destruct (queued_total s <? max_blocks) eqn:Et; cbn [negb] in Hrun.
  2: { injection Hrun as <- <-. exists []. apply Hstop; [done|]. apply Z.ltb_ge in Et. unfold queued_total in *. cbn. lia. }
  apply Z.ltb_lt in Et.
  destruct (select_peer_for_hash_limited s peers cursor max_per_peer max_per_batch staged h) as [peer|] eqn:Es.
  2: { injection Hrun as <- <-. exists []. apply Hstop; [done|]. intros _ p Hp Hh Hr.
       by apply (select_peer_None s peers cursor max_per_peer max_per_batch staged h p). }
  apply select_peer_Some in Es as (Hin & Hhint & Hroom); [|done].
  pose proof (assign_outcome s h queue peer now Hc (Hpeers _ Hin)) as [Hc1 Hr1 Hst1].
  assert (is_Some (inflight_by_peer s !! peer)) as Hsome.
  { destruct Hc as [_ Hdom]. cbn in Hdom. apply elem_of_dom. rewrite Hdom. auto. }
  pose proof (queued_total_assign s h peer now Hsome) as Hq1.
  replace (saturating_add USIZE_MAX (queued_total s) 1) with (queued_total (assign s h peer now)) in Hrun
    by (unfold saturating_add; lia).
  set (staged1 := <[peer := default [] (staged !! peer) ++ [block_vector h]]> staged) in *.
  apply IH in Hrun as (sent & Hrq); [|done|exact Hc1]. exists ((h, peer) :: sent).
  destruct Hrq as [Rc Rr Rh Rq Rs Ro Rst Ri [Rt Rt'] Rp Rb Rstop].
  assert (h ∉ sent.*1) as Hns.
  { destruct Hc as [Hag _]. pose proof (ag_pending _ _ _ _ _ Hag) as Hnd. cbn in Hnd.
    apply NoDup_cons in Hnd as [Hnd _]. rewrite Rq in Hnd. rewrite elem_of_app in Hnd. tauto. }
  split.
  - done.
  - exact Rr.
  - done.
  - cbn. by rewrite Rq at 1.
  - intros h' p [[= -> ->]|Hs]%elem_of_cons; [|by apply Rs].
    split_and!; [done|done|]. rewrite Ro by done. rewrite Hst1. unfold set_status. by rewrite decide_True.
  - intros h' [Hne Hns']%not_elem_of_cons. cbn in Hne. rewrite Ro by done. rewrite Hst1. unfold set_status. by rewrite decide_False.
  - intros p. rewrite Rst, sent_to_cons. subst staged1. destruct (decide (peer = p)) as [->|Hne].
    + rewrite lookup_insert_eq. destruct (sent_to p sent); [done|]. cbn. by rewrite <- app_assoc.
    + by rewrite lookup_insert_ne.
  - intros p. rewrite Ri, inflight_of_assign, sent_to_cons.
    destruct (decide (p = peer)) as [->|Hne]; [rewrite decide_True by done; by rewrite <- app_assoc|by rewrite decide_False by done].
  - unfold zlen in *. cbn [length]. lia.
  - intros p. specialize (Rp p). unfold peer_inflight_len in Rp at 2. rewrite inflight_of_assign in Rp.
    destruct (decide (p = peer)) as [->|Hne]; [|exact Rp]. destruct Hroom as [Hroom _].
    unfold peer_inflight_len in *. unfold zlen in *. rewrite length_app in Rp. cbn in Rp. lia.
  - intros p. specialize (Rb p). subst staged1. destruct (decide (p = peer)) as [->|Hne].
    + rewrite lookup_insert_eq in Rb. cbn in Rb. destruct Hroom as [_ Hroom]. unfold zlen in *.
      rewrite length_app in Rb. cbn in Rb. lia.
    + by rewrite lookup_insert_ne in Rb.
  - intros h' rest Hp Hlt p Hpin Hh. by apply (Rstop h' rest).
Qed.

(** What one peer was asked for. *)
Record scanned (peer : bytes) (max_blocks capacity : Z) (allowed_hash : Hash48 -> bool) (queue : list Hash48)
    (s s' : BlockDownloadScheduler) (inventory inventory' : list InventoryVector) (sent : list Hash48) : Prop := {
  sc_consistent : consistent s';
  sc_ready : ready_peers s' = ready_peers s;
  sc_perm : queue ≡ₚ sent ++ pending s';
  sc_order : pending s' `sublist_of` queue;
  sc_inventory : inventory' = inventory ++ (block_vector <$> sent);
  sc_status : forall h, status s' h = if decide (h ∈ sent) then InFlight peer else status (with_pending s queue) h;
  sc_sent : forall h, h ∈ sent -> allowed_hash h = true /\ hinted s h peer = true;
  sc_total : queued_total s' <= Z.max max_blocks (queued_total s);
  sc_capacity : zlen inventory' <= Z.max capacity (zlen inventory);
  sc_inflight : inflight_of s' peer = inflight_of s peer ++ sent;
}.

Lemma with_pending_perm s l l' : consistent (with_pending s l) -> l' ≡ₚ l ->
  consistent (with_pending s l') /\ forall h, status (with_pending s l') h = status (with_pending s l) h.
Proof.
  intros [Hag Hdom] Hp. split; [split; [by apply (agree_perm _ _ _ _ _ Hag)|done]|].
  intros h. unfold status. cbn. destruct (decide (h ∈ completed s)); [done|]. destruct (inflight_owner s !! h); [done|].
  apply decide_ext. by rewrite Hp.
Qed.

Lemma scan_stop peer max_blocks capacity allowed_hash s queue inventory :
  consistent (with_pending s queue) ->
  scanned peer max_blocks capacity allowed_hash queue s (with_pending s queue) inventory inventory [].
Proof.
  intros Hc. split; try done; cbn.
  - by rewrite app_nil_r.
  - by intros h ?%elem_of_nil.
  - unfold queued_total. cbn. lia.
  - lia.
  - by rewrite app_nil_r.
Qed.

Lemma scan_loop_spec peer max_blocks capacity now allowed_hash queue :
  max_blocks <= USIZE_MAX ->
  forall s inventory skipped s' inventory',
  peer ∈ ready_peers s -> consistent (with_pending s (skipped ++ queue)) ->
  scan_loop peer max_blocks capacity now allowed_hash queue s inventory skipped (queued_total s) = (s', inventory') ->
  exists sent, scanned peer max_blocks capacity allowed_hash (skipped ++ queue) s s' inventory inventory' sent.
Proof.
  intros Hmax. induction queue as [|h queue IH]; intros s inventory skipped s' inventory' Hpeer Hc Hrun; cbn [scan_loop] in Hrun.
  { injection Hrun as <- <-. exists []. rewrite app_nil_r in *. by apply scan_stop. }
  destruct (_ || _) eqn:Estop in Hrun.
  { injection Hrun as <- <-. exists []. by apply scan_stop. }
  apply orb_false_iff in Estop as [Et%Z.leb_gt Ei%Z.leb_gt]. cbn zeta in Hrun.
  destruct (_ || _) eqn:Eskip in Hrun.
  { assert (skipped ++ h :: queue = (skipped ++ [h]) ++ queue) as E by by rewrite <- app_assoc.
    rewrite E in *. by apply IH in Hrun. }
  apply orb_false_iff in Eskip as [[Ha%negb_false_iff Hh%negb_false_iff]%orb_false_iff _].
  destruct (with_pending_perm s _ (h :: skipped ++ queue) Hc) as [Hc0 Hst0]; [by rewrite Permutation_middle|].
  pose proof (assign_outcome s h (skipped ++ queue) peer now Hc0 Hpeer) as [Hc1 Hr1 Hst1].
  assert (is_Some (inflight_by_peer s !! peer)) as Hsome.
  { destruct Hc as [_ Hdom]. cbn in Hdom. apply elem_of_dom. by rewrite Hdom. }
  pose proof (queued_total_assign s h peer now Hsome) as Hq1.
  replace (saturating_add USIZE_MAX (queued_total s) 1) with (queued_total (assign s h peer now)) in Hrun
    by (unfold saturating_add; lia).
  apply IH in Hrun as (sent & [Rc Rr Rp Ro Ri Rs Rsent Rt Rcap Rin]); [|done|exact Hc1]. exists (h :: sent). split.
  - done.
  - exact Rr.
  - cbn. rewrite <- Rp. by rewrite Permutation_middle.
  - etransitivity; [exact Ro|]. apply sublist_app; [done|]. by apply sublist_cons.
  - rewrite Ri, fmap_cons. by rewrite <- app_assoc.
  - intros h'. rewrite Rs, Hst1, Hst0. unfold set_status.
    assert (h' ∈ h :: sent <-> h' = h \/ h' ∈ sent) as Hiff by apply elem_of_cons.
    destruct (decide (h' ∈ h :: sent)), (decide (h' ∈ sent)), (decide (h' = h)); tauto.
  - intros h' [->|Hin]%elem_of_cons; [done|by apply Rsent].
  - lia.
  - unfold zlen in *. rewrite length_app in Rcap. cbn in Rcap. lia.
  - rewrite Rin, inflight_of_assign, decide_True by done. by rewrite <- app_assoc.
Qed.

(** *** Whole requests *)

Lemma with_pending_self s : with_pending s (pending s) = s.
Proof. by destruct s. Qed.

Lemma assignments_spec s max_blocks max_per_peer max_per_batch now :
  consistent s -> 0 < max_per_batch -> max_blocks <= USIZE_MAX ->
  let '(s', out) := assignments_limited s max_blocks max_per_peer max_per_batch now in
  exists staged sent,
    requested (sorted_elements bytes_le (ready_peers s)) max_blocks max_per_peer max_per_batch (pending s) s s' ∅ staged sent
    /\ out = (fun pi => {| da_peer := pi.1; da_inventory := pi.2 |}) <$> sorted_entries bytes_le staged
    \/ s' = s /\ out = [] /\ (ready_peers s = ∅ \/ pending s = [] \/ max_blocks = 0 \/ max_blocks <= queued_total s).
Proof.
  intros Hc Hb Hmax. unfold assignments_limited.
  destruct (_ || _) eqn:E0.
  { exists ∅, []. right. split_and!; [done|done|].
    apply orb_true_iff in E0 as [[E|E]%orb_true_iff|E]; [apply bool_decide_eq_true in E..|apply Z.eqb_eq in E]; tauto. }
  destruct (max_blocks <=? queued_total s) eqn:E1.
  { exists ∅, []. right. apply Z.leb_le in E1. tauto. }
  destruct (assign_loop _ _ _ _ _ _ _ _ _ _) as [s' staged] eqn:Erun.
  apply assign_loop_spec in Erun as (sent & Hrq); [|done|done| |by rewrite with_pending_self].
  - exists staged, sent. by left.
  - intros p. unfold sorted_elements. by rewrite merge_sort_Permutation, elem_of_elements.
Qed.

(** ** The claims *)

(** The operations that change the scheduler. *)
Inductive operation :=
| PeerReady (peer : bytes)
| PeerDisconnected (peer : bytes)
| NoteHeaders (peer : bytes) (hashes : list Hash48)
| NoteInventory (peer : bytes) (h : Hash48)
| QueuePriority (peer : option bytes) (h : Hash48)
| ReassignPriority (peer : option bytes) (h : Hash48)
| BlockReceived (h : Hash48)
| ForgetBlocks (hashes : list Hash48)
| ForgetCompleted (h : Hash48)
| PruneCompleted (done : Hash48 -> bool)
| SortPending (key : Hash48 -> Z)
| DeliveryProgress (peer : bytes) (now : Z)
| BlocksNotFound (peer : bytes) (hashes : list Hash48)
| Assignments (max_blocks max_per_peer max_per_batch now : Z)
| AssignmentForPeer (peer : bytes) (max_blocks max_per_peer max_per_batch now : Z) (allowed_hash : Hash48 -> bool)
| RequeueStale (timeout now : Z)
| RequeueStaleForPeer (peer : bytes) (timeout now : Z).

Definition perform (s : BlockDownloadScheduler) (o : operation) : BlockDownloadScheduler :=
  match o with
  | PeerReady peer => note_peer_ready s peer
  | PeerDisconnected peer => note_peer_disconnected s peer
  | NoteHeaders peer hashes => note_headers s peer hashes
  | NoteInventory peer h => note_inventory s peer h
  | QueuePriority peer h => (queue_priority_block s peer h).1
  | ReassignPriority peer h => (reassign_priority_block s peer h).1
  | BlockReceived h => note_block_received s h
  | ForgetBlocks hashes => (forget_blocks s hashes).1
  | ForgetCompleted h => (forget_completed s h).1
  | PruneCompleted done => (prune_completed_where s done).1
  | SortPending key => sort_pending_by_key Z.le s key
  | DeliveryProgress peer now => note_peer_delivery_progress s peer now
  | BlocksNotFound peer hashes => note_not_found s peer hashes
  | Assignments max_blocks max_per_peer max_per_batch now =>
      (assignments_limited s max_blocks max_per_peer max_per_batch now).1
  | AssignmentForPeer peer max_blocks max_per_peer max_per_batch now allowed_hash =>
      (assignment_for_peer_filtered_limited s peer max_blocks max_per_peer max_per_batch now allowed_hash).1
  | RequeueStale timeout now => (requeue_stale_inflight_details s timeout now).1
  | RequeueStaleForPeer peer timeout now => (requeue_stale_inflight_for_peer s peer timeout now).1
  end.

(** Limits within the machine's integers. *)
Definition sensible (o : operation) : Prop :=
  match o with
  | Assignments max_blocks _ max_per_batch _ => 0 < max_per_batch /\ max_blocks <= USIZE_MAX
  | AssignmentForPeer _ max_blocks _ _ _ _ => max_blocks <= USIZE_MAX
  | _ => True
  end.

(** The specification: what an operation does to the status of a block. Only an
    assignment leaves a choice, of which wanted block goes to which ready peer. *)
Definition block_step (s : BlockDownloadScheduler) (o : operation) (h : Hash48) (a b : Status) : Prop :=
  match o with
  | PeerReady _ | NoteInventory _ _ | SortPending _ | DeliveryProgress _ _ => b = a
  | PeerDisconnected peer => b = if decide (a = InFlight peer) then Pending else a
  | NoteHeaders _ hashes => b = if decide (h ∈ hashes) then enlist a else a
  | QueuePriority _ h' => b = if decide (h = h') then enlist a else a
  | ReassignPriority peer h' => b = if decide (h = h') then reassigned peer a else a
  | BlockReceived h' => b = if decide (h = h') then Done else a
  | ForgetBlocks hashes => b = if decide (h ∈ hashes) then Unknown else a
  | ForgetCompleted h' => b = if decide (h = h') then match a with Done => Unknown | a => a end else a
  | PruneCompleted done => b = if active a && done h then Done else a
  | BlocksNotFound peer hashes => b = if decide (h ∈ hashes) then lost_by peer a else a
  | Assignments _ _ _ _ => b = a \/ a = Pending /\ exists peer, peer ∈ ready_peers s /\ b = InFlight peer
  | AssignmentForPeer peer _ _ _ _ _ => b = a \/ a = Pending /\ peer ∈ ready_peers s /\ b = InFlight peer
  | RequeueStale timeout now => b = recall_stale s timeout now h a
  | RequeueStaleForPeer peer timeout now => b = if decide (a = InFlight peer) then recall_stale s timeout now h a else a
  end.

Lemma outcome_step s s' f o :
  outcome s s' f -> (forall h, block_step s o h (status s h) (f h (status s h))) ->
  consistent s' /\ forall h, block_step s o h (status s h) (status s' h).
Proof. intros [Hc _ Hs] Hf. split; [done|]. intros h. rewrite Hs. apply Hf. Qed.

Lemma assignments_step s max_blocks max_per_peer max_per_batch now :
  consistent s -> 0 < max_per_batch -> max_blocks <= USIZE_MAX ->
  let o := Assignments max_blocks max_per_peer max_per_batch now in
  consistent (perform s o) /\ forall h, block_step s o h (status s h) (status (perform s o) h).
Proof.
  intros Hc Hb Hmax o. cbn [perform o].
  pose proof (assignments_spec s max_blocks max_per_peer max_per_batch now Hc Hb Hmax) as H.
  destruct (assignments_limited s max_blocks max_per_peer max_per_batch now) as [s' out]. cbn [fst].
  destruct H as (staged & sent & [[[Rc Rr Rh Rq Rs Ro _ _ _ _ _ _] _]|(-> & _ & _)]); [|by split; [|intros h; left]].
  split; [done|]. intros h. cbn [block_step o]. destruct (decide (h ∈ sent.*1)) as [Hin|Hn].
  - apply list_elem_of_fmap in Hin as ([h' p] & -> & Hin). destruct (Rs h' p Hin) as (Hp & _ & Hst).
    right. split; [|exists p; split; [|done]].
    + apply status_pending; [done|]. rewrite Rq. apply elem_of_app. left. by apply (list_elem_of_fmap_2 fst) in Hin.
    + unfold sorted_elements in Hp. by rewrite merge_sort_Permutation, elem_of_elements in Hp.
  - left. rewrite Ro by done. by rewrite with_pending_self.
Qed.

Lemma assignment_for_peer_spec s peer max_blocks max_per_peer max_per_batch now allowed_hash :
  consistent s -> max_blocks <= USIZE_MAX ->
  let '(s', out) := assignment_for_peer_filtered_limited s peer max_blocks max_per_peer max_per_batch now allowed_hash in
  exists sent,
    scanned peer max_blocks (Z.min (saturating_sub max_per_peer (peer_inflight_len s peer)) max_per_batch) allowed_hash
      (pending s) s s' [] (block_vector <$> sent) sent
    /\ out = (if bool_decide (sent = []) then None else Some {| da_peer := peer; da_inventory := block_vector <$> sent |})
    /\ (sent <> [] -> peer ∈ ready_peers s).
Proof.
  intros Hc Hmax. unfold assignment_for_peer_filtered_limited. set (capacity := Z.min _ _).
  assert (exists sent, scanned peer max_blocks capacity allowed_hash (pending s) s s [] (block_vector <$> sent) sent
    /\ None = (if bool_decide (sent = []) then None else Some {| da_peer := peer; da_inventory := block_vector <$> sent |})
    /\ (sent <> [] -> peer ∈ ready_peers s)) as Hidle.
  { exists []. split; [|done]. rewrite <- (with_pending_self s) at 3. apply scan_stop. by rewrite with_pending_self. }
  destruct (_ || _) eqn:E; [exact Hidle|].
  destruct (max_blocks <=? queued_total s); [exact Hidle|].
  destruct (capacity =? 0) eqn:Ecap; [exact Hidle|].
  destruct (scan_loop _ _ _ _ _ _ _ _ _ _) as [s' inventory] eqn:Erun.
  assert (peer ∈ ready_peers s) as Hpeer.
  { rewrite !orb_false_iff in E. destruct E as [[[[E%negb_false_iff%bool_decide_eq_true _] _] _] _]. done. }
  apply scan_loop_spec in Erun as (sent & Hsc); [|done|done|by rewrite with_pending_self].
  pose proof (sc_inventory _ _ _ _ _ _ _ _ _ _ Hsc) as Hinv. cbn in Hinv. subst inventory. exists sent.
  split; [done|]. split; [|done]. by destruct sent.
Qed.

Ltac step_by L := eapply outcome_step; [by apply L|reflexivity].

(** One operation: the maps stay consistent and every block takes its step. *)
Lemma perform_step (s : BlockDownloadScheduler) (o : operation) :
  consistent s -> sensible o ->
  consistent (perform s o) /\ forall h, block_step s o h (status s h) (status (perform s o) h).
Proof.
  intros Hc Hsens. destruct o; cbn [sensible] in Hsens.
  - apply ready_consistent; done.
  - destruct (disconnect_consistent s peer Hc) as (Hc' & _ & Hst). split; [done|]. intros h. apply Hst.
  - step_by note_headers_outcome.
  - eapply outcome_step; [apply outcome_keeps; [done|solve_reports]|reflexivity].
  - step_by queue_priority_outcome.
  - step_by reassign_outcome.
  - step_by note_completed_outcome.
  - step_by forget_blocks_outcome.
  - step_by unfinish_outcome.
  - step_by prune_outcome.
  - step_by (sort_outcome Z.le).
  - step_by progress_outcome.
  - step_by not_found_outcome.
  - destruct Hsens. by apply assignments_step.
  - cbn [perform]. pose proof (assignment_for_peer_spec s peer max_blocks max_per_peer max_per_batch now allowed_hash Hc Hsens) as H.
    destruct (assignment_for_peer_filtered_limited _ _ _ _ _ _ _) as [s' out].
    destruct H as (sent & [Sc Sr Sp _ _ Ss _ _ _ _] & _ & Hready). split; [done|]. intros h. cbn [fst block_step].
    rewrite Ss, with_pending_self. destruct (decide (h ∈ sent)) as [Hin|]; [|by left]. right.
    split_and!; [|apply Hready; by intros ->; apply elem_of_nil in Hin|done].
    apply status_pending; [done|]. rewrite Sp. apply elem_of_app. by left.
  - step_by stale_outcome.
  - step_by stale_for_peer_outcome.
Qed.

(** C19: The scheduler's maps stay consistent under every operation: a block is wanted,
    in flight at one peer, done, or none of these, the peers' queues and the owners
    agree, and exactly the blocks in flight have a clock. Seen from one block, each
    operation is a step of the four-state machine [block_step]: in particular a
    block that is wanted or in flight is never lost, and goes out only to peers
    that are ready. *)
Theorem scheduler_refines_block_states (s : BlockDownloadScheduler) (o : operation) :
  consistent s -> sensible o ->
  consistent (perform s o) /\ forall h, block_step s o h (status s h) (status (perform s o) h).
Proof. apply perform_step. Qed.

Lemma queued_total_nonneg s : 0 <= queued_total s.
Proof.
  apply zsum_nonneg. apply Forall_forall. intros z (pq & -> & _)%list_elem_of_fmap. unfold zlen. lia.
Qed.

(** One round of requests takes blocks from the front of the queue, in order,
    and gives each to one ready peer that is known to have it (or to anyone when
    no peer is known). It opens at most the allowed number of requests in all, at
    one peer and in one message, lists each peer once, and stops only when the
    limit is reached, the queue is empty, or no peer with room can take the block
    at the front. *)
Theorem assignments_within_limits (s s' : BlockDownloadScheduler) (max_blocks max_per_peer max_per_batch now : Z) out :
  consistent s -> 0 < max_per_batch -> max_blocks <= USIZE_MAX ->
  assignments_limited s max_blocks max_per_peer max_per_batch now = (s', out) ->
  exists sent : list (Hash48 * bytes),
    pending s = sent.*1 ++ pending s'
    /\ (forall h p, (h, p) ∈ sent -> p ∈ ready_peers s /\ hinted s h p = true /\ status s' h = InFlight p)
    /\ (forall a, a ∈ out <-> exists p, sent_to p sent <> []
          /\ a = {| da_peer := p; da_inventory := block_vector <$> sent_to p sent |})
    /\ NoDup (da_peer <$> out)
    /\ (forall a, a ∈ out -> zlen (da_inventory a) <= max_per_batch)
    /\ queued_total s' <= Z.max max_blocks (queued_total s)
    /\ (forall p, peer_inflight_len s' p <= Z.max max_per_peer (peer_inflight_len s p))
    /\ (forall h rest p, pending s' = h :: rest -> queued_total s' < max_blocks ->
          p ∈ ready_peers s -> hinted s h p = true ->
          max_per_peer <= peer_inflight_len s' p \/ max_per_batch <= zlen (sent_to p sent)).
Proof.
  intros Hc Hb Hmax Hrun. pose proof (assignments_spec s max_blocks max_per_peer max_per_batch now Hc Hb Hmax) as H.
  rewrite Hrun in H. destruct H as (staged & sent & [[Hrq ->]|(-> & -> & Hwhy)]).
  2: { exists []. split_and!; try done.
       - by intros ? ? ?%elem_of_nil.
       - intros a. split; [by intros ?%elem_of_nil|]. by intros (p & [] & _).
       - constructor.
       - by intros ? ?%elem_of_nil.
       - lia.
       - intros p. lia.
       - intros h rest p Hp Hlt Hr _. pose proof (queued_total_nonneg s).
         destruct Hwhy as [Hw|[Hw|[Hw|Hw]]]; [set_solver|congruence|lia|lia]. }
  destruct Hrq as [Rc Rr Rh Rq Rs Ro Rst Ri [Rt Rt'] Rp Rb Rstop].
  assert (forall p, p ∈ sorted_elements bytes_le (ready_peers s) <-> p ∈ ready_peers s) as Hready.
  { intros p. unfold sorted_elements. by rewrite merge_sort_Permutation, elem_of_elements. }
  assert (forall p, staged !! p = match sent_to p sent with [] => None | out => Some (block_vector <$> out) end) as Hst.
  { intros p. rewrite Rst, lookup_empty. by destruct (sent_to p sent). }
  assert (forall p, default [] (staged !! p) = block_vector <$> sent_to p sent) as Hdef.
  { intros p. rewrite Hst. by destruct (sent_to p sent). }
  exists sent. split_and!; [done| | | | |done|done|].
  - intros h p Hin. destruct (Rs h p Hin) as (Hp & Hh & Hsent). by rewrite Hready in Hp.
  - intros a. rewrite list_elem_of_fmap. split.
    + intros ([p inv] & -> & Hin%elem_of_sorted_entries). exists p. cbn. rewrite Hst in Hin.
      destruct (sent_to p sent); [done|]. injection Hin as <-. done.
    + intros (p & Hne & ->). exists (p, block_vector <$> sent_to p sent). split; [done|].
      apply elem_of_sorted_entries. rewrite Hst. by destruct (sent_to p sent).
  - rewrite <- list_fmap_compose. unfold sorted_entries. rewrite merge_sort_Permutation.
    apply (NoDup_fst_map_to_list staged).
  - intros a ([p inv] & -> & Hin%elem_of_sorted_entries)%list_elem_of_fmap. cbn.
    specialize (Rb p). rewrite Hin, lookup_empty in Rb. cbn in Rb. unfold zlen in *. cbn in Rb. lia.
  - intros h rest p Hp Hlt Hr Hh. rewrite <- Hready in Hr. pose proof (Rstop h rest Hp Hlt p Hr Hh) as Hroom.
    unfold has_room in Hroom. rewrite Hdef in Hroom. unfold zlen in *. rewrite length_fmap in Hroom. lia.
Qed.

(** A block at the front of the queue whose only known holders are not ready
    blocks every request of a round, whatever else is queued and whoever is ready. *)
Theorem front_block_starves (s : BlockDownloadScheduler) h rest hints max_blocks max_per_peer max_per_batch now :
  pending s = h :: rest -> peer_hints s !! h = Some hints -> hints <> ∅ -> hints ∩ ready_peers s = ∅ ->
  0 < max_per_batch ->
  assignments_limited s max_blocks max_per_peer max_per_batch now = (s, []).
Proof.
  intros Hp Hh Hne Hdisj Hb. unfold assignments_limited. destruct (_ || _); [done|].
  destruct (max_blocks <=? queued_total s) eqn:E; [done|]. rewrite Hp. cbn [assign_loop].
  rewrite (proj2 (Z.ltb_lt _ _)) by (apply Z.leb_gt in E; lia). cbn [negb].
  destruct (select_peer_for_hash_limited _ _ _ _ _ _ _) as [p|] eqn:Es.
  - exfalso. apply select_peer_Some in Es as (Hin & Hhint & _); [|done].
    unfold sorted_elements in Hin. rewrite merge_sort_Permutation, elem_of_elements in Hin.
    unfold hinted in Hhint. rewrite Hh in Hhint. rewrite (bool_decide_false (hints = ∅)) in Hhint by done.
    apply bool_decide_eq_true in Hhint. set_solver.
  - rewrite <- Hp, with_pending_self. done.
Qed.

(** A "not found" for a block nobody asked for puts that block at the front of
    the queue, so that other peers will be asked for it. *)
Theorem unsolicited_not_found_queues (s : BlockDownloadScheduler) (peer : bytes) (h : Hash48) :
  consistent s -> status s h = Unknown ->
  pending (note_not_found s peer [h]) = h :: pending s /\ status (note_not_found s peer [h]) h = Pending.
Proof.
  intros Hc Hun. pose proof (proj1 (status_unknown s h) Hun) as (Hd & Ho & Hp). split.
  - unfold note_not_found. cbn [foldl not_found_one]. rewrite Ho. unfold give_back.
    destruct (add_failure_reports (release s h peer) h peer) as (? & ? & ? & ->). unfold requeue. cbn.
    by rewrite !bool_decide_false by done.
  - rewrite (oc_status _ _ _ (not_found_outcome s peer [h] Hc)). rewrite decide_True by by left. by rewrite Hun.
Qed.

(** ** Witnesses *)

Lemma initial_consistent : consistent initial.
Proof.
  split; [|apply dom_empty_L]. split; try (by intros); cbn.
  - constructor.
  - intros h p. rewrite lookup_empty. split; [done|]. unfold inflight_of. cbn. rewrite lookup_empty. by intros ?%elem_of_nil.
  - intros p. unfold inflight_of. cbn. rewrite lookup_empty. constructor.
  - intros h. rewrite !lookup_empty. split; by intros [? ?].
Qed.

Definition peer_a : bytes := str_bytes "a".
Definition peer_b : bytes := str_bytes "b".
Definition h1 : Hash48 := be_bytes 48 1.
Definition h2 : Hash48 := be_bytes 48 2.
Definition two_peers : BlockDownloadScheduler :=
  note_headers (note_headers (note_peer_ready (note_peer_ready initial peer_a) peer_b) peer_a [h1; h2]) peer_b [h2].
Lemma two_peers_consistent : consistent two_peers.
Proof.
  apply (oc_consistent _ _ _ (note_headers_outcome _ peer_b [h2]
    (oc_consistent _ _ _ (note_headers_outcome _ peer_a [h1; h2]
      (proj1 (ready_consistent _ peer_b (proj1 (ready_consistent _ peer_a initial_consistent)))))))).
Qed.

Lemma scheduler_refines_block_states_witness :
  status two_peers h1 = Pending /\ consistent (perform two_peers (Assignments 4 1 1 0)).
Proof.
  split; [vm_compute; reflexivity|].
  apply (scheduler_refines_block_states two_peers (Assignments 4 1 1 0) two_peers_consistent).
  split; [reflexivity|vm_compute; discriminate].
Defined.

Lemma assignments_within_limits_witness :
  (assignments_limited two_peers 4 1 1 0).2
    = [{| da_peer := peer_a; da_inventory := [block_vector h1] |}; {| da_peer := peer_b; da_inventory := [block_vector h2] |}]
  /\ queued_total (assignments_limited two_peers 4 1 1 0).1 <= 4.
Proof.
  split; [vm_compute; reflexivity|].
  destruct (assignments_limited two_peers 4 1 1 0) as [s' out] eqn:E.
  destruct (assignments_within_limits two_peers s' 4 1 1 0 out two_peers_consistent) as (sent & _ & _ & _ & _ & _ & Ht & _).
  - reflexivity.
  - vm_compute. discriminate.
  - exact E.
  - exact Ht.
Defined.

(** The only peer that announced the first block leaves; the second block waits. *)
Definition stranded : BlockDownloadScheduler := note_peer_disconnected two_peers peer_a.
Ltac decide_by_vm := apply (bool_decide_eq_true_1 _); vm_compute; reflexivity.
Lemma front_block_starves_witness :
  ready_peers stranded = {[peer_b]} /\ pending stranded = [h1; h2]
  /\ assignments_limited stranded 4 4 4 0 = (stranded, []).
Proof.
  split; [decide_by_vm|]. split; [decide_by_vm|].
  apply (front_block_starves stranded h1 [h2] {[peer_a]}).
  - decide_by_vm.
  - decide_by_vm.
  - apply non_empty_singleton_L.
  - decide_by_vm.
  - reflexivity.
Defined.

Lemma unsolicited_not_found_queues_witness :
  pending (note_not_found initial peer_a [h1]) = [h1].
Proof.
  apply (unsolicited_not_found_queues initial peer_a h1 initial_consistent). vm_compute. reflexivity.
Defined.
