(* ===== verification/IpAddr.v ===== *)
(** * IP addresses

    What crates/atho-p2p/src/address_manager.rs uses of [std::net]: the parsers of
    IP and socket addresses, their text form and the address classes. *)
From stdpp Require Import options.
From S2P Require Import Prelude Bytes Text.

(** [IpAddr]: four octets, or eight 16-bit segments. *)
Inductive IpAddr :=
| V4 (octets : list Z)
| V6 (segments : list Z).
#[global] Instance IpAddr_eq_dec : EqDecision IpAddr.
Proof. solve_decision. Defined.
#[global] Instance IpAddr_countable : Countable IpAddr.
Proof.
  apply (inj_countable' (fun ip => match ip with V4 o => inl o | V6 s => inr s end)
           (fun x => match x with inl o => V4 o | inr s => V6 s end)).
  by intros [].
Defined.

(** ** Parsing *)

(** [read_given_char]. *)
Definition read_given_char (c : byte) : reader unit :=
  fun bs => match bs with b :: bs => if bool_decide (b = c) then Some (tt, bs) else None | [] => None end.
(** [char::to_digit]. *)
Definition to_digit (radix : Z) (b : byte) : option Z :=
  let z := byte_to_Z b in
  let d := if (48 <=? z) && (z <=? 57) then z - 48
           else if (97 <=? z) && (z <=? 122) then z - 87
           else if (65 <=? z) && (z <=? 90) then z - 55
           else 36 in
  if d <? radix then Some d else None.
(** The digits at the front, with their value and their number. *)
Fixpoint read_digits (radix value count : Z) (bs : bytes) : Z * Z * bytes :=
  match bs with
  | b :: rest =>
      match to_digit radix b with
      | Some d => read_digits radix (value * radix + d) (count + 1) rest
      | None => (value, count, bs)
      end
  | [] => (value, count, [])
  end.
(** [read_number]: at most [max_digits] digits when there is a limit, at most [max]. *)
Definition read_number (radix : Z) (max_digits : option Z) (allow_zero_prefix : bool) (max : Z) : reader Z :=
  fun bs =>
    let '(value, count, rest) := read_digits radix 0 0 bs in
    let has_leading_zero := match bs with b :: _ => bool_decide (b = x30) | [] => false end in
    if match max_digits with Some m => m <? count | None => false end then None
    else if count =? 0 then None
    else if negb allow_zero_prefix && has_leading_zero && (1 <? count) then None
    else if value <=? max then Some (value, rest) else None.
(** [read_separator]. *)
Definition read_separator {A} (c : byte) (index : nat) (inner : reader A) : reader A :=
  match index with O => inner | S _ => _ ← read_given_char c; inner end.

Definition read_octet (index : nat) : reader Z := read_separator x2e index (read_number 10 (Some 3) false 255).
Definition read_ipv4_addr : reader (list Z) :=
  a ← read_octet 0; b ← read_octet 1; c ← read_octet 2; d ← read_octet 3; mret [a; b; c; d].

(** [read_groups]: up to [limit] groups from the [i]-th on, and whether an embedded
    IPv4 address ended them. *)
Fixpoint read_groups (limit i : nat) (bs : bytes) : list Z * bool * bytes :=
  match limit with
  | O => ([], false, bs)
  | S limit' =>
      match (match limit' with O => None | S _ => read_separator x3a i read_ipv4_addr bs end) with
      | Some ([a; b; c; d], rest) => ([a * 256 + b; c * 256 + d], true, rest)
      | _ =>
          match read_separator x3a i (read_number 16 (Some 4) true 65535) bs with
          | Some (g, rest) =>
              let '(groups, ipv4, rest) := read_groups limit' (S i) rest in (g :: groups, ipv4, rest)
          | None => ([], false, bs)
          end
      end
  end.
Definition read_ipv6_addr : reader (list Z) := fun bs =>
  let '(head, head_ipv4, rest) := read_groups 8 0 bs in
  if bool_decide (length head = 8%nat) then Some (head, rest)
  else if head_ipv4 then None
  else
    match (_ ← read_given_char x3a; read_given_char x3a) rest with
    | None => None
    | Some (_, rest) =>
        let '(tail, _, rest) := read_groups (7 - length head) 0 rest in
        Some (head ++ replicate (8 - length head - length tail) 0 ++ tail, rest)
    end.

Definition or_else {A} (r1 r2 : reader A) : reader A := fun bs => match r1 bs with Some x => Some x | None => r2 bs end.
(** The whole input is used. *)
Definition parse_with {A} (r : reader A) (bs : bytes) : option A :=
  match r bs with Some (a, []) => Some a | _ => None end.

(** [str::parse::<IpAddr>]. *)
Definition read_ip_addr : reader IpAddr :=
  or_else (o ← read_ipv4_addr; mret (V4 o)) (s ← read_ipv6_addr; mret (V6 s)).
Definition parse_ip_addr (s : bytes) : option IpAddr := parse_with read_ip_addr s.

(** [SocketAddr::from_str]: the address and the port. *)
Definition read_port : reader Z := _ ← read_given_char x3a; read_number 10 None true 65535.
Definition read_scope_id : reader Z := _ ← read_given_char x25; read_number 10 None true 4294967295.
Definition read_socket_addr : reader (IpAddr * Z) :=
  or_else (o ← read_ipv4_addr; p ← read_port; mret (V4 o, p))
          (_ ← read_given_char x5b; s ← read_ipv6_addr; _ ← or_else read_scope_id (mret 0);
           _ ← read_given_char x5d; p ← read_port; mret (V6 s, p)).
Definition parse_socket_addr (s : bytes) : option (IpAddr * Z) := parse_with read_socket_addr s.

(** ** Printing *)

(** [{:x}] of a 16-bit number. *)
Definition hex_lower (z : Z) : bytes :=
  let digits := [z / 4096 mod 16; z / 256 mod 16; z / 16 mod 16; z mod 16] in
  let significant := match position (fun d => negb (d =? 0)) digits with Some k => drop k digits | None => [0] end in
  hex_char <$> significant.
Definition ipv4_string (octets : list Z) : bytes := join [x2e] (decimal <$> octets).

(** The first of the longest runs of zero segments: its start and length. *)
Fixpoint longest_zeroes (segments : list Z) (i : nat) (current longest : nat * nat) : nat * nat :=
  match segments with
  | [] => longest
  | segment :: segments =>
      if segment =? 0 then
        let current := if bool_decide (current.2 = 0%nat) then (i, 1%nat) else (current.1, S current.2) in
        longest_zeroes segments (S i) current (if bool_decide (longest.2 < current.2)%nat then current else longest)
      else longest_zeroes segments (S i) (0%nat, 0%nat) longest
  end.
Definition ipv6_string (segments : list Z) : bytes :=
  match segments with
  | [0; 0; 0; 0; 0; 65535; g; h] => str_bytes "::ffff:" ++ ipv4_string [g / 256; g mod 256; h / 256; h mod 256]
  | _ =>
      let '(start, len) := longest_zeroes segments 0 (0%nat, 0%nat) (0%nat, 0%nat) in
      let text l := join [x3a] (hex_lower <$> l) in
      if bool_decide (1 < len)%nat then text (take start segments) ++ str_bytes "::" ++ text (drop (start + len) segments)
      else text segments
  end.
(** [IpAddr::to_string]. *)
Definition ip_string (ip : IpAddr) : bytes := match ip with V4 o => ipv4_string o | V6 s => ipv6_string s end.

(** ** Classes *)

Definition is_private (o : list Z) : bool :=
  match o with
  | [a; b; _; _] => (a =? 10) || (a =? 172) && (16 <=? b) && (b <=? 31) || (a =? 192) && (b =? 168)
  | _ => false
  end.
Definition is_loopback (ip : IpAddr) : bool :=
  match ip with V4 o => bool_decide (head o = Some 127) | V6 s => bool_decide (s = [0; 0; 0; 0; 0; 0; 0; 1]) end.
Definition is_link_local (o : list Z) : bool := bool_decide (take 2 o = [169; 254]).
Definition is_broadcast (o : list Z) : bool := bool_decide (o = [255; 255; 255; 255]).
Definition is_documentation (o : list Z) : bool :=
  bool_decide (take 3 o ∈ [[192; 0; 2]; [198; 51; 100]; [203; 0; 113]]).
Definition is_unspecified (ip : IpAddr) : bool :=
  match ip with V4 o => bool_decide (o = [0; 0; 0; 0]) | V6 s => bool_decide (s = replicate 8 0) end.
Definition is_unique_local (s : list Z) : bool := Z.land (default 0 (head s)) 65024 =? 64512.
Definition is_unicast_link_local (s : list Z) : bool := Z.land (default 0 (head s)) 65472 =? 65152.

(** ** Examples *)

Example parse_mapped : parse_ip_addr (str_bytes "::ffff:127.0.0.1") = Some (V6 [0; 0; 0; 0; 0; 65535; 32512; 1]).
Proof. vm_compute. reflexivity. Qed.
Example parse_compressed : parse_ip_addr (str_bytes "2001:db8::1") = Some (V6 [8193; 3512; 0; 0; 0; 0; 0; 1]).
Proof. vm_compute. reflexivity. Qed.
Example parse_leading_zero : parse_ip_addr (str_bytes "10.0.0.01") = None.
Proof. vm_compute. reflexivity. Qed.
Example parse_socket_v6 : parse_socket_addr (str_bytes "[2001:db8::1]:9100") = Some (V6 [8193; 3512; 0; 0; 0; 0; 0; 1], 9100).
Proof. vm_compute. reflexivity. Qed.
Example print_compressed : ip_string (V6 [8193; 3512; 0; 0; 1; 0; 0; 1]) = str_bytes "2001:db8::1:0:0:1".
Proof. vm_compute. reflexivity. Qed.
