(* ===== verification/AddressManager.v ===== *)
(** * Peer addresses

    crates/atho-p2p/src/peer.rs and address_manager.rs: the book of known peers, the
    addresses accepted from gossip with their limits, and the addresses told to
    others. Clocks are arguments; [std::net] is [IpAddr]. *)
From stdpp Require Import options.
From S2P Require Import Prelude Bytes Text Constants Crypto Network Rules Transaction Block Genesis P2pConfig.
From S2P Require Import Protocol IpAddr.

#[local] Set Default Proof Using "Type*".

(** ** Text forms and classes of addresses *)

(* src: address_manager.rs:298-300 parse_ip *)
Definition parse_ip (host : bytes) : option IpAddr := parse_ip_addr host.

(* src: address_manager.rs:255-284 parse_remote_addr *)
Definition parse_remote_addr (remote_addr : bytes) (default_port : Z) : PeerAddress :=
  match parse_socket_addr remote_addr with
  | Some (ip, p) => {| host := ip_string ip; port := p; services := 0; last_seen_unix := 0 |}
  | None =>
      let whole := {| host := remote_addr; port := default_port; services := 0; last_seen_unix := 0 |} in
      match rsplit_once x3a remote_addr with
      | None => whole
      | Some (h, p) =>
          let h := match h with
                   | x5b :: inner => if ends_with [x5d] inner then take (length inner - 1) inner else h
                   | _ => h
                   end in
          match parse_uint 65535 p with
          | Some p => {| host := h; port := p; services := 0; last_seen_unix := 0 |}
          | None => whole
          end
      end
  end.

(* src: address_manager.rs:286-296 format_remote_addr *)
Definition format_remote_addr (a : PeerAddress) : bytes :=
  match parse_ip (host a) with
  | Some (V6 _) => [x5b] ++ host a ++ [x5d; x3a] ++ decimal (port a)
  | _ => host a ++ [x3a] ++ decimal (port a)
  end.

Definition is_alphanumeric (b : byte) : bool :=
  let z := byte_to_Z b in
  (48 <=? z) && (z <=? 57) || (65 <=? z) && (z <=? 90) || (97 <=? z) && (z <=? 122).
(** [is_ascii_whitespace() || is_ascii_control()]. *)
Definition is_blank (b : byte) : bool :=
  let z := byte_to_Z b in (z <=? 32) || (z =? 127).
Definition label_ok (label : bytes) : bool :=
  negb (bool_decide (label = [])) && (zlen label <=? 63)
  && forallb (fun b => is_alphanumeric b || bool_decide (b = x2d)) label
  && negb (starts_with [x2d] label) && negb (ends_with [x2d] label).
(* src: address_manager.rs:340-360 dns_name_is_well_formed *)
Definition dns_name_is_well_formed (h : bytes) : bool :=
  negb (bool_decide (h = []) || (253 <? zlen h) || existsb is_blank h || contains_char x2f h || contains_char x5c h)
  && forallb label_ok (split_on x2e h).

(* src: address_manager.rs:325-338 is_public_dns_name *)
Definition is_public_dns_name (h : bytes) : bool :=
  let h := trim_end_matches x2e h in
  let lower := to_ascii_lowercase h in
  if bool_decide (lower = str_bytes "localhost") || ends_with (str_bytes ".localhost") lower
     || ends_with (str_bytes ".local") lower || ends_with (str_bytes ".lan") lower
     || ends_with (str_bytes ".internal") lower || negb (contains_char x2e h)
  then false
  else dns_name_is_well_formed h.

(* src: address_manager.rs:302-323 is_publicly_routable_host *)
Definition is_publicly_routable_host (h : bytes) : bool :=
  match parse_ip h with
  | None => is_public_dns_name h
  | Some (V4 o) =>
      negb (is_private o) && negb (is_loopback (V4 o)) && negb (is_link_local o) && negb (is_broadcast o)
      && negb (is_documentation o) && negb (is_unspecified (V4 o))
  | Some (V6 s) =>
      negb (is_loopback (V6 s)) && negb (is_unspecified (V6 s)) && negb (is_unique_local s)
      && negb (is_unicast_link_local s)
  end.

(* src: address_manager.rs:393-407 subnet_key *)
Definition subnet_key (ip : IpAddr) : bytes :=
  match ip with
  | V4 o => join [x2e] (decimal <$> take 3 o)
  | V6 s => join [x3a] (hex_lower <$> take 4 s)
  end.

(* src: address_manager.rs:380-383 address_is_structurally_valid *)
Definition address_is_structurally_valid (a : PeerAddress) : bool :=
  negb (port a =? 0) && (bool_decide (is_Some (parse_ip (host a))) || dns_name_is_well_formed (host a)).

Section addresses.
Context `{Henv : ProcessEnv}.

(* src: address_manager.rs:385-391 is_stale_address *)
Definition is_stale_address (n : Network) (last_seen now_unix : Z) : bool :=
  if last_seen =? 0 then false
  else max_peer_address_age_secs (network_limits n) <? saturating_sub now_unix last_seen.

(* src: address_manager.rs:362-378 address_is_acceptable *)
Definition address_is_acceptable (n : Network) (a : PeerAddress) (public_source : bool) (now_unix : Z) : bool :=
  if negb (address_is_structurally_valid a) then false
  else if public_source && negb (is_publicly_routable_host (host a)) then false
  else if public_source && negb (port a =? Network.p2p_port n) then false
  else negb (public_source && is_stale_address n (last_seen_unix a) now_unix).
End addresses.

(** ** The book *)

(* src: peer.rs:12-18 PeerState *)
Record PeerState := {
  ps_address : PeerAddress;
  ps_version : option VersionMessage;
  ps_connected : bool;
  ps_ban_score : Z;
}.

(* src: peer.rs:20-25 PeerBook *)
Record PeerBook := {
  pb_network : Network;
  pb_manual_peers : gset bytes;
  known_peers : gmap bytes PeerState;
}.

Module PeerBook.
Section book.
Context `{Henv : ProcessEnv}.

(* src: peer.rs:28-34 PeerBook::new *)
Definition new (n : Network) : PeerBook := {| pb_network := n; pb_manual_peers := ∅; known_peers := ∅ |}.
(* src: peer.rs:44-46 PeerBook::add_manual_peer *)
Definition add_manual_peer (pb : PeerBook) (remote_addr : bytes) : PeerBook :=
  {| pb_network := pb_network pb; pb_manual_peers := pb_manual_peers pb ∪ {[remote_addr]}; known_peers := known_peers pb |}.
(* src: peer.rs:48-50 PeerBook::manual_peers *)
Definition manual_peers (pb : PeerBook) : list bytes := sorted_elements bytes_le (pb_manual_peers pb).

Definition with_known (pb : PeerBook) (known : gmap bytes PeerState) : PeerBook :=
  {| pb_network := pb_network pb; pb_manual_peers := pb_manual_peers pb; known_peers := known |}.
Definition full (pb : PeerBook) : bool :=
  max_known_peers (network_limits (pb_network pb)) <=? Z.of_nat (size (known_peers pb)).

(* src: peer.rs:52-75 PeerBook::note_address *)
Definition note_address (pb : PeerBook) (a : PeerAddress) : PeerBook * result ProtocolError bool :=
  let key := format_remote_addr a in
  match known_peers pb !! key with
  | Some e =>
      let e := {| ps_address := {| host := host a; port := port a;
                                   services := Z.lor (services (ps_address e)) (services a);
                                   last_seen_unix := Z.max (last_seen_unix (ps_address e)) (last_seen_unix a) |};
                  ps_version := ps_version e; ps_connected := ps_connected e; ps_ban_score := ps_ban_score e |} in
      (with_known pb (<[key := e]> (known_peers pb)), Ok false)
  | None =>
      if full pb then (pb, Err PeerBookFull)
      else (with_known pb (<[key := {| ps_address := a; ps_version := None; ps_connected := false; ps_ban_score := 0 |}]>
                             (known_peers pb)), Ok true)
  end.

(* src: peer.rs:77-107 PeerBook::accept_version *)
Definition accept_version `{Sha3} (pb : PeerBook) (remote_addr : bytes) (version : VersionMessage) (now : Z) :
    PeerBook * result ProtocolError unit :=
  match validate_version_message version (pb_network pb) with
  | Err e => (pb, Err e)
  | Ok _ =>
      let a := parse_remote_addr remote_addr (default_port (network_params (pb_network pb))) in
      let a := {| host := host a; port := port a; services := services a; last_seen_unix := now |} in
      if negb (bool_decide (is_Some (known_peers pb !! remote_addr))) && full pb then (pb, Err PeerBookFull)
      else (with_known pb (<[remote_addr := {| ps_address := a; ps_version := Some version; ps_connected := true;
                                               ps_ban_score := 0 |}]> (known_peers pb)), Ok tt)
  end.

(* src: peer.rs:109-111 PeerBook::peer_count *)
Definition peer_count (pb : PeerBook) : Z := Z.of_nat (size (known_peers pb)).
(* src: peer.rs:113-115 PeerBook::peers *)
Definition peers (pb : PeerBook) : list PeerState := (sorted_entries bytes_le (known_peers pb)).*2.
(* src: peer.rs:117-123 PeerBook::best_height *)
Definition best_height (pb : PeerBook) : Z :=
  foldl Z.max 0 (omap (fun p => v_best_height <$> ps_version p) (peers pb)).
End book.
End PeerBook.

(** ** The manager *)

(* src: address_manager.rs:14-21 AddressManager *)
Record AddressManager := {
  am_network : Network;
  am_peers : PeerBook;
  peers_per_ip : gmap IpAddr Z;
  peers_per_subnet : gmap bytes Z;
  peers_per_source : gmap bytes Z;
}.

Module AddressManager.
Section manager.
Context `{Henv : ProcessEnv}.

(* src: address_manager.rs:24-32 AddressManager::new *)
Definition new (n : Network) : AddressManager :=
  {| am_network := n; am_peers := PeerBook.new n; peers_per_ip := ∅; peers_per_subnet := ∅; peers_per_source := ∅ |}.
Definition with_peers (am : AddressManager) (pb : PeerBook) : AddressManager :=
  {| am_network := am_network am; am_peers := pb; peers_per_ip := peers_per_ip am;
     peers_per_subnet := peers_per_subnet am; peers_per_source := peers_per_source am |}.
(* src: address_manager.rs:38-40 AddressManager::add_manual_peer *)
Definition add_manual_peer (am : AddressManager) (remote_addr : bytes) : AddressManager :=
  with_peers am (PeerBook.add_manual_peer (am_peers am) remote_addr).
(* src: address_manager.rs:46-52 AddressManager::accept_version *)
Definition accept_version `{Sha3} (am : AddressManager) (remote_addr : bytes) (version : VersionMessage) (now : Z) :
    AddressManager * result ProtocolError unit :=
  let '(pb, verdict) := PeerBook.accept_version (am_peers am) remote_addr version now in (with_peers am pb, verdict).

(* src: address_manager.rs:246-248 AddressManager::ip_count *)
Definition ip_count (am : AddressManager) (ip : IpAddr) : Z := default 0 (peers_per_ip am !! ip).
(* src: address_manager.rs:250-252 AddressManager::subnet_count *)
Definition subnet_count (am : AddressManager) (subnet : bytes) : Z := default 0 (peers_per_subnet am !! subnet).
Definition source_count (am : AddressManager) (source : bytes) : Z := default 0 (peers_per_source am !! source).

(** [*map.entry(key).or_default() += 1]. *)
Definition bump {K} `{Countable K} (m : gmap K Z) (k : K) : gmap K Z := <[k := default 0 (m !! k) + 1]> m.
(** A new address is counted for its IP, its subnet and its source. *)
(* src: address_manager.rs:112-121 AddressManager::note_gossip_addresses_from_source (count) *)
Definition count_new (am : AddressManager) (ip : option IpAddr) (source : option bytes) : AddressManager :=
  {| am_network := am_network am; am_peers := am_peers am;
     peers_per_ip := match ip with Some ip => bump (peers_per_ip am) ip | None => peers_per_ip am end;
     peers_per_subnet := match ip with Some ip => bump (peers_per_subnet am) (subnet_key ip) | None => peers_per_subnet am end;
     peers_per_source := match source with Some s => bump (peers_per_source am) s | None => peers_per_source am end |}.

(** The IP and its subnet have room. *)
Definition ip_has_room (am : AddressManager) (ip : IpAddr) : bool :=
  (ip_count am ip <? max_peers_per_ip (network_limits (am_network am)))
  && (subnet_count am (subnet_key ip) <? max_peers_per_subnet (network_limits (am_network am))).

(** The loop; [source_count] is as at its start. *)
Fixpoint gossip_loop (source : option bytes) (source_count : Z) (public_source : bool) (now : Z)
    (addresses : list PeerAddress) (am : AddressManager) (seen : gset bytes) (new_from_source : Z)
    (accepted : list PeerAddress) : AddressManager * result ProtocolError (list PeerAddress) :=
  match addresses with
  | [] => (am, Ok accepted)
  | a :: addresses =>
      let skip seen := gossip_loop source source_count public_source now addresses am seen new_from_source accepted in
      let key := format_remote_addr a in
      if bool_decide (key ∈ seen) then skip seen
      else
        let seen := seen ∪ {[key]} in
        if bool_decide (is_Some source)
           && (max_addr_per_source (network_limits (am_network am)) <=? saturating_add USIZE_MAX source_count new_from_source)
        then skip seen
        else if negb (address_is_acceptable (am_network am) a public_source now) then skip seen
        else
          let a := {| host := host a; port := port a; services := services a;
                      last_seen_unix := if last_seen_unix a =? 0 then now else last_seen_unix a |} in
          if match parse_ip (host a) with Some ip => negb (ip_has_room am ip) | None => false end then skip seen
          else
            match PeerBook.note_address (am_peers am) a with
            | (pb, Ok is_new) =>
                let am := with_peers am pb in
                let am := if is_new then count_new am (parse_ip (host a)) source else am in
                let new_from_source := if is_new && bool_decide (is_Some source)
                                       then saturating_add USIZE_MAX new_from_source 1 else new_from_source in
                gossip_loop source source_count public_source now addresses am seen new_from_source (accepted ++ [a])
            | (pb, Err PeerBookFull) => (with_peers am pb, Ok accepted)
            | (pb, Err e) => (with_peers am pb, Err e)
            end
  end.

(* src: address_manager.rs:62-129 AddressManager::note_gossip_addresses_from_source *)
Definition note_gossip_addresses_from_source (am : AddressManager) (source : option bytes)
    (addresses : list PeerAddress) (public_source : bool) (now : Z) :
    AddressManager * result ProtocolError (list PeerAddress) :=
  gossip_loop source (match source with Some s => source_count am s | None => 0 end) public_source now
    (take (Z.to_nat (max_addr_per_message (network_limits (am_network am)))) addresses) am ∅ 0 [].
(* src: address_manager.rs:54-60 AddressManager::note_gossip_addresses *)
Definition note_gossip_addresses (am : AddressManager) (addresses : list PeerAddress) (public_source : bool) (now : Z) :=
  note_gossip_addresses_from_source am None addresses public_source now.

Definition public_network (n : Network) : bool := negb (bool_decide (n ∈ [Regnet; Prunetest])).

(** The order of [peers.sort_by]: connected first, then recent, then high, then by address. *)
Definition then_ (a b : comparison) : comparison := match a with Eq => b | c => c end.
Definition bool_compare (a b : bool) : comparison := Z.compare (Z.b2z a) (Z.b2z b).
Definition peer_compare (l r : PeerState) : comparison :=
  then_ (bool_compare (ps_connected r) (ps_connected l))
    (then_ (last_seen_unix (ps_address r) ?= last_seen_unix (ps_address l))
      (then_ (option_compare Z.compare (v_best_height <$> ps_version r) (v_best_height <$> ps_version l))
        (then_ (bytes_compare (host (ps_address l)) (host (ps_address r)))
          (port (ps_address l) ?= port (ps_address r))))).
Definition peer_le (l r : PeerState) : Prop := peer_compare l r <> Gt.
#[global] Instance comparison_eq_dec : EqDecision comparison.
Proof. solve_decision. Defined.
#[global] Instance peer_le_dec l r : Decision (peer_le l r).
Proof. unfold peer_le. apply _. Defined.

(** Known peers that can be told, up to [max]; [Some] when the limit was reached. *)
Fixpoint known_loop (n : Network) (max now : Z) (relay_safe : bool) (peers : list PeerState)
    (seen : gset (bytes * Z)) (addresses : list PeerAddress) : bool * gset (bytes * Z) * list PeerAddress :=
  match peers with
  | [] => (false, seen, addresses)
  | p :: peers =>
      let a := ps_address p in
      if negb (address_is_structurally_valid a)
         || relay_safe && (public_network n && negb (is_publicly_routable_host (host a))
                           || public_network n && negb (port a =? Network.p2p_port n)
                           || is_stale_address n (last_seen_unix a) now)
      then known_loop n max now relay_safe peers seen addresses
      else
        let '(seen, addresses) := if bool_decide ((host a, port a) ∈ seen) then (seen, addresses)
                                  else (seen ∪ {[(host a, port a)]}, addresses ++ [a]) in
        if max <=? zlen addresses then (true, seen, addresses)
        else known_loop n max now relay_safe peers seen addresses
  end.
Fixpoint manual_loop (n : Network) (max now : Z) (relay_safe : bool) (manual : list bytes)
    (seen : gset (bytes * Z)) (addresses : list PeerAddress) : list PeerAddress :=
  match manual with
  | [] => addresses
  | m :: manual =>
      let a := parse_remote_addr m (Network.p2p_port n) in
      if negb (address_is_structurally_valid a)
         || relay_safe && (public_network n && negb (is_publicly_routable_host (host a))
                           || is_stale_address n (last_seen_unix a) now)
      then manual_loop n max now relay_safe manual seen addresses
      else
        let '(seen, addresses) := if bool_decide ((host a, port a) ∈ seen) then (seen, addresses)
                                  else (seen ∪ {[(host a, port a)]}, addresses ++ [a]) in
        if max <=? zlen addresses then addresses else manual_loop n max now relay_safe manual seen addresses
  end.

(* src: address_manager.rs:139-214 AddressManager::advertisable_addresses_inner *)
Definition advertisable_addresses_inner (am : AddressManager) (max now : Z) (relay_safe : bool) : list PeerAddress :=
  let '(full, seen, addresses) :=
    known_loop (am_network am) max now relay_safe (merge_sort peer_le (PeerBook.peers (am_peers am))) ∅ [] in
  if full then addresses
  else manual_loop (am_network am) max now relay_safe (PeerBook.manual_peers (am_peers am)) seen addresses.
(* src: address_manager.rs:131-133 AddressManager::advertisable_addresses *)
Definition advertisable_addresses (am : AddressManager) (max now : Z) := advertisable_addresses_inner am max now false.
(* src: address_manager.rs:135-137 AddressManager::relay_addresses *)
Definition relay_addresses (am : AddressManager) (max now : Z) := advertisable_addresses_inner am max now true.

(* src: address_manager.rs:220-222 AddressManager::peer_count *)
Definition peer_count (am : AddressManager) : Z := PeerBook.peer_count (am_peers am).
(* src: address_manager.rs:224-231 AddressManager::fresh_peer_count *)
Definition fresh_peer_count (am : AddressManager) (now : Z) : Z :=
  zlen (filter (fun p => is_stale_address (am_network am) (last_seen_unix (ps_address p)) now = false)
          (PeerBook.peers (am_peers am))).
(* src: address_manager.rs:233-240 AddressManager::stale_peer_count *)
Definition stale_peer_count (am : AddressManager) (now : Z) : Z :=
  zlen (filter (fun p => is_stale_address (am_network am) (last_seen_unix (ps_address p)) now = true)
          (PeerBook.peers (am_peers am))).
(* src: address_manager.rs:242-244 AddressManager::best_height *)
Definition best_height (am : AddressManager) : Z := PeerBook.best_height (am_peers am).
End manager.
End AddressManager.

Import AddressManager.

(** ** Limits *)

Section limits.
Context `{Henv : ProcessEnv}.

Lemma peer_limits n :
  max_known_peers (network_limits n) = 4096 /\ max_peers_per_ip (network_limits n) = 8
  /\ max_peers_per_subnet (network_limits n) = 16 /\ max_addr_per_source (network_limits n) = 128.
Proof. unfold network_limits, network_params, runtime_limits. cbn [limits]. by case_match. Qed.

Definition known (am : AddressManager) : gmap bytes PeerState := known_peers (am_peers am).

(** The manager within its limits. *)
Record within_limits (am : AddressManager) : Prop := {
  wl_known : Z.of_nat (size (known am)) <= 4096;
  wl_ip : forall ip, 0 <= ip_count am ip <= 8;
  wl_subnet : forall subnet, 0 <= subnet_count am subnet <= 16;
  wl_source : forall source, 0 <= source_count am source <= 128;
}.

Lemma bump_lookup {K} `{Countable K} (m : gmap K Z) k k' :
  default 0 (bump m k !! k') = default 0 (m !! k') + if decide (k' = k) then 1 else 0.
Proof.
  unfold bump. destruct (decide (k' = k)) as [->|Hne]; [by rewrite lookup_insert_eq|].
  rewrite lookup_insert_ne by done. lia.
Qed.

Lemma note_address_spec pb a :
  Z.of_nat (size (known_peers pb)) <= 4096 ->
  let '(pb', verdict) := PeerBook.note_address pb a in
  Z.of_nat (size (known_peers pb')) <= 4096
  /\ match verdict with
     | Ok is_new => is_Some (known_peers pb' !! format_remote_addr a)
         /\ size (known_peers pb') = (size (known_peers pb) + if is_new then 1 else 0)%nat
     | Err e => e = PeerBookFull /\ pb' = pb
     end.
Proof.
  intros Hsize. unfold PeerBook.note_address. destruct (known_peers pb !! format_remote_addr a) as [e|] eqn:E.
  - cbn. rewrite lookup_insert_eq, map_size_insert_Some by done. split; [done|]. split; [by eexists|lia].
  - destruct (PeerBook.full pb) eqn:Ef; [done|]. cbn. rewrite lookup_insert_eq, map_size_insert_None by done.
    unfold PeerBook.full in Ef. rewrite (proj1 (peer_limits _)) in Ef. apply Z.leb_gt in Ef.
    split; [lia|]. split; [by eexists|lia].
Qed.

(** The progress of a gossip loop. *)
Record gossiped (source : option bytes) (public_source : bool) (now : Z) (am am' : AddressManager)
    (accepted accepted' : list PeerAddress) : Prop := {
  go_limits : within_limits am';
  go_network : am_network am' = am_network am;
  go_new : exists new, Z.of_nat (size (known am')) = Z.of_nat (size (known am)) + new /\ 0 <= new
    /\ forall s, source_count am' s = source_count am s + if decide (Some s = source) then new else 0;
  go_accepted : exists more, accepted' = accepted ++ more
    /\ forall a, a ∈ more -> address_is_acceptable (am_network am) a public_source now = true
                              /\ is_Some (known am' !! format_remote_addr a);
  go_kept : forall k, is_Some (known am !! k) -> is_Some (known am' !! k);
}.

Lemma gossiped_refl source public_source now am accepted :
  within_limits am -> gossiped source public_source now am am accepted accepted.
Proof.
  intros Hw. split; [done|done| | |done].
  - exists 0. split_and!; [lia|done|]. intros s. destruct (decide _); lia.
  - exists []. split; [by rewrite app_nil_r|]. by intros a ?%elem_of_nil.
Qed.

(** An address stays acceptable when the missing time is filled in. *)
Lemma acceptable_filled n a public_source now :
  address_is_acceptable n a public_source now = true -> 0 <= now ->
  address_is_acceptable n {| host := host a; port := port a; services := services a;
    last_seen_unix := if last_seen_unix a =? 0 then now else last_seen_unix a |} public_source now = true.
Proof.
  unfold address_is_acceptable, address_is_structurally_valid. cbn [host port last_seen_unix].
  intros Ha Hnow. destruct (negb _); [done|]. destruct (_ && _); [done|]. destruct (_ && _); [done|].
  destruct (last_seen_unix a =? 0); [|done]. destruct public_source; [|done]. cbn [andb].
  unfold is_stale_address. destruct (now =? 0); [done|]. unfold saturating_sub. rewrite Z.sub_diag.
  assert (0 <= max_peer_address_age_secs (network_limits n)) as H.
  { unfold network_limits, network_params, runtime_limits. cbn [limits]. by case_match. }
  replace (Z.max 0 0) with 0 by done. by rewrite (proj2 (Z.ltb_ge _ _) H).
Qed.

(** One accepted address. *)
Lemma accept_one source public_source now am a pb is_new accepted :
  within_limits am -> 0 <= now ->
  address_is_acceptable (am_network am) a public_source now = true ->
  (forall s, source = Some s -> source_count am s < 128) ->
  match parse_ip (host a) with Some ip => ip_has_room am ip = true | None => True end ->
  PeerBook.note_address (am_peers am) a = (pb, Ok is_new) ->
  gossiped source public_source now am
    (if (is_new : bool) then count_new (with_peers am pb) (parse_ip (host a)) source else with_peers am pb)
    accepted (accepted ++ [a]).
Proof.
  intros Hw Hnow Hacc Hsrc Hroom Hnote. pose proof Hw as [Hk Hi Hsub Hso].
  pose proof (note_address_spec (am_peers am) a Hk) as H. rewrite Hnote in H. destruct H as (Hk' & Hin & Hsize).
  set (am' := if is_new then _ else _).
  assert (known am' = known_peers pb) as Eknown by (subst am'; by destruct is_new).
  assert (forall s, source_count am' s = source_count am s + if decide (Some s = source) then if is_new then 1 else 0 else 0) as Esrc.
  { intros s. subst am'. unfold source_count. destruct is_new; [|cbn; destruct (decide _); lia].
    cbn. destruct source as [s'|]; cbn; [|destruct (decide _); [done|lia]]. rewrite bump_lookup.
    destruct (decide (s = s')), (decide (Some s = Some s')); congruence || lia. }
  split.
  - split.
    + by rewrite Eknown.
    + intros ip. subst am'. destruct is_new; [|apply Hi]. unfold ip_count in *. cbn.
      destruct (parse_ip (host a)) as [ip'|]; [|apply Hi]. rewrite bump_lookup. pose proof (Hi ip).
      destruct (decide (ip = ip')) as [->|]; [|lia]. unfold ip_has_room, ip_count in Hroom.
      destruct (peer_limits (am_network am)) as (_ & E & _). rewrite E in Hroom.
      apply andb_true_iff in Hroom as [Hroom%Z.ltb_lt _]. lia.
    + intros subnet. subst am'. destruct is_new; [|apply Hsub]. unfold subnet_count in *. cbn.
      destruct (parse_ip (host a)) as [ip'|]; [|apply Hsub]. rewrite bump_lookup. pose proof (Hsub subnet).
      destruct (decide (subnet = subnet_key ip')) as [->|]; [|lia]. unfold ip_has_room, subnet_count in Hroom.
      destruct (peer_limits (am_network am)) as (_ & _ & E & _). rewrite E in Hroom.
      apply andb_true_iff in Hroom as [_ Hroom%Z.ltb_lt]. lia.
    + intros s. rewrite Esrc. pose proof (Hso s). destruct (decide (Some s = source)) as [E|]; [|lia].
      pose proof (Hsrc s (eq_sym E)). destruct is_new; lia.
  - subst am'. by destruct is_new.
  - exists (if is_new then 1 else 0). rewrite Eknown. unfold known. split_and!; [destruct is_new; lia|destruct is_new; lia|exact Esrc].
  - exists [a]. split; [done|]. intros a' ->%list_elem_of_singleton. by rewrite Eknown.
  - rewrite Eknown. intros k Hsome. unfold PeerBook.note_address in Hnote.
    destruct (known_peers (am_peers am) !! format_remote_addr a); [|destruct (PeerBook.full _); [done|]];
      injection Hnote as <- _; cbn; apply lookup_insert_is_Some; destruct (decide (format_remote_addr a = k)); auto.
Qed.

Lemma gossiped_trans source public_source now am1 am2 am3 l1 l2 l3 :
  gossiped source public_source now am1 am2 l1 l2 -> gossiped source public_source now am2 am3 l2 l3 ->
  gossiped source public_source now am1 am3 l1 l3.
Proof.
  intros [W1 N1 (n1 & E1 & P1 & S1) (m1 & -> & A1) K1] [W2 N2 (n2 & E2 & P2 & S2) (m2 & -> & A2) K2].
  split; [done|congruence| | |auto].
  - exists (n1 + n2). split_and!; [lia|lia|]. intros s. rewrite S2, S1. destruct (decide _); lia.
  - exists (m1 ++ m2). split; [by rewrite app_assoc|]. intros a [Ha|Ha]%elem_of_app.
    + destruct (A1 a Ha). auto.
    + rewrite <- N1. by apply A2.
Qed.

Lemma gossip_loop_spec source count0 public_source now addresses : forall am seen new_from_source accepted am' verdict,
  0 <= now -> within_limits am -> 0 <= count0 -> 0 <= new_from_source ->
  (forall s, source = Some s -> source_count am s = count0 + new_from_source) ->
  gossip_loop source count0 public_source now addresses am seen new_from_source accepted = (am', verdict) ->
  exists accepted', verdict = Ok accepted' /\ gossiped source public_source now am am' accepted accepted'.
Proof.
  induction addresses as [|a addresses IH]; intros am seen fresh accepted am' verdict Hnow Hw H0 Hf Hsrc Hrun;
    cbn [gossip_loop] in Hrun.
  { injection Hrun as <- <-. exists accepted. split; [done|by apply gossiped_refl]. }
  destruct (bool_decide (format_remote_addr a ∈ seen)); [by eapply IH|].
  destruct (bool_decide (is_Some source) && _) eqn:Efull; [by eapply IH|].
  destruct (negb (address_is_acceptable _ _ _ _)) eqn:Eacc; [by eapply IH|]. apply negb_false_iff in Eacc.
  apply acceptable_filled in Eacc; [|done].
  set (filled := {| host := host a; port := port a; services := services a;
    last_seen_unix := if last_seen_unix a =? 0 then now else last_seen_unix a |}) in *.
  cbn zeta in Hrun. change (parse_ip (host filled)) with (parse_ip (host a)) in *.
  destruct (match parse_ip (host a) with Some ip => negb (ip_has_room am ip) | None => false end) eqn:Eroom;
    [by eapply IH|].
  assert (match parse_ip (host a) with Some ip => ip_has_room am ip = true | None => True end) as Hroom.
  { destruct (parse_ip (host a)); [by apply negb_false_iff in Eroom|done]. }
  assert (forall s, source = Some s -> source_count am s < 128) as Hlt.
  { intros s Es. rewrite (Hsrc s Es). rewrite Es in Efull. rewrite bool_decide_true in Efull by by eexists.
    cbn [andb] in Efull. apply Z.leb_gt in Efull. destruct (peer_limits (am_network am)) as (_ & _ & _ & E). rewrite E in Efull.
    unfold saturating_add, USIZE_MAX in Efull. lia. }
  destruct (PeerBook.note_address (am_peers am) filled) as [pb v] eqn:Enote.
  destruct v as [is_new|e].
  - pose proof (accept_one source public_source now am filled pb is_new accepted Hw Hnow Eacc Hlt Hroom Enote) as H1.
    cbn [host filled] in H1.
    eapply IH in Hrun as (accepted' & -> & H2); [|done|exact (go_limits _ _ _ _ _ _ _ H1)|done| |].
    + exists accepted'. split; [done|]. by eapply gossiped_trans.
    + destruct (is_new && _); [unfold saturating_add, USIZE_MAX|]; lia.
    + intros s Es. destruct (go_new _ _ _ _ _ _ _ H1) as (new & En & Hn & Hs). rewrite Hs, (Hsrc s Es).
      rewrite (decide_True (P:=Some s = source)) by done.
      pose proof (note_address_spec (am_peers am) filled (wl_known _ Hw)) as Hspec. rewrite Enote in Hspec.
      destruct Hspec as (_ & _ & Hsize).
      assert (known (if is_new then count_new (with_peers am pb) (parse_ip (host a)) source else with_peers am pb)
              = known_peers pb) as Eknown by by destruct is_new.
      rewrite Eknown, Hsize in En. rewrite Es, (bool_decide_true (is_Some (Some s))) by by eexists. rewrite andb_true_r.
      pose proof (Hlt s Es). rewrite (Hsrc s Es) in *. unfold known in En. unfold saturating_add, USIZE_MAX.
      destruct is_new; lia.
  - pose proof (note_address_spec (am_peers am) filled (wl_known _ Hw)) as Hspec. rewrite Enote in Hspec.
    destruct Hspec as (_ & -> & ->). injection Hrun as <- <-. exists accepted. split; [done|].
    destruct am. by apply gossiped_refl.
Qed.

(** ** Histories *)

Inductive request :=
| Gossip (source : option bytes) (addresses : list PeerAddress) (public_source : bool) (now : Z)
| VersionAccepted (remote_addr : bytes) (version : VersionMessage) (now : Z)
| ManualPeer (remote_addr : bytes).
Definition serve `{Sha3} (am : AddressManager) (r : request) : AddressManager :=
  match r with
  | Gossip source addresses public_source now => (note_gossip_addresses_from_source am source addresses public_source now).1
  | VersionAccepted remote_addr version now => (accept_version am remote_addr version now).1
  | ManualPeer remote_addr => add_manual_peer am remote_addr
  end.
Definition timely (r : request) : Prop := match r with Gossip _ _ _ now => 0 <= now | _ => True end.

Lemma new_within_limits n : within_limits (new n).
Proof. split; [done|..]; intros ?; unfold ip_count, subnet_count, source_count; cbn; rewrite lookup_empty; by cbn. Qed.

Lemma accept_version_limits `{Sha3} am remote_addr version now :
  within_limits am -> within_limits (accept_version am remote_addr version now).1.
Proof.
  intros Hw. unfold accept_version, PeerBook.accept_version.
  assert (within_limits (with_peers am (am_peers am))) as Hsame by by destruct am.
  destruct (validate_version_message _ _); [|exact Hsame]. destruct (negb _ && _) eqn:E; [exact Hsame|].
  destruct Hw as [Hk Hi Hsub Hso]. split; [|done..]. unfold known in *. cbn.
  destruct (known_peers (am_peers am) !! remote_addr) as [e|] eqn:Ee.
  - rewrite map_size_insert_Some by by eexists. done.
  - rewrite bool_decide_false in E by by intros [? ?]. cbn [negb andb] in E.
    unfold PeerBook.full in E. rewrite (proj1 (peer_limits _)) in E. apply Z.leb_gt in E.
    rewrite map_size_insert_None by done. lia.
Qed.

Lemma gossip_spec am source addresses public_source now :
  within_limits am -> 0 <= now ->
  exists accepted, (note_gossip_addresses_from_source am source addresses public_source now).2 = Ok accepted
    /\ gossiped source public_source now am (note_gossip_addresses_from_source am source addresses public_source now).1
         [] accepted.
Proof.
  intros Hw Hnow. unfold note_gossip_addresses_from_source. destruct (gossip_loop _ _ _ _ _ _ _ _ _) as [am' v] eqn:E.
  eapply gossip_loop_spec in E as (accepted & -> & Hg); [|done|done| |done|].
  - by exists accepted.
  - destruct source as [s|]; [apply (wl_source _ Hw)|done].
  - intros s ->. lia.
Qed.

(** ** What gossip taught *)

(** The addresses a request put into the book, with who sent them: the entries of the book
    after a batch of gossip that were not there before it. *)
Definition learnt_now `{Sha3} (am : AddressManager) (r : request) : list (option bytes * PeerAddress) :=
  match r with
  | Gossip source _ _ _ => (fun kv => (source, ps_address kv.2)) <$> map_to_list (known (serve am r) ∖ known am)
  | _ => []
  end.
Fixpoint learnt `{Sha3} (am : AddressManager) (requests : list request) : list (option bytes * PeerAddress) :=
  match requests with
  | [] => []
  | r :: requests => learnt_now am r ++ learnt (serve am r) requests
  end.
Definition of_ip (ip : IpAddr) (a : PeerAddress) : Prop := parse_ip (host a) = Some ip.
Definition of_subnet (subnet : bytes) (a : PeerAddress) : Prop := subnet_key <$> parse_ip (host a) = Some subnet.
#[global] Instance of_ip_dec ip a : Decision (of_ip ip a).
Proof. unfold of_ip. apply _. Defined.
#[global] Instance of_subnet_dec subnet a : Decision (of_subnet subnet a).
Proof. unfold of_subnet. apply _. Defined.

(** How many peers have an address such that [Q]. *)
Definition counting (Q : PeerAddress -> Prop) `{forall a, Decision (Q a)} (m : gmap bytes PeerState) : Z :=
  zlen (filter (fun kv => Q (ps_address kv.2)) (map_to_list m)).
Lemma counting_insert Q `{forall a, Decision (Q a)} m k p : m !! k = None ->
  counting Q (<[k := p]> m) = counting Q m + if decide (Q (ps_address p)) then 1 else 0.
Proof.
  intros Hk. unfold counting, zlen. rewrite map_to_list_insert by done. rewrite filter_cons. cbn [snd].
  destruct (decide _); cbn [length]; lia.
Qed.
Lemma counting_list Q `{forall a, Decision (Q a)} (source : option bytes) (l : list (bytes * PeerState)) :
  filter (fun p : option bytes * PeerAddress => Q p.2) ((fun kv => (source, ps_address kv.2)) <$> l)
  = (fun kv => (source, ps_address kv.2)) <$> filter (fun kv => Q (ps_address kv.2)) l.
Proof.
  induction l as [|kv l IH]; [done|]. rewrite fmap_cons, !filter_cons, IH. cbn [snd]. by destruct (decide _).
Qed.
Lemma sources_list (source : option bytes) s (l : list (bytes * PeerState)) :
  zlen (filter (fun p : option bytes * PeerAddress => p.1 = Some s) ((fun kv => (source, ps_address kv.2)) <$> l))
  = if decide (Some s = source) then zlen l else 0.
Proof.
  induction l as [|kv l IH]; [by destruct (decide _)|]. rewrite fmap_cons, filter_cons. cbn [fst].
  unfold zlen in *. repeat destruct (decide _); cbn [length]; congruence || lia.
Qed.

(** A new entry of the book beside what it was at the start. *)
Lemma difference_insert (m m0 : gmap bytes PeerState) k p : m0 !! k = None -> <[k := p]> m ∖ m0 = <[k := p]> (m ∖ m0).
Proof.
  intros Hk. apply map_eq. intros k'. destruct (decide (k' = k)) as [->|Hne].
  - rewrite lookup_insert_eq. apply lookup_difference_Some. by rewrite lookup_insert_eq.
  - rewrite lookup_insert_ne by done. unfold difference, map_difference. rewrite !lookup_difference_with.
    by rewrite lookup_insert_ne.
Qed.
Lemma difference_update (m m0 : gmap bytes PeerState) k p : is_Some (m0 !! k) -> <[k := p]> m ∖ m0 = m ∖ m0.
Proof.
  intros [p0 Hk]. apply map_eq. intros k'. unfold difference, map_difference. rewrite !lookup_difference_with.
  destruct (decide (k' = k)) as [->|Hne]; [|by rewrite lookup_insert_ne].
  rewrite lookup_insert_eq, Hk. by destruct (m !! k).
Qed.

(** The counters moved by what is new in the book. *)
Record counted (source : option bytes) (am0 am : AddressManager) : Prop := {
  ct_kept : forall k, is_Some (known am0 !! k) -> is_Some (known am !! k);
  ct_ip : forall ip, ip_count am ip = ip_count am0 ip + counting (of_ip ip) (known am ∖ known am0);
  ct_subnet : forall subnet, subnet_count am subnet = subnet_count am0 subnet + counting (of_subnet subnet) (known am ∖ known am0);
  ct_source : forall s, source_count am s
    = source_count am0 s + if decide (Some s = source) then Z.of_nat (size (known am ∖ known am0)) else 0;
}.
Lemma counted_refl source am : counted source am am.
Proof.
  assert (known am ∖ known am = ∅) as E by apply map_difference_diag.
  split; [done|..]; intros x; rewrite E.
  - unfold counting. rewrite map_to_list_empty. change (zlen _) with 0. lia.
  - unfold counting. rewrite map_to_list_empty. change (zlen _) with 0. lia.
  - rewrite map_size_empty. destruct (decide _); lia.
Qed.
(** What [count_new] adds to each counter. *)
Lemma count_new_ip am oip source ip :
  ip_count (count_new am oip source) ip = ip_count am ip + if decide (oip = Some ip) then 1 else 0.
Proof.
  unfold ip_count. cbn [count_new peers_per_ip]. destruct oip as [ip'|]; [rewrite bump_lookup|];
    repeat destruct (decide _); congruence || lia.
Qed.
Lemma count_new_subnet am oip source subnet :
  subnet_count (count_new am oip source) subnet = subnet_count am subnet + if decide (subnet_key <$> oip = Some subnet) then 1 else 0.
Proof.
  unfold subnet_count. cbn [count_new peers_per_subnet]. destruct oip as [ip'|]; cbn [fmap option_fmap option_map]; [rewrite bump_lookup|];
    repeat destruct (decide _); congruence || lia.
Qed.
Lemma count_new_source am oip source s :
  source_count (count_new am oip source) s = source_count am s + if decide (Some s = source) then 1 else 0.
Proof.
  unfold source_count. cbn [count_new peers_per_source]. destruct source as [s'|]; [rewrite bump_lookup|];
    repeat destruct (decide _); congruence || lia.
Qed.
Lemma counted_new source am0 am a pb :
  counted source am0 am -> known am !! format_remote_addr a = None ->
  pb = PeerBook.with_known (am_peers am)
    (<[format_remote_addr a := {| ps_address := a; ps_version := None; ps_connected := false; ps_ban_score := 0 |}]> (known am)) ->
  counted source am0 (count_new (with_peers am pb) (parse_ip (host a)) source).
Proof.
  intros [Hk Hi Hsub Hs] Hnew ->. set (p := {| ps_address := a; ps_version := _; ps_connected := _; ps_ban_score := _ |}).
  assert (known am0 !! format_remote_addr a = None) as Hnew0.
  { apply eq_None_not_Some. intros Hsome%Hk. rewrite Hnew in Hsome. by destruct Hsome. }
  assert ((known am ∖ known am0) !! format_remote_addr a = None) as Hd by (apply lookup_difference_None; by left).
  assert (known (count_new (with_peers am (PeerBook.with_known (am_peers am) (<[format_remote_addr a := p]> (known am))))
    (parse_ip (host a)) source) = <[format_remote_addr a := p]> (known am)) as Ek by done.
  split.
  - intros k Hsome. rewrite Ek. apply lookup_insert_is_Some. destruct (decide (format_remote_addr a = k)); auto.
  - intros ip. rewrite Ek, difference_insert, counting_insert, count_new_ip by done. change (ip_count (with_peers am _) ip) with (ip_count am ip). rewrite Hi.
    unfold of_ip. cbn [ps_address p]. repeat destruct (decide _); done || lia.
  - intros subnet. rewrite Ek, difference_insert, counting_insert, count_new_subnet by done. change (subnet_count (with_peers am _) subnet) with (subnet_count am subnet).
    rewrite Hsub. unfold of_subnet. cbn [ps_address p]. repeat destruct (decide _); done || lia.
  - intros s. rewrite Ek, difference_insert, count_new_source by done. change (source_count (with_peers am _) s) with (source_count am s). rewrite Hs.
    rewrite map_size_insert_None by done. repeat destruct (decide _); done || lia.
Qed.
Lemma counted_known source am0 am a p pb :
  counted source am0 am -> is_Some (known am0 !! format_remote_addr a) ->
  pb = PeerBook.with_known (am_peers am) (<[format_remote_addr a := p]> (known am)) -> counted source am0 (with_peers am pb).
Proof.
  intros [Hk Hi Hsub Hs] Hknown ->. assert (known (with_peers am (PeerBook.with_known (am_peers am) (<[format_remote_addr a := p]> (known am))))
    = <[format_remote_addr a := p]> (known am)) as Ek by done.
  split; [|intros x; rewrite Ek, difference_update by done..]; [|exact (Hi x)|exact (Hsub x)|exact (Hs x)].
  intros k Hsome. rewrite Ek. apply lookup_insert_is_Some. destruct (decide (format_remote_addr a = k)); auto.
Qed.

Lemma loop_counts source count0 public_source now am0 addresses : forall am seen fresh accepted,
  counted source am0 am -> (forall k, is_Some ((known am ∖ known am0) !! k) -> k ∈ seen) ->
  counted source am0 (gossip_loop source count0 public_source now addresses am seen fresh accepted).1.
Proof.
  induction addresses as [|a addresses IH]; intros am seen fresh accepted Hc Hseen; [done|]. cbn [gossip_loop].
  case_bool_decide as Hdup; [by apply IH|].
  assert (forall k, is_Some ((known am ∖ known am0) !! k) -> k ∈ seen ∪ {[format_remote_addr a]}) as Hseen'
    by (intros k Hk%Hseen; set_solver).
  destruct (_ && _); [by apply IH|]. destruct (negb _); [by apply IH|]. destruct (match parse_ip _ with Some _ => _ | None => _ end); [by apply IH|].
  set (filled := {| host := host a; port := port a; services := services a; last_seen_unix := _ |}).
  change (format_remote_addr a) with (format_remote_addr filled) in *. change (parse_ip (host a)) with (parse_ip (host filled)).
  unfold PeerBook.note_address. destruct (known_peers (am_peers am) !! format_remote_addr filled) as [e|] eqn:E.
  - assert (is_Some (known am0 !! format_remote_addr filled)) as Hold.
    { destruct (known am0 !! format_remote_addr filled) as [e0|] eqn:E0; [by eexists|]. destruct Hdup. apply Hseen. exists e.
      by apply lookup_difference_Some. }
    cbv zeta. cbn [andb]. apply IH; [by eapply counted_known|].
    intros k Hk. apply Hseen'. unfold known in *. cbn [with_peers am_peers PeerBook.with_known known_peers] in Hk.
    by rewrite difference_update in Hk.
  - destruct (PeerBook.full (am_peers am)); [by destruct am|]. cbv zeta. apply IH; [by apply counted_new|].
    intros k Hk. unfold known in *. cbn [with_peers count_new am_peers PeerBook.with_known known_peers] in Hk.
    destruct (decide (k = format_remote_addr filled)) as [->|Hne]; [set_solver|]. apply Hseen'.
    destruct Hk as [e Hk]. apply lookup_difference_Some in Hk as [Hk Hk0]. rewrite lookup_insert_ne in Hk by done.
    exists e. by apply lookup_difference_Some.
Qed.

(** The counters are what the history taught. *)
Record tallied `{Sha3} (am : AddressManager) (requests : list request) : Prop := {
  ta_ip : forall ip, ip_count (foldl serve am requests) ip
            = ip_count am ip + zlen (filter (fun p => of_ip ip p.2) (learnt am requests));
  ta_subnet : forall subnet, subnet_count (foldl serve am requests) subnet
                = subnet_count am subnet + zlen (filter (fun p => of_subnet subnet p.2) (learnt am requests));
  ta_source : forall s, source_count (foldl serve am requests) s
                = source_count am s + zlen (filter (fun p => p.1 = Some s) (learnt am requests));
}.
Lemma request_tallied `{Sha3} am r : tallied am [r].
Proof.
  destruct r as [source addresses public_source now|remote_addr version now|remote_addr].
  - assert (counted source am (serve am (Gossip source addresses public_source now))) as [_ Hi Hsub Hs].
    { cbn [serve]. unfold note_gossip_addresses_from_source. apply loop_counts; [apply counted_refl|].
      intros k. rewrite map_difference_diag, lookup_empty. by intros [? ?]. }
    split; intros ?; cbn [foldl learnt learnt_now]; rewrite app_nil_r.
    + rewrite counting_list. unfold zlen. rewrite length_fmap. apply Hi.
    + rewrite counting_list. unfold zlen. rewrite length_fmap. apply Hsub.
    + rewrite sources_list. unfold zlen. rewrite length_map_to_list. apply Hs.
  - split; intros ?; cbn [foldl learnt learnt_now serve]; unfold accept_version;
      destruct (PeerBook.accept_version _ _ _ _) as [pb v]; apply eq_sym, Z.add_0_r.
  - split; intros ?; cbn [foldl learnt learnt_now serve]; apply eq_sym, Z.add_0_r.
Qed.
Lemma history_tallied `{Sha3} requests : forall am, tallied am requests.
Proof.
  induction requests as [|r requests IH]; intros am.
  { split; intros ?; apply eq_sym, Z.add_0_r. }
  destruct (request_tallied am r) as [Hi Hsub Hs], (IH (serve am r)) as [Hi' Hsub' Hs'].
  cbn [foldl learnt] in Hi, Hsub, Hs. split; intros x; cbn [foldl learnt]; rewrite filter_app; unfold zlen in *; rewrite length_app.
  - specialize (Hi x). specialize (Hi' x). rewrite app_nil_r in Hi. lia.
  - specialize (Hsub x). specialize (Hsub' x). rewrite app_nil_r in Hsub. lia.
  - specialize (Hs x). specialize (Hs' x). rewrite app_nil_r in Hs. lia.
Qed.

Lemma history_within_limits `{Sha3} n requests : Forall timely requests -> within_limits (foldl serve (new n) requests).
Proof.
  generalize (new_within_limits n). generalize (new n).
  induction requests as [|r requests IH]; intros am Hw Htimely; [done|]. apply Forall_cons in Htimely as [Hr Htimely].
  apply IH; [|done]. destruct r; cbn [serve].
  - destruct (gossip_spec am source addresses public_source now Hw Hr) as (accepted & _ & Hg).
    apply (go_limits _ _ _ _ _ _ _ Hg).
  - by apply accept_version_limits.
  - destruct Hw. by split.
Qed.

(** C37: However much is gossiped, and whatever versions and manual peers come between,
    what gossip puts into the book stays within the limits: over the whole history at
    most 8 addresses of one IP address, 16 of one subnet and 128 first told by one source
    (host names have neither IP nor subnet), and the book has at most 4096 peers.
    The counters are exact: each is the number of such addresses learnt. A batch of
    addresses is never an error; each address it returns passed the checks for its
    source and is in the book, no known peer is dropped, and the book grows by
    exactly what is charged to the source. Clocks are not before 1970. *)
Theorem gossip_within_limits `{Sha3} (n : Network) (requests : list request) :
  Forall timely requests ->
  let am := foldl serve (new n) requests in
  let taught := learnt (new n) requests in
  within_limits am
  /\ (forall ip, zlen (filter (fun p => of_ip ip p.2) taught) = ip_count am ip /\ ip_count am ip <= 8)
  /\ (forall subnet, zlen (filter (fun p => of_subnet subnet p.2) taught) = subnet_count am subnet /\ subnet_count am subnet <= 16)
  /\ (forall s, zlen (filter (fun p => p.1 = Some s) taught) = source_count am s /\ source_count am s <= 128)
  /\ forall source addresses public_source now am' verdict, 0 <= now ->
       note_gossip_addresses_from_source am source addresses public_source now = (am', verdict) ->
       exists accepted, verdict = Ok accepted
         /\ (forall a, a ∈ accepted -> address_is_acceptable (am_network am) a public_source now = true
                                       /\ is_Some (known am' !! format_remote_addr a))
         /\ (forall k, is_Some (known am !! k) -> is_Some (known am' !! k))
         /\ (forall s, source = Some s ->
               Z.of_nat (size (known am')) - Z.of_nat (size (known am)) = source_count am' s - source_count am s).
Proof.
  intros Htimely am taught. pose proof (history_within_limits n requests Htimely) as Hw. fold am in Hw.
  destruct (history_tallied requests (new n)) as [Hi Hsub Hs]. fold am taught in Hi, Hsub, Hs.
  pose proof (wl_ip _ Hw) as Li. pose proof (wl_subnet _ Hw) as Lsub. pose proof (wl_source _ Hw) as Ls.
  assert (forall ip, ip_count (new n) ip = 0) as Zi by (intros ip; unfold ip_count; cbn; by rewrite lookup_empty).
  assert (forall subnet, subnet_count (new n) subnet = 0) as Zsub by (intros x; unfold subnet_count; cbn; by rewrite lookup_empty).
  assert (forall s, source_count (new n) s = 0) as Zs by (intros x; unfold source_count; cbn; by rewrite lookup_empty).
  split; [done|]. split; [intros x; split; [by rewrite Hi, Zi|apply Li]|].
  split; [intros x; split; [by rewrite Hsub, Zsub|apply Lsub]|].
  split; [intros x; split; [by rewrite Hs, Zs|apply Ls]|].
  intros source addresses public_source now am' verdict Hnow Hrun.
  destruct (gossip_spec am source addresses public_source now Hw Hnow) as (accepted & Hok & Hg). rewrite Hrun in Hok, Hg.
  cbn [fst snd] in Hok, Hg. destruct Hg as [_ _ (new & En & _ & Hgrow) (more & -> & Hmore) Hkept]. exists more.
  split_and!; [done|exact Hmore|exact Hkept|]. intros s Es. rewrite Hgrow, decide_True by done. lia.
Qed.

(** An IPv6 address that maps an IPv4 address is public, whatever it maps:
    [::ffff:127.0.0.1] passes the check that 127.0.0.1 fails. *)
Theorem mapped_addresses_are_public h g k :
  parse_ip h = Some (V6 [0; 0; 0; 0; 0; 65535; g; k]) -> is_publicly_routable_host h = true.
Proof.
  intros Hp. unfold is_publicly_routable_host. rewrite Hp. cbn [is_loopback is_unspecified].
  rewrite !bool_decide_false by (intros E; by injection E). reflexivity.
Qed.
End limits.

Definition gossip_sample (h : bytes) : PeerAddress :=
  {| host := h; port := Network.p2p_port Testnet; services := 9; last_seen_unix := 0 |}.
Definition gossip_history : list request :=
  [Gossip (Some (str_bytes "9.9.9.9:9100"))
     [gossip_sample (str_bytes "8.8.8.8"); gossip_sample (str_bytes "127.0.0.1"); gossip_sample (str_bytes "::ffff:127.0.0.1")]
     true 1700000000].
Lemma gossip_within_limits_witness :
  PeerBook.peer_count (am_peers (foldl (serve (Henv:=fun _ => None) (H:=checksum_sha3)) (new Testnet) gossip_history)) = 2
  /\ within_limits (foldl (serve (Henv:=fun _ => None) (H:=checksum_sha3)) (new Testnet) gossip_history).
Proof.
  split; [vm_compute; reflexivity|].
  apply (gossip_within_limits (Henv:=fun _ => None) (H:=checksum_sha3) Testnet gossip_history).
  repeat constructor; discriminate.
Defined.
