(* ===== verification/Connection.v ===== *)
(** * Connections

    crates/atho-p2p/src/connection.rs: the sessions of connected peers, who may
    connect, and what of a peer's messages reaches the node. Clocks are
    arguments; the handshake, the bans and the addresses are those of [Handshake],
    [BanList] and [AddressManager]. *)
From stdpp Require Import options.
From S2P Require Import Prelude Bytes Text Constants Crypto Keccak Network Rules Transaction Block Genesis P2pConfig.
From S2P Require Import Protocol Handshake BanList IpAddr AddressManager.

#[local] Set Default Proof Using "Type*".

(* src: connection.rs:20-24 ConnectionDirection *)
Inductive ConnectionDirection := InboundPeer | OutboundPeer.
#[global] Instance ConnectionDirection_eq_dec : EqDecision ConnectionDirection.
Proof. solve_decision. Defined.

(* src: connection.rs:26-30 PeerSession *)
Record PeerSession := { direction : ConnectionDirection; handshake : HandshakeState }.

(* src: connection.rs:32-44 PeerSessionSnapshot *)
Record PeerSessionSnapshot := {
  sn_remote_addr : bytes;
  sn_direction : ConnectionDirection;
  sn_handshake_ready : bool;
  sn_best_height : option Z;
  sn_tip_hash : option Hash48;
  sn_chainwork : option Hash48;
  sn_protocol_version : option Z;
  sn_services : option Z;
  sn_user_agent : option bytes;
  sn_ruleset_version : option Z;
}.

(** [reason] is the error whose text the code keeps. *)
(* src: connection.rs:46-64 ConnectionEvent *)
Inductive ConnectionEvent :=
| SendTo (peer : bytes) (message : NetworkMessage)
| PeerIsReady (peer : bytes) (best_height : Z)
| Message (peer : bytes) (message : NetworkMessage)
| Disconnect (peer : bytes) (reason : ProtocolError).

(* src: connection.rs:66-80 ConnectionError *)
Inductive ConnectionError :=
| ProtocolFailure (e : ProtocolError)
| PeerAlreadyConnected
| UnknownPeer
| BannedPeer
| InboundLimitReached
| OutboundLimitReached.

(* src: connection.rs:102-109 ConnectionManager *)
Record ConnectionManager := {
  cm_network : Network;
  address_manager : AddressManager;
  banlist : BanList;
  sessions : gmap bytes PeerSession;
  getaddr_last_response_unix : gmap bytes Z;
}.

Module ConnectionManager.
Section manager.
Context `{Henv : ProcessEnv, Hs : Sha3}.

(* src: connection.rs:112-120 ConnectionManager::new *)
Definition new (n : Network) : ConnectionManager :=
  {| cm_network := n; address_manager := AddressManager.new n; banlist := BanList.new n; sessions := ∅;
     getaddr_last_response_unix := ∅ |}.

Definition with_addresses (c : ConnectionManager) (am : AddressManager) : ConnectionManager :=
  {| cm_network := cm_network c; address_manager := am; banlist := banlist c; sessions := sessions c;
     getaddr_last_response_unix := getaddr_last_response_unix c |}.
Definition with_sessions (c : ConnectionManager) (m : gmap bytes PeerSession) : ConnectionManager :=
  {| cm_network := cm_network c; address_manager := address_manager c; banlist := banlist c; sessions := m;
     getaddr_last_response_unix := getaddr_last_response_unix c |}.
Definition with_bans (c : ConnectionManager) (bl : BanList) : ConnectionManager :=
  {| cm_network := cm_network c; address_manager := address_manager c; banlist := bl; sessions := sessions c;
     getaddr_last_response_unix := getaddr_last_response_unix c |}.
Definition with_getaddr (c : ConnectionManager) (m : gmap bytes Z) : ConnectionManager :=
  {| cm_network := cm_network c; address_manager := address_manager c; banlist := banlist c; sessions := sessions c;
     getaddr_last_response_unix := m |}.
Definition limits_of (c : ConnectionManager) : P2pLimits := network_limits (cm_network c).

(* src: connection.rs:122-124 ConnectionManager::add_manual_peer *)
Definition add_manual_peer (c : ConnectionManager) (remote_addr : bytes) : ConnectionManager :=
  with_addresses c (AddressManager.add_manual_peer (address_manager c) remote_addr).
(* src: connection.rs:136-145 ConnectionManager::note_gossip_addresses_from_source *)
Definition note_gossip_addresses_from_source (c : ConnectionManager) (source_peer : bytes)
    (addresses : list PeerAddress) (public_source : bool) (now : Z) :
    ConnectionManager * result ConnectionError (list PeerAddress) :=
  let '(am, verdict) := AddressManager.note_gossip_addresses_from_source (address_manager c) (Some source_peer)
                          addresses public_source now in
  (with_addresses c am, map_err ProtocolFailure verdict).
(* src: connection.rs:126-134 ConnectionManager::note_gossip_addresses *)
Definition note_gossip_addresses (c : ConnectionManager) (addresses : list PeerAddress) (public_source : bool) (now : Z) :
    ConnectionManager * result ConnectionError (list PeerAddress) :=
  let '(am, verdict) := AddressManager.note_gossip_addresses (address_manager c) addresses public_source now in
  (with_addresses c am, map_err ProtocolFailure verdict).

Definition count_of (c : ConnectionManager) (d : ConnectionDirection) : Z :=
  Z.of_nat (size (filter (fun ps : bytes * PeerSession => direction ps.2 = d) (sessions c))).
(* src: connection.rs:412-417 ConnectionManager::inbound_count *)
Definition inbound_count (c : ConnectionManager) : Z := count_of c InboundPeer.
(* src: connection.rs:419-424 ConnectionManager::outbound_count *)
Definition outbound_count (c : ConnectionManager) : Z := count_of c OutboundPeer.
(* src: connection.rs:408-410 ConnectionManager::peer_count *)
Definition peer_count (c : ConnectionManager) : Z := Z.of_nat (size (sessions c)).

(* src: connection.rs:147-169 ConnectionManager::accept_inbound *)
Definition accept_inbound (c : ConnectionManager) (remote_addr : bytes) (now : Z) :
    ConnectionManager * result ConnectionError unit :=
  if bool_decide (is_Some (sessions c !! remote_addr)) then (c, Err PeerAlreadyConnected)
  else if BanList.is_banned (banlist c) remote_addr now then (c, Err BannedPeer)
  else if max_inbound_peers (limits_of c) <=? inbound_count c then (c, Err InboundLimitReached)
  else (with_sessions c (<[remote_addr := {| direction := InboundPeer; handshake := HandshakeState.inbound (cm_network c) |}]>
                           (sessions c)), Ok tt).

(** A requested action, as an event of the session's peer. *)
Definition action_event (remote_addr : bytes) (a : HandshakeAction) : ConnectionEvent :=
  match a with
  | Send message => SendTo remote_addr message
  | Ready best_height => PeerIsReady remote_addr best_height
  end.

(* src: connection.rs:171-208 ConnectionManager::open_outbound *)
Definition open_outbound (c : ConnectionManager) (remote_addr : bytes) (local_version : NetworkMessage) (now : Z) :
    ConnectionManager * result ConnectionError (list ConnectionEvent) :=
  if bool_decide (is_Some (sessions c !! remote_addr)) then (c, Err PeerAlreadyConnected)
  else if BanList.is_banned (banlist c) remote_addr now then (c, Err BannedPeer)
  else if max_outbound_peers (limits_of c) <=? outbound_count c then (c, Err OutboundLimitReached)
  else
    match HandshakeState.outbound (cm_network c) local_version with
    | Err e => (c, Err (ProtocolFailure e))
    | Ok (hs, actions) =>
        (with_sessions c (<[remote_addr := {| direction := OutboundPeer; handshake := hs |}]> (sessions c)),
         Ok (action_event remote_addr <$> actions))
    end.

(* src: connection.rs:390-406 ConnectionManager::relay_addresses_for_peer *)
Definition relay_addresses_for_peer (c : ConnectionManager) (remote_addr : bytes) (now : Z) : list PeerAddress :=
  let l := limits_of c in
  let share_limit := Z.min (Z.max (Z.min USIZE_MAX (max_outbound_peers l * 8)) 8) (max_addr_per_message l) in
  filter (fun a => format_remote_addr a <> remote_addr /\ BanList.is_banned (banlist c) (format_remote_addr a) now = false)
    (AddressManager.relay_addresses (address_manager c) share_limit now).

(** The handshake part of [receive], for a session that is not ready. *)
Definition receive_handshake (c : ConnectionManager) (remote_addr : bytes) (session : PeerSession)
    (message local_version : NetworkMessage) (now : Z) :
    ConnectionManager * result ConnectionError (list ConnectionEvent) :=
  let '(hs, verdict) := HandshakeState.receive (handshake session) message local_version in
  let c := with_sessions c (<[remote_addr := {| direction := direction session; handshake := hs |}]> (sessions c)) in
  match verdict with
  | Ok actions =>
      let events := Ok (action_event remote_addr <$> actions) in
      match remote_version hs with
      | Some version =>
          if bool_decide (direction session = OutboundPeer) then
            let '(am, stored) := AddressManager.accept_version (address_manager c) remote_addr version now in
            (with_addresses c am, match stored with Ok _ => events | Err e => Err (ProtocolFailure e) end)
          else (c, events)
      | None => (c, events)
      end
  | Err e =>
      let '(bl, banned) := BanList.record_at (banlist c) remote_addr 50 now in
      (with_sessions (with_bans c bl) (delete remote_addr (sessions c)),
       if (banned : bool) then Ok [Disconnect remote_addr e] else Err (ProtocolFailure e))
  end.

(* src: connection.rs:210-301 ConnectionManager::receive *)
Definition receive (c : ConnectionManager) (remote_addr : bytes) (message local_version : NetworkMessage) (now : Z) :
    ConnectionManager * result ConnectionError (list ConnectionEvent) :=
  if BanList.is_banned (banlist c) remote_addr now then (c, Err BannedPeer)
  else
    match sessions c !! remote_addr with
    | None => (c, Err UnknownPeer)
    | Some session =>
        if negb (HandshakeState.is_ready (handshake session))
        then receive_handshake c remote_addr session message local_version now
        else
          match payload message with
          | Ping nonce => (c, Ok [SendTo remote_addr (NetworkMessage.new (cm_network c) (Pong nonce))])
          | GetAddr =>
              if match getaddr_last_response_unix c !! remote_addr with
                 | Some last => saturating_sub now last <? getaddr_response_cooldown_secs (limits_of c)
                 | None => false
                 end then (c, Ok [])
              else
                let c := with_getaddr c (<[remote_addr := now]> (getaddr_last_response_unix c)) in
                (c, Ok [SendTo remote_addr (NetworkMessage.new (cm_network c)
                                              (Addr (relay_addresses_for_peer c remote_addr now)))])
          | _ => (c, Ok [Message remote_addr message])
          end
    end.

Definition map_session (c : ConnectionManager) (remote_addr : bytes) (f : HandshakeState -> HandshakeState) : ConnectionManager :=
  with_sessions c (alter (fun s => {| direction := direction s; handshake := f (handshake s) |}) remote_addr (sessions c)).
(* src: connection.rs:326-330 ConnectionManager::note_peer_tip *)
Definition note_peer_tip (c : ConnectionManager) (remote_addr : bytes) (h : Z) (tip_hash : Hash48) : ConnectionManager :=
  map_session c remote_addr (fun hs => HandshakeState.note_remote_tip hs h tip_hash).
(* src: connection.rs:332-336 ConnectionManager::replace_peer_tip *)
Definition replace_peer_tip (c : ConnectionManager) (remote_addr : bytes) (h : Z) (tip_hash : Hash48) : ConnectionManager :=
  map_session c remote_addr (fun hs => HandshakeState.replace_remote_tip hs h tip_hash).

(* src: connection.rs:354-356 ConnectionManager::record_misbehavior *)
Definition record_misbehavior (c : ConnectionManager) (remote_addr : bytes) (points now : Z) : ConnectionManager * bool :=
  let '(bl, banned) := BanList.record_at (banlist c) remote_addr points now in (with_bans c bl, banned).
(* src: connection.rs:382-384 ConnectionManager::disconnect *)
Definition disconnect (c : ConnectionManager) (remote_addr : bytes) : ConnectionManager * bool :=
  (with_sessions c (delete remote_addr (sessions c)), bool_decide (is_Some (sessions c !! remote_addr))).

(** [session.handshake.remote_version()] of a peer. *)
(* src: connection.rs:344-348 ConnectionManager::remote_version *)
Definition remote_version_of (c : ConnectionManager) (remote_addr : bytes) : option VersionMessage :=
  s ← sessions c !! remote_addr; remote_version (handshake s).
(* src: connection.rs:303-310 ConnectionManager::remote_best_height *)
Definition remote_best_height (c : ConnectionManager) (remote_addr : bytes) : option Z :=
  v_best_height <$> remote_version_of c remote_addr.
(* src: connection.rs:312-317 ConnectionManager::remote_tip_hash *)
Definition remote_tip_hash (c : ConnectionManager) (remote_addr : bytes) : option Hash48 :=
  v_tip_hash <$> remote_version_of c remote_addr.
(* src: connection.rs:319-324 ConnectionManager::remote_chainwork *)
Definition remote_chainwork (c : ConnectionManager) (remote_addr : bytes) : option Hash48 :=
  v_chainwork <$> remote_version_of c remote_addr.
(* src: connection.rs:338-342 ConnectionManager::direction *)
Definition direction_of (c : ConnectionManager) (remote_addr : bytes) : option ConnectionDirection :=
  direction <$> sessions c !! remote_addr.
(* src: connection.rs:350-352 ConnectionManager::has_peer *)
Definition has_peer (c : ConnectionManager) (remote_addr : bytes) : bool := bool_decide (is_Some (sessions c !! remote_addr)).
(* src: connection.rs:358-360 ConnectionManager::ban_score *)
Definition ban_score (c : ConnectionManager) (remote_addr : bytes) : Z := BanList.score_of (banlist c) remote_addr.
(* src: connection.rs:362-364 ConnectionManager::banned_count *)
Definition banned_count (c : ConnectionManager) (now : Z) : Z := BanList.banned_count (banlist c) now.
(* src: connection.rs:366-368 ConnectionManager::known_peer_count *)
Definition known_peer_count (c : ConnectionManager) : Z := AddressManager.peer_count (address_manager c).
(* src: connection.rs:378-380 ConnectionManager::last_getaddr_time_unix *)
Definition last_getaddr_time_unix (c : ConnectionManager) : option Z :=
  match (sorted_entries bytes_le (getaddr_last_response_unix c)).*2 with
  | [] => None
  | t :: ts => Some (foldl Z.max t ts)
  end.
(* src: connection.rs:426-445 ConnectionManager::peer_snapshots *)
Definition peer_snapshots (c : ConnectionManager) : list PeerSessionSnapshot :=
  (fun rs => let v := remote_version (handshake rs.2) in
     {| sn_remote_addr := rs.1; sn_direction := direction rs.2;
        sn_handshake_ready := HandshakeState.is_ready (handshake rs.2); sn_best_height := v_best_height <$> v;
        sn_tip_hash := v_tip_hash <$> v; sn_chainwork := v_chainwork <$> v;
        sn_protocol_version := v_protocol_version <$> v; sn_services := v_services <$> v;
        sn_user_agent := v_user_agent <$> v; sn_ruleset_version := v_ruleset_version <$> v |})
  <$> sorted_entries bytes_le (sessions c).

(** ** Histories *)

Inductive call :=
| AcceptInbound (remote_addr : bytes) (now : Z)
| OpenOutbound (remote_addr : bytes) (local_version : NetworkMessage) (now : Z)
| ReceiveFrom (remote_addr : bytes) (message local_version : NetworkMessage) (now : Z)
| NotePeerTip (remote_addr : bytes) (h : Z) (tip_hash : Hash48)
| ReplacePeerTip (remote_addr : bytes) (h : Z) (tip_hash : Hash48)
| Misbehavior (remote_addr : bytes) (points now : Z)
| Hangup (remote_addr : bytes)
| GossipFrom (source_peer : bytes) (addresses : list PeerAddress) (public_source : bool) (now : Z)
| AddManual (remote_addr : bytes).

(** The state after a call and the events it returns. *)
Definition make (c : ConnectionManager) (k : call) : ConnectionManager * list ConnectionEvent :=
  match k with
  | AcceptInbound r now => ((accept_inbound c r now).1, [])
  | OpenOutbound r local now =>
      let '(c, v) := open_outbound c r local now in (c, match v with Ok evs => evs | Err _ => [] end)
  | ReceiveFrom r message local now =>
      let '(c, v) := receive c r message local now in (c, match v with Ok evs => evs | Err _ => [] end)
  | NotePeerTip r h tip => (note_peer_tip c r h tip, [])
  | ReplacePeerTip r h tip => (replace_peer_tip c r h tip, [])
  | Misbehavior r points now => ((record_misbehavior c r points now).1, [])
  | Hangup r => ((disconnect c r).1, [])
  | GossipFrom s addresses public_source now => ((note_gossip_addresses_from_source c s addresses public_source now).1, [])
  | AddManual r => (add_manual_peer c r, [])
  end.
End manager.
End ConnectionManager.

Import ConnectionManager.

(** ** Counting sessions *)

Definition count_in (d : ConnectionDirection) (m : gmap bytes PeerSession) : Z :=
  Z.of_nat (size (filter (fun ps : bytes * PeerSession => direction ps.2 = d) m)).
Definition goes (d : ConnectionDirection) (s : PeerSession) : Z := if decide (direction s = d) then 1 else 0.

Lemma count_insert d m r s : count_in d (<[r := s]> m) = count_in d (delete r m) + goes d s.
Proof.
  unfold count_in, goes. destruct (decide (direction s = d)) as [Hd|Hd].
  - rewrite map_filter_insert_True by done. rewrite <- insert_delete_eq, map_filter_delete.
    rewrite map_size_insert_None by apply lookup_delete_eq. lia.
  - rewrite map_filter_insert_False by done. lia.
Qed.
Lemma count_delete d m r : count_in d (delete r m) = count_in d m - match m !! r with Some s => goes d s | None => 0 end.
Proof.
  destruct (m !! r) as [s|] eqn:E; [|rewrite delete_id by done; lia].
  pose proof (count_insert d m r s) as H. rewrite insert_id in H by done. lia.
Qed.
(** A session that keeps its direction leaves the counts as they are. *)
Lemma count_update d m r s s' : m !! r = Some s -> direction s' = direction s -> count_in d (<[r := s']> m) = count_in d m.
Proof. intros Hm Hd. rewrite count_insert, count_delete, Hm. unfold goes. rewrite Hd. lia. Qed.
Lemma count_open d m r s : m !! r = None -> count_in d (<[r := s]> m) = count_in d m + goes d s.
Proof. intros Hm. rewrite count_insert, count_delete, Hm. lia. Qed.
Lemma count_close d m r : count_in d (delete r m) <= count_in d m.
Proof. rewrite count_delete. unfold goes. destruct (m !! r); [case_decide|]; lia. Qed.

(** ** The invariant *)

Section safety.
Context `{Henv : ProcessEnv, Hs : Sha3}.
#[local] Set Default Proof Using "All".

Lemma receive_keeps_ok n st message local_version :
  state_ok n st -> state_ok n (HandshakeState.receive st message local_version).1.
Proof.
  intros Hok. destruct (decide (nm_network local_version = n)) as [Hl|Hl].
  - destruct (HandshakeState.receive st message local_version) as [st' v] eqn:E.
    by apply (receive_progress n local_version Hl) in E as [? _ _ _ _ _].
  - unfold HandshakeState.receive. rewrite (ok_network _ _ Hok), (bool_decide_false (nm_network local_version = n)) by done.
    cbn [negb]. by rewrite orb_true_r.
Qed.
Lemma retip_keeps_ok n st (f : VersionMessage -> VersionMessage) :
  state_ok n st -> (forall v, f v = v \/ exists h tip, f v = HandshakeState.with_tip v h tip) ->
  state_ok n (HandshakeState.with_version st (f <$> remote_version st)).
Proof.
  intros Hok Hf.
  by apply (retip_progress n (NetworkMessage.new n Verack) eq_refl (HandshakeState.NoteTip 0 []) st f Hok) in Hf as [? _ _ _ _ _].
Qed.
Lemma inbound_ok n : state_ok n (HandshakeState.inbound n).
Proof. by split. Qed.
Lemma outbound_ok n local_version hs actions :
  HandshakeState.outbound n local_version = Ok (hs, actions) -> state_ok n hs.
Proof. unfold HandshakeState.outbound. destruct (payload local_version); try done. intros [= <- _]. by split. Qed.

(** Every session's handshake is in order, and neither kind is over its limit. *)
Record connections_ok (n : Network) (c : ConnectionManager) : Prop := {
  cok_network : cm_network c = n;
  cok_inbound : inbound_count c <= max_inbound_peers (network_limits n);
  cok_outbound : outbound_count c <= max_outbound_peers (network_limits n);
  cok_sessions : forall r s, sessions c !! r = Some s -> state_ok n (handshake s);
}.

Lemma connections_keep n c c' :
  connections_ok n c -> cm_network c' = cm_network c ->
  (forall d, count_in d (sessions c') <= count_in d (sessions c)) ->
  (forall r s, sessions c' !! r = Some s -> state_ok n (handshake s)) -> connections_ok n c'.
Proof.
  intros [Hn Hi Ho Hss] Hn' Hcount Hss'. pose proof (Hcount InboundPeer) as HI. pose proof (Hcount OutboundPeer) as HO.
  split; [congruence| | |done].
  - etrans; [exact HI|exact Hi].
  - etrans; [exact HO|exact Ho].
Qed.
Lemma connections_same n c c' :
  connections_ok n c -> cm_network c' = cm_network c -> sessions c' = sessions c -> connections_ok n c'.
Proof.
  intros Hok Hn Hsame. apply (connections_keep n c); [done|done| |]; rewrite Hsame; [done|apply (cok_sessions _ _ Hok)].
Qed.
Lemma connections_update n c r s s' :
  connections_ok n c -> sessions c !! r = Some s -> direction s' = direction s -> state_ok n (handshake s') ->
  connections_ok n (with_sessions c (<[r := s']> (sessions c))).
Proof.
  intros Hok Hr Hd Hs'. apply (connections_keep n c); [done|done| |].
  - intros d. cbn. by rewrite (count_update d _ r s).
  - intros r' s0. cbn. intros [[<- <-]|[_ H0]]%lookup_insert_Some; [done|by apply (cok_sessions _ _ Hok r')].
Qed.
Lemma connections_close n c r : connections_ok n c -> connections_ok n (with_sessions c (delete r (sessions c))).
Proof.
  intros Hok. apply (connections_keep n c); [done|done|intros d; apply count_close|].
  intros r' s. cbn. intros [_ H0]%lookup_delete_Some. by apply (cok_sessions _ _ Hok r').
Qed.

Lemma new_connections_ok n : connections_ok n (new n).
Proof.
  split; [done| | |].
  - unfold network_limits, network_params, runtime_limits. cbn [limits]. destruct (env_var _ ≫= _) as [total|]; [|by vm_compute].
    cbn. unfold inbound_count, count_of. cbn. rewrite map_filter_empty, map_size_empty. lia.
  - unfold network_limits, network_params, runtime_limits. cbn [limits]. destruct (env_var _ ≫= _) as [total|]; [|by vm_compute].
    cbn. unfold outbound_count, count_of. cbn. rewrite map_filter_empty, map_size_empty. pose proof (clamp_bounds (clamp total 8 512 / 5) 2 128). lia.
  - intros r s. cbn. by rewrite lookup_empty.
Qed.

Lemma connections_open n c r s :
  connections_ok n c -> sessions c !! r = None -> state_ok n (handshake s) ->
  (direction s = InboundPeer -> inbound_count c < max_inbound_peers (network_limits n)) ->
  (direction s = OutboundPeer -> outbound_count c < max_outbound_peers (network_limits n)) ->
  connections_ok n (with_sessions c (<[r := s]> (sessions c))).
Proof.
  intros [Hn Hi Ho Hss] Hr Hs' HI HO.
  assert (forall d l, count_in d (sessions c) <= l -> (direction s = d -> count_in d (sessions c) < l) ->
    count_in d (<[r := s]> (sessions c)) <= l) as Hopen.
  { intros d l Hle Hlt. rewrite count_open by done. unfold goes. case_decide as Hd; [specialize (Hlt Hd)|]; lia. }
  split; [done|by apply Hopen|by apply Hopen|].
  cbn. intros r' s' [[<- <-]|[_ H0]]%lookup_insert_Some; [done|by apply (Hss r')].
Qed.
Lemma accept_inbound_ok n c r now : connections_ok n c -> connections_ok n (accept_inbound c r now).1.
Proof.
  intros Hok. unfold accept_inbound. case_bool_decide as Hr; [done|]. destruct (BanList.is_banned _ _ _); [done|].
  destruct (_ <=? _) eqn:Hlim; [done|]. apply Z.leb_gt in Hlim. apply eq_None_not_Some in Hr.
  unfold limits_of in Hlim. rewrite (cok_network _ _ Hok) in *. apply connections_open; [done|done|apply inbound_ok|done|done].
Qed.
Lemma open_outbound_ok n c r local now : connections_ok n c -> connections_ok n (open_outbound c r local now).1.
Proof.
  intros Hok. unfold open_outbound. case_bool_decide as Hr; [done|]. destruct (BanList.is_banned _ _ _); [done|].
  destruct (_ <=? _) eqn:Hlim; [done|]. apply Z.leb_gt in Hlim. apply eq_None_not_Some in Hr.
  unfold limits_of in Hlim. rewrite (cok_network _ _ Hok) in *.
  destruct (HandshakeState.outbound n local) as [[hs actions]|e] eqn:E; [|done]. apply outbound_ok in E.
  by apply connections_open.
Qed.

(** The error of a failed handshake closes the session; otherwise it stays, with
    the handshake's new state. *)
Lemma receive_handshake_sessions c r session message local now :
  let hs := (HandshakeState.receive (handshake session) message local).1 in
  let c' := (receive_handshake c r session message local now).1 in
  cm_network c' = cm_network c
  /\ (sessions c' = <[r := {| direction := direction session; handshake := hs |}]> (sessions c)
      \/ sessions c' = delete r (sessions c)).
Proof.
  unfold receive_handshake. destruct (HandshakeState.receive _ _ _) as [hs [actions|e]]; cbn [fst].
  - destruct (remote_version hs); [|by split; [|left]]. case_bool_decide; [|by split; [|left]].
    destruct (AddressManager.accept_version _ _ _ _) as [am stored]. by split; [|left].
  - destruct (BanList.record_at _ _ _ _) as [bl banned]. split; [done|right]. cbn. apply delete_insert_eq.
Qed.
Lemma receive_ok n c r message local now : connections_ok n c -> connections_ok n (receive c r message local now).1.
Proof.
  intros Hok. unfold receive. destruct (BanList.is_banned _ _ _); [done|].
  destruct (sessions c !! r) as [session|] eqn:Er; [|done]. destruct (negb _).
  - pose proof (receive_handshake_sessions c r session message local now) as [Hn [Hm|Hm]].
    + apply (connections_same _ (with_sessions c (sessions (receive_handshake c r session message local now).1))); [|done|done].
      rewrite Hm. apply connections_update with session; [done|done|done|].
      apply receive_keeps_ok. by apply (cok_sessions _ _ Hok r).
    + apply (connections_same _ (with_sessions c (delete r (sessions c)))); [|done|done]. by apply connections_close.
  - destruct (payload message); try done. destruct (match _ with Some _ => _ | None => _ end); [done|].
    by apply (connections_same _ c).
Qed.
Lemma alter_present (f : PeerSession -> PeerSession) (m : gmap bytes PeerSession) (r : bytes) s : m !! r = Some s -> alter f r m = <[r := f s]> m.
Proof.
  intros Hm. apply map_eq. intros r'. destruct (decide (r = r')) as [<-|Hne].
  - by rewrite lookup_alter_eq, lookup_insert_eq, Hm.
  - by rewrite lookup_alter_ne, lookup_insert_ne.
Qed.
Lemma alter_absent (f : PeerSession -> PeerSession) (m : gmap bytes PeerSession) (r : bytes) : m !! r = None -> alter f r m = m.
Proof.
  intros Hm. apply map_eq. intros r'. destruct (decide (r = r')) as [<-|Hne].
  - by rewrite lookup_alter_eq, Hm.
  - by rewrite lookup_alter_ne.
Qed.
Lemma map_session_ok n c r f :
  connections_ok n c -> (forall hs, state_ok n hs -> state_ok n (f hs)) -> connections_ok n (map_session c r f).
Proof.
  intros Hok Hf. unfold map_session. destruct (sessions c !! r) as [s|] eqn:Er.
  - rewrite (alter_present _ _ _ s) by done. apply connections_update with s; [done|done|done|].
    apply Hf. by apply (cok_sessions _ _ Hok r).
  - rewrite alter_absent by done. by apply (connections_same _ c).
Qed.

Lemma make_ok n c k : connections_ok n c -> connections_ok n (make c k).1.
Proof.
  intros Hok. destruct k; cbn [make fst].
  - by apply accept_inbound_ok.
  - pose proof (open_outbound_ok n c remote_addr local_version now Hok). by destruct (open_outbound _ _ _ _).
  - pose proof (receive_ok n c remote_addr message local_version now Hok). by destruct (receive _ _ _ _ _).
  - apply map_session_ok; [done|]. intros hs Hhs. apply retip_keeps_ok; [done|]. intros v. destruct (_ <=? _); eauto.
  - apply map_session_ok; [done|]. intros hs Hhs. apply retip_keeps_ok; [done|]. eauto.
  - unfold record_misbehavior. destruct (BanList.record_at _ _ _ _). by apply (connections_same _ c).
  - by apply connections_close.
  - unfold note_gossip_addresses_from_source. destruct (AddressManager.note_gossip_addresses_from_source _ _ _ _ _).
    by apply (connections_same _ c).
  - by apply (connections_same _ c).
Qed.
End safety.

(** ** What reaches the node *)

(** The state and the events after a list of calls. *)
Fixpoint history `{Henv : ProcessEnv, Hs : Sha3} (c : ConnectionManager) (ks : list call) : ConnectionManager * list ConnectionEvent :=
  match ks with
  | [] => (c, [])
  | k :: ks => let '(c, evs) := make c k in let '(c, later) := history c ks in (c, evs ++ later)
  end.

Section delivery.
Context `{Henv : ProcessEnv, Hs : Sha3}.
#[local] Set Default Proof Using "All".

Lemma history_ok n ks c : connections_ok n c -> connections_ok n (history c ks).1.
Proof.
  revert c. induction ks as [|k ks IH]; intros c Hok; [done|]. cbn [history].
  pose proof (make_ok n c k Hok) as Hk. destruct (make c k) as [c1 evs]. specialize (IH c1 Hk).
  by destruct (history c1 ks).
Qed.

(** A peer whose handshake is complete, with what its version must say. *)
Definition admitted_session (n : Network) (s : PeerSession) : Prop :=
  HandshakeState.is_ready (handshake s) = true
  /\ exists v, remote_version (handshake s) = Some v /\ v_network v = n /\ v_genesis_hash v = genesis_hash n
     /\ MIN_SUPPORTED_PROTOCOL_VERSION <= v_protocol_version v /\ v_min_protocol_version v <= PROTOCOL_VERSION.

Lemma ready_session n st : state_ok n st -> HandshakeState.is_ready st = true ->
  exists v, remote_version st = Some v /\ v_network v = n /\ v_genesis_hash v = genesis_hash n
     /\ MIN_SUPPORTED_PROTOCOL_VERSION <= v_protocol_version v /\ v_min_protocol_version v <= PROTOCOL_VERSION.
Proof.
  intros Hok Hr. unfold HandshakeState.is_ready in Hr. rewrite (ok_ready _ _ Hok) in Hr. apply (ok_seen _ _ Hok) in Hr.
  unfold has_version in Hr. destruct (remote_version st) as [v|] eqn:Ev; [|done].
  exists v. split; [done|]. by apply (ok_remote _ _ Hok).
Qed.

Definition is_message (e : ConnectionEvent) : bool := match e with Message _ _ => true | _ => false end.
Lemma actions_quiet (r : bytes) (actions : list HandshakeAction) (e : ConnectionEvent) : e ∈ action_event r <$> actions -> is_message e = false.
Proof. intros (a & -> & _)%list_elem_of_fmap. by destruct a. Qed.
Lemma handshake_quiet c r session message local now c' evs e :
  receive_handshake c r session message local now = (c', Ok evs) -> e ∈ evs -> is_message e = false.
Proof.
  unfold receive_handshake. destruct (HandshakeState.receive _ _ _) as [hs [actions|err]].
  - destruct (remote_version hs); [case_bool_decide|]; [|intros [= _ <-]; apply actions_quiet..].
    destruct (AddressManager.accept_version _ _ _ _) as [am [?|?]]; [|done]. intros [= _ <-]. apply actions_quiet.
  - destruct (BanList.record_at _ _ _ _) as [bl [|]]; [|done]. intros [= _ <-] ->%list_elem_of_singleton. done.
Qed.

(** A message is handed to the node as it came, only from the peer that sent it,
    and only when that peer is neither banned nor before the end of its handshake. *)
Lemma delivered_message c r message local now c' evs p m :
  receive c r message local now = (c', Ok evs) -> Message p m ∈ evs ->
  p = r /\ m = message /\ c' = c /\ BanList.is_banned (banlist c) r now = false
  /\ exists s, sessions c !! r = Some s /\ HandshakeState.is_ready (handshake s) = true.
Proof.
  unfold receive. destruct (BanList.is_banned _ _ _); [done|]. destruct (sessions c !! r) as [s|]; [|done].
  destruct (HandshakeState.is_ready (handshake s)) eqn:Er; cbn [negb].
  2: { intros Hrun Hin. by pose proof (handshake_quiet _ _ _ _ _ _ _ _ _ Hrun Hin). }
  assert (forall v : result ConnectionError (list ConnectionEvent), v = Ok [Message r message] -> (c, v) = (c', Ok evs) ->
    Message p m ∈ evs -> p = r /\ m = message /\ c' = c) as Hone.
  { intros v -> [= <- <-] [= <- <-]%list_elem_of_singleton. done. }
  destruct (payload message).
  all: try (intros Hrun Hin; destruct (Hone _ eq_refl Hrun Hin) as (-> & -> & ->); split_and!; eauto; fail).
  - intros [= _ <-] [=]%list_elem_of_singleton.
  - destruct (match _ with Some _ => _ | None => _ end); intros [= _ <-]; [by intros ?%elem_of_nil|].
    intros [=]%list_elem_of_singleton.
Qed.

(** C20: Whatever calls a connection manager serves, from its start: sessions of each
    direction stay within the limit of that direction; and a message reaches the node
    only as a peer sent it in that very call, when the peer is not banned and its
    handshake is complete with a version of this network, this genesis and
    compatible protocol versions. *)
Theorem connection_safety (n : Network) (ks : list call) :
  let c := (history (new n) ks).1 in
  inbound_count c <= max_inbound_peers (network_limits n)
  /\ outbound_count c <= max_outbound_peers (network_limits n)
  /\ forall k p m, Message p m ∈ (make c k).2 ->
       exists local now s, k = ReceiveFrom p m local now /\ BanList.is_banned (banlist c) p now = false
         /\ sessions c !! p = Some s /\ admitted_session n s /\ (make c k).1 = c.
Proof.
  intros c. assert (connections_ok n c) as Hok by apply history_ok, new_connections_ok.
  split_and!; [apply (cok_inbound _ _ Hok)|apply (cok_outbound _ _ Hok)|]. intros k p m Hin.
  destruct k as [| |r message local now| | | | | |]; cbn [make snd fst] in *; try by apply elem_of_nil in Hin.
  - destruct (open_outbound c remote_addr local_version now) as [c' [evs|e]] eqn:E; cbn [snd] in Hin; [|by apply elem_of_nil in Hin].
    exfalso. unfold open_outbound in E. case_bool_decide; [done|]. destruct (BanList.is_banned _ _ _); [done|].
    destruct (_ <=? _); [done|]. destruct (HandshakeState.outbound _ _) as [[hs actions]|?]; [|done].
    injection E as _ <-. by apply actions_quiet in Hin.
  - destruct (receive c r message local now) as [c' [evs|e]] eqn:E; cbn [snd] in Hin; [|by apply elem_of_nil in Hin].
    destruct (delivered_message _ _ _ _ _ _ _ _ _ E Hin) as (-> & -> & -> & Hban & s & Hsess & Hr).
    exists local, now, s. split_and!; [done|done|done| |done]. split; [done|].
    apply ready_session; [by apply (cok_sessions _ _ Hok r)|done].
Qed.

(** A call in the name of a banned peer has no effect and is refused; and a banned
    peer without a session gets none. *)
Theorem banned_peers_get_nothing (c : ConnectionManager) r message local now :
  BanList.is_banned (banlist c) r now = true ->
  receive c r message local now = (c, Err BannedPeer)
  /\ (sessions c !! r = None -> accept_inbound c r now = (c, Err BannedPeer)
                               /\ open_outbound c r local now = (c, Err BannedPeer)).
Proof.
  intros Hb. unfold receive, accept_inbound, open_outbound. rewrite Hb. split; [done|]. intros ->.
  by rewrite bool_decide_false by (by intros [? ?]).
Qed.

Lemma version_remembered n st v local st' verdict :
  hs_network st = n -> nm_network local = n -> remote_version st = None -> validate_version_message v n = Ok tt ->
  HandshakeState.receive st (NetworkMessage.new n (Version v)) local = (st', verdict) -> remote_version st' = Some v.
Proof.
  intros Hn Hl Ev Hv. unfold HandshakeState.receive. cbn [nm_network payload NetworkMessage.new].
  rewrite Hn, Hl, !bool_decide_true, Ev, Hv by done. cbn [negb orb]. unfold HandshakeState.settle.
  cbn [remote_version ready local_verack_sent remote_verack_seen].
  by destruct (negb _ && _ && _); intros [= <- _].
Qed.
(** A failed handshake normally closes the session. Not so when the address book is
    full: an outbound peer's valid version is then an error that leaves its session
    open, with version and verack marked as sent although the verack is lost, and
    the address cannot be connected again. *)
Theorem full_book_keeps_failed_session (n : Network) (c : ConnectionManager) (r : bytes) (s : PeerSession) local v now :
  state_ok n (handshake s) -> nm_network local = n -> pb_network (am_peers (address_manager c)) = n ->
  sessions c !! r = Some s -> direction s = OutboundPeer -> remote_version (handshake s) = None ->
  BanList.is_banned (banlist c) r now = false -> validate_version_message v n = Ok tt ->
  PeerBook.full (am_peers (address_manager c)) = true -> known_peers (am_peers (address_manager c)) !! r = None ->
  let c' := (receive c r (NetworkMessage.new n (Version v)) local now).1 in
  (receive c r (NetworkMessage.new n (Version v)) local now).2 = Err (ProtocolFailure PeerBookFull)
  /\ (exists s', sessions c' !! r = Some s' /\ local_verack_sent (handshake s') = true)
  /\ (open_outbound c' r local now).2 = Err PeerAlreadyConnected.
Proof.
  intros Hok Hl Hpn Hr Hd Hv Hban Hvalid Hfull Hnew. unfold receive. rewrite Hban, Hr.
  assert (HandshakeState.is_ready (handshake s) = false) as ->.
  { destruct (HandshakeState.is_ready (handshake s)) eqn:E; [|done].
    apply (ready_session n) in E as (v' & Ev & _); [congruence|done]. }
  cbn [negb]. pose proof (version_progress n local Hl (handshake s) v Hok Hv Hvalid) as Hp. unfold receive_handshake.
  destruct (HandshakeState.receive _ _ _) as [hs verdict] eqn:E. destruct Hp as (actions & -> & [Hok' _ _ Hhv _ _]).
  apply (version_remembered n) in E; [|apply Hok|done..]. rewrite E, bool_decide_true by done.
  unfold AddressManager.accept_version, PeerBook.accept_version. cbn [address_manager with_sessions].
  rewrite Hpn, Hvalid, Hnew, Hfull. rewrite (bool_decide_false (is_Some None)) by by intros [? ?].
  cbn [negb andb fst snd]. split; [done|]. split.
  - cbn. rewrite lookup_insert_eq. eexists. split; [done|]. cbn. rewrite (ok_verack_sent _ _ Hok').
    unfold has_version. by rewrite E.
  - unfold open_outbound. cbn. rewrite lookup_insert_eq. by rewrite bool_decide_true.
Qed.
End delivery.

(** ** Witness *)

Definition sample_peer : bytes := str_bytes "9.9.9.9:9100".
Definition sample_calls : list call :=
  [AcceptInbound sample_peer 100; ReceiveFrom sample_peer sample_version sample_version 101;
   ReceiveFrom sample_peer (NetworkMessage.new Testnet Verack) sample_version 102].
Definition sample_pong : NetworkMessage := NetworkMessage.new Testnet (Pong 7).

Lemma connection_safety_witness :
  exists local now s, ReceiveFrom sample_peer sample_pong sample_version 103 = ReceiveFrom sample_peer sample_pong local now
    /\ sessions (history (Henv:=fun _ => None) (Hs:=checksum_sha3) (new Testnet) sample_calls).1 !! sample_peer = Some s
    /\ admitted_session (Hs:=checksum_sha3) Testnet s.
Proof.
  destruct (proj2 (proj2 (connection_safety (Henv:=fun _ => None) (Hs:=checksum_sha3) Testnet sample_calls))
    (ReceiveFrom sample_peer sample_pong sample_version 103) sample_peer sample_pong) as (local & now & s & Hk & _ & Hr & Ha & _).
  - assert ((make (Henv:=fun _ => None) (Hs:=checksum_sha3)
        (history (Henv:=fun _ => None) (Hs:=checksum_sha3) (new Testnet) sample_calls).1 (ReceiveFrom sample_peer sample_pong sample_version 103)).2
      = [Message sample_peer sample_pong]) as -> by (vm_compute; reflexivity).
    by apply list_elem_of_singleton.
  - exists local, now, s. by split_and!.
Defined.
