(* ===== verification/Relay.v ===== *)
(** * The relay loop

    crates/atho-p2p/src/relay.rs: the version a node announces, the target it
    synchronizes to as its chain and its peers progress, and its announcements.
    [honest_peers_become_ready] runs the handshakes of two nodes against each
    other over two queues. *)
From stdpp Require Import options.
From S2P Require Import Prelude Bytes Text Constants Crypto Keccak Network Rules Transaction Block Pow Genesis P2pConfig.
From S2P Require Import Protocol Handshake HeadersSync IpAddr AddressManager.

#[local] Set Default Proof Using "Type*".

(* src: relay.rs:18-24 RelayLoop *)
Record RelayLoop := {
  rl_network : Network;
  rl_params : NetworkParams;
  rl_peers : PeerBook;
  rl_sync : SyncState;
}.

Module RelayLoop.
Section relay.
Context `{Henv : ProcessEnv, Hs : Sha3}.

(* src: relay.rs:27-34 RelayLoop::new *)
Definition new (n : Network) : RelayLoop :=
  {| rl_network := n; rl_params := network_params n; rl_peers := PeerBook.new n; rl_sync := SyncState.initial |}.
Definition with_sync (r : RelayLoop) (s : SyncState) : RelayLoop :=
  {| rl_network := rl_network r; rl_params := rl_params r; rl_peers := rl_peers r; rl_sync := s |}.
Definition with_book (r : RelayLoop) (pb : PeerBook) : RelayLoop :=
  {| rl_network := rl_network r; rl_params := rl_params r; rl_peers := pb; rl_sync := rl_sync r |}.

(* src: relay.rs:36-47 RelayLoop::prime *)
Definition prime (r : RelayLoop) (blocks : list Block) : option RelayLoop :=
  with_sync r <$> SyncState.prime (rl_sync r) blocks.
(* src: relay.rs:49-51 RelayLoop::add_manual_peer *)
Definition add_manual_peer (r : RelayLoop) (remote_addr : bytes) : RelayLoop :=
  with_book r (PeerBook.add_manual_peer (rl_peers r) remote_addr).
(* src: relay.rs:53-56 RelayLoop::note_address *)
Definition note_address (r : RelayLoop) (a : PeerAddress) : RelayLoop * result ProtocolError unit :=
  let '(pb, verdict) := PeerBook.note_address (rl_peers r) a in
  (with_book r pb, match verdict with Ok _ => Ok tt | Err e => Err e end).

(** [now] is the clock. *)
(* src: relay.rs:58-81 RelayLoop::build_version_message *)
Definition build_version_message (r : RelayLoop) (now best_height : Z) (tip_hash chainwork : Hash48) : NetworkMessage :=
  NetworkMessage.new (rl_network r) (Version
    {| v_protocol_version := protocol_version (rl_params r);
       v_min_protocol_version := min_supported_protocol_version (rl_params r); v_services := LOCAL_NODE_SERVICES;
       v_timestamp_unix := now; v_network := rl_network r; v_user_agent := str_bytes "/Atho:0.1.0/";
       v_best_height := best_height; v_ruleset_version := ruleset_version_at_height best_height; v_relay := true;
       v_genesis_hash := genesis_hash (rl_network r); v_tip_hash := tip_hash; v_chainwork := chainwork |}).

(* src: relay.rs:83-100 RelayLoop::prime_with_locator *)
Definition prime_with_locator (r : RelayLoop) (h : Z) (tip : option Hash48) (locator : list Hash48) : RelayLoop :=
  with_sync r (SyncState.prime_with_locator (rl_sync r) h tip locator).
(* src: relay.rs:102-124 RelayLoop::prime_with_locator_and_chainwork *)
Definition prime_with_locator_and_chainwork (r : RelayLoop) (h : Z) (tip chainwork : option Hash48)
    (locator : list Hash48) : RelayLoop :=
  with_sync r (SyncState.prime_with_locator_and_chainwork (rl_sync r) h tip chainwork locator).

(* src: relay.rs:126-146 RelayLoop::accept_version *)
Definition accept_version (r : RelayLoop) (remote_addr : bytes) (version : VersionMessage) (now : Z) :
    RelayLoop * result ProtocolError unit :=
  let '(pb, verdict) := PeerBook.accept_version (rl_peers r) remote_addr version now in
  let r := with_book r pb in
  match verdict with
  | Err e => (r, Err e)
  | Ok _ => (with_sync r (SyncState.observe_tip (rl_sync r) (v_best_height version) (Some (v_tip_hash version))
                            (Some (v_chainwork version))).1, Ok tt)
  end.

(* src: relay.rs:148-151 RelayLoop::build_getheaders *)
Definition build_getheaders (r : RelayLoop) (peer : bytes) : RelayLoop * NetworkMessage :=
  let '(s, message) := SyncState.request_headers (rl_sync r) peer Hash48_ZERO in
  (with_sync r s, NetworkMessage.new (rl_network r) (GetHeaders message)).

(* src: relay.rs:158-161 RelayLoop::reseed_locator_hashes *)
Definition reseed_locator_hashes (r : RelayLoop) (locator : list Hash48) : RelayLoop :=
  let s := SyncState.with_locator (rl_sync r) locator in
  with_sync r (SyncState.with_requests s None (requested_locator_hashes s) (requested_locator_hashes_by_peer s)).
(* src: relay.rs:153-156 RelayLoop::reseed_locator_from_local_tip *)
Definition reseed_locator_from_local_tip (r : RelayLoop) (blocks : list Block) : option RelayLoop :=
  reseed_locator_hashes r <$> block_locator blocks.
(* src: relay.rs:163-165 RelayLoop::mark_headers_unsynced *)
Definition mark_headers_unsynced (r : RelayLoop) : RelayLoop := with_sync r (SyncState.with_synced (rl_sync r) false).
(* src: relay.rs:167-169 RelayLoop::mark_headers_synced *)
Definition mark_headers_synced (r : RelayLoop) : RelayLoop := with_sync r (SyncState.with_synced (rl_sync r) true).

(* src: relay.rs:171-173 RelayLoop::accept_headers *)
Definition accept_headers (r : RelayLoop) (headers : list BlockHeader) : RelayLoop * result ProtocolError unit :=
  let '(s, verdict) := SyncState.accept_headers (rl_sync r) (rl_network r) headers in (with_sync r s, verdict).
(* src: relay.rs:175-182 RelayLoop::accept_headers_from_peer *)
Definition accept_headers_from_peer (r : RelayLoop) (peer : bytes) (headers : list BlockHeader) :
    RelayLoop * result ProtocolError unit :=
  let '(s, verdict) := SyncState.accept_headers_from_peer (rl_sync r) peer (rl_network r) headers in (with_sync r s, verdict).

(** ** The target *)

(** The target with another height, or another tip. *)
Definition with_height (s : SyncState) (h : Z) : SyncState :=
  SyncState.with_target s {| ct_height := h; ct_tip := best_tip s; ct_chainwork := best_chainwork s |} (headers_synced s).
Definition with_tip (s : SyncState) (tip : option Hash48) : SyncState :=
  SyncState.with_target s {| ct_height := best_height s; ct_tip := tip; ct_chainwork := best_chainwork s |} (headers_synced s).

(** The height and the hash of the last block. *)
Definition local_height (blocks : list Block) : Z := match last blocks with Some b => height (header b) | None => 0 end.
Definition local_tip (blocks : list Block) : option Hash48 := (fun b => BlockHeader.block_hash (header b)) <$> last blocks.

(* src: relay.rs:192-216 RelayLoop::note_local_chain_progress_at *)
Definition note_local_chain_progress_at (r : RelayLoop) (local_best_height : Z) (local_tip : option Hash48)
    (peer_best_height : option Z) : RelayLoop :=
  let s := rl_sync r in
  let s := with_height s (Z.max (Z.max (best_height s) (default local_best_height peer_best_height)) local_best_height) in
  let s :=
    match local_tip with
    | Some tip =>
        let s := if (best_height s <=? local_best_height) || bool_decide (locator_hashes s = [])
                 then SyncState.with_locator s (promote tip (locator_hashes s)) else s in
        if best_height s <=? local_best_height then with_tip s (Some tip) else s
    | None => s
    end in
  with_sync r (if best_height s <=? local_best_height
               then SyncState.note_local_tip s local_best_height local_tip None else s).
(* src: relay.rs:184-190 RelayLoop::note_local_chain_progress *)
Definition note_local_chain_progress (r : RelayLoop) (blocks : list Block) (peer_best_height : option Z) : RelayLoop :=
  note_local_chain_progress_at r (local_height blocks) (local_tip blocks) peer_best_height.

(* src: relay.rs:218-226 RelayLoop::note_local_tip_at *)
Definition note_local_tip_at (r : RelayLoop) (h : Z) (tip chainwork : option Hash48) : RelayLoop :=
  with_sync r (SyncState.note_local_tip (rl_sync r) h tip chainwork).
(* src: relay.rs:228-236 RelayLoop::observe_tip_at *)
Definition observe_tip_at (r : RelayLoop) (h : Z) (tip chainwork : option Hash48) : RelayLoop * bool :=
  let '(s, changed) := SyncState.observe_tip (rl_sync r) h tip chainwork in (with_sync r s, changed).

(* src: relay.rs:251-266 RelayLoop::note_observed_tip_at *)
Definition note_observed_tip_at (r : RelayLoop) (local_best_height : Z) (local_tip : option Hash48)
    (observed_height : Z) (observed_tip : Hash48) : RelayLoop :=
  let s := (SyncState.observe_tip (rl_sync r) observed_height (Some observed_tip) None).1 in
  with_sync r (if SyncState.local_tip_satisfies_target s local_best_height local_tip None
               then SyncState.note_local_tip s local_best_height local_tip None else s).
(* src: relay.rs:238-249 RelayLoop::note_observed_tip *)
Definition note_observed_tip (r : RelayLoop) (blocks : list Block) (observed_height : Z) (observed_tip : Hash48) : RelayLoop :=
  note_observed_tip_at r (local_height blocks) (local_tip blocks) observed_height observed_tip.

(* src: relay.rs:276-301 RelayLoop::refresh_sync_target_at *)
Definition refresh_sync_target_at (r : RelayLoop) (local_best_height : Z) (local_tip : option Hash48)
    (peer_best_height : option Z) : RelayLoop :=
  let s := rl_sync r in
  let previous_best_height := best_height s in
  let target_height := Z.max (Z.max (default local_best_height peer_best_height) local_best_height) previous_best_height in
  let target_advanced := previous_best_height <? target_height in
  let s := with_height s target_height in
  let s := if best_height s <=? local_best_height then SyncState.note_local_tip s local_best_height local_tip None
           else if target_advanced then SyncState.with_synced s false else s in
  with_sync r (if headers_synced s && (best_height s <=? local_best_height)
               then with_tip (SyncState.clear_requested_header_locators s) local_tip else s).
(* src: relay.rs:268-274 RelayLoop::refresh_sync_target *)
Definition refresh_sync_target (r : RelayLoop) (blocks : list Block) (peer_best_height : option Z) : RelayLoop :=
  refresh_sync_target_at r (local_height blocks) (local_tip blocks) peer_best_height.

(* src: relay.rs:303-323 RelayLoop::reset_sync_target_at *)
Definition reset_sync_target_at (r : RelayLoop) (local_best_height : Z) (local_tip : option Hash48)
    (peer_best_height : option Z) : RelayLoop :=
  let target_height := Z.max (default local_best_height peer_best_height) local_best_height in
  let s := with_height (rl_sync r) target_height in
  with_sync r
    (if target_height <=? local_best_height then
       let s := SyncState.note_local_tip s local_best_height local_tip None in
       match local_tip with
       | Some tip => SyncState.with_locator s (promote tip (locator_hashes s))
       | None => s
       end
     else SyncState.with_synced s false).

(** ** Announcements *)

(* src: relay.rs:325-344 RelayLoop::relay_block *)
Definition relay_block (r : RelayLoop) (block_hash : Hash48) : NetworkMessage :=
  NetworkMessage.new (rl_network r) (Inv [{| iv_kind := InvBlock; iv_hash := block_hash |}]).
(* src: relay.rs:346-364 RelayLoop::relay_transaction *)
Definition relay_transaction (r : RelayLoop) (txid : Hash48) : NetworkMessage :=
  NetworkMessage.new (rl_network r) (Inv [{| iv_kind := InvTransaction; iv_hash := txid |}]).
(* src: relay.rs:370-372 RelayLoop::peer_count *)
Definition peer_count (r : RelayLoop) : Z := PeerBook.peer_count (rl_peers r).
(* src: relay.rs:374-376 RelayLoop::dns_seed_count *)
Definition dns_seed_count (r : RelayLoop) : Z := zlen (dns_seeds (rl_params r)).
End relay.
End RelayLoop.

Import RelayLoop.

(** ** The synchronization target *)

Section target.
Context `{Henv : ProcessEnv, Hs : Sha3}.

(** The local chain has reached the target, as far as its height says. *)
Lemma local_reached s h tip :
  best_height s <= h ->
  SyncState.note_local_tip s h tip None
  = SyncState.clear_requested_header_locators
      (SyncState.with_target s {| ct_height := h; ct_tip := tip; ct_chainwork := best_chainwork s |} true).
Proof.
  intros Hle. unfold SyncState.note_local_tip, compare_tip_candidates. cbn [known_chainwork ct_chainwork ct_height SyncState.target].
  destruct (h ?= best_height s) eqn:E; [done| |done]. change (h < best_height s) in E. lia.
Qed.
Lemma promote_spec tip locator : head (promote tip locator) = Some tip /\ (length (promote tip locator) <= 32)%nat.
Proof. split; [done|]. unfold promote. rewrite length_take. lia. Qed.

(** What a node still waits for: nothing, once its chain has reached the target. *)
Record reached (s : SyncState) (h : Z) (tip : option Hash48) : Prop := {
  re_height : best_height s = h;
  re_synced : headers_synced s = true;
  re_tip : best_tip s = tip;
  re_idle : inflight_headers_peer s = None /\ requested_locator_hashes_by_peer s = ∅;
}.
Lemma local_reached_spec s h tip : best_height s <= h -> reached (SyncState.note_local_tip s h tip None) h tip.
Proof. intros Hle. rewrite local_reached by done. by split. Qed.

Lemma progress_spec r h tip peer :
  let target := Z.max (best_height (rl_sync r)) (Z.max (default h peer) h) in
  let s := rl_sync (note_local_chain_progress_at r h tip peer) in
  best_height s = target
  /\ (target = h -> reached s h tip /\ forall t, tip = Some t -> head (locator_hashes s) = Some t)
  /\ (h < target -> headers_synced s = headers_synced (rl_sync r)).
Proof.
  intros target. unfold note_local_chain_progress_at. cbn [rl_sync with_sync].
  rewrite <- Z.max_assoc. fold target. assert (h <= target) by lia. clearbody target.
  destruct (decide (target = h)) as [Ht|Ht].
  - assert ((best_height (with_height (rl_sync r) target) <=? h) = true) as Hle by (cbn; lia).
    destruct tip as [tip|]; [|rewrite Hle].
    + rewrite Hle. cbn [orb]. change (best_height (SyncState.with_locator _ _)) with target.
      rewrite (proj2 (Z.leb_le target h)) by lia. change (best_height (with_tip _ _)) with target.
      rewrite (proj2 (Z.leb_le target h)) by lia. rewrite local_reached by (cbn; lia).
      split_and!; [by cbn|by split|lia]. 
    + rewrite local_reached by (cbn; lia). split_and!; [by cbn|by split|lia].
  - assert (target <=? h = false) as Hgt by lia.
    set (s := with_height (rl_sync r) target). assert (best_height s = target) as Hs' by done.
    assert (headers_synced s = headers_synced (rl_sync r)) as Hsync by done. clearbody s.
    destruct tip as [tip|].
    + rewrite Hs', Hgt. cbn [orb]. destruct (bool_decide _);
        cbn [best_height SyncState.with_locator]; rewrite Hs', Hgt; cbn [best_height SyncState.with_locator]; rewrite Hs', Hgt;
        by split_and!.
    + rewrite Hs', Hgt. by split_and!.
Qed.

Lemma refresh_spec r h tip peer :
  let target := Z.max (best_height (rl_sync r)) (Z.max (default h peer) h) in
  let s := rl_sync (refresh_sync_target_at r h tip peer) in
  best_height s = target
  /\ (target = h -> reached s h tip)
  /\ (h < target -> headers_synced s = headers_synced (rl_sync r) && (best_height (rl_sync r) =? target)).
Proof.
  intros target. unfold refresh_sync_target_at. cbn [rl_sync with_sync]. rewrite (Z.max_comm _ (best_height (rl_sync r))).
  fold target. assert (h <= target /\ best_height (rl_sync r) <= target) as [? ?] by lia. clearbody target.
  change (best_height (with_height _ target)) with target. destruct (decide (target = h)) as [Ht|Ht].
  - rewrite (proj2 (Z.leb_le target h)) by lia. rewrite local_reached by (cbn; lia). cbn. rewrite Z.leb_refl.
    split_and!; [by cbn|by split|lia].
  - assert (target <=? h = false) as Hgt by lia. rewrite Hgt. destruct (_ <? target) eqn:Ea; cbn.
    + split_and!; [done|lia|]. intros _. rewrite (proj2 (Z.eqb_neq _ _)) by lia. by rewrite andb_false_r.
    + rewrite Hgt, andb_false_r. cbn. split_and!; [done|lia|]. intros _.
      rewrite (proj2 (Z.eqb_eq _ _)) by lia. by rewrite andb_true_r.
Qed.

Lemma reset_spec r h tip peer :
  let known := Z.max (default h peer) h in
  let s := rl_sync (reset_sync_target_at r h tip peer) in
  best_height s = known
  /\ (known = h -> reached s h tip /\ forall t, tip = Some t -> head (locator_hashes s) = Some t)
  /\ (h < known -> headers_synced s = false).
Proof.
  intros known. unfold reset_sync_target_at. cbn [rl_sync with_sync]. fold known.
  assert (h <= known) by lia. clearbody known. destruct (known <=? h) eqn:E.
  - rewrite local_reached by (cbn; lia). destruct tip as [tip|]; cbn; (split_and!; [lia|by split|lia]).
  - cbn. split_and!; [done|lia|done].
Qed.

(** The target height a node synchronizes to. Progress and refresh never lower it:
    it becomes the greatest of itself, the local chain and the best peer; a reset takes
    the greater of the last two only. A local chain that reaches the target is in
    sync, is the target, and has no request outstanding; one that does not is out of
    sync after a reset, and after a refresh unless the target stood still. *)
Theorem sync_target_follows (r : RelayLoop) (h : Z) (tip : option Hash48) (peer : option Z) :
  let known := Z.max (default h peer) h in
  let target := Z.max (best_height (rl_sync r)) known in
  let progress := rl_sync (note_local_chain_progress_at r h tip peer) in
  let refreshed := rl_sync (refresh_sync_target_at r h tip peer) in
  let reset := rl_sync (reset_sync_target_at r h tip peer) in
  (best_height progress = target /\ best_height refreshed = target /\ best_height reset = known)
  /\ (target = h -> reached progress h tip /\ reached refreshed h tip
        /\ forall t, tip = Some t -> head (locator_hashes progress) = Some t)
  /\ (h < target -> headers_synced progress = headers_synced (rl_sync r)
        /\ headers_synced refreshed = headers_synced (rl_sync r) && (best_height (rl_sync r) =? target))
  /\ (known = h -> reached reset h tip /\ forall t, tip = Some t -> head (locator_hashes reset) = Some t)
  /\ (h < known -> headers_synced reset = false).
Proof.
  intros known target progress refreshed reset.
  destruct (progress_spec r h tip peer) as (P1 & P2 & P3), (refresh_spec r h tip peer) as (R1 & R2 & R3),
    (reset_spec r h tip peer) as (S1 & S2 & S3).
  split_and!; [done..| |by split; [apply P3|apply R3]|done|done].
  intros Ht. destruct (P2 Ht) as [? ?]. by split_and!; [|apply R2|].
Qed.
End target.

(** ** Two nodes shake hands *)

(** Two handshakes joined by two queues, with the readiness each has announced. *)
Record Wire := {
  w_a : HandshakeState;
  w_b : HandshakeState;
  to_a : list NetworkMessage;
  to_b : list NetworkMessage;
  ready_a : list Z;
  ready_b : list Z;
}.
Definition sent_messages (actions : list HandshakeAction) : list NetworkMessage :=
  omap (fun a => match a with Send m => Some m | Ready _ => None end) actions.
Definition announced (actions : list HandshakeAction) : list Z :=
  omap (fun a => match a with Ready h => Some h | Send _ => None end) actions.

Inductive side := SideA | SideB.

Section honest.
Context `{Henv : ProcessEnv, Hs : Sha3}.

(** The first message of a side's queue, if any, is received; [None] when the
    handshake refuses it. *)
Definition deliver (version_a version_b : NetworkMessage) (w : Wire) (turn : side) : option Wire :=
  match turn with
  | SideA =>
      match to_a w with
      | [] => Some w
      | m :: rest =>
          match HandshakeState.receive (w_a w) m version_a with
          | (st, Ok actions) =>
              Some {| w_a := st; w_b := w_b w; to_a := rest; to_b := to_b w ++ sent_messages actions;
                      ready_a := ready_a w ++ announced actions; ready_b := ready_b w |}
          | (_, Err _) => None
          end
      end
  | SideB =>
      match to_b w with
      | [] => Some w
      | m :: rest =>
          match HandshakeState.receive (w_b w) m version_b with
          | (st, Ok actions) =>
              Some {| w_a := w_a w; w_b := st; to_a := to_a w ++ sent_messages actions; to_b := rest;
                      ready_a := ready_a w; ready_b := ready_b w ++ announced actions |}
          | (_, Err _) => None
          end
      end
  end.
Definition deliveries (version_a version_b : NetworkMessage) (w : Wire) (turns : list side) : option Wire :=
  foldl (fun w turn => w ≫= fun w => deliver version_a version_b w turn) (Some w) turns.

(** B connects to A. *)
Definition dial (n : Network) (version_b : NetworkMessage) : option Wire :=
  match HandshakeState.outbound n version_b with
  | Ok (st, actions) =>
      Some {| w_a := HandshakeState.inbound n; w_b := st; to_a := sent_messages actions; to_b := [];
              ready_a := []; ready_b := announced actions |}
  | Err _ => None
  end.

(** What a node of the network announces of itself is a valid version. *)
Lemma own_version_valid (n : Network) now h tip work :
  exists v, build_version_message (new n) now h tip work = NetworkMessage.new n (Version v)
    /\ validate_version_message v n = Ok tt /\ v_best_height v = h.
Proof.
  eexists. split; [reflexivity|]. split; [|reflexivity]. unfold validate_version_message.
  cbn [v_network v_protocol_version v_min_protocol_version v_user_agent v_genesis_hash v_ruleset_version v_best_height new rl_network].
  rewrite !bool_decide_true, Z.eqb_refl by done. cbn [negb].
  assert (max_user_agent_bytes (limits (network_params n)) <? zlen (str_bytes "/Atho:0.1.0/") = false) as ->.
  { unfold network_params, runtime_limits. cbn [limits]. destruct (env_var _ ≫= _); reflexivity. }
  reflexivity.
Qed.
End honest.

Section phases.
Context `{Henv : ProcessEnv, Hs : Sha3}.
Context (n : Network) (va vb : VersionMessage).
Context (Hva : validate_version_message va n = Ok tt) (Hvb : validate_version_message vb n = Ok tt).
#[local] Set Default Proof Using "All".

Definition Ma : NetworkMessage := NetworkMessage.new n (Version va).
Definition Mb : NetworkMessage := NetworkMessage.new n (Version vb).
Definition Mack : NetworkMessage := NetworkMessage.new n Verack.

(** How far the exchange is: nothing received; A has B's version; B has A's version;
    then A, or B, or both have the other's verack. *)
Inductive phase := Dialled | Greeted | Answered | OnlyA | OnlyB | Settled.
Definition next (p : phase) (turn : side) : phase :=
  match p, turn with
  | Dialled, SideA => Greeted
  | Greeted, SideB => Answered
  | Answered, SideA => OnlyA
  | Answered, SideB => OnlyB
  | OnlyA, SideB => Settled
  | OnlyB, SideA => Settled
  | p, _ => p
  end.

Definition state (d : HandshakeDirection) (sent acked : bool) (v : option VersionMessage) (seen : bool) : HandshakeState :=
  {| hs_network := n; hs_direction := d; local_version_sent := sent; local_verack_sent := acked;
     remote_version := v; remote_verack_seen := seen; ready := seen |}.
Definition wire_at (p : phase) : Wire :=
  match p with
  | Dialled => {| w_a := state Inbound false false None false; w_b := state Outbound true false None false;
                  to_a := [Mb]; to_b := []; ready_a := []; ready_b := [] |}
  | Greeted => {| w_a := state Inbound true true (Some vb) false; w_b := state Outbound true false None false;
                  to_a := []; to_b := [Ma; Mack]; ready_a := []; ready_b := [] |}
  | Answered => {| w_a := state Inbound true true (Some vb) false; w_b := state Outbound true true (Some va) false;
                   to_a := [Mack]; to_b := [Mack]; ready_a := []; ready_b := [] |}
  | OnlyA => {| w_a := state Inbound true true (Some vb) true; w_b := state Outbound true true (Some va) false;
                to_a := []; to_b := [Mack]; ready_a := [v_best_height vb]; ready_b := [] |}
  | OnlyB => {| w_a := state Inbound true true (Some vb) false; w_b := state Outbound true true (Some va) true;
                to_a := [Mack]; to_b := []; ready_a := []; ready_b := [v_best_height va] |}
  | Settled => {| w_a := state Inbound true true (Some vb) true; w_b := state Outbound true true (Some va) true;
                  to_a := []; to_b := []; ready_a := [v_best_height vb]; ready_b := [v_best_height va] |}
  end.

Lemma deliver_phase p turn : deliver Ma Mb (wire_at p) turn = Some (wire_at (next p turn)).
Proof.
  destruct p, turn; cbn [deliver wire_at to_a to_b next]; try reflexivity.
  all: unfold HandshakeState.receive, Ma, Mb, Mack; cbn [nm_network payload NetworkMessage.new w_a w_b state hs_network remote_version].
  all: rewrite !bool_decide_true by done; cbn [negb orb]; rewrite ?Hva, ?Hvb; reflexivity.
Qed.
Lemma deliveries_phase turns p : deliveries Ma Mb (wire_at p) turns = Some (wire_at (foldl next p turns)).
Proof.
  unfold deliveries. revert p. induction turns as [|turn turns IH]; intros p; [done|].
  cbn [foldl]. cbn [mbind option_bind]. rewrite deliver_phase. apply IH.
Qed.

(** A turn that is due is taken: if it leads from [Q] to [R], both kept, then a
    schedule that has it does. *)
Lemma turn_taken (Q R : phase -> Prop) (due : side) :
  (forall p turn, Q p -> Q (next p turn)) -> (forall p turn, R p -> R (next p turn)) ->
  (forall p, Q p -> R (next p due)) ->
  forall turns p, Q p -> due ∈ turns -> R (foldl next p turns).
Proof.
  intros HQ HR Hdue turns. assert (forall ts p, R p -> R (foldl next p ts)) as Hkeep.
  { induction ts; intros p Hp; [done|]. cbn. auto. }
  induction turns as [|turn turns IH]; intros p Hp Hin; [by apply elem_of_nil in Hin|]. cbn.
  apply elem_of_cons in Hin as [->|Hin]; [by apply Hkeep, Hdue|]. apply IH; auto.
Qed.
Definition both_turns (round : list side) : Prop := SideA ∈ round /\ SideB ∈ round.

Definition past_dial (p : phase) : Prop := p <> Dialled.
Definition past_greeting (p : phase) : Prop := p <> Dialled /\ p <> Greeted.
Definition a_done (p : phase) : Prop := p = OnlyA \/ p = Settled.
Definition b_done (p : phase) : Prop := p = OnlyB \/ p = Settled.

Lemma three_rounds r1 r2 r3 :
  both_turns r1 -> both_turns r2 -> both_turns r3 -> foldl next Dialled (r1 ++ r2 ++ r3) = Settled.
Proof.
  intros [A1 _] [_ B2] [A3 B3]. rewrite !foldl_app.
  assert (past_dial (foldl next Dialled r1)) as H1.
  { apply (turn_taken (fun _ => True) past_dial SideA); [done| | |done|done]; intros []; try intros []; done. }
  generalize dependent (foldl next Dialled r1). intros p H1.
  assert (past_greeting (foldl next p r2)) as H2.
  { apply (turn_taken past_dial past_greeting SideB); [intros [] []|intros [] []|intros []|done|done];
      unfold past_dial, past_greeting; cbn; intuition congruence. }
  generalize dependent (foldl next p r2). intros q H2.
  assert (a_done (foldl next q r3) /\ b_done (foldl next q r3)) as [[Ha|Ha] [Hb|Hb]]; [|congruence..].
  split; [apply (turn_taken past_greeting a_done SideA)|apply (turn_taken past_greeting b_done SideB)];
    (intros [] [] || intros [] || idtac); try done; unfold past_greeting, a_done, b_done; cbn; intuition congruence.
Qed.
End phases.

Section ready.
Context `{Henv : ProcessEnv, Hs : Sha3}.

(** C21: Two nodes of a network that announce themselves and are connected become
    ready: whatever their heights and tips, and however the deliveries interleave,
    no message is refused; and after three rounds with a turn of each, both
    handshakes are ready, each remembers the other's version and announced it once
    with the other's height, and nothing is left in flight. *)
Theorem honest_peers_become_ready (n : Network) now_a now_b h_a h_b tip_a tip_b work_a work_b :
  let version_a := build_version_message (new n) now_a h_a tip_a work_a in
  let version_b := build_version_message (new n) now_b h_b tip_b work_b in
  exists w, dial n version_b = Some w
    /\ (forall turns, is_Some (deliveries version_a version_b w turns))
    /\ forall r1 r2 r3, both_turns r1 -> both_turns r2 -> both_turns r3 ->
         exists w', deliveries version_a version_b w (r1 ++ r2 ++ r3) = Some w'
           /\ HandshakeState.is_ready (w_a w') = true /\ HandshakeState.is_ready (w_b w') = true
           /\ Some version_b = (fun v => NetworkMessage.new n (Version v)) <$> remote_version (w_a w')
           /\ Some version_a = (fun v => NetworkMessage.new n (Version v)) <$> remote_version (w_b w')
           /\ ready_a w' = [h_b] /\ ready_b w' = [h_a] /\ to_a w' = [] /\ to_b w' = [].
Proof.
  intros version_a version_b.
  destruct (own_version_valid n now_a h_a tip_a work_a) as (va & Ea & Hva & Hha),
    (own_version_valid n now_b h_b tip_b work_b) as (vb & Eb & Hvb & Hhb).
  subst version_a version_b. rewrite Ea, Eb.
  exists (wire_at n va vb Dialled). split_and!; [reflexivity| |].
  - intros turns. eexists. apply (deliveries_phase n va vb Hva Hvb).
  - intros r1 r2 r3 H1 H2 H3. eexists. split; [apply (deliveries_phase n va vb Hva Hvb)|].
    rewrite (three_rounds n va vb Hva Hvb) by done. cbn. rewrite Hha, Hhb. by split_and!.
Qed.
End ready.

Lemma honest_peers_become_ready_witness :
  exists w w', dial Regnet
      (build_version_message (Hs:=checksum_sha3) (new (Henv:=fun _ => None) Regnet) 7 5 Hash48_ZERO Hash48_ZERO) = Some w
    /\ deliveries (Henv:=fun _ => None) (Hs:=checksum_sha3)
        (build_version_message (Hs:=checksum_sha3) (new (Henv:=fun _ => None) Regnet) 8 9 Hash48_ZERO Hash48_ZERO)
        (build_version_message (Hs:=checksum_sha3) (new (Henv:=fun _ => None) Regnet) 7 5 Hash48_ZERO Hash48_ZERO)
        w [SideA; SideB; SideB; SideA; SideB; SideA] = Some w' /\ HandshakeState.is_ready (w_a w') = true.
Proof.
  destruct (honest_peers_become_ready (Henv:=fun _ => None) (Hs:=checksum_sha3) Regnet 8 7 9 5 Hash48_ZERO Hash48_ZERO
    Hash48_ZERO Hash48_ZERO) as (w & Hw & _ & Hrun).
  destruct (Hrun [SideA; SideB] [SideB; SideA] [SideB; SideA]) as (w' & Hw' & Hr & _); [split; set_solver..|].
  exists w, w'. by split_and!.
Defined.
