(* ===== verification/SideBranches.v ===== *)
(** * Side branches

    The pool of blocks that do not extend the tip, from crates/atho-node/src/sync.rs:
    blocks by hash, an index from a parent to its buffered children, and the branches
    that can be read off them. [pool_ok] is the pool's invariant; the node's predicates
    (which blocks are canonical, which branches are preferred) are arguments. *)
From stdpp Require Import options.
From S2P Require Import Prelude Bytes Constants Crypto Keccak Network Rules Transaction Block Pow.

#[local] Set Default Proof Using "Type*".

(* src: node_sync.rs:32-32 MAX_SIDE_BRANCH_BLOCKS *)
Definition MAX_SIDE_BRANCH_BLOCKS : Z := 4096.

(* src: node_sync.rs:189-195 SideBranchBlock *)
Record SideBranchBlock := {
  sb_block : Block;
  sb_peers : gset bytes;
  first_seen_order : Z;
  last_seen_order : Z;
}.
(* src: node_sync.rs:181-187 SideBranchPool *)
Record SideBranchPool := {
  sp_blocks : gmap bytes SideBranchBlock;
  children_by_parent : gmap bytes (gset bytes);
  sp_total_size_bytes : Z;
  next_seen_order : Z;
}.

(** The key by which blocks are evicted, greatest first. *)
Definition eviction_compare (l r : bytes * SideBranchBlock) : comparison :=
  then_with (Z.compare (height (header (sb_block l.2))) (height (header (sb_block r.2))))
  (then_with (Z.compare (last_seen_order l.2) (last_seen_order r.2))
  (then_with (Z.compare (first_seen_order l.2) (first_seen_order r.2)) (bytes_compare l.1 r.1))).
(** [max_by_key]: the last of the greatest entries. *)
Definition greater (best : option (bytes * SideBranchBlock)) (e : bytes * SideBranchBlock) :
    option (bytes * SideBranchBlock) :=
  match best with
  | None => Some e
  | Some b => match eviction_compare e b with Lt => best | _ => Some e end
  end.
Definition max_entry (l : list (bytes * SideBranchBlock)) : option (bytes * SideBranchBlock) := foldl greater None l.

Module SideBranchPool.
Section pool.
Context `{Hs : Sha3}.

Definition empty : SideBranchPool :=
  {| sp_blocks := ∅; children_by_parent := ∅; sp_total_size_bytes := 0; next_seen_order := 0 |}.
Definition children (p : SideBranchPool) (parent : bytes) : gset bytes := default ∅ (children_by_parent p !! parent).

(* src: node_sync.rs:251-268 SideBranchPool::remove *)
Definition remove (p : SideBranchPool) (block_hash : bytes) : SideBranchPool * option Block :=
  match sp_blocks p !! block_hash with
  | None => (p, None)
  | Some entry =>
      let previous_hash := previous_block_hash (header (sb_block entry)) in
      let index :=
        match children_by_parent p !! previous_hash with
        | Some siblings =>
            let siblings := siblings ∖ {[block_hash]} in
            if bool_decide (siblings = ∅) then delete previous_hash (children_by_parent p)
            else <[previous_hash := siblings]> (children_by_parent p)
        | None => children_by_parent p
        end in
      ({| sp_blocks := delete block_hash (sp_blocks p); children_by_parent := index;
          sp_total_size_bytes := saturating_sub (sp_total_size_bytes p) (Block.full_size_bytes (sb_block entry));
          next_seen_order := next_seen_order p |}, Some (sb_block entry))
  end.
(* src: node_sync.rs:270-272 SideBranchPool::get *)
Definition get (p : SideBranchPool) (block_hash : bytes) : option Block := sb_block <$> sp_blocks p !! block_hash.
(* src: node_sync.rs:274-276 SideBranchPool::len *)
Definition len (p : SideBranchPool) : Z := Z.of_nat (size (sp_blocks p)).
(* src: node_sync.rs:278-280 SideBranchPool::is_empty *)
Definition is_empty (p : SideBranchPool) : bool := bool_decide (sp_blocks p = ∅).
(* src: node_sync.rs:282-284 SideBranchPool::total_size_bytes *)
Definition total_size_bytes (p : SideBranchPool) : Z := sp_total_size_bytes p.
(** The entries in the order of the [BTreeMap]. *)
Definition entries (p : SideBranchPool) : list (bytes * SideBranchBlock) := sorted_entries bytes_le (sp_blocks p).
(* src: node_sync.rs:286-291 SideBranchPool::max_height *)
Definition max_height (p : SideBranchPool) : option Z :=
  foldl (fun best e => Some (match best with
                             | None => height (header (sb_block e.2))
                             | Some h => Z.max h (height (header (sb_block e.2)))
                             end)) None (entries p).
(* src: node_sync.rs:293-295 SideBranchPool::block_hashes *)
Definition block_hashes (p : SideBranchPool) : list bytes := (entries p).*1.
(** [children_by_parent.get(hash).is_none_or(BTreeSet::is_empty)]. *)
Definition childless (p : SideBranchPool) (hash : bytes) : bool := bool_decide (children p hash = ∅).
(* src: node_sync.rs:297-313 SideBranchPool::leaf_hashes *)
Definition leaf_hashes (p : SideBranchPool) : list bytes :=
  let leaves := filter (fun hash => childless p hash = true) (block_hashes p) in
  if bool_decide (leaves = []) then block_hashes p else leaves.
(* src: node_sync.rs:360-390 SideBranchPool::eviction_candidate *)
Definition eviction_candidate (p : SideBranchPool) : option bytes :=
  match max_entry (filter (fun e => childless p e.1 = true) (entries p)) with
  | Some e => Some e.1
  | None => fst <$> max_entry (entries p)
  end.
(** The loop: a round removes one block, so [excess] blocks too many take as many
    rounds. *)
(* src: node_sync.rs:352-357 SideBranchPool::enforce_limit (loop) *)
Fixpoint evict_loop (excess : nat) (p : SideBranchPool) : SideBranchPool :=
  match excess with
  | O => p
  | S excess =>
      match eviction_candidate p with
      | None => p
      | Some evict_hash => evict_loop excess (remove p evict_hash).1
      end
  end.
(* src: node_sync.rs:351-358 SideBranchPool::enforce_limit *)
Definition enforce_limit (p : SideBranchPool) : SideBranchPool :=
  evict_loop (Z.to_nat (len p - MAX_SIDE_BRANCH_BLOCKS)) p.

(* src: node_sync.rs:221-249 SideBranchPool::insert *)
Definition insert (p : SideBranchPool) (peer : bytes) (block : Block) : SideBranchPool :=
  let block_hash := BlockHeader.block_hash (header block) in
  let previous_hash := previous_block_hash (header block) in
  let seen_order := saturating_add U64_MAX (next_seen_order p) 1 in
  match sp_blocks p !! block_hash with
  | Some entry =>
      {| sp_blocks := <[block_hash := {| sb_block := sb_block entry; sb_peers := {[peer]} ∪ sb_peers entry;
                                         first_seen_order := first_seen_order entry; last_seen_order := seen_order |}]>
                        (sp_blocks p);
         children_by_parent := children_by_parent p; sp_total_size_bytes := sp_total_size_bytes p;
         next_seen_order := seen_order |}
  | None =>
      enforce_limit
        {| sp_blocks := <[block_hash := {| sb_block := block; sb_peers := {[peer]};
                                           first_seen_order := seen_order; last_seen_order := seen_order |}]>
                          (sp_blocks p);
           children_by_parent := <[previous_hash := {[block_hash]} ∪ children p previous_hash]> (children_by_parent p);
           sp_total_size_bytes := saturating_add USIZE_MAX (sp_total_size_bytes p) (Block.full_size_bytes block);
           next_seen_order := seen_order |}
  end.

Definition remove_all (p : SideBranchPool) (hashes : list bytes) : SideBranchPool :=
  foldl (fun p hash => (remove p hash).1) p hashes.
(* src: node_sync.rs:315-325 SideBranchPool::remove_canonical_blocks *)
Definition remove_canonical_blocks (p : SideBranchPool) (is_canonical : bytes -> bool) : SideBranchPool :=
  remove_all p (filter (fun hash => is_canonical hash = true) (block_hashes p)).

(** The children of [hash], as the stack takes them: the last pushed is popped first. *)
Definition pushed (p : SideBranchPool) (hash : bytes) : list bytes := rev (sorted_elements bytes_le (children p hash)).
(** The traversal, top of the stack first; [None] if it has not ended after [rounds] pops. *)
(* src: node_sync.rs:333-343 SideBranchPool::remove_descendants_of (traversal) *)
Fixpoint descendants_loop (p : SideBranchPool) (rounds : nat) (stack : list bytes) (visited : gset bytes) :
    option (list bytes) :=
  match stack with
  | [] => Some []
  | hash :: stack =>
      match rounds with
      | O => None
      | S rounds =>
          match insert_new hash visited with
          | None => descendants_loop p rounds stack visited
          | Some visited => rest ← descendants_loop p rounds (pushed p hash ++ stack) visited; Some (hash :: rest)
          end
      end
  end.
(** One round per pushed hash: every parent pushes its children once. *)
Definition edges (p : SideBranchPool) : nat := map_fold (fun _ cs n => (size cs + n)%nat) 0%nat (children_by_parent p).
Definition descendant_hashes (p : SideBranchPool) (parent_hash : bytes) : option (list bytes) :=
  descendants_loop p (size (children p parent_hash) + edges p) (pushed p parent_hash) ∅.
(** [hashes.filter_map(|hash| self.remove(&hash)).collect()]. *)
Fixpoint remove_each (p : SideBranchPool) (hashes : list bytes) : SideBranchPool * list Block :=
  match hashes with
  | [] => (p, [])
  | hash :: hashes =>
      let '(p, removed) := remove p hash in
      let '(p, blocks) := remove_each p hashes in
      (p, option_list removed ++ blocks)
  end.
(* src: node_sync.rs:327-349 SideBranchPool::remove_descendants_of *)
Definition remove_descendants_of (p : SideBranchPool) (parent_hash : bytes) : option (SideBranchPool * list Block) :=
  remove_each p <$> descendant_hashes p parent_hash.

(** The walk from a tip down to a canonical parent, collected with the tip first: a
    hash seen before ends it, so no more rounds than there are blocks are walked. *)
(* src: node_sync.rs:2935-2950 NodeSync::buffered_branch_from_tip (loop) *)
Fixpoint branch_walk (p : SideBranchPool) (is_canonical : bytes -> bool) (rounds : nat) (current_hash : bytes)
    (visited : gset bytes) : option (list Block) :=
  match rounds with
  | O => None
  | S rounds =>
      visited ← insert_new current_hash visited;
      block ← get p current_hash;
      let previous_hash := previous_block_hash (header block) in
      if is_canonical previous_hash then Some [block]
      else
        match get p previous_hash with
        | None => None
        | Some _ => rest ← branch_walk p is_canonical rounds previous_hash visited; Some (block :: rest)
        end
  end.
(* src: node_sync.rs:2930-2954 NodeSync::buffered_branch_from_tip *)
Definition buffered_branch_from_tip (p : SideBranchPool) (is_canonical : bytes -> bool) (tip_hash : bytes) :
    option (list Block) :=
  reverse <$> branch_walk p is_canonical (size (sp_blocks p)) tip_hash ∅.

(** The loop over the leaves. *)
Definition better_branch (p : SideBranchPool) (is_canonical : bytes -> bool) (preferred : list Block -> bool)
    (best : option (list Block)) (tip_hash : bytes) : option (list Block) :=
  match buffered_branch_from_tip p is_canonical tip_hash with
  | None => best
  | Some candidate =>
      if negb (preferred candidate) then best
      else match best with
           | None => Some candidate
           | Some current => if branch_is_preferred candidate current then Some candidate else best
           end
  end.
(* src: node_sync.rs:2956-2974 NodeSync::best_buffered_branch *)
Definition best_buffered_branch (p : SideBranchPool) (is_canonical : bytes -> bool) (preferred : list Block -> bool) :
    option (list Block) :=
  foldl (better_branch p is_canonical preferred) None (leaf_hashes p).
End pool.
End SideBranchPool.

(** ** The pool *)

Section invariant.
Context `{Hs : Sha3}.

(** Blocks are kept under their hash, and the index holds exactly their parents. *)
Record indexed (p : SideBranchPool) : Prop := {
  ix_hash h e : sp_blocks p !! h = Some e -> BlockHeader.block_hash (header (sb_block e)) = h;
  ix_children parent h : h ∈ SideBranchPool.children p parent <->
    exists e, sp_blocks p !! h = Some e /\ previous_block_hash (header (sb_block e)) = parent;
  ix_nonempty parent : children_by_parent p !! parent <> Some ∅;
}.
(** The sizes of the buffered blocks, by which the cache is limited. *)
Definition buffered_bytes (p : SideBranchPool) : Z :=
  map_fold (fun _ e n => Block.full_size_bytes (sb_block e) + n) 0 (sp_blocks p).
Record pool_ok (p : SideBranchPool) : Prop := {
  po_indexed : indexed p;
  po_len : SideBranchPool.len p <= MAX_SIDE_BRANCH_BLOCKS;
}.

Lemma children_unindexed p parent : children_by_parent p !! parent = None -> SideBranchPool.children p parent = ∅.
Proof. unfold SideBranchPool.children. by intros ->. Qed.
Lemma remove_blocks p h : sp_blocks (SideBranchPool.remove p h).1 = delete h (sp_blocks p).
Proof.
  unfold SideBranchPool.remove. destruct (sp_blocks p !! h) eqn:E; [done|]. by rewrite delete_id.
Qed.
Lemma remove_block p h : (SideBranchPool.remove p h).2 = SideBranchPool.get p h.
Proof. unfold SideBranchPool.remove, SideBranchPool.get. by destruct (sp_blocks p !! h). Qed.

Lemma remove_children p h parent : indexed p ->
  SideBranchPool.children (SideBranchPool.remove p h).1 parent = SideBranchPool.children p parent ∖ {[h]}.
Proof.
  intros [_ Hc _]. unfold SideBranchPool.remove. destruct (sp_blocks p !! h) as [e|] eqn:E.
  2:{ cbn. enough (h ∉ SideBranchPool.children p parent) by set_solver. rewrite Hc. naive_solver. }
  set (q := previous_block_hash (header (sb_block e))). cbn [fst].
  destruct (decide (parent = q)) as [->|Hne].
  - unfold SideBranchPool.children at 1. cbn [children_by_parent].
    destruct (children_by_parent p !! q) as [cs|] eqn:Eq.
    + unfold SideBranchPool.children. rewrite Eq. cbn. case_bool_decide as Hempty.
      * rewrite lookup_delete_eq. by rewrite Hempty.
      * by rewrite lookup_insert_eq.
    + rewrite (children_unindexed _ _ Eq), Eq. set_solver.
  - assert (h ∉ SideBranchPool.children p parent) as Hnot by (rewrite Hc; naive_solver).
    unfold SideBranchPool.children in *. cbn [children_by_parent].
    destruct (children_by_parent p !! q) as [cs|]; [|set_solver].
    case_bool_decide; rewrite ?lookup_delete_ne, ?lookup_insert_ne by done; set_solver.
Qed.
Lemma remove_indexed p h : indexed p -> indexed (SideBranchPool.remove p h).1.
Proof.
  intros Hp. pose proof Hp as [Hh Hc Hn]. split.
  - intros h' e. rewrite remove_blocks, lookup_delete_Some. intros [_ He]. by apply Hh.
  - intros parent h'. rewrite remove_children, remove_blocks by done. rewrite elem_of_difference, Hc, elem_of_singleton.
    setoid_rewrite lookup_delete_Some. naive_solver.
  - intros parent. unfold SideBranchPool.remove. destruct (sp_blocks p !! h) as [e|]; [|apply Hn].
    cbn. destruct (children_by_parent p !! _) as [cs|]; [|apply Hn]. case_bool_decide as Hempty.
    + rewrite lookup_delete_Some. intros [_ H]. by eapply Hn.
    + rewrite lookup_insert_Some. intros [[_ [=]]|[_ H]]; [done|by eapply Hn].
Qed.
Lemma remove_all_blocks p hashes :
  sp_blocks (SideBranchPool.remove_all p hashes) = filter (fun he => he.1 ∉ hashes) (sp_blocks p).
Proof.
  revert p. induction hashes as [|h hashes IH]; intros p; cbn [SideBranchPool.remove_all foldl].
  - symmetry. apply map_filter_id. intros h e _. apply not_elem_of_nil.
  - fold (SideBranchPool.remove_all (SideBranchPool.remove p h).1 hashes). rewrite IH, remove_blocks, map_filter_delete.
    apply map_eq. intros h'. destruct (decide (h' = h)) as [->|Hne].
    + rewrite lookup_delete_eq. symmetry. apply map_lookup_filter_None. right. intros e _ H. apply H. by left.
    + rewrite lookup_delete_ne by done. apply option_eq. intros e. rewrite !map_lookup_filter_Some. cbn.
      rewrite elem_of_cons. naive_solver.
Qed.
Lemma remove_all_indexed p hashes : indexed p -> indexed (SideBranchPool.remove_all p hashes).
Proof. revert p. induction hashes as [|h hashes IH]; intros p Hp; [done|]. by apply IH, remove_indexed. Qed.

Lemma len_remove p h : SideBranchPool.len (SideBranchPool.remove p h).1 <= SideBranchPool.len p.
Proof. unfold SideBranchPool.len. rewrite remove_blocks. pose proof (map_subseteq_size _ _ (delete_subseteq (sp_blocks p) h)). lia. Qed.
Lemma len_remove_Some p h e : sp_blocks p !! h = Some e ->
  SideBranchPool.len (SideBranchPool.remove p h).1 = SideBranchPool.len p - 1.
Proof.
  intros He. unfold SideBranchPool.len. rewrite remove_blocks, map_size_delete_Some by eauto.
  assert (size (sp_blocks p) <> 0%nat) by (intros H%map_size_empty_inv; by rewrite H in He). lia.
Qed.
Lemma remove_ok p h : pool_ok p -> pool_ok (SideBranchPool.remove p h).1.
Proof. intros [Hi Hl]. split; [by apply remove_indexed|]. pose proof (len_remove p h). lia. Qed.
Lemma remove_all_ok p hashes : pool_ok p -> pool_ok (SideBranchPool.remove_all p hashes).
Proof. revert p. induction hashes as [|h hashes IH]; intros p Hp; [done|]. by apply IH, remove_ok. Qed.
Lemma empty_ok : pool_ok SideBranchPool.empty.
Proof.
  split; [split|]; [by intros ? ?; cbn; rewrite lookup_empty| |by intros ?; cbn; rewrite lookup_empty|done].
  intros parent h. unfold SideBranchPool.children. cbn. setoid_rewrite lookup_empty. set_solver.
Qed.

(** *** The size *)

Definition small (b : Block) : Prop := 0 <= Block.full_size_bytes b <= MAX_BLOCK_RAW_BYTES.
Record sized (p : SideBranchPool) : Prop := {
  sz_total : sp_total_size_bytes p = buffered_bytes p;
  sz_small h e : sp_blocks p !! h = Some e -> small (sb_block e);
}.
Lemma buffered_bytes_split p h e : sp_blocks p !! h = Some e ->
  buffered_bytes p = Block.full_size_bytes (sb_block e) +
    map_fold (fun _ e n => Block.full_size_bytes (sb_block e) + n) 0 (delete h (sp_blocks p)).
Proof.
  intros He. unfold buffered_bytes.
  exact (map_fold_delete_L (fun (_ : bytes) (e : SideBranchBlock) (n : Z) => Block.full_size_bytes (sb_block e) + n) _ _ _ _
    ltac:(intros; cbn; lia) He).
Qed.
Lemma buffered_bytes_insert p q h e : sp_blocks p !! h = None -> sp_blocks q = <[h := e]> (sp_blocks p) ->
  buffered_bytes q = Block.full_size_bytes (sb_block e) + buffered_bytes p.
Proof.
  intros Hh Hq. rewrite (buffered_bytes_split q h e) by by rewrite Hq, lookup_insert_eq.
  by rewrite Hq, delete_insert_id.
Qed.
Lemma sizes_bound (m : gmap bytes SideBranchBlock) : map_Forall (fun _ e => small (sb_block e)) m ->
  0 <= map_fold (fun _ e n => Block.full_size_bytes (sb_block e) + n) 0 m <= Z.of_nat (size m) * MAX_BLOCK_RAW_BYTES.
Proof.
  apply (map_fold_weak_ind (fun n m => map_Forall (fun _ e => small (sb_block e)) m ->
    0 <= n <= Z.of_nat (size m) * MAX_BLOCK_RAW_BYTES)); [by rewrite map_size_empty|].
  intros h e m' n Hh IH Hm. apply map_Forall_insert in Hm as [He Hm]; [|done]. specialize (IH Hm).
  rewrite map_size_insert_None by done. unfold small in He. lia.
Qed.
Lemma remove_sized p h : sized p -> sized (SideBranchPool.remove p h).1.
Proof.
  intros [Ht Hs']. split.
  - unfold buffered_bytes. rewrite remove_blocks. unfold SideBranchPool.remove. destruct (sp_blocks p !! h) as [e|] eqn:He.
    + cbn. rewrite Ht, (buffered_bytes_split _ _ _ He). unfold saturating_sub.
      assert (map_Forall (fun _ e => small (sb_block e)) (delete h (sp_blocks p))) as Hall
        by (intros h' e' [_ He']%lookup_delete_Some; by eapply Hs').
      pose proof (sizes_bound _ Hall). lia.
    + cbn. by rewrite delete_id.
  - intros h' e. rewrite remove_blocks, lookup_delete_Some. intros [_ He]. by eapply Hs'.
Qed.
Lemma remove_all_sized p hashes : sized p -> sized (SideBranchPool.remove_all p hashes).
Proof. revert p. induction hashes as [|h hashes IH]; intros p Hp; [done|]. by apply IH, remove_sized. Qed.

(** *** Eviction *)

Lemma foldl_greater best l e : foldl greater best l = Some e -> best = Some e \/ e ∈ l.
Proof.
  revert best. induction l as [|x l IH]; intros best He; [by left|]. cbn [foldl] in He.
  apply IH in He as [He|He]; [|right; by right]. destruct best as [b|]; cbn in He; [|injection He as <-; right; by left].
  destruct (eviction_compare x b); [injection He as <-; right; by left|by left|injection He as <-; right; by left].
Qed.
Lemma foldl_greater_Some b l : is_Some (foldl greater (Some b) l).
Proof. revert b. induction l as [|x l IH]; intros b; [by eauto|]. cbn. by destruct (eviction_compare x b). Qed.
Lemma max_entry_in l e : max_entry l = Some e -> e ∈ l.
Proof. by intros [|]%foldl_greater. Qed.
Lemma max_entry_None l : max_entry l = None -> l = [].
Proof. destruct l as [|x l]; [done|]. unfold max_entry. cbn. by destruct (foldl_greater_Some x l) as [? ->]. Qed.
Lemma elem_of_pool_entries p h e : (h, e) ∈ SideBranchPool.entries p <-> sp_blocks p !! h = Some e.
Proof. unfold SideBranchPool.entries. by rewrite elem_of_sorted_entries. Qed.
(** What is evicted is buffered, and has no buffered children if any block has none. *)
Lemma eviction_candidate_Some p h : SideBranchPool.eviction_candidate p = Some h ->
  is_Some (sp_blocks p !! h) /\
  ((exists h' e, sp_blocks p !! h' = Some e /\ SideBranchPool.children p h' = ∅) -> SideBranchPool.children p h = ∅).
Proof.
  unfold SideBranchPool.eviction_candidate. destruct (max_entry (filter _ _)) as [[h0 e]|] eqn:E.
  - intros [= <-]. apply max_entry_in, list_elem_of_filter in E as [Hc He]. apply elem_of_pool_entries in He.
    split; [by eauto|]. intros _. by apply bool_decide_eq_true in Hc.
  - apply max_entry_None in E. destruct (max_entry (SideBranchPool.entries p)) as [[h0 e]|] eqn:E'; [|done].
    intros [= <-]. apply max_entry_in, elem_of_pool_entries in E'. split; [by eauto|]. intros (h' & e' & He' & Hc).
    exfalso. eapply (elem_of_not_nil (h', e')); [|exact E]. apply list_elem_of_filter.
    split; [by apply bool_decide_eq_true|by apply elem_of_pool_entries].
Qed.
Lemma eviction_candidate_None p : SideBranchPool.eviction_candidate p = None -> sp_blocks p = ∅.
Proof.
  unfold SideBranchPool.eviction_candidate. destruct (max_entry (filter _ _)); [done|].
  destruct (max_entry (SideBranchPool.entries p)) eqn:E; [done|]. intros _. apply max_entry_None in E.
  apply map_empty. intros h. apply eq_None_not_Some. intros [e He%elem_of_pool_entries]. rewrite E in He. by apply not_elem_of_nil in He.
Qed.

Lemma evict_loop_spec excess p : indexed p -> Z.of_nat excess = Z.max 0 (SideBranchPool.len p - MAX_SIDE_BRANCH_BLOCKS) ->
  pool_ok (SideBranchPool.evict_loop excess p) /\ sp_blocks (SideBranchPool.evict_loop excess p) ⊆ sp_blocks p.
Proof.
  revert p. induction excess as [|excess IH]; intros p Hp Hx; [cbn; split; [split; [done|lia]|done]|]. cbn [SideBranchPool.evict_loop].
  destruct (SideBranchPool.eviction_candidate p) as [h|] eqn:E.
  - apply eviction_candidate_Some in E as [[e He] _].
    destruct (IH (SideBranchPool.remove p h).1) as [H1 H2]; [by apply remove_indexed|rewrite (len_remove_Some _ _ _ He); lia|].
    split; [done|]. etrans; [done|]. rewrite remove_blocks. apply delete_subseteq.
  - apply eviction_candidate_None in E. unfold SideBranchPool.len in Hx. rewrite E, map_size_empty in Hx.
    unfold MAX_SIDE_BRANCH_BLOCKS in Hx. lia.
Qed.
Lemma enforce_limit_spec p : indexed p ->
  pool_ok (SideBranchPool.enforce_limit p) /\ sp_blocks (SideBranchPool.enforce_limit p) ⊆ sp_blocks p.
Proof. intros Hp. apply evict_loop_spec; [done|lia]. Qed.
Lemma enforce_limit_id p : SideBranchPool.len p <= MAX_SIDE_BRANCH_BLOCKS -> SideBranchPool.enforce_limit p = p.
Proof. intros H. unfold SideBranchPool.enforce_limit. by replace (Z.to_nat _) with 0%nat by lia. Qed.

(** The pool with a new block, before the limit is enforced. *)
Lemma grown_indexed p b e size_bytes order : indexed p ->
  sp_blocks p !! BlockHeader.block_hash (header b) = None -> sb_block e = b ->
  indexed {| sp_blocks := <[BlockHeader.block_hash (header b) := e]> (sp_blocks p);
             children_by_parent := <[previous_block_hash (header b) := {[BlockHeader.block_hash (header b)]}
               ∪ SideBranchPool.children p (previous_block_hash (header b))]> (children_by_parent p);
             sp_total_size_bytes := size_bytes; next_seen_order := order |}.
Proof.
  intros [Hh Hc Hn] Hnew <-. split; cbn [sp_blocks children_by_parent].
  - intros h e'. rewrite lookup_insert_Some. intros [[<- <-]|[_ He]]; [done|by apply Hh].
  - intros parent h. unfold SideBranchPool.children at 1. cbn [children_by_parent].
    setoid_rewrite lookup_insert_Some. destruct (decide (previous_block_hash (header (sb_block e)) = parent)) as [<-|Hne].
    + rewrite lookup_insert_eq. cbn. rewrite elem_of_union, elem_of_singleton, Hc. naive_solver.
    + rewrite lookup_insert_ne by done. fold (SideBranchPool.children p parent). rewrite Hc. naive_solver.
  - intros parent. rewrite lookup_insert_Some. intros [[_ H]|[_ H]]; [set_solver|by eapply Hn].
Qed.
Lemma insert_ok p peer b : pool_ok p -> pool_ok (SideBranchPool.insert p peer b).
Proof.
  intros [Hi Hl]. unfold SideBranchPool.insert. destruct (sp_blocks p !! _) as [e|] eqn:E.
  - destruct Hi as [Hh Hc Hn]. split; [split|].
    + intros h e'. cbn. rewrite lookup_insert_Some. intros [[<- <-]|[_ He]]; [by apply (Hh _ e)|by apply Hh].
    + intros parent h. unfold SideBranchPool.children in *. cbn. setoid_rewrite lookup_insert_Some. rewrite Hc.
      split; [intros (e' & He & <-)|intros (e' & [[<- <-]|[Hne He]] & <-)]; [|by eauto..].
      destruct (decide (h = BlockHeader.block_hash (header b))) as [->|?]; [|by eauto]. simplify_eq. by eauto 6.
    + apply Hn.
    + unfold SideBranchPool.len in *. cbn. by rewrite map_size_insert_Some by eauto.
  - by apply enforce_limit_spec, grown_indexed.
Qed.
Lemma insert_get p peer b h b' : SideBranchPool.get (SideBranchPool.insert p peer b) h = Some b' ->
  indexed p -> SideBranchPool.get p h = Some b' \/ h = BlockHeader.block_hash (header b) /\ (b' = b \/ SideBranchPool.get p h = Some b').
Proof.
  unfold SideBranchPool.insert, SideBranchPool.get. destruct (sp_blocks p !! _) as [e|] eqn:E.
  - cbn. intros H _. destruct (decide (h = BlockHeader.block_hash (header b))) as [->|Hne].
    + rewrite lookup_insert_eq in H. cbn in H. left. by rewrite E.
    + rewrite lookup_insert_ne in H by done. by left.
  - intros H Hi. apply fmap_Some in H as (e & He & ->).
    eapply lookup_weaken in He; [|apply enforce_limit_spec, grown_indexed; done].
    cbn [sp_blocks] in He. apply lookup_insert_Some in He as [[<- <-]|[Hne He]]; [right; by split; [|left]|left]. by rewrite He.
Qed.
Lemma evict_loop_sized excess p : sized p -> sized (SideBranchPool.evict_loop excess p).
Proof.
  revert p. induction excess as [|excess IH]; intros p Hp; [done|]. cbn [SideBranchPool.evict_loop].
  destruct (SideBranchPool.eviction_candidate p); [|done]. by apply IH, remove_sized.
Qed.
Lemma insert_sized p peer b : pool_ok p -> small b -> sized p -> sized (SideBranchPool.insert p peer b).
Proof.
  intros [_ Hl] Hb [Ht Hs']. assert (map_Forall (fun _ e => small (sb_block e)) (sp_blocks p)) as Hall by (intros h e He; by eapply Hs').
  unfold SideBranchPool.insert. destruct (sp_blocks p !! _) as [e|] eqn:E.
  - split; cbn [sp_blocks sp_total_size_bytes].
    + rewrite Ht, (buffered_bytes_split _ _ _ E). erewrite (buffered_bytes_split _ (BlockHeader.block_hash (header b)))
        by apply lookup_insert_eq. cbn [sp_blocks sb_block]. by rewrite delete_insert_eq.
    + intros h e'. rewrite lookup_insert_Some. intros [[_ <-]|[_ He]]; [by apply (Hs' _ _ E)|by eapply Hs'].
  - apply evict_loop_sized. split; cbn [sp_blocks sp_total_size_bytes].
    + rewrite Ht. match goal with |- _ = buffered_bytes ?q => rewrite (buffered_bytes_insert p q _ _ E eq_refl) end. cbn [sb_block]. pose proof (sizes_bound _ Hall) as Hbound. fold (buffered_bytes p) in Hbound.
      unfold SideBranchPool.len, MAX_SIDE_BRANCH_BLOCKS in Hl. unfold small, MAX_BLOCK_RAW_BYTES in *.
      unfold saturating_add, USIZE_MAX. lia.
    + intros h e'. rewrite lookup_insert_Some. intros [[_ <-]|[_ He]]; [done|by eapply Hs'].
Qed.
(** Below the limit the new block stays. *)
Lemma insert_keeps p peer b :
  SideBranchPool.len p < MAX_SIDE_BRANCH_BLOCKS -> is_Some (SideBranchPool.get (SideBranchPool.insert p peer b) (BlockHeader.block_hash (header b))).
Proof.
  intros Hl. unfold SideBranchPool.insert, SideBranchPool.get. destruct (sp_blocks p !! _) as [e|] eqn:E.
  - cbn. rewrite lookup_insert_eq. by eauto.
  - rewrite enforce_limit_id; cbn; [rewrite lookup_insert_eq; by eauto|].
    unfold SideBranchPool.len in *. cbn. rewrite map_size_insert_None by done. lia.
Qed.

(** ** Descendants *)

Definition child_of (p : SideBranchPool) (parent h : bytes) : Prop := h ∈ SideBranchPool.children p parent.
Lemma elem_of_pushed p parent h : h ∈ SideBranchPool.pushed p parent <-> child_of p parent h.
Proof. unfold SideBranchPool.pushed. rewrite list_elem_of_In, <- in_rev, <- list_elem_of_In. apply elem_of_sorted_elements. Qed.
Lemma pushed_length p parent : length (SideBranchPool.pushed p parent) = size (SideBranchPool.children p parent).
Proof. unfold SideBranchPool.pushed. rewrite length_rev. unfold size, set_size. cbn. apply Permutation_length, sorted_elements_perm. Qed.

(** The edges that unvisited parents have left to push. *)
Definition edge_count (m : gmap bytes (gset bytes)) : nat := map_fold (fun _ cs n => (size cs + n)%nat) 0%nat m.
Definition unpushed (p : SideBranchPool) (visited : gset bytes) : nat :=
  edge_count (filter (fun hc => hc.1 ∉ visited) (children_by_parent p)).
Lemma unpushed_visit p visited h : h ∉ visited ->
  (unpushed p ({[h]} ∪ visited) + size (SideBranchPool.children p h) = unpushed p visited)%nat.
Proof.
  intros Hh. unfold unpushed.
  assert (filter (fun hc : bytes * gset bytes => hc.1 ∉ {[h]} ∪ visited) (children_by_parent p)
    = delete h (filter (fun hc => hc.1 ∉ visited) (children_by_parent p))) as ->.
  { apply map_eq. intros k. apply option_eq. intros cs. rewrite lookup_delete_Some, !map_lookup_filter_Some. cbn. set_solver. }
  destruct (children_by_parent p !! h) as [cs|] eqn:E.
  - assert (filter (fun hc : bytes * gset bytes => hc.1 ∉ visited) (children_by_parent p) !! h = Some cs) as Hl
      by (by apply map_lookup_filter_Some).
    unfold edge_count at 2. rewrite (map_fold_delete_L (fun (_ : bytes) (cs : gset bytes) (n : nat) => (size cs + n)%nat) _ _ _ _ ltac:(intros; cbn; lia) Hl).
    unfold SideBranchPool.children. rewrite E. cbn. unfold edge_count. lia.
  - rewrite delete_id by (apply map_lookup_filter_None; by left). rewrite children_unindexed by done. rewrite size_empty. lia.
Qed.
Lemma unpushed_empty p : unpushed p ∅ = SideBranchPool.edges p.
Proof. unfold unpushed. rewrite map_filter_id; [done|]. set_solver. Qed.

Lemma descendants_loop_ends p rounds stack visited : (length stack + unpushed p visited <= rounds)%nat ->
  is_Some (SideBranchPool.descendants_loop p rounds stack visited).
Proof.
  revert stack visited. induction rounds as [|rounds IH]; intros [|h stack] visited Hr; cbn in *; [by eexists|lia|by eexists|].
  unfold insert_new. destruct (decide (h ∈ visited)) as [Hin|Hnot]; [apply IH; lia|].
  pose proof (unpushed_visit p visited h Hnot).
  destruct (IH (SideBranchPool.pushed p h ++ stack) ({[h]} ∪ visited)) as [rest ->]; [|by eauto].
  rewrite length_app, pushed_length. lia.
Qed.
(** What the traversal collects: new hashes, each reached from the stack, and with
    them all their children. *)
Record collected (p : SideBranchPool) (stack : list bytes) (visited : gset bytes) (found : list bytes) : Prop := {
  co_new h : h ∈ found -> h ∉ visited;
  co_once : NoDup found;
  co_stack h : h ∈ stack -> h ∈ visited \/ h ∈ found;
  co_closed parent h : parent ∈ found -> child_of p parent h -> h ∈ visited \/ h ∈ found;
  co_reached h : h ∈ found -> exists s, s ∈ stack /\ rtc (child_of p) s h;
}.
Lemma descendants_loop_spec p rounds stack visited found :
  SideBranchPool.descendants_loop p rounds stack visited = Some found -> collected p stack visited found.
Proof.
  revert stack visited found. induction rounds as [|rounds IH]; intros [|h stack] visited found Hrun; cbn in Hrun; try done;
    try (injection Hrun as <-; split; [set_solver|constructor|set_solver..]).
  unfold insert_new in Hrun. destruct (decide (h ∈ visited)) as [Hin|Hnot].
  - destruct (IH _ _ _ Hrun) as [H1 H2 H3 H4 H5]. split; [done|done| |done|].
    + intros h' [->|H']%elem_of_cons; [by left|by apply H3].
    + intros h' Hh'. destruct (H5 h' Hh') as (s & Hs' & Hr). exists s. split; [by right|done].
  - apply bind_Some in Hrun as (rest & Hrun & [= <-]). destruct (IH _ _ _ Hrun) as [H1 H2 H3 H4 H5]. split.
    + intros h' [->|Hin]%elem_of_cons; [done|]. apply H1 in Hin. set_solver.
    + constructor; [|done]. intros Hin. apply H1 in Hin. set_solver.
    + intros h' [->|Hin]%elem_of_cons; [right; by left|]. destruct (H3 h') as [Hv|Hf]; [apply elem_of_app; by right| |right; by right].
      apply elem_of_union in Hv as [->%elem_of_singleton|Hv]; [right; by left|by left].
    + intros parent h' Hp Hc. apply elem_of_cons in Hp as [->|Hp].
      * destruct (H3 h') as [Hv|Hf]; [apply elem_of_app; left; by apply elem_of_pushed| |right; by right].
        apply elem_of_union in Hv as [->%elem_of_singleton|Hv]; [right; by left|by left].
      * destruct (H4 parent h' Hp Hc) as [Hv|Hf]; [|right; by right].
        apply elem_of_union in Hv as [->%elem_of_singleton|Hv]; [right; by left|by left].
    + intros h' [->|Hin]%elem_of_cons; [exists h; split; [by left|done]|]. destruct (H5 h' Hin) as (s & Hs' & Hr).
      apply elem_of_app in Hs' as [Hs'|Hs']; [|exists s; split; [by right|done]]. exists h. split; [by left|].
      apply elem_of_pushed in Hs'. by eapply rtc_l.
Qed.
(** The traversal ends and finds exactly the proper descendants, each once. *)
Lemma descendant_hashes_spec p parent :
  exists found, SideBranchPool.descendant_hashes p parent = Some found /\ NoDup found /\
    forall h, h ∈ found <-> tc (child_of p) parent h.
Proof.
  unfold SideBranchPool.descendant_hashes.
  destruct (descendants_loop_ends p (size (SideBranchPool.children p parent) + SideBranchPool.edges p)
    (SideBranchPool.pushed p parent) ∅) as [found Hrun]; [rewrite pushed_length, unpushed_empty; lia|].
  exists found. split; [done|]. destruct (descendants_loop_spec _ _ _ _ _ Hrun) as [_ H2 H3 H4 H5]. split; [done|].
  intros h. split.
  - intros Hh. destruct (H5 h Hh) as (s & Hs'%elem_of_pushed & Hr). by eapply tc_rtc_r; [apply tc_once|].
  - revert h. apply tc_ind_r; [intros h Hc|intros h' h _ Hc IH].
    + apply elem_of_pushed, H3 in Hc as [Hc|Hc]; [set_solver|done].
    + apply (H4 _ _ IH) in Hc as [Hc|Hc]; [set_solver|done].
Qed.

Lemma remove_each_blocks p hashes :
  (SideBranchPool.remove_each p hashes).1 = SideBranchPool.remove_all p hashes.
Proof.
  revert p. induction hashes as [|h hashes IH]; intros p; [done|]. cbn [SideBranchPool.remove_each SideBranchPool.remove_all foldl].
  fold (SideBranchPool.remove_all (SideBranchPool.remove p h).1 hashes). rewrite <- IH.
  destruct (SideBranchPool.remove p h) as [p1 r]. cbn. by destruct (SideBranchPool.remove_each p1 hashes).
Qed.
Lemma remove_each_removed p hashes : NoDup hashes ->
  (SideBranchPool.remove_each p hashes).2 = omap (SideBranchPool.get p) hashes.
Proof.
  revert p. induction hashes as [|h hashes IH]; intros p Hnd; [done|]. apply NoDup_cons in Hnd as [Hh Hnd].
  cbn [SideBranchPool.remove_each]. pose proof (remove_block p h) as Hb. pose proof (remove_blocks p h) as Hs'.
  destruct (SideBranchPool.remove p h) as [p1 r] eqn:E. cbn in Hb, Hs'. subst r. specialize (IH p1 Hnd).
  destruct (SideBranchPool.remove_each p1 hashes) as [p2 bs]. cbn in IH |- *. subst bs.
  assert (omap (SideBranchPool.get p1) hashes = omap (SideBranchPool.get p) hashes) as ->.
  { apply list_omap_ext, Forall_Forall2_diag, Forall_forall. intros x Hx. unfold SideBranchPool.get.
    rewrite Hs', lookup_delete_ne; [done|]. by intros ->. }
  by destruct (SideBranchPool.get p h).
Qed.

(** Removing the descendants of a block returns, removes exactly the proper
    descendants, and returns each of their blocks once. *)
Lemma remove_descendants_spec p parent : indexed p ->
  exists p' removed found, SideBranchPool.remove_descendants_of p parent = Some (p', removed) /\ indexed p' /\
    SideBranchPool.len p' <= SideBranchPool.len p /\ NoDup found /\ removed = omap (SideBranchPool.get p) found /\
    (forall h, h ∈ found <-> tc (child_of p) parent h) /\
    sp_blocks p' = filter (fun he => he.1 ∉ found) (sp_blocks p).
Proof.
  intros Hp. destruct (descendant_hashes_spec p parent) as (found & Hf & Hnd & Hin).
  unfold SideBranchPool.remove_descendants_of. rewrite Hf. cbn.
  exists (SideBranchPool.remove_each p found).1, (SideBranchPool.remove_each p found).2, found.
  split; [by destruct (SideBranchPool.remove_each p found)|]. rewrite remove_each_blocks.
  split_and!; [by apply remove_all_indexed| |done|by apply remove_each_removed|done|by apply remove_all_blocks].
  unfold SideBranchPool.len. rewrite remove_all_blocks. apply inj_le, map_subseteq_size, map_filter_subseteq.
Qed.
Lemma remove_descendants_ok p parent p' removed :
  pool_ok p -> SideBranchPool.remove_descendants_of p parent = Some (p', removed) -> pool_ok p'.
Proof.
  intros [Hi Hl] Hrun. destruct (remove_descendants_spec p parent Hi) as (p1 & r1 & found & Hrun1 & H1 & H2 & _).
  rewrite Hrun in Hrun1. injection Hrun1 as <- <-. split; [done|lia].
Qed.

(** ** Branches *)

Context (is_canonical : bytes -> bool).

(** The branch of a tip, tip first: each block's parent is the next one, and the
    first canonical parent ends it. *)
Inductive lineage (p : SideBranchPool) : bytes -> list Block -> Prop :=
| lineage_anchor h b :
    SideBranchPool.get p h = Some b -> is_canonical (previous_block_hash (header b)) = true -> lineage p h [b]
| lineage_step h b rest :
    SideBranchPool.get p h = Some b -> is_canonical (previous_block_hash (header b)) = false ->
    lineage p (previous_block_hash (header b)) rest -> lineage p h (b :: rest).

Lemma lineage_unique p h l l' : lineage p h l -> lineage p h l' -> l = l'.
Proof.
  intros Hl. revert l'. induction Hl as [h b Hb Hc|h b rest Hb Hc _ IH]; intros l' Hl'; 
    inversion Hl' as [h' b' Hb' Hc'|h' b' rest' Hb' Hc' Hr']; subst; rewrite Hb in Hb'; injection Hb' as <-; try congruence.
  f_equal. by apply IH.
Qed.
Lemma lineage_get p h l : lineage p h l -> is_Some (SideBranchPool.get p h).
Proof. intros [h' b Hb _|h' b rest Hb _ _]; exact (mk_is_Some _ _ Hb). Qed.
(** The keys of a lineage's blocks. *)
Definition hashes_of (l : list Block) : list bytes := (fun b => BlockHeader.block_hash (header b)) <$> l.
Lemma lineage_key p h l : indexed p -> lineage p h l -> exists b rest, l = b :: rest /\ BlockHeader.block_hash (header b) = h.
Proof.
  intros [Hh _ _] Hl. assert (forall h b, SideBranchPool.get p h = Some b -> BlockHeader.block_hash (header b) = h) as Hkey.
  { intros h' b (e & He & ->)%fmap_Some. exact (Hh _ _ He). }
  destruct Hl as [h b Hb _|h b rest Hb _ _]; [exists b, []|exists b, rest]; (split; [reflexivity|exact (Hkey _ _ Hb)]).
Qed.
Lemma lineage_suffix p h l x : indexed p -> lineage p h l -> x ∈ hashes_of l ->
  exists l', lineage p x l' /\ (length l' <= length l)%nat.
Proof.
  intros Hp Hl. induction Hl as [h b Hb Hc|h b rest Hb Hc Hr IH]; intros Hx; unfold hashes_of in Hx; cbn in Hx.
  - apply list_elem_of_singleton in Hx as ->. assert (lineage p h [b]) as Hl by by constructor.
    destruct (lineage_key _ _ _ Hp Hl) as (? & ? & [= <- <-] & ->). by exists [b].
  - assert (lineage p h (b :: rest)) as Hl by by apply lineage_step.
    apply elem_of_cons in Hx as [->|Hx].
    + destruct (lineage_key _ _ _ Hp Hl) as (? & ? & [= <- <-] & ->). by exists (b :: rest).
    + destruct (IH Hx) as (l' & Hl' & Hle). exists l'. split; [done|]. cbn. lia.
Qed.
Lemma lineage_NoDup p h l : indexed p -> lineage p h l -> NoDup (hashes_of l).
Proof.
  intros Hp Hl. induction Hl as [h b Hb Hc|h b rest Hb Hc Hr IH]; [apply NoDup_singleton|].
  assert (lineage p h (b :: rest)) as Hl by by apply lineage_step. unfold hashes_of. cbn. constructor; [|done]. intros Hin.
  destruct (lineage_key _ _ _ Hp Hl) as (? & ? & [= <- <-] & Hkey). rewrite Hkey in Hin.
  destruct (lineage_suffix _ _ _ _ Hp Hr Hin) as (l' & Hl' & Hle). rewrite (lineage_unique _ _ _ _ Hl' Hl) in Hle. cbn in Hle. lia.
Qed.
Lemma lineage_length p h l : indexed p -> lineage p h l -> (length l <= size (sp_blocks p))%nat.
Proof.
  intros Hp Hl. rewrite <- (length_fmap (fun b => BlockHeader.block_hash (header b)) l), <- size_dom.
  fold (hashes_of l). rewrite <- (size_list_to_set (C:=gset bytes)) by by eapply lineage_NoDup.
  apply subseteq_size. intros x Hx%elem_of_list_to_set. destruct (lineage_suffix _ _ _ _ Hp Hl Hx) as (l' & Hl' & _).
  apply lineage_get in Hl' as [b (e & He & _)%fmap_Some]. by apply elem_of_dom_2 in He.
Qed.

Lemma branch_walk_sound p rounds h visited l :
  SideBranchPool.branch_walk p is_canonical rounds h visited = Some l -> lineage p h l.
Proof.
  revert h visited l. induction rounds as [|rounds IH]; intros h visited l Hrun; [done|]. cbn in Hrun.
  apply bind_Some in Hrun as (visited' & _ & Hrun). apply bind_Some in Hrun as (b & Hb & Hrun).
  destruct (is_canonical _) eqn:Hc; [injection Hrun as <-; by constructor|].
  destruct (SideBranchPool.get p (previous_block_hash (header b))); [|done].
  apply bind_Some in Hrun as (rest & Hr & [= <-]). apply lineage_step; [done..|]. by eapply IH.
Qed.
Lemma branch_walk_complete p h l : indexed p -> lineage p h l -> forall rounds visited,
  (length l <= rounds)%nat -> (forall x, x ∈ hashes_of l -> x ∉ visited) ->
  SideBranchPool.branch_walk p is_canonical rounds h visited = Some l.
Proof.
  intros Hp Hl. induction Hl as [h b Hb Hc|h b rest Hb Hc Hr IH]; intros [|rounds] visited Hlen Hv; cbn in Hlen; try lia;
    cbn [SideBranchPool.branch_walk].
  - assert (lineage p h [b]) as Hl by by constructor. destruct (lineage_key _ _ _ Hp Hl) as (? & ? & [= <- <-] & Hkey).
    unfold insert_new. rewrite decide_False by (apply Hv; rewrite <- Hkey; by left). cbn. by rewrite Hb; cbn; rewrite Hc.
  - assert (lineage p h (b :: rest)) as Hl by by apply lineage_step.
    destruct (lineage_key _ _ _ Hp Hl) as (? & ? & [= <- <-] & Hkey).
    unfold insert_new. rewrite decide_False by (apply Hv; rewrite <- Hkey; by left). cbn. rewrite Hb. cbn. rewrite Hc.
    destruct (lineage_get _ _ _ Hr) as [b' ->]. rewrite IH; [done|lia|]. intros x Hx.
    pose proof (lineage_NoDup _ _ _ Hp Hl) as Hnd. apply NoDup_cons in Hnd as [Hnot _]. rewrite Hkey in Hnot.
    assert (x ∉ visited) by (apply Hv; by right). set_solver.
Qed.
(** The branch of a tip is the blocks from the first child of a canonical block up. *)
Lemma buffered_branch_spec p h branch : indexed p ->
  SideBranchPool.buffered_branch_from_tip p is_canonical h = Some branch <-> lineage p h (reverse branch).
Proof.
  intros Hp. unfold SideBranchPool.buffered_branch_from_tip. rewrite fmap_Some. split.
  - intros (l & Hrun & ->). rewrite reverse_involutive. by eapply branch_walk_sound.
  - intros Hl. exists (reverse branch). split; [|by rewrite reverse_involutive].
    apply branch_walk_complete; [done..|by apply lineage_length with h|set_solver].
Qed.

(** ** The best branch *)

Context (preferred : list Block -> bool).

(** A branch that may be chosen: from a leaf, and preferred to the current chain. *)
Definition eligible (p : SideBranchPool) (branch : list Block) : Prop :=
  exists tip, tip ∈ SideBranchPool.leaf_hashes p /\ lineage p tip (reverse branch) /\ preferred branch = true.

Lemma not_preferred_trans a b c :
  branch_is_preferred a b = false -> branch_is_preferred b c = false -> branch_is_preferred a c = false.
Proof using Hs.
  intros Hab Hbc. destruct (branch_is_preferred a c) eqn:Hac; [|done]. rewrite branch_is_preferred_gt in Hac.
  unfold branch_is_preferred in Hab, Hbc. destruct (compare_branch_work a b) eqn:Eab; [| |done].
  - rewrite (cmp_eq_l (cmp:=compare_branch_work) a b c Eab) in Hac. by rewrite Hac in Hbc.
  - destruct (compare_branch_work b c) eqn:Ebc; [| |done].
    + rewrite <- (cmp_eq_r compare_branch_work b c a Ebc) in Hac. congruence.
    + pose proof (cmp_lt_trans (cmp:=compare_branch_work) a b c Eab Ebc). congruence.
Qed.
Lemma not_preferred_refl a : branch_is_preferred a a = false.
Proof using Hs. unfold branch_is_preferred. by rewrite (cmp_refl compare_branch_work). Qed.
Lemma preferred_not_back a b : branch_is_preferred a b = true -> branch_is_preferred b a = false.
Proof using Hs.
  intros H%branch_is_preferred_gt. unfold branch_is_preferred. by rewrite (cmp_antisym (cmp:=compare_branch_work) a b), H.
Qed.

(** A round keeps the better of the branch so far and the tip's. *)
Lemma better_branch_spec p tip best : indexed p ->
  let best' := SideBranchPool.better_branch p is_canonical preferred best tip in
  (forall b, best = Some b -> exists b', best' = Some b' /\ branch_is_preferred b b' = false) /\
  (forall b, lineage p tip (reverse b) -> preferred b = true -> exists b', best' = Some b' /\ branch_is_preferred b b' = false) /\
  (forall b', best' = Some b' -> best = Some b' \/ lineage p tip (reverse b') /\ preferred b' = true).
Proof.
  intros Hp. unfold SideBranchPool.better_branch. pose proof (buffered_branch_spec p tip) as Hspec.
  destruct (SideBranchPool.buffered_branch_from_tip p is_canonical tip) as [c|].
  2:{ split_and!; [|by intros b Hb%Hspec|by left]. intros b ->. eauto using not_preferred_refl. }
  assert (forall b, lineage p tip (reverse b) -> b = c) as Hc by (intros b Hb%Hspec; [by injection Hb|done]).
  assert (lineage p tip (reverse c)) as Hlin by by apply Hspec.
  destruct (preferred c) eqn:Hpref; cbn.
  2:{ split_and!; [|intros b <-%Hc; congruence|by left]. intros b ->. eauto using not_preferred_refl. }
  destruct best as [b0|]; [destruct (branch_is_preferred c b0) eqn:Hcb|].
  - split_and!; [|intros b ->%Hc _; by eauto using not_preferred_refl|intros b' [= <-]; by right].
    intros b [= <-]. eauto using preferred_not_back.
  - split_and!; [intros b [= <-]; by eauto using not_preferred_refl|intros b ->%Hc _; by eauto|by left].
  - split_and!; [done|intros b ->%Hc _; by eauto using not_preferred_refl|intros b' [= <-]; by right].
Qed.
Lemma better_branch_fold p tips best : indexed p ->
  let best' := foldl (SideBranchPool.better_branch p is_canonical preferred) best tips in
  (forall b, best = Some b \/ (exists tip, tip ∈ tips /\ lineage p tip (reverse b)) /\ preferred b = true ->
     exists b', best' = Some b' /\ branch_is_preferred b b' = false) /\
  (forall b', best' = Some b' ->
     best = Some b' \/ (exists tip, tip ∈ tips /\ lineage p tip (reverse b')) /\ preferred b' = true).
Proof.
  intros Hp. revert best. induction tips as [|tip tips IH]; intros best; cbn [foldl].
  - split; [|by left]. intros b [->|[(tip & Hin & _) _]]; [eauto using not_preferred_refl|by apply not_elem_of_nil in Hin].
  - destruct (better_branch_spec p tip best Hp) as (H1 & H2 & H3).
    set (best1 := SideBranchPool.better_branch p is_canonical preferred best tip) in *. destruct (IH best1) as [I1 I2]. split.
    + intros b Hb. assert ((exists b1, best1 = Some b1 /\ branch_is_preferred b b1 = false) \/
        (exists tip', tip' ∈ tips /\ lineage p tip' (reverse b)) /\ preferred b = true) as [(b1 & Hb1 & Hle)|Hin].
      { destruct Hb as [Hb|[(tip' & [->|Hin]%elem_of_cons & Hl) Hpref]]; [left; by apply H1|left; by apply H2|right; by eauto]. }
      * destruct (I1 b1) as (b2 & Hb2 & Hle2); [by left|]. exists b2. split; [done|]. by eapply not_preferred_trans.
      * apply I1. by right.
    + intros b' [Hb'|[(tip' & Hin & Hl) Hpref]]%I2.
      * apply H3 in Hb' as [Hb'|[Hl Hpref]]; [by left|right; split; [|done]]. exists tip. split; [by left|done].
      * right. split; [|done]. exists tip'. split; [by right|done].
Qed.
(** The chosen branch is eligible and none that is beats it; without one none is. *)
Lemma best_buffered_branch_spec p : indexed p ->
  match SideBranchPool.best_buffered_branch p is_canonical preferred with
  | Some best => eligible p best /\ forall other, eligible p other -> branch_is_preferred other best = false
  | None => forall other, ~ eligible p other
  end.
Proof.
  intros Hp. unfold SideBranchPool.best_buffered_branch.
  destruct (better_branch_fold p (SideBranchPool.leaf_hashes p) None Hp) as [H1 H2].
  destruct (foldl _ None _) as [best|].
  - split; [destruct (H2 best eq_refl) as [|[(tip & ? & ?) ?]]; [done|by exists tip]|].
    intros other (tip & Hin & Hl & Hpref). destruct (H1 other) as (b' & [= <-] & Hle); [right|done]. by eauto.
  - intros other (tip & Hin & Hl & Hpref). destruct (H1 other) as (b' & ? & _); [right|done]. by eauto.
Qed.
End invariant.
