(* ===== verification/NodeQueries.v ===== *)
(** * What the node reads

    The read side of crates/atho-storage/src/chainstate.rs and crates/atho-node/src/node.rs:
    archive records, headers for a peer, finality, the locator, and the peer records.
    The archive is the class [Archive] on top of the [Database] of the chain state;
    [lmdb_archive] is the one of db.rs. *)
From stdpp Require Import options.
From S2P Require Import Prelude Bytes Text Constants Crypto Keccak Network Rules Transaction Block Pow.
From S2P Require Import Genesis TxPolicy Errors Utxo Validation BlockValidation Lmdb BlockFiles Chainstate Db Mempool Node.
From S2P Require Import P2pConfig Protocol IpAddr AddressManager.

#[local] Set Default Proof Using "Type*".

(** What the node reads of the archive, and the table of peers it keeps there. *)
Class Archive `{Hd : Database} := {
  load_record : database -> bytes -> result StorageError (option BlockArchiveRecord);
  load_record_by_height : database -> Z -> result StorageError (option BlockArchiveRecord);
  load_transaction_record : database -> bytes -> result StorageError (option TransactionArchiveRecord);
  has_pruned_blocks : database -> result StorageError bool;
  load_peer_record : database -> bytes -> result StorageError (option PeerRecord);
  list_peer_records : database -> result StorageError (list PeerRecord);
  save_peer_record : database -> PeerRecord -> database * result StorageError unit;
}.
#[global] Instance lmdb_archive `{Hs : Sha3, Hl : LmdbStore, Hd : DbSerde, Henv : ProcessEnv} : Archive (Hd:=lmdb_database) :=
  {| load_record := fun d hash => Db.load_block_record (disk d) hash;
     load_record_by_height := fun d h => Db.load_block_record_by_height (disk d) h;
     load_transaction_record := fun d txid => Db.load_transaction (disk d) txid;
     has_pruned_blocks := fun d => Db.has_pruned_blocks (disk d);
     load_peer_record := fun d remote_addr => Db.load_peer (disk d) remote_addr;
     list_peer_records := fun d => Db.list_peers (disk d);
     save_peer_record := fun d r => on_disk d (fun _ _ db => Db.upsert_peer db r) |}.

(** ** Through the chain state *)

(* src: chainstate.rs:107-115 FinalizedCheckpoint *)
Record FinalizedCheckpoint := {
  fc_height : Z; fc_block_hash : bytes; fc_chainwork : bytes; fc_network : Network;
  fc_ruleset_version : Z; fc_timestamp : Z;
}.

Module ChainQueries.
Section queries.
Context `{Hs : Sha3, Hd : Database, Ha : !Archive}.

(** The record a chain without a database gives. *)
(* src: chainstate.rs:479-508 Chainstate::block_record_by_hash (memory) *)
Definition memory_record (blocks : list Block) (index : nat) (block_hash : bytes) (b : Block) : BlockArchiveRecord :=
  let hd := header b in
  {| r_height := height hd; r_block_hash := block_hash; r_previous_block_hash := previous_block_hash hd;
     r_network := network_id hd; r_version := h_version hd; r_merkle_root := h_merkle_root hd;
     r_witness_root := h_witness_root hd; r_timestamp := timestamp hd; r_target := difficulty_target_or_bits hd;
     r_nonce := nonce hd; r_file_number := 0; r_record_offset := 0; r_payload_length := 0;
     raw_block_size := zlen (Block.canonical_bytes b) mod 2 ^ 32;
     r_weight_bytes := Block.weight_bytes b mod 2 ^ 32; r_vsize_bytes := Block.vsize_bytes b mod 2 ^ 32;
     tx_count := zlen (transactions b) mod 2 ^ 32; r_fees_total_atoms := fees_total_atoms b;
     r_fees_miner_atoms := fees_miner_atoms b;
     r_chainwork := biguint_bytes (accumulated_chain_work (take (S index) blocks)); fully_validated := true;
     main_chain := true; pruned := false; persisted_unix := 0 |}.
Definition find_block (blocks : list Block) (hash : bytes) : option (nat * Block) :=
  index ← position (fun b => bool_decide (BlockHeader.block_hash (header b) = hash)) blocks;
  b ← blocks !! index; Some (index, b).
(* src: chainstate.rs:470-511 Chainstate::block_record_by_hash *)
Definition block_record_by_hash (c : Chainstate) (block_hash : bytes) : result StorageError (option BlockArchiveRecord) :=
  match storage c with
  | None => Ok ((fun ib => memory_record (cs_blocks c) ib.1 block_hash ib.2) <$> find_block (cs_blocks c) block_hash)
  | Some d => load_record d block_hash
  end.
(* src: chainstate.rs:513-525 Chainstate::block_record_by_height *)
Definition block_record_by_height (c : Chainstate) (h : Z) : result StorageError (option BlockArchiveRecord) :=
  match index ← Chainstate.memory_block_index_for_height c h; cs_blocks c !! index with
  | Some b => block_record_by_hash c (BlockHeader.block_hash (header b))
  | None => match storage c with None => Ok None | Some d => load_record_by_height d h end
  end.
(* src: chainstate.rs:527-559 Chainstate::transaction_record_by_txid *)
Definition transaction_record_by_txid (c : Chainstate) (txid : bytes) :
    result StorageError (option TransactionArchiveRecord) :=
  match Chainstate.find_map (fun b =>
          Chainstate.find_map (fun itx =>
            if bool_decide (Transaction.txid itx.2 = txid)
            then Some {| t_height := height (header b); t_block_hash := BlockHeader.block_hash (header b);
                         t_tx_index := itx.1 mod 2 ^ 32; t_txid := txid; t_transaction := itx.2 |}
            else None) (enumerate (transactions b))) (cs_blocks c) with
  | Some r => Ok (Some r)
  | None => match storage c with None => Ok None | Some d => load_transaction_record d txid end
  end.
(* src: chainstate.rs:769-787 Chainstate::canonical_locator_height *)
Definition canonical_locator_height (c : Chainstate) (block_hash : bytes) : result StorageError (option Z) :=
  match find_block (cs_blocks c) block_hash with
  | Some (_, b) => Ok (Some (height (header b)))
  | None =>
      match storage c with
      | None => Ok None
      | Some d =>
          record ← load_record d block_hash;
          match record with
          | None => Ok None
          | Some record =>
              canonical ← load_block_hash_by_height d (r_height record);
              Ok (match canonical with
                  | Some hash => if bool_decide (hash = block_hash) then Some (r_height record) else None
                  | None => None
                  end)
          end
      end
  end.
(** The loop with a database: each round adds a header or stops. *)
(* src: chainstate.rs:754-766 Chainstate::headers_after_locator (loop) *)
Fixpoint stored_headers (max_headers : nat) (d : database) (tip : Z) (stop_hash : bytes) (next_height : Z) :
    result StorageError (list BlockHeader) :=
  match max_headers with
  | O => Ok []
  | S max_headers =>
      if tip <? next_height then Ok []
      else
        record ← load_record_by_height d next_height;
        match record with
        | None => Ok []
        | Some record =>
            if negb (bool_decide (stop_hash = zeros 48)) && bool_decide (r_block_hash record = stop_hash)
            then Ok [BlockArchiveRecord.header record]
            else
              headers ← stored_headers max_headers d tip stop_hash (saturating_add U64_MAX next_height 1);
              Ok (BlockArchiveRecord.header record :: headers)
        end
  end.
(* src: chainstate.rs:704-767 Chainstate::headers_after_locator *)
Definition headers_after_locator (c : Chainstate) (locator_hashes : list bytes) (stop_hash : bytes)
    (max_headers : nat) : result StorageError (list BlockHeader) :=
  match storage c with
  | None => Ok (Chainstate.headers_after_locator c locator_hashes stop_hash max_headers)
  | Some d =>
      if Nat.eqb max_headers 0 then Ok []
      else
        let found := Chainstate.find_map (fun hash =>
            match canonical_locator_height c hash with
            | Ok (Some h) => Some (saturating_add U64_MAX h 1)
            | _ => None
            end) locator_hashes in
        let from start := stored_headers max_headers d (cs_height c) stop_hash start in
        match found with
        | Some start => from start
        | None => if bool_decide (locator_hashes = []) then from 0 else Ok []
        end
  end.
(* src: chainstate.rs:805-823 Chainstate::finalized_checkpoint_for_depth *)
Definition finalized_checkpoint_for_depth (c : Chainstate) (depth : Z) :
    result StorageError (option FinalizedCheckpoint) :=
  match checked_sub (cs_height c) depth with
  | None => Ok None
  | Some h =>
      record ← block_record_by_height c h;
      record ← ok_or record IncompleteBlockHistory;
      Ok (Some {| fc_height := h; fc_block_hash := r_block_hash record; fc_chainwork := r_chainwork record;
                  fc_network := r_network record; fc_ruleset_version := ruleset_version_at_height h;
                  fc_timestamp := r_timestamp record |})
  end.
(* src: chainstate.rs:801-803 Chainstate::finalized_checkpoint *)
Definition finalized_checkpoint (env : Env) (c : Chainstate) : result StorageError (option FinalizedCheckpoint) :=
  finalized_checkpoint_for_depth c (Chainstate.max_reorg_depth env c).
(* src: chainstate.rs:833-838 Chainstate::has_pruned_history *)
Definition has_pruned_history (c : Chainstate) : result StorageError bool :=
  match storage c with None => Ok false | Some d => has_pruned_blocks d end.
(* src: chainstate.rs:624-629 Chainstate::load_peer *)
Definition load_peer (c : Chainstate) (remote_addr : bytes) : result StorageError (option PeerRecord) :=
  match storage c with None => Ok None | Some d => load_peer_record d remote_addr end.
(* src: chainstate.rs:631-636 Chainstate::list_peers *)
Definition list_peers (c : Chainstate) : result StorageError (list PeerRecord) :=
  match storage c with None => Ok [] | Some d => list_peer_records d end.
(* src: chainstate.rs:645-650 Chainstate::save_peer *)
Definition save_peer (c : Chainstate) (r : PeerRecord) : Chainstate * result StorageError unit :=
  Chainstate.on_storage c (fun d => save_peer_record d r).
End queries.
End ChainQueries.

(** ** Through the node *)

(* src: node.rs:128-128 MAX_LOCATOR_HASHES *)
Definition MAX_LOCATOR_HASHES : Z := 32.
(* src: node.rs:129-129 LINEAR_RECENT_HASHES *)
Definition LINEAR_RECENT_HASHES : Z := 10.

(** [r.ok().flatten()]. *)
Definition found {E A} (r : result E (option A)) : option A := match r with Ok o => o | Err _ => None end.

Module NodeQueries.
Section node.
Context `{Hs : Sha3, Hf : FalconBackend, Hg : !GenesisReady Hs, Hd : Database, Ha : !Archive}.

(* src: node.rs:195-197 Node::contains_block *)
Definition contains_block (n : Node) (block_hash : bytes) : bool :=
  match Chainstate.contains_block (chainstate n) block_hash with Ok b => b | Err _ => false end.
(* src: node.rs:199-203 Node::is_canonical_block *)
Definition is_canonical_block (n : Node) (block_hash : bytes) : bool :=
  match Chainstate.is_canonical_block (chainstate n) block_hash with Ok b => b | Err _ => false end.
(* src: node.rs:205-207 Node::known_block_height *)
Definition known_block_height (n : Node) (block_hash : bytes) : option Z :=
  Chainstate.known_block_height (chainstate n) block_hash.
(* src: node.rs:209-211 Node::block_by_hash *)
Definition block_by_hash (n : Node) (block_hash : bytes) : option Block :=
  found (Chainstate.block_by_hash (chainstate n) block_hash).
(* src: node.rs:213-215 Node::block_by_height *)
Definition block_by_height (n : Node) (h : Z) : option Block := found (Chainstate.block_by_height (chainstate n) h).
(* src: node.rs:242-247 Node::block_record_by_hash *)
Definition block_record_by_hash (n : Node) (block_hash : bytes) : option BlockArchiveRecord :=
  found (ChainQueries.block_record_by_hash (chainstate n) block_hash).
(* src: node.rs:249-254 Node::block_record_by_height *)
Definition block_record_by_height (n : Node) (h : Z) : option BlockArchiveRecord :=
  found (ChainQueries.block_record_by_height (chainstate n) h).
(* src: node.rs:256-261 Node::transaction_record_by_txid *)
Definition transaction_record_by_txid (n : Node) (txid : bytes) : option TransactionArchiveRecord :=
  found (ChainQueries.transaction_record_by_txid (chainstate n) txid).
(* src: node.rs:263-265 Node::prune_depth *)
Definition prune_depth (env : Env) (n : Node) : Z := Chainstate.prune_depth env (chainstate n).
(* src: node.rs:267-269 Node::max_reorg_depth *)
Definition max_reorg_depth (env : Env) (n : Node) : Z := Chainstate.max_reorg_depth env (chainstate n).
(* src: node.rs:271-275 Node::finalized_checkpoint *)
Definition finalized_checkpoint (env : Env) (n : Node) : result NodeError (option FinalizedCheckpoint) :=
  map_err NodeStorage (ChainQueries.finalized_checkpoint env (chainstate n)).
(* src: node.rs:285-287 Node::has_pruned_history *)
Definition has_pruned_history (n : Node) : bool :=
  match ChainQueries.has_pruned_history (chainstate n) with Ok b => b | Err _ => false end.

(* src: node.rs:169-175 Node::chainwork_bytes *)
Definition chainwork_bytes (n : Node) : bytes :=
  fixed_hash48_from_be_bytes
    match block_record_by_height n (Node.height n) with
    | Some record => r_chainwork record
    | None => biguint_bytes (accumulated_chain_work (Node.blocks n))
    end.

(** [if locator.last() != Some(hash) { locator.push(hash); }]. *)
Definition push_new (locator : list bytes) (hash : bytes) : list bytes :=
  if bool_decide (last locator = Some hash) then locator else locator ++ [hash].
(** What a round pushes at [height]. *)
Definition locator_push (n : Node) (h : Z) (locator : list bytes) : list bytes :=
  match block_record_by_height n h with
  | Some record => push_new locator (r_block_hash record)
  | None => if h =? Node.height n then push_new locator (Node.tip_hash n) else locator
  end.
(** The loop. Each round goes down by at least one, so [rounds], at first the height,
    bounds [height], and after the last round it is 0. *)
(* src: node.rs:135-157 Node::block_locator_hashes (loop) *)
Fixpoint locator_loop (n : Node) (rounds : nat) (h step : Z) (locator : list bytes) : list bytes :=
  let locator := locator_push n h locator in
  match rounds with
  | O => locator
  | S rounds =>
      if (h =? 0) || (MAX_LOCATOR_HASHES <=? zlen locator + 1) then locator
      else
        let step := if LINEAR_RECENT_HASHES <=? zlen locator then saturating_mul U64_MAX step 2 else step in
        locator_loop n rounds (saturating_sub h step) step locator
  end.
(* src: node.rs:127-167 Node::block_locator_hashes *)
Definition block_locator_hashes (n : Node) : list bytes :=
  let locator := locator_loop n (Z.to_nat (Node.height n)) (Node.height n) 1 [] in
  let genesis := genesis_hash (Node.network n) in
  if bool_decide (last locator = Some genesis) then locator
  else (if MAX_LOCATOR_HASHES <=? zlen locator then removelast locator else locator) ++ [genesis].

(* src: node.rs:708-717 Node::headers_after_locator *)
Definition headers_after_locator (n : Node) (locator_hashes : list bytes) (stop_hash : bytes) (max_headers : Z) :
    list BlockHeader :=
  match ChainQueries.headers_after_locator (chainstate n) locator_hashes stop_hash (Z.to_nat max_headers) with
  | Ok headers => headers
  | Err _ => []
  end.

(* src: node.rs:298-302 Node::load_peer_record *)
Definition load_peer_record (n : Node) (remote_addr : bytes) : result NodeError (option PeerRecord) :=
  map_err NodeStorage (ChainQueries.load_peer (chainstate n) remote_addr).
(* src: node.rs:304-306 Node::list_peer_records *)
Definition list_peer_records (n : Node) : result NodeError (list PeerRecord) :=
  map_err NodeStorage (ChainQueries.list_peers (chainstate n)).
(* src: node.rs:314-316 Node::save_peer_record *)
Definition save_peer_record (n : Node) (r : PeerRecord) : Node * result NodeError unit :=
  let '(c, r) := ChainQueries.save_peer (chainstate n) r in (Node.with_chainstate n c, map_err NodeStorage r).
(* src: node.rs:318-343 Node::observe_peer *)
Definition observe_peer (n : Node) (remote_addr : bytes) (observed_height observed_unix : Z) :
    Node * result NodeError unit :=
  match load_peer_record n remote_addr with
  | Err e => (n, Err e)
  | Ok existing =>
      save_peer_record n
        {| pr_network := Node.network n; pr_remote_addr := remote_addr;
           pr_first_seen_height := match existing with Some e => pr_first_seen_height e | None => observed_height end;
           pr_last_seen_height := observed_height;
           pr_last_seen_unix := match existing with
                                | Some e => Z.max (pr_last_seen_unix e) observed_unix
                                | None => observed_unix
                                end |}
  end.
(* src: node.rs:345-363 Node::observe_peer_address *)
Definition observe_peer_address (n : Node) (address : PeerAddress) (observed_height observed_unix : Z) :
    Node * result NodeError unit :=
  let seen := Z.max observed_unix (last_seen_unix address) in
  match load_peer_record n (format_remote_addr address) with
  | Err e => (n, Err e)
  | Ok existing =>
      save_peer_record n
        {| pr_network := Node.network n; pr_remote_addr := format_remote_addr address;
           pr_first_seen_height := match existing with Some e => pr_first_seen_height e | None => observed_height end;
           pr_last_seen_height := observed_height;
           pr_last_seen_unix := match existing with Some e => Z.max (pr_last_seen_unix e) seen | None => seen end |}
  end.
(** Newest first, then highest, then by address. *)
Definition peer_record_compare (l r : PeerRecord) : comparison :=
  then_with (Z.compare (pr_last_seen_unix r) (pr_last_seen_unix l))
  (then_with (Z.compare (pr_last_seen_height r) (pr_last_seen_height l))
     (bytes_compare (pr_remote_addr l) (pr_remote_addr r))).
Definition peer_record_le (l r : PeerRecord) : Prop := peer_record_compare l r <> Gt.
#[global] Instance peer_record_le_dec l r : Decision (peer_record_le l r).
Proof using. unfold peer_record_le. apply _. Defined.
(* src: node.rs:365-387 Node::peer_addresses *)
Definition peer_addresses (n : Node) : result NodeError (list PeerAddress) :=
  records ← list_peer_records n;
  Ok (omap (fun record =>
        let a := parse_remote_addr (pr_remote_addr record) (Network.p2p_port (Node.network n)) in
        if port a =? 0 then None
        else Some {| host := host a; port := port a; services := services a; last_seen_unix := pr_last_seen_unix record |})
      (filter (fun r => pr_network r = Node.network n) (merge_sort peer_record_le records))).
End node.
End NodeQueries.

(** ** The locator *)

Section locator.
Context `{Hs : Sha3, Hf : FalconBackend, Hg : !GenesisReady Hs, Hd : Database, Ha : !Archive}.

Lemma zlen_push_new l h : zlen l <= zlen (NodeQueries.push_new l h) <= zlen l + 1.
Proof. unfold NodeQueries.push_new. case_bool_decide; [lia|]. rewrite zlen_app. change (zlen [h]) with 1. lia. Qed.
Lemma zlen_locator_push n h l : zlen l <= zlen (NodeQueries.locator_push n h l) <= zlen l + 1.
Proof.
  unfold NodeQueries.locator_push. destruct (NodeQueries.block_record_by_height n h); [apply zlen_push_new|].
  destruct (h =? Node.height n); [apply zlen_push_new|lia].
Qed.

(** A hash that the node stands by at a height. *)
Definition stands (n : Node) (h : Z) (hash : bytes) : Prop :=
  (exists r, NodeQueries.block_record_by_height n h = Some r /\ r_block_hash r = hash) \/
  h = Node.height n /\ hash = Node.tip_hash n.
(** Hashes from the tip down, all above [h]. *)
Definition located (n : Node) (h : Z) (l : list bytes) : Prop :=
  exists heights, Forall2 (stands n) heights l /\ StronglySorted Z.gt heights /\ Forall (fun x => h < x <= Node.height n) heights.

Lemma StronglySorted_snoc (hs : list Z) h : StronglySorted Z.gt hs -> Forall (fun x => h < x) hs -> StronglySorted Z.gt (hs ++ [h]).
Proof using.
  induction 1 as [|x hs Hs' IH Hx]; intros Hall; [repeat constructor|]. apply Forall_cons in Hall as [Hh Hall].
  cbn. constructor; [by apply IH|]. apply Forall_app. split; [done|]. apply Forall_singleton. lia.
Qed.
Lemma located_mono n h h' l : h' <= h -> located n h l -> located n h' l.
Proof. intros Hle (hs & H1 & H2 & H3). exists hs. split_and!; [done..|]. eapply Forall_impl; [exact H3|]. cbn. lia. Qed.
Lemma located_push n h l hash : h <= Node.height n -> stands n h hash -> located n h l -> located n (h - 1) (NodeQueries.push_new l hash).
Proof.
  intros Hh Hstand Hl. unfold NodeQueries.push_new. case_bool_decide; [by eapply located_mono; [|exact Hl]; lia|].
  destruct Hl as (hs & H1 & H2 & H3). exists (hs ++ [h]). split_and!.
  - apply Forall2_app; [done|]. constructor; [done|constructor].
  - apply StronglySorted_snoc; [done|]. eapply Forall_impl; [exact H3|]. cbn. lia.
  - apply Forall_app. split; [|apply Forall_singleton; lia]. eapply Forall_impl; [exact H3|]. cbn. lia.
Qed.
Lemma located_round n h l : h <= Node.height n -> located n h l -> located n (h - 1) (NodeQueries.locator_push n h l).
Proof.
  intros Hh Hl. unfold NodeQueries.locator_push.
  destruct (NodeQueries.block_record_by_height n h) as [r|] eqn:Hr; [apply located_push; [done|left; by eauto|done]|].
  destruct (h =? Node.height n) eqn:E; [apply located_push; [done|right; split; [lia|done]|done]|].
  eapply located_mono; [|exact Hl]. lia.
Qed.
Lemma locator_loop_spec n rounds h step l :
  0 <= h <= Node.height n -> 1 <= step <= U64_MAX -> located n h l -> zlen l <= MAX_LOCATOR_HASHES - 2 \/ h = 0 /\ zlen l < MAX_LOCATOR_HASHES ->
  located n (-1) (NodeQueries.locator_loop n rounds h step l) /\ zlen (NodeQueries.locator_loop n rounds h step l) <= MAX_LOCATOR_HASHES.
Proof.
  revert h step l. induction rounds as [|rounds IH]; intros h step l Hh Hstep Hl Hlen; cbn [NodeQueries.locator_loop];
    pose proof (zlen_locator_push n h l) as Hpush; pose proof (located_round n h l ltac:(lia) Hl) as Hround;
    unfold MAX_LOCATOR_HASHES in *.
  - split; [eapply located_mono; [|exact Hround]; lia|lia].
  - set (l' := NodeQueries.locator_push n h l) in *. destruct (_ || _) eqn:Estop.
    + split; [eapply located_mono; [|exact Hround]; lia|lia].
    + apply orb_false_iff in Estop as [Hz Hfull].
      set (step' := if LINEAR_RECENT_HASHES <=? zlen l' then _ else _).
      assert (1 <= step' <= U64_MAX) 
        by (assert (0 < U64_MAX) by done; unfold step', saturating_mul; destruct (LINEAR_RECENT_HASHES <=? zlen l'); lia).
      apply IH; unfold saturating_sub; [lia|done|eapply located_mono; [|exact Hround]; lia|left; lia].
Qed.

(** The locator a node sends is never longer than the 32 hashes of a message and
    ends with genesis; but for genesis it consists of hashes of its own chain, from the
    tip down, at strictly decreasing heights. *)
Theorem node_locator_shape n : 0 <= Node.height n ->
  let locator := NodeQueries.block_locator_hashes n in
  zlen locator <= MAX_LOCATOR_HASHES /\ last locator = Some (genesis_hash (Node.network n)) /\
  exists own, located n (-1) own /\ (locator = own \/ locator = own ++ [genesis_hash (Node.network n)]).
Proof.
  intros Hh. unfold NodeQueries.block_locator_hashes.
  destruct (locator_loop_spec n (Z.to_nat (Node.height n)) (Node.height n) 1 []) as [Hloc Hlen].
  - lia.
  - by unfold U64_MAX.
  - exists []. split_and!; constructor.
  - left. by vm_compute.
  - set (l := NodeQueries.locator_loop _ _ _ _ _) in *. cbn zeta. case_bool_decide as Hlast.
    + split_and!; [done..|]. exists l. by split; [|left].
    + split_and!.
      * rewrite zlen_app. change (zlen [_]) with 1. destruct (MAX_LOCATOR_HASHES <=? zlen l) eqn:E; [|lia].
        rewrite removelast_firstn_len. unfold zlen in *. rewrite length_firstn. unfold MAX_LOCATOR_HASHES in *. lia.
      * by rewrite last_snoc.
      * eexists. split; [|right; reflexivity]. destruct (MAX_LOCATOR_HASHES <=? zlen l); [|done].
        destruct Hloc as (hs & H1 & H2 & H3). rewrite removelast_firstn_len. set (k := Nat.pred (length l)).
        exists (take k hs). split_and!; [by apply Forall2_take| |by apply Forall_take].
        rewrite <- (take_drop k hs) in H2. by apply StronglySorted_app_1_l in H2.
Qed.
End locator.
