(* ===== verification/NodeSync.v ===== *)
(** * Node synchronization: the state

    crates/atho-node/src/sync.rs: the record that drives synchronization, what it knows
    of each block and of each peer, its limits, and the queries and updates that send
    nothing. [NodeSyncBlocks] and [NodeSyncPeers] model the rest of the file. Log lines
    are left out. What a call reads from outside the state, the clocks and the
    overrides of the reorganization depth, is the class [Moment]: one reading per call. *)
From stdpp Require Import options.
From S2P Require Import Prelude Bytes Text Constants Crypto Keccak Network Rules Transaction Block Pow.
From S2P Require Import Genesis Errors Utxo Validation BlockValidation Chainstate Db Mempool Node.
From S2P Require Import P2pConfig Protocol CompactBlock Handshake BanList HeadersSync Downloader IpAddr AddressManager.
From S2P Require Import Connection Relay SideBranches NodeQueries.

#[local] Set Default Proof Using "Type*".

(** The clock in milliseconds ([SystemTime], [Instant]). *)
Class Moment := { system_millis : Z; instant_millis : Z; node_env : Env }.

(* src: node_sync.rs:31-31 SYNC_METRICS_LOG_INTERVAL_SECS *)
Definition SYNC_METRICS_LOG_INTERVAL_SECS : Z := 10.
(* src: node_sync.rs:33-33 MAX_PENDING_COMPACT_BLOCKS *)
Definition MAX_PENDING_COMPACT_BLOCKS : Z := 256.
(** In milliseconds. *)
(* src: node_sync.rs:34-34 PENDING_COMPACT_BLOCK_TIMEOUT *)
Definition PENDING_COMPACT_BLOCK_TIMEOUT : Z := 30000.
(* src: node_sync.rs:35-35 MAX_BUFFERED_EXTENSION_CONNECT_BLOCKS_PER_PASS *)
Definition MAX_BUFFERED_EXTENSION_CONNECT_BLOCKS_PER_PASS : Z := 256.
(* src: node_sync.rs:36-36 MAX_ORPHAN_PARENT_REQUESTS_PER_PASS *)
Definition MAX_ORPHAN_PARENT_REQUESTS_PER_PASS : Z := 16.
(* src: node_sync.rs:37-37 BRIDGE_PARENT_STAGE_LOOKAHEAD *)
Definition BRIDGE_PARENT_STAGE_LOOKAHEAD : Z := 128.
(* src: node_sync.rs:38-38 POST_HANDSHAKE_PROTOCOL_ERROR_SCORE *)
Definition POST_HANDSHAKE_PROTOCOL_ERROR_SCORE : Z := 50.
(* src: node_sync.rs:39-39 ADDR_SPAM_MISBEHAVIOR_SCORE *)
Definition ADDR_SPAM_MISBEHAVIOR_SCORE : Z := 10.
(* src: node_sync.rs:40-40 PEER_UNSERVED_ADVERTISED_HEIGHT_SCORE *)
Definition PEER_UNSERVED_ADVERTISED_HEIGHT_SCORE : Z := 25.
(* src: node_sync.rs:42-42 ADDR_DISCOVERY_INTERVAL_SECS *)
Definition ADDR_DISCOVERY_INTERVAL_SECS : Z := 300.
(* src: node_sync.rs:43-43 ADDR_RELAY_INTERVAL_SECS *)
Definition ADDR_RELAY_INTERVAL_SECS : Z := 300.

(* src: node_sync.rs:45-58 BlockValidationState *)
Inductive BlockValidationState :=
| HeaderSeen | HeaderValidated | CheckpointAnchored | BodyRequested | BodyDownloaded | TempStoredUntrusted
| ValidationQueued | FullyValidated | Connected | Finalized | Invalid.
#[global] Instance BlockValidationState_eq_dec : EqDecision BlockValidationState.
Proof. solve_decision. Defined.
(* src: node_sync.rs:77-87 BlockValidationState::is_body_downloaded *)
Definition is_body_downloaded (state : BlockValidationState) : bool :=
  match state with
  | BodyDownloaded | TempStoredUntrusted | ValidationQueued | FullyValidated | Connected | Finalized => true
  | _ => false
  end.
(* src: node_sync.rs:89-94 BlockValidationState::is_untrusted_pending_validation *)
Definition is_untrusted_pending_validation (state : BlockValidationState) : bool :=
  match state with BodyDownloaded | TempStoredUntrusted | ValidationQueued => true | _ => false end.

(* src: node_sync.rs:97-119 FastDownloadDiagnostics *)
Record FastDownloadDiagnostics := {
  best_header_height : Z;
  best_downloaded_body_height : Z;
  best_validated_height : Z;
  best_connected_height : Z;
  latest_finalized_height : Z;
  latest_finalized_hash : bytes;
  pending_validation_blocks : Z;
  untrusted_downloaded_blocks : Z;
  untrusted_downloaded_bytes : Z;
  fast_download_enabled : bool;
  checkpoint_anchored_sync_enabled : bool;
  background_validation_enabled : bool;
  chain_validation_status : string;
  sync_mode : string;
  safe_to_mine : bool;
  safe_to_serve : bool;
  validation_lag_blocks : Z;
  fd_max_fast_download_ahead : Z;
  fd_max_untrusted_block_cache : Z;
  fd_max_pending_validation_blocks : Z;
}.
(* src: node_sync.rs:121-129 PeerSyncInconsistencySummary *)
Record PeerSyncInconsistencySummary := {
  best_advertised_peer_height : Z;
  best_serviceable_peer_height : Z;
  unresolved_advertised_height : bool;
  inconsistent_peer_count : Z;
  healthy_sync_peer_count : Z;
  sync_warning : option string;
}.
(* src: node_sync.rs:131-139 NodeSyncError *)
Inductive NodeSyncError :=
| SyncNodeError (e : NodeError)
| SyncProtocolError (e : ProtocolError)
| SyncConnectionError (e : ConnectionError).
(** [reason] as in [ConnectionEvent]. *)
(* src: node_sync.rs:141-145 SyncNotice *)
Inductive SyncNotice :=
| ReadyNotice (peer : bytes) (best_height : Z)
| DisconnectedNotice (peer : bytes) (reason : ProtocolError).

(* src: node_sync.rs:174-179 PendingCompactBlock *)
Record PendingCompactBlock := { pc_message : CompactBlockMessage; pc_overrides : gmap Z Transaction; received_at : Z }.
(** Whether a reason is set: the code has one text only. *)
(* src: node_sync.rs:197-203 PeerSyncObservation *)
Record PeerSyncObservation := {
  advertised_best_height : option Z;
  served_terminal_height : option Z;
  inconsistency_count : Z;
  last_inconsistency_reason : bool;
}.
Definition no_observation : PeerSyncObservation :=
  {| advertised_best_height := None; served_terminal_height := None; inconsistency_count := 0;
     last_inconsistency_reason := false |}.
(* src: node_sync.rs:206-211 PeerSyncObservation::has_unserved_advertised_height *)
Definition has_unserved_advertised_height (o : PeerSyncObservation) : bool :=
  match advertised_best_height o, served_terminal_height o with
  | Some advertised, Some served => (served <? advertised) && last_inconsistency_reason o
  | _, _ => false
  end.
(* src: node_sync.rs:214-218 AddrRateWindow *)
Record AddrRateWindow := { window_start_unix : Z; messages : Z }.

(* src: node_sync.rs:147-172 NodeSync *)
Record NodeSync := {
  ns_network : Network;
  relay : RelayLoop;
  connections : ConnectionManager;
  downloader : BlockDownloadScheduler;
  mempool_snapshot_peers : gset bytes;
  side_branches : SideBranchPool;
  pending_compact_blocks : gmap bytes PendingCompactBlock;
  pending_header_blocks : gmap Z (gmap bytes (gset bytes));
  header_requests_started : gmap bytes Z;
  addr_rate_windows : gmap bytes AddrRateWindow;
  last_addr_received_unix : option Z;
  getaddr_last_sent_unix : gmap bytes Z;
  addr_relay_last_sent_unix : gmap bytes Z;
  last_observed_tip : option bytes;
  last_block_progress_unix : Z;
  last_block_body_received_unix : Z;
  last_sync_metrics_log_unix : Z;
  last_stale_recovery_unix : Z;
  stale_recovery_count : Z;
  peer_sync_observations : gmap bytes PeerSyncObservation;
  last_urgent_bridge_parent_request_unix : gmap bytes Z;
  block_validation_states : gmap bytes BlockValidationState;
  block_validation_heights : gmap bytes Z;
}.

Module NodeSync.

(** ** The state *)

Section state.
Context `{Henv : ProcessEnv, Hs : Sha3}.

(* src: node_sync.rs:394-420 NodeSync::new *)
Definition new (network : Network) : NodeSync :=
  {| ns_network := network; relay := RelayLoop.new network; connections := ConnectionManager.new network;
     downloader := Scheduler.initial; mempool_snapshot_peers := ∅; side_branches := SideBranchPool.empty;
     pending_compact_blocks := ∅; pending_header_blocks := ∅; header_requests_started := ∅; addr_rate_windows := ∅;
     last_addr_received_unix := None; getaddr_last_sent_unix := ∅; addr_relay_last_sent_unix := ∅;
     last_observed_tip := None; last_block_progress_unix := 0; last_block_body_received_unix := 0;
     last_sync_metrics_log_unix := 0; last_stale_recovery_unix := 0; stale_recovery_count := 0;
     peer_sync_observations := ∅; last_urgent_bridge_parent_request_unix := ∅; block_validation_states := ∅;
     block_validation_heights := ∅ |}.
End state.

(** Changing one field. *)
Definition with_relay (s : NodeSync) (r : RelayLoop) : NodeSync :=
  {| ns_network := ns_network s; relay := r; connections := connections s; downloader := downloader s;
     mempool_snapshot_peers := mempool_snapshot_peers s; side_branches := side_branches s;
     pending_compact_blocks := pending_compact_blocks s; pending_header_blocks := pending_header_blocks s;
     header_requests_started := header_requests_started s; addr_rate_windows := addr_rate_windows s;
     last_addr_received_unix := last_addr_received_unix s; getaddr_last_sent_unix := getaddr_last_sent_unix s;
     addr_relay_last_sent_unix := addr_relay_last_sent_unix s; last_observed_tip := last_observed_tip s;
     last_block_progress_unix := last_block_progress_unix s;
     last_block_body_received_unix := last_block_body_received_unix s;
     last_sync_metrics_log_unix := last_sync_metrics_log_unix s;
     last_stale_recovery_unix := last_stale_recovery_unix s; stale_recovery_count := stale_recovery_count s;
     peer_sync_observations := peer_sync_observations s;
     last_urgent_bridge_parent_request_unix := last_urgent_bridge_parent_request_unix s;
     block_validation_states := block_validation_states s; block_validation_heights := block_validation_heights s |}.
Definition with_connections (s : NodeSync) (c : ConnectionManager) : NodeSync :=
  {| ns_network := ns_network s; relay := relay s; connections := c; downloader := downloader s;
     mempool_snapshot_peers := mempool_snapshot_peers s; side_branches := side_branches s;
     pending_compact_blocks := pending_compact_blocks s; pending_header_blocks := pending_header_blocks s;
     header_requests_started := header_requests_started s; addr_rate_windows := addr_rate_windows s;
     last_addr_received_unix := last_addr_received_unix s; getaddr_last_sent_unix := getaddr_last_sent_unix s;
     addr_relay_last_sent_unix := addr_relay_last_sent_unix s; last_observed_tip := last_observed_tip s;
     last_block_progress_unix := last_block_progress_unix s;
     last_block_body_received_unix := last_block_body_received_unix s;
     last_sync_metrics_log_unix := last_sync_metrics_log_unix s;
     last_stale_recovery_unix := last_stale_recovery_unix s; stale_recovery_count := stale_recovery_count s;
     peer_sync_observations := peer_sync_observations s;
     last_urgent_bridge_parent_request_unix := last_urgent_bridge_parent_request_unix s;
     block_validation_states := block_validation_states s; block_validation_heights := block_validation_heights s |}.
Definition with_downloader (s : NodeSync) (d : BlockDownloadScheduler) : NodeSync :=
  {| ns_network := ns_network s; relay := relay s; connections := connections s; downloader := d;
     mempool_snapshot_peers := mempool_snapshot_peers s; side_branches := side_branches s;
     pending_compact_blocks := pending_compact_blocks s; pending_header_blocks := pending_header_blocks s;
     header_requests_started := header_requests_started s; addr_rate_windows := addr_rate_windows s;
     last_addr_received_unix := last_addr_received_unix s; getaddr_last_sent_unix := getaddr_last_sent_unix s;
     addr_relay_last_sent_unix := addr_relay_last_sent_unix s; last_observed_tip := last_observed_tip s;
     last_block_progress_unix := last_block_progress_unix s;
     last_block_body_received_unix := last_block_body_received_unix s;
     last_sync_metrics_log_unix := last_sync_metrics_log_unix s;
     last_stale_recovery_unix := last_stale_recovery_unix s; stale_recovery_count := stale_recovery_count s;
     peer_sync_observations := peer_sync_observations s;
     last_urgent_bridge_parent_request_unix := last_urgent_bridge_parent_request_unix s;
     block_validation_states := block_validation_states s; block_validation_heights := block_validation_heights s |}.
Definition with_snapshot_peers (s : NodeSync) (peers : gset bytes) : NodeSync :=
  {| ns_network := ns_network s; relay := relay s; connections := connections s; downloader := downloader s;
     mempool_snapshot_peers := peers; side_branches := side_branches s;
     pending_compact_blocks := pending_compact_blocks s; pending_header_blocks := pending_header_blocks s;
     header_requests_started := header_requests_started s; addr_rate_windows := addr_rate_windows s;
     last_addr_received_unix := last_addr_received_unix s; getaddr_last_sent_unix := getaddr_last_sent_unix s;
     addr_relay_last_sent_unix := addr_relay_last_sent_unix s; last_observed_tip := last_observed_tip s;
     last_block_progress_unix := last_block_progress_unix s;
     last_block_body_received_unix := last_block_body_received_unix s;
     last_sync_metrics_log_unix := last_sync_metrics_log_unix s;
     last_stale_recovery_unix := last_stale_recovery_unix s; stale_recovery_count := stale_recovery_count s;
     peer_sync_observations := peer_sync_observations s;
     last_urgent_bridge_parent_request_unix := last_urgent_bridge_parent_request_unix s;
     block_validation_states := block_validation_states s; block_validation_heights := block_validation_heights s |}.
Definition with_branches (s : NodeSync) (p : SideBranchPool) : NodeSync :=
  {| ns_network := ns_network s; relay := relay s; connections := connections s; downloader := downloader s;
     mempool_snapshot_peers := mempool_snapshot_peers s; side_branches := p;
     pending_compact_blocks := pending_compact_blocks s; pending_header_blocks := pending_header_blocks s;
     header_requests_started := header_requests_started s; addr_rate_windows := addr_rate_windows s;
     last_addr_received_unix := last_addr_received_unix s; getaddr_last_sent_unix := getaddr_last_sent_unix s;
     addr_relay_last_sent_unix := addr_relay_last_sent_unix s; last_observed_tip := last_observed_tip s;
     last_block_progress_unix := last_block_progress_unix s;
     last_block_body_received_unix := last_block_body_received_unix s;
     last_sync_metrics_log_unix := last_sync_metrics_log_unix s;
     last_stale_recovery_unix := last_stale_recovery_unix s; stale_recovery_count := stale_recovery_count s;
     peer_sync_observations := peer_sync_observations s;
     last_urgent_bridge_parent_request_unix := last_urgent_bridge_parent_request_unix s;
     block_validation_states := block_validation_states s; block_validation_heights := block_validation_heights s |}.
Definition with_compact (s : NodeSync) (m : gmap bytes PendingCompactBlock) : NodeSync :=
  {| ns_network := ns_network s; relay := relay s; connections := connections s; downloader := downloader s;
     mempool_snapshot_peers := mempool_snapshot_peers s; side_branches := side_branches s;
     pending_compact_blocks := m; pending_header_blocks := pending_header_blocks s;
     header_requests_started := header_requests_started s; addr_rate_windows := addr_rate_windows s;
     last_addr_received_unix := last_addr_received_unix s; getaddr_last_sent_unix := getaddr_last_sent_unix s;
     addr_relay_last_sent_unix := addr_relay_last_sent_unix s; last_observed_tip := last_observed_tip s;
     last_block_progress_unix := last_block_progress_unix s;
     last_block_body_received_unix := last_block_body_received_unix s;
     last_sync_metrics_log_unix := last_sync_metrics_log_unix s;
     last_stale_recovery_unix := last_stale_recovery_unix s; stale_recovery_count := stale_recovery_count s;
     peer_sync_observations := peer_sync_observations s;
     last_urgent_bridge_parent_request_unix := last_urgent_bridge_parent_request_unix s;
     block_validation_states := block_validation_states s; block_validation_heights := block_validation_heights s |}.
Definition with_pending_headers (s : NodeSync) (m : gmap Z (gmap bytes (gset bytes))) : NodeSync :=
  {| ns_network := ns_network s; relay := relay s; connections := connections s; downloader := downloader s;
     mempool_snapshot_peers := mempool_snapshot_peers s; side_branches := side_branches s;
     pending_compact_blocks := pending_compact_blocks s; pending_header_blocks := m;
     header_requests_started := header_requests_started s; addr_rate_windows := addr_rate_windows s;
     last_addr_received_unix := last_addr_received_unix s; getaddr_last_sent_unix := getaddr_last_sent_unix s;
     addr_relay_last_sent_unix := addr_relay_last_sent_unix s; last_observed_tip := last_observed_tip s;
     last_block_progress_unix := last_block_progress_unix s;
     last_block_body_received_unix := last_block_body_received_unix s;
     last_sync_metrics_log_unix := last_sync_metrics_log_unix s;
     last_stale_recovery_unix := last_stale_recovery_unix s; stale_recovery_count := stale_recovery_count s;
     peer_sync_observations := peer_sync_observations s;
     last_urgent_bridge_parent_request_unix := last_urgent_bridge_parent_request_unix s;
     block_validation_states := block_validation_states s; block_validation_heights := block_validation_heights s |}.
Definition with_requests_started (s : NodeSync) (m : gmap bytes Z) : NodeSync :=
  {| ns_network := ns_network s; relay := relay s; connections := connections s; downloader := downloader s;
     mempool_snapshot_peers := mempool_snapshot_peers s; side_branches := side_branches s;
     pending_compact_blocks := pending_compact_blocks s; pending_header_blocks := pending_header_blocks s;
     header_requests_started := m; addr_rate_windows := addr_rate_windows s;
     last_addr_received_unix := last_addr_received_unix s; getaddr_last_sent_unix := getaddr_last_sent_unix s;
     addr_relay_last_sent_unix := addr_relay_last_sent_unix s; last_observed_tip := last_observed_tip s;
     last_block_progress_unix := last_block_progress_unix s;
     last_block_body_received_unix := last_block_body_received_unix s;
     last_sync_metrics_log_unix := last_sync_metrics_log_unix s;
     last_stale_recovery_unix := last_stale_recovery_unix s; stale_recovery_count := stale_recovery_count s;
     peer_sync_observations := peer_sync_observations s;
     last_urgent_bridge_parent_request_unix := last_urgent_bridge_parent_request_unix s;
     block_validation_states := block_validation_states s; block_validation_heights := block_validation_heights s |}.
Definition with_addr_windows (s : NodeSync) (m : gmap bytes AddrRateWindow) : NodeSync :=
  {| ns_network := ns_network s; relay := relay s; connections := connections s; downloader := downloader s;
     mempool_snapshot_peers := mempool_snapshot_peers s; side_branches := side_branches s;
     pending_compact_blocks := pending_compact_blocks s; pending_header_blocks := pending_header_blocks s;
     header_requests_started := header_requests_started s; addr_rate_windows := m;
     last_addr_received_unix := last_addr_received_unix s; getaddr_last_sent_unix := getaddr_last_sent_unix s;
     addr_relay_last_sent_unix := addr_relay_last_sent_unix s; last_observed_tip := last_observed_tip s;
     last_block_progress_unix := last_block_progress_unix s;
     last_block_body_received_unix := last_block_body_received_unix s;
     last_sync_metrics_log_unix := last_sync_metrics_log_unix s;
     last_stale_recovery_unix := last_stale_recovery_unix s; stale_recovery_count := stale_recovery_count s;
     peer_sync_observations := peer_sync_observations s;
     last_urgent_bridge_parent_request_unix := last_urgent_bridge_parent_request_unix s;
     block_validation_states := block_validation_states s; block_validation_heights := block_validation_heights s |}.
Definition with_addr_received (s : NodeSync) (t : option Z) : NodeSync :=
  {| ns_network := ns_network s; relay := relay s; connections := connections s; downloader := downloader s;
     mempool_snapshot_peers := mempool_snapshot_peers s; side_branches := side_branches s;
     pending_compact_blocks := pending_compact_blocks s; pending_header_blocks := pending_header_blocks s;
     header_requests_started := header_requests_started s; addr_rate_windows := addr_rate_windows s;
     last_addr_received_unix := t; getaddr_last_sent_unix := getaddr_last_sent_unix s;
     addr_relay_last_sent_unix := addr_relay_last_sent_unix s; last_observed_tip := last_observed_tip s;
     last_block_progress_unix := last_block_progress_unix s;
     last_block_body_received_unix := last_block_body_received_unix s;
     last_sync_metrics_log_unix := last_sync_metrics_log_unix s;
     last_stale_recovery_unix := last_stale_recovery_unix s; stale_recovery_count := stale_recovery_count s;
     peer_sync_observations := peer_sync_observations s;
     last_urgent_bridge_parent_request_unix := last_urgent_bridge_parent_request_unix s;
     block_validation_states := block_validation_states s; block_validation_heights := block_validation_heights s |}.
Definition with_getaddr_sent (s : NodeSync) (m : gmap bytes Z) : NodeSync :=
  {| ns_network := ns_network s; relay := relay s; connections := connections s; downloader := downloader s;
     mempool_snapshot_peers := mempool_snapshot_peers s; side_branches := side_branches s;
     pending_compact_blocks := pending_compact_blocks s; pending_header_blocks := pending_header_blocks s;
     header_requests_started := header_requests_started s; addr_rate_windows := addr_rate_windows s;
     last_addr_received_unix := last_addr_received_unix s; getaddr_last_sent_unix := m;
     addr_relay_last_sent_unix := addr_relay_last_sent_unix s; last_observed_tip := last_observed_tip s;
     last_block_progress_unix := last_block_progress_unix s;
     last_block_body_received_unix := last_block_body_received_unix s;
     last_sync_metrics_log_unix := last_sync_metrics_log_unix s;
     last_stale_recovery_unix := last_stale_recovery_unix s; stale_recovery_count := stale_recovery_count s;
     peer_sync_observations := peer_sync_observations s;
     last_urgent_bridge_parent_request_unix := last_urgent_bridge_parent_request_unix s;
     block_validation_states := block_validation_states s; block_validation_heights := block_validation_heights s |}.
Definition with_addr_relay_sent (s : NodeSync) (m : gmap bytes Z) : NodeSync :=
  {| ns_network := ns_network s; relay := relay s; connections := connections s; downloader := downloader s;
     mempool_snapshot_peers := mempool_snapshot_peers s; side_branches := side_branches s;
     pending_compact_blocks := pending_compact_blocks s; pending_header_blocks := pending_header_blocks s;
     header_requests_started := header_requests_started s; addr_rate_windows := addr_rate_windows s;
     last_addr_received_unix := last_addr_received_unix s; getaddr_last_sent_unix := getaddr_last_sent_unix s;
     addr_relay_last_sent_unix := m; last_observed_tip := last_observed_tip s;
     last_block_progress_unix := last_block_progress_unix s;
     last_block_body_received_unix := last_block_body_received_unix s;
     last_sync_metrics_log_unix := last_sync_metrics_log_unix s;
     last_stale_recovery_unix := last_stale_recovery_unix s; stale_recovery_count := stale_recovery_count s;
     peer_sync_observations := peer_sync_observations s;
     last_urgent_bridge_parent_request_unix := last_urgent_bridge_parent_request_unix s;
     block_validation_states := block_validation_states s; block_validation_heights := block_validation_heights s |}.
Definition with_progress (s : NodeSync) (tip : option bytes) (t : Z) : NodeSync :=
  {| ns_network := ns_network s; relay := relay s; connections := connections s; downloader := downloader s;
     mempool_snapshot_peers := mempool_snapshot_peers s; side_branches := side_branches s;
     pending_compact_blocks := pending_compact_blocks s; pending_header_blocks := pending_header_blocks s;
     header_requests_started := header_requests_started s; addr_rate_windows := addr_rate_windows s;
     last_addr_received_unix := last_addr_received_unix s; getaddr_last_sent_unix := getaddr_last_sent_unix s;
     addr_relay_last_sent_unix := addr_relay_last_sent_unix s; last_observed_tip := tip;
     last_block_progress_unix := t; last_block_body_received_unix := last_block_body_received_unix s;
     last_sync_metrics_log_unix := last_sync_metrics_log_unix s;
     last_stale_recovery_unix := last_stale_recovery_unix s; stale_recovery_count := stale_recovery_count s;
     peer_sync_observations := peer_sync_observations s;
     last_urgent_bridge_parent_request_unix := last_urgent_bridge_parent_request_unix s;
     block_validation_states := block_validation_states s; block_validation_heights := block_validation_heights s |}.
Definition with_body_received (s : NodeSync) (t : Z) : NodeSync :=
  {| ns_network := ns_network s; relay := relay s; connections := connections s; downloader := downloader s;
     mempool_snapshot_peers := mempool_snapshot_peers s; side_branches := side_branches s;
     pending_compact_blocks := pending_compact_blocks s; pending_header_blocks := pending_header_blocks s;
     header_requests_started := header_requests_started s; addr_rate_windows := addr_rate_windows s;
     last_addr_received_unix := last_addr_received_unix s; getaddr_last_sent_unix := getaddr_last_sent_unix s;
     addr_relay_last_sent_unix := addr_relay_last_sent_unix s; last_observed_tip := last_observed_tip s;
     last_block_progress_unix := last_block_progress_unix s; last_block_body_received_unix := t;
     last_sync_metrics_log_unix := last_sync_metrics_log_unix s;
     last_stale_recovery_unix := last_stale_recovery_unix s; stale_recovery_count := stale_recovery_count s;
     peer_sync_observations := peer_sync_observations s;
     last_urgent_bridge_parent_request_unix := last_urgent_bridge_parent_request_unix s;
     block_validation_states := block_validation_states s; block_validation_heights := block_validation_heights s |}.
Definition with_metrics_log (s : NodeSync) (t : Z) : NodeSync :=
  {| ns_network := ns_network s; relay := relay s; connections := connections s; downloader := downloader s;
     mempool_snapshot_peers := mempool_snapshot_peers s; side_branches := side_branches s;
     pending_compact_blocks := pending_compact_blocks s; pending_header_blocks := pending_header_blocks s;
     header_requests_started := header_requests_started s; addr_rate_windows := addr_rate_windows s;
     last_addr_received_unix := last_addr_received_unix s; getaddr_last_sent_unix := getaddr_last_sent_unix s;
     addr_relay_last_sent_unix := addr_relay_last_sent_unix s; last_observed_tip := last_observed_tip s;
     last_block_progress_unix := last_block_progress_unix s;
     last_block_body_received_unix := last_block_body_received_unix s; last_sync_metrics_log_unix := t;
     last_stale_recovery_unix := last_stale_recovery_unix s; stale_recovery_count := stale_recovery_count s;
     peer_sync_observations := peer_sync_observations s;
     last_urgent_bridge_parent_request_unix := last_urgent_bridge_parent_request_unix s;
     block_validation_states := block_validation_states s; block_validation_heights := block_validation_heights s |}.
Definition with_recovery (s : NodeSync) (t : Z) (count : Z) : NodeSync :=
  {| ns_network := ns_network s; relay := relay s; connections := connections s; downloader := downloader s;
     mempool_snapshot_peers := mempool_snapshot_peers s; side_branches := side_branches s;
     pending_compact_blocks := pending_compact_blocks s; pending_header_blocks := pending_header_blocks s;
     header_requests_started := header_requests_started s; addr_rate_windows := addr_rate_windows s;
     last_addr_received_unix := last_addr_received_unix s; getaddr_last_sent_unix := getaddr_last_sent_unix s;
     addr_relay_last_sent_unix := addr_relay_last_sent_unix s; last_observed_tip := last_observed_tip s;
     last_block_progress_unix := last_block_progress_unix s;
     last_block_body_received_unix := last_block_body_received_unix s;
     last_sync_metrics_log_unix := last_sync_metrics_log_unix s; last_stale_recovery_unix := t;
     stale_recovery_count := count; peer_sync_observations := peer_sync_observations s;
     last_urgent_bridge_parent_request_unix := last_urgent_bridge_parent_request_unix s;
     block_validation_states := block_validation_states s; block_validation_heights := block_validation_heights s |}.
Definition with_observations (s : NodeSync) (m : gmap bytes PeerSyncObservation) : NodeSync :=
  {| ns_network := ns_network s; relay := relay s; connections := connections s; downloader := downloader s;
     mempool_snapshot_peers := mempool_snapshot_peers s; side_branches := side_branches s;
     pending_compact_blocks := pending_compact_blocks s; pending_header_blocks := pending_header_blocks s;
     header_requests_started := header_requests_started s; addr_rate_windows := addr_rate_windows s;
     last_addr_received_unix := last_addr_received_unix s; getaddr_last_sent_unix := getaddr_last_sent_unix s;
     addr_relay_last_sent_unix := addr_relay_last_sent_unix s; last_observed_tip := last_observed_tip s;
     last_block_progress_unix := last_block_progress_unix s;
     last_block_body_received_unix := last_block_body_received_unix s;
     last_sync_metrics_log_unix := last_sync_metrics_log_unix s;
     last_stale_recovery_unix := last_stale_recovery_unix s; stale_recovery_count := stale_recovery_count s;
     peer_sync_observations := m; last_urgent_bridge_parent_request_unix := last_urgent_bridge_parent_request_unix s;
     block_validation_states := block_validation_states s; block_validation_heights := block_validation_heights s |}.
Definition with_urgent (s : NodeSync) (m : gmap bytes Z) : NodeSync :=
  {| ns_network := ns_network s; relay := relay s; connections := connections s; downloader := downloader s;
     mempool_snapshot_peers := mempool_snapshot_peers s; side_branches := side_branches s;
     pending_compact_blocks := pending_compact_blocks s; pending_header_blocks := pending_header_blocks s;
     header_requests_started := header_requests_started s; addr_rate_windows := addr_rate_windows s;
     last_addr_received_unix := last_addr_received_unix s; getaddr_last_sent_unix := getaddr_last_sent_unix s;
     addr_relay_last_sent_unix := addr_relay_last_sent_unix s; last_observed_tip := last_observed_tip s;
     last_block_progress_unix := last_block_progress_unix s;
     last_block_body_received_unix := last_block_body_received_unix s;
     last_sync_metrics_log_unix := last_sync_metrics_log_unix s;
     last_stale_recovery_unix := last_stale_recovery_unix s; stale_recovery_count := stale_recovery_count s;
     peer_sync_observations := peer_sync_observations s; last_urgent_bridge_parent_request_unix := m;
     block_validation_states := block_validation_states s; block_validation_heights := block_validation_heights s |}.
Definition with_states (s : NodeSync) (states : gmap bytes BlockValidationState) (heights : gmap bytes Z) : NodeSync :=
  {| ns_network := ns_network s; relay := relay s; connections := connections s; downloader := downloader s;
     mempool_snapshot_peers := mempool_snapshot_peers s; side_branches := side_branches s;
     pending_compact_blocks := pending_compact_blocks s; pending_header_blocks := pending_header_blocks s;
     header_requests_started := header_requests_started s; addr_rate_windows := addr_rate_windows s;
     last_addr_received_unix := last_addr_received_unix s; getaddr_last_sent_unix := getaddr_last_sent_unix s;
     addr_relay_last_sent_unix := addr_relay_last_sent_unix s; last_observed_tip := last_observed_tip s;
     last_block_progress_unix := last_block_progress_unix s;
     last_block_body_received_unix := last_block_body_received_unix s;
     last_sync_metrics_log_unix := last_sync_metrics_log_unix s;
     last_stale_recovery_unix := last_stale_recovery_unix s; stale_recovery_count := stale_recovery_count s;
     peer_sync_observations := peer_sync_observations s;
     last_urgent_bridge_parent_request_unix := last_urgent_bridge_parent_request_unix s;
     block_validation_states := states; block_validation_heights := heights |}.

Section sync.
Context `{Henv : ProcessEnv, Hs : Sha3, Hf : FalconBackend, Hg : !GenesisReady Hs, Hd : Database, Ha : !Archive, Hm : Moment}.

(* src: node_sync.rs:3630-3635 now_unix *)
Definition now_unix : Z := system_millis / 1000.
Definition limits_of (s : NodeSync) : P2pLimits := network_limits (ns_network s).
(* src: node_sync.rs:427-429 NodeSync::sync_state *)
Definition sync_state (s : NodeSync) : SyncState := rl_sync (relay s).
(** [connections.peer_snapshots()], those that are ready. *)
Definition ready_snapshots (s : NodeSync) : list PeerSessionSnapshot :=
  filter (fun peer => sn_handshake_ready peer = true) (ConnectionManager.peer_snapshots (connections s)).
(* src: node_sync.rs:788-794 NodeSync::ready_peer_count *)
Definition ready_peer_count (s : NodeSync) : Z := zlen (ready_snapshots s).
(* src: node_sync.rs:1772-1777 NodeSync::peer_is_ready *)
Definition peer_is_ready (s : NodeSync) (remote_addr : bytes) : bool :=
  existsb (fun peer => bool_decide (sn_remote_addr peer = remote_addr)) (ready_snapshots s).
(** [Iterator::max] of heights. *)
Definition max_of (heights : list Z) : option Z :=
  foldl (fun best h => Some (match best with None => h | Some b => Z.max b h end)) None heights.
(* src: node_sync.rs:1150-1157 NodeSync::live_peer_best_height *)
Definition live_peer_best_height (s : NodeSync) : option Z := max_of (omap sn_best_height (ready_snapshots s)).

(** What the node tells of its tip. *)
Definition local_tip_hash (n : Node) : option Hash48 := Some (Node.tip_hash n).
Definition local_chainwork (n : Node) : option Hash48 := Some (NodeQueries.chainwork_bytes n).
Definition local_tip_satisfies (s : NodeSync) (n : Node) : bool :=
  SyncState.local_tip_satisfies_target (sync_state s) (Node.height n) (local_tip_hash n) (local_chainwork n).
Definition finalized (n : Node) : option FinalizedCheckpoint := found (NodeQueries.finalized_checkpoint node_env n).

(** ** Peers and what they claim *)

(** One round of the loop over the ready peers, with the best height of a healthy one. *)
Definition summarize (s : NodeSync) (acc : PeerSyncInconsistencySummary * Z) (peer : PeerSessionSnapshot) :
    PeerSyncInconsistencySummary * Z :=
  let '(summary, best_healthy_height) := acc in
  let observation := peer_sync_observations s !! sn_remote_addr peer in
  let advertised_height :=
    match observation ≫= advertised_best_height with
    | Some h => h
    | None => default 0 (sn_best_height peer)
    end in
  let serviceable :=
    match observation ≫= served_terminal_height with
    | Some served => Z.max (best_serviceable_peer_height summary) served
    | None => best_serviceable_peer_height summary
    end in
  let inconsistent := match observation with Some o => has_unserved_advertised_height o | None => false end in
  ({| best_advertised_peer_height := Z.max (best_advertised_peer_height summary) advertised_height;
      best_serviceable_peer_height := serviceable;
      unresolved_advertised_height := unresolved_advertised_height summary;
      inconsistent_peer_count := (if inconsistent then saturating_add USIZE_MAX (inconsistent_peer_count summary) 1
                                  else inconsistent_peer_count summary);
      healthy_sync_peer_count := (if inconsistent then healthy_sync_peer_count summary
                                  else saturating_add USIZE_MAX (healthy_sync_peer_count summary) 1);
      sync_warning := sync_warning summary |},
   if inconsistent then best_healthy_height else Z.max best_healthy_height advertised_height).
(* src: node_sync.rs:459-501 NodeSync::peer_sync_inconsistency_summary *)
Definition peer_sync_inconsistency_summary (s : NodeSync) : PeerSyncInconsistencySummary :=
  let start := {| best_advertised_peer_height := 0; best_serviceable_peer_height := 0; unresolved_advertised_height := false;
                  inconsistent_peer_count := 0; healthy_sync_peer_count := 0; sync_warning := None |} in
  let '(summary, best_healthy_height) := foldl (summarize s) (start, 0) (ready_snapshots s) in
  let serviceable := Z.max (best_serviceable_peer_height summary) best_healthy_height in
  let unresolved := (0 <? inconsistent_peer_count summary) && (serviceable <? best_advertised_peer_height summary) in
  {| best_advertised_peer_height := best_advertised_peer_height summary; best_serviceable_peer_height := serviceable;
     unresolved_advertised_height := unresolved; inconsistent_peer_count := inconsistent_peer_count summary;
     healthy_sync_peer_count := healthy_sync_peer_count summary;
     sync_warning := if unresolved then Some "peer_advertised_unserved_height"%string else None |}.
(* src: node_sync.rs:1901-1904 NodeSync::has_unresolved_advertised_height *)
Definition has_unresolved_advertised_height (s : NodeSync) (n : Node) : bool :=
  let summary := peer_sync_inconsistency_summary s in
  unresolved_advertised_height summary && (Node.height n <? best_advertised_peer_height summary).
(* src: node_sync.rs:3347-3355 NodeSync::chain_synced *)
Definition chain_synced (s : NodeSync) (n : Node) : bool :=
  headers_synced (sync_state s) && negb (has_unresolved_advertised_height s n) && local_tip_satisfies s n.

(** [peer_sync_observations.entry(peer).or_default()]. *)
Definition observation_of (s : NodeSync) (peer : bytes) : PeerSyncObservation :=
  default no_observation (peer_sync_observations s !! peer).
Definition set_observation (s : NodeSync) (peer : bytes) (o : PeerSyncObservation) : NodeSync :=
  with_observations s (<[peer := o]> (peer_sync_observations s)).
(* src: node_sync.rs:1860-1872 NodeSync::note_peer_advertised_height *)
Definition note_peer_advertised_height (s : NodeSync) (peer : bytes) (advertised_height : Z) : NodeSync :=
  let o := observation_of s peer in
  set_observation s peer
    {| advertised_best_height := Some advertised_height; served_terminal_height := served_terminal_height o;
       inconsistency_count := inconsistency_count o;
       last_inconsistency_reason :=
         match served_terminal_height o with
         | Some served => if advertised_height <=? served then false else last_inconsistency_reason o
         | None => last_inconsistency_reason o
         end |}.
(* src: node_sync.rs:1874-1886 NodeSync::note_peer_served_terminal_height *)
Definition note_peer_served_terminal_height (s : NodeSync) (peer : bytes) (served : Z) : NodeSync :=
  let o := observation_of s peer in
  set_observation s peer
    {| advertised_best_height := advertised_best_height o; served_terminal_height := Some served;
       inconsistency_count := inconsistency_count o;
       last_inconsistency_reason :=
         match advertised_best_height o with
         | Some advertised => if advertised <=? served then false else last_inconsistency_reason o
         | None => false
         end |}.
(* src: node_sync.rs:1888-1893 NodeSync::peer_advertised_height *)
Definition peer_advertised_height (s : NodeSync) (peer : bytes) : option Z :=
  match peer_sync_observations s !! peer ≫= advertised_best_height with
  | Some h => Some h
  | None => ConnectionManager.remote_best_height (connections s) peer
  end.
(* src: node_sync.rs:1895-1899 NodeSync::peer_has_unserved_advertised_height *)
Definition peer_has_unserved_advertised_height (s : NodeSync) (peer : bytes) : bool :=
  match peer_sync_observations s !! peer with Some o => has_unserved_advertised_height o | None => false end.
(* src: node_sync.rs:1906-1952 NodeSync::mark_peer_terminal_below_advertised *)
Definition mark_peer_terminal_below_advertised (s : NodeSync) (peer : bytes) (served : Z) : NodeSync * bool :=
  let advertised_height := default served (peer_advertised_height s peer) in
  if advertised_height <=? served then (note_peer_served_terminal_height s peer served, false)
  else
    let was_already_unresolved := peer_has_unserved_advertised_height s peer in
    let o := observation_of s peer in
    let s := set_observation s peer
      {| advertised_best_height := Some advertised_height; served_terminal_height := Some served;
         inconsistency_count := saturating_add U32_MAX (inconsistency_count o) 1; last_inconsistency_reason := true |} in
    let s := if was_already_unresolved then s
             else with_connections s (ConnectionManager.record_misbehavior (connections s) peer
                                        PEER_UNSERVED_ADVERTISED_HEIGHT_SCORE now_unix).1 in
    (s, true).

(* src: node_sync.rs:1779-1783 NodeSync::should_send_periodic_getaddr *)
Definition should_send_periodic_getaddr (s : NodeSync) (remote_addr : bytes) (now : Z) : bool :=
  match getaddr_last_sent_unix s !! remote_addr with
  | Some last => ADDR_DISCOVERY_INTERVAL_SECS <=? saturating_sub now last
  | None => true
  end.
(* src: node_sync.rs:1785-1788 NodeSync::record_getaddr_sent *)
Definition record_getaddr_sent (s : NodeSync) (remote_addr : bytes) (now : Z) : NodeSync :=
  with_getaddr_sent s (<[remote_addr := now]> (getaddr_last_sent_unix s)).
(* src: node_sync.rs:1790-1794 NodeSync::should_send_periodic_addr_relay *)
Definition should_send_periodic_addr_relay (s : NodeSync) (remote_addr : bytes) (now : Z) : bool :=
  match addr_relay_last_sent_unix s !! remote_addr with
  | Some last => ADDR_RELAY_INTERVAL_SECS <=? saturating_sub now last
  | None => true
  end.
(* src: node_sync.rs:1796-1799 NodeSync::record_addr_relay_sent *)
Definition record_addr_relay_sent (s : NodeSync) (remote_addr : bytes) (now : Z) : NodeSync :=
  with_addr_relay_sent s (<[remote_addr := now]> (addr_relay_last_sent_unix s)).
(* src: node_sync.rs:1801-1814 NodeSync::allow_addr_message *)
Definition allow_addr_message (s : NodeSync) (peer : bytes) : NodeSync * bool :=
  let now := now_unix in
  let window := default {| window_start_unix := 0; messages := 0 |} (addr_rate_windows s !! peer) in
  let window :=
    if addr_rate_limit_window_secs (limits_of s) <=? saturating_sub now (window_start_unix window)
    then {| window_start_unix := now; messages := 0 |} else window in
  let store window := with_addr_windows s (<[peer := window]> (addr_rate_windows s)) in
  if max_addr_messages_per_window (limits_of s) <=? messages window then (store window, false)
  else (store {| window_start_unix := window_start_unix window; messages := saturating_add U32_MAX (messages window) 1 |}, true).

(** ** Blocks *)

(* src: node_sync.rs:3357-3361 NodeSync::mark_block_state *)
Definition mark_block_state (s : NodeSync) (hash : bytes) (h : Z) (state : BlockValidationState) : NodeSync :=
  with_states s (<[hash := state]> (block_validation_states s)) (<[hash := h]> (block_validation_heights s)).
Definition note_block_received (s : NodeSync) (hash : bytes) : NodeSync :=
  with_downloader s (Scheduler.note_block_received (downloader s) hash).
Definition drop_compact (s : NodeSync) (hash : bytes) : NodeSync :=
  with_compact s (delete hash (pending_compact_blocks s)).
Definition drop_branch_block (s : NodeSync) (hash : bytes) : NodeSync :=
  with_branches s (SideBranchPool.remove (side_branches s) hash).1.
(* src: node_sync.rs:2703-2711 NodeSync::note_pending_header_block *)
Definition note_pending_header_block (s : NodeSync) (peer : bytes) (h : Z) (hash : bytes) : NodeSync :=
  let s := mark_block_state s hash h HeaderSeen in
  let at_height := default ∅ (pending_header_blocks s !! h) in
  let peers := default ∅ (at_height !! hash) in
  with_pending_headers s (<[h := <[hash := {[peer]} ∪ peers]> at_height]> (pending_header_blocks s)).
(* src: node_sync.rs:2713-2720 NodeSync::remove_pending_header_block *)
Definition remove_pending_header_block (s : NodeSync) (h : Z) (hash : bytes) : NodeSync :=
  match pending_header_blocks s !! h with
  | None => s
  | Some at_height =>
      let at_height := delete hash at_height in
      with_pending_headers s
        (if bool_decide (at_height = ∅) then delete h (pending_header_blocks s)
         else <[h := at_height]> (pending_header_blocks s))
  end.

(** What is forgotten of a block found invalid, the pool apart. *)
Definition mark_invalid (s : NodeSync) (hash : bytes) (h : Z) : NodeSync :=
  remove_pending_header_block (drop_compact (note_block_received (mark_block_state s hash h Invalid) hash) hash) h hash.
Definition mark_invalid_descendant (s : NodeSync) (b : Block) : NodeSync :=
  mark_invalid s (BlockHeader.block_hash (header b)) (height (header b)).
(** [None] if the walk over the descendants does not end; it always does
    ([SideBranches.remove_descendants_spec]). *)
(* src: node_sync.rs:3363-3394 NodeSync::mark_invalid_block_family *)
Definition mark_invalid_block_family (s : NodeSync) (hash : bytes) (h : Z) : option (NodeSync * Z) :=
  let s := mark_invalid s hash h in
  let '(p, root) := SideBranchPool.remove (side_branches s) hash in
  '(p, removed) ← SideBranchPool.remove_descendants_of p hash;
  Some (foldl mark_invalid_descendant (with_branches s p) removed,
        saturating_add USIZE_MAX (match root with Some _ => 1 | None => 0 end) (zlen removed)).
(* src: node_sync.rs:3396-3405 NodeSync::mark_finalized_boundary *)
Definition mark_finalized_boundary (s : NodeSync) (n : Node) : NodeSync :=
  match finalized n with
  | None => s
  | Some checkpoint => mark_block_state s (fc_block_hash checkpoint) (fc_height checkpoint) Finalized
  end.

(* src: node_sync.rs:2956-2974 NodeSync::best_buffered_branch *)
Definition best_buffered_branch (s : NodeSync) (n : Node) : option (list Block) :=
  SideBranchPool.best_buffered_branch (side_branches s) (NodeQueries.is_canonical_block n)
    (Node.branch_is_preferred_over_current n).
(* src: node_sync.rs:3433-3439 NodeSync::preferred_buffered_branch_hashes *)
Definition preferred_buffered_branch_hashes (s : NodeSync) (n : Node) : gset bytes :=
  list_to_set (hashes_of (default [] (best_buffered_branch s n))).
(* src: node_sync.rs:3407-3431 NodeSync::pending_tip_validation_blocks *)
Definition pending_tip_validation_blocks (s : NodeSync) (n : Node) : Z :=
  let local_height := Node.height n in
  let preferred_hashes := preferred_buffered_branch_hashes s n in
  let side_branch_blocks :=
    zlen (filter (fun e => local_height < height (header (sb_block e.2)) \/ e.1 ∈ preferred_hashes)
            (SideBranchPool.entries (side_branches s))) in
  let untrusted :=
    zlen (filter (fun hs => is_untrusted_pending_validation hs.2 = true /\
            (hs.1 ∈ preferred_hashes \/ local_height < default (-1) (block_validation_heights s !! hs.1)))
            (sorted_entries bytes_le (block_validation_states s))) in
  Z.max side_branch_blocks untrusted.
(* src: node_sync.rs:3441-3451 NodeSync::checkpoint_anchor_allows_fast_download *)
Definition checkpoint_anchor_allows_fast_download (s : NodeSync) (n : Node) : bool :=
  enable_checkpoint_anchored_sync (limits_of s)
  && (match finalized n with Some _ => true | None => Node.height n =? 0 end).
(* src: node_sync.rs:3453-3462 NodeSync::fast_body_download_backpressure_active *)
Definition fast_body_download_backpressure_active (s : NodeSync) (n : Node) : bool :=
  let limits := limits_of s in
  (max_pending_validation_blocks limits <=? pending_tip_validation_blocks s n)
  || (max_untrusted_block_cache limits <=? SideBranchPool.len (side_branches s))
  || (max_untrusted_block_cache_bytes limits <=? SideBranchPool.total_size_bytes (side_branches s))
  || match SideBranchPool.max_height (side_branches s) with
     | Some h => max_fast_download_ahead limits <=? saturating_sub h (Node.height n)
     | None => false
     end.

(* src: node_sync.rs:2829-2847 NodeSync::missing_buffered_parent_hashes *)
Definition add_at (m : gmap Z (gset bytes)) (h : Z) (hash : bytes) : gmap Z (gset bytes) :=
  <[h := {[hash]} ∪ default ∅ (m !! h)]> m.
Definition flattened (m : gmap Z (gset bytes)) : list bytes :=
  sorted_entries Z.le m ≫= fun hs => sorted_elements bytes_le hs.2.
Definition missing_buffered_parent_hashes (s : NodeSync) (n : Node) : list bytes :=
  flattened (foldl (fun missing e =>
    let parent_hash := previous_block_hash (header (sb_block e.2)) in
    if NodeQueries.is_canonical_block n parent_hash
       || bool_decide (is_Some (SideBranchPool.get (side_branches s) parent_hash)) then missing
    else add_at missing (saturating_sub (height (header (sb_block e.2))) 1) parent_hash)
    ∅ (SideBranchPool.entries (side_branches s))).
(** The height below the first buffered child of a hash. *)
Definition height_below_child (s : NodeSync) (hash : bytes) : option Z :=
  Chainstate.find_map (fun e =>
    if bool_decide (previous_block_hash (header (sb_block e.2)) = hash)
    then Some (saturating_sub (height (header (sb_block e.2))) 1) else None)
    (SideBranchPool.entries (side_branches s)).
(** Already there: canonical, buffered or archived. *)
Definition at_hand (s : NodeSync) (n : Node) (hash : bytes) : bool :=
  NodeQueries.is_canonical_block n hash
  || bool_decide (is_Some (SideBranchPool.get (side_branches s) hash))
  || bool_decide (is_Some (NodeQueries.block_by_hash n hash)).
(* src: node_sync.rs:2849-2928 NodeSync::bridge_parent_repair_hashes *)
Definition bridge_parent_repair_hashes (s : NodeSync) (n : Node) : list bytes :=
  let repair := foldl (fun repair parent_hash =>
      add_at repair (default (saturating_add U64_MAX (Node.height n) 1) (height_below_child s parent_hash)) parent_hash)
      ∅ (missing_buffered_parent_hashes s n) in
  match max_of (sorted_entries Z.le repair).*1 with
  | None => []
  | Some max_missing_height =>
      let start_height := saturating_add U64_MAX (Node.height n) 1 in
      if start_height <=? max_missing_height then
        let repair := foldl (fun repair hh =>
            if (hh.2 <? start_height) || (max_missing_height <? hh.2)
               || bool_decide (block_validation_states s !! hh.1 = Some Invalid) || at_hand s n hh.1 then repair
            else add_at repair hh.2 hh.1) repair (sorted_entries bytes_le (block_validation_heights s)) in
        let repair := foldl (fun repair hb =>
            if (hb.1 <? start_height) || (max_missing_height <? hb.1) then repair
            else foldl (fun repair hash => if at_hand s n hash then repair else add_at repair hb.1 hash)
                   repair (sorted_entries bytes_le hb.2).*1)
            repair (sorted_entries Z.le (pending_header_blocks s)) in
        flattened repair
      else flattened repair
  end.
(* src: node_sync.rs:2116-2126 NodeSync::download_hash_height *)
Definition download_hash_height (s : NodeSync) (hash : bytes) : option Z :=
  match block_validation_heights s !! hash with Some h => Some h | None => height_below_child s hash end.
(* src: node_sync.rs:2811-2827 NodeSync::header_conflicts_with_finalized_checkpoint *)
Definition header_conflicts_with_finalized_checkpoint (n : Node) (h : Z) (hash : bytes) : bool :=
  match finalized n with
  | None => false
  | Some checkpoint =>
      if fc_height checkpoint <? h then false
      else match NodeQueries.block_record_by_height n h with
           | Some record => negb (bool_decide (r_block_hash record = hash))
           | None => true
           end
  end.

(** ** Limits *)

(** Milliseconds; [.as_secs()] divides. *)
(* src: node_sync.rs:796-798 NodeSync::block_request_retry_timeout *)
Definition block_request_retry_timeout (s : NodeSync) : Z := block_request_timeout_ms (limits_of s).
(* src: node_sync.rs:800-806 NodeSync::headers_request_timeout *)
Definition headers_request_timeout (s : NodeSync) : Z := headers_request_timeout_ms (limits_of s).
(* src: node_sync.rs:836-841 NodeSync::block_request_batch_limit *)
Definition block_request_batch_limit_of (s : NodeSync) : Z := Z.max (block_request_batch_limit (limits_of s)) 1.
(* src: node_sync.rs:843-852 NodeSync::buffered_parent_bridge_active *)
Definition buffered_parent_bridge_active (s : NodeSync) (n : Node) : bool :=
  if SideBranchPool.is_empty (side_branches s) || (pending_tip_validation_blocks s n =? 0)
     || bool_decide (missing_buffered_parent_hashes s n = []) then false
  else
    let stale_after := Z.max (Z.min (block_request_retry_timeout s / 1000) 2) 1 in
    stale_after <=? saturating_sub now_unix (last_block_progress_unix s).
(* src: node_sync.rs:854-864 NodeSync::effective_max_requests_per_peer *)
Definition effective_max_requests_per_peer (s : NodeSync) (n : Node) : Z :=
  let limit := Z.max (max_requests_per_peer (limits_of s)) 1 in
  if buffered_parent_bridge_active s n then Z.min limit (Z.max MAX_ORPHAN_PARENT_REQUESTS_PER_PASS 1) else limit.
(* src: node_sync.rs:866-873 NodeSync::effective_block_request_batch_limit *)
Definition effective_block_request_batch_limit (s : NodeSync) (n : Node) : Z :=
  let limit := block_request_batch_limit_of s in
  if buffered_parent_bridge_active s n then Z.min limit (Z.max MAX_ORPHAN_PARENT_REQUESTS_PER_PASS 1) else limit.
(* src: node_sync.rs:875-881 NodeSync::effective_scheduled_block_request_batch_limit *)
Definition effective_scheduled_block_request_batch_limit (s : NodeSync) (n : Node) : Z :=
  if buffered_parent_bridge_active s n then effective_block_request_batch_limit s n
  else effective_max_requests_per_peer s n.
(* src: node_sync.rs:883-894 NodeSync::effective_max_blocks_in_flight *)
Definition effective_max_blocks_in_flight (s : NodeSync) (n : Node) : Z :=
  let limit := Z.max (max_blocks_in_flight (limits_of s)) 1 in
  if buffered_parent_bridge_active s n
  then Z.min limit (effective_max_requests_per_peer s n * Z.max (ready_peer_count s) 1) else limit.
(* src: node_sync.rs:896-904 NodeSync::bridge_parent_request_capacity_for_peer *)
Definition bridge_parent_request_capacity_for_peer (s : NodeSync) (peer : bytes) : Z :=
  let limit := Z.min (Z.max (max_requests_per_peer (limits_of s)) 1) (Z.max MAX_ORPHAN_PARENT_REQUESTS_PER_PASS 1) in
  Z.max (saturating_sub limit (Scheduler.peer_inflight_len (downloader s) peer)) 1.
(* src: node_sync.rs:3464-3474 NodeSync::block_download_stage_lookahead *)
Definition block_download_stage_lookahead (s : NodeSync) (n : Node) : Z :=
  let limits := limits_of s in
  if enable_fast_body_download limits && enable_background_validation limits
     && checkpoint_anchor_allows_fast_download s n
  then max_fast_download_ahead limits else block_download_lookahead limits.
(* src: node_sync.rs:3476-3484 NodeSync::active_block_download_stage_lookahead *)
Definition active_block_download_stage_lookahead (s : NodeSync) (n : Node) : Z :=
  if buffered_parent_bridge_active s n
  then Z.max (Z.min (block_download_lookahead (limits_of s)) BRIDGE_PARENT_STAGE_LOOKAHEAD) 1
  else block_download_stage_lookahead s n.

(* src: node_sync.rs:503-589 NodeSync::fast_download_diagnostics *)
Definition fast_download_diagnostics (s : NodeSync) (n : Node) : FastDownloadDiagnostics :=
  let limits := limits_of s in
  let checkpoint := finalized n in
  let connected := Node.height n in
  let downloaded :=
    Z.max (Z.max
      (default connected (max_of (omap (fun hs => if is_body_downloaded hs.2 then block_validation_heights s !! hs.1 else None)
                                    (sorted_entries bytes_le (block_validation_states s)))))
      (default connected (SideBranchPool.max_height (side_branches s)))) connected in
  let pending := pending_tip_validation_blocks s n in
  let lag := saturating_sub downloaded connected in
  let fast := enable_fast_body_download limits && enable_checkpoint_anchored_sync limits
              && enable_background_validation limits in
  let safe_to_serve := chain_synced s n && (pending =? 0) in
  {| best_header_height := best_height (sync_state s); best_downloaded_body_height := downloaded;
     best_validated_height := connected; best_connected_height := connected;
     latest_finalized_height := match checkpoint with Some c => fc_height c | None => 0 end;
     latest_finalized_hash := match checkpoint with Some c => fc_block_hash c | None => zeros 48 end;
     pending_validation_blocks := pending; untrusted_downloaded_blocks := SideBranchPool.len (side_branches s);
     untrusted_downloaded_bytes := SideBranchPool.total_size_bytes (side_branches s);
     fast_download_enabled := fast; checkpoint_anchored_sync_enabled := enable_checkpoint_anchored_sync limits;
     background_validation_enabled := enable_background_validation limits;
     chain_validation_status :=
       (if has_unresolved_advertised_height s n then "peer_advertised_unserved_height"%string
        else if negb (headers_synced (sync_state s)) then "headers_syncing"%string
        else if (0 <? pending) && (0 <? lag) then "body_download_ahead"%string
        else if connected <? best_height (sync_state s) then "validating_local_blocks"%string
        else if safe_to_serve then "synced"%string
        else if negb (checkpoint_anchor_allows_fast_download s n) then "checkpoint_anchor_wait"%string
        else "partially_validated"%string);
     sync_mode :=
       (if negb fast then "standard"%string
        else if 0 <? pending then "checkpoint_anchored_downloading"%string
        else if connected <? best_height (sync_state s) then "checkpoint_anchored_validating"%string
        else "near_tip"%string);
     safe_to_mine := if require_full_validation_before_mining limits then safe_to_serve else chain_synced s n;
     safe_to_serve := safe_to_serve; validation_lag_blocks := lag;
     fd_max_fast_download_ahead := max_fast_download_ahead limits;
     fd_max_untrusted_block_cache := max_untrusted_block_cache limits;
     fd_max_pending_validation_blocks := max_pending_validation_blocks limits |}.
End sync.
End NodeSync.
