(* ===== verification/NodeSyncBlocks.v ===== *)
(** * Node synchronization: blocks

    crates/atho-node/src/sync.rs: which blocks are requested of whom, and what becomes
    of a block that arrives: deferred, rejected, connected to the tip, or buffered until
    its branch can be considered. These functions change the synchronization state and
    the node and push events, which is the state monad [act]. Loops whose length the code
    does not bound take the rounds of the class [Rounds]; [None] is a call that has not
    returned after that many. *)
From stdpp Require Import options.
From S2P Require Import Prelude Bytes Text Constants Crypto Keccak Network Rules Transaction Block Pow.
From S2P Require Import Genesis Errors Utxo Validation BlockValidation Chainstate Db Mempool Node.
From S2P Require Import P2pConfig Protocol CompactBlock Handshake BanList HeadersSync Downloader IpAddr AddressManager.
From S2P Require Import Connection Relay SideBranches NodeQueries NodeSync.

#[local] Set Default Proof Using "Type*".

Class Rounds := walk_rounds : nat.

(** ** The monad *)

(** What a handler changes: [&mut self], [&mut Node] and the events it pushes. *)
Record World `{Hd : Database} := { sync : NodeSync; node : Node; outbound : list ConnectionEvent }.
Definition act `{Hd : Database} (A : Type) : Type := World -> option (World * A).
#[global] Instance act_ret `{Hd : Database} : MRet act := fun A a w => Some (w, a).
#[global] Instance act_bind `{Hd : Database} : MBind act := fun A B k m w => '(w, a) ← m w; k a w.

Section acts.
Context `{Hd : Database}.
Definition diverges {A} : act A := fun _ => None.
Definition reads {A} (f : NodeSync -> Node -> A) : act A := fun w => Some (w, f (sync w) (node w)).
Definition updates_with {A} (f : NodeSync -> Node -> NodeSync * A) : act A :=
  fun w => let '(s, a) := f (sync w) (node w) in Some ({| sync := s; node := node w; outbound := outbound w |}, a).
Definition updates (f : NodeSync -> Node -> NodeSync) : act unit := updates_with (fun s n => (f s n, tt)).
(** A call that may not return. *)
Definition updates_if_ends {A} (f : NodeSync -> Node -> option (NodeSync * A)) : act A :=
  fun w => '(s, a) ← f (sync w) (node w); Some ({| sync := s; node := node w; outbound := outbound w |}, a).
(** A call of the node. *)
Definition on_node {A} (f : Node -> Node * A) : act A :=
  fun w => let '(n, a) := f (node w) in Some ({| sync := sync w; node := n; outbound := outbound w |}, a).
Definition push (e : ConnectionEvent) : act unit :=
  fun w => Some ({| sync := sync w; node := node w; outbound := outbound w ++ [e] |}, tt).
(** [outbound.push(ConnectionEvent::Send { .. })]. *)
Definition send (peer : bytes) (p : MessagePayload) : act unit :=
  n ← reads (fun s _ => ns_network s); push (SendTo peer (NetworkMessage.new n p)).
Fixpoint for_each {A} (f : A -> act unit) (l : list A) : act unit :=
  match l with
  | [] => mret tt
  | x :: l => _ ← f x; for_each f l
  end.
(** [m?]. *)
Definition act_try {E A B} (m : act (result E A)) (k : A -> act (result E B)) : act (result E B) :=
  r ← m; match r with Ok a => k a | Err e => mret (Err e) end.
Fixpoint try_each {E A} (f : A -> act (result E unit)) (l : list A) : act (result E unit) :=
  match l with
  | [] => mret (Ok tt)
  | x :: l => act_try (f x) (fun _ => try_each f l)
  end.
End acts.
Notation "'let?' x := m 'in' k" := (act_try m (fun x => k)) (at level 10, x pattern, m at level 100, k at level 200).

(** [matches!] on errors. *)
Definition recoverable_tip (e : ValidationError) : bool :=
  match e with InvalidBlockHeight | BlockParentHashMismatch => true | _ => false end.

Module SyncBlocks.

(* src: node_sync.rs:3124-3129 NodeSync::recoverable_tip_validation *)
Definition recoverable_tip_validation (e : ValidationError) : bool := recoverable_tip e.
(* src: node_sync.rs:3131-3137 NodeSync::recoverable_branch_error *)
Definition recoverable_branch_error (e : NodeError) : bool :=
  match e with
  | NodeValidation e => recoverable_tip_validation e
  | NodeStorage InvalidBranchSequence => true
  | _ => false
  end.
(* src: node_sync.rs:3139-3148 NodeSync::recoverable_relay_transaction_error *)
Definition recoverable_relay_transaction_error (e : NodeError) : bool :=
  match e with
  | NodeValidation (MissingUtxo | InsufficientConfirmations | MempoolConflict) => true
  | _ => false
  end.

Section blocks.
Context `{Henv : ProcessEnv, Hs : Sha3, Hf : FalconBackend, Hg : !GenesisReady Hs, Hd : Database, Ha : !Archive, Hm : Moment, Hr : Rounds}.

(* src: node_sync.rs:3649-3673 validate_received_block_envelope *)
Definition validate_received_block_envelope (b : Block) (network : Network) : result ValidationError unit :=
  reject bool_decide (transactions b = []) with EmptyBlock;
  reject negb (bool_decide (network_id (header b) = network)) with BlockNetworkMismatch;
  reject timestamp (header b) =? 0 with InvalidBlockTimestamp;
  reject negb (target_within_bounds (difficulty_target_or_bits (header b))) with BlockTargetOutOfBounds;
  let metrics := Block.size_metrics b in
  reject (MAX_BLOCK_RAW_BYTES <? m_raw_size_bytes metrics) || (MAX_BLOCK_VBYTES <? m_vsize_bytes metrics)
         || (MAX_BLOCK_WEIGHT <? m_weight_bytes metrics) with BlockTooLarge;
  Ok tt.

(** *** Progress *)

(** The relay's target after the node's tip and every ready peer's. *)
(* src: node_sync.rs:954-969 NodeSync::refresh_sync_target_from_live_peers *)
Definition refresh_sync_target_from_live_peers (s : NodeSync) (n : Node) : NodeSync :=
  let r := RelayLoop.note_local_tip_at (relay s) (Node.height n) (NodeSync.local_tip_hash n) (NodeSync.local_chainwork n) in
  NodeSync.with_relay s
    (foldl (fun r peer =>
       match sn_best_height peer, sn_tip_hash peer with
       | Some h, Some tip_hash => (RelayLoop.observe_tip_at r h (Some tip_hash) (sn_chainwork peer)).1
       | _, _ => r
       end) r (NodeSync.ready_snapshots s)).
(* src: node_sync.rs:1014-1022 NodeSync::update_sync_progress_watchdog *)
Definition update_sync_progress_watchdog (s : NodeSync) (n : Node) : NodeSync :=
  let tip := Node.tip_hash n in
  if negb (bool_decide (last_observed_tip s = Some tip)) then NodeSync.with_progress s (Some tip) NodeSync.now_unix
  else if last_block_progress_unix s =? 0 then NodeSync.with_progress s (last_observed_tip s) NodeSync.now_unix
  else s.
(* src: node_sync.rs:983-1005 NodeSync::note_local_chain_progress *)
Definition note_local_chain_progress (s : NodeSync) (n : Node) : NodeSync :=
  let s := refresh_sync_target_from_live_peers s n in
  let s := NodeSync.mark_block_state s (Node.tip_hash n) (Node.height n) Connected in
  update_sync_progress_watchdog (NodeSync.mark_finalized_boundary s n) n.
(* src: node_sync.rs:1007-1012 NodeSync::note_block_body_progress *)
Definition note_block_body_progress (s : NodeSync) (peer : bytes) (requested : bool) : NodeSync :=
  let s := NodeSync.with_body_received s NodeSync.now_unix in
  if requested then NodeSync.with_downloader s (Scheduler.note_peer_delivery_progress (downloader s) peer instant_millis) else s.
(* src: node_sync.rs:1816-1858 NodeSync::note_observed_peer_tip *)
Definition note_observed_peer_tip (peer : bytes) (hd : BlockHeader) (terminal_headers_batch : bool) (s : NodeSync) (n : Node) :
    NodeSync :=
  if negb (bool_decide (network_id hd = ns_network s)) then s
  else
    let observed_tip := BlockHeader.block_hash hd in
    let note := if terminal_headers_batch then ConnectionManager.replace_peer_tip else ConnectionManager.note_peer_tip in
    let s := NodeSync.with_connections s (note (connections s) peer (height hd) observed_tip) in
    NodeSync.with_relay s (RelayLoop.note_observed_tip_at (relay s) (Node.height n) (NodeSync.local_tip_hash n)
                             (height hd) observed_tip).

(** *** Headers *)

(* src: node_sync.rs:1365-1372 NodeSync::reseed_locator_from_node *)
Definition reseed_locator_from_node (s : NodeSync) (n : Node) : NodeSync :=
  NodeSync.with_relay s (RelayLoop.reseed_locator_hashes (relay s) (NodeQueries.block_locator_hashes n)).
(* src: node_sync.rs:1380-1386 NodeSync::header_locator_is_ahead_of_local_tip *)
Definition header_locator_is_ahead_of_local_tip (s : NodeSync) (n : Node) : bool :=
  existsb (fun hash => match block_validation_heights s !! hash with Some h => Node.height n <? h | None => false end)
    (locator_hashes (NodeSync.sync_state s)).
(* src: node_sync.rs:1374-1378 NodeSync::refresh_header_locator_from_node_if_needed *)
Definition refresh_header_locator_from_node_if_needed (s : NodeSync) (n : Node) : NodeSync :=
  if header_locator_is_ahead_of_local_tip s n then s else reseed_locator_from_node s n.
(* src: node_sync.rs:2261-2267 NodeSync::header_request_inflight *)
Definition header_request_inflight (s : NodeSync) (remote_addr : bytes) : bool :=
  match header_requests_started s !! remote_addr with
  | Some started => saturating_sub system_millis started <? NodeSync.headers_request_timeout s
  | None => false
  end.
(* src: node_sync.rs:2320-2327 NodeSync::queue_getheaders *)
Definition queue_getheaders (peer : bytes) : act unit :=
  message ← updates_with (fun s _ =>
    let '(r, message) := RelayLoop.build_getheaders (relay s) peer in
    (NodeSync.with_requests_started (NodeSync.with_relay s r) (<[peer := system_millis]> (header_requests_started s)), message));
  push (SendTo peer message).
(* src: node_sync.rs:2329-2340 NodeSync::queue_getheaders_if_needed *)
Definition queue_getheaders_if_needed (peer : bytes) : act unit :=
  busy ← reads (fun s _ => headers_synced (NodeSync.sync_state s) || header_request_inflight s peer);
  if (busy : bool) then mret tt
  else _ ← updates refresh_header_locator_from_node_if_needed; queue_getheaders peer.

(** *** Requests for blocks *)

(* src: node_sync.rs:829-834 NodeSync::prioritize_pending_downloads_by_height *)
Definition prioritize_pending_downloads_by_height (s : NodeSync) : NodeSync :=
  NodeSync.with_downloader s
    (Scheduler.sort_pending_by_key Z.le (downloader s) (fun hash => default U64_MAX (block_validation_heights s !! hash))).
(* src: node_sync.rs:2722-2739 NodeSync::block_source_peers_for_height *)
Definition block_source_peers_for_height (s : NodeSync) (h : Z) (peers : gset bytes) : gset bytes :=
  foldl (fun peers snapshot =>
    match sn_best_height snapshot with
    | Some best => if h <=? best then {[sn_remote_addr snapshot]} ∪ peers else peers
    | None => peers
    end) peers (NodeSync.ready_snapshots s).
(* src: node_sync.rs:2769-2806 NodeSync::stage_header_blocks_near_tip (block) *)
Definition stage_block (n : Node) (h : Z) (s : NodeSync) (hp : bytes * gset bytes) : NodeSync :=
  let '(hash, peers) := hp in
  if NodeSync.header_conflicts_with_finalized_checkpoint n h hash then
    foldl (fun s peer => NodeSync.with_connections s
             (ConnectionManager.record_misbehavior (connections s) peer 40 NodeSync.now_unix).1)
      (NodeSync.mark_block_state s hash h Invalid) (sorted_elements bytes_le peers)
  else if NodeQueries.is_canonical_block n hash || bool_decide (is_Some (NodeQueries.block_by_hash n hash)) then
    NodeSync.note_block_received (NodeSync.mark_block_state s hash h Connected) hash
  else
    let state := if NodeSync.checkpoint_anchor_allows_fast_download s n then CheckpointAnchored else HeaderValidated in
    let s := NodeSync.mark_block_state s hash h state in
    foldl (fun s peer => NodeSync.with_downloader s (Scheduler.note_headers (downloader s) peer [hash]))
      s (sorted_elements bytes_le (block_source_peers_for_height s h peers)).
(* src: node_sync.rs:2741-2809 NodeSync::stage_header_blocks_near_tip *)
Definition stage_header_blocks_near_tip (s : NodeSync) (n : Node) : NodeSync :=
  if NodeSync.fast_body_download_backpressure_active s n then s
  else
    let max_height := saturating_add U64_MAX (Node.height n) (NodeSync.active_block_download_stage_lookahead s n) in
    let heights := filter (fun h => h <= max_height) (sorted_entries Z.le (pending_header_blocks s)).*1 in
    foldl (fun s h =>
      match pending_header_blocks s !! h with
      | None => s
      | Some blocks_at_height =>
          foldl (stage_block n h) (NodeSync.with_pending_headers s (delete h (pending_header_blocks s)))
            (sorted_entries bytes_le blocks_at_height)
      end) s heights.

(* src: node_sync.rs:2128-2169 NodeSync::push_download_assignment *)
Definition push_download_assignment (assignment : DownloadAssignment) : act unit :=
  _ ← updates (fun s _ => foldl (fun s item =>
        match iv_kind item with
        | InvBlock => NodeSync.mark_block_state s (iv_hash item) (default 0 (block_validation_heights s !! iv_hash item)) BodyRequested
        | InvTransaction => s
        end) s (da_inventory assignment));
  send (da_peer assignment) (GetData (da_inventory assignment)).
(* src: node_sync.rs:2058-2114 NodeSync::push_urgent_bridge_parent_retry *)
Definition push_urgent_bridge_parent_retry (peer : bytes) (missing_parents : gset Hash48) (only_if_inflight : bool) : act bool :=
  hash ← updates_with (fun s n =>
    let next_height := saturating_add U64_MAX (Node.height n) 1 in
    match head (filter (fun hash => NodeSync.download_hash_height s hash = Some next_height)
                  (sorted_elements bytes_le missing_parents)) with
    | None => (s, None)
    | Some hash =>
        let skip := match Scheduler.inflight_peer (downloader s) hash with
                    | Some owner => bool_decide (owner = peer)
                    | None => only_if_inflight
                    end in
        let last_sent := default 0 (last_urgent_bridge_parent_request_unix s !! hash) in
        if skip || (saturating_sub NodeSync.now_unix last_sent <? 2) then (s, None)
        else (NodeSync.with_urgent s (<[hash := NodeSync.now_unix]> (last_urgent_bridge_parent_request_unix s)), Some hash)
    end);
  match hash with
  | None => mret false
  | Some hash => _ ← send peer (GetData [{| iv_kind := InvBlock; iv_hash := hash |}]); mret true
  end.
(* src: node_sync.rs:2022-2056 NodeSync::push_bridge_parent_download_work_for_peer *)
Definition push_bridge_parent_download_work_for_peer (peer : bytes) : act unit :=
  missing_parents ← reads (fun s n => list_to_set (NodeSync.bridge_parent_repair_hashes s n) : gset Hash48);
  if bool_decide (missing_parents = ∅) then mret tt
  else
    urgent ← push_urgent_bridge_parent_retry peer missing_parents true;
    if (urgent : bool) then mret tt
    else
      assignment ← updates_with (fun s _ =>
        let s := prioritize_pending_downloads_by_height s in
        let peer_inflight := Scheduler.peer_inflight_len (downloader s) peer in
        let total_inflight := Scheduler.total_inflight_len (downloader s) in
        let bridge_capacity := NodeSync.bridge_parent_request_capacity_for_peer s peer in
        let '(d, assignment) := Scheduler.assignment_for_peer_matching_limited (downloader s) peer
            (saturating_add USIZE_MAX total_inflight bridge_capacity) (saturating_add USIZE_MAX peer_inflight bridge_capacity)
            bridge_capacity instant_millis missing_parents in
        (NodeSync.with_downloader s d, assignment));
      match assignment with
      | Some assignment => push_download_assignment assignment
      | None => _ ← push_urgent_bridge_parent_retry peer missing_parents false; mret tt
      end.
(* src: node_sync.rs:1969-1994 NodeSync::push_scheduled_block_requests *)
Definition push_scheduled_block_requests : act unit :=
  active ← reads NodeSync.buffered_parent_bridge_active;
  if (active : bool) then
    ready_peers ← reads (fun s _ => sn_remote_addr <$> NodeSync.ready_snapshots s);
    for_each push_bridge_parent_download_work_for_peer ready_peers
  else
    assignments ← updates_with (fun s n =>
      let '(d, assignments) := Scheduler.assignments_limited (downloader s) (NodeSync.effective_max_blocks_in_flight s n)
          (NodeSync.effective_max_requests_per_peer s n) (NodeSync.effective_scheduled_block_request_batch_limit s n)
          instant_millis in
      (NodeSync.with_downloader s d, assignments));
    for_each push_download_assignment assignments.
(* src: node_sync.rs:1996-2020 NodeSync::push_block_download_work_for_peer *)
Definition push_block_download_work_for_peer (peer : bytes) : act unit :=
  bridge_active ← reads NodeSync.buffered_parent_bridge_active;
  if (bridge_active : bool) then push_bridge_parent_download_work_for_peer peer
  else
    assignment ← updates_with (fun s n =>
      let s := stage_header_blocks_near_tip s n in
      let '(d, assignment) := Scheduler.assignment_for_peer_limited (downloader s) peer (NodeSync.effective_max_blocks_in_flight s n)
          (NodeSync.effective_max_requests_per_peer s n) (NodeSync.effective_block_request_batch_limit s n) instant_millis in
      (NodeSync.with_downloader s d, assignment));
    match assignment with Some assignment => push_download_assignment assignment | None => mret tt end.
(** To the peer at hand, or to all. *)
Definition push_download_work (preferred_peer : option bytes) : act unit :=
  match preferred_peer with
  | Some peer => push_block_download_work_for_peer peer
  | None => _ ← updates stage_header_blocks_near_tip; push_scheduled_block_requests
  end.

(** *** Missing parents *)

(** One round of the loop: the missing parents that the archive has join the pool. *)
(* src: node_sync.rs:2622-2639 NodeSync::heal_buffered_branch_parents (round) *)
Definition heal_round (preferred_peer : option bytes) (s : NodeSync) (n : Node) : NodeSync * bool :=
  foldl (fun acc parent_hash =>
    match NodeQueries.block_by_hash n parent_hash with
    | None => acc
    | Some parent =>
        let s := acc.1 in
        let parent_peer := default (str_bytes "local-archive") preferred_peer in
        (NodeSync.note_block_received
           (NodeSync.with_branches s (SideBranchPool.insert (side_branches s) parent_peer parent)) parent_hash, true)
    end) (s, false) (NodeSync.missing_buffered_parent_hashes s n).
(* src: node_sync.rs:2620-2641 NodeSync::heal_buffered_branch_parents (loop) *)
Fixpoint heal_loop (rounds : nat) (preferred_peer : option bytes) (s : NodeSync) (n : Node) : option (NodeSync * unit) :=
  match rounds with
  | O => None
  | S rounds =>
      let '(s, discovered_local_parent) := heal_round preferred_peer s n in
      if (discovered_local_parent : bool) then heal_loop rounds preferred_peer s n else Some (s, tt)
  end.
(* src: node_sync.rs:2649-2685 NodeSync::heal_buffered_branch_parents (requests) *)
Definition request_missing_parents (preferred_peer : option bytes) (s : NodeSync) (n : Node) : NodeSync :=
  foldl (fun s parent_hash =>
    let s := if Scheduler.is_completed (downloader s) parent_hash && negb (NodeSync.at_hand s n parent_hash)
             then NodeSync.with_downloader s (Scheduler.forget_completed (downloader s) parent_hash).1 else s in
    NodeSync.with_downloader s (Scheduler.queue_priority_block (downloader s) preferred_peer parent_hash).1)
    s (reverse (take (Z.to_nat MAX_ORPHAN_PARENT_REQUESTS_PER_PASS) (NodeSync.bridge_parent_repair_hashes s n))).
(* src: node_sync.rs:2614-2701 NodeSync::heal_buffered_branch_parents *)
Definition heal_buffered_branch_parents (preferred_peer : option bytes) : act unit :=
  _ ← updates_if_ends (heal_loop walk_rounds preferred_peer);
  active ← reads NodeSync.buffered_parent_bridge_active;
  if negb active then mret tt
  else _ ← updates (request_missing_parents preferred_peer); push_download_work preferred_peer.

(** The walk from a new block over the ancestors at hand, which are buffered again. *)
(* src: node_sync.rs:2599-2611 NodeSync::buffer_peer_block_with_known_ancestors (loop) *)
Fixpoint buffer_ancestors (rounds : nat) (peer : bytes) (n : Node) (previous_hash : bytes) (visited : gset bytes)
    (p : SideBranchPool) : option SideBranchPool :=
  if NodeQueries.is_canonical_block n previous_hash then Some p
  else
    match insert_new previous_hash visited with
    | None => Some p
    | Some visited =>
        match (match SideBranchPool.get p previous_hash with
               | Some parent => Some parent
               | None => NodeQueries.block_by_hash n previous_hash
               end) with
        | None => Some p
        | Some parent =>
            match rounds with
            | O => None
            | S rounds =>
                buffer_ancestors rounds peer n (previous_block_hash (header parent)) visited (SideBranchPool.insert p peer parent)
            end
        end
    end.
(* src: node_sync.rs:2595-2612 NodeSync::buffer_peer_block_with_known_ancestors *)
Definition buffer_peer_block_with_known_ancestors (peer : bytes) (b : Block) (s : NodeSync) (n : Node) : option (NodeSync * unit) :=
  p ← buffer_ancestors walk_rounds peer n (previous_block_hash (header b)) ∅ (SideBranchPool.insert (side_branches s) peer b);
  Some (NodeSync.with_branches s p, tt).

(** *** Branches *)

(** Each block of a branch that became canonical. *)
Definition note_branch_connected (candidate_hashes : list bytes) (s : NodeSync) (n : Node) : NodeSync :=
  foldl (fun s hash =>
    let h := match block_validation_heights s !! hash with
             | Some h => h
             | None => match NodeQueries.block_by_hash n hash with Some b => height (header b) | None => 0 end
             end in
    let s := NodeSync.mark_block_state (NodeSync.mark_block_state s hash h FullyValidated) hash h Connected in
    NodeSync.drop_branch_block (NodeSync.drop_compact (NodeSync.note_block_received s hash) hash) hash) s candidate_hashes.
(** The number of blocks dropped. *)
Fixpoint drop_families (candidate_hashes : list bytes) (dropped : Z) (s : NodeSync) (n : Node) : option (NodeSync * Z) :=
  match candidate_hashes with
  | [] => Some (s, dropped)
  | hash :: candidate_hashes =>
      '(s, removed) ← NodeSync.mark_invalid_block_family s hash (default 0 (block_validation_heights s !! hash));
      drop_families candidate_hashes (saturating_add USIZE_MAX dropped (Z.max removed 1)) s n
  end.
Definition remove_canonical_branch_blocks (s : NodeSync) (n : Node) : NodeSync :=
  NodeSync.with_branches s (SideBranchPool.remove_canonical_blocks (side_branches s) (NodeQueries.is_canonical_block n)).
(** The code's [loop] repeats only for an empty candidate, which [best_buffered_branch]
    does not give; here that is a call that does not return. *)
(* src: node_sync.rs:2976-3100 NodeSync::process_buffered_branch_once *)
Definition process_buffered_branch_once (preferred_peer : option bytes) (max_extension_blocks : Z) :
    act (result NodeSyncError Z) :=
  empty ← reads (fun s _ => SideBranchPool.is_empty (side_branches s));
  if (empty : bool) then mret (Ok 0)
  else
    best ← reads NodeSync.best_buffered_branch;
    match best with
    | None => mret (Ok 0)
    | Some candidate_branch =>
        is_extension ← reads (fun _ n =>
          match head candidate_branch with
          | Some b => bool_decide (previous_block_hash (header b) = Node.tip_hash n)
          | None => false
          end);
        let candidate_branch :=
          if is_extension && (max_extension_blocks <? zlen candidate_branch)
          then take (Z.to_nat max_extension_blocks) candidate_branch else candidate_branch in
        let candidate_hashes := hashes_of candidate_branch in
        let candidate_count := zlen candidate_hashes in
        selection ← on_node (fun n => Node.consider_branch node_env NodeSync.now_unix n candidate_branch);
        match selection with
        | Ok selection =>
            match Chainstate.outcome selection with
            | KeptCurrent => mret (Ok 0)
            | _ =>
                _ ← updates note_local_chain_progress;
                _ ← updates (note_branch_connected candidate_hashes);
                _ ← updates NodeSync.mark_finalized_boundary;
                _ ← updates remove_canonical_branch_blocks;
                _ ← push_download_work preferred_peer;
                mret (Ok candidate_count)
            end
        | Err (NodeStorage ForkPointUnavailable) =>
            match last candidate_hashes with
            | Some tip_hash => _ ← updates (fun s _ => NodeSync.drop_branch_block s tip_hash); mret (Ok 1)
            | None => diverges
            end
        | Err _ =>
            dropped ← updates_if_ends (drop_families candidate_hashes 0);
            mret (Ok (Z.max (Z.max dropped candidate_count) 1))
        end
    end.
(* src: node_sync.rs:3675-3688 max_buffered_extension_connect_blocks_per_pass *)
Definition max_buffered_extension_connect_blocks_per_pass : Z :=
  match raw ← env_var "ATHO_MAX_BUFFERED_EXTENSION_CONNECT_BLOCKS_PER_PASS"; parse_uint USIZE_MAX raw with
  | Some parsed => Z.max parsed 1
  | None => MAX_BUFFERED_EXTENSION_CONNECT_BLOCKS_PER_PASS
  end.
(** A round that goes on makes progress, so the limit bounds the rounds. *)
(* src: node_sync.rs:3110-3121 NodeSync::process_buffered_branches (loop) *)
Fixpoint process_loop (rounds : nat) (preferred_peer : option bytes) (connected_or_dropped : Z) : act (result NodeSyncError unit) :=
  let remaining := saturating_sub max_buffered_extension_connect_blocks_per_pass connected_or_dropped in
  if remaining =? 0 then mret (Ok tt)
  else
    match rounds with
    | O => diverges
    | S rounds =>
        let? progressed := process_buffered_branch_once preferred_peer remaining in
        if progressed =? 0 then mret (Ok tt)
        else process_loop rounds preferred_peer (saturating_add USIZE_MAX connected_or_dropped progressed)
    end.
(* src: node_sync.rs:3102-3122 NodeSync::process_buffered_branches *)
Definition process_buffered_branches (preferred_peer : option bytes) : act (result NodeSyncError unit) :=
  process_loop (Z.to_nat max_buffered_extension_connect_blocks_per_pass) preferred_peer 0.

(** *** Blocks that arrive *)

(* src: node_sync.rs:2342-2358 NodeSync::should_defer_unsolicited_future_block *)
Definition should_defer_unsolicited_future_block (hd : BlockHeader) (requested : bool) (s : NodeSync) (n : Node) : bool :=
  if requested || negb (bool_decide (network_id hd = ns_network s)) then false
  else if bool_decide (previous_block_hash hd = Node.tip_hash n) then false
  else saturating_add U64_MAX (Node.height n) (block_download_lookahead (NodeSync.limits_of s)) <? height hd.
(* src: node_sync.rs:2360-2389 NodeSync::defer_unsolicited_future_block *)
Definition defer_unsolicited_future_block (peer : bytes) (hd : BlockHeader) (requested : bool) : act bool :=
  defer ← reads (should_defer_unsolicited_future_block hd requested);
  if negb defer then mret false
  else
    _ ← updates (note_observed_peer_tip peer hd false);
    _ ← queue_getheaders_if_needed peer;
    mret true.

(** A block that was canonical already. *)
(* src: node_sync.rs:2435-2456 NodeSync::handle_received_block (duplicate) *)
Definition handle_duplicate_block (peer : bytes) (hash : bytes) (h : Z) : act (result NodeSyncError unit) :=
  _ ← updates (fun s _ => NodeSync.drop_branch_block (NodeSync.drop_compact (NodeSync.note_block_received s hash) hash) hash);
  _ ← updates (fun s _ => NodeSync.mark_block_state (NodeSync.remove_pending_header_block s h hash) hash h Connected);
  _ ← push_block_download_work_for_peer peer;
  process_buffered_branches (Some peer).
(** A block that the node connected to its tip. *)
(* src: node_sync.rs:2465-2504 NodeSync::handle_received_block (connected) *)
Definition handle_connected_block (peer : bytes) (b : Block) : act (result NodeSyncError unit) :=
  let hash := BlockHeader.block_hash (header b) in
  let h := height (header b) in
  _ ← updates (note_observed_peer_tip peer (header b) false);
  _ ← updates note_local_chain_progress;
  _ ← updates (fun s _ => NodeSync.mark_block_state (NodeSync.mark_block_state s hash h FullyValidated) hash h Connected);
  _ ← updates NodeSync.mark_finalized_boundary;
  _ ← updates (fun s _ => NodeSync.drop_branch_block (NodeSync.drop_compact (NodeSync.note_block_received s hash) hash) hash);
  _ ← updates remove_canonical_branch_blocks;
  _ ← updates (fun s _ => NodeSync.remove_pending_header_block s h hash);
  _ ← push_block_download_work_for_peer peer;
  process_buffered_branches (Some peer).
(** A block that waits for its branch. *)
(* src: node_sync.rs:2540-2578 NodeSync::handle_received_block (buffered) *)
Definition handle_buffered_block (peer : bytes) (b : Block) : act (result NodeSyncError unit) :=
  let hash := BlockHeader.block_hash (header b) in
  let h := height (header b) in
  _ ← updates (note_observed_peer_tip peer (header b) false);
  _ ← queue_getheaders_if_needed peer;
  _ ← updates_if_ends (buffer_peer_block_with_known_ancestors peer b);
  _ ← updates (fun s _ => NodeSync.mark_block_state s hash h TempStoredUntrusted);
  _ ← updates (fun s _ => NodeSync.remove_pending_header_block (NodeSync.drop_compact (NodeSync.note_block_received s hash) hash) h hash);
  _ ← heal_buffered_branch_parents (Some peer);
  _ ← push_block_download_work_for_peer peer;
  process_buffered_branches (Some peer).
(* src: node_sync.rs:2391-2579 NodeSync::handle_received_block *)
Definition handle_received_block (peer : bytes) (b : Block) : act (result NodeSyncError unit) :=
  let hash := BlockHeader.block_hash (header b) in
  let h := height (header b) in
  network ← reads (fun s _ => ns_network s);
  match validate_received_block_envelope b network with
  | Err e => _ ← updates_if_ends (fun s _ => NodeSync.mark_invalid_block_family s hash h); mret (Err (SyncNodeError (NodeValidation e)))
  | Ok _ =>
      requested ← reads (fun s _ => Scheduler.is_inflight (downloader s) hash);
      deferred ← defer_unsolicited_future_block peer (header b) requested;
      if (deferred : bool) then _ ← updates (fun s _ => NodeSync.drop_compact s hash); mret (Ok tt)
      else
        _ ← updates (fun s _ => NodeSync.mark_block_state (note_block_body_progress s peer requested) hash h BodyDownloaded);
        duplicate ← reads (fun _ n => NodeQueries.is_canonical_block n hash);
        if (duplicate : bool) then handle_duplicate_block peer hash h
        else
          extends ← reads (fun _ n => bool_decide (previous_block_hash (header b) = Node.tip_hash n));
          if negb extends then handle_buffered_block peer b
          else
            _ ← updates (fun s _ => NodeSync.mark_block_state s hash h ValidationQueued);
            verdict ← on_node (fun n => Node.submit_block node_env NodeSync.now_unix n b);
            match verdict with
            | Ok _ => handle_connected_block peer b
            | Err e =>
                if match e with NodeValidation v => recoverable_tip_validation v | _ => false end then
                  _ ← updates (fun s _ => NodeSync.mark_block_state s hash h TempStoredUntrusted);
                  handle_buffered_block peer b
                else
                  _ ← updates_if_ends (fun s _ => NodeSync.mark_invalid_block_family s hash h);
                  mret (Err (SyncNodeError e))
            end
  end.

(** *** Compact blocks *)

(** The oldest entry, the first by hash among equals. *)
Definition oldest_compact (m : gmap bytes PendingCompactBlock) : option bytes :=
  fst <$> foldl (fun best e => match best with
                               | None => Some e
                               | Some b => if received_at e.2 <? received_at b.2 then Some e else best
                               end) None (sorted_entries bytes_le m).
(** The loop: a round removes one entry. *)
Fixpoint drop_oldest (excess : nat) (m : gmap bytes PendingCompactBlock) : gmap bytes PendingCompactBlock :=
  match excess with
  | O => m
  | S excess => match oldest_compact m with None => m | Some hash => drop_oldest excess (delete hash m) end
  end.
(* src: node_sync.rs:3305-3322 NodeSync::prune_pending_compact_blocks *)
Definition prune_pending_compact_blocks (s : NodeSync) (n : Node) : NodeSync :=
  let kept := filter (fun hp => saturating_sub system_millis (received_at hp.2) < PENDING_COMPACT_BLOCK_TIMEOUT)
                (pending_compact_blocks s) in
  NodeSync.with_compact s (drop_oldest (Z.to_nat (Z.of_nat (size kept) - MAX_PENDING_COMPACT_BLOCKS)) kept).
(** [node.mempool_transactions()] by short id, the last of those that share one. *)
Definition mempool_by_short_id (n : Node) : gmap Z Transaction :=
  foldl (fun m tx => <[compact_short_id (Transaction.witness_commitment_hash tx) := tx]> m) ∅
    (Mempool.transactions_of (mempool n)).
(* src: node_sync.rs:3606-3622 finalize_compact_block_witness_refs *)
Definition finalize_compact_block_witness_refs (b : Block) : Block :=
  let txs := (fun tx => finalize_witness_commit_refs tx (h_witness_root (header b))) <$> transactions b in
  {| header := header b; transactions := txs;
     witnesses := foldl (fun m tx => match Transaction.witness_payload tx with
                                     | Some w => <[Transaction.txid tx := w]> m
                                     | None => m
                                     end) ∅ txs;
     fees_total_atoms := fees_total_atoms b; fees_miner_atoms := fees_miner_atoms b |}.
Definition request_block_transactions (peer hash : bytes) (indexes : list Z) : act unit :=
  send peer (GetBlockTxn {| gbt_block_hash := hash; gbt_indexes := indexes |}).
(* src: node_sync.rs:3150-3208 NodeSync::handle_compact_block *)
Definition handle_compact_block (peer : bytes) (message : CompactBlockMessage) : act (result NodeSyncError unit) :=
  _ ← updates prune_pending_compact_blocks;
  let hash := BlockHeader.block_hash (cb_header message) in
  requested ← reads (fun s _ => Scheduler.is_inflight (downloader s) hash);
  deferred ← defer_unsolicited_future_block peer (cb_header message) requested;
  if (deferred : bool) then mret (Ok tt)
  else
    rebuilt ← reads (fun _ n => reconstruct_compact_block (fun short_id => mempool_by_short_id n !! short_id) ∅ message);
    match rebuilt with
    | Err e => mret (Err (SyncProtocolError e))
    | Ok (Complete b) => handle_received_block peer (finalize_compact_block_witness_refs b)
    | Ok (Missing _ indexes) =>
        _ ← updates (note_observed_peer_tip peer (cb_header message) false);
        _ ← updates (fun s _ => NodeSync.with_compact s
              (<[hash := {| pc_message := message; pc_overrides := ∅; received_at := system_millis |}]> (pending_compact_blocks s)));
        _ ← updates prune_pending_compact_blocks;
        _ ← request_block_transactions peer hash indexes;
        mret (Ok tt)
    end.
(* src: node_sync.rs:3210-3254 NodeSync::serve_getblocktxn *)
Definition serve_getblocktxn (peer : bytes) (request : GetBlockTxnMessage) : act unit :=
  let hash := gbt_block_hash request in
  found ← reads (fun _ n => NodeQueries.block_by_hash n hash);
  match found with
  | None => send peer (NotFound [{| iv_kind := InvBlock; iv_hash := hash |}])
  | Some b =>
      let served := omap (fun index => (fun tx => (index, tx)) <$> transactions b !! Z.to_nat index) (gbt_indexes request) in
      send peer (BlockTxn {| bt_block_hash := hash; bt_indexes := served.*1; bt_transactions := served.*2 |})
  end.
(* src: node_sync.rs:3256-3303 NodeSync::handle_blocktxn *)
Definition handle_blocktxn (peer : bytes) (response : BlockTxnMessage) : act (result NodeSyncError unit) :=
  if negb (zlen (bt_indexes response) =? zlen (bt_transactions response)) then mret (Err (SyncProtocolError InvalidCompactBlock))
  else
    _ ← updates prune_pending_compact_blocks;
    let hash := bt_block_hash response in
    pending ← reads (fun s _ => pending_compact_blocks s !! hash);
    match pending with
    | None => mret (Err (SyncProtocolError UnexpectedPayload))
    | Some pending =>
        let overrides := foldl (fun m it => <[it.1 := it.2]> m) (pc_overrides pending)
                           (zip (bt_indexes response) (bt_transactions response)) in
        _ ← updates (fun s _ => NodeSync.with_compact s
              (<[hash := {| pc_message := pc_message pending; pc_overrides := overrides; received_at := received_at pending |}]>
                 (pending_compact_blocks s)));
        rebuilt ← reads (fun _ n => reconstruct_compact_block (fun short_id => mempool_by_short_id n !! short_id) overrides
                                      (pc_message pending));
        match rebuilt with
        | Err e => mret (Err (SyncProtocolError e))
        | Ok (Complete b) =>
            _ ← updates (fun s _ => NodeSync.drop_compact s hash);
            handle_received_block peer (finalize_compact_block_witness_refs b)
        | Ok (Missing _ indexes) => _ ← request_block_transactions peer hash indexes; mret (Ok tt)
        end
    end.
End blocks.
End SyncBlocks.
