(* ===== verification/NodeSyncPeers.v ===== *)
(** * Node synchronization: peers

    crates/atho-node/src/sync.rs: what the node answers to each message, the headers it
    takes, how the target of the synchronization is lowered and recovered, the events of
    a session, and the maintenance of a peer. [SyncPeers.receive] is the entry point of a
    message. *)
From stdpp Require Import options.
From S2P Require Import Prelude Bytes Text Constants Crypto Keccak Network Rules Transaction Block Pow.
From S2P Require Import Genesis Errors Utxo Validation BlockValidation Chainstate Db Mempool Node.
From S2P Require Import P2pConfig Protocol CompactBlock Handshake BanList HeadersSync Downloader IpAddr AddressManager.
From S2P Require Import Connection Relay SideBranches NodeQueries NodeSync NodeSyncBlocks.

#[local] Set Default Proof Using "Type*".

Module SyncPeers.
Section peers.
Context `{Henv : ProcessEnv, Hs : Sha3, Hf : FalconBackend, Hg : !GenesisReady Hs, Hd : Database, Ha : !Archive, Hm : Moment, Hr : Rounds}.

(** ** Announcements and requests *)

(* src: node_sync.rs:668-671 NodeSync::relay_block_message *)
Definition relay_block_message (s : NodeSync) (b : Block) : NetworkMessage :=
  RelayLoop.relay_block (relay s) (BlockHeader.block_hash (header b)).
(* src: node_sync.rs:673-675 NodeSync::relay_transaction_message *)
Definition relay_transaction_message (s : NodeSync) (txid : bytes) : NetworkMessage := RelayLoop.relay_transaction (relay s) txid.
(* src: node_sync.rs:677-682 NodeSync::relay_compact_block_message *)
Definition relay_compact_block_message (s : NodeSync) (b : Block) : NetworkMessage :=
  NetworkMessage.new (ns_network s) (CompactBlock (compact_block_from_block b)).
(* src: node_sync.rs:1348-1351 NodeSync::local_version_message *)
Definition local_version_message (s : NodeSync) (n : Node) : NetworkMessage :=
  RelayLoop.build_version_message (relay s) NodeSync.now_unix (Node.height n) (Node.tip_hash n) (NodeQueries.chainwork_bytes n).

(* src: node_sync.rs:3324-3345 NodeSync::missing_inventory_requests *)
Definition missing_inventory_requests (s : NodeSync) (n : Node) (inventory : list InventoryVector) (chain_synced : bool) :
    list InventoryVector :=
  take (Z.to_nat (max_requests_per_peer (NodeSync.limits_of s)))
    (filter (fun vector => chain_synced && negb match iv_kind vector with
                           | InvBlock => NodeQueries.is_canonical_block n (iv_hash vector)
                           | InvTransaction => Mempool.contains (mempool n) (iv_hash vector)
                           end = true) inventory).
(** One requested item: what is sent, or [None] if it goes to the list of those not found. *)
Definition serve_item (n : Node) (chain_synced : bool) (vector : InventoryVector) : option MessagePayload :=
  match iv_kind vector with
  | InvBlock => BlockPayload <$> NodeQueries.block_by_hash n (iv_hash vector)
  | InvTransaction => if chain_synced then Tx <$> Mempool.transaction_of (mempool n) (iv_hash vector) else None
  end.
(* src: node_sync.rs:3522-3603 NodeSync::serve_getdata *)
Definition serve_getdata (peer : bytes) (inventory : list InventoryVector) : act unit :=
  answers ← reads (fun s n =>
    let synced := NodeSync.chain_synced s n in
    (fun vector => (vector, serve_item n synced vector))
    <$> take (Z.to_nat (max_requests_per_peer (NodeSync.limits_of s))) inventory);
  _ ← for_each (send peer) (omap snd answers);
  let not_found := (filter (fun a => a.2 = None) answers).*1 in
  if bool_decide (not_found = []) then mret tt else send peer (NotFound not_found).
(* src: node_sync.rs:3486-3520 NodeSync::maybe_request_mempool_snapshots *)
Definition maybe_request_mempool_snapshots : act unit :=
  synced ← reads NodeSync.chain_synced;
  if negb synced then updates (fun s _ => NodeSync.with_snapshot_peers s ∅)
  else
    peers ← reads (fun s _ => sn_remote_addr <$> NodeSync.ready_snapshots s);
    for_each (fun peer =>
      is_new ← updates_with (fun s _ =>
        match insert_new peer (mempool_snapshot_peers s) with
        | Some peers => (NodeSync.with_snapshot_peers s peers, true)
        | None => (s, false)
        end);
      if (is_new : bool) then send peer MemPool else mret tt) peers.
(* src: node_sync.rs:1730-1770 NodeSync::push_address_discovery_events *)
Definition push_address_discovery_events (remote_addr : bytes) : act unit :=
  quiet ← reads (fun s n => negb (NodeSync.chain_synced s n) || negb (NodeSync.peer_is_ready s remote_addr));
  if (quiet : bool) then mret tt
  else
    let now := NodeSync.now_unix in
    getaddr ← reads (fun s _ => NodeSync.should_send_periodic_getaddr s remote_addr now);
    _ ← (if (getaddr : bool) then
           _ ← updates (fun s _ => NodeSync.record_getaddr_sent s remote_addr now); send remote_addr GetAddr
         else mret tt);
    due ← reads (fun s _ => NodeSync.should_send_periodic_addr_relay s remote_addr now);
    if negb due then mret tt
    else
      addresses ← reads (fun s _ => ConnectionManager.relay_addresses_for_peer (connections s) remote_addr now);
      if bool_decide (addresses = []) then mret tt
      else
        _ ← updates (fun s _ => NodeSync.record_addr_relay_sent s remote_addr now);
        send remote_addr (Addr addresses).
(* src: node_sync.rs:1954-1967 NodeSync::record_peer_observation *)
Definition record_peer_observation (peer : bytes) (observed_height : Z) : act (result NodeSyncError unit) :=
  direction ← reads (fun s _ => ConnectionManager.direction_of (connections s) peer);
  if bool_decide (direction = Some OutboundPeer) then
    r ← on_node (fun n => NodeQueries.observe_peer n peer observed_height NodeSync.now_unix);
    mret (map_err SyncNodeError r)
  else mret (Ok tt).

(** ** The target *)

(* src: node_sync.rs:1353-1363 NodeSync::prime_relay_from_node_locator *)
Definition prime_relay_from_node_locator (s : NodeSync) (n : Node) : NodeSync :=
  NodeSync.with_relay s (RelayLoop.prime_with_locator_and_chainwork (relay s) (Node.height n) (NodeSync.local_tip_hash n)
                           (NodeSync.local_chainwork n) (NodeQueries.block_locator_hashes n)).
(* src: node_sync.rs:422-425 NodeSync::prime *)
Definition prime (s : NodeSync) (n : Node) : NodeSync :=
  SyncBlocks.update_sync_progress_watchdog (prime_relay_from_node_locator s n) n.
Definition mark_headers_unsynced (s : NodeSync) : NodeSync := NodeSync.with_relay s (RelayLoop.mark_headers_unsynced (relay s)).
(** The best height of the target and of what a peer claims. *)
Definition target_height (s : NodeSync) (n : Node) (peer : bytes) : Z :=
  Z.max (best_height (NodeSync.sync_state s))
    (default (Node.height n) (ConnectionManager.remote_best_height (connections s) peer)).
(* src: node_sync.rs:2227-2232 NodeSync::header_sync_work_idle *)
Definition header_sync_work_idle (s : NodeSync) (n : Node) : bool :=
  Scheduler.is_idle (downloader s) && bool_decide (pending_header_blocks s = ∅)
  && bool_decide (pending_compact_blocks s = ∅) && (NodeSync.pending_tip_validation_blocks s n =? 0).
(* src: node_sync.rs:2208-2225 NodeSync::local_tip_satisfies_peer_observation *)
Definition local_tip_satisfies_peer_observation (s : NodeSync) (n : Node) (remote_addr : bytes) : bool :=
  if NodeSync.peer_has_unserved_advertised_height s remote_addr then false
  else
    let remote_height := default (Node.height n) (ConnectionManager.remote_best_height (connections s) remote_addr) in
    if negb (Node.height n =? remote_height) then remote_height <? Node.height n
    else match ConnectionManager.remote_chainwork (connections s) remote_addr with
         | Some work => bool_decide (work = Hash48_ZERO)
                        || match bytes_compare (NodeQueries.chainwork_bytes n) work with Lt => false | _ => true end
         | None => true
         end.
(* src: node_sync.rs:2171-2206 NodeSync::should_rehydrate_headers_from_local_tip *)
Definition should_rehydrate_headers_from_local_tip (s : NodeSync) (n : Node) (remote_addr : bytes) : bool :=
  if SyncBlocks.header_request_inflight s remote_addr || NodeSync.peer_has_unserved_advertised_height s remote_addr
     || negb (NodeSync.peer_is_ready s remote_addr) then false
  else
    let remote_height := default 0 (ConnectionManager.remote_best_height (connections s) remote_addr) in
    let target_height := Z.max (best_height (NodeSync.sync_state s)) remote_height in
    if (target_height <=? Node.height n) && NodeSync.local_tip_satisfies s n
       && local_tip_satisfies_peer_observation s n remote_addr then false
    else Scheduler.is_idle (downloader s)
         && (headers_synced (NodeSync.sync_state s) || bool_decide (pending_header_blocks s = ∅)).

(** What is forgotten of a block above the new target. *)
Definition forget_block_above (s : NodeSync) (hash : bytes) : NodeSync :=
  let s := NodeSync.drop_branch_block (NodeSync.drop_compact s hash) hash in
  NodeSync.with_states s (delete hash (block_validation_states s)) (delete hash (block_validation_heights s)).
(* src: node_sync.rs:1208-1253 NodeSync::prune_download_work_above_height *)
Definition prune_download_work_above_height (s : NodeSync) (max_height : Z) : NodeSync :=
  let first_stale := saturating_add U64_MAX max_height 1 in
  let above := filter (fun hb => first_stale <= hb.1) (sorted_entries Z.le (pending_header_blocks s)) in
  let unconnected := filter (fun hh => max_height < hh.2 /\
      block_validation_states s !! hh.1 <> Some Connected /\ block_validation_states s !! hh.1 <> Some Finalized)
      (sorted_entries bytes_le (block_validation_heights s)) in
  let hashes : gset bytes := list_to_set ((above ≫= fun hb => (sorted_entries bytes_le hb.2).*1) ++ unconnected.*1) in
  let hashes := sorted_elements bytes_le hashes in
  let s := NodeSync.with_pending_headers s (filter (fun hb => hb.1 < first_stale) (pending_header_blocks s)) in
  let s := foldl forget_block_above s hashes in
  NodeSync.with_downloader s (Scheduler.forget_blocks (downloader s) hashes).1.
(* src: node_sync.rs:1159-1206 NodeSync::lower_stale_sync_target_to_live_tip *)
Definition lower_stale_sync_target_to_live_tip (s : NodeSync) (n : Node) (terminal_height : Z) : NodeSync * bool :=
  let current_target := best_height (NodeSync.sync_state s) in
  let summary := NodeSync.peer_sync_inconsistency_summary s in
  if unresolved_advertised_height summary && (terminal_height <? best_advertised_peer_height summary) then (s, false)
  else
    let live_best_height := Z.max (default terminal_height (NodeSync.live_peer_best_height s)) terminal_height in
    if current_target <=? live_best_height then (s, false)
    else
      let s := NodeSync.with_relay s (RelayLoop.reset_sync_target_at (relay s) (Node.height n) (NodeSync.local_tip_hash n)
                                        (Some live_best_height)) in
      let s := prune_download_work_above_height s live_best_height in
      let s := if live_best_height <=? terminal_height
               then NodeSync.with_relay s (RelayLoop.mark_headers_synced (relay s)) else s in
      (s, true).
(* src: node_sync.rs:1088-1148 NodeSync::maybe_drop_stale_unreachable_sync_target *)
Definition maybe_drop_stale_unreachable_sync_target (s : NodeSync) (n : Node) : NodeSync * bool :=
  let target_height := best_height (NodeSync.sync_state s) in
  if target_height <=? Node.height n then (s, false)
  else
    match NodeSync.live_peer_best_height s with
    | None => (s, false)
    | Some live_best_height =>
        let stats := Scheduler.stats (downloader s) in
        let last_network_progress := Z.max (last_block_progress_unix s) (last_block_body_received_unix s) in
        let stale_after := Z.max (saturating_mul U64_MAX (NodeSync.block_request_retry_timeout s / 1000) 8) 60 in
        if (target_height <=? live_best_height)
           || negb (st_pending_blocks stats =? 0) || negb (st_inflight_blocks stats =? 0)
           || negb (bool_decide (pending_header_blocks s = ∅)) || negb (bool_decide (pending_compact_blocks s = ∅))
           || negb (NodeSync.pending_tip_validation_blocks s n =? 0)
           || (saturating_sub NodeSync.now_unix last_network_progress <? stale_after) then (s, false)
        else
          let s := NodeSync.with_relay s (RelayLoop.reset_sync_target_at (relay s) (Node.height n) (NodeSync.local_tip_hash n)
                                            (Some live_best_height)) in
          (SyncBlocks.reseed_locator_from_node s n, true)
    end.
(* src: node_sync.rs:2234-2259 NodeSync::finish_empty_terminal_headers_if_caught_up *)
Definition finish_empty_terminal_headers_if_caught_up (peer : bytes) (s : NodeSync) (n : Node) : NodeSync * bool :=
  if (Node.height n <? target_height s n peer) || negb (header_sync_work_idle s n) then (s, false)
  else
    let s := NodeSync.with_connections s (ConnectionManager.replace_peer_tip (connections s) peer (Node.height n) (Node.tip_hash n)) in
    let s := NodeSync.note_peer_served_terminal_height s peer (Node.height n) in
    let s := prime_relay_from_node_locator s n in
    (NodeSync.with_requests_started s (delete peer (header_requests_started s)), true).
(** It never asks for a disconnect: a request that timed out is forgotten. *)
(* src: node_sync.rs:2269-2318 NodeSync::header_timeout_disconnect_event *)
Definition header_timeout_disconnect_event (remote_addr : bytes) (s : NodeSync) (n : Node) : NodeSync * option ConnectionEvent :=
  let forget s := NodeSync.with_requests_started s (delete remote_addr (header_requests_started s)) in
  if (target_height s n remote_addr <=? Node.height n) && NodeSync.local_tip_satisfies s n then (forget s, None)
  else
    let timed_out := match header_requests_started s !! remote_addr with
                     | Some started => NodeSync.headers_request_timeout s <=? saturating_sub system_millis started
                     | None => false
                     end in
    if negb timed_out then (s, None)
    else if negb (last_block_body_received_unix s =? 0)
            && (saturating_sub NodeSync.now_unix (last_block_body_received_unix s)
                <? Z.max (NodeSync.headers_request_timeout s / 1000) 1) then
      (NodeSync.with_requests_started s (<[remote_addr := system_millis]> (header_requests_started s)), None)
    else (forget s, None).
(* src: node_sync.rs:971-981 NodeSync::note_peer_disconnected *)
Definition note_peer_disconnected (peer : bytes) (s : NodeSync) (n : Node) : NodeSync :=
  let s := NodeSync.with_downloader s (Scheduler.note_peer_disconnected (downloader s) peer) in
  let s := NodeSync.with_snapshot_peers s (mempool_snapshot_peers s ∖ {[peer]}) in
  let s := NodeSync.with_requests_started s (delete peer (header_requests_started s)) in
  let s := NodeSync.with_getaddr_sent s (delete peer (getaddr_last_sent_unix s)) in
  let s := NodeSync.with_addr_relay_sent s (delete peer (addr_relay_last_sent_unix s)) in
  SyncBlocks.refresh_sync_target_from_live_peers s n.

(** ** Messages *)

(* src: node_sync.rs:1396-1417 NodeSync::handle_message (Inv) *)
Definition handle_inv (peer : bytes) (inventory : list InventoryVector) : act (result NodeSyncError unit) :=
  chain_synced ← reads NodeSync.chain_synced;
  _ ← updates (fun s _ => foldl (fun s vector =>
        match iv_kind vector with
        | InvBlock => NodeSync.with_downloader s (Scheduler.note_inventory (downloader s) peer (iv_hash vector))
        | InvTransaction => s
        end) s inventory);
  requests ← reads (fun s n => missing_inventory_requests s n inventory chain_synced);
  if bool_decide (requests = []) then mret (Ok tt) else _ ← send peer (GetData requests); mret (Ok tt).
(* src: node_sync.rs:1421-1449 NodeSync::handle_message (GetHeaders) *)
Definition handle_getheaders (peer : bytes) (request : GetHeadersMessage) : act (result NodeSyncError unit) :=
  headers ← reads (fun s n => NodeQueries.headers_after_locator n (gh_locator_hashes request) (gh_stop_hash request)
                                (max_headers_per_message (NodeSync.limits_of s)));
  _ ← send peer (Headers headers);
  mret (Ok tt).

(** The first header stands on a known block at another height. *)
Definition misplaced_headers (n : Node) (headers : list BlockHeader) : bool :=
  match head headers with
  | None => false
  | Some first =>
      match NodeQueries.known_block_height n (previous_block_hash first) with
      | Some parent_height => negb (height first =? saturating_add U64_MAX parent_height 1)
      | None => false
      end
  end.
(** No headers came although the target is above the tip. *)
(* src: node_sync.rs:1486-1522 NodeSync::handle_message (empty Headers) *)
Definition handle_no_headers (peer : bytes) : act (result NodeSyncError unit) :=
  below ← updates_with (fun s n => NodeSync.mark_peer_terminal_below_advertised s peer (Node.height n));
  if (below : bool) then
    _ ← updates (fun s n => SyncBlocks.reseed_locator_from_node (mark_headers_unsynced s) n);
    _ ← push_address_discovery_events peer;
    mret (Ok tt)
  else
    reached ← updates_with (fun s n =>
      if header_sync_work_idle s n then
        let s := NodeSync.with_connections s
                   (ConnectionManager.replace_peer_tip (connections s) peer (Node.height n) (Node.tip_hash n)) in
        let s := (lower_stale_sync_target_to_live_tip s n (Node.height n)).1 in
        (s, best_height (NodeSync.sync_state s) <=? Node.height n)
      else (s, false));
    if (reached : bool) then mret (Ok tt)
    else
      _ ← updates (fun s n => mark_headers_unsynced (SyncBlocks.reseed_locator_from_node s n));
      _ ← SyncBlocks.queue_getheaders peer;
      mret (Ok tt).
(** What the last header of a batch tells about the peer and the target. *)
(* src: node_sync.rs:1523-1537 NodeSync::handle_message (last header) *)
Definition note_last_header (peer : bytes) (headers : list BlockHeader) (s : NodeSync) (n : Node) : NodeSync :=
  match last headers with
  | None => s
  | Some last_header =>
      let terminal_batch := zlen headers <? max_headers_per_message (NodeSync.limits_of s) in
      let '(s, terminal_below_advertised) :=
        if terminal_batch then NodeSync.mark_peer_terminal_below_advertised s peer (height last_header) else (s, false) in
      if (terminal_below_advertised : bool) then mark_headers_unsynced s
      else
        let s := NodeSync.note_peer_served_terminal_height s peer (height last_header) in
        let s := SyncBlocks.note_observed_peer_tip peer last_header terminal_batch s n in
        if terminal_batch then (lower_stale_sync_target_to_live_tip s n (height last_header)).1 else s
  end.
(** The headers of a batch: the blocks of the archive among them, and the rest noted. *)
(* src: node_sync.rs:1552-1564 NodeSync::handle_message (header blocks) *)
Definition note_header_blocks (peer : bytes) (headers : list BlockHeader) (s : NodeSync) (n : Node) : NodeSync * list Block :=
  foldl (fun acc hd =>
    let '(s, known) := acc in
    let hash := BlockHeader.block_hash hd in
    if NodeQueries.is_canonical_block n hash then (NodeSync.remove_pending_header_block s (height hd) hash, known)
    else match NodeQueries.block_by_hash n hash with
         | Some b => (s, known ++ [b])
         | None => (NodeSync.note_pending_header_block s peer (height hd) hash, known)
         end) (s, []) headers.
Definition ask_addresses (peer : bytes) : act (result NodeSyncError unit) :=
  _ ← updates (fun s _ => NodeSync.record_getaddr_sent s peer NodeSync.now_unix);
  _ ← send peer GetAddr;
  mret (Ok tt).
(* src: node_sync.rs:1450-1591 NodeSync::handle_message (Headers) *)
Definition handle_headers (peer : bytes) (headers : list BlockHeader) : act (result NodeSyncError unit) :=
  _ ← updates (fun s _ => NodeSync.with_requests_started s (delete peer (header_requests_started s)));
  misplaced ← reads (fun _ n => misplaced_headers n headers);
  if (misplaced : bool) then mret (Err (SyncProtocolError InvalidHeadersSequence))
  else
    let? _ := updates_with (fun s _ =>
        let '(r, verdict) := RelayLoop.accept_headers_from_peer (relay s) peer headers in
        (NodeSync.with_relay s r, map_err SyncProtocolError verdict)) in
    caught_up ← (if bool_decide (headers = []) then updates_with (finish_empty_terminal_headers_if_caught_up peer)
                 else mret false);
    if (caught_up : bool) then ask_addresses peer
    else
      behind ← reads (fun s n => bool_decide (headers = []) && (Node.height n <? best_height (NodeSync.sync_state s)));
      if (behind : bool) then handle_no_headers peer
      else
        _ ← updates (note_last_header peer headers);
        known_noncanonical_blocks ← updates_with (note_header_blocks peer headers);
        _ ← SyncBlocks.push_block_download_work_for_peer peer;
        let? _ := try_each (SyncBlocks.handle_received_block peer) known_noncanonical_blocks in
        synced ← reads (fun s _ => headers_synced (NodeSync.sync_state s));
        if (synced : bool) then ask_addresses peer
        else
          unserved ← reads (fun s _ => NodeSync.peer_has_unserved_advertised_height s peer);
          if (unserved : bool) then mret (Ok tt)
          else _ ← SyncBlocks.queue_getheaders peer; mret (Ok tt).

(* src: node_sync.rs:1604-1634 NodeSync::handle_message (Tx) *)
Definition handle_tx (tx : Transaction) : act (result NodeSyncError unit) :=
  wanted ← reads (fun s n => NodeSync.chain_synced s n && negb (Mempool.contains (mempool n) (Transaction.txid tx)));
  if negb wanted then mret (Ok tt)
  else
    verdict ← on_node (fun n => Node.accept_relayed_transaction NodeSync.now_unix n tx);
    mret match verdict with
         | Ok _ => Ok tt
         | Err e => if SyncBlocks.recoverable_relay_transaction_error e then Ok tt else Err (SyncNodeError e)
         end.
(* src: node_sync.rs:1635-1666 NodeSync::handle_message (MemPool) *)
Definition handle_mempool (peer : bytes) : act (result NodeSyncError unit) :=
  synced ← reads NodeSync.chain_synced;
  if negb synced then mret (Ok tt)
  else
    inventory ← reads (fun s n =>
      (fun tx => {| iv_kind := InvTransaction; iv_hash := Transaction.txid tx |})
      <$> take (Z.to_nat (max_inv_per_message (NodeSync.limits_of s))) (Mempool.transactions_of (mempool n)));
    if bool_decide (inventory = []) then mret (Ok tt) else _ ← send peer (Inv inventory); mret (Ok tt).
(* src: node_sync.rs:1667-1675 NodeSync::handle_message (NotFound) *)
Definition handle_notfound (peer : bytes) (inventory : list InventoryVector) : act (result NodeSyncError unit) :=
  let hashes := iv_hash <$> filter (fun vector => iv_kind vector = InvBlock) inventory in
  _ ← updates (fun s _ => NodeSync.with_downloader s (Scheduler.note_not_found (downloader s) peer hashes));
  _ ← SyncBlocks.push_block_download_work_for_peer peer;
  mret (Ok tt).
(* src: node_sync.rs:1683-1725 NodeSync::handle_message (Addr) *)
Definition handle_addr (peer : bytes) (addresses : list PeerAddress) : act (result NodeSyncError unit) :=
  allowed ← updates_with (fun s _ => NodeSync.allow_addr_message s peer);
  if negb allowed then
    _ ← updates (fun s _ => NodeSync.with_connections s
          (ConnectionManager.record_misbehavior (connections s) peer ADDR_SPAM_MISBEHAVIOR_SCORE NodeSync.now_unix).1);
    mret (Ok tt)
  else
    let? accepted := updates_with (fun s _ =>
        let s := NodeSync.with_addr_received s (Some NodeSync.now_unix) in
        let '(c, verdict) := ConnectionManager.note_gossip_addresses_from_source (connections s) peer addresses
                               (negb (bool_decide (ns_network s = Regnet))) NodeSync.now_unix in
        (NodeSync.with_connections s c, map_err SyncConnectionError verdict)) in
    observed_height ← reads (fun s n => default (Node.height n) (ConnectionManager.remote_best_height (connections s) peer));
    let observe f := (r ← on_node f; mret (map_err SyncNodeError r)) : act (result NodeSyncError unit) in
    let? _ := observe (fun n => NodeQueries.observe_peer n peer observed_height NodeSync.now_unix) in
    try_each (fun address => observe (fun n => NodeQueries.observe_peer_address n address observed_height NodeSync.now_unix))
      accepted.
(* src: node_sync.rs:1388-1728 NodeSync::handle_message *)
Definition handle_message (peer : bytes) (message : NetworkMessage) : act (result NodeSyncError unit) :=
  match payload message with
  | Inv inventory => handle_inv peer inventory
  | GetData inventory => _ ← serve_getdata peer inventory; mret (Ok tt)
  | GetHeaders request => handle_getheaders peer request
  | Headers headers => handle_headers peer headers
  | BlockPayload b => SyncBlocks.handle_received_block peer b
  | CompactBlock m => SyncBlocks.handle_compact_block peer m
  | GetBlockTxn request => _ ← SyncBlocks.serve_getblocktxn peer request; mret (Ok tt)
  | BlockTxn response => SyncBlocks.handle_blocktxn peer response
  | Tx tx => handle_tx tx
  | MemPool => handle_mempool peer
  | NotFound inventory => handle_notfound peer inventory
  | Pong _ => mret (Ok tt)
  | Version _ | Verack | Ping _ | GetAddr => mret (Err (SyncProtocolError UnexpectedPayload))
  | Addr addresses => handle_addr peer addresses
  end.

(** ** Sessions *)

(** One event of the session layer, with the notices it gives. *)
(* src: node_sync.rs:914-947 NodeSync::expand_events (event) *)
Definition expand_event (event : ConnectionEvent) : act (result NodeSyncError (list SyncNotice)) :=
  match event with
  | SendTo _ _ => _ ← push event; mret (Ok [])
  | Disconnect peer reason => _ ← updates (note_peer_disconnected peer); mret (Ok [DisconnectedNotice peer reason])
  | PeerIsReady peer best_height =>
      let? _ := updates_with (fun s _ =>
          match ConnectionManager.remote_version_of (connections s) peer with
          | None => (s, Ok tt)
          | Some version =>
              let '(r, verdict) := RelayLoop.accept_version (relay s) peer version NodeSync.now_unix in
              (NodeSync.with_relay s r, map_err SyncProtocolError verdict)
          end) in
      _ ← updates (fun s _ =>
            let s := NodeSync.note_peer_advertised_height s peer best_height in
            NodeSync.with_downloader s (Scheduler.note_peer_ready (downloader s) peer));
      let? _ := record_peer_observation peer best_height in
      _ ← SyncBlocks.queue_getheaders peer;
      mret (Ok [ReadyNotice peer best_height])
  | Message peer message => let? _ := handle_message peer message in mret (Ok [])
  end.
Fixpoint expand_each (events : list ConnectionEvent) (notices : list SyncNotice) : act (result NodeSyncError (list SyncNotice)) :=
  match events with
  | [] => mret (Ok notices)
  | event :: events => let? more := expand_event event in expand_each events (notices ++ more)
  end.
(* src: node_sync.rs:906-952 NodeSync::expand_events *)
Definition expand_events (events : list ConnectionEvent) : act (result NodeSyncError (list SyncNotice)) :=
  let? notices := expand_each events [] in
  _ ← maybe_request_mempool_snapshots;
  mret (Ok notices).
(* src: node_sync.rs:623-666 NodeSync::receive *)
Definition receive (remote_addr : bytes) (message : NetworkMessage) (s : NodeSync) (n : Node) :
    option (NodeSync * Node * result NodeSyncError (list ConnectionEvent * list SyncNotice)) :=
  let local_version := local_version_message s n in
  let '(c, verdict) := ConnectionManager.receive (connections s) remote_addr message local_version NodeSync.now_unix in
  let s := NodeSync.with_connections s c in
  match verdict with
  | Err (ProtocolFailure e) =>
      let s := NodeSync.with_snapshot_peers s (mempool_snapshot_peers s ∖ {[remote_addr]}) in
      Some (SyncBlocks.refresh_sync_target_from_live_peers s n, n, Ok ([], [DisconnectedNotice remote_addr e]))
  | Err e => Some (s, n, Err (SyncConnectionError e))
  | Ok events =>
      '(w, r) ← expand_events events {| sync := s; node := n; outbound := [] |};
      match r with
      | Ok notices => Some (sync w, node w, Ok (outbound w, notices))
      | Err (SyncProtocolError e) =>
          let c := (ConnectionManager.record_misbehavior (connections (sync w)) remote_addr
                      POST_HANDSHAKE_PROTOCOL_ERROR_SCORE NodeSync.now_unix).1 in
          Some (NodeSync.with_connections (sync w) c, node w, Err (SyncProtocolError e))
      | Err e => Some (sync w, node w, Err e)
      end
  end.
(* src: node_sync.rs:591-593 NodeSync::has_peer *)
Definition has_peer (s : NodeSync) (remote_addr : bytes) : bool := ConnectionManager.has_peer (connections s) remote_addr.
(* src: node_sync.rs:595-597 NodeSync::add_manual_peer *)
Definition add_manual_peer (s : NodeSync) (remote_addr : bytes) : NodeSync :=
  NodeSync.with_connections s (ConnectionManager.add_manual_peer (connections s) remote_addr).
(* src: node_sync.rs:599-607 NodeSync::seed_peer_addresses *)
Definition seed_peer_addresses (s : NodeSync) (addresses : list PeerAddress) :
    NodeSync * result NodeSyncError (list PeerAddress) :=
  let '(c, verdict) := ConnectionManager.note_gossip_addresses (connections s) addresses
                         (negb (bool_decide (ns_network s = Regnet))) NodeSync.now_unix in
  (NodeSync.with_connections s c, map_err SyncConnectionError verdict).
(* src: node_sync.rs:609-612 NodeSync::accept_inbound *)
Definition accept_inbound (s : NodeSync) (remote_addr : bytes) : NodeSync * result NodeSyncError unit :=
  let '(c, verdict) := ConnectionManager.accept_inbound (connections s) remote_addr NodeSync.now_unix in
  (NodeSync.with_connections s c, map_err SyncConnectionError verdict).
(* src: node_sync.rs:614-621 NodeSync::open_outbound *)
Definition open_outbound (s : NodeSync) (n : Node) (remote_addr : bytes) : NodeSync * result NodeSyncError (list ConnectionEvent) :=
  let '(c, verdict) := ConnectionManager.open_outbound (connections s) remote_addr (local_version_message s n) NodeSync.now_unix in
  (NodeSync.with_connections s c, map_err SyncConnectionError verdict).
(** The text of the reason is the caller's; here only that there is a notice. *)
(* src: node_sync.rs:684-698 NodeSync::disconnect_peer *)
Definition disconnect_peer (s : NodeSync) (n : Node) (remote_addr : bytes) : NodeSync * bool :=
  let '(c, known) := ConnectionManager.disconnect (connections s) remote_addr in
  let s := NodeSync.with_connections s c in
  if (known : bool) then (note_peer_disconnected remote_addr s n, true) else (s, false).

(** ** Maintenance *)

(* src: node_sync.rs:812-827 NodeSync::prune_completed_download_work *)
Definition prune_completed_download_work (s : NodeSync) (n : Node) : NodeSync :=
  NodeSync.with_downloader s
    (Scheduler.prune_completed_where (downloader s) (fun hash =>
       NodeQueries.is_canonical_block n hash || bool_decide (is_Some (NodeQueries.block_by_hash n hash)))).1.
(** The state that limits how often the metrics are logged. *)
(* src: node_sync.rs:1024-1040 NodeSync::log_sync_metrics_if_due (rate limit) *)
Definition log_sync_metrics_if_due (s : NodeSync) (n : Node) : NodeSync :=
  let stats := Scheduler.stats (downloader s) in
  if (saturating_sub NodeSync.now_unix (last_sync_metrics_log_unix s) <? SYNC_METRICS_LOG_INTERVAL_SECS)
     || (NodeSync.chain_synced s n && (st_pending_blocks stats =? 0) && (st_inflight_blocks stats =? 0)
         && bool_decide (pending_header_blocks s = ∅) && bool_decide (pending_compact_blocks s = ∅)) then s
  else NodeSync.with_metrics_log s NodeSync.now_unix.
(** Whether a recovery is due. *)
(* src: node_sync.rs:1261-1294 NodeSync::maybe_trigger_stale_recovery (conditions) *)
Definition stale_recovery_due (remote_addr : bytes) (s : NodeSync) (n : Node) : bool :=
  let retry_secs := NodeSync.block_request_retry_timeout s / 1000 in
  let stale_after := Z.max (saturating_mul U64_MAX retry_secs 4) 30 in
  let last_network_progress := Z.max (last_block_progress_unix s) (last_block_body_received_unix s) in
  let stats := Scheduler.stats (downloader s) in
  negb ((target_height s n remote_addr <=? Node.height n) || (NodeSync.ready_peer_count s =? 0))
  && (stale_after <=? saturating_sub NodeSync.now_unix last_network_progress)
  && (Z.max retry_secs 1 <=? saturating_sub NodeSync.now_unix (last_stale_recovery_unix s))
  && negb ((st_pending_blocks stats =? 0) && (st_inflight_blocks stats =? 0)
           && bool_decide (pending_header_blocks s = ∅) && headers_synced (NodeSync.sync_state s)).
(* src: node_sync.rs:1255-1346 NodeSync::maybe_trigger_stale_recovery *)
Definition maybe_trigger_stale_recovery (remote_addr : bytes) : act bool :=
  due ← reads (stale_recovery_due remote_addr);
  if negb due then mret false
  else
    _ ← updates (fun s n =>
          let s := NodeSync.with_recovery s NodeSync.now_unix (saturating_add U64_MAX (stale_recovery_count s) 1) in
          let '(d, requeued) := Scheduler.requeue_stale_inflight_details (downloader s) (NodeSync.block_request_retry_timeout s)
                                  instant_millis in
          let s := NodeSync.with_downloader s d in
          let s := if bool_decide (requeued = []) then s else SyncBlocks.prioritize_pending_downloads_by_height s in
          mark_headers_unsynced (SyncBlocks.reseed_locator_from_node s n));
    ask ← reads (fun s _ => NodeSync.peer_is_ready s remote_addr && negb (SyncBlocks.header_request_inflight s remote_addr));
    _ ← (if (ask : bool) then SyncBlocks.queue_getheaders remote_addr else mret tt);
    _ ← SyncBlocks.heal_buffered_branch_parents (Some remote_addr);
    _ ← SyncBlocks.push_block_download_work_for_peer remote_addr;
    _ ← push_address_discovery_events remote_addr;
    mret true.
(** The headers and addresses asked for at the end of a maintenance. *)
Definition finish_maintenance (remote_addr : bytes) : act unit :=
  ask ← reads (fun s n => should_rehydrate_headers_from_local_tip s n remote_addr);
  _ ← (if (ask : bool) then
         _ ← updates SyncBlocks.refresh_header_locator_from_node_if_needed; SyncBlocks.queue_getheaders remote_addr
       else mret tt);
  push_address_discovery_events remote_addr.
(* src: node_sync.rs:700-786 NodeSync::maintain_peer_sync *)
Definition maintain (remote_addr : bytes) : act unit :=
  _ ← updates SyncBlocks.prune_pending_compact_blocks;
  _ ← updates SyncBlocks.refresh_sync_target_from_live_peers;
  _ ← updates SyncBlocks.update_sync_progress_watchdog;
  _ ← updates prune_completed_download_work;
  _ ← updates log_sync_metrics_if_due;
  dropped ← updates_with maybe_drop_stale_unreachable_sync_target;
  _ ← (if (dropped : bool) then updates SyncBlocks.refresh_header_locator_from_node_if_needed else mret tt);
  timeout ← updates_with (header_timeout_disconnect_event remote_addr);
  match timeout with
  | Some event => push event
  | None =>
      recovered ← maybe_trigger_stale_recovery remote_addr;
      if (recovered : bool) then mret tt
      else
        stale_downloads ← updates_with (fun s _ =>
          let '(d, stale) := Scheduler.requeue_stale_inflight_for_peer (downloader s) remote_addr
                               (NodeSync.block_request_retry_timeout s) instant_millis in
          (NodeSync.with_downloader s d, stale));
        if negb (bool_decide (stale_downloads = [])) then
          _ ← updates (fun s _ => SyncBlocks.prioritize_pending_downloads_by_height s);
          few ← reads (fun s _ => NodeSync.ready_peer_count s <=? 1);
          _ ← (if (few : bool) then
                 _ ← SyncBlocks.heal_buffered_branch_parents (Some remote_addr);
                 SyncBlocks.push_block_download_work_for_peer remote_addr
               else _ ← SyncBlocks.heal_buffered_branch_parents None; SyncBlocks.push_scheduled_block_requests);
          finish_maintenance remote_addr
        else
          _ ← SyncBlocks.heal_buffered_branch_parents (Some remote_addr);
          _ ← SyncBlocks.push_block_download_work_for_peer remote_addr;
          finish_maintenance remote_addr
  end.
(* src: node_sync.rs:700-704 NodeSync::maintain_peer_sync (call) *)
Definition maintain_peer_sync (remote_addr : bytes) (s : NodeSync) (n : Node) : option (NodeSync * list ConnectionEvent) :=
  '(w, _) ← maintain remote_addr {| sync := s; node := n; outbound := [] |}; Some (sync w, outbound w).
End peers.
End SyncPeers.
