(* ===== verification/NodeSyncFacts.v ===== *)
(** * Node synchronization: what it keeps

    The logic of [holds]: a handler of [act] keeps a property of the synchronization
    state and a property of the node. The first is [sync_ok], the second is any property
    the calls of the node keep ([node_call]); [synchronization_safe] states both for
    every history of messages, sessions and maintenance. *)
From stdpp Require Import options.
From S2P Require Import Prelude Bytes Text Constants Crypto Keccak Network Rules Transaction Block Pow.
From S2P Require Import Genesis Errors Utxo Validation BlockValidation Chainstate Db Mempool Node.
From S2P Require Import P2pConfig Protocol CompactBlock Handshake BanList HeadersSync Downloader IpAddr AddressManager.
From S2P Require Import Connection Relay SideBranches NodeQueries NodeSync NodeSyncBlocks NodeSyncPeers.

#[local] Set Default Proof Using "Type*".

(** ** Keeping a property *)

Section holding.
Context `{Hd : Database} (P : NodeSync -> Prop) (Q : Node -> Prop).

(** Whenever [m] returns, it has kept [P] and [Q]. *)
Definition holds {A} (m : act A) : Prop :=
  forall w w' a, P (sync w) -> Q (node w) -> m w = Some (w', a) -> P (sync w') /\ Q (node w').

Lemma holds_ret {A} (a : A) : holds (mret a).
Proof. by intros w w' a' HP HQ [= <- _]. Qed.
Lemma holds_diverges {A} : holds (diverges (A:=A)).
Proof. done. Qed.
Lemma holds_bind {A B} (m : act A) (k : A -> act B) : holds m -> (forall a, holds (k a)) -> holds (m ≫= k).
Proof.
  intros Hm Hk w w' b HP HQ Hrun. unfold mbind, act_bind in Hrun.
  destruct (m w) as [[w1 a]|] eqn:E; [|done]. destruct (Hm _ _ _ HP HQ E). by eapply Hk.
Qed.
Lemma holds_reads {A} (f : NodeSync -> Node -> A) : holds (reads f).
Proof. by intros w w' a HP HQ [= <- _]. Qed.
Lemma holds_updates_with {A} (f : NodeSync -> Node -> NodeSync * A) :
  (forall s n, P s -> P (f s n).1) -> holds (updates_with f).
Proof.
  intros Hf w w' a HP HQ Hrun. unfold updates_with in Hrun. specialize (Hf (sync w) (node w) HP).
  destruct (f (sync w) (node w)). by injection Hrun as <- _.
Qed.
Lemma holds_updates (f : NodeSync -> Node -> NodeSync) : (forall s n, P s -> P (f s n)) -> holds (updates f).
Proof. intros Hf. by apply holds_updates_with. Qed.
Lemma holds_updates_if_ends {A} (f : NodeSync -> Node -> option (NodeSync * A)) :
  (forall s n s' a, P s -> f s n = Some (s', a) -> P s') -> holds (updates_if_ends f).
Proof.
  intros Hf w w' a HP HQ Hrun. unfold updates_if_ends in Hrun.
  destruct (f (sync w) (node w)) as [[s b]|] eqn:E; [|done]. injection Hrun as <- _. split; [by eapply Hf|done].
Qed.
Lemma holds_on_node {A} (f : Node -> Node * A) : (forall n, Q n -> Q (f n).1) -> holds (on_node f).
Proof.
  intros Hf w w' a HP HQ Hrun. unfold on_node in Hrun. specialize (Hf (node w) HQ).
  destruct (f (node w)). by injection Hrun as <- _.
Qed.
Lemma holds_push e : holds (push e).
Proof. by intros w w' a HP HQ [= <- _]. Qed.
Lemma holds_send peer p : holds (send peer p).
Proof. apply holds_bind; [apply holds_reads|]. intros n. apply holds_push. Qed.
Lemma holds_for_each {A} (f : A -> act unit) l : (forall x, holds (f x)) -> holds (for_each f l).
Proof. intros Hf. induction l as [|x l IH]; [apply holds_ret|]. by apply holds_bind. Qed.
Lemma holds_try {E A B} (m : act (result E A)) (k : A -> act (result E B)) :
  holds m -> (forall a, holds (k a)) -> holds (act_try m k).
Proof. intros Hm Hk. apply holds_bind; [done|]. intros [a|e]; [apply Hk|apply holds_ret]. Qed.
Lemma holds_try_each {E A} (f : A -> act (result E unit)) l : (forall x, holds (f x)) -> holds (try_each f l).
Proof. intros Hf. induction l as [|x l IH]; [apply holds_ret|]. by apply holds_try. Qed.
End holding.

Create HintDb holding.
#[export] Hint Resolve holds_ret holds_diverges holds_reads holds_push holds_send : holding.

(** One step of the proof that a handler keeps them: the shape of the handler decides. *)
Ltac hold_step :=
  lazymatch goal with |- holds _ _ ?m =>
    first
      [ solve [auto with holding]
      | lazymatch m with
        | act_try _ _ => apply holds_try; [|intros ?]
        | mbind _ _ => apply holds_bind; [|intros ?]
        | updates _ => apply holds_updates; intros ? ? ?
        | updates_with _ => apply holds_updates_with; intros ? ? ?
        | for_each _ _ => apply holds_for_each; intros ?
        | try_each _ _ => apply holds_try_each; intros ?
        end
      | progress cbv zeta
      | case_match ] end.
Ltac hold := repeat hold_step.

(** ** The state of synchronization *)

Section state.
Context `{Henv : ProcessEnv, Hs : Sha3, Hf : FalconBackend, Hg : !GenesisReady Hs, Hd : Database, Ha : !Archive, Hm : Moment, Hr : Rounds}.

(** The invariant of the state of a node of network [net]. *)
Record sync_ok (net : Network) (s : NodeSync) : Prop := {
  so_network : ns_network s = net;
  so_connections : connections_ok net (connections s);
  so_downloader : consistent (downloader s);
  so_branches : pool_ok (side_branches s);
  so_compact : Z.of_nat (size (pending_compact_blocks s)) <= MAX_PENDING_COMPACT_BLOCKS;
}.

(** *** Parts of the state *)

Context (net : Network).
Implicit Types s : NodeSync.

Ltac frame := let H := fresh in intros H; destruct H; by split.
Lemma ok_relay s r : sync_ok net s -> sync_ok net (NodeSync.with_relay s r). Proof. frame. Qed.
Lemma ok_snapshot_peers s m : sync_ok net s -> sync_ok net (NodeSync.with_snapshot_peers s m). Proof. frame. Qed.
Lemma ok_pending_headers s m : sync_ok net s -> sync_ok net (NodeSync.with_pending_headers s m). Proof. frame. Qed.
Lemma ok_requests_started s m : sync_ok net s -> sync_ok net (NodeSync.with_requests_started s m). Proof. frame. Qed.
Lemma ok_addr_windows s m : sync_ok net s -> sync_ok net (NodeSync.with_addr_windows s m). Proof. frame. Qed.
Lemma ok_addr_received s t : sync_ok net s -> sync_ok net (NodeSync.with_addr_received s t). Proof. frame. Qed.
Lemma ok_getaddr_sent s m : sync_ok net s -> sync_ok net (NodeSync.with_getaddr_sent s m). Proof. frame. Qed.
Lemma ok_addr_relay_sent s m : sync_ok net s -> sync_ok net (NodeSync.with_addr_relay_sent s m). Proof. frame. Qed.
Lemma ok_progress s tip t : sync_ok net s -> sync_ok net (NodeSync.with_progress s tip t). Proof. frame. Qed.
Lemma ok_body_received s t : sync_ok net s -> sync_ok net (NodeSync.with_body_received s t). Proof. frame. Qed.
Lemma ok_metrics_log s t : sync_ok net s -> sync_ok net (NodeSync.with_metrics_log s t). Proof. frame. Qed.
Lemma ok_recovery s t n : sync_ok net s -> sync_ok net (NodeSync.with_recovery s t n). Proof. frame. Qed.
Lemma ok_observations s m : sync_ok net s -> sync_ok net (NodeSync.with_observations s m). Proof. frame. Qed.
Lemma ok_urgent s m : sync_ok net s -> sync_ok net (NodeSync.with_urgent s m). Proof. frame. Qed.
Lemma ok_states s m heights : sync_ok net s -> sync_ok net (NodeSync.with_states s m heights). Proof. frame. Qed.
Lemma ok_connections s c : sync_ok net s -> connections_ok net c -> sync_ok net (NodeSync.with_connections s c).
Proof. intros [] ?. by split. Qed.
Lemma ok_downloader s d : sync_ok net s -> consistent d -> sync_ok net (NodeSync.with_downloader s d).
Proof. intros [] ?. by split. Qed.
Lemma ok_branches s p : sync_ok net s -> pool_ok p -> sync_ok net (NodeSync.with_branches s p).
Proof. intros [] ?. by split. Qed.
Lemma ok_compact s m :
  sync_ok net s -> Z.of_nat (size m) <= MAX_PENDING_COMPACT_BLOCKS -> sync_ok net (NodeSync.with_compact s m).
Proof. intros [] ?. by split. Qed.
Lemma new_ok : sync_ok net (NodeSync.new net).
Proof.
  split; [done|apply new_connections_ok|apply initial_consistent|apply empty_ok|].
  cbn. rewrite map_size_empty. by apply Z.leb_le.
Qed.

(** A call of the connections, an operation of the scheduler. *)
Lemma ok_call s k : sync_ok net s -> sync_ok net (NodeSync.with_connections s (ConnectionManager.make (connections s) k).1).
Proof. intros H. apply ok_connections; [done|]. apply make_ok, H. Qed.
Lemma ok_operation s o : sync_ok net s -> sensible o -> sync_ok net (NodeSync.with_downloader s (perform (downloader s) o)).
Proof. intros H Ho. apply ok_downloader; [done|]. by apply perform_step; [apply H|]. Qed.
Lemma ok_fold {A} (f : NodeSync -> A -> NodeSync) l s :
  (forall s x, sync_ok net s -> sync_ok net (f s x)) -> sync_ok net s -> sync_ok net (foldl f s l).
Proof. intros Hstep. revert s. induction l as [|x l IH]; intros s H; [done|]. by apply IH, Hstep. Qed.
Lemma ok_fold_with {A B} (f : NodeSync * B -> A -> NodeSync * B) l acc :
  (forall acc x, sync_ok net acc.1 -> sync_ok net (f acc x).1) -> sync_ok net acc.1 -> sync_ok net (foldl f acc l).1.
Proof. intros Hstep. revert acc. induction l as [|x l IH]; intros s H; [done|]. by apply IH, Hstep. Qed.

Lemma ok_scheduled {A B} s (r : BlockDownloadScheduler * A) (f : A -> B) : sync_ok net s -> consistent r.1 ->
  sync_ok net (let '(d, a) := r in (NodeSync.with_downloader s d, f a)).1.
Proof. intros H Hr'. destruct r. by apply ok_downloader. Qed.
Lemma ok_misbehavior s peer points now : sync_ok net s ->
  sync_ok net (NodeSync.with_connections s (ConnectionManager.record_misbehavior (connections s) peer points now).1).
Proof. exact (ok_call s (ConnectionManager.Misbehavior peer points now)). Qed.
Lemma ok_note_tip s peer h tip : sync_ok net s ->
  sync_ok net (NodeSync.with_connections s (ConnectionManager.note_peer_tip (connections s) peer h tip)).
Proof. exact (ok_call s (ConnectionManager.NotePeerTip peer h tip)). Qed.
Lemma ok_replace_tip s peer h tip : sync_ok net s ->
  sync_ok net (NodeSync.with_connections s (ConnectionManager.replace_peer_tip (connections s) peer h tip)).
Proof. exact (ok_call s (ConnectionManager.ReplacePeerTip peer h tip)). Qed.
Lemma ok_compact_drop s h : sync_ok net s -> sync_ok net (NodeSync.drop_compact s h).
Proof.
  intros H. apply ok_compact; [done|]. pose proof (so_compact _ _ H).
  pose proof (map_subseteq_size _ _ (delete_subseteq (pending_compact_blocks s) h)). lia.
Qed.
Lemma ok_branch_drop s h : sync_ok net s -> sync_ok net (NodeSync.drop_branch_block s h).
Proof. intros H. apply ok_branches; [done|]. apply remove_ok, H. Qed.
Lemma ok_received s h : sync_ok net s -> sync_ok net (NodeSync.note_block_received s h).
Proof. intros H. by apply (ok_operation s (BlockReceived h)). Qed.
Lemma ok_mark s h n state : sync_ok net s -> sync_ok net (NodeSync.mark_block_state s h n state).
Proof. apply ok_states. Qed.
Lemma ok_remove_header s n h : sync_ok net s -> sync_ok net (NodeSync.remove_pending_header_block s n h).
Proof. intros H. unfold NodeSync.remove_pending_header_block. case_match; [by apply ok_pending_headers|done]. Qed.
Lemma ok_note_header s peer n h : sync_ok net s -> sync_ok net (NodeSync.note_pending_header_block s peer n h).
Proof. intros H. by apply ok_pending_headers, ok_mark. Qed.
Lemma ok_finalized s n : sync_ok net s -> sync_ok net (NodeSync.mark_finalized_boundary s n).
Proof. intros H. unfold NodeSync.mark_finalized_boundary. case_match; [by apply ok_mark|done]. Qed.
Lemma ok_invalid s h n : sync_ok net s -> sync_ok net (NodeSync.mark_invalid s h n).
Proof. intros H. by apply ok_remove_header, ok_compact_drop, ok_received, ok_mark. Qed.
Lemma ok_invalid_family s h n s' r :
  sync_ok net s -> NodeSync.mark_invalid_block_family s h n = Some (s', r) -> sync_ok net s'.
Proof.
  intros H Hrun. unfold NodeSync.mark_invalid_block_family in Hrun. set (s1 := NodeSync.mark_invalid s h n) in *.
  assert (sync_ok net s1) as H1 by by apply ok_invalid.
  pose proof (remove_ok _ h (so_branches _ _ H1)) as Hp.
  destruct (SideBranchPool.remove (side_branches s1) h) as [p root].
  destruct (SideBranchPool.remove_descendants_of p h) as [[p' removed]|] eqn:Er; [|done]. injection Hrun as <- _.
  apply ok_fold; [intros; by apply ok_invalid|]. apply ok_branches; [done|]. by eapply remove_descendants_ok.
Qed.
End state.

(** What changes the state keeps the invariant: the shape of the change decides. *)
Ltac ok_step :=
  lazymatch goal with
  | |- sync_ok _ (NodeSync.with_relay _ _) => apply ok_relay
  | |- sync_ok _ (NodeSync.with_snapshot_peers _ _) => apply ok_snapshot_peers
  | |- sync_ok _ (NodeSync.with_pending_headers _ _) => apply ok_pending_headers
  | |- sync_ok _ (NodeSync.with_requests_started _ _) => apply ok_requests_started
  | |- sync_ok _ (NodeSync.with_addr_windows _ _) => apply ok_addr_windows
  | |- sync_ok _ (NodeSync.with_addr_received _ _) => apply ok_addr_received
  | |- sync_ok _ (NodeSync.with_getaddr_sent _ _) => apply ok_getaddr_sent
  | |- sync_ok _ (NodeSync.with_addr_relay_sent _ _) => apply ok_addr_relay_sent
  | |- sync_ok _ (NodeSync.with_progress _ _ _) => apply ok_progress
  | |- sync_ok _ (NodeSync.with_body_received _ _) => apply ok_body_received
  | |- sync_ok _ (NodeSync.with_metrics_log _ _) => apply ok_metrics_log
  | |- sync_ok _ (NodeSync.with_recovery _ _ _) => apply ok_recovery
  | |- sync_ok _ (NodeSync.with_observations _ _) => apply ok_observations
  | |- sync_ok _ (NodeSync.with_urgent _ _) => apply ok_urgent
  | |- sync_ok _ (NodeSync.with_states _ _ _) => apply ok_states
  | |- sync_ok _ (NodeSync.mark_block_state _ _ _ _) => apply ok_mark
  | |- sync_ok _ (NodeSync.drop_compact _ _) => apply ok_compact_drop
  | |- sync_ok _ (NodeSync.drop_branch_block _ _) => apply ok_branch_drop
  | |- sync_ok _ (NodeSync.note_block_received _ _) => apply ok_received
  | |- sync_ok _ (NodeSync.remove_pending_header_block _ _ _) => apply ok_remove_header
  | |- sync_ok _ (NodeSync.note_pending_header_block _ _ _ _) => apply ok_note_header
  | |- sync_ok _ (NodeSync.mark_finalized_boundary _ _) => apply ok_finalized
  | |- sync_ok _ (NodeSync.with_connections _ (ConnectionManager.record_misbehavior _ _ _ _).1) => apply ok_misbehavior
  | |- sync_ok _ (NodeSync.with_connections _ (ConnectionManager.note_peer_tip _ _ _ _)) => apply ok_note_tip
  | |- sync_ok _ (NodeSync.with_connections _ (ConnectionManager.replace_peer_tip _ _ _ _)) => apply ok_replace_tip
  | |- sync_ok _ (foldl _ _ _) => apply ok_fold; [intros ? ? ?|]
  | |- sync_ok _ (foldl _ _ _).1 => apply ok_fold_with; [intros ? ? ?|]
  end.
Create HintDb sync.
#[export] Hint Constants Opaque : sync.
#[export] Hint Resolve ok_relay ok_pending_headers ok_requests_started ok_observations ok_recovery ok_replace_tip ok_misbehavior : sync.
(** [auto] with the lemmas of the functions, once the shape is gone. *)
Ltac keeps := repeat first [assumption | progress cbv zeta | progress cbn [fst] | ok_step | solve [auto with sync] | case_match].

Section blocks.
Context `{Henv : ProcessEnv, Hs : Sha3, Hf : FalconBackend, Hg : !GenesisReady Hs, Hd : Database, Ha : !Archive, Hm : Moment, Hr : Rounds}.
Context (net : Network).
Implicit Types s : NodeSync.

Lemma ok_live_peers s n : sync_ok net s -> sync_ok net (SyncBlocks.refresh_sync_target_from_live_peers s n).
Proof. intros H. unfold SyncBlocks.refresh_sync_target_from_live_peers. keeps. Qed.
Lemma ok_watchdog s n : sync_ok net s -> sync_ok net (SyncBlocks.update_sync_progress_watchdog s n).
Proof. intros H. unfold SyncBlocks.update_sync_progress_watchdog. keeps. Qed.
#[local] Hint Resolve ok_live_peers ok_watchdog : sync.
Lemma ok_chain_progress s n : sync_ok net s -> sync_ok net (SyncBlocks.note_local_chain_progress s n).
Proof. intros H. unfold SyncBlocks.note_local_chain_progress. keeps. apply ok_watchdog. keeps. Qed.
Lemma ok_body_progress s peer requested : sync_ok net s -> sync_ok net (SyncBlocks.note_block_body_progress s peer requested).
Proof.
  intros H. unfold SyncBlocks.note_block_body_progress. destruct requested; [|keeps].
  apply (ok_operation _ _ (DeliveryProgress peer instant_millis)); [keeps|done].
Qed.
Lemma ok_observed_tip s n peer hd terminal : sync_ok net s -> sync_ok net (SyncBlocks.note_observed_peer_tip peer hd terminal s n).
Proof. intros H. unfold SyncBlocks.note_observed_peer_tip. destruct terminal; keeps. Qed.
Lemma ok_reseed s n : sync_ok net s -> sync_ok net (SyncBlocks.reseed_locator_from_node s n).
Proof. intros H. unfold SyncBlocks.reseed_locator_from_node. keeps. Qed.
#[local] Hint Resolve ok_reseed : sync.
Lemma ok_refresh_locator s n : sync_ok net s -> sync_ok net (SyncBlocks.refresh_header_locator_from_node_if_needed s n).
Proof. intros H. unfold SyncBlocks.refresh_header_locator_from_node_if_needed. keeps. Qed.
Lemma ok_prioritize s : sync_ok net s -> sync_ok net (SyncBlocks.prioritize_pending_downloads_by_height s).
Proof. intros H. by apply (ok_operation net s (SortPending _)). Qed.
Lemma ok_note_headers s peer hashes : sync_ok net s ->
  sync_ok net (NodeSync.with_downloader s (Scheduler.note_headers (downloader s) peer hashes)).
Proof. intros H. by apply (ok_operation net s (NoteHeaders peer hashes)). Qed.
#[local] Hint Resolve ok_note_headers : sync.
Lemma ok_stage_block n h s hp : sync_ok net s -> sync_ok net (SyncBlocks.stage_block n h s hp).
Proof. intros H. unfold SyncBlocks.stage_block. destruct hp as [hash peers]. keeps. Qed.
#[local] Hint Resolve ok_stage_block : sync.
Lemma ok_stage s n : sync_ok net s -> sync_ok net (SyncBlocks.stage_header_blocks_near_tip s n).
Proof. intros H. unfold SyncBlocks.stage_header_blocks_near_tip. keeps. Qed.
Lemma ok_insert s peer b : sync_ok net s -> sync_ok net (NodeSync.with_branches s (SideBranchPool.insert (side_branches s) peer b)).
Proof. intros H. apply ok_branches; [done|]. apply insert_ok, H. Qed.
Lemma ok_heal_round preferred s n : sync_ok net s -> sync_ok net (SyncBlocks.heal_round preferred s n).1.
Proof. intros H. unfold SyncBlocks.heal_round. keeps. by apply ok_insert. Qed.
Lemma ok_heal_loop rounds preferred s n s' a :
  sync_ok net s -> SyncBlocks.heal_loop rounds preferred s n = Some (s', a) -> sync_ok net s'.
Proof.
  revert s. induction rounds as [|rounds IH]; intros s H; [done|]. cbn [SyncBlocks.heal_loop].
  pose proof (ok_heal_round preferred s n H) as H1. destruct (SyncBlocks.heal_round preferred s n) as [s1 [|]].
  - by apply IH.
  - by intros [= <- _].
Qed.

Lemma ok_missing_parents preferred s n : sync_ok net s -> sync_ok net (SyncBlocks.request_missing_parents preferred s n).
Proof.
  intros H. unfold SyncBlocks.request_missing_parents. keeps.
  - apply (ok_operation net _ (QueuePriority preferred _)); [|done]. by apply (ok_operation net _ (ForgetCompleted _)).
  - by apply (ok_operation net _ (QueuePriority preferred _)).
Qed.
Lemma ok_buffer_ancestors rounds peer n previous visited p p' :
  pool_ok p -> SyncBlocks.buffer_ancestors rounds peer n previous visited p = Some p' -> pool_ok p'.
Proof.
  revert previous visited p. induction rounds as [|rounds IH]; intros previous visited p Hp; cbn [SyncBlocks.buffer_ancestors];
    (case_match; [by intros [= <-]|]); (destruct (insert_new previous visited) as [visited'|]; [|by intros [= <-]]);
    (case_match; [|by intros [= <-]]).
  - done.
  - by apply IH, insert_ok.
Qed.
Lemma ok_buffer peer b s n s' a :
  sync_ok net s -> SyncBlocks.buffer_peer_block_with_known_ancestors peer b s n = Some (s', a) -> sync_ok net s'.
Proof.
  intros H (p & Hrun & [= <- _])%bind_Some. apply ok_branches; [done|].
  eapply ok_buffer_ancestors, Hrun. apply insert_ok, H.
Qed.
Lemma ok_branch_connected hashes s n : sync_ok net s -> sync_ok net (SyncBlocks.note_branch_connected hashes s n).
Proof. intros H. unfold SyncBlocks.note_branch_connected. by keeps. Qed.
Lemma ok_drop_families hashes dropped s n s' d :
  sync_ok net s -> SyncBlocks.drop_families hashes dropped s n = Some (s', d) -> sync_ok net s'.
Proof.
  revert dropped s. induction hashes as [|h hashes IH]; intros dropped s H; cbn [SyncBlocks.drop_families]; [by intros [= <- _]|].
  intros ([s1 r] & H1 & H2)%bind_Some. eapply IH, H2. by eapply ok_invalid_family.
Qed.
Lemma ok_remove_canonical s n : sync_ok net s -> sync_ok net (SyncBlocks.remove_canonical_branch_blocks s n).
Proof. intros H. apply ok_branches; [done|]. apply remove_all_ok, H. Qed.

(** *** Compact blocks *)

Lemma oldest_in (m : gmap bytes PendingCompactBlock) hash : SyncBlocks.oldest_compact m = Some hash -> is_Some (m !! hash).
Proof.
  unfold SyncBlocks.oldest_compact. intros (e & Hrun & ->)%fmap_Some.
  enough (forall l best, foldl (fun best (e : bytes * PendingCompactBlock) => match best with
      | None => Some e
      | Some b => if received_at e.2 <? received_at b.2 then Some e else best
      end) best l = Some e -> best = Some e \/ e ∈ l) as Hin.
  { destruct (Hin _ _ Hrun) as [?|Hl]; [done|]. destruct e as [h p]. apply elem_of_sorted_entries in Hl. by exists p. }
  induction l as [|x l IH]; intros best; cbn [foldl]; [by left|]. intros [He|He]%IH; [|right; by right].
  destruct best as [b|]; [case_match|]; [..|]; rewrite elem_of_cons; naive_solver.
Qed.
Lemma drop_oldest_size (excess : nat) (m : gmap bytes PendingCompactBlock) :
  (excess <= size m)%nat -> size (SyncBlocks.drop_oldest excess m) = (size m - excess)%nat.
Proof.
  revert m. induction excess as [|excess IH]; intros m Hle; cbn [SyncBlocks.drop_oldest]; [lia|].
  destruct (SyncBlocks.oldest_compact m) as [hash|] eqn:E.
  - apply oldest_in in E. rewrite IH; rewrite map_size_delete_Some by done; lia.
  - exfalso. unfold SyncBlocks.oldest_compact in E. rewrite fmap_None in E.
    assert (m <> ∅) as Hne by (intros ->; rewrite map_size_empty in Hle; lia).
    apply map_choose in Hne as (h & x & Hx). apply (elem_of_sorted_entries bytes_le) in Hx.
    destruct (sorted_entries bytes_le m) as [|y l]; [by apply elem_of_nil in Hx|]. cbn [foldl] in E. clear Hx.
    revert y E. induction l as [|z l IHl]; intros y; cbn [foldl]; [done|]. case_match; apply IHl.
Qed.
(** Pruning ends within the limit, whatever was there. *)
Lemma pruned_compact s n :
  Z.of_nat (size (pending_compact_blocks (SyncBlocks.prune_pending_compact_blocks s n))) <= MAX_PENDING_COMPACT_BLOCKS.
Proof.
  unfold SyncBlocks.prune_pending_compact_blocks. cbn [pending_compact_blocks NodeSync.with_compact].
  set (kept := filter _ _). assert (0 <= MAX_PENDING_COMPACT_BLOCKS) by by apply Z.leb_le. rewrite drop_oldest_size by lia. lia.
Qed.
Lemma ok_prune_after s m n : sync_ok net s -> sync_ok net (SyncBlocks.prune_pending_compact_blocks (NodeSync.with_compact s m) n).
Proof. intros []. split; [done..|]. apply pruned_compact. Qed.
Lemma ok_prune s n : sync_ok net s -> sync_ok net (SyncBlocks.prune_pending_compact_blocks s n).
Proof. intros []. split; [done..|]. apply pruned_compact. Qed.
End blocks.

#[export] Hint Resolve ok_live_peers ok_watchdog ok_chain_progress ok_body_progress ok_observed_tip ok_reseed ok_refresh_locator
  ok_prioritize ok_stage ok_missing_parents ok_branch_connected ok_remove_canonical ok_prune ok_invalid_family
  ok_drop_families ok_buffer ok_heal_loop : sync.

(** ** The calls of the node *)

Section calls.
Context `{Henv : ProcessEnv, Hs : Sha3, Hf : FalconBackend, Hg : !GenesisReady Hs, Hd : Database, Ha : !Archive, Hm : Moment, Hr : Rounds}.

(** What a handler does to the node: hand it a block for its tip, a branch, a relayed
    transaction, or what was seen of a peer. *)
Inductive node_call : Node -> Node -> Prop :=
| call_block n b : node_call n (Node.submit_block node_env NodeSync.now_unix n b).1
| call_branch n branch : node_call n (Node.consider_branch node_env NodeSync.now_unix n branch).1
| call_transaction n tx : node_call n (Node.accept_relayed_transaction NodeSync.now_unix n tx).1
| call_peer n peer h now : node_call n (NodeQueries.observe_peer n peer h now).1
| call_address n address h now : node_call n (NodeQueries.observe_peer_address n address h now).1.

(** The limits are within what the scheduler expects. *)
Lemma limits_sensible (s : NodeSync) (n : Node) :
  NodeSync.effective_max_blocks_in_flight s n <= USIZE_MAX /\ 0 < NodeSync.effective_scheduled_block_request_batch_limit s n.
Proof.
  split.
  - unfold NodeSync.effective_max_blocks_in_flight, NodeSync.limits_of, network_limits, network_params, runtime_limits.
    cbn [limits]. assert (1024 <= USIZE_MAX) by by apply Z.leb_le.
    assert (forall l, max_blocks_in_flight l = 1024 -> (if NodeSync.buffered_parent_bridge_active s n
      then Z.min (Z.max (max_blocks_in_flight l) 1) (NodeSync.effective_max_requests_per_peer s n * Z.max (NodeSync.ready_peer_count s) 1)
      else Z.max (max_blocks_in_flight l) 1) <= USIZE_MAX) as Hl by (intros l ->; destruct (NodeSync.buffered_parent_bridge_active s n); lia).
    apply Hl. by destruct (env_var _ ≫= _).
  - unfold NodeSync.effective_scheduled_block_request_batch_limit, NodeSync.effective_block_request_batch_limit,
      NodeSync.effective_max_requests_per_peer, NodeSync.block_request_batch_limit_of, MAX_ORPHAN_PARENT_REQUESTS_PER_PASS.
    destruct (NodeSync.buffered_parent_bridge_active s n); lia.
Qed.
(** The assignments of the scheduler. *)
Lemma for_peer_consistent d peer max_blocks max_per_peer max_per_batch now allowed :
  consistent d -> max_blocks <= USIZE_MAX ->
  consistent (Scheduler.assignment_for_peer_filtered_limited d peer max_blocks max_per_peer max_per_batch now allowed).1.
Proof. intros H Hmax. by apply (perform_step d (AssignmentForPeer peer max_blocks max_per_peer max_per_batch now allowed)). Qed.
Lemma assignments_consistent d max_blocks max_per_peer max_per_batch now :
  consistent d -> max_blocks <= USIZE_MAX -> 0 < max_per_batch ->
  consistent (Scheduler.assignments_limited d max_blocks max_per_peer max_per_batch now).1.
Proof. intros H Hmax Hb. by apply (perform_step d (Assignments max_blocks max_per_peer max_per_batch now)). Qed.

Context (net : Network) (Q : Node -> Prop).
Context (Hcalls : forall n n', node_call n n' -> Q n -> Q n').
Notation holds m := (holds (sync_ok net) Q m).

Lemma holds_node {A} (f : Node -> Node * A) : (forall n, node_call n (f n).1) -> holds (on_node f).
Proof. intros Hf'. apply holds_on_node. intros n. by apply Hcalls. Qed.

(** *** Requests for blocks *)

Ltac act_keeps := hold; keeps.
Lemma holds_ends {A} (f : NodeSync -> Node -> option (NodeSync * A)) :
  (forall s n s' a, sync_ok net s -> f s n = Some (s', a) -> sync_ok net s') -> holds (updates_if_ends f).
Proof. apply holds_updates_if_ends. Qed.
Lemma holds_getheaders peer : holds (SyncBlocks.queue_getheaders peer).
Proof. unfold SyncBlocks.queue_getheaders. act_keeps. Qed.
#[local] Hint Resolve holds_getheaders : holding.
Lemma holds_getheaders_if peer : holds (SyncBlocks.queue_getheaders_if_needed peer).
Proof. unfold SyncBlocks.queue_getheaders_if_needed. act_keeps. Qed.
Lemma holds_assignment a : holds (SyncBlocks.push_download_assignment a).
Proof. unfold SyncBlocks.push_download_assignment. act_keeps. Qed.
#[local] Hint Resolve holds_assignment : holding.
Lemma holds_urgent peer missing inflight : holds (SyncBlocks.push_urgent_bridge_parent_retry peer missing inflight).
Proof. unfold SyncBlocks.push_urgent_bridge_parent_retry. act_keeps. Qed.
#[local] Hint Resolve holds_urgent : holding.

Lemma holds_bridge_work peer : holds (SyncBlocks.push_bridge_parent_download_work_for_peer peer).
Proof.
  unfold SyncBlocks.push_bridge_parent_download_work_for_peer. hold.
  apply (ok_scheduled net _ _ (fun a => a)); [keeps|]. apply for_peer_consistent; [|unfold saturating_add; lia].
  apply (so_downloader net). keeps.
Qed.
#[local] Hint Resolve holds_bridge_work : holding.
Lemma holds_scheduled : holds SyncBlocks.push_scheduled_block_requests.
Proof.
  unfold SyncBlocks.push_scheduled_block_requests. hold.
  apply (ok_scheduled net _ _ (fun a => a)); [done|]. destruct (limits_sensible s n).
  apply assignments_consistent; [by apply (so_downloader net)|done..].
Qed.
Lemma holds_work peer : holds (SyncBlocks.push_block_download_work_for_peer peer).
Proof.
  unfold SyncBlocks.push_block_download_work_for_peer. hold.
  apply (ok_scheduled net _ _ (fun a => a)); [keeps|]. apply for_peer_consistent; [|apply limits_sensible].
  apply (so_downloader net). keeps.
Qed.
#[local] Hint Resolve holds_scheduled holds_work : holding.
Lemma holds_download_work preferred : holds (SyncBlocks.push_download_work preferred).
Proof. unfold SyncBlocks.push_download_work. hold. keeps. Qed.
#[local] Hint Resolve holds_download_work : holding.
Lemma holds_heal preferred : holds (SyncBlocks.heal_buffered_branch_parents preferred).
Proof.
  unfold SyncBlocks.heal_buffered_branch_parents. hold; [|keeps].
  apply holds_ends. intros s n s' a. apply ok_heal_loop.
Qed.
#[local] Hint Resolve holds_heal : holding.

(** *** Blocks *)

Lemma holds_branch_once preferred limit : holds (SyncBlocks.process_buffered_branch_once preferred limit).
Proof.
  unfold SyncBlocks.process_buffered_branch_once. hold; keeps.
  all: lazymatch goal with
       | |- holds (on_node _) => apply holds_node; intros; constructor
       | |- _ => apply holds_ends; intros s n s' a'; apply ok_drop_families
       end.
Qed.
#[local] Hint Resolve holds_branch_once : holding.
Lemma holds_process_loop rounds preferred done : holds (SyncBlocks.process_loop rounds preferred done).
Proof. revert done. induction rounds as [|rounds IH]; intros count; cbn [SyncBlocks.process_loop]; hold. Qed.
Lemma holds_process preferred : holds (SyncBlocks.process_buffered_branches preferred).
Proof. apply holds_process_loop. Qed.
#[local] Hint Resolve holds_getheaders_if holds_process : holding.
Lemma holds_defer peer hd requested : holds (SyncBlocks.defer_unsolicited_future_block peer hd requested).
Proof. unfold SyncBlocks.defer_unsolicited_future_block. act_keeps. Qed.
Lemma holds_duplicate peer hash h : holds (SyncBlocks.handle_duplicate_block peer hash h).
Proof. unfold SyncBlocks.handle_duplicate_block. act_keeps. Qed.
Lemma holds_connected peer b : holds (SyncBlocks.handle_connected_block peer b).
Proof. unfold SyncBlocks.handle_connected_block. act_keeps. Qed.
Lemma holds_buffered peer b : holds (SyncBlocks.handle_buffered_block peer b).
Proof.
  unfold SyncBlocks.handle_buffered_block. act_keeps. apply holds_ends. intros s n s' a'. apply ok_buffer.
Qed.
#[local] Hint Resolve holds_defer holds_duplicate holds_connected holds_buffered : holding.
Lemma holds_invalid_family hash h : holds (updates_if_ends (fun s _ => NodeSync.mark_invalid_block_family s hash h)).
Proof. apply holds_ends. intros s n s' a. apply ok_invalid_family. Qed.
#[local] Hint Resolve holds_invalid_family : holding.
Lemma holds_received_block peer b : holds (SyncBlocks.handle_received_block peer b).
Proof.
  unfold SyncBlocks.handle_received_block. act_keeps. apply holds_node. intros. constructor.
Qed.
#[local] Hint Resolve holds_received_block : holding.

Lemma holds_request_transactions peer hash indexes : holds (SyncBlocks.request_block_transactions peer hash indexes).
Proof. apply holds_send. Qed.
#[local] Hint Resolve holds_request_transactions : holding.
(** An insertion that is pruned at once. *)
Lemma holds_insert_pruned {B : Type} (f : NodeSync -> Node -> gmap bytes PendingCompactBlock) (k : act B) :
  holds k ->
  holds (_ ← updates (fun s n => NodeSync.with_compact s (f s n)); _ ← updates SyncBlocks.prune_pending_compact_blocks; k).
Proof.
  intros Hk w w' b HP HQ Hrun. eapply Hk; [| |exact Hrun]; [|exact HQ].
  apply (ok_prune_after net _ (f (sync w) (node w))), HP.
Qed.
Lemma holds_compact peer m : holds (SyncBlocks.handle_compact_block peer m).
Proof.
  unfold SyncBlocks.handle_compact_block.
  apply holds_bind; [apply holds_updates; intros; keeps|intros _]. cbv zeta.
  apply holds_bind; [apply holds_reads|intros requested]. apply holds_bind; [apply holds_defer|intros deferred].
  case_match; [apply holds_ret|]. apply holds_bind; [apply holds_reads|intros [[b|txs indexes]|e]]; [..|apply holds_ret].
  - apply holds_received_block.
  - apply holds_bind; [apply holds_updates; intros; keeps|intros _].
    apply (holds_insert_pruned (fun s _ => <[_ := _]> (pending_compact_blocks s))). hold.
Qed.
Lemma holds_serve_transactions peer r : holds (SyncBlocks.serve_getblocktxn peer r).
Proof. unfold SyncBlocks.serve_getblocktxn. hold. Qed.
(** An entry that replaces the one just read. *)
Lemma holds_replaced {B : Type} (hash : bytes) (f : PendingCompactBlock -> PendingCompactBlock) (m : act B)
    (k : PendingCompactBlock -> act B) :
  holds m -> (forall p, holds (k p)) ->
  holds (pending ← reads (fun s _ => pending_compact_blocks s !! hash);
         match pending with
         | None => m
         | Some p => _ ← updates (fun s _ => NodeSync.with_compact s (<[hash := f p]> (pending_compact_blocks s))); k p
         end).
Proof.
  intros Hm' Hk w w' b HP HQ Hrun. unfold mbind, act_bind, reads in Hrun.
  destruct (pending_compact_blocks (sync w) !! hash) as [p|] eqn:E; [|by eapply Hm'].
  eapply (Hk p); [| |exact Hrun]; [|exact HQ]. apply ok_compact; [exact HP|].
  pose proof (so_compact _ _ HP). by rewrite map_size_insert, E.
Qed.
Lemma holds_block_transactions peer r : holds (SyncBlocks.handle_blocktxn peer r).
Proof.
  unfold SyncBlocks.handle_blocktxn. case_match; [apply holds_ret|].
  apply holds_bind; [apply holds_updates; intros; keeps|intros _]. cbv zeta.
  apply (holds_replaced _ (fun pending => {| pc_message := _; pc_overrides := _; received_at := _ |})); [apply holds_ret|].
  intros pending. act_keeps.
Qed.
#[local] Hint Resolve holds_compact holds_serve_transactions holds_block_transactions : holding.
End calls.

(** ** The messages of a peer *)

Section peers.
Context `{Henv : ProcessEnv, Hs : Sha3, Hf : FalconBackend, Hg : !GenesisReady Hs, Hd : Database, Ha : !Archive, Hm : Moment, Hr : Rounds}.
Context (net : Network).

Lemma ok_served s peer h : sync_ok net s -> sync_ok net (NodeSync.note_peer_served_terminal_height s peer h).
Proof. apply ok_observations. Qed.
Lemma ok_advertised s peer h : sync_ok net s -> sync_ok net (NodeSync.note_peer_advertised_height s peer h).
Proof. apply ok_observations. Qed.
#[local] Hint Resolve ok_served : sync.
Lemma ok_below_advertised s peer h : sync_ok net s -> sync_ok net (NodeSync.mark_peer_terminal_below_advertised s peer h).1.
Proof.
  intros H. unfold NodeSync.mark_peer_terminal_below_advertised, NodeSync.set_observation.
  case_match; cbn [fst]; [keeps|]. case_match; [keeps|].
  by apply ok_misbehavior, ok_observations.
Qed.
Lemma ok_forget s h : sync_ok net s -> sync_ok net (SyncPeers.forget_block_above s h).
Proof. intros H. unfold SyncPeers.forget_block_above. keeps. Qed.
#[local] Hint Resolve ok_forget : sync.
Lemma ok_prune_work s h : sync_ok net s -> sync_ok net (SyncPeers.prune_download_work_above_height s h).
Proof.
  intros H. apply (ok_operation net _ (ForgetBlocks _)); [|done]. keeps.
Qed.
#[local] Hint Resolve ok_prune_work : sync.
Lemma ok_lower s n h : sync_ok net s -> sync_ok net (SyncPeers.lower_stale_sync_target_to_live_tip s n h).1.
Proof.
  intros H. unfold SyncPeers.lower_stale_sync_target_to_live_tip. case_match; [done|]. case_match; [done|]. cbn [fst].
  case_match; [apply ok_relay|]; apply ok_prune_work; keeps.
Qed.
Lemma ok_drop_target s n : sync_ok net s -> sync_ok net (SyncPeers.maybe_drop_stale_unreachable_sync_target s n).1.
Proof.
  intros H. unfold SyncPeers.maybe_drop_stale_unreachable_sync_target. repeat (case_match; cbn [fst]; try done).
  apply ok_reseed. keeps.
Qed.
Lemma ok_caught_up peer s n : sync_ok net s -> sync_ok net (SyncPeers.finish_empty_terminal_headers_if_caught_up peer s n).1.
Proof.
  intros H. unfold SyncPeers.finish_empty_terminal_headers_if_caught_up. case_match; cbn [fst]; [done|].
  apply ok_requests_started, ok_relay, ok_served. keeps.
Qed.
Lemma ok_header_timeout peer s n : sync_ok net s -> sync_ok net (SyncPeers.header_timeout_disconnect_event peer s n).1.
Proof.
  intros H. unfold SyncPeers.header_timeout_disconnect_event. repeat (case_match; cbn [fst]; try by keeps).
Qed.
Lemma ok_disconnected peer s n : sync_ok net s -> sync_ok net (SyncPeers.note_peer_disconnected peer s n).
Proof.
  intros H. apply ok_live_peers, ok_addr_relay_sent, ok_getaddr_sent, ok_requests_started, ok_snapshot_peers.
  by apply (ok_operation net s (PeerDisconnected peer)).
Qed.
Lemma ok_last_header peer headers s n : sync_ok net s -> sync_ok net (SyncPeers.note_last_header peer headers s n).
Proof.
  intros H. unfold SyncPeers.note_last_header. destruct (last headers) as [hd|]; [|done]. cbv zeta.
  set (terminal := zlen headers <? _).
  assert (sync_ok net (if terminal then NodeSync.mark_peer_terminal_below_advertised s peer (height hd) else (s, false)).1) as H1
    by (destruct terminal; [by apply ok_below_advertised|done]).
  destruct (if terminal then _ else _) as [s1 below]. cbn [fst] in H1. destruct below; [by apply ok_relay|].
  assert (sync_ok net (SyncBlocks.note_observed_peer_tip peer hd terminal
    (NodeSync.note_peer_served_terminal_height s1 peer (height hd)) n)) as H2 by (apply ok_observed_tip; keeps).
  destruct terminal; [by apply ok_lower|done].
Qed.
Lemma ok_header_blocks peer headers s n : sync_ok net s -> sync_ok net (SyncPeers.note_header_blocks peer headers s n).1.
Proof.
  intros H. unfold SyncPeers.note_header_blocks. apply ok_fold_with; [|done]. intros [s1 known] hd H1. cbn [fst] in *.
  repeat (case_match; cbn [fst]); keeps.
Qed.
Lemma ok_addr_window s peer : sync_ok net s -> sync_ok net (NodeSync.allow_addr_message s peer).1.
Proof. intros H. unfold NodeSync.allow_addr_message. case_match; cbn [fst]; keeps. Qed.

Context (Q : Node -> Prop) (Hcalls : forall n n', node_call n n' -> Q n -> Q n').
Notation holds m := (holds (sync_ok net) Q m).
#[local] Hint Resolve ok_served ok_advertised ok_below_advertised ok_lower ok_drop_target ok_caught_up ok_header_timeout ok_disconnected
  ok_last_header ok_header_blocks ok_addr_window : sync.
Ltac act_keeps := hold; keeps.

Lemma holds_work_for peer : holds (SyncBlocks.push_block_download_work_for_peer peer).
Proof. by apply holds_work. Qed.
Lemma holds_ask peer : holds (SyncBlocks.queue_getheaders peer).
Proof. by apply holds_getheaders. Qed.
Lemma holds_received peer b : holds (SyncBlocks.handle_received_block peer b).
Proof. by apply holds_received_block. Qed.
Lemma holds_compact_block peer m : holds (SyncBlocks.handle_compact_block peer m).
Proof. by apply holds_compact. Qed.
Lemma holds_transactions peer r : holds (SyncBlocks.handle_blocktxn peer r).
Proof. by apply holds_block_transactions. Qed.
#[local] Hint Resolve holds_work_for holds_ask holds_received holds_compact_block holds_transactions : holding.
Lemma holds_discovery peer : holds (SyncPeers.push_address_discovery_events peer).
Proof. unfold SyncPeers.push_address_discovery_events, NodeSync.record_getaddr_sent, NodeSync.record_addr_relay_sent. act_keeps. Qed.
Lemma holds_snapshots : holds SyncPeers.maybe_request_mempool_snapshots.
Proof. unfold SyncPeers.maybe_request_mempool_snapshots. act_keeps. Qed.
Lemma holds_observation peer h : holds (SyncPeers.record_peer_observation peer h).
Proof. unfold SyncPeers.record_peer_observation. hold. apply holds_node; [done|]. intros. constructor. Qed.
Lemma holds_serve peer inventory : holds (SyncPeers.serve_getdata peer inventory).
Proof. unfold SyncPeers.serve_getdata. hold. Qed.
#[local] Hint Resolve holds_discovery holds_snapshots holds_observation holds_serve : holding.
Lemma holds_inv peer inventory : holds (SyncPeers.handle_inv peer inventory).
Proof. unfold SyncPeers.handle_inv. act_keeps. by apply (ok_operation net _ (NoteInventory _ _)). Qed.
Lemma holds_get_headers peer request : holds (SyncPeers.handle_getheaders peer request).
Proof. unfold SyncPeers.handle_getheaders. hold. Qed.
Lemma holds_no_headers peer : holds (SyncPeers.handle_no_headers peer).
Proof.
  unfold SyncPeers.handle_no_headers, SyncPeers.mark_headers_unsynced. act_keeps.
Qed.
Lemma holds_addresses_asked peer : holds (SyncPeers.ask_addresses peer).
Proof. unfold SyncPeers.ask_addresses, NodeSync.record_getaddr_sent. act_keeps. Qed.
#[local] Hint Resolve holds_no_headers holds_addresses_asked : holding.
Lemma holds_headers peer headers : holds (SyncPeers.handle_headers peer headers).
Proof. unfold SyncPeers.handle_headers. act_keeps. Qed.
Lemma holds_tx tx : holds (SyncPeers.handle_tx tx).
Proof. unfold SyncPeers.handle_tx. hold; (apply holds_node; [done|]; intros; constructor). Qed.
Lemma holds_mempool peer : holds (SyncPeers.handle_mempool peer).
Proof. unfold SyncPeers.handle_mempool. hold. Qed.
Lemma holds_notfound peer inventory : holds (SyncPeers.handle_notfound peer inventory).
Proof. unfold SyncPeers.handle_notfound. act_keeps. by apply (ok_operation net _ (BlocksNotFound _ _)). Qed.
Lemma holds_addr peer addresses : holds (SyncPeers.handle_addr peer addresses).
Proof.
  unfold SyncPeers.handle_addr. act_keeps.
  2, 3: apply holds_node; [done|]; intros; constructor.
  apply ok_connections; [keeps|].
  match goal with E : ConnectionManager.note_gossip_addresses_from_source ?c0 ?p ?l ?b ?t = _ |- _ =>
    pose proof (make_ok net c0 (ConnectionManager.GossipFrom p l b t)) as Hmade; cbn [ConnectionManager.make fst] in Hmade;
    rewrite E in Hmade; cbn [fst] in Hmade end.
  apply Hmade. apply (so_connections net). keeps.
Qed.
#[local] Hint Resolve holds_inv holds_get_headers holds_headers holds_tx holds_mempool holds_notfound holds_addr : holding.
Lemma holds_message peer message : holds (SyncPeers.handle_message peer message).
Proof.
  unfold SyncPeers.handle_message. destruct (payload message); hold. by apply holds_serve_transactions.
Qed.
#[local] Hint Resolve holds_message : holding.
Lemma holds_event event : holds (SyncPeers.expand_event event).
Proof.
  unfold SyncPeers.expand_event. destruct event; act_keeps.
  apply (ok_operation net _ (PeerReady _)); [by apply ok_advertised|done].
Qed.
#[local] Hint Resolve holds_event : holding.
Lemma holds_events events : holds (SyncPeers.expand_events events).
Proof.
  unfold SyncPeers.expand_events. hold.
  generalize (@nil SyncNotice). induction events as [|event events IH]; intros notices; cbn [SyncPeers.expand_each]; hold.
Qed.
(** One message. *)
Lemma receive_holds peer message s n s' n' r :
  sync_ok net s -> Q n -> SyncPeers.receive peer message s n = Some (s', n', r) -> sync_ok net s' /\ Q n'.
Proof.
  intros HP HQ Hrun. unfold SyncPeers.receive in Hrun. set (local := SyncPeers.local_version_message s n) in *.
  pose proof (receive_ok net (connections s) peer message local NodeSync.now_unix (so_connections _ _ HP)) as Hc.
  destruct (ConnectionManager.receive (connections s) peer message local NodeSync.now_unix) as [c verdict]. cbn [fst] in Hc.
  assert (sync_ok net (NodeSync.with_connections s c)) as H1 by by apply ok_connections.
  destruct verdict as [events|e].
  - apply bind_Some in Hrun as ([w v] & Hev & Hrun). apply holds_events in Hev; [|done..]. destruct Hev as [H2 H3].
    destruct v as [notices|[]]; injection Hrun as <- <- _; (split; [|done]); [done|done| |done]. by apply ok_misbehavior.
  - destruct e; injection Hrun as <- <- _; (split; [|done]); try done. apply ok_live_peers. by apply ok_snapshot_peers.
Qed.

Lemma holds_heal_parents preferred : holds (SyncBlocks.heal_buffered_branch_parents preferred).
Proof. by apply holds_heal. Qed.
Lemma holds_scheduled_requests : holds SyncBlocks.push_scheduled_block_requests.
Proof. by apply holds_scheduled. Qed.
#[local] Hint Resolve holds_heal_parents holds_scheduled_requests : holding.
Lemma holds_stale_recovery peer : holds (SyncPeers.maybe_trigger_stale_recovery peer).
Proof.
  unfold SyncPeers.maybe_trigger_stale_recovery, SyncPeers.mark_headers_unsynced. hold.
  all: cbv zeta.
  destruct (Scheduler.requeue_stale_inflight_details _ _ _) as [d requeued] eqn:E.
  assert (consistent d) as Hd'.
  { match type of E with Scheduler.requeue_stale_inflight_details ?d0 ?t ?i = _ =>
      pose proof (perform_step d0 (RequeueStale t i)) as Hstep; cbn [perform] in Hstep; rewrite E in Hstep end.
    apply Hstep; [apply (so_downloader net); keeps|done]. }
  keeps; try (apply ok_reseed); try apply ok_prioritize; (apply ok_downloader; [keeps|done]).
Qed.
#[local] Hint Resolve holds_stale_recovery : holding.
Lemma ok_completed s n : sync_ok net s -> sync_ok net (SyncPeers.prune_completed_download_work s n).
Proof. intros H. by apply (ok_operation net s (PruneCompleted _)). Qed.
Lemma ok_log s n : sync_ok net s -> sync_ok net (SyncPeers.log_sync_metrics_if_due s n).
Proof. intros H. unfold SyncPeers.log_sync_metrics_if_due. keeps. Qed.
#[local] Hint Resolve ok_completed ok_log : sync.
Lemma ok_stale_for_peer s peer timeout now : sync_ok net s ->
  sync_ok net (let '(d, stale) := Scheduler.requeue_stale_inflight_for_peer (downloader s) peer timeout now in
               (NodeSync.with_downloader s d, stale)).1.
Proof.
  intros H. apply (ok_scheduled net _ _ (fun a => a)); [done|].
  apply (perform_step (downloader s) (RequeueStaleForPeer peer timeout now)); [by apply (so_downloader net)|done].
Qed.
#[local] Hint Resolve ok_stale_for_peer : sync.
Lemma holds_finish peer : holds (SyncPeers.finish_maintenance peer).
Proof. unfold SyncPeers.finish_maintenance. act_keeps. Qed.
#[local] Hint Resolve holds_finish : holding.
Lemma holds_maintain peer : holds (SyncPeers.maintain peer).
Proof. unfold SyncPeers.maintain. act_keeps. Qed.
End peers.
