(* ===== verification/NodeSyncReturns.v ===== *)
(** * Node synchronization: processing ends

    The loop over the buffered branches always returns: the walks over the pool end, the
    candidate branch is never empty, and every round that goes on uses up part of the
    limit of the pass. *)
From stdpp Require Import options.
From S2P Require Import Prelude Bytes Text Constants Crypto Keccak Network Rules Transaction Block Pow.
From S2P Require Import Genesis Errors Utxo Validation BlockValidation Chainstate Db Mempool Node.
From S2P Require Import P2pConfig Protocol CompactBlock Handshake BanList HeadersSync Downloader IpAddr AddressManager.
From S2P Require Import Connection Relay SideBranches NodeQueries NodeSync NodeSyncBlocks NodeSyncPeers NodeSyncFacts.

#[local] Set Default Proof Using "Type*".

(** ** Returning *)

Section ending.
Context `{Hd : Database} (P : NodeSync -> Prop).

(** From every state of [P] the handler returns, to a state of [P]. *)
Definition returns {A} (m : act A) (R : A -> Prop) : Prop :=
  forall w, P (sync w) -> exists w' a, m w = Some (w', a) /\ P (sync w') /\ R a.

Lemma returns_ret {A} (a : A) (R : A -> Prop) : R a -> returns (mret a) R.
Proof. intros Ha w HP. by exists w, a. Qed.
Lemma returns_bind {A B} (m : act A) (k : A -> act B) (R : A -> Prop) (S : B -> Prop) :
  returns m R -> (forall a, R a -> returns (k a) S) -> returns (m ≫= k) S.
Proof.
  intros Hm Hk w HP. destruct (Hm w HP) as (w1 & a & Hrun & H1 & Ha). destruct (Hk a Ha w1 H1) as (w2 & b & Hrun2 & H2 & Hb).
  exists w2, b. split; [|done]. unfold mbind, act_bind. by rewrite Hrun.
Qed.
Lemma returns_reads {A} (f : NodeSync -> Node -> A) (R : A -> Prop) : (forall s n, P s -> R (f s n)) -> returns (reads f) R.
Proof. intros Hf w HP. eexists _, _. split; [reflexivity|]. split; [done|]. by apply Hf. Qed.
Lemma returns_updates_with {A} (f : NodeSync -> Node -> NodeSync * A) : (forall s n, P s -> P (f s n).1) ->
  returns (updates_with f) (fun _ => True).
Proof.
  intros Hf w HP. unfold updates_with. specialize (Hf (sync w) (node w) HP). destruct (f (sync w) (node w)) as [s a].
  by eexists _, _.
Qed.
Lemma returns_updates (f : NodeSync -> Node -> NodeSync) : (forall s n, P s -> P (f s n)) -> returns (updates f) (fun _ => True).
Proof. intros Hf. by apply returns_updates_with. Qed.
Lemma returns_updates_if_ends {A} (f : NodeSync -> Node -> option (NodeSync * A)) (R : A -> Prop) :
  (forall s n, P s -> exists s' a, f s n = Some (s', a) /\ P s' /\ R a) -> returns (updates_if_ends f) R.
Proof.
  intros Hf w HP. destruct (Hf (sync w) (node w) HP) as (s & a & Hrun & Hs & Ha).
  exists {| sync := s; node := node w; outbound := outbound w |}, a. split; [|done]. unfold updates_if_ends. by rewrite Hrun.
Qed.
Lemma returns_on_node {A} (f : Node -> Node * A) (R : A -> Prop) : (forall n, R (f n).2) -> returns (on_node f) R.
Proof.
  intros Hf w HP. unfold on_node. specialize (Hf (node w)). destruct (f (node w)) as [n a]. by eexists _, _.
Qed.
Lemma returns_push e : returns (push e) (fun _ => True).
Proof. intros w HP. by eexists _, _. Qed.
Lemma returns_for_each {A} (f : A -> act unit) l : (forall x, returns (f x) (fun _ => True)) -> returns (for_each f l) (fun _ => True).
Proof.
  intros Hf. induction l as [|x l IH]; [by apply returns_ret|]. by eapply returns_bind.
Qed.
End ending.

(** One step of the proof that a handler without loops of its own returns. *)
Ltac return_step :=
  lazymatch goal with |- returns _ ?m _ =>
    first
      [ solve [auto with returning]
      | lazymatch m with
        | mret _ => by apply returns_ret
        | mbind _ (reads _) => eapply (returns_bind _ _ _ (fun _ => True)); [by apply returns_reads|intros ? _]
        | mbind _ _ => eapply returns_bind; [|intros ? ?]
        | updates _ => apply returns_updates; intros ? ? ?
        | updates_with _ => apply returns_updates_with; intros ? ? ?
        | push _ => apply returns_push
        | for_each _ _ => apply returns_for_each; intros ?
        end
      | progress cbv zeta
      | case_match ] end.
Create HintDb returning.
Ltac return_by := repeat return_step.

Section processing.
Context `{Henv : ProcessEnv, Hs : Sha3, Hf : FalconBackend, Hg : !GenesisReady Hs, Hd : Database, Ha : !Archive, Hm : Moment, Hr : Rounds}.
Context (net : Network).
Notation ends m := (returns (sync_ok net) m (fun _ => True)).

Lemma ends_send peer p : ends (send peer p).
Proof. unfold send. return_by. Qed.
#[local] Hint Resolve ends_send : returning.
Lemma ends_assignment a : ends (SyncBlocks.push_download_assignment a).
Proof. unfold SyncBlocks.push_download_assignment. return_by. keeps. Qed.
Lemma ends_urgent peer missing inflight : ends (SyncBlocks.push_urgent_bridge_parent_retry peer missing inflight).
Proof. unfold SyncBlocks.push_urgent_bridge_parent_retry. return_by; keeps. Qed.
#[local] Hint Resolve ends_assignment ends_urgent : returning.
Lemma ends_bridge_work peer : ends (SyncBlocks.push_bridge_parent_download_work_for_peer peer).
Proof.
  unfold SyncBlocks.push_bridge_parent_download_work_for_peer. return_by.
  apply (ok_scheduled net _ _ (fun a => a)); [keeps|]. apply for_peer_consistent; [|unfold saturating_add; lia].
  apply (so_downloader net). keeps.
Qed.
#[local] Hint Resolve ends_bridge_work : returning.
Lemma ends_scheduled : ends SyncBlocks.push_scheduled_block_requests.
Proof.
  unfold SyncBlocks.push_scheduled_block_requests. return_by.
  apply (ok_scheduled net _ _ (fun a => a)); [done|]. destruct (limits_sensible s n).
  apply assignments_consistent; [by apply (so_downloader net)|done..].
Qed.
Lemma ends_work peer : ends (SyncBlocks.push_block_download_work_for_peer peer).
Proof.
  unfold SyncBlocks.push_block_download_work_for_peer. return_by.
  apply (ok_scheduled net _ _ (fun a => a)); [keeps|]. apply for_peer_consistent; [|apply limits_sensible].
  apply (so_downloader net). keeps.
Qed.
#[local] Hint Resolve ends_scheduled ends_work : returning.
Lemma ends_download_work preferred : ends (SyncBlocks.push_download_work preferred).
Proof. unfold SyncBlocks.push_download_work. return_by. keeps. Qed.
#[local] Hint Resolve ends_download_work : returning.

(** Marking a family invalid: the walk over the descendants ends. *)
Lemma family_returns s hash h : sync_ok net s ->
  exists s' removed, NodeSync.mark_invalid_block_family s hash h = Some (s', removed) /\ sync_ok net s'.
Proof.
  intros H. destruct (NodeSync.mark_invalid_block_family s hash h) as [[s' removed]|] eqn:E.
  { exists s', removed. split; [done|]. by eapply ok_invalid_family. }
  exfalso. unfold NodeSync.mark_invalid_block_family in E. set (s1 := NodeSync.mark_invalid s hash h) in *.
  pose proof (remove_ok _ hash (so_branches _ _ (ok_invalid net s hash h H))) as [Hp _]. fold s1 in Hp.
  destruct (SideBranchPool.remove (side_branches s1) hash) as [p root]. cbn [fst] in Hp.
  destruct (remove_descendants_spec p hash Hp) as (p' & removed & found & Hrun & _). by rewrite Hrun in E.
Qed.
Lemma families_return hashes dropped s n : sync_ok net s ->
  exists s' total, SyncBlocks.drop_families hashes dropped s n = Some (s', total) /\ sync_ok net s'.
Proof.
  revert dropped s. induction hashes as [|hash hashes IH]; intros dropped s H; cbn [SyncBlocks.drop_families]; [by eexists _, _|].
  destruct (family_returns s hash (default 0 (block_validation_heights s !! hash)) H) as (s1 & removed & -> & H1). by apply IH.
Qed.

(** The candidate has a block. *)
Lemma candidate_nonempty s n branch : sync_ok net s -> NodeSync.best_buffered_branch s n = Some branch -> branch <> [].
Proof.
  intros H Hbest ->. pose proof (best_buffered_branch_spec (NodeQueries.is_canonical_block n)
    (Node.branch_is_preferred_over_current n) (side_branches s) (po_indexed _ (so_branches _ _ H))) as Hspec.
  unfold NodeSync.best_buffered_branch in Hbest. rewrite Hbest in Hspec. destruct Hspec as [(tip & _ & Hl & _) _]. inversion Hl.
Qed.

Definition progress_made (r : result NodeSyncError Z) : Prop := match r with Ok n => 0 <= n | Err _ => True end.
Lemma once_returns preferred limit : 0 < limit ->
  returns (sync_ok net) (SyncBlocks.process_buffered_branch_once preferred limit) progress_made.
Proof.
  intros Hlimit. unfold SyncBlocks.process_buffered_branch_once.
  eapply (returns_bind _ _ _ (fun _ => True)); [by apply returns_reads|intros empty _].
  destruct empty; [by apply returns_ret|].
  eapply (returns_bind _ _ _ (fun best => forall branch, best = Some branch -> branch <> [])).
  { apply returns_reads. intros s n H branch. by apply candidate_nonempty. }
  intros [branch|] Hne; [|by apply returns_ret]. specialize (Hne branch eq_refl).
  eapply (returns_bind _ _ _ (fun _ => True)); [by apply returns_reads|intros extends _]. cbv zeta.
  set (candidate := if extends && (limit <? zlen branch) then take (Z.to_nat limit) branch else branch).
  assert (hashes_of candidate <> []) as Hhashes.
  { intros Hnil%fmap_nil_inv. unfold candidate in Hnil. destruct (extends && _); [|done].
    destruct branch as [|b branch]; [done|]. destruct (Z.to_nat limit) eqn:E; [lia|done]. }
  pose proof (zlen_nonneg (hashes_of candidate)) as Hcount.
  eapply (returns_bind _ _ _ (fun _ => True)); [by apply returns_on_node|intros [selection|e] _].
  - destruct (Chainstate.outcome selection).
    3: by apply returns_ret.
    all: repeat (eapply (returns_bind _ _ _ (fun _ => True)); [first [apply ends_download_work|apply returns_updates; intros; keeps]|intros _ _]).
    all: by apply returns_ret.
  - assert (returns (sync_ok net) (dropped ← updates_if_ends (SyncBlocks.drop_families (hashes_of candidate) 0);
      mret (Ok (Z.max (Z.max dropped (zlen (hashes_of candidate))) 1))) progress_made) as Hdrop.
    { eapply (returns_bind _ _ _ (fun _ => True)).
      - apply returns_updates_if_ends. intros s n H. destruct (families_return (hashes_of candidate) 0 s n H) as (s' & t & ? & ?).
        by exists s', t.
      - intros dropped _. apply returns_ret. cbn. lia. }
    destruct e as [|e|]; try exact Hdrop. destruct e; try exact Hdrop.
    destruct (last (hashes_of candidate)) as [tip|] eqn:El; [|by apply last_None in El].
    eapply (returns_bind _ _ _ (fun _ => True)); [apply returns_updates; intros; keeps|intros _ _]. by apply returns_ret.
Qed.

(** A round uses up at least one of the limit, so as many rounds as are left are enough. *)
Lemma loop_returns rounds preferred count : SyncBlocks.max_buffered_extension_connect_blocks_per_pass <= USIZE_MAX ->
  SyncBlocks.max_buffered_extension_connect_blocks_per_pass - count <= Z.of_nat rounds ->
  ends (SyncBlocks.process_loop rounds preferred count).
Proof.
  set (limit := SyncBlocks.max_buffered_extension_connect_blocks_per_pass). intros Hmax. revert count.
  induction rounds as [|rounds IH]; intros count Hleft; cbn [SyncBlocks.process_loop]; fold limit; cbv zeta;
    (destruct (saturating_sub limit count =? 0) eqn:E; [by apply returns_ret|]); unfold saturating_sub in E; [lia|].
  unfold act_try. eapply returns_bind; [apply once_returns; unfold saturating_sub; lia|].
  intros [progressed|e] Hp; [|by apply returns_ret]. cbn in Hp.
  destruct (progressed =? 0) eqn:E0; [by apply returns_ret|]. apply IH. unfold saturating_add. lia.
Qed.
Lemma pass_limit : SyncBlocks.max_buffered_extension_connect_blocks_per_pass <= USIZE_MAX.
Proof using.
  unfold SyncBlocks.max_buffered_extension_connect_blocks_per_pass.
  destruct (env_var _ ≫= _) as [parsed|] eqn:E; [|by apply Z.leb_le].
  apply bind_Some in E as (raw & _ & Hraw). apply parse_uint_max in Hraw; [|by apply Z.leb_le].
  assert (1 <= USIZE_MAX) by by apply Z.leb_le. lia.
Qed.

(** C17: Connecting what is buffered always comes to an end. From every state of
    synchronization and of the node, whatever the blocks in the pool are and whatever the
    node makes of them, [process_buffered_branches] returns, with the invariant kept: each
    round connects or drops at least one block, or is the last one. *)
Theorem processing_returns preferred w : sync_ok net (sync w) ->
  exists w' verdict, SyncBlocks.process_buffered_branches preferred w = Some (w', verdict) /\ sync_ok net (sync w').
Proof.
  intros H. destruct (loop_returns (Z.to_nat SyncBlocks.max_buffered_extension_connect_blocks_per_pass) preferred 0 pass_limit)
    with (w := w) as (w' & v & Hrun & H' & _); [lia|done|]. by exists w', v.
Qed.
End processing.

(** ** Witness *)

(** A Regnet node without storage, at a moment of 2026. *)
#[local] Instance plain_env : ProcessEnv := fun _ => None.
#[local] Existing Instance Keccak.sha3_inst.
#[local] Existing Instance accepting_falcon.
#[local] Existing Instance keccak_genesis_ready.
#[local] Existing Instance null_database.
#[local] Instance null_archive : Archive :=
  {| load_record := fun _ _ => Ok None; load_record_by_height := fun _ _ => Ok None;
     load_transaction_record := fun _ _ => Ok None; has_pruned_blocks := fun _ => Ok false;
     load_peer_record := fun _ _ => Ok None; list_peer_records := fun _ => Ok [];
     save_peer_record := fun db _ => (db, Ok tt) |}.
#[local] Instance sample_moment : Moment := {| system_millis := 1773360589000; instant_millis := 5000; node_env := no_env |}.
#[local] Instance sample_rounds : Rounds := 16%nat.

Lemma processing_returns_witness :
  exists w' verdict, SyncBlocks.process_buffered_branches None {| sync := NodeSync.new Regnet; node := regnet_node; outbound := [] |}
    = Some (w', verdict) /\ sync_ok Regnet (sync w').
Proof.
  apply (processing_returns Regnet None {| sync := NodeSync.new Regnet; node := regnet_node; outbound := [] |}). apply new_ok.
Defined.
