(* ===== verification/NodeSyncHistory.v ===== *)
(** * Node synchronization: histories

    What holds of a node that synchronizes, over every history of messages, sessions and
    maintenance, and what a peer can and cannot do to it. The lemmas are those of
    [NodeSyncFacts]. *)
From stdpp Require Import options.
From S2P Require Import Prelude Bytes Text Constants Crypto Keccak Network Rules Transaction Block Pow.
From S2P Require Import Genesis Errors Utxo Validation BlockValidation Chainstate Db Mempool Node.
From S2P Require Import P2pConfig Protocol CompactBlock Handshake BanList HeadersSync Downloader IpAddr AddressManager.
From S2P Require Import Connection Relay SideBranches NodeQueries NodeSync NodeSyncBlocks NodeSyncPeers NodeSyncFacts NodeSyncReturns.

#[local] Set Default Proof Using "Type*".

(** ** Histories *)

Section history.
Context `{Henv : ProcessEnv, Hs : Sha3, Hf : FalconBackend, Hg : !GenesisReady Hs, Hd : Database, Ha : !Archive, Hr : Rounds}.

(** What else moves the node: its miner, its RPC. *)
Context (other : Node -> Node -> Prop).

(** One call of the node's services, at some moment. *)
Inductive sync_step : NodeSync * Node -> NodeSync * Node -> Prop :=
| step_receive (Hm : Moment) peer message s n s' n' r :
    SyncPeers.receive peer message s n = Some (s', n', r) -> sync_step (s, n) (s', n')
| step_maintain (Hm : Moment) peer s n s' events :
    SyncPeers.maintain_peer_sync peer s n = Some (s', events) -> sync_step (s, n) (s', n)
| step_accept (Hm : Moment) peer s n : sync_step (s, n) ((SyncPeers.accept_inbound s peer).1, n)
| step_open (Hm : Moment) peer s n : sync_step (s, n) ((SyncPeers.open_outbound s n peer).1, n)
| step_drop (Hm : Moment) peer s n : sync_step (s, n) ((SyncPeers.disconnect_peer s n peer).1, n)
| step_seed (Hm : Moment) addresses s n : sync_step (s, n) ((SyncPeers.seed_peer_addresses s addresses).1, n)
| step_manual peer s n : sync_step (s, n) (SyncPeers.add_manual_peer s peer, n)
| step_prime (Hm : Moment) s n : sync_step (s, n) (SyncPeers.prime s n, n)
| step_other s n n' : other n n' -> sync_step (s, n) (s, n').

(** How the node moves: by a call of [node_call] at some moment, or otherwise. *)
Definition node_move (n n' : Node) : Prop := other n n' \/ exists Hm : Moment, node_call n n'.

Lemma step_keeps net n0 s n s' n' :
  sync_ok net s -> rtc node_move n0 n -> sync_step (s, n) (s', n') -> sync_ok net s' /\ rtc node_move n0 n'.
Proof.
  intros Hok Hreach Hstep.
  inversion Hstep as [Hm peer m ???? r Hrun|Hm peer ??? evs Hrun|Hm peer|Hm peer|Hm peer|Hm l|peer|Hm|???? Ho]; subst.
  - eapply receive_holds; [|exact Hok|exact Hreach|exact Hrun].
    intros x y Hcall Hx. eapply rtc_r; [exact Hx|]. right. by exists Hm.
  - split; [|done]. unfold SyncPeers.maintain_peer_sync in Hrun.
    apply bind_Some in Hrun as ([w []] & Hrun & [= <- _]).
    by eapply (holds_maintain net (fun _ => True)) in Hrun as [? _]; [| |exact Hok|].
  - split; [|done]. unfold SyncPeers.accept_inbound.
    pose proof (accept_inbound_ok net (connections s) peer NodeSync.now_unix (so_connections _ _ Hok)) as Hc.
    destruct (ConnectionManager.accept_inbound _ _ _). by apply ok_connections.
  - split; [|done]. unfold SyncPeers.open_outbound.
    pose proof (open_outbound_ok net (connections s) peer (SyncPeers.local_version_message s n') NodeSync.now_unix
      (so_connections _ _ Hok)) as Hc.
    destruct (ConnectionManager.open_outbound _ _ _ _). by apply ok_connections.
  - split; [|done]. unfold SyncPeers.disconnect_peer.
    pose proof (ok_call net s (ConnectionManager.Hangup peer) Hok) as Hc. cbn [ConnectionManager.make fst] in Hc.
    destruct (ConnectionManager.disconnect _ _) as [c []]; cbn [fst] in *; [|done]. by apply ok_disconnected.
  - split; [|done]. unfold SyncPeers.seed_peer_addresses, ConnectionManager.note_gossip_addresses.
    destruct (AddressManager.note_gossip_addresses _ _ _ _) as [am v]. cbn [fst].
    apply ok_connections; [done|]. by apply (connections_same net (connections s)); [apply Hok|..].
  - split; [|done]. exact (ok_call net s (ConnectionManager.AddManual peer) Hok).
  - split; [|done]. by apply ok_watchdog, ok_relay.
  - split; [done|]. eapply rtc_r; [exact Hreach|]. by left.
Qed.

(** C15: Whatever messages a node receives, from whom and in what order, whatever
    maintenance runs and whatever the clock and the archive answer: the sessions stay
    within the limits of the network, the block scheduler's maps agree, the pool of side
    branches is indexed exactly by its blocks and within its limit, and at most
    [MAX_PENDING_COMPACT_BLOCKS] compact blocks are pending. And the node itself moves
    only by the calls of [node_call]: a block or a branch it validates, a transaction its
    memory pool admits, a peer record. *)
Theorem synchronization_safe net n0 s n :
  rtc sync_step (NodeSync.new net, n0) (s, n) -> sync_ok net s /\ rtc node_move n0 n.
Proof.
  intros Hreach. change s with (s, n).1. change n with (s, n).2 at 2. revert Hreach. generalize (s, n). intros st Hreach.
  refine (rtc_ind_r (fun st => sync_ok net st.1 /\ rtc node_move n0 st.2) (NodeSync.new net, n0) _ _ st Hreach).
  - split; [apply new_ok|done].
  - intros [s1 n1] [s2 n2] _ Hstep [H1 H2]. by eapply step_keeps.
Qed.
End history.

(** ** What an unknown peer can do *)

Section unready.
Context `{Henv : ProcessEnv, Hs : Sha3, Hf : FalconBackend, Hg : !GenesisReady Hs, Hd : Database, Ha : !Archive, Hm : Moment, Hr : Rounds}.

(** The node as it was, its storage apart. *)
Definition same_ledger (n n' : Node) : Prop :=
  exists db, n' = Node.with_chainstate n (Chainstate.with_storage (chainstate n) db).
Lemma same_ledger_refl n : same_ledger n n.
Proof. exists (storage (chainstate n)). by destruct n as [? [] ?]. Qed.
Lemma save_peer_ledger n0 n r : same_ledger n0 n -> same_ledger n0 (NodeQueries.save_peer_record n r).1.
Proof.
  intros [db ->]. unfold NodeQueries.save_peer_record, ChainQueries.save_peer.
  destruct (Chainstate.on_storage _ _) as [c v] eqn:E. apply on_storage_spec in E as [db' ->]. by exists db'.
Qed.
Lemma observe_ledger n0 n peer h now : same_ledger n0 n -> same_ledger n0 (NodeQueries.observe_peer n peer h now).1.
Proof. intros H. unfold NodeQueries.observe_peer. case_match; [by apply save_peer_ledger|done]. Qed.

Lemma quiet_event n0 event : is_message event = false ->
  holds (fun _ => True) (same_ledger n0) (SyncPeers.expand_event event).
Proof.
  intros Hq. destruct event as [peer m|peer h|peer m|peer e]; cbn [SyncPeers.expand_event]; [..|done|]; hold; try done.
  - unfold SyncPeers.record_peer_observation. hold. apply holds_on_node. intros n. apply observe_ledger.
  - unfold SyncBlocks.queue_getheaders. by hold.
Qed.
Lemma quiet_events n0 events : Forall (fun event => is_message event = false) events ->
  holds (fun _ => True) (same_ledger n0) (SyncPeers.expand_events events).
Proof.
  intros Hq. unfold SyncPeers.expand_events. hold.
  - generalize (@nil SyncNotice). induction Hq as [|event events He Hq IH]; intros notices; cbn [SyncPeers.expand_each]; hold.
    by apply quiet_event.
  - unfold SyncPeers.maybe_request_mempool_snapshots. by hold.
Qed.

(** C16: A peer that has not completed its handshake cannot change the chain or the memory
    pool: whatever it sends, the node is as it was, but for the record of the peer itself
    in the storage. *)
Theorem unready_peer_changes_no_ledger peer message s n s' n' r :
  (forall session, sessions (connections s) !! peer = Some session -> HandshakeState.is_ready (handshake session) = false) ->
  SyncPeers.receive peer message s n = Some (s', n', r) -> same_ledger n n'.
Proof.
  intros Hun Hrun. unfold SyncPeers.receive in Hrun. set (local := SyncPeers.local_version_message s n) in *.
  destruct (ConnectionManager.receive (connections s) peer message local NodeSync.now_unix) as [c verdict] eqn:E.
  destruct verdict as [events|e].
  - assert (Forall (fun event => is_message event = false) events) as Hq.
    { apply Forall_forall. intros [| |p m|] Hin; try done.
      destruct (delivered_message _ _ _ _ _ _ _ _ _ E Hin) as (_ & _ & _ & _ & session & Hsession & Hready).
      by rewrite (Hun _ Hsession) in Hready. }
    apply bind_Some in Hrun as ([w v] & Hev & Hrun).
    apply (quiet_events n events Hq) in Hev as [_ Hn]; [|done|apply same_ledger_refl].
    destruct v as [notices|[]]; by injection Hrun as _ <- _.
  - destruct e; injection Hrun as _ <- _; apply same_ledger_refl.
Qed.
End unready.

(** ** Before the node is synchronized *)

Section unsynced.
Context `{Henv : ProcessEnv, Hs : Sha3, Hf : FalconBackend, Hg : !GenesisReady Hs, Hd : Database, Ha : !Archive, Hm : Moment, Hr : Rounds}.

(** Running the handlers. *)
Lemma run_reads {A B : Type} (f : NodeSync -> Node -> A) (k : A -> act B) w : (reads f ≫= k) w = k (f (sync w) (node w)) w.
Proof. done. Qed.
Lemma run_bind {A B : Type} (m : act A) (k : A -> act B) w w' a : m w = Some (w', a) -> (m ≫= k) w = k a w'.
Proof. unfold mbind, act_bind. by intros ->. Qed.
(** The message for [peer]. *)
Definition mail (w : World) (peer : bytes) (p : MessagePayload) : ConnectionEvent :=
  SendTo peer (NetworkMessage.new (ns_network (sync w)) p).
Definition mailed (w : World) (events : list ConnectionEvent) : World :=
  {| sync := sync w; node := node w; outbound := outbound w ++ events |}.
Lemma mailed_nil w : mailed w [] = w.
Proof. destruct w. unfold mailed. cbn. by rewrite app_nil_r. Qed.
Lemma send_each w peer payloads : for_each (send peer) payloads w = Some (mailed w (mail w peer <$> payloads), tt).
Proof.
  revert w. induction payloads as [|p payloads IH]; intros w; [by rewrite mailed_nil|].
  change (for_each (send peer) payloads (mailed w [mail w peer p]) = Some (mailed w (mail w peer <$> p :: payloads), tt)).
  rewrite IH. unfold mailed, mail. cbn [sync node outbound fmap list_fmap]. by rewrite <- app_assoc.
Qed.

(** Requests are answered in their order, as many as the limit allows: each block of the
    archive and, of a node in sync, each transaction of the pool; what is not found is
    listed at the end. *)
Lemma getdata_answered peer inventory w :
  let asked := take (Z.to_nat (max_requests_per_peer (NodeSync.limits_of (sync w)))) inventory in
  let answer := SyncPeers.serve_item (node w) (NodeSync.chain_synced (sync w) (node w)) in
  let missing := filter (fun vector => answer vector = None) asked in
  SyncPeers.serve_getdata peer inventory w
  = Some (mailed w (mail w peer <$> omap answer asked ++ (if bool_decide (missing = []) then [] else [NotFound missing])), tt).
Proof.
  cbv zeta. set (asked := take _ inventory). set (answer := SyncPeers.serve_item _ _). set (missing := filter _ asked).
  unfold SyncPeers.serve_getdata. rewrite run_reads. fold answer asked.
  set (answers := (fun vector => (vector, answer vector)) <$> asked).
  assert (omap snd answers = omap answer asked) as Hfound.
  { unfold answers. clear. induction asked as [|v asked IH]; [done|]. cbn. destruct (answer v); by rewrite IH. }
  assert ((filter (fun a => a.2 = None) answers).*1 = missing) as Hmissing.
  { unfold answers, missing. clear. induction asked as [|v asked IH]; [done|].
    rewrite fmap_cons, !filter_cons. cbn [snd]. destruct (decide (answer v = None)); cbn; by rewrite IH. }
  rewrite Hfound, (run_bind _ _ _ _ _ (send_each w peer _)), Hmissing, fmap_app. case_bool_decide; cbn [fmap list_fmap].
  - by rewrite app_nil_r.
  - transitivity (Some (mailed (mailed w (mail w peer <$> omap answer asked)) [mail w peer (NotFound missing)], tt)); [done|].
    unfold mailed. cbn [sync node outbound]. by rewrite app_assoc.
Qed.

(** C18: A node that is not in sync takes part in no relay of transactions: it ignores those
    it is sent, lists none of its pool, requests nothing it is offered, and to a request
    for data it answers with blocks alone. *)
Theorem unsynced_node_relays_no_transactions peer w :
  NodeSync.chain_synced (sync w) (node w) = false ->
  (forall tx, SyncPeers.handle_tx tx w = Some (w, Ok tt))
  /\ SyncPeers.handle_mempool peer w = Some (w, Ok tt)
  /\ (forall inventory, exists s, SyncPeers.handle_inv peer inventory w
       = Some ({| sync := s; node := node w; outbound := outbound w |}, Ok tt))
  /\ forall inventory, exists answers, SyncPeers.serve_getdata peer inventory w = Some (mailed w (mail w peer <$> answers), tt)
       /\ Forall (fun p => match p with
                           | BlockPayload b => exists hash, NodeQueries.block_by_hash (node w) hash = Some b
                           | NotFound _ => True
                           | _ => False
                           end) answers.
Proof.
  intros Hun. split_and!.
  - intros tx. unfold SyncPeers.handle_tx. by rewrite run_reads, Hun.
  - unfold SyncPeers.handle_mempool. by rewrite run_reads, Hun.
  - intros inventory. unfold SyncPeers.handle_inv. rewrite run_reads, Hun.
    assert (forall s n l, SyncPeers.missing_inventory_requests s n l false = []) as Hnone.
    { intros s n l. unfold SyncPeers.missing_inventory_requests. set (l' := filter _ l).
      assert (l' = []) as -> by (unfold l'; clear; induction l as [|v l IH]; [done|]; by rewrite filter_cons, decide_False).
      apply take_nil. }
    unfold mbind, act_bind, reads, updates, updates_with. cbn. rewrite Hnone. by eexists.
  - intros inventory. rewrite getdata_answered, Hun. eexists. split; [done|].
    apply Forall_app. split; [|case_bool_decide; by repeat constructor].
    apply Forall_forall. intros p (v & _ & Hv)%list_elem_of_omap. unfold SyncPeers.serve_item in Hv.
    destruct (iv_kind v); [done|]. apply fmap_Some in Hv as (b & Hb & ->). by exists (iv_hash v).
Qed.
End unsynced.

(** ** A header nobody checked *)

Section unproven.
Context `{Henv : ProcessEnv, Hs : Sha3, Hf : FalconBackend, Hg : !GenesisReady Hs, Hd : Database, Ha : !Archive, Hm : Moment, Hr : Rounds}.

(** The target stands at [h], unreached, and the scores of the peers are [bans]. *)
Definition waiting_for (h : Z) (bans : BanList) (s : NodeSync) : Prop :=
  best_height (NodeSync.sync_state s) = h /\ headers_synced (NodeSync.sync_state s) = false
  /\ banlist (connections s) = bans.
Lemma waiting_unsynced h bans s n : waiting_for h bans s -> NodeSync.chain_synced s n = false.
Proof. intros (_ & Hsync & _). unfold NodeSync.chain_synced. by rewrite Hsync. Qed.

Lemma observed_waiting peer hd s n :
  network_id hd = ns_network s -> best_height (NodeSync.sync_state s) < height hd -> Node.height n < height hd ->
  waiting_for (height hd) (banlist (connections s)) (SyncBlocks.note_observed_peer_tip peer hd false s n).
Proof.
  intros Hnet Hbest Hlocal. unfold SyncBlocks.note_observed_peer_tip. rewrite bool_decide_true by done. cbn [negb].
  unfold waiting_for, NodeSync.sync_state, RelayLoop.note_observed_tip_at in *.
  cbn [relay connections NodeSync.with_relay NodeSync.with_connections rl_sync RelayLoop.with_sync].
  assert ((SyncState.observe_tip (rl_sync (relay s)) (height hd) (Some (BlockHeader.block_hash hd)) None).1
    = SyncState.with_target (rl_sync (relay s))
        {| ct_height := height hd; ct_tip := Some (BlockHeader.block_hash hd); ct_chainwork := None |} false) as ->.
  { unfold SyncState.observe_tip, compare_tip_candidates. cbn [known_chainwork ct_chainwork ct_height SyncState.target].
    by rewrite (proj2 (Z.compare_gt_iff _ _)). }
  assert (SyncState.local_tip_satisfies_target (SyncState.with_target (rl_sync (relay s))
        {| ct_height := height hd; ct_tip := Some (BlockHeader.block_hash hd); ct_chainwork := None |} false)
        (Node.height n) (NodeSync.local_tip_hash n) None = false) as ->.
  { unfold SyncState.local_tip_satisfies_target, compare_tip_candidates. cbn.
    by rewrite (proj2 (Z.compare_lt_iff _ _)). }
  by split_and!.
Qed.
Lemma ask_waiting peer h bans w : waiting_for h bans (sync w) ->
  exists w', SyncBlocks.queue_getheaders_if_needed peer w = Some (w', tt) /\ waiting_for h bans (sync w') /\ node w' = node w.
Proof.
  intros Hw. unfold SyncBlocks.queue_getheaders_if_needed. rewrite run_reads.
  destruct (_ || _); [by exists w|].
  assert (waiting_for h bans (SyncBlocks.refresh_header_locator_from_node_if_needed (sync w) (node w))) as H1
    by (unfold SyncBlocks.refresh_header_locator_from_node_if_needed; by case_match).
  eexists. split; [reflexivity|]. split; [|done]. exact H1.
Qed.

(** One compact block of a ready peer takes a node out of sync, whatever its header
    says: if the block is far ahead of the tip, its header is taken as the peer's tip before
    anything of it is checked, its proof of work included; the target moves to the claimed
    height, the handler succeeds, and no score of misbehavior is recorded. *)
Theorem unproven_header_unsyncs (peer : bytes) (m : CompactBlockMessage) (w : World) :
  let hd := cb_header m in
  network_id hd = ns_network (sync w) -> previous_block_hash hd <> Node.tip_hash (node w) ->
  Scheduler.is_inflight (downloader (sync w)) (BlockHeader.block_hash hd) = false ->
  saturating_add U64_MAX (Node.height (node w)) (block_download_lookahead (NodeSync.limits_of (sync w))) < height hd ->
  Node.height (node w) < height hd -> best_height (NodeSync.sync_state (sync w)) < height hd ->
  exists w', SyncPeers.handle_message peer (NetworkMessage.new (ns_network (sync w)) (CompactBlock m)) w = Some (w', Ok tt)
    /\ NodeSync.chain_synced (sync w') (node w') = false
    /\ best_height (NodeSync.sync_state (sync w')) = height hd
    /\ banlist (connections (sync w')) = banlist (connections (sync w)) /\ node w' = node w.
Proof.
  intros hd Hnet Hprev Hflight Hfar Hahead Hbest. cbn [SyncPeers.handle_message payload NetworkMessage.new].
  unfold SyncBlocks.handle_compact_block. fold hd.
  set (w1 := {| sync := SyncBlocks.prune_pending_compact_blocks (sync w) (node w); node := node w; outbound := outbound w |}).
  rewrite (run_bind _ _ w w1 tt) by done. cbv zeta. rewrite run_reads.
  change (Scheduler.is_inflight (downloader (sync w1)) (BlockHeader.block_hash hd))
    with (Scheduler.is_inflight (downloader (sync w)) (BlockHeader.block_hash hd)). rewrite Hflight.
  assert (exists w', SyncBlocks.defer_unsolicited_future_block peer hd false w1 = Some (w', true)
    /\ waiting_for (height hd) (banlist (connections (sync w))) (sync w') /\ node w' = node w) as (w' & Hrun & Hw & Hn).
  { unfold SyncBlocks.defer_unsolicited_future_block. rewrite run_reads.
    assert (SyncBlocks.should_defer_unsolicited_future_block hd false (sync w1) (node w1) = true) as ->.
    { unfold SyncBlocks.should_defer_unsolicited_future_block. rewrite bool_decide_true, bool_decide_false by done.
      cbn [negb orb]. by apply Z.ltb_lt. }
    cbn [negb]. set (w2 := {| sync := SyncBlocks.note_observed_peer_tip peer hd false (sync w1) (node w1); node := node w1;
                              outbound := outbound w1 |}).
    rewrite (run_bind _ _ w1 w2 tt) by done.
    destruct (ask_waiting peer (height hd) (banlist (connections (sync w))) w2) as (w' & Hrun & Hw & Hn).
    { by apply (observed_waiting peer hd (sync w1) (node w1)). }
    exists w'. by rewrite (run_bind _ _ w2 w' tt). }
  rewrite (run_bind _ _ w1 w' true) by done. exists w'. split; [done|].
  split; [by eapply waiting_unsynced|]. destruct Hw as (-> & _ & ->). done.
Qed.
End unproven.

(** ** A body that does not belong to its header *)

Section body.
Context `{Henv : ProcessEnv, Hs : Sha3, Hf : FalconBackend, Hg : !GenesisReady Hs, Hd : Database, Ha : !Archive, Hm : Moment, Hr : Rounds}.

(** What the scheduler knows of a block is final: it is taken to be done. *)
Definition settled (hash : bytes) (d : BlockDownloadScheduler) : Prop := consistent d /\ status d hash = Done.
Lemma settled_received hash d h : settled hash d -> settled hash (Scheduler.note_block_received d h).
Proof.
  intros [Hc Hst]. destruct (perform_step d (BlockReceived h) Hc I) as [Hc' Hstep]. split; [done|].
  specialize (Hstep hash). cbn [block_step perform] in Hstep. rewrite Hstep. by case_decide.
Qed.
Lemma received_settled hash d : consistent d -> settled hash (Scheduler.note_block_received d hash).
Proof.
  intros Hc. destruct (perform_step d (BlockReceived hash) Hc I) as [Hc' Hstep]. split; [done|].
  specialize (Hstep hash). cbn [block_step perform] in Hstep. by rewrite Hstep, decide_True.
Qed.
Lemma settled_headers hash d peer hashes : settled hash d -> settled hash (Scheduler.note_headers d peer hashes).
Proof.
  intros [Hc Hst]. destruct (perform_step d (NoteHeaders peer hashes) Hc I) as [Hc' Hstep]. split; [done|].
  specialize (Hstep hash). cbn [block_step perform] in Hstep. rewrite Hstep, Hst. by case_decide.
Qed.
Lemma invalid_downloader s hash h : downloader (NodeSync.mark_invalid s hash h) = Scheduler.note_block_received (downloader s) hash.
Proof. unfold NodeSync.mark_invalid, NodeSync.remove_pending_header_block. by case_match. Qed.
Lemma invalid_connections s hash h : connections (NodeSync.mark_invalid s hash h) = connections s.
Proof. unfold NodeSync.mark_invalid, NodeSync.remove_pending_header_block. by case_match. Qed.
Lemma family_settled net s hash h s' removed : sync_ok net s ->
  NodeSync.mark_invalid_block_family s hash h = Some (s', removed) -> settled hash (downloader s').
Proof.
  intros H Hrun. unfold NodeSync.mark_invalid_block_family in Hrun. set (s1 := NodeSync.mark_invalid s hash h) in *.
  assert (settled hash (downloader s1)) as H1.
  { unfold s1. rewrite invalid_downloader. apply received_settled, H. }
  destruct (SideBranchPool.remove (side_branches s1) hash) as [p root].
  destruct (SideBranchPool.remove_descendants_of p hash) as [[p' blocks]|]; [|done]. injection Hrun as <- _.
  assert (settled hash (downloader (NodeSync.with_branches s1 p'))) as H2 by exact H1. revert H2.
  generalize (NodeSync.with_branches s1 p'). induction blocks as [|b blocks IH]; intros s2 H2; [done|].
  apply IH. unfold NodeSync.mark_invalid_descendant. rewrite invalid_downloader. by apply settled_received.
Qed.

(** The hash of a block covers its header alone, but a block whose body fails the first
    checks settles its hash: a peer that sends a good header with an empty or oversized
    body makes the node take the block as done, so that no announcement of its header has
    it requested again, and no score is recorded. *)
Theorem bad_body_settles_header net (peer : bytes) (b : Block) (e : ValidationError) (w : World) :
  sync_ok net (sync w) -> SyncBlocks.validate_received_block_envelope b net = Err e ->
  exists w', SyncPeers.handle_message peer (NetworkMessage.new net (BlockPayload b)) w
      = Some (w', Err (SyncNodeError (NodeValidation e)))
    /\ connections (sync w') = connections (sync w)
    /\ forall peer' hashes, let d := Scheduler.note_headers (downloader (sync w')) peer' hashes in
         let hash := BlockHeader.block_hash (header b) in
         status d hash = Done /\ hash ∉ pending d /\ Scheduler.is_inflight d hash = false.
Proof.
  intros H He. cbn [SyncPeers.handle_message payload NetworkMessage.new]. unfold SyncBlocks.handle_received_block.
  cbv zeta. rewrite run_reads, (so_network _ _ H), He. set (hash := BlockHeader.block_hash (header b)).
  destruct (family_returns net (sync w) hash (height (header b)) H) as (s' & removed & Hrun & H').
  set (w' := {| sync := s'; node := node w; outbound := outbound w |}).
  rewrite (run_bind _ _ w w' removed) by (unfold updates_if_ends; by rewrite Hrun). exists w'. split; [done|]. split.
  - cbn [sync w']. clear H'. unfold NodeSync.mark_invalid_block_family in Hrun.
    destruct (SideBranchPool.remove _ _) as [p root]. destruct (SideBranchPool.remove_descendants_of p hash) as [[p' blocks]|]; [|done].
    injection Hrun as <- _. set (s1 := NodeSync.with_branches _ p').
    assert (connections s1 = connections (sync w)) as <- by apply invalid_connections.
    generalize s1. induction blocks as [|b' blocks IH]; intros s2; [done|]. cbn [foldl]. rewrite IH. apply invalid_connections.
  - intros peer' hashes. pose proof (settled_headers hash _ peer' hashes (family_settled _ _ _ _ _ _ H Hrun)) as [Hc Hst].
    change s' with (sync w') in Hc, Hst. split; [done|]. split.
    + intros Hin%status_pending; [by rewrite Hin in Hst|done].
    + unfold Scheduler.is_inflight. apply bool_decide_eq_false. intros [owner Howner].
      apply status_inflight in Howner; [by rewrite Howner in Hst|done].
Qed.
End body.

(** ** Witnesses *)

#[local] Existing Instances plain_env Keccak.sha3_inst accepting_falcon keccak_genesis_ready null_database null_archive
  sample_moment sample_rounds.
Definition sync_peer : bytes := str_bytes "9.9.9.9:9100".
Definition fresh_sync : NodeSync := NodeSync.new Regnet.
Definition dialled_sync : NodeSync := (SyncPeers.accept_inbound fresh_sync sync_peer).1.
(** A node in sync with itself, with one peer. *)
Definition primed_sync : NodeSync := SyncPeers.prime dialled_sync regnet_node.

Lemma synchronization_safe_witness :
  sync_ok Regnet primed_sync /\ rtc (node_move (fun _ _ => False)) regnet_node regnet_node.
Proof.
  apply (synchronization_safe (fun _ _ => False) Regnet regnet_node primed_sync regnet_node).
  unfold primed_sync, dialled_sync, fresh_sync. generalize regnet_node. intros n.
  eapply rtc_l; [exact (step_accept _ sample_moment sync_peer (NodeSync.new Regnet) n)|].
  apply rtc_once. exact (step_prime _ sample_moment _ n).
Defined.

(** A header that claims height 1,000,000 and carries no proof of work. *)
Definition claimed_header : BlockHeader :=
  {| h_version := 1; network_id := Regnet; height := 1000000; previous_block_hash := zeros 48; h_merkle_root := zeros 48;
     h_witness_root := zeros 48; founders_hash_sha3_384 := zeros 48; founders_hash_sha3_512 := zeros 64; timestamp := 1;
     difficulty_target_or_bits := zeros 48; nonce := 0 |}.
(** A Regnet header with no body. *)
Definition stripped_block : Block :=
  {| header := claimed_header; transactions := []; witnesses := ∅; fees_total_atoms := 0; fees_miner_atoms := 0 |}.
Lemma bad_body_settles_header_witness :
  exists w', SyncPeers.handle_message sync_peer (NetworkMessage.new Regnet (BlockPayload stripped_block))
    {| sync := NodeSync.new Regnet; node := regnet_node; outbound := [] |}
  = Some (w', Err (SyncNodeError (NodeValidation EmptyBlock))).
Proof.
  generalize regnet_node. intros n.
  destruct (bad_body_settles_header Regnet sync_peer stripped_block EmptyBlock
    {| sync := NodeSync.new Regnet; node := n; outbound := [] |}) as (w' & Hrun & _); [apply new_ok|by vm_compute|].
  by exists w'.
Defined.

Lemma unready_peer_changes_no_ledger_witness :
  exists s' n' r, SyncPeers.receive sync_peer (NetworkMessage.new Regnet (Ping 7)) dialled_sync regnet_node = Some (s', n', r)
    /\ same_ledger regnet_node n'.
Proof.
  assert (match SyncPeers.receive sync_peer (NetworkMessage.new Regnet (Ping 7)) dialled_sync regnet_node with
          | Some _ => true | None => false end
          && match HandshakeState.is_ready <$> (handshake <$> sessions (connections dialled_sync) !! sync_peer) with
             | Some ready => negb ready | None => false end = true) as Htest by by vm_compute.
  revert Htest. generalize dialled_sync regnet_node. intros s n [Hrun Hready]%andb_true_iff.
  destruct (SyncPeers.receive _ _ s n) as [[[s' n'] r]|] eqn:E; [|done]. exists s', n', r. split; [done|].
  eapply (unready_peer_changes_no_ledger sync_peer _ s n); [|exact E]. intros session Hsession.
  rewrite Hsession in Hready. by apply negb_true_iff in Hready.
Defined.

Lemma unsynced_node_relays_no_transactions_witness :
  SyncPeers.handle_mempool sync_peer {| sync := fresh_sync; node := regnet_node; outbound := [] |}
  = Some ({| sync := fresh_sync; node := regnet_node; outbound := [] |}, Ok tt).
Proof.
  apply (unsynced_node_relays_no_transactions sync_peer {| sync := fresh_sync; node := regnet_node; outbound := [] |}).
  reflexivity.
Defined.

Definition claimed_block : CompactBlockMessage :=
  {| cb_header := claimed_header; cb_tx_count := 1; cb_short_ids := []; cb_prefilled_transactions := [];
     cb_fees_total_atoms := 0; cb_fees_miner_atoms := 0 |}.
(** The premises, as a test. *)
Definition takes_the_claim (s : NodeSync) (n : Node) : bool :=
  let hd := claimed_header in
  bool_decide (network_id hd = ns_network s) && negb (bool_decide (previous_block_hash hd = Node.tip_hash n))
  && negb (Scheduler.is_inflight (downloader s) (BlockHeader.block_hash hd))
  && (saturating_add U64_MAX (Node.height n) (block_download_lookahead (NodeSync.limits_of s)) <? height hd)
  && (Node.height n <? height hd) && (best_height (NodeSync.sync_state s) <? height hd).
Lemma unproven_header_unsyncs_witness :
  exists w', SyncPeers.handle_message sync_peer (NetworkMessage.new (ns_network primed_sync) (CompactBlock claimed_block))
      {| sync := primed_sync; node := regnet_node; outbound := [] |} = Some (w', Ok tt)
    /\ NodeSync.chain_synced primed_sync regnet_node = true /\ NodeSync.chain_synced (sync w') (node w') = false.
Proof.
  assert (takes_the_claim primed_sync regnet_node && NodeSync.chain_synced primed_sync regnet_node = true) as Htest by by vm_compute.
  revert Htest. generalize primed_sync regnet_node. intros s n [Htest Hsynced]%andb_true_iff.
  unfold takes_the_claim in Htest. rewrite !andb_true_iff, !negb_true_iff, !Z.ltb_lt, bool_decide_eq_true, bool_decide_eq_false in Htest.
  destruct Htest as [[[[[H1 H2] H3] H4] H5] H6].
  destruct (unproven_header_unsyncs sync_peer claimed_block {| sync := s; node := n; outbound := [] |} H1 H2 H3 H4 H5 H6)
    as (w' & Hrun & Hsync & _).
  by exists w'.
Defined.
