(* ===== verification/Mnemonic.v ===== *)
(** * Mnemonic phrases

    crates/atho-wallet/src/mnemonic/mod.rs: entropy and its checksum as words of
    eleven bits, and the parser that accepts exactly such phrases. SHA-256 and
    PBKDF2 are the class [Sha2]; [str::to_lowercase], which knows all of Unicode,
    is [Lowercase], of which only its behaviour on ASCII is used. *)
From stdpp Require Import options.
From S2P Require Import Prelude Bytes Text WordList.

#[local] Set Default Proof Using "Type*".

(** The sha2 and pbkdf2 crates; a digest has 32 bytes, more than the bits read. *)
Class Sha2 := {
  sha256 : bytes -> bytes;
  pbkdf2_hmac_sha512 : bytes -> bytes -> Z -> bytes;
}.
Class Lowercase := { to_lowercase : bytes -> bytes }.
Class LowercaseLaws (L : Lowercase) : Prop := {
  to_lowercase_ascii s : Forall (fun b => byte_to_Z b < 128) s -> to_lowercase s = to_ascii_lowercase s;
}.

(* src: mnemonic.rs:19-19 MNEMONIC_SCHEME *)
Definition MNEMONIC_SCHEME : bytes := str_bytes "atho-mnemonic-v1".
(* src: mnemonic.rs:20-20 MNEMONIC_PBKDF2_ITERATIONS *)
Definition MNEMONIC_PBKDF2_ITERATIONS : Z := 600000.
(* src: mnemonic.rs:21-21 DEFAULT_MNEMONIC_WORD_COUNT *)
Definition DEFAULT_MNEMONIC_WORD_COUNT : Z := 24.

(* src: mnemonic.rs:23-28 MnemonicLength *)
Inductive MnemonicLength := Words12 | Words24 | Words48.
(* src: mnemonic.rs:31-37 MnemonicLength::word_count *)
Definition word_count (l : MnemonicLength) : nat := match l with Words12 => 12 | Words24 => 24 | Words48 => 48 end.
(* src: mnemonic.rs:39-45 MnemonicLength::entropy_bytes *)
Definition entropy_bytes (l : MnemonicLength) : nat := match l with Words12 => 16 | Words24 => 32 | Words48 => 64 end.
(* src: mnemonic.rs:47-54 MnemonicLength::from_word_count *)
Definition from_word_count (words : nat) : option MnemonicLength :=
  match words with
  | 12%nat => Some Words12
  | 24%nat => Some Words24
  | 48%nat => Some Words48
  | _ => None
  end.

(* src: mnemonic.rs:57-67 MnemonicError *)
Inductive MnemonicError := InvalidWordCount | InvalidEntropyLength | InvalidWord | ChecksumMismatch.
(* src: mnemonic.rs:84-88 MnemonicPhrase *)
Record MnemonicPhrase := { words : list bytes }.
#[global] Instance MnemonicPhrase_eq_dec : EqDecision MnemonicPhrase.
Proof. solve_decision. Defined.

(** ** Bits *)

(* src: mnemonic.rs:242-246 bit_from_bytes *)
Definition bit_from_bytes (bs : bytes) (bit_index : nat) : Z :=
  Z.land (Z.shiftr (byte_to_Z (nth (bit_index / 8) bs x00)) (7 - Z.of_nat (bit_index mod 8))) 1.

(** [for offset in 0..width]; [value] is a [u16]. *)
(* src: mnemonic.rs:214-226 read_bits *)
Definition read_bits (entropy checksum : bytes) (start_bit width : nat) : Z :=
  foldl (fun value offset =>
    let bit := if (start_bit + offset <? length entropy * 8)%nat then bit_from_bytes entropy (start_bit + offset)
               else bit_from_bytes checksum (start_bit + offset - length entropy * 8) in
    Z.lor (Z.shiftl value 1 mod 2 ^ 16) bit) 0 (seq 0 width).

Definition or_byte (bs : bytes) (i : nat) (z : Z) : bytes :=
  <[i := byte_of_Z (Z.lor (byte_to_Z (nth i bs x00)) z)]> bs.
(* src: mnemonic.rs:228-240 write_bits *)
Definition write_bits (target : bytes) (start_bit width : nat) (value : Z) : bytes :=
  foldl (fun target offset =>
    let bit := Z.land (Z.shiftr value (Z.of_nat (width - 1 - offset))) 1 in
    let pos := (start_bit + offset)%nat in
    if (length target <=? pos / 8)%nat then target
    else or_byte target (pos / 8) (Z.shiftl bit (7 - Z.of_nat (pos mod 8)) mod 256)) target (seq 0 width).

(** The loop over the words, from bit [current]; a missing word would panic. *)
(* src: mnemonic.rs:248-259 bit_from_bytes_from_words *)
Fixpoint bit_of_words (words : list bytes) (bit_index current : nat) : Z :=
  match words with
  | [] => 0
  | word :: words =>
      let idx := default 0 (word_to_index word) in
      if (bit_index <? current + 11)%nat
      then Z.land (Z.shiftr idx (10 - Z.of_nat (bit_index - current))) 1
      else bit_of_words words bit_index (current + 11)
  end.
Definition bit_from_bytes_from_words (words : list bytes) (bit_index : nat) : Z := bit_of_words words bit_index 0.

Section mnemonic.
Context `{Hs2 : Sha2, Hl : Lowercase}.

(* src: mnemonic.rs:177-193 encode_entropy *)
Definition encode_entropy (entropy : bytes) (l : MnemonicLength) : result MnemonicError (list bytes) :=
  let checksum_bits := (length entropy * 8 / 32)%nat in
  let digest := sha256 entropy in
  let total_bits := (length entropy * 8 + checksum_bits)%nat in
  let count := (total_bits / 11)%nat in
  words ← try_map (fun idx => ok_or (index_to_word (read_bits entropy digest (idx * 11) 11)) InvalidWord) (seq 0 count);
  reject negb (count =? word_count l)%nat with InvalidWordCount;
  Ok words.

(* src: mnemonic.rs:168-175 validate_words *)
Definition validate_words (words : list bytes) : result MnemonicError unit :=
  try_for (fun word => reject_if (bool_decide (word_to_index word = None)) InvalidWord) words.

(** The entropy the words spell. *)
Definition entropy_of (words : list bytes) (l : MnemonicLength) : result MnemonicError bytes :=
  try_fold (fun entropy iw => idx ← ok_or (word_to_index iw.2) InvalidWord;
              Ok (write_bits entropy (iw.1 * 11) 11 idx))
    (zeros (entropy_bytes l)) (zip (seq 0 (length words)) words).
(* src: mnemonic.rs:195-212 validate_checksum *)
Definition validate_checksum (words : list bytes) (l : MnemonicLength) : result MnemonicError unit :=
  let entropy_bits := (entropy_bytes l * 8)%nat in
  let checksum_bits := (entropy_bits / 32)%nat in
  entropy ← entropy_of words l;
  let digest := sha256 entropy in
  try_for (fun bit => reject_if (negb (bit_from_bytes digest bit =? bit_from_bytes_from_words words (entropy_bits + bit)))
                        ChecksumMismatch) (seq 0 checksum_bits).

Definition is_ascii_digit (b : byte) : bool := let z := byte_to_Z b in (48 <=? z) && (z <=? 57).
(** [trim_start_matches] and [trim_matches] for a set of ASCII characters. *)
Fixpoint trim_start_while (p : byte -> bool) (s : bytes) : bytes :=
  match s with
  | [] => []
  | b :: s' => if p b then trim_start_while p s' else s
  end.
Definition trim_while (p : byte -> bool) (s : bytes) : bytes :=
  reverse (trim_start_while p (reverse (trim_start_while p s))).

(* src: mnemonic.rs:149-166 normalize_mnemonic_token *)
Definition normalize_mnemonic_token (token : bytes) : option bytes :=
  let word := to_lowercase (trim token) in
  if bool_decide (word = []) then None
  else
    let stripped := trim_start_while (fun b => bool_decide (b ∈ [x2e; x29; x3a; x2d; x20])) (trim_start_while is_ascii_digit word) in
    let word := if negb (bool_decide (stripped = [])) && (length stripped <? length word)%nat then stripped else word in
    let word := trim_while (fun b => bool_decide (b ∈ [x2c; x3b; x2e])) word in
    if bool_decide (word = []) then None else Some word.
(* src: mnemonic.rs:142-147 normalize_mnemonic_words *)
Definition normalize_mnemonic_words (input : bytes) : list bytes := omap normalize_mnemonic_token (split_whitespace input).

End mnemonic.

Module MnemonicPhrase.
Section phrase.
Context `{Hs2 : Sha2, Hl : Lowercase}.
(* src: mnemonic.rs:100-106 MnemonicPhrase::from_entropy *)
Definition from_entropy (entropy : bytes) (l : MnemonicLength) : result MnemonicError MnemonicPhrase :=
  reject negb (length entropy =? entropy_bytes l)%nat with InvalidEntropyLength;
  words ← encode_entropy entropy l;
  Ok {| words := words |}.
(* src: mnemonic.rs:108-115 MnemonicPhrase::parse *)
Definition parse (input : bytes) : result MnemonicError MnemonicPhrase :=
  let words := normalize_mnemonic_words input in
  l ← ok_or (from_word_count (length words)) InvalidWordCount;
  _ ← validate_words words;
  _ ← validate_checksum words l;
  Ok {| words := words |}.
(* src: mnemonic.rs:125-127 MnemonicPhrase::as_sentence *)
Definition as_sentence (p : MnemonicPhrase) : bytes := join [x20] (words p).
(* src: mnemonic.rs:129-139 MnemonicPhrase::root_seed *)
Definition root_seed (p : MnemonicPhrase) (passphrase : bytes) : bytes :=
  pbkdf2_hmac_sha512 (as_sentence p) (MNEMONIC_SCHEME ++ passphrase) MNEMONIC_PBKDF2_ITERATIONS.
End phrase.
End MnemonicPhrase.

(** ** Bits of byte strings and of words *)

(** The bit at position [p], the most significant of each byte first. *)
Definition bbit (bs : bytes) (p : nat) : bool :=
  Z.testbit (byte_to_Z (nth (p / 8) bs x00)) (7 - Z.of_nat (p mod 8)).
(** The same for words of eleven bits, given by their numbers. *)
Definition wbit (idxs : list Z) (p : nat) : bool :=
  Z.testbit (nth (p / 11) idxs 0) (10 - Z.of_nat (p mod 11)).

Lemma land_shiftr_1 z k : 0 <= k -> Z.land (Z.shiftr z k) 1 = Z.b2z (Z.testbit z k).
Proof. intros Hk. rewrite (Z.land_ones _ 1), Z.testbit_spec', Z.shiftr_div_pow2 by lia. done. Qed.

Lemma bit_from_bytes_bbit bs p : bit_from_bytes bs p = Z.b2z (bbit bs p).
Proof. unfold bit_from_bytes, bbit. apply land_shiftr_1. pose proof (Nat.mod_upper_bound p 8). lia. Qed.

Lemma bbit_app bs1 bs2 p :
  bbit (bs1 ++ bs2) p = if (p <? length bs1 * 8)%nat then bbit bs1 p else bbit bs2 (p - length bs1 * 8).
Proof.
  unfold bbit. pose proof (Nat.div_mod p 8 ltac:(lia)) as Hp. pose proof (Nat.mod_upper_bound p 8 ltac:(lia)) as Hm.
  destruct (Nat.ltb_spec p (length bs1 * 8)).
  - by rewrite app_nth1 by (apply Nat.Div0.div_lt_upper_bound; lia).
  - rewrite app_nth2 by (apply Nat.div_le_lower_bound; lia).
    assert (p = p - length bs1 * 8 + length bs1 * 8)%nat as E by lia.
    rewrite E at 1 2. rewrite Nat.div_add, Nat.Div0.mod_add by lia. by rewrite Nat.add_sub.
Qed.

Lemma bits_ext w x y :
  0 <= x < 2 ^ Z.of_nat w -> 0 <= y < 2 ^ Z.of_nat w ->
  (forall i, (i < w)%nat -> Z.testbit x (Z.of_nat (w - 1 - i)) = Z.testbit y (Z.of_nat (w - 1 - i))) -> x = y.
Proof.
  intros Hx Hy H. apply Z.bits_inj'. intros n Hn. destruct (Z.lt_ge_cases n (Z.of_nat w)) as [Hlt|Hge].
  - specialize (H (w - 1 - Z.to_nat n)%nat ltac:(lia)). replace (Z.of_nat (w - 1 - (w - 1 - Z.to_nat n))) with n in H by lia. done.
  - rewrite <- (Z.mod_small x (2 ^ Z.of_nat w)), <- (Z.mod_small y (2 ^ Z.of_nat w)) by done. by rewrite !Z.mod_pow2_bits_high by lia.
Qed.

Lemma bbit_ext bs1 bs2 :
  length bs1 = length bs2 -> (forall p, (p < length bs1 * 8)%nat -> bbit bs1 p = bbit bs2 p) -> bs1 = bs2.
Proof.
  intros Hl H. apply (nth_ext _ _ x00 x00 Hl). intros n Hn. apply (inj byte_to_Z), (bits_ext 8); [apply byte_range..|].
  intros i Hi. specialize (H (n * 8 + i)%nat ltac:(lia)). unfold bbit in H.
  rewrite (Nat.add_comm (n * 8)), Nat.div_add, Nat.Div0.mod_add, Nat.div_small, Nat.mod_small in H by lia.
  replace (Z.of_nat (8 - 1 - i)) with (7 - Z.of_nat i) by lia. exact H.
Qed.

Lemma testbit_1 n : n <> 0 -> Z.testbit 1 n = false.
Proof. intros Hn. by apply (Z.pow2_bits_false 0 n). Qed.
Lemma b2z_inj a b : Z.b2z a = Z.b2z b -> a = b.
Proof. by destruct a, b. Qed.

(** [read_bits] reads the concatenation. *)
Lemma read_bits_spec e c start w :
  (w <= 16)%nat ->
  0 <= read_bits e c start w < 2 ^ Z.of_nat w
  /\ forall i, (i < w)%nat -> Z.testbit (read_bits e c start w) (Z.of_nat (w - 1 - i)) = bbit (e ++ c) (start + i).
Proof.
  unfold read_bits. induction w as [|w IH]; intros Hw; [split; [cbn; lia|lia]|].
  rewrite seq_S, foldl_app. cbn [foldl]. destruct (IH ltac:(lia)) as [Hr Hb]. clear IH.
  set (v := foldl _ 0 (seq 0 w)) in *. clearbody v. cbn [Nat.add].
  assert ((if (start + w <? length e * 8)%nat then bit_from_bytes e (start + w)
           else bit_from_bytes c (start + w - length e * 8)) = Z.b2z (bbit (e ++ c) (start + w))) as ->.
  { rewrite bbit_app, !bit_from_bytes_bbit. by destruct (_ <? _)%nat. }
  rewrite Z.shiftl_mul_pow2, Z.mod_small by
    (try lia; pose proof (Z.pow_le_mono_r 2 (Z.of_nat w) 15 ltac:(lia) ltac:(lia)); change (2 ^ 16) with (2 * 2 ^ 15); lia).
  remember (bbit (e ++ c) (start + w)) as b eqn:Eb.
  assert (Z.lor (v * 2 ^ 1) (Z.b2z b) = 2 * v + Z.b2z b) as ->.
  { assert (Z.land (v * 2 ^ 1) (Z.b2z b) = 0) as E; [|pose proof (Z.add_lor_land (v * 2 ^ 1) (Z.b2z b)); lia].
    rewrite <- Z.shiftl_mul_pow2 by lia.
    apply Z.bits_inj'. intros n Hn. rewrite Z.land_spec, Z.bits_0. destruct (Z.eq_dec n 0) as [->|].
    - by rewrite Z.shiftl_spec_low by lia.
    - destruct b; [change (Z.b2z true) with 1|by rewrite Z.bits_0, andb_false_r]. rewrite testbit_1 by done. by rewrite andb_false_r. }
  replace (Z.of_nat (S w)) with (Z.succ (Z.of_nat w)) by lia. rewrite Z.pow_succ_r by lia. split; [destruct b; cbn; lia|].
  intros i Hi. destruct (decide (i = w)) as [->|Hne].
  - replace (Z.of_nat (S w - 1 - w)) with 0 by lia. rewrite Z.testbit_0_r. done.
  - replace (Z.of_nat (S w - 1 - i)) with (Z.succ (Z.of_nat (w - 1 - i))) by lia.
    rewrite Z.testbit_succ_r by lia. apply Hb. lia.
Qed.

Lemma or_byte_length bs i z : length (or_byte bs i z) = length bs.
Proof. apply length_insert. Qed.
Lemma testbit_or_bit a b k j :
  0 <= k < 8 -> 0 <= j < 8 ->
  Z.testbit (Z.lor a (Z.shiftl (Z.b2z b) k mod 256) mod 256) j = Z.testbit a j || (bool_decide (j = k) && b).
Proof.
  intros Hk Hj. change 256 with (2 ^ 8). rewrite Z.mod_pow2_bits_low, Z.lor_spec, Z.mod_pow2_bits_low by lia. f_equal.
  rewrite Z.shiftl_spec by lia. case_bool_decide as E; [subst; by rewrite Z.sub_diag, Z.b2z_bit0|].
  destruct b; [change (Z.b2z true) with 1|by rewrite Z.bits_0].
  apply testbit_1. lia.
Qed.
Lemma bbit_or_byte bs q b p :
  (q < length bs * 8)%nat ->
  bbit (or_byte bs (q / 8) (Z.shiftl (Z.b2z b) (7 - Z.of_nat (q mod 8)) mod 256)) p
  = bbit bs p || (bool_decide (p = q) && b).
Proof.
  intros Hq. pose proof (Nat.div_mod p 8 ltac:(lia)) as Hp. pose proof (Nat.mod_upper_bound p 8 ltac:(lia)) as Hpm.
  pose proof (Nat.div_mod q 8 ltac:(lia)) as Hq'. pose proof (Nat.mod_upper_bound q 8 ltac:(lia)) as Hqm.
  assert (q / 8 < length bs)%nat as Hi by (apply Nat.Div0.div_lt_upper_bound; lia).
  unfold bbit, or_byte. rewrite (nth_lookup _ (p / 8)), (nth_lookup bs (p / 8)).
  destruct (decide (p / 8 = q / 8)%nat) as [E|E].
  - rewrite E, list_lookup_insert_eq by done. cbn [from_option]. unfold id. rewrite byte_to_of_Z, testbit_or_bit by lia.
    rewrite nth_lookup. f_equal. f_equal. apply bool_decide_ext. lia.
  - rewrite list_lookup_insert_ne by done. rewrite (bool_decide_eq_false_2 (p = q)) by (intros ->; done). by rewrite orb_false_r.
Qed.

Lemma write_bits_spec t start w v :
  length (write_bits t start w v) = length t
  /\ forall p, (p < length t * 8)%nat ->
     bbit (write_bits t start w v) p
     = bbit t p || (bool_decide (start <= p < start + w)%nat && Z.testbit v (Z.of_nat (w - 1 - (p - start)))).
Proof.
  unfold write_bits. set (step := fun target offset => _).
  assert (forall n, (n <= w)%nat -> length (foldl step t (seq 0 n)) = length t
    /\ forall p, (p < length t * 8)%nat -> bbit (foldl step t (seq 0 n)) p
       = bbit t p || (bool_decide (start <= p < start + n)%nat && Z.testbit v (Z.of_nat (w - 1 - (p - start))))) as Hn;
    [|by apply Hn].
  induction n as [|n IH]; intros Hle.
  { split; [done|]. intros p Hp. rewrite bool_decide_eq_false_2 by lia. cbn. by rewrite orb_false_r. }
  destruct (IH ltac:(lia)) as [Hl Hb]. clear IH. rewrite seq_S, foldl_app. cbn [foldl Nat.add].
  set (t' := foldl step t (seq 0 n)) in *. clearbody t'. unfold step.
  pose proof (Nat.div_mod (start + n) 8 ltac:(lia)) as Hd. pose proof (Nat.mod_upper_bound (start + n) 8 ltac:(lia)) as Hm.
  rewrite land_shiftr_1 by lia. destruct (Nat.leb_spec (length t') ((start + n) / 8)) as [Hout|Hin].
  - split; [done|]. intros p Hp. rewrite Hb by done. f_equal. f_equal. apply bool_decide_ext. lia.
  - rewrite or_byte_length. split; [done|]. intros p Hp. rewrite bbit_or_byte, Hb by lia.
    rewrite <- orb_assoc. f_equal. destruct (decide (p = start + n)%nat) as [->|Hne].
    + rewrite (bool_decide_eq_true_2 (_ = _)), bool_decide_eq_false_2, bool_decide_eq_true_2 by lia. cbn.
      f_equal. lia.
    + rewrite (bool_decide_eq_false_2 (p = _)) by done. cbn [andb]. rewrite orb_false_r. f_equal. apply bool_decide_ext. lia.
Qed.

(** ** Words and their numbers *)

Definition indices (words : list bytes) : list Z := (fun w => default 0 (word_to_index w)) <$> words.

Lemma indices_cons w ws : indices (w :: ws) = default 0 (word_to_index w) :: indices ws.
Proof. done. Qed.
Lemma wbit_cons i idxs p :
  wbit (i :: idxs) p = if (p <? 11)%nat then Z.testbit i (10 - Z.of_nat p) else wbit idxs (p - 11).
Proof.
  unfold wbit. destruct (Nat.ltb_spec p 11).
  - by rewrite Nat.div_small, Nat.mod_small by lia.
  - assert (p = p - 11 + 1 * 11)%nat as E by lia. rewrite E at 1 2. by rewrite Nat.div_add, Nat.Div0.mod_add, Nat.add_1_r by lia.
Qed.
Lemma bit_of_words_spec words p : forall k, (k <= p)%nat ->
  bit_of_words words p k = Z.b2z (wbit (indices words) (p - k)).
Proof.
  induction words as [|w ws IH]; intros k Hk; cbn [bit_of_words indices fmap list_fmap].
  { unfold wbit. rewrite nth_lookup. cbn. by rewrite Z.bits_0. }
  rewrite wbit_cons. destruct (Nat.ltb_spec p (k + 11)), (Nat.ltb_spec (p - k) 11); try lia.
  - rewrite land_shiftr_1 by lia. done.
  - rewrite IH by lia. do 2 f_equal. lia.
Qed.

(** Valid words are their numbers. *)
Definition valid_words (words : list bytes) : Prop := Forall (fun w => is_Some (word_to_index w)) words.
Lemma validate_words_Ok words u : validate_words words = Ok u <-> valid_words words.
Proof.
  unfold validate_words. rewrite try_for_Ok. unfold valid_words. rewrite !Forall_forall.
  split; intros H w Hw; specialize (H w Hw).
  - apply reject_if_Ok, bool_decide_eq_false in H. destruct (word_to_index w); [by eexists|done].
  - apply reject_if_Ok, bool_decide_eq_false. intros E. rewrite E in H. by destruct H.
Qed.
Lemma nth_indices words k w :
  words !! k = Some w -> nth k (indices words) 0 = default 0 (word_to_index w).
Proof. intros H. unfold indices. by rewrite nth_lookup, list_lookup_fmap, H. Qed.

Lemma write_words_spec ws : forall k t,
  valid_words ws ->
  exists t', try_fold (fun entropy iw => idx ← ok_or (word_to_index iw.2) InvalidWord;
                         Ok (write_bits entropy (iw.1 * 11) 11 idx)) t (zip (seq k (length ws)) ws) = Ok t'
    /\ length t' = length t
    /\ forall p, (p < length t * 8)%nat ->
       bbit t' p = bbit t p || (bool_decide (k * 11 <= p)%nat && wbit (indices ws) (p - k * 11)).
Proof.
  induction ws as [|w ws IH]; intros k t Hv; cbn [length seq zip zip_with try_fold].
  { exists t. split_and!; [done..|]. intros p Hp. unfold wbit. rewrite nth_lookup. cbn. by rewrite Z.bits_0, andb_false_r, orb_false_r. }
  apply Forall_cons in Hv as [[i Hi] Hv]. cbn [fst snd]. rewrite Hi. cbn [ok_or mbind result_bind].
  destruct (write_bits_spec t (k * 11) 11 i) as [Hl Hb].
  destruct (IH (S k) (write_bits t (k * 11) 11 i) Hv) as (t' & Ht' & Hl' & Hb'). exists t'.
  split_and!; [done|congruence|]. intros p Hp. rewrite Hb', Hb, <- orb_assoc by lia. f_equal.
  cbn [indices fmap list_fmap]. rewrite wbit_cons, Hi. cbn [from_option]. unfold id.
  destruct (Nat.ltb_spec (p - k * 11) 11).
  - rewrite (bool_decide_eq_false_2 (S k * 11 <= p)%nat) by lia. cbn [andb]. rewrite orb_false_r.
    case_bool_decide; [rewrite bool_decide_eq_true_2 by lia|by rewrite bool_decide_eq_false_2 by lia].
    cbn [andb]. f_equal. lia.
  - rewrite (bool_decide_eq_false_2 (k * 11 <= p < _)%nat) by lia. cbn [andb orb].
    case_bool_decide; [rewrite bool_decide_eq_true_2 by lia|by rewrite bool_decide_eq_false_2 by lia].
    cbn [andb]. f_equal. lia.
Qed.
Lemma bbit_zeros n p : bbit (zeros n) p = false.
Proof.
  unfold bbit, zeros. replace (nth (p / 8) (replicate n x00) x00) with x00; [by rewrite Z.bits_0|].
  rewrite nth_lookup. destruct (replicate n x00 !! (p / 8)%nat) as [b|] eqn:E; [|done]. by apply lookup_replicate in E as [-> _].
Qed.
Lemma entropy_of_spec words l :
  valid_words words ->
  exists e, entropy_of words l = Ok e /\ length e = entropy_bytes l
    /\ forall p, (p < entropy_bytes l * 8)%nat -> bbit e p = wbit (indices words) p.
Proof.
  intros Hv. destruct (write_words_spec words 0 (zeros (entropy_bytes l)) Hv) as (e & He & Hl & Hb).
  assert (length (zeros (entropy_bytes l)) = entropy_bytes l) as Hz by apply length_replicate. rewrite Hz in *.
  exists e. split_and!; [done..|]. intros p Hp. rewrite Hb, bbit_zeros by done. rewrite Nat.mul_0_l, Nat.sub_0_r, bool_decide_eq_true_2 by lia. done.
Qed.

(** ** Phrases and entropy *)

Lemma word_to_index_range w i : word_to_index w = Some i -> 0 <= i < 2048.
Proof. intros [Hw Hi]%word_to_index_Some. apply index_to_word_range. split; [done|by eexists]. Qed.

(** The word at the bits from [start]. *)
Lemma word_at_spec e c start w :
  ok_or (index_to_word (read_bits e c start 11)) InvalidWord = Ok w <->
  exists i, word_to_index w = Some i /\ forall j, (j < 11)%nat -> Z.testbit i (10 - Z.of_nat j) = bbit (e ++ c) (start + j).
Proof.
  destruct (read_bits_spec e c start 11 ltac:(lia)) as [Hr Hb]. rewrite ok_or_Ok. split.
  - intros Hw. exists (read_bits e c start 11). split; [apply word_to_index_Some; split; [done|lia]|].
    intros j Hj. rewrite <- Hb by done. f_equal. lia.
  - intros (i & Hi & Hj). pose proof (word_to_index_range _ _ Hi) as Hri.
    assert (read_bits e c start 11 = i) as ->; [|by apply word_to_index_Some in Hi as [Hi _]].
    apply (bits_ext 11); [done..|]. intros j Hlt. rewrite Hb, <- Hj by done. f_equal. lia.
Qed.
Lemma encode_words e c words : forall k n,
  Forall2 (fun idx w => ok_or (index_to_word (read_bits e c (idx * 11) 11)) InvalidWord = Ok w) (seq k n) words <->
  length words = n /\ valid_words words
  /\ forall p, (p < n * 11)%nat -> wbit (indices words) p = bbit (e ++ c) (k * 11 + p).
Proof.
  induction words as [|w ws IH]; intros k [|n]; cbn [seq length].
  - split; [intros _; split_and!; [done|constructor|lia]|constructor].
  - split; [by intros H%Forall2_nil_inv_r|by intros [? _]].
  - split; [by intros H%Forall2_nil_inv_l|by intros [? _]].
  - rewrite Forall2_cons, word_at_spec, IH. unfold valid_words. rewrite Forall_cons. rewrite indices_cons.
    setoid_rewrite wbit_cons. split.
    + intros [(i & Hi & Hj) (Hlen & Hv & Hp)]. rewrite Hi. split_and!; [lia|by eexists|done|].
      intros p Hlt. destruct (Nat.ltb_spec p 11); [by apply Hj|]. rewrite Hp by lia. f_equal. lia.
    + intros (Hlen & [[i Hi] Hv] & Hp). rewrite Hi in *. cbn [from_option] in Hp. unfold id in Hp. split_and!; [|lia|done|].
      * exists i. split; [done|]. intros j Hj. specialize (Hp j ltac:(lia)). by destruct (Nat.ltb_spec j 11); [|lia].
      * intros p Hlt. specialize (Hp (p + 11)%nat ltac:(lia)). destruct (Nat.ltb_spec (p + 11) 11); [lia|].
        rewrite Nat.add_sub in Hp. rewrite Hp. f_equal. lia.
Qed.

Lemma total_bits l : (entropy_bytes l * 8 + entropy_bytes l * 8 / 32 = word_count l * 11)%nat.
Proof. by destruct l. Qed.
Lemma from_word_count_Some n l : from_word_count n = Some l <-> n = word_count l.
Proof.
  split; [|intros ->; by destruct l]. unfold from_word_count. intros H.
  do 49 (destruct n as [|n]; [try done; by injection H as <-|]). done.
Qed.

Section phrases.
Context `{Hs2 : Sha2, Hl : Lowercase}.

(** [words] spell the entropy [e] and its checksum. *)
Definition spells (words : list bytes) (e : bytes) (l : MnemonicLength) : Prop :=
  length e = entropy_bytes l /\ length words = word_count l /\ valid_words words
  /\ forall p, (p < word_count l * 11)%nat -> wbit (indices words) p = bbit (e ++ sha256 e) p.

Lemma from_entropy_spells e l p : MnemonicPhrase.from_entropy e l = Ok p <-> spells (words p) e l.
Proof.
  unfold MnemonicPhrase.from_entropy, encode_entropy, spells. pose proof (total_bits l) as Ht. destruct p as [ws]. cbn [words].
  destruct (Nat.eqb_spec (length e) (entropy_bytes l)) as [->|]; cbn [negb]; [|split; [done|by intros [? _]]].
  rewrite Ht, Nat.div_mul, Nat.eqb_refl by lia. cbn [negb]. rewrite bind_Ok. setoid_rewrite bind_Ok. setoid_rewrite try_map_Ok.
  setoid_rewrite encode_words. split.
  - intros (? & (? & (? & ? & ?) & [= ->]) & [= ->]). naive_solver.
  - intros (_ & ? & ? & ?). exists ws. split; [|done]. exists ws. naive_solver.
Qed.
Lemma from_entropy_total e l : length e = entropy_bytes l -> exists p, MnemonicPhrase.from_entropy e l = Ok p.
Proof.
  intros He. set (word := fun k => default [] (index_to_word (read_bits e (sha256 e) (k * 11) 11))).
  exists {| words := word <$> seq 0 (word_count l) |}. apply from_entropy_spells. cbn [words]. split; [done|].
  apply (encode_words e (sha256 e) _ 0), Forall2_fmap_r, Forall_Forall2_diag, Forall_forall. intros k _. apply ok_or_Ok. unfold word.
  destruct (proj1 (index_to_word_range (read_bits e (sha256 e) (k * 11) 11)) (proj1 (read_bits_spec _ _ _ 11 ltac:(lia)))) as [_ [w ->]].
  done.
Qed.

Lemma validate_checksum_Ok words l u :
  length words = word_count l -> valid_words words ->
  validate_checksum words l = Ok u <-> exists e, spells words e l.
Proof.
  intros Hlen Hv. destruct (entropy_of_spec words l Hv) as (e & He & Hel & Hbits). pose proof (total_bits l) as Ht.
  unfold validate_checksum. rewrite He. cbn [mbind result_bind]. rewrite try_for_Ok, Forall_forall. split.
  - intros H. exists e. split_and!; [done..|]. intros p Hp. rewrite bbit_app, Hel.
    destruct (Nat.ltb_spec p (entropy_bytes l * 8)); [symmetry; by apply Hbits|].
    specialize (H (p - entropy_bytes l * 8)%nat ltac:(apply elem_of_seq; lia)).
    apply reject_if_Ok, negb_false_iff, Z.eqb_eq in H. unfold bit_from_bytes_from_words in H.
    rewrite bit_from_bytes_bbit, bit_of_words_spec in H by lia. apply b2z_inj in H. rewrite H. f_equal. lia.
  - intros (e' & He' & _ & _ & Hb). assert (e' = e) as ->.
    { apply bbit_ext; [congruence|]. intros p Hp. rewrite Hbits, Hb, bbit_app by lia. by destruct (Nat.ltb_spec p (length e' * 8)); [|lia]. }
    intros k [_ Hk]%elem_of_seq. apply reject_if_Ok, negb_false_iff, Z.eqb_eq. unfold bit_from_bytes_from_words.
    rewrite bit_from_bytes_bbit, bit_of_words_spec, Nat.sub_0_r, Hb, bbit_app, Hel by lia.
    destruct (Nat.ltb_spec (entropy_bytes l * 8 + k) (entropy_bytes l * 8)); [lia|]. do 2 f_equal. lia.
Qed.
Lemma parse_spells input p :
  MnemonicPhrase.parse input = Ok p <->
  normalize_mnemonic_words input = words p /\ exists e l, spells (words p) e l.
Proof.
  unfold MnemonicPhrase.parse. set (ws := normalize_mnemonic_words input). clearbody ws. rewrite bind_Ok. setoid_rewrite ok_or_Ok.
  setoid_rewrite from_word_count_Some. destruct p as [ws']. cbn [words]. split.
  - intros (l & Hlen & (u & Hw%validate_words_Ok & (u' & Hc & [= ->])%bind_Ok)%bind_Ok).
    apply validate_checksum_Ok in Hc as [e He]; [|done..]. naive_solver.
  - intros (<- & e & l & Hs). pose proof Hs as (He & Hlen & Hv & Hb). exists l. split; [done|].
    apply bind_Ok. exists tt. split; [by apply validate_words_Ok|]. apply bind_Ok. exists tt.
    split; [|done]. apply validate_checksum_Ok; [done..|]. by exists e.
Qed.
Lemma spells_inj words e1 l1 e2 l2 : spells words e1 l1 -> spells words e2 l2 -> e1 = e2 /\ l1 = l2.
Proof.
  intros (He1 & Hl1 & _ & Hb1) (He2 & Hl2 & _ & Hb2). assert (l1 = l2) as <- by (destruct l1, l2; cbn in *; congruence).
  split; [|done]. pose proof (total_bits l1) as Ht. apply bbit_ext; [congruence|]. intros p Hp.
  specialize (Hb1 p ltac:(lia)). specialize (Hb2 p ltac:(lia)). rewrite bbit_app in Hb1, Hb2.
  destruct (Nat.ltb_spec p (length e1 * 8)), (Nat.ltb_spec p (length e2 * 8)); [congruence|lia..].
Qed.
End phrases.

(** ** The sentence of a phrase *)

Definition is_lower (b : byte) : bool := (97 <=? byte_to_Z b) && (byte_to_Z b <=? 122).
Definition plain_word (w : bytes) : Prop := w <> [] /\ Forall (fun b => is_lower b) w.

Lemma wordlist_plain w i : word_to_index w = Some i -> plain_word w.
Proof.
  intros [Hw _]%word_to_index_Some. unfold index_to_word in Hw. apply list_elem_of_lookup_2 in Hw.
  assert (Forall plain_word WORDLIST) as Hall; [|by eapply Forall_forall in Hall].
  assert (forallb (fun w => negb (bool_decide (w = [])) && forallb is_lower w) WORDLIST = true) as H by (vm_compute; reflexivity).
  apply Forall_forall. intros x Hx. apply list_elem_of_In, (proj1 (forallb_forall _ _) H), andb_true_iff in Hx as [Hne Hl].
  split; [by apply negb_true_iff, bool_decide_eq_false in Hne|]. apply Forall_forall. intros b Hb.
  apply Is_true_eq_left. by apply (proj1 (forallb_forall _ _) Hl), list_elem_of_In.
Qed.

(** No encoding of white space begins or ends with a lower-case letter. *)
Definition starts_other (b : byte) (e : bytes) : bool := match e with [] => false | x :: _ => negb (bool_decide (x = b)) end.
Lemma strip_one_None es b s : forallb (starts_other b) es = true -> strip_one es (b :: s) = None.
Proof.
  induction es as [|e es IH]; [done|]. cbn [forallb strip_one]. intros [He Hes]%andb_true_iff.
  destruct e as [|x e]; [done|]. cbn [starts_other] in He. apply negb_true_iff, bool_decide_eq_false in He.
  rewrite bool_decide_eq_false_2; [by apply IH|]. cbn [length take]. congruence.
Qed.
Lemma lower_starts_other b : is_lower b -> forallb (starts_other b) whitespace = true /\ forallb (starts_other b) (reverse <$> whitespace) = true.
Proof. destruct b; try done; intros _; vm_compute; done. Qed.
Lemma strip_all_lower fuel es b s : forallb (starts_other b) es = true -> strip_all fuel es (b :: s) = b :: s.
Proof. intros H. destruct fuel; [done|]. cbn [strip_all]. by rewrite strip_one_None. Qed.
Lemma trim_plain w : plain_word w -> trim w = w.
Proof.
  intros [Hne Hl]. unfold trim. destruct w as [|b w]; [done|]. rewrite strip_all_lower by (apply lower_starts_other; by inversion Hl).
  destruct (exists_last Hne) as (w' & c & E). rewrite E in Hl |- *. apply Forall_app in Hl as [_ Hc].
  rewrite reverse_app. cbn [reverse rev_append app]. change (reverse [c]) with [c]. cbn [app].
  rewrite strip_all_lower by (apply lower_starts_other; by inversion Hc). by rewrite reverse_cons, reverse_involutive.
Qed.
Lemma trim_start_while_none p b s : p b = false -> trim_start_while p (b :: s) = b :: s.
Proof. intros H. cbn. by rewrite H. Qed.
Lemma trim_while_none p w : Forall (fun b => p b = false) w -> trim_while p w = w.
Proof.
  intros Hw. unfold trim_while. assert (forall s, Forall (fun b => p b = false) s -> trim_start_while p s = s) as H.
  { intros s Hs. destruct Hs as [|b s Hb Hs]; [done|]. by apply trim_start_while_none. }
  rewrite (H w), (H (reverse w)) by (try done; by apply Forall_reverse). apply reverse_involutive.
Qed.
Lemma split_ws_word w : forall fuel rest part,
  Forall (fun b => is_lower b) w ->
  split_ws (length w + fuel) (w ++ rest) part = split_ws fuel rest (part ++ w).
Proof.
  induction w as [|b w IH]; intros fuel rest part Hw; cbn [length app]; [by rewrite app_nil_r|].
  apply Forall_cons in Hw as [Hb Hw]. cbn [Nat.add split_ws]. rewrite strip_one_None by by apply lower_starts_other.
  rewrite IH by done. by rewrite <- app_assoc.
Qed.
Lemma split_ws_space fuel rest part : split_ws (S fuel) (x20 :: rest) part = emit part (split_ws fuel rest []).
Proof. done. Qed.
Lemma split_whitespace_join ws : Forall plain_word ws -> split_whitespace (join [x20] ws) = ws.
Proof.
  intros Hws. unfold split_whitespace. induction Hws as [|w ws [Hne Hw] Hws IH]; [done|].
  destruct ws as [|w' ws].
  - cbn [join]. pose proof (split_ws_word w 0 [] [] Hw) as E. rewrite Nat.add_0_r, app_nil_r in E. rewrite E. cbn. by destruct w.
  - change (join [x20] (w :: w' :: ws)) with (w ++ x20 :: join [x20] (w' :: ws)). rewrite length_app. cbn [length].
    rewrite split_ws_word, split_ws_space by done. rewrite IH. by destruct w.
Qed.

Section sentence.
Context `{Hs2 : Sha2, Hl : Lowercase, !LowercaseLaws Hl}.

Lemma normalize_plain w : plain_word w -> normalize_mnemonic_token w = Some w.
Proof.
  intros Hp. pose proof Hp as [Hne Hw]. unfold normalize_mnemonic_token. rewrite trim_plain by done.
  rewrite to_lowercase_ascii by (eapply Forall_impl; [exact Hw|]; intros b; by destruct b).
  assert (to_ascii_lowercase w = w) as ->.
  { unfold to_ascii_lowercase. rewrite <- (list_fmap_id w) at 2. apply Forall_fmap_ext_1. eapply Forall_impl; [exact Hw|].
    intros b Hb. by destruct b. }
  rewrite bool_decide_eq_false_2 by done. destruct w as [|b w]; [done|]. apply Forall_cons in Hw as Hbw. destruct Hbw as [Hb _].
  rewrite (trim_start_while_none is_ascii_digit) by (by destruct b). rewrite trim_start_while_none by (by destruct b).
  rewrite Nat.ltb_irrefl, andb_false_r, trim_while_none; [by rewrite bool_decide_eq_false_2|].
  eapply Forall_impl; [exact Hw|]. intros x Hx. by destruct x.
Qed.
Lemma normalize_sentence ws : Forall plain_word ws -> normalize_mnemonic_words (join [x20] ws) = ws.
Proof.
  intros Hws. unfold normalize_mnemonic_words. rewrite split_whitespace_join by done.
  induction Hws as [|w ws Hw Hws IH]; [done|]. cbn [omap list_omap]. rewrite normalize_plain by done. cbn [mbind]. by f_equal.
Qed.

(** C35: Entropy of each of the three lengths has a phrase; its sentence parses back
    to it; and the parser accepts exactly the inputs whose words, up to numbering,
    punctuation and case, are the phrase of some entropy — of exactly one. *)
Theorem phrases_are_entropies :
  (forall entropy l, length entropy = entropy_bytes l ->
     exists p, MnemonicPhrase.from_entropy entropy l = Ok p
       /\ MnemonicPhrase.parse (MnemonicPhrase.as_sentence p) = Ok p)
  /\ forall input p, MnemonicPhrase.parse input = Ok p <->
     normalize_mnemonic_words input = words p
     /\ exists entropy l, MnemonicPhrase.from_entropy entropy l = Ok p
       /\ forall entropy' l', MnemonicPhrase.from_entropy entropy' l' = Ok p -> entropy' = entropy /\ l' = l.
Proof.
  split.
  - intros e l He. destruct (from_entropy_total e l He) as [p Hp]. exists p. split; [done|].
    apply from_entropy_spells in Hp. apply parse_spells. split; [|by eauto]. apply normalize_sentence.
    destruct Hp as (_ & _ & Hv & _). eapply Forall_impl; [exact Hv|]. intros w [i Hi]. by eapply wordlist_plain.
  - intros input p. rewrite parse_spells. setoid_rewrite from_entropy_spells. split.
    + intros (Hn & e & l & Hs). split; [done|]. exists e, l. split; [done|]. intros e' l' Hs'. by eapply spells_inj.
    + intros (Hn & e & l & Hs & _). naive_solver.
Qed.
End sentence.

#[local] Instance sha2_zero : Sha2 := {| sha256 _ := zeros 32; pbkdf2_hmac_sha512 _ _ _ := zeros 64 |}.
#[local] Instance lowercase_ascii : Lowercase := {| to_lowercase := to_ascii_lowercase |}.
Lemma lowercase_ascii_laws : LowercaseLaws lowercase_ascii.
Proof. by split. Qed.

Lemma phrases_are_entropies_witness :
  let p := {| words := (str_bytes <$> replicate 12 "abandon")%string |} in
  MnemonicPhrase.from_entropy (zeros 16) Words12 = Ok p
  /\ MnemonicPhrase.parse (str_bytes "1.Abandon 2.abandon 3)ABANDON, 4:abandon; abandon abandon abandon abandon abandon abandon abandon abandon.") = Ok p
  /\ exists entropy l, MnemonicPhrase.from_entropy entropy l = Ok p
     /\ forall entropy' l', MnemonicPhrase.from_entropy entropy' l' = Ok p -> entropy' = entropy /\ l' = l.
Proof.
  split; [vm_compute; reflexivity|]. split; [vm_compute; reflexivity|].
  refine (proj2 (proj1 (proj2 (@phrases_are_entropies sha2_zero lowercase_ascii lowercase_ascii_laws)
    (str_bytes "abandon abandon abandon abandon abandon abandon abandon abandon abandon abandon abandon abandon") _) _)).
  vm_compute. reflexivity.
Defined.

(** The normaliser strips a number with its punctuation and the blank after it from the
    front of a word, but the input has been split at blanks before: a number on its
    own stays, as a word of the phrase, and a numbered list is refused. *)
Theorem numbered_list_refused :
  let accepted := str_bytes "1.abandon 2.abandon 3.abandon 4.abandon 5.abandon 6.abandon 7.abandon 8.abandon 9.abandon 10.abandon 11.abandon 12.abandon" in
  let refused := str_bytes "1. abandon 2. abandon 3. abandon 4. abandon 5. abandon 6. abandon 7. abandon 8. abandon 9. abandon 10. abandon 11. abandon 12. abandon" in
  is_ok (MnemonicPhrase.parse accepted) = true
  /\ MnemonicPhrase.parse refused = Err InvalidWord
  /\ take 4 (normalize_mnemonic_words refused) = (str_bytes <$> ["1"; "abandon"; "2"; "abandon"])%string.
Proof. vm_compute. done. Qed.
