(* ===== verification/Wallet.v ===== *)
(** * The wallet's keys and addresses

    crates/atho-wallet/src: hd.rs, keypool.rs, address_book.rs, snapshot.rs and the
    part of wallet.rs that derives, hands out and finds addresses and saves the
    state. [par_iter().map().collect()] keeps the order: it is [fmap]. Progress
    callbacks are the list of the reports they are called with. *)
From stdpp Require Import options.
From S2P Require Import Prelude Bytes Constants Crypto Keccak Network Transaction Address Falcon Text Mnemonic.

#[local] Set Default Proof Using "Type*".

(** ** Paths and counters *)

(* src: hd.rs:9-13 AddressKind *)
Inductive AddressKind := Receive | Change.
#[global] Instance AddressKind_eq_dec : EqDecision AddressKind.
Proof. solve_decision. Defined.
(* src: hd.rs:15-20 DerivationPath *)
Record DerivationPath := { account : Z; path_kind : AddressKind; path_index : Z }.
#[global] Instance DerivationPath_eq_dec : EqDecision DerivationPath.
Proof. solve_decision. Defined.

(* src: hd.rs:32-37 HdWallet *)
Record HdWallet := { hd_seed : bytes; next_receive_index : Z; next_change_index : Z }.
Module HdWallet.
(* src: hd.rs:40-46 HdWallet::new *)
Definition new (seed : bytes) : HdWallet := {| hd_seed := seed; next_receive_index := 0; next_change_index := 0 |}.
(* src: hd.rs:52-54 HdWallet::counters *)
Definition counters (w : HdWallet) : Z * Z := (next_receive_index w, next_change_index w).
(* src: hd.rs:56-66 HdWallet::with_counters *)
Definition with_counters (seed : bytes) (receive change : Z) : HdWallet :=
  {| hd_seed := seed; next_receive_index := receive; next_change_index := change |}.
(* src: hd.rs:68-89 HdWallet::next_path *)
Definition next_path (w : HdWallet) (kind : AddressKind) : HdWallet * DerivationPath :=
  match kind with
  | Receive =>
      let index := next_receive_index w in
      (with_counters (hd_seed w) (saturating_add U32_MAX index 1) (next_change_index w),
       {| account := 0; path_kind := kind; path_index := index |})
  | Change =>
      let index := next_change_index w in
      (with_counters (hd_seed w) (next_receive_index w) (saturating_add U32_MAX index 1),
       {| account := 0; path_kind := kind; path_index := index |})
  end.
End HdWallet.

(** ** The key pool *)

(* src: keypool.rs:11-11 KEYPOOL_TARGET_SIZE *)
Definition KEYPOOL_TARGET_SIZE : nat := 1024.
(* src: keypool.rs:12-12 PREFILL_PROGRESS_BATCH *)
Definition PREFILL_PROGRESS_BATCH : Z := 64.

(* src: keypool.rs:14-18 Keypool *)
Record Keypool := { receive : list DerivationPath; change : list DerivationPath }.
Module Keypool.
(* src: keypool.rs:21-23 Keypool::new *)
Definition new : Keypool := {| receive := []; change := [] |}.
Definition queue (kind : AddressKind) (p : Keypool) : list DerivationPath :=
  match kind with Receive => receive p | Change => change p end.
Definition with_queue (kind : AddressKind) (p : Keypool) (q : list DerivationPath) : Keypool :=
  match kind with
  | Receive => {| receive := q; change := change p |}
  | Change => {| receive := receive p; change := q |}
  end.
(** The body of the refilling loops. *)
Definition push_next (kind : AddressKind) (p : Keypool) (w : HdWallet) : Keypool * HdWallet :=
  let '(w, path) := HdWallet.next_path w kind in (with_queue kind p (queue kind p ++ [path]), w).
(** [while queue.len() < target]: every round adds one path, so [target] less the
    length is the number of rounds; the test ends the loop ([refill_queue_ends]). *)
Fixpoint refill_loop (rounds : nat) (kind : AddressKind) (target : nat) (p : Keypool) (w : HdWallet) : Keypool * HdWallet :=
  match rounds with
  | O => (p, w)
  | S rounds =>
      if (length (queue kind p) <? target)%nat
      then let '(p, w) := push_next kind p w in refill_loop rounds kind target p w
      else (p, w)
  end.
Definition refill_queue (kind : AddressKind) (target : nat) (p : Keypool) (w : HdWallet) : Keypool * HdWallet :=
  refill_loop (target - length (queue kind p)) kind target p w.
(* src: keypool.rs:25-33 Keypool::refill *)
Definition refill (p : Keypool) (w : HdWallet) (receive_target change_target : nat) : Keypool * HdWallet :=
  let '(p, w) := refill_queue Receive receive_target p w in
  refill_queue Change change_target p w.

(* src: keypool.rs:35-37 Keypool::take_receive *)
Definition take_receive (p : Keypool) : Keypool * option DerivationPath := (with_queue Receive p (tail (receive p)), head (receive p)).
(* src: keypool.rs:39-41 Keypool::take_change *)
Definition take_change (p : Keypool) : Keypool * option DerivationPath := (with_queue Change p (tail (change p)), head (change p)).
(* src: keypool.rs:43-48 Keypool::snapshot *)
Definition snapshot (p : Keypool) : list DerivationPath * list DerivationPath := (receive p, change p).
(* src: keypool.rs:66-71 Keypool::from_snapshot *)
Definition from_snapshot (receive change : list DerivationPath) : Keypool := {| receive := receive; change := change |}.
(* src: keypool.rs:58-60 Keypool::highest_receive_index *)
Definition highest_receive_index (p : Keypool) : option Z := path_index <$> last (receive p).
(* src: keypool.rs:62-64 Keypool::highest_change_index *)
Definition highest_change_index (p : Keypool) : option Z := path_index <$> last (change p).

(** One of the two loops that report. *)
Fixpoint report_loop (rounds : nat) (kind : AddressKind) (total completed : Z) (reports : list (Z * Z))
    (p : Keypool) (w : HdWallet) : Z * list (Z * Z) * (Keypool * HdWallet) :=
  match rounds with
  | O => (completed, reports, (p, w))
  | S rounds =>
      if (length (queue kind p) <? KEYPOOL_TARGET_SIZE)%nat
      then
        let '(p, w) := push_next kind p w in
        let completed := saturating_add USIZE_MAX completed 1 in
        let reports := if (completed mod PREFILL_PROGRESS_BATCH =? 0) || (completed =? total)
                       then reports ++ [(completed, total)] else reports in
        report_loop rounds kind total completed reports p w
      else (completed, reports, (p, w))
  end.
(* src: keypool.rs:77-109 Keypool::refill_to_target_with_progress *)
Definition refill_to_target_with_progress (p : Keypool) (w : HdWallet) : Keypool * HdWallet * list (Z * Z) :=
  let receive_needed := (KEYPOOL_TARGET_SIZE - length (receive p))%nat in
  let change_needed := (KEYPOOL_TARGET_SIZE - length (change p))%nat in
  let total := saturating_add USIZE_MAX (Z.of_nat receive_needed) (Z.of_nat change_needed) in
  if total =? 0 then (p, w, [(0, 0)])
  else
    let '(completed, reports, (p, w)) := report_loop receive_needed Receive total 0 [(0, total)] p w in
    let '(_, reports, (p, w)) :=
      report_loop (KEYPOOL_TARGET_SIZE - length (change p)) Change total completed reports p w in
    (p, w, reports ++ [(total, total)]).
(* src: keypool.rs:73-75 Keypool::refill_to_target *)
Definition refill_to_target (p : Keypool) (w : HdWallet) : Keypool * HdWallet := (refill_to_target_with_progress p w).1.
End Keypool.

(** ** Bookkeeping *)

(* src: address_book.rs:9-14 AddressRecord *)
Record AddressRecord := { ar_network : Network; ar_path : DerivationPath; ar_label : option bytes }.
(* src: address_book.rs:16-19 AddressBook *)
Record AddressBook := { entries : list AddressRecord }.
Module AddressBook.
(* src: address_book.rs:22-24 AddressBook::new *)
Definition new : AddressBook := {| entries := [] |}.
(* src: address_book.rs:26-32 AddressBook::record *)
Definition record (b : AddressBook) (network : Network) (path : DerivationPath) (label : option bytes) : AddressBook :=
  {| entries := entries b ++ [{| ar_network := network; ar_path := path; ar_label := label |}] |}.
(* src: address_book.rs:46-51 AddressBook::count_kind *)
Definition count_kind (b : AddressBook) (kind : AddressKind) : nat :=
  length (filter (fun e => path_kind (ar_path e) = kind) (entries b)).
End AddressBook.

(* src: snapshot.rs:7-11 WalletSnapshot *)
Record WalletSnapshot := { receive_count : Z; change_count : Z }.
Module WalletSnapshot.
Definition default : WalletSnapshot := {| receive_count := 0; change_count := 0 |}.
(* src: snapshot.rs:14-16 WalletSnapshot::record_receive *)
Definition record_receive (s : WalletSnapshot) : WalletSnapshot :=
  {| receive_count := saturating_add U32_MAX (receive_count s) 1; change_count := change_count s |}.
(* src: snapshot.rs:18-20 WalletSnapshot::record_change *)
Definition record_change (s : WalletSnapshot) : WalletSnapshot :=
  {| receive_count := receive_count s; change_count := saturating_add U32_MAX (change_count s) 1 |}.
End WalletSnapshot.

(** ** The wallet *)

(* src: wallet.rs:39-39 DEFAULT_RESTORE_GAP_LIMIT *)
Definition DEFAULT_RESTORE_GAP_LIMIT : Z := 1000.

(* src: wallet.rs:45-56 WalletAddress *)
Record WalletAddress := {
  wa_network : Network;
  wa_path : DerivationPath;
  wa_visible_prefix : byte;
  wa_address : bytes;
  wa_hashed_public_key : bytes;
  wa_public_key : bytes;
  wa_payment_digest : bytes;
  wa_checksum : bytes;
}.
(* src: wallet.rs:129-139 Wallet *)
Record Wallet := {
  wallet_network : Network;
  mnemonic : option MnemonicPhrase;
  hd_wallet : HdWallet;
  keypool : Keypool;
  address_book : AddressBook;
  wallet_snapshot : WalletSnapshot;
  restore_gap_limit : Z;
}.
(* src: wallet.rs:1007-1018 PersistedWalletState *)
Record PersistedWalletState := {
  ps_wallet_seed : bytes;
  ps_mnemonic : option MnemonicPhrase;
  ps_next_receive_index : Z;
  ps_next_change_index : Z;
  ps_restore_gap_limit : Z;
  ps_snapshot : WalletSnapshot;
  ps_address_book : list AddressRecord;
  ps_receive_queue : list DerivationPath;
  ps_change_queue : list DerivationPath;
}.

(** A wallet with another pool and other counters. *)
Definition with_pool (w : Wallet) (pw : Keypool * HdWallet) : Wallet :=
  {| wallet_network := wallet_network w; mnemonic := mnemonic w; hd_wallet := pw.2; keypool := pw.1;
     address_book := address_book w; wallet_snapshot := wallet_snapshot w; restore_gap_limit := restore_gap_limit w |}.

Module Wallet.
Section wallet.
Context `{Hs : Sha3, Hk : FalconSigner, Hs2 : Sha2, Hl : Lowercase}.

(* src: wallet.rs:588-594 Wallet::prefill_with_progress *)
Definition prefill_with_progress (w : Wallet) : Wallet * list (Z * Z) :=
  let '(p, hd, reports) := Keypool.refill_to_target_with_progress (keypool w) (hd_wallet w) in
  (with_pool w (p, hd), reports).

Definition fresh (seed : bytes) (phrase : option MnemonicPhrase) (network : Network) : Wallet :=
  {| wallet_network := network; mnemonic := phrase; hd_wallet := HdWallet.new seed; keypool := Keypool.new;
     address_book := AddressBook.new; wallet_snapshot := WalletSnapshot.default; restore_gap_limit := DEFAULT_RESTORE_GAP_LIMIT |}.
(* src: wallet.rs:153-175 Wallet::from_mnemonic_with_progress *)
Definition from_mnemonic_with_progress (phrase : MnemonicPhrase) (passphrase : bytes) (network : Network) :
    Wallet * list (Z * Z) :=
  let wallet_seed := sha3_256 (MnemonicPhrase.root_seed phrase passphrase) in
  prefill_with_progress (fresh wallet_seed (Some phrase) network).
(* src: wallet.rs:148-151 Wallet::from_mnemonic *)
Definition from_mnemonic (phrase : MnemonicPhrase) (passphrase : bytes) (network : Network) : Wallet :=
  (from_mnemonic_with_progress phrase passphrase network).1.
(* src: wallet.rs:177-190 Wallet::restore_from_phrase *)
Definition restore_from_phrase (phrase passphrase : bytes) (network : Network) : result MnemonicError Wallet :=
  mnemonic ← MnemonicPhrase.parse phrase;
  Ok (from_mnemonic_with_progress mnemonic passphrase network).1.
(* src: wallet.rs:197-212 Wallet::from_seed_with_progress *)
Definition from_seed_with_progress (seed : bytes) (network : Network) : Wallet * list (Z * Z) :=
  prefill_with_progress (fresh seed None network).
(* src: wallet.rs:192-195 Wallet::from_seed *)
Definition from_seed (seed : bytes) (network : Network) : Wallet := (from_seed_with_progress seed network).1.
(* src: wallet.rs:218-220 Wallet::set_restore_gap_limit *)
Definition set_restore_gap_limit (w : Wallet) (limit : Z) : Wallet :=
  {| wallet_network := wallet_network w; mnemonic := mnemonic w; hd_wallet := hd_wallet w; keypool := keypool w;
     address_book := address_book w; wallet_snapshot := wallet_snapshot w; restore_gap_limit := Z.max limit 1 |}.
(* src: wallet.rs:284-287 Wallet::mnemonic_sentence *)
Definition mnemonic_sentence (w : Wallet) : option bytes := MnemonicPhrase.as_sentence <$> mnemonic w.

(** *** Derivation *)

Definition kind_byte (kind : AddressKind) : byte := match kind with Receive => x00 | Change => x01 end.
(** What is hashed to the seed of the key of a path. *)
Definition key_preimage (seed : bytes) (network : Network) (path : DerivationPath) : bytes :=
  seed ++ str_bytes (Network.domain_tag network) ++ le_u32 (account path) ++ [kind_byte (path_kind path)]
  ++ le_u32 (path_index path).
(** [expect]: a digest is not empty, so generation does not fail ([keypair_generated]). *)
(* src: wallet.rs:311-328 Wallet::keypair_for_path *)
Definition keypair_for_path (w : Wallet) (path : DerivationPath) : FalconKeypair :=
  match generate_from_seed (sha3_384 (key_preimage (hd_seed (hd_wallet w)) (wallet_network w) path)) with
  | Ok keypair => keypair
  | Err _ => {| public_key := []; secret_key := [] |}
  end.
(* src: wallet.rs:650-664 Wallet::derive_address *)
Definition derive_address (w : Wallet) (path : DerivationPath) : WalletAddress :=
  let keypair := keypair_for_path w path in
  let parts := address_parts_from_public_key (wallet_network w) (public_key keypair) in
  {| wa_network := wallet_network w;
     wa_path := path;
     wa_visible_prefix := ap_visible_prefix parts;
     wa_address := ap_base56_address parts;
     wa_hashed_public_key := ap_hashed_public_key parts;
     wa_public_key := public_key keypair;
     wa_payment_digest := ap_payment_digest parts;
     wa_checksum := ap_checksum parts |}.
(* src: wallet.rs:307-309 Wallet::address_for_path *)
Definition address_for_path (w : Wallet) (path : DerivationPath) : WalletAddress := derive_address w path.

(** *** Handing addresses out *)

(* src: wallet.rs:596-615 Wallet::checkout *)
Definition checkout (w : Wallet) (kind : AddressKind) (label : option bytes) : Wallet * WalletAddress :=
  let '(pool, taken) := match kind with Receive => Keypool.take_receive (keypool w) | Change => Keypool.take_change (keypool w) end in
  let '(hd, path) := match taken with
                     | Some path => (hd_wallet w, path)
                     | None => HdWallet.next_path (hd_wallet w) kind
                     end in
  let address := derive_address w path in
  let book := AddressBook.record (address_book w) (wallet_network w) path label in
  let '(pool, hd) := Keypool.refill_to_target pool hd in
  let snapshot := match kind with
                  | Receive => WalletSnapshot.record_receive (wallet_snapshot w)
                  | Change => WalletSnapshot.record_change (wallet_snapshot w)
                  end in
  ({| wallet_network := wallet_network w; mnemonic := mnemonic w; hd_wallet := hd; keypool := pool;
      address_book := book; wallet_snapshot := snapshot; restore_gap_limit := restore_gap_limit w |}, address).
(* src: wallet.rs:289-292 Wallet::checkout_receive_address *)
Definition checkout_receive_address (w : Wallet) : Wallet * WalletAddress := checkout w Receive None.
(* src: wallet.rs:294-297 Wallet::checkout_change_address *)
Definition checkout_change_address (w : Wallet) : Wallet * WalletAddress := checkout w Change None.
(* src: wallet.rs:299-301 Wallet::checkout_receive_address_with_label *)
Definition checkout_receive_address_with_label (w : Wallet) (label : option bytes) := checkout w Receive label.
(* src: wallet.rs:303-305 Wallet::checkout_change_address_with_label *)
Definition checkout_change_address_with_label (w : Wallet) (label : option bytes) := checkout w Change label.

(** *** Listing and finding addresses *)

(* src: wallet.rs:461-467 Wallet::all_addresses *)
Definition all_addresses (w : Wallet) : list WalletAddress :=
  (fun r => derive_address w (ar_path r)) <$> entries (address_book w).
(* src: wallet.rs:455-459 Wallet::address_for_payment_digest *)
Definition address_for_payment_digest (w : Wallet) (digest : bytes) : option WalletAddress :=
  head (filter (fun a => wa_payment_digest a = digest) (all_addresses w)).
(* src: wallet.rs:473-475 Wallet::next_indices *)
Definition next_indices (w : Wallet) : Z * Z := HdWallet.counters (hd_wallet w).
(* src: wallet.rs:477-479 Wallet::keypool_depths *)
Definition keypool_depths (w : Wallet) : nat * nat := (length (receive (keypool w)), length (change (keypool w))).
(* src: wallet.rs:481-486 Wallet::highest_reserved_indices *)
Definition highest_reserved_indices (w : Wallet) : option Z * option Z :=
  (Keypool.highest_receive_index (keypool w), Keypool.highest_change_index (keypool w)).
(* src: wallet.rs:488-510 Wallet::highest_generated_indices *)
Definition highest_generated_indices (w : Wallet) : option Z * option Z :=
  foldl (fun '(r, c) e =>
    let index := path_index (ar_path e) in
    let raise h := Some (match h with Some current => Z.max current index | None => index end) in
    match path_kind (ar_path e) with
    | Receive => (raise r, c)
    | Change => (r, raise c)
    end) (None, None) (entries (address_book w)).

(** [for index in 0..limit], left at the first index that is no [u32]. *)
Definition window (limit : Z) : list DerivationPath :=
  index ← seqZ 0 (Z.min limit (U32_MAX + 1));
  [{| account := 0; path_kind := Receive; path_index := index |}; {| account := 0; path_kind := Change; path_index := index |}].
(** [if seen.insert(digest) { addresses.push(address) }]. *)
Definition push_unseen (st : gset bytes * list WalletAddress) (a : WalletAddress) : gset bytes * list WalletAddress :=
  match insert_new (wa_payment_digest a) st.1 with
  | Some seen => (seen, st.2 ++ [a])
  | None => st
  end.
(* src: wallet.rs:512-543 Wallet::discovery_addresses_up_to *)
Definition discovery_addresses_up_to (w : Wallet) (limit : Z) : list WalletAddress :=
  if limit =? 0 then []
  else
    let st := foldl push_unseen (∅, []) (all_addresses w) in
    (foldl push_unseen st (derive_address w <$> window limit)).2.
(* src: wallet.rs:469-471 Wallet::discovery_addresses *)
Definition discovery_addresses (w : Wallet) : list WalletAddress := discovery_addresses_up_to w (restore_gap_limit w).

(** The first of the paths whose address has the digest. *)
Fixpoint find_digest (w : Wallet) (digest : bytes) (paths : list DerivationPath) : option WalletAddress :=
  match paths with
  | [] => None
  | path :: paths =>
      let address := derive_address w path in
      if bool_decide (wa_payment_digest address = digest) then Some address else find_digest w digest paths
  end.
(* src: wallet.rs:545-565 Wallet::discovered_address_for_payment_digest *)
Definition discovered_address_for_payment_digest (w : Wallet) (digest : bytes) : option WalletAddress :=
  if negb (bool_decide (length digest = 32%nat)) then None
  else find_digest w digest (window (restore_gap_limit w)).

(* src: wallet.rs:617-633 Wallet::preview_addresses *)
Definition preview_addresses (w : Wallet) (kind : AddressKind) (limit : nat) : list WalletAddress :=
  if (limit =? 0)%nat then []
  else
    let '(receive_queue, change_queue) := Keypool.snapshot (keypool w) in
    let queue := match kind with Receive => receive_queue | Change => change_queue end in
    derive_address w <$> take limit queue.
(* src: wallet.rs:635-648 Wallet::generated_addresses *)
Definition generated_addresses (w : Wallet) (kind : AddressKind) (limit : nat) : list WalletAddress :=
  if (limit =? 0)%nat then []
  else (fun r => derive_address w (ar_path r)) <$> take limit (filter (fun r => path_kind (ar_path r) = kind) (entries (address_book w))).

(** *** Saving *)

(** [as u32] keeps the low 32 bits. *)
(* src: wallet.rs:666-680 Wallet::capture_state *)
Definition capture_state (w : Wallet) : PersistedWalletState :=
  let '(next_receive_index, next_change_index) := HdWallet.counters (hd_wallet w) in
  let '(receive_queue, change_queue) := Keypool.snapshot (keypool w) in
  {| ps_wallet_seed := hd_seed (hd_wallet w);
     ps_mnemonic := mnemonic w;
     ps_next_receive_index := next_receive_index;
     ps_next_change_index := next_change_index;
     ps_restore_gap_limit := restore_gap_limit w mod 2 ^ 32;
     ps_snapshot := wallet_snapshot w;
     ps_address_book := entries (address_book w);
     ps_receive_queue := receive_queue;
     ps_change_queue := change_queue |}.
(* src: wallet.rs:691-717 Wallet::from_state_with_progress *)
Definition from_state_with_progress (network : Network) (phrase : option MnemonicPhrase) (state : PersistedWalletState) :
    Wallet * list (Z * Z) :=
  prefill_with_progress
    {| wallet_network := network;
       mnemonic := match phrase with Some p => Some p | None => ps_mnemonic state end;
       hd_wallet := HdWallet.with_counters (ps_wallet_seed state) (ps_next_receive_index state) (ps_next_change_index state);
       keypool := Keypool.from_snapshot (ps_receive_queue state) (ps_change_queue state);
       address_book := {| entries := ps_address_book state |};
       wallet_snapshot := ps_snapshot state;
       restore_gap_limit := ps_restore_gap_limit state |}.
(* src: wallet.rs:682-689 Wallet::from_state *)
Definition from_state (network : Network) (phrase : option MnemonicPhrase) (state : PersistedWalletState) : Wallet :=
  (from_state_with_progress network phrase state).1.
End wallet.
End Wallet.

(** ** The pool holds consecutive paths *)

Lemma keypool_pos : (0 < KEYPOOL_TARGET_SIZE)%nat.
Proof. apply Nat.ltb_lt. vm_compute. reflexivity. Qed.
#[local] Opaque KEYPOOL_TARGET_SIZE.

Definition path_at (kind : AddressKind) (i : Z) : DerivationPath := {| account := 0; path_kind := kind; path_index := i |}.
Definition paths (kind : AddressKind) (from : Z) (n : nat) : list DerivationPath :=
  (fun i => path_at kind (from + Z.of_nat i)) <$> seq 0 n.
Definition counter (kind : AddressKind) (w : HdWallet) : Z :=
  match kind with Receive => next_receive_index w | Change => next_change_index w end.
Definition set_counter (kind : AddressKind) (w : HdWallet) (i : Z) : HdWallet :=
  match kind with
  | Receive => HdWallet.with_counters (hd_seed w) i (next_change_index w)
  | Change => HdWallet.with_counters (hd_seed w) (next_receive_index w) i
  end.

Lemma paths_length kind a n : length (paths kind a n) = n.
Proof. unfold paths. by rewrite length_fmap, length_seq. Qed.
Lemma paths_cons kind a n : paths kind a (S n) = path_at kind a :: paths kind (a + 1) n.
Proof.
  unfold paths. cbn [seq fmap list_fmap]. f_equal; [f_equal; lia|]. rewrite <- fmap_S_seq, <- list_fmap_compose.
  apply list_fmap_ext. intros _ i _. cbn. f_equal. lia.
Qed.
Lemma paths_snoc kind a n : paths kind a (S n) = paths kind a n ++ [path_at kind (a + Z.of_nat n)].
Proof. unfold paths. by rewrite seq_S, fmap_app. Qed.
Lemma paths_app kind a n m : paths kind a (n + m) = paths kind a n ++ paths kind (a + Z.of_nat n) m.
Proof.
  unfold paths. rewrite seq_app, fmap_app. f_equal. cbn [Nat.add].
  apply list_eq. intros i. rewrite !list_lookup_fmap. destruct (decide (i < m)%nat).
  - rewrite !lookup_seq_lt by done. cbn. do 2 f_equal. lia.
  - by rewrite !lookup_seq_ge by lia.
Qed.

Lemma next_path_at kind w :
  HdWallet.next_path w kind = (set_counter kind w (saturating_add U32_MAX (counter kind w) 1), path_at kind (counter kind w)).
Proof. by destruct kind. Qed.
Lemma push_next_at kind p w :
  Keypool.push_next kind p w =
  (Keypool.with_queue kind p (Keypool.queue kind p ++ [path_at kind (counter kind w)]),
   set_counter kind w (saturating_add U32_MAX (counter kind w) 1)).
Proof. unfold Keypool.push_next. by rewrite next_path_at. Qed.
Lemma queue_with_queue kind p q : Keypool.queue kind (Keypool.with_queue kind p q) = q.
Proof. by destruct kind. Qed.
Lemma with_queue_twice kind p q q' : Keypool.with_queue kind (Keypool.with_queue kind p q) q' = Keypool.with_queue kind p q'.
Proof. by destruct kind. Qed.
Lemma with_queue_same kind p : Keypool.with_queue kind p (Keypool.queue kind p) = p.
Proof. by destruct kind, p. Qed.
Lemma counter_set kind w i : counter kind (set_counter kind w i) = i.
Proof. by destruct kind. Qed.
Lemma set_counter_twice kind w i j : set_counter kind (set_counter kind w i) j = set_counter kind w j.
Proof. by destruct kind. Qed.
Lemma set_counter_same kind w : set_counter kind w (counter kind w) = w.
Proof. by destruct kind, w. Qed.

(** The loop ends because its test fails, not because it runs out of rounds. *)
Lemma refill_loop_ends rounds kind target p w :
  (target <= length (Keypool.queue kind p) + rounds)%nat ->
  (target <= length (Keypool.queue kind (Keypool.refill_loop rounds kind target p w).1))%nat.
Proof.
  revert p w. induction rounds as [|rounds IH]; intros p w Hle; cbn [Keypool.refill_loop]; [cbn; lia|].
  destruct (Nat.ltb_spec (length (Keypool.queue kind p)) target); [|done].
  rewrite push_next_at. apply IH. rewrite queue_with_queue, length_app. cbn. lia.
Qed.
Lemma refill_queue_ends kind target p w :
  (target <= length (Keypool.queue kind (Keypool.refill_queue kind target p w).1))%nat.
Proof. apply refill_loop_ends. lia. Qed.
(** Away from the last index a refilling appends consecutive paths. *)
Lemma refill_loop_paths rounds kind target : forall p w,
  rounds = (target - length (Keypool.queue kind p))%nat -> counter kind w + Z.of_nat rounds <= U32_MAX ->
  Keypool.refill_loop rounds kind target p w =
  (Keypool.with_queue kind p (Keypool.queue kind p ++ paths kind (counter kind w) rounds),
   set_counter kind w (counter kind w + Z.of_nat rounds)).
Proof.
  induction rounds as [|rounds IH]; intros p w Hr Hc; cbn [Keypool.refill_loop].
  { rewrite Z.add_0_r, set_counter_same. cbn. by rewrite app_nil_r, with_queue_same. }
  rewrite (proj2 (Nat.ltb_lt _ _)) by lia. rewrite push_next_at, IH.
  - rewrite queue_with_queue, with_queue_twice, counter_set, set_counter_twice, paths_cons, <- app_assoc.
    unfold saturating_add. rewrite Z.min_r by lia. cbn [app]. do 2 f_equal. lia.
  - rewrite queue_with_queue, length_app. cbn. lia.
  - rewrite counter_set. unfold saturating_add. lia.
Qed.

(** Reporting changes nothing. *)
Lemma report_loop_refill rounds kind total : forall completed reports p w,
  (Keypool.report_loop rounds kind total completed reports p w).2 = Keypool.refill_loop rounds kind KEYPOOL_TARGET_SIZE p w.
Proof.
  induction rounds as [|rounds IH]; intros completed reports p w; [done|]. cbn [Keypool.report_loop Keypool.refill_loop].
  destruct (_ <? _)%nat; [|done]. rewrite push_next_at. apply IH.
Qed.
Lemma refill_to_target_eq p w :
  Keypool.refill_to_target p w = Keypool.refill p w KEYPOOL_TARGET_SIZE KEYPOOL_TARGET_SIZE.
Proof.
  unfold Keypool.refill_to_target, Keypool.refill_to_target_with_progress, Keypool.refill, Keypool.refill_queue.
  cbn [Keypool.queue]. set (rn := (KEYPOOL_TARGET_SIZE - length (receive p))%nat). set (total := saturating_add _ _ _).
  destruct (total =? 0) eqn:E.
  - apply Z.eqb_eq in E. unfold total, saturating_add, USIZE_MAX in E. assert (rn = 0%nat) as -> by lia. cbn [Keypool.refill_loop].
    replace (KEYPOOL_TARGET_SIZE - length (change p))%nat with 0%nat by lia. done.
  - pose proof (report_loop_refill rn Receive total 0 [(0, total)] p w) as H1.
    destruct (Keypool.report_loop rn Receive total 0 [(0, total)] p w) as [[completed reports] [p1 w1]]. cbn [snd] in H1. rewrite <- H1.
    pose proof (report_loop_refill (KEYPOOL_TARGET_SIZE - length (change p1)) Change total completed reports p1 w1) as H2.
    destruct (Keypool.report_loop _ Change total completed reports p1 w1) as [[completed' reports'] [p2 w2]]. cbn [snd] in H2. by rewrite <- H2.
Qed.

(** ** Addresses are handed out in order *)

Section checkouts.
Context `{Hs : Sha3, Hk : FalconSigner, Hs2 : Sha2, Hl : Lowercase}.

(** What a user does with a wallet: take an address, restart (the saved state is
    loaded), set the gap limit. *)
Inductive wallet_op := TakeAddress (kind : AddressKind) (label : option bytes) | Restart | SetGapLimit (limit : Z).
Definition wallet_step (w : Wallet) (op : wallet_op) : Wallet * list WalletAddress :=
  match op with
  | TakeAddress kind label => let '(w, address) := Wallet.checkout w kind label in (w, [address])
  | Restart => (Wallet.from_state (wallet_network w) (mnemonic w) (Wallet.capture_state w), [])
  | SetGapLimit limit => (Wallet.set_restore_gap_limit w limit, [])
  end.
Fixpoint wallet_run (w : Wallet) (ops : list wallet_op) : Wallet * list WalletAddress :=
  match ops with
  | [] => (w, [])
  | op :: ops =>
      let '(w, out) := wallet_step w op in
      let '(w, outs) := wallet_run w ops in (w, out ++ outs)
  end.
Definition takes (op : wallet_op) : option AddressKind := match op with TakeAddress kind _ => Some kind | _ => None end.
Definition taken (kind : AddressKind) (ops : list wallet_op) : nat := length (filter (fun op => takes op = Some kind) ops).

(** The pool holds the paths from [next kind] on; the addresses before are in the book. *)
Definition in_order (seed : bytes) (network : Network) (next : AddressKind -> nat) (w : Wallet) : Prop :=
  hd_seed (hd_wallet w) = seed /\ wallet_network w = network
  /\ forall kind, Keypool.queue kind (keypool w) = paths kind (Z.of_nat (next kind)) KEYPOOL_TARGET_SIZE
       /\ counter kind (hd_wallet w) = Z.of_nat (next kind + KEYPOOL_TARGET_SIZE)
       /\ filter (fun p => path_kind p = kind) (ar_path <$> entries (address_book w)) = paths kind 0 (next kind).

Lemma refill_full p w : (forall kind, length (Keypool.queue kind p) = KEYPOOL_TARGET_SIZE) -> Keypool.refill_to_target p w = (p, w).
Proof.
  intros Hq. rewrite refill_to_target_eq. unfold Keypool.refill, Keypool.refill_queue.
  rewrite (Hq Receive), Nat.sub_diag. cbn [Keypool.refill_loop]. by rewrite (Hq Change), Nat.sub_diag.
Qed.
(** A pool that is short of one path of a kind gets it. *)
Lemma refill_one kind p w a :
  (forall k, Keypool.queue k p = paths k (a k) (if decide (k = kind) then KEYPOOL_TARGET_SIZE - 1 else KEYPOOL_TARGET_SIZE)) ->
  counter kind w = a kind + Z.of_nat (KEYPOOL_TARGET_SIZE - 1) -> counter kind w + 1 <= U32_MAX ->
  Keypool.refill_to_target p w =
  (Keypool.with_queue kind p (paths kind (a kind) KEYPOOL_TARGET_SIZE), set_counter kind w (counter kind w + 1)).
Proof.
  intros Hq Hc Hmax. rewrite refill_to_target_eq. unfold Keypool.refill, Keypool.refill_queue.
  assert (KEYPOOL_TARGET_SIZE - (KEYPOOL_TARGET_SIZE - 1) = 1)%nat as H1 by (pose proof keypool_pos; lia).
  assert (forall k p', Keypool.queue k p' = paths k (a k) KEYPOOL_TARGET_SIZE -> forall w', Keypool.refill_loop
    (KEYPOOL_TARGET_SIZE - length (Keypool.queue k p')) k KEYPOOL_TARGET_SIZE p' w' = (p', w')) as Hfull.
  { intros k p' -> w'. by rewrite paths_length, Nat.sub_diag. }
  assert (Keypool.refill_loop (KEYPOOL_TARGET_SIZE - length (Keypool.queue kind p)) kind KEYPOOL_TARGET_SIZE p w =
    (Keypool.with_queue kind p (paths kind (a kind) KEYPOOL_TARGET_SIZE), set_counter kind w (counter kind w + 1))) as Hone.
  { specialize (Hq kind). rewrite decide_True in Hq by done. rewrite Hq, paths_length, H1.
    rewrite refill_loop_paths by first [by rewrite Hq, paths_length | lia]. rewrite Hq, Hc.
    assert (KEYPOOL_TARGET_SIZE - 1 + 1 = KEYPOOL_TARGET_SIZE)%nat as E by (pose proof keypool_pos; lia).
    by rewrite <- paths_app, E. }
  destruct kind.
  - rewrite Hone. apply Hfull. apply (Hq Change).
  - rewrite (Hfull Receive p) by apply (Hq Receive). exact Hone.
Qed.

Definition bump_kind (kind : AddressKind) (next : AddressKind -> nat) : AddressKind -> nat :=
  fun k => if decide (k = kind) then S (next k) else next k.

Lemma checkout_in_order seed network next w kind label :
  in_order seed network next w -> Z.of_nat (next kind + KEYPOOL_TARGET_SIZE) + 1 <= U32_MAX ->
  exists w', Wallet.checkout w kind label = (w', Wallet.derive_address w (path_at kind (Z.of_nat (next kind))))
    /\ in_order seed network (bump_kind kind next) w'
    /\ entries (address_book w') = entries (address_book w) ++ [{| ar_network := network; ar_path := path_at kind (Z.of_nat (next kind)); ar_label := label |}].
Proof.
  intros (Hseed & Hnet & Hk') Hmax. destruct (Hk' kind) as (Hq & Hc & _).
  replace KEYPOOL_TARGET_SIZE with (S (KEYPOOL_TARGET_SIZE - 1)) in Hq at 1 by (pose proof keypool_pos; lia). rewrite paths_cons in Hq.
  set (pool := Keypool.with_queue kind (keypool w) (paths kind (Z.of_nat (next kind) + 1) (KEYPOOL_TARGET_SIZE - 1))).
  assert ((match kind with Receive => Keypool.take_receive (keypool w) | Change => Keypool.take_change (keypool w) end)
    = (pool, Some (path_at kind (Z.of_nat (next kind))))) as Htake.
  { unfold pool, Keypool.take_receive, Keypool.take_change. destruct kind; cbn [Keypool.queue] in Hq; by rewrite Hq. }
  pose proof (refill_one kind pool (hd_wallet w) (fun k => Z.of_nat (bump_kind kind next k))) as Hr.
  unfold Wallet.checkout. rewrite Htake. cbn [fst snd]. rewrite Hr; clear Hr.
  - eexists. split; [by rewrite Hnet|]. split; [|done]. unfold in_order. cbn [hd_wallet wallet_network keypool address_book entries].
    split; [by destruct kind|]. split; [done|]. intros k. destruct (Hk' k) as (Hqk & Hck & Hbk).
    cbn [AddressBook.record entries]. rewrite fmap_app, filter_app, Hbk. unfold bump_kind. cbn [fmap list_fmap ar_path].
    destruct (decide (k = kind)) as [->|Hne].
    + rewrite decide_True by done. unfold pool. rewrite with_queue_twice, queue_with_queue, counter_set, Hck. split_and!; [done|lia|].
      rewrite filter_cons_True by done. by rewrite paths_snoc, filter_nil, Z.add_0_l.
    + rewrite filter_cons_False by (cbn; congruence). rewrite filter_nil, app_nil_r.
      split_and!; [|by destruct k, kind|done]. unfold pool. rewrite with_queue_twice. by destruct k, kind.
  - intros k. unfold pool, bump_kind. destruct (decide (k = kind)) as [->|Hne].
    + rewrite queue_with_queue. f_equal. lia.
    + destruct (Hk' k) as (Hqk & _). by destruct k, kind.
  - rewrite Hc. unfold bump_kind. rewrite decide_True by done. pose proof keypool_pos. lia.
  - lia.
Qed.

Lemma in_order_full seed network next w kind :
  in_order seed network next w -> length (Keypool.queue kind (keypool w)) = KEYPOOL_TARGET_SIZE.
Proof. intros (_ & _ & Hk'). destruct (Hk' kind) as (-> & _). apply paths_length. Qed.
Lemma in_order_ext seed network next next' w :
  (forall kind, next kind = next' kind) -> in_order seed network next w -> in_order seed network next' w.
Proof. intros He (H1 & H2 & H3). split_and!; [done..|]. intros kind. rewrite <- He. apply H3. Qed.
(** A restart gives back the wallet, but for a gap limit past 32 bits. *)
Lemma restart_keeps w :
  (forall kind, length (Keypool.queue kind (keypool w)) = KEYPOOL_TARGET_SIZE) ->
  Wallet.from_state (wallet_network w) (mnemonic w) (Wallet.capture_state w) =
  {| wallet_network := wallet_network w; mnemonic := mnemonic w; hd_wallet := hd_wallet w; keypool := keypool w;
     address_book := address_book w; wallet_snapshot := wallet_snapshot w; restore_gap_limit := restore_gap_limit w mod 2 ^ 32 |}.
Proof.
  intros Hq. unfold Wallet.from_state, Wallet.from_state_with_progress, Wallet.prefill_with_progress. cbn [keypool hd_wallet].
  pose proof (refill_full (keypool w) (hd_wallet w) Hq) as Hr. unfold Keypool.refill_to_target in Hr.
  destruct w as [net m [seed r c] [rq cq] [es] snap gap]. cbn in Hr |- *.
  destruct (Keypool.refill_to_target_with_progress _ _) as [[p hd] reports]. cbn [fst] in Hr. injection Hr as -> ->. cbn. by destruct m.
Qed.
Lemma derive_address_same w w' path :
  hd_seed (hd_wallet w) = hd_seed (hd_wallet w') -> wallet_network w = wallet_network w' ->
  Wallet.derive_address w path = Wallet.derive_address w' path.
Proof. intros Hse Hnet. unfold Wallet.derive_address, Wallet.keypair_for_path. by rewrite Hse, Hnet. Qed.

Lemma taken_cons kind op ops :
  taken kind (op :: ops) = ((if decide (takes op = Some kind) then 1 else 0) + taken kind ops)%nat.
Proof. unfold taken. rewrite filter_cons. by destruct (decide _). Qed.

Lemma step_in_order seed network next w op :
  in_order seed network next w -> (forall kind, Z.of_nat (next kind + taken kind [op] + KEYPOOL_TARGET_SIZE) <= U32_MAX) ->
  exists w' out, wallet_step w op = (w', out)
    /\ in_order seed network (fun kind => next kind + taken kind [op])%nat w'
    /\ (ar_path <$> entries (address_book w')) = (ar_path <$> entries (address_book w)) ++ (wa_path <$> out)
    /\ (forall kind, filter (fun p => path_kind p = kind) (wa_path <$> out) = paths kind (Z.of_nat (next kind)) (taken kind [op]))
    /\ out = Wallet.derive_address w <$> (wa_path <$> out).
Proof.
  intros Hi Hmax. destruct op as [kind label| |limit]; cbn [wallet_step].
  - assert (taken kind [TakeAddress kind label] = 1)%nat as Ht by (rewrite taken_cons, decide_True by done; done).
    destruct (checkout_in_order seed network next w kind label Hi) as (w' & -> & Hi' & He).
    { specialize (Hmax kind). lia. }
    exists w', [Wallet.derive_address w (path_at kind (Z.of_nat (next kind)))]. split; [done|]. split_and!.
    + apply (in_order_ext _ _ (bump_kind kind next)); [|done]. intros k. unfold bump_kind. rewrite taken_cons. cbn [takes].
      destruct (decide (k = kind)) as [->|]; [rewrite decide_True by done|rewrite decide_False by congruence]; cbn; lia.
    + by rewrite He, fmap_app.
    + intros k. cbn [fmap list_fmap wa_path Wallet.derive_address]. rewrite taken_cons, filter_cons, filter_nil. cbn [takes path_kind path_at].
      destruct (decide (kind = k)) as [->|]; [rewrite decide_True by done|rewrite decide_False by congruence]; [|done].
      cbn. by rewrite Z.add_0_r.
    + done.
  - assert (forall kind, taken kind [Restart] = 0%nat) as Ht by done.
    exists (Wallet.from_state (wallet_network w) (mnemonic w) (Wallet.capture_state w)), []. split; [done|].
    rewrite restart_keeps by (intros kind; by eapply in_order_full). split_and!.
    + apply (in_order_ext _ _ next); [intros kind; by rewrite Ht, Nat.add_0_r|done].
    + by rewrite app_nil_r.
    + intros kind. by rewrite Ht.
    + done.
  - assert (forall kind, taken kind [SetGapLimit limit] = 0%nat) as Ht by done.
    exists (Wallet.set_restore_gap_limit w limit), []. split; [done|]. split_and!.
    + apply (in_order_ext _ _ next); [intros kind; by rewrite Ht, Nat.add_0_r|done].
    + by rewrite app_nil_r.
    + intros kind. by rewrite Ht.
    + done.
Qed.
Lemma run_in_order seed network ops : forall next w,
  in_order seed network next w -> (forall kind, Z.of_nat (next kind + taken kind ops + KEYPOOL_TARGET_SIZE) <= U32_MAX) ->
  exists w' out, wallet_run w ops = (w', out)
    /\ in_order seed network (fun kind => next kind + taken kind ops)%nat w'
    /\ (ar_path <$> entries (address_book w')) = (ar_path <$> entries (address_book w)) ++ (wa_path <$> out)
    /\ (forall kind, filter (fun p => path_kind p = kind) (wa_path <$> out) = paths kind (Z.of_nat (next kind)) (taken kind ops))
    /\ out = Wallet.derive_address w <$> (wa_path <$> out).
Proof.
  induction ops as [|op ops IH]; intros next w Hi Hmax.
  { exists w, []. split; [done|]. split_and!; [|by rewrite app_nil_r|done|done].
    apply (in_order_ext _ _ next); [intros kind; unfold taken; cbn; lia|done]. }
  assert (forall kind, taken kind (op :: ops) = taken kind [op] + taken kind ops)%nat as Ht by (intros kind; rewrite !taken_cons; unfold taken at 2; cbn; lia).
  destruct (step_in_order seed network next w op Hi) as (w1 & out1 & Hs1 & Hi1 & He1 & Hp1 & Hd1).
  { intros kind. specialize (Hmax kind). rewrite Ht in Hmax. lia. }
  destruct (IH _ w1 Hi1) as (w2 & out2 & Hs2' & Hi2 & He2 & Hp2 & Hd2).
  { intros kind. specialize (Hmax kind). rewrite Ht in Hmax. lia. }
  exists w2, (out1 ++ out2). cbn [wallet_run]. rewrite Hs1, Hs2'. split; [done|]. split_and!.
  - eapply in_order_ext; [|exact Hi2]. intros kind. cbn beta. rewrite Ht. lia.
  - by rewrite He2, He1, fmap_app, app_assoc.
  - intros kind. rewrite fmap_app, filter_app, Hp1, Hp2, Ht, paths_app. do 2 f_equal. lia.
  - rewrite !fmap_app. f_equal; [done|]. rewrite Hd2 at 1. apply list_fmap_ext. intros _ path _.
    destruct Hi as (? & ? & _), Hi1 as (? & ? & _). apply derive_address_same; congruence.
Qed.

Lemma prefill_in_order seed network phrase :
  in_order seed network (fun _ => O) (Wallet.prefill_with_progress (Wallet.fresh seed phrase network)).1.
Proof.
  assert ((Wallet.prefill_with_progress (Wallet.fresh seed phrase network)).1
    = with_pool (Wallet.fresh seed phrase network) (Keypool.refill_to_target Keypool.new (HdWallet.new seed))) as ->.
  { unfold Wallet.prefill_with_progress, Keypool.refill_to_target. cbn [Wallet.fresh keypool hd_wallet].
    by destruct (Keypool.refill_to_target_with_progress _ _) as [[? ?] ?]. }
  rewrite refill_to_target_eq. unfold Keypool.refill, Keypool.refill_queue.
  rewrite (refill_loop_paths _ Receive) by done. rewrite (refill_loop_paths _ Change) by done.
  split; [done|]. split; [done|]. by intros [].
Qed.

Lemma from_seed_in_order seed network : in_order seed network (fun _ => O) (Wallet.from_seed seed network).
Proof. apply prefill_in_order. Qed.

Lemma preview_in_order seed network next w kind n :
  in_order seed network next w -> (n <= KEYPOOL_TARGET_SIZE)%nat ->
  Wallet.preview_addresses w kind n = Wallet.derive_address w <$> paths kind (Z.of_nat (next kind)) n.
Proof.
  intros (_ & _ & Hk') Hn. destruct (Hk' kind) as (Hq & _ & _). clear Hk'. unfold Wallet.preview_addresses.
  destruct n as [|n]; [reflexivity|]. cbn [Nat.eqb Keypool.snapshot].
  assert ((match kind with Receive => receive (keypool w) | Change => change (keypool w) end) = Keypool.queue kind (keypool w)) as -> by by destruct kind.
  rewrite Hq. assert (KEYPOOL_TARGET_SIZE = S n + (KEYPOOL_TARGET_SIZE - S n))%nat as E by lia.
  rewrite E, paths_app, take_app_length' by (symmetry; apply paths_length). reflexivity.
Qed.

(** C36: Whatever a wallet is used for, restarts included, the addresses it hands out
    are, kind by kind, those of the indices 0, 1, 2, …: none is skipped and none
    handed out twice; each is derived from the wallet's seed, the book records them
    in order, and the previews list what comes next. Two wallets of one seed and
    network give the same addresses. *)
Theorem addresses_in_order seed network ops :
  (forall kind, Z.of_nat (taken kind ops + KEYPOOL_TARGET_SIZE) <= U32_MAX) ->
  let w0 := Wallet.from_seed seed network in
  let '(w, out) := wallet_run w0 ops in
  (forall kind, filter (fun p => path_kind p = kind) (wa_path <$> out) = paths kind 0 (taken kind ops))
  /\ out = Wallet.derive_address w0 <$> (wa_path <$> out)
  /\ (ar_path <$> entries (address_book w)) = wa_path <$> out
  /\ forall kind n, (n <= KEYPOOL_TARGET_SIZE)%nat ->
     Wallet.preview_addresses w kind n = Wallet.derive_address w0 <$> paths kind (Z.of_nat (taken kind ops)) n.
Proof.
  intros Hmax w0. pose proof (from_seed_in_order seed network) as H0.
  destruct (run_in_order seed network ops _ w0 H0 Hmax) as (w & out & Hrun & Hi & He & Hp & Hd). rewrite Hrun.
  split; [exact Hp|]. split; [exact Hd|]. split; [exact He|]. intros kind n Hn. rewrite (preview_in_order _ _ _ _ _ _ Hi Hn).
  apply list_fmap_ext. intros _ path _. destruct H0 as (Hse0 & Hn0 & _), Hi as (Hse & Hn' & _).
  apply derive_address_same; [rewrite Hse; symmetry; exact Hse0|rewrite Hn'; symmetry; exact Hn0].
Qed.
End checkouts.

Lemma push_unseen_eq seen acc a :
  Wallet.push_unseen (seen, acc) a =
  if decide (wa_payment_digest a ∈ seen) then (seen, acc) else ({[wa_payment_digest a]} ∪ seen, acc ++ [a]).
Proof. unfold Wallet.push_unseen, insert_new. cbn [fst snd]. by destruct (decide _). Qed.
Lemma push_unseen_spec l : forall seen acc seen' acc',
  seen = list_to_set (wa_payment_digest <$> acc) -> NoDup (wa_payment_digest <$> acc) ->
  foldl Wallet.push_unseen (seen, acc) l = (seen', acc') ->
  seen' = list_to_set (wa_payment_digest <$> acc') /\ NoDup (wa_payment_digest <$> acc')
  /\ (forall d, d ∈ wa_payment_digest <$> acc' <-> d ∈ wa_payment_digest <$> acc \/ d ∈ wa_payment_digest <$> l)
  /\ forall a, a ∈ acc' -> a ∈ acc \/ a ∈ l.
Proof.
  induction l as [|a l IH]; intros seen acc seen' acc' Hseen Hnd; cbn [foldl].
  { intros [= <- <-]. split_and!; [done|done| |by left]. intros d. cbn [fmap list_fmap]. rewrite elem_of_nil. tauto. }
  rewrite push_unseen_eq. destruct (decide (wa_payment_digest a ∈ seen)) as [Hin|Hnin].
  - intros H. apply IH in H as (H1 & H2 & H3 & H4); [|done..]. split_and!; [done|done| |].
    + intros d. rewrite H3, fmap_cons, elem_of_cons. subst seen. rewrite elem_of_list_to_set in Hin.
      split; [tauto|]. intros [?|[->|?]]; tauto.
    + intros x Hx. rewrite elem_of_cons. apply H4 in Hx. tauto.
  - intros H. apply IH in H as (H1 & H2 & H3 & H4).
    + split_and!; [done|done| |].
      * intros d. rewrite H3, fmap_app, elem_of_app. cbn [fmap list_fmap]. rewrite !elem_of_cons, elem_of_nil. tauto.
      * intros x Hx. apply H4 in Hx. rewrite elem_of_app, list_elem_of_singleton in Hx. rewrite elem_of_cons. tauto.
    + subst seen. rewrite fmap_app, list_to_set_app_L. cbn [fmap list_fmap list_to_set]. apply leibniz_equiv. rewrite (right_id _ _). apply (comm _).
    + rewrite fmap_app. apply NoDup_app. subst seen. rewrite elem_of_list_to_set in Hnin. split_and!; [done| |apply NoDup_singleton].
      intros x Hx ->%list_elem_of_singleton. done.
Qed.
(** ** Keys *)

Section keys.
Context `{Hs : Sha3, Laws : !Sha3Laws Hs, Hf : FalconBackend, Hk : FalconSigner, Hs2 : Sha2, Hl : Lowercase}.

(** The [expect] of [keypair_for_path] does not fire. *)
Lemma keypair_generated w path :
  generate_from_seed (sha3_384 (Wallet.key_preimage (hd_seed (hd_wallet w)) (wallet_network w) path))
  = Ok (Wallet.keypair_for_path w path).
Proof.
  unfold Wallet.keypair_for_path, generate_from_seed. set (d := sha3_384 _).
  assert (length d = 48%nat) as Hd by apply sha3_384_length. rewrite bool_decide_eq_false_2 by (intros E; by rewrite E in Hd).
  by destruct (keygen (init_rng d)).
Qed.

Lemma derived_digest w path :
  wa_payment_digest (Wallet.derive_address w path) = public_key_digest (wallet_network w) (public_key (Wallet.keypair_for_path w path)).
Proof. done. Qed.
Lemma derived_digest_length w path : length (wa_payment_digest (Wallet.derive_address w path)) = 32%nat.
Proof. rewrite derived_digest. apply sha3_256_length. Qed.

Lemma kind_byte_inj k k' : Wallet.kind_byte k = Wallet.kind_byte k' -> k = k'.
Proof. by destruct k, k'. Qed.
Lemma path_bytes_inj p p' :
  is_u32 (account p) -> is_u32 (path_index p) -> is_u32 (account p') -> is_u32 (path_index p') ->
  le_u32 (account p) ++ [Wallet.kind_byte (path_kind p)] ++ le_u32 (path_index p)
  = le_u32 (account p') ++ [Wallet.kind_byte (path_kind p')] ++ le_u32 (path_index p') -> p = p'.
Proof.
  intros Ha Hi Ha' Hi' E. apply app_inj_1 in E as [E1 E]; [|reflexivity].
  apply (le_bytes_inj 4) in E1; [|done..]. apply app_inj_1 in E as [E2 E3]; [|done]. injection E2 as E2%kind_byte_inj.
  apply (le_bytes_inj 4) in E3; [|done..]. destruct p, p'. cbn in *. by subst.
Qed.
Lemma domain_tag_app_inj n n' (r r' : bytes) :
  length r = length r' -> str_bytes (Network.domain_tag n) ++ r = str_bytes (Network.domain_tag n') ++ r' -> n = n' /\ r = r'.
Proof.
  intros Hl' E. assert (length (str_bytes (Network.domain_tag n)) = length (str_bytes (Network.domain_tag n'))) as Hlen.
  { apply (f_equal length) in E. rewrite !length_app in E. lia. }
  apply app_inj_1 in E as [E1 ->]; [|done]. split; [|done]. by destruct n, n'.
Qed.

(** The seed of a key separates wallets, networks and paths: two keys of equal
    seeds belong to one wallet seed, one network and one path, or SHA3-384 collides
    on the two preimages. *)
Theorem keys_separated (seed1 seed2 : bytes) n1 n2 p1 p2 :
  length seed1 = 32%nat -> length seed2 = 32%nat ->
  is_u32 (account p1) -> is_u32 (path_index p1) -> is_u32 (account p2) -> is_u32 (path_index p2) ->
  sha3_384 (Wallet.key_preimage seed1 n1 p1) = sha3_384 (Wallet.key_preimage seed2 n2 p2) ->
  (seed1 = seed2 /\ n1 = n2 /\ p1 = p2)
  \/ sha3_collision (Wallet.key_preimage seed1 n1 p1) (Wallet.key_preimage seed2 n2 p2).
Proof.
  intros H1 H2 Ha1 Hi1 Ha2 Hi2 E. destruct (decide (Wallet.key_preimage seed1 n1 p1 = Wallet.key_preimage seed2 n2 p2)) as [Ep|Hne]; [left|by right].
  unfold Wallet.key_preimage in Ep. apply app_inj_1 in Ep as [-> Ep]; [|congruence]. split; [done|].
  apply domain_tag_app_inj in Ep as [-> Ep]; [|reflexivity].
  split; [done|]. by apply path_bytes_inj.
Qed.

(** ** Finding the address of a digest *)

Lemma find_digest_Some w d ps a :
  Wallet.find_digest w d ps = Some a -> exists path, path ∈ ps /\ a = Wallet.derive_address w path /\ wa_payment_digest a = d.
Proof.
  induction ps as [|path ps IH]; [done|]. cbn. case_bool_decide as E.
  - intros [= <-]. exists path. split; [by left|done].
  - intros (p & Hp & Ha)%IH. exists p. split; [by right|done].
Qed.
Lemma find_digest_None w d ps :
  Wallet.find_digest w d ps = None <-> forall path, path ∈ ps -> wa_payment_digest (Wallet.derive_address w path) <> d.
Proof.
  induction ps as [|path ps IH]; cbn; [split; [by intros _ ? ?%not_elem_of_nil|done]|]. case_bool_decide as E.
  - split; [done|]. intros H. exfalso. apply (H path); [by left|done].
  - rewrite IH. setoid_rewrite elem_of_cons. naive_solver.
Qed.
Lemma elem_of_window limit p :
  p ∈ Wallet.window limit <-> account p = 0 /\ 0 <= path_index p < Z.min limit (2 ^ 32).
Proof.
  unfold Wallet.window. rewrite list_elem_of_bind. setoid_rewrite elem_of_seqZ. unfold U32_MAX. split.
  - intros (i & Hp & Hi). rewrite !elem_of_cons, elem_of_nil in Hp. destruct Hp as [->|[->|[]]]; cbn; lia.
  - intros [Ha Hi]. exists (path_index p). split; [|lia]. destruct p as [acc [] i]; cbn in *; subst acc; [by left|right; by left].
Qed.

(** A wallet finds exactly the digests of its window. *)
Lemma discovered_Some w d a :
  Wallet.discovered_address_for_payment_digest w d = Some a ->
  exists path, a = Wallet.derive_address w path /\ path ∈ Wallet.window (restore_gap_limit w) /\ wa_payment_digest a = d.
Proof.
  unfold Wallet.discovered_address_for_payment_digest. case_bool_decide; [|done]. intros (p & ? & ? & ?)%find_digest_Some. eauto.
Qed.
Lemma discovered_window w path :
  account path = 0 -> 0 <= path_index path < Z.min (restore_gap_limit w) (2 ^ 32) ->
  is_Some (Wallet.discovered_address_for_payment_digest w (wa_payment_digest (Wallet.derive_address w path))).
Proof.
  intros Ha Hi. unfold Wallet.discovered_address_for_payment_digest. rewrite bool_decide_eq_true_2 by apply derived_digest_length. cbn [negb].
  destruct (Wallet.find_digest _ _ _) as [a|] eqn:E; [by eexists|]. exfalso.
  by apply (proj1 (find_digest_None _ _ _) E path); [apply elem_of_window|].
Qed.

(** The discovery list has each payment digest once: those of the addresses in
    the book and of both kinds of the window's indices, and no others. *)
Theorem discovery_lists_window w limit :
  limit <> 0 ->
  let found := Wallet.discovery_addresses_up_to w limit in
  NoDup (wa_payment_digest <$> found)
  /\ (forall a, a ∈ found -> exists path, a = Wallet.derive_address w path)
  /\ forall d, d ∈ wa_payment_digest <$> found <->
     exists path, d = wa_payment_digest (Wallet.derive_address w path)
       /\ (path ∈ ar_path <$> entries (address_book w) \/ (account path = 0 /\ 0 <= path_index path < Z.min limit (2 ^ 32))).
Proof.
  intros Hl' found. unfold found, Wallet.discovery_addresses_up_to. rewrite (proj2 (Z.eqb_neq limit 0)) by done.
  destruct (foldl Wallet.push_unseen (∅, []) (Wallet.all_addresses w)) as [seen1 acc1] eqn:E1.
  destruct (foldl Wallet.push_unseen (seen1, acc1) (Wallet.derive_address w <$> Wallet.window limit)) as [seen2 acc2] eqn:E2. cbn [snd].
  apply push_unseen_spec in E1 as (S1 & N1 & D1 & A1); [|done|constructor]. apply push_unseen_spec in E2 as (S2 & N2 & D2 & A2); [|done..].
  split; [done|]. split.
  - intros a [[Ha%elem_of_nil|Ha]%A1|Ha]%A2; [done| |]; apply list_elem_of_fmap in Ha as (r & -> & _); eauto.
  - intros d. rewrite D2, D1. unfold Wallet.all_addresses. rewrite <- !list_fmap_compose. cbn [fmap list_fmap]. rewrite elem_of_nil.
    rewrite !list_elem_of_fmap. unfold compose. split.
    + intros [[[]|(r & -> & Hr)]|(path & -> & Hp%elem_of_window)]; [exists (ar_path r)|exists path]; (split; [done|]); [left|by right].
      by apply list_elem_of_fmap_2.
    + intros (path & -> & [(r & -> & Hr)%list_elem_of_fmap|Hp%elem_of_window]); [left; right; by exists r|right; by exists path].
Qed.
End keys.

Lemma addresses_in_order_witness :
  let ops := [TakeAddress Receive None; TakeAddress Change (Some [x41]); Restart; SetGapLimit 5; TakeAddress Receive None] in
  let w0 := @Wallet.from_seed (zeros 32) Regnet in
  let '(w, out) := @wallet_run Crypto.checksum_sha3 Falcon.toy_signer w0 ops in
  (forall kind, filter (fun p => path_kind p = kind) (wa_path <$> out) = paths kind 0 (taken kind ops))
  /\ out = @Wallet.derive_address Crypto.checksum_sha3 Falcon.toy_signer w0 <$> (wa_path <$> out)
  /\ (ar_path <$> entries (address_book w)) = wa_path <$> out
  /\ forall kind n, (n <= KEYPOOL_TARGET_SIZE)%nat ->
     @Wallet.preview_addresses Crypto.checksum_sha3 Falcon.toy_signer w kind n
     = @Wallet.derive_address Crypto.checksum_sha3 Falcon.toy_signer w0 <$> paths kind (Z.of_nat (taken kind ops)) n.
Proof.
  cbn zeta. refine (@addresses_in_order Crypto.checksum_sha3 Falcon.toy_signer (zeros 32) Regnet
    [TakeAddress Receive None; TakeAddress Change (Some [x41]); Restart; SetGapLimit 5; TakeAddress Receive None] _).
  intros []; vm_compute; discriminate.
Defined.

Lemma keys_separated_witness :
  let p := {| account := 0; path_kind := Receive; path_index := 7 |} in
  (zeros 32 = zeros 32 /\ Testnet = Testnet /\ p = p)
  \/ sha3_collision (H:=Crypto.checksum_sha3) (Wallet.key_preimage (zeros 32) Testnet p) (Wallet.key_preimage (zeros 32) Testnet p).
Proof.
  apply (@keys_separated Crypto.checksum_sha3 Crypto.checksum_sha3_laws (zeros 32) (zeros 32) Testnet Testnet); try reflexivity; split; vm_compute; (discriminate || reflexivity).
Defined.

Lemma discovery_lists_window_witness :
  let w := @Wallet.from_seed (zeros 32) Regnet in
  let found := @Wallet.discovery_addresses_up_to Crypto.checksum_sha3 Falcon.toy_signer w 2 in
  length found = 4%nat /\ NoDup (wa_payment_digest <$> found).
Proof.
  split; [vm_compute; reflexivity|]. apply (@discovery_lists_window Crypto.checksum_sha3 Crypto.checksum_sha3_laws Falcon.toy_signer (Wallet.from_seed (zeros 32) Regnet) 2). discriminate.
Defined.
