(* ===== verification/WalletSpend.v ===== *)
(** * Payments the wallet builds

    The second part of crates/atho-wallet/src/wallet.rs: choosing amounts, change and
    fee, grouping the inputs by the address that owns them, signing, and the proof of
    work. The solver of [TxPolicy] is an argument: a function that returns one of the
    outcomes [TxPolicy.solver_outcome] allows. *)
From stdpp Require Import options.
From S2P Require Import Prelude Bytes Constants Crypto Keccak Network Rules Transaction Block Address.
From S2P Require Import Genesis Signatures Falcon TxPolicy Errors Utxo Validation Text Mnemonic Wallet.

#[local] Set Default Proof Using "Type*".

(** ** Requests *)

(* src: wallet.rs:58-65 WalletSpendUtxo *)
Record WalletSpendUtxo := {
  su_previous_txid : bytes;
  su_output_index : Z;
  su_value_atoms : Z;
  su_locking_script : bytes;
}.
(* src: wallet.rs:67-77 WalletSpendRequest *)
Record WalletSpendRequest := {
  selected_utxos : list WalletSpendUtxo;
  recipient_digest : bytes;
  amount_atoms : Z;
  include_fee_in_total : bool;
  transaction_version : Z;
  request_lock_time : Z;
  change_address : option WalletAddress;
}.
(* src: wallet.rs:79-85 WalletBuiltSpend *)
Record WalletBuiltSpend := { spend_transaction : Transaction; spend_fee_atoms : Z; change_used : bool }.
(* src: wallet.rs:87-92 WalletSpendProgressStage *)
Inductive WalletSpendProgressStage := Preparing | Signing | FinalizingProof.
(* src: wallet.rs:94-127 WalletSpendBuildError *)
Inductive WalletSpendBuildError :=
| WalletNoInputs
| WrongNetwork
| WalletInputOwnershipMismatch
| NonCanonicalLockingScript
| AmountBelowMinimumOutput
| AmountBelowFee
| InsufficientFunds
| MissingChangeAddress
| FeeLoopDidNotConverge
| WalletTransactionTooLarge (raw_size_bytes max_raw_size_bytes vsize_bytes max_vsize_bytes : Z)
| AmountOverflow
| SigningFailed (message : bytes).

(* src: wallet.rs:141-145 WalletSignerInputGroup *)
Record WalletSignerInputGroup := { wg_address : WalletAddress; wg_input_indexes : list Z }.

(** ** Amounts *)

(* src: wallet.rs:720-761 recipient_and_change_amounts *)
Definition recipient_and_change_amounts (total_input_atoms amount_atoms fee_atoms : Z) (include_fee_in_total : bool)
    (min_output : Z) : result WalletSpendBuildError (Z * Z) :=
  if include_fee_in_total then
    reject amount_atoms <=? fee_atoms with AmountBelowFee;
    recipient_atoms ← ok_or (checked_sub amount_atoms fee_atoms) AmountBelowFee;
    reject recipient_atoms <? min_output with AmountBelowMinimumOutput;
    raw_change ← ok_or (checked_sub total_input_atoms amount_atoms) InsufficientFunds;
    let change_atoms := if raw_change <? min_output then 0 else raw_change in
    Ok (recipient_atoms, change_atoms)
  else
    reject amount_atoms <? min_output with AmountBelowMinimumOutput;
    raw_change ← ok_or (value ← checked_sub total_input_atoms amount_atoms; checked_sub value fee_atoms) InsufficientFunds;
    let change_atoms := if raw_change <? min_output then 0 else raw_change in
    Ok (amount_atoms, change_atoms).

(** ** Transactions of a request *)

(* src: wallet.rs:764-801 Wallet::build_spend_transaction_from_parts *)
Definition build_spend_transaction_from_parts (selected_utxos : list WalletSpendUtxo) (version : Z) (recipient_digest : bytes)
    (recipient_atoms : Z) (change_output : option (Z * bytes)) (lock_time : Z) : Transaction :=
  {| version := version;
     inputs := (fun u => {| previous_txid := su_previous_txid u; output_index := su_output_index u;
                            unlocking_script := su_locking_script u |}) <$> selected_utxos;
     outputs := {| value_atoms := recipient_atoms; locking_script := recipient_digest |}
                :: match change_output with
                   | Some (change_atoms, change_script) => [{| value_atoms := change_atoms; locking_script := change_script |}]
                   | None => []
                   end;
     lock_time := lock_time; witness := []; tx_pow_nonce := 0; tx_pow_bits := 0 |}.
Definition with_witness (tx : Transaction) (w : bytes) : Transaction :=
  {| version := version tx; inputs := inputs tx; outputs := outputs tx; lock_time := lock_time tx;
     witness := w; tx_pow_nonce := tx_pow_nonce tx; tx_pow_bits := tx_pow_bits tx |}.

(* src: wallet.rs:441-453 Wallet::ensure_standard_transaction_size *)
Definition ensure_standard_transaction_size (tx : Transaction) : result WalletSpendBuildError unit :=
  let raw_size_bytes := Transaction.full_size_bytes tx in
  let vsize_bytes := Transaction.vsize_bytes tx in
  reject (MAX_TRANSACTION_RAW_BYTES <? raw_size_bytes) || (MAX_TRANSACTION_VBYTES <? vsize_bytes)
    with (WalletTransactionTooLarge raw_size_bytes MAX_TRANSACTION_RAW_BYTES vsize_bytes MAX_TRANSACTION_VBYTES);
  Ok tt.

(** [sort_by_key]; where it is used no two keys are equal, so that its stability
    does not show. *)
Definition key_le {A} (key : A -> Z) (a b : A) : Prop := key a <= key b.
#[global] Instance key_le_dec {A} (key : A -> Z) a b : Decision (key_le key a b).
Proof. unfold key_le. apply _. Defined.
#[global] Instance key_le_total {A} (key : A -> Z) : Total (key_le key).
Proof. intros a b. unfold key_le. lia. Qed.
#[global] Instance key_le_trans {A} (key : A -> Z) : Transitive (key_le key).
Proof. intros a b c. unfold key_le. lia. Qed.
Definition sort_by_key {A} (key : A -> Z) (l : list A) : list A := merge_sort (key_le key) l.

(** [grouped.entry(script).or_default().push(index as u32)], after the check. *)
(* src: wallet.rs:813-821 Wallet::signer_input_groups (grouping) *)
Definition group_input (grouped : gmap bytes (list Z)) (iu : Z * WalletSpendUtxo) :
    result WalletSpendBuildError (gmap bytes (list Z)) :=
  let '(input_index, utxo) := iu in
  reject negb (is_canonical_payment_locking_script (su_locking_script utxo)) with NonCanonicalLockingScript;
  Ok (<[su_locking_script utxo := default [] (grouped !! su_locking_script utxo) ++ [input_index mod 2 ^ 32]]> grouped).
Definition first_input_index (g : WalletSignerInputGroup) : Z := default U32_MAX (head (wg_input_indexes g)).

(** The signer groups as a witness, when there are any. *)
Definition witness_of_groups (groups : list WitnessSignerGroup) : result WalletSpendBuildError TxWitness :=
  match groups with
  | [] => Err WalletInputOwnershipMismatch
  | primary :: additional =>
      Ok {| w_signature := g_signature primary; w_pubkey := g_pubkey primary; w_input_refs := g_input_refs primary;
            additional_signers := additional |}
  end.
(* src: wallet.rs:839-869 Wallet::placeholder_witness_for_groups *)
Definition placeholder_witness_for_groups (groups : list WalletSignerInputGroup) : result WalletSpendBuildError bytes :=
  let signer_groups := (fun g =>
    {| g_signature := zeros (Z.to_nat FALCON_512_SIGNATURE_BYTES);
       g_pubkey := zeros (Z.to_nat FALCON_512_PUBLIC_KEY_BYTES);
       g_input_refs := (fun i => {| input_index := i; sig_ref_short := zeros 2; witness_commit_ref := zeros 16 |})
                       <$> wg_input_indexes g |}) <$> groups in
  w ← witness_of_groups signer_groups;
  Ok (TxWitness.canonical_bytes w).

(** [Display] of the errors of signing. *)
(* src: crypto_error.rs:12-21 CryptoError *)
Definition crypto_error_message (e : CryptoError) : bytes :=
  match e with
  | BackendUnavailable => str_bytes "crypto backend unavailable"
  | InvalidKeyLength => str_bytes "invalid key length"
  | OperationFailed => str_bytes "crypto operation failed"
  end.

Section wallet.
Context `{Hs : Sha3, Hk : FalconSigner}.

(** The wallet's own copies of the two functions of validation.rs. *)
(* src: wallet.rs:974-984 derive_sig_ref_short *)
Definition wallet_sig_ref_short (txid signature : bytes) (input_index : Z) : bytes :=
  take 2 (sha3_256 (str_bytes "ATHO_SIG_REF_SHORT_V1" ++ txid ++ signature ++ be_u32 input_index)).
(* src: wallet.rs:986-1005 derive_witness_commit_ref *)
Definition wallet_witness_commit_ref (txid block_witness_root : bytes) (input_index : Z) : bytes :=
  take 16 (sha3_256 (str_bytes "ATHO_WITNESS_COMMIT_REF_V1" ++ txid ++ be_u32 input_index ++ block_witness_root)).

(* src: wallet.rs:803-837 Wallet::signer_input_groups *)
Definition signer_input_groups (w : Wallet) (selected_utxos : list WalletSpendUtxo) :
    result WalletSpendBuildError (list WalletSignerInputGroup) :=
  let known_addresses : gmap bytes WalletAddress :=
    foldl (fun m a => <[wa_payment_digest a := a]> m) ∅ (Wallet.all_addresses w) in
  grouped_inputs ← try_fold group_input ∅ (enumerate selected_utxos);
  groups ← try_map (fun '(locking_script, input_indexes) =>
    address ← ok_or (match known_addresses !! locking_script with
                     | Some a => Some a
                     | None => Wallet.discovered_address_for_payment_digest w locking_script
                     end) WalletInputOwnershipMismatch;
    Ok {| wg_address := address; wg_input_indexes := input_indexes |}) (sorted_entries bytes_le grouped_inputs);
  Ok (sort_by_key first_input_index groups).

(* src: wallet.rs:871-891 Wallet::build_placeholder_spend_transaction_from_parts *)
Definition build_placeholder_spend_transaction_from_parts (w : Wallet) (selected_utxos : list WalletSpendUtxo) (version : Z)
    (recipient_digest : bytes) (recipient_atoms : Z) (change_output : option (Z * bytes)) (lock_time : Z) :
    result WalletSpendBuildError Transaction :=
  let tx := build_spend_transaction_from_parts selected_utxos version recipient_digest recipient_atoms change_output lock_time in
  signer_groups ← signer_input_groups w selected_utxos;
  witness ← placeholder_witness_for_groups signer_groups;
  Ok (with_witness tx witness).

(** The body of the signing loop; [random i] is what the system's generator gives at
    the [i]-th signature. *)
(* src: wallet.rs:913-940 Wallet::build_signed_spend_transaction_from_parts (signing) *)
Definition sign_group (w : Wallet) (random : nat -> option bytes) (tx : Transaction) (txid : bytes)
    (ig : nat * WalletSignerInputGroup) : result WalletSpendBuildError WitnessSignerGroup :=
  let '(i, group) := ig in
  let keypair := Wallet.keypair_for_path w (wa_path (wg_address group)) in
  let digest := transaction_signing_digest_for_input_indexes (wallet_network w) tx (wg_input_indexes group) in
  signature ← map_err (fun err => SigningFailed (crypto_error_message err))
                (sign (random i) DomainTransaction (secret_key keypair) digest);
  Ok {| g_signature := signature; g_pubkey := public_key keypair;
        g_input_refs := (fun i => {| input_index := i; sig_ref_short := wallet_sig_ref_short txid signature i;
                                     witness_commit_ref := zeros 16 |}) <$> wg_input_indexes group |}.
Definition first_ref_index (g : WitnessSignerGroup) : Z := default U32_MAX (input_index <$> head (g_input_refs g)).
(* src: wallet.rs:893-971 Wallet::build_signed_spend_transaction_from_parts *)
Definition build_signed_spend_transaction_from_parts (w : Wallet) (random : nat -> option bytes)
    (selected_utxos : list WalletSpendUtxo) (version : Z) (recipient_digest : bytes) (recipient_atoms : Z)
    (change_output : option (Z * bytes)) (lock_time : Z) : result WalletSpendBuildError Transaction :=
  let tx := build_spend_transaction_from_parts selected_utxos version recipient_digest recipient_atoms change_output lock_time in
  let txid := Transaction.txid tx in
  signer_input_groups ← signer_input_groups w selected_utxos;
  signer_groups ← try_map (sign_group w random tx txid) (zip (seq 0 (length signer_input_groups)) signer_input_groups);
  let signer_groups := sort_by_key first_ref_index signer_groups in
  witness ← witness_of_groups signer_groups;
  let tx := with_witness tx (TxWitness.canonical_bytes witness) in
  let witness_root := Transaction.witness_commitment_hash tx in
  witness ← ok_or (Transaction.witness_payload tx) (SigningFailed (str_bytes "invalid staged witness payload"));
  let witness := TxWitness.for_each_input_ref_mut (fun r =>
    {| input_index := input_index r; sig_ref_short := sig_ref_short r;
       witness_commit_ref := wallet_witness_commit_ref txid witness_root (input_index r) |}) witness in
  Ok (with_witness tx (TxWitness.canonical_bytes witness)).

(** ** The fee loop *)

Section request.
Context (w : Wallet) (random : nat -> option bytes) (request : WalletSpendRequest).
Context (solve_transaction_pow : Network -> Transaction -> Z -> Transaction).

(** The first half of a round: the amounts at this fee and the transaction to measure. *)
(* src: wallet.rs:370-389 Wallet::build_signed_payment_transaction_with_progress (measuring) *)
Definition measure (total_input_atoms fee_atoms : Z) : result WalletSpendBuildError (Z * Z * Transaction) :=
  amounts ← recipient_and_change_amounts total_input_atoms (amount_atoms request) fee_atoms (include_fee_in_total request)
              DUST_RELAY_VALUE_ATOMS;
  let '(recipient_atoms, change_atoms) := amounts in
  transaction ← build_placeholder_spend_transaction_from_parts w (selected_utxos request) (transaction_version request)
                  (recipient_digest request) recipient_atoms
                  (if 0 <? change_atoms then Some (change_atoms, zeros 32) else None) (request_lock_time request);
  _ ← ensure_standard_transaction_size transaction;
  Ok (recipient_atoms, change_atoms, transaction).
(** The second half, once the fee is the one the transaction needs. *)
(* src: wallet.rs:393-426 Wallet::build_signed_payment_transaction_with_progress (signing) *)
Definition finish (total_input_atoms actual_fee recipient_atoms change_atoms : Z) : result WalletSpendBuildError (Transaction * Z) :=
  change_output ← (if 0 <? change_atoms
                   then change_address ← ok_or (change_address request) MissingChangeAddress;
                        Ok (Some (change_atoms, wa_payment_digest change_address))
                   else Ok None);
  transaction ← build_signed_spend_transaction_from_parts w random (selected_utxos request) (transaction_version request)
                  (recipient_digest request) recipient_atoms change_output (request_lock_time request);
  _ ← ensure_standard_transaction_size transaction;
  output_total ← ok_or (Transaction.checked_output_value_atoms transaction) AmountOverflow;
  final_fee ← ok_or (checked_sub total_input_atoms output_total) InsufficientFunds;
  reject final_fee <? actual_fee with FeeLoopDidNotConverge;
  reject (0 <? change_atoms) && negb (final_fee =? actual_fee) with FeeLoopDidNotConverge;
  Ok (transaction, final_fee).
(** The branch of the loop that returns, with the stages it reports. *)
Definition complete (total_input_atoms actual_fee recipient_atoms change_atoms : Z) :
    list WalletSpendProgressStage * result WalletSpendBuildError WalletBuiltSpend :=
  match finish total_input_atoms actual_fee recipient_atoms change_atoms with
  | Err e => ([Signing], Err e)
  | Ok (transaction, final_fee) =>
      ([Signing; FinalizingProof],
       Ok {| spend_transaction := solve_transaction_pow (wallet_network w) transaction final_fee;
             spend_fee_atoms := final_fee; change_used := 0 <? change_atoms |})
  end.
(** [for _ in 0..rounds], with the stages reported on the way. *)
(* src: wallet.rs:369-438 Wallet::build_signed_payment_transaction_with_progress (loop) *)
Fixpoint fee_loop (rounds : nat) (total_input_atoms fee_atoms : Z) :
    list WalletSpendProgressStage * result WalletSpendBuildError WalletBuiltSpend :=
  match rounds with
  | O => ([], Err FeeLoopDidNotConverge)
  | S rounds =>
      match measure total_input_atoms fee_atoms with
      | Err e => ([], Err e)
      | Ok (recipient_atoms, change_atoms, transaction) =>
          let actual_fee := minimum_required_fee_atoms (wallet_network w) transaction in
          if actual_fee =? fee_atoms then
            complete total_input_atoms actual_fee recipient_atoms change_atoms
          else fee_loop rounds total_input_atoms actual_fee
      end
  end.

(** [try_fold(0, checked_add)]. *)
Definition total_input_value : option Z :=
  foldl (fun sum u => sum ← sum; checked_add U64_MAX sum (su_value_atoms u)) (Some 0) (selected_utxos request).
Definition check_request : result WalletSpendBuildError Z :=
  reject bool_decide (selected_utxos request = []) with WalletNoInputs;
  reject match change_address request with Some a => negb (bool_decide (wa_network a = wallet_network w)) | None => false end
    with WrongNetwork;
  reject negb (include_fee_in_total request) && (amount_atoms request <? DUST_RELAY_VALUE_ATOMS) with AmountBelowMinimumOutput;
  ok_or total_input_value AmountOverflow.
(* src: wallet.rs:337-439 Wallet::build_signed_payment_transaction_with_progress *)
Definition build_signed_payment_transaction_with_progress :
    list WalletSpendProgressStage * result WalletSpendBuildError WalletBuiltSpend :=
  match check_request with
  | Err e => ([Preparing], Err e)
  | Ok total_input_atoms =>
      let '(stages, r) := fee_loop 4 total_input_atoms MIN_TX_FEE_ATOMS in (Preparing :: stages, r)
  end.
(* src: wallet.rs:330-335 Wallet::build_signed_payment_transaction *)
Definition build_signed_payment_transaction : result WalletSpendBuildError WalletBuiltSpend :=
  build_signed_payment_transaction_with_progress.2.
End request.
End wallet.

(** ** Amounts and fees *)

(** The amounts are exact: the recipient gets the amount, less the fee when it is
    included; what is left over is the change, unless it is dust, which then goes to
    the fee; and the request is refused exactly when the recipient would get dust or
    the inputs do not cover amount and fee. *)
Lemma amounts_spec total amount fee incl min r c :
  0 < min -> 0 <= fee ->
  recipient_and_change_amounts total amount fee incl min = Ok (r, c) <->
  r = (if incl then amount - fee else amount) /\ min <= r /\ r + fee <= total
  /\ c = (if total - r - fee <? min then 0 else total - r - fee).
Proof.
  intros Hmin Hfee. unfold recipient_and_change_amounts, checked_sub. destruct incl.
  - destruct (Z.leb_spec amount fee); [split; [done|lia]|]. rewrite (proj2 (Z.leb_le fee amount)) by lia. cbn [ok_or mbind result_bind].
    destruct (Z.ltb_spec (amount - fee) min); [split; [done|lia]|]. destruct (Z.leb_spec amount total); cbn [ok_or mbind result_bind].
    + assert (total - (amount - fee) - fee = total - amount) as E by lia. split.
      * intros [= <- <-]. rewrite E. split_and!; [done|lia|lia|done].
      * intros (-> & _ & _ & ->). by rewrite E.
    + split; [done|]. intros (-> & _ & ? & _). lia.
  - destruct (Z.ltb_spec amount min); [split; [done|lia]|]. destruct (Z.leb_spec amount total); cbn [ok_or mbind result_bind option_bind].
    + destruct (Z.leb_spec fee (total - amount)); cbn [ok_or mbind result_bind].
      * split; [intros [= <- <-]; split_and!; [done|lia|lia|done]|]. by intros (-> & _ & _ & ->).
      * split; [done|]. intros (-> & _ & ? & _). lia.
    + split; [done|]. intros (-> & _ & ? & _). lia.
Qed.

Section sizes.
Context `{Hs : Sha3, Hk : FalconSigner}.

(** Within the limits nothing saturates. *)
Lemma vsize_exact tx :
  Transaction.full_size_bytes tx <= MAX_TRANSACTION_RAW_BYTES ->
  0 <= Transaction.base_size_bytes tx <= Transaction.full_size_bytes tx ->
  Transaction.vsize_bytes tx = (3 * Transaction.base_size_bytes tx + Transaction.full_size_bytes tx + 3) / 4.
Proof.
  intros Hf Hb. unfold Transaction.vsize_bytes, Transaction.weight_bytes, saturating_add, saturating_mul, USIZE_MAX.
  unfold MAX_TRANSACTION_RAW_BYTES in Hf. rewrite !Z.min_r by lia. f_equal. lia.
Qed.
Lemma zsum_scripts_nonneg {A} (f : A -> bytes) k l : 0 <= k -> 0 <= zsum ((fun a => k + zlen (f a)) <$> l).
Proof. intros Hk'. apply zsum_nonneg, Forall_fmap, Forall_forall. intros a _. cbn. pose proof (zlen_nonneg (f a)). lia. Qed.
Lemma base_full tx :
  0 <= Transaction.base_size_bytes tx
  /\ Transaction.full_size_bytes tx = Transaction.base_size_bytes tx + zlen (witness tx) + 6 + TX_POW_NONCE_BYTES + TX_POW_BITS_BYTES.
Proof.
  unfold Transaction.base_size_bytes, Transaction.full_size_bytes.
  pose proof (zsum_scripts_nonneg unlocking_script (48 + 4 + 4) (inputs tx) ltac:(lia)).
  pose proof (zsum_scripts_nonneg locking_script (8 + 4) (outputs tx) ltac:(lia)). lia.
Qed.
Lemma ensure_size_Ok tx u :
  ensure_standard_transaction_size tx = Ok u <->
  Transaction.full_size_bytes tx <= MAX_TRANSACTION_RAW_BYTES /\ Transaction.vsize_bytes tx <= MAX_TRANSACTION_VBYTES.
Proof.
  destruct u. unfold ensure_standard_transaction_size.
  destruct (Z.ltb_spec MAX_TRANSACTION_RAW_BYTES (Transaction.full_size_bytes tx)),
    (Z.ltb_spec MAX_TRANSACTION_VBYTES (Transaction.vsize_bytes tx)); cbn; split; intros; try done; lia.
Qed.
(** The sizes see the witness only by its length. *)
Lemma sizes_same tx tx' :
  inputs tx = inputs tx' -> ((fun o => zlen (locking_script o)) <$> outputs tx) = ((fun o => zlen (locking_script o)) <$> outputs tx') ->
  zlen (witness tx) = zlen (witness tx') ->
  Transaction.full_size_bytes tx = Transaction.full_size_bytes tx' /\ Transaction.vsize_bytes tx = Transaction.vsize_bytes tx'.
Proof.
  intros Hi Ho Hw.
  assert (zsum ((fun o => 8 + 4 + zlen (locking_script o)) <$> outputs tx) = zsum ((fun o => 8 + 4 + zlen (locking_script o)) <$> outputs tx')) as Eo.
  { assert (forall l, zsum ((fun o => 8 + 4 + zlen (locking_script o)) <$> l) = zsum ((fun z => 12 + z) <$> ((fun o => zlen (locking_script o)) <$> l))) as E
      by (intros l; by rewrite <- list_fmap_compose). by rewrite !E, Ho. }
  unfold Transaction.vsize_bytes, Transaction.weight_bytes, Transaction.full_size_bytes, Transaction.base_size_bytes.
  by rewrite Hi, Eo, Hw.
Qed.
Lemma required_fee_same n tx tx' :
  Transaction.vsize_bytes tx = Transaction.vsize_bytes tx' -> minimum_required_fee_atoms n tx = minimum_required_fee_atoms n tx'.
Proof. intros E. unfold minimum_required_fee_atoms. by rewrite E. Qed.
(** Within the limits the required fee is the virtual size. *)
Lemma required_fee_vsize n tx :
  Transaction.full_size_bytes tx <= MAX_TRANSACTION_RAW_BYTES ->
  minimum_required_fee_atoms n tx = (3 * Transaction.base_size_bytes tx + Transaction.full_size_bytes tx + 3) / 4
  /\ 2 <= minimum_required_fee_atoms n tx.
Proof.
  intros Hf. destruct (base_full tx) as [Hb Hbf]. pose proof (zlen_nonneg (witness tx)) as Hw.
  unfold TX_POW_NONCE_BYTES, TX_POW_BITS_BYTES in Hbf.
  unfold minimum_required_fee_atoms. rewrite vsize_exact by lia.
  assert (14 <= Transaction.base_size_bytes tx) as H14.
  { unfold Transaction.base_size_bytes. pose proof (zsum_scripts_nonneg unlocking_script (48 + 4 + 4) (inputs tx) ltac:(lia)).
    pose proof (zsum_scripts_nonneg locking_script (8 + 4) (outputs tx) ltac:(lia)). lia. }
  set (x := 3 * _ + _ + 3). assert (56 <= x <= 4 * 250000 + 3) as Hx by (unfold x, MAX_TRANSACTION_RAW_BYTES in *; lia).
  assert (14 <= x / 4 <= 250001) by (split; [apply Z.div_le_lower_bound; lia|apply Z.div_le_upper_bound; lia]).
  unfold MIN_TX_FEE_ATOMS, MIN_TX_FEE_PER_VBYTE_ATOMS, MIN_RELAY_FEE_RATE_ATOMS_PER_VBYTE, saturating_mul, U64_MAX. lia.
Qed.
End sizes.

(** ** The fee loop *)

Lemma zlen_canonical_ge w : zlen (w_signature w) + zlen (w_pubkey w) <= zlen (TxWitness.canonical_bytes w).
Proof.
  unfold TxWitness.canonical_bytes. unfold TxWitness.group_bytes at 1. cbn [TxWitness.primary g_signature g_pubkey g_input_refs].
  autorewrite with zlen. pose proof (zlen_nonneg (mjoin (TxWitness.ref_bytes <$> w_input_refs w))).
  pose proof (zlen_nonneg (mjoin (TxWitness.group_bytes TxWitness.ref_bytes <$> additional_signers w))). lia.
Qed.
Lemma placeholder_length groups pw :
  placeholder_witness_for_groups groups = Ok pw -> FALCON_512_SIGNATURE_BYTES + FALCON_512_PUBLIC_KEY_BYTES <= zlen pw.
Proof.
  unfold placeholder_witness_for_groups. destruct groups as [|g groups]; [done|]. cbn [fmap list_fmap witness_of_groups mbind result_bind].
  intros E. injection E as <-. etransitivity; [|apply zlen_canonical_ge]. vm_compute. discriminate.
Qed.

Section loop.
Context `{Hs : Sha3, Hk : FalconSigner}.
Context (w : Wallet) (random : nat -> option bytes) (request : WalletSpendRequest).
Context (solve : Network -> Transaction -> Z -> Transaction) (groups : list WalletSignerInputGroup) (pw : bytes).

(** The measured transaction, and the fee it needs with and without change. *)
Definition measured (r c : Z) : Transaction :=
  with_witness (build_spend_transaction_from_parts (selected_utxos request) (transaction_version request)
    (recipient_digest request) r (if 0 <? c then Some (c, zeros 32) else None) (request_lock_time request)) pw.
Definition needed_fee (with_change : bool) : Z :=
  minimum_required_fee_atoms (wallet_network w) (measured 0 (if with_change then 1 else 0)).

Context (Hgroups : signer_input_groups w (selected_utxos request) = Ok groups).
Context (Hpw : placeholder_witness_for_groups groups = Ok pw).
Context (Hsize : ensure_standard_transaction_size (measured 0 1) = Ok tt).

Lemma measured_same r c :
  Transaction.full_size_bytes (measured r c) = Transaction.full_size_bytes (measured 0 (if 0 <? c then 1 else 0))
  /\ Transaction.vsize_bytes (measured r c) = Transaction.vsize_bytes (measured 0 (if 0 <? c then 1 else 0)).
Proof. apply sizes_same; unfold measured; by destruct (0 <? c). Qed.
Lemma measured_change :
  Transaction.full_size_bytes (measured 0 1) = Transaction.full_size_bytes (measured 0 0) + 44
  /\ Transaction.base_size_bytes (measured 0 1) = Transaction.base_size_bytes (measured 0 0) + 44.
Proof.
  unfold Transaction.full_size_bytes, Transaction.base_size_bytes. cbn [measured with_witness build_spend_transaction_from_parts
    inputs outputs witness locking_script Z.ltb Z.compare fmap list_fmap zsum]. change (zlen (zeros 32)) with 32. lia.
Qed.
Lemma needed_fees : needed_fee true = needed_fee false + 44 /\ 390 < needed_fee false.
Proof.
  pose proof (proj1 (ensure_size_Ok _ _) Hsize) as [Hf _]. destruct measured_change as [E1 E2].
  destruct (required_fee_vsize (wallet_network w) (measured 0 1) Hf) as [F1 _].
  destruct (required_fee_vsize (wallet_network w) (measured 0 0) ltac:(lia)) as [F0 _].
  unfold needed_fee. rewrite F1, F0, E1, E2. set (b := Transaction.base_size_bytes _). set (f := Transaction.full_size_bytes (measured 0 0)).
  split.
  - replace (3 * (b + 44) + (f + 44) + 3) with (3 * b + f + 3 + 44 * 4) by lia. by rewrite Z.div_add.
  - assert (391 <= (3 * b + f + 3) / 4); [|lia]. apply Z.div_le_lower_bound; [lia|].
    destruct (base_full (measured 0 0)) as [Hb Hbf]. fold b f in Hb, Hbf. pose proof (placeholder_length _ _ Hpw) as Hl.
    change (witness (measured 0 0)) with pw in Hbf. unfold TX_POW_NONCE_BYTES, TX_POW_BITS_BYTES, FALCON_512_SIGNATURE_BYTES, FALCON_512_PUBLIC_KEY_BYTES in *. lia.
Qed.
Lemma measure_eq total fee :
  measure w request total fee =
  amounts ← recipient_and_change_amounts total (amount_atoms request) fee (include_fee_in_total request) DUST_RELAY_VALUE_ATOMS;
  Ok (amounts.1, amounts.2, measured amounts.1 amounts.2).
Proof.
  unfold measure. destruct (recipient_and_change_amounts _ _ _ _ _) as [[r c]|e]; [|done]. cbn [mbind result_bind].
  unfold build_placeholder_spend_transaction_from_parts. rewrite Hgroups. cbn [mbind result_bind]. rewrite Hpw. cbn [mbind result_bind].
  fold (measured r c). rewrite (proj2 (ensure_size_Ok (measured r c) tt)); [done|].
  destruct (measured_same r c) as [-> ->]. pose proof (proj1 (ensure_size_Ok _ _) Hsize) as [Hf Hv]. destruct measured_change as [E1 E2].
  destruct (0 <? c); [done|]. destruct (base_full (measured 0 0)) as [Hb Hbf]. pose proof (zlen_nonneg (witness (measured 0 0))).
  unfold TX_POW_NONCE_BYTES, TX_POW_BITS_BYTES in *. rewrite vsize_exact by lia. split; [lia|].
  rewrite vsize_exact, E1, E2 in Hv by lia. etransitivity; [|exact Hv]. apply Z.div_le_mono; lia.
Qed.
(** One round: the amounts decide whether there is change, and that decides the fee. *)
Lemma fee_round rounds total fee :
  fee_loop w random request solve (S rounds) total fee =
  match recipient_and_change_amounts total (amount_atoms request) fee (include_fee_in_total request) DUST_RELAY_VALUE_ATOMS with
  | Err e => ([], Err e)
  | Ok (r, c) =>
      let needed := needed_fee (0 <? c) in
      if needed =? fee then complete w random request solve total needed r c
      else fee_loop w random request solve rounds total needed
  end.
Proof.
  cbn [fee_loop]. rewrite measure_eq. destruct (recipient_and_change_amounts _ _ _ _ _) as [[r c]|e]; [|done]. cbn [mbind result_bind fst snd].
  assert (minimum_required_fee_atoms (wallet_network w) (measured r c) = needed_fee (0 <? c)) as ->; [|done].
  apply required_fee_same. by destruct (measured_same r c) as [_ ->].
Qed.

Lemma amounts_plain total fee :
  include_fee_in_total request = false -> DUST_RELAY_VALUE_ATOMS <= amount_atoms request -> 0 <= fee ->
  recipient_and_change_amounts total (amount_atoms request) fee (include_fee_in_total request) DUST_RELAY_VALUE_ATOMS =
  let spare := total - amount_atoms request in
  if spare <? fee then Err InsufficientFunds
  else Ok (amount_atoms request, if spare - fee <? DUST_RELAY_VALUE_ATOMS then 0 else spare - fee).
Proof.
  intros -> Ha Hf. cbn zeta. unfold recipient_and_change_amounts, checked_sub.
  rewrite (proj2 (Z.ltb_ge (amount_atoms request) DUST_RELAY_VALUE_ATOMS)) by done.
  destruct (Z.leb_spec (amount_atoms request) total); cbn [ok_or mbind result_bind option_bind];
    destruct (Z.ltb_spec (total - amount_atoms request) fee); try lia; try done.
  - by rewrite (proj2 (Z.leb_gt fee (total - amount_atoms request))) by lia.
  - by rewrite (proj2 (Z.leb_le fee (total - amount_atoms request))) by lia.
Qed.

(** C14: What the fee loop does with a payment whose fee comes on top, by what the
    inputs hold beyond the amount. [needed_fee] is what the measured transaction
    needs, with change 44 atoms more than without. Below the fee with change the
    payment is refused; then comes a span paid without change and, from the fee and
    a dust output on, with change. In between lie 44 values for which each round
    finds the other fee, and the payment is refused although it could be paid. *)
Theorem fee_loop_windows total :
  include_fee_in_total request = false -> DUST_RELAY_VALUE_ATOMS <= amount_atoms request ->
  let amount := amount_atoms request in
  let spare := total - amount in
  let fee := needed_fee false in
  needed_fee true = fee + 44
  /\ fee_loop w random request solve 4 total MIN_TX_FEE_ATOMS =
     (if spare <? fee + 44 then ([], Err InsufficientFunds)
      else if spare <? fee + DUST_RELAY_VALUE_ATOMS then complete w random request solve total fee amount 0
      else if spare <? fee + 44 + DUST_RELAY_VALUE_ATOMS then ([], Err FeeLoopDidNotConverge)
      else complete w random request solve total (fee + 44) amount (spare - (fee + 44))).
Proof.
  intros Hinc Hdust amount spare fee. destruct needed_fees as [E1 Hmin]. split; [done|]. fold fee in E1, Hmin.
  assert (forall f, 0 <= f -> recipient_and_change_amounts total (amount_atoms request) f (include_fee_in_total request) DUST_RELAY_VALUE_ATOMS =
    if spare <? f then Err InsufficientFunds else Ok (amount, if spare - f <? 100 then 0 else spare - f)) as Ham by (intros f Hf; by apply amounts_plain).
  assert (forall n f, 0 <= f -> fee_loop w random request solve (S n) total f =
    if spare <? f then ([], Err InsufficientFunds)
    else if spare - f <? 100
         then (if fee =? f then complete w random request solve total fee amount 0 else fee_loop w random request solve n total fee)
         else (if fee + 44 =? f then complete w random request solve total (fee + 44) amount (spare - f)
               else fee_loop w random request solve n total (fee + 44))) as Hround.
  { intros n f Hf. rewrite fee_round, Ham by done. destruct (spare <? f); [done|]. cbn zeta.
    destruct (Z.ltb_spec (spare - f) 100); [done|]. rewrite (proj2 (Z.ltb_lt 0 (spare - f))), E1 by lia. done. }
  change DUST_RELAY_VALUE_ATOMS with 100. unfold MIN_TX_FEE_ATOMS, MIN_TX_FEE_PER_VBYTE_ATOMS, MIN_RELAY_FEE_RATE_ATOMS_PER_VBYTE.
  clearbody spare fee amount. clear Ham Hinc Hdust E1.
  repeat (rewrite Hround by lia;
    repeat match goal with
    | |- context [?a <? ?b] => destruct (Z.ltb_spec a b); try lia
    | |- context [?a =? ?b] => destruct (Z.eqb_spec a b); try lia
    end; try reflexivity).
Qed.
End loop.

(** ** Signer groups *)

(** The indexes of the inputs with a script. *)
Definition owned (script : bytes) (us : list WalletSpendUtxo) : list Z :=
  fst <$> filter (fun iu => su_locking_script iu.2 = script) (enumerate us).

Lemma enumerate_snoc {A} (l : list A) x : enumerate (l ++ [x]) = enumerate l ++ [(zlen l, x)].
Proof. unfold enumerate. rewrite imap_app. cbn. unfold zlen. by rewrite Nat.add_0_r. Qed.
Lemma owned_snoc script us u :
  owned script (us ++ [u]) = owned script us ++ (if decide (su_locking_script u = script) then [zlen us] else []).
Proof.
  unfold owned. rewrite enumerate_snoc, filter_app, fmap_app. f_equal. rewrite filter_cons, filter_nil. cbn [snd]. by destruct (decide _).
Qed.
Lemma elem_of_owned script us i :
  i ∈ owned script us <-> exists u, 0 <= i /\ us !! Z.to_nat i = Some u /\ su_locking_script u = script.
Proof.
  induction us as [|u us IH] using rev_ind.
  { split; [by intros ?%elem_of_nil|]. intros (u & _ & Hu & _). by rewrite lookup_nil in Hu. }
  rewrite owned_snoc, elem_of_app, IH. split.
  - intros [(x & H0 & Hx & Hs')|Hin]; [exists x; split_and!; [done| |done]; by apply lookup_app_l_Some|].
    destruct (decide _) as [E|]; [|by apply elem_of_nil in Hin]. apply list_elem_of_singleton in Hin as ->.
    exists u. unfold zlen. split_and!; [lia| |done]. rewrite Nat2Z.id. by rewrite lookup_app_r, Nat.sub_diag by lia.
  - intros (x & H0 & Hx & Hs'). apply lookup_app_Some in Hx as [Hx|[Hle Hx]]; [left; eauto|right].
    apply list_lookup_singleton_Some in Hx as [Hi ->]. rewrite decide_True by done. apply list_elem_of_singleton. unfold zlen. lia.
Qed.
Lemma owned_sorted script us : StronglySorted Z.lt (owned script us) /\ Forall (fun i => 0 <= i < zlen us) (owned script us).
Proof.
  split.
  - induction us as [|u us IH] using rev_ind; [constructor|]. rewrite owned_snoc. destruct (decide _); [|by rewrite app_nil_r].
    apply StronglySorted_snoc_last; [done|]. intros y Hy%last_Some_elem_of. apply elem_of_owned in Hy as (x & H0 & Hx%lookup_lt_Some & _). unfold zlen. lia.
  - apply Forall_forall. intros i (x & H0 & Hx%lookup_lt_Some & _)%elem_of_owned. unfold zlen. lia.
Qed.

(** The grouping loop collects them. *)
Lemma group_inputs_spec us grouped :
  zlen us <= 2 ^ 32 -> try_fold group_input ∅ (enumerate us) = Ok grouped ->
  Forall (fun u => is_canonical_payment_locking_script (su_locking_script u) = true) us
  /\ forall script, grouped !! script = match owned script us with [] => None | l => Some l end.
Proof.
  revert grouped. induction us as [|u us IH] using rev_ind; intros grouped Hlen.
  { intros [= <-]. split; [constructor|]. intros script. by rewrite lookup_empty. }
  rewrite zlen_app in Hlen. change (zlen [u]) with 1 in Hlen. rewrite enumerate_snoc, try_fold_app.
  intros (g & Hg & Hu)%bind_Ok. apply IH in Hg as [Hc Hg]; [|lia]. cbn [try_fold group_input] in Hu.
  destruct (is_canonical_payment_locking_script (su_locking_script u)) eqn:Ec; [|done]. cbn [negb mbind result_bind] in Hu.
  injection Hu as <-. pose proof (zlen_nonneg us) as H0. split; [apply Forall_app; split; [done|by constructor]|].
  intros script. rewrite owned_snoc, Z.mod_small by lia. destruct (decide (su_locking_script u = script)) as [->|Hne].
  - rewrite lookup_insert_eq, Hg. by destruct (owned script us).
  - rewrite lookup_insert_ne by done. by rewrite app_nil_r, Hg.
Qed.

Section groups.
Context `{Hs : Sha3, Laws : !Sha3Laws Hs, Hk : FalconSigner}.

Lemma known_addresses_Some (w : Wallet) (m : gmap bytes WalletAddress) (s : bytes) (a : WalletAddress) :
  foldl (fun m a => <[wa_payment_digest a := a]> m) ∅ (Wallet.all_addresses w) = m -> m !! s = Some a ->
  exists path, a = Wallet.derive_address w path /\ wa_payment_digest a = s.
Proof.
  intros <-. assert (forall l (m0 : gmap bytes WalletAddress),
    (forall s a, m0 !! s = Some a -> exists path, a = Wallet.derive_address w path /\ wa_payment_digest a = s) ->
    Forall (fun a => exists path, a = Wallet.derive_address w path) l ->
    forall s a, foldl (fun m a => <[wa_payment_digest a := a]> m) m0 l !! s = Some a ->
    exists path, a = Wallet.derive_address w path /\ wa_payment_digest a = s) as Hgen.
  { induction l as [|x l IH]; intros m0 Hm Hl; [exact Hm|]. apply Forall_cons in Hl as [[path Hx] Hl]. cbn [foldl]. apply IH; [|done].
    intros s' a' Hsa. apply lookup_insert_Some in Hsa as [[Hd ->]|[_ Hsa]]; [by exists path|by apply Hm]. }
  apply Hgen.
  - intros s' a' H. by rewrite lookup_empty in H.
  - unfold Wallet.all_addresses. apply Forall_fmap, Forall_true. intros r. cbn. by eexists.
Qed.

(** What grouping promises: every group is an address of the wallet with exactly the
    inputs its digest locks, every input is in one group, in order of their firsts. *)
Record grouped_inputs_of (w : Wallet) (us : list WalletSpendUtxo) (groups : list WalletSignerInputGroup) : Prop := {
  gi_canonical : Forall (fun u => is_canonical_payment_locking_script (su_locking_script u) = true) us;
  gi_groups : Forall (fun g => (exists path, wg_address g = Wallet.derive_address w path)
    /\ wg_input_indexes g = owned (wa_payment_digest (wg_address g)) us /\ wg_input_indexes g <> []) groups;
  gi_nodup : NoDup ((fun g => wa_payment_digest (wg_address g)) <$> groups);
  gi_cover : Forall (fun u => su_locking_script u ∈ (fun g => wa_payment_digest (wg_address g)) <$> groups) us;
  gi_sorted : StronglySorted Z.le (first_input_index <$> groups);
}.

Lemma sort_by_key_sorted {A} (key : A -> Z) l : StronglySorted Z.le (key <$> sort_by_key key l).
Proof.
  assert (StronglySorted (key_le key) (sort_by_key key l)) as H by apply (StronglySorted_merge_sort (key_le key)).
  induction H as [|a l' Hs' IH Ha]; cbn; constructor; [done|]. by apply Forall_fmap.
Qed.

Lemma signer_input_groups_spec w us groups :
  zlen us <= 2 ^ 32 -> signer_input_groups w us = Ok groups -> grouped_inputs_of w us groups.
Proof.
  intros Hlen. unfold signer_input_groups. set (m := foldl _ _ _). intros (grouped & Hg & H)%bind_Ok.
  apply bind_Ok in H as (gs & Hgs%try_map_Ok & [= <-]). apply group_inputs_spec in Hg as [Hcan Hg]; [|done].
  assert (sort_by_key first_input_index gs ≡ₚ gs) as Hperm by apply merge_sort_Permutation.
  assert (Forall2 (fun sl g => wa_payment_digest (wg_address g) = sl.1 /\ wg_input_indexes g = sl.2
    /\ exists path, wg_address g = Wallet.derive_address w path) (sorted_entries bytes_le grouped) gs) as Hgs'.
  { eapply Forall2_impl; [exact Hgs|]. intros [s l] g (a & Ha & [= <-])%bind_Ok. apply ok_or_Ok in Ha. cbn [wg_address wg_input_indexes fst snd].
    destruct (m !! s) as [a'|] eqn:Em.
    - injection Ha as ->. destruct (known_addresses_Some w m s a eq_refl Em) as (path & -> & Hd). split_and!; [done|done|by exists path].
    - apply discovered_Some in Ha as (path & -> & _ & Hd). split_and!; [done|done|by exists path]. }
  assert (((fun g => wa_payment_digest (wg_address g)) <$> gs) = (sorted_entries bytes_le grouped).*1) as Hdig.
  { clear -Hgs'. induction Hgs' as [|sl g l gs (Hd & _) _ IH]; [done|]. cbn. by rewrite IH, Hd. }
  split.
  - done.
  - rewrite Hperm. apply Forall_forall. intros g Hin. apply list_elem_of_lookup in Hin as [k Hk'].
    destruct (Forall2_lookup_r _ _ _ _ _ Hgs' Hk') as ([s l] & Hsl & Hd & Hl & Hp). cbn [fst snd] in *. split; [done|].
    apply list_elem_of_lookup_2, elem_of_sorted_entries in Hsl. rewrite Hg in Hsl. rewrite Hd, Hl.
    destruct (owned s us); [done|]. by injection Hsl as <-.
  - rewrite Hperm, Hdig. unfold sorted_entries. rewrite merge_sort_Permutation. apply NoDup_fst_map_to_list.
  - apply Forall_forall. intros u Hu. rewrite Hperm, Hdig. apply list_elem_of_fmap.
    apply list_elem_of_lookup in Hu as [k Hk'].
    assert (Z.of_nat k ∈ owned (su_locking_script u) us) as Ho by (apply elem_of_owned; exists u; rewrite Nat2Z.id; split_and!; [lia|done|done]).
    exists (su_locking_script u, owned (su_locking_script u) us). split; [done|]. apply elem_of_sorted_entries. rewrite Hg.
    destruct (owned (su_locking_script u) us); [by apply elem_of_nil in Ho|done].
  - apply sort_by_key_sorted.
Qed.
End groups.

(** ** A well-laid witness is accepted *)

Section layout.
Context `{Hs : Sha3}.

Record well_laid (tx : Transaction) (gs : list WitnessSignerGroup) : Prop := {
  wl_groups : Forall (fun g => g_signature g <> [] /\ g_pubkey g <> [] /\ g_input_refs g <> []
    /\ refs_valid tx (g_signature g) (g_input_refs g)) gs;
  wl_firsts : StronglySorted Z.lt (first_ref_index <$> gs);
  wl_cover : (gs ≫= fun g => input_index <$> g_input_refs g) ≡ₚ seqZ 0 (zlen (inputs tx));
}.

(** [by_input] still has the sentinel at the inputs in [free] only. *)
Definition free_are (n : nat) (by_input : list Z) (free : Z -> Prop) : Prop :=
  length by_input = n /\ forall i : nat, by_input !! i = Some USIZE_MAX <-> (i < n)%nat /\ free (Z.of_nat i).

Lemma input_refs_complete tx signature gi rs : forall prev by_input free,
  gi <> USIZE_MAX -> refs_valid tx signature rs ->
  Forall (fun i => 0 <= i /\ free i) (input_index <$> rs) ->
  (forall p, prev = Some p -> Forall (fun i => p < i) (input_index <$> rs)) ->
  free_are (length (inputs tx)) by_input free ->
  exists prev' by', try_fold (prepare_input_ref tx (Transaction.txid tx) signature gi) (prev, by_input) rs = Ok (prev', by')
    /\ free_are (length (inputs tx)) by' (fun i => free i /\ i ∉ input_index <$> rs).
Proof.
  induction rs as [|r rs IH]; intros prev by_input free Hgi [Hsort Hval] Hfree Hprev [Hlen Hby].
  { exists prev, by_input. split; [done|]. split; [done|]. intros i. rewrite Hby. split; [intros [? ?]|intros [? [? _]]]; [split_and!; [done|done|]|done].
    cbn. by intros ?%elem_of_nil. }
  cbn [fmap list_fmap] in *. apply Forall_cons in Hval as [[Hlt Hshort] Hval], Hfree as [[H0 Hf] Hfree].
  apply StronglySorted_inv in Hsort as [Hsort Hr].
  assert (by_input !! Z.to_nat (input_index r) = Some USIZE_MAX) as Hmax.
  { apply Hby. rewrite Z2Nat.id by done. split; [unfold zlen in Hlt; lia|done]. }
  assert (prepare_input_ref tx (Transaction.txid tx) signature gi (prev, by_input) r
    = Ok (Some (input_index r), <[Z.to_nat (input_index r) := gi]> by_input)) as Hstep.
  { unfold prepare_input_ref. rewrite (proj2 (Z.leb_gt (zlen (inputs tx)) (input_index r))) by done.
    assert (not_after (input_index r) prev = false) as ->.
    { destruct prev as [p|]; [|done]. specialize (Hprev p eq_refl). apply Forall_cons in Hprev as [? _]. apply Z.leb_gt. lia. }
    rewrite (nth_lookup_Some _ _ _ _ Hmax), Z.eqb_refl. cbn [negb]. by rewrite bool_decide_eq_true_2. }
  cbn [try_fold]. rewrite Hstep. cbn [mbind result_bind].
  destruct (IH (Some (input_index r)) (<[Z.to_nat (input_index r) := gi]> by_input) (fun i => free i /\ i <> input_index r)) as (prev' & by' & -> & Hl' & Hb').
  - done.
  - by split.
  - eapply Forall_impl; [apply Forall_and; split; [exact Hfree|exact Hr]|]. cbn. intros i [[? ?] ?]. split_and!; [done|done|lia].
  - by intros p [= <-].
  - split; [by rewrite length_insert|]. intros i. destruct (decide (i = Z.to_nat (input_index r))) as [->|Hne].
    + rewrite list_lookup_insert_eq by by eapply lookup_lt_Some. rewrite Z2Nat.id by done. split; [by intros [= ?]|by intros (_ & _ & [])].
    + rewrite list_lookup_insert_ne, Hby by done. split; [intros [? ?]|intros (? & ? & _)]; split_and!; try done. lia.
  - exists prev', by'. split; [done|]. split; [done|]. intros i. rewrite Hb'. cbn. rewrite elem_of_cons. tauto.
Qed.

Lemma first_ref_index_head g r : head (g_input_refs g) = Some r -> first_ref_index g = input_index r.
Proof. unfold first_ref_index. by intros ->. Qed.

Lemma signer_groups_complete tx igs : forall prev by_input groups free,
  Forall (fun ig => ig.1 <> USIZE_MAX) igs ->
  Forall (fun g => g_signature g <> [] /\ g_pubkey g <> [] /\ g_input_refs g <> []
    /\ refs_valid tx (g_signature g) (g_input_refs g)) igs.*2 ->
  StronglySorted Z.lt (first_ref_index <$> igs.*2) ->
  NoDup (igs.*2 ≫= fun g => input_index <$> g_input_refs g) ->
  Forall (fun i => 0 <= i /\ free i) (igs.*2 ≫= fun g => input_index <$> g_input_refs g) ->
  (forall p, prev = Some p -> Forall (fun i => p < i) (first_ref_index <$> igs.*2)) ->
  free_are (length (inputs tx)) by_input free ->
  exists prev' by', try_fold (prepare_signer_group tx (Transaction.txid tx)) (prev, by_input, groups) igs
      = Ok (prev', by', groups ++ (prepared_group <$> igs.*2))
    /\ free_are (length (inputs tx)) by' (fun i => free i /\ i ∉ igs.*2 ≫= fun g => input_index <$> g_input_refs g).
Proof.
  induction igs as [|[gi g] igs IH]; intros prev by_input groups free Hgi Hval Hsort Hnd Hfree Hprev Hby.
  { exists prev, by_input. cbn. rewrite app_nil_r. split; [done|]. destruct Hby as [Hl Hb]. split; [done|]. intros i. rewrite Hb.
    split; [intros [? ?]|intros [? [? _]]]; [split_and!; [done|done|by intros ?%elem_of_nil]|done]. }
  cbn [fmap list_fmap snd fst] in *. rewrite bind_cons in Hnd, Hfree. apply NoDup_app in Hnd as (_ & Hdis & Hnd).
  apply Forall_app in Hfree as [Hfree1 Hfree2]. apply Forall_cons in Hgi as [Hgi Hgis]. cbn [fst] in Hgi.
  apply Forall_cons in Hval as [(Hsig & Hpk & Hrefs & Hrv) Hval]. apply StronglySorted_inv in Hsort as [Hsort Hfirst].
  destruct (g_input_refs g) as [|r rs] eqn:Er; [done|]. assert (first_ref_index g = input_index r) as Efirst by (apply first_ref_index_head; by rewrite Er).
  destruct (input_refs_complete tx (g_signature g) gi (r :: rs) None by_input free) as (pr & b1 & Hrun & Hb1); [done|done|done|done|done|].
  assert (prepare_signer_group tx (Transaction.txid tx) (prev, by_input, groups) (gi, g)
    = Ok (Some (input_index r), b1, groups ++ [prepared_group g])) as Hstep.
  { unfold prepare_signer_group. rewrite Er. rewrite !bool_decide_eq_false_2 by done. cbn [orb head ok_or mbind result_bind].
    assert (not_after (input_index r) prev = false) as ->.
    { destruct prev as [p|]; [|done]. specialize (Hprev p eq_refl). apply Forall_cons in Hprev as [? _]. apply Z.leb_gt. lia. }
    rewrite Hrun. cbn [mbind result_bind snd]. unfold prepared_group. by rewrite Er. }
  cbn [try_fold]. rewrite Hstep. cbn [mbind result_bind].
  destruct (IH (Some (input_index r)) b1 (groups ++ [prepared_group g]) (fun i => free i /\ i ∉ input_index <$> r :: rs))
    as (prev' & by' & E & Hl' & Hb'); [done|done|done|done| | |done|].
  - eapply Forall_impl; [apply Forall_and; split; [exact Hfree2|]|].
    + apply Forall_forall. intros i Hi. exact (fun H => Hdis i H Hi).
    + cbn. tauto.
  - intros p [= <-]. by rewrite <- Efirst.
  - exists prev', by'. rewrite E. split; [by rewrite <- app_assoc|].
    split; [done|]. intros i. rewrite Hb', bind_cons, Er, elem_of_app. tauto.
Qed.

(** What preparing asks of a transaction besides its witness. *)
Record plain_checks (tx : Transaction) (fee : Z) (network : Network) (height : Z) schedule : Prop := {
  pc_inputs : inputs tx <> [];
  pc_version : is_supported_transaction_version_with_schedule (version tx) height schedule = true;
  pc_outputs : outputs tx <> [] /\ zlen (outputs tx) <= MAX_STANDARD_OUTPUTS;
  pc_size : Transaction.full_size_bytes tx <= MAX_TRANSACTION_RAW_BYTES /\ Transaction.vsize_bytes tx <= MAX_TRANSACTION_VBYTES;
  pc_values : Forall (fun o => DUST_RELAY_VALUE_ATOMS <= value_atoms o /\ zlen (locking_script o) = ADDRESS_DIGEST_BYTES) (outputs tx);
  pc_nodup : NoDup (input_key <$> inputs tx);
  pc_fee : minimum_required_fee_atoms network tx <= fee;
}.
Lemma prepare_complete tx fee network height schedule w :
  plain_checks tx fee network height schedule ->
  Transaction.witness_payload tx = Some w -> TxWitness.is_empty w = false -> zlen (witness_signer_group_refs w) <= 2 ^ 32 ->
  TxWitness.total_input_refs w = zlen (inputs tx) -> well_laid tx (witness_signer_group_refs w) ->
  is_ok (prepare_transaction_validation tx fee network height schedule) = true.
Proof.
  intros [Hin Hver [Hout Hmax] [Hraw Hvs] Hvals Hnd Hfee] Hw He Hlen Htot [Hg Hf Hc]. unfold prepare_transaction_validation, Transaction.is_coinbase.
  rewrite bool_decide_eq_false_2 by done. rewrite Hver. cbn [negb]. rewrite bool_decide_eq_false_2 by done.
  change (maximum_standard_outputs network tx) with MAX_STANDARD_OUTPUTS. rewrite !(proj2 (Z.ltb_ge _ _)) by done. cbn [orb].
  rewrite Forall_forall in Hvals.
  rewrite (proj2 (existsb_false _ _)); [|apply Forall_forall; intros o Ho; destruct (Hvals o Ho); unfold DUST_RELAY_VALUE_ATOMS, MIN_OUTPUT_AMOUNT_ATOMS in *; lia].
  rewrite (proj2 (all_inserted_true _ _)) by (split; [done|]; apply Forall_true; set_solver). cbn [negb].
  change (minimum_output_amount_atoms network tx) with DUST_RELAY_VALUE_ATOMS.
  rewrite (proj2 (existsb_false _ _)); [|apply Forall_forall; intros o Ho; destruct (Hvals o Ho); lia].
  rewrite (proj2 (try_for_Ok _ _ tt)); [|apply Forall_forall; intros o Ho; destruct (Hvals o Ho) as [_ Hl]; by rewrite (proj2 (canonical_payment_lock_Ok (locking_script o) (locking_script o)))].
  cbn [mbind result_bind]. rewrite Hw. cbn [ok_or mbind result_bind]. unfold TxWitness.signer_group_count. rewrite He.
  rewrite (proj2 (Z.eqb_neq _ _)) by (pose proof (zlen_nonneg (additional_signers w)); lia). rewrite Htot, Z.eqb_refl. cbn [negb].
  set (gs := witness_signer_group_refs w) in *.
  destruct (signer_groups_complete tx (enumerate gs) None (replicate (length (inputs tx)) USIZE_MAX) [] (fun _ => True))
    as (prev' & by' & -> & Hl & Hb).
  - apply Forall_forall. intros [gi g] (k & -> & Hk%lookup_lt_Some)%enumerate_elem. cbn. unfold USIZE_MAX, zlen in *. lia.
  - by rewrite enumerate_snd.
  - by rewrite enumerate_snd.
  - rewrite enumerate_snd, Hc. apply NoDup_seqZ.
  - rewrite enumerate_snd, Hc. apply Forall_forall. intros i Hi%elem_of_seqZ. split; [lia|done].
  - done.
  - split; [by rewrite length_replicate|]. intros i. rewrite lookup_replicate. tauto.
  - cbn [mbind result_bind]. rewrite bool_decide_eq_false_2; [done|]. intros [i Hi]%list_elem_of_lookup. apply Hb in Hi as (Hi & _ & Hni).
    apply Hni. rewrite enumerate_snd, Hc. apply elem_of_seqZ. unfold zlen. lia.
Qed.
End layout.

(** ** The signed witness *)

Section signed.
Context `{Hs : Sha3, Laws : !Sha3Laws Hs, Hf : FalconBackend, Hk : FalconSigner, SLaws : !FalconSignerLaws Hk Hf}.
Context (w : Wallet).

(** A signer group is what [sign_group] makes of an input group. *)
Record signed_group (tx : Transaction) (g : WalletSignerInputGroup) (sg : WitnessSignerGroup) : Prop := {
  sg_pubkey : g_pubkey sg = public_key (Wallet.keypair_for_path w (wa_path (wg_address g)));
  sg_sizes : zlen (g_signature sg) = FALCON_512_SIGNATURE_BYTES /\ zlen (g_pubkey sg) = FALCON_512_PUBLIC_KEY_BYTES;
  sg_verifies : falcon_verify (label DomainTransaction) (g_pubkey sg)
    (transaction_signing_digest_for_input_indexes (wallet_network w) tx (wg_input_indexes g)) (g_signature sg) = Ok true;
  sg_refs : g_input_refs sg = (fun i => {| input_index := i; sig_ref_short := derive_sig_ref_short (Transaction.txid tx) (g_signature sg) i;
                                           witness_commit_ref := zeros 16 |}) <$> wg_input_indexes g;
}.

Lemma sign_group_spec random tx ig sg :
  sign_group w random tx (Transaction.txid tx) ig = Ok sg -> signed_group tx ig.2 sg.
Proof.
  destruct ig as [i g]. unfold sign_group. intros (s & Hsign & [= <-])%bind_Ok. apply map_err_Ok in Hsign.
  pose proof (keypair_generated w (wa_path (wg_address g))) as Hkp. apply generated_key in Hkp as [Hlen Hsig].
  destruct (random i) as [entropy|].
  - destruct (Hsig entropy DomainTransaction (transaction_signing_digest_for_input_indexes (wallet_network w) tx (wg_input_indexes g)))
      as (s' & Hs' & Hsl & Hv). assert (s' = s) as -> by congruence. by split.
  - unfold sign in Hsign. by destruct (decode_signing_key _).
Qed.

Lemma input_refs_indexes tx g sg : signed_group tx g sg -> input_index <$> g_input_refs sg = wg_input_indexes g.
Proof using. intros [_ _ _ ->]. rewrite <- list_fmap_compose. cbn. by apply list_fmap_id. Qed.

(** The indexes of the groups are those of the inputs, each once. *)
Lemma lt_sorted_NoDup l : StronglySorted Z.lt l -> NoDup l.
Proof using.
  induction 1 as [|x l Hl IH Hx]; constructor; [|done]. intros Hin. rewrite Forall_forall in Hx. specialize (Hx _ Hin). lia.
Qed.
Lemma NoDup_fmap_eq {A B} (f : A -> B) l x y : NoDup (f <$> l) -> x ∈ l -> y ∈ l -> f x = f y -> x = y.
Proof using.
  intros Hnd [i Hi]%list_elem_of_lookup [j Hj]%list_elem_of_lookup Heq.
  assert (i = j) as ->; [|congruence]. apply (NoDup_lookup (f <$> l) i j (f x)); [done|by rewrite list_lookup_fmap, Hi|by rewrite list_lookup_fmap, Hj, Heq].
Qed.
Lemma groups_cover us groups :
  grouped_inputs_of w us groups -> (groups ≫= wg_input_indexes) ≡ₚ seqZ 0 (zlen us).
Proof using.
  intros [_ Hg Hnd Hcov _]. rewrite Forall_forall in Hg. rewrite Forall_forall in Hcov. apply NoDup_Permutation.
  - apply NoDup_bind.
    + intros g1 g2 i H1 H2 Hi1 Hi2. apply (NoDup_fmap_eq (fun g => wa_payment_digest (wg_address g)) groups); [done..|]. cbn.
      destruct (Hg _ H1) as (_ & E1 & _), (Hg _ H2) as (_ & E2 & _). rewrite E1, elem_of_owned in Hi1. rewrite E2, elem_of_owned in Hi2.
      destruct Hi1 as (u1 & _ & Hu1 & <-), Hi2 as (u2 & _ & Hu2 & <-). congruence.
    + intros g H. destruct (Hg _ H) as (_ & -> & _). apply lt_sorted_NoDup, owned_sorted.
    + by eapply NoDup_fmap_1.
  - apply NoDup_seqZ.
  - intros i. rewrite elem_of_seqZ, list_elem_of_bind. split.
    + intros (g & Hi & H). destruct (Hg _ H) as (_ & E & _). rewrite E in Hi. destruct (owned_sorted (wa_payment_digest (wg_address g)) us) as [_ Hr].
      rewrite Forall_forall in Hr. apply Hr in Hi. lia.
    + intros Hi. destruct (lookup_lt_is_Some_2 us (Z.to_nat i)) as [u Hu]; [unfold zlen in Hi; lia|].
      destruct (proj1 (list_elem_of_fmap _ _ _) (Hcov u (list_elem_of_lookup_2 _ _ _ Hu))) as (g & Hd & H). exists g. split; [|done].
      destruct (Hg _ H) as (_ & -> & _). apply elem_of_owned. exists u. split_and!; [lia|done|done].
Qed.

(** Signing the groups in some order and sorting them lays the witness out well. *)
Lemma signed_well_laid us tx groups sgs sgs' :
  grouped_inputs_of w us groups -> length us = length (inputs tx) -> Forall2 (signed_group tx) groups sgs -> sgs' ≡ₚ sgs ->
  StronglySorted Z.le (first_ref_index <$> sgs') -> well_laid tx sgs'.
Proof using.
  intros Hgi Hlen Hsg Hperm Hsort. pose proof (groups_cover _ _ Hgi) as Hcov. destruct Hgi as [_ Hg _ _ _].
  assert (zlen us = zlen (inputs tx)) as Hz by (unfold zlen; congruence).
  assert ((sgs' ≫= fun g => input_index <$> g_input_refs g) ≡ₚ seqZ 0 (zlen (inputs tx))) as Hc.
  { rewrite Hperm, <- Hz, <- Hcov. clear -Hsg. induction Hsg as [|g sg groups sgs Hs1 _ IH]; [done|].
    rewrite !bind_cons, IH, (input_refs_indexes _ _ _ Hs1). done. }
  assert (forall sg, sg ∈ sgs' -> exists g, g ∈ groups /\ signed_group tx g sg) as Hin.
  { intros sg Hx. rewrite Hperm in Hx. apply list_elem_of_lookup in Hx as [k Hk'].
    destruct (Forall2_lookup_r _ _ _ _ _ Hsg Hk') as (g & Hg' & Hs1). exists g. split; [by eapply list_elem_of_lookup_2|done]. }
  rewrite Forall_forall in Hg.
  assert (forall sg, sg ∈ sgs' -> exists r rs, g_input_refs sg = r :: rs) as Hne.
  { intros sg (g & Hg' & Hs1)%Hin. destruct (Hg _ Hg') as (_ & _ & Hn). rewrite <- (input_refs_indexes _ _ _ Hs1) in Hn.
    destruct (g_input_refs sg) as [|r rs]; [done|eauto]. }
  split; [| |done].
  - apply Forall_forall. intros sg Hx. destruct (Hin sg Hx) as (g & Hg' & Hs1). destruct (Hne sg Hx) as (r & rs & Er).
    destruct (Hg _ Hg') as (_ & Eidx & _). destruct (owned_sorted (wa_payment_digest (wg_address g)) us) as [Hso Hra].
    destruct (sg_sizes _ _ _ Hs1) as [Hsl Hpl]. split_and!.
    + intros E. rewrite E in Hsl. done.
    + intros E. rewrite E in Hpl. done.
    + by rewrite Er.
    + split; [by rewrite (input_refs_indexes _ _ _ Hs1), Eidx|]. rewrite (sg_refs _ _ _ Hs1), Eidx.
      apply Forall_fmap. eapply Forall_impl; [exact Hra|]. cbn. intros i Hi. split; [lia|done].
  - assert (NoDup (first_ref_index <$> sgs')) as Hnd.
    { assert (NoDup (sgs' ≫= fun g => input_index <$> g_input_refs g)) as Hnd by (rewrite Hc; apply NoDup_seqZ).
      clear -Hnd Hne. induction sgs' as [|sg l IH]; [constructor|]. rewrite bind_cons in Hnd. apply NoDup_app in Hnd as (_ & Hdis & Hnd).
      cbn [fmap list_fmap]. constructor; [|apply IH; [intros x Hx; apply Hne; by right|done]].
      intros (sg' & Heq & Hin)%list_elem_of_fmap. destruct (Hne sg ltac:(by left)) as (r & rs & Er).
      destruct (Hne sg' ltac:(by right)) as (r' & rs' & Er'). unfold first_ref_index in Heq. rewrite Er, Er' in Heq. cbn in Heq.
      apply (Hdis (input_index r)); [rewrite Er; by left|]. apply list_elem_of_bind. exists sg'. split; [|done]. rewrite Heq, Er'. by left. }
    clear -Hsort Hnd. induction Hsort as [|x l Hl IH Hx]; constructor; apply NoDup_cons in Hnd as [Hni Hnd]; [by apply IH|].
    rewrite Forall_forall in Hx. apply Forall_forall. intros y Hy. specialize (Hx y Hy). assert (x <> y) by by intros ->. lia.
Qed.
End signed.

(** ** The transaction it builds *)

Definition visited_group `{Sha3} (txid root : bytes) (g : WitnessSignerGroup) : WitnessSignerGroup :=
  {| g_signature := g_signature g; g_pubkey := g_pubkey g; g_input_refs := committed_ref txid root <$> g_input_refs g |}.
Definition group_size (g : WitnessSignerGroup) : Z := 12 + zlen (g_signature g) + zlen (g_pubkey g) + 22 * zlen (g_input_refs g).

Lemma zlen_group_bytes g : Forall TxWitness.wf_ref (g_input_refs g) -> zlen (TxWitness.group_bytes TxWitness.ref_bytes g) = group_size g.
Proof.
  intros Hr. unfold TxWitness.group_bytes, group_size. autorewrite with zlen. rewrite zlen_concat_map.
  assert (zsum ((fun r => zlen (TxWitness.ref_bytes r)) <$> g_input_refs g) = 22 * zlen (g_input_refs g)) as ->; [|lia].
  induction Hr as [|r rs Hr _ IH]; [done|]. rewrite fmap_cons, zlen_cons. cbn [zsum]. rewrite IH, zlen_ref_bytes by done. lia.
Qed.
Lemma zlen_canonical gs wit :
  witness_of_groups gs = Ok wit -> Forall (fun g => Forall TxWitness.wf_ref (g_input_refs g)) gs ->
  zlen (TxWitness.canonical_bytes wit) = 4 + zsum (group_size <$> gs).
Proof.
  destruct gs as [|p gs]; [done|]. intros [= <-] [Hp Hgs]%Forall_cons. unfold TxWitness.canonical_bytes. cbn [TxWitness.primary additional_signers
    w_signature w_pubkey w_input_refs]. autorewrite with zlen. rewrite zlen_group_bytes by done. cbn [g_input_refs g_signature g_pubkey].
  rewrite zlen_concat_map, fmap_cons. cbn [zsum].
  assert (zsum ((fun g => zlen (TxWitness.group_bytes TxWitness.ref_bytes g)) <$> gs) = zsum (group_size <$> gs)) as ->.
  { apply zsum_ext. eapply Forall_impl; [exact Hgs|]. intros g. apply zlen_group_bytes. }
  unfold group_size at 1. cbn [TxWitness.primary g_signature g_pubkey g_input_refs w_signature w_pubkey w_input_refs]. fold (group_size p). lia.
Qed.
(** The groups of a witness made from signed groups. *)
Lemma witness_groups gs wit :
  witness_of_groups gs = Ok wit -> Forall (fun g => g_signature g <> []) gs ->
  TxWitness.is_empty wit = false /\ witness_signer_group_refs wit = gs
  /\ TxWitness.total_input_refs wit = zlen (gs ≫= fun g => input_index <$> g_input_refs g)
  /\ zlen gs = 1 + zlen (additional_signers wit).
Proof.
  destruct gs as [|p gs]; [done|]. intros [= <-] [Hp _]%Forall_cons.
  assert (TxWitness.is_empty {| w_signature := g_signature p; w_pubkey := g_pubkey p; w_input_refs := g_input_refs p; additional_signers := gs |} = false) as He.
  { unfold TxWitness.is_empty. cbn [w_signature]. by rewrite bool_decide_eq_false_2. }
  split; [done|]. split; [unfold witness_signer_group_refs; rewrite He; by destruct p|]. split; [|by rewrite zlen_cons].
  unfold TxWitness.total_input_refs. cbn [w_input_refs additional_signers]. rewrite bind_cons, zlen_app, zlen_fmap. f_equal.
  clear. induction gs as [|g gs IH]; [done|]. rewrite bind_cons, zlen_app, zlen_fmap, fmap_cons. cbn [zsum]. by rewrite IH.
Qed.

Section build.
Context `{Hs : Sha3, Laws : !Sha3Laws Hs, Hf : FalconBackend, Hk : FalconSigner, SLaws : !FalconSignerLaws Hk Hf}.
Context (w : Wallet).

Lemma signed_refs_wf tx g sg :
  signed_group w tx g sg -> Forall (fun i => is_u32 i) (wg_input_indexes g) -> Forall TxWitness.wf_ref (g_input_refs sg).
Proof using Laws.
  intros Hsg Hi. rewrite (sg_refs _ _ _ _ Hsg). apply Forall_fmap. eapply Forall_impl; [exact Hi|]. intros i Hu. split_and!; [done| |done].
  cbn [sig_ref_short]. unfold derive_sig_ref_short. rewrite length_take, sha3_256_length. done.
Qed.

(** Everything about the transaction the signing step returns: its groups are signed,
    well laid, and decode from its witness with the commitment references filled in. *)
Definition built_from (tx0 : Transaction) (us : list WalletSpendUtxo) (tx : Transaction) : Prop :=
  exists groups signed sorted wit root,
    signer_input_groups w us = Ok groups /\ grouped_inputs_of w us groups
    /\ Forall2 (signed_group w tx0) groups signed /\ sorted ≡ₚ signed
    /\ same_spend tx tx0 /\ Transaction.witness_payload tx = Some wit
    /\ TxWitness.is_empty wit = false /\ zlen (witness_signer_group_refs wit) <= 2 ^ 32
    /\ TxWitness.total_input_refs wit = zlen (inputs tx0)
    /\ witness_signer_group_refs wit = visited_group (Transaction.txid tx0) root <$> sorted
    /\ well_laid tx0 sorted
    /\ zlen (witness tx) = 4 + zsum (group_size <$> signed).

Lemma Forall2_zip_seq {A B} (P : nat * A -> B -> Prop) (Q : A -> B -> Prop) l l' :
  (forall i x y, P (i, x) y -> Q x y) -> forall k, Forall2 P (zip (seq k (length l)) l) l' -> Forall2 Q l l'.
Proof using.
  intros HPQ. revert l'. induction l as [|x l IH]; intros l' k H; cbn in H.
  - apply Forall2_nil_inv_l in H as ->. constructor.
  - apply Forall2_cons_inv_l in H as (y & l2 & Hy & H & ->). constructor; [by eapply HPQ|by eapply IH].
Qed.
Lemma nonempty_bind_length {A B} (f : A -> list B) l : Forall (fun x => f x <> []) l -> zlen l <= zlen (l ≫= f).
Proof using.
  induction 1 as [|x l Hx _ IH]; [done|]. rewrite bind_cons, zlen_app, zlen_cons. destruct (f x); [done|].
  rewrite zlen_cons. pose proof (zlen_nonneg l0). lia.
Qed.
Lemma zlen_perm {A} (l l' : list A) : l ≡ₚ l' -> zlen l = zlen l'.
Proof using. intros H. unfold zlen. by rewrite H. Qed.
Lemma zlen_seqZ n : 0 <= n -> zlen (seqZ 0 n) = n.
Proof using. intros Hn. unfold zlen. rewrite length_seqZ. lia. Qed.

(** The staged witness is well-formed, so it decodes: the last error of the signing
    step cannot happen. *)
Lemma staged_witness_wf tx0 us groups signed sorted wit :
  zlen us <= MAX_WITNESS_INPUT_REFS -> length us = length (inputs tx0) ->
  grouped_inputs_of w us groups -> Forall2 (signed_group w tx0) groups signed -> sorted ≡ₚ signed ->
  well_laid tx0 sorted -> witness_of_groups sorted = Ok wit ->
  TxWitness.wf wit /\ Forall (fun g => Forall TxWitness.wf_ref (g_input_refs g)) sorted /\ zlen sorted <= zlen us.
Proof using Laws.
  intros Hmax Hlen Hgi Hsg Hperm Hwl Hwit.
  assert (zlen us = zlen (inputs tx0)) as Hz by (unfold zlen; congruence). pose proof (zlen_nonneg us) as Hn.
  assert (Forall TxWitness.wf_group sorted) as Hwf.
  { rewrite Hperm. apply Forall_forall. intros sg Hin. apply list_elem_of_lookup in Hin as [k Hk'].
    destruct (Forall2_lookup_r _ _ _ _ _ Hsg Hk') as (g & Hg & Hs1). destruct (sg_sizes _ _ _ _ Hs1) as [H1 H2]. split_and!; [done|done|].
    apply (signed_refs_wf tx0 g); [done|]. destruct Hgi as [_ Hgg _ _ _]. rewrite Forall_forall in Hgg.
    destruct (Hgg g (list_elem_of_lookup_2 _ _ _ Hg)) as (_ & -> & _). destruct (owned_sorted (wa_payment_digest (wg_address g)) us) as [_ Hr].
    eapply Forall_impl; [exact Hr|]. cbn. intros i Hi. apply is_u32_refs. lia. }
  destruct Hwl as [Hval _ Hcov].
  assert (Forall (fun g => g_signature g <> []) sorted) as Hsne by (eapply Forall_impl; [exact Hval|]; cbn; tauto).
  assert (zlen sorted <= zlen us) as Hcount.
  { rewrite Hz, <- (zlen_seqZ (zlen (inputs tx0))), <- (zlen_perm _ _ Hcov) by lia. apply nonempty_bind_length.
    eapply Forall_impl; [exact Hval|]. cbn. intros g (_ & _ & Hne & _) E. by apply fmap_nil_inv in E. }
  destruct (witness_groups _ _ Hwit Hsne) as (He & Hrefs & Htot & Hadd). split; [|split; [|done]].
  2:{ eapply Forall_impl; [exact Hwf|]. by intros g (_ & _ & ?). }
  unfold witness_signer_group_refs in Hrefs. rewrite He in Hrefs. cbn [negb app] in Hrefs. rewrite <- Hrefs in Hwf. apply Forall_cons in Hwf as [Hp Ha].
  split; [done|]. split; [apply is_u32_refs; pose proof (zlen_nonneg (additional_signers wit)); lia|]. split; [done|].
  rewrite Htot, (zlen_perm _ _ Hcov), zlen_seqZ by lia. lia.
Qed.

Lemma build_signed_spec random us version digest r change lock tx :
  let tx0 := build_spend_transaction_from_parts us version digest r change lock in
  zlen us <= MAX_WITNESS_INPUT_REFS ->
  build_signed_spend_transaction_from_parts w random us version digest r change lock = Ok tx ->
  built_from tx0 us tx.
Proof using Laws SLaws.
  intros tx0 Hmax. unfold build_signed_spend_transaction_from_parts. fold tx0.
  intros (groups & Hgroups & (signed & Hsigned%try_map_Ok & (wit & Hwit & (wit' & Hpay%ok_or_Ok & [= <-])%bind_Ok)%bind_Ok)%bind_Ok)%bind_Ok.
  assert (length us = length (inputs tx0)) as Hlen by (cbn; by rewrite length_fmap).
  assert (grouped_inputs_of w us groups) as Hgi.
  { apply signer_input_groups_spec; [|done]. change MAX_WITNESS_INPUT_REFS with 13796 in Hmax. lia. }
  assert (Forall2 (signed_group w tx0) groups signed) as Hsg.
  { eapply Forall2_zip_seq; [|exact Hsigned]. intros i g sg. cbn beta. apply (sign_group_spec w random tx0 (i, g)). }
  set (sorted := sort_by_key first_ref_index signed) in *.
  assert (sorted ≡ₚ signed) as Hperm by apply merge_sort_Permutation.
  assert (well_laid tx0 sorted) as Hwl by (eapply signed_well_laid; [done..|apply sort_by_key_sorted]).
  destruct (staged_witness_wf tx0 us groups signed sorted wit Hmax Hlen Hgi Hsg Hperm Hwl Hwit) as (Hwf & Hrefs & Hcount).
  assert (wit' = wit) as ->.
  { apply witness_payload_decodes in Hpay as (_ & Hwf' & E). cbn [with_witness witness] in E.
    assert (TxWitness.canonical_bytes wit ++ [] = TxWitness.canonical_bytes wit' ++ []) as E' by by rewrite E.
    symmetry. by apply (codec_prefix_free codec_witness) in E' as [? _]. }
  set (root := Transaction.witness_commitment_hash _) in *.
  change (fun r : WitnessInputRef => {| input_index := input_index r; sig_ref_short := sig_ref_short r;
    witness_commit_ref := wallet_witness_commit_ref (Transaction.txid tx0) root (input_index r) |}) with (committed_ref (Transaction.txid tx0) root).
  set (wit2 := TxWitness.for_each_input_ref_mut (committed_ref (Transaction.txid tx0) root) wit).
  assert (TxWitness.wf wit2) as Hwf2 by by apply visit_wf.
  assert (witness_of_groups (visited_group (Transaction.txid tx0) root <$> sorted) = Ok wit2) as Hwit2.
  { unfold wit2. destruct sorted as [|p sorted']; [done|]. by injection Hwit as <-. }
  assert (Forall (fun g => g_signature g <> []) (visited_group (Transaction.txid tx0) root <$> sorted)) as Hsne.
  { apply Forall_fmap. eapply Forall_impl; [exact (wl_groups _ _ Hwl)|]. cbn. tauto. }
  assert ((visited_group (Transaction.txid tx0) root <$> sorted) ≫= (fun g => input_index <$> g_input_refs g)
    = sorted ≫= fun g => input_index <$> g_input_refs g) as Eidx.
  { clear. induction sorted as [|g l IH]; [done|]. cbn [fmap list_fmap]. rewrite !bind_cons, IH. f_equal. cbn. by rewrite <- list_fmap_compose. }
  destruct (witness_groups _ _ Hwit2 Hsne) as (He & Hwg & Htot & _).
  exists groups, signed, sorted, wit2, root. split_and!; try done.
  - apply witness_payload_decodes. cbn [with_witness witness]. split_and!; [|done|done]. intros E. pose proof (zlen_canonical_ge wit2) as Hge.
    rewrite E in Hge. destruct Hwf2 as ((Hs2 & Hp2 & _) & _). cbn [TxWitness.primary g_signature g_pubkey] in Hs2, Hp2. rewrite Hs2, Hp2 in Hge. done.
  - rewrite Hwg, zlen_fmap. change MAX_WITNESS_INPUT_REFS with 13796 in Hmax. lia.
  - rewrite Htot, Eidx, (zlen_perm _ _ (wl_cover _ _ Hwl)), zlen_seqZ; [done|apply zlen_nonneg].
  - cbn [with_witness witness]. rewrite (zlen_canonical _ _ Hwit2).
    + f_equal. rewrite <- Hperm, <- list_fmap_compose. f_equal. apply list_fmap_ext. intros _ g _. unfold group_size. cbn. by rewrite zlen_fmap.
    + apply Forall_fmap. eapply Forall_impl; [exact Hrefs|]. cbn. intros g Hg. apply Forall_fmap. eapply Forall_impl; [exact Hg|].
      intros x (? & ? & _). split_and!; [done|done|]. cbn. unfold derive_witness_commit_ref. rewrite length_take, sha3_256_length. done.
Qed.
End build.

(** ** What the wallet builds is valid *)

Lemma seqZ_sorted m n : 0 <= n -> StronglySorted Z.le (seqZ m n).
Proof.
  intros Hn. revert m. apply (natlike_ind (fun n => forall m, StronglySorted Z.le (seqZ m n))); [|clear n Hn|done].
  - intros m. rewrite seqZ_nil by lia. constructor.
  - intros n Hn IH m. rewrite seqZ_cons by lia. constructor; [rewrite Z.pred_succ; apply IH|].
    apply Forall_forall. intros x Hx%elem_of_seqZ. lia.
Qed.
Lemma signing_digest_all `{Hs : Sha3} n tx :
  transaction_signing_digest n tx = transaction_signing_digest_for_input_indexes n tx (seqZ 0 (zlen (inputs tx))).
Proof.
  unfold transaction_signing_digest, transaction_signing_digest_for_input_indexes. f_equal. f_equal.
  unfold Transaction.signing_digest, Transaction.signing_digest_for_input_indexes, Transaction.update_signing_hasher_for_input_indexes.
  do 4 f_equal. unfold len_u32. by rewrite zlen_seqZ by apply zlen_nonneg.
Qed.

(** The coins are worth what the request adds up. *)
Lemma coins_total `{Hs : Sha3, Hf : FalconBackend} lookup p network h kis us acc total :
  Forall2 (fun ki u => exists e, coin_spendable lookup network h (signer_pubkey p ki.1) ki.2 e /\ u_value_atoms e = su_value_atoms u) kis us ->
  foldl (fun sum u => sum ← sum; checked_add U64_MAX sum (su_value_atoms u)) (Some acc) us = Some total ->
  try_fold (validate_input lookup p network h) acc kis = Ok total.
Proof.
  intros H. revert acc. induction H as [|[k i] u kis us (e & He & Hv) _ IH]; intros acc Hfold; cbn [foldl] in Hfold; [by injection Hfold as <-|].
  cbn [mbind option_bind] in Hfold. destruct (checked_add U64_MAX acc (su_value_atoms u)) as [acc'|] eqn:Ea.
  - cbn [try_fold]. rewrite (proj2 (validate_input_Ok lookup p network h acc i k acc')); [by apply IH|].
    apply checked_add_Some in Ea as [-> Hle]. exists e. by rewrite Hv.
  - exfalso. clear -Hfold. induction us as [|u' us IH]; [done|]. by apply IH.
Qed.

Section valid.
Context `{Hs : Sha3, Laws : !Sha3Laws Hs, Hf : FalconBackend, Hk : FalconSigner, SLaws : !FalconSignerLaws Hk Hf}.
Context (w : Wallet).

(** The signatures of a built transaction verify, whatever order and proof of work
    it ends up with. *)
Lemma built_signatures tx0 us tx wit :
  built_from w tx0 us tx -> length us = length (inputs tx0) -> Transaction.witness_payload tx = Some wit ->
  Forall (fun g => verify_signer_group tx (wallet_network w) (g_pubkey g) (g_signature g) (g_input_refs g) = Ok tt) (witness_signer_group_refs wit).
Proof.
  intros (groups & signed & sorted & wit' & root & _ & Hgi & Hsg & Hperm & Hsame & Hpay & _ & _ & _ & Hrefs & Hwl & _) Hlen Hpay'.
  assert (wit' = wit) as -> by congruence. rewrite Hrefs. apply Forall_fmap. rewrite Hperm. apply Forall_forall.
  intros sg Hin. apply list_elem_of_lookup in Hin as [k Hk']. destruct (Forall2_lookup_r _ _ _ _ _ Hsg Hk') as (g & Hg & Hs1).
  destruct (sg_sizes _ _ _ _ Hs1) as [Hsl Hpl]. cbn. apply verify_signer_group_Ok. split; [done|]. split; [done|].
  assert (input_index <$> (committed_ref (Transaction.txid tx0) root <$> g_input_refs sg) = wg_input_indexes g) as Eidx.
  { rewrite <- (input_refs_indexes _ _ _ _ Hs1), <- list_fmap_compose. done. }
  unfold signer_digest. rewrite Eidx. destruct Hsame as (Hv & Hi & Ho & Hl'). rewrite Hi.
  rewrite <- (sg_verifies _ _ _ _ Hs1). f_equal.
  assert (transaction_signing_digest_for_input_indexes (wallet_network w) tx (wg_input_indexes g)
    = transaction_signing_digest_for_input_indexes (wallet_network w) tx0 (wg_input_indexes g)) as Ed by by apply signing_digest_same_spend.
  destruct (Z.eqb_spec (zlen (wg_input_indexes g)) (zlen (inputs tx0))) as [Hall|]; [|exact Ed].
  rewrite signing_digest_all, Hi. rewrite <- Ed. f_equal.
  destruct Hgi as [_ Hgg _ _ _]. rewrite Forall_forall in Hgg. destruct (Hgg g (list_elem_of_lookup_2 _ _ _ Hg)) as (_ & Eo & _).
  destruct (owned_sorted (wa_payment_digest (wg_address g)) us) as [Hso Hra]. rewrite <- Eo in Hso, Hra.
  assert (zlen us = zlen (inputs tx0)) as Hz by (unfold zlen; congruence).
  apply (StronglySorted_unique Z.le).
  - apply seqZ_sorted, zlen_nonneg.
  - eapply StronglySorted_impl; [exact Hso|]. lia.
  - symmetry. apply submseteq_length_Permutation.
    + apply NoDup_submseteq; [by apply lt_sorted_NoDup|]. intros x Hx. rewrite Forall_forall in Hra. apply elem_of_seqZ. specialize (Hra x Hx). lia.
    + rewrite length_seqZ. unfold zlen in *. lia.
Qed.
End valid.

Section spend.
Context `{Hs : Sha3, Laws : !Sha3Laws Hs, Hf : FalconBackend, Hk : FalconSigner, SLaws : !FalconSignerLaws Hk Hf}.
Context (w : Wallet) (random : nat -> option bytes) (request : WalletSpendRequest) (solve : Network -> Transaction -> Z -> Transaction).

(** What a successful run went through. *)
Lemma fee_loop_Ok rounds : forall total fee stages spend,
  fee_loop w random request solve rounds total fee = (stages, Ok spend) ->
  exists r c ph tx, measure w request total (minimum_required_fee_atoms (wallet_network w) ph) = Ok (r, c, ph)
    /\ finish w random request total (minimum_required_fee_atoms (wallet_network w) ph) r c = Ok (tx, spend_fee_atoms spend)
    /\ spend_transaction spend = solve (wallet_network w) tx (spend_fee_atoms spend)
    /\ change_used spend = (0 <? c).
Proof using.
  induction rounds as [|rounds IH]; intros total fee stages spend; [done|]. cbn [fee_loop].
  destruct (measure w request total fee) as [[[r c] ph]|] eqn:Em; [|done].
  destruct (Z.eqb_spec (minimum_required_fee_atoms (wallet_network w) ph) fee) as [E|_]; [|by apply IH].
  unfold complete. destruct (finish w random request total _ r c) as [[tx final]|] eqn:Ef; [|done]. intros [= _ <-].
  exists r, c, ph, tx. rewrite E in *. done.
Qed.

Definition change_of (c : Z) (script : bytes) : option (Z * bytes) := if 0 <? c then Some (c, script) else None.
Definition request_transaction (r c : Z) (script : bytes) : Transaction :=
  build_spend_transaction_from_parts (selected_utxos request) (transaction_version request) (recipient_digest request) r
    (change_of c script) (request_lock_time request).

Lemma measure_inv total fee r c ph :
  measure w request total fee = Ok (r, c, ph) ->
  recipient_and_change_amounts total (amount_atoms request) fee (include_fee_in_total request) DUST_RELAY_VALUE_ATOMS = Ok (r, c)
  /\ (exists groups pw, signer_input_groups w (selected_utxos request) = Ok groups /\ placeholder_witness_for_groups groups = Ok pw
      /\ ph = with_witness (request_transaction r c (zeros 32)) pw)
  /\ Transaction.full_size_bytes ph <= MAX_TRANSACTION_RAW_BYTES /\ Transaction.vsize_bytes ph <= MAX_TRANSACTION_VBYTES.
Proof using.
  unfold measure, build_placeholder_spend_transaction_from_parts. fold (change_of c (zeros 32)).
  intros ([r' c'] & Ham & (ph' & (groups & Hg & (pw & Hpw & [= <-])%bind_Ok)%bind_Ok & (u & Hsz%ensure_size_Ok & [= -> -> <-])%bind_Ok)%bind_Ok)%bind_Ok.
  split; [done|]. split; [by exists groups, pw|done].
Qed.
Lemma finish_inv total fee r c tx final :
  finish w random request total fee r c = Ok (tx, final) ->
  exists script, (0 < c -> exists a, change_address request = Some a /\ script = wa_payment_digest a)
    /\ build_signed_spend_transaction_from_parts w random (selected_utxos request) (transaction_version request)
         (recipient_digest request) r (change_of c script) (request_lock_time request) = Ok tx
    /\ Transaction.full_size_bytes tx <= MAX_TRANSACTION_RAW_BYTES /\ Transaction.vsize_bytes tx <= MAX_TRANSACTION_VBYTES
    /\ (exists out, Transaction.checked_output_value_atoms tx = Some out /\ out <= total /\ final = total - out)
    /\ fee <= final /\ (0 < c -> final = fee).
Proof using.
  unfold finish. intros (change & Hchange & (tx' & Htx & (u & Hsz%ensure_size_Ok & (out & Hout%ok_or_Ok & (fin & Hfin%ok_or_Ok & H)%bind_Ok)%bind_Ok)%bind_Ok)%bind_Ok)%bind_Ok.
  apply checked_sub_Some in Hfin as [-> Hle]. destruct (Z.ltb_spec (total - out) fee); [done|].
  destruct ((0 <? c) && negb _) eqn:Eex; [done|]. injection H as <- <-. unfold change_of.
  destruct (Z.ltb_spec 0 c).
  - apply bind_Ok in Hchange as (a & Ha%ok_or_Ok & [= <-]). exists (wa_payment_digest a). split_and!; [by exists a|done|apply Hsz|apply Hsz|by exists out|done|].
    intros _. cbn [andb] in Eex. apply negb_false_iff, Z.eqb_eq in Eex. done.
  - injection Hchange as <-. exists []. split_and!; [lia|done|apply Hsz|apply Hsz|by exists out|done|lia].
Qed.

(** The placeholder has the length of the signed witness. *)
Lemma placeholder_size us groups pw :
  zlen us <= MAX_WITNESS_INPUT_REFS -> grouped_inputs_of w us groups -> placeholder_witness_for_groups groups = Ok pw ->
  zlen pw = 4 + zsum ((fun g => 12 + FALCON_512_SIGNATURE_BYTES + FALCON_512_PUBLIC_KEY_BYTES + 22 * zlen (wg_input_indexes g)) <$> groups).
Proof using.
  intros Hmax [_ Hg _ _ _]. unfold placeholder_witness_for_groups. intros (wit & Hwit & [= <-])%bind_Ok. pose proof (zlen_nonneg us).
  rewrite (zlen_canonical _ _ Hwit).
  - f_equal. rewrite <- list_fmap_compose. f_equal. apply list_fmap_ext. intros _ g _. unfold group_size, compose. cbn [g_signature g_pubkey g_input_refs].
    rewrite zlen_fmap. change (zlen (zeros (Z.to_nat FALCON_512_SIGNATURE_BYTES))) with FALCON_512_SIGNATURE_BYTES.
    change (zlen (zeros (Z.to_nat FALCON_512_PUBLIC_KEY_BYTES))) with FALCON_512_PUBLIC_KEY_BYTES. lia.
  - apply Forall_fmap. eapply Forall_impl; [exact Hg|]. cbn. intros g (_ & -> & _). apply Forall_fmap.
    eapply Forall_impl; [apply owned_sorted|]. cbn. intros i Hi. split_and!; [|done|done]. apply is_u32_refs. cbn. lia.
Qed.
Lemma signed_size tx0 groups signed :
  Forall2 (signed_group w tx0) groups signed ->
  zsum (group_size <$> signed) = zsum ((fun g => 12 + FALCON_512_SIGNATURE_BYTES + FALCON_512_PUBLIC_KEY_BYTES + 22 * zlen (wg_input_indexes g)) <$> groups).
Proof using.
  induction 1 as [|g sg groups signed Hs1 _ IH]; [done|]. rewrite !fmap_cons. cbn [zsum]. rewrite IH. f_equal. unfold group_size.
  destruct (sg_sizes _ _ _ _ Hs1) as [-> ->]. by rewrite (sg_refs _ _ _ _ Hs1), zlen_fmap.
Qed.
(** The size limit bounds the inputs. *)
Lemma inputs_bounded tx : Transaction.full_size_bytes tx <= MAX_TRANSACTION_RAW_BYTES -> zlen (inputs tx) <= MAX_WITNESS_INPUT_REFS.
Proof using.
  unfold Transaction.full_size_bytes. intros Hsz.
  assert (56 * zlen (inputs tx) <= zsum ((fun i => 48 + 4 + 4 + zlen (unlocking_script i)) <$> inputs tx)) as Hi.
  { clear. induction (inputs tx) as [|i l IH]; [done|]. rewrite fmap_cons, zlen_cons. cbn [zsum]. pose proof (zlen_nonneg (unlocking_script i)). lia. }
  pose proof (zsum_scripts_nonneg locking_script (8 + 4) (outputs tx) ltac:(lia)). pose proof (zlen_nonneg (witness tx)).
  unfold MAX_TRANSACTION_RAW_BYTES, TX_POW_NONCE_BYTES, TX_POW_BITS_BYTES in *. change MAX_WITNESS_INPUT_REFS with 13796. lia.
Qed.
End spend.

Section spend_valid.
Context `{Hs : Sha3, Laws : !Sha3Laws Hs, Hf : FalconBackend, Hk : FalconSigner, SLaws : !FalconSignerLaws Hk Hf}.
Context (w : Wallet) (random : nat -> option bytes) (request : WalletSpendRequest) (solve : Network -> Transaction -> Z -> Transaction).
Context (lookup : bytes -> Z -> option UtxoEntry) (height : Z) (schedule : list ScheduledActivation).

(** A selected output is a mature coin of the network with the value and script the
    request says. *)
Definition selected_coin (u : WalletSpendUtxo) (e : UtxoEntry) : Prop :=
  lookup (su_previous_txid u) (su_output_index u) = Some e /\ u_value_atoms e = su_value_atoms u
  /\ u_locking_script e = su_locking_script u /\ u_network e = wallet_network w /\ UtxoEntry.is_spendable_at e height = true.
(** The solver returns what an uncancelled run can. *)
Definition solver_correct : Prop :=
  forall tx fee, exists seed workers nonce, (forall bs, seed = Some bs -> length bs = 8%nat)
    /\ solver_outcome (fun _ => false) seed workers (wallet_network w) tx fee (solve (wallet_network w) tx fee) (Ok nonce).

Lemma solver_gives tx fee :
  solver_correct -> Transaction.is_coinbase tx = false ->
  same_spend (solve (wallet_network w) tx fee) tx /\ witness (solve (wallet_network w) tx fee) = witness tx
  /\ check_transaction_pow (solve (wallet_network w) tx fee) (wallet_network w) fee = Ok tt.
Proof using Laws.
  intros Hsolve Hcb. destruct (Hsolve tx fee) as (seed & workers & nonce & Hseed & Hout).
  apply solver_outcome_sound in Hout as (Hsame & Hwit & _ & Hvalid); [|done]. split; [done|]. split; [done|].
  apply check_pow_Ok. unfold transaction_pow_is_valid in Hvalid. split; [|done].
  set (tx' := solve (wallet_network w) tx fee) in *. unfold transaction_pow_is_valid_for_bits in Hvalid.
  assert (required_tx_pow_bits (wallet_network w) tx' fee <> 0) as Hnz.
  { assert (Transaction.is_coinbase tx' = false) as Hcb' by (unfold Transaction.is_coinbase in *; destruct Hsame as (_ & -> & _); done).
    unfold required_tx_pow_bits. rewrite Hcb'. destruct (bool_decide _); [done|]. cbn zeta.
    match goal with |- clamp ?b _ _ <> 0 => pose proof (clamp_bounds b TX_POW_MIN_BITS TX_POW_MAX_BITS ltac:(done)) as Hc end.
    assert (0 < TX_POW_MIN_BITS) by done. lia. }
  rewrite (proj2 (Z.eqb_neq _ _) Hnz) in Hvalid. by destruct (Z.eqb_spec (tx_pow_bits tx') (required_tx_pow_bits (wallet_network w) tx' fee)).
Qed.

(** The group that signs for an input owns its coin. *)
Lemma signer_owns us tx0 tx wit p i u :
  built_from w tx0 us tx -> Transaction.witness_payload tx = Some wit -> well_prepared tx p ->
  signer_groups p = prepared_group <$> witness_signer_group_refs wit ->
  inputs tx = inputs tx0 -> length us = length (inputs tx0) -> us !! i = Some u ->
  public_key_digest (wallet_network w) (signer_pubkey p (Z.of_nat i)) = su_locking_script u.
Proof using Laws.
  intros (groups & signed & sorted & wit' & root & _ & Hgi & Hsg & Hperm & _ & Hpay & _ & _ & _ & Hrefs & _ & _) Hpay' (_ & _ & _ & Hown) Hgr Hin Hlen Hu.
  assert (wit' = wit) as -> by congruence. pose proof (lookup_lt_Some _ _ _ Hu) as Hlt.
  destruct (Hown (Z.of_nat i)) as (k & pg & Hk1 & Hk2 & Hi); [rewrite Hin; unfold zlen; lia|].
  unfold signer_pubkey. rewrite (nth_lookup_Some _ _ _ _ Hk1), Nat2Z.id, Hk2. cbn [fmap option_fmap option_map from_option]. unfold id.
  rewrite Hgr, Hrefs in Hk2. apply list_elem_of_lookup_2, list_elem_of_fmap in Hk2 as (vg & -> & Hvg).
  apply list_elem_of_fmap in Hvg as (sg & -> & Hsgin). rewrite Hperm in Hsgin. apply list_elem_of_lookup in Hsgin as [j Hj].
  destruct (Forall2_lookup_r _ _ _ _ _ Hsg Hj) as (g & Hg & Hs1). cbn [prepared_group visited_group p_pubkey p_input_refs g_pubkey g_input_refs] in *.
  assert (input_index <$> (committed_ref (Transaction.txid tx0) root <$> g_input_refs sg) = wg_input_indexes g) as Eidx.
  { rewrite <- (input_refs_indexes _ _ _ _ Hs1), <- list_fmap_compose. done. }
  rewrite Eidx in Hi. destruct Hgi as [_ Hgg _ _ _]. rewrite Forall_forall in Hgg.
  destruct (Hgg g (list_elem_of_lookup_2 _ _ _ Hg)) as ((path & Hpath) & Eo & _). rewrite Eo in Hi. apply elem_of_owned in Hi as (u' & _ & Hu' & Es).
  rewrite Nat2Z.id in Hu'. assert (u' = u) as -> by congruence. rewrite Es, (sg_pubkey _ _ _ _ Hs1), Hpath. done.
Qed.

Lemma built_from_same tx0 us tx tx' :
  built_from w tx0 us tx -> same_spend tx' tx -> witness tx' = witness tx -> built_from w tx0 us tx'.
Proof using.
  intros (groups & signed & sorted & wit & root & H1 & H2 & H3 & H4 & H5 & H6 & H7 & H8 & H9 & H10 & H11 & H12) Hsame Hw.
  exists groups, signed, sorted, wit, root. split_and!; try done.
  - destruct Hsame as (? & ? & ? & ?), H5 as (? & ? & ? & ?). split_and!; congruence.
  - unfold Transaction.witness_payload in *. by rewrite Hw.
  - by rewrite Hw.
Qed.
Lemma well_laid_visited tx0 tx root sorted :
  well_laid tx0 sorted -> same_spend tx tx0 -> well_laid tx (visited_group (Transaction.txid tx0) root <$> sorted).
Proof using.
  intros [Hg Hfirst Hc] Hsame. assert (Transaction.txid tx = Transaction.txid tx0) as Etx by by rewrite !txid_base, (base_bytes_same_spend _ _ Hsame).
  destruct Hsame as (_ & Hin & _). assert (forall g, input_index <$> g_input_refs (visited_group (Transaction.txid tx0) root g) = input_index <$> g_input_refs g) as Eidx.
  { intros g. cbn. by rewrite <- list_fmap_compose. }
  split.
  - apply Forall_fmap. eapply Forall_impl; [exact Hg|]. cbn. intros g (H1 & H2 & H3 & H4 & H5). split_and!; [done|done| |].
    + intros E. by apply fmap_nil_inv in E.
    + split; [pose proof (Eidx g) as E; cbn in E; by rewrite E|]. rewrite Etx, Hin. apply Forall_fmap. exact H5.
  - rewrite <- list_fmap_compose. erewrite list_fmap_ext; [exact Hfirst|]. intros _ g _. unfold first_ref_index. cbn. by destruct (g_input_refs g).
  - rewrite Hin, <- Hc. clear -Eidx. induction sorted as [|g l IH]; [done|]. rewrite fmap_cons, !bind_cons, IH, Eidx. done.
Qed.

(** A well-built transaction that also passes the plain checks is valid. *)
Lemma built_valid tx0 us tx fee :
  built_from w tx0 us tx -> inputs tx0 = ((fun u => {| previous_txid := su_previous_txid u; output_index := su_output_index u;
    unlocking_script := su_locking_script u |}) <$> us) ->
  plain_checks tx fee (wallet_network w) height schedule -> Forall (fun u => exists e, selected_coin u e) us ->
  check_transaction_pow tx (wallet_network w) fee = Ok tt ->
  foldl (fun sum u => sum ← sum; checked_add U64_MAX sum (su_value_atoms u)) (Some 0) us = Some (zsum (value_atoms <$> outputs tx) + fee) ->
  0 <= fee -> is_Some (Transaction.checked_output_value_atoms tx) ->
  validate_transaction_with_context_and_schedule lookup tx fee (wallet_network w) height schedule = Ok fee.
Proof using Laws SLaws.
  intros Hbuilt Hinputs Hplain Hcoins Hpow Htotal Hfee [out Hout].
  pose proof Hbuilt as (groups & signed & sorted & wit & root & _ & Hgi & _ & _ & Hsame & Hpay & Hempty & Hcount & Htot & Hrefs & Hwl & _).
  pose proof Hsame as (_ & Hin & _). assert (length us = length (inputs tx0)) as Hlen by by rewrite Hinputs, length_fmap.
  pose proof (prepare_complete tx fee (wallet_network w) height schedule wit Hplain Hpay Hempty Hcount ltac:(by rewrite Hin)
    ltac:(rewrite Hrefs; by apply well_laid_visited)) as Hprep.
  unfold validate_transaction_with_context_and_schedule.
  destruct (prepare_transaction_validation tx fee (wallet_network w) height schedule) as [p|] eqn:Ep; [|done]. clear Hprep. cbn [mbind result_bind].
  apply prepare_checks in Ep as (_ & _ & _ & _ & _ & (wit' & Hpay' & Hgroups) & Hwp). assert (wit' = wit) as -> by congruence.
  unfold validate_transaction_with_context_exact_fee_prepared_and_schedule, validate_transaction_with_context_common_and_schedule.
  rewrite (coins_total lookup p (wallet_network w) height (enumerate (inputs tx)) us 0 _) with (2 := Htotal).
  - cbn [mbind result_bind]. rewrite Hout. apply checked_output_value_Some in Hout as ->. cbn [ok_or mbind result_bind].
    rewrite (proj2 (checked_sub_Some _ _ fee)) by lia. cbn [ok_or mbind result_bind]. rewrite Z.eqb_refl. cbn [negb]. rewrite Hpow. cbn [mbind result_bind].
    unfold verify_transaction_signature_prepared. rewrite (proj2 (try_for_Ok _ _ tt)); [done|]. rewrite Hgroups. apply Forall_fmap. exact (built_signatures w tx0 us tx wit Hbuilt Hlen Hpay).
  - rewrite Hin, Hinputs. apply Forall2_same_length_lookup_2; [unfold enumerate; by rewrite length_imap, length_fmap|].
    intros k [k' i] u Hk1 Hu. rewrite enumerate_lookup, list_lookup_fmap, Hu in Hk1. injection Hk1 as <- <-. cbn [fst snd].
    destruct (proj1 (Forall_lookup _ _) Hcoins k u Hu) as (e & Hl & Hv & Hs1 & Hn & Hsp). exists e. split; [|done]. cbn [previous_txid output_index unlocking_script].
    pose proof (proj1 (Forall_lookup _ _) (gi_canonical _ _ _ Hgi) k u Hu) as Hcan. cbn in Hcan.
    split_and!; [done|done| |done| |done].
    + rewrite Hs1. unfold is_canonical_payment_locking_script, payment_digest_from_locking_script in Hcan.
      destruct (Z.eqb_spec (zlen (su_locking_script u)) ADDRESS_DIGEST_BYTES); [done|]. by apply bool_decide_eq_true, is_Some_None in Hcan.
    + cbn [unlocking_script]. rewrite Hs1. eapply signer_owns; [exact Hbuilt|exact Hpay|exact Hwp|exact Hgroups|exact Hin|exact Hlen|exact Hu].
Qed.

Lemma check_request_Ok total :
  check_request w request = Ok total -> selected_utxos request <> [] /\ total_input_value request = Some total.
Proof using.
  unfold check_request. case_bool_decide; [done|]. destruct (match change_address request with Some _ => _ | None => _ end); [done|].
  destruct (negb _ && _); [done|]. intros ?%ok_or_Ok. done.
Qed.
Lemma total_input_value_sum total : total_input_value request = Some total -> zsum (su_value_atoms <$> selected_utxos request) = total.
Proof using.
  unfold total_input_value. assert (forall us acc, foldl (fun sum u => sum ← sum; checked_add U64_MAX sum (su_value_atoms u)) (Some acc) us = Some total ->
    acc + zsum (su_value_atoms <$> us) = total) as H; [|intros E; specialize (H _ _ E); lia].
  induction us as [|u us IH]; intros acc Hf'; cbn [foldl] in Hf'; [injection Hf' as <-; cbn; lia|]. rewrite fmap_cons. cbn [zsum].
  cbn [mbind option_bind] in Hf'. destruct (checked_add U64_MAX acc (su_value_atoms u)) as [acc'|] eqn:Ea.
  - apply checked_add_Some in Ea as [-> _]. apply IH in Hf'. lia.
  - exfalso. clear -Hf'. induction us as [|u' us IH]; [done|]. by apply IH.
Qed.
(** C13: What the wallet builds, the node accepts. When the selected outputs are
    mature coins of the network, all different, and the version is supported, every
    transaction the wallet returns — grouped by owner, signed per group, its fee
    found by iteration and its proof of work solved — passes the full contextual
    validation, for exactly the fee the wallet reports; it pays the recipient, and
    the change, what inputs and fee leave. *)
Theorem built_spend_is_valid spend :
  Forall (fun u => exists e, selected_coin u e) (selected_utxos request) ->
  NoDup ((fun u => (su_previous_txid u, su_output_index u)) <$> selected_utxos request) ->
  is_supported_transaction_version_with_schedule (transaction_version request) height schedule = true ->
  zlen (recipient_digest request) = ADDRESS_DIGEST_BYTES ->
  (forall a, change_address request = Some a -> zlen (wa_payment_digest a) = ADDRESS_DIGEST_BYTES) ->
  solver_correct ->
  build_signed_payment_transaction w random request solve = Ok spend ->
  validate_transaction_with_context_and_schedule lookup (spend_transaction spend) (spend_fee_atoms spend) (wallet_network w) height schedule
    = Ok (spend_fee_atoms spend)
  /\ exists r c script, outputs (spend_transaction spend) =
       {| value_atoms := r; locking_script := recipient_digest request |}
       :: (if change_used spend then [{| value_atoms := c; locking_script := script |}] else [])
     /\ r = amount_atoms request
            - (if include_fee_in_total request then minimum_required_fee_atoms (wallet_network w) (spend_transaction spend) else 0)
     /\ (if change_used spend
         then DUST_RELAY_VALUE_ATOMS <= c /\ (exists a, change_address request = Some a /\ script = wa_payment_digest a)
              /\ spend_fee_atoms spend = minimum_required_fee_atoms (wallet_network w) (spend_transaction spend)
         else minimum_required_fee_atoms (wallet_network w) (spend_transaction spend) <= spend_fee_atoms spend)
     /\ zsum (su_value_atoms <$> selected_utxos request) = zsum (value_atoms <$> outputs (spend_transaction spend)) + spend_fee_atoms spend.
Proof using Laws SLaws.
  intros Hcoins Hnd Hver Hrec Hchg Hsolve. unfold build_signed_payment_transaction, build_signed_payment_transaction_with_progress.
  destruct (check_request w request) as [total|] eqn:Hreq; [|done].
  destruct (fee_loop w random request solve 4 total MIN_TX_FEE_ATOMS) as [stages res] eqn:Hloop. cbn [snd]. intros ->.
  apply fee_loop_Ok in Hloop as (r & c & ph & tx & Hmeasure & Hfinish & Htx & Hchange).
  apply measure_inv in Hmeasure as (Ham & (groups & pw & Hgroups & Hpw & Hph) & Hphsize).
  apply finish_inv in Hfinish as (script & Hscript & Hbuild & Hsz1 & Hsz2 & (out & Hout & Hole & Hfinal) & Hfee & Hexact).
  assert (zlen (selected_utxos request) <= MAX_WITNESS_INPUT_REFS) as Hmax.
  { etransitivity; [|apply (inputs_bounded ph), Hphsize]. rewrite Hph. cbn [with_witness request_transaction build_spend_transaction_from_parts inputs].
    by rewrite zlen_fmap. }
  set (tx0 := request_transaction request r c script) in *.
  pose proof (build_signed_spec w random _ _ _ _ _ _ _ Hmax Hbuild) as Hbuilt. fold (request_transaction request r c script) in Hbuilt. fold tx0 in Hbuilt.
  pose proof Hbuilt as (groups' & signed & sorted & wit & root & Hgroups' & Hgi & Hsg & Hperm & Hsame & Hpay & Hempty & Hcount & Htot & Hrefs & Hwl & Hwlen).
  assert (groups' = groups) as -> by congruence.
  set (fee := spend_fee_atoms spend) in *. set (txf := spend_transaction spend) in *. set (needed := minimum_required_fee_atoms (wallet_network w) ph) in *.
  assert (inputs tx = inputs tx0 /\ outputs tx = outputs tx0 /\ version tx = version tx0) as (Ein & Eout & Ever) by by destruct Hsame as (? & ? & ? & ?).
  apply check_request_Ok in Hreq as [Hne Htotal].
  assert (Transaction.is_coinbase tx = false) as Hcb.
  { unfold Transaction.is_coinbase. rewrite Ein, bool_decide_eq_false_2; [done|]. cbn. intros E%fmap_nil_inv. done. }
  destruct (solver_gives tx fee Hsolve Hcb) as (Hsame' & Hwit' & Hpow). rewrite <- Htx in Hsame', Hwit', Hpow. fold txf in Hsame', Hwit', Hpow.
  assert (same_spend txf tx0) as (Everf & Einf & Eoutf & _) by (destruct Hsame' as (? & ? & ? & ?), Hsame as (? & ? & ? & ?); split_and!; congruence).
  pose proof (built_from_same _ _ _ txf Hbuilt Hsame' Hwit') as Hbuiltf.
  assert (2 <= needed) as Hneeded by (subst needed; apply required_fee_vsize, Hphsize).
  apply amounts_spec in Ham as (Er & Hr & Hcover & Ec); [|done|lia].
  assert (c = 0 \/ DUST_RELAY_VALUE_ATOMS <= c) as Hc by (rewrite Ec; destruct (Z.ltb_spec (total - r - needed) DUST_RELAY_VALUE_ATOMS); [by left|by right]).
  assert (0 < DUST_RELAY_VALUE_ATOMS) as Hdust by done.
  assert (outputs tx0 = {| value_atoms := r; locking_script := recipient_digest request |}
    :: (if change_used spend then [{| value_atoms := c; locking_script := script |}] else [])) as Eo.
  { rewrite Hchange. cbn. unfold change_of. by destruct (0 <? c). }
  assert (zlen script = ADDRESS_DIGEST_BYTES \/ c = 0) as Hsl.
  { destruct Hc as [->|Hc]; [by right|left]. destruct (Hscript ltac:(lia)) as (a & Ha & ->). by apply Hchg. }
  assert (Transaction.full_size_bytes txf = Transaction.full_size_bytes tx /\ Transaction.vsize_bytes txf = Transaction.vsize_bytes tx) as [Es1 Es2]
    by (apply sizes_same; [congruence|congruence|by rewrite Hwit']).
  assert (minimum_required_fee_atoms (wallet_network w) txf = needed) as Eneeded.
  { subst needed. apply required_fee_same. rewrite Es2. apply sizes_same; rewrite ?Ein, ?Eout, Hph; [done| |].
    - rewrite Eo. cbn. unfold change_of. rewrite Hchange. destruct (Z.ltb_spec 0 c); [|done]. cbn. destruct Hsl as [->|]; [done|lia].
    - rewrite Hwlen. cbn [with_witness witness]. rewrite (placeholder_size w _ _ _ Hmax Hgi Hpw). by rewrite (signed_size w _ _ _ Hsg). }
  assert (plain_checks txf fee (wallet_network w) height schedule) as Hplain.
  { split.
    - unfold Transaction.is_coinbase in Hcb. apply bool_decide_eq_false in Hcb. by rewrite Einf, <- Ein.
    - by rewrite Everf.
    - rewrite Eoutf, Eo. split; [done|]. by destruct (change_used spend).
    - by rewrite Es1, Es2.
    - rewrite Eoutf, Eo. apply Forall_cons. split; [done|]. rewrite Hchange. destruct (Z.ltb_spec 0 c); [|constructor].
      apply Forall_singleton. cbn. split; [lia|]. destruct Hsl; [done|lia].
    - rewrite Einf. cbn. rewrite <- list_fmap_compose. apply NoDup_fmap_1 with (f := fun k => (k_txid k, k_output_index k)). by rewrite <- list_fmap_compose.
    - by rewrite Eneeded. }
  assert (out = zsum (value_atoms <$> outputs tx)) as Esum by by apply checked_output_value_Some.
  assert (Transaction.checked_output_value_atoms txf = Some out) as Houtf.
  { unfold Transaction.checked_output_value_atoms in *. by rewrite Eoutf, <- Eout. }
  assert (total = zsum (value_atoms <$> outputs txf) + fee) as Etotal by (rewrite Eoutf, <- Eout, <- Esum; lia).
  split.
  - apply (built_valid tx0 (selected_utxos request)); [done|done|done|done|done| |lia|by eexists]. rewrite <- Etotal. exact Htotal.
  - exists r, c, script. fold txf fee. rewrite Eneeded. split; [by rewrite Eoutf|].
    split; [rewrite Er; destruct (include_fee_in_total request); lia|].
    split; [|rewrite <- Etotal; by apply total_input_value_sum].
    rewrite Hchange. destruct (Z.ltb_spec 0 c); [|done]. split_and!; [lia|by apply Hscript|by apply Hexact].
Qed.
End spend_valid.

(** ** Witnesses *)

Definition demo_wallet : Wallet := Wallet.from_seed (zeros 32) Regnet.
Definition demo_address (kind : AddressKind) (i : Z) : WalletAddress :=
  Wallet.derive_address (Hs:=checksum_sha3) (Hk:=toy_signer) demo_wallet (path_at kind i).
Definition demo_utxo (n : byte) (i value : Z) : WalletSpendUtxo :=
  {| su_previous_txid := replicate 48 n; su_output_index := 0; su_value_atoms := value;
     su_locking_script := wa_payment_digest (demo_address Receive i) |}.
(** One input, and change. *)
Definition demo_request (amount : Z) : WalletSpendRequest :=
  {| selected_utxos := [demo_utxo x01 0 3000]; recipient_digest := replicate 32 x09;
     amount_atoms := amount; include_fee_in_total := false; transaction_version := 1; request_lock_time := 0;
     change_address := Some (demo_address Change 0) |}.
Definition demo_random (_ : nat) : option bytes := Some (zeros 48).
(** One hash is enough: [checksum_sha3] begins with zeros. *)
Definition demo_solve (network : Network) (tx : Transaction) (fee : Z) : Transaction :=
  let bits := required_tx_pow_bits network tx fee in
  if bits =? 0 then with_pow tx 0 0
  else with_pow_nonce (with_pow tx 0 bits)
         (transaction_pow_nonce_start None (transaction_pow_preimage (H:=checksum_sha3) network (with_pow tx 0 bits))).
Definition demo_lookup (txid : bytes) (index : Z) : option UtxoEntry :=
  (fun u => {| u_network := Regnet; u_txid := txid; u_output_index := index; u_value_atoms := su_value_atoms u;
               u_locking_script := su_locking_script u; created_height := 0; u_is_coinbase := false |})
  <$> head (filter (fun u => su_previous_txid u = txid) (selected_utxos (demo_request 0))).


Lemma checksum_zeros bs : 192 <= leading_zero_bits (Crypto.sha3_256 (Sha3:=checksum_sha3) bs).
Proof.
  unfold leading_zero_bits. rewrite leading_zero_bits_clz by lia. cbn [checksum_sha3 Crypto.sha3_256].
  change (clz (zeros 24 ++ le_bytes 8 (checksum bs)))
    with (8 + (8 + (8 + (8 + (8 + (8 + (8 + (8 + (8 + (8 + (8 + (8 + (8 + (8 + (8 + (8 + (8 + (8 + (8 + (8 + (8 + (8 + (8 + (8 + clz (le_bytes 8 (checksum bs)))))))))))))))))))))))))).
  pose proof (clz_nonneg (le_bytes 8 (checksum bs))). lia.
Qed.
Lemma required_bits_max network tx fee : 0 <= required_tx_pow_bits network tx fee <= 192.
Proof.
  unfold required_tx_pow_bits. destruct (Transaction.is_coinbase tx); [lia|]. destruct (bool_decide _); [vm_compute; split; discriminate|]. cbn zeta.
  match goal with |- 0 <= clamp ?b _ _ <= _ => pose proof (clamp_bounds b TX_POW_MIN_BITS TX_POW_MAX_BITS ltac:(done)) as Hc end.
  assert (0 <= TX_POW_MIN_BITS) by done. assert (TX_POW_MAX_BITS <= 192) by done. lia.
Qed.
Lemma demo_solve_correct : solver_correct (Hs:=checksum_sha3) demo_wallet demo_solve.
Proof.
  intros tx fee. change (wallet_network demo_wallet) with Regnet. unfold demo_solve.
  destruct (Z.eqb_spec (required_tx_pow_bits Regnet tx fee) 0) as [E|E].
  - exists None, 1, 0. split; [done|]. by apply solver_not_required.
  - eexists None, 1, _. split; [done|]. eapply solver_runs; [reflexivity|done|reflexivity|reflexivity|].
    apply (outcome_single _ _ _ _ _ _ 1); [lia|]. cbn [solve_transaction_pow_single_thread].
    match goal with |- context [?b <=? leading_zero_bits ?h] => assert (b <=? leading_zero_bits h = true) as -> end; [|reflexivity].
    apply Z.leb_le. etransitivity; [apply required_bits_max|apply checksum_zeros].
Qed.

Definition ok_default {E A} (d : A) (r : result E A) : A := match r with Ok a => a | Err _ => d end.
Definition demo_groups : list WalletSignerInputGroup :=
  ok_default [] (signer_input_groups (Hs:=checksum_sha3) (Hk:=toy_signer) demo_wallet (selected_utxos (demo_request 0))).
Definition demo_pw : bytes := ok_default [] (placeholder_witness_for_groups demo_groups).

Lemma fee_loop_windows_witness :
  needed_fee demo_wallet (demo_request 2330) demo_pw false = 550
  /\ fee_loop (Hs:=checksum_sha3) (Hk:=toy_signer) demo_wallet demo_random (demo_request 2330) demo_solve 4 3000 MIN_TX_FEE_ATOMS
     = ([], Err FeeLoopDidNotConverge).
Proof.
  assert (needed_fee demo_wallet (demo_request 2330) demo_pw false = 550) as Hneed by (vm_compute; reflexivity).
  split; [exact Hneed|].
  pose proof (fee_loop_windows (Hs:=checksum_sha3) (Hk:=toy_signer) demo_wallet demo_random (demo_request 2330) demo_solve demo_groups demo_pw
    ltac:(vm_compute; reflexivity) ltac:(vm_compute; reflexivity) ltac:(vm_compute; reflexivity) 3000 eq_refl ltac:(vm_compute; discriminate)) as [_ E2].
  rewrite Hneed in E2. exact E2.
Defined.

Definition demo_spend : WalletBuiltSpend :=
  ok_default {| spend_transaction := sample_tx [] 0; spend_fee_atoms := 0; change_used := false |}
    (build_signed_payment_transaction (Hs:=checksum_sha3) (Hk:=toy_signer) demo_wallet demo_random (demo_request 1000) demo_solve).
Lemma built_spend_is_valid_witness :
  exists spend, build_signed_payment_transaction (Hs:=checksum_sha3) (Hk:=toy_signer) demo_wallet demo_random (demo_request 1000) demo_solve = Ok spend
    /\ validate_transaction_with_context_and_schedule (H:=checksum_sha3) (H0:=accepting_falcon) demo_lookup (spend_transaction spend)
         (spend_fee_atoms spend) Regnet 1000 SCHEDULED_ACTIVATIONS = Ok (spend_fee_atoms spend).
Proof.
  exists demo_spend. assert (build_signed_payment_transaction (Hs:=checksum_sha3) (Hk:=toy_signer) demo_wallet demo_random (demo_request 1000) demo_solve
    = Ok demo_spend) as Hb by (vm_compute; reflexivity).
  split; [exact Hb|].
  refine (proj1 (built_spend_is_valid (Hs:=checksum_sha3) (Laws:=checksum_sha3_laws) (Hf:=accepting_falcon) (Hk:=toy_signer) (SLaws:=toy_signer_laws)
    demo_wallet demo_random (demo_request 1000) demo_solve demo_lookup 1000 SCHEDULED_ACTIVATIONS demo_spend _ _ _ _ _ demo_solve_correct Hb)).
  - repeat constructor; (eexists; split; [vm_compute; reflexivity|]; split_and!; vm_compute; reflexivity).
  - repeat constructor. by intros ?%elem_of_nil.
  - vm_compute. reflexivity.
  - vm_compute. reflexivity.
  - intros a [= <-]. vm_compute. reflexivity.
Defined.
