(* ===== verification/DataFile.v ===== *)
(** * The wallet's data file

    crates/atho-wallet/src/wallet/datafile.rs: the file a wallet is kept in. The format
    of the file, its encryption, and how a save replaces it. The aes-gcm and pbkdf2 crates
    and bincode of the saved state are the class [WalletSeal]; the file system is a map
    from paths to contents, with what a crash may do to it. *)
From stdpp Require Import options.
From S2P Require Import Prelude Bytes Text Constants Crypto Network Falcon WordList Mnemonic Wallet.

#[local] Set Default Proof Using "Type*".

(** The crates: a password and a salt give a key; a sealed message opens under its key,
    nonce and associated data. [None] is an error. *)
Class WalletSeal := {
  pbkdf2_hmac_sha256 : bytes -> bytes -> Z -> bytes;
  aes_encrypt : bytes -> bytes -> bytes -> bytes -> option bytes;
  aes_decrypt : bytes -> bytes -> bytes -> bytes -> option bytes;
  serialize_state : PersistedWalletState -> option bytes;
  deserialize_state : bytes -> option PersistedWalletState;
}.
(** What they document: decryption inverts encryption, deserialization serialization. *)
Class WalletSealLaws (W : WalletSeal) : Prop := {
  aes_opens key nonce aad msg sealed : aes_encrypt key nonce aad msg = Some sealed -> aes_decrypt key nonce aad sealed = Some msg;
  state_loads state bs : serialize_state state = Some bs -> deserialize_state bs = Some state;
}.

(* src: datafile.rs:25-25 MAGIC *)
Definition MAGIC : bytes := Eval vm_compute in str_bytes "ATHODF01".
(* src: datafile.rs:26-26 VERSION *)
Definition VERSION : Z := 1.
(* src: datafile.rs:27-27 SALT_BYTES *)
Definition SALT_BYTES : nat := 16.
(* src: datafile.rs:28-28 NONCE_BYTES *)
Definition NONCE_BYTES : nat := 12.
(* src: datafile.rs:29-29 PASSWORD_ITERATIONS *)
Definition PASSWORD_ITERATIONS : Z := 600000.
(* src: datafile.rs:30-30 AAD_PREFIX *)
Definition AAD_PREFIX : bytes := Eval vm_compute in str_bytes "atho-wallet-datafile".
(* src: datafile.rs:31-31 DEFAULT_PASSWORD_SCHEME *)
Definition DEFAULT_PASSWORD_SCHEME : bytes := Eval vm_compute in str_bytes "atho-wallet-password-v1".

(* src: datafile.rs:33-37 WalletEncryptionMode *)
Inductive WalletEncryptionMode := Plaintext | PasswordAes256Gcm.
(* src: datafile.rs:39-43 WalletDatafileMetadata *)
Record WalletDatafileMetadata := { md_network : Network; md_encryption_mode : WalletEncryptionMode }.
(* src: datafile.rs:45-61 WalletDatafileError *)
Inductive WalletDatafileError :=
| DatafileIo | DatafileEncode | InvalidDatafileHeader | UnsupportedVersion | UnsupportedEncryptionMode
| RandomnessFailure | InvalidPassword.
(* src: datafile.rs:89-96 WalletDataFile *)
Record WalletDataFile := {
  df_network : Network;
  df_encryption_mode : WalletEncryptionMode;
  df_salt : bytes;
  df_nonce : bytes;
  df_ciphertext : bytes;
}.

(** [as u8]: the order of the variants. *)
Definition network_byte (n : Network) : byte := match n with Mainnet => x00 | Testnet => x01 | Regnet => x02 | Prunetest => x03 end.
Definition mode_byte (m : WalletEncryptionMode) : byte := match m with Plaintext => x00 | PasswordAes256Gcm => x01 end.
(* src: datafile.rs:172-177 WalletDataFile::from_bytes (network) *)
Definition network_of_byte (b : byte) : option Network :=
  match b with x00 => Some Mainnet | x01 => Some Testnet | x02 => Some Regnet | _ => None end.
(* src: datafile.rs:179-183 WalletDataFile::from_bytes (mode) *)
Definition mode_of_byte (b : byte) : option WalletEncryptionMode :=
  match b with x00 => Some Plaintext | x01 => Some PasswordAes256Gcm | _ => None end.

Module WalletDataFile.
(* src: datafile.rs:146-159 WalletDataFile::to_bytes *)
Definition to_bytes (f : WalletDataFile) : result WalletDatafileError bytes :=
  reject U32_MAX <? zlen (df_ciphertext f) with InvalidDatafileHeader;
  Ok (MAGIC ++ le_u16 VERSION ++ [network_byte (df_network f)] ++ [mode_byte (df_encryption_mode f)] ++ df_salt f
      ++ df_nonce f ++ le_u32 (zlen (df_ciphertext f)) ++ df_ciphertext f).
(** [bytes[start..end]]. *)
Definition slice (bs : bytes) (start stop : nat) : bytes := take (stop - start) (drop start bs).
(* src: datafile.rs:161-210 WalletDataFile::from_bytes *)
Definition from_bytes (bs : bytes) : result WalletDatafileError WalletDataFile :=
  let min_len := (length MAGIC + 2 + 1 + 1 + SALT_BYTES + NONCE_BYTES + 4)%nat in
  reject bool_decide (length bs < min_len)%nat || negb (bool_decide (take (length MAGIC) bs = MAGIC)) with InvalidDatafileHeader;
  reject negb (le_decode (slice bs 8 10) =? VERSION) with UnsupportedVersion;
  match b ← bs !! 10%nat; network_of_byte b with
  | None => Err InvalidDatafileHeader
  | Some network =>
      match b ← bs !! 11%nat; mode_of_byte b with
      | None => Err InvalidDatafileHeader
      | Some encryption_mode =>
          let salt := slice bs 12 (12 + SALT_BYTES) in
          let nonce := slice bs (12 + SALT_BYTES) (12 + SALT_BYTES + NONCE_BYTES) in
          let payload_len_start := (12 + SALT_BYTES + NONCE_BYTES)%nat in
          let payload_len := le_decode (slice bs payload_len_start (payload_len_start + 4)) in
          let payload_start := (payload_len_start + 4)%nat in
          reject zlen bs <? Z.of_nat payload_start + payload_len with InvalidDatafileHeader;
          Ok {| df_network := network; df_encryption_mode := encryption_mode; df_salt := salt; df_nonce := nonce;
                df_ciphertext := slice bs payload_start (payload_start + Z.to_nat payload_len) |}
      end
  end.
End WalletDataFile.

(* src: datafile.rs:358-364 build_aad *)
Definition build_aad : bytes := AAD_PREFIX ++ DEFAULT_PASSWORD_SCHEME ++ le_u16 VERSION.

Section seal.
Context `{Hw : WalletSeal}.

(* src: datafile.rs:312-333 encrypt_state *)
Definition encrypt_state (password salt nonce : bytes) (state : PersistedWalletState) (iterations : Z) :
    result WalletDatafileError bytes :=
  let key := pbkdf2_hmac_sha256 password salt iterations in
  match serialize_state state with
  | None => Err DatafileEncode
  | Some payload => ok_or (aes_encrypt key nonce build_aad payload) InvalidPassword
  end.
(* src: datafile.rs:335-356 decrypt_state *)
Definition decrypt_state (password salt nonce ciphertext : bytes) (iterations : Z) :
    result WalletDatafileError PersistedWalletState :=
  let key := pbkdf2_hmac_sha256 password salt iterations in
  match aes_decrypt key nonce build_aad ciphertext with
  | None => Err InvalidPassword
  | Some payload => ok_or (deserialize_state payload) DatafileEncode
  end.
End seal.

(** ** The file system *)

(** A path, by its directory and the UTF-8 name of its last component, or without one. *)
Inductive FilePath := Named (dir name : bytes) | Unnamed (dir raw : bytes).
#[global] Instance FilePath_eq_dec : EqDecision FilePath.
Proof. solve_decision. Defined.
#[global] Program Instance FilePath_countable : Countable FilePath :=
  inj_countable' (fun p => match p with Named d n => inl (d, n) | Unnamed d r => inr (d, r) end)
    (fun x => match x with inl (d, n) => Named d n | inr (d, r) => Unnamed d r end) _.
Next Obligation. by intros []. Qed.

(** A file's contents, and whether they have been synchronized to the disk. *)
Record FileEntry := { contents : bytes; synced : bool }.
Abbreviation files := (gmap FilePath FileEntry).
(** The files, and what they were before a rename the disk may not have recorded yet. *)
Record Disk := { current : files; unrecorded : option files }.
Definition recorded (fs : files) : Disk := {| current := fs; unrecorded := None |}.
(** The calls a save makes; how one ends: a failed write may have written a part. *)
Inductive disk_op :=
| CreateDirs
| CreateFile (p : FilePath)
| Restrict (p : FilePath)
| WriteAll (p : FilePath) (bs : bytes)
| SyncFile (p : FilePath)
| RenameFile (p q : FilePath).
Inductive ending := Works | Fails (written : nat).
Definition on_current (d : Disk) (f : files -> files) : Disk := {| current := f (current d); unrecorded := unrecorded d |}.
Definition perform_op (op : disk_op) (e : ending) (d : Disk) : Disk :=
  match op, e with
  | CreateFile p, Works => on_current d <[p := {| contents := []; synced := false |}]>
  | WriteAll p bs, Works => on_current d <[p := {| contents := bs; synced := false |}]>
  | WriteAll p bs, Fails written => on_current d <[p := {| contents := take written bs; synced := false |}]>
  | SyncFile p, Works => on_current d (alter (fun f => {| contents := contents f; synced := true |}) p)
  | RenameFile p q, Works =>
      match current d !! p with
      | Some f => {| current := <[q := f]> (delete p (current d)); unrecorded := Some (current d) |}
      | None => d
      end
  | _, _ => d
  end.
(** The calls in turn; [None] is a crash before the next one. *)
Fixpoint run_ops (ops : list disk_op) (script : list ending) (d : Disk) : Disk * option (result WalletDatafileError unit) :=
  match ops, script with
  | [], _ => (d, Some (Ok tt))
  | _, [] => (d, None)
  | op :: ops, Works :: script => run_ops ops script (perform_op op Works d)
  | op :: _, Fails written :: _ => (perform_op op (Fails written) d, Some (Err DatafileIo))
  end.
(** What a crash may leave: the files as they are or as before the rename; a file that was
    not synchronized with any contents or gone. *)
Definition survives (fs fs' : files) : Prop := forall p f, fs !! p = Some f -> synced f = true -> fs' !! p = Some f.
Definition after_crash (d : Disk) (fs' : files) : Prop :=
  survives (current d) fs' \/ exists fs, unrecorded d = Some fs /\ survives fs fs'.

(** [path.with_file_name(format!("{file_name}.tmp"))]. *)
Definition tmp_path (path : FilePath) : FilePath :=
  match path with
  | Named dir name => Named dir (name ++ str_bytes ".tmp")
  | Unnamed dir _ => Named dir (str_bytes "wallet.datafile.tmp")
  end.
(** The synchronization of the directory at the end is best effort. *)
(* src: datafile.rs:245-268 atomic_write *)
Definition atomic_write (path : FilePath) (bs : bytes) (script : list ending) (d : Disk) :
    Disk * option (result WalletDatafileError unit) :=
  run_ops [CreateDirs; CreateFile (tmp_path path); Restrict (tmp_path path); WriteAll (tmp_path path) bs;
           SyncFile (tmp_path path); RenameFile (tmp_path path) path; Restrict path] script d.
(** [fs::read]. *)
Definition read_file (fs : files) (path : FilePath) : option bytes := contents <$> fs !! path.

(** ** Saving and loading *)

Section wallet.
Context `{Hs : Sha3, Hk : FalconSigner, Hs2 : Sha2, Hl : Lowercase, Hw : WalletSeal}.

(** The file of a wallet, sealed under [salt] and [nonce] as the random generator gave them. *)
(* src: datafile.rs:219-241 save_impl (file) *)
Definition sealed_file (w : Wallet) (password : bytes) (iterations : Z) (salt nonce : option bytes) :
    result WalletDatafileError WalletDataFile :=
  let state := Wallet.capture_state w in
  let file mode salt nonce ciphertext :=
    {| df_network := wallet_network w; df_encryption_mode := mode; df_salt := salt; df_nonce := nonce;
       df_ciphertext := ciphertext |} in
  if bool_decide (password = []) then
    ciphertext ← ok_or (serialize_state state) DatafileEncode;
    Ok (file Plaintext (zeros SALT_BYTES) (zeros NONCE_BYTES) ciphertext)
  else
    salt ← ok_or salt RandomnessFailure;
    nonce ← ok_or nonce RandomnessFailure;
    ciphertext ← encrypt_state password salt nonce state iterations;
    Ok (file PasswordAes256Gcm salt nonce ciphertext).
(* src: datafile.rs:213-243 save_impl *)
Definition save_impl (w : Wallet) (password : bytes) (path : FilePath) (iterations : Z) (salt nonce : option bytes)
    (script : list ending) (d : Disk) : Disk * option (result WalletDatafileError unit) :=
  match f ← sealed_file w password iterations salt nonce; WalletDataFile.to_bytes f with
  | Err e => (d, Some (Err e))
  | Ok bs => atomic_write path bs script d
  end.
(* src: datafile.rs:99-101 WalletDataFile::save *)
Definition save (w : Wallet) (password : bytes) (path : FilePath) := save_impl w password path PASSWORD_ITERATIONS.

(** The state in a file. *)
(* src: datafile.rs:294-303 load_impl_with_progress (state) *)
Definition open_file (f : WalletDataFile) (password : bytes) (iterations : Z) : result WalletDatafileError PersistedWalletState :=
  match df_encryption_mode f with
  | Plaintext => ok_or (deserialize_state (df_ciphertext f)) DatafileEncode
  | PasswordAes256Gcm => decrypt_state password (df_salt f) (df_nonce f) (df_ciphertext f) iterations
  end.
(** The wallet and the progress reports. *)
(* src: datafile.rs:283-310 load_impl_with_progress *)
Definition load_impl_with_progress (fs : files) (path : FilePath) (password : bytes) (iterations : Z) :
    result WalletDatafileError (Wallet * list (Z * Z)) :=
  bs ← ok_or (read_file fs path) DatafileIo;
  file ← WalletDataFile.from_bytes bs;
  state ← open_file file password iterations;
  Ok (Wallet.from_state_with_progress (df_network file) None state).
(* src: datafile.rs:279-281 load_impl *)
Definition load_impl (fs : files) (path : FilePath) (password : bytes) (iterations : Z) : result WalletDatafileError Wallet :=
  fst <$> load_impl_with_progress fs path password iterations.
(* src: datafile.rs:113-115 WalletDataFile::load *)
Definition load (fs : files) (path : FilePath) (password : bytes) := load_impl fs path password PASSWORD_ITERATIONS.
(* src: datafile.rs:137-144 WalletDataFile::inspect *)
Definition inspect (fs : files) (path : FilePath) : result WalletDatafileError WalletDatafileMetadata :=
  bs ← ok_or (read_file fs path) DatafileIo;
  file ← WalletDataFile.from_bytes bs;
  Ok {| md_network := df_network file; md_encryption_mode := df_encryption_mode file |}.
End wallet.

(** ** The format *)

Lemma slice_between (a b c : bytes) i j : length a = i -> (i + length b = j)%nat -> WalletDataFile.slice (a ++ b ++ c) i j = b.
Proof.
  intros <- <-. unfold WalletDataFile.slice. rewrite drop_app_length.
  replace (length a + length b - length a)%nat with (length b) by lia. apply take_app_length.
Qed.
Lemma slice_slice (bs : bytes) i j k : (i <= j <= k)%nat ->
  WalletDataFile.slice bs i j ++ WalletDataFile.slice bs j k = WalletDataFile.slice bs i k.
Proof.
  intros H. unfold WalletDataFile.slice. replace (drop j bs) with (drop (j - i) (drop i bs)) by (rewrite drop_drop; f_equal; lia).
  rewrite take_take_drop. f_equal. lia.
Qed.
Lemma slice_one (bs : bytes) i b : bs !! i = Some b -> WalletDataFile.slice bs i (S i) = [b].
Proof.
  intros Hb. unfold WalletDataFile.slice. replace (S i - i)%nat with 1%nat by lia.
  by rewrite (drop_S _ _ _ Hb).
Qed.
Lemma slice_length (bs : bytes) i j : (i <= j <= length bs)%nat -> length (WalletDataFile.slice bs i j) = (j - i)%nat.
Proof. intros H. unfold WalletDataFile.slice. rewrite length_take, length_drop. lia. Qed.

(** A file as the program makes it. *)
Record datafile_ok (f : WalletDataFile) : Prop := {
  fo_salt : length (df_salt f) = SALT_BYTES;
  fo_nonce : length (df_nonce f) = NONCE_BYTES;
  fo_size : zlen (df_ciphertext f) <= U32_MAX;
}.
Definition datafile_head (f : WalletDataFile) : bytes :=
  MAGIC ++ le_u16 VERSION ++ [network_byte (df_network f)] ++ [mode_byte (df_encryption_mode f)].
Lemma head_length f : length (datafile_head f) = 12%nat.
Proof. done. Qed.
Lemma to_bytes_ok f : datafile_ok f ->
  WalletDataFile.to_bytes f = Ok (datafile_head f ++ df_salt f ++ df_nonce f ++ le_u32 (zlen (df_ciphertext f)) ++ df_ciphertext f).
Proof.
  intros [_ _ Hsize]. unfold WalletDataFile.to_bytes. rewrite (proj2 (Z.ltb_ge _ _)) by done.
  unfold datafile_head. by rewrite <- !app_assoc.
Qed.
Lemma mode_of_mode_byte m : mode_of_byte (mode_byte m) = Some m.
Proof. by destruct m. Qed.
Lemma network_of_network_byte n : network_of_byte (network_byte n) = if decide (n = Prunetest) then None else Some n.
Proof. by destruct n. Qed.

(** What the parser makes of the bytes of a file, and of anything behind them. *)
Lemma from_bytes_of f extra : datafile_ok f ->
  let bs := datafile_head f ++ df_salt f ++ df_nonce f ++ le_u32 (zlen (df_ciphertext f)) ++ df_ciphertext f ++ extra in
  WalletDataFile.from_bytes bs = if decide (df_network f = Prunetest) then Err InvalidDatafileHeader else Ok f.
Proof.
  intros [Hsalt Hnonce Hsize] bs. unfold SALT_BYTES, NONCE_BYTES in *.
  set (len := le_u32 (zlen (df_ciphertext f))) in *.
  assert (length len = 4%nat) as Hlen by apply le_bytes_length.
  assert (length bs = 44 + (length (df_ciphertext f) + length extra))%nat as Hbs.
  { unfold bs. rewrite !length_app, Hsalt, Hnonce, Hlen, head_length. lia. }
  assert (WalletDataFile.slice bs 12 28 = df_salt f) as Esalt by (unfold bs; apply slice_between; [done|by rewrite Hsalt]).
  assert (WalletDataFile.slice bs 28 40 = df_nonce f) as Enonce.
  { unfold bs. rewrite app_assoc. apply slice_between; [by rewrite length_app, Hsalt|by rewrite Hnonce]. }
  assert (WalletDataFile.slice bs 40 44 = len) as Elen.
  { unfold bs. rewrite !(app_assoc (datafile_head f)), app_assoc.
    apply slice_between; [by rewrite !length_app, Hsalt, Hnonce|by rewrite Hlen]. }
  assert (WalletDataFile.slice bs 44 (44 + length (df_ciphertext f)) = df_ciphertext f) as Ect.
  { unfold bs. rewrite !(app_assoc (datafile_head f)), 2!app_assoc.
    apply slice_between; [by rewrite !length_app, Hsalt, Hnonce, Hlen|done]. }
  assert (le_decode len = zlen (df_ciphertext f)) as Edecode.
  { apply (le_decode_le_bytes_id 4). unfold uint. pose proof (zlen_nonneg (df_ciphertext f)).
    assert (U32_MAX < 2 ^ (8 * Z.of_nat 4)) by by apply Z.ltb_lt. lia. }
  assert (WalletDataFile.slice bs 8 10 = le_u16 VERSION) as Ev by done.
  assert (bs !! 10%nat = Some (network_byte (df_network f))) as En by done.
  assert (bs !! 11%nat = Some (mode_byte (df_encryption_mode f))) as Em by done.
  unfold WalletDataFile.from_bytes. cbv zeta. unfold SALT_BYTES, NONCE_BYTES. cbn [Nat.add].
  change (length MAGIC) with 8%nat. assert (take 8 bs = MAGIC) as -> by done. cbn [Nat.add].
  rewrite bool_decide_false by lia. rewrite bool_decide_true by done. cbn [negb orb].
  rewrite Ev. change (le_decode (le_u16 VERSION) =? VERSION) with true. cbn [negb].
  rewrite En, Em. cbn [mbind option_bind]. rewrite network_of_network_byte, mode_of_mode_byte.
  destruct (decide (df_network f = Prunetest)) as [Hp|Hp]; [done|].
  rewrite Elen, Edecode, Esalt, Enonce. rewrite (proj2 (Z.ltb_ge _ _)).
  2: { unfold zlen. rewrite Hbs. lia. }
  unfold zlen. rewrite Nat2Z.id. cbn [Nat.add] in Ect |- *. rewrite Ect. by destruct f.
Qed.

(** What a written file is parsed to. *)
Lemma from_bytes_to f bs : datafile_ok f -> WalletDataFile.to_bytes f = Ok bs ->
  WalletDataFile.from_bytes bs = if decide (df_network f = Prunetest) then Err InvalidDatafileHeader else Ok f.
Proof.
  intros Hok Hbytes. rewrite to_bytes_ok in Hbytes by done. pose proof (from_bytes_of f [] Hok) as Hf. cbv zeta in Hf.
  rewrite app_nil_r in Hf. revert Hbytes Hf. generalize (datafile_head f) (le_u32 (zlen (df_ciphertext f))).
  by intros head len [= <-] ->.
Qed.
Lemma datafile_ok_network n f : datafile_ok f ->
  datafile_ok {| df_network := n; df_encryption_mode := df_encryption_mode f; df_salt := df_salt f; df_nonce := df_nonce f;
                 df_ciphertext := df_ciphertext f |}.
Proof. by intros []. Qed.
Lemma to_bytes_fits f bs : WalletDataFile.to_bytes f = Ok bs -> zlen (df_ciphertext f) <= U32_MAX.
Proof. unfold WalletDataFile.to_bytes. destruct (U32_MAX <? _) eqn:E; [done|]. intros _. by apply Z.ltb_ge. Qed.

Lemma slice_rest (bs : bytes) i j : (i <= j)%nat -> WalletDataFile.slice bs i j ++ drop j bs = drop i bs.
Proof.
  intros H. unfold WalletDataFile.slice. replace (drop j bs) with (drop (j - i) (drop i bs)) by (rewrite drop_drop; f_equal; lia).
  apply take_drop.
Qed.
Lemma network_of_byte_Some b n : network_of_byte b = Some n -> network_byte n = b /\ n <> Prunetest.
Proof. destruct b; try done; by intros [= <-]. Qed.
Lemma mode_of_byte_Some b m : mode_of_byte b = Some m -> mode_byte m = b.
Proof. destruct b; try done; by intros [= <-]. Qed.
Lemma parsed_file_ok bs f : WalletDataFile.from_bytes bs = Ok f ->
  datafile_ok f /\ df_network f <> Prunetest /\
  exists extra, bs = datafile_head f ++ df_salt f ++ df_nonce f ++ le_u32 (zlen (df_ciphertext f)) ++ df_ciphertext f ++ extra.
Proof.
  unfold WalletDataFile.from_bytes. cbv zeta. unfold SALT_BYTES, NONCE_BYTES. cbn [Nat.add]. change (length MAGIC) with 8%nat. cbn [Nat.add].
  destruct (_ || _) eqn:Emagic; [done|]. apply orb_false_iff in Emagic as [Elen%bool_decide_eq_false Emagic%negb_false_iff%bool_decide_eq_true].
  destruct (negb _) eqn:Ev; [done|]. apply negb_false_iff, Z.eqb_eq in Ev.
  destruct (bs !! 10%nat ≫= network_of_byte) as [n|] eqn:En; [|done]. apply bind_Some in En as (b10 & E10 & En%network_of_byte_Some).
  destruct (bs !! 11%nat ≫= mode_of_byte) as [m|] eqn:Em; [|done]. apply bind_Some in Em as (b11 & E11 & Em%mode_of_byte_Some).
  set (len := WalletDataFile.slice bs 40 44). destruct (zlen bs <? _) eqn:Esize; [done|]. apply Z.ltb_ge in Esize. intros [= <-].
  assert (length len = 4%nat) as Hlen by (apply slice_length; lia).
  pose proof (le_decode_range len) as Hrange. unfold zlen in Hrange at 1. rewrite Hlen in Hrange.
  set (ct := WalletDataFile.slice bs 44 _).
  assert (length ct = Z.to_nat (le_decode len)) as Hct.
  { unfold ct. rewrite slice_length; [lia|]. unfold zlen in Esize. lia. }
  assert (zlen ct = le_decode len) as Hzct by (unfold zlen; rewrite Hct; lia).
  assert (256 ^ Z.of_nat 4 - 1 = U32_MAX) as Hmax by done.
  assert (le_u32 (zlen ct) = len) as Eu32.
  { rewrite Hzct. pose proof (le_bytes_le_decode len) as E. by rewrite Hlen in E. }
  split; [|split; [apply En|]].
  { split; cbn [df_salt df_nonce df_ciphertext]; [apply slice_length; lia..|]. rewrite Hzct. lia. }
  exists (drop (44 + Z.to_nat (le_decode len)) bs). cbn [df_network df_encryption_mode df_salt df_nonce df_ciphertext].
  rewrite Eu32. unfold datafile_head. cbn [df_network df_encryption_mode]. destruct En as [-> _]. rewrite Em.
  assert (le_u16 VERSION = WalletDataFile.slice bs 8 10) as ->.
  { rewrite <- Ev. assert (length (WalletDataFile.slice bs 8 10) = 2%nat) as H2 by (apply slice_length; lia).
    pose proof (le_bytes_le_decode (WalletDataFile.slice bs 8 10)) as E. by rewrite H2 in E. }
  rewrite <- Emagic, <- (slice_one _ _ _ E10), <- (slice_one _ _ _ E11). fold len.
  rewrite <- !app_assoc. unfold ct, len. cbn [Nat.add]. rewrite !slice_rest by lia. symmetry. apply (take_drop 8).
Qed.

(** The format of the data file is exact. Every file the program makes for Mainnet,
    Testnet or Regnet reads back as it was, whatever follows it, and nothing else is
    accepted: bytes the parser takes for a file begin with the bytes of that file. *)
Theorem datafile_format_exact (bs : bytes) (f : WalletDataFile) :
  WalletDataFile.from_bytes bs = Ok f <->
  datafile_ok f /\ df_network f <> Prunetest /\ exists file extra, WalletDataFile.to_bytes f = Ok file /\ bs = file ++ extra.
Proof.
  split.
  - intros (Hok & Hn & extra & ->)%parsed_file_ok. split; [done|]. split; [done|]. eexists _, extra. rewrite to_bytes_ok by done.
    split; [done|]. by rewrite <- !app_assoc.
  - intros (Hok & Hn & file & extra & Hfile & ->). rewrite to_bytes_ok in Hfile by done.
    pose proof (from_bytes_of f extra Hok) as Hread. cbv zeta in Hread. revert Hfile Hread. generalize (datafile_head f) (le_u32 (zlen (df_ciphertext f))).
    intros head len [= <-] Hread. rewrite <- !app_assoc, Hread. by rewrite decide_False.
Qed.

(** ** Replacing the file *)

Lemma tmp_path_ne path : tmp_path path <> path.
Proof.
  destruct path as [dir name|dir raw]; [|done]. cbn [tmp_path]. intros [= H]. apply (f_equal length) in H.
  rewrite length_app in H. cbn in H. lia.
Qed.

(** How far a save got: the file at [path] is untouched, or replaced by a synchronized
    one over a disk that may still hold the former. *)
Definition untouched (path : FilePath) (fs : files) (d : Disk) : Prop := current d !! path = fs !! path /\ unrecorded d = None.
Definition replaced (path : FilePath) (bs : bytes) (fs : files) (d : Disk) : Prop :=
  current d !! path = Some {| contents := bs; synced := true |} /\ exists fs', unrecorded d = Some fs' /\ fs' !! path = fs !! path.

Lemma atomic_write_stages path bs script fs :
  let '(d, r) := atomic_write path bs script (recorded fs) in
  (untouched path fs d /\ r <> Some (Ok tt)) \/ replaced path bs fs d.
Proof.
  pose proof (tmp_path_ne path) as Hne. unfold atomic_write. set (tmp := tmp_path path) in *.
  assert (forall (d : Disk) (r : option (result WalletDatafileError unit)), current d !! path = fs !! path -> unrecorded d = None -> r <> Some (Ok tt) ->
    (untouched path fs d /\ r <> Some (Ok tt)) \/ replaced path bs fs d) as Hstop by (intros; left; by split).
  do 5 (destruct script as [|[|k] script]; cbn [run_ops perform_op];
    [apply Hstop; [|done..]; cbn [current on_current recorded]; by rewrite ?lookup_alter_ne, ?lookup_insert_ne
    |
    |apply Hstop; [|done..]; cbn [current on_current recorded]; by rewrite ?lookup_alter_ne, ?lookup_insert_ne]).
  cbn [current unrecorded on_current recorded].
  set (fs5 := alter _ tmp _). assert (fs5 !! path = fs !! path) as Hold.
  { unfold fs5. by rewrite lookup_alter_ne, !lookup_insert_ne by done. }
  assert (fs5 !! tmp = Some {| contents := bs; synced := true |}) as Htmp.
  { unfold fs5. by rewrite lookup_alter_eq, lookup_insert_eq. }
  destruct script as [|[|k] script]; cbn [run_ops perform_op].
  - by apply Hstop.
  - cbn [current]. rewrite Htmp.
    assert (replaced path bs fs {| current := <[path := {| contents := bs; synced := true |}]> (delete tmp fs5); unrecorded := Some fs5 |}) as H.
    { split; [by cbn; rewrite lookup_insert_eq|]. by exists fs5. }
    by destruct script as [|[|k'] script]; right.
  - by apply Hstop.
Qed.

(** What a crash leaves at the path of a save. *)
Lemma crash_contents path bs fs d fs' old :
  fs !! path = Some {| contents := old; synced := true |} -> untouched path fs d \/ replaced path bs fs d -> after_crash d fs' ->
  read_file fs' path = Some old \/ read_file fs' path = Some bs.
Proof.
  unfold read_file. intros Hold [[Hcur Hnone]|[Hcur (fs1 & Hun & Hbefore)]] [Hs|(fs2 & Hun2 & Hs)].
  - left. by rewrite (Hs path {| contents := old; synced := true |}) by by rewrite ?Hcur.
  - by rewrite Hnone in Hun2.
  - right. by rewrite (Hs path _ Hcur).
  - left. rewrite Hun in Hun2. injection Hun2 as <-. rewrite Hold in Hbefore. by rewrite (Hs path _ Hbefore).
Qed.

(** ** The wallet survives *)

Section survival.
Context `{Hs : Sha3, Hk : FalconSigner, Hs2 : Sha2, Hl : Lowercase, Hw : WalletSeal, Hlaws : !WalletSealLaws Hw}.

(** The wallet with its gap limit in the 32 bits it is saved in. *)
Definition saved_wallet (w : Wallet) : Wallet :=
  {| wallet_network := wallet_network w; mnemonic := mnemonic w; hd_wallet := hd_wallet w; keypool := keypool w;
     address_book := address_book w; wallet_snapshot := wallet_snapshot w; restore_gap_limit := restore_gap_limit w mod 2 ^ 32 |}.
Definition pool_full (w : Wallet) : Prop := forall kind, length (Keypool.queue kind (keypool w)) = KEYPOOL_TARGET_SIZE.
(** What the random generator filled. *)
Definition filled (salt nonce : option bytes) : Prop :=
  (forall s, salt = Some s -> length s = SALT_BYTES) /\ (forall n, nonce = Some n -> length n = NONCE_BYTES).

(** A sealed file opens with its password. *)
Lemma sealed_opens w password iterations salt nonce f :
  filled salt nonce -> sealed_file w password iterations salt nonce = Ok f ->
  length (df_salt f) = SALT_BYTES /\ length (df_nonce f) = NONCE_BYTES /\ df_network f = wallet_network w
  /\ open_file f password iterations = Ok (Wallet.capture_state w).
Proof.
  intros [Hsalt Hnonce]. unfold sealed_file. case_bool_decide as Hp.
  - destruct (serialize_state (Wallet.capture_state w)) as [ct|] eqn:E; [|done]. intros [= <-]. split_and!; [done..|].
    unfold open_file. cbn [df_encryption_mode df_ciphertext]. by rewrite (state_loads _ _ E).
  - destruct salt as [salt|]; [|done]. destruct nonce as [nonce|]; [|done].
    cbn [ok_or mbind result_bind]. unfold encrypt_state.
    destruct (serialize_state (Wallet.capture_state w)) as [payload|] eqn:E; [|done].
    destruct (aes_encrypt _ _ _ _) as [ct|] eqn:Ea; [|done]. cbn [ok_or]. intros [= <-].
    split_and!; [by apply Hsalt|by apply Hnonce|done|]. unfold open_file, decrypt_state. cbn [df_encryption_mode df_salt df_nonce df_ciphertext].
    by rewrite (aes_opens _ _ _ _ _ Ea), (state_loads _ _ E).
Qed.
(** What loading a sealed file gives. *)
Definition loaded_wallet (w : Wallet) : result WalletDatafileError Wallet :=
  if decide (wallet_network w = Prunetest) then Err InvalidDatafileHeader else Ok (saved_wallet w).
(** Loading the bytes of a sealed file. *)
Lemma sealed_loads w password iterations salt nonce f bs path fs :
  pool_full w -> filled salt nonce -> sealed_file w password iterations salt nonce = Ok f ->
  WalletDataFile.to_bytes f = Ok bs -> read_file fs path = Some bs ->
  load_impl fs path password iterations = loaded_wallet w.
Proof.
  intros Hfull Hfill Hseal Hbytes Hread. unfold loaded_wallet.
  destruct (sealed_opens _ _ _ _ _ _ Hfill Hseal) as (Hsalt & Hnonce & Hfn & Hopen).
  assert (datafile_ok f) as Hok by (split; [done..|by eapply to_bytes_fits]).
  pose proof (from_bytes_to f bs Hok Hbytes) as Hfrom. rewrite Hfn in Hfrom.
  unfold load_impl, load_impl_with_progress. rewrite Hread. cbn [ok_or mbind result_bind]. rewrite Hfrom.
  destruct (decide _) as [Hp|Hnet]; [done|]. cbn [mbind result_bind]. rewrite Hopen. cbn [mbind result_bind fmap result_fmap]. rewrite Hfn. f_equal.
  transitivity (Wallet.from_state (wallet_network w) (mnemonic w) (Wallet.capture_state w)); [|exact (restart_keeps w Hfull)]. unfold Wallet.from_state, Wallet.from_state_with_progress.
  replace (match mnemonic w with Some p => Some p | None => ps_mnemonic (Wallet.capture_state w) end)
    with (ps_mnemonic (Wallet.capture_state w)); [done|].
  unfold Wallet.capture_state. destruct (HdWallet.counters _), (Keypool.snapshot _). cbn. by destruct (mnemonic w).
Qed.

(** C29: Saving never loses a wallet of a network that the file format knows (all but
    Prunetest). A save over an existing file, whatever of its calls fail and wherever it
    crashes, leaves a file that loads with the same password as the one before, or as the
    wallet that was saved; and when it reports success, the latter. A Prunetest wallet is
    lost by a save: the file that replaces the old one is refused by every load
    ([loaded_wallet], [prunetest_wallet_cannot_load]). The wallet's pools of keys are full:
    1024 keys each, which every hand-out refills; the salt and nonce have the sizes the
    random generator is asked for; decryption inverts encryption and the state deserializes
    ([WalletSealLaws]). *)
Theorem save_survives_crashes w password iterations salt nonce script path fs old :
  pool_full w -> filled salt nonce ->
  fs !! path = Some {| contents := old; synced := true |} ->
  let '(d, r) := save_impl w password path iterations salt nonce script (recorded fs) in
  (r = Some (Ok tt) -> load_impl (current d) path password iterations = loaded_wallet w)
  /\ forall fs', after_crash d fs' ->
       load_impl fs' path password iterations = load_impl fs path password iterations
       \/ load_impl fs' path password iterations = loaded_wallet w.
Proof.
  intros Hfull Hfill Hold. unfold save_impl.
  assert (forall fs', read_file fs' path = Some old -> load_impl fs' path password iterations = load_impl fs path password iterations) as Hsame.
  { intros fs' Hread. unfold load_impl, load_impl_with_progress. rewrite Hread. unfold read_file. by rewrite Hold. }
  destruct (f ← sealed_file w password iterations salt nonce; WalletDataFile.to_bytes f) as [bs|e] eqn:Ebs.
  2: { split; [done|]. intros fs' Hcrash. left. apply Hsame.
       by destruct (crash_contents path old fs (recorded fs) fs' old Hold (or_introl (conj eq_refl eq_refl)) Hcrash). }
  destruct (sealed_file w password iterations salt nonce) as [f|e] eqn:Ef; [|done]. cbn [mbind result_bind] in Ebs.
  pose proof (atomic_write_stages path bs script fs) as Hstages.
  destruct (atomic_write path bs script (recorded fs)) as [d r]. split.
  - intros ->. destruct Hstages as [[_ Hnot]|[Hcur _]]; [done|].
    eapply sealed_loads; [done..|exact Ef|exact Ebs|]. unfold read_file. by rewrite Hcur.
  - intros fs' Hcrash. destruct (crash_contents path bs fs d fs' old Hold) as [Hread|Hread]; [|done| |].
    + destruct Hstages as [[]|]; tauto.
    + left. by apply Hsame.
    + right. by eapply sealed_loads.
Qed.

(** A Prunetest wallet saves, but its file is refused: the parser knows three networks. *)
Theorem prunetest_wallet_cannot_load w password iterations salt nonce path fs script d :
  wallet_network w = Prunetest -> filled salt nonce ->
  save_impl w password path iterations salt nonce script (recorded fs) = (d, Some (Ok tt)) ->
  forall password', load_impl (current d) path password' iterations = Err InvalidDatafileHeader.
Proof.
  intros Hnet Hfill Hsave password'. unfold save_impl in Hsave.
  destruct (sealed_file w password iterations salt nonce) as [f|e] eqn:Ef; [|done]. cbn [mbind result_bind] in Hsave.
  destruct (sealed_opens _ _ _ _ _ _ Hfill Ef) as (Hsalt & Hnonce & Hfn & _).
  destruct (WalletDataFile.to_bytes f) as [bs|e] eqn:Ebs; [|done].
  pose proof (atomic_write_stages path bs script fs) as Hstages. rewrite Hsave in Hstages.
  destruct Hstages as [[_ Hnot]|[Hcur _]]; [done|].
  assert (datafile_ok f) as Hok by (split; [done..|by eapply to_bytes_fits]).
  unfold load_impl, load_impl_with_progress, read_file. rewrite Hcur. cbn [fmap option_fmap option_map contents ok_or mbind result_bind].
  by rewrite (from_bytes_to _ _ Hok Ebs), decide_True by congruence.
Qed.

(** Only the network depends on the network. *)
Lemma from_state_network n state : wallet_network (Wallet.from_state_with_progress n None state).1 = n.
Proof.
  unfold Wallet.from_state_with_progress, Wallet.prefill_with_progress. by destruct (Keypool.refill_to_target_with_progress _ _) as [[]].
Qed.
Lemma from_state_mnemonic n state : mnemonic (Wallet.from_state_with_progress n None state).1 = ps_mnemonic state.
Proof.
  unfold Wallet.from_state_with_progress, Wallet.prefill_with_progress. by destruct (Keypool.refill_to_target_with_progress _ _) as [[]].
Qed.

(** The associated data of the encryption leaves out the header: whoever can write the file
    can move a wallet to another network without its password. *)
Theorem network_is_not_authenticated f n bs bs' path fs fs' password iterations w :
  datafile_ok f -> n <> Prunetest -> WalletDataFile.to_bytes f = Ok bs ->
  WalletDataFile.to_bytes {| df_network := n; df_encryption_mode := df_encryption_mode f; df_salt := df_salt f;
    df_nonce := df_nonce f; df_ciphertext := df_ciphertext f |} = Ok bs' ->
  read_file fs path = Some bs -> read_file fs' path = Some bs' -> load_impl fs path password iterations = Ok w ->
  exists w', load_impl fs' path password iterations = Ok w' /\ wallet_network w' = n /\ mnemonic w' = mnemonic w.
Proof.
  intros Hok Hn Hbytes Hbytes' Hread Hread'.
  destruct (decide (df_network f = Prunetest)) as [Hp|Hp].
  { intros Hload. unfold load_impl, load_impl_with_progress in Hload. rewrite Hread in Hload. cbn [ok_or mbind result_bind] in Hload.
    by rewrite (from_bytes_to _ _ Hok Hbytes), decide_True in Hload. }
  unfold load_impl, load_impl_with_progress. rewrite Hread, Hread'. cbn [ok_or mbind result_bind].
  rewrite (from_bytes_to _ _ Hok Hbytes), decide_False by done.
  rewrite (from_bytes_to _ _ (datafile_ok_network n _ Hok) Hbytes'), decide_False by done. cbn [mbind result_bind].
  change (open_file {| df_network := n; df_encryption_mode := df_encryption_mode f; df_salt := df_salt f; df_nonce := df_nonce f;
    df_ciphertext := df_ciphertext f |} password iterations) with (open_file f password iterations).
  destruct (open_file f password iterations) as [state|]; [|done]. cbn [mbind result_bind fmap result_fmap df_network].
  intros [= <-]. eexists. split; [done|]. by rewrite !from_state_network, !from_state_mnemonic.
Qed.
End survival.

(** ** An example *)

#[global] Instance WalletSnapshot_eq_dec : EqDecision WalletSnapshot.
Proof. solve_decision. Defined.
#[global] Instance AddressRecord_eq_dec : EqDecision AddressRecord.
Proof. solve_decision. Defined.
#[global] Instance PersistedWalletState_eq_dec : EqDecision PersistedWalletState.
Proof. solve_decision. Defined.

(** A cipher that checks its key, and a serializer that knows one state. *)
Definition sample_seal (state : PersistedWalletState) : WalletSeal :=
  {| pbkdf2_hmac_sha256 password salt _ := password ++ salt;
     aes_encrypt key _ _ msg := Some (key ++ msg);
     aes_decrypt key _ _ sealed := if decide (take (length key) sealed = key) then Some (drop (length key) sealed) else None;
     serialize_state s := if decide (s = state) then Some [x01] else None;
     deserialize_state bs := if decide (bs = [x01]) then Some state else None |}.
Lemma sample_seal_laws state : WalletSealLaws (sample_seal state).
Proof.
  split; cbn.
  - intros key _ _ msg sealed [= <-]. by rewrite take_app_length, drop_app_length, decide_True.
  - intros s bs. case_decide; [|done]. intros [= <-]. rewrite decide_True by done. by subst.
Qed.

Definition sample_wallet : Wallet :=
  {| wallet_network := Regnet; mnemonic := None; hd_wallet := HdWallet.with_counters (zeros 32) 1024 1024;
     keypool := {| receive := paths Receive 0 KEYPOOL_TARGET_SIZE; change := paths Change 0 KEYPOOL_TARGET_SIZE |};
     address_book := AddressBook.new; wallet_snapshot := WalletSnapshot.default; restore_gap_limit := 20 |}.
Definition sample_path : FilePath := Named (str_bytes "/home") (str_bytes "wallet.datafile").
Definition sample_files : files := {[sample_path := {| contents := [x00]; synced := true |}]}.
Lemma sample_pool : pool_full sample_wallet.
Proof. by intros []; apply paths_length. Qed.

Lemma save_survives_crashes_witness :
  let seal := sample_seal (Wallet.capture_state sample_wallet) in
  let '(d, r) := @save_impl seal sample_wallet (str_bytes "pw") sample_path 5 (Some (zeros 16)) (Some (zeros 12))
    (replicate 7 Works) (recorded sample_files) in
  r = Some (Ok tt)
  /\ (r = Some (Ok tt) -> @load_impl seal (current d) sample_path (str_bytes "pw") 5
      = Ok (saved_wallet sample_wallet))
  /\ forall fs', after_crash d fs' ->
       @load_impl seal fs' sample_path (str_bytes "pw") 5
         = @load_impl seal sample_files sample_path (str_bytes "pw") 5
       \/ @load_impl seal fs' sample_path (str_bytes "pw") 5 = Ok (saved_wallet sample_wallet).
Proof.
  cbv zeta. pose proof (@save_survives_crashes _ (sample_seal_laws (Wallet.capture_state sample_wallet)) sample_wallet
    (str_bytes "pw") 5 (Some (zeros 16)) (Some (zeros 12)) (replicate 7 Works) sample_path sample_files [x00] sample_pool
    ltac:(by split; intros ? [= <-]) ltac:(by apply lookup_singleton_eq)) as H.
  assert ((@save_impl (sample_seal (Wallet.capture_state sample_wallet)) sample_wallet (str_bytes "pw") sample_path 5 (Some (zeros 16))
    (Some (zeros 12)) (replicate 7 Works) (recorded sample_files)).2 = Some (Ok tt)) as Hok by (vm_compute; reflexivity).
  destruct (@save_impl _ _ _ _ _ _ _ _ _) as [d r]. split; [exact Hok|exact H].
Defined.

(** The same wallet on the Prunetest network. *)
Definition prunetest_wallet : Wallet :=
  {| wallet_network := Prunetest; mnemonic := mnemonic sample_wallet; hd_wallet := hd_wallet sample_wallet;
     keypool := keypool sample_wallet; address_book := address_book sample_wallet;
     wallet_snapshot := wallet_snapshot sample_wallet; restore_gap_limit := restore_gap_limit sample_wallet |}.
Lemma prunetest_wallet_cannot_load_witness :
  let seal := sample_seal (Wallet.capture_state prunetest_wallet) in
  exists d, @save_impl seal prunetest_wallet (str_bytes "pw") sample_path 5 (Some (zeros 16)) (Some (zeros 12))
    (replicate 7 Works) (recorded sample_files) = (d, Some (Ok tt))
  /\ forall password', @load_impl seal (current d) sample_path password' 5 = Err InvalidDatafileHeader.
Proof.
  cbv zeta. assert ((@save_impl (sample_seal (Wallet.capture_state prunetest_wallet)) prunetest_wallet (str_bytes "pw") sample_path 5
    (Some (zeros 16)) (Some (zeros 12)) (replicate 7 Works) (recorded sample_files)).2 = Some (Ok tt)) as Hok by (vm_compute; reflexivity).
  destruct (@save_impl _ _ _ _ _ _ _ _ _) as [d r] eqn:E. cbn [snd] in Hok. subst r. exists d. split; [reflexivity|].
  refine (@prunetest_wallet_cannot_load _ (sample_seal_laws _) prunetest_wallet (str_bytes "pw") 5 _ _ sample_path sample_files _ d _ _ E); [reflexivity|].
  by split; intros ? [= <-].
Defined.
