(* ===== verification/TextFacts.v ===== *)
(** * Facts about text

    What trimming, splitting and the lines of a text do: trimmed texts, texts without a
    separator, and the lines of a text that was put together from lines. *)
From stdpp Require Import options.
From S2P Require Import Prelude Bytes Text.

(** [split_once(c)]. *)
Definition split_once (c : byte) (s : bytes) : option (bytes * bytes) :=
  match position (fun b => bool_decide (b = c)) s with
  | None => None
  | Some k => Some (take k s, drop (S k) s)
  end.
(** [trim_matches(c)]: every [c] at either end. *)
Definition trim_matches (c : byte) (s : bytes) : bytes := trim_end_matches c (strip_all (length s) [[c]] s).
(** [str::lines]: split at line feeds, a carriage return before one goes with it, and no
    empty last line. *)
Definition strip_cr (line : bytes) : bytes :=
  match reverse line with x0d :: rest => reverse rest | _ => line end.
Definition lines (s : bytes) : list bytes :=
  let parts := split_on x0a s in
  let ended := take (length parts - 1) parts in
  (strip_cr <$> ended) ++ match default [] (last parts) with [] => [] | l => [l] end.

(** ** Stripping *)

Lemma strip_one_none_iff E s : strip_one E s = None <-> forall e, e ∈ E -> take (length e) s <> e.
Proof.
  induction E as [|e E IH]; cbn [strip_one]; [split; [by intros _ e ?%not_elem_of_nil|done]|].
  case_bool_decide as He.
  - split; [done|]. intros Hall. by destruct (Hall e ltac:(left)).
  - rewrite IH. split; [by intros Hall e' [->|]%elem_of_cons; auto|]. intros Hall e' Hin. apply Hall. by right.
Qed.
Lemma strip_one_Some E s r : strip_one E s = Some r -> exists e, e ∈ E /\ s = e ++ r.
Proof.
  induction E as [|e E IH]; cbn [strip_one]; [done|]. case_bool_decide as He.
  - intros [= <-]. exists e. split; [by left|]. rewrite <- He at 1. by rewrite take_drop.
  - intros (e' & Hin & ->)%IH. exists e'. split; [by right|done].
Qed.
Lemma take_prefix (e a b : bytes) : take (length e) a = e -> take (length e) (a ++ b) = e.
Proof.
  intros He. rewrite take_app_le; [done|]. apply (f_equal length) in He. rewrite length_take in He. lia.
Qed.
(** What a text does not start with, its prefixes do not either. *)
Lemma strip_one_prefix E a b : strip_one E (a ++ b) = None -> strip_one E a = None.
Proof. rewrite !strip_one_none_iff. intros Hall e Hin He. by apply (Hall e Hin), take_prefix. Qed.

Lemma strip_all_spec E (HE : Forall (fun e : bytes => e <> []) E) fuel : forall s, (length s <= fuel)%nat ->
  strip_one E (strip_all fuel E s) = None /\ exists p, s = p ++ strip_all fuel E s.
Proof.
  induction fuel as [|fuel IH]; intros s Hlen; cbn [strip_all].
  - destruct s; [|cbn in Hlen; lia]. split; [|by exists []]. apply strip_one_none_iff. intros e Hin He.
    rewrite take_nil in He. by apply (proj1 (Forall_forall _ _) HE e Hin).
  - destruct (strip_one E s) as [r|] eqn:Er; [|by split; [|exists []]].
    destruct (strip_one_Some _ _ _ Er) as (e & Hin & ->). pose proof (proj1 (Forall_forall _ _) HE e Hin) as Hne.
    destruct (IH r) as (Hnone & p & Hp); [rewrite length_app in Hlen; destruct e; [done|cbn in Hlen; lia]|].
    split; [done|]. exists (e ++ p). rewrite <- app_assoc. by rewrite <- Hp.
Qed.
Lemma strip_all_None E fuel s : strip_one E s = None -> strip_all fuel E s = s.
Proof. intros Hnone. destruct fuel; cbn [strip_all]; [done|]. by rewrite Hnone. Qed.

(** ** Trimmed texts *)

Definition trimmed (s : bytes) : Prop :=
  strip_one whitespace s = None /\ strip_one (reverse <$> whitespace) (reverse s) = None.
Definition trimmed_b (s : bytes) : bool :=
  bool_decide (strip_one whitespace s = None) && bool_decide (strip_one (reverse <$> whitespace) (reverse s) = None).

Lemma whitespace_nonempty : Forall (fun e : bytes => e <> []) whitespace.
Proof. by repeat constructor. Qed.
Lemma whitespace_reversed : Forall (fun e : bytes => e <> []) (reverse <$> whitespace).
Proof. by repeat constructor. Qed.

Lemma trim_trimmed s : trimmed (trim s).
Proof.
  unfold trim, trimmed. cbv zeta.
  destruct (strip_all_spec _ whitespace_nonempty (length s) s ltac:(done)) as (Hfront & _ & _).
  set (u := strip_all (length s) whitespace s) in *.
  destruct (strip_all_spec _ whitespace_reversed (length u) (reverse u) ltac:(by rewrite length_reverse)) as (Hback & q & Hq).
  set (v := strip_all (length u) (reverse <$> whitespace) (reverse u)) in *. split.
  - apply (strip_one_prefix _ _ (reverse q)). rewrite <- reverse_app, <- Hq. by rewrite reverse_involutive.
  - by rewrite reverse_involutive.
Qed.
Lemma trim_id s : trimmed s -> trim s = s.
Proof.
  intros [Hfront Hback]. unfold trim. cbv zeta. rewrite (strip_all_None _ _ s Hfront), (strip_all_None _ _ _ Hback).
  apply reverse_involutive.
Qed.
Lemma trim_idem s : trim (trim s) = trim s.
Proof. apply trim_id, trim_trimmed. Qed.

(** A byte that no white space has in it stops trimming. *)
Definition solid (b : byte) : bool := forallb (fun e => negb (existsb (Byte.eqb b) e)) whitespace.
Lemma solid_in b e : solid b = true -> e ∈ whitespace -> b ∉ e.
Proof.
  unfold solid. rewrite forallb_forall. intros Hall He Hin.
  specialize (Hall e ltac:(by apply list_elem_of_In)). apply negb_true_iff in Hall.
  assert (existsb (Byte.eqb b) e = true) as Ht; [|congruence].
  apply existsb_exists. exists b. split; [by apply list_elem_of_In|]. by apply Byte.byte_dec_lb.
Qed.
Lemma strip_one_solid E s b r : (forall e, e ∈ E -> b ∉ e) -> strip_one E s = None -> strip_one E (s ++ b :: r) = None.
Proof.
  rewrite !strip_one_none_iff. intros Hb Hall e Hin He. destruct (decide (length e <= length s)%nat) as [Hle|Hlt].
  - rewrite take_app_le in He by done. by apply (Hall e).
  - apply (Hb e Hin). rewrite <- He, take_app_ge by lia. apply elem_of_app. right.
    destruct (length e - length s)%nat as [|k] eqn:Ek; [lia|]. by left.
Qed.
Lemma strip_one_nil E : Forall (fun e : bytes => e <> []) E -> strip_one E [] = None.
Proof. rewrite Forall_forall, strip_one_none_iff. intros HE e Hin He. rewrite take_nil in He. by apply (HE e). Qed.
Lemma solid_reversed b e : solid b = true -> e ∈ (reverse <$> whitespace) -> b ∉ e.
Proof. intros Hb (e' & -> & He')%list_elem_of_fmap. rewrite elem_of_reverse. by apply solid_in. Qed.

Lemma trimmed_nil : trimmed [].
Proof. by split. Qed.
(** Trimmed texts with solid bytes between them. *)
Lemma trimmed_join l a b r t : trimmed l -> solid a = true -> solid b = true -> trimmed r -> trimmed (l ++ a :: t ++ b :: r).
Proof.
  intros [Hfront _] Ha Hb [_ Hback]. split.
  - by apply strip_one_solid; [intros e; apply solid_in|].
  - rewrite (app_comm_cons t), app_assoc, reverse_app, reverse_cons, <- app_assoc. cbn [app].
    by apply strip_one_solid; [intros e; apply solid_reversed|].
Qed.
(** A text of solid bytes. *)
Lemma trimmed_solid s : forallb solid s = true -> trimmed s.
Proof.
  rewrite forallb_forall. intros Hs. destruct s as [|a s]; [apply trimmed_nil|].
  assert (solid a = true) as Ha by (apply Hs; by left).
  destruct (exists_last (l:=a :: s) ltac:(done)) as (s' & b & E).
  assert (solid b = true) as Hb by (apply Hs, list_elem_of_In; rewrite E; set_solver).
  split.
  - apply (strip_one_solid whitespace [] a); [by intros e; apply solid_in|]. apply strip_one_nil, whitespace_nonempty.
  - rewrite E, reverse_snoc. apply (strip_one_solid _ [] b); [by intros e; apply solid_reversed|].
    apply strip_one_nil, whitespace_reversed.
Qed.

(** ** Splitting *)

Lemma split_on_none c s : c ∉ s -> split_on c s = [s].
Proof.
  induction s as [|b s IH]; intros Hc; [done|]. apply not_elem_of_cons in Hc as [Hb Hc]. cbn [split_on].
  by rewrite bool_decide_false by congruence; rewrite IH.
Qed.
Lemma split_on_app c s rest : c ∉ s -> split_on c (s ++ c :: rest) = s :: split_on c rest.
Proof.
  induction s as [|b s IH]; intros Hc; cbn [app split_on]; [by rewrite bool_decide_true|].
  apply not_elem_of_cons in Hc as [Hb Hc]. by rewrite bool_decide_false by congruence; rewrite IH.
Qed.
Lemma position_app (c : byte) s rest : c ∉ s -> position (fun b => bool_decide (b = c)) (s ++ c :: rest) = Some (length s).
Proof.
  induction s as [|b s IH]; intros Hc; cbn [app position]; [by rewrite bool_decide_true|].
  apply not_elem_of_cons in Hc as [Hb Hc]. by rewrite bool_decide_false by congruence; rewrite IH.
Qed.
Lemma split_once_app c s rest : c ∉ s -> split_once c (s ++ c :: rest) = Some (s, rest).
Proof.
  intros Hc. unfold split_once. rewrite position_app by done. rewrite take_app_length.
  replace (S (length s)) with (length (s ++ [c])) by (rewrite length_app; cbn; lia).
  by rewrite (cons_middle c s rest), app_assoc, drop_app_length.
Qed.
Lemma trim_matches_none c s : head s <> Some c -> last s <> Some c -> trim_matches c s = s.
Proof.
  intros Hhead Hlast. assert (strip_one [[c]] s = None) as E.
  { destruct s as [|b s]; [done|]. cbn. rewrite take_0. rewrite bool_decide_false; [done|]. intros [= ->]. by apply Hhead. }
  unfold trim_matches, trim_end_matches. rewrite (strip_all_None _ _ s E). rewrite strip_all_None; [apply reverse_involutive|].
  destruct s as [|b s _] using rev_ind; [done|]. rewrite reverse_snoc. cbn. rewrite take_0, bool_decide_false; [done|].
  intros [= ->]. by rewrite last_snoc in Hlast.
Qed.

(** ** Lines *)

Definition line_ok (l : bytes) : Prop := x0a ∉ l /\ strip_cr l = l.
Lemma split_lines (ls : list bytes) : Forall line_ok ls -> split_on x0a (ls ≫= fun l => l ++ [x0a]) = ls ++ [[]].
Proof.
  induction 1 as [|l ls [Hl _] _ IH]; [done|]. cbn [mbind list_bind]. rewrite <- app_assoc. cbn [app].
  rewrite split_on_app by done. f_equal. exact IH.
Qed.
(** The lines of a text put together from lines. *)
Lemma lines_join (ls : list bytes) : Forall line_ok ls -> lines (ls ≫= fun l => l ++ [x0a]) = ls.
Proof.
  intros Hls. unfold lines. rewrite split_lines by done. rewrite last_snoc, length_app. cbn [length default].
  replace (length ls + 1 - 1)%nat with (length ls) by lia. rewrite take_app_length, app_nil_r.
  induction Hls as [|l ls [_ Hcr] _ IH]; [done|]. cbn. by rewrite Hcr, IH.
Qed.
Lemma strip_cr_id s b l : solid b = true -> trimmed s -> strip_cr (l ++ b :: s) = l ++ b :: s.
Proof.
  intros Hb [_ Hback]. unfold strip_cr. rewrite reverse_app, reverse_cons, <- app_assoc. cbn [app].
  destruct (reverse s) as [|x r] eqn:E; cbn [app].
  - destruct b; done.
  - by destruct x.
Qed.
