(* ===== verification/OperatorConfig.v ===== *)
(** * The operator's configuration

    crates/atho-node/src/config.rs: the configuration of a node, the text file it is kept
    in, the environment that overrides it, and the credentials of the RPC interface.
    HMAC-SHA256 of the sha2 and hmac crates is the class [Hmac]. *)
From stdpp Require Import options.
From S2P Require Import Prelude Bytes Text TextFacts Constants Crypto Network Address Falcon Mempool P2pConfig Node.

(** [hmac] over [sha2::Sha256]: a key of any length and a message. *)
Class Hmac := hmac_sha256 : bytes -> bytes -> bytes.

(* src: node_config.rs:18-18 DEFAULT_API_BIND *)
Definition DEFAULT_API_BIND : bytes := Eval vm_compute in str_bytes "127.0.0.1".
(* src: node_config.rs:19-19 DEFAULT_API_PORT *)
Definition DEFAULT_API_PORT : Z := 8080.
(* src: node_config.rs:20-20 DEFAULT_API_MAX_RESPONSE_BYTES *)
Definition DEFAULT_API_MAX_RESPONSE_BYTES : Z := 1048576.
(* src: node_config.rs:21-21 DEFAULT_ALLOWED_ORIGINS *)
Definition DEFAULT_ALLOWED_ORIGINS : list bytes :=
  Eval vm_compute in str_bytes <$> ["https://atho.io"; "https://www.atho.io"]%string.
(* src: node_config.rs:22-22 DEFAULT_RATE_LIMIT_RPM *)
Definition DEFAULT_RATE_LIMIT_RPM : Z := 180.
(* src: node_config.rs:23-23 DEFAULT_HEAVY_RATE_LIMIT_RPM *)
Definition DEFAULT_HEAVY_RATE_LIMIT_RPM : Z := 90.
(* src: node_config.rs:25-25 ATHO_RPC_DEFAULT_USER *)
Definition ATHO_RPC_DEFAULT_USER : bytes := Eval vm_compute in str_bytes "atho".
(* src: node_config.rs:26-26 ATHO_RPC_DEFAULT_PASSWORD *)
Definition ATHO_RPC_DEFAULT_PASSWORD : bytes := Eval vm_compute in str_bytes "change-this-before-public-rpc".
(* src: node_config.rs:27-27 ATHO_RPC_COOKIE_USER *)
Definition ATHO_RPC_COOKIE_USER : bytes := Eval vm_compute in str_bytes "__cookie__".
(* src: node_config.rs:30-30 DEFAULT_PRUNE_TARGET_BYTES *)
Definition DEFAULT_PRUNE_TARGET_BYTES : Z := 2 * 1024 * 1024 * 1024.
(* src: node_config.rs:31-31 DEFAULT_DB_CACHE_BYTES *)
Definition DEFAULT_DB_CACHE_BYTES : Z := 512 * 1024 * 1024.
(* src: node_config.rs:32-32 DEFAULT_MAX_PEER_CONNECTIONS *)
Definition DEFAULT_MAX_PEER_CONNECTIONS : Z := 40.
(* src: node_config.rs:34-34 DEV_MINING_REWARD_SEED *)
Definition DEV_MINING_REWARD_SEED : bytes := Eval vm_compute in str_bytes "atho-dev-mining-reward-address".

(** ** The data *)

(* src: node_config.rs:64-67 CorsConfig *)
Record CorsConfig := { allowed_origins : list bytes }.
(* src: node_config.rs:69-74 RateLimitConfig *)
Record RateLimitConfig := { rl_enabled : bool; requests_per_minute : Z; heavy_requests_per_minute : Z }.
(* src: node_config.rs:76-81 ExplorerConfig *)
Record ExplorerConfig := { index_enabled : bool; snapshot_enabled : bool; ex_network : Network }.
(* src: node_config.rs:49-62 ApiConfig *)
Record ApiConfig := {
  api_enabled : bool;
  api_bind : bytes;
  api_port : Z;
  public_read_only : bool;
  admin_enabled : bool;
  api_wallet_enabled : bool;
  api_mining_enabled : bool;
  max_response_bytes : Z;
  cors : CorsConfig;
  rate_limit : RateLimitConfig;
  explorer : ExplorerConfig;
}.
(* src: node_config.rs:127-132 RpcHashedCredential *)
Record RpcHashedCredential := { hc_username : bytes; salt_hex : bytes; password_hmac_hex : bytes }.
(* src: node_config.rs:83-93 RpcAuthConfig *)
Record RpcAuthConfig := {
  auth_enabled : bool;
  auth_bind : bytes;
  auth_port : Z;
  username : bytes;
  password : bytes;
  password_hmac : option RpcHashedCredential;
  cookie_auth : bool;
  cookie_secret : option bytes;
}.
(** The limits of the pool are [Mempool.MempoolLimits]: the same two fields. *)
(* src: node_config.rs:101-105 StorageConfig *)
Record StorageConfig := { prune_target_bytes : Z; db_cache_bytes : Z }.
(* src: node_config.rs:107-110 PeerConfig *)
Record PeerConfig := { max_connections : Z }.
(* src: node_config.rs:112-119 SyncConfig *)
Record SyncConfig := {
  fast_body_download : bool;
  background_validation : bool;
  checkpoint_anchored_sync : bool;
  bootstrap_snapshot_path : bytes;
  bootstrap_snapshot_hash : bytes;
}.
(* src: node_config.rs:121-125 WalletRuntimeConfig *)
Record WalletRuntimeConfig := { w_enabled : bool; require_encryption : bool }.
(** The whole of it; [Node.NodeConfig] has the fields the node reads. *)
(* src: node_config.rs:36-47 NodeConfig (all fields) *)
Record FullConfig := {
  c_network : Network;
  c_api : ApiConfig;
  c_rpc_auth : RpcAuthConfig;
  c_mining_reward_address : bytes;
  c_mempool : MempoolLimits;
  c_storage : StorageConfig;
  c_peers : PeerConfig;
  c_sync : SyncConfig;
  c_wallet : WalletRuntimeConfig;
}.
Definition node_config (c : FullConfig) : NodeConfig :=
  {| cfg_network := c_network c; cfg_mining_reward_address := c_mining_reward_address c; cfg_mempool := c_mempool c |}.

(** ** Small functions *)

Definition bool_text (value : bool) : bytes := if value then [x31] else [x30].
(* src: node_config.rs:827-833 bool_as_conf *)
Definition bool_as_conf (value : bool) : bytes := bool_text value.
(* src: node_config.rs:843-845 mib_to_bytes *)
Definition mib_to_bytes (mib : Z) : Z := saturating_mul U64_MAX (saturating_mul U64_MAX mib 1024) 1024.
(* src: node_config.rs:847-849 bytes_to_mib_ceil *)
Definition bytes_to_mib_ceil (bs : Z) : Z := saturating_add U64_MAX bs (1024 * 1024 - 1) / (1024 * 1024).

(* src: node_config.rs:819-825 parse_bool *)
Definition conf_bool (value : bytes) : option bool :=
  let v := to_ascii_lowercase (trim value) in
  if bool_decide (v ∈ str_bytes <$> ["1"; "true"; "yes"; "on"]%string) then Some true
  else if bool_decide (v ∈ str_bytes <$> ["0"; "false"; "no"; "off"]%string) then Some false
  else None.

(** ** Credentials *)

Section hmac.
Context `{Hm : Hmac}.
(* src: node_config.rs:870-879 rpc_password_hmac_hex *)
Definition rpc_password_hmac_hex (salt_hex password : bytes) : option bytes :=
  salt ← hex_decode salt_hex; Some (hex_encode (hmac_sha256 salt password)).
End hmac.

Module RpcHashedCredential.
Section credential.
Context `{Hm : Hmac}.
(** [salt] is what the random generator gave, if it worked. *)
(* src: node_config.rs:669-680 RpcHashedCredential::from_password *)
Definition from_password (salt : option bytes) (username password : bytes) : option RpcHashedCredential :=
  salt ← salt;
  let salt_hex := hex_encode salt in
  password_hmac_hex ← rpc_password_hmac_hex salt_hex password;
  Some {| hc_username := trim username; salt_hex := salt_hex; password_hmac_hex := password_hmac_hex |}.
(* src: node_config.rs:682-696 RpcHashedCredential::parse *)
Definition parse (value : bytes) : option RpcHashedCredential :=
  '(username, rest) ← split_once x3a value;
  '(salt_hex, password_hmac_hex) ← split_once x24 rest;
  if bool_decide (trim username = []) || bool_decide (trim salt_hex = []) || bool_decide (trim password_hmac_hex = [])
  then None
  else Some {| hc_username := trim username; salt_hex := trim salt_hex; password_hmac_hex := trim password_hmac_hex |}.
(* src: node_config.rs:698-703 RpcHashedCredential::as_config_value *)
Definition as_config_value (c : RpcHashedCredential) : bytes :=
  hc_username c ++ [x3a] ++ salt_hex c ++ [x24] ++ password_hmac_hex c.
(* src: node_config.rs:705-710 RpcHashedCredential::verify *)
Definition verify (c : RpcHashedCredential) (username password : bytes) : bool :=
  bool_decide (username = hc_username c)
  && match rpc_password_hmac_hex (salt_hex c) password with
     | Some computed => bool_decide (computed = password_hmac_hex c)
     | None => false
     end.
End credential.
End RpcHashedCredential.

Module RpcAuthConfig.
Section auth.
Context `{Hm : Hmac}.
(* src: node_config.rs:546-557 RpcAuthConfig::default *)
Definition default_auth : RpcAuthConfig :=
  {| auth_enabled := false; auth_bind := DEFAULT_API_BIND; auth_port := 0; username := ATHO_RPC_DEFAULT_USER;
     password := ATHO_RPC_DEFAULT_PASSWORD; password_hmac := None; cookie_auth := true; cookie_secret := None |}.
(* src: node_config.rs:561-566 RpcAuthConfig::for_network *)
Definition for_network (n : Network) : RpcAuthConfig :=
  {| auth_enabled := false; auth_bind := DEFAULT_API_BIND; auth_port := Network.rpc_port n; username := ATHO_RPC_DEFAULT_USER;
     password := ATHO_RPC_DEFAULT_PASSWORD; password_hmac := None; cookie_auth := true; cookie_secret := None |}.
(* src: node_config.rs:568-570 RpcAuthConfig::credentials_are_default *)
Definition credentials_are_default (a : RpcAuthConfig) : bool :=
  bool_decide (username a = ATHO_RPC_DEFAULT_USER) && bool_decide (password a = ATHO_RPC_DEFAULT_PASSWORD).
(* src: node_config.rs:572-582 RpcAuthConfig::securely_configured_for_public_rpc *)
Definition securely_configured_for_public_rpc (a : RpcAuthConfig) : bool :=
  if negb (auth_enabled a) then false
  else match password_hmac a with
  | Some _ => true
  | None => negb (bool_decide (trim (username a) = [])) && negb (bool_decide (trim (password a) = []))
            && negb (credentials_are_default a)
  end.
(** The outer [None] is an I/O error of the random generator. *)
(* src: node_config.rs:584-595 RpcAuthConfig::persisted_hashed_credential *)
Definition persisted_hashed_credential (salt : option bytes) (a : RpcAuthConfig) : option (option RpcHashedCredential) :=
  match password_hmac a with
  | Some entry => Some (Some entry)
  | None =>
      if auth_enabled a && negb (bool_decide (trim (username a) = [])) && negb (bool_decide (trim (password a) = []))
      then Some <$> RpcHashedCredential.from_password salt (trim (username a)) (trim (password a))
      else Some None
  end.
(* src: node_config.rs:597-618 RpcAuthConfig::verify_username_password *)
Definition verify_username_password (a : RpcAuthConfig) (user pass : bytes) : bool :=
  if cookie_auth a && bool_decide (user = ATHO_RPC_COOKIE_USER)
     && match cookie_secret a with Some secret => bool_decide (secret = pass) | None => false end
  then true
  else if negb (bool_decide (trim (username a) = [])) && bool_decide (user = username a) && bool_decide (pass = password a)
  then true
  else match password_hmac a with Some credential => RpcHashedCredential.verify credential user pass | None => false end.
End auth.
End RpcAuthConfig.

(** ** The file *)

(** The struct has this map as its only field. *)
Abbreviation OperatorConfigFile := (gmap bytes bytes).
Module OperatorConfigFile.
(** One line of the file: its key and value, if it has them. *)
Definition parse_line (line : bytes) : option (bytes * bytes) :=
  let line := trim (default [] (head (split_on x23 line))) in
  if bool_decide (line = []) then None
  else
    '(key, value) ← split_once x3d line;
    let key := to_ascii_lowercase (trim key) in
    let value := trim_matches x22 (trim value) in
    if bool_decide (key = []) then None else Some (key, value).
(* src: node_config.rs:731-748 OperatorConfigFile::parse *)
Definition parse (contents : bytes) : OperatorConfigFile :=
  foldl (fun values line => match parse_line line with Some (key, value) => <[key := value]> values | None => values end)
    ∅ (lines contents).
(* src: node_config.rs:750-754 OperatorConfigFile::get *)
Definition get (file : OperatorConfigFile) (key : string) : option bytes := file !! to_ascii_lowercase (str_bytes key).
(* src: node_config.rs:756-758 OperatorConfigFile::bool *)
Definition get_bool (file : OperatorConfigFile) (key : string) : option bool := get file key ≫= conf_bool.
(** [u16], [u64] and [usize]. *)
(* src: node_config.rs:760-762 OperatorConfigFile::u16 *)
Definition get_uint (max : Z) (file : OperatorConfigFile) (key : string) : option Z := get file key ≫= parse_uint max.
End OperatorConfigFile.

(** ** The configuration *)

Module FullConfig.
Section config.
Context `{Hs : Sha3, Hk : FalconSigner, Hm : Hmac}.

(** [expect]: the seed is not empty, so a key pair is generated. *)
(* src: node_config.rs:773-782 default_mining_reward_address *)
Definition default_mining_reward_address (network : Network) : bytes :=
  match network with
  | Regnet | Prunetest =>
      match generate_from_seed DEV_MINING_REWARD_SEED with
      | Ok keypair => address_from_public_key network (public_key keypair)
      | Err _ => []
      end
  | Mainnet | Testnet => []
  end.
(* src: node_config.rs:511-538 ApiConfig::for_network *)
Definition api_for_network (network : Network) : ApiConfig :=
  {| api_enabled := true; api_bind := DEFAULT_API_BIND; api_port := DEFAULT_API_PORT; public_read_only := true;
     admin_enabled := false; api_wallet_enabled := false; api_mining_enabled := false;
     max_response_bytes := DEFAULT_API_MAX_RESPONSE_BYTES; cors := {| allowed_origins := DEFAULT_ALLOWED_ORIGINS |};
     rate_limit := {| rl_enabled := true; requests_per_minute := DEFAULT_RATE_LIMIT_RPM;
                      heavy_requests_per_minute := DEFAULT_HEAVY_RATE_LIMIT_RPM |};
     explorer := {| index_enabled := true; snapshot_enabled := true; ex_network := network |} |}.
(* src: node_config.rs:135-147 NodeConfig::new *)
Definition new (network : Network) : FullConfig :=
  {| c_network := network; c_api := api_for_network network; c_rpc_auth := RpcAuthConfig.for_network network;
     c_mining_reward_address := default_mining_reward_address network;
     c_mempool := {| max_transactions := DEFAULT_MAX_MEMPOOL_TRANSACTIONS; max_vbytes := DEFAULT_MAX_MEMPOOL_VBYTES |};
     c_storage := {| prune_target_bytes := DEFAULT_PRUNE_TARGET_BYTES; db_cache_bytes := DEFAULT_DB_CACHE_BYTES |};
     c_peers := {| max_connections := DEFAULT_MAX_PEER_CONNECTIONS |};
     c_sync := {| fast_body_download := true; background_validation := true; checkpoint_anchored_sync := true;
                  bootstrap_snapshot_path := []; bootstrap_snapshot_hash := [] |};
     c_wallet := {| w_enabled := true; require_encryption := true |} |}.

(** The value of [rpcauth]: hashed credentials, or a switch. *)
Definition file_auth (file : OperatorConfigFile) (a : RpcAuthConfig) : bool * bytes * bytes * option RpcHashedCredential :=
  let user := default (username a) (OperatorConfigFile.get file "rpcuser") in
  let pass := default (password a) (OperatorConfigFile.get file "rpcpassword") in
  match OperatorConfigFile.get file "rpcauth" with
  | None => (auth_enabled a, user, pass, password_hmac a)
  | Some value =>
      match RpcHashedCredential.parse value with
      | Some parsed => (true, hc_username parsed, [], Some parsed)
      | None => (default (auth_enabled a) (conf_bool value), user, pass, password_hmac a)
      end
  end.
(* src: node_config.rs:395-478 NodeConfig::apply_file_overrides *)
Definition apply_file_overrides (file : OperatorConfigFile) (c : FullConfig) : FullConfig :=
  let text key current := default current (OperatorConfigFile.get file key) in
  let switch key current := default current (OperatorConfigFile.get_bool file key) in
  let size key current := default current (OperatorConfigFile.get_uint USIZE_MAX file key) in
  let mib key current := default current (mib_to_bytes <$> OperatorConfigFile.get_uint U64_MAX file key) in
  let auth := c_rpc_auth c in
  let api := c_api c in
  let '(enabled, user, pass, hmac) := file_auth file auth in
  {| c_network := c_network c;
     c_api := {| api_enabled := switch "api" (api_enabled api); api_bind := api_bind api; api_port := api_port api;
                 public_read_only := public_read_only api; admin_enabled := admin_enabled api;
                 api_wallet_enabled := switch "apiwallet" (api_wallet_enabled api);
                 api_mining_enabled := switch "apimining" (api_mining_enabled api);
                 max_response_bytes := max_response_bytes api; cors := cors api; rate_limit := rate_limit api;
                 explorer := explorer api |};
     c_rpc_auth := {| auth_enabled := enabled; auth_bind := text "rpcbind" (auth_bind auth);
                      auth_port := default (auth_port auth) (OperatorConfigFile.get_uint (2 ^ 16 - 1) file "rpcport");
                      username := user; password := pass; password_hmac := hmac;
                      cookie_auth := switch "rpccookieauth" (cookie_auth auth); cookie_secret := cookie_secret auth |};
     c_mining_reward_address := text "miningrewardaddress" (c_mining_reward_address c);
     c_mempool := {| max_transactions := size "maxmempooltx" (max_transactions (c_mempool c));
                     max_vbytes := size "maxmempoolvbytes" (mib "maxmempool" (max_vbytes (c_mempool c))) |};
     c_storage := {| prune_target_bytes := size "prunebytes" (mib "prune" (prune_target_bytes (c_storage c)));
                     db_cache_bytes := size "dbcachebytes" (mib "dbcache" (db_cache_bytes (c_storage c))) |};
     c_peers := {| max_connections := size "maxconnections" (max_connections (c_peers c)) |};
     c_sync := {| fast_body_download := switch "fastsync" (fast_body_download (c_sync c));
                  background_validation := switch "backgroundvalidation" (background_validation (c_sync c));
                  checkpoint_anchored_sync := switch "checkpointsync" (checkpoint_anchored_sync (c_sync c));
                  bootstrap_snapshot_path := text "bootstrapsnapshot" (bootstrap_snapshot_path (c_sync c));
                  bootstrap_snapshot_hash := text "bootstrapsnapshothash" (bootstrap_snapshot_hash (c_sync c)) |};
     c_wallet := {| w_enabled := switch "wallet" (w_enabled (c_wallet c));
                    require_encryption := switch "walletrequireencryption" (require_encryption (c_wallet c)) |} |}.

Definition with_reward_address (c : FullConfig) (address : bytes) : FullConfig :=
  {| c_network := c_network c; c_api := c_api c; c_rpc_auth := c_rpc_auth c; c_mining_reward_address := address;
     c_mempool := c_mempool c; c_storage := c_storage c; c_peers := c_peers c; c_sync := c_sync c; c_wallet := c_wallet c |}.
(** [None] is the panic of the address decoder. *)
(* src: node_config.rs:480-490 NodeConfig::normalize_network_scoped_values *)
Definition normalize_network_scoped_values (c : FullConfig) : option FullConfig :=
  let configured := trim (c_mining_reward_address c) in
  if bool_decide (configured = []) then Some c
  else
    decoded ← decode_base56_address configured;
    match decoded with
    | Ok (_, decoded_network) =>
        if bool_decide (decoded_network = c_network c) then Some c
        else Some (with_reward_address c (default_mining_reward_address (c_network c)))
    | Err _ => Some c
    end.
(* src: node_config.rs:492-507 NodeConfig::clamp_user_tunable_bounds *)
Definition clamp_user_tunable_bounds (c : FullConfig) : FullConfig :=
  {| c_network := c_network c; c_api := c_api c; c_rpc_auth := c_rpc_auth c;
     c_mining_reward_address := c_mining_reward_address c;
     c_mempool := {| max_transactions := clamp (max_transactions (c_mempool c)) 1000 1000000;
                     max_vbytes := clamp (max_vbytes (c_mempool c)) (8 * 1024 * 1024) (1024 * 1024 * 1024) |};
     c_storage := {| prune_target_bytes := Z.max (prune_target_bytes (c_storage c)) DEFAULT_PRUNE_TARGET_BYTES;
                     db_cache_bytes := clamp (db_cache_bytes (c_storage c)) (64 * 1024 * 1024) (8 * 1024 * 1024 * 1024) |};
     c_peers := {| max_connections := clamp (max_connections (c_peers c)) 8 512 |};
     c_sync := c_sync c; c_wallet := c_wallet c |}.
(** One line of the file. *)
Definition render_line (kv : bytes * bytes) : bytes := kv.1 ++ [x3d] ++ kv.2 ++ [x0a].
Definition header_text : bytes :=
  Eval vm_compute in str_bytes "# Atho node configuration" ++ [x0a]
    ++ str_bytes "# Edit manually or through the desktop client's Node Settings page." ++ [x0a].
(** The keys of the file and their values. *)
Definition rendered (c : FullConfig) (rpcauth_line : bytes) : list (bytes * bytes) :=
  [(str_bytes "network", str_bytes (Network.cli_arg (c_network c)));
   (str_bytes "rpcuser", username (c_rpc_auth c));
   (str_bytes "rpcauth", rpcauth_line);
   (str_bytes "rpccookieauth", bool_as_conf (cookie_auth (c_rpc_auth c)));
   (str_bytes "rpcbind", auth_bind (c_rpc_auth c));
   (str_bytes "rpcport", decimal (auth_port (c_rpc_auth c)));
   (str_bytes "miningrewardaddress", c_mining_reward_address c);
   (str_bytes "wallet", bool_as_conf (w_enabled (c_wallet c)));
   (str_bytes "walletrequireencryption", bool_as_conf (require_encryption (c_wallet c)));
   (str_bytes "maxmempool", decimal (bytes_to_mib_ceil (max_vbytes (c_mempool c))));
   (str_bytes "maxmempooltx", decimal (max_transactions (c_mempool c)));
   (str_bytes "prune", decimal (bytes_to_mib_ceil (prune_target_bytes (c_storage c))));
   (str_bytes "dbcache", decimal (bytes_to_mib_ceil (db_cache_bytes (c_storage c))));
   (str_bytes "maxconnections", decimal (max_connections (c_peers c)));
   (str_bytes "fastsync", bool_as_conf (fast_body_download (c_sync c)));
   (str_bytes "backgroundvalidation", bool_as_conf (background_validation (c_sync c)));
   (str_bytes "checkpointsync", bool_as_conf (checkpoint_anchored_sync (c_sync c)));
   (str_bytes "bootstrapsnapshot", bootstrap_snapshot_path (c_sync c));
   (str_bytes "bootstrapsnapshothash", bootstrap_snapshot_hash (c_sync c));
   (str_bytes "api", bool_as_conf (api_enabled (c_api c)));
   (str_bytes "apiwallet", bool_as_conf (api_wallet_enabled (c_api c)));
   (str_bytes "apimining", bool_as_conf (api_mining_enabled (c_api c)))].
(** [None] is an I/O error of the random generator, whose salt is an argument. *)
(* src: node_config.rs:296-357 NodeConfig::to_operator_config_text *)
Definition to_operator_config_text (salt : option bytes) (c : FullConfig) : option bytes :=
  rpcauth_line ←
    (if negb (auth_enabled (c_rpc_auth c)) then Some [x30]
     else
       entry ← RpcAuthConfig.persisted_hashed_credential salt (c_rpc_auth c);
       Some match entry with Some entry => RpcHashedCredential.as_config_value entry | None => [x31] end);
  Some (header_text ++ (rendered c rpcauth_line ≫= render_line)).
End config.

(** ** The environment *)

Section environment.
Context `{Hs : Sha3, Hk : FalconSigner, Henv : ProcessEnv}.

(* src: node_config.rs:784-789 env_bool *)
Definition env_bool (key : string) (current : bool) : bool := default current (env_var key ≫= conf_bool).
(** [env_u16], [env_u32], [env_u64] and [env_usize]. *)
(* src: node_config.rs:791-796 env_u16 *)
Definition env_uint (max : Z) (key : string) (current : Z) : Z :=
  default current (value ← env_var key; parse_uint max (trim value)).
(* src: node_config.rs:851-868 env_csv *)
Definition env_csv (key : string) (current : list bytes) : list bytes :=
  match env_var key with
  | Some value =>
      match filter (fun v => v <> []) (trim <$> split_on x2c value) with
      | [] => current
      | values => values
      end
  | None => current
  end.
Definition env_text (key : string) (current : bytes) : bytes := default current (env_var key).

(* src: node_config.rs:154-184 NodeConfig::from_env (api) *)
Definition env_api (network : Network) (api : ApiConfig) : ApiConfig :=
  {| api_enabled := env_bool "ATHO_API_ENABLED" (api_enabled api);
     api_bind := env_text "ATHO_API_BIND" (api_bind api);
     api_port := env_uint (2 ^ 16 - 1) "ATHO_API_PORT" (api_port api);
     public_read_only := env_bool "ATHO_API_PUBLIC_READ_ONLY" (public_read_only api);
     admin_enabled := env_bool "ATHO_API_ADMIN_ENABLED" (admin_enabled api);
     api_wallet_enabled := env_bool "ATHO_API_WALLET_ENABLED" (api_wallet_enabled api);
     api_mining_enabled := env_bool "ATHO_API_MINING_ENABLED" (api_mining_enabled api);
     max_response_bytes := env_uint USIZE_MAX "ATHO_API_MAX_RESPONSE_BYTES" (max_response_bytes api);
     cors := {| allowed_origins := env_csv "ATHO_API_ALLOWED_ORIGINS" (allowed_origins (cors api)) |};
     rate_limit := {| rl_enabled := env_bool "ATHO_API_RATE_LIMIT_ENABLED" (rl_enabled (rate_limit api));
                      requests_per_minute := env_uint U32_MAX "ATHO_API_RATE_LIMIT_RPM" (requests_per_minute (rate_limit api));
                      heavy_requests_per_minute :=
                        env_uint U32_MAX "ATHO_API_HEAVY_RATE_LIMIT_RPM" (heavy_requests_per_minute (rate_limit api)) |};
     explorer := {| index_enabled := env_bool "ATHO_EXPLORER_INDEX_ENABLED" (index_enabled (explorer api));
                    snapshot_enabled := env_bool "ATHO_EXPLORER_SNAPSHOT_ENABLED" (snapshot_enabled (explorer api));
                    ex_network := network |} |}.
(* src: node_config.rs:154-225 NodeConfig::from_env (overrides) *)
Definition env_overrides (network : Network) (c : FullConfig) : FullConfig :=
  let auth := c_rpc_auth c in
  {| c_network := c_network c;
     c_api := env_api network (c_api c);
     c_rpc_auth := {| auth_enabled := env_bool "ATHO_RPC_AUTH_ENABLED" (auth_enabled auth);
                      auth_bind := env_text "ATHO_RPC_BIND" (auth_bind auth);
                      auth_port := env_uint (2 ^ 16 - 1) "ATHO_RPC_PORT" (auth_port auth);
                      username := env_text "ATHO_RPC_USER" (username auth);
                      password := env_text "ATHO_RPC_PASSWORD" (password auth);
                      password_hmac := password_hmac auth; cookie_auth := cookie_auth auth; cookie_secret := cookie_secret auth |};
     c_mining_reward_address := env_text "ATHO_MINING_REWARD_ADDRESS" (c_mining_reward_address c);
     c_mempool := {| max_transactions := env_uint USIZE_MAX "ATHO_MAX_MEMPOOL_TRANSACTIONS" (max_transactions (c_mempool c));
                     max_vbytes := env_uint USIZE_MAX "ATHO_MAX_MEMPOOL_VBYTES" (max_vbytes (c_mempool c)) |};
     c_storage := {| prune_target_bytes := env_uint U64_MAX "ATHO_PRUNE_TARGET_BYTES" (prune_target_bytes (c_storage c));
                     db_cache_bytes := env_uint U64_MAX "ATHO_DB_CACHE_BYTES" (db_cache_bytes (c_storage c)) |};
     c_peers := {| max_connections := env_uint USIZE_MAX "ATHO_MAX_PEER_CONNECTIONS" (max_connections (c_peers c)) |};
     c_sync := {| fast_body_download := env_bool "ATHO_SYNC_FAST_BODY_DOWNLOAD" (fast_body_download (c_sync c));
                  background_validation := env_bool "ATHO_SYNC_BACKGROUND_VALIDATION" (background_validation (c_sync c));
                  checkpoint_anchored_sync := env_bool "ATHO_SYNC_CHECKPOINT_ANCHORED" (checkpoint_anchored_sync (c_sync c));
                  bootstrap_snapshot_path := env_text "ATHO_BOOTSTRAP_SNAPSHOT" (bootstrap_snapshot_path (c_sync c));
                  bootstrap_snapshot_hash := env_text "ATHO_BOOTSTRAP_SNAPSHOT_HASH" (bootstrap_snapshot_hash (c_sync c)) |};
     c_wallet := {| w_enabled := env_bool "ATHO_WALLET_ENABLED" (w_enabled (c_wallet c));
                    require_encryption := env_bool "ATHO_WALLET_REQUIRE_ENCRYPTION" (require_encryption (c_wallet c)) |} |}.

(** What reading the file gave. *)
Inductive ConfigText := FileText (contents : bytes) | FileMissing | FileUnreadable.
(* src: node_config.rs:723-729 OperatorConfigFile::load *)
Definition load (text : ConfigText) : option OperatorConfigFile :=
  match text with
  | FileText contents => Some (OperatorConfigFile.parse contents)
  | FileMissing => Some ∅
  | FileUnreadable => None
  end.
(* src: node_config.rs:149-229 NodeConfig::from_env *)
Definition from_env (network : Network) (text : ConfigText) : option FullConfig :=
  let config := new network in
  let config := match load text with Some file => apply_file_overrides file config | None => config end in
  clamp_user_tunable_bounds <$> normalize_network_scoped_values (env_overrides network config).
(* src: node_config.rs:231-240 NodeConfig::network_from_sources *)
Definition network_from_sources (text : ConfigText) (operator_default : Network) : option Network :=
  let parsed raw := Network.parse (String.string_of_list_byte raw) in
  let file_network := default operator_default (file ← load text; OperatorConfigFile.get file "network" ≫= parsed) in
  match env_var "ATHO_NETWORK" with
  | Some raw => parsed raw
  | None => Some file_network
  end.
(* src: node_config.rs:248-251 NodeConfig::rpc_bind_address *)
Definition rpc_bind_address (c : FullConfig) : bytes :=
  default (auth_bind (c_rpc_auth c) ++ [x3a] ++ decimal (auth_port (c_rpc_auth c))) (env_var "ATHO_RPC_ADDR").
End environment.
End FullConfig.

(** ** What a rendered file is parsed to *)

(** A value that a line of the file can hold. *)
Record plain (v : bytes) : Prop := {
  plain_trimmed : trimmed v;
  plain_hash : x23 ∉ v;
  plain_line : x0a ∉ v;
  plain_head : head v <> Some x22;
  plain_last : last v <> Some x22;
}.
Definition letter (b : byte) : bool := (97 <=? byte_to_Z b) && (byte_to_Z b <=? 122).
Definition key_ok (k : bytes) : Prop := k <> [] /\ forallb letter k = true.

Lemma letter_solid b : letter b = true -> solid b = true.
Proof. by destruct b. Qed.
Lemma letter_lower b : letter b = true -> ascii_lower b = b.
Proof. by destruct b. Qed.
Lemma letters_not c k : letter c = false -> forallb letter k = true -> c ∉ k.
Proof. intros Hc Hk Hin%list_elem_of_In. rewrite forallb_forall in Hk. by rewrite Hk in Hc. Qed.
Lemma letters_lower k : forallb letter k = true -> to_ascii_lowercase k = k.
Proof.
  unfold to_ascii_lowercase. induction k as [|b k IH]; [done|]. cbn [forallb]. intros [Hb Hk]%andb_prop.
  cbn. by rewrite letter_lower, IH.
Qed.
Lemma letters_trimmed k : forallb letter k = true -> trimmed k.
Proof.
  intros Hk. apply trimmed_solid. rewrite forallb_forall in Hk |- *. intros b Hb. by apply letter_solid, Hk.
Qed.

Definition line_of (kv : bytes * bytes) : bytes := kv.1 ++ [x3d] ++ kv.2.
Definition pair_ok (kv : bytes * bytes) : Prop := key_ok kv.1 /\ plain kv.2.
Lemma line_trimmed k v : key_ok k -> trimmed v -> trimmed (line_of (k, v)).
Proof.
  intros [Hne Hk] Hv. destruct k as [|a k]; [by destruct Hne|]. cbn [forallb] in Hk. apply andb_prop in Hk as [Ha Hk].
  unfold line_of. cbn [fst snd app]. by apply (trimmed_join [] a x3d v k trimmed_nil (letter_solid a Ha)).
Qed.
Lemma line_line_ok kv : pair_ok kv -> line_ok (line_of kv).
Proof.
  destruct kv as [k v]. intros [[Hne Hk] Hv]. cbn [fst snd] in *. split.
  - unfold line_of. cbn [fst snd app]. rewrite elem_of_app, elem_of_cons.
    intros [Hin|[Heq|Hin]]; [by apply (letters_not x0a k)|done|by apply (plain_line v Hv)].
  - unfold line_of. cbn [fst snd app]. apply strip_cr_id; [done|apply (plain_trimmed v Hv)].
Qed.
Lemma parse_line_of kv : pair_ok kv -> OperatorConfigFile.parse_line (line_of kv) = Some kv.
Proof.
  destruct kv as [k v]. intros [Hk Hv]. cbn [fst snd] in *. unfold OperatorConfigFile.parse_line.
  rewrite split_on_none. 2: {
    unfold line_of. cbn [fst snd app]. rewrite elem_of_app, elem_of_cons.
    intros [Hin|[Heq|Hin]]; [by apply (letters_not x23 k eq_refl (proj2 Hk))|done|by apply (plain_hash v Hv)]. }
  cbn [head default from_option id]. cbv zeta. rewrite (trim_id _ (line_trimmed k v Hk (plain_trimmed _ Hv))).
  rewrite bool_decide_false by (destruct k; [by destruct (proj1 Hk)|discriminate]).
  unfold line_of. cbn [fst snd]. change ([x3d] ++ v) with (x3d :: v).
  rewrite split_once_app by exact (letters_not x3d k eq_refl (proj2 Hk)). cbn [mbind option_bind].
  rewrite (trim_id k (letters_trimmed k (proj2 Hk))), (letters_lower k (proj2 Hk)).
  rewrite (trim_id v (plain_trimmed v Hv)), (trim_matches_none x22 v (plain_head v Hv) (plain_last v Hv)).
  by rewrite (bool_decide_false _ (proj1 Hk)).
Qed.

Definition add_pairs (kvs : list (bytes * bytes)) (m : OperatorConfigFile) : OperatorConfigFile :=
  foldl (fun m kv => <[kv.1 := kv.2]> m) m kvs.
Lemma add_pairs_miss kvs : forall m k, k ∉ kvs.*1 -> add_pairs kvs m !! k = m !! k.
Proof.
  induction kvs as [|[k' v'] kvs IH]; intros m k Hk; [done|]. apply not_elem_of_cons in Hk as [Hne Hk].
  cbn. fold (add_pairs kvs (<[k' := v']> m)). rewrite IH by done. by rewrite lookup_insert_ne.
Qed.
Lemma add_pairs_hit kvs : forall m k v, NoDup kvs.*1 -> (k, v) ∈ kvs -> add_pairs kvs m !! k = Some v.
Proof.
  induction kvs as [|[k' v'] kvs IH]; intros m k v Hnd Hin; [by apply not_elem_of_nil in Hin|].
  cbn in Hnd. apply NoDup_cons in Hnd as [Hk' Hnd]. cbn. fold (add_pairs kvs (<[k' := v']> m)).
  apply elem_of_cons in Hin as [[= -> ->]|Hin]; [|by apply IH].
  rewrite add_pairs_miss by done. by rewrite lookup_insert_eq.
Qed.

(** The comments at the top add nothing. *)
Lemma parse_header rest :
  OperatorConfigFile.parse (FullConfig.header_text ++ rest)
  = foldl (fun values line => match OperatorConfigFile.parse_line line with Some (key, value) => <[key := value]> values | None => values end)
      ∅ (lines rest).
Proof.
  unfold OperatorConfigFile.parse. set (f := fun _ _ => _).
  assert (lines (FullConfig.header_text ++ rest) = [take 25 FullConfig.header_text; take 67 (drop 26 FullConfig.header_text)] ++ lines rest) as ->.
  { unfold lines. cbv zeta.
    replace (FullConfig.header_text ++ rest) with
      (take 25 FullConfig.header_text ++ x0a :: take 67 (drop 26 FullConfig.header_text) ++ x0a :: rest) by done.
    rewrite split_on_app, split_on_app by (apply (bool_decide_eq_true_1 (x0a ∉ _)); vm_compute; reflexivity).
    assert (exists x l, split_on x0a rest = x :: l) as (x & l & ->).
    { destruct rest as [|b rest]; cbn [split_on]; [by eexists _, _|]. case_bool_decide; [by eexists _, _|].
      destruct (split_on x0a rest); by eexists _, _. }
    set (a := take 25 _). set (b := take 67 _). cbn [length]. replace (S (S (S (length l))) - 1)%nat with (S (S (length l))) by lia.
    replace (S (length l) - 1)%nat with (length l) by lia. cbn [take fmap list_fmap app last]. done. }
  by rewrite foldl_app.
Qed.
Lemma parse_rendered kvs : Forall pair_ok kvs ->
  OperatorConfigFile.parse (FullConfig.header_text ++ (kvs ≫= FullConfig.render_line)) = add_pairs kvs ∅.
Proof.
  intros Hkvs. rewrite parse_header.
  replace (kvs ≫= FullConfig.render_line) with ((line_of <$> kvs) ≫= fun l => l ++ [x0a]).
  - rewrite lines_join by (apply Forall_fmap; eapply Forall_impl; [exact Hkvs|]; intros kv; apply line_line_ok).
    unfold add_pairs. generalize (∅ : OperatorConfigFile). induction Hkvs as [|kv kvs Hkv _ IH]; intros m; [done|].
    cbn [fmap list_fmap foldl]. rewrite parse_line_of by done. destruct kv. apply IH.
  - clear. induction kvs as [|[k v] kvs IH]; [done|]. cbn [fmap list_fmap mbind list_bind]. f_equal; [|exact IH].
    unfold line_of, FullConfig.render_line. cbn [fst snd]. by rewrite <- !app_assoc.
Qed.

(** ** Saving and loading *)

(** A configuration that the bounds leave alone and a file can hold. *)
Record config_ok (c : FullConfig) : Prop := {
  ok_user : plain (username (c_rpc_auth c));
  ok_bind : plain (auth_bind (c_rpc_auth c));
  ok_port : 0 <= auth_port (c_rpc_auth c) < 2 ^ 16;
  ok_address : plain (c_mining_reward_address c);
  ok_transactions : 1000 <= max_transactions (c_mempool c) <= 1000000;
  ok_vbytes : 8 * 1024 * 1024 <= max_vbytes (c_mempool c) <= 1024 * 1024 * 1024 /\ (1024 * 1024 | max_vbytes (c_mempool c));
  ok_prune : DEFAULT_PRUNE_TARGET_BYTES <= prune_target_bytes (c_storage c) < 2 ^ 63 /\ (1024 * 1024 | prune_target_bytes (c_storage c));
  ok_cache : 64 * 1024 * 1024 <= db_cache_bytes (c_storage c) <= 8 * 1024 * 1024 * 1024 /\ (1024 * 1024 | db_cache_bytes (c_storage c));
  ok_connections : 8 <= max_connections (c_peers c) <= 512;
  ok_snapshot_path : plain (bootstrap_snapshot_path (c_sync c));
  ok_snapshot_hash : plain (bootstrap_snapshot_hash (c_sync c));
}.
(** Credentials that a line of the file can hold. *)
Record credential_ok (e : RpcHashedCredential) : Prop := {
  cred_user : plain (hc_username e) /\ hc_username e <> [] /\ x3a ∉ hc_username e;
  cred_salt : trimmed (salt_hex e) /\ salt_hex e <> [] /\ x24 ∉ salt_hex e /\ plain (salt_hex e);
  cred_hmac : trimmed (password_hmac_hex e) /\ password_hmac_hex e <> [] /\ plain (password_hmac_hex e);
}.
(** What of a configuration comes back: not the settings the file does not hold, and the
    credentials in the form they are saved in. *)
Definition reloaded `{Hs : Sha3, Hk : FalconSigner} (c : FullConfig) (entry : option RpcHashedCredential) : FullConfig :=
  let api := FullConfig.api_for_network (c_network c) in
  let auth := c_rpc_auth c in
  {| c_network := c_network c;
     c_api := {| api_enabled := api_enabled (c_api c); api_bind := api_bind api; api_port := api_port api;
                 public_read_only := public_read_only api; admin_enabled := admin_enabled api;
                 api_wallet_enabled := api_wallet_enabled (c_api c); api_mining_enabled := api_mining_enabled (c_api c);
                 max_response_bytes := max_response_bytes api; cors := cors api; rate_limit := rate_limit api;
                 explorer := explorer api |};
     c_rpc_auth :=
       {| auth_enabled := auth_enabled auth; auth_bind := auth_bind auth; auth_port := auth_port auth;
          username := match entry with Some e => hc_username e | None => username auth end;
          password := match entry with Some _ => [] | None => ATHO_RPC_DEFAULT_PASSWORD end;
          password_hmac := entry; cookie_auth := cookie_auth auth; cookie_secret := None |};
     c_mining_reward_address := c_mining_reward_address c; c_mempool := c_mempool c; c_storage := c_storage c;
     c_peers := c_peers c; c_sync := c_sync c; c_wallet := c_wallet c |}.

Lemma solid_plain v : forallb (fun b => solid b && negb (Byte.eqb b x23) && negb (Byte.eqb b x22)) v = true -> plain v.
Proof.
  rewrite forallb_forall. intros Hv. assert (forall b, b ∈ v -> b <> x0a /\ b <> x23 /\ b <> x22) as Hb.
  { intros b Hin%list_elem_of_In%Hv. split_and!; intros ->; vm_compute in Hin; discriminate. }
  split.
  - apply trimmed_solid, forallb_forall. intros b Hin%Hv. by apply andb_prop in Hin as [[? _]%andb_prop _].
  - intros Hin. by destruct (Hb _ Hin) as (_ & ? & _).
  - intros Hin. by destruct (Hb _ Hin) as (? & _ & _).
  - destruct v as [|b v]; [done|]. intros [= ->]. by destruct (Hb x22) as (_ & _ & ?); [left|].
  - intros Hl. destruct (Hb x22) as (_ & _ & ?); [|done]. by apply last_Some_elem_of.
Qed.
Lemma decimal_plain z : is_u64 z -> plain (decimal z).
Proof.
  intros Hz. apply solid_plain, forallb_forall. intros b Hin%list_elem_of_In.
  destruct (decimal_spec z Hz) as (_ & Hd & _). specialize (Hd b Hin). clear -Hd. destruct b; try done; by destruct Hd.
Qed.
Lemma bool_plain b : plain (bool_as_conf b).
Proof. by destruct b; apply solid_plain. Qed.
Lemma cli_plain n : plain (str_bytes (Network.cli_arg n)).
Proof. by destruct n; apply solid_plain. Qed.

Lemma credential_value_plain e : credential_ok e -> plain (RpcHashedCredential.as_config_value e).
Proof.
  intros [(Hu & Hune & _) (_ & Hsne & _ & Hs) (_ & Hhne & Hh)]. unfold RpcHashedCredential.as_config_value. split.
  - by apply trimmed_join; [apply (plain_trimmed _ Hu)| | |apply (plain_trimmed _ Hh)].
  - rewrite !elem_of_app, !list_elem_of_singleton. intros [?|[?|[?|[?|?]]]]; try done.
    + by apply (plain_hash _ Hu).
    + by apply (plain_hash _ Hs).
    + by apply (plain_hash _ Hh).
  - rewrite !elem_of_app, !list_elem_of_singleton. intros [?|[?|[?|[?|?]]]]; try done.
    + by apply (plain_line _ Hu).
    + by apply (plain_line _ Hs).
    + by apply (plain_line _ Hh).
  - pose proof (plain_head _ Hu) as Hhd. by destruct (hc_username e).
  - rewrite !app_assoc, last_app. pose proof (plain_last _ Hh) as Hl. destruct (last (password_hmac_hex e)) eqn:E; [done|].
    by apply last_None in E.
Qed.
Lemma credential_parses e : credential_ok e -> RpcHashedCredential.parse (RpcHashedCredential.as_config_value e) = Some e.
Proof.
  intros [(Hu & Hune & Hcolon) (Hst & Hsne & Hdollar & _) (Hht & Hhne & _)].
  unfold RpcHashedCredential.parse, RpcHashedCredential.as_config_value. cbn [app].
  rewrite split_once_app by done. cbn [mbind option_bind]. rewrite split_once_app by done. cbn [mbind option_bind].
  rewrite (trim_id _ (plain_trimmed _ Hu)), (trim_id _ Hst), (trim_id _ Hht).
  rewrite !bool_decide_false by done. by destruct e.
Qed.

Lemma rendered_ok c line : config_ok c -> plain line -> Forall pair_ok (FullConfig.rendered c line).
Proof.
  intros Hc Hline. unfold FullConfig.rendered.
  assert (forall k v, forallb letter k = true -> k <> [] -> plain v -> pair_ok (k, v)) as Hp
    by (intros k v Hk Hne Hpl; split; [by split|done]).
  assert (forall k z, forallb letter k = true -> k <> [] -> is_u64 z -> pair_ok (k, decimal z)) as Hn
    by (intros k z Hk Hne Hz; apply Hp; [done..|by apply decimal_plain]).
  assert (forall b, 0 <= b < 2 ^ 63 -> is_u64 (bytes_to_mib_ceil b)) as Hmib.
  { intros b Hb. unfold bytes_to_mib_ceil, saturating_add, uint, U64_MAX. split; [apply Z.div_pos; lia|].
    apply Z.div_lt_upper_bound; lia. }
  destruct Hc as [Hu Hb Hport Ha Htx [Hv _] [Hpr _] [Hca _] Hcon Hsp Hsh]. unfold DEFAULT_PRUNE_TARGET_BYTES in Hpr.
  repeat (apply Forall_cons; split); try (by apply Forall_nil);
    (apply Hn; [reflexivity|discriminate|]) || (apply Hp; [reflexivity|discriminate|]); try done;
    try apply bool_plain; try apply cli_plain; try (apply Hmib; lia); unfold uint; lia.
Qed.

(** The values of a rendered file, by position. *)
Definition rendered_file (c : FullConfig) (line : bytes) : OperatorConfigFile := add_pairs (FullConfig.rendered c line) ∅.
Lemma rendered_get c line i key v :
  FullConfig.rendered c line !! i = Some (str_bytes key, v) -> to_ascii_lowercase (str_bytes key) = str_bytes key ->
  OperatorConfigFile.get (rendered_file c line) key = Some v.
Proof.
  intros Hi Hlow. unfold OperatorConfigFile.get. rewrite Hlow. apply add_pairs_hit; [|by eapply list_elem_of_lookup_2].
  apply (bool_decide_eq_true_1 (NoDup _)). vm_compute. reflexivity.
Qed.
Lemma rendered_miss c line key :
  bool_decide (to_ascii_lowercase (str_bytes key) ∉ (FullConfig.rendered c line).*1) = true ->
  OperatorConfigFile.get (rendered_file c line) key = None.
Proof. intros Hk%bool_decide_eq_true_1. unfold OperatorConfigFile.get, rendered_file. by rewrite add_pairs_miss. Qed.

Lemma decimal_parses max z : is_u64 z -> z <= max -> parse_uint max (decimal z) = Some z.
Proof. intros Hz Hmax. by apply (parse_uint_padded 0). Qed.
Lemma conf_bool_text b : conf_bool (bool_as_conf b) = Some b.
Proof. by destruct b. Qed.
Lemma mib_back b : 0 <= b < 2 ^ 63 -> (1024 * 1024 | b) -> is_u64 (bytes_to_mib_ceil b) /\ mib_to_bytes (bytes_to_mib_ceil b) = b.
Proof.
  intros Hb [k ->]. unfold bytes_to_mib_ceil, mib_to_bytes, saturating_add, saturating_mul, uint, U64_MAX.
  rewrite (Z.min_r _ (_ + _)) by lia.
  replace ((k * (1024 * 1024) + (1024 * 1024 - 1)) / (1024 * 1024)) with k.
  - lia.
  - apply (Z.div_unique _ _ _ (1024 * 1024 - 1)); lia.
Qed.

Section reload.
Context `{Hs : Sha3, Hk : FalconSigner, Hm : Hmac}.

(** The line of the credentials. *)
Definition saved_line (c : FullConfig) (entry : option RpcHashedCredential) : bytes :=
  if auth_enabled (c_rpc_auth c) then match entry with Some e => RpcHashedCredential.as_config_value e | None => [x31] end
  else [x30].
Definition saved_entry (salt : option bytes) (c : FullConfig) (entry : option RpcHashedCredential) : Prop :=
  if auth_enabled (c_rpc_auth c) then RpcAuthConfig.persisted_hashed_credential salt (c_rpc_auth c) = Some entry else entry = None.
Lemma saved_text salt c text : FullConfig.to_operator_config_text salt c = Some text ->
  exists entry, saved_entry salt c entry /\ text = FullConfig.header_text ++ (FullConfig.rendered c (saved_line c entry) ≫= FullConfig.render_line).
Proof.
  unfold FullConfig.to_operator_config_text, saved_entry, saved_line. destruct (auth_enabled (c_rpc_auth c)); cbn [negb].
  - destruct (RpcAuthConfig.persisted_hashed_credential salt (c_rpc_auth c)) as [entry|]; [|done].
    cbn [mbind option_bind]. intros [= <-]. by exists entry.
  - cbn [mbind option_bind]. intros [= <-]. by exists None.
Qed.

Lemma file_overrides_rendered c entry :
  config_ok c -> (if auth_enabled (c_rpc_auth c) then forall e, entry = Some e -> credential_ok e else entry = None) ->
  FullConfig.apply_file_overrides (rendered_file c (saved_line c entry)) (FullConfig.new (c_network c)) = reloaded c entry.
Proof.
  intros Hc He. unfold FullConfig.apply_file_overrides, FullConfig.file_auth, OperatorConfigFile.get_bool, OperatorConfigFile.get_uint.
  set (line := saved_line c entry).
  rewrite (rendered_miss c line "rpcpassword"), (rendered_miss c line "maxmempoolvbytes"), (rendered_miss c line "prunebytes"),
    (rendered_miss c line "dbcachebytes") by (vm_compute; reflexivity).
  rewrite (rendered_get c line 1 "rpcuser" _ eq_refl eq_refl), (rendered_get c line 2 "rpcauth" _ eq_refl eq_refl),
    (rendered_get c line 3 "rpccookieauth" _ eq_refl eq_refl), (rendered_get c line 4 "rpcbind" _ eq_refl eq_refl),
    (rendered_get c line 5 "rpcport" _ eq_refl eq_refl), (rendered_get c line 6 "miningrewardaddress" _ eq_refl eq_refl),
    (rendered_get c line 7 "wallet" _ eq_refl eq_refl), (rendered_get c line 8 "walletrequireencryption" _ eq_refl eq_refl),
    (rendered_get c line 9 "maxmempool" _ eq_refl eq_refl), (rendered_get c line 10 "maxmempooltx" _ eq_refl eq_refl),
    (rendered_get c line 11 "prune" _ eq_refl eq_refl), (rendered_get c line 12 "dbcache" _ eq_refl eq_refl),
    (rendered_get c line 13 "maxconnections" _ eq_refl eq_refl), (rendered_get c line 14 "fastsync" _ eq_refl eq_refl),
    (rendered_get c line 15 "backgroundvalidation" _ eq_refl eq_refl), (rendered_get c line 16 "checkpointsync" _ eq_refl eq_refl),
    (rendered_get c line 17 "bootstrapsnapshot" _ eq_refl eq_refl), (rendered_get c line 18 "bootstrapsnapshothash" _ eq_refl eq_refl),
    (rendered_get c line 19 "api" _ eq_refl eq_refl), (rendered_get c line 20 "apiwallet" _ eq_refl eq_refl),
    (rendered_get c line 21 "apimining" _ eq_refl eq_refl).
  cbn [mbind option_bind]. rewrite !conf_bool_text.
  destruct Hc as [Hu Hb Hport Ha Htx [Hv Hv'] [Hpr Hpr'] [Hca Hca'] Hcon Hsp Hsh]. unfold DEFAULT_PRUNE_TARGET_BYTES in Hpr.
  destruct (mib_back (max_vbytes (c_mempool c)) ltac:(lia) Hv') as [? Ev].
  destruct (mib_back (prune_target_bytes (c_storage c)) ltac:(lia) Hpr') as [? Ep].
  destruct (mib_back (db_cache_bytes (c_storage c)) ltac:(lia) Hca') as [? Ec].
  rewrite !decimal_parses by (unfold uint, USIZE_MAX, U64_MAX in *; lia).
  cbn [fmap option_fmap option_map]. rewrite Ev, Ep, Ec. unfold line, saved_line, reloaded.
  destruct (auth_enabled (c_rpc_auth c)) eqn:Een.
  - destruct entry as [e|].
    + rewrite (credential_parses e) by auto. by destruct c as [? [] [] ? [] [] [] [] []], e.
    + by destruct c as [? [] [] ? [] [] [] [] []].
  - subst entry. by destruct c as [? [] [] ? [] [] [] [] []].
Qed.
(** No variable is set, but perhaps the one that allows a public interface. *)
Definition no_variables `{Henv : ProcessEnv} : Prop := forall key, key <> "ATHO_RPC_ALLOW_PUBLIC"%string -> env_var key = None.
(** Then the environment changes nothing. *)
Lemma env_overrides_none `{Henv : ProcessEnv} network c :
  no_variables -> ex_network (explorer (c_api c)) = network -> FullConfig.env_overrides network c = c.
Proof.
  intros Hnone Hnet. unfold FullConfig.env_overrides, FullConfig.env_api, FullConfig.env_bool, FullConfig.env_uint,
    FullConfig.env_csv, FullConfig.env_text. rewrite !Hnone by done. cbn.
  destruct c as [? [? ? ? ? ? ? ? ? [] [] []] [] ? [] [] [] [] []]. cbn in Hnet. by subst.
Qed.
Lemma saved_line_plain c entry :
  (if auth_enabled (c_rpc_auth c) then forall e, entry = Some e -> credential_ok e else entry = None) -> plain (saved_line c entry).
Proof.
  unfold saved_line. destruct (auth_enabled (c_rpc_auth c)); [|by intros _; apply solid_plain].
  destruct entry as [e|]; [|by intros _; apply solid_plain]. intros He. by apply credential_value_plain, He.
Qed.

(** C34: A saved configuration that the file can hold loads back. Such a configuration
    ([config_ok]) is within the bounds, with sizes of whole MiB and text values that are
    trimmed, hold no number sign or newline and neither begin nor end with a quotation mark;
    its reward address is one normalization leaves alone; its credentials are such values
    too, not empty, the user name without a colon and the salt without a dollar sign
    ([credential_ok]). The text written for it, read where no variable overrides it, gives
    the configuration with the credentials in the form they were saved in and the defaults
    for what the file does not hold; and the network is found in it. Nothing checks the
    values that are written, and one with a number sign does not come back
    ([saved_value_is_cut]). *)
Theorem saved_config_loads `{Henv : ProcessEnv} c salt text operator_default :
  config_ok c -> FullConfig.normalize_network_scoped_values c = Some c ->
  (forall e, RpcAuthConfig.persisted_hashed_credential salt (c_rpc_auth c) = Some (Some e) -> credential_ok e) ->
  no_variables -> FullConfig.to_operator_config_text salt c = Some text ->
  exists entry, saved_entry salt c entry
    /\ FullConfig.from_env (c_network c) (FullConfig.FileText text) = Some (reloaded c entry)
    /\ FullConfig.network_from_sources (FullConfig.FileText text) operator_default = Some (c_network c).
Proof.
  intros Hc Hnorm Hcred Hnone (entry & Hentry & ->)%saved_text. exists entry. split; [done|].
  assert (if auth_enabled (c_rpc_auth c) then forall e, entry = Some e -> credential_ok e else entry = None) as He.
  { unfold saved_entry in Hentry. destruct (auth_enabled (c_rpc_auth c)); [|done]. intros e ->. by apply Hcred. }
  pose proof (rendered_ok c (saved_line c entry) Hc (saved_line_plain c entry He)) as Hpairs. split.
  - unfold FullConfig.from_env, FullConfig.load. rewrite (parse_rendered _ Hpairs).
    change (add_pairs (FullConfig.rendered c (saved_line c entry)) ∅) with (rendered_file c (saved_line c entry)).
    rewrite file_overrides_rendered, env_overrides_none by done.
    assert (FullConfig.normalize_network_scoped_values (reloaded c entry) = Some (reloaded c entry)) as ->.
    { revert Hnorm. unfold FullConfig.normalize_network_scoped_values. cbn [c_mining_reward_address reloaded c_network].
      case_bool_decide; [done|]. destruct (decode_base56_address _) as [[[digest n]|]|]; cbn [mbind option_bind]; [|done|done].
      case_bool_decide as Hn; [done|]. intros [= Hsame]. f_equal. unfold FullConfig.with_reward_address, reloaded.
      f_equal. by apply (f_equal c_mining_reward_address) in Hsame. }
    cbn [fmap option_fmap option_map]. f_equal. unfold FullConfig.clamp_user_tunable_bounds.
    destruct Hc as [_ _ _ _ Htx [Hv _] [Hpr _] [Hca _] Hcon _ _].
    cbn [reloaded c_mempool c_storage c_peers]. rewrite !clamp_id, Z.max_l by lia. by destruct c as [? [] [] ? [] [] [] [] []].
  - unfold FullConfig.network_from_sources, FullConfig.load. rewrite Hnone by done. rewrite (parse_rendered _ Hpairs). cbn [mbind option_bind].
    change (add_pairs (FullConfig.rendered c (saved_line c entry)) ∅) with (rendered_file c (saved_line c entry)).
    rewrite (rendered_get c _ 0 "network" _ eq_refl eq_refl). by destruct (c_network c).
Qed.

(** Hashed credentials in the file let the empty password in. The plain password is cleared
    when they are read, and the check compares what a client sends with it. *)
Theorem hashed_credential_admits_empty_password `{Henv : ProcessEnv} network contents c value cred :
  FullConfig.from_env network (FullConfig.FileText contents) = Some c ->
  no_variables ->
  OperatorConfigFile.get (OperatorConfigFile.parse contents) "rpcauth" = Some value ->
  RpcHashedCredential.parse value = Some cred ->
  RpcAuthConfig.verify_username_password (c_rpc_auth c) (hc_username cred) [] = true
  /\ RpcAuthConfig.securely_configured_for_public_rpc (c_rpc_auth c) = true.
Proof.
  intros Hfrom Hnone Hget Hparse.
  assert (hc_username cred <> [] /\ trim (hc_username cred) = hc_username cred) as [Hne Htrim].
  { revert Hparse. unfold RpcHashedCredential.parse. intros ([u rest] & _ & Hrest)%bind_Some.
    apply bind_Some in Hrest as ([s h] & _ & Hcred). revert Hcred.
    destruct (bool_decide (trim u = [])) eqn:Eu; [done|]. apply bool_decide_eq_false in Eu.
    cbn [orb]. destruct (_ || _); [done|]. intros [= <-]. cbn [hc_username]. split; [done|apply trim_idem]. }
  assert (c_rpc_auth c = c_rpc_auth (FullConfig.apply_file_overrides (OperatorConfigFile.parse contents) (FullConfig.new network))) as Eauth.
  { revert Hfrom. unfold FullConfig.from_env, FullConfig.load. rewrite env_overrides_none; [|done|].
    - set (c0 := FullConfig.apply_file_overrides _ _). unfold FullConfig.normalize_network_scoped_values.
      case_bool_decide; [by intros [= <-]|]. destruct (decode_base56_address _) as [[[digest n]|]|]; cbn [mbind option_bind]; [|by intros [= <-]|done].
      case_bool_decide; by intros [= <-].
    - unfold FullConfig.apply_file_overrides. by destruct (FullConfig.file_auth _ _) as [[[]]]. }
  rewrite Eauth. unfold FullConfig.apply_file_overrides, FullConfig.file_auth. rewrite Hget, Hparse. cbn [c_rpc_auth]. split.
  - unfold RpcAuthConfig.verify_username_password. cbn [cookie_auth cookie_secret username password password_hmac].
    replace (match cookie_secret (c_rpc_auth (FullConfig.new network)) with Some secret => bool_decide (secret = []) | None => false end)
      with false by done. rewrite andb_false_r.
    rewrite Htrim, (bool_decide_false _ Hne), !bool_decide_true by done. done.
  - done.
Qed.
End reload.

(** ** An example *)

(** A code that is not one, of the right length. *)
Definition sample_hmac : Hmac := fun key message => take 32 (key ++ message ++ zeros 32).
Definition sample_auth : RpcAuthConfig :=
  {| auth_enabled := true; auth_bind := DEFAULT_API_BIND; auth_port := 9010; username := str_bytes "operator";
     password := str_bytes "not the default"; password_hmac := None; cookie_auth := true; cookie_secret := None |}.
Definition sample_config : FullConfig :=
  {| c_network := Mainnet; c_api := FullConfig.api_for_network Mainnet; c_rpc_auth := sample_auth; c_mining_reward_address := [];
     c_mempool := {| max_transactions := DEFAULT_MAX_MEMPOOL_TRANSACTIONS; max_vbytes := DEFAULT_MAX_MEMPOOL_VBYTES |};
     c_storage := {| prune_target_bytes := DEFAULT_PRUNE_TARGET_BYTES; db_cache_bytes := DEFAULT_DB_CACHE_BYTES |};
     c_peers := {| max_connections := DEFAULT_MAX_PEER_CONNECTIONS |};
     c_sync := {| fast_body_download := true; background_validation := false; checkpoint_anchored_sync := true;
                  bootstrap_snapshot_path := str_bytes "/tmp/snapshot"; bootstrap_snapshot_hash := [] |};
     c_wallet := {| w_enabled := true; require_encryption := true |} |}.
Lemma sample_config_ok : config_ok sample_config.
Proof.
  split; try (apply solid_plain; reflexivity); cbn; unfold DEFAULT_MAX_MEMPOOL_TRANSACTIONS, DEFAULT_MAX_MEMPOOL_VBYTES,
    DEFAULT_PRUNE_TARGET_BYTES, DEFAULT_DB_CACHE_BYTES, DEFAULT_MAX_PEER_CONNECTIONS; try lia;
    (split; [lia|apply Z.mod_divide; [done|reflexivity]]).
Qed.
Lemma sample_credential_ok e :
  @RpcAuthConfig.persisted_hashed_credential sample_hmac (Some (zeros 16)) sample_auth = Some (Some e) -> credential_ok e.
Proof.
  intros E. vm_compute in E. injection E as <-.
  split; cbn; split_and!; try (apply solid_plain; reflexivity); try (apply trimmed_solid; reflexivity); try discriminate;
    apply (bool_decide_eq_true_1 (_ ∉ _)); reflexivity.
Qed.
Lemma saved_config_loads_witness :
  exists text entry, @FullConfig.to_operator_config_text sample_hmac (Some (zeros 16)) sample_config = Some text
    /\ @saved_entry sample_hmac (Some (zeros 16)) sample_config entry
    /\ @FullConfig.from_env Crypto.checksum_sha3 Falcon.toy_signer (fun _ => None) Mainnet (FullConfig.FileText text)
       = Some (@reloaded Crypto.checksum_sha3 Falcon.toy_signer sample_config entry)
    /\ @FullConfig.network_from_sources (fun _ => None) (FullConfig.FileText text) Testnet = Some Mainnet.
Proof.
  destruct (@FullConfig.to_operator_config_text sample_hmac (Some (zeros 16)) sample_config) as [text|] eqn:E;
    [|vm_compute in E; discriminate E].
  destruct (@saved_config_loads Crypto.checksum_sha3 Falcon.toy_signer sample_hmac (fun _ => None) sample_config (Some (zeros 16)) text Testnet
    sample_config_ok eq_refl sample_credential_ok (fun _ _ => eq_refl) E) as (entry & H1 & H2 & H3).
  exists text, entry. split_and!; [reflexivity|exact H1|exact H2|exact H3].
Defined.

(** A value with a number sign is cut short: the parser takes the rest of the line for a
    comment, and the writer does not escape it. *)
Definition cut_config : FullConfig :=
  {| c_network := Mainnet; c_api := c_api sample_config; c_rpc_auth := sample_auth; c_mining_reward_address := [];
     c_mempool := c_mempool sample_config; c_storage := c_storage sample_config; c_peers := c_peers sample_config;
     c_sync := {| fast_body_download := true; background_validation := false; checkpoint_anchored_sync := true;
                  bootstrap_snapshot_path := str_bytes "/tmp/a#b"; bootstrap_snapshot_hash := [] |};
     c_wallet := c_wallet sample_config |}.
Theorem saved_value_is_cut :
  exists text c, @FullConfig.to_operator_config_text sample_hmac (Some (zeros 16)) cut_config = Some text
    /\ @FullConfig.from_env Crypto.checksum_sha3 Falcon.toy_signer (fun _ => None) Mainnet (FullConfig.FileText text) = Some c
    /\ bootstrap_snapshot_path (c_sync cut_config) = str_bytes "/tmp/a#b"
    /\ bootstrap_snapshot_path (c_sync c) = str_bytes "/tmp/a".
Proof.
  assert ((text ← @FullConfig.to_operator_config_text sample_hmac (Some (zeros 16)) cut_config;
           c ← @FullConfig.from_env Crypto.checksum_sha3 Falcon.toy_signer (fun _ => None) Mainnet (FullConfig.FileText text);
           Some (bootstrap_snapshot_path (c_sync c))) = Some (str_bytes "/tmp/a")) as H by (vm_compute; reflexivity).
  apply bind_Some in H as (text & Htext & H). apply bind_Some in H as (c & Hc & H). injection H as H. by exists text, c.
Qed.
