(* ===== verification/Rpc.v ===== *)
(** * The RPC interface

    crates/atho-rpc (request.rs, response.rs, transport.rs, the registry of command.rs) and
    the part of crates/atho-node/src/runtime.rs that guards it: frames, requests, commands,
    credentials, the cookie and the address the interface binds to. serde_json is the
    class [RpcSerde], name resolution [Resolver]. *)
From stdpp Require Import options.
From S2P Require Import Prelude Bytes Text TextFacts Constants Crypto Network Transaction Block Errors Utxo.
From S2P Require Import IpAddr Address Falcon Mempool Chainstate Node NodeSync OperatorConfig.

#[local] Set Default Proof Using "Type*".

(** ** Requests *)

(* src: request.rs:10-15 WalletHistoryAddress *)
Record WalletHistoryAddress := { wh_payment_digest : bytes; wh_address : bytes }.
(* src: command.rs:160-166 CommandInvocation *)
Record CommandInvocation := { ci_name : bytes; ci_args : list bytes; ci_confirmed : bool }.
(* src: request.rs:17-40 RpcRequest *)
Inductive RpcRequest :=
| Authenticated (username password : bytes) (request : RpcRequest)
| GetBlockCount
| GetNetwork
| GetNodeStatus
| GetBlockTemplate
| SubmitBlock (b : Block)
| SubmitTransaction (tx : Transaction) (fee_atoms : Z)
| ListUtxos
| GetWalletActivity (addresses : list WalletHistoryAddress)
| GetMempoolInfo
| GetMempoolSpentInputs
| ExecuteCommand (invocation : CommandInvocation).

(** ** Commands *)

(* src: command.rs:15-28 CommandPermission *)
Inductive CommandPermission :=
| PublicRead | LocalRead | LocalWrite | WalletRead | WalletWrite | WalletSecret | NodeAdmin | TestOnly | DangerousMainnetBlocked.
#[global] Instance CommandPermission_eq_dec : EqDecision CommandPermission.
Proof. solve_decision. Defined.
(* src: command.rs:45-55 CommandPermission::requires_mutable_access *)
Definition requires_mutable_access (p : CommandPermission) : bool :=
  match p with
  | PublicRead | LocalRead | WalletRead => false
  | LocalWrite | WalletWrite | WalletSecret | NodeAdmin | TestOnly | DangerousMainnetBlocked => true
  end.
(* src: command.rs:58-75 CommandGroup *)
Inductive CommandGroup :=
| Blockchain | Control | Mining | NetworkGroup | MempoolGroup | RawTransactions | WalletGroup | Storage | Pruning | Reorg
| Snapshot | Util | Debug.
(** The fields the node reads; the others are shown to people. *)
(* src: command.rs:97-114 CommandDefinition *)
Record CommandDefinition := {
  cd_name : bytes;
  cd_group : CommandGroup;
  cd_permission : CommandPermission;
  cd_mainnet_allowed : bool;
  cd_dangerous : bool;
  cd_test_only : bool;
}.
Definition command (name : string) (group : CommandGroup) (permission : CommandPermission) (dangerous : bool) : CommandDefinition :=
  {| cd_name := str_bytes name; cd_group := group; cd_permission := permission; cd_mainnet_allowed := true;
     cd_dangerous := dangerous; cd_test_only := false |}.
(* src: command.rs:189-999 COMMANDS *)
Definition COMMANDS : list CommandDefinition :=
  [command "help" Control PublicRead false;
   command "getstatus" Control PublicRead false;
   command "gethealth" Control PublicRead false;
   command "getversion" Control PublicRead false;
   command "geterrorcodes" Control PublicRead false;
   command "getrpcinfo" Control LocalRead false;
   command "getmemoryinfo" Control LocalRead false;
   command "uptime" Control PublicRead false;
   command "stop" Control NodeAdmin true;
   command "getblockcount" Blockchain PublicRead false;
   command "getbestblockhash" Blockchain PublicRead false;
   command "getblockhash" Blockchain PublicRead false;
   command "getblock" Blockchain PublicRead false;
   command "getblockheader" Blockchain PublicRead false;
   command "getblockchaininfo" Blockchain PublicRead false;
   command "getblockstats" Blockchain PublicRead false;
   command "getchaintips" Blockchain PublicRead false;
   command "getchaintxstats" Blockchain PublicRead false;
   command "getdifficulty" Blockchain PublicRead false;
   command "gettxout" Blockchain PublicRead false;
   command "gettxoutsetinfo" Blockchain PublicRead false;
   command "verifychain" Blockchain LocalRead false;
   command "getchainwork" Blockchain PublicRead false;
   command "getrulesetinfo" Blockchain PublicRead false;
   command "getconsensusstatus" Blockchain PublicRead false;
   command "getnetworkinfo" NetworkGroup LocalRead false;
   command "getconnectioncount" NetworkGroup LocalRead false;
   command "getnettotals" NetworkGroup LocalRead false;
   command "getnodeaddresses" NetworkGroup LocalRead false;
   command "getaddednodeinfo" NetworkGroup LocalRead false;
   command "addnode" NetworkGroup LocalWrite false;
   command "disconnectnode" NetworkGroup LocalWrite false;
   command "getpeerinfo" NetworkGroup LocalRead false;
   command "getmempoolinfo" MempoolGroup PublicRead false;
   command "getrawmempool" MempoolGroup PublicRead false;
   command "getmempoolentry" MempoolGroup PublicRead false;
   command "getmempoolancestors" MempoolGroup PublicRead false;
   command "getmempooldescendants" MempoolGroup PublicRead false;
   command "getblocktemplate" Mining LocalRead false;
   command "gettemplateinfo" Mining LocalRead false;
   command "getmininginfo" Mining LocalRead false;
   command "setminingrewardaddress" Mining LocalWrite false;
   command "getnetworkhashps" Mining PublicRead false;
   command "getnetworkparams" Blockchain PublicRead false;
   command "getgenesisinfo" Blockchain PublicRead false;
   command "getrawtransaction" RawTransactions PublicRead false;
   command "sendrawtransaction" RawTransactions LocalWrite false;
   command "validateathoaddress" Util PublicRead false;
   command "validateaddress" Util PublicRead false;
   command "sha3_384" Util PublicRead false]%string.
(** [eq_ignore_ascii_case]. *)
Definition eq_ignore_ascii_case (a b : bytes) : bool := bool_decide (to_ascii_lowercase a = to_ascii_lowercase b).
(* src: command.rs:1001-1005 command_definition *)
Definition command_definition (name : bytes) : option CommandDefinition :=
  find (fun d => eq_ignore_ascii_case (cd_name d) name) COMMANDS.

(** ** Responses *)

(** The descriptor of an error; the texts are not modelled. *)
(* src: rpc_error.rs:12-20 RpcError *)
Inductive RpcError := InvalidRequest | MethodNotFound | InternalError | NodeRpcError (e : NodeError).
(** [serde_json::Value], with the numbers the node writes. *)
Inductive Json :=
| JsonNull | JsonBool (b : bool) | JsonNumber (z : Z) | JsonString (s : bytes) | JsonArray (l : list Json)
| JsonObject (fields : list (string * Json)).
(** [value.get(key)] of an object. *)
Definition json_get (key : string) (v : Json) : option Json :=
  match v with JsonObject fields => snd <$> find (fun kv => String.eqb kv.1 key) fields | _ => None end.
Definition json_bool (v : Json) : option bool := match v with JsonBool b => Some b | _ => None end.
(* src: command.rs:178-187 CommandResponse *)
Record CommandResponse := { cr_command : bytes; cr_group : CommandGroup; cr_permission : CommandPermission;
  cr_dangerous : bool; cr_network : bytes; cr_data : Json }.
(* src: response.rs:12-23 BlockTemplate *)
Record BlockTemplate := { bt_network : Network; bt_height : Z; bt_previous_block_hash : bytes; bt_target : bytes;
  bt_transaction_count : Z; bt_fees_atoms : Z; bt_block : Block }.
(* src: response.rs:35-39 MempoolInfo *)
Record MempoolInfo := { mi_transaction_count : Z; mi_total_fee_atoms : Z }.
(* src: response.rs:48-53 WalletActivityKind *)
Inductive WalletActivityKind := Mined | Received | Sent.
(* src: response.rs:55-63 WalletActivityEntry *)
Record WalletActivityEntry := { wae_height : Z; wae_kind : WalletActivityKind; wae_label : bytes; wae_amount_atoms : Z;
  wae_txid : bytes }.
(** The fields of the status that requests are answered by. *)
(* src: response.rs:204-220 NodeStatus *)
Record NodeStatus := {
  st_network : Network;
  block_count : Z;
  st_tip_hash : bytes;
  mempool_count : Z;
  mempool_total_fee_atoms : Z;
  running : bool;
  st_headers_synced : bool;
  sync_best_height : Z;
  peer_count : Z;
  diagnostics : FastDownloadDiagnostics;
}.
(* src: response.rs:222-240 RpcResponse *)
Inductive RpcResponse :=
| BlockCountResponse (count : Z)
| NetworkResponse (id : bytes)
| NodeStatusResponse (status : NodeStatus)
| BlockTemplateResponse (template : BlockTemplate)
| BlockSubmitted (accepted : bool) (block_hash : bytes)
| TransactionSubmitted (txid : bytes)
| UtxosResponse (utxos : list UtxoEntry)
| WalletActivityResponse (activity : list WalletActivityEntry)
| MempoolInfoResponse (info : MempoolInfo)
| MempoolSpentInputs (inputs : list (bytes * Z))
| CommandResult (response : CommandResponse)
| ErrorResponse (e : RpcError).

(** ** Frames *)

(** [serde_json] of the two message types: [None] is an error. *)
Class RpcSerde := {
  request_text : RpcRequest -> option bytes;
  request_of_text : bytes -> option RpcRequest;
  response_text : RpcResponse -> option bytes;
  response_of_text : bytes -> option RpcResponse;
}.
(** A text reads back as what was written, and no text is empty. *)
Class RpcSerdeLaws (R : RpcSerde) : Prop := {
  request_reads m bs : request_text m = Some bs -> request_of_text bs = Some m /\ bs <> [];
  response_reads m bs : response_text m = Some bs -> response_of_text bs = Some m /\ bs <> [];
}.

(* src: transport.rs:22-22 MAX_RPC_MESSAGE_BYTES *)
Definition MAX_RPC_MESSAGE_BYTES : Z := MAX_BLOCK_SERIALIZED_BYTES + Z.shiftl 4 20.
(* src: transport.rs:26-36 RpcTransportError *)
Inductive RpcTransportError := RpcIo | RpcSerialization | EmptyResponse | MessageTooLarge.

(** What a connection gives: its bytes, then the end or an error. *)
Inductive stream_end := EndOfStream | ReadFails.
Record Incoming := { arrived : bytes; then_ : stream_end }.
(** [read_exact]: the bytes, or the end of the stream, or another error. *)
Inductive read_outcome := ReadBytes (bs : bytes) (rest : Incoming) | UnexpectedEof | ReadError.
Definition read_exact (n : nat) (i : Incoming) : read_outcome :=
  if decide (n <= length (arrived i))%nat then ReadBytes (take n (arrived i)) {| arrived := drop n (arrived i); then_ := then_ i |}
  else match then_ i with EndOfStream => UnexpectedEof | ReadFails => ReadError end.
(** [write_all]: all bytes, or as many as [room] before an error. *)
Definition write_all (room : option nat) (bs : bytes) : bytes * result RpcTransportError unit :=
  match room with
  | None => (bs, Ok tt)
  | Some n => (take n bs, Err RpcIo)
  end.

(** The bytes of a message. *)
Definition rpc_frame (encoded : option bytes) : result RpcTransportError bytes :=
  encoded ← ok_or encoded RpcSerialization;
  reject MAX_RPC_MESSAGE_BYTES <? zlen encoded with MessageTooLarge;
  reject U32_MAX <? zlen encoded with MessageTooLarge;
  Ok (le_u32 (zlen encoded) ++ encoded).
(* src: transport.rs:134-150 write_message *)
Definition write_message (room : option nat) (encoded : option bytes) : bytes * result RpcTransportError unit :=
  match rpc_frame encoded with
  | Ok bs => write_all room bs
  | Err e => ([], Err e)
  end.
(* src: transport.rs:152-176 read_message *)
Definition read_message {A} (decode : bytes -> option A) (i : Incoming) : result RpcTransportError A :=
  match read_exact 4 i with
  | UnexpectedEof => Err EmptyResponse
  | ReadError => Err RpcIo
  | ReadBytes prefix i =>
      let payload_len := le_decode prefix in
      reject payload_len =? 0 with EmptyResponse;
      reject MAX_RPC_MESSAGE_BYTES <? payload_len with MessageTooLarge;
      match read_exact (Z.to_nat payload_len) i with
      | ReadBytes payload _ => ok_or (decode payload) RpcSerialization
      | _ => Err RpcIo
      end
  end.

(* src: transport.rs:67-71 RpcClientAuth *)
Inductive RpcClientAuth := ClientPassword (username password : bytes) | ClientCookie (secret : bytes).
(* src: transport.rs:104-120 RpcClient::call (request) *)
Definition client_request (auth : option RpcClientAuth) (request : RpcRequest) : RpcRequest :=
  match auth with
  | Some (ClientPassword username password) => Authenticated username password request
  | Some (ClientCookie secret) => Authenticated ATHO_RPC_COOKIE_USER secret request
  | None => request
  end.

(** ** The guard *)

(** [to_socket_addrs]: the addresses a name and port resolve to, or an error. *)
Class Resolver := socket_addrs : bytes -> option (list (IpAddr * Z)).
(* src: runtime.rs:53-66 RuntimeError *)
Inductive RuntimeError := InvalidNetwork | PublicRpcDenied | RpcBindFailed | ApiBindFailed | P2pBindFailed.

Section guard.
Context `{Hm : Hmac, Henv : ProcessEnv, Hres : Resolver}.

(* src: runtime.rs:413-425 rpc_address_is_loopback *)
Definition rpc_address_is_loopback (address : bytes) : result RuntimeError bool :=
  resolved ← ok_or (socket_addrs address) RpcBindFailed;
  Ok (forallb (fun a => is_loopback a.1) resolved).
(* src: runtime.rs:395-411 validate_rpc_bind_address *)
Definition validate_rpc_bind_address (address : bytes) (auth : RpcAuthConfig) : result RuntimeError unit :=
  if bool_decide (env_var "ATHO_RPC_ALLOW_PUBLIC" = Some [x31]) then
    loopback ← rpc_address_is_loopback address;
    reject negb loopback && negb (RpcAuthConfig.securely_configured_for_public_rpc auth) with PublicRpcDenied;
    Ok tt
  else
    loopback ← rpc_address_is_loopback address;
    reject negb loopback with PublicRpcDenied;
    Ok tt.

(** The inner request, or the answer that refuses it. *)
(* src: runtime.rs:434-458 authenticate_rpc_request *)
Definition authenticate_rpc_request (request : RpcRequest) (auth : RpcAuthConfig) : result RpcResponse RpcRequest :=
  if negb (auth_enabled auth) then
    match request with Authenticated _ _ request => Ok request | other => Ok other end
  else
    match request with
    | Authenticated username password request =>
        if RpcAuthConfig.verify_username_password auth username password then Ok request
        else Err (ErrorResponse InvalidRequest)
    | _ => Err (ErrorResponse InvalidRequest)
    end.

(** [removed] is whether the cookie file could be deleted, or was not there. *)
(* src: runtime.rs:484-491 remove_rpc_cookie *)
Definition remove_rpc_cookie (removed : bool) (a : RpcAuthConfig) : RpcAuthConfig * bool :=
  ({| auth_enabled := auth_enabled a; auth_bind := auth_bind a; auth_port := auth_port a; username := username a;
      password := password a; password_hmac := password_hmac a; cookie_auth := cookie_auth a; cookie_secret := None |},
   removed).
(** [secret] is what the random generator gave, [written] whether the cookie file could be
    replaced. *)
(* src: runtime.rs:460-482 refresh_rpc_cookie *)
Definition refresh_rpc_cookie (secret : option bytes) (written : bool) (a : RpcAuthConfig) : RpcAuthConfig * bool :=
  let with_cookie cookie user :=
    {| auth_enabled := auth_enabled a; auth_bind := auth_bind a; auth_port := auth_port a; username := user;
       password := password a; password_hmac := password_hmac a; cookie_auth := cookie_auth a; cookie_secret := cookie |} in
  if negb (auth_enabled a) || negb (cookie_auth a) then (with_cookie None (username a), true)
  else match secret with
       | None => (a, false)
       | Some secret =>
           if written : bool then
             (with_cookie (Some (hex_encode secret))
                (if bool_decide (trim (username a) = []) then ATHO_RPC_COOKIE_USER else username a), true)
           else (a, false)
       end.
End guard.

(** ** Frames read back *)

Lemma max_message_u32 : MAX_RPC_MESSAGE_BYTES <= U32_MAX.
Proof. by apply Z.leb_le. Qed.
Lemma rpc_frame_Ok encoded bs : rpc_frame encoded = Ok bs <->
  exists text, encoded = Some text /\ zlen text <= MAX_RPC_MESSAGE_BYTES /\ bs = le_u32 (zlen text) ++ text.
Proof.
  pose proof max_message_u32. unfold rpc_frame. destruct encoded as [text|]; cbn [ok_or mbind result_bind].
  - destruct (Z.ltb_spec MAX_RPC_MESSAGE_BYTES (zlen text)), (Z.ltb_spec U32_MAX (zlen text)); try lia.
    + split; [done|]. intros (? & [= <-] & ? & _). lia.
    + split; [done|]. intros (? & [= <-] & ? & _). lia.
    + split; [intros [= <-]; by exists text|]. by intros (? & [= <-] & _ & ->).
  - split; [done|]. by intros (? & ? & _).
Qed.
Lemma read_exact_app n (a b : bytes) e : length a = n -> read_exact n {| arrived := a ++ b; then_ := e |} = ReadBytes a {| arrived := b; then_ := e |}.
Proof.
  intros <-. unfold read_exact. cbn [arrived then_]. rewrite decide_True by (rewrite length_app; lia).
  by rewrite take_app_length, drop_app_length.
Qed.
Lemma read_exact_bytes n i bs rest : read_exact n i = ReadBytes bs rest ->
  length bs = n /\ arrived i = bs ++ arrived rest /\ then_ rest = then_ i.
Proof.
  unfold read_exact. case_decide as Hn; [|by destruct (then_ i)]. intros [= <- <-]. cbn [arrived then_].
  split_and!; [rewrite length_take; lia|by rewrite take_drop|done].
Qed.

Lemma read_frame {A} (decode : bytes -> option A) text rest e m :
  0 < zlen text <= MAX_RPC_MESSAGE_BYTES -> decode text = Some m ->
  read_message decode {| arrived := le_u32 (zlen text) ++ text ++ rest; then_ := e |} = Ok m.
Proof.
  intros Hsize Hdec. pose proof max_message_u32 as Hmax. unfold read_message.
  rewrite read_exact_app by apply le_bytes_length. cbv zeta. unfold le_u32.
  rewrite le_decode_le_bytes_id by (unfold uint; change (2 ^ (8 * Z.of_nat 4)) with (U32_MAX + 1); lia).
  rewrite (proj2 (Z.eqb_neq _ _)), (proj2 (Z.ltb_ge _ _)) by lia.
  rewrite read_exact_app by (unfold zlen; lia). by rewrite Hdec.
Qed.

(** The frames of the interface are exact. What is written reads back, whatever follows
    it; and bytes that read as a message begin with a frame of a text of that message,
    neither empty nor over the limit, so no length a peer claims makes the node allocate
    more. *)
Theorem rpc_frames_exact {A} (decode : bytes -> option A) (i : Incoming) (m : A) :
  read_message decode i = Ok m <->
  exists text rest, arrived i = le_u32 (zlen text) ++ text ++ rest /\ 0 < zlen text <= MAX_RPC_MESSAGE_BYTES
    /\ decode text = Some m.
Proof.
  pose proof max_message_u32 as Hmax. split.
  - unfold read_message. destruct (read_exact 4 i) as [prefix i'| |] eqn:E4; [|done..].
    destruct (read_exact_bytes _ _ _ _ E4) as (Hlen & Hi & _). cbv zeta.
    destruct (Z.eqb_spec (le_decode prefix) 0); [done|]. destruct (Z.ltb_spec MAX_RPC_MESSAGE_BYTES (le_decode prefix)); [done|].
    pose proof (le_decode_range prefix) as Hrange.
    destruct (read_exact _ i') as [text rest| |] eqn:Et; [|done..]. destruct (read_exact_bytes _ _ _ _ Et) as (Htext & Hi' & _).
    destruct (decode text) as [m'|] eqn:Em; [|done]. intros [= <-]. exists text, (arrived rest).
    assert (zlen text = le_decode prefix) as Hz by (unfold zlen; rewrite Htext; lia).
    split_and!; [|lia..|done]. rewrite Hi, Hi'. f_equal. unfold le_u32. rewrite Hz, <- Hlen. symmetry. apply le_bytes_le_decode.
  - intros (text & rest & Hi & Hsize & Hdec). destruct i as [bs e]. cbn [arrived] in Hi. subst bs. by apply read_frame.
Qed.

(** ** Who is let in *)

Section entry.
Context `{Hs : Sha3, Hk : FalconSigner, Hm : Hmac, Henv : ProcessEnv, Hres : Resolver}.

(** C33: An interface that others can reach takes only requests with credentials. If the
    address it was allowed to bind to resolves to one that is not local, then the operator
    allowed it in the environment, authentication is configured with a hashed credential or
    with a plain name and password that are not the default ones, and whatever passes the
    guard came with a name and a password that verify. What a hashed credential hashes is
    not looked at: one of the default name and password passes too
    ([hashed_defaults_are_public]), and any takes the empty password after a restart
    ([public_rpc_takes_empty_password]). *)
Theorem public_interface_guarded address auth addrs a request inner :
  validate_rpc_bind_address address auth = Ok tt -> socket_addrs address = Some addrs -> a ∈ addrs ->
  is_loopback a.1 = false -> authenticate_rpc_request request auth = Ok inner ->
  env_var "ATHO_RPC_ALLOW_PUBLIC" = Some [x31]
  /\ (password_hmac auth <> None \/ RpcAuthConfig.credentials_are_default auth = false)
  /\ exists user pass, request = Authenticated user pass inner /\ RpcAuthConfig.verify_username_password auth user pass = true.
Proof.
  intros Hbind Haddrs Ha Hpublic Hauth.
  assert (rpc_address_is_loopback address = Ok false) as Hl.
  { unfold rpc_address_is_loopback. rewrite Haddrs. cbn [ok_or mbind result_bind]. f_equal. apply not_true_iff_false.
    rewrite forallb_forall. intros Hall. rewrite Hall in Hpublic; [done|by apply list_elem_of_In]. }
  unfold validate_rpc_bind_address in Hbind. rewrite Hl in Hbind. cbn [mbind result_bind negb andb] in Hbind.
  case_bool_decide as Hallow; [|done]. split; [done|].
  destruct (RpcAuthConfig.securely_configured_for_public_rpc auth) eqn:Hsecure; [|done].
  unfold RpcAuthConfig.securely_configured_for_public_rpc in Hsecure.
  destruct (auth_enabled auth) eqn:Hen; [|done]. cbn [negb] in Hsecure. split.
  - destruct (password_hmac auth); [by left|]. right. apply andb_prop in Hsecure as [_ Hd]. by apply negb_true_iff in Hd.
  - unfold authenticate_rpc_request in Hauth. rewrite Hen in Hauth. cbn [negb] in Hauth.
    destruct request; try done. destruct (RpcAuthConfig.verify_username_password _ _ _) eqn:Hv; [|done].
    injection Hauth as ->. by eexists _, _.
Qed.

(** The default name and password, refused for a public interface in plain text, are
    accepted once they are hashed, as saving the configuration does. *)
Theorem hashed_defaults_are_public salt auth e address :
  auth_enabled auth = true -> password_hmac auth = None -> RpcAuthConfig.credentials_are_default auth = true ->
  RpcAuthConfig.persisted_hashed_credential salt auth = Some (Some e) ->
  env_var "ATHO_RPC_ALLOW_PUBLIC" = Some [x31] -> socket_addrs address <> None ->
  let saved := {| auth_enabled := true; auth_bind := auth_bind auth; auth_port := auth_port auth; username := hc_username e;
                  password := []; password_hmac := Some e; cookie_auth := cookie_auth auth; cookie_secret := None |} in
  RpcAuthConfig.securely_configured_for_public_rpc auth = false
  /\ validate_rpc_bind_address address saved = Ok tt
  /\ RpcAuthConfig.verify_username_password saved ATHO_RPC_DEFAULT_USER ATHO_RPC_DEFAULT_PASSWORD = true.
Proof.
  intros Hen Hplain Hdefault He Hallow Haddrs saved. pose proof Hdefault as Hd. unfold RpcAuthConfig.credentials_are_default in Hd.
  apply andb_prop in Hd as [Hu%bool_decide_eq_true Hp%bool_decide_eq_true]. split_and!.
  - unfold RpcAuthConfig.securely_configured_for_public_rpc. by rewrite Hen, Hplain, Hdefault, andb_false_r.
  - unfold validate_rpc_bind_address, rpc_address_is_loopback. rewrite bool_decide_true by done.
    destruct (socket_addrs address); [|done]. cbn [ok_or mbind result_bind]. by destruct (forallb _ _).
  - unfold RpcAuthConfig.persisted_hashed_credential in He. rewrite Hplain, Hen, Hu, Hp in He. cbn [andb negb] in He.
    rewrite !bool_decide_false in He by (vm_compute; discriminate). cbn [andb negb] in He.
    apply fmap_Some in He as (e' & Hcred & [= <-]). unfold RpcHashedCredential.from_password in Hcred.
    apply bind_Some in Hcred as (salt' & -> & Hcred). apply bind_Some in Hcred as (h & Hh & [= <-]).
    assert (trim ATHO_RPC_DEFAULT_PASSWORD = ATHO_RPC_DEFAULT_PASSWORD) as Etrim by (vm_compute; reflexivity). rewrite Etrim in Hh.
    unfold RpcAuthConfig.verify_username_password. subst saved. cbn [cookie_auth cookie_secret username password password_hmac hc_username].
    rewrite andb_false_r. destruct (_ && _ && _); [done|]. unfold RpcHashedCredential.verify. cbn [hc_username salt_hex password_hmac_hex].
    by rewrite Hh, !bool_decide_true by (done || by vm_compute).
Qed.

(** With hashed credentials in the file, the interface may be public, and it lets in the
    user name with an empty password. *)
Theorem public_rpc_takes_empty_password network contents c value cred address request :
  FullConfig.from_env network (FullConfig.FileText contents) = Some c -> no_variables ->
  env_var "ATHO_RPC_ALLOW_PUBLIC" = Some [x31] -> socket_addrs address <> None ->
  OperatorConfigFile.get (OperatorConfigFile.parse contents) "rpcauth" = Some value ->
  RpcHashedCredential.parse value = Some cred ->
  validate_rpc_bind_address address (c_rpc_auth c) = Ok tt
  /\ authenticate_rpc_request (Authenticated (hc_username cred) [] request) (c_rpc_auth c) = Ok request.
Proof.
  intros Hfrom Hnone Hallow Haddrs Hget Hparse.
  destruct (hashed_credential_admits_empty_password network contents c value cred Hfrom Hnone Hget Hparse) as [Hv Hsecure]. split.
  - unfold validate_rpc_bind_address, rpc_address_is_loopback. rewrite bool_decide_true by done.
    destruct (socket_addrs address); [|done]. cbn [ok_or mbind result_bind]. rewrite Hsecure. by destruct (forallb _ _).
  - unfold authenticate_rpc_request. rewrite Hv.
    unfold RpcAuthConfig.securely_configured_for_public_rpc in Hsecure. by destruct (auth_enabled (c_rpc_auth c)).
Qed.

(** The credentials a client was given. *)
Definition client_known (auth : RpcAuthConfig) (ca : option RpcClientAuth) : Prop :=
  match ca with
  | Some (ClientPassword user pass) => auth_enabled auth = true -> RpcAuthConfig.verify_username_password auth user pass = true
  | Some (ClientCookie secret) => cookie_auth auth = true /\ cookie_secret auth = Some secret
  | None => auth_enabled auth = false
  end.
(** A request of a client that is known arrives and passes the guard as it was made. *)
Lemma client_request_admitted `{Hr : RpcSerde, Hrl : !RpcSerdeLaws Hr} auth ca request bs rest e :
  client_known auth ca -> (forall u p r, request <> Authenticated u p r) ->
  rpc_frame (request_text (client_request ca request)) = Ok bs ->
  exists sent, read_message request_of_text {| arrived := bs ++ rest; then_ := e |} = Ok sent
    /\ authenticate_rpc_request sent auth = Ok request.
Proof.
  intros Hknown Hplain (text & Htext & Hsize & ->)%rpc_frame_Ok. destruct (request_reads _ _ Htext) as [Hreads Hne].
  exists (client_request ca request). split.
  - rewrite <- app_assoc. apply read_frame; [|done]. destruct text; [done|]. unfold zlen in *. cbn [length] in *. lia.
  - unfold authenticate_rpc_request. destruct ca as [[user pass|secret]|]; cbn [client_request client_known] in *.
    + destruct (auth_enabled auth); [|done]. cbn [negb]. by rewrite Hknown.
    + destruct Hknown as [Hc Hsec]. destruct (auth_enabled auth); [|done]. cbn [negb].
      unfold RpcAuthConfig.verify_username_password. by rewrite Hc, Hsec, (bool_decide_true (secret = secret)).
    + rewrite Hknown. cbn [negb]. destruct request; try done. by destruct (Hplain username password request).
Qed.
End entry.

Lemma public_interface_guarded_witness :
  let env : ProcessEnv := fun key => if String.eqb key "ATHO_RPC_ALLOW_PUBLIC" then Some [x31] else None in
  let resolver : Resolver := fun _ => Some [(V4 [9; 9; 9; 9], 9010)] in
  let request := Authenticated (str_bytes "operator") (str_bytes "not the default") GetNodeStatus in
  @env_var env "ATHO_RPC_ALLOW_PUBLIC" = Some [x31]
  /\ (password_hmac sample_auth <> None \/ RpcAuthConfig.credentials_are_default sample_auth = false)
  /\ exists user pass, request = Authenticated user pass GetNodeStatus
     /\ @RpcAuthConfig.verify_username_password sample_hmac sample_auth user pass = true.
Proof.
  cbv zeta. apply (@public_interface_guarded sample_hmac (fun key => if String.eqb key "ATHO_RPC_ALLOW_PUBLIC" then Some [x31] else None)
    (fun _ => Some [(V4 [9; 9; 9; 9], 9010)]) (str_bytes "9.9.9.9:9010") sample_auth [(V4 [9; 9; 9; 9], 9010)] (V4 [9; 9; 9; 9], 9010));
    [reflexivity|reflexivity|left|reflexivity|reflexivity].
Defined.

(** A file with hashed credentials. *)
Definition hashed_file : bytes := str_bytes "rpcauth=operator:00ff$aabb".
Lemma public_rpc_takes_empty_password_witness :
  let env : ProcessEnv := fun key => if String.eqb key "ATHO_RPC_ALLOW_PUBLIC" then Some [x31] else None in
  let resolver : Resolver := fun _ => Some [(V4 [9; 9; 9; 9], 9010)] in
  exists c, @FullConfig.from_env Crypto.checksum_sha3 Falcon.toy_signer env Mainnet (FullConfig.FileText hashed_file) = Some c
    /\ @validate_rpc_bind_address env resolver (str_bytes "9.9.9.9:9010") (c_rpc_auth c) = Ok tt
    /\ @authenticate_rpc_request sample_hmac (Authenticated (str_bytes "operator") [] GetNodeStatus) (c_rpc_auth c) = Ok GetNodeStatus.
Proof.
  cbv zeta.
  destruct (@FullConfig.from_env Crypto.checksum_sha3 Falcon.toy_signer
    (fun key => if String.eqb key "ATHO_RPC_ALLOW_PUBLIC" then Some [x31] else None) Mainnet (FullConfig.FileText hashed_file))
    as [c|] eqn:E; [|vm_compute in E; discriminate E].
  exists c. split; [reflexivity|].
  refine (@public_rpc_takes_empty_password Crypto.checksum_sha3 Falcon.toy_signer sample_hmac
    (fun key => if String.eqb key "ATHO_RPC_ALLOW_PUBLIC" then Some [x31] else None) (fun _ => Some [(V4 [9; 9; 9; 9], 9010)])
    Mainnet hashed_file c (str_bytes "operator:00ff$aabb") {| hc_username := str_bytes "operator"; salt_hex := str_bytes "00ff";
    password_hmac_hex := str_bytes "aabb" |} (str_bytes "9.9.9.9:9010") GetNodeStatus E _ eq_refl _ _ _).
  - intros key Hkey. unfold env_var. apply String.eqb_neq in Hkey. by rewrite Hkey.
  - discriminate.
  - vm_compute. reflexivity.
  - vm_compute. reflexivity.
Defined.
