(* ===== verification/WalletHistory.v ===== *)
(** * The history of a wallet

    crates/atho-node/src/wallet_history.rs: what the blocks of the chain mean for a set of
    addresses, as the node reports it to wallets; and that the amounts it reports add up to
    what the addresses hold, but for what a transaction pays the wallet beyond the coins of
    the wallet it spends. *)
From stdpp Require Import options.
From S2P Require Import Prelude Bytes Text Constants Crypto Keccak Network Transaction Block Utxo Chainstate Rpc.

#[local] Set Default Proof Using "Type*".

(** Amounts are [i128]: a sum of u64 values, or its negation. *)
Module WalletHistory.
Section history.
Context `{Hs : Sha3}.

(** The sum of what the inputs spend of the known outputs. *)
(* src: wallet_history.rs:36-44 derive_wallet_activity (inputs) *)
Definition wallet_input_total (known : gmap UtxoKey Z) (ins : list TxInput) : Z :=
  foldl (fun total i => match known !! {| k_txid := previous_txid i; k_output_index := output_index i |} with
                        | Some value => saturating_add U64_MAX total value
                        | None => total
                        end) 0 ins.
(** The outputs to the wallet: their sum, their count, their labels, and what is known
    then. The index is [as u32]. *)
Record Outputs := { wo_total : Z; wo_count : Z; wo_labels : list bytes; wo_known : gmap UtxoKey Z }.
(* src: wallet_history.rs:46-67 derive_wallet_activity (outputs) *)
Definition wallet_output (addresses : gmap bytes bytes) (txid : bytes) (o : Outputs) (io : nat * TxOutput) : Outputs :=
  let '(index, output) := io in
  match (if bool_decide (length (locking_script output) = 32%nat) then addresses !! locking_script output else None) with
  | Some address =>
      {| wo_total := saturating_add U64_MAX (wo_total o) (value_atoms output);
         wo_count := saturating_add USIZE_MAX (wo_count o) 1;
         wo_labels := wo_labels o ++ [address];
         wo_known := <[{| k_txid := txid; k_output_index := Z.of_nat index mod 2 ^ 32 |} := value_atoms output]> (wo_known o) |}
  | None => o
  end.
Definition wallet_outputs (addresses : gmap bytes bytes) (txid : bytes) (known : gmap UtxoKey Z) (outs : list TxOutput) : Outputs :=
  foldl (wallet_output addresses txid) {| wo_total := 0; wo_count := 0; wo_labels := []; wo_known := known |}
    (zip (seq 0 (length outs)) outs).
(* src: wallet_history.rs:115-121 format_wallet_label *)
Definition format_wallet_label (prefix : string) (labels : list bytes) : bytes :=
  match labels with
  | [] => str_bytes prefix
  | [label] => str_bytes prefix ++ str_bytes " to " ++ label
  | _ => str_bytes prefix ++ str_bytes " to " ++ decimal (zlen labels) ++ str_bytes " outputs"
  end.
(** One transaction: the entry it gives, and what is known after it. *)
(* src: wallet_history.rs:34-109 derive_wallet_activity (transaction) *)
Definition wallet_transaction (addresses : gmap bytes bytes) (h : Z) (known : gmap UtxoKey Z) (itx : nat * Transaction) :
    gmap UtxoKey Z * option WalletActivityEntry :=
  let '(tx_index, tx) := itx in
  let txid := Transaction.txid tx in
  let input_total := wallet_input_total known (inputs tx) in
  let o := wallet_outputs addresses txid known (outputs tx) in
  let entry kind label amount :=
    {| wae_height := h; wae_kind := kind; wae_label := label; wae_amount_atoms := amount; wae_txid := txid |} in
  (wo_known o,
   if Transaction.is_coinbase tx && (tx_index =? 0)%nat && (0 <? wo_total o) then
     Some (entry Mined (format_wallet_label "coinbase reward" (wo_labels o)) (wo_total o))
   else if 0 <? input_total then
     let debit := saturating_sub input_total (wo_total o) in
     if debit =? 0 then None
     else
       let external_output_count := saturating_sub (zlen (outputs tx)) (wo_count o) in
       Some (entry Sent (if external_output_count =? 0 then str_bytes "self transfer"
                         else decimal external_output_count ++ str_bytes " external output(s)") (- debit))
   else if 0 <? wo_total o then
     Some (entry Received (format_wallet_label "incoming transfer" (wo_labels o)) (wo_total o))
   else None).
Definition add_entry (st : gmap UtxoKey Z * list WalletActivityEntry) (r : gmap UtxoKey Z * option WalletActivityEntry) :
    gmap UtxoKey Z * list WalletActivityEntry :=
  (r.1, st.2 ++ match r.2 with Some e => [e] | None => [] end).
(** All transactions of the blocks in order. *)
Definition wallet_blocks (addresses : gmap bytes bytes) (blocks : list Block) : gmap UtxoKey Z * list WalletActivityEntry :=
  foldl (fun st hitx => add_entry st (wallet_transaction addresses hitx.1 st.1 hitx.2)) (∅, [])
    (blocks ≫= fun b => (fun itx => (height (header b), itx)) <$> zip (seq 0 (length (transactions b))) (transactions b)).
Definition address_map (addresses : list WalletHistoryAddress) : gmap bytes bytes :=
  foldl (fun m a => <[wh_payment_digest a := wh_address a]> m) ∅ addresses.
(* src: wallet_history.rs:16-113 derive_wallet_activity *)
Definition derive_wallet_activity (blocks : list Block) (addresses : list WalletHistoryAddress) : list WalletActivityEntry :=
  if bool_decide (blocks = []) || bool_decide (addresses = []) then []
  else
    reverse (wallet_blocks (address_map addresses) blocks).2.
End history.
End WalletHistory.

(** ** The history and the balance *)

Section balance.
Context `{Hs : Sha3}.

(** The outputs of a transaction to the wallet. *)
Definition wallet_pay (addresses : gmap bytes bytes) (txid : bytes) (io : nat * TxOutput) : option (UtxoKey * Z) :=
  if bool_decide (length (locking_script io.2) = 32%nat) && bool_decide (is_Some (addresses !! locking_script io.2))
  then Some ({| k_txid := txid; k_output_index := Z.of_nat io.1 mod 2 ^ 32 |}, value_atoms io.2) else None.
Definition wallet_pays (addresses : gmap bytes bytes) (tx : Transaction) : list (UtxoKey * Z) :=
  omap (wallet_pay addresses (Transaction.txid tx)) (zip (seq 0 (length (outputs tx))) (outputs tx)).
Definition spent_keys (tx : Transaction) : list UtxoKey := input_key <$> inputs tx.
(** What the unspent outputs to the wallet hold after the transactions. *)
Definition unspent (spent : list UtxoKey) (paid : list (UtxoKey * Z)) : Z :=
  zsum (filter (fun kv => kv.1 ∉ spent) paid).*2.
Definition wallet_balance (addresses : gmap bytes bytes) (txs : list Transaction) : Z :=
  unspent (txs ≫= spent_keys) (txs ≫= wallet_pays addresses).
(** No transaction spends an output of its own or of a later one. *)
Fixpoint spends_earlier (txs : list Transaction) : Prop :=
  match txs with
  | [] => True
  | tx :: rest => Forall (fun k => k_txid k ∉ Transaction.txid <$> txs) (spent_keys tx) /\ spends_earlier rest
  end.
#[global] Instance spends_earlier_dec txs : Decision (spends_earlier txs).
Proof. induction txs as [|tx txs IH]; cbn [spends_earlier]; apply _. Defined.
(** What a transaction that spends coins of the wallet pays the wallet beyond them. *)
Definition wallet_gain (addresses : gmap bytes bytes) (known : gmap UtxoKey Z) (tx : Transaction) : Z :=
  let input_total := WalletHistory.wallet_input_total known (inputs tx) in
  if 0 <? input_total then
    saturating_sub (WalletHistory.wo_total (WalletHistory.wallet_outputs addresses (Transaction.txid tx) known (outputs tx))) input_total
  else 0.
Fixpoint wallet_gains (addresses : gmap bytes bytes) (known : gmap UtxoKey Z) (txs : list Transaction) : Z :=
  match txs with
  | [] => 0
  | tx :: txs =>
      wallet_gain addresses known tx
      + wallet_gains addresses
          (WalletHistory.wo_known (WalletHistory.wallet_outputs addresses (Transaction.txid tx) known (outputs tx))) txs
  end.

(** *** Sums *)

Lemma unspent_one spent k paid : NoDup paid.*1 -> k ∉ spent ->
  unspent (spent ++ [k]) paid = unspent spent paid - default 0 ((list_to_map (M:=gmap UtxoKey Z) paid) !! k).
Proof.
  unfold unspent. induction paid as [|[k' v] paid IH]; intros Hnd Hk; [by cbn; rewrite lookup_empty|].
  apply NoDup_cons in Hnd as [Hni Hnd]. specialize (IH Hnd Hk). rewrite !filter_cons, list_to_map_cons. cbn [fst].
  destruct (decide (k' = k)) as [->|Hne].
  - rewrite decide_False by set_solver. rewrite decide_True by done. rewrite lookup_insert_eq, fmap_cons. cbn [snd zsum].
    rewrite IH, not_elem_of_list_to_map_1 by done.
    cbn. lia.
  - rewrite lookup_insert_ne by done. destruct (decide (k' ∈ spent)).
    + rewrite !decide_False by set_solver. exact IH.
    + rewrite !decide_True by set_solver. rewrite !fmap_cons. cbn [snd zsum]. lia.
Qed.
Lemma unspent_spend paid ks : NoDup paid.*1 -> forall spent, NoDup (spent ++ ks) ->
  unspent (spent ++ ks) paid
  = unspent spent paid - zsum ((fun k => default 0 ((list_to_map (M:=gmap UtxoKey Z) paid) !! k)) <$> ks).
Proof.
  intros Hpaid. induction ks as [|k ks IH]; intros spent Hnd; [rewrite app_nil_r; cbn; lia|].
  change (k :: ks) with ([k] ++ ks). rewrite (app_assoc spent [k] ks). change (k :: ks) with ([k] ++ ks) in Hnd.
  rewrite app_assoc in Hnd. rewrite IH, unspent_one by (try done; apply NoDup_app in Hnd as [Hnd _]; apply NoDup_app in Hnd; set_solver).
  rewrite fmap_app. cbn [fmap list_fmap zsum app]. lia.
Qed.
Lemma unspent_pays spent paid new : Forall (fun kv => kv.1 ∉ spent) new ->
  unspent spent (paid ++ new) = unspent spent paid + zsum new.*2.
Proof.
  intros Hnew. unfold unspent. rewrite filter_app, fmap_app, zsum_app. do 3 f_equal. induction Hnew as [|kv new Hkv _ IH]; [done|].
  by rewrite filter_cons, decide_True, IH.
Qed.

(** *** One transaction *)

(** Saturation does not show below the bound. *)
Lemma saturating_total {A} (f : A -> Z) l : Forall (fun a => 0 <= f a) l -> forall t, 0 <= t -> t + zsum (f <$> l) <= U64_MAX ->
  foldl (fun t a => saturating_add U64_MAX t (f a)) t l = t + zsum (f <$> l).
Proof.
  induction 1 as [|a l Ha Hl IH]; intros t Ht Hmax; [cbn; lia|]. cbn [foldl]. rewrite fmap_cons in *. cbn [zsum] in *.
  assert (0 <= zsum (f <$> l)) by by apply zsum_nonneg, Forall_fmap. unfold saturating_add.
  rewrite Z.min_r by lia. rewrite IH by lia. lia.
Qed.
Lemma input_total_sum known tx :
  map_Forall (fun _ v => 0 <= v) known -> zsum ((fun k => default 0 (known !! k)) <$> spent_keys tx) <= U64_MAX ->
  WalletHistory.wallet_input_total known (inputs tx) = zsum ((fun k => default 0 (known !! k)) <$> spent_keys tx).
Proof.
  intros Hpos Hmax. unfold WalletHistory.wallet_input_total, spent_keys in *. rewrite <- list_fmap_compose in *.
  set (f := _ ∘ _) in *.
  assert (forall i, 0 <= f i) as Hf.
  { intros i. unfold f, compose. destruct (known !! input_key i) as [v|] eqn:E; [by eapply (Hpos _ v)|done]. }
  rewrite <- (Z.add_0_l (zsum _)), <- (saturating_total f) by (done || by apply Forall_forall).
  assert (forall l t, 0 <= t <= U64_MAX -> foldl (fun total i => match known !! {| k_txid := previous_txid i; k_output_index := output_index i |} with
    | Some value => saturating_add U64_MAX total value | None => total end) t l = foldl (fun t a => saturating_add U64_MAX t (f a)) t l) as Hext;
    [|by apply Hext].
  induction l as [|i l IH]; intros t Ht; [done|]. cbn [foldl]. pose proof (Hf i) as Hi.
  change (f i) with (default 0 (known !! input_key i)) in Hi |- *. unfold input_key in Hi |- *.
  destruct (known !! _) as [v|]; cbn [default] in *; unfold saturating_add in *; [apply IH; lia|].
  rewrite Z.add_0_r, Z.min_r by lia. by apply IH.
Qed.
Lemma output_step addresses txid o io :
  WalletHistory.wallet_output addresses txid o io = match wallet_pay addresses txid io with
  | Some (k, v) =>
      {| WalletHistory.wo_total := saturating_add U64_MAX (WalletHistory.wo_total o) v;
         WalletHistory.wo_count := saturating_add USIZE_MAX (WalletHistory.wo_count o) 1;
         WalletHistory.wo_labels := WalletHistory.wo_labels o ++ [default [] (addresses !! locking_script io.2)];
         WalletHistory.wo_known := <[k := v]> (WalletHistory.wo_known o) |}
  | None => o
  end.
Proof.
  destruct io as [i out]. unfold WalletHistory.wallet_output, wallet_pay. cbn [fst snd].
  destruct (bool_decide _); [|done]. by destruct (addresses !! locking_script out).
Qed.
Lemma pay_Some addresses txid io k v : wallet_pay addresses txid io = Some (k, v) ->
  k = {| k_txid := txid; k_output_index := Z.of_nat io.1 mod 2 ^ 32 |} /\ v = value_atoms io.2.
Proof. unfold wallet_pay. destruct (_ && _); [|done]. by intros [= <- <-]. Qed.
Lemma pays_nonneg addresses txid outs start : Forall (fun o => 0 <= value_atoms o) outs ->
  Forall (fun v => 0 <= v) (omap (wallet_pay addresses txid) (zip (seq start (length outs)) outs)).*2.
Proof.
  intros Hall. apply Forall_fmap, Forall_forall. intros [k v] ([i o] & Hin & [_ ->]%pay_Some)%list_elem_of_omap.
  apply elem_of_zip_r in Hin. rewrite Forall_forall in Hall. by apply Hall.
Qed.
Lemma outputs_run addresses txid outs : Forall (fun o => 0 <= value_atoms o) outs -> forall start o0 P,
  let pays := omap (wallet_pay addresses txid) (zip (seq start (length outs)) outs) in
  WalletHistory.wo_known o0 = list_to_map P -> NoDup (P ++ pays).*1 ->
  0 <= WalletHistory.wo_total o0 -> WalletHistory.wo_total o0 + zsum pays.*2 <= U64_MAX ->
  let o := foldl (WalletHistory.wallet_output addresses txid) o0 (zip (seq start (length outs)) outs) in
  WalletHistory.wo_total o = WalletHistory.wo_total o0 + zsum pays.*2 /\ WalletHistory.wo_known o = list_to_map (P ++ pays).
Proof.
  induction 1 as [|out outs Hv Hall IH]; intros start o0 P; cbv zeta; [cbn; rewrite app_nil_r; intros ? _ _ _; split; [lia|done]|].
  pose proof (zsum_nonneg _ (pays_nonneg addresses txid outs (S start) Hall)) as Hpos.
  cbn [length seq zip zip_with omap list_omap foldl]. rewrite output_step.
  destruct (wallet_pay addresses txid (start, out)) as [[k v]|] eqn:Hpay; [|apply IH].
  apply pay_Some in Hpay as [_ ->]. cbn [snd]. set (pays := omap _ _) in *. intros Hk Hnd Ht Hmax.
  rewrite fmap_cons in *. cbn [snd zsum] in *. rewrite (cons_middle _ P pays), app_assoc in Hnd.
  specialize (IH (S start)
    {| WalletHistory.wo_total := saturating_add U64_MAX (WalletHistory.wo_total o0) (value_atoms out);
       WalletHistory.wo_count := saturating_add USIZE_MAX (WalletHistory.wo_count o0) 1;
       WalletHistory.wo_labels := WalletHistory.wo_labels o0 ++ [default [] (addresses !! locking_script out)];
       WalletHistory.wo_known := <[k := value_atoms out]> (WalletHistory.wo_known o0) |} (P ++ [(k, value_atoms out)])).
  cbv zeta in IH. cbn [WalletHistory.wo_total WalletHistory.wo_known] in IH. unfold saturating_add in *.
  rewrite (Z.min_r U64_MAX) in IH |- * by lia. destruct IH as [-> ->].
  - rewrite Hk. symmetry. apply list_to_map_snoc. rewrite !fmap_app in Hnd. apply NoDup_app in Hnd as [Hnd _].
    apply NoDup_app in Hnd as (_ & Hd & _). intros Hin. apply (Hd _ Hin). by left.
  - exact Hnd.
  - lia.
  - fold pays. lia.
  - fold pays. rewrite <- app_assoc. split; [lia|done].
Qed.
Lemma pays_keys addresses tx : zlen (outputs tx) <= 2 ^ 32 -> NoDup (wallet_pays addresses tx).*1 /\
  Forall (fun k => k_txid k = Transaction.txid tx) (wallet_pays addresses tx).*1.
Proof.
  unfold wallet_pays, zlen. generalize (outputs tx). intros outs Hlen.
  enough (forall start, Z.of_nat (start + length outs) <= 2 ^ 32 ->
    let pays := omap (wallet_pay addresses (Transaction.txid tx)) (zip (seq start (length outs)) outs) in
    NoDup pays.*1 /\ Forall (fun k => k_txid k = Transaction.txid tx /\ Z.of_nat start <= k_output_index k) pays.*1) as H.
  { destruct (H 0%nat) as [H1 H2]; [lia|]. split; [done|]. eapply Forall_impl; [done|]. by intros k [? _]. }
  clear Hlen. induction outs as [|out outs IH]; intros start Hlen; [split; constructor|].
  cbn [length] in Hlen. destruct (IH (S start)) as [IH1 IH2]; [lia|].
  cbn [length seq zip zip_with omap list_omap].
  destruct (wallet_pay _ _ (start, out)) as [[k v]|] eqn:Hpay.
  - apply pay_Some in Hpay as [-> _]. cbn [fst]. rewrite fmap_cons. cbn [fst]. rewrite Z.mod_small by lia. split.
    + constructor; [|done]. intros Hin. rewrite Forall_forall in IH2. apply IH2 in Hin as [_ Hin]. cbn in Hin. lia.
    + constructor; [done|]. eapply Forall_impl; [exact IH2|]. intros k [? ?]. split; [done|lia].
  - split; [done|]. eapply Forall_impl; [exact IH2|]. intros k [? ?]. split; [done|lia].
Qed.

(** The amount of a transaction, with the gain. *)
Lemma transaction_amount addresses h known i tx :
  0 <= WalletHistory.wo_total (WalletHistory.wallet_outputs addresses (Transaction.txid tx) known (outputs tx)) ->
  0 <= WalletHistory.wallet_input_total known (inputs tx) ->
  zsum (wae_amount_atoms <$> option_list (WalletHistory.wallet_transaction addresses h known (i, tx)).2) + wallet_gain addresses known tx
  = WalletHistory.wo_total (WalletHistory.wallet_outputs addresses (Transaction.txid tx) known (outputs tx))
    - WalletHistory.wallet_input_total known (inputs tx).
Proof.
  intros Ho Hi. unfold WalletHistory.wallet_transaction, wallet_gain, saturating_sub. cbn [fst snd].
  destruct (Transaction.is_coinbase tx) eqn:Hcb.
  - apply bool_decide_eq_true in Hcb. rewrite Hcb. change (WalletHistory.wallet_input_total known []) with 0.
    destruct (i =? 0)%nat; cbn [andb Z.ltb Z.compare]; destruct (Z.ltb_spec 0 (WalletHistory.wo_total
      (WalletHistory.wallet_outputs addresses (Transaction.txid tx) known (outputs tx)))); cbn; lia.
  - cbn [andb]. destruct (Z.ltb_spec 0 (WalletHistory.wallet_input_total known (inputs tx))).
    + destruct (Z.eqb_spec (Z.max 0 (WalletHistory.wallet_input_total known (inputs tx) - WalletHistory.wo_total
        (WalletHistory.wallet_outputs addresses (Transaction.txid tx) known (outputs tx)))) 0); cbn; lia.
    + destruct (Z.ltb_spec 0 (WalletHistory.wo_total
        (WalletHistory.wallet_outputs addresses (Transaction.txid tx) known (outputs tx)))); cbn; lia.
Qed.

(** *** All transactions *)

Lemma spent_within paid ks : NoDup paid.*1 -> NoDup ks -> Forall (fun v => 0 <= v) paid.*2 ->
  zsum ((fun k => default 0 ((list_to_map (M:=gmap UtxoKey Z) paid) !! k)) <$> ks) <= zsum paid.*2.
Proof.
  intros Hnd Hks Hpos. pose proof (unspent_spend paid ks Hnd [] Hks) as H. cbn [app] in H.
  assert (0 <= unspent ks paid) as H1.
  { apply zsum_nonneg, Forall_fmap, Forall_forall. intros kv [_ Hin]%list_elem_of_filter.
    rewrite Forall_fmap, Forall_forall in Hpos. by apply Hpos. }
  assert (unspent [] paid = zsum paid.*2) as H2.
  { rewrite <- (app_nil_l paid) at 1. rewrite unspent_pays; [done|]. apply Forall_forall. intros kv _. apply not_elem_of_nil. }
  lia.
Qed.
Definition well_sized (tx : Transaction) : Prop := zlen (outputs tx) <= 2 ^ 32 /\ Forall (fun o => 0 <= value_atoms o) (outputs tx).
#[global] Instance well_sized_dec tx : Decision (well_sized tx).
Proof. unfold well_sized. apply _. Defined.
Lemma transactions_add_up addresses (l : list (Z * (nat * Transaction))) : forall paid spent entries,
  let txs := (fun x => x.2.2) <$> l in
  let elsewhere := fun k => k_txid k ∉ Transaction.txid <$> txs in
  NoDup paid.*1 -> NoDup (spent ++ (txs ≫= spent_keys)) -> NoDup (Transaction.txid <$> txs) ->
  Forall elsewhere paid.*1 -> Forall elsewhere spent -> spends_earlier txs -> Forall well_sized txs ->
  Forall (fun v => 0 <= v) paid.*2 -> zsum paid.*2 + zsum (txs ≫= wallet_pays addresses).*2 <= U64_MAX ->
  zsum (wae_amount_atoms <$> (foldl (fun st hitx => WalletHistory.add_entry st (WalletHistory.wallet_transaction addresses hitx.1 st.1 hitx.2))
    (list_to_map paid, entries) l).2) + wallet_gains addresses (list_to_map paid) txs
  = zsum (wae_amount_atoms <$> entries) + unspent (spent ++ (txs ≫= spent_keys)) (paid ++ (txs ≫= wallet_pays addresses)) - unspent spent paid.
Proof.
  induction l as [|[h [i tx]] l IH]; intros paid spent entries txs elsewhere.
  { intros _ _ _ _ _ _ _ _ _. cbn. rewrite !app_nil_r. lia. }
  subst txs elsewhere. cbv zeta in *. rewrite !fmap_cons, !bind_cons. cbn [snd]. set (txs := _ <$> l) in *.
  intros Hpaid Hspent Htxids Hpe Hse [Hearly Hlater] [[Hlen Hvals] Hsized]%Forall_cons Hpos Hmax.
  rewrite app_assoc in Hspent. pose proof Hspent as [Hnow _]%NoDup_app. pose proof Hnow as (_ & _ & Hkeys)%NoDup_app.
  destruct (pays_keys addresses tx Hlen) as [Hpk Hpt]. apply NoDup_cons in Htxids as [Hfresh Htxids].
  rewrite fmap_app, zsum_app in Hmax.
  assert (NoDup (paid ++ wallet_pays addresses tx).*1) as Hpaid'.
  { rewrite fmap_app. apply NoDup_app. split; [done|]. split; [|done]. intros k Hk Hin. rewrite Forall_forall in Hpe, Hpt.
    apply (Hpe k Hk). rewrite (Hpt k Hin). by left. }
  pose proof (zsum_nonneg _ Hpos) as Hpos1. pose proof (pays_nonneg addresses (Transaction.txid tx) (outputs tx) 0 Hvals) as Hpos2.
  fold (wallet_pays addresses tx) in Hpos2. pose proof (zsum_nonneg _ Hpos2) as Hpos3.
  assert (0 <= zsum (txs ≫= wallet_pays addresses).*2) as Hpos4.
  { apply zsum_nonneg, Forall_fmap, Forall_forall. intros [k v] (tx' & Hin & Htx')%list_elem_of_bind.
    rewrite Forall_forall in Hsized. destruct (Hsized tx' Htx') as [_ Hv].
    pose proof (pays_nonneg addresses (Transaction.txid tx') (outputs tx') 0 Hv) as Hall. rewrite Forall_fmap, Forall_forall in Hall.
    by apply (Hall (k, v)). }
  destruct (outputs_run addresses (Transaction.txid tx) (outputs tx) Hvals 0
    {| WalletHistory.wo_total := 0; WalletHistory.wo_count := 0; WalletHistory.wo_labels := []; WalletHistory.wo_known := list_to_map paid |}
    paid) as [Htotal Hknown]; [done|exact Hpaid'|done|cbn; fold (wallet_pays addresses tx); lia|].
  fold (wallet_pays addresses tx) in Htotal, Hknown. cbn [WalletHistory.wo_total] in Htotal. rewrite Z.add_0_l in Htotal.
  fold (WalletHistory.wallet_outputs addresses (Transaction.txid tx) (list_to_map paid) (outputs tx)) in Htotal, Hknown.
  pose proof (spent_within paid (spent_keys tx) Hpaid Hkeys Hpos) as Hwithin.
  assert (map_Forall (fun _ v => 0 <= v) (list_to_map (M:=gmap UtxoKey Z) paid)) as Hknownpos.
  { intros k v Hk%elem_of_list_to_map_2. rewrite Forall_fmap, Forall_forall in Hpos. by apply (Hpos (k, v)). }
  pose proof (input_total_sum (list_to_map paid) tx Hknownpos ltac:(lia)) as Hin.
  assert (0 <= zsum ((fun k => default 0 ((list_to_map (M:=gmap UtxoKey Z) paid) !! k)) <$> spent_keys tx)) as Hinpos.
  { apply zsum_nonneg, Forall_fmap, Forall_forall. intros k _. cbn.
    destruct (list_to_map paid !! k) as [v|] eqn:E; [by eapply (Hknownpos k v)|done]. }
  pose proof (transaction_amount addresses h (list_to_map paid) i tx ltac:(by rewrite Htotal) ltac:(by rewrite Hin)) as Hamount.
  rewrite Htotal, Hin in Hamount.
  pose proof (unspent_spend paid (spent_keys tx) Hpaid spent Hnow) as Hspend.
  pose proof (unspent_pays (spent ++ spent_keys tx) paid (wallet_pays addresses tx)) as Hpay.
  specialize (IH (paid ++ wallet_pays addresses tx) (spent ++ spent_keys tx)
    (entries ++ option_list (WalletHistory.wallet_transaction addresses h (list_to_map paid) (i, tx)).2)).
  cbv zeta in IH. rewrite <- !app_assoc in IH. rewrite (fmap_app wae_amount_atoms entries), (zsum_app (wae_amount_atoms <$> entries)) in IH.
  cbn [wallet_gains]. rewrite Hknown.
  change ((foldl _ (list_to_map paid, entries) ((h, (i, tx)) :: l)).2)
    with ((foldl (fun st hitx => WalletHistory.add_entry st (WalletHistory.wallet_transaction addresses hitx.1 st.1 hitx.2))
      (WalletHistory.wo_known (WalletHistory.wallet_outputs addresses (Transaction.txid tx) (list_to_map paid) (outputs tx)),
       entries ++ option_list (WalletHistory.wallet_transaction addresses h (list_to_map paid) (i, tx)).2) l).2).
  rewrite Hknown. rewrite Hpay, Hspend in IH.
  all: cycle 1.
  { apply Forall_forall. intros kv Hkv [Hk|Hk]%elem_of_app; rewrite Forall_fmap, Forall_forall in Hpt; specialize (Hpt kv Hkv); cbn in Hpt.
    - rewrite Forall_forall in Hse. apply (Hse _ Hk). rewrite Hpt. by left.
    - rewrite Forall_forall in Hearly. apply (Hearly _ Hk). rewrite Hpt. by left. }
  assert (forall ks, Forall (fun k => k_txid k ∉ Transaction.txid tx :: (Transaction.txid <$> txs)) ks ->
    Forall (fun k => k_txid k ∉ Transaction.txid <$> txs) ks) as Hweak.
  { intros ks Hks. eapply Forall_impl; [exact Hks|]. intros k Hk Hin'. apply Hk. by right. }
  rewrite <- app_assoc in Hspent. rewrite !fmap_app, zsum_app in IH. rewrite fmap_app in Hpaid'.
  assert (Forall (fun k => k_txid k ∉ Transaction.txid <$> txs) (wallet_pays addresses tx).*1) as Hpt'.
  { eapply Forall_impl; [exact Hpt|]. by intros k ->. }
  specialize (IH Hpaid' Hspent Htxids (Forall_app_2 _ _ _ (Hweak _ Hpe) Hpt') (Forall_app_2 _ _ _ (Hweak _ Hse) (Hweak _ Hearly))
    Hlater Hsized (Forall_app_2 _ _ _ Hpos Hpos2) ltac:(lia)).
  lia.
Qed.

Lemma numbered_transactions (blocks : list Block) :
  (fun x => x.2.2) <$> (blocks ≫= fun b => (fun itx => (height (header b), itx)) <$> zip (seq 0 (length (transactions b))) (transactions b))
  = blocks ≫= transactions.
Proof.
  induction blocks as [|b blocks IH]; [done|]. rewrite !bind_cons, fmap_app, IH. f_equal. rewrite <- list_fmap_compose.
  change (snd <$> zip (seq 0 (length (transactions b))) (transactions b) = transactions b). apply snd_zip. by rewrite length_seq.
Qed.
Lemma nothing_paid tx : wallet_pays ∅ tx = [].
Proof.
  unfold wallet_pays. induction (zip _ _) as [|io l IH]; [done|]. cbn [omap list_omap]. unfold wallet_pay at 1.
  rewrite lookup_empty, andb_false_r. exact IH.
Qed.
Lemma nothing_gained txs : wallet_gains ∅ ∅ txs = 0.
Proof.
  induction txs as [|tx txs IH]; [done|]. cbn [wallet_gains].
  assert (WalletHistory.wallet_input_total ∅ (inputs tx) = 0) as Hin.
  { unfold WalletHistory.wallet_input_total. induction (inputs tx) as [|i l IH']; [done|]. cbn [foldl]. by rewrite lookup_empty. }
  unfold wallet_gain. rewrite Hin. cbn [Z.ltb Z.compare].
  assert (forall l o, WalletHistory.wo_known o = ∅ ->
    WalletHistory.wo_known (foldl (WalletHistory.wallet_output ∅ (Transaction.txid tx)) o l) = ∅) as Hout.
  { induction l as [|io l IH']; intros o Ho; [done|]. cbn [foldl]. rewrite output_step. unfold wallet_pay.
    rewrite lookup_empty, andb_false_r. by apply IH'. }
  unfold WalletHistory.wallet_outputs. rewrite Hout by done. by rewrite IH.
Qed.

(** C32: The history of a wallet adds up to its balance. On blocks whose transactions are all
    different, spend no output twice and only earlier ones, and pay the wallet no more than
    a u64 in all, the amounts of the entries, and what transactions that spend coins of the
    wallet pay it beyond them, sum to the values of the outputs to the wallet that are not
    spent. *)
Theorem history_adds_up blocks addresses :
  let txs := blocks ≫= transactions in
  let m := WalletHistory.address_map addresses in
  NoDup (Transaction.txid <$> txs) -> NoDup (txs ≫= spent_keys) -> spends_earlier txs -> Forall well_sized txs ->
  zsum (txs ≫= wallet_pays m).*2 <= U64_MAX ->
  zsum (wae_amount_atoms <$> WalletHistory.derive_wallet_activity blocks addresses) + wallet_gains m ∅ txs = wallet_balance m txs.
Proof.
  cbv zeta. set (m := WalletHistory.address_map addresses). intros Htxids Hspent Horder Hsized Hmax.
  unfold WalletHistory.derive_wallet_activity. case_bool_decide as Hb; [subst blocks; done|].
  case_bool_decide as Ha; cbn [orb].
  - assert (m = ∅) as -> by (unfold m; by rewrite Ha). rewrite nothing_gained. unfold wallet_balance.
    enough (forall txs, txs ≫= wallet_pays ∅ = []) as -> by done.
    induction txs as [|tx txs IH]; [done|]. by rewrite bind_cons, nothing_paid.
  - rewrite reverse_Permutation. unfold WalletHistory.wallet_blocks. rewrite <- (numbered_transactions blocks) in *.
    match goal with |- context [foldl _ _ ?l] =>
      pose proof (transactions_add_up m l [] [] [] (NoDup_nil_2) Hspent Htxids (Forall_nil_2 _) (Forall_nil_2 _) Horder Hsized
        (Forall_nil_2 _)) as H end.
    cbv zeta in H. specialize (H Hmax). fold m. etransitivity; [exact H|]. apply Z.sub_0_r.
Qed.

(** A transaction that pays the wallet at least what it spends of the wallet's coins gives
    no entry, although the wallet may hold more after it. *)
Theorem gain_goes_unreported addresses h known i tx :
  let input_total := WalletHistory.wallet_input_total known (inputs tx) in
  0 < input_total ->
  input_total <= WalletHistory.wo_total (WalletHistory.wallet_outputs addresses (Transaction.txid tx) known (outputs tx)) ->
  (WalletHistory.wallet_transaction addresses h known (i, tx)).2 = None.
Proof.
  cbv zeta. intros Hin Hout. unfold WalletHistory.wallet_transaction. cbn [snd].
  assert (Transaction.is_coinbase tx = false) as ->.
  { apply bool_decide_eq_false. intros E. by rewrite E in Hin. }
  cbn [andb]. rewrite (proj2 (Z.ltb_lt _ _) Hin). unfold saturating_sub. by rewrite Z.max_l by lia.
Qed.
End balance.

(** ** Witnesses *)

Definition paid_script : bytes := replicate 32 x07.
Definition foreign_script : bytes := replicate 32 x09.
Definition history_transaction (ins : list TxInput) (outs : list TxOutput) : Transaction :=
  {| version := 1; inputs := ins; outputs := outs; lock_time := 0; witness := []; tx_pow_nonce := 0; tx_pow_bits := 0 |}.
(** A reward of 50 to the wallet; from it 20 to somebody else and 30 back; and a transaction
    that spends the 30 together with a foreign coin and pays the wallet 40. *)
Definition reward_tx : Transaction := history_transaction [] [{| value_atoms := 50; locking_script := paid_script |}].
Definition spending_tx : Transaction :=
  history_transaction [{| previous_txid := Transaction.txid (H:=Keccak.sha3_inst) reward_tx; output_index := 0; unlocking_script := [] |}]
    [{| value_atoms := 20; locking_script := foreign_script |}; {| value_atoms := 30; locking_script := paid_script |}].
Definition joint_tx : Transaction :=
  history_transaction
    [{| previous_txid := Transaction.txid (H:=Keccak.sha3_inst) spending_tx; output_index := 1; unlocking_script := [] |};
     {| previous_txid := zeros 48; output_index := 3; unlocking_script := [] |}]
    [{| value_atoms := 40; locking_script := paid_script |}].
Definition history_block (b : Block) (txs : list Transaction) : Block :=
  {| header := header b; transactions := txs; witnesses := ∅; fees_total_atoms := 0; fees_miner_atoms := 0 |}.
Definition history_blocks : list Block :=
  [history_block first_block [reward_tx]; history_block first_block [spending_tx; joint_tx]].
Definition history_addresses : list WalletHistoryAddress := [{| wh_payment_digest := paid_script; wh_address := str_bytes "mine" |}].
Lemma history_adds_up_witness :
  zsum (wae_amount_atoms <$> WalletHistory.derive_wallet_activity (Hs:=Keccak.sha3_inst) history_blocks history_addresses) = 30
  /\ wallet_balance (Hs:=Keccak.sha3_inst) (WalletHistory.address_map history_addresses) (history_blocks ≫= transactions) = 40.
Proof.
  assert (wallet_gains (Hs:=Keccak.sha3_inst) (WalletHistory.address_map history_addresses) ∅ (history_blocks ≫= transactions) = 10)
    as Hgain by (vm_compute; reflexivity).
  assert (wallet_balance (Hs:=Keccak.sha3_inst) (WalletHistory.address_map history_addresses) (history_blocks ≫= transactions) = 40)
    as Hbalance by (vm_compute; reflexivity).
  pose proof (history_adds_up (Hs:=Keccak.sha3_inst) history_blocks history_addresses) as H. cbv zeta in H.
  rewrite Hgain, Hbalance in H. split; [|exact Hbalance].
  enough (forall z, z + 10 = 40 -> z = 30) as Hz by (apply Hz, H;
    [apply (bool_decide_unpack _); by vm_compute|apply (bool_decide_unpack _); by vm_compute| | |apply Z.leb_le; by vm_compute];
    [apply (bool_decide_unpack (spends_earlier (Hs:=Keccak.sha3_inst) (history_blocks ≫= transactions))); by vm_compute
    |apply (bool_decide_unpack _); by vm_compute]).
  intros z Hz. lia.
Defined.
