(* ===== verification/Service.v ===== *)
(** * The node service

    crates/atho-node/src/service.rs with orchestrator.rs and the request loop of
    runtime.rs: the node and its synchronization behind the RPC interface. When it takes
    transactions and blocks and gives templates, the commands that change something, and
    what one connection does; the sessions of the network pass through it as well. The
    caches for the explorer and log lines are not modelled; [None] is a panic. *)
From stdpp Require Import options.
From S2P Require Import Prelude Bytes Text TextFacts Constants Crypto Keccak Network Rules Transaction Block Pow Address.
From S2P Require Import Genesis Errors Utxo Validation BlockValidation Lmdb Chainstate Db Mempool Node Mining.
From S2P Require Import P2pConfig Protocol CompactBlock Handshake BanList HeadersSync Downloader IpAddr AddressManager.
From S2P Require Import Connection Relay SideBranches NodeQueries NodeSync NodeSyncBlocks NodeSyncPeers NodeSyncFacts NodeSyncHistory.
From S2P Require Import OperatorConfig Rpc WalletHistory.

#[local] Set Default Proof Using "Type*".

(** What the service stores of its own: the records of how its peers behave, and the marker
    a clean stop leaves. *)
Class ServiceStorage `{Hd : Database} := {
  load_health : database -> bytes -> result StorageError (option PeerHealthRecord);
  save_health : database -> PeerHealthRecord -> database * result StorageError unit;
  mark_clean_shutdown : database -> database * result StorageError unit;
}.
#[global] Instance lmdb_service_storage `{Hs : Sha3, Hl : LmdbStore, Hd : DbSerde, Henv : ProcessEnv} :
    ServiceStorage (Hd:=lmdb_database) :=
  {| load_health := fun d remote_addr => Db.load_peer_health (disk d) remote_addr;
     save_health := fun d r => on_disk d (fun _ _ db => Db.upsert_peer_health db r);
     mark_clean_shutdown := fun d => on_disk d (fun now _ db => Db.mark_clean_shutdown now db) |}.
(** What the commands that only read and are not modelled render: of the state, the
    command and its arguments; they may fail or panic. *)
Class Views `{Hd : Database} := render_view : NodeSync -> Node -> bytes -> list bytes -> option (result RpcError Json).

(* src: service.rs:79-85 PeerTrafficStats *)
Record PeerTrafficStats := { pt_bytes_sent : Z; pt_bytes_received : Z; pt_last_send_unix : option Z; pt_last_receive_unix : option Z }.
(* src: service.rs:87-92 NetworkRuntimeView *)
Record NetworkRuntimeView := { nr_bytes_sent : Z; nr_bytes_received : Z; nr_peers : gmap bytes PeerTrafficStats }.
(** [sv_rpc_auth] is the [rpc_auth] of the node's configuration, the part of it that
    [NodeConfig] leaves out. *)
(* src: service.rs:193-208 NodeService *)
Record NodeService `{Database} := {
  sv_rpc_auth : RpcAuthConfig;
  sv_sync : NodeSync;
  sv_node : Node;
  sv_running : bool;
  network_runtime : NetworkRuntimeView;
  peer_health_cache : gmap bytes PeerHealthRecord;
}.

(** In seconds. *)
(* src: tcp_p2p.rs:31-31 OUTBOUND_RETRY_INTERVAL *)
Definition OUTBOUND_RETRY_INTERVAL : Z := 1.
(* src: tcp_p2p.rs:32-32 OUTBOUND_MAX_RETRY_INTERVAL *)
Definition OUTBOUND_MAX_RETRY_INTERVAL : Z := 32.
(* src: tcp_p2p.rs:1235-1242 next_outbound_retry_delay *)
Definition next_outbound_retry_delay (consecutive_failures : Z) : Z :=
  let factor := Z.shiftl 1 (Z.min (saturating_sub consecutive_failures 1) 5) in
  let delay := OUTBOUND_RETRY_INTERVAL * factor in
  Z.min (if delay <=? U64_MAX then delay else OUTBOUND_MAX_RETRY_INTERVAL) OUTBOUND_MAX_RETRY_INTERVAL.

Module NodeService.
Section service.
Context `{Henv : ProcessEnv, Hs : Sha3, Hf : FalconBackend, Hg : !GenesisReady Hs, Hd : Database, Ha : !Archive, Hm : Moment,
  Hstore : !ServiceStorage, Hviews : !Views}.

Definition with_node (v : NodeService) (n : Node) : NodeService :=
  {| sv_rpc_auth := sv_rpc_auth v; sv_sync := sv_sync v; sv_node := n; sv_running := sv_running v; network_runtime := network_runtime v;
     peer_health_cache := peer_health_cache v |}.
Definition with_sync (v : NodeService) (s : NodeSync) : NodeService :=
  {| sv_rpc_auth := sv_rpc_auth v; sv_sync := s; sv_node := sv_node v; sv_running := sv_running v; network_runtime := network_runtime v;
     peer_health_cache := peer_health_cache v |}.
Definition with_rpc_auth (v : NodeService) (a : RpcAuthConfig) : NodeService :=
  {| sv_rpc_auth := a; sv_sync := sv_sync v; sv_node := sv_node v; sv_running := sv_running v;
     network_runtime := network_runtime v; peer_health_cache := peer_health_cache v |}.
Definition with_running (v : NodeService) (running : bool) : NodeService :=
  {| sv_rpc_auth := sv_rpc_auth v; sv_sync := sv_sync v; sv_node := sv_node v; sv_running := running; network_runtime := network_runtime v;
     peer_health_cache := peer_health_cache v |}.
Definition with_traffic (v : NodeService) (t : NetworkRuntimeView) : NodeService :=
  {| sv_rpc_auth := sv_rpc_auth v; sv_sync := sv_sync v; sv_node := sv_node v; sv_running := sv_running v; network_runtime := t;
     peer_health_cache := peer_health_cache v |}.
Definition with_health (v : NodeService) (m : gmap bytes PeerHealthRecord) : NodeService :=
  {| sv_rpc_auth := sv_rpc_auth v; sv_sync := sv_sync v; sv_node := sv_node v; sv_running := sv_running v; network_runtime := network_runtime v;
     peer_health_cache := m |}.
(* src: service.rs:301-303 NodeService::network *)
Definition network (v : NodeService) : Network := Node.network (sv_node v).

(** ** Status *)

(* src: service.rs:673-704 NodeService::node_status *)
Definition node_status (v : NodeService) : NodeStatus :=
  {| st_network := network v; block_count := Node.height (sv_node v); st_tip_hash := Node.tip_hash (sv_node v);
     mempool_count := Mempool.len (mempool (sv_node v)); mempool_total_fee_atoms := total_fee_atoms (mempool (sv_node v));
     running := sv_running v; st_headers_synced := headers_synced (NodeSync.sync_state (sv_sync v));
     sync_best_height := best_height (NodeSync.sync_state (sv_sync v)); peer_count := NodeSync.ready_peer_count (sv_sync v);
     diagnostics := NodeSync.fast_download_diagnostics (sv_sync v) (sv_node v) |}.
(* src: service.rs:720-722 NodeService::local_height_reached_sync_target *)
Definition local_height_reached_sync_target (st : NodeStatus) : bool :=
  (sync_best_height st =? 0) || (sync_best_height st <=? block_count st).
(* src: service.rs:724-726 NodeService::public_network_requires_ready_peer *)
Definition public_network_requires_ready_peer (n : Network) : bool :=
  match n with Regnet | Prunetest => false | Mainnet | Testnet => true end.
(* src: service.rs:728-731 NodeService::has_required_ready_peer *)
Definition has_required_ready_peer (st : NodeStatus) : bool :=
  negb (public_network_requires_ready_peer (st_network st)) || (0 <? peer_count st).
(* src: service.rs:706-718 NodeService::chain_synced *)
Definition chain_synced (st : NodeStatus) : bool :=
  let validation_safe := bool_decide (chain_validation_status (diagnostics st) = ""%string) || safe_to_serve (diagnostics st) in
  running st && st_headers_synced st && local_height_reached_sync_target st && safe_to_serve (diagnostics st)
  && has_required_ready_peer st && validation_safe.
(** Whether there is a reason; its text is not modelled. *)
(* src: service.rs:733-759 NodeService::transaction_submission_sync_block_reason *)
Definition transaction_submission_blocked (st : NodeStatus) : bool := negb (chain_synced st).
(* src: service.rs:761-792 NodeService::mining_template_sync_block_reason *)
Definition mining_template_blocked (st : NodeStatus) : bool := negb (chain_synced st && safe_to_mine (diagnostics st)).
(* src: service.rs:794-822 NodeService::stale_mined_block_error *)
Definition stale_mined_block_error (b : Block) (st : NodeStatus) : option RpcError :=
  let expected_height := saturating_add U64_MAX (block_count st) 1 in
  let extends_active_tip := (height (header b) =? expected_height)
    && bool_decide (previous_block_hash (header b) = st_tip_hash st) in
  if extends_active_tip && chain_synced st && safe_to_mine (diagnostics st) then None
  else Some (NodeRpcError (NodeValidation InvalidBlockHeight)).

(** ** Peers *)

(* src: service.rs:1325-1341 NodeService::p2p_peer_health *)
Definition p2p_peer_health (v : NodeService) (remote_addr : bytes) : NodeService * option PeerHealthRecord :=
  match peer_health_cache v !! remote_addr with
  | Some r => (v, Some r)
  | None =>
      let record := match storage (chainstate (sv_node v)) with
                    | None => None
                    | Some d => match load_health d remote_addr with Ok r => r | Err _ => None end
                    end in
      (match record with Some r => with_health v (<[remote_addr := r]> (peer_health_cache v)) | None => v end, record)
  end.
(* src: node.rs:308-312 Node::save_peer_health *)
Definition save_peer_health (n : Node) (r : PeerHealthRecord) : Node :=
  Node.with_chainstate n (Chainstate.on_storage (chainstate n) (fun d => save_health d r)).1.
(* src: service.rs:1343-1355 NodeService::p2p_save_peer_health *)
Definition p2p_save_peer_health (v : NodeService) (r : PeerHealthRecord) : NodeService :=
  with_node (with_health v (<[ph_remote_addr r := r]> (peer_health_cache v))) (save_peer_health (sv_node v) r).
Definition no_traffic : PeerTrafficStats :=
  {| pt_bytes_sent := 0; pt_bytes_received := 0; pt_last_send_unix := None; pt_last_receive_unix := None |}.
(* src: service.rs:1357-1371 NodeService::p2p_note_bytes_sent *)
Definition p2p_note_bytes_sent (v : NodeService) (remote_addr : bytes) (count : Z) : NodeService :=
  if count =? 0 then v
  else
    let t := network_runtime v in
    let p := default no_traffic (nr_peers t !! remote_addr) in
    with_traffic v
      {| nr_bytes_sent := saturating_add U64_MAX (nr_bytes_sent t) count; nr_bytes_received := nr_bytes_received t;
         nr_peers := <[remote_addr := {| pt_bytes_sent := saturating_add U64_MAX (pt_bytes_sent p) count;
                                         pt_bytes_received := pt_bytes_received p; pt_last_send_unix := Some NodeSync.now_unix;
                                         pt_last_receive_unix := pt_last_receive_unix p |}]> (nr_peers t) |}.
(* src: service.rs:1373-1388 NodeService::p2p_note_bytes_received *)
Definition p2p_note_bytes_received (v : NodeService) (remote_addr : bytes) (count : Z) : NodeService :=
  if count =? 0 then v
  else
    let t := network_runtime v in
    let p := default no_traffic (nr_peers t !! remote_addr) in
    with_traffic v
      {| nr_bytes_sent := nr_bytes_sent t; nr_bytes_received := saturating_add U64_MAX (nr_bytes_received t) count;
         nr_peers := <[remote_addr := {| pt_bytes_sent := pt_bytes_sent p;
                                         pt_bytes_received := saturating_add U64_MAX (pt_bytes_received p) count;
                                         pt_last_send_unix := pt_last_send_unix p;
                                         pt_last_receive_unix := Some NodeSync.now_unix |}]> (nr_peers t) |}.
(* src: service.rs:1417-1424 NodeService::p2p_accept_inbound *)
Definition p2p_accept_inbound (v : NodeService) (remote_addr : bytes) : NodeService * result NodeSyncError unit :=
  let '(s, verdict) := SyncPeers.accept_inbound (sv_sync v) remote_addr in (with_sync v s, verdict).
(* src: service.rs:1426-1437 NodeService::p2p_open_outbound *)
Definition p2p_open_outbound (v : NodeService) (remote_addr : bytes) : NodeService * result NodeSyncError (list ConnectionEvent) :=
  let '(s, verdict) := SyncPeers.open_outbound (sv_sync v) (sv_node v) remote_addr in (with_sync v s, verdict).
(* src: service.rs:1439-1451 NodeService::p2p_receive *)
Definition p2p_receive `{Hr : Rounds} (v : NodeService) (remote_addr : bytes) (message : NetworkMessage) :
    option (NodeService * result NodeSyncError (list ConnectionEvent * list SyncNotice)) :=
  '(s, n, verdict) ← SyncPeers.receive remote_addr message (sv_sync v) (sv_node v);
  Some (with_node (with_sync v s) n, verdict).
(* src: service.rs:1453-1464 NodeService::p2p_maintain_peer_sync *)
Definition p2p_maintain_peer_sync `{Hr : Rounds} (v : NodeService) (remote_addr : bytes) : option (NodeService * list ConnectionEvent) :=
  '(s, events) ← SyncPeers.maintain_peer_sync remote_addr (sv_sync v) (sv_node v); Some (with_sync v s, events).
(** The record of a peer after another failure. *)
(* src: service.rs:1475-1490 NodeService::p2p_disconnect_peer (penalty) *)
Definition penalized (r : PeerHealthRecord) : PeerHealthRecord :=
  let failures := saturating_add U32_MAX (ph_consecutive_failures r) 1 in
  {| ph_network := ph_network r; ph_remote_addr := ph_remote_addr r; ph_quality_score := saturating_sub (ph_quality_score r) 15;
     ph_consecutive_failures := failures;
     ph_backoff_until_unix := saturating_add U64_MAX NodeSync.now_unix (Z.max (next_outbound_retry_delay failures) 1);
     ph_last_failure_unix := Some NodeSync.now_unix; ph_last_success_unix := ph_last_success_unix r |}.
(** [stopping]: whether the reason is "runtime stopping". *)
(* src: service.rs:1466-1506 NodeService::p2p_disconnect_peer *)
Definition p2p_disconnect_peer (v : NodeService) (remote_addr : bytes) (stopping : bool) : NodeService * bool :=
  let '(s, noticed) := SyncPeers.disconnect_peer (sv_sync v) (sv_node v) remote_addr in
  let t := network_runtime v in
  let v := with_traffic (with_sync v s)
    {| nr_bytes_sent := nr_bytes_sent t; nr_bytes_received := nr_bytes_received t; nr_peers := delete remote_addr (nr_peers t) |} in
  if (noticed : bool) && negb stopping then
    let '(v, health) := p2p_peer_health v remote_addr in
    let health := default {| ph_network := network v; ph_remote_addr := remote_addr; ph_quality_score := 100;
                             ph_consecutive_failures := 0; ph_backoff_until_unix := 0; ph_last_failure_unix := None;
                             ph_last_success_unix := None |} health in
    (p2p_save_peer_health v (penalized health), noticed)
  else (v, noticed).

(** ** Commands *)

Definition no_args (args : list bytes) : result RpcError unit := if bool_decide (args = []) then Ok tt else Err InvalidRequest.
(* src: service.rs:3419-3431 NodeService::parse_single_string_arg *)
Definition single_arg (args : list bytes) : result RpcError bytes :=
  match args with [value] => Ok value | _ => Err InvalidRequest end.
Definition id_text (n : Network) : Json := JsonString (str_bytes (Network.id n)).

(* src: service.rs:5249-5287 parse_raw_transaction_hex *)
Definition parse_raw_transaction_hex (raw_tx_hex : bytes) : result RpcError Transaction :=
  let trimmed := trim raw_tx_hex in
  let hex_value := if starts_with (str_bytes "0x") trimmed then drop 2 trimmed else trimmed in
  reject bool_decide (hex_value = []) with InvalidRequest;
  reject negb (zlen hex_value mod 2 =? 0) with InvalidRequest;
  reject MAX_TRANSACTION_RAW_BYTES <? zlen hex_value / 2 with InvalidRequest;
  reject negb (forallb (fun b => bool_decide (is_Some (hex_digit b))) hex_value) with InvalidRequest;
  bs ← ok_or (hex_decode hex_value) InvalidRequest;
  transaction ← ok_or (Transaction.from_full_bytes bs) InvalidRequest;
  reject negb (bool_decide (Transaction.full_bytes transaction = bs)) with InvalidRequest;
  Ok transaction.

(* src: service.rs:3719-3725 format_atoms_decimal *)
Definition format_atoms_decimal (n : Network) (atoms : Z) : bytes :=
  let scale := Network.atoms_per_atho_for_network n in
  decimal (atoms / scale) ++ [x2e] ++ padded (Z.to_nat (Network.decimals_for_network n)) (decimal (atoms mod scale)).
(* src: service.rs:3204-3272 NodeService::broadcast_transaction_value *)
Definition broadcast_transaction_value (v : NodeService) (tx : Transaction) : NodeService * result RpcError Json :=
  if transaction_submission_blocked (node_status v) then (v, Err InvalidRequest)
  else
    let '(n, verdict) := Node.accept_relayed_transaction NodeSync.now_unix (sv_node v) tx in
    let v := with_node v n in
    match verdict with
    | Err e => (v, Err (NodeRpcError e))
    | Ok submitted =>
        match Mempool.entries (mempool n) !! submitted with
        | None => (v, Err InternalError)
        | Some entry =>
            let relay_ready := chain_synced (node_status v) in
            (v, Ok (JsonObject
              [("accepted", JsonBool true);
               ("txid", JsonString (hex_encode (Transaction.txid tx)));
               ("wtxid", JsonString (hex_encode (Transaction.wtxid tx)));
               ("fee_atoms", JsonNumber (fee_atoms entry));
               ("fee_atho", JsonString (format_atoms_decimal (network v) (fee_atoms entry)));
               ("size_bytes", JsonNumber (Transaction.full_size_bytes tx));
               ("vsize_bytes", JsonNumber (Z.max (Transaction.vsize_bytes tx) 1));
               ("feerate_atoms_per_vbyte", JsonNumber (MempoolEntry.feerate_atoms_per_vbyte entry));
               ("mempool_count", JsonNumber (Mempool.len (mempool n)));
               ("relay_ready", JsonBool relay_ready);
               ("relay_status", JsonString (str_bytes (if relay_ready then "ready" else "accepted_pending_sync")))]%string))
        end
    end.
(* src: service.rs:3188-3194 NodeService::command_sendrawtransaction *)
Definition command_sendrawtransaction (v : NodeService) (args : list bytes) : NodeService * result RpcError Json :=
  match (raw ← single_arg args; parse_raw_transaction_hex raw) with
  | Err e => (v, Err e)
  | Ok tx => broadcast_transaction_value v tx
  end.

(** Whether the file of the cookie could be deleted is dropped: either way the secret is
    forgotten. *)
(* src: runtime.rs:174-195 NodeRuntime::stop *)
Definition stop (v : NodeService) : NodeService :=
  let v := with_node v (Node.with_chainstate (sv_node v) (Chainstate.on_storage (chainstate (sv_node v)) mark_clean_shutdown).1) in
  let v := with_rpc_auth v (remove_rpc_cookie true (sv_rpc_auth v)).1 in
  with_running v false.
(* src: service.rs:2278-2288 NodeService::command_stop *)
Definition command_stop (v : NodeService) (args : list bytes) : NodeService * result RpcError Json :=
  match no_args args with
  | Err e => (v, Err e)
  | Ok _ =>
      (stop v, Ok (JsonObject [("stopping", JsonBool true); ("network", id_text (network v));
                               ("height", JsonNumber (Node.height (sv_node v)))]%string))
  end.

Definition with_reward_address (n : Node) (address : bytes) : Node :=
  {| config := {| cfg_network := cfg_network (config n); cfg_mining_reward_address := address; cfg_mempool := cfg_mempool (config n) |};
     chainstate := chainstate n; mempool := mempool n |}.
(** [None] is the panic of the address decoder. *)
(* src: service.rs:3012-3051 NodeService::command_setminingrewardaddress *)
Definition command_setminingrewardaddress (v : NodeService) (args : list bytes) : option (NodeService * result RpcError Json) :=
  match single_arg args with
  | Err e => Some (v, Err e)
  | Ok address =>
      let address := trim address in
      if bool_decide (address = []) then Some (v, Err InvalidRequest)
      else
        decoded ← decode_base56_address address;
        match decoded with
        | Err _ => Some (v, Err InvalidRequest)
        | Ok (payment_digest, n) =>
            if negb (bool_decide (n = network v)) then Some (v, Err InvalidRequest)
            else Some (with_node v (with_reward_address (sv_node v) address),
                       Ok (JsonObject [("address", JsonString address); ("network", id_text n);
                                       ("payment_digest", JsonString (hex_encode payment_digest)); ("updated", JsonBool true)]%string))
        end
  end.
(** The variants for errors of connections are not in [NodeError]. *)
(* src: service.rs:3362-3389 NodeService::command_addnode *)
Definition command_addnode (v : NodeService) (args : list bytes) : NodeService * result RpcError Json :=
  match args with
  | address :: rest =>
      let mode := default (str_bytes "add") (head rest) in
      if (1 <? length rest)%nat then (v, Err InvalidRequest)
      else if negb (bool_decide (mode ∈ [str_bytes "add"; str_bytes "onetry"])) then (v, Err InvalidRequest)
      else
        let s := SyncPeers.add_manual_peer (sv_sync v) address in
        let '(v, verdict) := p2p_open_outbound (with_sync v s) address in
        match verdict with
        | Err _ => (v, Err InternalError)
        | Ok _ =>
            (v, Ok (JsonObject [("address", JsonString address); ("mode", JsonString mode);
                                ("connected", JsonBool (ConnectionManager.has_peer (connections (sv_sync v)) address))]%string))
        end
  | [] => (v, Err InvalidRequest)
  end.
(* src: service.rs:3391-3403 NodeService::command_disconnectnode *)
Definition command_disconnectnode (v : NodeService) (args : list bytes) : NodeService * result RpcError Json :=
  match single_arg args with
  | Err e => (v, Err e)
  | Ok address =>
      let '(v, disconnected) := p2p_disconnect_peer v address false in
      (v, Ok (JsonObject [("address", JsonString address); ("disconnected", JsonBool disconnected)]%string))
  end.

(** The text of the address error is not modelled. *)
(* src: service.rs:3319-3340 NodeService::command_validate_athoaddress *)
Definition command_validate_athoaddress (v : NodeService) (args : list bytes) : option (result RpcError Json) :=
  match single_arg args with
  | Err e => Some (Err e)
  | Ok address =>
      decoded ← decode_base56_address address;
      Some match decoded with
           | Ok (digest, n) =>
               Ok (JsonObject [("is_valid", JsonBool true); ("address", JsonString address); ("network", id_text n);
                               ("visible_prefix", JsonString [Network.visible_prefix n]);
                               ("payment_digest", JsonString (hex_encode digest));
                               ("matches_active_network", JsonBool (bool_decide (n = network v)))]%string)
           | Err _ =>
               Ok (JsonObject [("is_valid", JsonBool false); ("address", JsonString address);
                               ("error", JsonNull); ("active_network", id_text (network v))]%string)
           end
  end.

(** The names [execute_command_data] and [execute_command_data_mut] know. *)
(* src: service.rs:587-633 NodeService::execute_command_data (names) *)
Definition read_commands : list bytes :=
  str_bytes <$> ["help"; "getstatus"; "gethealth"; "getversion"; "geterrorcodes"; "getrpcinfo"; "getmemoryinfo"; "uptime";
    "getblockcount"; "getbestblockhash"; "getblockhash"; "getblock"; "getblockheader"; "getblockchaininfo"; "getblockstats";
    "getchaintips"; "getchaintxstats"; "getdifficulty"; "gettxout"; "gettxoutsetinfo"; "verifychain"; "getchainwork";
    "getrulesetinfo"; "getconsensusstatus"; "getnetworkinfo"; "getconnectioncount"; "getnettotals"; "getnodeaddresses";
    "getaddednodeinfo"; "getpeerinfo"; "getmempoolinfo"; "getrawmempool"; "getmempoolentry"; "getmempoolancestors";
    "getmempooldescendants"; "getblocktemplate"; "gettemplateinfo"; "getmininginfo"; "getnetworkhashps"; "getnetworkparams";
    "getgenesisinfo"; "getrawtransaction"; "validateathoaddress"; "validateaddress"; "sha3_384"]%string.
Definition named (name : string) (d : CommandDefinition) : bool := bool_decide (cd_name d = str_bytes name).

(** ** Templates *)

(* src: service.rs:483-493 NodeService::block_template *)
Definition block_template (v : NodeService) (b : Block) : BlockTemplate :=
  {| bt_network := network v; bt_height := height (header b); bt_previous_block_hash := previous_block_hash (header b);
     bt_target := difficulty_target_or_bits (header b); bt_transaction_count := zlen (transactions b);
     bt_fees_atoms := fees_total_atoms b; bt_block := b |}.
(** The template, unless the node is not in sync. *)
(* src: service.rs:333-353 NodeService::handle (GetBlockTemplate) *)
Definition get_block_template (v : NodeService) : option (result RpcError BlockTemplate) :=
  if mining_template_blocked (node_status v) then Some (Err InvalidRequest)
  else
    built ← build_candidate_block NodeSync.now_unix (sv_node v);
    Some match built with
         | Ok b => Ok (block_template v b)
         | Err e => Err (NodeRpcError e)
         end.

(* src: service.rs:582-634 NodeService::execute_command_data *)
Definition execute_command_data (v : NodeService) (d : CommandDefinition) (args : list bytes) : option (result RpcError Json) :=
  if named "getblockcount" d then
    Some (_ ← no_args args; Ok (JsonObject [("height", JsonNumber (Node.height (sv_node v)))]%string))
  else if named "getbestblockhash" d then
    Some (_ ← no_args args; Ok (JsonObject [("best_block_hash", JsonString (hex_encode (Node.tip_hash (sv_node v))))]%string))
  else if named "validateathoaddress" d || named "validateaddress" d then command_validate_athoaddress v args
  else if bool_decide (cd_name d ∈ read_commands) then render_view (sv_sync v) (sv_node v) (cd_name d) args
  else Some (Err MethodNotFound).
(* src: service.rs:636-649 NodeService::execute_command_data_mut *)
Definition execute_command_data_mut (v : NodeService) (d : CommandDefinition) (args : list bytes) :
    option (NodeService * result RpcError Json) :=
  if named "stop" d then Some (command_stop v args)
  else if named "addnode" d then Some (command_addnode v args)
  else if named "disconnectnode" d then Some (command_disconnectnode v args)
  else if named "setminingrewardaddress" d then command_setminingrewardaddress v args
  else if named "sendrawtransaction" d then Some (command_sendrawtransaction v args)
  else Some (v, Err MethodNotFound).

(* src: service.rs:552-580 NodeService::prepare_command_execution *)
Definition prepare_command_execution (v : NodeService) (i : CommandInvocation) : result RpcError CommandDefinition :=
  match command_definition (trim (ci_name i)) with
  | None => Err MethodNotFound
  | Some definition =>
      reject cd_dangerous definition && negb (ci_confirmed i) with InvalidRequest;
      reject negb (cd_mainnet_allowed definition) && bool_decide (network v = Mainnet) with InvalidRequest;
      reject cd_test_only definition && negb (match network v with Regnet | Prunetest => true | _ => false end) with InvalidRequest;
      Ok definition
  end.
(* src: service.rs:541-550 NodeService::command_response *)
Definition command_response (v : NodeService) (d : CommandDefinition) (data : result RpcError Json) : RpcResponse :=
  match data with
  | Err e => ErrorResponse e
  | Ok data =>
      CommandResult {| cr_command := cd_name d; cr_group := cd_group d; cr_permission := cd_permission d;
                       cr_dangerous := cd_dangerous d; cr_network := str_bytes (Network.id (network v)); cr_data := data |}
  end.
(* src: service.rs:504-520 NodeService::execute_command *)
Definition execute_command (v : NodeService) (i : CommandInvocation) : option RpcResponse :=
  match prepare_command_execution v i with
  | Err e => Some (ErrorResponse e)
  | Ok d =>
      if requires_mutable_access (cd_permission d) then Some (ErrorResponse InvalidRequest)
      else command_response v d <$> execute_command_data v d (ci_args i)
  end.
(* src: service.rs:522-539 NodeService::execute_command_mut *)
Definition execute_command_mut (v : NodeService) (i : CommandInvocation) : option (NodeService * RpcResponse) :=
  match prepare_command_execution v i with
  | Err e => Some (v, ErrorResponse e)
  | Ok d =>
      if requires_mutable_access (cd_permission d) then
        '(v, data) ← execute_command_data_mut v d (ci_args i); Some (v, command_response v d data)
      else (fun data => (v, command_response v d data)) <$> execute_command_data v d (ci_args i)
  end.

(** ** Requests *)

Definition answer (r : result RpcError RpcResponse) : RpcResponse := match r with Ok response => response | Err e => ErrorResponse e end.
(** As many rounds as the tip is high reach genesis. *)
(* src: service.rs:651-657 NodeService::wallet_activity *)
Definition wallet_activity (v : NodeService) (addresses : list WalletHistoryAddress) : option RpcResponse :=
  blocks ← Chainstate.canonical_blocks (S (Z.to_nat (Node.height (sv_node v)))) (chainstate (sv_node v));
  Some match blocks with
       | Ok blocks => WalletActivityResponse (WalletHistory.derive_wallet_activity blocks addresses)
       | Err e => ErrorResponse (NodeRpcError (NodeStorage e))
       end.
(** [handle], of a request without credentials around it. *)
(* src: service.rs:305-361 NodeService::handle *)
Fixpoint handle (v : NodeService) (request : RpcRequest) : option RpcResponse :=
  match request with
  | Authenticated _ _ request => handle v request
  | GetNetwork => Some (NetworkResponse (str_bytes (Network.id (network v))))
  | GetBlockCount => Some (BlockCountResponse (Node.height (sv_node v)))
  | GetNodeStatus => Some (NodeStatusResponse (node_status v))
  | GetMempoolInfo =>
      Some (MempoolInfoResponse {| mi_transaction_count := Mempool.len (mempool (sv_node v));
                                   mi_total_fee_atoms := total_fee_atoms (mempool (sv_node v)) |})
  | GetMempoolSpentInputs =>
      Some (MempoolSpentInputs ((fun k => (k_txid k, k_output_index k)) <$> elements (spent_inputs (mempool (sv_node v)))))
  | ListUtxos => Some (UtxosResponse (map_to_list (us_entries (cs_utxos (chainstate (sv_node v))))).*2)
  | GetWalletActivity addresses => wallet_activity v addresses
  | ExecuteCommand invocation => execute_command v invocation
  | GetBlockTemplate => (fun r => answer (BlockTemplateResponse <$> r)) <$> get_block_template v
  | SubmitBlock _ | SubmitTransaction _ _ => Some (ErrorResponse InvalidRequest)
  end.

(* src: service.rs:368-391 NodeService::handle_mut (SubmitTransaction) *)
Definition submit_transaction (v : NodeService) (tx : Transaction) (fee_atoms : Z) : NodeService * RpcResponse :=
  if transaction_submission_blocked (node_status v) then (v, ErrorResponse InvalidRequest)
  else
    let '(n, verdict) := Node.submit_transaction (sv_node v) (MempoolEntry.new NodeSync.now_unix tx fee_atoms) in
    (with_node v n, match verdict with Ok txid => TransactionSubmitted txid | Err e => ErrorResponse (NodeRpcError e) end).
(* src: service.rs:424-446 NodeService::handle_mut (SubmitBlock) *)
Definition submit_block (v : NodeService) (b : Block) : NodeService * RpcResponse :=
  match stale_mined_block_error b (node_status v) with
  | Some e => (v, ErrorResponse e)
  | None =>
      let '(n, verdict) := Node.submit_block node_env NodeSync.now_unix (sv_node v) b in
      match verdict with
      | Ok _ => (with_sync (with_node v n) (SyncPeers.prime (sv_sync v) n), BlockSubmitted true (BlockHeader.block_hash (header b)))
      | Err e => (with_node v n, ErrorResponse (NodeRpcError e))
      end
  end.
(* src: service.rs:363-481 NodeService::handle_mut *)
Fixpoint handle_mut (v : NodeService) (request : RpcRequest) : option (NodeService * RpcResponse) :=
  match request with
  | Authenticated _ _ request => handle_mut v request
  | ExecuteCommand invocation => execute_command_mut v invocation
  | SubmitTransaction tx fee_atoms => Some (submit_transaction v tx fee_atoms)
  | SubmitBlock b => Some (submit_block v b)
  | other => (fun response => (v, response)) <$> handle v other
  end.

(** ** Connections *)

(* src: runtime.rs:372-381 response_requests_runtime_shutdown *)
Definition response_requests_runtime_shutdown (response : RpcResponse) : bool :=
  match response with
  | CommandResult r =>
      bool_decide (cr_command r = str_bytes "stop") && default false (json_get "stopping" (cr_data r) ≫= json_bool)
  | _ => false
  end.
Context `{Hmac_ : Hmac, Hserde : RpcSerde}.
(** One connection of the accept loop: what the node is then, what was written to the peer,
    and whether the loop ends. [room] is how much can be written. *)
(* src: runtime.rs:300-363 run_with_config (connection) *)
Definition serve_connection (auth : RpcAuthConfig) (incoming : Incoming) (room : option nat) (v : NodeService) :
    option (NodeService * bytes * bool) :=
  match read_message request_of_text incoming with
  | Err _ => Some (v, [], false)
  | Ok request =>
      match authenticate_rpc_request request auth with
      | Err response => Some (v, (write_message room (response_text response)).1, false)
      | Ok request =>
          '(v, response) ← handle_mut v request;
          Some (v, (write_message room (response_text response)).1, response_requests_runtime_shutdown response)
      end
  end.
End service.
End NodeService.
