(* ===== verification/ServiceHistory.v ===== *)
(** * The service over time

    What requests over RPC can do to a node: it moves only by the calls the network could
    make as well, by a submitted entry the pool admits, by a reward address of its own
    network and by a stop ([rpc_call]); without credentials nothing happens, and out of
    sync no transaction and no block is taken. *)
From stdpp Require Import options.
From S2P Require Import Prelude Bytes Text TextFacts Constants Crypto Keccak Network Rules Transaction Block Pow Address.
From S2P Require Import Genesis Errors Utxo Validation BlockValidation Lmdb Chainstate Db Mempool Node Mining.
From S2P Require Import P2pConfig Protocol CompactBlock Handshake BanList HeadersSync Downloader IpAddr AddressManager.
From S2P Require Import Connection Relay SideBranches NodeQueries NodeSync NodeSyncBlocks NodeSyncPeers NodeSyncFacts NodeSyncReturns NodeSyncHistory.
From S2P Require Import OperatorConfig Rpc WalletHistory Service.

#[local] Set Default Proof Using "Type*".

Section requests.
Context `{Henv : ProcessEnv, Hs : Sha3, Hf : FalconBackend, Hg : !GenesisReady Hs, Hd : Database, Ha : !Archive,
  Hstore : !ServiceStorage, Hviews : !Views, Hr : Rounds}.

(** How a request moves the node, its synchronization apart. *)
Inductive rpc_call : Node -> Node -> Prop :=
| rpc_submit (Hm : Moment) n tx fee :
    rpc_call n (Node.submit_transaction n (MempoolEntry.new NodeSync.now_unix tx fee)).1
| rpc_node (Hm : Moment) n n' : node_call n n' -> rpc_call n n'
| rpc_reward n address digest :
    decode_base56_address address = Some (Ok (digest, Node.network n)) -> rpc_call n (NodeService.with_reward_address n address)
| rpc_health n r : rpc_call n (NodeService.save_peer_health n r)
| rpc_stop n : rpc_call n (Node.with_chainstate n (Chainstate.on_storage (chainstate n) mark_clean_shutdown).1).

Definition parts (v : NodeService) : NodeSync * Node := (sv_sync v, sv_node v).
Notation moves v v' := (rtc (sync_step rpc_call) (parts v) (parts v')).

Lemma moves_node v n : rpc_call (sv_node v) n -> moves v (NodeService.with_node v n).
Proof. intros H. apply rtc_once. by apply step_other. Qed.

Section moment.
Context {Hm : Moment}.

Lemma broadcast_moves v tx : moves v (NodeService.broadcast_transaction_value v tx).1.
Proof.
  unfold NodeService.broadcast_transaction_value. destruct (NodeService.transaction_submission_blocked _); [done|].
  pose proof (call_transaction (sv_node v) tx) as Hcall.
  destruct (Node.accept_relayed_transaction _ _ _) as [n verdict]. cbn [fst] in Hcall.
  assert (moves v (NodeService.with_node v n)) as Hmoves by (apply moves_node; by eapply rpc_node).
  destruct verdict as [txid|]; [|done]. by destruct (Mempool.entries _ !! _).
Qed.
Lemma addnode_moves v args : moves v (NodeService.command_addnode v args).1.
Proof.
  unfold NodeService.command_addnode. destruct args as [|address rest]; [done|]. cbv zeta.
  destruct (1 <? length rest)%nat; [done|]. destruct (negb _); [done|].
  unfold NodeService.p2p_open_outbound. cbn [sv_sync sv_node NodeService.with_sync].
  pose proof (step_open rpc_call Hm address (SyncPeers.add_manual_peer (sv_sync v) address) (sv_node v)) as Hopen.
  destruct (SyncPeers.open_outbound _ _ _) as [s verdict]. cbn [fst] in Hopen.
  assert (moves v (NodeService.with_sync v s)) as Hmoves.
  { eapply rtc_l; [apply (step_manual rpc_call address)|]. by apply rtc_once. }
  by destruct verdict.
Qed.
Lemma peer_health_parts v remote_addr : parts (NodeService.p2p_peer_health v remote_addr).1 = parts v.
Proof.
  unfold NodeService.p2p_peer_health. destruct (peer_health_cache v !! remote_addr); [done|]. cbv zeta. cbn [fst].
  by destruct (storage _) as [d|]; [destruct (load_health d remote_addr) as [[r|]|]|].
Qed.
Lemma disconnect_moves v address stopping : moves v (NodeService.p2p_disconnect_peer v address stopping).1.
Proof.
  unfold NodeService.p2p_disconnect_peer.
  pose proof (step_drop rpc_call Hm address (sv_sync v) (sv_node v)) as Hdrop.
  destruct (SyncPeers.disconnect_peer _ _ _) as [s known]. cbn [fst] in Hdrop. cbv zeta. set (v1 := NodeService.with_traffic _ _).
  assert (moves v v1) as Hmoves by by apply rtc_once. destruct (known && negb stopping); [|exact Hmoves].
  pose proof (peer_health_parts v1 address) as Hparts. destruct (NodeService.p2p_peer_health v1 address) as [v2 h].
  cbn [fst] in *. eapply rtc_r; [rewrite <- Hparts in Hmoves; exact Hmoves|]. apply step_other, rpc_health.
Qed.
Lemma disconnectnode_moves v args : moves v (NodeService.command_disconnectnode v args).1.
Proof.
  unfold NodeService.command_disconnectnode. destruct (NodeService.single_arg args) as [address|]; [|done].
  pose proof (disconnect_moves v address false) as Hmoves. by destruct (NodeService.p2p_disconnect_peer _ _ _).
Qed.
Lemma command_moves v d args v' data : NodeService.execute_command_data_mut v d args = Some (v', data) -> moves v v'.
Proof.
  unfold NodeService.execute_command_data_mut.
  destruct (NodeService.named "stop" d).
  { intros [= E]. replace v' with (NodeService.command_stop v args).1 by by rewrite E.
    unfold NodeService.command_stop. destruct (NodeService.no_args args); [|done]. apply rtc_once, step_other, rpc_stop. }
  destruct (NodeService.named "addnode" d).
  { intros [= E]. replace v' with (NodeService.command_addnode v args).1 by by rewrite E. apply addnode_moves. }
  destruct (NodeService.named "disconnectnode" d).
  { intros [= E]. replace v' with (NodeService.command_disconnectnode v args).1 by by rewrite E. apply disconnectnode_moves. }
  destruct (NodeService.named "setminingrewardaddress" d).
  { unfold NodeService.command_setminingrewardaddress. destruct (NodeService.single_arg args) as [address|]; [|by intros [= <- _]].
    cbv zeta. case_bool_decide; [by intros [= <- _]|]. intros ([[digest n]|] & Hdec & Hrun)%bind_Some; [|by injection Hrun as <- _].
    case_bool_decide as Hn; cbn [negb] in Hrun; injection Hrun as <- _; [|done].
    apply moves_node. eapply rpc_reward. subst n. exact Hdec. }
  destruct (NodeService.named "sendrawtransaction" d); [|by intros [= <- _]].
  intros [= E]. replace v' with (NodeService.command_sendrawtransaction v args).1 by by rewrite E.
  unfold NodeService.command_sendrawtransaction. destruct (_ ≫= _) as [tx|]; [apply broadcast_moves|done].
Qed.
Lemma handle_moves v request : forall v' response, NodeService.handle_mut v request = Some (v', response) -> moves v v'.
Proof.
  induction request as [user pass request IH| | | | |b|tx fee| |addresses| | |i]; intros v' response;
    cbn [NodeService.handle_mut]; try (intros (? & _ & [= <- _])%fmap_Some; done).
  - apply IH.
  - intros [= E]. replace v' with (NodeService.submit_block v b).1 by by rewrite E. unfold NodeService.submit_block.
    destruct (NodeService.stale_mined_block_error _ _); [done|].
    pose proof (call_block (sv_node v) b) as Hcall. destruct (Node.submit_block _ _ _ _) as [n verdict]. cbn [fst] in Hcall.
    assert (moves v (NodeService.with_node v n)) as Hmoves by (apply moves_node; by eapply rpc_node).
    destruct verdict; [|done]. cbn [fst]. eapply rtc_r; [exact Hmoves|]. apply step_prime.
  - intros [= E]. replace v' with (NodeService.submit_transaction v tx fee).1 by by rewrite E.
    unfold NodeService.submit_transaction. destruct (NodeService.transaction_submission_blocked _); [done|].
    pose proof (rpc_submit Hm (sv_node v) tx fee) as Hcall. destruct (Node.submit_transaction _ _). by apply moves_node.
  - unfold NodeService.execute_command_mut. destruct (NodeService.prepare_command_execution v i) as [d|]; [|by intros [= <- _]].
    destruct (requires_mutable_access _).
    + intros ([v1 data] & Hrun & [= <- _])%bind_Some. by eapply command_moves.
    + by intros (? & _ & [= <- _])%fmap_Some.
Qed.
Context `{Hmac_ : Hmac, Hserde : RpcSerde}.
Lemma connection_moves auth incoming room v v' out ends :
  NodeService.serve_connection auth incoming room v = Some (v', out, ends) -> moves v v'.
Proof.
  unfold NodeService.serve_connection. destruct (read_message _ _) as [request|]; [|by intros [= <- _ _]].
  destruct (authenticate_rpc_request _ _) as [inner|]; [|by intros [= <- _ _]].
  intros ([v1 response] & Hrun & [= <- _ _])%bind_Some. by eapply handle_moves.
Qed.
End moment.

(** ** Histories *)

(** What a running service does, at some moment: a connection over RPC, a message of a
    peer, the maintenance of a session, its beginning and its end, what is counted and
    recorded of peers. *)
Inductive service_step `{Hmac_ : Hmac, Hserde : RpcSerde} : NodeService -> NodeService -> Prop :=
| serve_rpc (Hm : Moment) auth incoming room v v' out ends :
    NodeService.serve_connection auth incoming room v = Some (v', out, ends) -> service_step v v'
| serve_message (Hm : Moment) peer message v v' r : NodeService.p2p_receive v peer message = Some (v', r) -> service_step v v'
| serve_maintenance (Hm : Moment) peer v v' events :
    NodeService.p2p_maintain_peer_sync v peer = Some (v', events) -> service_step v v'
| serve_accept (Hm : Moment) peer v : service_step v (NodeService.p2p_accept_inbound v peer).1
| serve_open (Hm : Moment) peer v : service_step v (NodeService.p2p_open_outbound v peer).1
| serve_disconnect (Hm : Moment) peer stopping v : service_step v (NodeService.p2p_disconnect_peer v peer stopping).1
| serve_health r v : service_step v (NodeService.p2p_save_peer_health v r)
| serve_sent (Hm : Moment) peer count v : service_step v (NodeService.p2p_note_bytes_sent v peer count)
| serve_received (Hm : Moment) peer count v : service_step v (NodeService.p2p_note_bytes_received v peer count).

Lemma service_moves `{Hmac_ : Hmac, Hserde : RpcSerde} v v' : service_step v v' -> moves v v'.
Proof using All.
  intros Hstep. destruct Hstep as [Hm auth incoming room v v' out ends Hrun|Hm peer m v v' r Hrun|Hm peer v v' events Hrun|Hm peer v|Hm peer v
    |Hm peer stopping v|r v|Hm peer count v|Hm peer count v].
  - by eapply connection_moves.
  - unfold NodeService.p2p_receive in Hrun. apply bind_Some in Hrun as ([[s n] verdict] & Hrun & [= <- _]).
    apply rtc_once. by eapply step_receive.
  - unfold NodeService.p2p_maintain_peer_sync in Hrun. apply bind_Some in Hrun as ([s events'] & Hrun & [= <- _]).
    apply rtc_once. by eapply step_maintain.
  - unfold NodeService.p2p_accept_inbound. pose proof (step_accept rpc_call Hm peer (sv_sync v) (sv_node v)) as Hstep.
    destruct (SyncPeers.accept_inbound _ _). by apply rtc_once.
  - unfold NodeService.p2p_open_outbound. pose proof (step_open rpc_call Hm peer (sv_sync v) (sv_node v)) as Hstep.
    destruct (SyncPeers.open_outbound _ _ _). by apply rtc_once.
  - apply disconnect_moves.
  - apply rtc_once. apply step_other, rpc_health.
  - unfold NodeService.p2p_note_bytes_sent. by destruct (count =? 0).
  - unfold NodeService.p2p_note_bytes_received. by destruct (count =? 0).
Qed.

(** *** The configuration *)

Lemma config_revalidate n : config (Node.revalidate_mempool_if_needed n) = config n.
Proof using. unfold Node.revalidate_mempool_if_needed. by destruct (_ =? 0). Qed.
Lemma config_admit n e : config (Node.admit_transaction n e).1 = config n.
Proof using. unfold Node.admit_transaction. by destruct (Mempool.admit_entry _ _ _ _ _) as [m []]. Qed.
Lemma config_block env now n b : config (Node.submit_block env now n b).1 = config n.
Proof using.
  unfold Node.submit_block, Node.connect_block. destruct (Chainstate.connect_block _ _ _ _) as [c [u|[]]]; [|done..].
  cbv zeta. cbn [fst]. by rewrite config_revalidate.
Qed.
Lemma config_branch env now n branch : config (Node.consider_branch env now n branch).1 = config n.
Proof using.
  unfold Node.consider_branch. destruct (Chainstate.select_branch _ _ _ _) as [c [sel|e]]; [|done].
  destruct (Chainstate.outcome sel); [|set (m := Node.with_mempool _ _)|done]; cbn [fst]; rewrite config_revalidate; [done|].
  change (config n) with (config m). generalize m. induction (Chainstate.disconnected sel ≫= _) as [|tx txs IH]; intros m'; [done|].
  cbn [foldl]. rewrite IH. unfold Node.readmit. destruct (transaction_fee_from_lookup _ _); [apply config_admit|done].
Qed.
Lemma config_call `{Hm : Moment} n n' : node_call n n' -> config n' = config n.
Proof using.
  intros Hcall. destruct Hcall as [n b|n branch|n tx|n peer h now|n address h now].
  - apply config_block.
  - apply config_branch.
  - unfold Node.accept_relayed_transaction. destruct (Transaction.is_coinbase tx); [done|].
    destruct (transaction_fee_from_lookup _ _); [apply config_admit|done].
  - unfold NodeQueries.observe_peer. destruct (NodeQueries.load_peer_record n peer); [|done].
    unfold NodeQueries.save_peer_record. by destruct (ChainQueries.save_peer _ _).
  - unfold NodeQueries.observe_peer_address. destruct (NodeQueries.load_peer_record n _); [|done].
    unfold NodeQueries.save_peer_record; by destruct (ChainQueries.save_peer _ _).
Qed.

(** The network stays, and rewards go to an address of it, if they do not go where they did. *)
Definition configured (c : NodeConfig) (n : Node) : Prop :=
  cfg_network (config n) = cfg_network c /\ cfg_mempool (config n) = cfg_mempool c /\
  (cfg_mining_reward_address (config n) = cfg_mining_reward_address c \/
   exists digest, decode_base56_address (cfg_mining_reward_address (config n)) = Some (Ok (digest, cfg_network c))).
Lemma configured_move c n n' : configured c n -> node_move rpc_call n n' -> configured c n'.
Proof using.
  assert (forall n n', config n' = config n -> configured c n -> configured c n') as Hsame.
  { unfold configured. by intros x y ->. }
  intros Hc [Hmove|[Hm Hcall]]; [|eapply Hsame; [by eapply config_call|exact Hc]]. revert Hc.
  destruct Hmove as [Hm n tx fee|Hm n n2 Hcall|n address digest Hdec|n r|n]; intros Hc.
  - eapply Hsame; [apply config_admit|exact Hc].
  - eapply Hsame; [by eapply config_call|exact Hc].
  - destruct Hc as (Hnet & Hpool & _). split_and!; [done..|]. right. exists digest. cbn. rewrite Hdec. unfold Node.network. by rewrite Hnet.
  - by apply (Hsame n).
  - by apply (Hsame n).
Qed.

(** C30: Whatever is asked over RPC, with whatever credentials, and whatever peers do in
    between: the sessions, the block scheduler and the pool of side branches keep within
    their limits, as without RPC; the node moves only by the calls the network makes too, by
    transactions its memory pool admits, by records of peers, by a stop, and by a change of
    the address that rewards go to; and that address is the one it was, or one of the node's
    own network, which stays. *)
Theorem service_safe `{Hmac_ : Hmac, Hserde : RpcSerde} net v0 v :
  sv_sync v0 = NodeSync.new net -> rtc service_step v0 v ->
  sync_ok net (sv_sync v) /\ rtc (node_move rpc_call) (sv_node v0) (sv_node v) /\ configured (config (sv_node v0)) (sv_node v).
Proof.
  intros Hnew Hreach.
  assert (sync_ok net (sv_sync v) /\ rtc (node_move rpc_call) (sv_node v0) (sv_node v)) as [Hok Hnode].
  { refine (rtc_ind_r (fun v => sync_ok net (sv_sync v) /\ rtc (node_move rpc_call) (sv_node v0) (sv_node v)) v0 _ _ v Hreach).
    - rewrite Hnew. split; [apply new_ok|done].
    - intros v1 v2 _ Hstep%service_moves [H1 H2]. change (sv_sync v2) with (parts v2).1. change (sv_node v2) with (parts v2).2.
      refine (rtc_ind_r (fun p => sync_ok net p.1 /\ rtc (node_move rpc_call) (sv_node v0) p.2) (parts v1) _ _ (parts v2) Hstep);
        [done|].
      intros [s1 n1] [s2 n2] _ Hmove [H3 H4]. by eapply step_keeps. }
  split_and!; [done..|].
  refine (rtc_ind_r (fun n => configured (config (sv_node v0)) n) (sv_node v0) _ _ (sv_node v) Hnode).
  - split_and!; [done..|]. by left.
  - intros n1 n2 _ Hmove Hc. by eapply configured_move.
Qed.
End requests.

(** ** One request *)

Section request.
Context `{Henv : ProcessEnv, Hs : Sha3, Hf : FalconBackend, Hg : !GenesisReady Hs, Hd : Database, Ha : !Archive, Hm : Moment,
  Hstore : !ServiceStorage, Hviews : !Views}.

(** The pool and the chain as they were, the storage apart. *)
Definition ledger_kept (n n' : Node) : Prop :=
  mempool n' = mempool n /\ exists db, chainstate n' = Chainstate.with_storage (chainstate n) db.
Lemma ledger_kept_refl n : ledger_kept n n.
Proof using. split; [done|]. exists (storage (chainstate n)). by destruct (chainstate n). Qed.
Lemma ledger_kept_storage n op : ledger_kept n (Node.with_chainstate n (Chainstate.on_storage (chainstate n) op).1).
Proof using.
  split; [done|]. cbn [Node.with_chainstate chainstate]. destruct (Chainstate.on_storage (chainstate n) op) as [c r] eqn:E.
  by apply on_storage_spec in E.
Qed.
Lemma ledger_kept_reward n address : ledger_kept n (NodeService.with_reward_address n address).
Proof using. split; [done|]. exists (storage (chainstate n)). cbn. by destruct (chainstate n). Qed.
Lemma disconnect_ledger v address stopping : ledger_kept (sv_node v) (sv_node (NodeService.p2p_disconnect_peer v address stopping).1).
Proof.
  unfold NodeService.p2p_disconnect_peer. destruct (SyncPeers.disconnect_peer _ _ _) as [s known]. cbv zeta.
  set (v1 := NodeService.with_traffic _ _). destruct (known && negb stopping); [|apply (ledger_kept_refl (sv_node v1))].
  pose proof (peer_health_parts v1 address) as Hparts. destruct (NodeService.p2p_peer_health v1 address) as [v2 h].
  injection Hparts as _ Hnode. cbn [fst NodeService.p2p_save_peer_health NodeService.with_node sv_node NodeService.with_health].
  cbn [fst] in Hnode. rewrite Hnode. apply (ledger_kept_storage (sv_node v1)).
Qed.
Lemma unsynced_command v d args v' data :
  NodeService.chain_synced (NodeService.node_status v) = false ->
  NodeService.execute_command_data_mut v d args = Some (v', data) -> ledger_kept (sv_node v) (sv_node v').
Proof.
  intros Hsync. unfold NodeService.execute_command_data_mut.
  destruct (NodeService.named "stop" d).
  { intros [= E]. replace v' with (NodeService.command_stop v args).1 by by rewrite E. unfold NodeService.command_stop.
    destruct (NodeService.no_args args); [apply ledger_kept_storage|apply ledger_kept_refl]. }
  destruct (NodeService.named "addnode" d).
  { intros [= E]. replace v' with (NodeService.command_addnode v args).1 by by rewrite E. unfold NodeService.command_addnode.
    destruct args as [|address rest]; [apply ledger_kept_refl|]. cbv zeta.
    destruct (1 <? length rest)%nat; [apply ledger_kept_refl|]. destruct (negb _); [apply ledger_kept_refl|].
    unfold NodeService.p2p_open_outbound. destruct (SyncPeers.open_outbound _ _ _) as [s []]; apply ledger_kept_refl. }
  destruct (NodeService.named "disconnectnode" d).
  { intros [= E]. replace v' with (NodeService.command_disconnectnode v args).1 by by rewrite E.
    unfold NodeService.command_disconnectnode. destruct (NodeService.single_arg args) as [address|]; [|apply ledger_kept_refl].
    pose proof (disconnect_ledger v address false) as Hkept. by destruct (NodeService.p2p_disconnect_peer _ _ _). }
  destruct (NodeService.named "setminingrewardaddress" d).
  { unfold NodeService.command_setminingrewardaddress. destruct (NodeService.single_arg args) as [address|];
      [|intros [= <- _]; apply ledger_kept_refl].
    cbv zeta. case_bool_decide; [intros [= <- _]; apply ledger_kept_refl|]. intros ([[digest n]|] & _ & Hrun)%bind_Some;
      [|injection Hrun as <- _; apply ledger_kept_refl].
    destruct (negb _); injection Hrun as <- _; [apply ledger_kept_refl|apply (ledger_kept_reward (sv_node v))]. }
  destruct (NodeService.named "sendrawtransaction" d); [|intros [= <- _]; apply ledger_kept_refl].
  intros [= E]. replace v' with (NodeService.command_sendrawtransaction v args).1 by by rewrite E.
  unfold NodeService.command_sendrawtransaction. destruct (_ ≫= _) as [tx|]; [|apply ledger_kept_refl].
  unfold NodeService.broadcast_transaction_value, NodeService.transaction_submission_blocked. rewrite Hsync. apply ledger_kept_refl.
Qed.

(** C31: A service that is not in sync takes no transaction and no block, whatever is asked of
    it: its memory pool and its chain are as they were, but for what it stores of peers and
    of a stop; and it gives no template to mine on. *)
Theorem unsynced_service_takes_nothing v request v' response :
  NodeService.chain_synced (NodeService.node_status v) = false -> NodeService.handle_mut v request = Some (v', response) ->
  ledger_kept (sv_node v) (sv_node v') /\ NodeService.get_block_template v = Some (Err InvalidRequest).
Proof.
  intros Hsync Hrun. split; [|by unfold NodeService.get_block_template, NodeService.mining_template_blocked; rewrite Hsync].
  revert v' response Hrun.
  induction request as [user pass request IH| | | | |b|tx fee| |addresses| | |i]; intros v' response;
    cbn [NodeService.handle_mut]; try (intros (? & _ & [= <- _])%fmap_Some; apply ledger_kept_refl).
  - apply IH.
  - intros [= E]. replace v' with (NodeService.submit_block v b).1 by by rewrite E.
    unfold NodeService.submit_block, NodeService.stale_mined_block_error. rewrite Hsync, andb_false_r. apply ledger_kept_refl.
  - intros [= E]. replace v' with (NodeService.submit_transaction v tx fee).1 by by rewrite E.
    unfold NodeService.submit_transaction, NodeService.transaction_submission_blocked. rewrite Hsync. apply ledger_kept_refl.
  - unfold NodeService.execute_command_mut. destruct (NodeService.prepare_command_execution v i) as [d|];
      [|intros [= <- _]; apply ledger_kept_refl].
    destruct (requires_mutable_access _).
    + intros ([v1 data] & Hrun & [= <- _])%bind_Some. by eapply unsynced_command.
    + intros (? & _ & [= <- _])%fmap_Some. apply ledger_kept_refl.
Qed.

(** A command changes something only when it is registered with a permission for it, and
    confirmed when it is dangerous. *)
Theorem commands_need_permission v i v' response :
  NodeService.execute_command_mut v i = Some (v', response) ->
  v' = v \/ exists d, command_definition (trim (ci_name i)) = Some d /\ requires_mutable_access (cd_permission d) = true
    /\ (cd_dangerous d = true -> ci_confirmed i = true).
Proof.
  unfold NodeService.execute_command_mut, NodeService.prepare_command_execution.
  destruct (command_definition _) as [d|]; [|intros [= <- _]; by left].
  destruct (cd_dangerous d && negb (ci_confirmed i)) eqn:Hconf; [intros [= <- _]; by left|].
  do 2 (match goal with |- context [if ?c then Err _ else _] => destruct c end; [intros [= <- _]; by left|]).
  destruct (requires_mutable_access _) eqn:Hmut; [|intros (? & _ & [= <- _])%fmap_Some; by left].
  intros _. right. exists d. split_and!; [done..|]. intros Hdanger. rewrite Hdanger in Hconf. by destruct (ci_confirmed i).
Qed.

(** *** Routing *)

Definition routed (d : CommandDefinition) : bool :=
  if requires_mutable_access (cd_permission d)
  then NodeService.named "stop" d || NodeService.named "addnode" d || NodeService.named "disconnectnode" d
       || NodeService.named "setminingrewardaddress" d || NodeService.named "sendrawtransaction" d
  else bool_decide (cd_name d ∈ NodeService.read_commands).
Lemma all_routed : forallb routed COMMANDS = true.
Proof using. by vm_compute. Qed.
Lemma single_arg_error args e : NodeService.single_arg args = Err e -> e = InvalidRequest.
Proof using. destruct args as [|? []]; by intros [= <-]. Qed.
Lemma no_args_error args e : NodeService.no_args args = Err e -> e = InvalidRequest.
Proof using. unfold NodeService.no_args. case_bool_decide; by intros [= <-]. Qed.
Lemma parse_raw_error raw e : NodeService.parse_raw_transaction_hex raw = Err e -> e = InvalidRequest.
Proof using.
  unfold NodeService.parse_raw_transaction_hex.
  do 4 (match goal with |- context [if ?c then Err _ else _] => destruct c end; [by intros [= <-]|]).
  destruct (hex_decode _) as [bs|]; [|by intros [= <-]]. cbn [ok_or mbind result_bind].
  destruct (Transaction.from_full_bytes bs); [|by intros [= <-]]. cbn [ok_or mbind result_bind].
  destruct (negb _); by intros [= <-].
Qed.
Lemma broadcast_error v tx : (NodeService.broadcast_transaction_value v tx).2 <> Err MethodNotFound.
Proof.
  unfold NodeService.broadcast_transaction_value. destruct (NodeService.transaction_submission_blocked _); [done|].
  destruct (Node.accept_relayed_transaction _ _ _) as [n [txid|e]]; [|done]. by destruct (Mempool.entries _ !! _).
Qed.

(** Every registered command has a handler, and it is the one its permission calls for: one
    that may change the node for those that need mutable access, one that reads for the
    others. *)
Theorem registry_is_served v d args : d ∈ COMMANDS ->
  if requires_mutable_access (cd_permission d)
  then forall v', NodeService.execute_command_data_mut v d args <> Some (v', Err MethodNotFound)
  else NodeService.execute_command_data v d args = Some (Err MethodNotFound) ->
       render_view (sv_sync v) (sv_node v) (cd_name d) args = Some (Err MethodNotFound).
Proof.
  intros Hin. pose proof (proj1 (forallb_forall _ _) all_routed d) as Hall.
  specialize (Hall (proj1 (list_elem_of_In _ _) Hin)). unfold routed in Hall. destruct (requires_mutable_access _).
  - intros v' Hrun. unfold NodeService.execute_command_data_mut in Hrun.
    destruct (NodeService.named "stop" d).
    { injection Hrun as Hrun. apply (f_equal snd) in Hrun. unfold NodeService.command_stop in Hrun.
      destruct (NodeService.no_args args) eqn:Earg; [done|]. apply no_args_error in Earg. by subst. }
    destruct (NodeService.named "addnode" d).
    { injection Hrun as Hrun. apply (f_equal snd) in Hrun. unfold NodeService.command_addnode in Hrun.
      destruct args as [|address rest]; [done|]. cbv zeta in Hrun. destruct (1 <? length rest)%nat; [done|].
      destruct (negb _); [done|]. by destruct (NodeService.p2p_open_outbound _ _) as [? []]. }
    destruct (NodeService.named "disconnectnode" d).
    { injection Hrun as Hrun. apply (f_equal snd) in Hrun. unfold NodeService.command_disconnectnode in Hrun.
      destruct (NodeService.single_arg args) eqn:Earg; [by destruct (NodeService.p2p_disconnect_peer _ _ _)|].
      apply single_arg_error in Earg. by subst. }
    destruct (NodeService.named "setminingrewardaddress" d).
    { unfold NodeService.command_setminingrewardaddress in Hrun. destruct (NodeService.single_arg args) eqn:Earg;
        [|apply single_arg_error in Earg; by subst].
      cbv zeta in Hrun. destruct (bool_decide _); [done|]. apply bind_Some in Hrun as ([[digest n]|] & _ & Hrun); [|done].
      by destruct (negb _). }
    destruct (NodeService.named "sendrawtransaction" d).
    { injection Hrun as Hrun. apply (f_equal snd) in Hrun. unfold NodeService.command_sendrawtransaction in Hrun.
      destruct (NodeService.single_arg args) as [raw|] eqn:Earg; cbn [mbind result_bind] in Hrun;
        [|apply single_arg_error in Earg; by subst].
      destruct (NodeService.parse_raw_transaction_hex raw) eqn:Eraw; [by apply broadcast_error in Hrun|].
      apply parse_raw_error in Eraw. by subst. }
    done.
  - unfold NodeService.execute_command_data. intros Hrun.
    destruct (NodeService.named "getblockcount" d).
    { injection Hrun as Hrun. destruct (NodeService.no_args args) eqn:Earg; [done|]. apply no_args_error in Earg. by subst. }
    destruct (NodeService.named "getbestblockhash" d).
    { injection Hrun as Hrun. destruct (NodeService.no_args args) eqn:Earg; [done|]. apply no_args_error in Earg. by subst. }
    destruct (_ || _).
    { unfold NodeService.command_validate_athoaddress in Hrun. destruct (NodeService.single_arg args) eqn:Earg;
        [|apply single_arg_error in Earg; by subst].
      by apply bind_Some in Hrun as ([[]|] & _ & Hrun). }
    by rewrite Hall in Hrun.
Qed.

(** A request to validate an address panics on some text: the decoder slices the address
    inside a character, and the connection that asked ends the loop that serves all. *)
Theorem address_request_panics v (rest : bytes) (confirmed : bool) :
  length rest = 5%nat ->
  NodeService.handle_mut v (ExecuteCommand {| ci_name := str_bytes "validateaddress"; ci_args := [[x41; xc3; xa9] ++ rest];
                                              ci_confirmed := confirmed |}) = None.
Proof.
  intros Hlen. cbn [NodeService.handle_mut]. unfold NodeService.execute_command_mut, NodeService.prepare_command_execution.
  cbn [ci_name ci_args ci_confirmed].
  set (d := command "validateaddress" Util PublicRead false).
  assert (command_definition (trim (str_bytes "validateaddress")) = Some d) as -> by (vm_compute; reflexivity).
  change (cd_dangerous d) with false. change (cd_mainnet_allowed d) with true. change (cd_test_only d) with false.
  cbn [andb negb]. change (requires_mutable_access (cd_permission d)) with false. cbv iota.
  assert (NodeService.execute_command_data v d [[x41; xc3; xa9] ++ rest] = None) as ->; [|done].
  unfold NodeService.execute_command_data.
  assert (NodeService.named "getblockcount" d = false) as -> by (vm_compute; reflexivity).
  assert (NodeService.named "getbestblockhash" d = false) as -> by (vm_compute; reflexivity).
  assert (NodeService.named "validateathoaddress" d || NodeService.named "validateaddress" d = true) as -> by (vm_compute; reflexivity).
  unfold NodeService.command_validate_athoaddress. cbn [NodeService.single_arg]. by rewrite decode_address_panics.
Qed.

Context `{Hmac_ : Hmac, Hserde : RpcSerde}.
(** Who has no credentials is refused, and nothing happens. *)
Theorem strangers_change_nothing auth incoming room v :
  auth_enabled auth = true ->
  (forall user pass request, read_message request_of_text incoming = Ok (Authenticated user pass request) ->
     RpcAuthConfig.verify_username_password auth user pass = false) ->
  exists out, NodeService.serve_connection auth incoming room v = Some (v, out, false).
Proof.
  intros Hauth Hno. unfold NodeService.serve_connection. destruct (read_message _ _) as [request|e]; [|by eexists].
  unfold authenticate_rpc_request. rewrite Hauth. cbn [negb].
  destruct request as [user pass request| | | | | | | | | | |]; try by eexists.
  rewrite (Hno _ _ _ eq_refl). by eexists.
Qed.
End request.

(** ** Witnesses *)

#[local] Existing Instances plain_env Keccak.sha3_inst accepting_falcon keccak_genesis_ready null_database null_archive
  sample_moment sample_rounds sample_hmac.
#[local] Instance null_service_storage : ServiceStorage :=
  {| load_health := fun _ _ => Ok None; save_health := fun db _ => (db, Ok tt); mark_clean_shutdown := fun db => (db, Ok tt) |}.
#[local] Instance no_views : Views := fun _ _ _ _ => Some (Err InternalError).
(** One request has a text: a confirmed stop. *)
Definition stop_request : RpcRequest :=
  ExecuteCommand {| ci_name := str_bytes "stop"; ci_args := []; ci_confirmed := true |}.
#[local] Instance stop_serde : RpcSerde :=
  {| request_text := fun _ => None; request_of_text := fun bs => if bool_decide (bs = str_bytes "stop") then Some stop_request else None;
     response_text := fun _ => None; response_of_text := fun _ => None |}.
Definition open_auth : RpcAuthConfig :=
  {| auth_enabled := false; auth_bind := auth_bind sample_auth; auth_port := auth_port sample_auth; username := [];
     password := []; password_hmac := None; cookie_auth := false; cookie_secret := None |}.
Definition stop_message : Incoming := {| arrived := le_u32 4 ++ str_bytes "stop"; then_ := EndOfStream |}.
Definition fresh_service : NodeService :=
  {| sv_rpc_auth := open_auth; sv_sync := fresh_sync; sv_node := regnet_node; sv_running := true;
     network_runtime := {| nr_bytes_sent := 0; nr_bytes_received := 0; nr_peers := ∅ |}; peer_health_cache := ∅ |}.
Definition dialled_service : NodeService := (NodeService.p2p_accept_inbound fresh_service sync_peer).1.
Lemma service_safe_witness :
  exists v out ends, NodeService.serve_connection open_auth stop_message None dialled_service = Some (v, out, ends)
    /\ sv_running v = false /\ sync_ok Regnet (sv_sync v) /\ configured regnet_config (sv_node v).
Proof.
  assert (match NodeService.serve_connection open_auth stop_message None dialled_service with
          | Some (v, _, ends) => negb (sv_running v) && ends | None => false end = true) as Htest by by vm_compute.
  assert (service_step fresh_service dialled_service) as Hstep by exact (serve_accept sample_moment sync_peer fresh_service).
  revert Htest Hstep. generalize dialled_service. intros v1 Htest Hstep.
  destruct (NodeService.serve_connection open_auth stop_message None v1) as [[[v out] ends]|] eqn:E; [|done].
  exists v, out, ends. apply andb_true_iff in Htest as [Hstopped _]. split; [done|]. split; [by apply negb_true_iff in Hstopped|].
  destruct (service_safe Regnet fresh_service v) as (H1 & _ & H2); [reflexivity| |by split].
  eapply rtc_l; [exact Hstep|]. apply rtc_once. by eapply (serve_rpc sample_moment).
Defined.

(** A header of height 1,000,000 is awaited. *)
Definition waiting_service : NodeService :=
  {| sv_rpc_auth := open_auth; sv_sync := SyncBlocks.note_observed_peer_tip sync_peer claimed_header false fresh_sync regnet_node; sv_node := regnet_node;
     sv_running := true; network_runtime := network_runtime fresh_service; peer_health_cache := ∅ |}.
Lemma unsynced_service_takes_nothing_witness :
  exists v response, NodeService.handle_mut waiting_service (SubmitBlock first_block) = Some (v, response)
    /\ ledger_kept (sv_node waiting_service) (sv_node v).
Proof.
  assert (NodeService.chain_synced (NodeService.node_status waiting_service) = false) as Hsync by by vm_compute.
  revert Hsync. generalize waiting_service. intros v Hsync.
  destruct (NodeService.handle_mut v (SubmitBlock first_block)) as [[v' response]|] eqn:E; [|done].
  exists v', response. split; [done|]. exact (proj1 (unsynced_service_takes_nothing v (SubmitBlock first_block) v' response Hsync E)).
Defined.
